(* ===== verification/_CoqProject ===== *)
-Q . S2P
Prelude.v
JsString.v
JsNumber.v
Types.v
JsValue.v
Collections.v
JsInteger.v
Lexer.v
Parser.v
Grammar.v
ParserFacts.v
ParserComplete.v
Pieces.v
TypeCheck.v
Compile.v
Runtime.v
RuntimeFacts.v
Trace.v
TypeSound.v
Frame.v
Display.v
DisplayFacts.v
FixedPrice.v
Written.v
TimeTiers.v
Visual.v
VisualFacts.v
Structure.v
Json.v
JsonText.v
Schema.v
RequestRules.v
RequestFacts.v
BillingVars.v
TierExpr.v
TierFacts.v
TaskExpr.v
TaskFacts.v
TaskMatrix.v
TaskBill.v
Currency.v
Catalogue.v
CatalogueFacts.v
DynamicPrice.v
DynamicFacts.v
ModelPricing.v
PricingFacts.v
PricingPanel.v
FlowGraph.v
FlowFacts.v
FlowConserve.v
AdvancedCustom.v
AdvancedFacts.v
ModelMapping.v
ChatMessage.v
StreamControl.v
ChatHandler.v
ChatFacts.v
Conversations.v
ConversationFacts.v
ConversationGroups.v
PlaygroundState.v
PlaygroundFacts.v
PlaygroundSaved.v
PlaygroundStorage.v
StorageFacts.v
CondDisplay.v
CondFacts.v
StatusCodes.v
AuthSession.v
AuthFacts.v
NavModules.v
NavFacts.v
Sidebar.v
SidebarFacts.v
ChannelForm.v
ChannelSettings.v
ChannelSave.v
HttpClient.v
HttpFacts.v
