(* ===== verification/Prelude.v ===== *)
(** * Verification of the new-api web frontend

    The program.  new-api is a gateway in front of model providers; its web frontend
    (under [web/src]) holds the logic by which prices are written, understood and shown
    to administrators and users, and the session logic of the browser.  This library
    models that logic in Rocq and proves it correct.  Paths below are relative to
    [web/src]; [B] is [features/pricing/lib/billing-expression].

    ** The parts and how they interact

    A price is a text in a small expression language, such as
    [p < 200 ? tier("base", p * 2 + c * 8) : tier("long", p * 4)].  The parser ([B/parser.ts])
    turns a text into a tree ([B/types.ts]), checks types, lists dependencies and
    request rules and keeps the result in a cache; the runtime ([B/runtime.ts])
    evaluates a tree for a usage, a request and a time; price tables ([B/display.ts])
    are read off trees, and so are the documents of the visual editor
    ([B/visual.ts]), which writes them back as edits of the text.  Request rules, the
    factors of a price that depend on the request, are read and written as texts by
    [features/pricing/lib/billing-expr.ts] on top of [B/structure.ts].  The editors of
    tiers and of task prices generate expression texts from their configurations
    and read them back ([tier-expr.ts] and [task-expr.ts] of [features/pricing/lib]).
    The catalogue of models lists, filters and sorts models and shows the prices
    that their expressions or ratios stand for ([dynamic-price.ts], [price.ts],
    [filters.ts] and [model-helpers.ts]), in the currency of the administrator
    ([lib/currency.ts]).  An administrator sets the prices of models in an editor
    ([features/model-pricing] and [features/system-settings/models]) that keeps ten
    JSON texts, one for each kind of price, and sends what differs.
    Beside prices stand components of their own: lists of HTTP status codes
    ([lib/http-status-code-rules.ts]), the login session ([lib/auth-session.ts],
    [lib/auth-session-sync.ts], [lib/session-hint.ts], [stores/auth-store.ts]) and the HTTP
    client that refreshes it and sends requests again ([lib/http-client.ts]), the
    settings that say which pages the header and the sidebar show and to whom
    ([lib/nav-modules.ts], [hooks/use-sidebar-config.ts] and their editors), the
    graph of usage on the dashboard ([features/dashboard/lib/flow.ts]), the routes
    of custom channels, the mapping of models of a channel and the form of a channel
    ([advanced-custom.ts], [model-mapping-validation.ts] and [channel-form.ts] of
    [features/channels/lib]), and the chat of the playground
    ([features/playground]): a controller of streams feeds chunks to a handler, which
    collects them and writes them into the list of messages; the state of the page
    keeps a list of conversations and stores it in the browser after a delay.

    ** Which file models what

    - [Prelude]: results of code that may throw ([result], [let!]), tactics, the hint
      database [newapi], lemmas on lists.
    - [JsString], [JsNumber], [JsInteger], [JsValue], [Json]: strings as lists of 16-bit code units with
      the methods the code calls, numbers as IEEE binary64 ([SpecFloat]) with
      decimal reading and shortest printing, values of type [unknown], [JSON.parse]
      and [JSON.stringify] of strings; [JsonText]: [JSON.stringify] of values, plain
      and with an indent of two, which [JSON.parse] reads back; [JsInteger] proves that sums
      of counts up to [2 ^ 53] are exact and that comparisons by difference are those of
      the integers, and does so for all finite numbers, as integers scaled by a
      common power of two.  [JsValue] also holds [readRequestPath] and [billingString] of
      [B/runtime.ts].  [Collections]: maps in order of insertion, objects as lists of
      properties, sorting; the order of [localeCompare] is the class [Collation], of
      which only what a theorem names is assumed.
    - [Types]: [B/types.ts].  [Lexer], [Parser]: class [BillingParser] of [B/parser.ts], its
      mutable fields as a record that is passed on.  [Grammar], [ParserFacts],
      [ParserComplete]: the grammar of the language as an inductive relation and the
      parser's correctness in both directions.  [Pieces], [Written]: how texts
      put together from pieces are tokenized and parsed, for the generators.  [TypeCheck], [Compile]: [checkExpressionTypes],
      [validateFixedPricingTree], [compileBillingExpression] and its cache.
    - [Runtime]: class [BillingRuntime]; [RuntimeFacts], [Trace], [TypeSound], [Frame] and
      [FixedPrice] prove its properties.  What the platform provides (lower case of
      header names, the calendar of a time zone) is the class [Platform], an argument of
      every definition that uses it; nothing is assumed of it.
    - [Display]: [B/display.ts]; [DisplayFacts] and [TimeTiers] relate the tables to the
      runtime.
    - [Visual]: [B/visual.ts]; [VisualFacts] proves the round trip.
    - [Structure]: [B/structure.ts].  [RequestRules]: the request rules of
      [features/pricing/lib/billing-expr.ts]; [RequestFacts] proves their round trips.
    - [BillingVars]: the table of variables, the readers of price tables of
      [billing-expr.ts] and [breakdown-tier-match.ts].  [TierExpr], [TierFacts]:
      [tier-expr.ts] and its generated expressions.  [TaskExpr], [TaskFacts], [TaskMatrix]:
      [task-expr.ts], its tiers and its matrix of prices; [TaskBill] evaluates its
      expressions.
    - [Currency]: [lib/currency.ts] and the currency of [stores/system-config-store.ts];
      [Intl.NumberFormat] is the class [Intl].  [Catalogue]: [filters.ts], [price.ts] and
      [model-helpers.ts] of [features/pricing/lib]; [CatalogueFacts] proves what is listed
      and which ratio is shown.  [DynamicPrice]: [dynamic-price.ts], a monad over the
      cache and the exceptions of the readers; [DynamicFacts] relates
      the entries to the editors, to bills and to the prices of all tiers.
    - [ModelPricing]: [model-pricing/pricing.ts], [currency.ts] and [buildPricingChanges], with
      [model-pricing-snapshots.ts] and [pricing-format.ts] of [system-settings/models];
      what a plain object inherits is the class [ObjectPrototype].  [PricingFacts]: what a
      draft changes.  [PricingPanel]: the state and handlers of [model-pricing-sheet.tsx]
      as steps on events, with [model-pricing-core.ts] and [model-pricing-panel.tsx].
    - [FlowGraph]: [lib/chart-palette.ts] and [features/dashboard/lib/flow.ts]; what the
      browser provides of colours is the class [ChartEnv].  [FlowFacts] and
      [FlowConserve] prove what the graph adds up to, its bound and what masking
      hides.
    - [AdvancedCustom], [AdvancedFacts]: [features/channels/lib/advanced-custom.ts]; the
      constructor [URL] of the browser is the class [UrlParser].  [ModelMapping]:
      [features/channels/lib/model-mapping-validation.ts].  [ChannelForm]: the form of a
      channel and its payloads ([channel-form.ts] of the same directory,
      [hooks/use-channel-mutate-form.ts] and [lib/admin-permissions.ts]), objects given by
      their members, with its validation and defaults, the constructor [URL] for proxies
      being the class [ProxyParser].  [ChannelSettings] follows the texts that hold the
      settings of a channel through a save, [ChannelSave] the whole payload.
    - [ChatMessage]: the functions on messages of [features/playground/lib].
      [StreamControl]: [hooks/use-stream-request.ts] and [lib/stream-utils.ts], the events
      of the sources as steps.  [ChatHandler]: [hooks/use-chat-handler.ts], with the
      queue of state updates of React, whose updaters run when the component
      renders or, if the queue is empty, at once.  [ChatFacts]: its properties.
      Clocks, generated ids and translations are arguments.
    - [Schema]: schemas of the package zod as data; its parser is the class [Zod] with the
      laws [ZodLaws], which [reference_zod] satisfies.  [Conversations]:
      [lib/storage/storage-schema.ts] and [lib/storage/conversations.ts] of the playground,
      with the quota and the failures of [localStorage] in the class [LocalStorage];
      [ConversationFacts] proves what is read back.  [ConversationGroups]:
      [lib/conversations/conversation-grouping.ts].  [PlaygroundState]:
      [hooks/use-playground-state.ts], its states, references, timer and handlers;
      [PlaygroundFacts] refines a table of conversations, [PlaygroundSaved] follows the
      storage.  [PlaygroundStorage], [StorageFacts]: [lib/storage/storage.ts],
      [lib/state/playground-state-utils.ts] and the settings of the hook.
    - [CondDisplay]: [B/condition-display.ts], conditions in words; translations and the
      formatters of the platform are the class [Presentation].  [CondFacts] relates the
      ranges to the runtime.
    - [StatusCodes]: [lib/http-status-code-rules.ts].
    - [AuthSession]: the four files of the session; an asynchronous refresh is cut at its
      suspension points into phases and the whole is the transition function [step];
      [AuthFacts] proves properties of every reachable state and interleaving.
      [HttpClient]: [lib/http-client.ts] on top of it, its calls cut at their suspension
      points and interleaved with the session, with the paths of [i18n/languages.ts];
      [HttpFacts] proves its properties.

    - [NavModules]: the setting of the header as the site reads it ([lib/nav-modules.ts],
      [hooks/use-top-nav-links.ts] and the guards of the routes) and as its editor does
      ([system-settings/maintenance/config.ts], [header-navigation-section.tsx]); [NavFacts]
      relates the two.  [Sidebar], [SidebarFacts]: the same for the sidebar
      ([use-sidebar-config.ts], [use-sidebar-data.ts] and [use-sidebar-view.ts] of [hooks],
      [sidebar-modules-section.tsx]).

    ** What the theorems show

    - Parsing: [parse] never runs out of fuel, it accepts exactly what the grammar derives,
      spans nest and identify nodes ([parse_exact], [parse_total], [parse_spans],
      [parse_spans_unique]).
    - Traversal, types and cache: the explicit-stack visitor is the post-order visit up to
      257 levels, the type check is recursive inference, the cache is transparent
      and holds at most 128 results ([visitExpression_postorder],
      [checkExpressionTypes_correct], [cache_transparent]).
    - Evaluation: well-typed trees evaluate to values of their type as long as no two
      dynamic operands are added, results depend only on the recorded dependencies and on
      the group and channel, which these leave out, bills are well formed, a rule reported as matched
      holds, fixed prices are charged once ([type_soundness], [evaluation_frame],
      [bill_wellformed], [matched_rule_holds], [fixed_price_bill], [evaluation_depth]).
    - Display refines evaluation: where the guards on group and channel hold that a table
      leaves out, the displayed tier is the one charged; without such guards and with time
      conditions that read only the time, the tiers shown as current are the ones in
      force ([displayed_tier_charged], [current_tier_in_force], [price_tables_total]).  A time range in words is exactly
      when its bounds hold, and the zone it names is the zone that is read
      ([described_range_exact], [description_zone]).
    - Editors: visual documents and request rules survive writing and reading, a price and
      its rules are told apart again ([visual_roundtrip], [request_rules_roundtrip],
      [combine_split_roundtrip], [split_top_level], [unwrap_parens]).
    - Generated expressions: the price table shown for an expression generated from a
      configuration with plain labels and conditions on all tiers but the last is this
      configuration ([generated_expression_limits] shows what the others do), a run of it charges the first tier that holds, and the editors
      of task prices read back what they generated ([generated_tiers_displayed],
      [generated_tiers_charged], [task_config_roundtrip], [task_matrix_roundtrip]).
      A bill of task prices is the constant and the quantities times the prices of
      the first tier that holds ([task_tiers_charged]).
    - Catalogue: the summary of a model shows the prices of the tier editor, with or without
      request rules next to them, the example on a card is what a generated expression
      without request rules bills, ranges are tight, the list holds exactly
      the models that pass the filters, in order, and the ratio shown is the least
      configured one ([catalogue_shows_editor_prices], [card_price_charged],
      [summary_ranges], [catalogue_exact], [display_ratio_best], [quota_types_partition],
      [offered_tags_select]).  Amounts are scaled by a positive rate, and prices are
      never shown as tokens ([billing_amount_shown], [billing_ignores_tokens]).
    - Prices of models: saving a draft changes the chosen models and nothing else, in the
      texts and in the request; once the price of the input was typed, the ratios that are
      saved are those of the prices on the page and no positive price is dropped; saving
      an unchanged model with canonical values stores what was stored; a synchronized expression is stored as it came
      ([pricing_draft_saved], [panel_saves_prices], [panel_reopen],
      [pricing_row_roundtrip], [sync_imports_literally], [signature_exact]).
    - Flow of usage: the graph is the sum of the rows by node and link, flow is conserved
      when the metric is a count (stages add up to the summary when nodes are
      aggregated and to what is left of it when they are hidden), stages respect the limit on nodes, filters are
      exact, highlights follow paths and masking hides labels ([flow_totals],
      [flow_conserved], [flow_node_limit], [flow_filter_exact], [flow_highlights],
      [masked_labels_hidden]).
    - Custom channels: the validation accepts exactly the well-formed configurations, what
      the editor writes it reads back, editing one part keeps the others
      ([custom_config_valid], [custom_config_roundtrip], [custom_editing]).  Mappings:
      the models reported as missing are exactly those of the mapping that are not
      listed, and lists of models survive writing and reading
      ([mapping_models_exact], [models_text_roundtrip]).  Forms of channels: opening and
      saving a channel changes nothing of it when its base URL and groups are in normal form, what the validation accepted is what is
      stored, and an update holds no sensitive member without the permission
      ([channel_reopen], [accepted_form_saved], [update_sends_permitted]).
    - Chat: a request is answered at most once and only while it is the newest, every
      source but the active one is closed, the text shown is the text streamed when no
      run of chunks starts with the text right before it ([never_restarts]), and thoughts are told apart from
      answers ([stream_answers_once],
      [stream_sources_closed], [streamed_text_exact], [think_tags_split]).
    - Conversations: the state of the playground implements a table of conversations, a reload
      shows what was shown, the messages of an older version are migrated once, saving keeps what was used last as far as the quota allows,
      settings survive, loaded messages are within limits, the sidebar shows every
      conversation once ([playground_refines_table], [playground_reload],
      [legacy_messages_migrated], [saved_conversations_reload], [settings_reload], [loaded_messages_bounded],
      [groups_partition]).
    - Status codes: normal forms, idempotence, refusals ([status_rules_normal],
      [status_rules_roundtrip], [status_rules_refused]).
    - Session: a newer login or logout is never undone by a refresh in flight, credentials
      are present together, a refresh sends at most eight requests, and what each
      outcome does ([newer_session_wins], [session_coherent],
      [refresh_requests_bounded], [refresh_outcome_effect], [rotation_keeps_session],
      [resolve_answers], [fresh_headers_authorized], [hintless_visitor_recovers]).
    - HTTP client: a call is sent again at most once and only after an answer 401, never
      when it spends a proof, no call is left hanging, GET requests share an answer only
      for one session, URL and parameters, and redirects keep the language and never
      loop ([call_replayed_once], [calls_end], [get_shared], [redirect_to_sign_in]).
    - Header and sidebar: what the editors save is what they show (for settings with plain
      names; of members the header editor does not know only booleans, texts and numbers stay), guards, links and entries
      follow the switches, links and guards agree and guards fail closed, and a user
      can only hide entries ([header_saved_enforced], [links_match_guards],
      [editor_shows_site], [sidebar_saved_enforced], [sidebar_shows_allowed]).
    - Behaviour that differs from what comments or the rest of the program say:
      [deepest_expression_never_evaluates], [mixed_condition_shows_other_tier],
      [nested_guards_stripped], [lock_rejection_keeps_checking],
      [extra_dash_parts_dropped], [rules_not_read_back], [rule_reader_throws],
      [generated_expression_limits], [untyped_path_throws], [repeated_chunk_lost],
      [stop_drops_pending], [legacy_messages_lost], [dynamic_sum_joins],
      [enveloped_messages_not_migrated], [leaving_loses_messages],
      [documented_amounts_differ], [unconfigured_group_cheaper], [price_drifts],
      [inherited_name_refused], [odd_setting_differs], [hidden_page_open],
      [slash_base_url_accepted], [base_url_saved_twice],
      [late_answer_logs_out].

    ** Fuel and bounds

    Functions whose recursion is not structural take fuel, and enough of it is proved to be
    there: the visitor uses twice the size of the tree and one, each node being
    pushed and expanded once; the parser makes at most three nested calls for each of
    the tokens, whose number the program limits ([parse_total]); [evaluate] recurses on the tree and checks the program's own limit
    of 256 levels; the loop of [splitExpressionAtTopLevel] advances by at least a
    character unless the operator is empty, in which case the code does not end either;
    [JSON_parse] needs two calls for each character ([JSON_parse_total]); the printer of
    values needs their depth, and more fuel does not change its text; the loop
    over thought tags consumes a tag a turn.  Numbers have
    53 bits of precision and exponents up to 1024, as in the program.

    ** Choices

    Objects are compared by identity in two places only, nodes as keys of a map and as
    origins of visual documents; nodes of one tree have different spans
    ([parse_spans_unique]), so the models compare spans.  A thrown exception is [Err]; the
    state of an object that dies with the exception is dropped.  Regular expressions are
    functions on texts.

    ** Not modelled

    React components, routes, translations and styles; the package axios and other I/O; the
    Go server; third-party packages.  In [tier-expr.ts] the reader
    [tryParseVisualConfig], whose regular expressions backtrack; in [flow.ts] the
    options object of the chart ([buildFlowSankeySpec]).  An object used as a map keeps its
    keys in order of insertion, which is true of JavaScript objects whose keys
    are not array indices.  The plan for what comes next, in this order:
    the payloads of the playground, then the libraries of channels and logs. *)
From Stdlib Require Import ZArith Lia Bool Wf_nat.
From stdpp Require Import base list option.

#[global] Set Default Goal Selector "1".

(** * Results: code that may [throw] *)

(** The outcome of code that can [throw]: [Err e] is a thrown value.  What a
    mutable object holds after a [throw] is dropped, because in every modelled
    function the object dies with the exception. *)
Inductive result (E A : Type) : Type :=
| Ok (a : A)
| Err (e : E).
Arguments Ok {E A} a.
Arguments Err {E A} e.

Declare Scope result_scope.
Delimit Scope result_scope with result.
Open Scope result_scope.

Notation "'let!' x ':=' m 'in' k" :=
  (match m with Ok x => k | Err e => Err e end)
  (at level 10, x pattern, m at level 100, k at level 200,
   format "'[v' 'let!'  x  ':='  m  'in' '/' k ']'") : result_scope.

Definition is_Ok {E A} (r : result E A) : bool :=
  match r with Ok _ => true | Err _ => false end.

(** * Tactics *)

(** Case split on the scrutinee of every [match] (or [if]) in hypothesis [H],
    closing the branches in which [H] becomes absurd. *)
Ltac res_inv H :=
  repeat (
    match type of H with
    | context [match ?x with _ => _ end] =>
        let E := fresh "E" in destruct x eqn:E; try discriminate H
    end);
  try (injection H as H); subst.

(** One case split on a [match] of the goal. *)
Ltac case_goal :=
  match goal with
  | |- context [match ?x with _ => _ end] =>
      let E := fresh "E" in destruct x eqn:E
  end.

(** Turn boolean tests in the context into propositions. *)
Ltac bools :=
  repeat match goal with
  | H : _ && _ = true |- _ => apply andb_true_iff in H as [? ?]
  | H : _ || _ = false |- _ => apply orb_false_iff in H as [? ?]
  | H : negb _ = true |- _ => apply negb_true_iff in H
  | H : negb _ = false |- _ => apply negb_false_iff in H
  | H : (_ <? _)%nat = true |- _ => apply Nat.ltb_lt in H
  | H : (_ <? _)%nat = false |- _ => apply Nat.ltb_ge in H
  | H : (_ <=? _)%nat = true |- _ => apply Nat.leb_le in H
  | H : (_ <=? _)%nat = false |- _ => apply Nat.leb_gt in H
  | H : (_ =? _)%nat = true |- _ => apply Nat.eqb_eq in H
  | H : (_ =? _)%nat = false |- _ => apply Nat.eqb_neq in H
  | H : (_ <? _)%Z = true |- _ => apply Z.ltb_lt in H
  | H : (_ <? _)%Z = false |- _ => apply Z.ltb_ge in H
  | H : (_ <=? _)%Z = true |- _ => apply Z.leb_le in H
  | H : (_ <=? _)%Z = false |- _ => apply Z.leb_gt in H
  | H : (_ =? _)%Z = true |- _ => apply Z.eqb_eq in H
  | H : (_ =? _)%Z = false |- _ => apply Z.eqb_neq in H
  | H : bool_decide _ = true |- _ => apply bool_decide_eq_true in H
  | H : bool_decide _ = false |- _ => apply bool_decide_eq_false in H
  end.

(** Whether a value is there. *)
Definition is_some {A} (x : option A) : bool := match x with Some _ => true | None => false end.

(** The development's database: lemmas that close routine side goals. *)
Create HintDb newapi.
Create Rewrite HintDb newapi.

(** * Lists *)

Section Lists.
Context {A B : Type}.

(** [Array.prototype.find] / [findIndex]. *)
Fixpoint find_index (p : A -> bool) (l : list A) : option nat :=
  match l with
  | [] => None
  | x :: l' => if p x then Some 0 else S <$> find_index p l'
  end.

(** Maximal prefix of elements satisfying [p], with the rest. *)
Fixpoint span (p : A -> bool) (l : list A) : list A * list A :=
  match l with
  | x :: l' => if p x then let '(a, b) := span p l' in (x :: a, b) else ([], l)
  | [] => ([], [])
  end.

Lemma span_app (p : A -> bool) (l : list A) :
  (span p l).1 ++ (span p l).2 = l.
Proof.
  induction l as [|x l IH]; simpl; [done|].
  destruct (p x); [|done]. destruct (span p l); simpl in *. by rewrite IH.
Qed.

Lemma span_forall (p : A -> bool) (l : list A) :
  Forall (fun x => p x = true) (span p l).1.
Proof.
  induction l as [|x l IH]; simpl; [constructor|].
  destruct (p x) eqn:E; [|constructor].
  destruct (span p l); simpl in *. by constructor.
Qed.

Lemma span_head (p : A -> bool) (l : list A) x r :
  (span p l).2 = x :: r -> p x = false.
Proof.
  induction l as [|y l IH]; simpl; [done|].
  destruct (p y) eqn:E.
  - destruct (span p l); simpl in *. auto.
  - simpl. by intros [= -> ->].
Qed.

Lemma span_length (p : A -> bool) (l : list A) :
  length (span p l).1 + length (span p l).2 = length l.
Proof. rewrite <- length_app, span_app. done. Qed.

(** Induction on the length of a list. *)
Lemma list_length_ind (P : list A -> Prop) :
  (forall l, (forall l', (length l' < length l)%nat -> P l') -> P l) -> forall l, P l.
Proof.
  intros H l. remember (length l) as n eqn:E. revert l E.
  induction n as [n IH] using lt_wf_ind. intros l ->. apply H. eauto.
Qed.

Lemma Forall_elem (P : A -> Prop) (l : list A) :
  Forall P l <-> forall x, x ∈ l -> P x.
Proof.
  rewrite List.Forall_forall.
  split; intros H x Hx; apply H; by apply list_elem_of_In.
Qed.

Lemma find_index_Some (p : A -> bool) (l : list A) i :
  find_index p l = Some i -> exists x, l !! i = Some x /\ p x = true.
Proof.
  revert i. induction l as [|x l IH]; simpl; intros i H; [done|].
  destruct (p x) eqn:E; [injection H as <-; eauto|].
  destruct (find_index p l); [|done]. injection H as <-. simpl. auto.
Qed.

Lemma find_index_None (p : A -> bool) (l : list A) :
  find_index p l = None <-> Forall (fun x => p x = false) l.
Proof.
  induction l as [|x l IH]; simpl; [split; [constructor|done]|].
  destruct (p x) eqn:E; [split; [done|inversion 1; congruence]|].
  destruct (find_index p l) eqn:F; simpl.
  - split; [done|]. intros H; inversion H; subst.
    assert (Some n = None) by tauto. done.
  - split; [|done]. intros _. constructor; [done|]. tauto.
Qed.

Lemma NoDup_map_inj (f : A -> B) (l : list A) x y :
  NoDup (map f l) -> x ∈ l -> y ∈ l -> f x = f y -> x = y.
Proof.
  induction l as [|z l IH]; simpl; intros Hn Hx Hy E; [by apply not_elem_of_nil in Hx|].
  inversion Hn as [|? ? Hz Hl]; subst.
  assert (Hin : forall w, w ∈ l -> f w ∈ map f l).
  { intros w Hw. apply list_elem_of_In, in_map. by apply list_elem_of_In. }
  apply elem_of_cons in Hx as [->|Hx]; apply elem_of_cons in Hy as [->|Hy]; auto.
  - exfalso. apply Hz. rewrite E. auto.
  - exfalso. apply Hz. rewrite <- E. auto.
Qed.

(** A mapping that may throw, left to right. *)
Fixpoint map_result {E} (f : A -> result E B) (l : list A) : result E (list B) :=
  match l with
  | [] => Ok []
  | x :: l' => let! y := f x in let! ys := map_result f l' in Ok (y :: ys)
  end.

End Lists.

(** The values of a list of computations, run in order. *)
Fixpoint sequence {E A} (l : list (result E A)) : result E (list A) :=
  match l with
  | [] => Ok []
  | r :: l' => let! x := r in let! xs := sequence l' in Ok (x :: xs)
  end.

Lemma sequence_Ok {E A} (l : list (result E A)) xs :
  sequence l = Ok xs -> l = map Ok xs.
Proof.
  revert xs. induction l as [|r l IH]; simpl; intros xs H; [by injection H as <-|].
  destruct r as [x|]; [|done]. destruct (sequence l) as [ys|]; [|done].
  injection H as <-. simpl. f_equal. auto.
Qed.
