(* ===== verification/JsString.v ===== *)
(** JavaScript strings: sequences of 16-bit code units, with the methods the
    modelled code calls ([trim], [slice], [startsWith], [includes], [split],
    [join], ...) and the character classes of its regular expressions. *)
From Stdlib Require Import ZArith Lia Bool Ascii String.
From stdpp Require Import base list option.
From S2P Require Import Prelude.

#[local] Open Scope Z_scope.

(** A string is the list of its code units (0 .. 65535). *)
Abbreviation jsstr := (list Z).

(** The code units of an ASCII literal. *)
Fixpoint js (s : string) : jsstr :=
  match s with
  | EmptyString => []
  | String c s' => Z.of_N (N_of_ascii c) :: js s'
  end.

(** [===] on strings. *)
Fixpoint str_eqb (a b : jsstr) : bool :=
  match a, b with
  | [], [] => true
  | x :: a', y :: b' => (x =? y) && str_eqb a' b'
  | _, _ => false
  end.

Declare Scope js_scope.
Delimit Scope js_scope with js.
Open Scope js_scope.
Notation "s === t" := (str_eqb s (js t%string))
  (at level 70, t at level 0, no associativity) : js_scope.

(** [['a', 'b'].includes(s)] on an array of ASCII literals. *)
Definition one_of (s : jsstr) (l : list string) : bool :=
  existsb (fun t => str_eqb s (js t)) l.

Arguments js : simpl never.
Arguments one_of : simpl never.

(** ** Code units *)

Definition QUOTE : Z := 34.
Definition APOS : Z := 39.
Definition BACKSLASH : Z := 92.
Definition LF : Z := 10.
Definition CR : Z := 13.

(** [\s], and the characters that [trim] removes: white space and line
    terminators of ECMAScript. *)
Definition is_space (c : Z) : bool :=
  ((9 <=? c) && (c <=? 13)) || (c =? 32) || (c =? 160) || (c =? 5760)
  || ((8192 <=? c) && (c <=? 8202)) || (c =? 8232) || (c =? 8233)
  || (c =? 8239) || (c =? 8287) || (c =? 12288) || (c =? 65279).

(** [\d], [[A-Za-z_]], [\w] and [[\da-f]] with the [i] flag. *)
Definition is_digit (c : Z) : bool := (48 <=? c) && (c <=? 57).
Definition is_alpha (c : Z) : bool :=
  ((65 <=? c) && (c <=? 90)) || ((97 <=? c) && (c <=? 122)).
Definition is_name_start (c : Z) : bool := is_alpha c || (c =? 95).
Definition is_word (c : Z) : bool := is_name_start c || is_digit c.
Definition is_hex (c : Z) : bool :=
  is_digit c || ((65 <=? c) && (c <=? 70)) || ((97 <=? c) && (c <=? 102)).

Definition digit_value (c : Z) : Z := c - 48.
Definition hex_value (c : Z) : Z :=
  if is_digit c then c - 48
  else if (97 <=? c) && (c <=? 102) then c - 87 else c - 55.

(** [parseInt(s, 10)] and [parseInt(s, 16)] on a string of digits. *)
Definition dec_value (s : jsstr) : Z :=
  fold_left (fun acc c => acc * 10 + digit_value c) s 0.
Definition parse_hex (s : jsstr) : Z :=
  fold_left (fun acc c => acc * 16 + hex_value c) s 0.

(** ** Methods *)

Fixpoint trim_start (s : jsstr) : jsstr :=
  match s with
  | c :: s' => if is_space c then trim_start s' else s
  | [] => []
  end.

Definition trim (s : jsstr) : jsstr := rev (trim_start (rev (trim_start s))).

(** [s.slice(i, j)] for [0 <= i], [0 <= j]. *)
Definition slice (s : jsstr) (i j : nat) : jsstr := take (j - i) (drop i s).

Fixpoint starts_with (p s : jsstr) : bool :=
  match p, s with
  | [], _ => true
  | x :: p', y :: s' => (x =? y) && starts_with p' s'
  | _ :: _, [] => false
  end.

(** [s.includes(p)]. *)
Fixpoint includes (p s : jsstr) : bool :=
  starts_with p s ||
  match s with
  | [] => false
  | _ :: s' => includes p s'
  end.

(** [a.join(sep)]. *)
Fixpoint join (sep : jsstr) (l : list jsstr) : jsstr :=
  match l with
  | [] => []
  | [x] => x
  | x :: l' => x ++ sep ++ join sep l'
  end.

(** [s.split(c)] for a one-character separator. *)
Fixpoint split_char (c : Z) (s : jsstr) : list jsstr :=
  match s with
  | [] => [[]]
  | x :: s' =>
      if x =? c then [] :: split_char c s'
      else match split_char c s' with
           | w :: ws => (x :: w) :: ws
           | [] => [[x]]
           end
  end.

(** [a < b] on strings: lexicographic order of code units. *)
Fixpoint str_ltb (a b : jsstr) : bool :=
  match a, b with
  | _, [] => false
  | [], _ :: _ => true
  | x :: a', y :: b' => (x <? y) || ((x =? y) && str_ltb a' b')
  end.

(** Truthiness of a string. *)
Definition truthy (s : jsstr) : bool := match s with [] => false | _ => true end.

(** [s.padStart(n, c)]. *)
Definition pad_start (n : nat) (c : Z) (s : jsstr) : jsstr :=
  replicate (n - length s) c ++ s.

(** Decimal digits of a non-negative integer, without leading zeros. *)
Fixpoint digits_fuel (fuel : nat) (z : Z) (acc : jsstr) : jsstr :=
  match fuel with
  | O => acc
  | S f =>
      let acc' := (48 + z mod 10) :: acc in
      if z <? 10 then acc' else digits_fuel f (z / 10) acc'
  end.

(** Decimal digits: one round of the loop per digit, and a number has at most
    as many decimal digits as binary ones. *)
Definition digits_of_Z (z : Z) : jsstr :=
  digits_fuel (S (Z.to_nat (Z.log2 z))) z [].

(** A template hole filled with an integer. *)
Definition string_of_Z (z : Z) : jsstr :=
  if z <? 0 then 45 :: digits_of_Z (- z) else digits_of_Z z.

(** [JSON.stringify(s)]: quotes, with the two-character escapes, control
    characters and lone surrogates escaped. *)
Definition hex_digit (z : Z) : Z := if z <? 10 then 48 + z else 87 + z.
Definition unicode_escape (c : Z) : jsstr :=
  [BACKSLASH; 117; hex_digit (c / 4096); hex_digit (c / 256 mod 16);
   hex_digit (c / 16 mod 16); hex_digit (c mod 16)].
Definition json_escape (c : Z) : option Z :=
  if c =? QUOTE then Some QUOTE
  else if c =? BACKSLASH then Some BACKSLASH
  else if c =? 8 then Some 98
  else if c =? 12 then Some 102
  else if c =? LF then Some 110
  else if c =? CR then Some 114
  else if c =? 9 then Some 116 else None.
Definition is_high_surrogate (c : Z) : bool := (55296 <=? c) && (c <=? 56319).
Definition is_low_surrogate (c : Z) : bool := (56320 <=? c) && (c <=? 57343).
Fixpoint json_body (s : jsstr) : jsstr :=
  match s with
  | [] => []
  | c :: s' =>
      match json_escape c with
      | Some e => BACKSLASH :: e :: json_body s'
      | None =>
          if (c <? 32) || is_low_surrogate c then unicode_escape c ++ json_body s'
          else if is_high_surrogate c then
            match s' with
            | d :: s'' =>
                if is_low_surrogate d then c :: d :: json_body s''
                else unicode_escape c ++ json_body s'
            | [] => unicode_escape c
            end
          else c :: json_body s'
      end
  end.
Definition json_string (s : jsstr) : jsstr := QUOTE :: json_body s ++ [QUOTE].

(** ** Facts *)

Lemma str_eqb_eq a b : str_eqb a b = true <-> a = b.
Proof.
  revert b. induction a as [|x a IH]; intros [|y b]; simpl; split;
    try done; rewrite andb_true_iff, Z.eqb_eq, IH.
  - by intros [-> ->].
  - by intros [= -> ->].
Qed.

Lemma str_eqb_refl a : str_eqb a a = true.
Proof. by apply str_eqb_eq. Qed.

Lemma str_eqb_neq a b : str_eqb a b = false <-> a <> b.
Proof. rewrite <- str_eqb_eq. destruct (str_eqb a b); split; congruence. Qed.

Lemma str_eqb_reflect a b : reflect (a = b) (str_eqb a b).
Proof.
  destruct (str_eqb a b) eqn:E; constructor;
    [by apply str_eqb_eq | by apply str_eqb_neq].
Qed.

#[export] Instance str_eqb_eq_decision (a b : jsstr) : Decision (str_eqb a b = true).
Proof. apply bool_eq_dec. Defined.

Lemma one_of_In s l : one_of s l = true <-> exists t, In t l /\ s = js t.
Proof.
  unfold one_of. rewrite existsb_exists.
  split; intros (t & Hin & E); exists t; split; auto; by apply str_eqb_eq.
Qed.

Lemma slice_length s i j : (j <= length s)%nat -> length (slice s i j) = (j - i)%nat.
Proof. intros. unfold slice. rewrite length_take, length_drop. lia. Qed.

Lemma slice_full s : slice s 0 (length s) = s.
Proof. unfold slice. rewrite drop_0, Nat.sub_0_r. apply take_ge. lia. Qed.

Lemma slice_app s i j k : (i <= j)%nat -> (j <= k)%nat ->
  slice s i j ++ slice s j k = slice s i k.
Proof.
  intros. unfold slice.
  replace (k - i)%nat with ((j - i) + (k - j))%nat by lia.
  rewrite <- (take_drop (j - i) (drop i s)) at 2.
  rewrite take_app. rewrite drop_drop.
  replace (i + (j - i))%nat with j by lia.
  rewrite take_take. f_equal.
  - f_equal. lia.
  - destruct (decide (j <= length s)%nat).
    + rewrite length_take, length_drop. f_equal; lia.
    + rewrite !(drop_ge s j) by lia. by rewrite !take_nil.
Qed.

Lemma starts_with_spec p s : starts_with p s = true <-> exists r, s = p ++ r.
Proof.
  revert s. induction p as [|x p IH]; intros s; simpl; [split; eauto|].
  destruct s as [|y s]; [split; [done|by intros [r ?]]|].
  rewrite andb_true_iff, Z.eqb_eq, IH. split.
  - intros [-> [r ->]]. eauto.
  - intros [r [= -> ->]]. eauto.
Qed.

Lemma starts_with_app p s t : starts_with p s = true -> starts_with p (s ++ t) = true.
Proof.
  rewrite !starts_with_spec. intros [r ->]. exists (r ++ t). by rewrite app_assoc.
Qed.

Lemma trim_start_idem s : trim_start (trim_start s) = trim_start s.
Proof.
  induction s as [|c s IH]; simpl; [done|].
  destruct (is_space c) eqn:E; [done|]. simpl. by rewrite E.
Qed.

Lemma trim_start_plain s : Forall (fun c => is_space c = false) s -> trim_start s = s.
Proof. destruct 1 as [|c s Hc _]; simpl; [done|]. by rewrite Hc. Qed.

Lemma trim_plain s : Forall (fun c => is_space c = false) s -> trim s = s.
Proof.
  intros H. unfold trim. rewrite (trim_start_plain s) by done.
  rewrite trim_start_plain by (by apply Forall_rev). apply rev_involutive.
Qed.

#[export] Hint Resolve str_eqb_refl : newapi.
#[export] Hint Rewrite str_eqb_refl slice_full : newapi.

(** ** Splitting and joining *)

Lemma split_char_plain c s : Forall (fun x => x <> c) s -> split_char c s = [s].
Proof.
  induction 1 as [|x s Hx _ IH]; simpl; [done|].
  destruct (x =? c) eqn:E; bools; [done|]. by rewrite IH.
Qed.

Lemma split_char_app c a b : Forall (fun x => x <> c) a ->
  split_char c (a ++ c :: b) = a :: split_char c b.
Proof.
  induction 1 as [|x a Hx _ IH]; simpl; [by rewrite Z.eqb_refl|].
  destruct (x =? c) eqn:E; bools; [done|]. by rewrite IH.
Qed.

Lemma split_join c l : l <> [] -> Forall (Forall (fun x => x <> c)) l ->
  split_char c (join [c] l) = l.
Proof.
  intros Hne H. induction H as [|a l Ha Hl IH]; [done|].
  destruct l as [|b l]; [by apply split_char_plain|].
  change (join [c] (a :: b :: l)) with (a ++ [c] ++ join [c] (b :: l)). simpl.
  rewrite split_char_app by done. f_equal. by apply IH.
Qed.
