(* ===== verification/JsNumber.v ===== *)
(** JavaScript numbers: IEEE-754 binary64, on the executable specification of
    [SpecFloat], with [Number(text)], [String(number)], [toExponential],
    [Math.*] and the [Number.is*] predicates the modelled code uses. *)
From Stdlib Require Import ZArith Lia Bool String SpecFloat.
From stdpp Require Import base list option.
From S2P Require Import Prelude JsString.

#[local] Open Scope Z_scope.

Abbreviation number := spec_float.

#[export] Instance number_eq_dec : EqDecision number.
Proof. solve_decision. Defined.

(** ** Arithmetic *)

Definition num_add : number -> number -> number := SFadd 53 1024.
Definition num_sub : number -> number -> number := SFsub 53 1024.
Definition num_mul : number -> number -> number := SFmul 53 1024.
Definition num_div : number -> number -> number := SFdiv 53 1024.
Definition num_opp : number -> number := SFopp.
Definition num_eqb : number -> number -> bool := SFeqb.
Definition num_ltb : number -> number -> bool := SFltb.
Definition num_leb : number -> number -> bool := SFleb.

(** The double nearest to an integer. *)
Definition num_of_Z (z : Z) : number := binary_normalize 53 1024 z 0 false.
Definition num_zero : number := S754_zero false.
Definition num_one : number := num_of_Z 1.

(** A number is a JavaScript number when its mantissa is canonical. *)
Definition num_valid (x : number) : bool := valid_binary 53 1024 x.

Definition is_finite (x : number) : bool :=
  match x with S754_zero _ | S754_finite _ _ _ => true | _ => false end.

Definition is_negative_zero (x : number) : bool :=
  match x with S754_zero true => true | _ => false end.

(** The value of a number that denotes an integer. *)
Definition num_to_Z (x : number) : option Z :=
  match x with
  | S754_zero _ => Some 0
  | S754_finite s m e =>
      let v := if 0 <=? e then Zpos m * 2 ^ e else Zpos m / 2 ^ (- e) in
      if (0 <=? e) || (Zpos m mod 2 ^ (- e) =? 0)
      then Some (if s then - v else v) else None
  | _ => None
  end.

Definition MAX_SAFE_INTEGER : Z := 2 ^ 53 - 1.

(** [Number.isInteger] and [Number.isSafeInteger]. *)
Definition is_integer (x : number) : bool :=
  match num_to_Z x with Some _ => true | None => false end.
Definition is_safe_integer (x : number) : bool :=
  match num_to_Z x with
  | Some z => Z.abs z <=? MAX_SAFE_INTEGER
  | None => false
  end.

(** [Math.floor], [Math.ceil]: the result keeps the sign of a zero, and
    [Math.ceil] of a number in (-1, 0) is -0. *)
Definition num_floor (x : number) : number :=
  match x with
  | S754_finite s m e =>
      if 0 <=? e then x
      else num_of_Z ((if s then Zneg m else Zpos m) / 2 ^ (- e))
  | _ => x
  end.
Definition num_ceil (x : number) : number := num_opp (num_floor (num_opp x)).
Definition num_abs (x : number) : number := SFabs x.

(** [Math.min] and [Math.max] of two numbers: NaN wins, and -0 is below +0. *)
Definition num_min (x y : number) : number :=
  match x, y with
  | S754_nan, _ | _, S754_nan => S754_nan
  | S754_zero s, S754_zero t => S754_zero (s || t)
  | _, _ => if num_ltb y x then y else x
  end.
Definition num_max (x y : number) : number :=
  match x, y with
  | S754_nan, _ | _, S754_nan => S754_nan
  | S754_zero s, S754_zero t => S754_zero (s && t)
  | _, _ => if num_ltb x y then y else x
  end.

(** [%]: the exact remainder of the truncated division, with the sign of the
    dividend (also when it is zero). *)
Definition num_rem (x y : number) : number :=
  match x, y with
  | S754_nan, _ | _, S754_nan | S754_infinity _, _ | _, S754_zero _ => S754_nan
  | _, S754_infinity _ => x
  | S754_zero _, _ => x
  | S754_finite s m e, S754_finite _ m' e' =>
      let ez := Z.min e e' in
      let r := (Zpos m * 2 ^ (e - ez)) mod (Zpos m' * 2 ^ (e' - ez)) in
      match r with
      | Zpos p => binary_round 53 1024 s p ez
      | _ => S754_zero s
      end
  end.

(** ** [Number(text)] *)

(** The double nearest to [m * 10 ^ e], for [0 <= m]. *)
Definition num_of_decimal (m e : Z) : number :=
  match m with
  | Zpos p =>
      if 0 <=? e then num_of_Z (m * 10 ^ e)
      else num_div (S754_finite false p 0) (S754_finite false (Z.to_pos (10 ^ (- e))) 0)
  | _ => num_zero
  end.

(** The optional exponent part [(?:[eE][+-]?\d+)?] at the head of [s]: its
    value, its length, and what follows. *)
Definition scan_exponent (s : jsstr) : Z * nat * jsstr :=
  match s with
  | c :: s1 =>
      if (c =? 101) || (c =? 69) then
        let '(sg, k, s2) :=
          match s1 with
          | d :: s' => if d =? 45 then (-1, 2%nat, s')
                       else if d =? 43 then (1, 2%nat, s') else (1, 1%nat, s1)
          | [] => (1, 1%nat, s1)
          end in
        let '(ds, s3) := span is_digit s2 in
        match ds with
        | [] => (0, 0%nat, s)
        | _ => (sg * dec_value ds, (k + length ds)%nat, s3)
        end
      else (0, 0%nat, s)
  | [] => (0, 0%nat, s)
  end.

(** The longest prefix that is a numeric literal (digits with an optional
    point and fraction, or a point and digits, then an optional exponent): its
    length and the number it denotes. *)
Definition scan_number (s : jsstr) : option (nat * number) :=
  let '(ip, s1) := span is_digit s in
  let '(fp, k, s2) :=
    match s1 with
    | c :: s' => if c =? 46 then let '(f, r) := span is_digit s' in (f, 1%nat, r)
                 else ([], 0%nat, s1)
    | [] => ([], 0%nat, s1)
    end in
  match ip, fp with
  | [], [] => None
  | _, _ =>
      let '(ex, n, _) := scan_exponent s2 in
      Some ((length ip + k + length fp + n)%nat,
            num_of_decimal (dec_value (ip ++ fp)) (ex - Z.of_nat (length fp)))
  end.

(** The digits after [0x], [0o] or [0b]. *)
Definition radix_value (radix : Z) (s : jsstr) : option Z :=
  match s with
  | [] => None
  | _ => fold_left (fun acc c =>
           match acc with
           | Some v => if is_hex c && (hex_value c <? radix)
                       then Some (v * radix + hex_value c) else None
           | None => None
           end) s (Some 0)
  end.

(** [StringToNumber] without the sign. *)
Definition unsigned_number (s : jsstr) : number :=
  if s === "Infinity" then S754_infinity false
  else match scan_number s with
       | Some (n, v) => if (n =? length s)%nat then v else S754_nan
       | None => S754_nan
       end.

(** [Number(text)]. *)
Definition js_Number (text : jsstr) : number :=
  let s := trim text in
  let radix r d := match radix_value r d with Some z => num_of_Z z | None => S754_nan end in
  match s with
  | [] => num_zero
  | 43 :: s' => unsigned_number s'
  | 45 :: s' => num_opp (unsigned_number s')
  | 48 :: 120 :: d | 48 :: 88 :: d => radix 16 d
  | 48 :: 111 :: d | 48 :: 79 :: d => radix 8 d
  | 48 :: 98 :: d | 48 :: 66 :: d => radix 2 d
  | _ => unsigned_number s
  end.

(** ** [String(number)] *)

(** For a positive finite number [m * 2 ^ e]: its value as a fraction. *)
Definition num_fraction (m : positive) (e : Z) : Z * Z :=
  if 0 <=? e then (Zpos m * 2 ^ e, 1) else (Zpos m, 2 ^ (- e)).

(** The [n] with [10 ^ (n - 1) <= p / q < 10 ^ n].  Below 1 the loop multiplies
    by ten: the smallest double is above [10 ^ -324]. *)
Fixpoint decimal_exponent_below (fuel : nat) (j p q : Z) : Z :=
  match fuel with
  | O => 1 - j
  | S f => if q <=? p then 1 - j else decimal_exponent_below f (j + 1) (p * 10) q
  end.
Definition decimal_exponent (p q : Z) : Z :=
  if q <=? p then Z.of_nat (length (digits_of_Z (p / q)))
  else decimal_exponent_below 400 0 p q.

(** The [k]-digit decimals next to [p / q], nearest first. *)
Definition decimal_candidates (p q n k : Z) : list Z :=
  let '(p', q') := if n <=? k then (p * 10 ^ (k - n), q) else (p, q * 10 ^ (n - k)) in
  let lo := p' / q' in
  if 2 * (p' mod q') <=? q' then [lo; lo + 1] else [lo + 1; lo].

(** The shortest decimal that reads back as [v]: the smallest [k] (17 digits
    always suffice) with a candidate that rounds to [v]. *)
Fixpoint shortest_decimal (fuel : nat) (v : number) (p q n k : Z) : Z * Z * Z :=
  let c := match find (fun s => num_eqb (num_of_decimal s (n - k)) v)
                      (decimal_candidates p q n k) with
           | Some s => Some s
           | None => None
           end in
  match c, fuel with
  | Some s, _ => if s =? 10 ^ k then (1, 1, n + 1) else (s, k, n)
  | None, S f => shortest_decimal f v p q n (k + 1)
  | None, O => (p / q, k, n)
  end.

(** [(s, k, n)]: the digits of a positive number and the position of its
    decimal point, as in [Number::toString]. *)
Definition number_digits (m : positive) (e : Z) : Z * Z * Z :=
  let '(p, q) := num_fraction m e in
  shortest_decimal 16 (S754_finite false m e) p q (decimal_exponent p q) 1.

Definition zeros (n : Z) : jsstr := replicate (Z.to_nat n) 48.

(** A mantissa [d] or [d.ddd]. *)
Definition point_after_first (ds : jsstr) : jsstr :=
  match ds with
  | d :: (_ :: _) as rest => d :: 46 :: tail ds
  | _ => ds
  end.

Definition positive_to_string (m : positive) (e : Z) : jsstr :=
  let '(s, k, n) := number_digits m e in
  let ds := digits_of_Z s in
  if (k <=? n) && (n <=? 21) then ds ++ zeros (n - k)
  else if (0 <? n) && (n <=? 21)
       then take (Z.to_nat n) ds ++ 46 :: drop (Z.to_nat n) ds
  else if (-6 <? n) && (n <=? 0) then 48 :: 46 :: zeros (- n) ++ ds
  else point_after_first ds ++ 101 :: (if 0 <? n - 1 then [43] else [])
       ++ string_of_Z (n - 1).

(** [String(number)]. *)
Definition num_to_string (x : number) : jsstr :=
  match x with
  | S754_nan => js "NaN"
  | S754_zero _ => js "0"
  | S754_infinity false => js "Infinity"
  | S754_infinity true => js "-Infinity"
  | S754_finite s m e => (if s then [45] else []) ++ positive_to_string m e
  end.

(** [number.toExponential()] of a finite number other than -0, split at [e]:
    the mantissa text and the exponent. *)
Definition to_exponential (x : number) : jsstr * Z :=
  match x with
  | S754_finite s m e =>
      let '(d, k, n) := number_digits m e in
      ((if s then [45] else []) ++ point_after_first (digits_of_Z d), n - 1)
  | _ => (js "0", 0)
  end.

(** [number.toFixed(digits)] of a number below [1e21]: the nearest decimal, the larger
    one of two. *)
Definition to_fixed (digits : nat) (x : number) : jsstr :=
  let place (s : bool) (n : Z) :=
    let ds := pad_start (S digits) 48 (digits_of_Z n) in
    let k := (length ds - digits)%nat in
    (if s then [45] else []) ++ take k ds
    ++ match digits with O => [] | _ => 46 :: drop k ds end in
  match x with
  | S754_finite s m e =>
      let '(p, q) := num_fraction m e in
      place s ((2 * (p * 10 ^ Z.of_nat digits) + q) / (2 * q))
  | S754_zero _ => place false 0
  | _ => num_to_string x
  end.

(** [Math.round]: the nearest integer, the larger one of two. *)
Definition num_round (x : number) : number :=
  match x with
  | S754_finite s m e =>
      let '(p, q) := num_fraction m e in
      num_of_Z ((2 * (if s then - p else p) + q) / (2 * q))
  | _ => x
  end.

Example to_fixed_ex : to_fixed 2 (num_of_decimal 34 (-2)) = js "0.34" /\ to_fixed 1 (num_of_Z 25) = js "25.0".
Proof. split; vm_compute; reflexivity. Qed.

(** ** Facts *)

Lemma num_eqb_refl x : x <> S754_nan -> num_eqb x x = true.
Proof.
  unfold num_eqb, SFeqb, SFcompare. destruct x as [s|s| |s m e]; intros H; try done.
  - by destruct s.
  - rewrite Z.compare_refl, Pos.compare_cont_refl. by destruct s.
Qed.

Lemma is_safe_integer_finite x : is_safe_integer x = true -> is_finite x = true.
Proof. unfold is_safe_integer. by destruct x. Qed.

Lemma span_digits_head c s : is_digit c = true -> (span is_digit (c :: s)).1 <> [].
Proof. simpl. intros ->. by destruct (span is_digit s). Qed.

Lemma scan_exponent_length s : ((scan_exponent s).1.2 <= length s)%nat.
Proof.
  unfold scan_exponent. destruct s as [|c s1]; simpl; [lia|].
  destruct ((c =? 101) || (c =? 69)); simpl; [|lia].
  destruct s1 as [|d s']; simpl; [lia|].
  pose proof (span_length is_digit s') as H1.
  pose proof (span_length is_digit (d :: s')) as H2.
  destruct (d =? 45); [|destruct (d =? 43)].
  - destruct (span is_digit s') as [[|? ?] ?]; simpl in *; lia.
  - destruct (span is_digit s') as [[|? ?] ?]; simpl in *; lia.
  - destruct (span is_digit (d :: s')) as [[|? ?] ?]; simpl in *; lia.
Qed.

(** A numeric token is never empty and never longer than its input. *)
Lemma scan_number_length s n v :
  scan_number s = Some (n, v) -> (0 < n <= length s)%nat.
Proof.
  unfold scan_number. intros H.
  pose proof (span_length is_digit s) as Hs.
  destruct (span is_digit s) as [ip s1] eqn:E1; simpl in Hs.
  destruct s1 as [|c s'].
  - destruct ip; [done|]. simpl in H. injection H as <- <-. simpl in *. lia.
  - destruct (c =? 46) eqn:Ec.
    + pose proof (span_length is_digit s') as Hs'.
      destruct (span is_digit s') as [f r] eqn:E2; simpl in Hs', Hs.
      pose proof (scan_exponent_length r) as He.
      destruct (scan_exponent r) as [[ex k] r']; simpl in He.
      destruct ip, f; try done; injection H as <- <-; simpl in *; lia.
    + pose proof (scan_exponent_length (c :: s')) as He.
      destruct (scan_exponent (c :: s')) as [[ex k] r']; simpl in He.
      destruct ip; [done|]. injection H as <- <-; simpl in *; lia.
Qed.

Lemma num_leb_not_ltb x y :
  is_finite x = true -> is_finite y = true -> num_ltb x y = false -> num_leb y x = true.
Proof.
  unfold num_ltb, num_leb, SFltb, SFleb, SFcompare.
  destruct x as [sx|sx| |sx mx ex], y as [sy|sy| |sy my ey]; try done; intros _ _;
    try (by destruct sx); try (by destruct sy).
  destruct sx, sy; try done; rewrite (Z.compare_antisym ex ey);
    destruct (ex ?= ey)%Z; simpl; try done;
    rewrite (ZC4 my mx); by destruct (Pos.compare_cont Eq mx my).
Qed.

Lemma num_mul_comm x y : num_mul x y = num_mul y x.
Proof.
  unfold num_mul, SFmul. destruct x as [sx|sx| |sx mx ex], y as [sy|sy| |sy my ey]; try done;
    rewrite ?(xorb_comm sx sy); try done.
  by rewrite Pos.mul_comm, Z.add_comm.
Qed.

(** Equality with a number other than zero is identity. *)
Lemma num_eqb_one x : num_eqb x num_one = true -> x = num_one.
Proof.
  unfold num_eqb, SFeqb, SFcompare, num_one. change (num_of_Z 1) with (S754_finite false 4503599627370496 (-52)).
  destruct x as [s|s| |s m e]; try (by destruct s); try done. destruct s; [done|].
  destruct (e ?= -52) eqn:Ee; try done. apply Z.compare_eq in Ee. subst e.
  destruct (Pos.compare_cont Eq m 4503599627370496) eqn:Em; try done.
  apply Pos.compare_eq in Em. by subst m.
Qed.

(** ** Integers are compared as integers *)

(** A canonical mantissa has 53 digits, or fewer at the least exponent. *)
Lemma digits2_bound m : 2 ^ (Zpos (digits2_pos m) - 1) <= Zpos m < 2 ^ Zpos (digits2_pos m).
Proof.
  induction m as [m IH|m IH|]; simpl digits2_pos; rewrite ?Pos2Z.inj_succ; [..|done].
  - replace (Z.succ (Zpos (digits2_pos m)) - 1) with (Z.succ (Zpos (digits2_pos m) - 1)) by lia.
    rewrite !Z.pow_succ_r by lia. lia.
  - replace (Z.succ (Zpos (digits2_pos m)) - 1) with (Z.succ (Zpos (digits2_pos m) - 1)) by lia.
    rewrite !Z.pow_succ_r by lia. lia.
Qed.

Lemma valid_finite s m e : num_valid (S754_finite s m e) = true ->
  -1074 <= e /\ Zpos m < 2 ^ 53 /\ (e = -1074 \/ 2 ^ 52 <= Zpos m).
Proof.
  unfold num_valid, valid_binary, bounded, canonical_mantissa, fexp, emin. intros H.
  apply andb_true_iff in H as [H _]. apply Z.eqb_eq in H.
  pose proof (digits2_bound m) as Hd.
  set (d := Zpos (digits2_pos m)) in *.
  assert (Hdd : d <= 53) by lia.
  assert (H53 : 2 ^ d <= 2 ^ 53) by (apply Z.pow_le_mono_r; lia).
  repeat split; [lia|lia|]. destruct (decide (e = -1074)); [by left|right].
  assert (d = 53) as E by lia. rewrite E in Hd. replace (53 - 1) with 52 in Hd by lia. lia.
Qed.

(** The value of a finite number in units of the least positive one. *)
Lemma num_to_Z_scaled m e a : -1074 <= e -> num_to_Z (S754_finite false m e) = Some a ->
  Zpos m * 2 ^ (e + 1074) = a * 2 ^ 1074.
Proof.
  intros He. unfold num_to_Z. destruct (0 <=? e) eqn:E; cbn [orb]; bools.
  - intros [= <-]. rewrite Z.pow_add_r by lia. lia.
  - destruct (Zpos m mod 2 ^ (- e) =? 0) eqn:Em; [|done]. bools. intros [= <-].
    assert (Hp : 2 ^ 1074 = 2 ^ (- e) * 2 ^ (e + 1074)) by (rewrite <- Z.pow_add_r by lia; f_equal; lia).
    assert (H0 : 0 < 2 ^ (- e)) by (apply Z.pow_pos_nonneg; lia).
    pose proof (Z.div_mod (Zpos m) (2 ^ (- e)) (not_eq_sym (Z.lt_neq _ _ H0))) as D. rewrite Em in D.
    rewrite Hp. rewrite D at 1. ring.
Qed.

Lemma scaled_lt mx ex my ey : Zpos mx < 2 ^ 53 -> -1074 <= ex -> ex < ey -> 2 ^ 52 <= Zpos my ->
  Zpos mx * 2 ^ (ex + 1074) < Zpos my * 2 ^ (ey + 1074).
Proof.
  intros Hx He Hlt Hy.
  assert (0 < 2 ^ (ex + 1074)) by (apply Z.pow_pos_nonneg; lia).
  replace (ey + 1074) with ((ey - ex) + (ex + 1074)) by lia. rewrite (Z.pow_add_r 2 (ey - ex) (ex + 1074)) by lia.
  assert (Hp : 2 ^ 1 <= 2 ^ (ey - ex)) by (apply Z.pow_le_mono_r; lia). 
  rewrite Z.mul_assoc. apply Z.mul_lt_mono_pos_r; [done|]. change (2 ^ 1) with 2 in Hp.
  generalize dependent (2 ^ (ey - ex)). intros q Hq. nia.
Qed.

(** The value of a positive number is positive, of a negative one negative. *)
Lemma num_to_Z_sign s m e a : num_valid (S754_finite s m e) = true ->
  num_to_Z (S754_finite s m e) = Some a -> if s then a < 0 else 0 < a.
Proof.
  intros Hv H. apply valid_finite in Hv as (He & _). destruct s.
  - assert (H' : num_to_Z (S754_finite false m e) = Some (- a)).
    { revert H. unfold num_to_Z. destruct (_ || _); [|done]. intros [= <-]. f_equal. lia. }
    apply num_to_Z_scaled in H'; [|done].
    assert (0 < 2 ^ (e + 1074)) by (apply Z.pow_pos_nonneg; lia). nia.
  - apply num_to_Z_scaled in H; [|done].
    assert (0 < 2 ^ (e + 1074)) by (apply Z.pow_pos_nonneg; lia). nia.
Qed.

(** A non-negative integer compared with any integer. *)
Lemma num_compare_Z x y a b : num_valid x = true -> num_valid y = true ->
  num_to_Z x = Some a -> num_to_Z y = Some b -> 0 <= a ->
  SFcompare x y = Some (a ?= b).
Proof.
  intros Vx Vy Hx Hy Ha.
  destruct x as [sx|sx| |sx mx ex]; try done; destruct y as [sy|sy| |sy my ey]; try done.
  - injection Hx as <-. by injection Hy as <-.
  - injection Hx as <-. pose proof (num_to_Z_sign _ _ _ _ Vy Hy) as S.
    destruct sy; cbn [SFcompare]; f_equal; symmetry; [by apply Z.compare_gt_iff|by apply Z.compare_lt_iff].
  - injection Hy as <-. pose proof (num_to_Z_sign _ _ _ _ Vx Hx) as S. destruct sx; [lia|].
    cbn [SFcompare]. f_equal. symmetry. by apply Z.compare_gt_iff.
  - pose proof (num_to_Z_sign _ _ _ _ Vx Hx) as Sx. pose proof (num_to_Z_sign _ _ _ _ Vy Hy) as Sy.
    destruct sx; [lia|]. destruct sy; cbn [SFcompare].
    { f_equal. symmetry. apply Z.compare_gt_iff. lia. }
    apply valid_finite in Vx as (Ex & Mx & Nx), Vy as (Ey & My & Ny).
    apply num_to_Z_scaled in Hx; [|done]. apply num_to_Z_scaled in Hy; [|done].
    assert (0 < 2 ^ (ex + 1074)) by (apply Z.pow_pos_nonneg; lia).
    assert (0 < 2 ^ 1074) by (apply Z.pow_pos_nonneg; lia).
    destruct (Z.compare_spec ex ey) as [E|E|E]; f_equal; symmetry.
    + subst ey. change (Pos.compare_cont Eq mx my) with (mx ?= my)%positive.
      rewrite Pos2Z.inj_compare. destruct (Z.compare_spec (Zpos mx) (Zpos my)).
      * apply Z.compare_eq_iff. nia.
      * apply Z.compare_lt_iff. nia.
      * apply Z.compare_gt_iff. nia.
    + apply Z.compare_lt_iff. destruct Ny as [->|Ny]; [lia|].
      pose proof (scaled_lt mx ex my ey Mx Ex E Ny). nia.
    + apply Z.compare_gt_iff. destruct Nx as [->|Nx]; [lia|].
      pose proof (scaled_lt my ey mx ex My Ey E Nx). nia.
Qed.

Lemma num_compare_antisym x y :
  SFcompare y x = match SFcompare x y with Some c => Some (CompOpp c) | None => None end.
Proof.
  unfold SFcompare. destruct x as [sx|sx| |sx mx ex], y as [sy|sy| |sy my ey]; try done;
    try (by destruct sx); try (by destruct sy); try (by destruct sx, sy).
  destruct sx, sy; try done; rewrite (Z.compare_antisym ex ey); destruct (ex ?= ey)%Z; simpl; try done;
    rewrite (ZC4 my mx); by destruct (Pos.compare_cont Eq mx my).
Qed.
