(* ===== verification/Types.v ===== *)
(** The data of [pricing/lib/billing-expression/types.ts]: expression nodes,
    diagnostics, the bounded post-order traversal and what is computed with it.

    [visitExpression] is the explicit-stack loop of the source; [visit_rec] is
    the recursive reading of it, and the first theorem identifies the two. *)
From Stdlib Require Import ZArith Lia Bool String.
From stdpp Require Import base list option.
From S2P Require Import Prelude JsString JsNumber.

(** * Tables *)

Definition TOKEN_VARIABLES : list string :=
  ["p"; "c"; "len"; "cr"; "cc"; "cc1h"; "img"; "img_o"; "ai"; "ao"]%string.
Definition CONTEXT_VARIABLES : list string := ["group"; "channel"]%string.
Definition TIME_FUNCTIONS : list string :=
  ["hour"; "minute"; "weekday"; "month"; "day"]%string.

(** Function names and their arity. *)
Definition BILLING_FUNCTIONS : list (string * nat) :=
  [("tier", 2); ("fixed", 1); ("param", 1); ("header", 1); ("has", 2); ("u", 1);
   ("hour", 1); ("minute", 1); ("weekday", 1); ("month", 1); ("day", 1);
   ("min", 2); ("max", 2); ("abs", 1); ("ceil", 1); ("floor", 1)]%string%nat.

(** [table[key]] for an own key of a constant record. *)
Fixpoint table_get {A} (t : list (string * A)) (key : jsstr) : option A :=
  match t with
  | [] => None
  | (k, v) :: t' => if str_eqb key (js k) then Some v else table_get t' key
  end.

Arguments table_get {A} t key : simpl never.

(** * Expression nodes *)

Inductive literal_value :=
| LString (s : jsstr)
| LNumber (n : number)
| LBool (b : bool)
| LNull.

(** [ExpressionNode].  Every node carries the span [start, stop) of its source
    text.  The optional flag [integer] of a literal is [false] when absent: only
    its truthiness is read. *)
Inductive node :=
| NLiteral (start stop : nat) (value : literal_value) (integer : bool)
| NVariable (start stop : nat) (name : jsstr)
| NContext (start stop : nat) (name : jsstr)
| NCall (start stop : nat) (name : jsstr) (args : list node)
| NUnary (start stop : nat) (operator : jsstr) (operand : node)
| NBinary (start stop : nat) (operator : jsstr) (left right : node)
| NConditional (start stop : nat) (condition yes no : node).

Definition node_start (n : node) : nat :=
  match n with
  | NLiteral s _ _ _ | NVariable s _ _ | NContext s _ _ | NCall s _ _ _
  | NUnary s _ _ _ | NBinary s _ _ _ _ | NConditional s _ _ _ _ => s
  end.
Definition node_end (n : node) : nat :=
  match n with
  | NLiteral _ e _ _ | NVariable _ e _ | NContext _ e _ | NCall _ e _ _
  | NUnary _ e _ _ | NBinary _ e _ _ _ | NConditional _ e _ _ _ => e
  end.

(** [{ ...node, start, end }]. *)
Definition with_span (s e : nat) (n : node) : node :=
  match n with
  | NLiteral _ _ v i => NLiteral s e v i
  | NVariable _ _ x => NVariable s e x
  | NContext _ _ x => NContext s e x
  | NCall _ _ f a => NCall s e f a
  | NUnary _ _ o a => NUnary s e o a
  | NBinary _ _ o l r => NBinary s e o l r
  | NConditional _ _ c y n => NConditional s e c y n
  end.

(** The children in evaluation order. *)
Definition children (n : node) : list node :=
  match n with
  | NLiteral _ _ _ _ | NVariable _ _ _ | NContext _ _ _ => []
  | NCall _ _ _ args => args
  | NUnary _ _ _ a => [a]
  | NBinary _ _ _ l r => [l; r]
  | NConditional _ _ c y n => [c; y; n]
  end.

(** Object identity of nodes.  The nodes of one tree are distinct objects with
    distinct spans ([parse_spans_unique] of the parser's theorems), so [===] on
    nodes of one tree is equality of spans. *)
Definition same_node (a b : node) : bool :=
  (node_start a =? node_start b)%nat && (node_end a =? node_end b)%nat.

(** Structural recursion over the children. *)
Fixpoint node_fold {R} (f : node -> list R -> R) (n : node) : R :=
  f n (match n with
       | NLiteral _ _ _ _ | NVariable _ _ _ | NContext _ _ _ => []
       | NCall _ _ _ args => map (node_fold f) args
       | NUnary _ _ _ a => [node_fold f a]
       | NBinary _ _ _ l r => [node_fold f l; node_fold f r]
       | NConditional _ _ c y n => [node_fold f c; node_fold f y; node_fold f n]
       end).

Definition node_size : node -> nat := node_fold (fun _ l => S (sum_list l)).
Definition node_height : node -> nat := node_fold (fun _ l => S (max_list l)).
Definition subnodes : node -> list node := node_fold (fun n l => n :: concat l).
Definition postorder : node -> list node := node_fold (fun n l => concat l ++ [n]).

(** * Diagnostics *)

Inductive diagnostic_code :=
| syntax | unsupported | missing_context | type_error | number_error | limit.

Record diagnostic := Diagnostic {
  code : diagnostic_code;
  detail : jsstr;
  position : option nat;
}.

(** What modelled code throws: the program's own error, an error of the language
    ([undefined.start] on a missing argument), or [Stuck], a loop of the model
    that ran out of fuel; the termination theorems show that the last does not
    happen. *)
Inductive exn :=
| BillingExpressionError (d : diagnostic)
| NativeError (message : jsstr)
| Stuck.

Definition throw {A} (c : diagnostic_code) (d : jsstr) (p : option nat) : result exn A :=
  Err (BillingExpressionError (Diagnostic c d p)).

Inductive failure_status := SUnsupported | SInvalid | SMissingContext.

Record failure := Failure {
  status : failure_status;
  fail_diagnostic : diagnostic;
}.

Definition expressionFailure (error : exn) : failure :=
  let diagnostic :=
    match error with
    | BillingExpressionError d => d
    | NativeError message => Diagnostic syntax message None
    | Stuck => Diagnostic syntax [] None
    end in
  let status := SInvalid in
  let status :=
    match code diagnostic with missing_context => SMissingContext | _ => status end in
  let status :=
    match code diagnostic with
    | unsupported | limit => SUnsupported
    | _ => status
    end in
  Failure status diagnostic.

(** * Traversal *)

Section Visit.
Context {St : Type}.
Variable visitor : node -> St -> result exn St.

Record entry := Entry { e_node : node; e_visited : bool; e_depth : nat }.

(** The [while] loop on the stack (top first). *)
Fixpoint visit_loop (fuel : nat) (stack : list entry) (st : St) : result exn St :=
  match fuel with
  | O => Err Stuck
  | S f =>
      match stack with
      | [] => Ok st
      | e :: stack' =>
          if (256 <? e_depth e)%nat then throw limit (js "expression depth") None
          else if e_visited e then
            let! st' := visitor (e_node e) st in
            visit_loop f stack' st'
          else
            visit_loop f
              (map (fun c => Entry c false (e_depth e + 1)) (children (e_node e))
               ++ Entry (e_node e) true (e_depth e) :: stack') st
      end
  end.

(** Each node is popped twice. *)
Definition visitExpression (n : node) (st : St) : result exn St :=
  visit_loop (2 * node_size n + 1) [Entry n false 0] st.

(** Visit a list of sub-traversals in order. *)
Fixpoint visit_all (l : list (nat -> St -> result exn St)) (d : nat) (st : St)
  : result exn St :=
  match l with
  | [] => Ok st
  | k :: l' => let! st' := k d st in visit_all l' d st'
  end.

(** The recursive reading: children first, then the node. *)
Definition visit_rec : node -> nat -> St -> result exn St :=
  node_fold (fun n l d st =>
    if (256 <? d)%nat then throw limit (js "expression depth") None
    else let! st' := visit_all l (d + 1) st in visitor n st').

End Visit.

(** Adding to a JavaScript [Set]: insertion order, no duplicates. *)
Definition set_add (x : jsstr) (l : list jsstr) : list jsstr :=
  if existsb (str_eqb x) l then l else l ++ [x].
Definition set_has (l : list jsstr) (x : string) : bool := existsb (str_eqb (js x)) l.

Record dependencies := Dependencies {
  variables : list jsstr;
  functions : list jsstr;
}.

Definition dependency_visitor (part : node) (d : dependencies) : result exn dependencies :=
  match part with
  | NVariable _ _ x => Ok (Dependencies (set_add x (variables d)) (functions d))
  | NCall _ _ f _ => Ok (Dependencies (variables d) (set_add f (functions d)))
  | _ => Ok d
  end.

Definition expressionDependencies (n : node) : result exn dependencies :=
  visitExpression dependency_visitor n (Dependencies [] []).

(** * Facts *)

Lemma node_fold_unfold {R} (f : node -> list R -> R) n :
  node_fold f n = f n (map (node_fold f) (children n)).
Proof. by destruct n. Qed.

(** Induction over the children. *)
Lemma node_children_ind (P : node -> Prop) :
  (forall n, Forall P (children n) -> P n) -> forall n, P n.
Proof.
  intros H. fix IH 1. intros n. apply H.
  destruct n; simpl; repeat constructor; try apply IH.
  induction args as [|a args IHa]; constructor; [apply IH|apply IHa].
Qed.

Lemma node_size_unfold n : node_size n = S (sum_list (map node_size (children n))).
Proof. exact (node_fold_unfold (fun _ l => S (sum_list l)) n). Qed.
Lemma node_height_unfold n : node_height n = S (max_list (map node_height (children n))).
Proof. exact (node_fold_unfold (fun _ l => S (max_list l)) n). Qed.
Lemma subnodes_unfold n : subnodes n = n :: concat (map subnodes (children n)).
Proof. exact (node_fold_unfold (fun n l => n :: concat l) n). Qed.
Lemma postorder_unfold n : postorder n = concat (map postorder (children n)) ++ [n].
Proof. exact (node_fold_unfold (fun n l => concat l ++ [n]) n). Qed.

Lemma node_size_pos n : (0 < node_size n)%nat.
Proof. rewrite node_size_unfold. lia. Qed.

Lemma subnodes_self n : n ∈ subnodes n.
Proof. rewrite subnodes_unfold. left. Qed.

Lemma subnodes_child n c m : c ∈ children n -> m ∈ subnodes c -> m ∈ subnodes n.
Proof.
  intros Hc Hm. rewrite subnodes_unfold. right.
  apply list_elem_of_In, in_concat. exists (subnodes c).
  split; [|by apply list_elem_of_In]. apply in_map. by apply list_elem_of_In.
Qed.

(** Being a sub-node is transitive. *)
Lemma subnodes_trans n m k : m ∈ subnodes n -> k ∈ subnodes m -> k ∈ subnodes n.
Proof.
  revert m k. induction n as [n IH] using node_children_ind. intros m k Hm Hk.
  rewrite subnodes_unfold in Hm. apply list_elem_of_In in Hm as [<-|Hm]; [done|].
  apply in_concat in Hm as (l & Hl & Hm). apply in_map_iff in Hl as (c & <- & Hc).
  apply list_elem_of_In in Hc, Hm. rewrite Forall_elem in IH.
  exact (subnodes_child _ c _ Hc (IH c Hc m k Hm Hk)).
Qed.

(** Induction over all proper sub-nodes. *)
Lemma node_sub_ind (P : node -> Prop) :
  (forall n, (forall c m, c ∈ children n -> m ∈ subnodes c -> P m) -> P n) -> forall n, P n.
Proof.
  intros H n. enough (Hall : forall m, m ∈ subnodes n -> P m) by apply Hall, subnodes_self.
  induction n as [n IH] using node_children_ind. rewrite Forall_elem in IH.
  assert (Hn : P n) by (apply H; intros c m Hc Hm; by apply (IH c Hc)).
  intros m Hm. rewrite subnodes_unfold in Hm. apply elem_of_cons in Hm as [->|Hm]; [done|].
  apply list_elem_of_In, in_concat in Hm as (l & Hl & Hin).
  apply in_map_iff in Hl as (c & <- & Hc). apply list_elem_of_In in Hc, Hin. eauto.
Qed.

Lemma postorder_subnodes n m : m ∈ postorder n <-> m ∈ subnodes n.
Proof.
  revert m. induction n as [n IH] using node_children_ind. intros m.
  rewrite postorder_unfold, subnodes_unfold, elem_of_app, !elem_of_cons.
  pose proof (not_elem_of_nil m).
  rewrite Forall_elem in IH.
  assert (m ∈ concat (map postorder (children n)) <-> m ∈ concat (map subnodes (children n))).
  { rewrite !list_elem_of_In, !in_concat. split; intros (l & Hl & Hm);
      apply in_map_iff in Hl as (c & <- & Hc).
    - exists (subnodes c). split; [by apply in_map|].
      apply list_elem_of_In, IH; by apply list_elem_of_In.
    - exists (postorder c). split; [by apply in_map|].
      apply list_elem_of_In, IH; by apply list_elem_of_In. }
  tauto.
Qed.

#[export] Hint Resolve node_size_pos subnodes_self subnodes_child subnodes_trans : newapi.

Section VisitFacts.
Context {St : Type}.
Variable visitor : node -> St -> result exn St.

Lemma visit_rec_unfold n d st :
  visit_rec visitor n d st =
  if (256 <? d)%nat then throw limit (js "expression depth") None
  else let! st' := visit_all (map (visit_rec visitor) (children n)) (d + 1) st in
       visitor n st'.
Proof. unfold visit_rec at 1. rewrite node_fold_unfold. done. Qed.

(** The loop, started with a node on top of the stack, performs the recursive
    visit of that node and goes on with the rest of the stack. *)
Lemma visit_loop_node n : forall fuel d stack st,
  visit_loop visitor (2 * node_size n + fuel) (Entry n false d :: stack) st =
  let! st' := visit_rec visitor n d st in visit_loop visitor fuel stack st'.
Proof.
  induction n as [n IH] using node_children_ind. intros fuel d stack st.
  rewrite visit_rec_unfold, node_size_unfold.
  replace (2 * S (sum_list (map node_size (children n))) + fuel)%nat
    with (S (2 * sum_list (map node_size (children n)) + S fuel))%nat by lia.
  cbn [visit_loop e_depth e_visited e_node].
  destruct (256 <? d)%nat eqn:Ed; [done|].
  revert st. induction (children n) as [|c cs IHcs]; intros st; simpl.
  - rewrite Ed. by destruct (visitor n st).
  - inversion IH as [|? ? Hc Hcs]; subst.
    replace (node_size c + sum_list (map node_size cs) +
             (node_size c + sum_list (map node_size cs) + 0) + S fuel)%nat
      with (2 * node_size c + (2 * sum_list (map node_size cs) + S fuel))%nat by lia.
    rewrite Hc. destruct (visit_rec visitor c (d + 1) st); [|done].
    apply IHcs, Hcs.
Qed.

(** The explicit-stack loop is the recursive visit; in particular its fuel is
    always enough. *)
Lemma visitExpression_rec n st :
  visitExpression visitor n st = visit_rec visitor n 0 st.
Proof.
  unfold visitExpression. rewrite visit_loop_node.
  by destruct (visit_rec visitor n 0 st).
Qed.

(** An invariant that the visitor keeps on every node of the tree holds after
    the traversal. *)
Lemma visit_rec_inv (I : St -> Prop) n : forall d st st',
  (forall m s s', m ∈ subnodes n -> I s -> visitor m s = Ok s' -> I s') ->
  I st -> visit_rec visitor n d st = Ok st' -> I st'.
Proof.
  induction n as [n IH] using node_children_ind. intros d st st' Hv Hi H.
  rewrite visit_rec_unfold in H. destruct (256 <? d); [done|].
  destruct (visit_all _ _ st) as [st1|] eqn:E; [|done].
  eapply Hv; [apply subnodes_self| |exact H]. clear H.
  assert (Hcs : forall cs, Forall (fun c => c ∈ children n) cs -> forall st st1, I st ->
    visit_all (map (visit_rec visitor) cs) (d + 1) st = Ok st1 -> I st1).
  { clear st st1 Hi E. intros cs Hcs. induction Hcs as [|c cs Hc _ IHcs]; simpl;
      intros st st1 Hi E; [by injection E as <-|].
    destruct (visit_rec visitor c (d + 1) st) as [st2|] eqn:Ec; [|done].
    eapply IHcs; [|exact E].
    eapply (proj1 (Forall_elem _ _) IH _ Hc); [|exact Hi|exact Ec].
    intros m s s' Hm. apply Hv. by eapply subnodes_child. }
  eapply Hcs; [|exact Hi|exact E]. by apply Forall_elem.
Qed.

Lemma visitExpression_inv (I : St -> Prop) n st st' :
  (forall m s s', m ∈ subnodes n -> I s -> visitor m s = Ok s' -> I s') ->
  I st -> visitExpression visitor n st = Ok st' -> I st'.
Proof. rewrite visitExpression_rec. apply visit_rec_inv. Qed.

(** The visitor applied to a list of nodes in order. *)
Fixpoint visit_list (l : list node) (st : St) : result exn St :=
  match l with
  | [] => Ok st
  | n :: l' => let! st' := visitor n st in visit_list l' st'
  end.

Lemma visit_list_app l1 l2 st :
  visit_list (l1 ++ l2) st = let! st' := visit_list l1 st in visit_list l2 st'.
Proof.
  revert st. induction l1 as [|n l1 IH]; intros st; simpl; [done|].
  destruct (visitor n st); [apply IH|done].
Qed.

Lemma visit_rec_postorder n : forall d st, d + node_height n <= 257 ->
  visit_rec visitor n d st = visit_list (postorder n) st.
Proof.
  induction n as [n IH] using node_children_ind. intros d st Hd.
  rewrite visit_rec_unfold, postorder_unfold. rewrite node_height_unfold in Hd.
  destruct (256 <? d) eqn:E; bools; [lia|]. rewrite visit_list_app.
  assert (Hd' : d + 1 + max_list (map node_height (children n)) <= 257) by lia.
  assert (Ha : visit_all (map (visit_rec visitor) (children n)) (d + 1) st =
               visit_list (concat (map postorder (children n))) st).
  { clear Hd. revert st Hd'. induction IH as [|c cs Hc _ IHcs]; simpl; intros st Hd'; [done|].
    rewrite visit_list_app, Hc by lia. destruct (visit_list (postorder c) st); [|done].
    apply IHcs. lia. }
  rewrite Ha. destruct (visit_list _ st) as [st'|]; [|done].
  simpl. by destruct (visitor n st').
Qed.

(** A traversal that succeeds stays within the depth limit. *)
Lemma visit_rec_height n : forall d st st',
  visit_rec visitor n d st = Ok st' -> d + node_height n <= 257.
Proof.
  induction n as [n IH] using node_children_ind. intros d st st' H.
  rewrite visit_rec_unfold in H. destruct (256 <? d) eqn:E; bools; [done|].
  rewrite node_height_unfold.
  destruct (visit_all _ _ st) as [st1|] eqn:Ev; [|done].
  enough (d + 1 + max_list (map node_height (children n)) <= 257 \/ children n = []) as [?|E'];
    [lia|rewrite E'; simpl; lia|].
  clear H. revert st Ev. induction IH as [|c cs Hc _ IHcs]; intros st Ev; [by right|].
  simpl in *. destruct (visit_rec visitor c (d + 1) st) as [st2|] eqn:Ec; [|done].
  apply Hc in Ec. left. destruct (IHcs st2 Ev) as [?| ->]; simpl; lia.
Qed.

Lemma visitExpression_Ok n st st' :
  visitExpression visitor n st = Ok st' ->
  node_height n <= 257 /\ visit_list (postorder n) st = Ok st'.
Proof.
  rewrite visitExpression_rec. intros H. pose proof (visit_rec_height _ _ _ _ H) as Hh.
  split; [lia|]. by rewrite <- (visit_rec_postorder n 0 st Hh).
Qed.

(** The explicit-stack traversal visits the nodes in post-order. *)
Lemma visit_bounded n st :
  node_height n <= 257 -> visitExpression visitor n st = visit_list (postorder n) st.
Proof. intros H. rewrite visitExpression_rec. by apply visit_rec_postorder. Qed.

(** The explicit-stack traversal terminates and calls the visitor on every
    node exactly once, children before parents and left to right, for a tree of
    at most 257 levels; on a deeper tree it throws. *)
Theorem visitExpression_postorder n st :
  (node_height n <= 257 -> visitExpression visitor n st = visit_list (postorder n) st) /\
  (257 < node_height n -> is_Ok (visitExpression visitor n st) = false).
Proof.
  rewrite visitExpression_rec. split; intros H; [by apply visit_rec_postorder|].
  destruct (visit_rec visitor n 0 st) eqn:E; [|done]. apply visit_rec_height in E. lia.
Qed.

End VisitFacts.

(** ** Dependencies *)

Lemma set_add_elem x y l : y ∈ set_add x l <-> y ∈ l \/ y = x.
Proof.
  unfold set_add. destruct (existsb (str_eqb x) l) eqn:E.
  - split; [by left|]. intros [?| ->]; [done|].
    apply existsb_exists in E as (z & Hz & Hx).
    destruct (str_eqb_reflect x z) as [->|]; [by apply list_elem_of_In|done].
  - rewrite elem_of_app, list_elem_of_singleton. tauto.
Qed.

Lemma set_has_elem l x : set_has l x = true <-> js x ∈ l.
Proof.
  unfold set_has. rewrite existsb_exists. split.
  - intros (z & Hz & Hx). destruct (str_eqb_reflect (js x) z) as [->|]; [|done].
    by apply list_elem_of_In.
  - intros H. exists (js x). split; [by apply list_elem_of_In|].
    by destruct (str_eqb_reflect (js x) (js x)).
Qed.

(** [m] is an occurrence of variable, or of function, [x]. *)
Definition is_variable (x : jsstr) (m : node) : Prop := exists s e, m = NVariable s e x.
Definition is_call (x : jsstr) (m : node) : Prop := exists s e args, m = NCall s e x args.

Lemma dependency_list l : forall d d', visit_list dependency_visitor l d = Ok d' ->
  (forall x, x ∈ variables d' <-> x ∈ variables d \/ Exists (is_variable x) l) /\
  (forall x, x ∈ functions d' <-> x ∈ functions d \/ Exists (is_call x) l).
Proof.
  induction l as [|n l IH]; simpl; intros d d' H.
  - injection H as <-. split; intros x; rewrite Exists_nil; tauto.
  - destruct (dependency_visitor n d) as [d1|] eqn:E; [|done].
    destruct (IH _ _ H) as [Hv Hf]. unfold is_variable, is_call in *.
    split; intros x; rewrite ?Hv, ?Hf, Exists_cons; clear - E;
      destruct n; injection E as <-; simpl; rewrite ?set_add_elem; naive_solver.
Qed.

(** The dependencies of an expression are exactly the variables and the functions
    that occur in it. *)
Lemma expressionDependencies_spec n d :
  expressionDependencies n = Ok d ->
  (forall x, x ∈ variables d <-> exists m, m ∈ subnodes n /\ is_variable x m) /\
  (forall x, x ∈ functions d <-> exists m, m ∈ subnodes n /\ is_call x m).
Proof.
  intros [_ H]%visitExpression_Ok. destruct (dependency_list _ _ _ H) as [Hv Hf].
  split; intros x; [rewrite Hv|rewrite Hf]; rewrite Exists_exists; simpl;
    setoid_rewrite <- list_elem_of_In; setoid_rewrite postorder_subnodes;
    pose proof (not_elem_of_nil x); tauto.
Qed.

Lemma node_height_child n c : c ∈ children n -> S (node_height c) <= node_height n.
Proof.
  intros Hc. rewrite (node_height_unfold n). apply le_n_S.
  induction (children n) as [|a cs IH]; [by apply not_elem_of_nil in Hc|]. simpl.
  apply elem_of_cons in Hc as [->|Hc]; [lia|]. specialize (IH Hc). lia.
Qed.

Lemma node_height_sub n m : m ∈ subnodes n -> node_height m <= node_height n.
Proof.
  revert m. induction n as [n IH] using node_children_ind. intros m Hm.
  rewrite subnodes_unfold in Hm. apply elem_of_cons in Hm as [->|Hm]; [done|].
  apply list_elem_of_In, in_concat in Hm as (l & Hl & Hin).
  apply in_map_iff in Hl as (c & <- & Hc). apply list_elem_of_In in Hc, Hin.
  rewrite Forall_elem in IH. specialize (IH c Hc m Hin).
  pose proof (node_height_child n c Hc). lia.
Qed.

(** Within the depth limit dependencies can always be computed. *)
Lemma expressionDependencies_total n :
  node_height n <= 257 -> exists d, expressionDependencies n = Ok d.
Proof.
  intros Hn. unfold expressionDependencies.
  rewrite visit_bounded by done.
  generalize (Dependencies [] []) as d.
  induction (postorder n) as [|m l IH]; simpl; intros d; [eauto|].
  destruct m; simpl; apply IH.
Qed.
