(* ===== verification/JsValue.v ===== *)
(** JavaScript values of type [unknown], as far as the modelled code tells them
    apart, and the readers of [pricing/lib/billing-expression/runtime.ts] that
    work on JSON values: [readRequestPath] and [billingString]. *)
From Stdlib Require Import ZArith Lia Bool String SpecFloat.
From stdpp Require Import base list option.
From S2P Require Import Prelude JsString JsNumber Types.

(** * Values *)

Inductive jsvalue :=
| JUndefined
| JNull
| JBool (b : bool)
| JNum (n : number)
| JStr (s : jsstr)
| JArr (l : list jsvalue)
| JObj (fields : list (jsstr * jsvalue)).

(** An own property of an object, given by its entries. *)
Fixpoint own {A} (fields : list (jsstr * A)) (key : jsstr) : option A :=
  match fields with
  | [] => None
  | (k, v) :: f => if str_eqb key k then Some v else own f key
  end.

(** The names that a plain object inherits from [Object.prototype]. *)
Definition inherited_names : list string :=
  ["constructor"; "__defineGetter__"; "__defineSetter__"; "hasOwnProperty"; "__lookupGetter__";
   "__lookupSetter__"; "isPrototypeOf"; "propertyIsEnumerable"; "toString"; "valueOf"; "__proto__";
   "toLocaleString"]%string.

(** [v == null]. *)
Definition nullish (v : jsvalue) : bool :=
  match v with JUndefined | JNull => true | _ => false end.

(** [v ?? d]. *)
Definition or_default (v d : jsvalue) : jsvalue := if nullish v then d else v.

Definition is_object (v : jsvalue) : bool :=
  match v with JNull | JArr _ | JObj _ => true | _ => false end.

(** [a === b] when the two are not both objects other than [null]: identity of
    objects is never asked for. *)
Definition strict_eqb (a b : jsvalue) : bool :=
  match a, b with
  | JUndefined, JUndefined | JNull, JNull => true
  | JBool x, JBool y => Bool.eqb x y
  | JNum x, JNum y => num_eqb x y
  | JStr x, JStr y => str_eqb x y
  | _, _ => false
  end.

Definition value_of_literal (v : literal_value) : jsvalue :=
  match v with
  | LString s => JStr s | LNumber n => JNum n | LBool b => JBool b | LNull => JNull
  end.

(** [(v ?? '').toString()]; this is also [String(v)] for a [v] that is not [null] or
    [undefined]. *)
Fixpoint to_text (v : jsvalue) : jsstr :=
  match v with
  | JUndefined | JNull => []
  | JBool b => if b then js "true" else js "false"
  | JNum n => num_to_string n
  | JStr s => s
  | JArr l => join (js ",") (map to_text l)
  | JObj _ => js "[object Object]"
  end.

(** [Number(value)] of a value of any type. *)
Definition to_Number (v : jsvalue) : number :=
  match v with
  | JUndefined => S754_nan
  | JNull => num_zero
  | JBool b => if b then num_one else num_zero
  | JNum n => n
  | JStr s => js_Number s
  | JArr _ | JObj _ => js_Number (to_text v)
  end.

(** Truthiness of a number, and [n || 0]. *)
Definition num_truthy (n : number) : bool :=
  match n with S754_zero _ | S754_nan => false | _ => true end.
Definition or_zero (n : number) : number := if num_truthy n then n else num_zero.

(** Truthiness of a value, and [v || d]. *)
Definition value_truthy (v : jsvalue) : bool :=
  match v with
  | JUndefined | JNull => false
  | JBool b => b
  | JNum n => num_truthy n
  | JStr s => truthy s
  | JArr _ | JObj _ => true
  end.
Definition or_value (v d : jsvalue) : jsvalue := if value_truthy v then v else d.

(** The [TypeError] that reading a property of [null] or calling a method that a value
    does not have throws. *)
Inductive property_error := TypeError.

(** [v.key] of a JSON value: only objects have properties of these names. *)
Definition get_prop (v : jsvalue) (key : string) : result property_error jsvalue :=
  match v with
  | JUndefined | JNull => Err TypeError
  | JObj fields => Ok (match own fields (js key) with Some x => x | None => JUndefined end)
  | _ => Ok JUndefined
  end.

(** [v.trim()] and [v?.trim()]. *)
Definition call_trim (v : jsvalue) : result property_error jsstr :=
  match v with JStr s => Ok (trim s) | _ => Err TypeError end.
Definition optional_trim (v : jsvalue) : result property_error jsvalue :=
  if nullish v then Ok JUndefined else let! s := call_trim v in Ok (JStr s).

(** * [readRequestPath] *)

(** The characters of advanced GJSON queries: star, question mark, brackets,
    parentheses, bar, at sign, exclamation mark. *)
Definition GJSON_SPECIAL : list Z := [42; 63; 91; 93; 40; 41; 124; 64; 33]%Z.

(** The loop that splits a path at unescaped dots. *)
Fixpoint split_path (path : jsstr) (rest part : jsstr) (parts : list jsstr)
  : result exn (list jsstr) :=
  match rest with
  | [] => Ok (parts ++ [part])
  | char :: rest1 =>
      if (char =? BACKSLASH)%Z then
        match rest1 with
        | [] => throw unsupported path None
        | c :: rest2 => split_path path rest2 (part ++ [c]) parts
        end
      else if (char =? 46)%Z then split_path path rest1 [] (parts ++ [part])
      else if existsb (Z.eqb char) GJSON_SPECIAL then throw unsupported path None
      else split_path path rest1 (part ++ [char]) parts
  end.

(** The loop that follows the parts. *)
Fixpoint follow_path (path : jsstr) (value : jsvalue) (parts : list jsstr)
  : result exn jsvalue :=
  match parts with
  | [] => Ok (or_default value JNull)
  | key :: parts' =>
      match value with
      | JArr items =>
          if key === "#" then
            match parts' with
            | [] => Ok (JNum (num_of_Z (Z.of_nat (length items))))
            | _ => throw unsupported path None
            end
          else if negb (truthy key && forallb is_digit key) then Ok JNull
          else
            let index := js_Number key in
            let next :=
              if is_safe_integer index then
                match num_to_Z index with
                | Some z => match items !! Z.to_nat z with Some v => v | None => JUndefined end
                | None => JUndefined
                end
              else JUndefined in
            follow_path path next parts'
      | JObj fields =>
          match own fields key with
          | Some v => follow_path path v parts'
          | None => Ok JNull
          end
      | _ => Ok JNull
      end
  end.

Definition readRequestPath (body : jsvalue) (rawPath : jsstr) : result exn jsvalue :=
  let path := trim rawPath in
  match path with
  | [] => Ok JNull
  | _ =>
      let! parts := split_path path path [] [] in
      follow_path path body parts
  end.

(** * [billingString] *)

Fixpoint insert_entry {A} (e : jsstr * A) (l : list (jsstr * A)) : list (jsstr * A) :=
  match l with
  | [] => [e]
  | x :: l' => if str_ltb x.1 e.1 then x :: insert_entry e l' else e :: l
  end.

(** [entries.sort(([a], [b]) => (a < b ? -1 : Number(a > b)))], a stable sort by
    key. *)
Fixpoint sort_entries {A} (l : list (jsstr * A)) : list (jsstr * A) :=
  match l with
  | [] => []
  | e :: l' => insert_entry e (sort_entries l')
  end.

(** The text of each entry, in order; the first error wins. *)
Fixpoint entry_texts (l : list (jsstr * result exn jsstr)) : result exn (list jsstr) :=
  match l with
  | [] => Ok []
  | (k, r) :: l' =>
      let! t := r in
      let! ts := entry_texts l' in Ok ((k ++ js ":" ++ t) :: ts)
  end.

Definition billing_number (n : number) : result exn jsstr :=
  if negb (is_finite n) then throw number_error (js "request number") None
  else if is_negative_zero n then Ok (js "-0")
  else
    let '(mantissa, exponent) := to_exponential n in
    if (6 <=? exponent)%Z || (exponent <? -4)%Z then
      Ok (mantissa ++ js "e" ++ (if (exponent <? 0)%Z then js "-" else js "+")
          ++ pad_start 2 48%Z (string_of_Z (Z.abs exponent)))
    else Ok (num_to_string n).

Fixpoint billingString (value : jsvalue) (depth : nat) {struct value} : result exn jsstr :=
  if (128 <? depth)%nat then throw limit (js "request value depth") None
  else
    match value with
    | JUndefined | JNull => Ok (js "<nil>")
    | JArr items =>
        let! ts := map_result (fun item => billingString item (depth + 1)) items in
        Ok (js "[" ++ join (js " ") ts ++ js "]")
    | JObj fields =>
        let texts := map (fun e => (fst e, billingString (snd e) (depth + 1))) fields in
        let! ts := entry_texts (sort_entries texts) in
        Ok (js "map[" ++ join (js " ") ts ++ js "]")
    | JNum n => billing_number n
    | JStr s => Ok s
    | JBool b => Ok (if b then js "true" else js "false")
    end.

(** * Facts *)

Lemma own_In {A} (f : list (jsstr * A)) k v : own f k = Some v -> (k, v) ∈ f.
Proof.
  induction f as [|[k' v'] f IH]; simpl; [done|].
  destruct (str_eqb_reflect k k') as [->|]; [intros [= ->]; left|right; auto].
Qed.

Lemma strict_eqb_null a : strict_eqb a JNull = true <-> a = JNull.
Proof. by destruct a. Qed.

(** Induction over the elements of arrays and the fields of objects. *)
Lemma jsvalue_nested_ind (P : jsvalue -> Prop) :
  P JUndefined -> P JNull -> (forall b, P (JBool b)) -> (forall n, P (JNum n)) ->
  (forall s, P (JStr s)) -> (forall l, Forall P l -> P (JArr l)) ->
  (forall f, Forall (fun e => P e.2) f -> P (JObj f)) -> forall v, P v.
Proof.
  intros H1 H2 H3 H4 H5 H6 H7. fix IH 1.
  intros [| |b|n|s|l|f]; [exact H1|exact H2|apply H3|apply H4|apply H5| |].
  - apply H6. induction l as [|x l IHl]; constructor; [apply IH|apply IHl].
  - apply H7. induction f as [|[k x] f IHf]; constructor; [apply IH|apply IHf].
Qed.

Lemma insert_entry_elem {A} (e x : jsstr * A) l : x ∈ insert_entry e l <-> x = e \/ x ∈ l.
Proof.
  induction l as [|y l IH]; simpl; [rewrite list_elem_of_singleton; pose proof (not_elem_of_nil x); tauto|].
  destruct (str_ltb y.1 e.1); rewrite ?elem_of_cons, ?IH, ?elem_of_cons; tauto.
Qed.

Lemma sort_entries_elem {A} (l : list (jsstr * A)) x : x ∈ sort_entries l <-> x ∈ l.
Proof.
  induction l as [|e l IH]; simpl; [done|].
  by rewrite insert_entry_elem, IH, elem_of_cons.
Qed.
