(* ===== verification/Collections.v ===== *)
(** Collections of JavaScript: stable sorting, [localeCompare], and objects and maps
    as lists of entries in insertion order. *)
From Stdlib Require Import ZArith Lia Bool String SpecFloat Permutation Sorted.
From stdpp Require Import base list option.
From S2P Require Import Prelude JsString JsNumber JsValue.

#[local] Open Scope Z_scope.

(** * Sorting *)

(** [String.prototype.localeCompare], which orders the fields. *)
Class Collation := { localeCompare : jsstr -> jsstr -> Z }.

(** The order of code units. *)
Definition compare_units (a b : jsstr) : Z :=
  if str_ltb a b then -1 else if str_ltb b a then 1 else 0.
Definition unit_collation : Collation := {| localeCompare := compare_units |}.

(** The sign of a difference that a comparison returns, and a comparison of numbers. *)
Definition num_sign (x : number) : Z :=
  if num_ltb x num_zero then -1 else if num_ltb num_zero x then 1 else 0.
Definition by_number (x y : number) : Z := num_sign (num_sub x y).

(** [Array.prototype.sort] with a comparison of keys: stable. *)
Fixpoint insert_sorted {A} (cmp : A -> A -> Z) (x : A) (l : list A) : list A :=
  match l with
  | [] => [x]
  | y :: l' => if (cmp x y <? 0)%Z then x :: l else y :: insert_sorted cmp x l'
  end.
Definition sort_by {A} (cmp : A -> A -> Z) (l : list A) : list A :=
  fold_left (fun acc x => insert_sorted cmp x acc) l [].

Lemma insert_sorted_perm {A} (cmp : A -> A -> Z) x l : Permutation (insert_sorted cmp x l) (x :: l).
Proof.
  induction l as [|y l IH]; simpl; [done|]. destruct (cmp x y <? 0); [done|].
  rewrite IH. apply Permutation_swap.
Qed.

Lemma sort_by_perm {A} (cmp : A -> A -> Z) l : Permutation (sort_by cmp l) l.
Proof.
  unfold sort_by. rewrite <- (app_nil_r l) at 2. generalize (@nil A) as acc.
  induction l as [|x l IH]; intros acc; [done|]. cbn [fold_left app]. rewrite IH, insert_sorted_perm.
  symmetry. apply Permutation_middle.
Qed.

(** Sorting by a comparison that agrees with an integer key. *)
Section Sorted.
Context {A : Type} (cmp : A -> A -> Z) (key : A -> Z).
Definition by_key (x y : A) : Prop := key x <= key y.

Lemma insert_sorted_sorted x l : (forall y, y ∈ l -> (cmp x y <? 0) = (key x <? key y)) ->
  StronglySorted by_key l -> StronglySorted by_key (insert_sorted cmp x l).
Proof.
  intros Hc. induction 1 as [|y l Hl IH Hy]; cbn [insert_sorted]; [by repeat constructor|].
  rewrite (Hc y) by (by left). destruct (key x <? key y) eqn:E; bools; unfold by_key in *.
  - constructor; [by constructor|]. constructor; [lia|].
    apply Forall_elem. intros z Hz. rewrite Forall_elem in Hy. specialize (Hy z Hz). lia.
  - constructor; [apply IH; intros z Hz; apply Hc; by right|].
    apply Forall_elem. intros z Hz. rewrite insert_sorted_perm in Hz. apply elem_of_cons in Hz as [->|Hz]; [lia|].
    rewrite Forall_elem in Hy. by apply Hy.
Qed.

Lemma sort_by_sorted l : (forall x y, x ∈ l -> y ∈ l -> (cmp x y <? 0) = (key x <? key y)) ->
  StronglySorted by_key (sort_by cmp l).
Proof.
  intros Hc. unfold sort_by.
  assert (H : forall rest acc, (forall x, x ∈ rest \/ x ∈ acc -> x ∈ l) -> StronglySorted by_key acc ->
            StronglySorted by_key (fold_left (fun acc x => insert_sorted cmp x acc) rest acc)).
  { induction rest as [|x rest IH]; intros acc Hin Hs; [done|]. cbn [fold_left]. apply IH.
    - intros y [Hy|Hy]; [apply Hin; left; by right|]. rewrite insert_sorted_perm in Hy.
      apply elem_of_cons in Hy as [->|Hy]; [apply Hin; left; by left|apply Hin; by right].
    - apply insert_sorted_sorted; [|done]. intros y Hy. apply Hc; apply Hin; [left; by left|by right]. }
  apply H; [|constructor]. intros x [Hx|Hx]; [done|]. by apply not_elem_of_nil in Hx.
Qed.

(** What stands before a position of a sorted list has no greater key than what
    stands after it. *)
Lemma sorted_split n l x y : StronglySorted by_key l -> x ∈ take n l -> y ∈ drop n l -> by_key x y.
Proof.
  intros Hs. revert n. induction Hs as [|z l Hl IH Hz]; intros n.
  - rewrite take_nil. by intros ?%not_elem_of_nil.
  - destruct n as [|n]; [by intros ?%not_elem_of_nil|]. cbn [take drop]. intros [->|Hx]%elem_of_cons Hy; [|by apply (IH n)].
    rewrite Forall_elem in Hz. apply Hz. rewrite <- (take_drop n l). apply elem_of_app. by right.
Qed.

(** Elements of one key keep their order. *)
Definition with_rank (k : Z) (l : list A) : list A := List.filter (fun x => key x =? k) l.

Lemma with_rank_above k l : (forall y, y ∈ l -> k < key y) -> with_rank k l = [].
Proof.
  unfold with_rank. induction l as [|y l IH]; intros H; [done|]. cbn [List.filter].
  destruct (key y =? k) eqn:E; bools; [pose proof (H y ltac:(left)); lia|].
  apply IH. intros z Hz. apply H. by right.
Qed.

Lemma insert_sorted_stable x l k : (forall y, y ∈ l -> (cmp x y <? 0) = (key x <? key y)) ->
  StronglySorted by_key l -> with_rank k (insert_sorted cmp x l) = with_rank k (l ++ [x]).
Proof.
  intros Hc. induction 1 as [|y l Hl IH Hy]; [done|]. cbn [insert_sorted app].
  rewrite (Hc y) by (by left). destruct (key x <? key y) eqn:E; bools.
  - change (y :: l ++ [x]) with ((y :: l) ++ [x]). unfold with_rank. rewrite List.filter_app. cbn [List.filter].
    destruct (key x =? k) eqn:Ex; [|by rewrite app_nil_r]. bools.
    assert (H0 : with_rank k (y :: l) = []).
    { apply with_rank_above. unfold by_key in Hy. intros z [->|Hz]%elem_of_cons; [lia|].
      rewrite Forall_elem in Hy. specialize (Hy z Hz). lia. }
    unfold with_rank in H0. cbn [List.filter] in H0. by rewrite H0.
  - unfold with_rank in *. cbn [List.filter].
    rewrite IH by (intros z Hz; apply Hc; by right). done.
Qed.

Lemma sort_by_stable l k : (forall x y, x ∈ l -> y ∈ l -> (cmp x y <? 0) = (key x <? key y)) ->
  with_rank k (sort_by cmp l) = with_rank k l.
Proof.
  induction l as [|x l IH] using rev_ind; intros Hc; [done|]. unfold sort_by in *. rewrite fold_left_app. cbn [fold_left].
  assert (Hc' : forall a b, a ∈ l -> b ∈ l -> (cmp a b <? 0) = (key a <? key b)).
  { intros a b Ha Hb. apply Hc; apply elem_of_app; by left. }
  rewrite insert_sorted_stable.
  - unfold with_rank in *. rewrite !List.filter_app. by rewrite IH.
  - intros y Hy. change (fold_left _ l []) with (sort_by cmp l) in Hy. rewrite sort_by_perm in Hy.
    apply Hc; apply elem_of_app; [right; by left|by left].
  - by apply (sort_by_sorted l).
Qed.

End Sorted.

(** A list in which nothing has to move is sorted already. *)
Lemma sort_by_id {A} (cmp : A -> A -> Z) l : StronglySorted (fun x y => (cmp y x <? 0) = false) l -> sort_by cmp l = l.
Proof.
  intros H. unfold sort_by.
  assert (Hi : forall x acc, Forall (fun y => (cmp x y <? 0) = false) acc -> insert_sorted cmp x acc = acc ++ [x]).
  { intros x acc. induction 1 as [|y acc Hy _ IH]; [done|]. cbn [insert_sorted app]. by rewrite Hy, IH. }
  enough (G : forall acc, (forall x y, x ∈ l -> y ∈ acc -> (cmp x y <? 0) = false) ->
    fold_left (fun acc x => insert_sorted cmp x acc) l acc = acc ++ l).
  { apply (G []). by intros x y _ ?%not_elem_of_nil. }
  induction H as [|x l Hl IH Hx]; intros acc Ha; [by rewrite app_nil_r|]. cbn [fold_left].
  rewrite Hi by (apply Forall_elem; intros y Hy; apply Ha; [left|done]).
  rewrite IH, <- app_assoc; [done|]. intros y z Hy [Hz|Hz]%elem_of_app; [apply Ha; [by right|done]|].
  apply list_elem_of_singleton in Hz as ->. rewrite Forall_elem in Hx. by apply Hx.
Qed.

(** * Objects *)

(** [{ ...object, [key]: value }]. *)
Fixpoint assign {A} (key : jsstr) (v : A) (l : list (jsstr * A)) : list (jsstr * A) :=
  match l with
  | [] => [(key, v)]
  | (k, w) :: l' => if str_eqb key k then (k, v) :: l' else (k, w) :: assign key v l'
  end.

Lemma own_unique {A} (l : list (jsstr * A)) k v : NoDup (map fst l) -> (k, v) ∈ l -> own l k = Some v.
Proof.
  induction l as [|[k' v'] l IH]; intros Hn Hin; [by apply elem_of_nil in Hin|]. cbn [own].
  apply list.NoDup_cons in Hn as [Hk Hn]. apply elem_of_cons in Hin as [[= <- <-]|Hin].
  - by rewrite str_eqb_refl.
  - destruct (str_eqb k k') eqn:E; [|by apply IH]. apply str_eqb_eq in E as ->.
    destruct Hk. apply list_elem_of_fmap. by exists (k', v).
Qed.

Lemma assign_new {A} k (v : A) c : k ∉ map fst c -> assign k v c = c ++ [(k, v)].
Proof.
  induction c as [|[k' w] c IH]; intros H; [done|]. cbn [assign]. cbn [map fst] in H.
  apply not_elem_of_cons in H as [Hk H]. rewrite IH by done.
  destruct (str_eqb k k') eqn:E; [|done]. by apply str_eqb_eq in E.
Qed.

Lemma own_permuted {A} (l l' : list (jsstr * A)) k : Permutation l l' -> NoDup (map fst l) -> own l' k = own l k.
Proof.
  intros Hp Hn. assert (Hn' : NoDup (map fst l')) by (by rewrite <- Hp).
  destruct (own l k) as [v|] eqn:E.
  - apply own_unique; [done|]. rewrite <- Hp. by apply own_In.
  - destruct (own l' k) as [v|] eqn:E'; [|done]. apply own_In in E'. rewrite <- Hp in E'.
    apply own_unique in E'; [|done]. congruence.
Qed.

Lemma own_app {A} (m m' : list (jsstr * A)) x : own (m ++ m') x = match own m x with Some v => Some v | None => own m' x end.
Proof. induction m as [|[k v] m IH]; [done|]. cbn [app own]. by destruct (str_eqb x k). Qed.
Lemma own_filter {A} (m : list (jsstr * A)) name x :
  own (List.filter (fun e => negb (str_eqb e.1 name)) m) x = if str_eqb x name then None else own m x.
Proof.
  induction m as [|[k v] m IH]; cbn [List.filter own fst]; [by destruct (str_eqb x name)|].
  destruct (str_eqb_reflect k name) as [->|Hk]; cbn [negb own]; rewrite IH.
  - by destruct (str_eqb x name).
  - destruct (str_eqb_reflect x k) as [->|]; [|done]. by rewrite (proj2 (str_eqb_neq k name) Hk).
Qed.
Lemma filter_keys_nodup {A} (p : jsstr * A -> bool) (m : list (jsstr * A)) : NoDup (map fst m) -> NoDup (map fst (List.filter p m)).
Proof.
  induction m as [|[k v] m IH]; intros Hd; [done|]. cbn [map fst] in Hd. apply list.NoDup_cons in Hd as [Hk Hd].
  cbn [List.filter]. destruct (p (k, v)); [|by apply IH]. cbn [map fst]. apply list.NoDup_cons. split; [|by apply IH].
  intros Hin. apply Hk. apply list_elem_of_fmap in Hin as (x & -> & Hx). apply list_elem_of_In, filter_In in Hx as [Hx _].
  apply list_elem_of_fmap. exists x. split; [done|]. by apply list_elem_of_In.
Qed.
Lemma own_assign {A} k (v : A) l f : own (assign k v l) f = if str_eqb f k then Some v else own l f.
Proof.
  induction l as [|[k' w] l IH]; cbn [assign own].
  - by destruct (str_eqb f k).
  - destruct (str_eqb_reflect k k') as [->|Hk]; cbn [own]; [by destruct (str_eqb f k')|]. rewrite IH.
    destruct (str_eqb_reflect f k') as [->|]; [|done]. rewrite (proj2 (str_eqb_neq k' k)); [done|congruence].
Qed.

(** Spreading over an object with the same keys. *)
Lemma assign_same {A} (a : list (jsstr * A)) k v pre post : a = pre ++ (k, v) :: post -> NoDup (map fst a) -> forall w,
  assign k w a = pre ++ (k, w) :: post.
Proof.
  intros -> Hd w. induction pre as [|[k' v'] pre IH]; cbn [app assign] in *; [by rewrite str_eqb_refl|].
  cbn [map fst] in Hd. apply list.NoDup_cons in Hd as [Hn Hd]. destruct (str_eqb_reflect k k') as [->|]; [|by rewrite IH].
  exfalso. apply Hn. rewrite map_app. apply elem_of_app. right. by left.
Qed.

Lemma assign_over {A} (front c d : list (jsstr * A)) : map fst d = map fst c -> NoDup (map fst (front ++ d)) ->
  fold_left (fun acc e => assign e.1 e.2 acc) c (front ++ d) = front ++ c.
Proof.
  revert front d. induction c as [|[k v] c IH]; intros front d Hk Hd.
  - destruct d; [done|discriminate Hk].
  - destruct d as [|[k' v'] d]; [discriminate Hk|]. cbn [map fst] in Hk. injection Hk as -> Hk.
    cbn [fold_left fst snd]. rewrite (assign_same (front ++ (k, v') :: d) k v' front d eq_refl Hd v).
    rewrite (cons_middle (k, v)), app_assoc. rewrite IH; [by rewrite <- app_assoc|done|].
    rewrite <- app_assoc. cbn [app]. by rewrite !map_app in *.
Qed.

(** Assigning members whose keys are new. *)
Lemma assign_fresh {A} (c d : list (jsstr * A)) : NoDup (map fst (d ++ c)) ->
  fold_left (fun acc e => assign e.1 e.2 acc) c d = d ++ c.
Proof.
  revert d. induction c as [|[k v] c IH]; intros d Hd; cbn [fold_left fst snd]; [by rewrite app_nil_r|].
  rewrite (cons_middle (k, v)), app_assoc in *. rewrite assign_new; [by apply IH|].
  rewrite map_app in Hd. apply list.NoDup_app in Hd as (Hd & _ & _). rewrite map_app in Hd. cbn [map fst] in Hd.
  apply list.NoDup_app in Hd as (_ & Hd & _). intros Hin. by apply (Hd k Hin), list_elem_of_singleton.
Qed.

Lemma assign_keys {A} k (v : A) l :
  map fst (assign k v l) = if bool_decide (k ∈ map fst l) then map fst l else map fst l ++ [k].
Proof.
  induction l as [|[k' w] l IH]; [done|]. cbn [assign]. destruct (str_eqb_reflect k k') as [->|Hk].
  - cbn [map fst]. rewrite bool_decide_true; [done|]. by left.
  - cbn [map fst]. rewrite IH. destruct (decide (k ∈ map fst l)) as [Hin|Hin].
    + rewrite !bool_decide_true; [done|by right|done].
    + rewrite !bool_decide_false; [done| |done]. by intros [?|?]%elem_of_cons.
Qed.

Lemma assign_nodup {A} k (v : A) l : NoDup (map fst l) -> NoDup (map fst (assign k v l)).
Proof.
  intros Hd. rewrite assign_keys. case_bool_decide as Hin; [done|]. apply list.NoDup_app. split; [done|].
  split; [|by apply NoDup_singleton]. by intros x Hx ->%list_elem_of_singleton.
Qed.

(** * Maps *)

(** [Map]: entries in the order in which the keys were first set. *)
Section Maps.
Context {K V : Type} {Keq : EqDecision K}.

Fixpoint mget (m : list (K * V)) (k : K) : option V :=
  match m with
  | [] => None
  | (k', v) :: m' => if bool_decide (k = k') then Some v else mget m' k
  end.
Fixpoint mput (k : K) (v : V) (m : list (K * V)) : list (K * V) :=
  match m with
  | [] => [(k, v)]
  | (k', w) :: m' => if bool_decide (k = k') then (k', v) :: m' else (k', w) :: mput k v m'
  end.

(** [map.set(k, f(map.get(k) ?? default))]. *)
Definition upsert (k : K) (default : V) (f : V -> V) (m : list (K * V)) : list (K * V) :=
  mput k (f (match mget m k with Some v => v | None => default end)) m.

Lemma mget_mput k v m k' : mget (mput k v m) k' = if bool_decide (k' = k) then Some v else mget m k'.
Proof.
  induction m as [|[k0 w] m IH]; simpl; [done|]. destruct (decide (k = k0)) as [->|E].
  - rewrite (bool_decide_true (k0 = k0)) by done. simpl. by destruct (bool_decide (k' = k0)).
  - rewrite (bool_decide_false (k = k0)) by done. simpl. rewrite IH. repeat case_bool_decide; congruence.
Qed.

Lemma mput_keys k v m : map fst (mput k v m) = if bool_decide (k ∈ map fst m) then map fst m else map fst m ++ [k].
Proof.
  induction m as [|[k0 w] m IH]; simpl; [done|]. destruct (decide (k = k0)) as [->|E].
  - rewrite (bool_decide_true (k0 = k0)) by done. simpl. rewrite bool_decide_true; [done|by left].
  - rewrite (bool_decide_false (k = k0)) by done. simpl. rewrite IH. case_bool_decide as Hin.
    + rewrite bool_decide_true; [done|by right].
    + rewrite bool_decide_false; [done|]. intros H%elem_of_cons. tauto.
Qed.

Lemma mput_nodup k v m : NoDup (map fst m) -> NoDup (map fst (mput k v m)).
Proof.
  intros H. rewrite mput_keys. case_bool_decide as E; [done|]. apply list.NoDup_app. split_and!; [done| |].
  - intros x Hx Hin. apply list_elem_of_singleton in Hin. by subst.
  - apply NoDup_singleton.
Qed.

Lemma mget_In m k v : mget m k = Some v -> (k, v) ∈ m.
Proof.
  induction m as [|[k' w] m IH]; simpl; [done|]. case_bool_decide; [intros [= ->]; subst; by left|].
  intros H'. right. by apply IH.
Qed.

Lemma mget_unique m k v : NoDup (map fst m) -> (k, v) ∈ m -> mget m k = Some v.
Proof.
  induction m as [|[k' w] m IH]; intros Hn Hin; [by apply elem_of_nil in Hin|]. simpl.
  apply list.NoDup_cons in Hn as [Hk Hn]. apply elem_of_cons in Hin as [[= <- <-]|Hin].
  - by rewrite bool_decide_true.
  - case_bool_decide; [|by apply IH]. subst. destruct Hk. apply list_elem_of_fmap. by exists (k', v).
Qed.

Lemma mget_None m k : mget m k = None <-> k ∉ map fst m.
Proof.
  induction m as [|[k' w] m IH]; simpl; [split; [intros _ H%elem_of_nil; done|done]|].
  rewrite not_elem_of_cons, <- IH. case_bool_decide; [subst; split; [done|tauto]|tauto].
Qed.

(** ** A loop that accumulates by key *)

Context {X : Type} (key : X -> K) (init : X -> V) (add : X -> V -> V).

Definition accumulate (xs : list X) (m : list (K * V)) : list (K * V) :=
  fold_left (fun m x => upsert (key x) (init x) (add x) m) xs m.

(** What belongs to a key. *)
Definition with_key (k : K) (xs : list X) : list X := List.filter (fun x => bool_decide (key x = k)) xs.

(** The accumulated value of a key: the loop body over what belongs to the key. *)
Definition accumulated (xs : list X) (v : V) : V := fold_left (fun v x => add x v) xs v.

Lemma accumulate_get xs : forall m k,
  mget (accumulate xs m) k =
  match mget m k, with_key k xs with
  | Some v, l => Some (accumulated l v)
  | None, [] => None
  | None, x :: l => Some (accumulated (x :: l) (init x))
  end.
Proof.
  induction xs as [|x xs IH]; intros m k; simpl.
  - by destruct (mget m k).
  - unfold accumulate in *. rewrite IH. unfold upsert. rewrite mget_mput.
    case_bool_decide as E; [subst k|].
    + rewrite (bool_decide_true (key x = key x)) by done. by destruct (mget m (key x)).
    + rewrite bool_decide_false by congruence. done.
Qed.

Lemma accumulate_nodup xs : forall m, NoDup (map fst m) -> NoDup (map fst (accumulate xs m)).
Proof.
  induction xs as [|x xs IH]; intros m H; [done|]. apply IH. by apply mput_nodup.
Qed.

Lemma accumulate_keys xs m k : k ∈ map fst (accumulate xs m) <-> k ∈ map fst m \/ exists x, x ∈ xs /\ key x = k.
Proof.
  assert (Hd : forall l, k ∈ map fst l <-> mget l k <> None).
  { intros l. rewrite mget_None. destruct (decide (k ∈ map fst l)); tauto. }
  rewrite !Hd, accumulate_get. destruct (mget m k) as [v|]; [split; [by left|done]|].
  destruct (with_key k xs) as [|x l] eqn:E.
  - split; [done|]. intros [?|(x & Hx & Hk)]; [done|]. exfalso.
    assert (Hin : In x (with_key k xs)).
    { apply filter_In. split; [by apply list_elem_of_In|by rewrite bool_decide_true]. }
    by rewrite E in Hin.
  - split; [intros _; right|done]. exists x.
    assert (Hin : In x (with_key k xs)) by (rewrite E; by left).
    apply filter_In in Hin as [Hin Hk]. apply bool_decide_eq_true in Hk. split; [by apply list_elem_of_In|done].
Qed.

(** The entries of the result. *)
Lemma accumulate_In xs k v : (k, v) ∈ accumulate xs [] <->
  exists x l, with_key k xs = x :: l /\ v = accumulated (x :: l) (init x).
Proof.
  assert (Hn : NoDup (map fst (accumulate xs []))) by (apply accumulate_nodup; constructor).
  split.
  - intros Hin. apply mget_unique in Hin; [|done]. rewrite accumulate_get in Hin. simpl in Hin.
    destruct (with_key k xs) as [|x l]; [done|]. injection Hin as <-. eauto.
  - intros (x & l & E & ->). apply mget_In. rewrite accumulate_get. simpl. by rewrite E.
Qed.
End Maps.

(** [[...new Set(l)]]. *)
Definition distinct {K} `{EqDecision K} (l : list K) : list K :=
  map fst (fold_left (fun m k => mput k tt m) l []).

Lemma distinct_spec {K} `{EqDecision K} (l : list K) : NoDup (distinct l) /\ forall k, k ∈ distinct l <-> k ∈ l.
Proof.
  unfold distinct.
  assert (H : forall m, NoDup (map fst m) ->
    NoDup (map fst (fold_left (fun m k => mput k tt m) l m)) /\
    forall k, k ∈ map fst (fold_left (fun m k => mput k tt m) l m) <-> k ∈ map fst m \/ k ∈ l).
  { induction l as [|x l IH]; intros m Hm; cbn [fold_left].
    - split; [done|]. intros k. rewrite elem_of_nil. tauto.
    - destruct (IH (mput x tt m) (mput_nodup x tt m Hm)) as [H1 H2]. split; [done|]. intros k.
      rewrite H2, mput_keys, elem_of_cons. case_bool_decide as E.
      + split; [tauto|]. intros [?|[->|?]]; auto.
      + rewrite elem_of_app, list_elem_of_singleton. tauto. }
  destruct (H [] ltac:(constructor)) as [H1 H2]. split; [done|]. intros k. rewrite H2, elem_of_nil. tauto.
Qed.
