(* ===== verification/JsInteger.v ===== *)
(** Exactness of the arithmetic of JavaScript numbers on integers: sums of
    non-negative integers up to [2 ^ 53] are exact, and differences of integers below
    it have the sign of the exact difference.  The order of finite numbers: a finite number is
    an integer multiple of the least positive one, comparison is comparison of these integers, and
    a difference, although rounded, has the sign of the exact one. *)
From Stdlib Require Import ZArith Lia Bool String SpecFloat Permutation.
From stdpp Require Import base list option.
From S2P Require Import Prelude JsString JsNumber JsValue Collections.

#[local] Open Scope Z_scope.

(** ** Shifts *)

Lemma digits2_log2 p : Zpos (digits2_pos p) = Z.log2 (Zpos p) + 1.
Proof.
  induction p as [p IH|p IH|]; [| |done]; cbn [digits2_pos]; rewrite Pos2Z.inj_succ, IH.
  - rewrite (Pos2Z.inj_xI p), Z.log2_succ_double by lia. lia.
  - rewrite (Pos2Z.inj_xO p), Z.log2_double by lia. lia.
Qed.

Lemma iter_xO m d : Zpos (Pos.iter xO m d) = Zpos m * 2 ^ Zpos d.
Proof.
  induction d as [|d IH] using Pos.peano_ind; [simpl; lia|].
  rewrite Pos.iter_succ, Pos2Z.inj_xO, IH, Pos2Z.inj_succ, Z.pow_succ_r by lia. lia.
Qed.

Definition exact_record (m : Z) : shr_record := Build_shr_record m false false.

Lemma shr_1_exact m : 0 < m -> shr_1 (exact_record (2 * m)) = exact_record m.
Proof. by destruct m. Qed.

Lemma iter_shr_exact p : forall m, 0 < m -> SpecFloat.iter_pos shr_1 p (exact_record (m * 2 ^ Zpos p)) = exact_record m.
Proof.
  induction p as [p IH|p IH|]; intros m Hm; cbn [SpecFloat.iter_pos].
  - replace (m * 2 ^ Zpos p~1) with (2 * (m * 2 ^ Zpos p * 2 ^ Zpos p)).
    + rewrite shr_1_exact by lia. rewrite IH by lia. by apply IH.
    + rewrite (Pos2Z.inj_xI p), Z.pow_add_r, Z.pow_1_r by lia.
      replace (2 * Zpos p) with (Zpos p + Zpos p) by lia. rewrite Z.pow_add_r by lia. lia.
  - replace (m * 2 ^ Zpos p~0) with (m * 2 ^ Zpos p * 2 ^ Zpos p).
    + rewrite IH by lia. by apply IH.
    + rewrite (Pos2Z.inj_xO p). replace (2 * Zpos p) with (Zpos p + Zpos p) by lia.
      rewrite Z.pow_add_r by lia. lia.
  - replace (m * 2 ^ 1) with (2 * m) by lia. by apply shr_1_exact.
Qed.

(** ** Rounding of what is representable *)

(** A mantissa of 53 bits. *)
Definition full_mantissa (q : positive) : Prop := 2 ^ 52 <= Zpos q < 2 ^ 53.

Lemma full_digits q : full_mantissa q -> Zpos (digits2_pos q) = 53.
Proof. intros H. rewrite digits2_log2. rewrite (Z.log2_unique (Zpos q) 52); [done|lia|exact H]. Qed.

Lemma scaled_digits q n : full_mantissa q -> 0 <= n -> Zdigits2 (Zpos q * 2 ^ n) = 53 + n.
Proof.
  intros H Hn. destruct (Zpos q * 2 ^ n) as [|p|p] eqn:E; [lia| |lia].
  cbn [Zdigits2]. rewrite digits2_log2, <- E, Z.log2_mul_pow2 by lia.
  rewrite (Z.log2_unique (Zpos q) 52); [lia|lia|exact H].
Qed.

Lemma fexp_normal x : -1021 <= x -> fexp 53 1024 x = x - 53.
Proof. unfold fexp, emin. lia. Qed.

(** Rounding an exact multiple of the unit in the last place. *)
Lemma round_aux_exact q n e : full_mantissa q -> 0 <= n -> -1074 <= e + n <= 971 ->
  binary_round_aux 53 1024 false (Zpos q * 2 ^ n) e loc_Exact = S754_finite false q (e + n).
Proof.
  intros Hq Hn He. unfold binary_round_aux, shr_fexp. cbn [shr_record_of_loc].
  rewrite scaled_digits, fexp_normal by (done || lia). replace (53 + n + e - 53 - e) with n by lia.
  assert (Hs : shr (exact_record (Zpos q * 2 ^ n)) e n = (exact_record (Zpos q), e + n)).
  { destruct n as [|p|p]; cbn [shr].
    - rewrite Z.mul_1_r, Z.add_0_r. done.
    - by rewrite iter_shr_exact by lia.
    - lia. }
  change (Build_shr_record (Zpos q * 2 ^ n) false false) with (exact_record (Zpos q * 2 ^ n)). rewrite Hs.
  cbn [shr_m exact_record loc_of_shr_record round_nearest_even].
  assert (Hd : Zdigits2 (Zpos q) = 53) by (by apply full_digits).
  rewrite Hd, fexp_normal by lia. replace (53 + (e + n) - 53 - (e + n)) with 0 by lia. cbn [shr shr_m].
  by rewrite (proj2 (Z.leb_le (e + n) (1024 - 53))) by lia.
Qed.

Lemma round_exact m q e j : full_mantissa q -> Zpos q * 2 ^ Z.max 0 j = Zpos m * 2 ^ Z.max 0 (- j) ->
  -1074 <= e + j <= 971 -> binary_round 53 1024 false m e = S754_finite false q (e + j).
Proof.
  intros Hq Hm He. unfold binary_round.
  assert (Hd : Zpos (digits2_pos m) = 53 + j).
  { rewrite digits2_log2. assert (Hl : Z.log2 (Zpos q) = 52) by (by apply Z.log2_unique).
    apply (f_equal Z.log2) in Hm. rewrite !Z.log2_mul_pow2 in Hm by lia. lia. }
  rewrite Hd, fexp_normal by lia. replace (53 + j + e - 53) with (e + j) by lia.
  unfold shl_align. replace (e + j - e) with j by lia. destruct j as [|p|p].
  - change (Z.max 0 0) with 0 in Hm. change (Z.max 0 (- 0)) with 0 in Hm. rewrite Z.pow_0_r in Hm.
    replace (Zpos m) with (Zpos q * 2 ^ 0) by (rewrite Z.pow_0_r; lia).
    by apply round_aux_exact.
  - replace (Zpos m) with (Zpos q * 2 ^ Zpos p).
    + by apply round_aux_exact.
    + rewrite Z.max_r in Hm by lia. rewrite (Z.max_l 0) in Hm by lia. lia.
  - change (Zpos q * 2 ^ 0 = Zpos m * 2 ^ Zpos p) in Hm. rewrite iter_xO, <- Hm.
    rewrite round_aux_exact by (done || lia). by rewrite Z.add_0_r.
Qed.

(** ** Integers *)

(** The canonical mantissa of an integer, and its exponent, at most 1. *)
Lemma canonical_integer z : 0 < z <= 2 ^ 53 -> exists q e, full_mantissa q /\ -52 <= e <= 1 /\
  (z < 2 ^ 53 -> e <= 0) /\ Zpos q * 2 ^ Z.max 0 e = z * 2 ^ Z.max 0 (- e).
Proof.
  intros Hz. destruct (decide (z = 2 ^ 53)) as [->|Hne].
  { exists (Z.to_pos (2 ^ 52)), 1. unfold full_mantissa. split; [lia|]. split; [lia|]. split; [lia|]. reflexivity. }
  pose proof (Z.log2_spec z ltac:(lia)) as Hl. pose proof (Z.log2_nonneg z) as H0.
  assert (Hlt : Z.log2 z < 53) by (apply Z.log2_lt_pow2; lia).
  exists (Z.to_pos (z * 2 ^ (52 - Z.log2 z))), (Z.log2 z - 52).
  assert (Hpow : 2 ^ 52 = 2 ^ Z.log2 z * 2 ^ (52 - Z.log2 z))
    by (rewrite <- Z.pow_add_r by lia; f_equal; lia).
  assert (Hpow2 : 2 ^ 53 = 2 ^ Z.succ (Z.log2 z) * 2 ^ (52 - Z.log2 z))
    by (rewrite <- Z.pow_add_r by lia; f_equal; lia).
  assert (Hp : 0 < 2 ^ (52 - Z.log2 z)) by lia.
  unfold full_mantissa. rewrite !Z2Pos.id by nia. split; [nia|]. split; [lia|]. split; [lia|].
  rewrite Z.max_l by lia. rewrite Z.max_r by lia. rewrite Z.pow_0_r.
  replace (- (Z.log2 z - 52)) with (52 - Z.log2 z) by lia. lia.
Qed.

(** An integer scaled by a power of two is the same number. *)
Lemma normalize_scaled z k : 0 < z <= 2 ^ 53 -> 0 <= k ->
  exists q e, full_mantissa q /\ (z < 2 ^ 53 -> e <= 0) /\ -52 <= e <= 1 /\
    Zpos q * 2 ^ Z.max 0 e = z * 2 ^ Z.max 0 (- e) /\
    binary_normalize 53 1024 (z * 2 ^ k) (- k) false = S754_finite false q e.
Proof.
  intros Hz Hk. destruct (canonical_integer z Hz) as (q & e & Hq & He & Hle & Heq). exists q, e.
  split_and!; [done|done|lia|lia|done|].
  destruct (z * 2 ^ k) as [|m|m] eqn:Em; [lia| |lia]. cbn [binary_normalize].
  replace e with (- k + (e + k)) by lia. apply round_exact; [done| |lia].
  rewrite <- Em. destruct (Z.le_gt_cases 0 e) as [H|H].
  - rewrite Z.max_r in Heq by lia. rewrite (Z.max_l 0 (- e)) in Heq by lia.
    rewrite Z.max_r by lia. rewrite (Z.max_l 0 (- (e + k))) by lia.
    rewrite Z.pow_add_r by lia. rewrite Z.pow_0_r in *. nia.
  - rewrite Z.max_l in Heq by lia. rewrite (Z.max_r 0 (- e)) in Heq by lia. rewrite Z.pow_0_r, Z.mul_1_r in Heq.
    rewrite Heq. destruct (Z.le_gt_cases 0 (e + k)) as [H2|H2].
    + rewrite Z.max_r by lia. rewrite (Z.max_l 0 (- (e + k))) by lia. rewrite Z.pow_0_r, Z.mul_1_r.
      rewrite <- Z.mul_assoc, <- Z.pow_add_r by lia. do 2 f_equal. lia.
    + rewrite Z.max_l by lia. rewrite (Z.max_r 0 (- (e + k))) by lia. rewrite Z.pow_0_r, Z.mul_1_r.
      rewrite <- Z.mul_assoc, <- Z.pow_add_r by lia. do 2 f_equal. lia.
Qed.

Lemma num_of_Z_form z : 0 < z <= 2 ^ 53 -> exists q e, full_mantissa q /\ (z < 2 ^ 53 -> e <= 0) /\
  -52 <= e <= 1 /\ Zpos q * 2 ^ Z.max 0 e = z * 2 ^ Z.max 0 (- e) /\ num_of_Z z = S754_finite false q e.
Proof.
  intros Hz. destruct (normalize_scaled z 0 Hz ltac:(lia)) as (q & e & H). exists q, e.
  unfold num_of_Z. by rewrite Z.pow_0_r, Z.mul_1_r in H.
Qed.

Lemma normalize_same z k : 0 < z <= 2 ^ 53 -> 0 <= k ->
  binary_normalize 53 1024 (z * 2 ^ k) (- k) false = num_of_Z z.
Proof.
  intros Hz Hk. destruct (normalize_scaled z k Hz Hk) as (q & e & Hq & _ & He & Heq & ->).
  destruct (num_of_Z_form z Hz) as (q' & e' & Hq' & _ & He' & Heq' & ->).
  assert (Hl : forall q e, full_mantissa q -> Zpos q * 2 ^ Z.max 0 e = z * 2 ^ Z.max 0 (- e) -> e = Z.log2 z - 52).
  { intros p x Hp Hx. apply (f_equal Z.log2) in Hx. rewrite !Z.log2_mul_pow2 in Hx by lia.
    rewrite (Z.log2_unique (Zpos p) 52) in Hx; [lia|lia|exact Hp]. }
  pose proof (Hl q e Hq Heq). pose proof (Hl q' e' Hq' Heq'). assert (e' = e) as -> by lia. f_equal.
  rewrite <- Heq' in Heq. apply Z.mul_cancel_r in Heq; [lia|]. lia.
Qed.

(** The mantissa of an integer, aligned to an exponent. *)
Lemma aligned_integer q e ez x : e <= 0 -> ez <= e -> Zpos q * 2 ^ Z.max 0 e = x * 2 ^ Z.max 0 (- e) ->
  Zpos (fst (shl_align q e ez)) = x * 2 ^ (- ez).
Proof.
  intros He Hez Hq. rewrite Z.max_l in Hq by lia. rewrite Z.max_r in Hq by lia.
  rewrite Z.pow_0_r, Z.mul_1_r in Hq. unfold shl_align.
  destruct (ez - e) as [|p|p] eqn:E; [|lia|]; cbn [fst].
  - rewrite Hq. do 2 f_equal. lia.
  - rewrite iter_xO, Hq, <- Z.mul_assoc, <- Z.pow_add_r by lia. do 2 f_equal. lia.
Qed.

(** Sums of integers are exact. *)
Lemma num_add_exact a b : 0 <= a -> 0 <= b -> a + b <= 2 ^ 53 ->
  num_add (num_of_Z a) (num_of_Z b) = num_of_Z (a + b).
Proof.
  intros Ha Hb Hab. unfold num_add.
  destruct (Z.eq_dec a 0) as [->|Hna].
  { change (num_of_Z 0) with (S754_zero false). rewrite Z.add_0_l. cbn [SFadd].
    destruct (Z.eq_dec b 0) as [->|Hnb]; [done|]. by destruct (num_of_Z_form b ltac:(lia)) as (q & e & _ & _ & _ & _ & ->). }
  destruct (Z.eq_dec b 0) as [->|Hnb].
  { change (num_of_Z 0) with (S754_zero false). rewrite Z.add_0_r.
    by destruct (num_of_Z_form a ltac:(lia)) as (q & e & _ & _ & _ & _ & ->). }
  destruct (num_of_Z_form a ltac:(lia)) as (qa & ea & _ & Hea & Ha2 & Haq & ->).
  destruct (num_of_Z_form b ltac:(lia)) as (qb & eb & _ & Heb & Hb2 & Hbq & ->).
  cbn [SFadd cond_Zopp]. set (ez := Z.min ea eb).
  assert (Hz : ea <= 0 /\ eb <= 0) by lia.
  rewrite (aligned_integer qa ea ez a), (aligned_integer qb eb ez b) by (done || lia). rewrite <- Z.mul_add_distr_r.
  replace ez with (- - ez) at 2 by lia. apply normalize_same; lia.
Qed.

(** Rounding only copies the sign. *)
Lemma round_negative m e : binary_round 53 1024 true m e = SFopp (binary_round 53 1024 false m e).
Proof.
  unfold binary_round. destruct (shl_align _ _ _) as [mz ez]. unfold binary_round_aux.
  destruct (shr_fexp _ _ _ _ _) as [r1 e1]. destruct (shr_fexp _ _ _ _ _) as [r2 e2].
  destruct (shr_m r2); [done| |done]. by destruct (e2 <=? 1024 - 53).
Qed.

Lemma positive_sign q e : num_sign (S754_finite false q e) = 1.
Proof. done. Qed.

(** The comparison of integers by their difference. *)
Lemma by_number_exact a b : 0 <= a < 2 ^ 53 -> 0 <= b < 2 ^ 53 ->
  by_number (num_of_Z a) (num_of_Z b) = Z.sgn (a - b).
Proof.
  intros Ha Hb. unfold by_number, num_sub.
  destruct (Z.eq_dec a 0) as [->|Hna].
  { change (num_of_Z 0) with (S754_zero false). destruct (Z.eq_dec b 0) as [->|Hnb]; [done|].
    destruct (num_of_Z_form b ltac:(lia)) as (q & e & _ & _ & _ & _ & ->). rewrite Z.sgn_neg by lia. done. }
  destruct (Z.eq_dec b 0) as [->|Hnb].
  { change (num_of_Z 0) with (S754_zero false).
    destruct (num_of_Z_form a ltac:(lia)) as (q & e & _ & _ & _ & _ & ->). rewrite Z.sgn_pos by lia. done. }
  destruct (num_of_Z_form a ltac:(lia)) as (qa & ea & _ & Hea & _ & Haq & ->).
  destruct (num_of_Z_form b ltac:(lia)) as (qb & eb & _ & Heb & _ & Hbq & ->).
  specialize (Hea ltac:(lia)). specialize (Heb ltac:(lia)).
  cbn [SFsub cond_Zopp]. set (ez := Z.min ea eb).
  rewrite (aligned_integer qa ea ez a), (aligned_integer qb eb ez b) by (done || lia).
  rewrite <- Z.mul_sub_distr_r. assert (Hez : ez <= 0) by lia.
  destruct (Z.lt_trichotomy a b) as [H|[->|H]].
  - replace ((a - b) * 2 ^ (- ez)) with (- ((b - a) * 2 ^ (- ez))) by lia.
    destruct (normalize_scaled (b - a) (- ez) ltac:(lia) ltac:(lia)) as (q & e & _ & _ & _ & _ & Hn).
    rewrite Z.opp_involutive in Hn.
    assert (Hp : 0 < 2 ^ (- ez)) by (apply Z.pow_pos_nonneg; lia).
    destruct ((b - a) * 2 ^ (- ez)) as [|m|m] eqn:E; [nia| |nia]. cbn [binary_normalize Z.opp] in *.
    change (- Zpos m) with (Zneg m). cbn [binary_normalize]. rewrite round_negative, Hn, Z.sgn_neg by lia. done.
  - by rewrite Z.sub_diag.
  - destruct (normalize_scaled (a - b) (- ez) ltac:(lia) ltac:(lia)) as (q & e & _ & _ & _ & _ & Hn).
    rewrite Z.opp_involutive in Hn. rewrite Hn, Z.sgn_pos by lia. apply positive_sign.
Qed.

Lemma num_to_Z_of_Z z : 0 <= z <= 2 ^ 53 -> num_to_Z (num_of_Z z) = Some z.
Proof.
  intros Hz. destruct (Z.eq_dec z 0) as [->|Hn]; [done|].
  destruct (num_of_Z_form z ltac:(lia)) as (q & e & Hq & _ & He & Heq & ->). cbn [num_to_Z].
  destruct (0 <=? e) eqn:El; cbn [orb].
  - apply Z.leb_le in El. rewrite Z.max_r, (Z.max_l 0 (- e)), Z.pow_0_r in Heq by lia. f_equal. lia.
  - apply Z.leb_gt in El. rewrite Z.max_l, (Z.max_r 0 (- e)), Z.pow_0_r, Z.mul_1_r in Heq by lia.
    rewrite Heq, Z.mod_mul, Z.div_mul by lia. done.
Qed.

(** ** Sums of lists *)

Definition total {A} (f : A -> Z) (l : list A) : Z := fold_right Z.add 0 (map f l).

Lemma total_cons {A} (f : A -> Z) x l : total f (x :: l) = f x + total f l.
Proof. done. Qed.
Lemma total_nonneg {A} (f : A -> Z) l : (forall x, x ∈ l -> 0 <= f x) -> 0 <= total f l.
Proof.
  induction l as [|x l IH]; intros H; [done|]. rewrite total_cons. pose proof (H x ltac:(by left)).
  assert (0 <= total f l) by (apply IH; intros y Hy; apply H; by right). lia.
Qed.
Lemma total_filter {A} (f : A -> Z) (P : A -> bool) l : (forall x, x ∈ l -> 0 <= f x) -> total f (List.filter P l) <= total f l.
Proof.
  induction l as [|x l IH]; intros H; [done|]. cbn [List.filter]. pose proof (H x ltac:(by left)).
  assert (total f (List.filter P l) <= total f l) by (apply IH; intros y Hy; apply H; by right).
  destruct (P x); rewrite ?total_cons; lia.
Qed.
Lemma total_ext {A} (f g : A -> Z) l : (forall x, x ∈ l -> f x = g x) -> total f l = total g l.
Proof.
  induction l as [|x l IH]; intros H; [done|]. rewrite !total_cons, H by (by left). f_equal.
  apply IH. intros y Hy. apply H. by right.
Qed.

Lemma total_zero {A} (l : list A) : total (fun _ => 0) l = 0.
Proof. induction l; [done|by rewrite total_cons]. Qed.
Lemma total_add {A} (f g : A -> Z) l : total (fun x => f x + g x) l = total f l + total g l.
Proof. induction l as [|x l IH]; [done|]. rewrite !total_cons, IH. lia. Qed.
Lemma total_perm {A} (f : A -> Z) l l' : Permutation l l' -> total f l = total f l'.
Proof. induction 1; rewrite ?total_cons; lia. Qed.
Lemma total_map {A B} (f : B -> Z) (g : A -> B) l : total f (map g l) = total (fun x => f (g x)) l.
Proof. unfold total. by rewrite map_map. Qed.

(** A left-to-right sum of integers is exact. *)
Lemma fold_exact {A} (g : A -> number) (f : A -> Z) l : forall a, 0 <= a ->
  (forall x, x ∈ l -> 0 <= f x /\ g x = num_of_Z (f x)) -> a + total f l <= 2 ^ 53 ->
  fold_left (fun s x => num_add s (g x)) l (num_of_Z a) = num_of_Z (a + total f l).
Proof.
  induction l as [|x l IH]; intros a Ha Hl Hle; [by rewrite Z.add_0_r|]. rewrite total_cons in *. cbn [fold_left].
  destruct (Hl x ltac:(by left)) as [Hx ->].
  assert (Hrest : forall y, y ∈ l -> 0 <= f y /\ g y = num_of_Z (f y)) by (intros y Hy; apply Hl; by right).
  assert (0 <= total f l) by (apply total_nonneg; intros y Hy; by apply Hrest).
  rewrite num_add_exact by lia. rewrite IH by (done || lia). f_equal. lia.
Qed.

(** ** Sums by classes *)

Section Classes.
Context {P K : Type} {Keq : EqDecision K} (cls : P -> option K) (w : P -> Z).

Definition of_class (k : K) (p : P) : bool := bool_decide (cls p = Some k).
Definition classified (p : P) : bool := match cls p with Some _ => true | None => false end.

Lemma total_single (ks : list K) k x : NoDup ks -> k ∈ ks ->
  total (fun k' => if bool_decide (k = k') then x else 0) ks = x.
Proof.
  induction ks as [|k' ks IH]; intros Hn Hin; [by apply elem_of_nil in Hin|]. rewrite total_cons.
  apply list.NoDup_cons in Hn as [Hk Hn]. apply elem_of_cons in Hin as [->|Hin].
  - rewrite bool_decide_true by done.
    assert (Hz : total (fun k => if bool_decide (k' = k) then x else 0) ks = total (fun _ => 0) ks).
    { apply total_ext. intros k Hin. rewrite bool_decide_false by congruence. done. }
    rewrite Hz, total_zero. lia.
  - rewrite bool_decide_false by congruence. rewrite IH by done. lia.
Qed.

(** The classes partition the elements that have one. *)
Lemma partition_total ks ps : NoDup ks -> (forall p k, p ∈ ps -> cls p = Some k -> k ∈ ks) ->
  total (fun k => total w (List.filter (of_class k) ps)) ks = total w (List.filter classified ps).
Proof.
  intros Hn. induction ps as [|p ps IH]; intros H; [apply total_zero|].
  rewrite (total_ext _ (fun k => (if of_class k p then w p else 0) + total w (List.filter (of_class k) ps))).
  2: { intros k _. cbn [List.filter]. by destruct (of_class k p). }
  rewrite total_add, IH by (intros q k Hq; apply H; by right). cbn [List.filter].
  assert (Hp : total (fun k => if of_class k p then w p else 0) ks = if classified p then w p else 0).
  { unfold of_class, classified. destruct (cls p) as [k|] eqn:Ec.
    - rewrite (total_ext _ (fun k' => if bool_decide (k = k') then w p else 0)).
      + apply total_single; [done|]. apply (H p k); [by left|done].
      + intros k' _. by rewrite (bool_decide_ext (Some k = Some k') (k = k')) by naive_solver.
    - apply total_zero. }
  rewrite Hp. by destruct (classified p).
Qed.
End Classes.

(** * The order of finite numbers *)


(** The value in units of [2 ^ -1074]. *)
Definition num_scaled (x : number) : Z :=
  match x with
  | S754_finite s m e => (if s then Zneg m else Zpos m) * 2 ^ (e + 1074)
  | _ => 0
  end.

(** A finite number as the language has it. *)
Definition proper (x : number) : Prop := is_finite x = true /\ num_valid x = true.

Lemma pow_positive n : 0 <= n -> 0 < 2 ^ n.
Proof. intros. by apply Z.pow_pos_nonneg. Qed.

(** ** Comparison *)

Lemma magnitude_compare mx ex my ey : num_valid (S754_finite false mx ex) = true ->
  num_valid (S754_finite false my ey) = true ->
  (Zpos mx * 2 ^ (ex + 1074) ?= Zpos my * 2 ^ (ey + 1074)) =
  match ex ?= ey with Lt => Lt | Gt => Gt | Eq => Pos.compare_cont Eq mx my end.
Proof.
  intros Vx Vy. apply valid_finite in Vx as (Ex & Mx & Nx), Vy as (Ey & My & Ny).
  destruct (Z.compare_spec ex ey) as [E|E|E].
  - subst ey. change (Pos.compare_cont Eq mx my) with (mx ?= my)%positive.
    pose proof (pow_positive (ex + 1074) ltac:(lia)) as Hp. rewrite Pos2Z.inj_compare.
    rewrite !(Z.mul_comm _ (2 ^ _)). symmetry. by apply Zmult_compare_compat_l, Z.lt_gt.
  - apply Z.compare_lt_iff. destruct Ny as [->|Ny]; [lia|]. by apply scaled_lt.
  - apply Z.compare_gt_iff. destruct Nx as [->|Nx]; [lia|]. by apply scaled_lt.
Qed.

Lemma valid_sign s m e : num_valid (S754_finite s m e) = num_valid (S754_finite false m e).
Proof. done. Qed.

Lemma num_compare_scaled x y : proper x -> proper y ->
  SFcompare x y = Some (num_scaled x ?= num_scaled y).
Proof.
  intros [Fx Vx] [Fy Vy].
  destruct x as [sx|sx| |sx mx ex]; try done; destruct y as [sy|sy| |sy my ey]; try done; cbn [num_scaled].
  - pose proof (valid_finite _ _ _ Vy) as (Ey & _). pose proof (pow_positive (ey + 1074) ltac:(lia)).
    destruct sy; cbn [SFcompare]; f_equal; symmetry; [apply Z.compare_gt_iff|apply Z.compare_lt_iff]; nia.
  - pose proof (valid_finite _ _ _ Vx) as (Ex & _). pose proof (pow_positive (ex + 1074) ltac:(lia)).
    destruct sx; cbn [SFcompare]; f_equal; symmetry; [apply Z.compare_lt_iff|apply Z.compare_gt_iff]; nia.
  - pose proof (valid_finite _ _ _ Vx) as (Ex & _). pose proof (valid_finite _ _ _ Vy) as (Ey & _).
    pose proof (pow_positive (ex + 1074) ltac:(lia)). pose proof (pow_positive (ey + 1074) ltac:(lia)).
    rewrite valid_sign in Vx, Vy. pose proof (magnitude_compare _ _ _ _ Vx Vy) as M.
    destruct sx, sy; cbn [SFcompare]; f_equal.
    + change (Zneg mx) with (- Zpos mx). change (Zneg my) with (- Zpos my).
      rewrite !Z.mul_opp_l, Z.compare_opp, (Z.compare_antisym (Zpos mx * _)), M. by destruct (ex ?= ey).
    + symmetry. apply Z.compare_lt_iff. nia.
    + symmetry. apply Z.compare_gt_iff. nia.
    + by rewrite M.
Qed.

Lemma num_ltb_scaled x y : proper x -> proper y -> num_ltb x y = (num_scaled x <? num_scaled y).
Proof. intros Hx Hy. unfold num_ltb, SFltb. rewrite num_compare_scaled by done. unfold Z.ltb. by destruct (_ ?= _). Qed.

Lemma num_leb_scaled x y : proper x -> proper y -> num_leb x y = (num_scaled x <=? num_scaled y).
Proof. intros Hx Hy. unfold num_leb, SFleb. rewrite num_compare_scaled by done. unfold Z.leb. by destruct (_ ?= _). Qed.

(** ** Differences *)

Lemma shr_1_half r : 0 <= shr_m r -> shr_m (shr_1 r) = shr_m r / 2.
Proof.
  destruct r as [m b1 b2]. cbn [shr_m]. intros Hm. destruct m as [|p|p]; [done| |lia].
  destruct p as [p|p|]; cbn [shr_1 shr_m]; [|..].
  - rewrite Pos2Z.inj_xI. apply (Z.div_unique _ 2 _ 1); lia.
  - rewrite Pos2Z.inj_xO. apply (Z.div_unique _ 2 _ 0); lia.
  - done.
Qed.

Lemma iter_shr_div p : forall r, 0 <= shr_m r ->
  shr_m (SpecFloat.iter_pos shr_1 p r) = shr_m r / 2 ^ Zpos p.
Proof.
  induction p as [p IH|p IH|]; intros r Hr; cbn [SpecFloat.iter_pos].
  - assert (H1 : 0 <= shr_m (shr_1 r)) by (rewrite shr_1_half by done; by apply Z.div_pos).
    assert (H2 : 0 <= shr_m (SpecFloat.iter_pos shr_1 p (shr_1 r))).
    { rewrite IH by done. apply Z.div_pos; [done|]. by apply pow_positive. }
    rewrite !IH, shr_1_half by done. rewrite !Z.div_div by (try apply Z.pow_pos_nonneg; try apply Z.pow_nonzero; lia).
    f_equal. rewrite (Pos2Z.inj_xI p), Z.pow_add_r, Z.pow_twice_r by lia. lia.
  - assert (H2 : 0 <= shr_m (SpecFloat.iter_pos shr_1 p r)).
    { rewrite IH by done. apply Z.div_pos; [done|]. by apply pow_positive. }
    rewrite !IH by done. rewrite Z.div_div by (try apply Z.pow_pos_nonneg; try apply Z.pow_nonzero; lia).
    f_equal. rewrite (Pos2Z.inj_xO p), Z.pow_twice_r. lia.
  - by apply shr_1_half.
Qed.

Lemma shr_record_of_loc_m m l : shr_m (shr_record_of_loc m l) = m.
Proof. by destruct l as [|[]]. Qed.

(** A mantissa at or above the least exponent does not vanish. *)
Lemma shr_fexp_positive m e l : 0 < m -> -1074 <= e ->
  let '(r, e') := shr_fexp 53 1024 m e l in 0 < shr_m r /\ -1074 <= e'.
Proof.
  intros Hm He. unfold shr_fexp, shr, fexp, emin. destruct m as [|p|p]; try lia.
  change (Zdigits2 (Zpos p)) with (Zpos (digits2_pos p)). pose proof (digits2_bound p) as Hd.
  set (d := Zpos (digits2_pos p)) in *.
  destruct (Z.max (d + e - 53) (3 - 1024 - 53) - e) as [|k|k] eqn:E.
  - by rewrite shr_record_of_loc_m.
  - assert (Hk : Zpos k = d - 53) by lia. rewrite iter_shr_div; rewrite shr_record_of_loc_m; [|lia].
    split; [|lia]. apply Z.div_str_pos. split; [by apply pow_positive|].
    rewrite Hk. etransitivity; [|apply Hd]. apply Z.pow_le_mono_r; lia.
  - by rewrite shr_record_of_loc_m.
Qed.

Lemma round_nearest_even_le m l : m <= round_nearest_even m l.
Proof. destruct l as [|[]]; cbn [round_nearest_even]; [lia| |lia|lia]. destruct (Z.even m); lia. Qed.

(** What a positive magnitude rounds to keeps its sign. *)
Definition nonzero_of (s : bool) (x : number) : Prop :=
  match x with S754_finite s' _ _ | S754_infinity s' => s' = s | _ => False end.

Lemma binary_round_nonzero s m e : -1074 <= e -> nonzero_of s (binary_round 53 1024 s m e).
Proof.
  intros He. unfold binary_round. destruct (shl_align m e _) as [mz ez] eqn:E.
  assert (Hez : -1074 <= ez).
  { revert E. unfold shl_align, fexp, emin.
    destruct (Z.max (Zpos (digits2_pos m) + e - 53) (3 - 1024 - 53) - e) eqn:Ed; intros [= <- <-]; lia. }
  unfold binary_round_aux. pose proof (shr_fexp_positive (Zpos mz) ez loc_Exact ltac:(lia) Hez) as H1.
  destruct (shr_fexp 53 1024 (Zpos mz) ez loc_Exact) as [r1 e1]. destruct H1 as [H1 He1].
  pose proof (round_nearest_even_le (shr_m r1) (loc_of_shr_record r1)) as H2.
  pose proof (shr_fexp_positive (round_nearest_even (shr_m r1) (loc_of_shr_record r1)) e1 loc_Exact ltac:(lia) He1) as H3.
  destruct (shr_fexp 53 1024 (round_nearest_even (shr_m r1) (loc_of_shr_record r1)) e1 loc_Exact) as [r2 e2].
  destruct H3 as [H3 _]. destruct (shr_m r2); try lia. by destruct (e2 <=? 1024 - 53).
Qed.

Lemma nonzero_sign s x : nonzero_of s x -> num_sign x = if s then -1 else 1.
Proof. destruct x as [| | |]; cbn; try done; intros ->; by destruct s. Qed.

Lemma normalize_sign z e : -1074 <= e -> num_sign (binary_normalize 53 1024 z e false) = Z.sgn z.
Proof.
  intros He. destruct z as [|p|p]; cbn [binary_normalize]; [done|..];
    by rewrite (nonzero_sign _ _ (binary_round_nonzero _ _ _ He)).
Qed.

Lemma aligned_scaled s m e ez : -1074 <= ez <= e ->
  cond_Zopp s (Zpos (fst (shl_align m e ez))) * 2 ^ (ez + 1074) = (if s then Zneg m else Zpos m) * 2 ^ (e + 1074).
Proof.
  intros He. unfold shl_align. destruct (ez - e) as [|d|d] eqn:E; cbn [fst]; [|lia|].
  - assert (ez = e) as -> by lia. by destruct s.
  - pose proof (iter_xO m d) as Hi.
    replace (e + 1074) with (Zpos d + (ez + 1074)) by lia. rewrite (Z.pow_add_r 2 (Zpos d)), Z.mul_assoc by lia. f_equal.
    destruct s; cbn [cond_Zopp]; [|done]. lia.
Qed.

Lemma sgn_mul_positive a b : 0 < b -> Z.sgn (a * b) = Z.sgn a.
Proof. intros. rewrite Z.sgn_mul, (Z.sgn_pos b) by done. lia. Qed.

(** The comparison by a difference is the comparison. *)
Lemma by_number_scaled x y : proper x -> proper y -> by_number x y = Z.sgn (num_scaled x - num_scaled y).
Proof.
  intros [Fx Vx] [Fy Vy]. unfold by_number, num_sub.
  destruct x as [sx|sx| |sx mx ex]; try done; destruct y as [sy|sy| |sy my ey]; try done; cbn [num_scaled SFsub].
  - by destruct sx, sy.
  - pose proof (valid_finite _ _ _ Vy) as (Ey & _). pose proof (pow_positive (ey + 1074) ltac:(lia)).
    rewrite Z.sub_0_l, Z.sgn_opp, sgn_mul_positive by done. by destruct sy.
  - pose proof (valid_finite _ _ _ Vx) as (Ex & _). pose proof (pow_positive (ex + 1074) ltac:(lia)).
    rewrite Z.sub_0_r, sgn_mul_positive by done. by destruct sx.
  - pose proof (valid_finite _ _ _ Vx) as (Ex & _). pose proof (valid_finite _ _ _ Vy) as (Ey & _).
    set (ez := Z.min ex ey). rewrite normalize_sign by lia.
    rewrite <- (sgn_mul_positive _ (2 ^ (ez + 1074))) by (apply pow_positive; lia).
    rewrite Z.mul_sub_distr_r, !aligned_scaled by lia. done.
Qed.

Lemma by_number_lt x y : proper x -> proper y -> (by_number x y <? 0) = (num_scaled x <? num_scaled y).
Proof.
  intros Hx Hy. rewrite by_number_scaled by done.
  destruct (Z.ltb_spec (num_scaled x) (num_scaled y)); apply Z.ltb_lt || apply Z.ltb_ge;
    destruct (Z.sgn_spec (num_scaled x - num_scaled y)) as [[? ->]|[[? ->]|[? ->]]]; lia.
Qed.
