(* ===== verification/Lexer.v ===== *)
(** The token scanner of [BillingParser.next] in
    [pricing/lib/billing-expression/parser.ts]. *)
From Stdlib Require Import ZArith Lia Bool String.
From stdpp Require Import base list option.
From S2P Require Import Prelude JsString JsNumber Types.

#[local] Open Scope Z_scope.

(** * Lexemes *)

Inductive lexeme_kind := KNumber | KString | KSymbol | KName | KEnd.

Record lexeme := Lexeme {
  kind : lexeme_kind;
  text : jsstr;
  l_start : nat;
  l_end : nat;
  value : option literal_value;
  integer : bool;
}.

#[export] Instance lexeme_kind_eq_dec : EqDecision lexeme_kind.
Proof. solve_decision. Defined.

(** * Strings *)

(** The table [escapes] of one-letter escapes. *)
Definition escape_value (c : Z) : option Z :=
  if c =? 110 then Some 10            (* n *)
  else if c =? 114 then Some 13       (* r *)
  else if c =? 116 then Some 9        (* t *)
  else if c =? 98 then Some 8         (* b *)
  else if c =? 102 then Some 12       (* f *)
  else if c =? 118 then Some 11       (* v *)
  else if (c =? BACKSLASH) || (c =? QUOTE) || (c =? APOS) || (c =? 47) then Some c
  else None.

Definition unterminated {A} (start : nat) : result exn A :=
  throw syntax (js "unterminated string") (Some start).

(** The loop over the body of a string literal: [rest] is the source from
    position [cursor] on.  Returns the value and the position after the closing
    quote. *)
Fixpoint lex_string (start : nat) (quote : Z) (rest : jsstr) (cursor : nat)
    (val : jsstr) : result exn (jsstr * nat) :=
  match rest with
  | [] => unterminated start
  | char :: rest1 =>
      if char =? quote then Ok (val, S cursor)
      else if (char =? LF) || (char =? CR) then unterminated start
      else if negb (char =? BACKSLASH) then
        lex_string start quote rest1 (S cursor) (val ++ [char])
      else
        match rest1 with
        | [] => throw unsupported (js "string escape") (Some (S cursor))
        | escaped :: rest2 =>
            match escape_value escaped with
            | Some v => lex_string start quote rest2 (S (S cursor)) (val ++ [v])
            | None =>
                if escaped =? 117 then
                  match rest2 with
                  | h1 :: h2 :: h3 :: h4 :: rest6 =>
                      if forallb is_hex [h1; h2; h3; h4] then
                        lex_string start quote rest6 (6 + cursor)
                          (val ++ [parse_hex [h1; h2; h3; h4]])
                      else unterminated start
                  | _ => unterminated start
                  end
                else if escaped =? 120 then
                  match rest2 with
                  | h1 :: h2 :: rest4 =>
                      if forallb is_hex [h1; h2] then
                        lex_string start quote rest4 (4 + cursor)
                          (val ++ [parse_hex [h1; h2]])
                      else unterminated start
                  | _ => unterminated start
                  end
                else throw unsupported (js "string escape") (Some (S cursor))
            end
        end
  end.

(** * Operators *)

Definition TWO_CHAR_OPERATORS : list string :=
  ["&&"; "||"; "=="; "!="; "<="; ">="]%string.
Definition ONE_CHAR_OPERATORS : list string :=
  ["+"; "-"; "*"; "/"; "%"; "<"; ">"; "("; ")"; "!"; "?"; ":"; ","]%string.

(** The first operator of the alternation that starts [rest]. *)
Definition scan_operator (rest : jsstr) : option jsstr :=
  js <$> find (fun op => starts_with (js op) rest)
             (TWO_CHAR_OPERATORS ++ ONE_CHAR_OPERATORS).

(** * One token *)

(** A number token: the checks on its value. *)
Definition lex_number (rest : jsstr) (start n : nat) (v : number)
  : result exn (lexeme * nat) :=
  let txt := take n rest in
  let int := negb (existsb (fun c => (c =? 46) || (c =? 101) || (c =? 69)) txt) in
  if negb (is_finite v) then throw number_error txt (Some start)
  else if int && negb (is_safe_integer v) then
    throw unsupported (js "integer precision") (Some start)
  else
    let stop := (start + n)%nat in
    Ok (Lexeme KNumber txt start stop (Some (LNumber v)) int, stop).

(** The body of [next] once the token counter has been checked: skip white
    space, then scan one token. *)
Definition lex_token (source : jsstr) (cursor : nat) : result exn (lexeme * nat) :=
  let start := (cursor + length (span is_space (drop cursor source)).1)%nat in
  let rest := drop start source in
  match rest with
  | [] => Ok (Lexeme KEnd [] start start None false, start)
  | c :: rest1 =>
      match scan_number rest with
      | Some (n, v) => lex_number rest start n v
      | None =>
          if (c =? QUOTE) || (c =? APOS) then
            let! (v, stop) := lex_string start c rest1 (S start) [] in
            Ok (Lexeme KString (slice source start stop) start stop
                  (Some (LString v)) false, stop)
          else if is_name_start c then
            let name := (span is_word rest).1 in
            let stop := (start + length name)%nat in
            Ok (Lexeme KName name start stop None false, stop)
          else
            match scan_operator rest with
            | None => throw unsupported [c] (Some start)
            | Some op =>
                let stop := (start + length op)%nat in
                Ok (Lexeme KSymbol op start stop None false, stop)
            end
      end
  end.

(** * Facts *)

(** What one call of the scanner returns: a token inside the source, after the
    cursor, whose text is the source text of its span; only the end token is
    empty. *)
Record lexeme_ok (source : jsstr) (cursor : nat) (l : lexeme) : Prop := {
  lex_after : (cursor <= l_start l)%nat;
  lex_order : (l_start l <= l_end l)%nat;
  lex_inside : (l_end l <= length source)%nat;
  lex_text : text l = slice source (l_start l) (l_end l);
  lex_nonempty : kind l <> KEnd -> (l_start l < l_end l)%nat;
  lex_final : kind l = KEnd -> l_end l = length source;
}.

Lemma lex_string_end start quote rest : forall cursor val v stop,
  lex_string start quote rest cursor val = Ok (v, stop) ->
  (cursor < stop <= cursor + length rest)%nat.
Proof.
  induction rest as [rest IH] using list_length_ind. intros cursor val v stop H.
  destruct rest as [|c rest1]; simpl in H; [done|].
  destruct (c =? quote); [injection H as <- <-; simpl; lia|].
  destruct ((c =? LF) || (c =? CR)); [done|].
  destruct (negb (c =? BACKSLASH)).
  { apply IH in H; simpl in *; lia. }
  destruct rest1 as [|e rest2]; [done|].
  destruct (escape_value e).
  { apply IH in H; simpl in *; lia. }
  destruct (e =? 117).
  - destruct rest2 as [|h1 [|h2 [|h3 [|h4 rest6]]]]; try done.
    res_inv H. apply IH in H; simpl in *; lia.
  - destruct (e =? 120); [|done].
    destruct rest2 as [|h1 [|h2 rest4]]; try done.
    res_inv H. apply IH in H; simpl in *; lia.
Qed.

Lemma scan_operator_prefix rest op :
  scan_operator rest = Some op -> (exists r, rest = op ++ r) /\ op <> [].
Proof.
  unfold scan_operator. intros H. apply fmap_Some in H as (o & H & ->).
  apply find_some in H as [Hin H]. split; [by apply starts_with_spec|].
  revert Hin. clear. intros Hin Hnil.
  repeat (destruct Hin as [<-|Hin]; [done|]). done.
Qed.

Lemma slice_prefix source start a r :
  drop start source = a ++ r -> slice source start (start + length a) = a.
Proof.
  intros H. unfold slice. rewrite H.
  replace (start + length a - start)%nat with (length a) by lia.
  by rewrite take_app_length.
Qed.

Lemma prefix_inside (source : jsstr) start a r :
  drop start source = a ++ r -> a <> [] -> (start + length a <= length source)%nat.
Proof.
  intros H Ha. apply (f_equal length) in H. rewrite length_drop, length_app in H.
  destruct a; [done|]. simpl in *. lia.
Qed.

Lemma skip_space_inside (source : jsstr) cursor :
  (cursor <= length source)%nat ->
  (cursor + length (span is_space (drop cursor source)).1 <= length source)%nat.
Proof.
  intros H. pose proof (span_length is_space (drop cursor source)) as E.
  rewrite length_drop in E. lia.
Qed.

(** A token whose text is a non-empty prefix of what follows the blanks. *)
Lemma lexeme_ok_prefix source cursor start k a r v i :
  (cursor <= start)%nat -> drop start source = a ++ r -> a <> [] -> k <> KEnd ->
  lexeme_ok source cursor (Lexeme k a start (start + length a) v i).
Proof.
  intros Hc Hr Ha Hk.
  assert (0 < length a)%nat by (destruct a; [done|simpl; lia]).
  constructor; simpl; try done; try lia.
  - by eapply prefix_inside.
  - symmetry. by eapply slice_prefix.
Qed.

Lemma lex_number_ok source cursor start rest n v l stop :
  rest = drop start source -> (cursor <= start)%nat -> (0 < n <= length rest)%nat ->
  lex_number rest start n v = Ok (l, stop) ->
  lexeme_ok source cursor l /\ stop = l_end l.
Proof.
  intros -> Hc Hn H. unfold lex_number in H. res_inv H. simpl. split; [|done].
  replace (start + n)%nat with (start + length (take n (drop start source)))%nat
    by (rewrite length_take; lia).
  eapply lexeme_ok_prefix; [done|by rewrite take_drop| |done].
  intros E'. apply (f_equal length) in E'. rewrite length_take in E'. simpl in E'. lia.
Qed.

Lemma lex_token_ok source cursor l stop :
  (cursor <= length source)%nat ->
  lex_token source cursor = Ok (l, stop) ->
  lexeme_ok source cursor l /\ stop = l_end l.
Proof.
  unfold lex_token. intros Hc H. pose proof (skip_space_inside source cursor Hc) as Hs.
  set (start := (cursor + length (span is_space (drop cursor source)).1)%nat) in *.
  assert (Hst : (cursor <= start)%nat) by (unfold start; lia).
  destruct (drop start source) as [|c rest1] eqn:Er.
  { injection H as <- <-. apply (f_equal length) in Er. rewrite length_drop in Er.
    simpl in *. split; [|done].
    constructor; simpl; try done; try lia. unfold slice. by rewrite Nat.sub_diag. }
  destruct (scan_number (c :: rest1)) as [[n v]|] eqn:En.
  { apply scan_number_length in En. eapply lex_number_ok; [symmetry; exact Er|exact Hst|exact En|exact H]. }
  destruct ((c =? QUOTE) || (c =? APOS)).
  { destruct (lex_string start c rest1 (S start) []) as [[v p]|] eqn:El; [|done].
    injection H as <- <-. apply lex_string_end in El.
    apply (f_equal length) in Er. rewrite length_drop in Er. simpl in Er, El.
    split; [|done]. constructor; simpl; try done; intros; lia. }
  destruct (is_name_start c) eqn:Ec.
  { injection H as <- <-. split; [|done].
    eapply lexeme_ok_prefix; [done| |simpl; unfold is_word at 1; rewrite Ec; by destruct (span is_word rest1)|done].
    rewrite Er. symmetry. exact (span_app is_word (c :: rest1)). }
  destruct (scan_operator (c :: rest1)) as [op|] eqn:Eo; [|done].
  injection H as <- <-. apply scan_operator_prefix in Eo as [[r Hr] Ho].
  split; [|done]. eapply lexeme_ok_prefix; [done|by rewrite Er, Hr|done|done].
Qed.
