(* ===== verification/Parser.v ===== *)
(** [BillingParser] of [pricing/lib/billing-expression/parser.ts]: the object's
    fields are a state record, its methods are functions of that state that may
    throw. *)
From Stdlib Require Import ZArith Lia Bool String.
From stdpp Require Import base list option.
From S2P Require Import Prelude JsString JsNumber Types Lexer.

(** * State *)

Definition PRECEDENCE : list (string * nat) :=
  [("||", 1); ("&&", 2); ("==", 3); ("!=", 3); ("<", 4); ("<=", 4); (">", 4);
   (">=", 4); ("+", 5); ("-", 5); ("*", 6); ("/", 6); ("%", 6)]%string%nat.

Record pstate := PState {
  cursor : nat;
  count : nat;
  depth : nat;
  current : lexeme;
}.

Definition MAX_TOKENS : nat := Z.to_nat 10000.
Definition MAX_LENGTH : nat := Z.to_nat 65536.
Arguments MAX_TOKENS : simpl never.
Arguments MAX_LENGTH : simpl never.

Section Parser.
Variable source : jsstr.

(** [next()]: the counter, then the scanner. *)
Definition next (cur cnt : nat) : result exn (lexeme * nat * nat) :=
  let cnt := S cnt in
  if (MAX_TOKENS <? cnt)%nat then throw limit (js "expression tokens") None
  else
    let! (l, cur') := lex_token source cur in
    Ok (l, cur', cnt).

(** [take()]: the current token, with the state after it. *)
Definition take_token (st : pstate) : result exn (lexeme * pstate) :=
  let! (l, cur, cnt) := next (cursor st) (count st) in
  Ok (current st, PState cur cnt (depth st) l).

Definition is_text (st : pstate) (t : string) : bool := text (current st) === t.

Definition expect (t : string) (st : pstate) : result exn (lexeme * pstate) :=
  if negb (is_text st t) then
    throw syntax (js "expected " ++ js t) (Some (l_start (current st)))
  else take_token st.

Definition set_depth (d : nat) (st : pstate) : pstate :=
  PState (cursor st) (count st) d (current st).

(** The version prefix [/^\s*v(\d+):/]: its length and its digits. *)
Definition match_version : option (nat * jsstr) :=
  let '(ws, r) := span is_space source in
  match r with
  | c :: r1 =>
      if (c =? 118)%Z then
        let '(ds, r2) := span is_digit r1 in
        match ds, r2 with
        | _ :: _, d :: _ => if (d =? 58)%Z then Some (length ws + 1 + length ds + 1, ds)
                            else None
        | _, _ => None
        end
      else None
  | [] => None
  end.

(** The constructor. *)
Definition init : result exn pstate :=
  if (MAX_LENGTH <? length source)%nat then
    throw limit (js "expression length") None
  else
    let start (c : nat) : result exn pstate :=
      let! (l, cur, cnt) := next c 0 in Ok (PState cur cnt 0 l) in
    match match_version with
    | Some (n, ds) =>
        if negb (ds === "1") then throw unsupported (take n source) None
        else start n
    | None => start 0
    end.

(** A leaf for a token. *)
Definition name_or_variable (token : lexeme) : result exn node :=
  if one_of (text token) CONTEXT_VARIABLES then
    Ok (NContext (l_start token) (l_end token) (text token))
  else if negb (one_of (text token) TOKEN_VARIABLES) then
    throw unsupported (text token) (Some (l_start token))
  else Ok (NVariable (l_start token) (l_end token) (text token)).

Definition literal_of (token : lexeme) : literal_value :=
  match value token with Some v => v | None => LNull end.

(** The mutually recursive methods.  [fuel] bounds the nesting of calls; every
    chain of calls takes a token at least every third call, and there are at
    most [MAX_TOKENS] tokens. *)
Fixpoint expression (fuel minimum : nat) (st : pstate) {struct fuel}
  : result exn (node * pstate) :=
  match fuel with
  | O => Err Stuck
  | S f =>
      let d := S (depth st) in
      if (128 <? d)%nat then throw limit (js "expression depth") None
      else
        let! (lhs, st) := primary f (set_depth d st) in
        let! (lhs, st) := binary_loop f minimum lhs st in
        if (minimum =? 0)%nat && is_text st "?" then
          let! (_, st) := take_token st in
          let! (yes, st) := expression f 0 st in
          let! (_, st) := expect ":" st in
          let! (no, st) := expression f 0 st in
          Ok (NConditional (node_start lhs) (node_end no) lhs yes no,
              set_depth (depth st - 1) st)
        else Ok (lhs, set_depth (depth st - 1) st)
  end

(** [while (hasOwn(PRECEDENCE, current.text) && ... >= minimum)]. *)
with binary_loop (fuel minimum : nat) (lhs : node) (st : pstate) {struct fuel}
  : result exn (node * pstate) :=
  match fuel with
  | O => Err Stuck
  | S f =>
      match table_get PRECEDENCE (text (current st)) with
      | Some prec =>
          if (minimum <=? prec)%nat then
            let! (op, st) := take_token st in
            let! (rhs, st) := expression f (prec + 1) st in
            binary_loop f minimum
              (NBinary (node_start lhs) (node_end rhs) (text op) lhs rhs) st
          else Ok (lhs, st)
      | None => Ok (lhs, st)
      end
  end

with primary (fuel : nat) (st : pstate) {struct fuel} : result exn (node * pstate) :=
  match fuel with
  | O => Err Stuck
  | S f =>
      let! (token, st) := take_token st in
      let s := l_start token in
      let e := l_end token in
      if bool_decide (kind token = KNumber) then
        Ok (NLiteral s e (literal_of token) (integer token), st)
      else if bool_decide (kind token = KString) then
        Ok (NLiteral s e (literal_of token) false, st)
      else if text token === "(" then
        let! (n, st) := expression f 0 st in
        let! (close, st) := expect ")" st in
        Ok (with_span s (l_end close) n, st)
      else if one_of (text token) ["!"; "+"; "-"]%string then
        let! (operand, st) := expression f 7 st in
        Ok (NUnary s (node_end operand) (text token) operand, st)
      else if negb (bool_decide (kind token = KName)) then
        throw syntax (text token) (Some s)
      else if text token === "nil" then Ok (NLiteral s e LNull false, st)
      else if one_of (text token) ["true"; "false"]%string then
        Ok (NLiteral s e (LBool (text token === "true")) false, st)
      else if negb (is_text st "(") then
        let! n := name_or_variable token in Ok (n, st)
      else
        match table_get BILLING_FUNCTIONS (text token) with
        | None => throw unsupported (text token) (Some s)
        | Some arity =>
            let! (_, st) := take_token st in
            let! (args, st) := arguments f [] st in
            let! (close, st) := expect ")" st in
            if negb (length args =? arity)%nat then
              throw type_error (text token) (Some s)
            else Ok (NCall s (l_end close) (text token) args, st)
        end
  end

(** [while (!this.is(')')) { args.push(...); if (!this.is(',')) break; take }]. *)
with arguments (fuel : nat) (args : list node) (st : pstate) {struct fuel}
  : result exn (list node * pstate) :=
  match fuel with
  | O => Err Stuck
  | S f =>
      if is_text st ")" then Ok (args, st)
      else
        let! (a, st) := expression f 0 st in
        if negb (is_text st ",") then Ok (args ++ [a], st)
        else
          let! (_, st) := take_token st in
          arguments f (args ++ [a]) st
  end.

Definition parse_fuel : nat := 3 * MAX_TOKENS + 3.

(** [new BillingParser(source).parse()]. *)
Definition parse : result exn node :=
  let! st := init in
  let! (n, st) := expression parse_fuel 0 st in
  if negb (bool_decide (kind (current st) = KEnd)) then
    throw unsupported (text (current st)) (Some (l_start (current st)))
  else Ok n.

End Parser.
