(* ===== verification/Grammar.v ===== *)
(** The grammar of billing expressions: the abstract specification the parser
    is proved against.  It is stratified by operator precedence, so a token
    sequence does not say more than the table [PRECEDENCE] does: level 0 is the
    conditional, levels 1 to 6 are the left-associative binary operators, level
    7 is unary and primary expressions. *)
From Stdlib Require Import ZArith Lia Bool String.
From stdpp Require Import base list option.
From S2P Require Import Prelude JsString JsNumber Types Lexer Parser.

(** * Derivations *)

(** [derives d k ts n]: the tokens [ts] are a sentence of level [k] with the tree
    [n], nested at most [d] deep: the operand on the right of an operator, the
    branches of a conditional, the inside of parentheses, the operand of a unary
    operator and the arguments of a call are one level deeper. *)
Inductive derives : nat -> nat -> list lexeme -> node -> Prop :=
| D_conditional d tc q ty col tn c y n :
    derives (S d) 1 tc c -> (text q === "?") = true ->
    derives d 0 ty y -> (text col === ":") = true -> derives d 0 tn n ->
    derives (S d) 0 (tc ++ q :: ty ++ col :: tn)
      (NConditional (node_start c) (node_end n) c y n)
| D_binary d k tl op tr l r :
    table_get PRECEDENCE (text op) = Some k ->
    derives (S d) k tl l -> derives d (S k) tr r ->
    derives (S d) k (tl ++ op :: tr) (NBinary (node_start l) (node_end r) (text op) l r)
| D_higher d k ts n : k < 7 -> derives d (S k) ts n -> derives d k ts n
| D_number d t :
    kind t = KNumber ->
    derives (S d) 7 [t] (NLiteral (l_start t) (l_end t) (literal_of t) (integer t))
| D_string d t :
    kind t = KString ->
    derives (S d) 7 [t] (NLiteral (l_start t) (l_end t) (literal_of t) false)
| D_paren d o ts c n :
    (text o === "(") = true -> derives d 0 ts n -> (text c === ")") = true ->
    derives (S d) 7 (o :: ts ++ [c]) (with_span (l_start o) (l_end c) n)
| D_unary d o ts n :
    one_of (text o) ["!"; "+"; "-"]%string = true -> derives d 7 ts n ->
    derives (S d) 7 (o :: ts) (NUnary (l_start o) (node_end n) (text o) n)
| D_nil d t :
    kind t = KName -> (text t === "nil") = true ->
    derives (S d) 7 [t] (NLiteral (l_start t) (l_end t) LNull false)
| D_bool d t :
    kind t = KName -> one_of (text t) ["true"; "false"]%string = true ->
    derives (S d) 7 [t] (NLiteral (l_start t) (l_end t) (LBool (text t === "true")) false)
| D_context d t :
    kind t = KName -> one_of (text t) CONTEXT_VARIABLES = true ->
    derives (S d) 7 [t] (NContext (l_start t) (l_end t) (text t))
| D_variable d t :
    kind t = KName -> one_of (text t) TOKEN_VARIABLES = true ->
    derives (S d) 7 [t] (NVariable (l_start t) (l_end t) (text t))
| D_call d t o ts c args arity :
    kind t = KName -> table_get BILLING_FUNCTIONS (text t) = Some arity ->
    (text o === "(") = true -> derives_args d ts args -> length args = arity ->
    (text c === ")") = true ->
    derives (S d) 7 (t :: o :: ts ++ [c]) (NCall (l_start t) (l_end c) (text t) args)

(** Arguments; a trailing comma is accepted. *)
with derives_args : nat -> list lexeme -> list node -> Prop :=
| A_none d : derives_args d [] []
| A_last d ts a : derives d 0 ts a -> derives_args d ts [a]
| A_more d ts comma rest a args :
    derives d 0 ts a -> (text comma === ",") = true -> derives_args d rest args ->
    derives_args d (ts ++ comma :: rest) (a :: args).

Scheme derives_mut := Induction for derives Sort Prop
  with derives_args_mut := Induction for derives_args Sort Prop.
Combined Scheme derives_both_ind from derives_mut, derives_args_mut.

(** * Token sequences of a source *)

(** [lexes source c ts c']: scanning from position [c] yields the tokens [ts]
    and ends at [c']. *)
Inductive lexes (source : jsstr) : nat -> list lexeme -> nat -> Prop :=
| lexes_nil c : lexes source c [] c
| lexes_cons c l c1 ts c' :
    lex_token source c = Ok (l, c1) -> lexes source c1 ts c' ->
    lexes source c (l :: ts) c'.

(** Tokens in source order, each non-empty. *)
Fixpoint ordered (lo : nat) (ts : list lexeme) (hi : nat) : Prop :=
  match ts with
  | [] => lo <= hi
  | t :: ts' => lo <= l_start t /\ l_start t < l_end t /\ ordered (l_end t) ts' hi
  end.

(** * Well-formed spans *)

(** The nodes [cs] lie in [lo, hi), one after the other. *)
Fixpoint chain (lo : nat) (cs : list node) (hi : nat) : Prop :=
  match cs with
  | [] => lo <= hi
  | c :: cs' => lo <= node_start c /\ node_start c < node_end c /\ chain (node_end c) cs' hi
  end.

(** A node is not empty, and its children lie in it in source order, none of
    them spanning all of it. *)
Definition span_own (n : node) : Prop :=
  node_start n < node_end n /\
  chain (node_start n) (children n) (node_end n) /\
  Forall (fun c => node_start n < node_start c \/ node_end c < node_end n) (children n).

Inductive spans_ok (n : node) : Prop :=
| SpansOk : span_own n -> Forall spans_ok (children n) -> spans_ok n.

Definition node_span (n : node) : nat * nat := (node_start n, node_end n).

(** * Facts *)

Lemma derives_weaken d k j ts n : derives d k ts n -> j <= k <= 7 -> derives d j ts n.
Proof.
  intros H [Hj Hk]. induction k as [|k IH] in H, Hj, Hk |- *.
  - by replace j with 0 by lia.
  - destruct (decide (j = S k)) as [->|]; [done|].
    apply IH; [apply D_higher; [lia|done]|lia..].
Qed.

Lemma ordered_le lo ts hi : ordered lo ts hi -> lo <= hi.
Proof.
  revert lo. induction ts as [|t ts IH]; simpl; intros lo; [done|].
  intros (? & ? & H). apply IH in H. lia.
Qed.

Lemma ordered_app lo ts us hi :
  ordered lo (ts ++ us) hi <-> exists mid, ordered lo ts mid /\ ordered mid us hi.
Proof.
  revert lo. induction ts as [|t ts IH]; simpl; intros lo.
  - split; [intros H; by exists lo|]. intros (m & Hm & H).
    destruct us; simpl in *; [lia|]. intuition lia.
  - rewrite IH. split.
    + intros (? & ? & m & ? & ?). eauto 10.
    + intros (m & (? & ? & ?) & ?). eauto 10.
Qed.

Lemma ordered_weaken lo lo' ts hi : lo' <= lo -> ordered lo ts hi -> ordered lo' ts hi.
Proof. destruct ts; simpl; intros; [lia|intuition lia]. Qed.

Lemma chain_widen lo lo' cs hi hi' :
  lo' <= lo -> hi <= hi' -> chain lo cs hi -> chain lo' cs hi'.
Proof.
  revert lo lo'. induction cs as [|c cs IH]; simpl; intros lo lo' Hl Hh H; [lia|].
  destruct H as (? & ? & H). repeat split; [lia|done|]. by eapply (IH (node_end c)).
Qed.

Lemma chain_le lo cs hi : chain lo cs hi -> lo <= hi.
Proof.
  revert lo. induction cs as [|c cs IH]; simpl; intros lo; [done|].
  intros (? & ? & H). apply IH in H. lia.
Qed.

Lemma children_with_span s e n : children (with_span s e n) = children n.
Proof. by destruct n. Qed.
Lemma node_start_with_span s e n : node_start (with_span s e n) = s.
Proof. by destruct n. Qed.
Lemma node_end_with_span s e n : node_end (with_span s e n) = e.
Proof. by destruct n. Qed.

Lemma spans_ok_with_span s e n :
  s < node_start n -> node_end n < e -> spans_ok n -> spans_ok (with_span s e n).
Proof.
  intros Hs He H. destruct H as [(Hlt & Hc & Hf) Hch].
  constructor; rewrite ?children_with_span; [|done].
  unfold span_own. rewrite children_with_span, node_start_with_span, node_end_with_span.
  split; [lia|]. split; [by eapply chain_widen; [| |exact Hc]; lia|].
  eapply Forall_impl; [|exact Hf]. simpl. lia.
Qed.

(** The span of a derived node: it starts at its first token, ends inside the
    token range, and all spans below it are well formed. *)
Definition node_fits (lo : nat) (n : node) (hi : nat) : Prop :=
  lo <= node_start n /\ node_start n < node_end n /\ node_end n <= hi /\ spans_ok n.

Lemma node_fits_leaf lo n hi :
  children n = [] -> lo <= node_start n -> node_start n < node_end n ->
  node_end n <= hi -> node_fits lo n hi.
Proof.
  intros Hn ? ? ?. do 3 (split; [done|]).
  constructor; [split; [done|]|]; rewrite Hn; simpl; [split; [lia|]|]; constructor.
Qed.

Lemma node_fits_widen lo lo' n hi hi' :
  lo' <= lo -> hi <= hi' -> node_fits lo n hi -> node_fits lo' n hi'.
Proof. intros ? ? (? & ? & ? & ?). split; [lia|]. split; [lia|]. split; [lia|done]. Qed.

Definition args_fit (lo : nat) (l : list node) (hi : nat) : Prop :=
  chain lo l hi /\ Forall spans_ok l.

Ltac split_ordered :=
  repeat match goal with
  | H : ordered _ (_ ++ _) _ |- _ => apply ordered_app in H as (? & ? & ?)
  | H : ordered _ (_ :: _) _ |- _ => destruct H as (? & ? & ?)
  | H : ordered _ [] _ |- _ => simpl in H
  end.

Lemma node_fits_node lo n hi :
  lo <= node_start n -> node_end n <= hi -> node_start n < node_end n ->
  chain (node_start n) (children n) (node_end n) ->
  Forall (fun c => node_start n < node_start c \/ node_end c < node_end n) (children n) ->
  Forall spans_ok (children n) -> node_fits lo n hi.
Proof.
  intros. do 3 (split; [done|]). constructor; [split; [done|]|]; done.
Qed.

(** A [Forall] over an explicit list. *)
Ltac forall_solve :=
  repeat (constructor; [first [done | simpl; lia]|]); constructor.

(** In a chain strictly inside [lo, hi), every element is strictly inside. *)
Lemma chain_strict lo' lo cs hi hi' :
  chain lo cs hi -> lo' < lo ->
  Forall (fun c => lo' < node_start c \/ node_end c < hi') cs.
Proof.
  revert lo. induction cs as [|c cs IH]; simpl; intros lo H Hl; constructor.
  - lia.
  - destruct H as (? & ? & H). eapply IH; [exact H|lia].
Qed.

Lemma derives_fits :
  (forall d k ts n, derives d k ts n -> forall lo hi, ordered lo ts hi -> node_fits lo n hi) /\
  (forall d ts args, derives_args d ts args ->
     forall lo hi, ordered lo ts hi -> args_fit lo args hi).
Proof.
  apply derives_both_ind; intros.
  - (* conditional *)
    split_ordered.
    edestruct H as (? & ? & ? & ?); [eassumption|].
    edestruct H0 as (? & ? & ? & ?); [eassumption|].
    edestruct H1 as (? & ? & ? & ?); [eassumption|].
    apply node_fits_node; simpl; try lia; forall_solve.
  - (* binary *)
    split_ordered.
    edestruct H as (? & ? & ? & ?); [eassumption|].
    edestruct H0 as (? & ? & ? & ?); [eassumption|].
    apply node_fits_node; simpl; try lia; forall_solve.
  - eauto.
  - split_ordered. apply node_fits_leaf; simpl; lia || done.
  - split_ordered. apply node_fits_leaf; simpl; lia || done.
  - (* parentheses *)
    split_ordered. edestruct H as (? & ? & ? & ?); [eassumption|].
    unfold node_fits. rewrite node_start_with_span, node_end_with_span.
    do 3 (split; [lia|]). apply spans_ok_with_span; lia || done.
  - (* unary *)
    split_ordered. edestruct H as (? & ? & ? & ?); [eassumption|].
    apply node_fits_node; simpl; try lia; forall_solve.
  - split_ordered. apply node_fits_leaf; simpl; lia || done.
  - split_ordered. apply node_fits_leaf; simpl; lia || done.
  - split_ordered. apply node_fits_leaf; simpl; lia || done.
  - split_ordered. apply node_fits_leaf; simpl; lia || done.
  - (* call *)
    split_ordered. edestruct H as [Hc Hf]; [eassumption|].
    pose proof (chain_le _ _ _ Hc).
    apply node_fits_node; simpl; try lia; [| |done].
    + eapply chain_widen; [| |exact Hc]; lia.
    + eapply chain_strict; [exact Hc|lia].
  - split_ordered. split; [done|constructor].
  - edestruct H as (? & ? & ? & ?); [eassumption|].
    split; [simpl; lia|forall_solve].
  - split_ordered. edestruct H as (? & ? & ? & ?); [eassumption|].
    edestruct H0 as [Hc Hf]; [eassumption|].
    split; [|by constructor]. simpl. repeat split; [lia|lia|].
    eapply chain_widen; [| |exact Hc]; lia.
Qed.

(** ** Uniqueness of spans *)

Definition inside (lo hi : nat) (m : node) : Prop :=
  lo <= node_start m /\ node_start m < node_end m /\ node_end m <= hi.

Lemma chain_inside lo cs hi :
  chain lo cs hi -> Forall (inside lo hi) cs.
Proof.
  revert lo. induction cs as [|c cs IH]; simpl; intros lo H; constructor.
  - destruct H as (? & ? & H). apply chain_le in H. by repeat split.
  - destruct H as (? & ? & H). eapply Forall_impl; [|by apply IH].
    intros m (? & ? & ?). repeat split; lia.
Qed.

Lemma spans_ok_inside n : spans_ok n ->
  Forall (inside (node_start n) (node_end n)) (subnodes n).
Proof.
  induction n as [n IH] using node_children_ind. intros H.
  destruct H as [(Hlt & Hc & _) Hch].
  rewrite subnodes_unfold. constructor; [by repeat split|].
  apply chain_inside in Hc. apply Forall_concat, Forall_map.
  rewrite Forall_elem in *. intros c Hin.
  specialize (IH c Hin (Hch c Hin)). destruct (Hc c Hin) as (? & ? & ?).
  eapply Forall_impl; [|exact IH]. intros m (? & ? & ?). repeat split; lia.
Qed.

Lemma span_not_in n l : Forall (fun m => node_start n < node_start m \/ node_end m < node_end n) l ->
  node_span n ∉ map node_span l.
Proof.
  intros H Hin. apply list_elem_of_In, in_map_iff in Hin as (m & E & Hm).
  rewrite List.Forall_forall in H. apply H in Hm. injection E as E1 E2. lia.
Qed.

Lemma spans_disjoint lo cs hi :
  chain lo cs hi -> Forall spans_ok cs ->
  Forall (fun c => NoDup (map node_span (subnodes c))) cs ->
  NoDup (map node_span (concat (map subnodes cs))).
Proof.
  revert lo. induction cs as [|c cs IH]; simpl; intros lo Hc Hs Hn; [constructor|].
  destruct Hc as (? & ? & Hc). inversion Hs; inversion Hn; subst.
  rewrite map_app. apply list.NoDup_app. split; [done|]. split; [|by eapply IH].
  intros [a b] Ha Hb.
  apply list_elem_of_In, in_map_iff in Ha as (m & E & Hm).
  apply list_elem_of_In, in_map_iff in Hb as (m' & E' & Hm').
  assert (inside (node_start c) (node_end c) m) as (? & ? & ?).
  { eapply Forall_elem; [by apply spans_ok_inside|by apply list_elem_of_In]. }
  apply in_concat in Hm' as (l & Hl & Hm'). apply in_map_iff in Hl as (c' & <- & Hc').
  assert (inside (node_start c') (node_end c') m') as (? & ? & ?).
  { eapply Forall_elem; [apply spans_ok_inside|by apply list_elem_of_In].
    apply Forall_elem with (l := cs); [done|by apply list_elem_of_In]. }
  apply chain_inside in Hc. rewrite List.Forall_forall in Hc.
  destruct (Hc c' Hc') as (? & ? & ?).
  injection E; injection E'; lia.
Qed.

(** In a tree with well-formed spans, two nodes have different spans. *)
Lemma spans_ok_unique n : spans_ok n -> NoDup (map node_span (subnodes n)).
Proof.
  induction n as [n IH] using node_children_ind. intros H.
  destruct H as [(Hlt & Hc & Hf) Hch].
  rewrite subnodes_unfold. simpl. constructor.
  - apply span_not_in, Forall_concat, Forall_map.
    pose proof (chain_inside _ _ _ Hc) as Hi. rewrite Forall_elem in *.
    intros c Hin. specialize (Hf c Hin). specialize (Hi c Hin).
    eapply Forall_impl; [|by apply spans_ok_inside, Hch].
    destruct Hi as (? & ? & ?). intros m (? & ? & ?). lia.
  - eapply spans_disjoint; [exact Hc|done|].
    rewrite Forall_elem in *. eauto.
Qed.

(** * Well-formed nodes *)

(** The names, operators and argument counts the grammar admits. *)
Definition node_ok (m : node) : Prop :=
  match m with
  | NLiteral _ _ _ _ | NConditional _ _ _ _ _ => True
  | NVariable _ _ x => one_of x TOKEN_VARIABLES = true
  | NContext _ _ x => one_of x CONTEXT_VARIABLES = true
  | NCall _ _ f args => table_get BILLING_FUNCTIONS f = Some (length args)
  | NUnary _ _ op _ => one_of op ["!"; "+"; "-"]%string = true
  | NBinary _ _ op _ _ => is_Some (table_get PRECEDENCE op)
  end.

Definition well_formed (n : node) : Prop := Forall node_ok (subnodes n).

Lemma well_formed_node n : well_formed n <-> node_ok n /\ Forall well_formed (children n).
Proof.
  unfold well_formed at 1. rewrite subnodes_unfold, list.Forall_cons.
  apply and_iff_compat_l. induction (children n) as [|c cs IH]; simpl.
  - split; constructor.
  - by rewrite Forall_app, list.Forall_cons, IH.
Qed.

Lemma well_formed_with_span s e n : well_formed n -> well_formed (with_span s e n).
Proof.
  rewrite !well_formed_node, children_with_span. intros [H1 H2]. split; [|done].
  by destruct n.
Qed.

Lemma well_formed_sub n m : well_formed n -> m ∈ subnodes n -> well_formed m.
Proof.
  intros H Hm. apply Forall_elem. intros k Hk. apply (proj1 (Forall_elem _ _) H).
  by eapply subnodes_trans.
Qed.

Lemma derives_well_formed :
  (forall d k ts n, derives d k ts n -> well_formed n) /\
  (forall d ts args, derives_args d ts args -> Forall well_formed args).
Proof.
  apply derives_both_ind; intros; try done.
  all: try (apply well_formed_node;
    split; [first [exact I | by eexists | simpl; congruence]|];
    repeat (apply Forall_cons; [done|]); first [done | apply Forall_nil_2]).
  - by apply well_formed_with_span.
  - by apply Forall_cons.
  - by apply Forall_cons.
Qed.
