(* ===== verification/ParserFacts.v ===== *)
(** Correctness of [BillingParser]: what it accepts is derived by the grammar
    from exactly the tokens of the source, its trees have well-formed and unique
    spans, and it always returns or throws. *)
From Stdlib Require Import ZArith Lia Bool String.
From stdpp Require Import base list option.
From S2P Require Import Prelude JsString JsNumber Types Lexer Parser Grammar.

Section Facts.
Variable source : jsstr.

(** * Reading tokens *)

(** From state [st] the parser has consumed the tokens [ts] and is in [st']. *)
Definition reads (st : pstate) (ts : list lexeme) (st' : pstate) : Prop :=
  (exists rest, lexes source (cursor st) rest (cursor st') /\
                current st :: rest = ts ++ [current st']) /\
  count st' = count st + length ts /\ (count st <= MAX_TOKENS -> count st' <= MAX_TOKENS).

Lemma lexes_app c ts c1 us c2 :
  lexes source c ts c1 -> lexes source c1 us c2 -> lexes source c (ts ++ us) c2.
Proof. induction 1; simpl; intros; [done|]. econstructor; eauto. Qed.

Lemma reads_refl st : reads st [] st.
Proof.
  split; [|simpl; split; [lia|done]]. exists []. split; [constructor|done].
Qed.

Lemma reads_trans st ts st' us st'' :
  reads st ts st' -> reads st' us st'' -> reads st (ts ++ us) st''.
Proof.
  intros [(r & Hr & E) [Hc Hb]] [(r' & Hr' & E') [Hc' Hb']].
  split; [|rewrite length_app; split; [lia|tauto]].
  exists (r ++ r'). split; [by eapply lexes_app|].
  rewrite app_comm_cons, E, <- !app_assoc. simpl. by rewrite E'.
Qed.

Lemma take_token_inv st t st' :
  take_token source st = Ok (t, st') ->
  t = current st /\ lex_token source (cursor st) = Ok (current st', cursor st') /\
  count st' = S (count st) /\ S (count st) <= MAX_TOKENS /\ depth st' = depth st.
Proof.
  unfold take_token, next. destruct (MAX_TOKENS <? S (count st)) eqn:E; [done|].
  destruct (lex_token source (cursor st)) as [[l c]|] eqn:El; [|done].
  intros H. injection H as <- <-. bools. by repeat split.
Qed.

Lemma reads_take st t st' :
  take_token source st = Ok (t, st') ->
  reads st [t] st' /\ t = current st /\ depth st' = depth st.
Proof.
  intros (-> & H & ? & ? & ?)%take_token_inv. split; [|done].
  split; [|simpl; split; [lia|lia]].
  exists [current st']. split; [|done]. econstructor; [done|constructor].
Qed.

Lemma expect_inv t st l st' :
  expect source t st = Ok (l, st') -> take_token source st = Ok (l, st') /\ (text l === t) = true.
Proof.
  unfold expect, is_text. destruct (text (current st) === t) eqn:E; simpl; [|done].
  intros H. split; [done|]. by apply take_token_inv in H as (-> & _).
Qed.

Lemma PRECEDENCE_range t p : table_get PRECEDENCE t = Some p -> 1 <= p <= 6.
Proof.
  unfold table_get, PRECEDENCE.
  repeat (case_goal; [intros H; injection H as <-; lia|]). done.
Qed.

(** * Soundness for the grammar *)

(** The current token does not continue an expression of level [m]. *)
Definition stops (m : nat) (st : pstate) : Prop :=
  forall p, table_get PRECEDENCE (text (current st)) = Some p -> p < m.

(** [depth st + d = 128]: [d] more expressions may be nested in this one. *)
Definition sound_expression (f : nat) : Prop := forall m st n st' d,
  m <= 7 -> depth st + d = 128 -> expression source f m st = Ok (n, st') ->
  depth st' = depth st /\ exists ts, reads st ts st' /\ derives d m ts n /\ stops m st'.
Definition sound_loop (f : nat) : Prop := forall m q tl lhs st n st' d,
  m <= q <= 7 -> 1 <= q -> depth st + d = 128 -> derives (S d) q tl lhs ->
  (forall p, table_get PRECEDENCE (text (current st)) = Some p -> p <= q) ->
  binary_loop source f m lhs st = Ok (n, st') ->
  depth st' = depth st /\
  exists ts, reads st ts st' /\ derives (S d) (Nat.max 1 m) (tl ++ ts) n /\ stops m st'.
Definition sound_primary (f : nat) : Prop := forall st n st' d,
  depth st + d = 128 -> primary source f st = Ok (n, st') ->
  depth st' = depth st /\ exists ts, reads st ts st' /\ derives (S d) 7 ts n.
Definition sound_arguments (f : nat) : Prop := forall acc st args st' d,
  depth st + d = 128 -> arguments source f acc st = Ok (args, st') ->
  depth st' = depth st /\
  exists ts rest, args = acc ++ rest /\ reads st ts st' /\ derives_args d ts rest.

Lemma sound_loop_step f :
  sound_expression f -> sound_loop f -> sound_loop (S f).
Proof.
  intros IHe IHl m q tl lhs st n st' d Hm Hq Hd0 Hd Hp H. simpl in H.
  assert (Hstop : forall st', (lhs, st) = (n, st') -> stops m st ->
    depth st' = depth st /\
    exists ts, reads st ts st' /\ derives (S d) (Nat.max 1 m) (tl ++ ts) n /\ stops m st').
  { intros ? [= <- <-] Hs. split; [done|]. exists []. rewrite app_nil_r.
    split; [by apply reads_refl|]. split; [eapply derives_weaken; [done|lia]|done]. }
  destruct (table_get PRECEDENCE (text (current st))) as [p|] eqn:Ep.
  2: { injection H as H1 H2. apply Hstop; [congruence|]. intros p Hp'. congruence. }
  destruct (m <=? p) eqn:Em; bools.
  2: { injection H as H1 H2. apply Hstop; [congruence|].
       intros p' Hp'. rewrite Ep in Hp'. injection Hp' as <-. done. }
  clear Hstop.
  destruct (take_token source st) as [[op st1]|] eqn:Et; [|done].
  destruct (expression source f (p + 1) st1) as [[rhs st2]|] eqn:Ee; [|done].
  apply reads_take in Et as (Hr1 & -> & Hd1). pose proof (PRECEDENCE_range _ _ Ep).
  eapply (IHe _ _ _ _ d) in Ee as (Hd2 & ts2 & Hr2 & HD2 & Hs2); [|lia|lia].
  specialize (Hp p eq_refl).
  eapply (IHl _ p (tl ++ current st :: ts2) _ _ _ _ d) in H
    as (Hd3 & ts3 & Hr3 & HD3 & Hs3); [|lia|lia|lia|..].
  - split; [lia|]. exists (current st :: ts2 ++ ts3). split.
    + apply (reads_trans _ [current st] st1); [done|]. by eapply reads_trans.
    + rewrite <- app_assoc in HD3. done.
  - apply D_binary; [done|eapply derives_weaken; [done|lia]|].
    by rewrite Nat.add_1_r in HD2.
  - intros p' Hp'. apply Hs2 in Hp'. lia.
Qed.

Lemma sound_expression_step f :
  sound_primary f -> sound_loop f -> sound_expression f -> sound_expression (S f).
Proof.
  intros IHp IHl IHe m st n st' d Hm Hd H. simpl in H.
  destruct (128 <? S (depth st)) eqn:E0; bools; [done|].
  destruct d as [|d]; [lia|].
  destruct (primary source f (set_depth (S (depth st)) st)) as [[lhs st1]|] eqn:E1; [|done].
  apply (IHp _ _ _ d) in E1 as (Hd1 & ts1 & Hr1 & HD1); [|simpl; lia]. simpl in Hd1.
  destruct (binary_loop source f m lhs st1) as [[lhs2 st2]|] eqn:E2; [|done].
  apply (IHl _ 7 ts1 _ _ _ _ d) in E2 as (Hd2 & ts2 & Hr2 & HD2 & Hs2); [|lia|lia|lia|done|].
  2: { intros p Hp. apply PRECEDENCE_range in Hp. lia. }
  assert (Hr : reads st (ts1 ++ ts2) st2) by (eapply reads_trans; [exact Hr1|exact Hr2]).
  destruct ((m =? 0) && is_text st2 "?") eqn:Eq; bools.
  2: { injection H as <- <-. split; [simpl; lia|]. exists (ts1 ++ ts2).
       split; [exact Hr|]. split; [eapply derives_weaken; [done|lia]|exact Hs2]. }
  subst m.
  destruct (take_token source st2) as [[q st3]|] eqn:Et; [|done].
  destruct (expression source f 0 st3) as [[yes st4]|] eqn:Ey; [|done].
  destruct (expect source ":" st4) as [[col st5]|] eqn:Ec; [|done].
  destruct (expression source f 0 st5) as [[no st6]|] eqn:En; [|done].
  injection H as <- <-.
  apply reads_take in Et as (Hr3 & -> & Hd3). apply expect_inv in Ec as [Ec Hcol].
  apply reads_take in Ec as (Hr5 & -> & Hd5).
  apply (IHe _ _ _ _ d) in Ey as (Hd4 & ty & Hry & Hdy & _); [|lia|lia].
  apply (IHe _ _ _ _ d) in En as (Hd6 & tn & Hrn & Hdn & Hsn); [|lia|lia].
  split; [simpl; lia|].
  exists ((ts1 ++ ts2) ++ current st2 :: ty ++ current st4 :: tn). split; [|split].
  - eapply reads_trans; [exact Hr|]. apply (reads_trans _ [current st2] st3); [done|].
    eapply reads_trans; [exact Hry|]. apply (reads_trans _ [current st4] st5); [done|].
    exact Hrn.
  - by apply D_conditional.
  - exact Hsn.
Qed.

Lemma sound_arguments_step f :
  sound_expression f -> sound_arguments f -> sound_arguments (S f).
Proof.
  intros IHe IHa acc st args st' d Hd H. simpl in H.
  destruct (is_text st ")") eqn:Ep.
  { injection H as <- <-. split; [done|]. exists [], []. rewrite app_nil_r.
    split; [done|]. split; [by apply reads_refl|constructor]. }
  destruct (expression source f 0 st) as [[a st1]|] eqn:Ea; [|done].
  apply (IHe _ _ _ _ d) in Ea as (Hd1 & ts & Hr & HD & _); [|lia|lia].
  destruct (is_text st1 ",") eqn:Ec; simpl in H.
  2: { injection H as <- <-. split; [done|]. exists ts, [a].
       split; [done|]. split; [done|by constructor]. }
  destruct (take_token source st1) as [[c st2]|] eqn:Et; [|done].
  apply reads_take in Et as (Hr2 & -> & Hd2).
  apply (IHa _ _ _ _ d) in H as (Hd3 & us & rest & -> & Hr3 & HD3); [|lia].
  split; [lia|]. exists (ts ++ current st1 :: us), (a :: rest).
  split; [by rewrite <- app_assoc|]. split.
  - eapply reads_trans; [exact Hr|]. by apply (reads_trans _ [current st1] st2).
  - by constructor.
Qed.

Lemma sound_name token n d :
  kind token = KName -> name_or_variable token = Ok n -> derives (S d) 7 [token] n.
Proof.
  unfold name_or_variable. intros Hk H.
  destruct (one_of (text token) CONTEXT_VARIABLES) eqn:E1; [injection H as <-; by constructor|].
  destruct (one_of (text token) TOKEN_VARIABLES) eqn:E2; [injection H as <-; by constructor|done].
Qed.

Lemma sound_primary_step f :
  sound_expression f -> sound_arguments f -> sound_primary (S f).
Proof.
  intros IHe IHa st n st' d Hd H. simpl in H.
  destruct (take_token source st) as [[t st1]|] eqn:Et; [|done].
  apply reads_take in Et as (Hr1 & _ & Hd1).
  case_bool_decide as Hn; [injection H as <- <-; eauto using D_number|].
  case_bool_decide as Hs; [injection H as <- <-; eauto using D_string|].
  destruct (text t === "(") eqn:Ep.
  { destruct (expression source f 0 st1) as [[m st2]|] eqn:Ee; [|done].
    destruct (expect source ")" st2) as [[c st3]|] eqn:Ec; [|done]. injection H as <- <-.
    apply (IHe _ _ _ _ d) in Ee as (Hd2 & ts & Hr2 & HD & _); [|lia|lia].
    apply expect_inv in Ec as [Ec Hc]. apply reads_take in Ec as (Hr3 & _ & Hd3).
    split; [lia|]. exists ([t] ++ ts ++ [c]).
    split; [by repeat eapply reads_trans|by constructor]. }
  destruct (one_of (text t) ["!"; "+"; "-"]%string) eqn:Eu.
  { destruct (expression source f 7 st1) as [[m st2]|] eqn:Ee; [|done]. injection H as <- <-.
    apply (IHe _ _ _ _ d) in Ee as (Hd2 & ts & Hr2 & HD & _); [|lia|lia].
    split; [lia|]. exists ([t] ++ ts). split; [by eapply reads_trans|by constructor]. }
  case_bool_decide as Hk; simpl in H; [|done].
  destruct (text t === "nil") eqn:En; [injection H as <- <-; eauto using D_nil|].
  destruct (one_of (text t) ["true"; "false"]%string) eqn:Eb;
    [injection H as <- <-; eauto using D_bool|].
  destruct (is_text st1 "(") eqn:Eo; simpl in H.
  2: { destruct (name_or_variable t) as [m|] eqn:Ev; [|done]. injection H as <- <-.
       eauto using sound_name. }
  destruct (table_get BILLING_FUNCTIONS (text t)) as [arity|] eqn:Ef; [|done].
  destruct (take_token source st1) as [[o st2]|] eqn:Et2; [|done].
  apply reads_take in Et2 as (Hr2 & -> & Hd2).
  destruct (arguments source f [] st2) as [[args st3]|] eqn:Ea; [|done].
  destruct (expect source ")" st3) as [[c st4]|] eqn:Ec; [|done].
  destruct (length args =? arity) eqn:El; simpl in H; [|done]. injection H as <- <-. bools.
  apply (IHa _ _ _ _ d) in Ea as (Hd3 & ts & rest & -> & Hr3 & HD); [|lia]. simpl in *.
  apply expect_inv in Ec as [Ec Hc]. apply reads_take in Ec as (Hr4 & _ & Hd4).
  split; [lia|]. exists ([t] ++ [current st1] ++ ts ++ [c]).
  split; [by repeat eapply reads_trans|by econstructor].
Qed.

Lemma parser_sound f :
  sound_expression f /\ sound_loop f /\ sound_primary f /\ sound_arguments f.
Proof.
  induction f as [|f (IHe & IHl & IHp & IHa)].
  - unfold sound_expression, sound_loop, sound_primary, sound_arguments.
    split_and!; by intros.
  - auto using sound_expression_step, sound_loop_step, sound_primary_step,
      sound_arguments_step.
Qed.

(** * Spans *)

(** Where the tokens start: after the version prefix. *)
Definition body_start : nat :=
  match match_version source with Some (n, _) => n | None => 0 end.

Lemma match_version_inside n ds : match_version source = Some (n, ds) -> n <= length source.
Proof.
  unfold match_version. intros H.
  pose proof (span_length is_space source) as H1.
  destruct (span is_space source) as [ws [|c r1]]; simpl in *; [done|].
  destruct (c =? 118)%Z; [|done].
  pose proof (span_length is_digit r1) as H2.
  destruct (span is_digit r1) as [[|d ds'] [|e r2]]; simpl in *; try done.
  destruct (e =? 58)%Z; [|done]. injection H as <- <-. simpl. lia.
Qed.

Lemma body_start_inside : body_start <= length source.
Proof.
  unfold body_start. destruct (match_version source) as [[n ds]|] eqn:E; [|lia].
  by eapply match_version_inside.
Qed.

(** A token that is not the end of the source. *)
Definition solid (t : lexeme) : Prop := text t <> [] \/ kind t <> KEnd.

Lemma text_is_solid t s : s <> EmptyString -> (text t === s) = true -> solid t.
Proof. intros Hs H. apply str_eqb_eq in H. left. rewrite H. by destruct s. Qed.

Lemma one_of_solid t l : Forall (fun s => s <> EmptyString) l -> one_of (text t) l = true -> solid t.
Proof.
  intros Hl H. apply one_of_In in H as (s & Hin & E). left. rewrite E.
  rewrite List.Forall_forall in Hl. apply Hl in Hin. by destruct s.
Qed.

Lemma operator_solid t p : table_get PRECEDENCE (text t) = Some p -> solid t.
Proof.
  intros H. left. intros E. rewrite E in H. vm_compute in H. done.
Qed.

Lemma kind_solid t k : kind t = k -> k <> KEnd -> solid t.
Proof. intros <- H. by right. Qed.

Lemma derives_solid :
  (forall d k ts n, derives d k ts n -> Forall solid ts) /\
  (forall d ts args, derives_args d ts args -> Forall solid ts).
Proof.
  apply derives_both_ind; intros;
    repeat first [ apply Forall_app_2 | apply List.Forall_cons | apply List.Forall_nil ];
    try assumption; first
    [ eapply operator_solid; eassumption
    | eapply kind_solid; [eassumption|discriminate]
    | eapply text_is_solid; [|eassumption]; discriminate
    | eapply one_of_solid; [|eassumption]; repeat constructor; discriminate ].
Qed.

Lemma lexes_ordered c ts c' :
  c <= length source -> lexes source c ts c' -> Forall solid ts -> ordered c ts c' /\ c' <= length source.
Proof.
  intros Hc H. revert Hc. induction H as [c|c l c1 ts c' Hl _ IH]; intros Hc Hs; [split; simpl; lia|].
  inversion Hs as [|? ? Hsl Hsts]; subst.
  apply lex_token_ok in Hl as [Hok ->]; [|done]. destruct Hok.
  destruct IH as [IH1 IH2]; [done|done|]. split; [|done]. simpl. split; [done|]. split; [|done].
  destruct Hsl as [Hsl|Hsl]; [|by apply lex_nonempty].
  rewrite lex_text in Hsl.
  destruct (decide (l_start l < l_end l)); [done|]. exfalso. apply Hsl.
  unfold slice. by replace (l_end l - l_start l) with 0 by lia.
Qed.

Lemma lexes_snoc c ts e c' :
  lexes source c (ts ++ [e]) c' -> exists c1, lexes source c ts c1 /\ lex_token source c1 = Ok (e, c').
Proof.
  revert c. induction ts as [|t ts IH]; simpl; intros c H; inversion H; subst.
  - inversion H5; subst. exists c. split; [constructor|done].
  - apply IH in H5 as (c2 & ? & ?). exists c2. split; [econstructor; eauto|done].
Qed.

(** The version prefix, when there is one, is [v1:]. *)
Definition version_one : bool :=
  match match_version source with Some (_, ds) => ds === "1" | None => true end.

Lemma init_inv st :
  init source = Ok st ->
  length source <= MAX_LENGTH /\ version_one = true /\
  lex_token source body_start = Ok (current st, cursor st) /\ count st = 1 /\ depth st = 0.
Proof.
  unfold init, body_start, version_one.
  destruct (MAX_LENGTH <? length source) eqn:E; bools; [done|].
  assert (Hs : forall c, (let! (l, cur, cnt) := next source c 0 in
                Ok (PState cur cnt 0 l)) = Ok st ->
              lex_token source c = Ok (current st, cursor st) /\ count st = 1 /\ depth st = 0).
  { intros c H. unfold next in H. destruct (MAX_TOKENS <? 1); [done|].
    destruct (lex_token source c) as [[l c1]|]; [|done]. injection H as <-. done. }
  destruct (match_version source) as [[n ds]|]; [|auto].
  destruct (ds === "1"); simpl; [auto|done].
Qed.

(** What it means that [source] is an expression with the tree [n]: it is short
    enough, its version is supported, and its tokens, fewer than the limit, are
    a sentence of the grammar nested at most 128 deep. *)
Definition sentence (n : node) : Prop :=
  length source <= MAX_LENGTH /\ version_one = true /\
  exists ts e c', lexes source body_start (ts ++ [e]) c' /\ kind e = KEnd /\
    length ts < MAX_TOKENS /\ derives 128 0 ts n.

(** Soundness of the whole parser, with the tokens it read. *)
Lemma parse_sentence n : parse source = Ok n -> sentence n.
Proof.
  unfold parse. destruct (init source) as [st|] eqn:Ei; [|done].
  destruct (expression source parse_fuel 0 st) as [[m st']|] eqn:Ee; [|done].
  case_bool_decide as Hk; simpl; [|done]. intros H. injection H as <-.
  apply init_inv in Ei as (Hlen & Hv & Ei & Hc & Hd0).
  apply (proj1 (parser_sound parse_fuel) _ _ _ _ 128) in Ee
    as (_ & ts & [(rest & Hl & E) [Hct Hb]] & Hd & _); [|lia|lia].
  split; [done|]. split; [done|]. exists ts, (current st'), (cursor st').
  rewrite <- E. split; [econstructor; eauto|]. split; [done|]. split; [|done].
  assert (count st <= MAX_TOKENS) by (rewrite Hc; unfold MAX_TOKENS; lia).
  rewrite Hc in Hct. specialize (Hb H). lia.
Qed.

Lemma parse_tokens n :
  parse source = Ok n ->
  exists ts e c', lexes source body_start (ts ++ [e]) c' /\ kind e = KEnd /\ derives 128 0 ts n.
Proof. intros (_ & _ & ts & e & c' & ? & ? & _ & ?)%parse_sentence. eauto 7. Qed.

Lemma parse_fits n : parse source = Ok n -> node_fits body_start n (length source).
Proof.
  intros (ts & e & c' & Hl & He & Hd)%parse_tokens.
  apply lexes_snoc in Hl as (c1 & Hl & _).
  pose proof body_start_inside as Hb.
  apply lexes_ordered in Hl as [Ho Hc1]; [|done|exact (proj1 derives_solid _ _ _ _ Hd)].
  apply (node_fits_widen body_start _ n c1); [lia|lia|].
  exact (proj1 derives_fits _ 0 ts n Hd _ _ Ho).
Qed.

Lemma parse_spans_nodup n : parse source = Ok n -> NoDup (map node_span (subnodes n)).
Proof. intros (? & ? & ? & ?)%parse_fits. by apply spans_ok_unique. Qed.

Lemma parse_well_formed n : parse source = Ok n -> well_formed n.
Proof.
  intros (ts & e & c' & _ & _ & Hd)%parse_tokens.
  exact (proj1 derives_well_formed _ _ _ _ Hd).
Qed.

(** * Termination *)

(** How many tokens may still be scanned. *)
Definition remaining (st : pstate) : nat := MAX_TOKENS - count st.

(** The computation does not get stuck, and its result satisfies [Q]. *)
Definition total {A} (r : result exn A) (Q : A -> Prop) : Prop :=
  match r with Ok a => Q a | Err Stuck => False | Err _ => True end.

Lemma total_bind {A B} (m : result exn A) (k : A -> result exn B) Q R :
  total m Q -> (forall a, Q a -> total (k a) R) -> total (let! a := m in k a) R.
Proof. destruct m as [a|[]]; simpl; auto. Qed.

Lemma total_weaken {A} (r : result exn A) (Q R : A -> Prop) :
  total r Q -> (forall a, Q a -> R a) -> total r R.
Proof. destruct r as [a|[]]; simpl; auto. Qed.

Lemma total_lex_string start quote rest : forall cur val,
  total (lex_string start quote rest cur val) (fun _ => True).
Proof.
  induction rest as [rest IH] using list_length_ind. intros cur val.
  destruct rest as [|c rest1]; simpl; [done|].
  destruct (c =? quote)%Z; [done|]. destruct (_ || _)%Z; [done|].
  destruct (negb _); [apply IH; simpl; lia|].
  destruct rest1 as [|e rest2]; [done|]. destruct (escape_value e); [apply IH; simpl; lia|].
  destruct (e =? 117)%Z.
  - destruct rest2 as [|h1 [|h2 [|h3 [|h4 rest6]]]]; try done.
    case_goal; [apply IH; simpl; lia|done].
  - destruct (e =? 120)%Z; [|done]. destruct rest2 as [|h1 [|h2 rest4]]; try done.
    case_goal; [apply IH; simpl; lia|done].
Qed.

Lemma total_lex_token c : total (lex_token source c) (fun _ => True).
Proof.
  unfold lex_token. destruct (drop _ _) as [|z r]; [done|].
  destruct (scan_number (z :: r)) as [[n v]|].
  { unfold lex_number. by repeat case_goal. }
  destruct (_ || _)%Z.
  { eapply total_bind; [apply total_lex_string|]. by intros [v p]. }
  destruct (is_name_start z); [done|]. by destruct (scan_operator (z :: r)).
Qed.

Lemma total_take st :
  total (take_token source st) (fun p => S (remaining p.2) = remaining st).
Proof.
  destruct (take_token source st) as [[t st']|e] eqn:E.
  - apply take_token_inv in E as (_ & _ & Hc & Hm & _). simpl. unfold remaining. lia.
  - revert E. unfold take_token, next. destruct (MAX_TOKENS <? S (count st)); [by intros [= <-]|].
    pose proof (total_lex_token (cursor st)) as H.
    destruct (lex_token source (cursor st)) as [[l c]|e']; [done|]. intros [= <-].
    by destruct e'.
Qed.

Lemma total_expect t st :
  total (expect source t st) (fun p => S (remaining p.2) = remaining st).
Proof. unfold expect. destruct (negb _); [done|apply total_take]. Qed.

Definition total_expression (f : nat) : Prop := forall m st, 3 * remaining st + 2 <= f ->
  total (expression source f m st) (fun p => remaining p.2 < remaining st).
Definition total_loop (f : nat) : Prop := forall m lhs st, 3 * remaining st + 1 <= f ->
  total (binary_loop source f m lhs st) (fun p => remaining p.2 <= remaining st).
Definition total_primary (f : nat) : Prop := forall st, 3 * remaining st + 1 <= f ->
  total (primary source f st) (fun p => remaining p.2 < remaining st).
Definition total_arguments (f : nat) : Prop := forall acc st, 3 * remaining st + 3 <= f ->
  total (arguments source f acc st) (fun p => remaining p.2 <= remaining st).

(** Go through one bind with the lemma [H] about its first computation. *)
Ltac step_with H :=
  eapply total_bind; [apply H|intros [? ?] ?]; cbn [fst snd] in *.

Lemma total_expression_step f :
  total_expression f -> total_loop f -> total_primary f -> total_expression (S f).
Proof.
  intros IHe IHl IHp m st Hf. simpl. destruct (128 <? S (depth st)); [done|].
  assert (Hd : forall d, remaining (set_depth d st) = remaining st) by done.
  step_with IHp; [rewrite Hd; lia|]. rewrite Hd in *. step_with IHl; [lia|].
  destruct (_ && _); [|simpl; unfold remaining in *; simpl in *; lia].
  step_with total_take. step_with IHe; [lia|]. step_with total_expect.
  step_with IHe; [lia|]. simpl. unfold remaining in *; simpl in *; lia.
Qed.

Lemma total_loop_step f : total_expression f -> total_loop f -> total_loop (S f).
Proof.
  intros IHe IHl m lhs st Hf. simpl.
  destruct (table_get _ _) as [p|]; [|simpl; lia].
  destruct (m <=? p); [|simpl; lia].
  step_with total_take. step_with IHe; [lia|].
  eapply total_weaken; [apply IHl; lia|]. simpl; lia.
Qed.

Lemma total_name t : total (name_or_variable t) (fun _ => True).
Proof. unfold name_or_variable. by repeat case_goal. Qed.

Lemma total_primary_step f :
  total_expression f -> total_arguments f -> total_primary (S f).
Proof.
  intros IHe IHa st Hf. simpl. step_with total_take.
  case_bool_decide; [simpl; lia|]. case_bool_decide; [simpl; lia|].
  case_goal. { step_with IHe; [lia|]. step_with total_expect. simpl; lia. }
  case_goal. { step_with IHe; [lia|]. simpl; lia. }
  case_bool_decide; simpl; [|done].
  case_goal; [simpl; lia|]. case_goal; [simpl; lia|].
  case_goal. { eapply total_bind; [apply total_name|]. intros; simpl; lia. }
  case_goal; [|done]. step_with total_take. step_with IHa; [lia|].
  step_with total_expect. case_goal; [done|]. simpl; lia.
Qed.

Lemma total_arguments_step f :
  total_expression f -> total_arguments f -> total_arguments (S f).
Proof.
  intros IHe IHa acc st Hf. simpl. case_goal; [simpl; lia|].
  step_with IHe; [lia|]. case_goal; [simpl; lia|].
  step_with total_take. eapply total_weaken; [apply IHa; lia|]. simpl; lia.
Qed.

Lemma parser_total f :
  total_expression f /\ total_loop f /\ total_primary f /\ total_arguments f.
Proof.
  induction f as [|f (IHe & IHl & IHp & IHa)].
  - unfold total_expression, total_loop, total_primary, total_arguments.
    split_and!; intros; lia.
  - auto using total_expression_step, total_loop_step, total_primary_step,
      total_arguments_step.
Qed.

Lemma total_init : total (init source) (fun st => remaining st <= MAX_TOKENS).
Proof.
  unfold init. destruct (MAX_LENGTH <? length source); [done|].
  assert (Hs : forall c, total (let! (l, cur, cnt) := next source c 0 in
                Ok (PState cur cnt 0 l)) (fun st => remaining st <= MAX_TOKENS)).
  { intros c. unfold next. destruct (MAX_TOKENS <? 1); [done|].
    pose proof (total_lex_token c) as H.
    destruct (lex_token source c) as [[l c1]|e']; [apply Nat.le_sub_l|by destruct e']. }
  destruct (match_version source) as [[n ds]|]; [|apply Hs].
  destruct (negb (ds === "1")); [done|apply Hs].
Qed.

End Facts.

(** * Theorems *)

(** The spans of a parsed tree are well formed: the tree lies inside the
    source, every node is non-empty, the children of a node lie in it in source
    order without overlap, and no child spans all of its parent. *)
Theorem parse_spans (source : jsstr) (n : node) :
  parse source = Ok n -> spans_ok n /\ node_end n <= length source.
Proof. intros (? & ? & ? & ?)%parse_fits. done. Qed.

(** Nodes of a parsed tree are identified by their spans: no two nodes of
    the tree have the same start and end, so comparing spans is comparing node
    identity, which is what the compiler's maps and searches are keyed by. *)
Theorem parse_spans_unique (source : jsstr) (n : node) :
  parse source = Ok n -> NoDup (map node_span (subnodes n)).
Proof. apply parse_spans_nodup. Qed.

(** C2. The parser always returns a tree or throws a billing error: the nesting
    of its methods never exceeds the model's fuel, whatever the source. *)
Theorem parse_total (source : jsstr) : parse source <> Err Stuck.
Proof.
  assert (H : total (parse source) (fun _ => True)).
  { unfold parse. eapply total_bind; [apply total_init|]. intros st Hst. cbv beta in Hst.
    eapply total_bind; [apply (proj1 (parser_total source parse_fuel)); unfold parse_fuel; lia|].
    intros [m st'] _. by case_goal. }
  intros E. by rewrite E in H.
Qed.

(** ** Witnesses *)

Definition sample_source : jsstr := js "v1: p <= 200 ? tier('a', (p + c) * 3) : fixed(0.5)".
Definition sample_tree : node :=
  match parse sample_source with Ok n => n | Err _ => NLiteral 0 0 LNull false end.

Lemma parse_spans_witness :
  spans_ok sample_tree /\ node_end sample_tree <= length sample_source.
Proof. apply (parse_spans sample_source sample_tree). vm_compute. reflexivity. Defined.

Lemma parse_spans_unique_witness : NoDup (map node_span (subnodes sample_tree)).
Proof. apply (parse_spans_unique sample_source sample_tree). vm_compute. reflexivity. Defined.
