(* ===== verification/ParserComplete.v ===== *)
(** Completeness of [BillingParser] for the grammar: a source whose tokens are a
    sentence within the limits parses to the tree of that sentence.  With
    soundness this makes the parser and the grammar agree exactly, so the
    grammar decides what a generated or edited expression means. *)
From Stdlib Require Import ZArith Lia Bool String.
From stdpp Require Import base list option.
From S2P Require Import Prelude JsString JsNumber Types Lexer Parser Grammar ParserFacts.

(** * Token shapes *)

(** The characters a number, a string or a name starts with; no operator starts
    with one of them. *)
Definition token_opens (c : Z) : bool :=
  is_digit c || (c =? 46)%Z || (c =? QUOTE)%Z || (c =? APOS)%Z || is_name_start c.

Definition token_ok (t : lexeme) : Prop :=
  kind t = KNumber \/ kind t = KString \/ kind t = KName ->
  exists c r, text t = c :: r /\ token_opens c = true.

Lemma scan_number_head c s n v :
  scan_number (c :: s) = Some (n, v) -> is_digit c || (c =? 46)%Z = true.
Proof.
  unfold scan_number. simpl. destruct (is_digit c) eqn:E; [done|]. simpl.
  by destruct (c =? 46)%Z.
Qed.

Lemma slice_head source start stop c r :
  drop start source = c :: r -> start < stop -> exists r', slice source start stop = c :: r'.
Proof.
  intros E H. unfold slice. rewrite E. destruct (stop - start) as [|k] eqn:Ek; [lia|].
  simpl. eauto.
Qed.

Lemma lex_token_shape source cur l stop : lex_token source cur = Ok (l, stop) -> token_ok l.
Proof.
  unfold lex_token, token_ok. intros H.
  set (start := (cur + length (span is_space (drop cur source)).1)%nat) in *.
  destruct (drop start source) as [|c rest] eqn:Er; [injection H as <- <-; intros [|[|]]; done|].
  destruct (scan_number (c :: rest)) as [[n v]|] eqn:En.
  { pose proof (scan_number_length _ _ _ En) as Hl. apply scan_number_head in En.
    unfold lex_number in H. res_inv H. intros _. destruct n as [|n]; [lia|].
    exists c, (take n rest). split; [done|]. unfold token_opens. by rewrite En. }
  destruct ((c =? QUOTE)%Z || (c =? APOS)%Z) eqn:Eq.
  { destruct (lex_string start c rest (S start) []) as [[v p]|] eqn:El; [|done].
    injection H as <- <-. intros _. apply lex_string_end in El.
    destruct (slice_head source start p c rest Er) as [r' Hr]; [lia|].
    exists c, r'. split; [done|]. unfold token_opens.
    apply orb_true_iff in Eq as [-> | ->]; by rewrite ?orb_true_r. }
  destruct (is_name_start c) eqn:Ec.
  { injection H as <- <-. intros _. simpl. unfold is_word at 1. rewrite Ec. simpl.
    destruct (span is_word rest) as [a b]. exists c, a. split; [done|].
    unfold token_opens. by rewrite Ec, !orb_true_r. }
  destruct (scan_operator (c :: rest)); [|done]. injection H as <- <-. intros [|[|]]; done.
Qed.

Lemma lex_token_end source cur l stop :
  lex_token source cur = Ok (l, stop) -> kind l = KEnd -> text l = [].
Proof.
  unfold lex_token. intros H.
  destruct (drop _ source) as [|c rest]; [by injection H as <- <-|].
  destruct (scan_number (c :: rest)) as [[n v]|]; [unfold lex_number in H|]; by res_inv H.
Qed.

(** A token with the text of an operator is a symbol. *)
Lemma operator_kind t s :
  token_ok t -> text t = js s ->
  match js s with c :: _ => token_opens c = false | [] => False end ->
  kind t <> KNumber /\ kind t <> KString /\ kind t <> KName.
Proof.
  intros H E Ho.
  split_and!; intros Hk; destruct H as (c & r & Hc & Hop); auto;
    rewrite E in Hc; rewrite Hc in Ho; congruence.
Qed.

(** * Fuel *)

Section Fuel.
Variable source : jsstr.

Definition stable {A} (m m' : result exn A) : Prop := m <> Err Stuck -> m' = m.

Lemma stable_refl {A} (m : result exn A) : stable m m.
Proof. by intros _. Qed.

Lemma stable_bind {A B} (m m' : result exn A) (k k' : A -> result exn B) :
  stable m m' -> (forall a, stable (k a) (k' a)) ->
  stable (let! a := m in k a) (let! a := m' in k' a).
Proof.
  intros Hm Hk H. destruct m as [a|e]; simpl in *.
  - rewrite Hm by done. simpl. by apply Hk.
  - rewrite Hm; [done|]. intros [= ->]. done.
Qed.

(** More fuel does not change a run that is not out of fuel. *)
Definition stable_at (f g : nat) : Prop :=
  (forall m st, stable (expression source f m st) (expression source g m st)) /\
  (forall m l st, stable (binary_loop source f m l st) (binary_loop source g m l st)) /\
  (forall st, stable (primary source f st) (primary source g st)) /\
  (forall acc st, stable (arguments source f acc st) (arguments source g acc st)).

Ltac stable_step :=
  match goal with
  | |- stable (if ?b then _ else _) _ => destruct b
  | |- stable (match ?o with Some _ => _ | None => _ end) _ => destruct o
  | |- stable (match _ with Ok _ => _ | Err _ => _ end) _ =>
      apply stable_bind; [|intros [? ?]]
  | |- stable _ _ => first [apply stable_refl | solve [auto]]
  end.

Lemma parser_stable_step f g : stable_at f g -> stable_at (S f) (S g).
Proof.
  intros (IHe & IHl & IHp & IHa); split_and!; intros; simpl; repeat stable_step.
Qed.

Lemma parser_stable f g : f <= g -> stable_at f g.
Proof.
  revert g. induction f as [|f IH]; intros g H; [by split_and!; intros; intros ?|].
  destruct g as [|g]; [lia|]. apply parser_stable_step, IH. lia.
Qed.

(** A run that returns [r] with all sufficient fuel. *)
Definition yields {A} (run : nat -> result exn A) (r : A) : Prop :=
  exists F, forall f, F <= f -> run f = Ok r.

Lemma yields_S {A} (run : nat -> result exn A) r :
  yields (fun f => run (S f)) r -> yields run r.
Proof.
  intros [F H]. exists (S F). intros [|f] Hf; [lia|]. apply H. lia.
Qed.

Lemma yields_ret {A} (r : A) : yields (fun _ => Ok r) r.
Proof. by exists 0. Qed.

Lemma yields_bind {A B} (m : nat -> result exn A) (k : nat -> A -> result exn B) a r :
  yields m a -> yields (fun f => k f a) r ->
  yields (fun f => let! x := m f in k f x) r.
Proof.
  intros [F HF] [G HG]. exists (Nat.max F G). intros f Hf.
  rewrite HF by lia. simpl. apply HG. lia.
Qed.

Lemma yields_expression m st r f :
  yields (fun f => expression source f m st) r -> expression source f m st <> Err Stuck ->
  expression source f m st = Ok r.
Proof.
  intros [F H] Hs. rewrite <- (H (Nat.max F f)) by lia. symmetry.
  apply (parser_stable f (Nat.max F f)); [lia|done].
Qed.

End Fuel.

(** * Reading a sentence *)

Section Complete.
Variable source : jsstr.

(** The parser can take the tokens [ts] one after the other. *)
Inductive advances : pstate -> list lexeme -> pstate -> Prop :=
| adv_nil st : advances st [] st
| adv_cons st t st1 ts st' :
    take_token source st = Ok (t, st1) -> advances st1 ts st' -> advances st (t :: ts) st'.

Lemma advances_app st ts us st' :
  advances st (ts ++ us) st' -> exists mid, advances st ts mid /\ advances mid us st'.
Proof.
  revert st. induction ts as [|t ts IH]; simpl; intros st H; [eauto using adv_nil|].
  inversion H as [|? ? st1 ? ? Ht Hs]; subst.
  apply IH in Hs as (mid & ? & ?). exists mid. eauto using adv_cons.
Qed.

Lemma advances_cons st t ts st' :
  advances st (t :: ts) st' ->
  t = current st /\ exists st1, take_token source st = Ok (t, st1) /\ advances st1 ts st'.
Proof.
  inversion 1 as [|? ? st1 ? ? Ht Hs]; subst.
  pose proof Ht as (-> & _)%take_token_inv. eauto.
Qed.

Lemma advances_nil st st' : advances st [] st' -> st' = st.
Proof. by inversion 1. Qed.

Lemma advances_depth st ts st' : advances st ts st' -> depth st' = depth st.
Proof.
  induction 1 as [|st t st1 ts st' Ht _ IH]; [done|].
  apply take_token_inv in Ht as (_ & _ & _ & _ & ?). congruence.
Qed.

Lemma take_set_depth d st t st' :
  take_token source st = Ok (t, st') ->
  take_token source (set_depth d st) = Ok (t, set_depth d st').
Proof.
  unfold take_token. simpl. destruct (next source (cursor st) (count st)) as [[[l c] k]|];
    [|done]. by intros [= <- <-].
Qed.

Lemma advances_set_depth d st ts st' :
  advances st ts st' -> advances (set_depth d st) ts (set_depth d st').
Proof. induction 1; eauto using adv_nil, adv_cons, take_set_depth. Qed.

Lemma set_depth_back d st :
  depth st = d -> set_depth (depth (set_depth (S d) st) - 1) (set_depth (S d) st) = st.
Proof. intros <-. destruct st. unfold set_depth. simpl. by rewrite Nat.sub_0_r. Qed.

(** The token after a sentence of level [m] neither continues it nor turns its
    last name into a call. *)
Definition follow (m : nat) (t : lexeme) : Prop :=
  (text t === "(") = false /\
  (forall p, table_get PRECEDENCE (text t) = Some p -> p < m) /\
  (m = 0 -> (text t === "?") = false).

Definition complete_expression (d m : nat) (ts : list lexeme) (n : node) : Prop :=
  forall st st', advances st ts st' -> Forall token_ok ts -> depth st + d <= 128 ->
  follow m (current st') -> yields (fun f => expression source f m st) (n, st').

(** A sentence of an operator level: its first operand is a primary expression,
    from which the loop builds the tree. *)
Definition complete_operands (d k : nat) (ts : list lexeme) (n : node) : Prop :=
  forall st st', advances st ts st' -> Forall token_ok ts -> depth st + d <= 129 ->
  follow (S k) (current st') ->
  exists lhs st1, yields (fun f => primary source f st) (lhs, st1) /\
    forall m r, m <= k -> yields (fun f => binary_loop source f m n st') r ->
                yields (fun f => binary_loop source f m lhs st1) r.

Definition complete_args (d : nat) (ts : list lexeme) (args : list node) : Prop :=
  forall acc st st', advances st ts st' -> Forall token_ok ts -> depth st + d <= 128 ->
  is_text st' ")" = true -> yields (fun f => arguments source f acc st) (acc ++ args, st').

Lemma follow_le m k t : follow m t -> m <= k -> follow k t.
Proof.
  intros (H1 & H2 & H3) H. split_and!; [done| |].
  - intros p Hp. apply H2 in Hp. lia.
  - intros ->. apply H3. lia.
Qed.

(** The loop stops at a token of a lower level. *)
Lemma loop_stops m n st : follow m (current st) -> yields (fun f => binary_loop source f m n st) (n, st).
Proof.
  intros (_ & H & _). apply yields_S. simpl.
  destruct (table_get PRECEDENCE (text (current st))) as [p|] eqn:E; [|apply yields_ret].
  specialize (H p eq_refl). replace (m <=? p) with false by (symmetry; apply Nat.leb_gt; lia).
  apply yields_ret.
Qed.

Lemma expression_of_operands d k m ts n :
  complete_operands (S d) k ts n -> m <= k -> complete_expression (S d) m ts n.
Proof.
  intros H Hm st st' Ha Ht Hd Hf. pose proof (advances_depth _ _ _ Ha) as Hd'.
  apply yields_S. cbn [expression].
  replace (128 <? S (depth st)) with false by (symmetry; apply Nat.ltb_ge; lia).
  destruct (H _ _ (advances_set_depth (S (depth st)) _ _ _ Ha) Ht) as (lhs & st1 & Hp & Hl);
    [simpl; lia|apply (follow_le m); [exact Hf|lia]|].
  eapply yields_bind; [exact Hp|]. cbv beta iota.
  eapply yields_bind; [apply Hl; [lia|by apply loop_stops]|]. cbv beta iota.
  replace ((m =? 0) && is_text (set_depth (S (depth st)) st') "?") with false.
  - rewrite set_depth_back by done. apply yields_ret.
  - destruct (Nat.eqb_spec m 0) as [->|]; [|done]. symmetry. by apply Hf.
Qed.

Lemma derives_deep d k ts n : derives d k ts n -> exists d', d = S d'.
Proof. induction 1; eauto. Qed.

(** ** The first token *)

Lemma text_eq t s : (text t === s) = true -> text t = js s.
Proof. apply str_eqb_eq. Qed.

(** A sentence is not empty and does not start with a closing parenthesis. *)
Lemma derives_first d k ts n :
  derives d k ts n -> Forall token_ok ts -> exists t us, ts = t :: us /\ (text t === ")") = false.
Proof.
  assert (Hn : forall t, token_ok t -> kind t = KNumber \/ kind t = KString \/ kind t = KName ->
    (text t === ")") = false).
  { intros t Ht Hk. apply str_eqb_neq. intros E.
    destruct (operator_kind t ")" Ht E) as (? & ? & ?); [done|]. tauto. }
  induction 1; intros Ht; rewrite ?Forall_app in Ht;
    try (destruct Ht as [Ht Ht']); try (apply list.Forall_cons in Ht as [Ht ?]);
    try (edestruct IHderives as (t0 & us & -> & ?); [eassumption|]);
    try (edestruct IHderives1 as (t0 & us & -> & ?); [eassumption|]);
    try (by eexists _, _; split; [reflexivity|auto]).
  - eexists _, _. split; [done|]. apply text_eq in H. by rewrite H.
  - eexists _, _. split; [done|]. apply one_of_In in H as (s & Hs & ->).
    repeat destruct Hs as [<-|Hs]; done.
Qed.

(** ** Primary expressions *)

Ltac not_kind :=
  match goal with
  | |- context [bool_decide (kind ?t = ?k)] =>
      rewrite (bool_decide_eq_false_2 (kind t = k)) by congruence
  end.

Lemma primary_paren d o ts c n :
  (text o === "(") = true -> (text c === ")") = true ->
  complete_expression d 0 ts n ->
  complete_operands (S d) 7 (o :: ts ++ [c]) (with_span (l_start o) (l_end c) n).
Proof.
  intros Ho Hc He st st' Ha Ht Hd Hf.
  apply list.Forall_cons in Ht as [Hto Ht]. apply Forall_app in Ht as [Ht _].
  apply text_eq in Ho. destruct (operator_kind o "(" Hto Ho) as (K1 & K2 & K3); [done|].
  pose proof (advances_depth _ _ _ Ha) as Hd'.
  apply advances_cons in Ha as (-> & st1 & E1 & Ha).
  pose proof E1 as (_ & _ & _ & _ & Hd1)%take_token_inv.
  apply advances_app in Ha as (st2 & Ha & Hb).
  apply advances_cons in Hb as (-> & st3 & E3 & Hb). apply advances_nil in Hb as ->.
  exists (with_span (l_start (current st)) (l_end (current st2)) n), st3. split; [|done].
  apply yields_S. cbn [primary]. rewrite E1. cbv beta iota.
  do 2 not_kind. rewrite Ho. change (js "(" === "(") with true. cbv iota.
  apply text_eq in Hc.
  eapply yields_bind; [apply He; [exact Ha|done|lia|]|].
  { unfold follow. rewrite Hc. by vm_compute. }
  cbv beta iota. unfold expect, is_text. rewrite Hc. simpl. rewrite E3. apply yields_ret.
Qed.

Lemma primary_leaf d t n :
  (token_ok t -> forall f st st1, take_token source st = Ok (t, st1) ->
     is_text st1 "(" = false -> primary source (S f) st = Ok (n, st1)) ->
  complete_operands d 7 [t] n.
Proof.
  intros H st st' Ha Ht Hd Hf. apply list.Forall_cons in Ht as [Ht _].
  apply advances_cons in Ha as (_ & st1 & E1 & Ha). apply advances_nil in Ha as ->.
  exists n, st1. split; [|done]. exists 1. intros [|f] ?; [lia|].
  apply H; [done|done|apply Hf].
Qed.

(** The names of the language are pairwise different and no operator: the tests
    before the one for a table are false. *)
Ltac name_cases H :=
  apply one_of_In in H as (? & H & ->);
  repeat (destruct H as [<-|H]; [done|]); done.

Lemma name_not_operator t s :
  token_ok t -> kind t = KName -> In s ["("; "!"; "+"; "-"]%string -> (text t === s) = false.
Proof.
  intros Ht Hk Hs. apply str_eqb_neq. intros E.
  destruct (operator_kind t s Ht E) as (_ & _ & K); [|done].
  repeat (destruct Hs as [<-|Hs]; [done|]). done.
Qed.

Lemma primary_name t f st st1 :
  token_ok t -> kind t = KName -> take_token source st = Ok (t, st1) ->
  (text t === "nil") = false -> one_of (text t) ["true"; "false"]%string = false ->
  is_text st1 "(" = false ->
  primary source (S f) st = let! n := name_or_variable t in Ok (n, st1).
Proof.
  intros Ht Hk E1 H1 H2 H3. cbn [primary]. rewrite E1. cbv beta iota.
  do 2 not_kind. rewrite (name_not_operator t "(") by (auto; left; auto).
  replace (one_of (text t) ["!"; "+"; "-"]%string) with false.
  2: { symmetry. unfold one_of. simpl.
       by rewrite !(name_not_operator t) by (auto; simpl; auto). }
  rewrite bool_decide_eq_true_2 by done. simpl. by rewrite H1, H2, H3.
Qed.

Lemma leaves_complete d t :
  (kind t = KNumber -> complete_operands d 7 [t]
     (NLiteral (l_start t) (l_end t) (literal_of t) (integer t))) /\
  (kind t = KString -> complete_operands d 7 [t]
     (NLiteral (l_start t) (l_end t) (literal_of t) false)) /\
  (kind t = KName -> (text t === "nil") = true -> complete_operands d 7 [t]
     (NLiteral (l_start t) (l_end t) LNull false)) /\
  (kind t = KName -> one_of (text t) ["true"; "false"]%string = true ->
     complete_operands d 7 [t] (NLiteral (l_start t) (l_end t) (LBool (text t === "true")) false)).
Proof.
  split_and!; intros Hk; [| |intros Hx..]; apply primary_leaf; intros Ht f st st1 E1 _;
    cbn [primary]; rewrite E1; cbv beta iota.
  - by rewrite bool_decide_eq_true_2.
  - not_kind. by rewrite bool_decide_eq_true_2.
  - apply text_eq in Hx. do 2 not_kind. rewrite Hx, bool_decide_eq_true_2 by done. done.
  - do 2 not_kind. rewrite (bool_decide_eq_true_2 _ Hk).
    apply one_of_In in Hx as (s & Hs & Es). rewrite Es.
    by destruct Hs as [<-|[<-|[]]].
Qed.

Lemma variables_complete d t :
  kind t = KName ->
  (one_of (text t) CONTEXT_VARIABLES = true -> complete_operands d 7 [t]
     (NContext (l_start t) (l_end t) (text t))) /\
  (one_of (text t) TOKEN_VARIABLES = true -> complete_operands d 7 [t]
     (NVariable (l_start t) (l_end t) (text t))).
Proof.
  intros Hk. split; intros Hx; apply primary_leaf; intros Ht f st st1 E1 Ho;
    (rewrite (primary_name t f st st1); [|done|done|done| | |done]); unfold name_or_variable.
  all: name_cases Hx.
Qed.

Lemma primary_unary d o ts n :
  one_of (text o) ["!"; "+"; "-"]%string = true -> complete_expression d 7 ts n ->
  complete_operands (S d) 7 (o :: ts) (NUnary (l_start o) (node_end n) (text o) n).
Proof.
  intros Ho He st st' Ha Ht Hd Hf.
  apply list.Forall_cons in Ht as [Hto Ht].
  apply advances_cons in Ha as (-> & st1 & E1 & Ha).
  pose proof E1 as (_ & _ & _ & _ & Hd1)%take_token_inv.
  assert (exists s, text (current st) = js s /\ In s ["!"; "+"; "-"]%string) as (s & Es & Hs).
  { apply one_of_In in Ho as (s & ? & ?). eauto. }
  destruct (operator_kind (current st) s Hto Es) as (K1 & K2 & K3).
  { by destruct Hs as [<-|[<-|[<-|[]]]]. }
  eexists _, st'. split; [|done].
  apply yields_S. cbn [primary]. rewrite E1. cbv beta iota. do 2 not_kind.
  replace (text (current st) === "(") with false
    by (rewrite Es; by destruct Hs as [<-|[<-|[<-|[]]]]).
  rewrite Ho. eapply yields_bind; [apply He; [exact Ha|done|lia|]|apply yields_ret].
  destruct Hf as (F1 & _ & _). split; [done|]. split; [|done].
  intros p Hp. apply PRECEDENCE_range in Hp. lia.
Qed.

(** ** Calls *)

Lemma arguments_stop acc st :
  is_text st ")" = true -> yields (fun f => arguments source f acc st) (acc, st).
Proof. intros H. apply yields_S. simpl. rewrite H. apply yields_ret. Qed.

(** One argument: the loop continues when a comma follows it. *)
Lemma arguments_one d ts a acc st st1 r :
  derives d 0 ts a -> complete_expression d 0 ts a ->
  advances st ts st1 -> Forall token_ok ts -> depth st + d <= 128 ->
  (is_text st1 ")" = true /\ r = (acc ++ [a], st1) \/
   exists st2, is_text st1 "," = true /\ take_token source st1 = Ok (current st1, st2) /\
     yields (fun f => arguments source f (acc ++ [a]) st2) r) ->
  yields (fun f => arguments source f acc st) r.
Proof.
  intros HD He Ha Ht Hd H.
  destruct (derives_first _ _ _ _ HD Ht) as (t & us & -> & Hfirst).
  pose proof Ha as (-> & _)%advances_cons.
  apply yields_S. cbn [arguments]. unfold is_text at 1. rewrite Hfirst.
  eapply yields_bind; [apply He; [exact Ha|done|done|]|]; cbv beta iota.
  - destruct H as [[Hx _]|(st2 & Hx & _)]; apply text_eq in Hx; unfold follow; rewrite Hx;
      by vm_compute.
  - destruct H as [[Hx ->]|(st2 & Hx & E2 & Hr)].
    + unfold is_text. apply text_eq in Hx. rewrite Hx.
      change (negb (js ")" === ",")) with true. apply yields_ret.
    + rewrite Hx. simpl. by rewrite E2.
Qed.

Lemma primary_call d t o ts c args arity :
  kind t = KName -> table_get BILLING_FUNCTIONS (text t) = Some arity ->
  (text o === "(") = true -> complete_args d ts args -> length args = arity ->
  (text c === ")") = true ->
  complete_operands (S d) 7 (t :: o :: ts ++ [c]) (NCall (l_start t) (l_end c) (text t) args).
Proof.
  intros Hk Hf Ho Hargs Hlen Hc st st' Ha Ht Hd _.
  rewrite !list.Forall_cons, Forall_app in Ht. destruct Ht as (Htt & _ & Hts & _).
  apply advances_cons in Ha as (_ & st1 & E1 & Ha).
  pose proof E1 as (_ & _ & _ & _ & Hd1)%take_token_inv.
  apply advances_cons in Ha as (-> & st2 & E2 & Ha).
  pose proof E2 as (_ & _ & _ & _ & Hd2)%take_token_inv.
  apply advances_app in Ha as (st3 & Ha & Hb).
  apply advances_cons in Hb as (-> & st4 & E4 & Hb). apply advances_nil in Hb as ->.
  eexists _, st4. split; [|done].
  apply yields_S. cbn [primary]. rewrite E1. cbv beta iota. do 2 not_kind.
  rewrite (name_not_operator t "(") by (auto; left; auto).
  replace (one_of (text t) ["!"; "+"; "-"]%string) with false.
  2: { symmetry. unfold one_of. simpl.
       by rewrite !(name_not_operator t) by (auto; simpl; auto). }
  rewrite bool_decide_eq_true_2 by done. cbn [negb].
  assert (Hn : (text t === "nil") = false /\ one_of (text t) ["true"; "false"]%string = false).
  { revert Hf. unfold table_get, BILLING_FUNCTIONS.
    repeat match goal with
    | |- context [str_eqb (text t) (js ?s)] =>
        destruct (str_eqb_reflect (text t) (js s)) as [->|_]; [by vm_compute|]
    end. done. }
  destruct Hn as [-> ->]. unfold is_text at 1. rewrite Ho. cbn [negb].
  rewrite Hf, E2. cbv beta iota.
  eapply yields_bind; [apply Hargs; [exact Ha|done|lia|done]|]. cbv beta iota.
  unfold expect, is_text. rewrite Hc, E4. simpl. rewrite Hlen, Nat.eqb_refl. apply yields_ret.
Qed.

(** ** Operators and conditionals *)

Lemma operands_binary d k tl op tr l r :
  1 <= k -> table_get PRECEDENCE (text op) = Some k ->
  complete_operands (S d) k tl l -> complete_expression d (S k) tr r ->
  complete_operands (S d) k (tl ++ op :: tr)
    (NBinary (node_start l) (node_end r) (text op) l r).
Proof.
  intros Hk Hop Hl Hr st st' Ha Ht Hd Hf.
  apply Forall_app in Ht as [Htl Ht]. apply list.Forall_cons in Ht as [_ Htr].
  apply advances_app in Ha as (stA & Ha & Hb).
  pose proof (advances_depth _ _ _ Ha) as HdA.
  apply advances_cons in Hb as (-> & st2 & E2 & Hb).
  pose proof E2 as (_ & _ & _ & _ & Hd2)%take_token_inv.
  destruct (Hl st stA Ha Htl Hd) as (lhs & st1 & Hp & Hloop).
  { split; [|split; [|done]].
    - apply str_eqb_neq. intros E. rewrite E in Hop. by vm_compute in Hop.
    - intros p Hp. rewrite Hop in Hp. injection Hp as <-. lia. }
  exists lhs, st1. split; [done|]. intros m res Hm Hres. apply Hloop; [done|].
  apply yields_S. cbn [binary_loop]. rewrite Hop.
  replace (m <=? k) with true by (symmetry; by apply Nat.leb_le).
  rewrite E2. cbv beta iota. rewrite Nat.add_1_r.
  eapply yields_bind; [apply Hr; [exact Hb|done|lia|done]|exact Hres].
Qed.

Lemma expression_conditional d tc q ty col tn c y n :
  complete_operands (S d) 1 tc c -> (text q === "?") = true ->
  complete_expression d 0 ty y -> (text col === ":") = true ->
  complete_expression d 0 tn n ->
  complete_expression (S d) 0 (tc ++ q :: ty ++ col :: tn)
    (NConditional (node_start c) (node_end n) c y n).
Proof.
  intros Hc Hq Hy Hcol Hn st st' Ha Ht Hd Hf.
  rewrite Forall_app, list.Forall_cons, Forall_app, list.Forall_cons in Ht.
  destruct Ht as (Htc & _ & Hty & _ & Htn).
  apply (advances_set_depth (S (depth st))) in Ha as Ha'.
  pose proof (advances_depth _ _ _ Ha) as Hd'.
  apply advances_app in Ha' as (st1 & Hac & Ha'). pose proof (advances_depth _ _ _ Hac) as Hd1.
  apply advances_cons in Ha' as (-> & st2 & E2 & Ha').
  pose proof E2 as (_ & _ & _ & _ & Hd2)%take_token_inv.
  apply advances_app in Ha' as (st3 & Hay & Ha'). pose proof (advances_depth _ _ _ Hay) as Hd3.
  apply advances_cons in Ha' as (-> & st4 & E4 & Han).
  pose proof E4 as (_ & _ & _ & _ & Hd4)%take_token_inv. simpl in Hd1.
  apply text_eq in Hq as Eq. apply text_eq in Hcol as Ecol.
  assert (Hstop : follow 0 (current st3)) by (unfold follow; rewrite Ecol; by vm_compute).
  assert (Hstop' : follow 2 (current st1)) by (unfold follow; rewrite Eq; by vm_compute).
  destruct (Hc _ _ Hac Htc) as (lhs & stl & Hp & Hl); [simpl; lia|done|].
  apply yields_S. cbn [expression].
  replace (128 <? S (depth st)) with false by (symmetry; apply Nat.ltb_ge; lia).
  eapply yields_bind; [exact Hp|]. cbv beta iota.
  eapply yields_bind; [apply Hl; [lia|]|].
  { apply yields_S. cbn [binary_loop]. rewrite Eq. apply yields_ret. }
  cbv beta iota. unfold is_text at 1. rewrite Hq. cbn [Nat.eqb andb]. rewrite E2. cbv beta iota.
  eapply yields_bind; [apply Hy; [exact Hay|done|lia|done]|]. cbv beta iota.
  unfold expect at 1, is_text at 1. rewrite Hcol. cbn [negb]. rewrite E4. cbv beta iota.
  eapply yields_bind; [apply Hn; [exact Han|done|lia|done]|]. cbv beta iota.
  rewrite set_depth_back by done. apply yields_ret.
Qed.

Lemma parser_complete :
  (forall d k ts n, derives d k ts n ->
     complete_expression d k ts n /\ (1 <= k -> complete_operands d k ts n)) /\
  (forall d ts args, derives_args d ts args -> complete_args d ts args).
Proof.
  assert (Hexp : forall d k ts n, complete_operands (S d) k ts n ->
    complete_expression (S d) k ts n /\ (1 <= k -> complete_operands (S d) k ts n)).
  { intros d k ts n H. split; [by eapply expression_of_operands|done]. }
  apply derives_both_ind; intros;
    repeat match goal with H : _ /\ _ |- _ => destruct H end.
  - split; [|lia]. apply expression_conditional; auto.
  - apply Hexp. destruct (PRECEDENCE_range _ _ e) as [? _]. apply operands_binary; auto.
  - destruct (derives_deep _ _ _ _ d0) as [d' ->].
    split; [eapply expression_of_operands; [apply H0; lia|lia]|].
    intros Hk st st' Ha Ht Hd Hf. destruct (H0 ltac:(lia) st st' Ha Ht Hd) as (lhs & st1 & ? & Hl);
      [apply (follow_le (S k)); [done|lia]|]. exists lhs, st1. split; [done|].
    intros m r Hm. apply Hl. lia.
  - by apply Hexp, leaves_complete.
  - by apply Hexp, leaves_complete.
  - by apply Hexp, primary_paren.
  - by apply Hexp, primary_unary.
  - by apply Hexp, leaves_complete.
  - by apply Hexp, leaves_complete.
  - by apply Hexp, variables_complete.
  - by apply Hexp, variables_complete.
  - by eapply Hexp, primary_call.
  - intros acc st st' Ha _ _ Hs. apply advances_nil in Ha as ->. rewrite app_nil_r.
    by apply arguments_stop.
  - intros acc st st' Ha Ht Hd Hs. eapply arguments_one; eauto.
  - intros acc st st' Ha Ht Hd Hs. rewrite Forall_app, list.Forall_cons in Ht.
    destruct Ht as (Hts & _ & Htr).
    apply advances_app in Ha as (st1 & Ha & Hb). pose proof (advances_depth _ _ _ Ha).
    apply advances_cons in Hb as (-> & st2 & E2 & Hb).
    pose proof E2 as (_ & _ & _ & _ & Hd2)%take_token_inv.
    eapply arguments_one; eauto. right. exists st2. split; [done|]. split; [done|].
    specialize (H0 (acc ++ [a]) st2 st'). rewrite <- app_assoc in H0. apply H0; auto; lia.
Qed.

(** ** The whole source *)

Lemma lexes_shapes c ts c' : lexes source c ts c' -> Forall token_ok ts.
Proof. induction 1; constructor; [by eapply lex_token_shape|done]. Qed.

(** Tokens that are scanned one after the other can be taken, up to the limit. *)
Lemma lexes_advances ts : forall st us c',
  lexes source (cursor st) us c' -> forall e, current st :: us = ts ++ [e] ->
  count st + length ts <= MAX_TOKENS ->
  exists st', advances st ts st' /\ current st' = e.
Proof.
  induction ts as [|t ts IH]; intros st us c' Hl e E Hc; simpl in *.
  - injection E as E ->. exists st. split; [constructor|done].
  - injection E as <- ->. destruct (ts ++ [e]) as [|u us] eqn:Eu; [by destruct ts|].
    inversion Hl as [|? ? c1 ? ? Ht Hl']; subst.
    assert (Htk : take_token source st = Ok (current st, PState c1 (S (count st)) (depth st) u)).
    { unfold take_token, next. rewrite Ht.
      replace (MAX_TOKENS <? S (count st)) with false by (symmetry; apply Nat.ltb_ge; lia).
      done. }
    destruct (IH (PState c1 (S (count st)) (depth st) u) us c' Hl' e) as (st' & ? & ?);
      [done|simpl; lia|].
    exists st'. eauto using adv_cons.
Qed.

Lemma init_complete t c1 :
  length source <= MAX_LENGTH -> version_one source = true ->
  lex_token source (body_start source) = Ok (t, c1) ->
  init source = Ok (PState c1 1 0 t).
Proof.
  intros Hlen Hv Ht. unfold init, version_one, body_start in *.
  replace (MAX_LENGTH <? length source) with false by (symmetry; by apply Nat.ltb_ge).
  assert (Hs : forall c, lex_token source c = Ok (t, c1) ->
    (let! (l, cur, cnt) := next source c 0 in Ok (PState cur cnt 0 l)) = Ok (PState c1 1 0 t)).
  { intros c E. unfold next. by rewrite E. }
  destruct (match_version source) as [[k ds]|]; [|auto].
  destruct (ds === "1"); [simpl; auto|done].
Qed.

Lemma sentence_parses n : sentence source n -> parse source = Ok n.
Proof.
  intros (Hlen & Hv & ts & e & c' & Hl & He & Hc & Hd).
  pose proof (lexes_shapes _ _ _ Hl) as Hok. apply Forall_app in Hok as [Hok _].
  remember (ts ++ [e]) as us eqn:E. inversion Hl as [|? t c1 us' ? Ht Hl']; subst us; [by destruct ts|].
  rename H0 into E.
  pose proof (init_complete t c1 Hlen Hv Ht) as Hi.
  destruct (lexes_advances ts (PState c1 1 0 t) us' c' Hl' e E) as (st' & Ha & Hcur);
    [simpl; lia|].
  pose proof (proj1 (proj1 parser_complete _ _ _ _ Hd) _ _ Ha Hok) as Hy.
  assert (Hend : text e = []).
  { destruct (lexes_snoc source (body_start source) ts e c') as (c2 & _ & Hlast);
      [done|]. by eapply lex_token_end. }
  unfold parse. rewrite Hi.
  rewrite (yields_expression source 0 _ (n, st') parse_fuel); [by rewrite Hcur, He| |].
  - apply Hy; [simpl; lia|]. rewrite Hcur. unfold follow. rewrite Hend. by vm_compute.
  - intros Hs. pose proof (proj1 (parser_total source parse_fuel) 0 (PState c1 1 0 t)) as Htot.
    rewrite Hs in Htot. apply Htot. unfold parse_fuel, remaining. cbn [count]. lia.
Qed.

End Complete.

(** * Theorems *)

(** C1. The parser accepts exactly the sentences of the grammar: it returns a
    tree if and only if the source is at most 65536 characters long, has no
    version prefix or the prefix v1:, and scans to fewer than 10000 tokens,
    followed by the end of the source, that the grammar derives from the start
    symbol with that tree, with the precedence and left associativity of the
    operator table and nested at most 128 deep. *)
Theorem parse_exact (source : jsstr) (n : node) :
  parse source = Ok n <-> sentence source n.
Proof. split; [apply parse_sentence|apply sentence_parses]. Qed.
