(* ===== verification/Pieces.v ===== *)
(** Expression texts written token by token: how a text assembled from names,
    operators, numbers and strings scans, and which tree the parser makes of it.
    The generators of expressions are proved correct through this file, without
    running the parser on their output. *)
From Stdlib Require Import ZArith Lia Bool String.
From stdpp Require Import base list option.
From S2P Require Import Prelude JsString JsNumber Types Lexer Parser Grammar ParserFacts ParserComplete.

#[local] Open Scope nat_scope.

(** * Pieces of text *)

(** A token as it is written: a number is its text and the value it reads as, a
    string is the text between the quotes and the value it reads as. *)
Inductive piece :=
| PName (s : jsstr)
| PSymbol (s : jsstr)
| PNumber (t : jsstr) (v : number)
| PString (raw val : jsstr).

(** A piece after [gap] spaces. *)
Record word := Word { gap : nat; w_piece : piece }.

Definition piece_text (p : piece) : jsstr :=
  match p with
  | PName s | PSymbol s => s
  | PNumber t _ => t
  | PString raw _ => QUOTE :: raw ++ [QUOTE]
  end.

Definition SPACE : Z := 32%Z.
Definition word_text (w : word) : jsstr := replicate (gap w) SPACE ++ piece_text (w_piece w).
Definition words_text (ws : list word) : jsstr := concat (map word_text ws).

(** The token a piece is read as, when it starts at position [s]. *)
Definition integer_text (t : jsstr) : bool :=
  negb (existsb (fun c => (c =? 46) || (c =? 101) || (c =? 69))%Z t).

Definition token_at (p : piece) (s : nat) : lexeme :=
  let e := s + length (piece_text p) in
  match p with
  | PName x => Lexeme KName x s e None false
  | PSymbol x => Lexeme KSymbol x s e None false
  | PNumber t v => Lexeme KNumber t s e (Some (LNumber v)) (integer_text t)
  | PString _ v => Lexeme KString (piece_text p) s e (Some (LString v)) false
  end.

(** The tokens of a text that starts at position [c]. *)
Fixpoint place (c : nat) (ws : list word) : list lexeme :=
  match ws with
  | [] => []
  | w :: ws' => token_at (w_piece w) (c + gap w) :: place (c + length (word_text w)) ws'
  end.

(** ** When a piece is read back *)

Definition is_operator (s : jsstr) : bool :=
  one_of s (TWO_CHAR_OPERATORS ++ ONE_CHAR_OPERATORS).

Definition number_reads (t : jsstr) (v : number) : bool :=
  match scan_number t with
  | Some (n, w) =>
      (n =? length t) && bool_decide (w = v) && is_finite v
      && (negb (integer_text t) || is_safe_integer v)
  | None => false
  end.

Definition string_reads (raw val : jsstr) : Prop := forall start cur rest acc,
  lex_string start QUOTE (raw ++ QUOTE :: rest) cur acc = Ok (acc ++ val, S (cur + length raw)).

Definition name_text (s : jsstr) : bool :=
  match s with c :: s' => is_name_start c && forallb is_word s' | [] => false end.

Definition piece_ok (p : piece) : Prop :=
  match p with
  | PName s => name_text s = true
  | PSymbol s => is_operator s = true
  | PNumber t v => number_reads t v = true
  | PString raw val => string_reads raw val
  end.

(** The character after a piece does not continue it. *)
Definition stops_at (p : piece) (next : option Z) : bool :=
  match next with
  | None => true
  | Some c =>
      match p with
      | PName _ => negb (is_word c)
      | PNumber _ _ => negb (is_word c) && negb (c =? 46)%Z
      | PSymbol s => negb ((c =? 61)%Z && one_of s ["<"; ">"; "!"]%string)
      | PString _ _ => true
      end
  end.

Fixpoint spaced (ws : list word) (next : option Z) : bool :=
  match ws with
  | [] => true
  | w :: ws' =>
      stops_at (w_piece w) (match words_text ws' with c :: _ => Some c | [] => next end)
      && spaced ws' next
  end.

(** * Scanning *)

Lemma words_text_app a b : words_text (a ++ b) = words_text a ++ words_text b.
Proof. unfold words_text. by rewrite map_app, concat_app. Qed.

Lemma place_app c a b : place c (a ++ b) = place c a ++ place (c + length (words_text a)) b.
Proof.
  revert c. induction a as [|w a IH]; intros c; simpl.
  - by rewrite Nat.add_0_r.
  - rewrite IH. unfold words_text. simpl. rewrite length_app. by rewrite Nat.add_assoc.
Qed.

Lemma length_place c ws : length (place c ws) = length ws.
Proof. revert c. induction ws as [|w ws IH]; intros c; simpl; [done|]. by rewrite IH. Qed.

Lemma spaced_app a b next :
  spaced (a ++ b) next =
  spaced a (match words_text b with c :: _ => Some c | [] => next end) && spaced b next.
Proof.
  induction a as [|w a IH]; simpl; [done|].
  rewrite IH, words_text_app, andb_assoc. f_equal. f_equal.
  by destruct (words_text a).
Qed.

Lemma span_all (p : Z -> bool) a r :
  Forall (fun c => p c = true) a -> match r with c :: _ => p c = false | [] => True end ->
  span p (a ++ r) = (a, r).
Proof.
  induction 1 as [|c a Hc _ IH]; intros Hr; simpl.
  - destruct r as [|c r]; [done|]. simpl. by rewrite Hr.
  - by rewrite Hc, (IH Hr).
Qed.

Definition next_char (rest : jsstr) : option Z := head rest.

Lemma span_replicate n r : match r with c :: _ => is_space c = false | [] => True end ->
  span is_space (replicate n SPACE ++ r) = (replicate n SPACE, r).
Proof.
  intros H. apply span_all; [|done]. induction n; simpl; constructor; auto.
Qed.

Lemma span_nil (p : Z -> bool) l a : span p l = (a, []) -> a = l.
Proof. intros H. rewrite <- (span_app p l), H. simpl. by rewrite app_nil_r. Qed.

(** A scan that used up all of its text ends there in a longer text. *)
Definition number_end (r : jsstr) : Prop :=
  match r with
  | c :: _ => is_digit c = false /\ (c =? 46)%Z = false /\ ((c =? 101) || (c =? 69))%Z = false
  | [] => True
  end.

Lemma span_digits_end s a b r : number_end r -> span is_digit s = (a, b) ->
  span is_digit (s ++ r) = (a, b ++ r).
Proof.
  intros Hr E. rewrite <- (span_app is_digit s), E. cbn [fst snd]. rewrite <- app_assoc.
  apply span_all.
  - pose proof (span_forall is_digit s) as H. by rewrite E in H.
  - destruct b as [|c b]; simpl.
    + destruct r; [done|]. apply Hr.
    + apply (span_head is_digit s c b). by rewrite E.
Qed.

Lemma scan_exponent_end s r : number_end r -> (scan_exponent s).1.2 = length s ->
  (scan_exponent (s ++ r)).1 = (scan_exponent s).1.
Proof.
  intros Hr H. destruct s as [|c s1].
  { simpl. destruct r as [|c r]; [done|]. destruct Hr as (_ & _ & E). simpl. by rewrite E. }
  unfold scan_exponent in *. simpl app. cbv iota beta in *.
  destruct ((c =? 101) || (c =? 69))%Z; [|done].
  destruct s1 as [|d s'].
  { simpl in H. lia. }
  simpl app. cbv iota beta in *.
  change (d :: s' ++ r) with ((d :: s') ++ r).
  clear H. destruct (d =? 45)%Z; [|destruct (d =? 43)%Z].
  all: match goal with |- context [span is_digit (?s ++ _)] =>
         destruct (span is_digit s) as [ds s3] eqn:E; rewrite (span_digits_end _ _ _ _ Hr E);
         by destruct ds
       end.
Qed.

Lemma scan_number_end t v r : number_end r ->
  scan_number t = Some (length t, v) -> scan_number (t ++ r) = Some (length t, v).
Proof.
  intros Hr. unfold scan_number. pose proof (span_length is_digit t) as Hl.
  destruct (span is_digit t) as [ip s1] eqn:E. rewrite (span_digits_end _ _ _ _ Hr E).
  cbn [fst snd] in Hl.
  set (tail := fun s : jsstr => match s with
    | [] => ([], 0, s)
    | c :: s' => if (c =? 46)%Z then let '(f, r) := span is_digit s' in (f, 1, r) else ([], 0, s)
    end).
  change (match s1 with [] => _ | c :: s' => _ end) with (tail s1).
  change (match s1 ++ r with [] => _ | c :: s' => _ end) with (tail (s1 ++ r)).
  assert (Ht : exists f k s2, tail s1 = (f, k, s2) /\ tail (s1 ++ r) = (f, k, s2 ++ r) /\
    length s1 = k + length f + length s2).
  { unfold tail. destruct s1 as [|c s'].
    - exists [], 0, []. split; [done|]. split; [|done]. destruct r as [|c r]; [done|].
      destruct Hr as (_ & Hc & _). simpl. by rewrite Hc.
    - simpl app. cbv iota. destruct (c =? 46)%Z.
      + pose proof (span_length is_digit s') as Hl'.
        destruct (span is_digit s') as [f s2] eqn:E'. rewrite (span_digits_end _ _ _ _ Hr E').
        exists f, 1, s2. simpl in *. split; [done|]. split; [done|lia].
      + exists [], 0, (c :: s'). done. }
  destruct Ht as (f & k & s2 & -> & -> & Hl2).
  pose proof (scan_exponent_end s2 r Hr) as He.
  destruct (scan_exponent s2) as [[ex n] s3]. destruct (scan_exponent (s2 ++ r)) as [[ex' n'] s3'].
  cbn [fst snd] in He.
  destruct ip, f; try done; intros H; injection H as Hn Hv;
    (assert (Hn' : n = length s2) by (simpl in *; lia)); specialize (He Hn');
    injection He as -> ->; (apply f_equal, f_equal2; [simpl in *; lia|exact Hv]).
Qed.

(** ** One piece *)

Lemma lex_operator s r : is_operator s = true -> stops_at (PSymbol s) (head r) = true ->
  scan_operator (s ++ r) = Some s.
Proof.
  unfold is_operator. rewrite one_of_In. intros (o & Hin & ->) Hr. unfold scan_operator.
  destruct r as [|c r].
  - rewrite app_nil_r. repeat (destruct Hin as [<-|Hin]; [vm_compute; reflexivity|]). destruct Hin.
  - simpl in Hr. rewrite Z.eqb_sym in Hr.
    repeat (destruct Hin as [<-|Hin];
      [revert Hr; cbv -[Z.eqb]; destruct (Z.eqb 61 c); intros Hr;
       first [discriminate Hr | reflexivity]|]). destruct Hin.
Qed.

Lemma name_start_facts c : is_name_start c = true ->
  is_digit c = false /\ (c =? 46)%Z = false /\ is_space c = false /\ (c =? QUOTE)%Z = false /\ (c =? APOS)%Z = false.
Proof.
  unfold is_name_start, is_alpha, is_digit, is_space, QUOTE, APOS. lia.
Qed.

Lemma scan_number_none c s : is_digit c = false -> (c =? 46)%Z = false -> scan_number (c :: s) = None.
Proof. intros H1 H2. unfold scan_number. simpl. rewrite H1. by rewrite H2. Qed.

(** The first character of a piece is not white space. *)
Lemma piece_head p : piece_ok p -> exists c s, piece_text p = c :: s /\ is_space c = false.
Proof.
  destruct p as [s|s|t v|raw val]; simpl; intros H.
  - destruct s as [|c s']; [done|]. apply andb_true_iff in H as [H _].
    apply name_start_facts in H as (_ & _ & ? & _). eauto.
  - unfold is_operator in H. apply one_of_In in H as (o & Hin & ->).
    repeat (destruct Hin as [<-|Hin]; [eexists _, _; split; vm_compute; reflexivity|]).
    destruct Hin.
  - unfold number_reads in H. destruct t as [|c t]; [done|]. exists c, t. split; [done|].
    destruct (scan_number (c :: t)) as [[n w]|] eqn:E; [|done].
    apply scan_number_head in E. unfold is_digit in E. unfold is_space. lia.
  - by eexists _, _.
Qed.

(** The scanner after the white space. *)
Definition lex_rest (source : jsstr) (start : nat) (rest : jsstr) : result exn (lexeme * nat) :=
  match rest with
  | [] => Ok (Lexeme KEnd [] start start None false, start)
  | c :: rest1 =>
      match scan_number rest with
      | Some (n, v) => lex_number rest start n v
      | None =>
          if ((c =? QUOTE) || (c =? APOS))%Z then
            let! (v, stop) := lex_string start c rest1 (S start) [] in
            Ok (Lexeme KString (slice source start stop) start stop (Some (LString v)) false, stop)
          else if is_name_start c then
            let name := (span is_word rest).1 in
            Ok (Lexeme KName name start (start + length name) None false, start + length name)
          else
            match scan_operator rest with
            | None => throw unsupported [c] (Some start)
            | Some op => Ok (Lexeme KSymbol op start (start + length op) None false, start + length op)
            end
      end
  end.

Lemma drop_skip (source : jsstr) c g t :
  drop c source = replicate g SPACE ++ t -> drop (c + g) source = t.
Proof.
  intros H. rewrite <- drop_drop, H, drop_app_length'; [done|]. by rewrite length_replicate.
Qed.

Lemma lex_skip source c g t :
  drop c source = replicate g SPACE ++ t ->
  match t with z :: _ => is_space z = false | [] => True end ->
  lex_token source c = lex_rest source (c + g) t.
Proof.
  intros H Ht. unfold lex_token. rewrite H, span_replicate by done. cbn [fst].
  rewrite length_replicate, (drop_skip source c g t H). done.
Qed.

Lemma lex_name source start s r :
  name_text s = true -> stops_at (PName s) (head r) = true ->
  lex_rest source start (s ++ r) = Ok (token_at (PName s) start, start + length s).
Proof.
  intros Hn Hs. unfold token_at. cbn [piece_text].
  destruct s as [|c s']; [done|]. simpl in Hn. apply andb_true_iff in Hn as [Hc Hw].
  apply name_start_facts in Hc as Hf. destruct Hf as (F1 & F2 & F3 & F4 & F5).
  unfold lex_rest. simpl app. cbv iota beta. rewrite scan_number_none, F4, F5, Hc by done.
  cbn [orb]. change (c :: s' ++ r) with ((c :: s') ++ r). rewrite span_all; [done| |].
  - constructor; [unfold is_word; by rewrite Hc|].
    apply List.Forall_forall. by apply forallb_forall.
  - destruct r as [|d r]; [done|]. simpl in Hs. by apply negb_true_iff in Hs.
Qed.

Lemma lex_symbol source start s r :
  is_operator s = true -> stops_at (PSymbol s) (head r) = true ->
  lex_rest source start (s ++ r) = Ok (token_at (PSymbol s) start, start + length s).
Proof.
  intros Ho Hs. pose proof (lex_operator s r Ho) as Hop. unfold token_at. cbn [piece_text].
  assert (exists c s', s = c :: s' /\ is_digit c = false /\ (c =? 46)%Z = false /\
    ((c =? QUOTE) || (c =? APOS))%Z = false /\ is_name_start c = false) as (c & s' & E & F1 & F2 & F3 & F4).
  { unfold is_operator in Ho. apply one_of_In in Ho as (o & Hin & ->).
    repeat (destruct Hin as [<-|Hin]; [eexists _, _; split_and!; vm_compute; reflexivity|]).
    destruct Hin. }
  rewrite E in *. unfold lex_rest. simpl app. cbv iota beta. simpl app in Hop.
  rewrite scan_number_none, F3, F4, Hop; done.
Qed.

Lemma lex_number_piece source start t v r :
  number_reads t v = true -> stops_at (PNumber t v) (head r) = true ->
  lex_rest source start (t ++ r) = Ok (token_at (PNumber t v) start, start + length t).
Proof.
  unfold number_reads. destruct (scan_number t) as [[n w]|] eqn:E; [|done].
  intros H Hs. bools. subst. pose proof (scan_number_length _ _ _ E) as Hl.
  apply (scan_number_end _ _ r) in E.
  2: { destruct r as [|c r]; [done|]. simpl in Hs. apply andb_true_iff in Hs as [H1' H2'].
       apply negb_true_iff in H1', H2'. simpl. unfold is_word, is_name_start, is_alpha, is_digit in *. lia. }
  unfold lex_rest, token_at. destruct t as [|c t]; [simpl in Hl; lia|].
  simpl app in *. cbv iota beta. rewrite E. unfold lex_number.
  change (c :: t ++ r) with ((c :: t) ++ r). rewrite take_app_length. fold (integer_text (c :: t)).
  rewrite H1. simpl negb. destruct (integer_text (c :: t)) eqn:Ei; [|done].
  simpl in H0. by rewrite H0.
Qed.

Lemma lex_string_piece source start raw val r :
  drop start source = QUOTE :: raw ++ QUOTE :: r -> string_reads raw val ->
  lex_rest source start (QUOTE :: raw ++ QUOTE :: r) =
  Ok (token_at (PString raw val) start, start + length (piece_text (PString raw val))).
Proof.
  intros Hd Hs. unfold lex_rest, token_at. rewrite scan_number_none by done.
  change ((QUOTE =? QUOTE) || _)%Z with true. cbv iota. rewrite Hs. cbn [piece_text].
  assert (El : S (S start + length raw) = start + length (QUOTE :: raw ++ [QUOTE]))
    by (simpl; rewrite length_app; simpl; lia).
  rewrite El. rewrite (slice_prefix source start _ r); [done|].
  rewrite Hd. simpl. by rewrite <- app_assoc.
Qed.

Lemma lex_piece source c g p r :
  drop c source = replicate g SPACE ++ piece_text p ++ r -> piece_ok p ->
  stops_at p (head r) = true ->
  lex_token source c = Ok (token_at p (c + g), c + g + length (piece_text p)).
Proof.
  intros Hd Hp Hs. destruct (piece_head p Hp) as (z & s & Ez & Hz).
  rewrite (lex_skip source c g (piece_text p ++ r)); [|done|by rewrite Ez].
  destruct p as [x|x|t v|raw val]; cbn [piece_ok piece_text] in *.
  - by apply lex_name.
  - by apply lex_symbol.
  - by apply lex_number_piece.
  - apply drop_skip in Hd. rewrite <- app_comm_cons, <- app_assoc in *.
    by apply lex_string_piece.
Qed.

(** ** A whole text *)

Lemma lexes_words source ws : forall c r,
  drop c source = words_text ws ++ r -> Forall (fun w => piece_ok (w_piece w)) ws ->
  spaced ws (head r) = true ->
  lexes source c (place c ws) (c + length (words_text ws)).
Proof.
  induction ws as [|w ws IH]; intros c r Hd Hok Hs; simpl.
  - rewrite Nat.add_0_r. constructor.
  - apply list.Forall_cons in Hok as [Hw Hok]. simpl in Hs. apply andb_true_iff in Hs as [Hst Hs].
    unfold words_text in Hd |- *. cbn [map concat] in Hd |- *. fold (words_text ws) in *.
    rewrite <- app_assoc in Hd. unfold word_text in Hd at 1. rewrite <- app_assoc in Hd.
    econstructor.
    + eapply lex_piece; [exact Hd|done|].
      destruct (words_text ws) as [|z zs]; [exact Hst|exact Hst].
    + assert (El : c + gap w + length (piece_text (w_piece w)) = c + length (word_text w))
        by (unfold word_text; rewrite length_app, length_replicate; lia).
      rewrite El, length_app, Nat.add_assoc. apply (IH _ r); [|done|done].
      rewrite app_assoc in Hd. fold (word_text w) in Hd.
      rewrite <- drop_drop, Hd. by rewrite drop_app_length.
Qed.

(** * Trees without positions *)

Fixpoint erase (n : node) : node :=
  match n with
  | NLiteral _ _ v i => NLiteral 0 0 v i
  | NVariable _ _ x => NVariable 0 0 x
  | NContext _ _ x => NContext 0 0 x
  | NCall _ _ f args => NCall 0 0 f (map erase args)
  | NUnary _ _ op a => NUnary 0 0 op (erase a)
  | NBinary _ _ op l r => NBinary 0 0 op (erase l) (erase r)
  | NConditional _ _ c y n => NConditional 0 0 (erase c) (erase y) (erase n)
  end.

Lemma erase_with_span s e n : erase (with_span s e n) = erase n.
Proof. by destruct n. Qed.

Lemma children_erase n : children (erase n) = map erase (children n).
Proof. by destruct n. Qed.

Lemma derives_deeper :
  (forall d k ts n, derives d k ts n -> forall d', d <= d' -> derives d' k ts n) /\
  (forall d ts args, derives_args d ts args -> forall d', d <= d' -> derives_args d' ts args).
Proof.
  apply derives_both_ind; intros;
    try (destruct d' as [|d']; [lia|]); try (by econstructor; eauto with lia).
  all: try (apply D_conditional; auto with lia).
  all: try (eapply D_binary; eauto with lia).
Qed.

(** [says d k ws e]: wherever the words [ws] stand, their tokens are a sentence
    of level [k], nested at most [d] deep, whose tree is [e] up to positions. *)
Definition says (d k : nat) (ws : list word) (e : node) : Prop :=
  forall c, exists n, derives d k (place c ws) n /\ erase n = e.
Definition says_args (d : nat) (ws : list word) (es : list node) : Prop :=
  forall c, exists ns, derives_args d (place c ws) ns /\ map erase ns = es.

Lemma says_deeper d d' k ws e : says d k ws e -> d <= d' -> says d' k ws e.
Proof. intros H Hd c. destruct (H c) as (n & Hn & E). exists n. split; [|done]. by eapply derives_deeper. Qed.

Lemma says_level d k j ws e : says d k ws e -> j <= k <= 7 -> says d j ws e.
Proof. intros H Hj c. destruct (H c) as (n & Hn & E). exists n. split; [|done]. by eapply derives_weaken. Qed.

Definition num_node (v : number) (t : jsstr) : node := NLiteral 0 0 (LNumber v) (integer_text t).
Definition str_node (s : jsstr) : node := NLiteral 0 0 (LString s) false.

Lemma says_number d g t v : says (S d) 7 [Word g (PNumber t v)] (num_node v t).
Proof. intros c. eexists. split; [by apply D_number|done]. Qed.

Lemma says_string d g raw v : says (S d) 7 [Word g (PString raw v)] (str_node v).
Proof. intros c. eexists. split; [by apply D_string|done]. Qed.

Lemma says_variable d g x : one_of x TOKEN_VARIABLES = true ->
  says (S d) 7 [Word g (PName x)] (NVariable 0 0 x).
Proof. intros H c. eexists. split; [by apply D_variable|done]. Qed.

Lemma says_binary d k l g op r el er :
  table_get PRECEDENCE op = Some k -> says (S d) k l el -> says d (S k) r er ->
  says (S d) k (l ++ Word g (PSymbol op) :: r) (NBinary 0 0 op el er).
Proof.
  intros Hop Hl Hr c. rewrite place_app. cbn [place].
  destruct (Hl c) as (nl & Dl & <-).
  edestruct Hr as (nr & Dr & <-). eexists. split; [eapply D_binary; [exact Hop|exact Dl|exact Dr]|].
  done.
Qed.

Lemma says_conditional d c y n g1 g2 ec ey en :
  says (S d) 1 c ec -> says d 0 y ey -> says d 0 n en ->
  says (S d) 0 (c ++ Word g1 (PSymbol (js "?")) :: y ++ Word g2 (PSymbol (js ":")) :: n)
    (NConditional 0 0 ec ey en).
Proof.
  intros Hc Hy Hn p. rewrite place_app. cbn [place]. rewrite place_app. cbn [place].
  destruct (Hc p) as (nc & Dc & <-). edestruct Hy as (ny & Dy & <-). edestruct Hn as (nn & Dn & <-).
  eexists. split; [eapply D_conditional; [exact Dc|done|exact Dy|done|exact Dn]|]. done.
Qed.

Lemma says_call d g f args arity es g1 g2 :
  table_get BILLING_FUNCTIONS f = Some arity -> says_args d args es -> length es = arity ->
  says (S d) 7 (Word g (PName f) :: Word g1 (PSymbol (js "(")) :: args ++ [Word g2 (PSymbol (js ")"))])
    (NCall 0 0 f es).
Proof.
  intros Hf Ha Hl c. cbn [place]. rewrite place_app. cbn [place].
  edestruct Ha as (ns & Dn & <-). rewrite length_map in Hl.
  eexists. split; [eapply D_call; [done|exact Hf|done|exact Dn|done|done]|]. done.
Qed.

Lemma says_args_one d ws e : says d 0 ws e -> says_args d ws [e].
Proof.
  intros H c. destruct (H c) as (n & D & <-). exists [n]. split; [by apply A_last|done].
Qed.

Lemma says_args_cons d ws g rest e es :
  says d 0 ws e -> says_args d rest es ->
  says_args d (ws ++ Word g (PSymbol (js ",")) :: rest) (e :: es).
Proof.
  intros H Hr c. rewrite place_app. cbn [place]. destruct (H c) as (n & D & <-).
  edestruct Hr as (ns & Dn & <-). eexists (n :: _).
  split; [apply A_more; [exact D|done|exact Dn]|done].
Qed.

(** * Parsing what was written *)

Definition text_ok (ws : list word) : Prop :=
  Forall (fun w => piece_ok (w_piece w)) ws /\ spaced ws None = true.

Lemma match_version_none c s : is_space c = false -> (c =? 118)%Z = false ->
  match_version (c :: s) = None.
Proof. intros H1 H2. unfold match_version. simpl. by rewrite H1, H2. Qed.

Lemma words_parse ws e :
  text_ok ws -> says 128 0 ws e ->
  length (words_text ws) <= MAX_LENGTH -> length ws < MAX_TOKENS ->
  match_version (words_text ws) = None ->
  exists n, parse (words_text ws) = Ok n /\ erase n = e.
Proof.
  intros [Hok Hsp] Hs Hlen Hcnt Hv. set (source := words_text ws) in *.
  assert (Hb : body_start source = 0) by (unfold body_start; by rewrite Hv).
  destruct (Hs 0) as (n & D & E). exists n. split; [|done].
  apply sentence_parses. split; [done|]. split; [unfold version_one; by rewrite Hv|].
  pose proof (lexes_words source ws 0 [] ltac:(by rewrite drop_0, app_nil_r) Hok Hsp) as Hl.
  exists (place 0 ws), (Lexeme KEnd [] (length source) (length source) None false), (length source).
  rewrite Hb. split; [|rewrite length_place; done].
  eapply lexes_app; [exact Hl|]. simpl. fold source. econstructor; [|constructor].
  unfold lex_token. by rewrite drop_all, Nat.add_0_r, drop_all.
Qed.

(** * Texts *)

(** The characters that may follow a complete expression in a longer text. *)
Definition closing (next : option Z) : Prop :=
  next = None \/ next = Some 32%Z \/ next = Some 41%Z \/ next = Some 44%Z.

Record writes (d k g : nat) (t : jsstr) (ws : list word) (e : node) : Prop := {
  writes_text : words_text ws = replicate g SPACE ++ t;
  writes_ok : Forall (fun w => piece_ok (w_piece w)) ws;
  writes_spaced : forall next, closing next -> spaced ws next = true;
  writes_says : says d k ws e;
}.

(** [written d k t e]: the text [t], after any number of spaces, is an expression
    of level [k], nested at most [d] deep, with the tree [e] up to positions. *)
Definition written (d k : nat) (t : jsstr) (e : node) : Prop :=
  forall g, exists ws, writes d k g t ws e.

Lemma written_deeper d d' k t e : written d k t e -> d <= d' -> written d' k t e.
Proof.
  intros H Hd g. destruct (H g) as (ws & [? ? ? Hs]). exists ws.
  constructor; [done..|]. by eapply says_deeper.
Qed.

Lemma written_level d k j t e : written d k t e -> j <= k <= 7 -> written d j t e.
Proof.
  intros H Hj g. destruct (H g) as (ws & [? ? ? Hs]). exists ws.
  constructor; [done..|]. by eapply says_level.
Qed.

Lemma closing_stops p next : closing next -> piece_ok p -> stops_at p next = true.
Proof.
  intros H Hp. destruct p; destruct H as [->|[->|[->| ->]]]; try done; simpl.
  all: by destruct (one_of s ["<"; ">"; "!"]%string).
Qed.

(** A text of one piece. *)
Lemma written_piece d k p e :
  piece_ok p -> (forall g, says d k [Word g p] e) -> written d k (piece_text p) e.
Proof.
  intros Hp Hs g. exists [Word g p]. constructor; [|by repeat constructor| |apply Hs].
  - unfold words_text. simpl. by rewrite app_nil_r.
  - intros next Hn. simpl. rewrite closing_stops; done.
Qed.

Lemma written_number d t v : number_reads t v = true -> written (S d) 7 t (num_node v t).
Proof. intros H. apply (written_piece _ _ (PNumber t v)); [done|]. intros g. apply says_number. Qed.

Lemma written_string d raw v :
  string_reads raw v -> written (S d) 7 ([QUOTE] ++ raw ++ [QUOTE]) (str_node v).
Proof. intros H. apply (written_piece _ _ (PString raw v)); [done|]. intros g. apply says_string. Qed.

Lemma written_variable d x : one_of x TOKEN_VARIABLES = true -> written (S d) 7 x (NVariable 0 0 x).
Proof.
  intros H. apply (written_piece _ _ (PName x)); [|intros g; by apply says_variable].
  apply one_of_In in H as (s & Hs & ->). repeat (destruct Hs as [<-|Hs]; [done|]). destruct Hs.
Qed.

(** Two texts with an operator between them. *)
Lemma spaced_operator a g op b next :
  (forall next, closing next -> spaced a next = true) -> is_operator op = true ->
  spaced b next = true -> words_text b = SPACE :: tl (words_text b) ->
  spaced (a ++ Word (S g) (PSymbol op) :: b) next = true.
Proof.
  intros Ha Hop Hb Eb. rewrite spaced_app. cbn [spaced w_piece]. rewrite Hb.
  apply andb_true_iff. split; [apply Ha; right; by left|]. rewrite Eb.
  rewrite closing_stops; [done|right; by left|done].
Qed.

Lemma operator_is op k : table_get PRECEDENCE op = Some k -> is_operator op = true.
Proof.
  unfold table_get, PRECEDENCE. repeat (match goal with
    | |- context [str_eqb op (js ?s)] => destruct (str_eqb_reflect op (js s)) as [->|_]; [done|]
    end). done.
Qed.

Lemma words_text_cons w ws : words_text (w :: ws) = word_text w ++ words_text ws.
Proof. done. Qed.

(** Normalize a text of words and literal separators. *)
Ltac flat_text :=
  repeat (rewrite words_text_app || rewrite words_text_cons); unfold word_text; cbn [gap w_piece piece_text];
  repeat match goal with H : words_text _ = _ |- _ => rewrite H end;
  cbn [replicate app]; rewrite <- ?app_assoc; cbn [app].

Lemma written_binary d k op tl el tr er :
  table_get PRECEDENCE op = Some k -> written (S d) k tl el -> written d (S k) tr er ->
  written (S d) k (tl ++ [SPACE] ++ op ++ [SPACE] ++ tr) (NBinary 0 0 op el er).
Proof.
  intros Hop Hl Hr g. destruct (Hl g) as (wl & [Tl Ol Sl Yl]). destruct (Hr 1) as (wr & [Tr Or Sr Yr]).
  exists (wl ++ Word 1 (PSymbol op) :: wr). constructor.
  - flat_text. done.
  - apply Forall_app_2; [done|]. constructor; [by eapply operator_is|done].
  - intros next Hn. apply spaced_operator; [done|by eapply operator_is|by apply Sr|by rewrite Tr].
  - by apply says_binary.
Qed.

Lemma written_conditional d tc ec ty ey tn en :
  written (S d) 1 tc ec -> written d 0 ty ey -> written d 0 tn en ->
  written (S d) 0 (tc ++ js " ? " ++ ty ++ js " : " ++ tn) (NConditional 0 0 ec ey en).
Proof.
  intros Hc Hy Hn g. destruct (Hc g) as (wc & [Tc Oc Sc Yc]).
  destruct (Hy 1) as (wy & [Ty Oy Sy Yy]). destruct (Hn 1) as (wn & [Tn On Sn Yn]).
  exists (wc ++ Word 1 (PSymbol (js "?")) :: wy ++ Word 1 (PSymbol (js ":")) :: wn). constructor.
  - flat_text. done.
  - repeat (apply Forall_app_2 || constructor); done.
  - intros next Hx. apply spaced_operator; [done|done| |by rewrite words_text_app, Ty].
    apply spaced_operator; [done|done|by apply Sn|by rewrite Tn].
  - by apply says_conditional.
Qed.

Lemma paren_stops next : stops_at (PSymbol (js "(")) next = true.
Proof. destruct next as [c|]; [|done]. cbn [stops_at]. by destruct (c =? 61)%Z. Qed.

(** A call, with its arguments written without leading space. *)
Lemma writes_call d g f args targs es :
  table_get BILLING_FUNCTIONS f = Some (length es) ->
  Forall (fun w => piece_ok (w_piece w)) args -> words_text args = targs ->
  spaced args (Some 41%Z) = true -> says_args d args es ->
  writes (S d) 7 g (f ++ js "(" ++ targs ++ js ")")
    (Word g (PName f) :: Word 0 (PSymbol (js "(")) :: args ++ [Word 0 (PSymbol (js ")"))])
    (NCall 0 0 f es).
Proof.
  intros Hf Ho Ht Hs Hy.
  assert (Hn : name_text f = true).
  { revert Hf. unfold table_get, BILLING_FUNCTIONS. repeat (match goal with
    | |- context [str_eqb f (js ?s)] => destruct (str_eqb_reflect f (js s)) as [->|_]; [done|]
    end). done. }
  constructor.
  - flat_text. done.
  - constructor; [done|]. constructor; [done|]. apply Forall_app_2; [done|]. by repeat constructor.
  - intros next Hx. cbn [spaced w_piece]. rewrite spaced_app. cbn [spaced w_piece].
    change (match words_text [Word 0 (PSymbol (js ")"))] with c :: _ => Some c | [] => next end)
      with (Some 41%Z).
    rewrite Hs, (closing_stops _ next) by done.
    rewrite paren_stops. done.
  - by eapply says_call.
Qed.

Lemma written_call1 d f ta ea :
  table_get BILLING_FUNCTIONS f = Some 1 -> written d 0 ta ea ->
  written (S d) 7 (f ++ js "(" ++ ta ++ js ")") (NCall 0 0 f [ea]).
Proof.
  intros Hf Ha g. destruct (Ha 0) as (wa & [Ta Oa Sa Ya]). eexists.
  apply (writes_call d g f wa); [done|done|done| |by apply says_args_one].
  apply Sa. right. right. by left.
Qed.

Lemma written_call2 d f ta ea tb eb :
  table_get BILLING_FUNCTIONS f = Some 2 -> written d 0 ta ea -> written d 0 tb eb ->
  written (S d) 7 (f ++ js "(" ++ (ta ++ js ", " ++ tb) ++ js ")") (NCall 0 0 f [ea; eb]).
Proof.
  intros Hf Ha Hb g. destruct (Ha 0) as (wa & [Ta Oa Sa Ya]). destruct (Hb 1) as (wb & [Tb Ob Sb Yb]).
  eexists. apply (writes_call d g f (wa ++ Word 0 (PSymbol (js ",")) :: wb)); [done| | | |].
  - apply Forall_app_2; [done|]. by constructor.
  - flat_text. done.
  - rewrite spaced_app. cbn [spaced w_piece]. rewrite Sb by (right; right; by left).
    change (match words_text (Word 0 (PSymbol (js ",")) :: wb) with c :: _ => Some c | [] => _ end)
      with (Some 44%Z).
    rewrite Sa by (right; right; by right). by rewrite Tb.
  - by apply says_args_cons, says_args_one.
Qed.

(** A chain of one operator, which associates to the left. *)
Lemma written_infix d k op t e ts es :
  table_get PRECEDENCE op = Some k -> written (S d) k t e ->
  Forall2 (written d (S k)) ts es ->
  written (S d) k (join ([SPACE] ++ op ++ [SPACE]) (t :: ts)) (fold_left (NBinary 0 0 op) es e).
Proof.
  intros Hop Ht Hts. revert t e Ht. induction Hts as [|u eu ts es Hu _ IH]; intros t e Ht; [done|].
  simpl fold_left. specialize (IH _ _ (written_binary _ _ _ _ _ _ _ Hop Ht Hu)).
  replace (join _ (t :: u :: ts)) with
    (join ([SPACE] ++ op ++ [SPACE]) ((t ++ [SPACE] ++ op ++ [SPACE] ++ u) :: ts)); [done|].
  cbn [join]. destruct ts; by rewrite <- !app_assoc.
Qed.

(** ** Parsing a written text *)

Lemma words_short ws : Forall (fun w => piece_ok (w_piece w)) ws -> length ws <= length (words_text ws).
Proof.
  induction 1 as [|w ws Hw _ IH]; simpl; [lia|].
  rewrite words_text_cons, length_app. unfold word_text. rewrite length_app.
  destruct (piece_head _ Hw) as (c & s & -> & _). simpl. lia.
Qed.

Lemma written_parse t e :
  written 128 0 t e -> length t < MAX_TOKENS ->
  (match t with c :: _ => negb (is_space c) && negb (c =? 118)%Z | [] => false end) = true ->
  exists n, parse t = Ok n /\ erase n = e.
Proof.
  intros H Hl Hv. destruct (H 0) as (ws & [T O S Y]). simpl in T.
  rewrite <- T. apply words_parse; rewrite ?T; [|done| | |].
  - split; [done|]. apply S. by left.
  - unfold MAX_TOKENS, MAX_LENGTH in *. lia.
  - pose proof (words_short _ O). rewrite T in *. lia.
  - destruct t as [|c t]; [done|]. apply andb_true_iff in Hv as [H1 H2].
    apply negb_true_iff in H1, H2. by apply match_version_none.
Qed.
