(* ===== verification/TypeCheck.v ===== *)
(** [checkExpressionTypes] of [pricing/lib/billing-expression/parser.ts]: the
    static types of sub-expressions, kept in a map keyed by node identity and
    filled in post-order; and the recursive inference it computes. *)
From Stdlib Require Import ZArith Lia Bool String.
From stdpp Require Import base list option gmap.
From S2P Require Import Prelude JsString JsNumber Types Lexer Parser Grammar ParserFacts.

(** * Types *)

Inductive expression_type := TNumber | TString | TBoolean | TNil | TDynamic.

#[export] Instance expression_type_eq_dec : EqDecision expression_type.
Proof. solve_decision. Defined.

Definition type_name (t : expression_type) : string :=
  match t with
  | TNumber => "number" | TString => "string" | TBoolean => "boolean"
  | TNil => "nil" | TDynamic => "dynamic"
  end.

(** [Map<ExpressionNode, ExpressionType>], keyed by spans. *)
Abbreviation type_map := (gmap (nat * nat) expression_type).

Definition types_get (types : type_map) (n : node) : option expression_type :=
  types !! node_span n.

(** * The rule for one node *)

Section Rule.
(** [types.get]. *)
Variable get : node -> option expression_type.

Definition requireType (child : node) (expected : expression_type) : result exn unit :=
  if negb (bool_decide (get child = Some expected))
     && negb (bool_decide (get child = Some TDynamic))
  then throw type_error (js (type_name expected) ++ js " operand") (Some (node_start child))
  else Ok tt.

(** [requireType(node.args[i], expected)]. *)
Definition requireArg (args : list node) (i : nat) (expected : expression_type)
  : result exn unit :=
  match args !! i with
  | Some a => requireType a expected
  | None => Err (NativeError [])
  end.

Fixpoint requireAll (args : list node) (expected : expression_type) : result exn unit :=
  match args with
  | [] => Ok tt
  | a :: args' => let! _ := requireType a expected in requireAll args' expected
  end.

Definition literal_type (v : literal_value) : expression_type :=
  match v with
  | LNull => TNil | LNumber _ => TNumber | LString _ => TString | LBool _ => TBoolean
  end.

Definition binary_type (op : jsstr) (l r : node) : result exn expression_type :=
  if one_of op ["&&"; "||"]%string then
    let! _ := requireType l TBoolean in
    let! _ := requireType r TBoolean in Ok TBoolean
  else if one_of op ["=="; "!="; "<"; "<="; ">"; ">="]%string then Ok TBoolean
  else if (op === "+") && bool_decide (get l = Some TString)
          && bool_decide (get r = Some TString) then Ok TString
  else
    let! _ := requireType l TNumber in
    let! _ := requireType r TNumber in Ok TNumber.

Definition call_type (name : jsstr) (args : list node) : result exn expression_type :=
  let! _ := if one_of name (["param"; "header"; "u"]%string ++ TIME_FUNCTIONS)
            then requireArg args 0 TString else Ok tt in
  if name === "header" then Ok TString
  else if name === "has" then
    let! _ := requireArg args 1 TString in Ok TBoolean
  else if name === "tier" then
    let! _ := requireArg args 0 TString in
    let! _ := requireArg args 1 TNumber in Ok TNumber
  else if one_of name TIME_FUNCTIONS then Ok TNumber
  else if one_of name ["fixed"; "min"; "max"; "abs"; "ceil"; "floor"]%string then
    let! _ := requireAll args TNumber in Ok TNumber
  else Ok TDynamic.

Definition type_rule (n : node) : result exn expression_type :=
  match n with
  | NLiteral _ _ v _ => Ok (literal_type v)
  | NVariable _ _ _ => Ok TNumber
  | NContext _ _ _ => Ok TDynamic
  | NUnary _ _ op a =>
      let t := if op === "!" then TBoolean else TNumber in
      let! _ := requireType a t in Ok t
  | NConditional _ _ c y n =>
      let! _ := requireType c TBoolean in
      if bool_decide (get y = get n)
      then Ok (match get y with Some t => t | None => TDynamic end)
      else Ok TDynamic
  | NBinary _ _ op l r => binary_type op l r
  | NCall _ _ name args => call_type name args
  end.
End Rule.

(** * The traversal *)

Definition type_visitor (n : node) (types : type_map) : result exn type_map :=
  let! t := type_rule (types_get types) n in Ok (<[node_span n := t]> types).

Definition checkExpressionTypes (ast : node) : result exn unit :=
  let! _ := visitExpression type_visitor ast ∅ in Ok tt.

(** * The inference it computes *)

(** The types of [children n], found by identity. *)
Fixpoint assoc_type (l : list (node * expression_type)) (n : node)
  : option expression_type :=
  match l with
  | [] => None
  | (c, t) :: l' => if bool_decide (node_span c = node_span n) then Some t else assoc_type l' n
  end.

Definition infer : node -> result exn expression_type :=
  node_fold (fun n kids =>
    let! ts := sequence kids in
    type_rule (assoc_type (zip (children n) ts)) n).

(** * Facts *)

Lemma infer_unfold n :
  infer n = let! ts := sequence (map infer (children n)) in
            type_rule (assoc_type (zip (children n) ts)) n.
Proof. unfold infer at 1. by rewrite node_fold_unfold. Qed.

Section Congruence.
Variables get get' : node -> option expression_type.

Lemma requireType_ext c t : get c = get' c -> requireType get c t = requireType get' c t.
Proof. intros E. unfold requireType. by rewrite E. Qed.

Lemma requireAll_ext args t :
  Forall (fun c => get c = get' c) args -> requireAll get args t = requireAll get' args t.
Proof.
  induction 1 as [|a args Ha _ IH]; simpl; [done|].
  by rewrite (requireType_ext a t Ha), IH.
Qed.

Lemma requireArg_ext args i t :
  Forall (fun c => get c = get' c) args -> requireArg get args i t = requireArg get' args i t.
Proof.
  intros H. unfold requireArg. destruct (args !! i) as [a|] eqn:E; [|done].
  apply requireType_ext. exact (Forall_lookup_1 _ _ _ _ H E).
Qed.

(** The rule only looks at the types of the children. *)
Lemma type_rule_ext n :
  Forall (fun c => get c = get' c) (children n) -> type_rule get n = type_rule get' n.
Proof.
  intros H. destruct n; simpl in *; try done.
  - unfold call_type. by rewrite !(requireArg_ext args) , (requireAll_ext args) by done.
  - apply list.Forall_cons in H as [E _]. by rewrite (requireType_ext n) by done.
  - rewrite !list.Forall_cons in H. destruct H as (E1 & E2 & _). unfold binary_type.
    by rewrite !(requireType_ext n1), !(requireType_ext n2), E1, E2 by done.
  - rewrite !list.Forall_cons in H. destruct H as (E1 & E2 & E3 & _).
    by rewrite (requireType_ext n1), E2, E3 by done.
Qed.
End Congruence.

(** Spans of a forest. *)
Definition forest_spans (cs : list node) : list (nat * nat) :=
  map node_span (concat (map subnodes cs)).

Lemma forest_spans_cons c cs :
  forest_spans (c :: cs) = map node_span (subnodes c) ++ forest_spans cs.
Proof. unfold forest_spans. simpl. by rewrite map_app. Qed.

Lemma forest_spans_in c cs : c ∈ cs -> node_span c ∈ forest_spans cs.
Proof.
  intros H. apply list_elem_of_In, in_map, in_concat.
  exists (subnodes c). split; [by apply in_map, list_elem_of_In|].
  apply list_elem_of_In, subnodes_self.
Qed.

Lemma subnodes_spans n :
  map node_span (subnodes n) = node_span n :: forest_spans (children n).
Proof. by rewrite subnodes_unfold. Qed.

Lemma assoc_type_zip cs ts c t :
  NoDup (forest_spans cs) -> (exists i, cs !! i = Some c /\ ts !! i = Some t) ->
  assoc_type (zip cs ts) c = Some t.
Proof.
  revert ts. induction cs as [|c' cs IH]; intros ts Hn (i & Hc & Ht); [done|].
  destruct ts as [|t' ts]; [done|]. rewrite forest_spans_cons in Hn.
  apply list.NoDup_app in Hn as (_ & Hd & Hn). simpl.
  destruct i as [|i]; simpl in *.
  - injection Hc as ->. injection Ht as ->. by rewrite bool_decide_eq_true_2.
  - rewrite bool_decide_eq_false_2; [eauto|]. intros E.
    eapply (Hd (node_span c')).
    + apply list_elem_of_In, in_map, list_elem_of_In, subnodes_self.
    + rewrite E. apply forest_spans_in. by eapply list_elem_of_lookup_2.
Qed.

(** What the traversal of a tree (or of a forest) leaves in the map. *)
Definition typed_tree (n : node) : Prop := forall d m,
  NoDup (map node_span (subnodes n)) -> d + node_height n <= 257 ->
  match infer n with
  | Ok t => exists m', visit_rec type_visitor n d m = Ok m' /\ m' !! node_span n = Some t /\
              forall k, k ∉ map node_span (subnodes n) -> m' !! k = m !! k
  | Err e => visit_rec type_visitor n d m = Err e
  end.

Lemma typed_forest cs : Forall typed_tree cs -> forall d m,
  NoDup (forest_spans cs) -> d + max_list (map node_height cs) <= 257 ->
  match sequence (map infer cs) with
  | Ok ts => exists m', visit_all (map (visit_rec type_visitor) cs) d m = Ok m' /\
               Forall2 (fun c t => m' !! node_span c = Some t) cs ts /\
               forall k, k ∉ forest_spans cs -> m' !! k = m !! k
  | Err e => visit_all (map (visit_rec type_visitor) cs) d m = Err e
  end.
Proof.
  induction 1 as [|c cs Hc _ IH]; intros d m Hn Hd; simpl in *.
  - exists m. split; [done|]. split; [constructor|done].
  - rewrite forest_spans_cons in Hn. apply list.NoDup_app in Hn as (Hn1 & Hdis & Hn2).
    specialize (Hc d m Hn1 ltac:(lia)).
    destruct (infer c) as [t|e]; simpl; [|by rewrite Hc].
    destruct Hc as (m1 & -> & Ht & Hf1). specialize (IH d m1 Hn2 ltac:(lia)).
    destruct (sequence (map infer cs)) as [ts|e]; [|done].
    destruct IH as (m2 & -> & Hts & Hf2). exists m2. split; [done|]. split.
    + constructor; [|done]. rewrite Hf2; [done|]. apply Hdis.
      apply list_elem_of_In, in_map, list_elem_of_In, subnodes_self.
    + intros k Hk. rewrite forest_spans_cons, not_elem_of_app in Hk. destruct Hk.
      rewrite Hf2, Hf1; done.
Qed.

Lemma typed_tree_all n : typed_tree n.
Proof.
  induction n as [n IH] using node_children_ind. intros d m Hn Hd.
  rewrite node_height_unfold in Hd. rewrite infer_unfold, visit_rec_unfold.
  destruct (256 <? d) eqn:E; bools; [lia|].
  rewrite subnodes_spans in Hn. inversion Hn as [|? ? Hself Hn']; subst.
  pose proof (typed_forest (children n) IH (d + 1) m Hn' ltac:(lia)) as H.
  destruct (sequence (map infer (children n))) as [ts|e]; [|by rewrite H].
  destruct H as (m1 & -> & Hts & Hf). unfold type_visitor.
  rewrite (type_rule_ext (types_get m1) (assoc_type (zip (children n) ts))).
  - destruct (type_rule _ n) as [t|e]; [|done].
    exists (<[node_span n:=t]> m1). split; [done|]. rewrite lookup_insert_eq. split; [done|].
    rewrite subnodes_spans. intros k Hk. rewrite not_elem_of_cons in Hk. destruct Hk.
    rewrite lookup_insert_ne by done. by apply Hf.
  - apply Forall_lookup_2. intros i c Hc. unfold types_get.
    destruct (Forall2_lookup_l _ _ _ _ _ Hts Hc) as (t & Ht & ->).
    symmetry. apply assoc_type_zip; eauto.
Qed.

Lemma checkExpressionTypes_infer n :
  NoDup (map node_span (subnodes n)) ->
  checkExpressionTypes n = Ok tt <-> node_height n <= 257 /\ exists t, infer n = Ok t.
Proof.
  intros Hn. unfold checkExpressionTypes. rewrite visitExpression_rec. split.
  - destruct (visit_rec type_visitor n 0 ∅) as [m|] eqn:E; [|done]. intros _.
    pose proof (visit_rec_height _ _ _ _ _ E) as Hh. split; [done|].
    pose proof (typed_tree_all n 0 ∅ Hn Hh) as H.
    destruct (infer n) as [t|e]; [by exists t|congruence].
  - intros [Hh [t Ht]]. pose proof (typed_tree_all n 0 ∅ Hn Hh) as H.
    rewrite Ht in H. by destruct H as (m & -> & _).
Qed.

(** On a parsed expression the traversal that fills a map of types by node
    identity accepts exactly the trees of at most 257 levels for which recursive
    type inference succeeds. *)
Theorem checkExpressionTypes_correct source n :
  parse source = Ok n ->
  checkExpressionTypes n = Ok tt <-> node_height n <= 257 /\ exists t, infer n = Ok t.
Proof. intros H. by apply checkExpressionTypes_infer, (parse_spans_nodup source). Qed.

Lemma checkExpressionTypes_correct_witness :
  exists n, parse (js "p > 1 ? 'a' : 2") = Ok n /\
    (checkExpressionTypes n = Ok tt <-> node_height n <= 257 /\ exists t, infer n = Ok t).
Proof.
  eexists. split; [vm_compute; reflexivity|].
  apply (checkExpressionTypes_correct (js "p > 1 ? 'a' : 2")). vm_compute. reflexivity.
Defined.
