(* ===== verification/Compile.v ===== *)
(** [compileBillingExpression] of [pricing/lib/billing-expression/parser.ts]:
    parse, type check, dependencies, request rules, validation of fixed prices,
    and the bounded cache of results. *)
From Stdlib Require Import ZArith Lia Bool String.
From stdpp Require Import base list option gmap.
From S2P Require Import Prelude JsString JsNumber Types Lexer Parser Grammar ParserFacts TypeCheck.

(** * Data *)

Record request_rule := RequestRule {
  r_node : node;
  r_condition : node;
  r_multiplier : number;
  r_cond : jsstr;
}.

Record compiled := Compiled {
  c_source : jsstr;
  c_ast : node;
  c_variables : list jsstr;
  c_functions : list jsstr;
  c_requestRules : list request_rule;
}.

(** [CompilationResult]. *)
Inductive compilation :=
| Ready (c : compiled)
| NotReady (f : failure).

(** * Fixed prices *)

Definition containsPricingMarker (n : node) : result exn bool :=
  let! d := expressionDependencies n in
  Ok (set_has (functions d) "tier" || set_has (functions d) "fixed").

Definition FIXED_PRICE_MESSAGE : string :=
  "Use tier(name, fixed(amount)) with a finite, non-negative numeric literal; combine pricing branches only with conditions and request multipliers.".

(** [rules.find((candidate) => candidate.node === factor)], with the checks on
    the rule it finds. *)
Definition multiplier_rule (rules : list request_rule) (factor : node)
  : result exn bool :=
  match find (fun r => same_node (r_node r) factor) rules with
  | Some rule =>
      if num_leb num_zero (r_multiplier rule) then
        let! m := containsPricingMarker (r_condition rule) in Ok (negb m)
      else Ok false
  | None => Ok false
  end.

(** The price below [tier(name, price)]. *)
Definition valid_price (price : node) : result exn bool :=
  let other := let! m := containsPricingMarker price in Ok (negb m) in
  match price with
  | NCall _ _ f args =>
      if f === "fixed" then
        match args with
        | NLiteral _ _ (LNumber amount) _ :: _ =>
            Ok (num_leb num_zero amount && is_finite (num_mul amount (num_of_Z 1000000)))
        | _ => Ok false
        end
      else other
  | _ => other
  end.

(** The last test: a [tier] call with an admissible price. *)
Definition valid_tier (n : node) : result exn bool :=
  match n with
  | NCall _ _ f (label :: price :: _) =>
      if f === "tier" then
        let! m := containsPricingMarker label in
        if negb m then valid_price price else Ok false
      else Ok false
  | _ => Ok false
  end.

Definition check_tier (n : node) : result exn unit :=
  let! ok := valid_tier n in
  if ok then Ok tt
  else throw type_error (js FIXED_PRICE_MESSAGE) (Some (node_start n)).

Fixpoint validateFixedPricingTree (rules : list request_rule) (n : node)
  : result exn unit :=
  match n with
  | NConditional _ _ c y no =>
      let! m := containsPricingMarker c in
      if negb m then
        let! _ := validateFixedPricingTree rules y in
        validateFixedPricingTree rules no
      else check_tier n
  | NBinary _ _ op l r =>
      if op === "*" then
        let! byRight := multiplier_rule rules r in
        if byRight then validateFixedPricingTree rules l
        else
          let! byLeft := multiplier_rule rules l in
          if byLeft then validateFixedPricingTree rules r else check_tier n
      else check_tier n
  | _ => check_tier n
  end.

(** * Request rules *)

(** The functions that make a condition a request rule. *)
Definition REQUEST_PROBES : list string := ["param"; "header"]%string ++ TIME_FUNCTIONS.

(** The visitor that collects rules: [cond ? number : 1] whose condition reads
    the request or the time. *)
Definition rule_visitor (source : jsstr) (n : node) (rules : list request_rule)
  : result exn (list request_rule) :=
  match n with
  | NConditional _ _ c (NLiteral _ _ (LNumber m) _) (NLiteral _ _ (LNumber one) _) =>
      if num_eqb one num_one then
        let! d := expressionDependencies c in
        if existsb (fun name => one_of name REQUEST_PROBES) (functions d) then
          Ok (rules ++ [RequestRule n c m (slice source (node_start c) (node_end c))])
        else Ok rules
      else Ok rules
  | _ => Ok rules
  end.

(** The [try] block. *)
Definition compile_try (source : jsstr) : result exn compiled :=
  let! ast := parse source in
  let! _ := checkExpressionTypes ast in
  let! deps := expressionDependencies ast in
  let! rules := visitExpression (rule_visitor source) ast [] in
  let! _ := if set_has (functions deps) "fixed"
            then validateFixedPricingTree rules ast else Ok tt in
  Ok (Compiled source ast (variables deps) (functions deps) rules).

(** The result that gets cached. *)
Definition compile_fresh (source : jsstr) : compilation :=
  match compile_try source with
  | Ok c => Ready c
  | Err e => NotReady (expressionFailure e)
  end.

(** * The cache *)

(** [compiledCache], a [Map]: entries in insertion order. *)
Abbreviation cache := (list (jsstr * compilation)).

Fixpoint cache_get (c : cache) (source : jsstr) : option compilation :=
  match c with
  | [] => None
  | (s, r) :: c' => if str_eqb source s then Some r else cache_get c' source
  end.

Definition cache_limit : nat := 128.
Arguments cache_limit : simpl never.

Definition compileBillingExpression (source : jsstr) (c : cache) : compilation * cache :=
  match cache_get c source with
  | Some cached => (cached, c)
  | None =>
      let result := compile_fresh source in
      let c :=
        match c with
        | _ :: c' => if (cache_limit <=? length c)%nat then c' else c
        | [] => c
        end in
      (result, c ++ [(source, result)])
  end.

(** * Facts *)

Record cache_ok (c : cache) : Prop := {
  cache_small : length c <= cache_limit;
  cache_keys : NoDup (map fst c);
  cache_true : Forall (fun e => e.2 = compile_fresh e.1) c;
}.

Lemma cache_get_Some c s r : cache_get c s = Some r -> (s, r) ∈ c.
Proof.
  induction c as [|[s' r'] c IH]; simpl; [done|].
  destruct (str_eqb_reflect s s') as [->|]; [intros [= ->]; left|right; auto].
Qed.

Lemma cache_get_None c s : cache_get c s = None -> s ∉ map fst c.
Proof.
  induction c as [|[s' r'] c IH]; simpl; [intros _; apply not_elem_of_nil|].
  destruct (str_eqb_reflect s s') as [->|]; [done|]. intros H.
  rewrite not_elem_of_cons. auto.
Qed.

Lemma compile_cached_result s c :
  cache_ok c -> (compileBillingExpression s c).1 = compile_fresh s.
Proof.
  intros [_ _ Ht]. unfold compileBillingExpression.
  destruct (cache_get c s) as [r|] eqn:E; [|done]. apply cache_get_Some in E.
  exact (proj1 (Forall_elem _ _) Ht _ E).
Qed.

Lemma cache_ok_evict e c : cache_ok (e :: c) -> cache_ok c.
Proof.
  intros [Hs Hk Ht]. simpl in *. inversion Hk; inversion Ht; subst. constructor; [lia|done|done].
Qed.

Lemma cache_ok_insert s c :
  cache_ok c -> length c < cache_limit -> s ∉ map fst c ->
  cache_ok (c ++ [(s, compile_fresh s)]).
Proof.
  intros [Hs Hk Ht] Hl Hn. constructor.
  - rewrite length_app. simpl. lia.
  - rewrite map_app. apply list.NoDup_app. split; [done|]. split.
    + intros x Hx Hx'. apply list_elem_of_singleton in Hx'. subst. done.
    + simpl. constructor; [apply not_elem_of_nil|constructor].
  - apply Forall_app_2; [done|]. by repeat constructor.
Qed.

Lemma compile_cached_ok s c : cache_ok c -> cache_ok (compileBillingExpression s c).2.
Proof.
  intros Hc. unfold compileBillingExpression.
  destruct (cache_get c s) as [r|] eqn:E; [done|]. cbn [snd]. apply cache_get_None in E.
  destruct c as [|e c]; [apply cache_ok_insert; simpl; [done|unfold cache_limit; lia|done]|].
  destruct (cache_limit <=? length (e :: c)) eqn:El; bools.
  - apply cache_ok_insert; [exact (cache_ok_evict _ _ Hc)| |].
    + destruct Hc as [Hs _ _]. simpl in *. lia.
    + simpl in E. rewrite not_elem_of_cons in E. tauto.
  - by apply cache_ok_insert.
Qed.

Lemma cache_ok_empty : cache_ok [].
Proof. constructor; simpl; [unfold cache_limit; lia|constructor|constructor]. Qed.

(** ** What compilation guarantees *)

Lemma compile_try_inv source comp :
  compile_try source = Ok comp ->
  c_source comp = source /\ parse source = Ok (c_ast comp) /\
  checkExpressionTypes (c_ast comp) = Ok tt /\
  expressionDependencies (c_ast comp) =
    Ok (Dependencies (c_variables comp) (c_functions comp)) /\
  visitExpression (rule_visitor source) (c_ast comp) [] = Ok (c_requestRules comp) /\
  (set_has (c_functions comp) "fixed" = true ->
   validateFixedPricingTree (c_requestRules comp) (c_ast comp) = Ok tt).
Proof.
  unfold compile_try. intros H.
  destruct (parse source) as [ast|]; [|done].
  destruct (checkExpressionTypes ast) as [[]|] eqn:Et; [|done].
  destruct (expressionDependencies ast) as [[vs fs]|] eqn:Ed; [|done].
  destruct (visitExpression _ ast []) as [rules|] eqn:Er; [|done].
  destruct (if set_has _ _ then _ else _) as [[]|] eqn:Ef; [|done].
  injection H as <-. simpl in *. split_and!; try done. intros Hf. by rewrite Hf in Ef.
Qed.

(** Spans identify the nodes of a compiled tree. *)
Lemma compiled_spans source comp :
  compile_try source = Ok comp -> NoDup (map node_span (subnodes (c_ast comp))).
Proof. intros (_ & H & _)%compile_try_inv. by eapply parse_spans_nodup. Qed.

Lemma same_node_compiled source comp a b :
  compile_try source = Ok comp -> a ∈ subnodes (c_ast comp) -> b ∈ subnodes (c_ast comp) ->
  same_node a b = true -> a = b.
Proof.
  intros Hc Ha Hb H. unfold same_node in H. bools.
  eapply NoDup_map_inj; [by eapply compiled_spans| done|done|]. unfold node_span. congruence.
Qed.

(** A collected rule is the conditional node it was collected from: its
    multiplier when the condition holds, one otherwise. *)
Definition rule_wf (ast : node) (r : request_rule) : Prop :=
  r_node r ∈ subnodes ast /\
  exists s e ys ye yi ns ne one ni,
    r_node r = NConditional s e (r_condition r) (NLiteral ys ye (LNumber (r_multiplier r)) yi)
                 (NLiteral ns ne (LNumber one) ni) /\ num_eqb one num_one = true.

Lemma rule_visitor_wf source ast n rules rules' :
  n ∈ subnodes ast -> Forall (rule_wf ast) rules ->
  rule_visitor source n rules = Ok rules' -> Forall (rule_wf ast) rules'.
Proof.
  intros Hn Hw H. unfold rule_visitor in H.
  destruct n as [| | | | | |s e c y no]; try (by injection H as <-).
  destruct y as [? ? [| | |] ?| | | | | |]; try (by injection H as <-).
  destruct no as [? ? [| | |] ?| | | | | |]; try (by injection H as <-).
  destruct (num_eqb _ _) eqn:E1; [|by injection H as <-].
  destruct (expressionDependencies c); [|done].
  destruct (existsb _ _); injection H as <-; [|done].
  apply Forall_app_2; [done|]. constructor; [|constructor].
  split; [done|]. simpl. by repeat eexists.
Qed.

Lemma compiled_rules_wf source comp :
  compile_try source = Ok comp -> Forall (rule_wf (c_ast comp)) (c_requestRules comp).
Proof.
  intros (_ & _ & _ & _ & Hr & _)%compile_try_inv.
  eapply visitExpression_inv; [| |exact Hr]; [|constructor].
  intros m s s' Hm Hs. by eapply rule_visitor_wf.
Qed.

(** ** Sequences of calls *)

(** The results of compiling a sequence of sources, with the final cache. *)
Fixpoint compile_all (sources : list jsstr) (c : cache) : list compilation * cache :=
  match sources with
  | [] => ([], c)
  | s :: sources' =>
      let '(r, c) := compileBillingExpression s c in
      let '(rs, c) := compile_all sources' c in (r :: rs, c)
  end.

Lemma compile_all_ok sources : forall c, cache_ok c ->
  (compile_all sources c).1 = map compile_fresh sources /\ cache_ok (compile_all sources c).2.
Proof.
  induction sources as [|s sources IH]; intros c Hc; simpl; [done|].
  pose proof (compile_cached_result s c Hc) as Hr. pose proof (compile_cached_ok s c Hc) as Hk.
  destruct (compileBillingExpression s c) as [r c1]. simpl in *.
  destruct (IH c1 Hk) as [IHr IHc]. destruct (compile_all sources c1). simpl in *.
  by rewrite Hr, IHr.
Qed.

(** C34. The cache is transparent and bounded: over any sequence of compilations
    every answer is the one a fresh compilation gives, and the cache never holds
    more than 128 entries or two entries for one source. *)
Theorem cache_transparent sources :
  let '(results, c) := compile_all sources [] in
  results = map compile_fresh sources /\ length c <= 128 /\ NoDup (map fst c).
Proof.
  destruct (compile_all_ok sources [] cache_ok_empty) as [Hr [Hs Hk _]].
  by destruct (compile_all sources []).
Qed.
