(* ===== verification/Runtime.v ===== *)
(** [pricing/lib/billing-expression/runtime.ts]: evaluation of a compiled
    billing expression in a simulation context.

    The data of the platform that the code asks for, the lower-case mapping of
    Unicode and the time-zone database behind [Intl.DateTimeFormat], is the
    class [Platform]. *)
From Stdlib Require Import ZArith Lia Bool String.
From stdpp Require Import base list option.
From S2P Require Import Prelude JsString JsNumber Types JsValue Compile.

(** * The platform *)

(** A formatter: the time zone it resolved to and the [type]/[value] pairs of
    [formatToParts] at a time in milliseconds. *)
Record formatter := Formatter {
  resolved_time_zone : jsstr;
  format_to_parts : Z -> list (jsstr * jsstr);
}.

Class Platform := {
  toLowerCase : jsstr -> jsstr;
  (** [new Intl.DateTimeFormat('en-US', { timeZone, ... })]; [None] when the
      constructor throws. *)
  DateTimeFormat : jsstr -> option formatter;
}.

(** A [Date]: its time value, [None] when invalid. *)
Abbreviation date := (option Z).

(** * Time *)

Record time_values := TimeValues {
  tv_hour : number;
  tv_minute : number;
  tv_weekday : number;
  tv_month : number;
  tv_day : number;
}.

Definition time_value (v : time_values) (name : jsstr) : number :=
  if name === "hour" then tv_hour v
  else if name === "minute" then tv_minute v
  else if name === "weekday" then tv_weekday v
  else if name === "month" then tv_month v
  else tv_day v.

(** Month and day of the proleptic Gregorian calendar, from days since 1970. *)
Definition civil_from_days (days : Z) : Z * Z :=
  (let z := days + 719468 in
   let doe := z mod 146097 in
   let yoe := (doe - doe / 1460 + doe / 36524 - doe / 146096) / 365 in
   let doy := doe - (365 * yoe + yoe / 4 - yoe / 100) in
   let mp := (5 * doy + 2) / 153 in
   let d := doy - (153 * mp + 2) / 5 + 1 in
   ((if mp <? 10 then mp + 3 else mp - 9), d))%Z.

(** [getUTCHours] and so on. *)
Definition utc_values (t : Z) : time_values :=
  let days := (t / 86400000)%Z in
  let '(month, day) := civil_from_days days in
  TimeValues
    (num_of_Z (t / 3600000 mod 24)) (num_of_Z (t / 60000 mod 60))
    (num_of_Z ((days + 4) mod 7)) (num_of_Z month) (num_of_Z day).

(** [Object.fromEntries(...)[key]]: the last entry of a type wins. *)
Definition part (parts : list (jsstr * jsstr)) (key : string) : option jsstr :=
  own (rev parts) (js key).

(** [Number(parts.hour)]; [Number(undefined)] is NaN. *)
Definition part_number (parts : list (jsstr * jsstr)) (key : string) : number :=
  match part parts key with Some t => js_Number t | None => SpecFloat.S754_nan end.

Definition WEEKDAYS : list string :=
  ["Sun"; "Mon"; "Tue"; "Wed"; "Thu"; "Fri"; "Sat"]%string.

Definition weekday_index (w : option jsstr) : Z :=
  match w with
  | Some t => match find_index (fun d => str_eqb t (js d)) WEEKDAYS with
              | Some i => Z.of_nat i
              | None => -1
              end
  | None => -1
  end.

(** The shape of a time-zone name accepted by the regular expression: segments
    separated by slashes, each a capital letter and then word characters, plus
    or minus. *)
Definition zone_char (c : Z) : bool := is_word c || (c =? 43)%Z || (c =? 45)%Z.
Definition zone_segment (s : jsstr) : bool :=
  match s with
  | c :: s' => ((65 <=? c) && (c <=? 90))%Z && forallb zone_char s'
  | [] => false
  end.
Definition zone_shape (s : jsstr) : bool := forallb zone_segment (split_char 47 s).

Section WithPlatform.
Context {P : Platform}.

(** The [try] block: the formatter, or [None] when it throws. *)
Definition zone_formatter (timezone : jsstr) : option formatter :=
  if negb (zone_shape timezone) then None
  else
    match DateTimeFormat timezone with
    | None => None
    | Some f =>
        let resolved := resolved_time_zone f in
        if str_eqb (toLowerCase resolved) (toLowerCase timezone)
           && negb (str_eqb resolved timezone)
        then None else Some f
    end.

Definition timeInBillingZone (now : date) (zone : jsstr) : result exn time_values :=
  match now with
  | None => throw type_error (js "simulation time") None
  | Some t =>
      let timezone := match trim zone with [] => js "UTC" | z => z end in
      if timezone === "Local" then throw unsupported (js "server Local timezone") None
      else
        match zone_formatter timezone with
        | None => Ok (utc_values t)
        | Some f =>
            let parts := format_to_parts f t in
            Ok (TimeValues (part_number parts "hour") (part_number parts "minute")
                  (num_of_Z (weekday_index (part parts "weekday")))
                  (part_number parts "month") (part_number parts "day"))
        end
  end.

(** * The runtime object *)

(** [BillingSimulationContext]. *)
Record request := Request {
  body : jsvalue;
  headers : option (list (jsstr * jsvalue));
}.
Record context := Context {
  tokens : option (list (jsstr * jsvalue));
  ctx_request : option request;
  usage : option (list (jsstr * jsvalue));
  now : option date;
  ctx : option (list (jsstr * jsvalue));
}.

Inductive billing_unit := UToken | URequest.

(** The mutable fields.  [depth] is the nesting of calls of [evaluate] and is
    passed as an argument instead. *)
Record runtime := Runtime {
  matched : list bool;
  matchedTier : jsstr;
  billingUnit : billing_unit;
  fixedPrice : option number;
  timeValues : list (jsstr * time_values);
}.

Definition set_matched (i : nat) (st : runtime) : runtime :=
  Runtime (<[i := true]> (matched st)) (matchedTier st) (billingUnit st)
    (fixedPrice st) (timeValues st).
Definition set_tier (name : jsstr) (st : runtime) : runtime :=
  Runtime (matched st) name (billingUnit st) (fixedPrice st) (timeValues st).
Definition set_fixed (amount : number) (st : runtime) : runtime :=
  Runtime (matched st) (matchedTier st) URequest (Some amount) (timeValues st).
Definition set_times (zone : jsstr) (v : time_values) (st : runtime) : runtime :=
  Runtime (matched st) (matchedTier st) (billingUnit st) (fixedPrice st)
    (timeValues st ++ [(zone, v)]).

(** [RuntimeValue]; the flag is [false] when absent. *)
Record rvalue := RValue { rv : jsvalue; rv_integer : bool }.

(** [Map.set]. *)
Fixpoint map_set (key value : jsstr) (m : list (jsstr * jsstr)) : list (jsstr * jsstr) :=
  match m with
  | [] => [(key, value)]
  | (k, v) :: m' => if str_eqb key k then (k, value) :: m' else (k, v) :: map_set key value m'
  end.

(** The loop of the constructor over the request headers. *)
Fixpoint normalize_headers (entries : list (jsstr * jsvalue)) (headers : list (jsstr * jsstr))
  : result exn (list (jsstr * jsstr)) :=
  match entries with
  | [] => Ok headers
  | (name, raw) :: entries' =>
      match raw with
      | JStr rawValue =>
          let key := toLowerCase (trim name) in
          let value := trim rawValue in
          normalize_headers entries'
            (if truthy key && truthy value then map_set key value headers else headers)
      | _ => throw type_error (js "request header") None
      end
  end.

(** An operand: the start of its node and its evaluation at a depth. *)
Definition evaluator : Type := nat -> runtime -> result exn (rvalue * runtime).
Definition operand : Type := nat * evaluator.

Definition boolean (a : operand) (d : nat) (st : runtime) : result exn (bool * runtime) :=
  let! (r, st) := a.2 d st in
  match rv r with
  | JBool b => Ok (b, st)
  | _ => throw type_error (js "boolean condition") (Some a.1)
  end.

Definition numeric (a : operand) (d : nat) (st : runtime)
  : result exn (number * bool * runtime) :=
  let! (r, st) := a.2 d st in
  match rv r with
  | JNum n => Ok (n, rv_integer r, st)
  | _ => throw type_error (js "numeric operand") (Some a.1)
  end.

Definition string_arg (a : operand) (d : nat) (st : runtime) : result exn (jsstr * runtime) :=
  let! (r, st) := a.2 d st in
  match rv r with
  | JStr s => Ok (s, st)
  | _ => throw type_error (js "string argument") (Some a.1)
  end.

(** The comparison operators on two numbers or two strings. *)
Definition compare_values (op : jsstr) (a b : jsvalue) : option bool :=
  match a, b with
  | JNum x, JNum y =>
      if op === "<" then Some (num_ltb x y)
      else if op === "<=" then Some (num_leb x y)
      else if op === ">" then Some (num_ltb y x)
      else if op === ">=" then Some (num_leb y x) else None
  | JStr x, JStr y =>
      if op === "<" then Some (str_ltb x y)
      else if op === "<=" then Some (negb (str_ltb y x))
      else if op === ">" then Some (str_ltb y x)
      else if op === ">=" then Some (negb (str_ltb x y)) else None
  | _, _ => None
  end.

(** The last [switch] of [binary], on two numbers. *)
Definition arithmetic (start : nat) (op : jsstr) (x y : number) (int : bool)
  : result exn rvalue :=
  if op === "+" then Ok (RValue (JNum (num_add x y)) int)
  else if op === "-" then Ok (RValue (JNum (num_sub x y)) int)
  else if op === "*" then Ok (RValue (JNum (num_mul x y)) int)
  else if op === "/" then Ok (RValue (JNum (num_div x y)) false)
  else if op === "%" then
    if negb int then throw type_error (js "integer modulo") (Some start)
    else Ok (RValue (JNum (num_rem x y)) true)
  else throw unsupported op (Some start).

(** [binary] on the values of its operands. *)
Definition binary_values (start : nat) (op : jsstr) (l r : rvalue) : result exn rvalue :=
  let a := rv l in
  let b := rv r in
  if one_of op ["=="; "!="]%string then
    if negb (strict_eqb a JNull) && negb (strict_eqb b JNull)
       && (is_object a || is_object b)
    then throw unsupported (js "object comparison") (Some start)
    else
      let equal := strict_eqb a b in
      Ok (RValue (JBool (if op === "==" then equal else negb equal)) false)
  else
    match a, b, op === "+" with
    | JStr x, JStr y, true => Ok (RValue (JStr (x ++ y)) false)
    | _, _, _ =>
        match compare_values op a b with
        | Some c => Ok (RValue (JBool c) false)
        | None =>
            match a, b with
            | JNum x, JNum y => arithmetic start op x y (rv_integer l && rv_integer r)
            | _, _ => throw type_error op (Some start)
            end
        end
    end.

Definition binary (start : nat) (op : jsstr) (l r : operand) (d : nat) (st : runtime)
  : result exn (rvalue * runtime) :=
  if op === "&&" then
    let! (b, st) := boolean l d st in
    if b then
      let! (b, st) := boolean r d st in Ok (RValue (JBool b) false, st)
    else Ok (RValue (JBool false) false, st)
  else if op === "||" then
    let! (b, st) := boolean l d st in
    if b then Ok (RValue (JBool true) false, st)
    else let! (b, st) := boolean r d st in Ok (RValue (JBool b) false, st)
  else
    let! (a, st) := l.2 d st in
    let! (b, st) := r.2 d st in
    let! v := binary_values start op a b in Ok (v, st).

(** [args[i]]; a missing argument is a [TypeError] of the language. *)
Definition arg (args : list operand) (i : nat) : operand :=
  match args !! i with
  | Some a => a
  | None => (0, fun _ _ => Err (NativeError []))
  end.

Section Evaluate.
Variable comp : compiled.
Variable cx : context.
(** The normalized headers and the time of this evaluation. *)
Variable hdrs : list (jsstr * jsstr).
Variable clock : date.

Definition MILLION : number := num_of_Z 1000000.

(** Two numeric arguments of [Math.min] or [Math.max]. *)
Definition numeric_pair (f : number -> number -> number) (args : list operand) (d : nat)
    (st : runtime) : result exn (rvalue * runtime) :=
  let! (x, _, st) := numeric (arg args 0) d st in
  let! (y, _, st) := numeric (arg args 1) d st in
  Ok (RValue (JNum (f x y)) false, st).

Definition numeric_one (f : number -> number) (args : list operand) (d : nat)
    (st : runtime) : result exn (rvalue * runtime) :=
  let! (x, _, st) := numeric (arg args 0) d st in
  Ok (RValue (JNum (f x)) false, st).

(** The time functions, with the per-evaluation cache of zones. *)
Definition call_time (name : jsstr) (args : list operand) (d : nat) (st : runtime)
  : result exn (rvalue * runtime) :=
  let! (z, st) := string_arg (arg args 0) d st in
  let zone := trim z in
  match own (timeValues st) zone with
  | Some v => Ok (RValue (JNum (time_value v name)) true, st)
  | None =>
      let! v := timeInBillingZone clock zone in
      Ok (RValue (JNum (time_value v name)) true, set_times zone v st)
  end.

Definition call (start : nat) (name : jsstr) (args : list operand) (d : nat) (st : runtime)
  : result exn (rvalue * runtime) :=
  if name === "fixed" then
    let! (amount, _, st) := numeric (arg args 0) d st in
    Ok (RValue (JNum (num_mul amount MILLION)) false, set_fixed amount st)
  else if name === "tier" then
    let! (label, st) := string_arg (arg args 0) d st in
    let! (v, _, st) := numeric (arg args 1) d st in
    Ok (RValue (JNum v) false, set_tier label st)
  else if name === "param" then
    let! (path, st) := string_arg (arg args 0) d st in
    match ctx_request cx with
    | None => throw missing_context (js "request body") (Some start)
    | Some req => let! v := readRequestPath (body req) path in Ok (RValue v false, st)
    end
  else if name === "header" then
    let! (h, st) := string_arg (arg args 0) d st in
    match ctx_request cx with
    | None => throw missing_context (js "request headers") (Some start)
    | Some _ =>
        let v := match own hdrs (toLowerCase (trim h)) with Some v => v | None => [] end in
        Ok (RValue (JStr v) false, st)
    end
  else if name === "u" then
    let! (field, st) := string_arg (arg args 0) d st in
    match usage cx with
    | None => throw missing_context (js "task usage") (Some start)
    | Some u =>
        Ok (RValue (match own u field with Some v => v | None => JNull end) false, st)
    end
  else if name === "has" then
    let! (source, st) := (arg args 0).2 d st in
    let! (substring, st) := string_arg (arg args 1) d st in
    let! found :=
      if nullish (rv source) || negb (truthy substring) then Ok false
      else let! t := billingString (rv source) 0 in Ok (includes substring t) in
    Ok (RValue (JBool found) false, st)
  else if name === "min" then numeric_pair num_min args d st
  else if name === "max" then numeric_pair num_max args d st
  else if name === "abs" then numeric_one num_abs args d st
  else if name === "floor" then numeric_one num_floor args d st
  else if name === "ceil" then numeric_one num_ceil args d st
  else if negb (one_of name TIME_FUNCTIONS) then throw unsupported name None
  else call_time name args d st.

Definition variable_value (start : nat) (name : jsstr) : result exn rvalue :=
  match match tokens cx with Some t => own t name | None => None end with
  | None | Some JUndefined => throw missing_context name (Some start)
  | Some (JNum v) =>
      if num_ltb v num_zero then throw number_error name (Some start)
      else Ok (RValue (JNum v) false)
  | Some _ => throw number_error name (Some start)
  end.

Definition context_value (name : jsstr) : rvalue :=
  let provided :=
    match match ctx cx with Some c => own c name | None => None end with
    | Some v => v
    | None => JUndefined
    end in
  RValue (or_default provided
            (if name === "channel" then JNum (num_of_Z (-1)) else JStr [])) false.

(** The checks of [evaluate] on the value of a node. *)
Definition check_value (start : nat) (v : rvalue) : result exn rvalue :=
  match rv v with
  | JNum n =>
      if negb (is_finite n) then
        throw number_error (js "non-finite result") (Some start)
      else if rv_integer v && negb (is_safe_integer n) then
        throw unsupported (js "integer precision") (Some start)
      else Ok v
  | _ => Ok v
  end.

(** [this.compiled.requestRules.findIndex((rule) => rule.node === node)]. *)
Definition rule_index (n : node) : option nat :=
  find_index (fun r => same_node (r_node r) n) (c_requestRules comp).

(** [evaluate] and [evaluateNode]; [d] is the depth before the call. *)
Fixpoint evaluate (n : node) (d : nat) (st : runtime) {struct n}
  : result exn (rvalue * runtime) :=
  let op (c : node) : operand := (node_start c, evaluate c) in
  if (256 <? S d)%nat then throw limit (js "evaluation depth") None
  else
    let! (v, st) :=
      match n with
      | NLiteral _ _ v int => Ok (RValue (value_of_literal v) int, st)
      | NVariable s _ name => let! v := variable_value s name in Ok (v, st)
      | NContext _ _ name => Ok (context_value name, st)
      | NConditional _ _ c y no =>
          let! (condition, st) := boolean (op c) (S d) st in
          let st :=
            match condition, rule_index n with
            | true, Some i => set_matched i st
            | _, _ => st
            end in
          if condition then evaluate y (S d) st else evaluate no (S d) st
      | NUnary _ _ o a =>
          if o === "!" then
            let! (b, st) := boolean (op a) (S d) st in
            Ok (RValue (JBool (negb b)) false, st)
          else
            let! (x, int, st) := numeric (op a) (S d) st in
            Ok (RValue (JNum (if o === "-" then num_opp x else x)) int, st)
      | NBinary s _ o l r => binary s o (op l) (op r) (S d) st
      | NCall s _ name args =>
          call s name (map (fun a => (node_start a, evaluate a)) args) (S d) st
      end in
    let! v := check_value (node_start n) v in
    Ok (v, st).

End Evaluate.

(** * Entry points *)

(** The state after the constructor. *)
Definition init_runtime (comp : compiled) : runtime :=
  Runtime (map (fun _ => false) (c_requestRules comp)) [] UToken None [].

(** [new BillingRuntime(compiled, context)]: the headers and the clock;
    [new_Date] is what [new Date()] returns. *)
Definition construct (cx : context) (new_Date : date)
  : result exn (list (jsstr * jsstr) * date) :=
  let entries := match ctx_request cx with
                 | Some r => match headers r with Some h => h | None => [] end
                 | None => []
                 end in
  let! hdrs := normalize_headers entries [] in
  Ok (hdrs, match now cx with Some d => d | None => new_Date end).

Definition run (comp : compiled) (cx : context) (new_Date : date) (n : node)
  : result exn (rvalue * runtime) :=
  let! (hdrs, clock) := construct cx new_Date in
  evaluate comp cx hdrs clock n 0 (init_runtime comp).

Definition evaluateBillingCondition (comp : compiled) (n : node) (now : date)
  : option bool :=
  match run comp (Context None None None (Some now) None) now n with
  | Ok (r, _) => match rv r with JBool b => Some b | _ => None end
  | Err _ => None
  end.

Record rule_trace := RuleTrace { t_cond : jsstr; t_multiplier : number; t_matched : bool }.

(** [BillingEvaluationResult]. *)
Inductive evaluation :=
| Success (cost : number) (unit : billing_unit) (fixed : option number)
    (tier : jsstr) (rules : list rule_trace)
| Failed (f : failure).

Definition nonnegative_finite (v : jsvalue) : bool :=
  match v with JNum n => is_finite n && negb (num_ltb n num_zero) | _ => false end.

Fixpoint check_tokens (l : list (jsstr * jsvalue)) : result exn unit :=
  match l with
  | [] => Ok tt
  | (name, v) :: l' =>
      if negb (nonnegative_finite v) then throw number_error name None
      else check_tokens l'
  end.

Definition traces (comp : compiled) (st : runtime) : list rule_trace :=
  zip_with (fun r m => RuleTrace (r_cond r) (r_multiplier r) m)
    (c_requestRules comp) (matched st).

Definition evaluate_try (comp : compiled) (cx : context) (new_Date : date)
  : result exn (number * runtime) :=
  let! _ := check_tokens (match tokens cx with Some t => t | None => [] end) in
  let! (r, st) := run comp cx new_Date (c_ast comp) in
  match rv r with
  | JNum n =>
      if is_finite n && negb (num_ltb n num_zero) then Ok (n, st)
      else throw number_error (js "billing result") None
  | _ => throw number_error (js "billing result") None
  end.

(** [evaluateBillingExpression] on a compiled expression. *)
Definition evaluate_compiled (c : compilation) (cx : context) (new_Date : date) : evaluation :=
  match c with
  | NotReady f => Failed f
  | Ready comp =>
      match evaluate_try comp cx new_Date with
      | Ok (n, st) =>
          Success n (billingUnit st) (fixedPrice st) (matchedTier st) (traces comp st)
      | Err e => Failed (expressionFailure e)
      end
  end.

(** [evaluateBillingExpression] on a source text: compile through the cache. *)
Definition evaluateBillingExpression (source : jsstr) (cx : context) (new_Date : date)
    (c : cache) : evaluation * cache :=
  let '(comp, c) := compileBillingExpression source c in
  (evaluate_compiled comp cx new_Date, c).

End WithPlatform.

(** A platform for concrete runs: ASCII lower case and no time-zone database, so
    that every zone falls back to UTC. *)
Definition ascii_lower (s : jsstr) : jsstr :=
  map (fun c => if ((65 <=? c) && (c <=? 90))%Z then (c + 32)%Z else c) s.
Definition plain_platform : Platform :=
  {| toLowerCase := ascii_lower; DateTimeFormat _ := None |}.
