(* ===== verification/RuntimeFacts.v ===== *)
(** Facts about evaluation shared by the theorems: how the runtime state evolves,
    and what the operand readers return. *)
From Stdlib Require Import ZArith Lia Bool String.
From stdpp Require Import base list option.
From S2P Require Import Prelude JsString JsNumber Types JsValue Compile Runtime.

(** * Inversion of successful computations *)

(** Split every hypothesis [... = Ok _] about a bind, test or match. *)
Ltac ok_inv :=
  repeat match goal with
  | H : Err _ = Ok _ |- _ => discriminate H
  | H : throw _ _ _ = Ok _ |- _ => discriminate H
  | H : Ok _ = Ok _ |- _ => injection H as H; subst
  | H : (_, _) = (_, _) |- _ => injection H as H; subst
  | p : (_ * _)%type |- _ => destruct p
  | H : context [match ?x with _ => _ end] |- _ =>
      lazymatch type of H with
      | _ = Ok _ => let E := fresh "E" in destruct x eqn:E; try discriminate H
      end
  end.

(** * One step of evaluation *)

Lemma check_value_id s v w : check_value s v = Ok w -> w = v.
Proof. unfold check_value. intros H. by ok_inv. Qed.

Section Step.
Context {P : Platform}.
Variable comp : compiled.
Variable cx : context.
Variable hdrs : list (jsstr * jsstr).
Variable clock : date.

(** A sub-expression as an operand. *)
Definition operand_of (n : node) : operand := (node_start n, evaluate comp cx hdrs clock n).

(** The body of [evaluateNode], in terms of the evaluation of the children. *)
Definition evaluate_node (n : node) (d : nat) (st : runtime) : result exn (rvalue * runtime) :=
  match n with
  | NLiteral _ _ v int => Ok (RValue (value_of_literal v) int, st)
  | NVariable s _ name => let! v := variable_value cx s name in Ok (v, st)
  | NContext _ _ name => Ok (context_value cx name, st)
  | NConditional _ _ c y no =>
      let! (condition, st) := boolean (operand_of c) d st in
      let st := match condition, rule_index comp n with
                | true, Some i => set_matched i st
                | _, _ => st
                end in
      if condition then (operand_of y).2 d st else (operand_of no).2 d st
  | NUnary _ _ o a =>
      if o === "!" then
        let! (b, st) := boolean (operand_of a) d st in
        Ok (RValue (JBool (negb b)) false, st)
      else
        let! (x, int, st) := numeric (operand_of a) d st in
        Ok (RValue (JNum (if o === "-" then num_opp x else x)) int, st)
  | NBinary s _ o l r => binary s o (operand_of l) (operand_of r) d st
  | NCall s _ name args => call cx hdrs clock s name (map operand_of args) d st
  end.

Lemma evaluate_unfold n d st :
  evaluate comp cx hdrs clock n d st =
  if (256 <? S d) then throw limit (js "evaluation depth") None
  else let! (v, st) := evaluate_node n (S d) st in
       let! v := check_value (node_start n) v in Ok (v, st).
Proof. by destruct n. Qed.

Lemma evaluate_Ok n d st v st' :
  evaluate comp cx hdrs clock n d st = Ok (v, st') ->
  evaluate_node n (S d) st = Ok (v, st') /\ check_value (node_start n) v = Ok v /\ S d <= 256.
Proof.
  rewrite evaluate_unfold. destruct (256 <? S d) eqn:E; bools; [done|].
  destruct (evaluate_node n (S d) st) as [[w s]|]; [|done].
  destruct (check_value (node_start n) w) as [w'|] eqn:Ec; [|done].
  intros H. injection H as <- <-. pose proof (check_value_id _ _ _ Ec). by subst.
Qed.

End Step.
Arguments evaluate_node : simpl never.

Section State.
Context {P : Platform}.
Variable comp : compiled.
Variable cx : context.
Variable hdrs : list (jsstr * jsstr).
Variable clock : date.

(** A preorder on runtime states that every write respects. *)
Variable R : runtime -> runtime -> Prop.
Context `{!PreOrder R}.
(** A set of nodes closed under taking children. *)
Variable tree : node -> Prop.
Hypothesis tree_children : forall n, tree n -> Forall tree (children n).
Hypothesis R_matched : forall s e c y no i d st st',
  tree (NConditional s e c y no) ->
  rule_index comp (NConditional s e c y no) = Some i ->
  boolean (operand_of comp cx hdrs clock c) d st = Ok (true, st') ->
  R st st' -> R st (set_matched i st').
Hypothesis R_tier : forall s e args t st,
  tree (NCall s e (js "tier") args) -> R st (set_tier t st).
Hypothesis R_fixed : forall s e args a st,
  tree (NCall s e (js "fixed") args) -> R st (set_fixed a st).
Hypothesis R_times : forall z v st,
  timeInBillingZone clock z = Ok v -> R st (set_times z v st).

Definition keeps (ev : evaluator) : Prop :=
  forall d st v st', ev d st = Ok (v, st') -> R st st'.

Lemma keeps_boolean (a : operand) d st b st' :
  keeps a.2 -> boolean a d st = Ok (b, st') -> R st st'.
Proof. unfold boolean. intros Ha H. ok_inv. eauto. Qed.

Lemma keeps_numeric (a : operand) d st x st' :
  keeps a.2 -> numeric a d st = Ok (x, st') -> R st st'.
Proof. unfold numeric. intros Ha H. ok_inv. eauto. Qed.

Lemma keeps_string (a : operand) d st x st' :
  keeps a.2 -> string_arg a d st = Ok (x, st') -> R st st'.
Proof. unfold string_arg. intros Ha H. ok_inv. eauto. Qed.

(** Close [R st st'] by following the steps found in the context. *)
Ltac chain_R :=
  repeat first [ done | reflexivity | eassumption | etransitivity; [eassumption|] ];
  try solve [ etransitivity; [eassumption | auto] | auto ].

Lemma keeps_binary s op (l r : operand) d st v st' :
  keeps l.2 -> keeps r.2 -> binary s op l r d st = Ok (v, st') -> R st st'.
Proof.
  unfold binary. intros Hl Hr H. ok_inv;
    repeat match goal with
    | E : boolean l _ _ = Ok _ |- _ => apply keeps_boolean in E; [|done]
    | E : boolean r _ _ = Ok _ |- _ => apply keeps_boolean in E; [|done]
    | E : l.2 _ _ = Ok _ |- _ => apply Hl in E
    | E : r.2 _ _ = Ok _ |- _ => apply Hr in E
    end; chain_R.
Qed.

Lemma keeps_arg (args : list operand) i : Forall (fun a => keeps a.2) args -> keeps (arg args i).2.
Proof.
  intros H. unfold arg. destruct (args !! i) as [a|] eqn:E; [|intros ? ? ? ? ?; done].
  exact (Forall_lookup_1 _ _ _ _ H E).
Qed.

Lemma keeps_call s e name nodes (args : list operand) d st v st' :
  tree (NCall s e name nodes) -> Forall (fun a => keeps a.2) args ->
  call cx hdrs clock s name args d st = Ok (v, st') -> R st st'.
Proof.
  intros Hn Ha H. pose proof (fun i => keeps_arg args i Ha) as Hi.
  unfold call, numeric_pair, numeric_one, call_time in H.
  destruct (name === "fixed") eqn:Ef;
    [apply str_eqb_eq in Ef; subst name; pose proof (fun a st => R_fixed _ _ _ a st Hn)|].
  2: destruct (name === "tier") eqn:Et;
    [apply str_eqb_eq in Et; subst name; pose proof (fun t st => R_tier _ _ _ t st Hn)|].
  all: ok_inv;
    repeat match goal with
    | E : numeric _ _ _ = Ok _ |- _ => apply keeps_numeric in E; [|apply Hi]
    | E : string_arg _ _ _ = Ok _ |- _ => apply keeps_string in E; [|apply Hi]
    | E : (arg _ _).2 _ _ = Ok _ |- _ => apply Hi in E
    end; chain_R.
Qed.

Lemma keeps_evaluate n : tree n -> keeps (evaluate comp cx hdrs clock n).
Proof.
  induction n as [n IH] using node_children_ind. intros Hn d st v st' H.
  assert (IH' : Forall (fun c => keeps (evaluate comp cx hdrs clock c)) (children n)).
  { apply tree_children in Hn. rewrite Forall_elem in *. auto. }
  clear IH. rename IH' into IH. apply evaluate_Ok in H as (H & _ & _).
  destruct n; simpl in IH; rewrite ?list.Forall_cons in IH; unfold evaluate_node in H.
  1-3: ok_inv; reflexivity.
  - eapply keeps_call; [exact Hn| |exact H]. by apply Forall_map.
  - destruct IH as [IH _]. ok_inv;
      repeat match goal with
      | E : boolean _ _ _ = Ok _ |- _ => apply keeps_boolean in E; [|done]
      | E : numeric _ _ _ = Ok _ |- _ => apply keeps_numeric in E; [|done]
      end; chain_R.
  - destruct IH as (IHl & IHr & _). eapply keeps_binary; [| |exact H]; done.
  - destruct IH as (IHc & IHy & IHn & _).
    destruct (boolean _ _ _) as [[b st1]|] eqn:E; [|done].
    assert (Hb : R st st1) by (eapply keeps_boolean; [|exact E]; exact IHc).
    destruct b; [destruct (rule_index _ _) as [i|] eqn:Ei|].
    + etransitivity; [by eapply R_matched|by eapply IHy].
    + etransitivity; [exact Hb|by eapply IHy].
    + etransitivity; [exact Hb|by eapply IHn].
Qed.
End State.
