(* ===== verification/Trace.v ===== *)
(** What an evaluation records: the bill it returns is finite and non-negative,
    the billing unit agrees with the fixed price, and a rule marked as matched
    is a rule whose condition holds in the context. *)
From Stdlib Require Import ZArith Lia Bool String.
From stdpp Require Import base list option.
From S2P Require Import Prelude JsString JsNumber Types JsValue Compile Runtime RuntimeFacts.

Section Trace.
Context {P : Platform}.
Variable comp : compiled.
Variable cx : context.
Variable hdrs : list (jsstr * jsstr).
Variable clock : date.

Abbreviation eval := (evaluate comp cx hdrs clock).

(** * Evaluation does not depend on the state *)

(** The cache of time zones holds what the clock says. *)
Definition times_ok (st : runtime) : Prop :=
  forall z v, own (timeValues st) z = Some v -> timeInBillingZone clock z = Ok v.

(** A computation that succeeds succeeds again with the same value from any
    other consistent state, at any smaller depth. *)
Definition replays {A} (f : nat -> runtime -> result exn (A * runtime)) : Prop :=
  forall d1 d2 st1 st2 v st1', d2 <= d1 -> times_ok st1 -> times_ok st2 ->
  f d1 st1 = Ok (v, st1') ->
  times_ok st1' /\ exists st2', f d2 st2 = Ok (v, st2') /\ times_ok st2'.

Lemma replays_boolean (a : operand) : replays a.2 -> replays (boolean a).
Proof.
  intros Ha d1 d2 st1 st2 v st1' Hd H1 H2 H. unfold boolean in *. ok_inv.
  edestruct Ha as (Hk & st2' & -> & Hk2); [exact Hd|exact H1|exact H2|eassumption|].
  split; [done|]. rewrite E0. eauto.
Qed.

Lemma replays_numeric (a : operand) : replays a.2 -> replays (numeric a).
Proof.
  intros Ha d1 d2 st1 st2 v st1' Hd H1 H2 H. unfold numeric in *. ok_inv.
  edestruct Ha as (Hk & st2' & -> & Hk2); [exact Hd|exact H1|exact H2|eassumption|].
  split; [done|]. rewrite E0. eauto.
Qed.

Lemma replays_string (a : operand) : replays a.2 -> replays (string_arg a).
Proof.
  intros Ha d1 d2 st1 st2 v st1' Hd H1 H2 H. unfold string_arg in *. ok_inv.
  edestruct Ha as (Hk & st2' & -> & Hk2); [exact Hd|exact H1|exact H2|eassumption|].
  split; [done|]. rewrite E0. eauto.
Qed.

(** Sequencing of replayable computations. *)
Lemma replays_bind {A B} (f : nat -> runtime -> result exn (A * runtime))
    (k : A -> nat -> runtime -> result exn (B * runtime)) :
  replays f -> (forall a, replays (k a)) ->
  replays (fun d st => let! (a, st) := f d st in k a d st).
Proof.
  intros Hf Hk d1 d2 st1 st2 v st1' Hd H1 H2 H.
  destruct (f d1 st1) as [[a s1]|] eqn:E; [|done].
  destruct (Hf _ _ _ st2 _ _ Hd H1 H2 E) as (Hs1 & s2 & -> & Hs2).
  by apply (Hk a d1 d2 s1 s2).
Qed.

Lemma replays_ret {A} (r : result exn A) :
  replays (fun _ st => let! v := r in Ok (v, st)).
Proof.
  intros d1 d2 st1 st2 v st1' Hd H1 H2 H. destruct r; [|done]. ok_inv. eauto.
Qed.

(** A computation that writes fields other than the time cache. *)
Lemma replays_write {A} (v : A) (w : runtime -> runtime) :
  (forall st, timeValues (w st) = timeValues st) -> replays (fun _ st => Ok (v, w st)).
Proof.
  intros Hw d1 d2 st1 st2 v' st1' Hd H1 H2 H. ok_inv.
  split; [|eexists; split; [done|]]; intros z t; rewrite Hw; auto.
Qed.

Lemma replays_throw {A} (e : exn) : replays (fun _ _ => @Err exn (A * runtime) e).
Proof. by intros d1 d2 st1 st2 v st1' _ _ _ H. Qed.

Lemma replays_ok {A} (v : A) : replays (fun _ st => Ok (v, st)).
Proof. by apply (replays_write v id). Qed.

Lemma replays_result {A B} (r : result exn A) (k : A -> nat -> runtime -> result exn (B * runtime)) :
  (forall a, replays (k a)) -> replays (fun d st => let! a := r in k a d st).
Proof. intros Hk. destruct r; [apply Hk|apply replays_throw]. Qed.

Hint Resolve replays_boolean replays_numeric replays_string replays_ok replays_throw
  replays_ret : newapi.

Lemma replays_binary s op (l r : operand) :
  replays l.2 -> replays r.2 -> replays (binary s op l r).
Proof.
  intros Hl Hr. unfold binary. destruct (op === "&&"); [|destruct (op === "||")].
  - apply replays_bind; [auto with newapi|]. intros [|]; [|auto with newapi].
    apply replays_bind; auto with newapi.
  - apply replays_bind; [auto with newapi|]. intros [|]; [auto with newapi|].
    apply replays_bind; auto with newapi.
  - apply replays_bind; [done|]. intros a. apply replays_bind; [done|].
    intros b. apply replays_ret.
Qed.

Lemma replays_arg (args : list operand) i :
  Forall (fun a => replays a.2) args -> replays (arg args i).2.
Proof.
  intros H. unfold arg. destruct (args !! i) as [a|] eqn:E; [|apply replays_throw].
  exact (Forall_lookup_1 _ _ _ _ H E).
Qed.

Lemma replays_pair f (args : list operand) :
  Forall (fun a => replays a.2) args -> replays (numeric_pair f args).
Proof.
  intros Ha. unfold numeric_pair.
  apply replays_bind; [auto using replays_arg with newapi|]. intros [x ?].
  apply replays_bind; [auto using replays_arg with newapi|]. intros [y ?]. apply replays_ok.
Qed.

Lemma replays_one f (args : list operand) :
  Forall (fun a => replays a.2) args -> replays (numeric_one f args).
Proof.
  intros Ha. unfold numeric_one.
  apply replays_bind; [auto using replays_arg with newapi|]. intros [x ?]. apply replays_ok.
Qed.

Lemma times_ok_set z v st : times_ok st -> timeInBillingZone clock z = Ok v ->
  times_ok (set_times z v st).
Proof.
  intros H Hv z' v' Hz. simpl in Hz.
  assert (Ho : own (timeValues st ++ [(z, v)]) z' =
               match own (timeValues st) z' with
               | Some w => Some w
               | None => if str_eqb z' z then Some v else None
               end).
  { clear. induction (timeValues st) as [|[k w] l IH]; simpl; [done|].
    destruct (str_eqb z' k); [done|]. apply IH. }
  rewrite Ho in Hz. destruct (own (timeValues st) z') as [w|] eqn:E; [|].
  - injection Hz as <-. auto.
  - destruct (str_eqb_reflect z' z) as [->|]; [|done]. by injection Hz as <-.
Qed.

Lemma replays_time name (args : list operand) :
  Forall (fun a => replays a.2) args -> replays (call_time clock name args).
Proof.
  intros Ha. unfold call_time.
  apply replays_bind; [auto using replays_arg with newapi|]. intros z.
  intros d1 d2 st1 st2 v st1' Hd H1 H2 H.
  assert (Hv : exists w, timeInBillingZone clock (trim z) = Ok w /\ times_ok st1' /\
                 v = RValue (JNum (time_value w name)) true).
  { destruct (own (timeValues st1) (trim z)) as [w|] eqn:E; ok_inv; eauto 6 using times_ok_set. }
  destruct Hv as (w & Hw & Hk & ->). split; [done|].
  destruct (own (timeValues st2) (trim z)) as [w'|] eqn:E'.
  - pose proof (H2 _ _ E') as Hw'. rewrite Hw in Hw'. injection Hw' as <-. eauto.
  - rewrite Hw. eauto using times_ok_set.
Qed.

Ltac split_tests :=
  repeat match goal with
  | |- replays (fun d st => if ?b then _ else _) => destruct b
  | |- replays (fun d st => match ?x with _ => _ end) => destruct x
  end.

Ltac replay_leaf := split_tests; first [apply replays_throw | apply replays_ok].

Lemma replays_call s name (args : list operand) :
  Forall (fun a => replays a.2) args -> replays (call cx hdrs clock s name args).
Proof.
  intros Ha. pose proof (fun i => replays_arg args i Ha) as Hi. unfold call. split_tests.
  - apply replays_bind; [auto with newapi|]. intros [x ?]. by apply replays_write.
  - apply replays_bind; [auto with newapi|]. intros label.
    apply replays_bind; [auto with newapi|]. intros [x ?]. by apply replays_write.
  - apply replays_bind; [auto with newapi|]. intros p. replay_leaf.
  - apply replays_bind; [auto with newapi|]. intros p. replay_leaf.
  - apply replays_bind; [auto with newapi|]. intros p. replay_leaf.
  - apply replays_bind; [auto with newapi|]. intros v.
    apply replays_bind; [auto with newapi|]. intros t. replay_leaf.
  - by apply replays_pair.
  - by apply replays_pair.
  - by apply replays_one.
  - by apply replays_one.
  - by apply replays_one.
  - apply replays_throw.
  - by apply replays_time.
Qed.

Lemma replays_node n :
  Forall (fun c => replays (eval c)) (children n) -> replays (evaluate_node comp cx hdrs clock n).
Proof.
  intros IH. destruct n; simpl in IH; rewrite ?list.Forall_cons in IH.
  - apply replays_ok.
  - apply replays_ret.
  - apply replays_ok.
  - apply replays_call. by apply Forall_map.
  - destruct IH as [IH _]. unfold evaluate_node. split_tests.
    + apply replays_bind; [by apply replays_boolean|]. intros b. apply replays_ok.
    + apply replays_bind; [by apply replays_numeric|]. intros [x int]. apply replays_ok.
  - destruct IH as (IHl & IHr & _). by apply replays_binary.
  - destruct IH as (IHc & IHy & IHn & _).
    apply replays_bind; [by apply replays_boolean|]. intros [|]; [|done].
    intros d1 d2 st1 st2 v st1' Hd H1 H2 H.
    destruct (rule_index comp _) as [i|].
    + exact (IHy d1 d2 (set_matched i st1) (set_matched i st2) v st1' Hd H1 H2 H).
    + exact (IHy d1 d2 st1 st2 v st1' Hd H1 H2 H).
Qed.

Lemma replays_evaluate n : replays (eval n).
Proof.
  induction n as [n IH] using node_children_ind.
  intros d1 d2 st1 st2 v st1' Hd H1 H2 H.
  apply evaluate_Ok in H as (H & Hc & Hm).
  destruct (replays_node n IH (S d1) (S d2) st1 st2 v st1' ltac:(lia) H1 H2 H) as (Hs & s2 & E & Hs2).
  split; [done|]. exists s2. split; [|done]. rewrite evaluate_unfold, E, Hc.
  destruct (256 <? S d2) eqn:E2; bools; [lia|done].
Qed.

(** * Rule traces *)

(** The rules of a compiled expression: each is the conditional node it was
    collected from, and nodes are told apart by their spans. *)
Definition rules_ok : Prop :=
  forall i s e c y no, NConditional s e c y no ∈ subnodes (c_ast comp) ->
  rule_index comp (NConditional s e c y no) = Some i ->
  exists r, c_requestRules comp !! i = Some r /\ r_condition r = c.

(** The condition of rule [i] evaluates to true in this context. *)
Definition rule_holds (i : nat) : Prop :=
  exists r v d st st', c_requestRules comp !! i = Some r /\ times_ok st /\
    eval (r_condition r) d st = Ok (v, st') /\ rv v = JBool true.

Definition marked (st : runtime) (i : nat) : Prop := matched st !! i = Some true.

(** Between two states of one evaluation, newly marked rules hold. *)
Definition marks (st st' : runtime) : Prop :=
  times_ok st -> times_ok st' /\ forall i, marked st' i -> marked st i \/ rule_holds i.

#[local] Instance marks_preorder : PreOrder marks.
Proof.
  split.
  - intros st H. split; [done|]. by left.
  - intros st1 st2 st3 H12 H23 H. destruct (H12 H) as [H2 Hm2]. destruct (H23 H2) as [H3 Hm3].
    split; [done|]. intros i Hi. apply Hm3 in Hi as [Hi|Hi]; auto.
Qed.

Lemma marked_set i j st : marked (set_matched j st) i -> marked st i \/ i = j.
Proof.
  unfold marked. simpl. destruct (decide (i = j)) as [->|Hne]; [by right|].
  rewrite list_lookup_insert_ne by done. by left.
Qed.

Lemma ast_children n : n ∈ subnodes (c_ast comp) ->
  Forall (fun c => c ∈ subnodes (c_ast comp)) (children n).
Proof.
  intros H. apply Forall_elem. intros c Hc. eapply subnodes_trans; [exact H|].
  eapply subnodes_child; [exact Hc|apply subnodes_self].
Qed.

Lemma marks_evaluate n : rules_ok -> n ∈ subnodes (c_ast comp) -> keeps marks (eval n).
Proof.
  intros Hr.
  apply (keeps_evaluate comp cx hdrs clock marks)
    with (tree := fun n => n ∈ subnodes (c_ast comp)); [exact ast_children|..].
  - intros s e c y no i d st st' Hn Hi Hb Hm Hok. destruct (Hm Hok) as [Hok' Hm'].
    split; [exact Hok'|]. intros j Hj. apply marked_set in Hj as [Hj| ->]; [auto|].
    right. apply Hr in Hi as (r & Hl & <-); [|done]. unfold boolean in Hb.
    destruct ((operand_of comp cx hdrs clock (r_condition r)).2 d st) as [[v s']|] eqn:E; [|done].
    exists r, v, d, st, s'. split_and!; try done. by destruct (rv v) as [| |[]| | | |].
  - intros ? ? ? t st _ H. split; [done|]. by left.
  - intros ? ? ? a st _ H. split; [done|]. by left.
  - intros z v st Hz H. split; [by apply times_ok_set|]. by left.
Qed.

(** ** Other invariants of the state *)

(** A fixed price has been recorded exactly when the unit is per request. *)
Definition unit_ok (st : runtime) : Prop :=
  billingUnit st = URequest <-> fixedPrice st <> None.

Definition grows (st st' : runtime) : Prop :=
  (unit_ok st -> unit_ok st') /\ length (matched st') = length (matched st) /\
  forall i, marked st i -> marked st' i.

#[local] Instance grows_preorder : PreOrder grows.
Proof. split; [by intros st|]. intros a b c (? & ? & ?) (? & ? & ?). split_and!; [auto|lia|auto]. Qed.

Lemma grows_evaluate n : keeps grows (eval n).
Proof.
  apply (keeps_evaluate comp cx hdrs clock grows) with (tree := fun _ => True); try done.
  - intros m _. by apply Forall_true.
  - intros s e c y no i d st st' _ _ _ (Hu & Hl & Hm). split_and!; [done| |].
    + simpl. by rewrite length_insert.
    + intros j Hj. apply Hm in Hj. unfold marked in *. simpl.
      destruct (decide (i = j)) as [->|]; [|by rewrite list_lookup_insert_ne].
      apply list_lookup_insert_eq. by eapply lookup_lt_Some.
Qed.

End Trace.

(** * What a compiled expression and a bill guarantee *)

Lemma compiled_rules_ok source comp : compile_try source = Ok comp -> rules_ok comp.
Proof.
  intros Hc i s e c y no Hn Hi. apply find_index_Some in Hi as (r & Hr & Hsame).
  exists r. split; [done|].
  assert (Hw : rule_wf (c_ast comp) r).
  { eapply Forall_lookup_1; [by eapply compiled_rules_wf|exact Hr]. }
  destruct Hw as [Hin (s' & e' & ? & ? & ? & ? & ? & ? & ? & Er & _)].
  eapply same_node_compiled in Hsame; [|exact Hc|exact Hin|exact Hn].
  congruence.
Qed.

Section Bill.
Context {P : Platform}.

(** A successful bill comes from a compiled expression and a run of its tree. *)
Lemma bill_inv source cx new_Date c cost unit fixed tier rules :
  cache_ok c ->
  (evaluateBillingExpression source cx new_Date c).1 = Success cost unit fixed tier rules ->
  exists comp v st, compile_try source = Ok comp /\
    run comp cx new_Date (c_ast comp) = Ok (v, st) /\
    rv v = JNum cost /\ is_finite cost = true /\ num_ltb cost num_zero = false /\
    unit = billingUnit st /\ fixed = fixedPrice st /\ tier = matchedTier st /\
    rules = traces comp st.
Proof.
  intros Hc H. unfold evaluateBillingExpression in H.
  pose proof (compile_cached_result source c Hc) as Hf.
  destruct (compileBillingExpression source c) as [comp c']. simpl in *. subst comp.
  unfold compile_fresh in H. destruct (compile_try source) as [comp|]; [|done].
  simpl in H. destruct (evaluate_try comp cx new_Date) as [[n st]|] eqn:E; [|done].
  injection H as <- <- <- <- <-. unfold evaluate_try in E.
  destruct (check_tokens _); [|done].
  destruct (run comp cx new_Date (c_ast comp)) as [[v st']|] eqn:Er; [|done].
  destruct (rv v) as [| |b|x| | |] eqn:Ev; try done.
  destruct (is_finite x && negb (num_ltb x num_zero)) eqn:Eb; [|done].
  injection E as <- <-. apply andb_true_iff in Eb as [? ?%negb_true_iff].
  exists comp, v, st'. auto 10.
Qed.

Lemma run_inv comp cx new_Date n v st :
  run comp cx new_Date n = Ok (v, st) ->
  exists hdrs clock, construct cx new_Date = Ok (hdrs, clock) /\
    evaluate comp cx hdrs clock n 0 (init_runtime comp) = Ok (v, st).
Proof.
  unfold run. destruct (construct cx new_Date) as [[hdrs clock]|]; [|done]. eauto.
Qed.

(** C32. A successful evaluation returns a finite, non-negative amount; it has one
    trace entry per request rule of the compiled expression; and the unit is
    per request exactly when a fixed price was recorded. *)
Theorem bill_wellformed source cx new_Date c cost unit fixed tier rules :
  cache_ok c ->
  (evaluateBillingExpression source cx new_Date c).1 = Success cost unit fixed tier rules ->
  is_finite cost = true /\ num_leb num_zero cost = true /\
  (unit = URequest <-> fixed <> None) /\
  exists comp, compile_try source = Ok comp /\
    map t_cond rules = map r_cond (c_requestRules comp) /\
    map t_multiplier rules = map r_multiplier (c_requestRules comp).
Proof.
  intros Hc H.
  destruct (bill_inv _ _ _ _ _ _ _ _ _ Hc H)
    as (comp & v & st & Hcomp & Hr & _ & Hfin & Hneg & -> & -> & -> & ->).
  apply run_inv in Hr as (hdrs & clock & _ & Hev).
  destruct (grows_evaluate _ _ _ _ _ _ _ _ _ Hev) as (Hu & Hl & _).
  split_and!; [done|by apply num_leb_not_ltb|by apply Hu|].
  exists comp. simpl in Hl. rewrite length_map in Hl. unfold traces.
  split_and!; [done| |]; clear - Hl; revert Hl;
    generalize (matched st) as m; induction (c_requestRules comp) as [|r l IH];
    intros [|b m] [=]; simpl; f_equal; auto.
Qed.

(** A rule that a bill reports as matched is a rule of the expression whose
    condition, evaluated by itself in the same context, is true. *)
Theorem matched_rule_holds source cx new_Date c cost unit fixed tier rules i t :
  cache_ok c ->
  (evaluateBillingExpression source cx new_Date c).1 = Success cost unit fixed tier rules ->
  rules !! i = Some t -> t_matched t = true ->
  exists comp r v st, compile_try source = Ok comp /\
    c_requestRules comp !! i = Some r /\
    t_cond t = r_cond r /\ t_multiplier t = r_multiplier r /\
    run comp cx new_Date (r_condition r) = Ok (v, st) /\ rv v = JBool true.
Proof.
  intros Hc H Ht Hm.
  destruct (bill_inv _ _ _ _ _ _ _ _ _ Hc H)
    as (comp & v & st & Hcomp & Hr & _ & _ & _ & _ & _ & _ & ->).
  apply run_inv in Hr as (hdrs & clock & Hcon & Hev).
  unfold traces in Ht. apply lookup_zip_with_Some in Ht as (r & b & -> & Hri & Hb).
  simpl in Hm. subst b.
  destruct (marks_evaluate comp cx hdrs clock (c_ast comp) (compiled_rules_ok _ _ Hcomp)
    (subnodes_self _) _ _ _ _ Hev) as [_ Hmarks]; [by intros z w Hz|].
  destruct (Hmarks i Hb) as [Hi|(r' & w & d & s & s' & Hr' & Hs & Hw & Htrue)].
  { unfold marked, init_runtime in Hi. simpl in Hi.
    rewrite list_lookup_fmap, Hri in Hi. done. }
  rewrite Hri in Hr'. injection Hr' as <-.
  edestruct (replays_evaluate comp cx hdrs clock (r_condition r) d 0 s (init_runtime comp))
    as (_ & s2 & Hw2 & _); [lia|exact Hs|by intros z x Hz|exact Hw|].
  exists comp, r, w, s2. split_and!; try done. unfold run. by rewrite Hcon.
Qed.

End Bill.

(** A context with four tokens counted and a streaming request. *)
Definition sample_context : context :=
  Context (Some [(js "p", JNum (num_of_Z 4)); (js "c", JNum (num_of_Z 2))])
    (Some (Request (JObj [(js "stream", JBool true)]) None)) None (Some (Some 0%Z)) None.

Definition sample_source : jsstr :=
  js "tier('base', p * 3 + c) * (param('stream') == true ? 2 : 1)".

Lemma bill_wellformed_witness :
  exists cost unit fixed tier rules,
    (@evaluateBillingExpression plain_platform sample_source sample_context None []).1
      = Success cost unit fixed tier rules /\ is_finite cost = true /\
    num_leb num_zero cost = true.
Proof.
  do 5 eexists. split; [vm_compute; reflexivity|].
  edestruct (@bill_wellformed plain_platform sample_source sample_context None [])
    as (H1 & H2 & _); [exact cache_ok_empty|vm_compute; reflexivity|].
  split; [exact H1|exact H2].
Defined.

Lemma matched_rule_holds_witness :
  exists comp r v st, compile_try sample_source = Ok comp /\
    c_requestRules comp !! 0 = Some r /\
    @run plain_platform comp sample_context None (r_condition r) = Ok (v, st) /\
    rv v = JBool true.
Proof.
  edestruct (@matched_rule_holds plain_platform sample_source sample_context None [])
    with (i := 0) as (comp & r & v & st & H1 & H2 & _ & _ & H3 & H4);
    [exact cache_ok_empty|vm_compute; reflexivity|vm_compute; reflexivity|reflexivity|].
  exists comp, r, v, st. exact (conj H1 (conj H2 (conj H3 H4))).
Defined.
