(* ===== verification/TypeSound.v ===== *)
(** The static types of [checkExpressionTypes] against evaluation: a value has
    the type inferred for its expression, and an expression within the depth
    limit is never refused for its depth. *)
From Stdlib Require Import ZArith Lia Bool String.
From stdpp Require Import base list option gmap.
From S2P Require Import Prelude JsString JsNumber Types JsValue Grammar ParserFacts TypeCheck Compile Runtime RuntimeFacts Trace.

(** * Values of a type *)

Definition has_type (t : expression_type) (v : jsvalue) : Prop :=
  match t with
  | TNumber => exists n, v = JNum n
  | TString => exists s, v = JStr s
  | TBoolean => exists b, v = JBool b
  | TNil => v = JNull
  | TDynamic => True
  end.

(** A sum is static when one of its operands has a type other than dynamic: the
    checker takes [param('a') + param('b')] for a number, evaluation may
    concatenate two strings. *)
Definition static_sum (m : node) : Prop :=
  match m with
  | NBinary _ _ op l r =>
      (op === "+") = true -> infer l <> Ok TDynamic \/ infer r <> Ok TDynamic
  | _ => True
  end.

Definition static_sums (n : node) : Prop := Forall static_sum (subnodes n).

Lemma static_sums_children n : static_sums n -> Forall static_sums (children n).
Proof.
  intros H. apply Forall_elem. intros c Hc. apply Forall_elem. intros m Hm.
  apply (proj1 (Forall_elem _ _) H). by eapply subnodes_child.
Qed.

Lemma static_sums_self n : static_sums n -> static_sum n.
Proof. intros H. apply (proj1 (Forall_elem _ _) H), subnodes_self. Qed.

(** * The rule read on the types of the children *)

(** Inference is the rule applied to the inferred types of the children. *)
Lemma infer_rule n t :
  NoDup (map node_span (subnodes n)) -> infer n = Ok t ->
  exists get, type_rule get n = Ok t /\
    Forall (fun c => exists u, infer c = Ok u /\ get c = Some u) (children n).
Proof.
  intros Hn. rewrite infer_unfold.
  destruct (sequence (map infer (children n))) as [ts|] eqn:E; [|done]. intros H.
  exists (assoc_type (zip (children n) ts)). split; [done|].
  apply sequence_Ok in E. rewrite subnodes_spans in Hn. inversion Hn; subst.
  apply Forall_lookup_2. intros i c Hc.
  assert (Hi : map infer (children n) !! i = Some (infer c))
    by (by rewrite list_lookup_fmap, Hc).
  rewrite E, list_lookup_fmap in Hi. destruct (ts !! i) as [u|] eqn:Eu; [|done].
  injection Hi as Hi. exists u. split; [done|]. apply assoc_type_zip; eauto.
Qed.

Lemma nodup_children n : NoDup (map node_span (subnodes n)) ->
  Forall (fun c => NoDup (map node_span (subnodes c))) (children n).
Proof.
  rewrite subnodes_spans. intros H. inversion H as [|? ? _ H']; subst. clear H.
  induction (children n) as [|c cs IH]; [constructor|].
  rewrite forest_spans_cons in H'. apply list.NoDup_app in H' as (? & _ & ?).
  constructor; auto.
Qed.

(** * Soundness *)

(** Evaluate the tests on closed names in hypothesis [H]. *)
Ltac eval_tests_in H :=
  repeat match type of H with
  | context [str_eqb (js ?s) (js ?t)] =>
      let b := eval vm_compute in (str_eqb (js s) (js t)) in
      change (str_eqb (js s) (js t)) with b in H
  | context [one_of (js ?s) ?l] =>
      let b := eval vm_compute in (one_of (js s) l) in
      change (one_of (js s) l) with b in H
  end; cbv iota in H.

Lemma requireType_inv get c t u :
  requireType get c t = Ok tt -> get c = Some u -> u = t \/ u = TDynamic.
Proof.
  unfold requireType. intros H Hu. rewrite Hu in H.
  destruct (bool_decide (Some u = Some t)) eqn:E1; bools; [left; congruence|].
  destruct (bool_decide (Some u = Some TDynamic)) eqn:E2; bools; [right; congruence|done].
Qed.

Section Sound.
Context {P : Platform}.
Variable comp : compiled.
Variable cx : context.
Variable hdrs : list (jsstr * jsstr).
Variable clock : date.

Abbreviation op_of := (operand_of comp cx hdrs clock).

(** Successful evaluations of [n] have type [t]. *)
Definition yields (t : expression_type) (n : node) : Prop :=
  forall d st v st', evaluate comp cx hdrs clock n d st = Ok (v, st') -> has_type t (rv v).

Lemma call_sound get s name args t d st v st' :
  call_type get name args = Ok t ->
  call cx hdrs clock s name (map op_of args) d st = Ok (v, st') -> has_type t (rv v).
Proof.
  intros Ht H. unfold call in H.
  repeat match type of H with
  | (if ?b then _ else _) = _ =>
      let E := fresh "E" in destruct b eqn:E;
      [first [apply str_eqb_eq in E; subst name | idtac]|]
  end; unfold call_type in Ht; try (eval_tests_in Ht);
    unfold numeric_pair, numeric_one, call_time in H.
  all: try (ok_inv; simpl; eauto; fail).
  apply negb_false_iff in E10. pose proof E10 as Hin.
  apply one_of_In in E10 as (x & Hx & ->).
  repeat (destruct Hx as [<-|Hx]; [eval_tests_in Ht; ok_inv; simpl; eauto|]); done.
Qed.

(** The operators other than the connectives and comparisons. *)
Definition plain_operator (op : jsstr) : Prop :=
  one_of op ["&&"; "||"]%string = false /\
  one_of op ["=="; "!="; "<"; "<="; ">"; ">="]%string = false.

Lemma compare_values_plain op a b : plain_operator op -> compare_values op a b = None.
Proof.
  intros [_ H]. unfold one_of in H. simpl in H. bools. unfold compare_values.
  by destruct a, b; rewrite ?H1, ?H2, ?H3, ?H4.
Qed.

Lemma arithmetic_number s op x y int v :
  arithmetic s op x y int = Ok v -> exists n, rv v = JNum n.
Proof. unfold arithmetic. intros H. ok_inv; simpl; eauto. Qed.

(** A plain operator yields a number, or concatenates two strings. *)
Lemma binary_values_plain s op l r v :
  plain_operator op -> binary_values s op l r = Ok v ->
  (exists n, rv v = JNum n) \/
  ((op === "+") = true /\ exists x y, rv l = JStr x /\ rv r = JStr y /\ rv v = JStr (x ++ y)).
Proof.
  intros Hp H. unfold binary_values in H.
  destruct (one_of op ["=="; "!="]%string) eqn:E.
  { destruct Hp as [_ Hp]. unfold one_of in *. simpl in *. bools.
    rewrite H0, H1 in E. done. }
  rewrite compare_values_plain in H by done.
  destruct (rv l) eqn:El, (rv r) eqn:Er; try done; try (left; by eapply arithmetic_number).
  destruct (op === "+"); [|done]. injection H as <-. right. simpl. eauto 6.
Qed.

(** The other operators yield a boolean. *)
Lemma binary_boolean s op (l r : operand) d st v st' :
  one_of op ["&&"; "||"]%string = true \/
  one_of op ["=="; "!="; "<"; "<="; ">"; ">="]%string = true ->
  binary s op l r d st = Ok (v, st') -> exists b, rv v = JBool b.
Proof.
  intros Ho H. unfold binary in H.
  destruct Ho as [Ho|Ho]; apply one_of_In in Ho as (x & Hx & ->); simpl in Hx.
  - destruct Hx as [<-|[<-|[]]]; eval_tests_in H; ok_inv; simpl; eauto.
  - destruct (str_eqb (js x) (js "&&")) eqn:E1; [ok_inv; simpl; eauto|].
    destruct (str_eqb (js x) (js "||")) eqn:E2; [ok_inv; simpl; eauto|].
    destruct (l.2 d st) as [[a s1]|]; [|done]. destruct (r.2 d s1) as [[b s2]|]; [|done].
    unfold binary_values, compare_values, arithmetic in H.
    repeat (destruct Hx as [<-|Hx]; [eval_tests_in H; ok_inv; simpl; eauto|]); done.
Qed.

Lemma binary_sound get s op l r t d st v st' tl tr :
  binary_type get op l r = Ok t -> get l = Some tl -> get r = Some tr ->
  yields tl l -> yields tr r ->
  ((op === "+") = true -> tl <> TDynamic \/ tr <> TDynamic) ->
  binary s op (op_of l) (op_of r) d st = Ok (v, st') -> has_type t (rv v).
Proof.
  intros Ht Hl Hr Yl Yr Hs H. unfold binary_type in Ht.
  destruct (one_of op ["&&"; "||"]%string) eqn:E1;
    [ok_inv; eapply binary_boolean; [by left|exact H]|].
  destruct (one_of op _) eqn:E2 in Ht;
    [ok_inv; eapply binary_boolean; [by right|exact H]|].
  assert (Hp : plain_operator op) by done.
  unfold one_of in E1. simpl in E1. bools. unfold binary in H. rewrite H0, H1 in H.
  destruct ((op_of l).2 d st) as [[a s1]|] eqn:Ea; [|done].
  destruct ((op_of r).2 d s1) as [[b s2]|] eqn:Eb; [|done]. apply Yl in Ea. apply Yr in Eb.
  destruct (binary_values s op a b) as [w|] eqn:Ew; [|done]. injection H as <- <-.
  rewrite Hl, Hr in Ht.
  destruct ((op === "+") && bool_decide (Some tl = Some TString) &&
            bool_decide (Some tr = Some TString)) eqn:Ec in Ht; bools.
  - injection Ht as <-. simplify_eq. destruct Ea as [x Ea], Eb as [y Eb].
    apply str_eqb_eq in H. subst op. unfold binary_values in Ew.
    rewrite Ea, Eb in Ew. eval_tests_in Ew. injection Ew as <-. simpl. eauto.
  - destruct (requireType get l TNumber) as [[]|] eqn:Rl; [|done].
    destruct (requireType get r TNumber) as [[]|] eqn:Rr; [|done]. injection Ht as <-.
    eapply requireType_inv in Rl; [|exact Hl]. eapply requireType_inv in Rr; [|exact Hr].
    destruct (binary_values_plain _ _ _ _ _ Hp Ew) as [?|(Ho & x & y & Ex & Ey & _)]; [done|].
    destruct (Hs Ho) as [Hd|Hd].
    + destruct Rl as [->| ->]; [|done]. destruct Ea as [? Ea]. congruence.
    + destruct Rr as [->| ->]; [|done]. destruct Eb as [? Eb]. congruence.
Qed.

Lemma infer_sound n : forall t,
  NoDup (map node_span (subnodes n)) -> static_sums n -> infer n = Ok t -> yields t n.
Proof.
  induction n as [n IH] using node_children_ind. intros t Hn Hs Ht d st v st' H.
  destruct (infer_rule n t Hn Ht) as (get & Hr & Hc).
  apply evaluate_Ok in H as (H & _ & _).
  assert (Y : Forall (fun c => exists u, infer c = Ok u /\ get c = Some u /\ yields u c) (children n)).
  { apply nodup_children in Hn. pose proof (static_sums_children n Hs) as Hs'.
    rewrite Forall_elem in *. intros c Hin. destruct (Hc c Hin) as (u & Hu & Hg). exists u.
    split_and!; [done|done|]. apply IH; auto. }
  clear IH Hc. apply static_sums_self in Hs.
  destruct n as [? ? lv ?|? ? x|? ? x|? ? f args|? ? o a|? ? o l r|? ? c y no];
    simpl in Y, Hr; unfold evaluate_node in H; rewrite ?list.Forall_cons in Y.
  - injection Hr as <-. injection H as <- _. destruct lv; simpl; eauto.
  - injection Hr as <-. unfold variable_value in H. ok_inv; simpl; eauto.
  - by injection Hr as <-.
  - by eapply call_sound.
  - ok_inv; simpl; eauto.
  - destruct Y as ((tl & Il & Gl & Yl) & (tr & Ir & Gr & Yr) & _).
    eapply binary_sound; [exact Hr|exact Gl|exact Gr|done|done| |exact H].
    intros Ho. simpl in Hs. rewrite Il, Ir in Hs.
    destruct (Hs Ho); [left|right]; congruence.
  - destruct Y as (_ & (ty & _ & Gy & Yy) & (tn & _ & Gn & Yn) & _).
    destruct (requireType get c TBoolean) as [[]|]; [|done]. rewrite Gy, Gn in Hr.
    destruct (boolean _ (S d) st) as [[b s1]|]; [|done].
    destruct (bool_decide (Some ty = Some tn)) eqn:E; bools; injection Hr as <-; [|done].
    injection E as <-. destruct b; [|by eapply Yn]. destruct (rule_index _ _); by eapply Yy.
Qed.

End Sound.

Lemma infer_subnode n m t :
  NoDup (map node_span (subnodes n)) -> infer n = Ok t -> m ∈ subnodes n ->
  NoDup (map node_span (subnodes m)) /\ exists u, infer m = Ok u.
Proof.
  revert t. induction n as [n IH] using node_children_ind. intros t Hn Ht Hm.
  pose proof Hm as Hm'. rewrite subnodes_unfold in Hm'.
  apply elem_of_cons in Hm' as [->|Hm']; [eauto|].
  apply list_elem_of_In, in_concat in Hm' as (l & Hl & Hin).
  apply in_map_iff in Hl as (c & <- & Hc). apply list_elem_of_In in Hc, Hin.
  destruct (infer_rule n t Hn Ht) as (get & _ & Hcs). apply nodup_children in Hn.
  rewrite Forall_elem in *. destruct (Hcs c Hc) as (u & Hu & _). eauto.
Qed.

(** C31. Type soundness. Every sub-expression of an expression that compiles has
    an inferred type, and whatever it evaluates to has that type, provided that no
    sum in it adds two dynamically typed operands ([static_sums]).  The condition is
    needed: such a sum is inferred to be a number, and may join texts ([dynamic_sum_joins]). *)
Theorem type_soundness source comp n :
  compile_try source = Ok comp -> n ∈ subnodes (c_ast comp) ->
  exists t, infer n = Ok t /\
    (static_sums n -> forall (P : Platform) cx hdrs clock d st v st',
      evaluate comp cx hdrs clock n d st = Ok (v, st') -> has_type t (rv v)).
Proof.
  intros Hc Hn. pose proof (compiled_spans _ _ Hc) as Hd.
  apply compile_try_inv in Hc as (_ & _ & Ht & _).
  apply (checkExpressionTypes_infer _ Hd) in Ht as [_ [t Ht]].
  destruct (infer_subnode _ _ _ Hd Ht Hn) as [Hd' [u Hu]].
  exists u. split; [done|]. intros Hs P cx hdrs clock. by apply infer_sound.
Qed.

Lemma type_soundness_witness :
  exists comp, compile_try (js "p > 10 ? 'a' : header('x') + 'b'") = Ok comp /\
    exists t, infer (c_ast comp) = Ok t /\
      forall (P : Platform) cx hdrs clock d st v st',
        evaluate comp cx hdrs clock (c_ast comp) d st = Ok (v, st') -> has_type t (rv v).
Proof.
  eexists. split; [vm_compute; reflexivity|].
  edestruct (type_soundness (js "p > 10 ? 'a' : header('x') + 'b'")) as (t & Ht & Hs);
    [vm_compute; reflexivity|apply subnodes_self|].
  exists t. split; [exact Ht|]. apply Hs.
  repeat first [apply Forall_nil_2 | apply Forall_cons_2]; try exact I;
    intros _; right; discriminate.
Defined.

(** A sum of two parameters of the request has the type of numbers and joins texts. *)
Example dynamic_sum_joins :
  exists comp cx v st, compile_try (js "param('a') + param('b')") = Ok comp /\ infer (c_ast comp) = Ok TNumber /\
    @evaluate plain_platform comp cx [] (Some 0%Z) (c_ast comp) 0 (init_runtime comp) = Ok (v, st) /\ rv v = JStr (js "xy").
Proof.
  eexists. exists (Context None (Some (Request (JObj [(js "a", JStr (js "x")); (js "b", JStr (js "y"))]) None)) None None None).
  do 2 eexists. split; [vm_compute; reflexivity|]. split; [vm_compute; reflexivity|].
  split; [vm_compute; reflexivity|]. reflexivity.
Qed.

(** * Depth *)

Section Depth.
Context {P : Platform}.
Variable comp : compiled.
Variable cx : context.
Variable hdrs : list (jsstr * jsstr).
Variable clock : date.

(** The exception of [evaluate] on a depth of more than 256. *)
Definition too_deep : exn :=
  BillingExpressionError (Diagnostic limit (js "evaluation depth") None).

(** A computation that does not throw it. *)
Definition shallow {A} (m : result exn A) : Prop := m <> Err too_deep.

Lemma shallow_ok {A} (a : A) : shallow (Ok a).
Proof. done. Qed.

Lemma shallow_throw {A} c d p :
  c <> limit \/ p <> None \/ d <> js "evaluation depth" -> shallow (@throw A c d p).
Proof. unfold shallow, throw, too_deep. intros H [=]. tauto. Qed.

Lemma shallow_bind {A B} (m : result exn A) (k : A -> result exn B) :
  shallow m -> (forall a, shallow (k a)) -> shallow (let! a := m in k a).
Proof. destruct m; [auto|]. unfold shallow. intros H _ [=]. congruence. Qed.

(** Close the goal by following the program text. *)
Ltac walk :=
  repeat first
    [ apply shallow_ok
    | assumption
    | match goal with |- shallow (throw _ _ _) => apply shallow_throw; first
        [left; discriminate | right; left; discriminate | right; right; discriminate] end
    | match goal with
      | |- shallow (match ?m with Ok _ => _ | Err _ => _ end) => apply shallow_bind; [|intros ?]
      | |- shallow (match ?x with _ => _ end) => destruct x
      end ].

Lemma shallow_map_result {A B} (f : A -> result exn B) l :
  Forall (fun x => shallow (f x)) l -> shallow (map_result f l).
Proof. induction 1; simpl; walk. Qed.

Lemma shallow_entry_texts l :
  Forall (fun e => shallow e.2) l -> shallow (entry_texts l).
Proof. induction 1 as [|[k r] l Hr _ IH]; simpl in *; walk. Qed.

Lemma shallow_billingString v : forall d, shallow (billingString v d).
Proof.
  induction v as [| | | | |l IH|f IH] using jsvalue_nested_ind; intros d; simpl;
    (destruct (128 <? d);
      [apply shallow_throw; right; right; vm_compute; discriminate|]); walk.
  - unfold billing_number. walk.
  - apply shallow_map_result. rewrite Forall_elem in *. auto.
  - apply shallow_entry_texts, Forall_elem. intros e He. rewrite sort_entries_elem in He.
    apply list_elem_of_In, in_map_iff in He as (x & <- & Hx). simpl.
    rewrite Forall_elem in IH. apply IH. by apply list_elem_of_In.
Qed.

Lemma shallow_readRequestPath body path : shallow (readRequestPath body path).
Proof.
  unfold readRequestPath. destruct (trim path) as [|c cs]; [done|]. apply shallow_bind.
  - generalize (c :: cs) at 1 as p. generalize (@nil Z) as w, (@nil jsstr) as ps.
    intros ps w p. revert ps w. generalize (c :: cs) as r. clear c cs.
    induction r as [r IH] using list_length_ind. intros ps w. destruct r as [|x r]; simpl; walk.
    all: apply IH; simpl; lia.
  - intros parts. revert body. generalize (c :: cs) as p. clear. intros p.
    induction parts as [|key parts IH]; intros body; simpl; walk; apply IH.
Qed.

Lemma shallow_time z : shallow (timeInBillingZone clock z).
Proof. unfold timeInBillingZone. walk. Qed.

(** An operand that can be evaluated at depth [d]. *)
Definition shallow_at (d : nat) (a : operand) : Prop := forall st, shallow (a.2 d st).

Lemma shallow_boolean a d st : shallow_at d a -> shallow (boolean a d st).
Proof. intros H. unfold boolean. apply shallow_bind; [apply H|]. intros [? ?]. walk. Qed.

Lemma shallow_numeric a d st : shallow_at d a -> shallow (numeric a d st).
Proof. intros H. unfold numeric. apply shallow_bind; [apply H|]. intros [? ?]. walk. Qed.

Lemma shallow_string a d st : shallow_at d a -> shallow (string_arg a d st).
Proof. intros H. unfold string_arg. apply shallow_bind; [apply H|]. intros [? ?]. walk. Qed.

Lemma shallow_arg (args : list operand) d i :
  Forall (shallow_at d) args -> shallow_at d (arg args i).
Proof.
  intros H. unfold arg. destruct (args !! i) as [a|] eqn:E; [|intros st [=]].
  exact (Forall_lookup_1 _ _ _ _ H E).
Qed.

Ltac deep :=
  repeat first
    [ progress walk
    | apply shallow_boolean | apply shallow_numeric | apply shallow_string
    | apply shallow_billingString | apply shallow_readRequestPath | apply shallow_time
    | match goal with H : forall i, shallow_at _ (arg _ i) |- _ => apply H end
    | match goal with H : shallow_at _ ?a |- shallow (?a.2 _ _) => apply H end
    | assumption ].

Lemma shallow_call s name (args : list operand) d st :
  Forall (shallow_at d) args -> shallow (call cx hdrs clock s name args d st).
Proof.
  intros H. pose proof (fun i => shallow_arg args d i H) as Hi.
  unfold call, numeric_pair, numeric_one, call_time. deep.
Qed.

Lemma shallow_binary s op (l r : operand) d st :
  shallow_at d l -> shallow_at d r -> shallow (binary s op l r d st).
Proof. intros Hl Hr. unfold binary, binary_values, arithmetic. deep. Qed.

(** At depth [d], an expression of height at most [256 - d] does not hit the
    limit. *)
Lemma shallow_evaluate n : forall d st,
  d + node_height n <= 256 -> shallow (evaluate comp cx hdrs clock n d st).
Proof.
  induction n as [n IH] using node_children_ind. intros d st Hd.
  rewrite evaluate_unfold. rewrite node_height_unfold in Hd.
  destruct (256 <? S d) eqn:E; bools; [lia|]. apply shallow_bind.
  - assert (H : Forall (fun c => shallow_at (S d) (operand_of comp cx hdrs clock c)) (children n)).
    { assert (Hm : S d + max_list (map node_height (children n)) <= 256) by lia.
      clear Hd. induction IH as [|c cs Hc _ IHcs]; simpl in Hm; constructor.
      - intros s. apply Hc. lia.
      - apply IHcs. lia. }
    destruct n; simpl in H; rewrite ?list.Forall_cons in H; unfold evaluate_node.
    + done.
    + unfold variable_value. walk.
    + done.
    + apply shallow_call. by apply Forall_map.
    + destruct H as [H _]. deep.
    + destruct H as (Hl & Hr & _). by apply shallow_binary.
    + destruct H as (Hc & Hy & Hn & _). deep.
  - intros [v s]. unfold check_value. walk.
Qed.
End Depth.

(** Evaluation of an expression of at most 256 levels never fails with the
    depth limit, whatever the context; the compiler admits 257 levels. *)
Theorem evaluation_depth `{P : Platform} comp cx new_Date n :
  node_height n <= 256 -> run comp cx new_Date n <> Err too_deep.
Proof.
  intros Hn. unfold run. apply (shallow_bind (construct cx new_Date)).
  - unfold construct. apply shallow_bind; [|by intros].
    generalize (@nil (jsstr * jsstr)) as h.
    induction (match ctx_request cx with Some r => _ | None => _ end) as [|[k v] l IH];
      intros h; simpl; [done|]. destruct v; try (apply shallow_throw; left; discriminate). apply IH.
  - intros [hdrs clock]. apply shallow_evaluate. lia.
Qed.

Lemma evaluation_depth_witness :
  exists comp, compile_try sample_source = Ok comp /\ node_height (c_ast comp) <= 256 /\
    @run plain_platform comp sample_context None (c_ast comp) <> Err too_deep.
Proof.
  eexists. split; [vm_compute; reflexivity|]. split; [vm_compute; lia|].
  apply (@evaluation_depth plain_platform). vm_compute. lia.
Defined.

(** A sum of 257 ones: 257 levels. *)
Definition long_sum : jsstr := js "1" ++ concat (repeat (js "+1") 256).

(** The bounds of the two limits differ by one: a sum of 257 terms compiles,
    and every evaluation of it fails with the depth limit. *)
Theorem deepest_expression_never_evaluates :
  exists comp, compile_try long_sum = Ok comp /\ node_height (c_ast comp) = 257 /\
    forall (P : Platform) cx hdrs clock st,
      evaluate comp cx hdrs clock (c_ast comp) 0 st = Err too_deep.
Proof.
  eexists. split; [vm_compute; reflexivity|]. split; [vm_compute; reflexivity|].
  intros P cx hdrs clock st. vm_compute. reflexivity.
Qed.
