(* ===== verification/Frame.v ===== *)
(** The dependencies that compilation records are what evaluation reads: two
    contexts that agree on them give the same result. *)
From Stdlib Require Import ZArith Lia Bool String.
From stdpp Require Import base list option.
From S2P Require Import Prelude JsString JsNumber Types JsValue Compile Runtime RuntimeFacts Trace.

Section Frame.
Context {P : Platform}.

(** [context.tokens?.[name]]. *)
Definition token_of (cx : context) (x : jsstr) : option jsvalue :=
  match tokens cx with Some t => own t x | None => None end.

(** The expression reads [group] or [channel]. *)
Definition is_context (m : node) : bool :=
  match m with NContext _ _ _ => true | _ => false end.
Definition reads_context (n : node) : bool := existsb is_context (subnodes n).

(** Two evaluations that agree on the variables [vars], on what the functions
    [funs] read and, when [ctxs] is set, on [group] and [channel]. *)
Record agree (vars funs : list jsstr) (ctxs : bool) (cx cx' : context)
    (hdrs hdrs' : list (jsstr * jsstr)) (clock clock' : date) : Prop := Agree {
  agree_vars : forall x, x ∈ vars -> token_of cx x = token_of cx' x;
  agree_param : js "param" ∈ funs -> ctx_request cx = ctx_request cx';
  agree_header : js "header" ∈ funs ->
    hdrs = hdrs' /\ (ctx_request cx = None <-> ctx_request cx' = None);
  agree_usage : js "u" ∈ funs -> usage cx = usage cx';
  agree_time : forall f, In f TIME_FUNCTIONS -> js f ∈ funs -> clock = clock';
  agree_context : ctxs = true -> ctx cx = ctx cx';
}.

Section Two.
Variable comp : compiled.
Variables cx cx' : context.
Variables hdrs hdrs' : list (jsstr * jsstr).
Variables clock clock' : date.

(** Operands with the same position and the same behaviour. *)
Definition same_operand (a b : operand) : Prop :=
  a.1 = b.1 /\ forall d st, a.2 d st = b.2 d st.

Lemma same_boolean a b d st : same_operand a b -> boolean a d st = boolean b d st.
Proof. intros [E1 E2]. unfold boolean. by rewrite E1, E2. Qed.
Lemma same_numeric a b d st : same_operand a b -> numeric a d st = numeric b d st.
Proof. intros [E1 E2]. unfold numeric. by rewrite E1, E2. Qed.
Lemma same_string a b d st : same_operand a b -> string_arg a d st = string_arg b d st.
Proof. intros [E1 E2]. unfold string_arg. by rewrite E1, E2. Qed.

Lemma same_bind {A B} (m m' : result exn A) (k k' : A -> result exn B) :
  m = m' -> (forall a, k a = k' a) -> (let! a := m in k a) = (let! a := m' in k' a).
Proof. intros -> Hk. destruct m'; [apply Hk|done]. Qed.

Lemma same_binary s op l r l' r' d st :
  same_operand l l' -> same_operand r r' -> binary s op l r d st = binary s op l' r' d st.
Proof.
  intros Hl Hr. unfold binary. rewrite (same_boolean l l') by done.
  destruct (op === "&&"); [|destruct (op === "||")].
  1,2: apply same_bind; [done|]; intros [[] s1]; rewrite ?(same_boolean r r'); done.
  rewrite (proj2 Hl). apply same_bind; [done|]. intros [a s1]. by rewrite (proj2 Hr).
Qed.

Lemma same_arg args args' i :
  Forall2 same_operand args args' -> same_operand (arg args i) (arg args' i).
Proof.
  intros H. unfold arg. pose proof (proj1 (Forall2_lookup _ _ _) H i) as Hi.
  by inversion Hi.
Qed.

Lemma same_call s name args args' vars funs ctxs d st :
  agree vars funs ctxs cx cx' hdrs hdrs' clock clock' -> name ∈ funs ->
  Forall2 same_operand args args' ->
  call cx hdrs clock s name args d st = call cx' hdrs' clock' s name args' d st.
Proof.
  intros Ha Hn H. pose proof (fun i => same_arg args args' i H) as Hi.
  unfold call, numeric_pair, numeric_one.
  assert (E0n : forall d st, numeric (arg args 0) d st = numeric (arg args' 0) d st)
    by (intros; by apply same_numeric).
  assert (E0s : forall d st, string_arg (arg args 0) d st = string_arg (arg args' 0) d st)
    by (intros; by apply same_string).
  assert (E1n : forall d st, numeric (arg args 1) d st = numeric (arg args' 1) d st)
    by (intros; by apply same_numeric).
  assert (E1s : forall d st, string_arg (arg args 1) d st = string_arg (arg args' 1) d st)
    by (intros; by apply same_string).
  rewrite !E0n, !E0s, (proj2 (Hi 0)).
  destruct (name === "fixed"); [done|].
  destruct (name === "tier"); [apply same_bind; [done|]; intros [? ?]; by rewrite E1n|].
  destruct (name === "param") eqn:E; [apply str_eqb_eq in E; subst; by rewrite (agree_param _ _ _ _ _ _ _ _ _ Ha)|clear E].
  destruct (name === "header") eqn:E; [apply str_eqb_eq in E; subst|clear E].
  { destruct (agree_header _ _ _ _ _ _ _ _ _ Ha Hn) as [<- Hr].
    destruct (ctx_request cx), (ctx_request cx'); naive_solver. }
  destruct (name === "u") eqn:E; [apply str_eqb_eq in E; subst; by rewrite (agree_usage _ _ _ _ _ _ _ _ _ Ha)|clear E].
  destruct (name === "has"); [apply same_bind; [done|]; intros [? ?]; by rewrite E1s|].
  destruct (name === "min"); [apply same_bind; [done|]; intros [[? ?] ?]; by rewrite E1n|].
  destruct (name === "max"); [apply same_bind; [done|]; intros [[? ?] ?]; by rewrite E1n|].
  destruct (name === "abs"); [done|]. destruct (name === "floor"); [done|].
  destruct (name === "ceil"); [done|].
  destruct (one_of name TIME_FUNCTIONS) eqn:E; simpl; [|done].
  apply one_of_In in E as (f & Hf & ->). rewrite (agree_time _ _ _ _ _ _ _ _ _ Ha f Hf Hn).
  unfold call_time. by rewrite E0s.
Qed.

(** Evaluation of a tree whose variables and functions are among [vars] and
    [funs]. *)
Lemma same_evaluate vars funs ctxs n :
  agree vars funs ctxs cx cx' hdrs hdrs' clock clock' ->
  (forall x m, m ∈ subnodes n -> is_variable x m -> x ∈ vars) ->
  (forall f m, m ∈ subnodes n -> is_call f m -> f ∈ funs) ->
  (forall m, m ∈ subnodes n -> is_context m = true -> ctxs = true) ->
  forall d st, evaluate comp cx hdrs clock n d st = evaluate comp cx' hdrs' clock' n d st.
Proof.
  intros Ha. induction n as [n IH] using node_children_ind. intros Hv Hf Hx d st.
  rewrite !evaluate_unfold. destruct (256 <? S d); [done|].
  apply same_bind; [|done].
  assert (IH' : Forall (fun c => same_operand (operand_of comp cx hdrs clock c)
                                   (operand_of comp cx' hdrs' clock' c)) (children n)).
  { rewrite Forall_elem in *. intros c Hc. split; [done|].
    apply (IH c Hc); [intros x m Hm; eapply Hv|intros x m Hm; eapply Hf|intros m Hm; eapply Hx];
      by eapply subnodes_child. }
  clear IH. destruct n as [| ? ? x| |? ? f args|? ? o a|? ? o l r|? ? c y no];
    simpl in IH'; rewrite ?list.Forall_cons in IH'; unfold evaluate_node.
  - done.
  - unfold variable_value. pose proof (agree_vars _ _ _ _ _ _ _ _ _ Ha x) as E.
    unfold token_of in E. rewrite E; [done|]. eapply Hv; [apply subnodes_self|]. by do 2 eexists.
  - unfold context_value. rewrite (agree_context _ _ _ _ _ _ _ _ _ Ha); [done|].
    by apply (Hx _ (subnodes_self _)).
  - eapply same_call; [exact Ha| |].
    + eapply Hf; [apply subnodes_self|]. by do 3 eexists.
    + clear - IH'. induction IH'; simpl; constructor; done.
  - destruct IH' as [H _]. by rewrite (same_boolean _ _ _ _ H), (same_numeric _ _ _ _ H).
  - destruct IH' as (Hl & Hr & _). by apply same_binary.
  - destruct IH' as (Hc & Hy & Hn & _). rewrite (same_boolean _ _ _ _ Hc).
    apply same_bind; [done|]. intros [[] s1]; [apply (proj2 Hy)|apply (proj2 Hn)].
Qed.
End Two.

(** C33. The recorded dependencies, with the group and the channel, are all that an evaluation reads:
    evaluating a compiled expression gives the same outcome, errors included, in two contexts that agree on
    the variables it lists, on what the functions it lists read and, if it mentions one of them, on the group and the channel,
    which the recorded dependencies leave out. *)
Theorem evaluation_frame source comp cx cx' hdrs hdrs' clock clock' d st :
  compile_try source = Ok comp ->
  agree (c_variables comp) (c_functions comp) (reads_context (c_ast comp)) cx cx' hdrs hdrs' clock clock' ->
  evaluate comp cx hdrs clock (c_ast comp) d st = evaluate comp cx' hdrs' clock' (c_ast comp) d st.
Proof.
  intros (_ & _ & _ & Hd & _)%compile_try_inv Ha.
  destruct (expressionDependencies_spec _ _ Hd) as [Hv Hf].
  eapply same_evaluate; [exact Ha| | |].
  - intros x m Hm Hx. apply Hv. eauto.
  - intros f m Hm Hx. apply Hf. eauto.
  - intros m Hm Hx. apply existsb_exists. exists m. split; [by apply list_elem_of_In|done].
Qed.

End Frame.

(** The expression reads [p], [c] and the request body, not the clock, the usage
    or other counters. *)
Lemma evaluation_frame_witness :
  exists comp, compile_try sample_source = Ok comp /\
    let cx' := Context (Some [(js "cr", JNum (num_of_Z 9)); (js "c", JNum (num_of_Z 2));
                              (js "p", JNum (num_of_Z 4))])
                 (ctx_request sample_context) (Some []) None None in
    @evaluate plain_platform comp sample_context [] (Some 0%Z) (c_ast comp) 0 (init_runtime comp) =
    @evaluate plain_platform comp cx' [(js "a", js "b")] None (c_ast comp) 0 (init_runtime comp).
Proof.
  eexists. split; [vm_compute; reflexivity|]. cbv zeta.
  apply (@evaluation_frame plain_platform sample_source); [vm_compute; reflexivity|].
  constructor.
  - intros x Hx. repeat (apply elem_of_cons in Hx as [->|Hx]; [vm_compute; reflexivity|]).
    by apply not_elem_of_nil in Hx.
  - reflexivity.
  - intros Hx. exfalso. revert Hx. apply (bool_decide_unpack _). vm_compute. exact I.
  - intros Hx. exfalso. revert Hx. apply (bool_decide_unpack _). vm_compute. exact I.
  - intros f Hf Hx. exfalso. revert Hx.
    repeat (destruct Hf as [<-|Hf]; [apply (bool_decide_unpack _); vm_compute; exact I|]). done.
  - reflexivity.
Defined.
