(* ===== verification/Display.v ===== *)
(** [pricing/lib/billing-expression/display.ts]: reading the price tables shown
    to users (token tiers, time-dependent token tiers, task tiers) off a compiled
    expression. *)
From Stdlib Require Import ZArith Lia Bool String.
From stdpp Require Import base list option.
From S2P Require Import Prelude JsString JsNumber Types JsValue Compile Runtime.

(** * Token tiers *)

Record token_condition := TokenCondition {
  tc_var : jsstr;
  tc_op : jsstr;
  tc_value : number;
}.

Record token_tier := TokenTier {
  tt_unit : option billing_unit;
  tt_fixedPrice : option number;
  tt_label : jsstr;
  tt_conditions : list token_condition;
  tt_prices : list (jsstr * number);
}.

Fixpoint flattenBinary (n : node) (operator : jsstr) : list node :=
  match n with
  | NBinary _ _ op l r =>
      if str_eqb op operator then flattenBinary l operator ++ flattenBinary r operator
      else [n]
  | _ => [n]
  end.

Definition token_condition_of (part : node) : option token_condition :=
  match part with
  | NBinary _ _ op (NVariable _ _ name) (NLiteral _ _ (LNumber value) _) =>
      if one_of op ["<"; "<="; ">"; ">="]%string && one_of name ["p"; "c"; "len"]%string
         && negb (num_ltb value num_zero)
      then Some (TokenCondition name op value) else None
  | _ => None
  end.

(** A mapping that gives up at the first [None]. *)
Fixpoint map_option {A B} (f : A -> option B) (l : list A) : option (list B) :=
  match l with
  | [] => Some []
  | x :: l' =>
      match f x with
      | Some y => option_map (cons y) (map_option f l')
      | None => None
      end
  end.

Definition tokenConditions (n : node) : option (list token_condition) :=
  map_option token_condition_of (flattenBinary n (js "&&")).

Definition nonnegativePriceLiteral (n : node) : option number :=
  match n with
  | NLiteral _ _ (LNumber v) _ => if num_leb num_zero v then Some v else None
  | NUnary _ _ op (NLiteral _ _ (LNumber v) _) =>
      if (op === "-") && num_eqb v num_zero then Some (num_opp num_zero) else None
  | _ => None
  end.

(** [args[i]] where the code goes on to read a field of it. *)
Definition need {A} (args : list A) (i : nat) : result exn A :=
  match args !! i with Some a => Ok a | None => Err (NativeError []) end.

Definition string_literal (n : node) : option jsstr :=
  match n with NLiteral _ _ (LString s) _ => Some s | _ => None end.

Definition has_price (prices : list (jsstr * number)) (name : jsstr) : bool :=
  existsb (fun e => str_eqb name e.1) prices.

(** The loop over the terms of a tier. *)
Fixpoint token_prices (terms : list node) (prices : list (jsstr * number))
  : option (list (jsstr * number)) :=
  match terms with
  | [] => Some prices
  | NBinary _ _ op (NVariable _ _ name) r :: terms' =>
      match nonnegativePriceLiteral r with
      | Some price =>
          if (op === "*") && negb (name === "len") && negb (has_price prices name)
          then token_prices terms' (prices ++ [(name, price)]) else None
      | None => None
      end
  | _ => None
  end.

(** The body of a tier that is a fixed price per request. *)
Definition fixed_body (body : node) : result exn (option number) :=
  match body with
  | NCall _ _ f args =>
      if f === "fixed" then
        let! a := need args 0 in
        Ok (match a with NLiteral _ _ (LNumber v) _ => Some v | _ => None end)
      else Ok None
  | _ => Ok None
  end.

Definition tokenTier (n : node) (conditions : list token_condition)
  : result exn (option token_tier) :=
  match n with
  | NCall _ _ f args =>
      match (if f === "tier" then args !! 0 ≫= string_literal else None) with
      | None => Ok None
      | Some label =>
          let! body := need args 1 in
          let! fixed := fixed_body body in
          match fixed with
          | Some amount => Ok (Some (TokenTier (Some URequest) (Some amount) label conditions []))
          | None =>
              Ok (match token_prices (flattenBinary body (js "+")) [] with
                  | None | Some [] => None
                  | Some prices => Some (TokenTier None None label conditions prices)
                  end)
          end
      end
  | _ => Ok None
  end.

Definition guard_side (n : node) : bool :=
  match n with NContext _ _ _ | NLiteral _ _ _ _ | NVariable _ _ _ => true | _ => false end.
Definition context_side (n : node) : bool :=
  match n with NContext _ _ _ => true | _ => false end.

Definition isContextGuard (n : node) : bool :=
  match n with
  | NBinary _ _ op l r =>
      one_of op ["=="; "!="; "==="; "!=="]%string
      && (context_side l || context_side r) && (guard_side l && guard_side r)
  | _ => false
  end.

(** The [while] loop along the [no] branches, with its fallback. *)
Fixpoint tier_chain (n : node) (tiers : list token_tier) : result exn (option (list token_tier)) :=
  match n with
  | NConditional _ _ c y no =>
      match tokenConditions c with
      | None => Ok None
      | Some conditions =>
          let! t := tokenTier y conditions in
          match t with
          | None => Ok None
          | Some tier => tier_chain no (tiers ++ [tier])
          end
      end
  | _ =>
      let! t := tokenTier n [] in
      Ok (match t with None => None | Some fallback => Some (tiers ++ [fallback]) end)
  end.

Fixpoint readTokenTierChain (n : node) : result exn (option (list token_tier)) :=
  match n with
  | NConditional _ _ c y no =>
      let! guarded := if isContextGuard c then readTokenTierChain y else Ok None in
      match guarded with
      | Some tiers => Ok (Some tiers)
      | None => tier_chain n []
      end
  | _ => tier_chain n []
  end.

(** * Time-dependent tiers *)

Record time_tier := TimeTier {
  mt_tier : token_tier;
  mt_timeConditions : list (node * bool);
  mt_conditionText : jsstr;
}.

Definition isTimeCondition (n : node) : result exn bool :=
  let! d := expressionDependencies n in
  Ok (match variables d with [] => true | _ => false end
      && existsb (fun f => one_of f TIME_FUNCTIONS) (functions d)
      && forallb (fun f => one_of f (TIME_FUNCTIONS ++ ["min"; "max"; "abs"; "ceil"; "floor"]%string))
           (functions d)).

(** The text of a path of time conditions. *)
Definition path_text (source : jsstr) (path : list (node * bool)) : jsstr :=
  join (js " && ")
    (map (fun p : node * bool =>
            let text := slice source (node_start p.1) (node_end p.1) in
            if p.2 then js "(" ++ text ++ js ")" else js "!(" ++ text ++ js ")") path).

Definition condition_text (c : token_condition) : jsstr :=
  tc_var c ++ js " " ++ tc_op c ++ js " " ++ num_to_string (tc_value c).

Definition time_tier_of (source : jsstr) (path : list (node * bool)) (t : token_tier) : time_tier :=
  TimeTier t path
    (join (js " && ") (path_text source path :: map condition_text (tt_conditions t))).

(** A branch that is not a time condition. *)
Definition tier_leaf (comp : compiled) (n : node) (path : list (node * bool))
  : result exn (option (list time_tier)) :=
  let! tiers := readTokenTierChain n in
  Ok (match tiers, path with
      | None, _ | _, [] => None
      | Some tiers, _ => Some (map (time_tier_of (c_source comp) path) tiers)
      end).

Fixpoint timeTierBranches (comp : compiled) (n : node) (path : list (node * bool))
  : result exn (option (list time_tier)) :=
  match n with
  | NConditional _ _ c y no =>
      let! time := isTimeCondition c in
      if time then
        let! yes := timeTierBranches comp y (path ++ [(c, true)]) in
        let! no := timeTierBranches comp no (path ++ [(c, false)]) in
        Ok (match yes, no with
            | Some a, Some b => Some (a ++ b)
            | _, _ => None
            end)
      else tier_leaf comp n path
  | _ => tier_leaf comp n path
  end.

Section Current.
Context {P : Platform}.

(** [evaluateBillingCondition(...) === matches]. *)
Definition condition_is (comp : compiled) (now : date) (c : node * bool) : bool :=
  match evaluateBillingCondition comp c.1 now with
  | Some b => Bool.eqb b c.2
  | None => false
  end.

Definition tier_current (comp : compiled) (now : date) (t : time_tier) : bool :=
  forallb (condition_is comp now) (mt_timeConditions t).

(** On a compiled expression. *)
Definition time_pricing (comp : compiled) (now : option date)
  : result exn (option (list time_tier * list time_tier)) :=
  let! tiers := timeTierBranches comp (c_ast comp) [] in
  Ok (match tiers with
      | None => None
      | Some tiers =>
          Some (tiers, match now with
                       | Some t => List.filter (tier_current comp t) tiers
                       | None => []
                       end)
      end).

Definition readTimeTokenPricing (source : jsstr) (now : option date) (c : cache)
  : result exn (option (list time_tier * list time_tier)) * cache :=
  let '(compiled, c) := compileBillingExpression source c in
  (match compiled with
   | Ready comp => time_pricing comp now
   | NotReady _ => Ok None
   end, c).
End Current.

(** * Task tiers *)

Inductive usage_type := UTNumber | UTBoolean.

(** [BillingUsageFieldSchema], the fields that are read. *)
Record usage_field := UsageField {
  uf_type : option usage_type;
  uf_unit : option jsstr;
  uf_enum : option (list jsstr);
}.

Abbreviation usage_schema := (list (jsstr * usage_field)).

Record task_tier := TaskTier {
  kt_label : jsstr;
  kt_conditions : list (jsstr * jsstr);
  kt_constant : number;
  kt_unitPrices : list (jsstr * number);
}.

(** [u('field')]: the name of the field. *)
Definition usage_call (n : node) : result exn (option jsstr) :=
  match n with
  | NCall _ _ f args =>
      if f === "u" then let! a := need args 0 in Ok (string_literal a) else Ok None
  | _ => Ok None
  end.

Definition task_condition_value (definition : option usage_field) (includeBoolean : bool)
    (value : literal_value) : option jsstr :=
  match definition with
  | Some (UsageField (Some UTBoolean) _ _) =>
      match value with
      | LBool b => if includeBoolean then Some (if b then js "true" else js "false") else None
      | _ => None
      end
  | Some (UsageField _ _ (Some enum)) =>
      match value with
      | LString s => if existsb (str_eqb s) enum then Some s else None
      | _ => None
      end
  | _ => None
  end.

Fixpoint task_condition_list (terms : list node) (schema : usage_schema) (includeBoolean : bool)
    (conditions : list (jsstr * jsstr)) : result exn (option (list (jsstr * jsstr))) :=
  match terms with
  | [] => Ok (Some conditions)
  | NBinary _ _ op l r :: terms' =>
      if negb (op === "==") then Ok None
      else
        let! field := usage_call l in
        match field, r with
        | Some field, NLiteral _ _ value _ =>
            match task_condition_value (own schema field) includeBoolean value with
            | Some v =>
                task_condition_list terms' schema includeBoolean (conditions ++ [(field, v)])
            | None => Ok None
            end
        | _, _ => Ok None
        end
  | _ => Ok None
  end.

Definition taskConditions (n : node) (schema : usage_schema) (includeBoolean : bool)
  : result exn (option (list (jsstr * jsstr))) :=
  task_condition_list (flattenBinary n (js "&&")) schema includeBoolean [].

(** [term / 1000000]: whether the term is scaled, and what is left of it. *)
Definition unscale (term : node) : option (bool * node) :=
  match term with
  | NBinary _ _ op l r =>
      if op === "/" then
        match r with
        | NLiteral _ _ (LNumber v) _ => if num_eqb v (num_of_Z 1000000) then Some (true, l) else None
        | _ => None
        end
      else Some (false, term)
  | _ => Some (false, term)
  end.

(** The field and price of a term [u(field) * price]. *)
Definition task_term (term : node) : result exn (option (jsstr * number)) :=
  match term with
  | NBinary _ _ op l r =>
      if op === "*" then
        let! field := usage_call l in
        Ok (match field, nonnegativePriceLiteral r with
            | Some field, Some price => Some (field, price)
            | _, _ => None
            end)
      else Ok None
  | _ => Ok None
  end.

(** The schema admits a price per unit of the field, scaled or not. *)
Definition task_unit_ok (definition : option usage_field) (scaled : bool) : bool :=
  match definition with
  | Some (UsageField (Some UTNumber) (Some unit) _) =>
      truthy unit && Bool.eqb (unit === "token") scaled
  | _ => false
  end.

(** The loop over the terms of a task tier; [constant] is [None] until one is
    seen. *)
Fixpoint task_terms (terms : list node) (schema : usage_schema) (constant : option number)
    (prices : list (jsstr * number)) : result exn (option (option number * list (jsstr * number))) :=
  match terms with
  | [] => Ok (Some (constant, prices))
  | term :: terms' =>
      match nonnegativePriceLiteral term with
      | Some literal =>
          match constant with
          | Some _ => Ok None
          | None => task_terms terms' schema (Some literal) prices
          end
      | None =>
          match unscale term with
          | None => Ok None
          | Some (scaled, term) =>
              let! fp := task_term term in
              match fp with
              | None => Ok None
              | Some (field, price) =>
                  if task_unit_ok (own schema field) scaled && negb (has_price prices field)
                  then task_terms terms' schema constant (prices ++ [(field, price)])
                  else Ok None
              end
          end
      end
  end.

Definition taskTier (n : node) (conditions : list (jsstr * jsstr)) (schema : usage_schema)
  : result exn (option task_tier) :=
  match n with
  | NCall _ _ f args =>
      if f === "tier" then
        let! a := need args 0 in
        match string_literal a with
        | None => Ok None
        | Some label =>
            let! body := need args 1 in
            let! r := task_terms (flattenBinary body (js "+")) schema None [] in
            Ok (match r with
                | None | Some (_, []) => None
                | Some (constant, prices) =>
                    Some (TaskTier label conditions
                            (match constant with Some c => c | None => num_zero end) prices)
                end)
        end
      else Ok None
  | _ => Ok None
  end.

Fixpoint task_chain (n : node) (schema : usage_schema) (includeBoolean : bool)
    (tiers : list task_tier) : result exn (option (list task_tier)) :=
  match n with
  | NConditional _ _ c y no =>
      let! conditions := taskConditions c schema includeBoolean in
      match conditions with
      | None => Ok None
      | Some conditions =>
          let! t := taskTier y conditions schema in
          match t with
          | None => Ok None
          | Some tier => task_chain no schema includeBoolean (tiers ++ [tier])
          end
      end
  | _ =>
      let! t := taskTier n [] schema in
      Ok (match t with None => None | Some fallback => Some (tiers ++ [fallback]) end)
  end.

Definition readTaskTierChain (n : node) (schema : usage_schema) (includeBoolean : bool)
  : result exn (option (list task_tier)) := task_chain n schema includeBoolean [].

(** * Facts *)

(** The parts of a flattened node are nodes of its tree. *)
Lemma flatten_sub x op m : m ∈ flattenBinary x op -> m ∈ subnodes x.
Proof.
  induction x as [| | | | |s e o a IHa b IHb|]; simpl;
    try (intros H; apply elem_of_cons in H as [->|H]; [apply subnodes_self|by apply not_elem_of_nil in H]).
  destruct (str_eqb o op).
  - intros H. apply elem_of_app in H as [H|H].
    + eapply subnodes_child; [|by apply IHa]. left.
    + eapply subnodes_child; [|by apply IHb]. right. left.
  - intros H. apply elem_of_cons in H as [->|H]; [apply subnodes_self|by apply not_elem_of_nil in H].
Qed.
