(* ===== verification/DisplayFacts.v ===== *)
(** The displayed price tables against evaluation: the tier a run charges is the
    tier the table selects, the displayed prices give the amount, and the tiers
    shown as current contain the tier that applies at that time. *)
From Stdlib Require Import ZArith Lia Bool String.
From stdpp Require Import base list option.
From S2P Require Import Prelude JsString JsNumber Types JsValue Grammar ParserFacts Compile Runtime RuntimeFacts Trace Frame Display.

(** * What a price table says *)

(** A condition of a tier, read on the token counts of a context. *)
Definition condition_holds (cx : context) (c : token_condition) : bool :=
  match token_of cx (tc_var c) with
  | Some (JNum n) =>
      match compare_values (tc_op c) (JNum n) (JNum (tc_value c)) with
      | Some b => b
      | None => false
      end
  | _ => false
  end.

(** The first tier all of whose conditions hold. *)
Definition first_tier (cx : context) (tiers : list token_tier) : option token_tier :=
  find (fun t => forallb (condition_holds cx) (tt_conditions t)) tiers.

(** The amount of one price, and of a list of prices, summed in order. *)
Definition price_amount (cx : context) (p : jsstr * number) : number :=
  match token_of cx p.1 with
  | Some (JNum n) => num_mul n p.2
  | _ => num_zero
  end.

Definition add_price (cx : context) (acc : option number) (p : jsstr * number) : option number :=
  Some (match acc with
        | Some a => num_add a (price_amount cx p)
        | None => price_amount cx p
        end).

Definition amount_of (cx : context) (prices : list (jsstr * number)) : option number :=
  fold_left (add_price cx) prices None.

(** Sums nested to the left, as the parser builds them without parentheses. *)
Definition is_sum (n : node) : bool :=
  match n with NBinary _ _ op _ _ => op === "+" | _ => false end.
Definition left_sum (n : node) : Prop :=
  match n with NBinary _ _ op _ r => (op === "+") = true -> is_sum r = false | _ => True end.
Definition left_sums (n : node) : Prop := Forall left_sum (subnodes n).

Lemma left_sums_child n c : left_sums n -> c ∈ children n -> left_sums c.
Proof.
  intros H Hc. apply Forall_elem. intros m Hm. apply (proj1 (Forall_elem _ _) H).
  by eapply subnodes_child.
Qed.

(** [c ∈ children n] for a concrete node. *)
Ltac child := apply list_elem_of_In; simpl; tauto.

(** * Lists of parts *)

Lemma map_option_app {A B} (f : A -> option B) l1 l2 ys :
  map_option f (l1 ++ l2) = Some ys ->
  exists ys1 ys2, map_option f l1 = Some ys1 /\ map_option f l2 = Some ys2 /\ ys = ys1 ++ ys2.
Proof.
  revert ys. induction l1 as [|x l1 IH]; simpl; intros ys H; [eauto|].
  destruct (f x) as [y|]; [|done].
  destruct (map_option f (l1 ++ l2)) as [zs|] eqn:E; [|done]. injection H as <-.
  destruct (IH zs eq_refl) as (ys1 & ys2 & -> & -> & ->). simpl. eauto.
Qed.

Lemma token_prices_app l1 l2 ps qs :
  token_prices (l1 ++ l2) ps = Some qs ->
  exists rs, token_prices l1 ps = Some rs /\ token_prices l2 rs = Some qs.
Proof.
  revert ps. induction l1 as [|t l1 IH]; simpl; intros ps H; [eauto|].
  destruct t; try done. destruct t1; try done.
  destruct (nonnegativePriceLiteral t2); [|done]. destruct (_ && _); [auto|done].
Qed.

Section Facts.
Context {P : Platform}.
Variable comp : compiled.
Variable cx : context.
Variable hdrs : list (jsstr * jsstr).
Variable clock : date.

Abbreviation eval := (evaluate comp cx hdrs clock).
Abbreviation op_of := (operand_of comp cx hdrs clock).

(** ** Leaves *)

Lemma eval_variable s e x d st v st' :
  eval (NVariable s e x) d st = Ok (v, st') ->
  st' = st /\ exists n, rv v = JNum n /\ token_of cx x = Some (JNum n).
Proof.
  intros (H & _)%evaluate_Ok. unfold evaluate_node, variable_value in H.
  change (match tokens cx with Some t => own t x | None => None end) with (token_of cx x) in H.
  ok_inv; simpl; eauto.
Qed.

Lemma eval_literal s e w i d st v st' :
  eval (NLiteral s e w i) d st = Ok (v, st') -> st' = st /\ rv v = value_of_literal w.
Proof. intros (H & _)%evaluate_Ok. unfold evaluate_node in H. by ok_inv. Qed.

(** Operators that are not connectives evaluate both operands. *)
Lemma eval_binary s e op l r d st v st' :
  (op === "&&") = false -> (op === "||") = false ->
  eval (NBinary s e op l r) d st = Ok (v, st') ->
  exists a b st1, eval l (S d) st = Ok (a, st1) /\ eval r (S d) st1 = Ok (b, st') /\
    binary_values s op a b = Ok v.
Proof.
  intros E1 E2 (H & _)%evaluate_Ok. unfold evaluate_node, binary in H.
  rewrite E1, E2 in H. simpl in H.
  destruct (eval l (S d) st) as [[a st1]|] eqn:Ea; [|done].
  destruct (eval r (S d) st1) as [[b st2]|] eqn:Eb; [|done].
  destruct (binary_values s op a b) eqn:Ev; [|done]. injection H as <- <-. eauto 6.
Qed.

(** ** Conditions *)

Lemma token_condition_eval part c d st v st' :
  token_condition_of part = Some c -> eval part d st = Ok (v, st') ->
  st' = st /\ rv v = JBool (condition_holds cx c).
Proof.
  intros Hc H. unfold token_condition_of in Hc.
  destruct part as [| | | | |s e op l r|]; try done. destruct l as [|? ? x| | | | |]; try done.
  destruct r as [? ? [|w| |] ?| | | | | |]; try done.
  destruct (_ && _) eqn:E; [|done]. injection Hc as <-. bools. clear H1 H2.
  apply one_of_In in H0 as (o & Ho & ->).
  assert (Hn : (js o === "&&") = false /\ (js o === "||") = false /\
               one_of (js o) ["=="; "!="]%string = false /\ (js o === "+") = false).
  { repeat (destruct Ho as [<-|Ho]; [done|]). done. }
  destruct Hn as (N1 & N2 & N3 & N4).
  apply eval_binary in H as (a & b & st1 & Ha & Hb & Hv); [|done|done].
  apply eval_variable in Ha as [-> (n & Hn & Ht)]. apply eval_literal in Hb as [-> Hw].
  split; [done|]. unfold condition_holds. cbn [tc_var tc_op tc_value]. rewrite Ht.
  unfold binary_values in Hv. rewrite N3, Hn, Hw in Hv. simpl in Hv.
  change (match compare_values (js o) (JNum n) (JNum w) with
          | Some c => Ok (RValue (JBool c) false)
          | None => arithmetic s (js o) n w (rv_integer a && rv_integer b)
          end = Ok v) in Hv.
  assert (exists c, compare_values (js o) (JNum n) (JNum w) = Some c) as [c E].
  { clear - Ho. repeat (destruct Ho as [<-|Ho]; [by eexists|]). done. }
  rewrite E in Hv. rewrite E. injection Hv as <-. reflexivity.
Qed.

Lemma token_conditions_eval n : forall cs d st v st',
  map_option token_condition_of (flattenBinary n (js "&&")) = Some cs ->
  eval n d st = Ok (v, st') -> st' = st /\ rv v = JBool (forallb (condition_holds cx) cs).
Proof.
  assert (Leaf : forall m cs d st v st',
    map_option token_condition_of [m] = Some cs -> eval m d st = Ok (v, st') ->
    st' = st /\ rv v = JBool (forallb (condition_holds cx) cs)).
  { intros m cs d st v st' Hm H. simpl in Hm.
    destruct (token_condition_of m) as [c|] eqn:E; [|done]. injection Hm as <-.
    destruct (token_condition_eval _ _ _ _ _ _ E H) as [-> Hv]. simpl. by rewrite andb_true_r. }
  induction n; intros cs d st v st' Hcs H; try (by eapply Leaf).
  simpl in Hcs. destruct (str_eqb operator (js "&&")) eqn:Eo; [|by eapply Leaf].
  apply map_option_app in Hcs as (cs1 & cs2 & H1 & H2 & ->).
  apply evaluate_Ok in H as (H & _). unfold evaluate_node, binary in H. rewrite Eo in H.
  unfold boolean in H. simpl in H. rewrite forallb_app.
  destruct (eval n1 (S d) st) as [[a s1]|] eqn:Ea; [|done].
  destruct (IHn1 _ _ _ _ _ H1 Ea) as [-> Hv1]. rewrite Hv1 in H.
  destruct (forallb (condition_holds cx) cs1) eqn:Eb1; simpl in H |- *; [|by ok_inv].
  destruct (eval n2 (S d) st) as [[b s2]|] eqn:Eb; [|done].
  destruct (IHn2 _ _ _ _ _ H2 Eb) as [-> Hv2]. rewrite Hv2 in H. by ok_inv.
Qed.

(** ** Prices *)

Definition no_minus_zero (prices : list (jsstr * number)) : Prop :=
  Forall (fun p => is_negative_zero p.2 = false) prices.

Lemma price_literal_eval r price d st v st' :
  nonnegativePriceLiteral r = Some price -> eval r d st = Ok (v, st') ->
  st' = st /\ exists n, rv v = JNum n /\ (is_negative_zero price = false -> n = price).
Proof.
  intros Hp H. destruct r as [? ? [|w| |] ?| | | |s e op a| |]; try done; simpl in Hp.
  - destruct (num_leb num_zero w); [|done]. injection Hp as <-.
    apply eval_literal in H as [-> Hv]. split; [done|]. exists w. auto.
  - destruct a as [? ? [|w| |] ?| | | | | |]; try done.
    destruct (_ && _) eqn:E; [|done]. injection Hp as <-. bools.
    apply evaluate_Ok in H as (H & _). unfold evaluate_node in H.
    apply str_eqb_eq in H0. subst op. change (js "-" === "!") with false in H.
    unfold numeric in H. cbn [operand_of fst snd] in H.
    destruct (eval _ _ st) as [[u s1]|] eqn:Eu in H; [|done].
    apply eval_literal in Eu as [-> Eu]. rewrite Eu in H. simpl in H.
    injection H as <- <-. split; [done|]. simpl. by eexists.
Qed.

Lemma price_term_eval s e op s' e' x r price d st v st' :
  (op === "*") = true -> nonnegativePriceLiteral r = Some price ->
  eval (NBinary s e op (NVariable s' e' x) r) d st = Ok (v, st') ->
  st' = st /\ exists n, rv v = JNum n /\
    (is_negative_zero price = false -> n = price_amount cx (x, price)).
Proof.
  intros Ho Hp H. apply str_eqb_eq in Ho. subst op.
  apply eval_binary in H as (a & b & st1 & Ha & Hb & Hv); [|done|done].
  apply eval_variable in Ha as [-> (n & Hn & Ht)].
  destruct (price_literal_eval _ _ _ _ _ _ Hp Hb) as [-> (m & Hm & Hz)].
  split; [done|]. unfold binary_values in Hv. rewrite Hn, Hm in Hv. simpl in Hv.
  injection Hv as <-. eexists. split; [done|]. intros Hp0. unfold price_amount. simpl.
  by rewrite Ht, (Hz Hp0).
Qed.

Lemma amount_of_snoc news p x :
  amount_of cx news = Some x -> amount_of cx (news ++ [p]) = Some (num_add x (price_amount cx p)).
Proof. unfold amount_of. rewrite fold_left_app. simpl. by intros ->. Qed.

(** The prices read off one term. *)
Lemma token_prices_one m ps qs :
  token_prices [m] ps = Some qs ->
  exists s e op s' e' x r price, m = NBinary s e op (NVariable s' e' x) r /\
    (op === "*") = true /\ nonnegativePriceLiteral r = Some price /\ qs = ps ++ [(x, price)].
Proof.
  simpl. destruct m as [| | | | |s e op [|s' e' x| | | | |] r|]; try done.
  destruct (nonnegativePriceLiteral r) as [price|] eqn:Ep; [|done].
  destruct (_ && _) eqn:E; [|done]. intros [= <-]. bools. eauto 12.
Qed.

(** Evaluation of a sum of price terms. *)
Definition sum_spec (n : node) : Prop := forall ps qs d st v st',
  token_prices (flattenBinary n (js "+")) ps = Some qs -> eval n d st = Ok (v, st') ->
  st' = st /\ exists x, rv v = JNum x /\
    (left_sums n -> no_minus_zero qs ->
     exists news, qs = ps ++ news /\ amount_of cx news = Some x).

Lemma sum_term_eval n : flattenBinary n (js "+") = [n] -> sum_spec n.
Proof.
  intros Hf ps qs d st v st' Hp H. rewrite Hf in Hp.
  apply token_prices_one in Hp as (s & e & op & s' & e' & x & r & price & -> & Ho & Hl & ->).
  destruct (price_term_eval _ _ _ _ _ _ _ _ _ _ _ _ Ho Hl H) as [-> (y & Hy & Hz)].
  split; [done|]. exists y. split; [done|]. intros _ Hn. eexists. split; [done|].
  apply Forall_app in Hn as [_ Hn]. apply list.Forall_cons in Hn as [Hn _].
  rewrite (Hz Hn). done.
Qed.

Lemma sum_eval n : sum_spec n.
Proof.
  induction n; try (by apply sum_term_eval).
  destruct (str_eqb operator (js "+")) eqn:Eo;
    [|apply sum_term_eval; simpl; by rewrite Eo].
  intros ps qs d st v st' Hp H. simpl in Hp. rewrite Eo in Hp.
  apply token_prices_app in Hp as (rs & Hl & Hr).
  assert (Eo' : operator = js "+") by (by apply str_eqb_eq). subst operator.
  apply eval_binary in H as (a & b & st1 & Ha & Hb & Hv); [|done|done].
  destruct (IHn1 _ _ _ _ _ _ Hl Ha) as [-> (x & Hx & Hxs)].
  destruct (IHn2 _ _ _ _ _ _ Hr Hb) as [-> (y & Hy & _)].
  split; [done|]. unfold binary_values in Hv. rewrite Hx, Hy in Hv. simpl in Hv.
  injection Hv as <-. eexists. split; [done|]. intros Hls Hn.
  assert (Hs : is_sum n2 = false).
  { apply (proj1 (Forall_elem _ _) Hls _ (subnodes_self _)). done. }
  assert (Hf : flattenBinary n2 (js "+") = [n2]).
  { destruct n2; try done. simpl in Hs |- *. by rewrite Hs. }
  rewrite Hf in Hr.
  apply token_prices_one in Hr as (s & e & op & s' & e' & z & r & price & -> & Ho & Hp & ->).
  destruct (price_term_eval _ _ _ _ _ _ _ _ _ _ _ _ Ho Hp Hb) as [_ (w & Hw & Hz)].
  apply Forall_app in Hn as [Hn1 Hn2]. apply list.Forall_cons in Hn2 as [Hn2 _].
  destruct (Hxs (left_sums_child _ _ Hls ltac:(left)) Hn1) as (news & -> & Ham).
  exists (news ++ [(z, price)]). split; [by rewrite <- app_assoc|].
  rewrite (amount_of_snoc _ _ _ Ham). rewrite <- (Hz Hn2). congruence.
Qed.

(** ** Tiers *)

(** The outcome of running tier [t], written as node [n], from state [st]. *)
Definition charged (n : node) (t : token_tier) (st : runtime) (v : rvalue) (st' : runtime) : Prop :=
  matchedTier st' = tt_label t /\
  match tt_fixedPrice t with
  | Some a =>
      billingUnit st' = URequest /\ fixedPrice st' = Some a /\ rv v = JNum (num_mul a MILLION)
  | None =>
      billingUnit st' = billingUnit st /\ fixedPrice st' = fixedPrice st /\
      (left_sums n -> no_minus_zero (tt_prices t) ->
       exists x, amount_of cx (tt_prices t) = Some x /\ rv v = JNum x)
  end.

(** A call of [tier] evaluates its label, then its price. *)
Lemma eval_tier s e label body rest d st v st' :
  eval (NCall s e (js "tier") (label :: body :: rest)) d st = Ok (v, st') ->
  exists l st1 x i st2, eval label (S d) st = Ok (RValue (JStr l) i, st1) /\
    (exists j, eval body (S d) st1 = Ok (RValue (JNum x) j, st2)) /\
    rv v = JNum x /\ st' = set_tier l st2.
Proof.
  intros (H & _)%evaluate_Ok. unfold evaluate_node, call in H.
  change (js "tier" === "fixed") with false in H. change (js "tier" === "tier") with true in H.
  cbv iota in H. unfold string_arg, numeric, arg in H. cbn [map lookup list_lookup operand_of fst snd] in H.
  destruct (eval label (S d) st) as [[[l i] s1]|] eqn:El; [|done]. simpl in H.
  destruct l as [| | | |l| |]; try done.
  destruct (eval body (S d) s1) as [[[x j] s2]|] eqn:Eb; [|done]. simpl in H.
  destruct x as [| | |x| | |]; try done. injection H as <- <-. simpl. eauto 10.
Qed.

Lemma eval_fixed s e amount rest d st v st' :
  eval (NCall s e (js "fixed") (amount :: rest)) d st = Ok (v, st') ->
  exists x i st1, eval amount (S d) st = Ok (RValue (JNum x) i, st1) /\
    rv v = JNum (num_mul x MILLION) /\ st' = set_fixed x st1.
Proof.
  intros (H & _)%evaluate_Ok. unfold evaluate_node, call in H.
  change (js "fixed" === "fixed") with true in H. cbv iota in H.
  unfold numeric, arg in H. cbn [map lookup list_lookup operand_of fst snd] in H.
  destruct (eval amount (S d) st) as [[[x i] s1]|] eqn:Ea; [|done]. simpl in H.
  destruct x as [| | |x| | |]; try done. injection H as <- <-. simpl. eauto 10.
Qed.

Lemma tokenTier_eval n cs t d st v st' :
  tokenTier n cs = Ok (Some t) -> eval n d st = Ok (v, st') -> charged n t st v st'.
Proof.
  intros Ht H. destruct n as [| | |s e f args| | |]; try done. simpl in Ht.
  destruct (f === "tier") eqn:Ef; [|done]. apply str_eqb_eq in Ef. subst f.
  destruct args as [|label args]; [done|]. simpl in Ht.
  destruct (string_literal label) as [l|] eqn:El; [|done].
  destruct args as [|body args]; [done|]. simpl in Ht.
  destruct (fixed_body body) as [fixed|] eqn:Ef; [|done].
  apply eval_tier in H as (l' & st1 & x & i & st2 & Hl & (j & Hb) & Hv & ->).
  destruct label as [? ? [ls| | |] ?| | | | | |]; try done. injection El as ->.
  apply eval_literal in Hl as [-> Hl]. injection Hl as ->.
  destruct fixed as [amount|].
  - injection Ht as <-. split; [done|]. simpl.
    destruct body as [| | |s' e' g args'| | |]; try done. simpl in Ef.
    destruct (g === "fixed") eqn:Eg; [|done]. apply str_eqb_eq in Eg. subst g.
    destruct args' as [|a args']; [done|]. simpl in Ef.
    destruct a as [? ? [|w| |] ?| | | | | |]; try done. injection Ef as ->.
    apply eval_fixed in Hb as (y & k & st3 & Ha & Hx & ->).
    apply eval_literal in Ha as [-> Ha]. injection Ha as ->. simpl in *.
    split_and!; [done|done|congruence].
  - destruct (token_prices _ []) as [[|p ps]|] eqn:Ep; try done. injection Ht as <-.
    destruct (sum_eval body _ _ _ _ _ _ Ep Hb) as [-> (y & Hy & Hs)]. simpl in Hy.
    split; [done|]. cbn [tt_fixedPrice]. split_and!; [done|done|]. intros Hls Hn.
    destruct (Hs (left_sums_child _ _ Hls ltac:(right; left)) Hn) as (news & E & Ham).
    simpl in E. subst news. exists y. split; [done|]. simplify_eq. done.
Qed.

Lemma tokenTier_conditions n cs t : tokenTier n cs = Ok (Some t) -> tt_conditions t = cs.
Proof.
  destruct n as [| | |s e f args| | |]; try done. simpl.
  destruct (if f === "tier" then _ else None); [|done].
  destruct (need args 1) as [b|]; [|done]. destruct (fixed_body b) as [[a|]|]; [| |done].
  - by intros [= <-].
  - destruct (token_prices _ []) as [[|p ps]|]; try done. by intros [= <-].
Qed.

(** ** Chains *)

(** The loop appends to the tiers it starts with. *)
Lemma tier_chain_acc n : forall acc,
  tier_chain n acc = let! r := tier_chain n [] in Ok (option_map (app acc) r).
Proof.
  induction n; intros acc; cbn [tier_chain];
    try (destruct (tokenTier _ []) as [[t|]|]; reflexivity).
  destruct (tokenConditions n1) as [cs|]; [|done].
  destruct (tokenTier n2 cs) as [[t|]|]; [|done..].
  rewrite (IHn3 (acc ++ [t])), (IHn3 ([] ++ [t])). destruct (tier_chain n3 []) as [[r|]|]; simpl; [|done..].
  by rewrite <- app_assoc.
Qed.

Lemma tier_chain_cons s e c y no tiers :
  tier_chain (NConditional s e c y no) [] = Ok (Some tiers) ->
  exists cs t rest, tokenConditions c = Some cs /\ tokenTier y cs = Ok (Some t) /\
    tier_chain no [] = Ok (Some rest) /\ tiers = t :: rest.
Proof.
  simpl. destruct (tokenConditions c) as [cs|]; [|done].
  destruct (tokenTier y cs) as [[t|]|] eqn:Et; [|done..]. rewrite tier_chain_acc.
  destruct (tier_chain no []) as [[rest|]|]; [|done..]. intros [= <-].
  exists cs, t, rest. auto.
Qed.

(** Evaluation of a conditional. *)
Lemma eval_conditional s e c y no d st v st' :
  eval (NConditional s e c y no) d st = Ok (v, st') ->
  exists b i st1 st2, eval c (S d) st = Ok (RValue (JBool b) i, st1) /\
    (st2 = st1 \/ exists k, st2 = set_matched k st1) /\
    eval (if b then y else no) (S d) st2 = Ok (v, st').
Proof.
  intros (H & _)%evaluate_Ok. unfold evaluate_node, boolean in H.
  cbn [operand_of fst snd] in H.
  destruct (eval c (S d) st) as [[[u i] st1]|] eqn:Ec; [|done]. cbn [rv] in H.
  destruct u as [| |b| | | |]; try done. destruct b.
  - destruct (rule_index comp _) as [k|]; eauto 12.
  - eauto 12.
Qed.

(** The branch that a chain of tiers takes is charged as the first tier whose
    conditions hold. *)
Definition charged_first (n : node) (tiers : list token_tier) (st : runtime) (v : rvalue)
    (st' : runtime) : Prop :=
  exists t m, first_tier cx tiers = Some t /\ m ∈ subnodes n /\ charged m t st v st'.

Lemma charged_matched m t st st2 v st' :
  st2 = st \/ (exists k, st2 = set_matched k st) -> charged m t st2 v st' -> charged m t st v st'.
Proof. by intros [->|(k & ->)]. Qed.

Lemma tier_chain_eval n : forall tiers d st v st',
  tier_chain n [] = Ok (Some tiers) -> eval n d st = Ok (v, st') ->
  charged_first n tiers st v st'.
Proof.
  assert (Leaf : forall m tiers d st v st',
    (let! t := tokenTier m [] in
     Ok (match t with None => None | Some f => Some ([] ++ [f]) end)) = Ok (Some tiers) ->
    eval m d st = Ok (v, st') -> charged_first m tiers st v st').
  { intros m tiers d st v st' Hm H.
    destruct (tokenTier m []) as [[t|]|] eqn:Et; [|done..]. injection Hm as <-.
    exists t, m. unfold first_tier. simpl. rewrite (tokenTier_conditions _ _ _ Et).
    split_and!; [done|apply subnodes_self|by eapply tokenTier_eval]. }
  induction n; intros tiers d st v st' Hn H; try (by eapply Leaf).
  apply tier_chain_cons in Hn as (cs & t & rest & Hc & Ht & Hr & ->).
  apply eval_conditional in H as (b & i & st1 & st2 & Eb & Hst & H).
  destruct (token_conditions_eval _ _ _ _ _ _ Hc Eb) as [-> Hb]. injection Hb as Hb.
  unfold charged_first, first_tier. simpl. rewrite (tokenTier_conditions _ _ _ Ht), <- Hb.
  destruct b.
  - exists t, n2. split_and!; [done|eapply subnodes_child; [|apply subnodes_self]; child|].
    eapply charged_matched; [exact Hst|]. by eapply tokenTier_eval.
  - destruct (IHn3 _ _ _ _ _ Hr H) as (t' & m & Hf & Hm & Hch). exists t', m.
    split_and!; [done|eapply subnodes_child; [|exact Hm]; child|].
    by eapply charged_matched.
Qed.

(** ** Guards *)

(** The guards on [group] and [channel] that reading a chain strips. *)
Fixpoint guard_path (n : node) : list node :=
  match n with
  | NConditional _ _ c y _ =>
      if isContextGuard c then
        match readTokenTierChain y with
        | Ok (Some _) => c :: guard_path y
        | _ => []
        end
      else []
  | _ => []
  end.

(** The guard is true in this context. *)
Definition guard_holds (g : node) : Prop :=
  forall d st v st', eval g d st = Ok (v, st') -> rv v = JBool true.

Lemma guard_side_eval n d st v st' :
  guard_side n = true -> eval n d st = Ok (v, st') -> st' = st.
Proof.
  destruct n; try done; intros _ H.
  - by apply eval_literal in H as [-> _].
  - by apply eval_variable in H as [-> _].
  - apply evaluate_Ok in H as (H & _). unfold evaluate_node in H. by ok_inv.
Qed.

(** A guard does not change the state. *)
Lemma guard_eval g d st v st' :
  isContextGuard g = true -> eval g d st = Ok (v, st') -> st' = st.
Proof.
  intros Hg H. destruct g as [| | | | |s e op l r|]; try done. simpl in Hg.
  apply andb_true_iff in Hg as [Hg [Hl Hr]%andb_true_iff]. apply andb_true_iff in Hg as [Ho _].
  apply one_of_In in Ho as (o & Ho & ->).
  apply eval_binary in H as (a & b & st1 & Ha & Hb & _).
  - by rewrite (guard_side_eval _ _ _ _ _ Hr Hb), (guard_side_eval _ _ _ _ _ Hl Ha).
  - repeat (destruct Ho as [<-|Ho]; [done|]). done.
  - repeat (destruct Ho as [<-|Ho]; [done|]). done.
Qed.

(** A guard [group == "x"] holds when the context says so. *)
Lemma guard_equal s e s1 e1 x s2 e2 w i :
  rv (context_value cx x) = JStr w ->
  guard_holds (NBinary s e (js "==") (NContext s1 e1 x) (NLiteral s2 e2 (LString w) i)).
Proof.
  intros Hx d st v st' H. apply eval_binary in H as (a & b & st1 & Ha & Hb & Hv); [|done..].
  apply eval_literal in Hb as [_ Hb]. apply evaluate_Ok in Ha as (Ha & _).
  unfold evaluate_node in Ha. injection Ha as <- _.
  unfold binary_values in Hv. rewrite Hx, Hb in Hv. simpl in Hv. rewrite str_eqb_refl in Hv.
  change (one_of (js "==") ["=="; "!="]%string) with true in Hv.
  change (js "==" === "==") with true in Hv. by injection Hv as <-.
Qed.

Lemma readTokenTierChain_eval n : forall tiers d st v st',
  readTokenTierChain n = Ok (Some tiers) -> Forall guard_holds (guard_path n) ->
  eval n d st = Ok (v, st') -> charged_first n tiers st v st'.
Proof.
  induction n; intros tiers dep st v st' Hn Hg H; try (by eapply tier_chain_eval).
  cbn [readTokenTierChain guard_path] in Hn, Hg.
  destruct (isContextGuard n1) eqn:Eg; [|by eapply tier_chain_eval].
  destruct (readTokenTierChain n2) as [[ts|]|] eqn:Ey; [|by eapply tier_chain_eval|done].
  injection Hn as <-. apply list.Forall_cons in Hg as [Hg1 Hg2].
  apply eval_conditional in H as (b & i & st1 & st2 & Eb & Hst & H).
  pose proof (guard_eval _ _ _ _ _ Eg Eb) as ->. pose proof (Hg1 _ _ _ _ Eb) as Hb.
  injection Hb as ->.
  destruct (IHn2 _ _ _ _ _ eq_refl Hg2 H) as (t & m & Hf & Hm & Hch). exists t, m.
  split_and!; [done|eapply subnodes_child; [|exact Hm]; child|]. by eapply charged_matched.
Qed.
End Facts.

(** C3. The token price table is what is charged where its guards hold: when a table is displayed for an
    expression, a run of it in a context in which the comparisons of group and channel that the table
    leaves out hold reports the first tier of the table whose conditions hold for the token counts; a
    fixed tier bills its fixed price per request, and a tier of unit prices bills by tokens; its amount
    is the sum of count times displayed price, in the order of the table, when the sums of the
    expression associate to the left and no price is minus zero. *)
Theorem displayed_tier_charged `{P : Platform} comp cx new_Date hdrs clock n tiers v st :
  construct cx new_Date = Ok (hdrs, clock) ->
  readTokenTierChain n = Ok (Some tiers) ->
  Forall (guard_holds comp cx hdrs clock) (guard_path n) ->
  run comp cx new_Date n = Ok (v, st) ->
  exists t, first_tier cx tiers = Some t /\ matchedTier st = tt_label t /\
    match tt_fixedPrice t with
    | Some a => billingUnit st = URequest /\ fixedPrice st = Some a /\ rv v = JNum (num_mul a MILLION)
    | None => billingUnit st = UToken /\ fixedPrice st = None /\
        (left_sums n -> no_minus_zero (tt_prices t) ->
         exists x, amount_of cx (tt_prices t) = Some x /\ rv v = JNum x)
    end.
Proof.
  intros Hc Hn Hg H. unfold run in H. rewrite Hc in H.
  destruct (readTokenTierChain_eval comp cx hdrs clock n _ _ _ _ _ Hn Hg H)
    as (t & m & Hf & Hm & Hl & Hch).
  exists t. split_and!; [done|done|]. destruct (tt_fixedPrice t); [done|].
  destruct Hch as (Hu & Hp & Hs). split_and!; [done|done|]. intros Hls. apply Hs.
  apply Forall_elem. intros k Hk. apply (proj1 (Forall_elem _ _) Hls). by eapply subnodes_trans.
Qed.

(** A guarded chain and a context that satisfies its guard. *)
Definition guarded_source : jsstr :=
  js "group == 'vip' ? (p <= 2 ? tier('s', p * 1 + c * 2) : tier('l', fixed(3))) : tier('x', c * 9)".

Definition compiled_or_empty (source : jsstr) : compiled :=
  match compile_try source with
  | Ok comp => comp
  | Err _ => Compiled source (NContext 0 0 []) [] [] []
  end.

Definition guarded_compiled : compiled := Eval vm_compute in compiled_or_empty guarded_source.

Definition vip_context : context :=
  Context (Some [(js "p", JNum (num_of_Z 2)); (js "c", JNum (num_of_Z 5))]) None None
    None (Some [(js "group", JStr (js "vip"))]).

Lemma guarded_guard :
  Forall (@guard_holds plain_platform guarded_compiled vip_context [] (Some 0%Z))
    (guard_path (c_ast guarded_compiled)).
Proof.
  assert (E : guard_path (c_ast guarded_compiled) =
    [NBinary 0 14 (js "==") (NContext 0 5 (js "group")) (NLiteral 9 14 (LString (js "vip")) false)])
    by (vm_compute; reflexivity).
  rewrite E. apply Forall_cons; [|apply Forall_nil_2].
  apply guard_equal. vm_compute. reflexivity.
Qed.

Lemma displayed_tier_charged_witness :
  compile_try guarded_source = Ok guarded_compiled /\
  exists tiers v st, readTokenTierChain (c_ast guarded_compiled) = Ok (Some tiers) /\
    @run plain_platform guarded_compiled vip_context (Some 0%Z) (c_ast guarded_compiled) = Ok (v, st) /\
    exists t, first_tier vip_context tiers = Some t /\ matchedTier st = tt_label t.
Proof.
  split; [vm_compute; reflexivity|].
  do 3 eexists. split; [vm_compute; reflexivity|]. split; [vm_compute; reflexivity|].
  edestruct (@displayed_tier_charged plain_platform guarded_compiled vip_context (Some 0%Z)
    [] (Some 0%Z) (c_ast guarded_compiled)) as (t & H1 & H2 & _);
    [reflexivity|vm_compute; reflexivity|exact guarded_guard|vm_compute; reflexivity
    |exact (ex_intro _ t (conj H1 H2))].
Defined.
