(* ===== verification/FixedPrice.v ===== *)
(** Fixed prices: what [validateFixedPricingTree] of the compiler admits, and what
    a bill of an admitted expression is. *)
From Stdlib Require Import ZArith Lia Bool String.
From stdpp Require Import base list option.
From S2P Require Import Prelude JsString JsNumber Types JsValue Compile Runtime RuntimeFacts Trace Display DisplayFacts.

(** * The admitted trees *)

(** No price is computed below the node. *)
Definition unmarked (n : node) : Prop :=
  forall m, m ∈ subnodes n -> ~ is_call (js "tier") m /\ ~ is_call (js "fixed") m.

Lemma unmarked_children n : unmarked n -> Forall unmarked (children n).
Proof.
  intros H. apply Forall_elem. intros c Hc m Hm. apply H. by eapply subnodes_child.
Qed.

(** A factor that is a request rule with a non-negative multiplier. *)
Definition is_factor (rules : list request_rule) (n : node) : Prop :=
  exists r, find (fun r => same_node (r_node r) n) rules = Some r /\
    num_leb num_zero (r_multiplier r) = true /\ unmarked (r_condition r).

Inductive fixed_tree (rules : list request_rule) : node -> Prop :=
| FT_conditional s e c y no :
    unmarked c -> fixed_tree rules y -> fixed_tree rules no ->
    fixed_tree rules (NConditional s e c y no)
| FT_right s e l r :
    is_factor rules r -> fixed_tree rules l -> fixed_tree rules (NBinary s e (js "*") l r)
| FT_left s e l r :
    is_factor rules l -> fixed_tree rules r -> fixed_tree rules (NBinary s e (js "*") l r)
| FT_fixed s e s' e' s'' e'' label amount i rest rest' :
    unmarked label -> num_leb num_zero amount = true ->
    is_finite (num_mul amount MILLION) = true ->
    fixed_tree rules (NCall s e (js "tier")
      (label :: NCall s' e' (js "fixed") (NLiteral s'' e'' (LNumber amount) i :: rest') :: rest))
| FT_price s e label price rest :
    unmarked label -> unmarked price ->
    fixed_tree rules (NCall s e (js "tier") (label :: price :: rest)).

Lemma containsPricingMarker_unmarked n : containsPricingMarker n = Ok false -> unmarked n.
Proof.
  unfold containsPricingMarker. destruct (expressionDependencies n) as [d|] eqn:E; [|done].
  intros [= H]. apply orb_false_iff in H as [H1 H2].
  apply expressionDependencies_spec in E as [_ Hf]. intros m Hm. split; intros Hc.
  - assert (Hin : js "tier" ∈ functions d) by (apply Hf; eauto).
    apply set_has_elem in Hin. congruence.
  - assert (Hin : js "fixed" ∈ functions d) by (apply Hf; eauto).
    apply set_has_elem in Hin. congruence.
Qed.

Lemma multiplier_rule_factor rules n : multiplier_rule rules n = Ok true -> is_factor rules n.
Proof.
  unfold multiplier_rule. destruct (find _ rules) as [r|] eqn:E; [|done].
  destruct (num_leb num_zero (r_multiplier r)) eqn:Em; [|done].
  destruct (containsPricingMarker (r_condition r)) as [[]|] eqn:Ec; try done. intros _.
  exists r. split_and!; [done|done|by apply containsPricingMarker_unmarked].
Qed.

Lemma check_tier_sound rules n : check_tier n = Ok tt -> fixed_tree rules n.
Proof.
  unfold check_tier. destruct (valid_tier n) as [[]|] eqn:E; try done. intros _.
  destruct n as [| | |s e f args| | |]; try done. simpl in E.
  destruct args as [|label [|price rest]]; try done.
  destruct (f === "tier") eqn:Ef; [|done]. apply str_eqb_eq in Ef. subst f.
  destruct (containsPricingMarker label) as [[]|] eqn:El; try done. simpl in E.
  apply containsPricingMarker_unmarked in El. unfold valid_price in E.
  assert (Hother : (let! m := containsPricingMarker price in Ok (negb m)) = Ok true ->
    fixed_tree rules (NCall s e (js "tier") (label :: price :: rest))).
  { destruct (containsPricingMarker price) as [[]|] eqn:Ep; try done. intros _.
    apply FT_price; [done|]. by apply containsPricingMarker_unmarked. }
  destruct price as [| | |s' e' g args'| | |]; auto.
  destruct (g === "fixed") eqn:Eg; [|auto]. apply str_eqb_eq in Eg. subst g.
  destruct args' as [|[? ? [|amount| |] ?| | | | | |] rest']; try done.
  injection E as E. apply andb_true_iff in E as [E1 E2]. by apply FT_fixed.
Qed.

Lemma validate_sound rules n : validateFixedPricingTree rules n = Ok tt -> fixed_tree rules n.
Proof.
  induction n; intros H; try (by apply check_tier_sound); cbn [validateFixedPricingTree] in H.
  - destruct (operator === "*") eqn:Eo; [|by apply check_tier_sound].
    apply str_eqb_eq in Eo. subst operator.
    destruct (multiplier_rule rules n2) as [[]|] eqn:Er; [| |done].
    { apply FT_right; [by apply multiplier_rule_factor|auto]. }
    destruct (multiplier_rule rules n1) as [[]|] eqn:El; [| |done].
    { apply FT_left; [by apply multiplier_rule_factor|auto]. }
    by apply check_tier_sound.
  - destruct (containsPricingMarker n1) as [[]|] eqn:E; [| |done].
    + by apply check_tier_sound.
    + destruct (validateFixedPricingTree rules n2) as [[]|] eqn:E2; [|done].
      apply FT_conditional; [by apply containsPricingMarker_unmarked|auto|auto].
Qed.

(** * Bills of admitted trees *)

Section Bill.
Context {P : Platform}.
Variable comp : compiled.
Variable cx : context.
Variable hdrs : list (jsstr * jsstr).
Variable clock : date.

Abbreviation eval := (evaluate comp cx hdrs clock).

(** The price recorded so far is the same. *)
Definition same_price (st st' : runtime) : Prop :=
  matchedTier st' = matchedTier st /\ billingUnit st' = billingUnit st /\
  fixedPrice st' = fixedPrice st.

#[local] Instance same_price_preorder : PreOrder same_price.
Proof. split; [by intros st|]. intros a b c (? & ? & ?) (? & ? & ?). split_and!; congruence. Qed.

(** Below a node without price markers nothing is recorded. *)
Lemma unmarked_keeps n : unmarked n -> keeps same_price (eval n).
Proof.
  apply (keeps_evaluate comp cx hdrs clock same_price) with (tree := unmarked); try done.
  - exact unmarked_children.
  - intros s e args t st Hu. destruct (Hu _ (subnodes_self _)) as [H _].
    destruct H. by do 3 eexists.
  - intros s e args a st Hu. destruct (Hu _ (subnodes_self _)) as [_ H].
    destruct H. by do 3 eexists.
Qed.

(** The rules of the expression, as compilation leaves them. *)
Hypothesis rules_wf : Forall (rule_wf (c_ast comp)) (c_requestRules comp).
Hypothesis node_identity : forall a b, a ∈ subnodes (c_ast comp) -> b ∈ subnodes (c_ast comp) ->
  same_node a b = true -> a = b.

(** The values of a factor. *)
Definition factor_value (f : number) : Prop :=
  f = num_one \/ exists r, r ∈ c_requestRules comp /\ f = r_multiplier r /\
                   num_leb num_zero f = true.

Lemma factor_eval n d st v st' :
  n ∈ subnodes (c_ast comp) -> is_factor (c_requestRules comp) n ->
  eval n d st = Ok (v, st') ->
  same_price st st' /\ exists f, rv v = JNum f /\ factor_value f.
Proof.
  intros Hn (r & Hr & Hm & Hu) H. apply find_some in Hr as [Hin Hs].
  apply list_elem_of_In in Hin.
  destruct (proj1 (Forall_elem _ _) rules_wf r Hin) as [Hrn (s & e & ys & ye & yi & ns & ne & one & ni & Er & Hone)].
  apply node_identity in Hs; [|done|done]. rewrite Er in Hs. subst n.
  apply eval_conditional in H as (b & i & st1 & st2 & Hc & Hst & Hv).
  apply unmarked_keeps in Hc; [|done].
  assert (Hp : same_price st st2) by (by destruct Hst as [->|(k & ->)]).
  destruct b; apply eval_literal in Hv as [-> Hv]; (split; [done|]).
  - exists (r_multiplier r). split; [done|]. right. by exists r.
  - exists one. split; [done|]. left. by apply num_eqb_one.
Qed.

(** The outcome of a run: one price, scaled by the factors around it. *)
Definition scaled_price (st : runtime) (v : rvalue) (st' : runtime) : Prop :=
  exists x factors, rv v = JNum (fold_left num_mul factors x) /\ Forall factor_value factors /\
    ((billingUnit st' = URequest /\ exists a, fixedPrice st' = Some a /\
        num_leb num_zero a = true /\ is_finite (num_mul a MILLION) = true /\ x = num_mul a MILLION) \/
     (billingUnit st' = billingUnit st /\ fixedPrice st' = fixedPrice st)).

Lemma product_value s a b v x y :
  binary_values s (js "*") a b = Ok v -> rv a = JNum x -> rv b = JNum y ->
  rv v = JNum (num_mul x y).
Proof. intros H Ha Hb. unfold binary_values in H. rewrite Ha, Hb in H. by injection H as <-. Qed.

Lemma scaled_price_snoc st st0 v w f st' :
  same_price st st0 -> scaled_price st0 w st' -> factor_value f ->
  (forall x, rv w = JNum x -> rv v = JNum (num_mul x f)) -> scaled_price st v st'.
Proof.
  intros (_ & Hu & Hp) (x & fs & Hw & Hfs & Hx) Hf Hv. exists x, (fs ++ [f]).
  rewrite fold_left_app. split; [by apply Hv|]. split.
  - apply Forall_app. split; [done|]. apply Forall_cons; [done|apply Forall_nil_2].
  - destruct Hx as [Hx|[Hx1 Hx2]]; [by left|right]. split; congruence.
Qed.

Lemma scaled_price_after st v st1 st2 :
  scaled_price st v st1 -> same_price st1 st2 -> scaled_price st v st2.
Proof.
  intros (x & fs & Hw & Hfs & Hx) (_ & Hu & Hp). exists x, fs. split_and!; [done|done|].
  rewrite Hu, Hp. done.
Qed.

Lemma fixed_tree_eval n : fixed_tree (c_requestRules comp) n -> n ∈ subnodes (c_ast comp) ->
  forall d st v st', eval n d st = Ok (v, st') -> scaled_price st v st'.
Proof.
  induction 1 as [s e c y no Hc _ IHy _ IHn|s e l r Hr _ IH|s e l r Hl _ IH
                 |s e s' e' s'' e'' label amount i rest rest' Hl Ha Hfin|s e label price rest Hl Hp];
    intros Hin dep st v st' H.
  - apply eval_conditional in H as (b & i & st1 & st2 & Ec & Hst & Hv).
    apply unmarked_keeps in Ec; [|done].
    assert (Hs : same_price st st2) by (by destruct Hst as [->|(k & ->)]).
    assert (Hy : scaled_price st2 v st').
    { destruct b; [eapply IHy|eapply IHn]; try exact Hv;
        (eapply subnodes_trans; [exact Hin|]; eapply subnodes_child; [|apply subnodes_self]; child). }
    destruct Hs as (_ & Hu & Hp), Hy as (x & fs & Hx & Hfs & Hor). exists x, fs.
    split_and!; [done|done|]. destruct Hor as [?|[? ?]]; [by left|right; split; congruence].
  - apply eval_binary in H as (a & b & st1 & Ea & Eb & Hv); [|done|done].
    apply IH in Ea; [|eapply subnodes_trans; [exact Hin|]; eapply subnodes_child; [|apply subnodes_self]; child].
    apply factor_eval in Eb as [Hs (f & Hf & Hfv)];
      [|eapply subnodes_trans; [exact Hin|]; eapply subnodes_child; [|apply subnodes_self]; child|done].
    eapply scaled_price_after; [|exact Hs].
    eapply scaled_price_snoc; [reflexivity|exact Ea|exact Hfv|].
    intros x Hx. by eapply product_value.
  - apply eval_binary in H as (a & b & st1 & Ea & Eb & Hv); [|done|done].
    apply factor_eval in Ea as [Hs (f & Hf & Hfv)];
      [|eapply subnodes_trans; [exact Hin|]; eapply subnodes_child; [|apply subnodes_self]; child|done].
    apply IH in Eb; [|eapply subnodes_trans; [exact Hin|]; eapply subnodes_child; [|apply subnodes_self]; child].
    eapply scaled_price_snoc; [exact Hs|exact Eb|exact Hfv|].
    intros x Hx. rewrite num_mul_comm. by eapply product_value.
  - apply eval_tier in H as (l & st1 & x & j & st2 & El & (k & Eb) & Hv & ->).
    apply eval_fixed in Eb as (y & q & st3 & Ey & Hx & ->).
    apply eval_literal in Ey as [-> Ey]. simpl in Ey. injection Ey as ->. simpl in Hx.
    injection Hx as ->. exists (num_mul amount MILLION), []. split; [done|].
    split; [apply Forall_nil_2|]. left. split; [done|]. by exists amount.
  - apply eval_tier in H as (l & st1 & x & j & st2 & El & (k & Eb) & Hv & ->).
    apply unmarked_keeps in El as (_ & Hu1 & Hp1); [|done].
    apply unmarked_keeps in Eb as (_ & Hu2 & Hp2); [|done].
    exists x, []. split; [done|]. split; [apply Forall_nil_2|]. right. simpl. split; congruence.
Qed.
End Bill.

(** C30. An expression with fixed prices charges exactly one price: a successful run
    is either a request priced at a finite, non-negative fixed amount (in
    millionths) or a token price, multiplied by the factors of request rules
    around it, each non-negative or one. *)
Theorem fixed_price_bill `{P : Platform} source comp cx new_Date v st :
  compile_try source = Ok comp -> js "fixed" ∈ c_functions comp ->
  run comp cx new_Date (c_ast comp) = Ok (v, st) ->
  exists x factors, rv v = JNum (fold_left num_mul factors x) /\
    Forall (factor_value comp) factors /\
    ((billingUnit st = URequest /\ exists a, fixedPrice st = Some a /\
        num_leb num_zero a = true /\ is_finite (num_mul a MILLION) = true /\ x = num_mul a MILLION) \/
     (billingUnit st = UToken /\ fixedPrice st = None)).
Proof.
  intros Hc Hf Hr. pose proof (compiled_rules_wf _ _ Hc) as Hw.
  pose proof (fun a b => same_node_compiled _ _ a b Hc) as Hid.
  apply compile_try_inv in Hc as (_ & _ & _ & _ & _ & Hv).
  apply set_has_elem in Hf. apply Hv, validate_sound in Hf.
  apply run_inv in Hr as (hdrs & clock & _ & He).
  exact (fixed_tree_eval comp cx hdrs clock Hw Hid _ Hf (subnodes_self _) _ _ _ _ He).
Qed.

Definition fixed_source : jsstr :=
  js "(p > 10 ? tier('big', fixed(2)) : tier('small', p * 3)) * (param('stream') == true ? 2 : 1)".

Definition fixed_compiled : compiled := Eval vm_compute in compiled_or_empty fixed_source.

Definition fixed_context : context :=
  Context (Some [(js "p", JNum (num_of_Z 20))])
    (Some (Request (JObj [(js "stream", JBool true)]) None)) None (Some (Some 0%Z)) None.

Lemma fixed_price_bill_witness :
  compile_try fixed_source = Ok fixed_compiled /\
  exists v st x factors,
    @run plain_platform fixed_compiled fixed_context None (c_ast fixed_compiled) = Ok (v, st) /\
    rv v = JNum (fold_left num_mul factors x) /\ Forall (factor_value fixed_compiled) factors.
Proof.
  assert (Hc : compile_try fixed_source = Ok fixed_compiled) by (vm_compute; reflexivity).
  split; [exact Hc|].
  edestruct (@fixed_price_bill plain_platform fixed_source fixed_compiled fixed_context None)
    as (x & fs & H1 & H2 & _); [exact Hc| |vm_compute; reflexivity|].
  - apply set_has_elem. vm_compute. reflexivity.
  - do 2 eexists. exists x, fs. split; [vm_compute; reflexivity|]. split; [exact H1|exact H2].
Defined.
