(* ===== verification/Written.v ===== *)
(** What the compiler and the readers of price tables do with a tree that is
    known up to positions: they do not depend on positions, and a tree of simple
    types compiles. *)
From Stdlib Require Import ZArith Lia Bool String.
From stdpp Require Import base list option.
From S2P Require Import Prelude JsString JsNumber Types JsValue Lexer Parser Grammar ParserFacts Pieces TypeCheck Compile Runtime Display TypeSound FixedPrice.

(** * Positions do not matter *)

Lemma node_height_erase n : node_height (erase n) = node_height n.
Proof.
  induction n as [n IH] using node_children_ind.
  rewrite !node_height_unfold, children_erase. f_equal. f_equal.
  rewrite map_map. apply map_ext_in. intros c Hc.
  exact (proj1 (List.Forall_forall _ _) IH c Hc).
Qed.

Lemma visit_rec_erase {St} (f : node -> St -> result exn St) n :
  (forall m st, f (erase m) st = f m st) ->
  forall d st, visit_rec f (erase n) d st = visit_rec f n d st.
Proof.
  intros Hf. induction n as [n IH] using node_children_ind. intros d st.
  rewrite !visit_rec_unfold, children_erase. destruct (256 <? d); [done|].
  assert (E : visit_all (map (visit_rec f) (map erase (children n))) (d + 1) st =
              visit_all (map (visit_rec f) (children n)) (d + 1) st).
  { revert st. induction IH as [|c cs Hc _ IHcs]; intros st; simpl; [done|].
    rewrite Hc. destruct (visit_rec f c (d + 1) st); [apply IHcs|done]. }
  rewrite E. destruct (visit_all (map (visit_rec f) (children n)) (d + 1) st); [apply Hf|done].
Qed.

Lemma expressionDependencies_erase n : expressionDependencies (erase n) = expressionDependencies n.
Proof.
  unfold expressionDependencies. rewrite !visitExpression_rec. apply visit_rec_erase.
  by intros [].
Qed.

Lemma containsPricingMarker_erase n : containsPricingMarker (erase n) = containsPricingMarker n.
Proof. unfold containsPricingMarker. by rewrite expressionDependencies_erase. Qed.

Lemma flattenBinary_erase n op : flattenBinary (erase n) op = map erase (flattenBinary n op).
Proof.
  induction n; simpl; try done. destruct (str_eqb operator op); [|done].
  by rewrite map_app, IHn1, IHn2.
Qed.

Lemma map_option_map {A B C} (f : B -> option C) (g : A -> B) (l : list A) :
  map_option f (map g l) = map_option (fun x => f (g x)) l.
Proof. induction l as [|x l IH]; simpl; [done|]. by rewrite IH. Qed.

Lemma map_option_ext {A B} (f g : A -> option B) (l : list A) :
  (forall x, f x = g x) -> map_option f l = map_option g l.
Proof. intros H. induction l as [|x l IH]; simpl; [done|]. by rewrite H, IH. Qed.

(** A subtree that the readers look into: its constructor decides. *)
Ltac by_shape n := by destruct n as [? ? [] ?| | | | | |].

Lemma nonnegativePriceLiteral_erase n : nonnegativePriceLiteral (erase n) = nonnegativePriceLiteral n.
Proof. destruct n as [? ? [] ?| | | |? ? ? a| |]; simpl; try done. by_shape a. Qed.

Lemma string_literal_erase n : string_literal (erase n) = string_literal n.
Proof. by_shape n. Qed.

Lemma tokenConditions_erase n : tokenConditions (erase n) = tokenConditions n.
Proof.
  unfold tokenConditions. rewrite flattenBinary_erase, map_option_map. apply map_option_ext.
  intros m. destruct m as [| | | | |? ? ? l r|]; simpl; try done.
  destruct l; simpl; try done. by_shape r.
Qed.

Lemma token_prices_erase l : forall ps, token_prices (map erase l) ps = token_prices l ps.
Proof.
  induction l as [|n l IH]; intros ps; simpl; [done|].
  destruct n as [| | | | |? ? op a r|]; simpl; try done. destruct a; simpl; try done.
  rewrite nonnegativePriceLiteral_erase. destruct (nonnegativePriceLiteral r); [|done].
  by case_goal.
Qed.

Lemma need_map {A B} (f : A -> B) (args : list A) i :
  need (map f args) i = let! a := need args i in Ok (f a).
Proof. unfold need. rewrite list_lookup_fmap. by destruct (args !! i). Qed.

Lemma fixed_body_erase n : fixed_body (erase n) = fixed_body n.
Proof.
  destruct n as [| | |? ? f args| | |]; simpl; try done. destruct (f === "fixed"); [|done].
  rewrite need_map. destruct (need args 0) as [a|]; [|done]. by_shape a.
Qed.

Lemma tokenTier_erase n cs : tokenTier (erase n) cs = tokenTier n cs.
Proof.
  destruct n as [| | |? ? f args| | |]; cbn [erase tokenTier]; try done.
  assert (E : (if f === "tier" then map erase args !! 0 ≫= string_literal else None) =
              (if f === "tier" then args !! 0 ≫= string_literal else None)).
  { destruct (f === "tier"); [|done]. rewrite list_lookup_fmap.
    destruct (args !! 0) as [a|]; [apply string_literal_erase|done]. }
  rewrite E. clear E.
  destruct (if f === "tier" then args !! 0 ≫= string_literal else None) as [label|]; [|done].
  rewrite need_map. destruct (need args 1) as [b|]; [|done].
  rewrite fixed_body_erase, flattenBinary_erase, token_prices_erase. done.
Qed.

Definition is_conditional (n : node) : bool :=
  match n with NConditional _ _ _ _ _ => true | _ => false end.

Lemma tier_chain_leaf n acc : is_conditional n = false ->
  tier_chain n acc = let! t := tokenTier n [] in
    Ok (match t with None => None | Some fallback => Some (acc ++ [fallback]) end).
Proof. by destruct n. Qed.

Lemma tier_chain_erase n : forall acc, tier_chain (erase n) acc = tier_chain n acc.
Proof.
  induction n; intros acc;
    try (rewrite !tier_chain_leaf by done; by rewrite tokenTier_erase).
  cbn [erase tier_chain]. rewrite tokenConditions_erase.
  destruct (tokenConditions n1) as [cs|]; [|done]. rewrite tokenTier_erase.
  destruct (tokenTier n2 cs) as [[t|]|]; [apply IHn3|done|done].
Qed.

Lemma isContextGuard_erase n : isContextGuard (erase n) = isContextGuard n.
Proof.
  destruct n as [| | | | |? ? op l r|]; simpl; try done. f_equal; [f_equal|].
  - f_equal; [by destruct l|by destruct r].
  - f_equal; [by destruct l|by destruct r].
Qed.

Lemma readTokenTierChain_erase n : readTokenTierChain (erase n) = readTokenTierChain n.
Proof.
  assert (Hleaf : forall m, is_conditional m = false -> readTokenTierChain m = tier_chain m [])
    by (by intros []).
  induction n; try (rewrite !Hleaf by done; apply tier_chain_erase).
  cbn [erase readTokenTierChain]. rewrite isContextGuard_erase.
  change (NConditional 0 0 (erase n1) (erase n2) (erase n3)) with (erase (NConditional start stop n1 n2 n3)).
  rewrite tier_chain_erase. destruct (isContextGuard n1); [|done]. by rewrite IHn2.
Qed.

(** ** Task tiers *)

Lemma usage_call_erase n : usage_call (erase n) = usage_call n.
Proof.
  destruct n as [| | |? ? f args| | |]; simpl; try done. destruct (f === "u"); [|done].
  rewrite need_map. destruct (need args 0) as [a|]; [|done]. simpl. by rewrite string_literal_erase.
Qed.

Lemma task_condition_list_erase l schema b : forall acc,
  task_condition_list (map erase l) schema b acc = task_condition_list l schema b acc.
Proof.
  induction l as [|n l IH]; intros acc; simpl; [done|].
  destruct n as [| | | | |? ? op x r|]; simpl; try done. destruct (negb _); [done|].
  rewrite usage_call_erase. destruct (usage_call x) as [[f|]|]; simpl; try done.
  destruct r as [? ? v ?| | | | | |]; simpl; try done. destruct (task_condition_value _ _ _); [apply IH|done].
Qed.

Lemma taskConditions_erase n schema b : taskConditions (erase n) schema b = taskConditions n schema b.
Proof. unfold taskConditions. by rewrite flattenBinary_erase, task_condition_list_erase. Qed.

Lemma unscale_erase n :
  unscale (erase n) = match unscale n with Some (b, m) => Some (b, erase m) | None => None end.
Proof.
  destruct n as [| | | | |? ? op l r|]; simpl; try done. destruct (op === "/"); [|done].
  destruct r as [? ? [] ?| | | | | |]; simpl; try done. by destruct (num_eqb _ _).
Qed.

Lemma task_term_erase n : task_term (erase n) = task_term n.
Proof.
  destruct n as [| | | | |? ? op l r|]; simpl; try done. destruct (op === "*"); [|done].
  by rewrite usage_call_erase, nonnegativePriceLiteral_erase.
Qed.

Lemma task_terms_erase l schema : forall c ps,
  task_terms (map erase l) schema c ps = task_terms l schema c ps.
Proof.
  induction l as [|n l IH]; intros c ps; simpl; [done|].
  rewrite nonnegativePriceLiteral_erase, unscale_erase.
  destruct (nonnegativePriceLiteral n); [by destruct c|].
  destruct (unscale n) as [[b m]|]; [|done]. rewrite task_term_erase.
  destruct (task_term m) as [[[f price]|]|]; try done. by case_goal.
Qed.

Lemma taskTier_erase n cs schema : taskTier (erase n) cs schema = taskTier n cs schema.
Proof.
  destruct n as [| | |? ? f args| | |]; cbn [erase taskTier]; try done.
  destruct (f === "tier"); [|done]. rewrite !need_map.
  destruct (need args 0) as [a|]; [|done]. rewrite string_literal_erase.
  destruct (string_literal a); [|done]. destruct (need args 1) as [b|]; [|done].
  by rewrite flattenBinary_erase, task_terms_erase.
Qed.

Lemma task_chain_leaf n schema b acc : is_conditional n = false ->
  task_chain n schema b acc = let! t := taskTier n [] schema in
    Ok (match t with None => None | Some fallback => Some (acc ++ [fallback]) end).
Proof. by destruct n. Qed.

Lemma readTaskTierChain_erase n schema b :
  readTaskTierChain (erase n) schema b = readTaskTierChain n schema b.
Proof.
  unfold readTaskTierChain. generalize (@nil task_tier) as acc.
  induction n; intros acc; try (rewrite !task_chain_leaf by done; by rewrite taskTier_erase).
  cbn [erase task_chain]. rewrite taskConditions_erase.
  destruct (taskConditions n1 schema b) as [[cs|]|]; try done. rewrite taskTier_erase.
  destruct (taskTier n2 cs schema) as [[t|]|]; [apply IHn3|done|done].
Qed.

(** * Simple types *)

(** The typing rules of what the generators write. *)
Inductive typed : node -> expression_type -> Prop :=
| T_literal s e v i : typed (NLiteral s e v i) (literal_type v)
| T_variable s e x : typed (NVariable s e x) TNumber
| T_arithmetic s e op l r t u :
    one_of op ["*"; "/"; "+"]%string = true -> typed l t -> typed r u ->
    t = TNumber \/ t = TDynamic -> u = TNumber \/ u = TDynamic ->
    typed (NBinary s e op l r) TNumber
| T_compare s e op l r t u :
    one_of op ["=="; "<"; "<="; ">"; ">="]%string = true -> typed l t -> typed r u ->
    typed (NBinary s e op l r) TBoolean
| T_and s e l r :
    typed l TBoolean -> typed r TBoolean -> typed (NBinary s e (js "&&") l r) TBoolean
| T_conditional s e c y n t :
    typed c TBoolean -> typed y t -> typed n t -> typed (NConditional s e c y n) t
| T_tier s e a b : typed a TString -> typed b TNumber -> typed (NCall s e (js "tier") [a; b]) TNumber
| T_fixed s e a : typed a TNumber -> typed (NCall s e (js "fixed") [a]) TNumber
| T_usage s e a : typed a TString -> typed (NCall s e (js "u") [a]) TDynamic.

Lemma typed_erase n : forall t, typed (erase n) t -> typed n t.
Proof.
  induction n as [n IH] using node_children_ind. intros t H.
  destruct n as [| | |s e f args| | |]; cbn [erase] in H; inversion H; subst;
    cbn [children] in IH; rewrite ?list.Forall_cons in IH; destruct_and?;
    try (by econstructor; eauto).
  all: destruct args as [|x1 [|x2 [|]]]; try done; simplify_eq/=.
  all: rewrite ?list.Forall_cons in IH; destruct_and?; constructor; auto.
Qed.

Lemma infer_children n ts :
  NoDup (map node_span (subnodes n)) -> map infer (children n) = map Ok ts ->
  exists get, infer n = type_rule get n /\ Forall2 (fun c t => get c = Some t) (children n) ts.
Proof.
  intros Hn E. rewrite infer_unfold, E. exists (assoc_type (zip (children n) ts)).
  assert (Es : sequence (map Ok ts) = Ok (E := exn) ts).
  { clear. induction ts as [|t ts IH]; simpl; [done|]. by rewrite IH. }
  rewrite Es. split; [done|]. rewrite subnodes_spans in Hn. inversion Hn; subst.
  apply Forall2_same_length_lookup_2.
  - apply (f_equal length) in E. by rewrite !length_map in E.
  - intros i c t Hc Ht. apply assoc_type_zip; eauto.
Qed.

Ltac typed_children Hn ts :=
  let Hc := fresh "Hc" in
  pose proof (nodup_children _ Hn) as Hc; cbn [children] in Hc;
  rewrite ?list.Forall_cons in Hc; destruct_and?;
  let get := fresh "get" in let Hg := fresh "Hg" in
  destruct (infer_children _ ts Hn) as (get & -> & Hg);
    [cbn [children map]; repeat f_equal; auto|];
  cbn [children] in Hg;
  repeat match type of Hg with Forall2 _ (_ :: _) _ =>
    let G := fresh "G" in inversion Hg as [|? ? ? ? G Hg']; clear Hg; rename Hg' into Hg; subst end.

Ltac operator_cases H :=
  apply one_of_In in H as (? & H & ->); repeat (destruct H as [<-|H]); try done.

Lemma infer_typed n t : typed n t -> NoDup (map node_span (subnodes n)) -> infer n = Ok t.
Proof.
  intros H. induction H as [s e v i|s e x|s e op l r t u Hop _ IHl _ IHr Ht Hu
    |s e op l r t u Hop _ IHl _ IHr|s e l r _ IHl _ IHr|s e c y n t _ IHc _ IHy _ IHn
    |s e a b _ IHa _ IHb|s e a _ IHa|s e a _ IHa]; intros Hn.
  - by typed_children Hn (@nil expression_type).
  - by typed_children Hn (@nil expression_type).
  - typed_children Hn [t; u]. cbn [type_rule]. unfold binary_type, requireType. rewrite G, G0.
    destruct Ht as [-> | ->], Hu as [-> | ->]; operator_cases Hop.
  - typed_children Hn [t; u]. cbn [type_rule]. unfold binary_type. operator_cases Hop.
  - typed_children Hn [TBoolean; TBoolean]. cbn [type_rule]. unfold binary_type, requireType.
    by rewrite G, G0.
  - typed_children Hn [TBoolean; t; t]. cbn [type_rule]. unfold requireType. rewrite G.
    simpl. rewrite G0, G1. by rewrite bool_decide_eq_true_2.
  - typed_children Hn [TString; TNumber]. cbn [type_rule]. unfold call_type, requireArg, requireType.
    simpl. by rewrite G, G0.
  - typed_children Hn [TNumber]. cbn [type_rule]. unfold call_type, requireAll, requireType.
    by rewrite G.
  - typed_children Hn [TString]. cbn [type_rule]. unfold call_type, requireArg, requireType.
    simpl. by rewrite G.
Qed.

(** * Compilation *)

Lemma rules_collected source n :
  node_height n <= 257 -> exists rules, visitExpression (rule_visitor source) n [] = Ok rules.
Proof.
  intros Hn. rewrite visit_bounded by done.
  assert (H : Forall (fun m => node_height m <= 257) (postorder n)).
  { apply Forall_elem. intros m Hm. apply postorder_subnodes in Hm.
    pose proof (node_height_sub n m Hm). lia. }
  generalize (@nil request_rule) as rules. induction H as [|m l Hm _ IH]; intros rules; simpl; [eauto|].
  assert (exists r, rule_visitor source m rules = Ok r) as [r ->]; [|apply IH].
  unfold rule_visitor. destruct m as [| | | | | |s e c y no]; eauto.
  destruct y as [? ? [] ?| | | | | |]; eauto. destruct no as [? ? [] ?| | | | | |]; eauto.
  destruct (num_eqb _ _); eauto.
  destruct (expressionDependencies_total c) as [d ->].
  { rewrite node_height_unfold in Hm. simpl in Hm. lia. }
  destruct (existsb _ _); eauto.
Qed.

(** A parsed tree of a simple type within the depth limit compiles; when it has
    fixed prices they must be admissible. *)
Lemma compile_typed source n t :
  parse source = Ok n -> typed n t -> node_height n <= 257 ->
  (forall rules, containsPricingMarker n = Ok true -> validateFixedPricingTree rules n = Ok tt) ->
  exists comp, compile_try source = Ok comp /\ c_ast comp = n.
Proof.
  intros Hp Ht Hh Hfix. pose proof (parse_spans_nodup _ _ Hp) as Hn.
  unfold compile_try. rewrite Hp.
  rewrite (proj2 (checkExpressionTypes_infer n Hn) (conj Hh (ex_intro _ t (infer_typed _ _ Ht Hn)))).
  destruct (expressionDependencies_total n Hh) as [d Hd]. rewrite Hd.
  destruct (rules_collected source n Hh) as [rules ->].
  unfold containsPricingMarker in Hfix. rewrite Hd in Hfix.
  destruct (set_has (functions d) "fixed") eqn:E; [|by eexists].
  rewrite Hfix; [by eexists|by rewrite orb_true_r].
Qed.
