(* ===== verification/TimeTiers.v ===== *)
(** Time-dependent price tables: reading them never throws on a compiled
    expression, and the tiers shown as current at a time are those of the branch
    that a run at that time takes. *)
From Stdlib Require Import ZArith Lia Bool String.
From stdpp Require Import base list option.
From S2P Require Import Prelude JsString JsNumber Types JsValue Grammar ParserFacts TypeCheck Compile Runtime RuntimeFacts Trace Frame Display DisplayFacts.

(** * Reading tables never throws *)

Definition succeeds {A} (m : result exn A) : Prop := is_Ok m = true.

Lemma succeeds_bind {A B} (m : result exn A) (k : A -> result exn B) :
  succeeds m -> (forall a, m = Ok a -> succeeds (k a)) -> succeeds (let! a := m in k a).
Proof. unfold succeeds. destruct m; simpl; [|done]. auto. Qed.

Lemma succeeds_ok {A} (a : A) : succeeds (@Ok exn A a).
Proof. done. Qed.
Hint Resolve succeeds_ok : newapi.

(** Calls have the arguments that the code goes on to read. *)
Lemma need_arity s e f args k i :
  node_ok (NCall s e (js f) args) -> table_get BILLING_FUNCTIONS (js f) = Some k -> i < k ->
  succeeds (need args i).
Proof.
  unfold node_ok. intros H E Hi. rewrite E in H. injection H as ->. unfold need.
  by destruct (lookup_lt_is_Some_2 args i Hi) as [a ->].
Qed.

Lemma fixed_body_total body : well_formed body -> succeeds (fixed_body body).
Proof.
  intros [H _]%well_formed_node. destruct body as [| | |s e f args| | |]; try done. simpl.
  destruct (f === "fixed") eqn:E; [|done]. apply str_eqb_eq in E. subst f.
  apply succeeds_bind; [|done]. by apply (need_arity s e "fixed" args 1 0 H); [|lia].
Qed.

Lemma tokenTier_total n cs : well_formed n -> succeeds (tokenTier n cs).
Proof.
  intros [H Hc]%well_formed_node. destruct n as [| | |s e f args| | |]; try done. simpl.
  destruct (f === "tier") eqn:E; [|done]. apply str_eqb_eq in E. subst f.
  destruct (args !! 0 ≫= string_literal); [|done].
  apply succeeds_bind; [by apply (need_arity s e "tier" args 2 1 H); [|lia]|].
  intros body Hb. apply succeeds_bind; [|by intros []].
  apply fixed_body_total. unfold need in Hb. destruct (args !! 1) as [b|] eqn:E; [|done].
  injection Hb as ->. exact (Forall_lookup_1 _ _ _ _ Hc E).
Qed.

Lemma well_formed_conditional s e c y no :
  well_formed (NConditional s e c y no) -> well_formed c /\ well_formed y /\ well_formed no.
Proof. intros [_ H]%well_formed_node. simpl in H. rewrite !list.Forall_cons in H. tauto. Qed.

Lemma tier_chain_total n : well_formed n -> forall acc, succeeds (tier_chain n acc).
Proof.
  induction n; intros Hw acc; cbn [tier_chain];
    try (apply succeeds_bind; [by apply tokenTier_total|done]).
  apply well_formed_conditional in Hw as (_ & Hy & Hn).
  destruct (tokenConditions n1) as [cs|]; [|done].
  apply succeeds_bind; [by apply tokenTier_total|]. intros [t|] _; [|done]. by apply IHn3.
Qed.

Lemma readTokenTierChain_total n : well_formed n -> succeeds (readTokenTierChain n).
Proof.
  induction n; intros Hw; try (by apply tier_chain_total). cbn [readTokenTierChain].
  pose proof (well_formed_conditional _ _ _ _ _ Hw) as (_ & Hy & Hn).
  apply succeeds_bind; [destruct (isContextGuard n1); [by apply IHn2|done]|].
  intros [g|] _; [done|]. by apply tier_chain_total.
Qed.

(** ** Task tiers *)

Lemma usage_call_total n : well_formed n -> succeeds (usage_call n).
Proof.
  intros [H _]%well_formed_node. destruct n as [| | |s e f args| | |]; try done. simpl.
  destruct (f === "u") eqn:E; [|done]. apply str_eqb_eq in E. subst f.
  apply succeeds_bind; [|done]. by apply (need_arity s e "u" args 1 0 H); [|lia].
Qed.

Lemma flattenBinary_well_formed n op : well_formed n -> Forall well_formed (flattenBinary n op).
Proof.
  induction n; intros Hw; simpl; try (by apply Forall_cons). 
  destruct (str_eqb operator op); [|by apply Forall_cons].
  apply well_formed_node in Hw as [_ Hc]. simpl in Hc. rewrite !list.Forall_cons in Hc.
  destruct Hc as (H1 & H2 & _). apply Forall_app. auto.
Qed.

Lemma well_formed_binary s e op l r : well_formed (NBinary s e op l r) -> well_formed l /\ well_formed r.
Proof. intros [_ H]%well_formed_node. simpl in H. rewrite !list.Forall_cons in H. tauto. Qed.

Lemma task_condition_list_total terms schema b : Forall well_formed terms -> forall cs,
  succeeds (task_condition_list terms schema b cs).
Proof.
  induction 1 as [|t terms Ht _ IH]; intros cs; simpl; [done|].
  destruct t as [| | | | |s e op l r|]; try done. apply well_formed_binary in Ht as [Hl _].
  destruct (negb (op === "==")); [done|].
  apply succeeds_bind; [by apply usage_call_total|]. intros [f|] _; [|done].
  destruct r; try done. destruct (task_condition_value _ _ _); [apply IH|done].
Qed.

Lemma unscale_well_formed t b t' : unscale t = Some (b, t') -> well_formed t -> well_formed t'.
Proof.
  intros H Hw. destruct t as [| | | | |s e op l r|]; try (injection H as _ <-; done). simpl in H.
  destruct (op === "/"); [|by injection H as _ <-]. apply well_formed_binary in Hw as [Hl _].
  destruct r as [? ? [|v| |] ?| | | | | |]; try done.
  destruct (num_eqb v _); [|done]. by injection H as _ <-.
Qed.

Lemma task_term_total t : well_formed t -> succeeds (task_term t).
Proof.
  intros Hw. destruct t as [| | | | |s e op l r|]; try done. simpl.
  apply well_formed_binary in Hw as [Hl _]. destruct (op === "*"); [|done].
  apply succeeds_bind; [by apply usage_call_total|done].
Qed.

Lemma task_terms_total terms schema : Forall well_formed terms -> forall k ps,
  succeeds (task_terms terms schema k ps).
Proof.
  induction 1 as [|t terms Ht _ IH]; intros k ps; simpl; [done|].
  destruct (nonnegativePriceLiteral t); [destruct k; [done|apply IH]|].
  destruct (unscale t) as [[b t']|] eqn:E; [|done].
  apply succeeds_bind; [by eapply task_term_total, unscale_well_formed|].
  intros [[f p]|] _; [|done]. destruct (_ && _); [apply IH|done].
Qed.

Lemma taskTier_total n cs schema : well_formed n -> succeeds (taskTier n cs schema).
Proof.
  intros [H Hc]%well_formed_node. destruct n as [| | |s e f args| | |]; try done. simpl.
  destruct (f === "tier") eqn:E; [|done]. apply str_eqb_eq in E. subst f.
  apply succeeds_bind; [by apply (need_arity s e "tier" args 2 0 H); [|lia]|].
  intros a _. destruct (string_literal a); [|done].
  apply succeeds_bind; [by apply (need_arity s e "tier" args 2 1 H); [|lia]|].
  intros body Hb. apply succeeds_bind; [|done].
  apply task_terms_total, flattenBinary_well_formed.
  unfold need in Hb. destruct (args !! 1) as [x|] eqn:E; [|done]. injection Hb as ->.
  exact (Forall_lookup_1 _ _ _ _ Hc E).
Qed.

Lemma readTaskTierChain_total n schema b : well_formed n -> succeeds (readTaskTierChain n schema b).
Proof.
  unfold readTaskTierChain. generalize (@nil task_tier) as acc.
  induction n; intros acc Hw; cbn [task_chain];
    try (apply succeeds_bind; [by apply taskTier_total|done]).
  apply well_formed_conditional in Hw as (Hc & Hy & Hn).
  apply succeeds_bind; [by apply task_condition_list_total, flattenBinary_well_formed|].
  intros [cs|] _; [|done].
  apply succeeds_bind; [by apply taskTier_total|]. intros [t|] _; [|done]. by apply IHn3.
Qed.

(** ** Time tiers *)

Lemma isTimeCondition_total n : node_height n <= 257 -> succeeds (isTimeCondition n).
Proof.
  intros H. unfold isTimeCondition. by destruct (expressionDependencies_total n H) as [d ->].
Qed.

Lemma timeTierBranches_total comp n : well_formed n -> node_height n <= 257 -> forall path,
  succeeds (timeTierBranches comp n path).
Proof.
  assert (Leaf : forall m path, well_formed m -> succeeds (tier_leaf comp m path)).
  { intros m path Hm. apply succeeds_bind; [by apply readTokenTierChain_total|done]. }
  induction n; intros Hw Hh path; try (by apply Leaf). cbn [timeTierBranches].
  pose proof (well_formed_conditional _ _ _ _ _ Hw) as (_ & Hy & Hn).
  pose proof (fun c => node_height_child (NConditional start stop n1 n2 n3) c) as Hc.
  pose proof (Hc n1 ltac:(child)). pose proof (Hc n2 ltac:(child)).
  pose proof (Hc n3 ltac:(child)). clear Hc.
  assert (node_height n1 <= 257 /\ node_height n2 <= 257 /\ node_height n3 <= 257)
    as (H1' & H2' & H3') by lia.
  apply succeeds_bind; [by apply isTimeCondition_total|]. intros [] _; [|by apply Leaf].
  apply succeeds_bind; [by apply IHn2|]. intros a _.
  apply succeeds_bind; [by apply IHn3|done].
Qed.

Lemma compiled_bounds source comp :
  compile_try source = Ok comp -> well_formed (c_ast comp) /\ node_height (c_ast comp) <= 257.
Proof.
  intros H. pose proof (compiled_spans _ _ H) as Hd.
  apply compile_try_inv in H as (_ & Hp & Ht & _). split; [by eapply parse_well_formed|].
  by apply (checkExpressionTypes_infer _ Hd) in Ht as [? _].
Qed.

(** Reading a price table never throws: for any source and cache the time
    price table of the source is computed, and on the tree of a compiled
    expression the token and task tables are, whatever the usage schema. *)
Theorem price_tables_total `{P : Platform} source now c :
  cache_ok c ->
  is_Ok (readTimeTokenPricing source now c).1 = true /\
  forall comp, (compileBillingExpression source c).1 = Ready comp ->
    is_Ok (readTokenTierChain (c_ast comp)) = true /\
    forall schema b, is_Ok (readTaskTierChain (c_ast comp) schema b) = true.
Proof.
  intros Hc. unfold readTimeTokenPricing. pose proof (compile_cached_result source c Hc) as Hr.
  destruct (compileBillingExpression source c) as [r c']. simpl in *. subst r.
  unfold compile_fresh. destruct (compile_try source) as [comp|] eqn:E; [|done].
  destruct (compiled_bounds _ _ E) as [Hw Hh]. split.
  - apply succeeds_bind; [by apply timeTierBranches_total|done].
  - intros comp' [= <-]. split; [by apply readTokenTierChain_total|].
    intros schema b. by apply readTaskTierChain_total.
Qed.

Lemma price_tables_total_witness :
  is_Ok (@readTimeTokenPricing plain_platform guarded_source None []).1 = true.
Proof. exact (proj1 (@price_tables_total plain_platform guarded_source None [] cache_ok_empty)). Defined.

(** * The tiers shown as current *)

Section Current.
Context {P : Platform}.
Variable comp : compiled.
Variable cx : context.
Variable hdrs : list (jsstr * jsstr).
Variable clock : date.

Abbreviation eval := (evaluate comp cx hdrs clock).

(** What [isTimeCondition] says about the functions and variables of a node. *)
Lemma isTimeCondition_inv n :
  isTimeCondition n = Ok true ->
  (forall x m, m ∈ subnodes n -> ~ is_variable x m) /\
  (forall f m, m ∈ subnodes n -> is_call f m ->
     one_of f (TIME_FUNCTIONS ++ ["min"; "max"; "abs"; "ceil"; "floor"]%string) = true).
Proof.
  unfold isTimeCondition. destruct (expressionDependencies n) as [d|] eqn:E; [|done].
  intros [= H]. apply expressionDependencies_spec in E as [Hv Hf].
  apply andb_true_iff in H as [[H1 _]%andb_true_iff H2]. split.
  - intros x m Hm Hx. assert (Hin : x ∈ variables d) by (apply Hv; eauto).
    destruct (variables d); [by apply not_elem_of_nil in Hin|done].
  - intros f m Hm Hx. assert (Hin : f ∈ functions d) by (apply Hf; eauto).
    rewrite forallb_forall in H2. by apply H2, list_elem_of_In.
Qed.

(** The value of a time condition in a run is the value [evaluateBillingCondition]
    computes, when the condition does not mention the group or the channel. *)
Lemma time_condition_value c d st b i st' :
  isTimeCondition c = Ok true -> reads_context c = false -> times_ok clock st ->
  eval c d st = Ok (RValue (JBool b) i, st') ->
  evaluateBillingCondition comp c clock = Some b.
Proof.
  intros Ht Hx Hst H. destruct (isTimeCondition_inv c Ht) as [Hv Hf].
  edestruct (replays_evaluate comp cx hdrs clock c d 0 st (init_runtime comp))
    as (_ & st2 & H2 & _); [lia|exact Hst|by intros z w Hz|exact H|].
  unfold evaluateBillingCondition, run, construct. simpl.
  erewrite (same_evaluate comp _ cx [] hdrs clock clock []
    (map js (TIME_FUNCTIONS ++ ["min"; "max"; "abs"; "ceil"; "floor"]%string)) false).
  - by rewrite H2.
  - constructor; try done; try (intros Hin; exfalso; revert Hin; by apply (bool_decide_unpack _)).
    intros x Hin. by apply not_elem_of_nil in Hin.
  - intros x m Hm Hm'. by destruct (Hv x m Hm).
  - intros f m Hm Hm'. apply Hf in Hm'; [|done]. apply one_of_In in Hm' as (g & Hg & ->).
    by apply list_elem_of_In, in_map.
  - intros m Hm Hc. unfold reads_context in Hx. rewrite <- Hx.
    apply existsb_exists. exists m. split; [by apply list_elem_of_In|done].
Qed.

(** A conditional is split on a time condition, or read as a chain. *)
Lemma branches_conditional s e c y no path tiers :
  timeTierBranches comp (NConditional s e c y no) path = Ok (Some tiers) ->
  (isTimeCondition c = Ok true /\ exists a b, tiers = a ++ b /\
     timeTierBranches comp y (path ++ [(c, true)]) = Ok (Some a) /\
     timeTierBranches comp no (path ++ [(c, false)]) = Ok (Some b)) \/
  tier_leaf comp (NConditional s e c y no) path = Ok (Some tiers).
Proof.
  cbn [timeTierBranches]. destruct (isTimeCondition c) as [[]|]; [|by right|done].
  destruct (timeTierBranches comp y _) as [[a|]|]; [| |done];
    (destruct (timeTierBranches comp no _) as [[b|]|]; [| |done]); intros [= <-].
  left. eauto 10.
Qed.

(** The tiers of a branch carry its path. *)
Lemma branches_path n : forall path tiers, timeTierBranches comp n path = Ok (Some tiers) ->
  Forall (fun t => exists more, mt_timeConditions t = path ++ more) tiers.
Proof.
  assert (Leaf : forall m path tiers, tier_leaf comp m path = Ok (Some tiers) ->
    Forall (fun t => exists more, mt_timeConditions t = path ++ more) tiers).
  { intros m path tiers H. unfold tier_leaf in H.
    destruct (readTokenTierChain m) as [[ts|]|]; [|done..].
    destruct path as [|p path]; [done|]. injection H as <-.
    apply Forall_elem. intros t Ht. apply list_elem_of_In, in_map_iff in Ht as (x & <- & _).
    exists []. by rewrite app_nil_r. }
  induction n; intros path tiers H; try (by eapply Leaf).
  apply branches_conditional in H as [(_ & a & b & -> & Ea & Eb)|H]; [|by eapply Leaf].
  apply Forall_app. apply IHn2 in Ea. apply IHn3 in Eb.
  split; (eapply Forall_impl; [|first [exact Ea|exact Eb]]);
    intros t (more & Hm); rewrite Hm, <- app_assoc; eauto.
Qed.

(** A branch with a condition that does not match shows nothing as current. *)
Lemma branches_stale n path tiers p :
  timeTierBranches comp n path = Ok (Some tiers) -> p ∈ path ->
  condition_is comp clock p = false -> List.filter (tier_current comp clock) tiers = [].
Proof.
  intros H Hp Hc. apply branches_path in H.
  induction H as [|t tiers (more & Ht) _ IH]; simpl; [done|].
  assert (E : tier_current comp clock t = false).
  { unfold tier_current. rewrite Ht. apply not_true_iff_false. intros Hall.
    rewrite forallb_forall in Hall. rewrite Hall in Hc; [done|].
    apply list_elem_of_In. rewrite elem_of_app. by left. }
  by rewrite E.
Qed.

(** No guard on the group or the channel anywhere. *)
Definition unguarded (n : node) : Prop :=
  Forall (fun m => match m with
                   | NConditional _ _ c _ _ => isContextGuard c = false
                   | _ => True
                   end) (subnodes n).

Lemma unguarded_child n c : unguarded n -> c ∈ children n -> unguarded c.
Proof.
  intros H Hc. apply Forall_elem. intros m Hm. apply (proj1 (Forall_elem _ _) H).
  by eapply subnodes_child.
Qed.

Lemma unguarded_path n : unguarded n -> guard_path n = [].
Proof.
  intros H. pose proof (proj1 (Forall_elem _ _) H n (subnodes_self n)) as Hn.
  destruct n; try done. simpl in *. by rewrite Hn.
Qed.

(** The time conditions of the table do not mention the group or the channel. *)
Definition timely (tiers : list time_tier) : Prop :=
  Forall (fun t => Forall (fun p => reads_context p.1 = false) (mt_timeConditions t)) tiers.

(** What a run of [n] charges, in terms of the tiers shown as current. *)
Definition charged_current (n : node) (tiers : list time_tier) (v : rvalue) (st' : runtime) : Prop :=
  exists t m st, m ∈ subnodes n /\ first_tier cx (map mt_tier (List.filter (tier_current comp clock) tiers)) = Some t /\
    charged cx m t st v st'.

Lemma leaf_current n path tiers d st v st' :
  tier_leaf comp n path = Ok (Some tiers) -> unguarded n ->
  Forall (fun p => condition_is comp clock p = true) path ->
  eval n d st = Ok (v, st') -> charged_current n tiers v st'.
Proof.
  intros H Hu Hp He. unfold tier_leaf in H.
  destruct (readTokenTierChain n) as [[ts|]|] eqn:En; [|done..].
  destruct path as [|p path]; [done|]. injection H as <-. set (whole := p :: path) in *.
  assert (Hall : forallb (condition_is comp clock) whole = true).
  { apply forallb_forall. intros x Hx. apply (proj1 (Forall_elem _ _) Hp). by apply list_elem_of_In. }
  assert (E : map mt_tier (List.filter (tier_current comp clock)
                (map (time_tier_of (c_source comp) whole) ts)) = ts).
  { assert (Hcur : forall t, tier_current comp clock (time_tier_of (c_source comp) whole t) = true)
      by (intros t; exact Hall).
    clear En. clearbody whole.
    induction ts as [|t ts IH]; [done|]. cbn [map List.filter]. rewrite Hcur. cbn [map]. by rewrite IH. }
  destruct (readTokenTierChain_eval comp cx hdrs clock n _ _ _ _ _ En
    ltac:(rewrite unguarded_path by done; apply Forall_nil_2) He) as (t & m & Hf & Hm & Hc).
  exists t, m, st. by rewrite E.
Qed.

Lemma branches_nonempty n path tiers :
  timeTierBranches comp n path = Ok (Some tiers) -> tiers <> [].
Proof.
  assert (Chain : forall m acc ts, tier_chain m acc = Ok (Some ts) -> ts <> []).
  { intros m acc ts H. rewrite tier_chain_acc in H.
    destruct (tier_chain m []) as [[r|]|] eqn:E; [|done..]. injection H as <-.
    enough (r <> []) by (by destruct acc).
    destruct m; try (apply tier_chain_cons in E as (? & ? & ? & _ & _ & _ & ->); done);
      cbn [tier_chain] in E; (destruct (tokenTier _ []) as [[t|]|]; [|done..]); by injection E as <-. }
  assert (Read : forall m ts, readTokenTierChain m = Ok (Some ts) -> ts <> []).
  { induction m; intros ts H; try (by eapply Chain). cbn [readTokenTierChain] in H.
    destruct (isContextGuard m1); [|by eapply Chain].
    destruct (readTokenTierChain m2) as [[g|]|]; [|by eapply Chain|done].
    injection H as <-. by apply IHm2. }
  assert (Leaf : forall m p ts, tier_leaf comp m p = Ok (Some ts) -> ts <> []).
  { intros m p ts H. unfold tier_leaf in H.
    destruct (readTokenTierChain m) as [[r|]|] eqn:E; [|done..].
    apply Read in E. destruct p, r; try done; injection H as <-; done. }
  revert path tiers. induction n; intros path tiers H; try (by eapply Leaf).
  apply branches_conditional in H as [(_ & a & b & -> & Ea & _)|H]; [|by eapply Leaf].
  apply IHn2 in Ea. by destruct a.
Qed.

(** The head condition of a branch is among the conditions of its tiers. *)
Lemma timely_head n path c b tiers :
  timeTierBranches comp n (path ++ [(c, b)]) = Ok (Some tiers) -> timely tiers ->
  reads_context c = false.
Proof.
  intros H Ht. pose proof (branches_nonempty _ _ _ H) as Hne. apply branches_path in H.
  destruct tiers as [|t tiers]; [done|]. apply list.Forall_cons in H as [(more & Hm) _].
  apply list.Forall_cons in Ht as [Ht _]. rewrite Hm in Ht.
  apply (proj1 (Forall_elem _ _) Ht (c, b)). rewrite !elem_of_app. left. right. left.
Qed.

Lemma branches_current n : forall path tiers d st v st',
  timeTierBranches comp n path = Ok (Some tiers) -> unguarded n -> timely tiers ->
  Forall (fun p => condition_is comp clock p = true) path -> times_ok clock st ->
  eval n d st = Ok (v, st') -> charged_current n tiers v st'.
Proof.
  induction n; intros path tiers dep st v st' H Hu Ht Hp Hst He; try (by eapply leaf_current).
  apply branches_conditional in H as [(Hc & a & b & -> & Ha & Hb)|H]; [|by eapply leaf_current].
  apply Forall_app in Ht as [Hta Htb].
  pose proof (timely_head _ _ _ _ _ Ha Hta) as Hx.
  apply eval_conditional in He as (q & i & st1 & st2 & Eq & Hs2 & He).
  pose proof (time_condition_value _ _ _ _ _ _ Hc Hx Hst Eq) as Hq.
  destruct (replays_evaluate comp cx hdrs clock n1 _ _ _ _ _ _ (le_n _) Hst Hst Eq) as [Hst1 _].
  assert (Hst2 : times_ok clock st2) by (by destruct Hs2 as [->|(k & ->)]).
  assert (Hcond : forall w, condition_is comp clock (n1, w) = Bool.eqb q w).
  { intros w. unfold condition_is. simpl. by rewrite Hq. }
  assert (Hpath : forall w, q = w -> Forall (fun p => condition_is comp clock p = true)
                                       (path ++ [(n1, w)])).
  { intros w <-. apply Forall_app. split; [done|]. apply Forall_cons; [|apply Forall_nil_2].
    rewrite Hcond. by destruct q. }
  unfold charged_current. rewrite List.filter_app.
  destruct q.
  - erewrite (branches_stale _ _ b (n1, false)); [|exact Hb| |by rewrite Hcond].
    + rewrite app_nil_r.
      edestruct IHn2 as (t & m & st0 & Hm & Hf & Hch); eauto; [eapply unguarded_child; [exact Hu|child]|].
      exists t, m, st0. split_and!; [eapply subnodes_child; [|exact Hm]; child|done|done].
    + rewrite elem_of_app. right. left.
  - erewrite (branches_stale _ _ a (n1, true)); [|exact Ha| |by rewrite Hcond].
    + edestruct IHn3 as (t & m & st0 & Hm & Hf & Hch); eauto; [eapply unguarded_child; [exact Hu|child]|].
      exists t, m, st0. split_and!; [eapply subnodes_child; [|exact Hm]; child|done|done].
    + rewrite elem_of_app. right. left.
Qed.
End Current.

(** C4. The tiers marked as current are the tiers in force, for expressions without comparisons of
    group or channel as guards ([unguarded]) whose time conditions read neither the group nor the channel
    ([timely]): when a time price table is displayed for a time [t], a run of the expression at [t] reports
    the first of the current tiers whose token conditions hold, and bills its fixed price or, when
    sums associate to the left and no price is minus zero, the sum of its displayed prices.  Without these
    conditions another tier may be shown ([mixed_condition_shows_other_tier]). *)
Theorem current_tier_in_force `{P : Platform} comp cx t new_Date tiers current v st :
  time_pricing comp (Some t) = Ok (Some (tiers, current)) ->
  unguarded (c_ast comp) -> timely tiers ->
  now cx = Some t -> run comp cx new_Date (c_ast comp) = Ok (v, st) ->
  exists tier, first_tier cx (map mt_tier current) = Some tier /\
    matchedTier st = tt_label tier /\
    match tt_fixedPrice tier with
    | Some a => billingUnit st = URequest /\ fixedPrice st = Some a /\ rv v = JNum (num_mul a MILLION)
    | None => left_sums (c_ast comp) -> no_minus_zero (tt_prices tier) ->
        exists x, amount_of cx (tt_prices tier) = Some x /\ rv v = JNum x
    end.
Proof.
  unfold time_pricing. intros H Hu Ht Hn Hr.
  destruct (timeTierBranches comp (c_ast comp) []) as [[ts|]|] eqn:Eb; [|done..].
  injection H as -> <-. apply run_inv in Hr as (hdrs & clock & Hc & He).
  assert (clock = t) as ->.
  { unfold construct in Hc. destruct (normalize_headers _ _); [|done]. rewrite Hn in Hc. congruence. }
  assert (Hst : times_ok t (init_runtime comp)) by (by intros z w Hz).
  destruct (branches_current comp cx hdrs t _ _ _ _ _ _ _ Eb Hu Ht (Forall_nil_2 _) Hst He) as (tier & m & st0 & Hm & Hf & Hl & Hch).
  exists tier. split_and!; [done|done|]. destruct (tt_fixedPrice tier); [done|].
  destruct Hch as (_ & _ & Hs). intros Hls. apply Hs.
  apply Forall_elem. intros k Hk. apply (proj1 (Forall_elem _ _) Hls). by eapply subnodes_trans.
Qed.

Definition timed_compiled : compiled := Eval vm_compute in
  compiled_or_empty (js "hour('UTC') >= 8 ? tier('day', p * 2) : (p < 9 ? tier('n1', p * 1) : tier('n2', c * 3))").

Definition timed_context : context :=
  Context (Some [(js "p", JNum (num_of_Z 4))]) None None (Some (Some 3600000%Z)) None.

Lemma current_tier_in_force_witness :
  exists tiers current v st,
    @time_pricing plain_platform timed_compiled (Some (Some 3600000%Z)) = Ok (Some (tiers, current)) /\
    @run plain_platform timed_compiled timed_context None (c_ast timed_compiled) = Ok (v, st) /\
    exists tier, first_tier timed_context (map mt_tier current) = Some tier /\
      matchedTier st = tt_label tier.
Proof.
  do 4 eexists. split; [vm_compute; reflexivity|]. split; [vm_compute; reflexivity|].
  edestruct (@current_tier_in_force plain_platform timed_compiled timed_context
    (Some 3600000%Z) None) as (t & H1 & H2 & _);
    [vm_compute; reflexivity| | |reflexivity|vm_compute; reflexivity|exact (ex_intro _ t (conj H1 H2))].
  - unfold unguarded. repeat first [apply Forall_nil_2 | apply Forall_cons_2]; try exact I; reflexivity.
  - unfold timely. repeat first [apply Forall_nil_2 | apply Forall_cons_2]; reflexivity.
Defined.

(** * Two limits of the displayed tables *)

Definition mixed_compiled : compiled := Eval vm_compute in
  compiled_or_empty (js "hour('UTC') >= 0 && group == 'vip' ? tier('vip', p * 1) : tier('std', p * 2)").

Definition vip_at_zero : context :=
  Context (Some [(js "p", JNum (num_of_Z 4))]) None None (Some (Some 0%Z))
    (Some [(js "group", JStr (js "vip"))]).

(** A condition that mixes the time with [group] counts as a time condition, and
    is evaluated without the group: the tier shown as current is not the one a run
    for that group charges. *)
Theorem mixed_condition_shows_other_tier :
  exists tiers current v st,
    @time_pricing plain_platform mixed_compiled (Some (Some 0%Z)) = Ok (Some (tiers, current)) /\
    map (fun t => tt_label (mt_tier t)) current = [js "std"] /\
    @run plain_platform mixed_compiled vip_at_zero None (c_ast mixed_compiled) = Ok (v, st) /\
    matchedTier st = js "vip".
Proof. do 4 eexists. split_and!; vm_compute; reflexivity. Qed.

(** Guards on the group and the channel are stripped at every level, not only the
    outermost one. *)
Theorem nested_guards_stripped :
  exists tiers,
    readTokenTierChain (c_ast (compiled_or_empty
      (js "group == 'a' ? (channel == 1 ? tier('x', p * 1) : tier('y', p * 2)) : tier('z', p * 3)")))
      = Ok (Some tiers) /\ map tt_label tiers = [js "x"].
Proof. eexists. split; vm_compute; reflexivity. Qed.
