(* ===== verification/Visual.v ===== *)
(** [pricing/lib/billing-expression/visual.ts]: the visual editor's documents,
    read from a compiled expression and written back by patching the source text
    of the nodes they came from. *)
From Stdlib Require Import ZArith Lia Bool String.
From stdpp Require Import base list option.
From S2P Require Import Prelude JsString JsNumber Types JsValue Compile Runtime Display.

(** * Data *)

(** Conditions; every node has an [id] and, when it was read from an expression,
    its [origin]. *)
Inductive visual_condition :=
| VComparison (id : jsstr) (origin : option node) (probe timezone operator value : jsstr)
| VAll (id : jsstr) (origin : option node) (children : list visual_condition)
| VAny (id : jsstr) (origin : option node) (children : list visual_condition)
| VNot (id : jsstr) (origin : option node) (child : visual_condition).

Record visual_price := VisualPrice {
  vp_variable : jsstr;
  vp_value : jsstr;
  vp_origin : option node;
}.

Inductive visual_pricing :=
| VTier (id : jsstr) (origin : option node) (label : jsstr) (prices : list visual_price)
    (unit : billing_unit) (fixedPrice : jsstr)
| VBranch (id : jsstr) (origin : option node) (condition : visual_condition)
    (yes no : visual_pricing).

Record visual_document := VisualDocument {
  vd_source : jsstr;
  vd_root : visual_pricing;
}.

Record issue := Issue { i_id : jsstr; i_message : string }.

Inductive serialization :=
| Serialized (source : jsstr)
| Refused (issues : list issue).

Definition condition_origin (c : visual_condition) : option node :=
  match c with
  | VComparison _ o _ _ _ _ | VAll _ o _ | VAny _ o _ | VNot _ o _ => o
  end.

Definition pricing_id (p : visual_pricing) : jsstr :=
  match p with VTier i _ _ _ _ _ | VBranch i _ _ _ _ => i end.

(** [o === n] for an optional origin: the origins of one document are nodes of
    one tree. *)
Definition same_origin (o : option node) (n : node) : bool :=
  match o with Some m => same_node m n | None => false end.

Definition COMPARISONS : list string := ["<"; "<="; ">"; ">="; "=="; "!="]%string.

Definition TIME_DOMAINS : list (string * (Z * Z)) :=
  [("hour", (0, 23)); ("minute", (0, 59)); ("weekday", (0, 6)); ("month", (1, 12));
   ("day", (1, 31))]%string%Z.

(** [visualNodeId]: the next value of the module's counter and its name. *)
Definition visualNodeId (nextId : Z) : jsstr * Z :=
  let next := (nextId + 1)%Z in (js "draft-" ++ string_of_Z next, next).

Definition createEmptyVisualCondition (nextId : Z) : visual_condition * Z :=
  let '(id, nextId) := visualNodeId nextId in
  (VComparison id None (js "hour") (js "Asia/Shanghai") (js ">=") [], nextId).

(** * Reading *)

Definition node_id (prefix : string) (n : node) : jsstr :=
  js prefix ++ string_of_Z (Z.of_nat (node_start n)) ++ js "-" ++ string_of_Z (Z.of_nat (node_end n)).

(** The probe and time zone of a comparison. *)
Definition read_probe (l : node) : result exn (option (jsstr * jsstr)) :=
  match l with
  | NVariable _ _ x => Ok (if one_of x ["p"; "c"; "len"]%string then Some (x, []) else None)
  | NCall _ _ f args =>
      if one_of f TIME_FUNCTIONS then
        let! a := need args 0 in
        Ok (match string_literal a with Some zone => Some (f, zone) | None => None end)
      else Ok None
  | _ => Ok None
  end.

Definition read_comparison (n : node) : result exn (option visual_condition) :=
  match n with
  | NBinary _ _ op l (NLiteral _ _ (LNumber v) _) =>
      if one_of op COMPARISONS then
        let! p := read_probe l in
        Ok (match p with
            | Some (probe, timezone) =>
                Some (VComparison (node_id "condition-" n) (Some n) probe timezone op
                        (num_to_string v))
            | None => None
            end)
      else Ok None
  | _ => Ok None
  end.

(** [children.some((child) => child === null)]. *)
Definition all_some {A} (l : list (option A)) : option (list A) := map_option id l.

Fixpoint readVisualCondition (n : node) {struct n} : result exn (option visual_condition) :=
  match n with
  | NUnary _ _ op a =>
      if op === "!" then
        let! child := readVisualCondition a in
        Ok (match child with
            | Some child => Some (VNot (node_id "condition-" n) (Some n) child)
            | None => None
            end)
      else Ok None
  | NBinary _ _ op l r =>
      if one_of op ["&&"; "||"]%string then
        (** [flattenBinary(node, operator).map(readVisualCondition)] *)
        let parts := fix parts (m : node) : list (result exn (option visual_condition)) :=
          match m with
          | NBinary _ _ op' a b =>
              if str_eqb op' op then parts a ++ parts b else [readVisualCondition m]
          | _ => [readVisualCondition m]
          end in
        let! children := sequence (parts l ++ parts r) in
        Ok (match all_some children with
            | Some children =>
                Some ((if op === "&&" then VAll else VAny)
                        (node_id "condition-" n) (Some n) children)
            | None => None
            end)
      else read_comparison n
  | _ => Ok None
  end.

(** The loop over the terms of a tier. *)
Fixpoint read_prices (terms : list node) (prices : list visual_price) : option (list visual_price) :=
  match terms with
  | [] => Some prices
  | NBinary _ _ op (NVariable _ _ x) (NLiteral _ _ (LNumber v) _) as term :: terms' =>
      if (op === "*") && negb (x === "len") && negb (num_ltb v num_zero)
         && negb (existsb (fun p => str_eqb (vp_variable p) x) prices)
      then read_prices terms' (prices ++ [VisualPrice x (num_to_string v) (Some term)])
      else None
  | _ => None
  end.

Definition literal_string (v : literal_value) : jsstr :=
  match v with
  | LString s => s | LNumber n => num_to_string n
  | LBool b => if b then js "true" else js "false" | LNull => js "null"
  end.

(** The literal of [fixed(literal)]. *)
Definition fixed_literal (body : node) : result exn (option (node * literal_value)) :=
  match body with
  | NCall _ _ f args =>
      if f === "fixed" then
        let! a := need args 0 in
        Ok (match a with NLiteral _ _ v _ => Some (a, v) | _ => None end)
      else Ok None
  | _ => Ok None
  end.

Fixpoint readVisualPricing (n : node) : result exn (option visual_pricing) :=
  match n with
  | NConditional _ _ c y no =>
      let! condition := readVisualCondition c in
      let! yes := readVisualPricing y in
      let! no := readVisualPricing no in
      Ok (match condition, yes, no with
          | Some condition, Some yes, Some no =>
              Some (VBranch (node_id "pricing-" n) (Some n) condition yes no)
          | _, _, _ => None
          end)
  | NCall _ _ f args =>
      if f === "tier" then
        let! a := need args 0 in
        match string_literal a with
        | None => Ok None
        | Some label =>
            let! body := need args 1 in
            let! fixed := fixed_literal body in
            Ok (match fixed with
                | Some (_, v) =>
                    Some (VTier (node_id "pricing-" n) (Some n) label [] URequest (literal_string v))
                | None =>
                    match read_prices (flattenBinary body (js "+")) [] with
                    | Some prices =>
                        Some (VTier (node_id "pricing-" n) (Some n) label prices UToken [])
                    | None => None
                    end
                end)
        end
      else Ok None
  | _ => Ok None
  end.

(** * Writing *)

Record patch := Patch { p_node : node; p_text : jsstr }.

(** A stable sort by decreasing start. *)
Fixpoint insert_patch (p : patch) (l : list patch) : list patch :=
  match l with
  | [] => [p]
  | q :: l' =>
      if (node_start (p_node p) <? node_start (p_node q))%nat
      then q :: insert_patch p l' else p :: l
  end.
Definition sort_patches (l : list patch) : list patch := foldr insert_patch [] l.

(** One replacement; the nodes of the patches lie within [origin]. *)
Definition apply_patch (start : nat) (result : jsstr) (p : patch) : jsstr :=
  slice result 0 (node_start (p_node p) - start) ++ p_text p
  ++ slice result (node_end (p_node p) - start) (length result).

Definition patchSource (source : jsstr) (origin : node) (patches : list patch) : jsstr :=
  fold_left (apply_patch (node_start origin)) (sort_patches patches)
    (slice source (node_start origin) (node_end origin)).

Definition node_text (source : jsstr) (n : node) : jsstr :=
  slice source (node_start n) (node_end n).

Definition parseNonNegativeNumber (value : jsstr) : option number :=
  let text := trim value in
  match scan_number text with
  | Some (n, _) =>
      if (n =? length text)%nat then
        let number := js_Number value in
        if is_finite number && num_leb num_zero number then Some number else None
      else None
  | None => None
  end.

(** [value === literal.value]. *)
Definition value_is (value : option number) (v : literal_value) : bool :=
  match value, v with
  | Some x, LNumber y => num_eqb x y
  | None, LNull => true
  | _, _ => false
  end.

(** Conditions and prices are written in a state of issues. *)
Abbreviation written := (result exn (jsstr * list issue)).

Definition MESSAGE_EMPTY_GROUP : string := "Add at least one condition to this group.".
Definition MESSAGE_VALUE : string := "Enter a valid condition value.".
Definition MESSAGE_ZONE : string := "Choose a valid IANA timezone.".
Definition MESSAGE_PRICE : string := "Enter a finite, non-negative price.".
Definition MESSAGE_NO_PRICE : string := "Include at least one price variable.".
Definition MESSAGE_LOSSY : string :=
  "This expression cannot be edited visually without losing information.".

Section WithPlatform.
Context {P : Platform}.

(** The value of a comparison is admissible for its probe. *)
Definition comparison_valid (probe operator : jsstr) (value : option number) : bool :=
  match value with
  | None => false
  | Some v =>
      match table_get TIME_DOMAINS probe with
      | None => true
      | Some (min, max) =>
          is_integer v && num_leb (num_of_Z min) v
          && num_leb v (num_of_Z (max + (if operator === "<" then 1 else 0)))
      end
  end.

(** The zone of the comparison that the node was read from. *)
Definition original_zone (origin : option node) : result exn (option literal_value) :=
  match origin with
  | Some (NBinary _ _ _ (NCall _ _ _ args) _) =>
      let! a := need args 0 in
      Ok (match a with NLiteral _ _ v _ => Some v | _ => None end)
  | _ => Ok None
  end.

Definition zone_is (timezone : jsstr) (v : option literal_value) : bool :=
  match v with Some (LString s) => str_eqb timezone s | _ => false end.

(** The issues of the time zone of a comparison. *)
Definition zone_issues (id timezone : jsstr) (origin : option node) (issues : list issue)
  : result exn (list issue) :=
  let! zone := original_zone origin in
  Ok (if zone_is timezone zone then issues
      else
        match trim timezone with
        | [] => issues ++ [Issue id MESSAGE_ZONE]
        | z => match DateTimeFormat z with
               | Some _ => issues
               | None => issues ++ [Issue id MESSAGE_ZONE]
               end
        end).

(** The text of the probe: the source when it is unchanged. *)
Definition probe_text (source : jsstr) (oldProbe : node) (probe timezone text : jsstr)
  : result exn jsstr :=
  match oldProbe with
  | NVariable _ _ x => Ok (if str_eqb x probe then node_text source oldProbe else text)
  | NCall _ _ f args =>
      if str_eqb f probe then
        let! a := need args 0 in
        Ok (match a with
            | NLiteral _ _ v _ =>
                if zone_is timezone (Some v) then node_text source oldProbe else text
            | _ => text
            end)
      else Ok text
  | _ => Ok text
  end.

Definition write_comparison (source id : jsstr) (origin : option node)
    (probe timezone operator text : jsstr) (issues : list issue) : written :=
  let value := parseNonNegativeNumber text in
  let issues :=
    if comparison_valid probe operator value then issues
    else issues ++ [Issue id MESSAGE_VALUE] in
  let isTime := one_of probe TIME_FUNCTIONS in
  let! issues := if isTime then zone_issues id timezone origin issues else Ok issues in
  let written_probe :=
    if isTime then probe ++ js "(" ++ json_string timezone ++ js ")" else probe in
  let fresh :=
    js "(" ++ written_probe ++ js " " ++ operator ++ js " " ++ text ++ js ")" in
  match origin with
  | Some (NBinary _ _ op l r as origin) =>
      if str_eqb op operator then
        let! probeText := probe_text source l probe timezone written_probe in
        let valueText :=
          match r with
          | NLiteral _ _ v _ => if value_is value v then node_text source r else text
          | _ => text
          end in
        Ok (patchSource source origin [Patch l probeText; Patch r valueText], issues)
      else Ok (fresh, issues)
  | _ => Ok (fresh, issues)
  end.

(** A group of written children. *)
Definition write_group (source : jsstr) (origin : option node) (operator : jsstr)
    (origins : list (option node)) (children : list jsstr) : jsstr :=
  let fresh :=
    js "(" ++ join (js " " ++ operator ++ js " ")
                (map (fun child => js "(" ++ child ++ js ")") children) ++ js ")" in
  match origin with
  | Some (NBinary _ _ op _ _ as origin) =>
      if str_eqb op operator then
        let original := flattenBinary origin operator in
        if (length original =? length children)%nat
           && forallb (fun p : option node * node => same_origin p.1 p.2) (zip origins original)
        then patchSource source origin (zip_with Patch original children)
        else fresh
      else fresh
  | _ => fresh
  end.

(** Write a list in order, threading the issues. *)
Fixpoint write_all (ws : list (list issue -> written)) (issues : list issue)
  : result exn (list jsstr * list issue) :=
  match ws with
  | [] => Ok ([], issues)
  | w :: ws' =>
      let! (t, issues) := w issues in
      let! (ts, issues) := write_all ws' issues in Ok (t :: ts, issues)
  end.

Fixpoint writeVisualCondition (source : jsstr) (c : visual_condition) (issues : list issue)
  {struct c} : written :=
  let group id origin operator children :=
    let issues := match children with
                  | [] => issues ++ [Issue id MESSAGE_EMPTY_GROUP]
                  | _ => issues
                  end in
    let! (texts, issues) := write_all (map (writeVisualCondition source) children) issues in
    Ok (write_group source origin operator (map condition_origin children) texts, issues) in
  match c with
  | VNot _ origin child =>
      let! (text, issues) := writeVisualCondition source child issues in
      match origin with
      | Some (NUnary _ _ _ operand as o) =>
          if same_origin (condition_origin child) operand
          then Ok (patchSource source o [Patch operand text], issues)
          else Ok (js "!(" ++ text ++ js ")", issues)
      | _ => Ok (js "!(" ++ text ++ js ")", issues)
      end
  | VAll id origin children => group id origin (js "&&") children
  | VAny id origin children => group id origin (js "||") children
  | VComparison id origin probe timezone operator value =>
      write_comparison source id origin probe timezone operator value issues
  end.

Definition visualConditionExpression (c : visual_condition) (source : jsstr)
  : result exn (option jsstr) :=
  let! (expression, issues) := writeVisualCondition source c [] in
  Ok (match issues with [] => Some expression | _ => None end).

(** The text of a tier's label: the source when it is unchanged. *)
Definition label_text (source : jsstr) (label : node) (text : jsstr) : jsstr :=
  match label with
  | NLiteral _ _ (LString s) _ =>
      if str_eqb s text then node_text source label else json_string text
  | _ => json_string text
  end.

(** The tier call that a node was read from. *)
Definition tier_origin (origin : option node) : option (node * list node) :=
  match origin with
  | Some (NCall _ _ f args as o) => if f === "tier" then Some (o, args) else None
  | _ => None
  end.

Definition write_fixed (source id : jsstr) (origin : option node) (label fixedPrice : jsstr)
    (issues : list issue) : written :=
  let value := parseNonNegativeNumber fixedPrice in
  let finite := match value with
                | Some v => is_finite (num_mul v MILLION)
                | None => false
                end in
  let issues := if finite then issues else issues ++ [Issue (id ++ js ":fixed") MESSAGE_PRICE] in
  match tier_origin origin with
  | Some (o, args) =>
      let! labelNode := need args 0 in
      let! price := need args 1 in
      let! fixed := fixed_literal price in
      let priceText :=
        match fixed with
        | Some (amount, v) =>
            let text := if value_is value v then node_text source amount else fixedPrice in
            patchSource source price [Patch amount text]
        | None => js "fixed(" ++ fixedPrice ++ js ")"
        end in
      Ok (patchSource source o
            [Patch labelNode (label_text source labelNode label); Patch price priceText], issues)
  | None =>
      Ok (js "tier(" ++ json_string label ++ js ", fixed(" ++ fixedPrice ++ js "))", issues)
  end.

(** One price: its text, its patch when it has an origin, and its issue. *)
Definition write_price (source id : jsstr) (p : visual_price)
  : jsstr * list patch * list issue :=
  let value := parseNonNegativeNumber (vp_value p) in
  let issues :=
    match value with
    | Some _ => []
    | None => [Issue (id ++ js ":" ++ vp_variable p) MESSAGE_PRICE]
    end in
  match vp_origin p with
  | Some (NBinary _ _ _ _ (NLiteral _ _ v _ as r) as o) =>
      let text := if value_is value v then node_text source r else vp_value p in
      (patchSource source o [Patch r text], [Patch r text], issues)
  | _ => (vp_variable p ++ js " * " ++ vp_value p, [], issues)
  end.

Definition write_prices (source id : jsstr) (origin : option node) (label : jsstr)
    (prices : list visual_price) (issues : list issue) : written :=
  let issues := match prices with
                | [] => issues ++ [Issue id MESSAGE_NO_PRICE]
                | _ => issues
                end in
  let ws := map (write_price source id) prices in
  let terms := map (fun w => w.1.1) ws in
  let valuePatches := concat (map (fun w => w.1.2) ws) in
  let issues := issues ++ concat (map snd ws) in
  match tier_origin origin with
  | Some (o, args) =>
      let! labelNode := need args 0 in
      let! body := need args 1 in
      let labelPatch := Patch labelNode (label_text source labelNode label) in
      let original := flattenBinary body (js "+") in
      if (length original =? length prices)%nat
         && forallb (fun p : option node * node => same_origin p.1 p.2)
              (zip (map vp_origin prices) original)
      then Ok (patchSource source o (labelPatch :: valuePatches), issues)
      else Ok (patchSource source o [labelPatch; Patch body (join (js " + ") terms)], issues)
  | None =>
      Ok (js "tier(" ++ json_string label ++ js ", " ++ join (js " + ") terms ++ js ")", issues)
  end.

Fixpoint writeVisualPricing (source : jsstr) (p : visual_pricing) (issues : list issue) : written :=
  match p with
  | VBranch _ origin condition yes no =>
      let! (c, issues) := writeVisualCondition source condition issues in
      let! (y, issues) := writeVisualPricing source yes issues in
      let! (n, issues) := writeVisualPricing source no issues in
      match origin with
      | Some (NConditional _ _ oc oy ono as o) =>
          Ok (patchSource source o [Patch oc c; Patch oy y; Patch ono n], issues)
      | _ => Ok (js "(" ++ c ++ js ") ? (" ++ y ++ js ") : (" ++ n ++ js ")", issues)
      end
  | VTier id origin label prices unit fixedPrice =>
      match unit with
      | URequest => write_fixed source id origin label fixedPrice issues
      | UToken => write_prices source id origin label prices issues
      end
  end.

(** * Documents *)

Definition serializeVisualBillingDocument (d : visual_document) (c : cache)
  : result exn serialization * cache :=
  match writeVisualPricing (vd_source d) (vd_root d) [] with
  | Err e => (Err e, c)
  | Ok (body, []) =>
      let '(original, c) := compileBillingExpression (vd_source d) c in
      match original with
      | NotReady _ => (Ok (Refused [Issue (pricing_id (vd_root d)) MESSAGE_LOSSY]), c)
      | Ready comp =>
          let source := slice (vd_source d) 0 (node_start (c_ast comp)) ++ body
                        ++ slice (vd_source d) (node_end (c_ast comp)) (length (vd_source d)) in
          let '(again, c) := compileBillingExpression source c in
          match again with
          | NotReady _ => (Ok (Refused [Issue (pricing_id (vd_root d)) MESSAGE_VALUE]), c)
          | Ready _ => (Ok (Serialized source), c)
          end
      end
  | Ok (_, issues) => (Ok (Refused issues), c)
  end.

Definition parseVisualBillingDocument (source : jsstr) (c : cache)
  : result exn (option visual_document) * cache :=
  let '(compiled, c) := compileBillingExpression source c in
  match compiled with
  | NotReady _ => (Ok None, c)
  | Ready comp =>
      match readVisualPricing (c_ast comp) with
      | Err e => (Err e, c)
      | Ok None => (Ok None, c)
      | Ok (Some root) =>
          let document := VisualDocument source root in
          let '(r, c) := serializeVisualBillingDocument document c in
          (let! s := r in
           Ok (match s with Serialized _ => Some document | Refused _ => None end), c)
      end
  end.

End WithPlatform.
