(* ===== verification/VisualFacts.v ===== *)
(** The visual editor is lossless: a document read from an expression and written
    back without changes is the expression, character by character. *)
From Stdlib Require Import ZArith Lia Bool String.
From stdpp Require Import base list option.
From S2P Require Import Prelude JsString JsNumber Types JsValue Grammar ParserFacts TypeCheck Compile Runtime RuntimeFacts Trace TypeSound Display DisplayFacts Visual.

(** * Patching *)

Lemma spans_ok_sub n m : spans_ok n -> m ∈ subnodes n -> spans_ok m.
Proof.
  induction n as [n IH] using node_children_ind. intros H Hm.
  rewrite subnodes_unfold in Hm. apply elem_of_cons in Hm as [->|Hm]; [done|].
  apply list_elem_of_In, in_concat in Hm as (l & Hl & Hin).
  apply in_map_iff in Hl as (c & <- & Hc). apply list_elem_of_In in Hc, Hin.
  destruct H as [_ Hch]. rewrite Forall_elem in *. eauto.
Qed.

Lemma slice_slice s a b i j :
  a <= b -> b <= length s -> i <= j -> j <= b - a ->
  slice (slice s a b) i j = slice s (a + i) (a + j).
Proof.
  intros. unfold slice. rewrite skipn_firstn_comm, drop_drop, take_take.
  f_equal. lia.
Qed.

Section Source.
Variable source : jsstr.

(** The tree of a source. *)
Definition fits (n : node) : Prop := spans_ok n /\ node_end n <= length source.

Lemma fits_sub n m : fits n -> m ∈ subnodes n ->
  fits m /\ node_start n <= node_start m /\ node_start m < node_end m /\ node_end m <= node_end n.
Proof.
  intros [Hs He] Hm. pose proof (proj1 (Forall_elem _ _) (spans_ok_inside n Hs) m Hm) as (? & ? & ?).
  split; [|lia]. split; [by eapply spans_ok_sub|lia].
Qed.

(** A patch that puts back the text of its node. *)
Definition restores (n : node) (p : patch) : Prop :=
  p_node p ∈ subnodes n /\ p_text p = node_text source (p_node p).

Lemma apply_patch_restores n p :
  fits n -> restores n p ->
  apply_patch (node_start n) (node_text source n) p = node_text source n.
Proof.
  intros Hn [Hp Ht]. destruct (fits_sub n _ Hn Hp) as (_ & ? & ? & ?). destruct Hn as [Hs He].
  unfold apply_patch. rewrite Ht. unfold node_text.
  rewrite slice_length by lia. rewrite !slice_slice by lia.
  replace (node_start n + (node_start (p_node p) - node_start n)) with (node_start (p_node p)) by lia.
  replace (node_start n + (node_end (p_node p) - node_start n)) with (node_end (p_node p)) by lia.
  replace (node_start n + (node_end n - node_start n)) with (node_end n) by lia.
  rewrite Nat.add_0_r, !slice_app by lia. done.
Qed.

Lemma insert_patch_forall (Q : patch -> Prop) p l :
  Q p -> Forall Q l -> Forall Q (insert_patch p l).
Proof.
  intros Hp. induction 1 as [|q l Hq Hl IH]; simpl; [by apply Forall_cons|].
  destruct (_ <? _); repeat (apply Forall_cons; [done|]); done.
Qed.

Lemma sort_patches_forall (Q : patch -> Prop) l : Forall Q l -> Forall Q (sort_patches l).
Proof. induction 1; simpl; [apply Forall_nil_2|by apply insert_patch_forall]. Qed.

(** Patches that restore the text of their nodes restore the text of the whole. *)
Lemma patchSource_restores n ps :
  fits n -> Forall (restores n) ps -> patchSource source n ps = node_text source n.
Proof.
  intros Hn Hps. unfold patchSource. apply sort_patches_forall in Hps.
  change (slice source (node_start n) (node_end n)) with (node_text source n).
  induction Hps as [|p qs Hp _ IH]; simpl; [done|]. by rewrite apply_patch_restores.
Qed.

(** * Writing what was read *)

(** The issues grow, and when none is added the text is that of node [n]. *)
Definition writes_back (w : list issue -> written) (n : node) : Prop :=
  forall issues text out, w issues = Ok (text, out) ->
  exists more, out = issues ++ more /\ (more = [] -> text = node_text source n).

(** A number that is read back from its printed form. *)
Definition prints_back (v : number) : Prop :=
  match parseNonNegativeNumber (num_to_string v) with
  | Some x => num_eqb x v = true
  | None => True
  end.

Definition literal_prints (m : node) : Prop :=
  match m with NLiteral _ _ (LNumber v) _ => prints_back v | _ => True end.

(** Every number of the tree prints back. *)
Definition literals_print (n : node) : Prop := Forall literal_prints (subnodes n).

Lemma literals_print_sub n m : literals_print n -> m ∈ subnodes n -> literals_print m.
Proof.
  intros H Hm. apply Forall_elem. intros k Hk. apply (proj1 (Forall_elem _ _) H).
  by eapply subnodes_trans.
Qed.

Lemma literals_print_value s e v i :
  literals_print (NLiteral s e (LNumber v) i) ->
  parseNonNegativeNumber (num_to_string v) <> None ->
  value_is (parseNonNegativeNumber (num_to_string v)) (LNumber v) = true.
Proof.
  intros H Hp. apply list.Forall_cons in H as [H _]. simpl in H. unfold prints_back in H.
  by destruct (parseNonNegativeNumber (num_to_string v)).
Qed.

Lemma same_origin_self n : same_origin (Some n) n = true.
Proof. unfold same_origin, same_node. by rewrite !Nat.eqb_refl. Qed.

Lemma restores_intro n m t : m ∈ subnodes n -> t = node_text source m -> restores n (Patch m t).
Proof. by split. Qed.


(** ** Conditions *)

(** The readings of the parts of a group. *)
Lemma readVisualCondition_group s e op l r :
  one_of op ["&&"; "||"]%string = true ->
  readVisualCondition (NBinary s e op l r) =
  let n := NBinary s e op l r in
  let! children := sequence (map readVisualCondition (flattenBinary n op)) in
  Ok (match all_some children with
      | Some children =>
          Some ((if op === "&&" then VAll else VAny) (node_id "condition-" n) (Some n) children)
      | None => None
      end).
Proof.
  intros Ho. cbn [readVisualCondition flattenBinary]. rewrite Ho, str_eqb_refl, map_app.
  set (parts := fix parts (m : node) := _).
  assert (E : forall m, parts m = map readVisualCondition (flattenBinary m op)).
  { induction m; try done. simpl. destruct (str_eqb operator op); [|done].
    by rewrite map_app, IHm1, IHm2. }
  by rewrite !E.
Qed.

(** The parts of a group and the conditions read from them. *)
Lemma read_parts parts children' children :
  sequence (map readVisualCondition parts) = Ok children' -> all_some children' = Some children ->
  Forall2 (fun m c => readVisualCondition m = Ok (Some c)) parts children.
Proof.
  unfold all_some. revert children' children.
  induction parts as [|m parts IH]; simpl; intros cs' cs H1 H2.
  - injection H1 as <-. injection H2 as <-. constructor.
  - destruct (readVisualCondition m) as [o|] eqn:Em; [|done].
    destruct (sequence (map readVisualCondition parts)) as [os|] eqn:Es; [|done].
    injection H1 as <-. simpl in H2. destruct o as [c|]; [|done]. simpl in H2.
    destruct (map_option id os) as [cs0|] eqn:Eo; [|done]. injection H2 as <-.
    constructor; [done|]. by eapply IH.
Qed.

Lemma write_all_back ws parts :
  Forall2 (writes_back) ws parts -> forall issues texts out,
  write_all ws issues = Ok (texts, out) ->
  length texts = length parts /\
  exists more, out = issues ++ more /\ (more = [] -> texts = map (node_text source) parts).
Proof.
  induction 1 as [|w m ws parts Hw _ IH]; simpl; intros issues texts out H.
  - injection H as <- <-. split; [done|]. exists []. by rewrite app_nil_r.
  - destruct (w issues) as [[t i1]|] eqn:E1; [|done].
    destruct (write_all ws i1) as [[ts i2]|] eqn:E2; [|done]. injection H as <- <-.
    destruct (Hw _ _ _ E1) as (m1 & -> & Ht). destruct (IH _ _ _ E2) as (Hl & m2 & -> & Hts).
    split; [simpl; congruence|]. exists (m1 ++ m2). rewrite app_assoc. split; [done|].
    intros [-> ->]%app_eq_nil. by rewrite Ht, Hts.
Qed.

Lemma write_group_back s e op l r origins :
  let n := NBinary s e op l r in
  fits n -> origins = map Some (flattenBinary n op) ->
  write_group source (Some n) op origins (map (node_text source) (flattenBinary n op)) =
  node_text source n.
Proof.
  intros n Hn ->. subst n. unfold write_group. rewrite str_eqb_refl.
  set (n := NBinary s e op l r) in *. rewrite length_map, Nat.eqb_refl, andb_true_l.
  assert (E : forallb (fun p : option node * node => same_origin p.1 p.2)
                (zip (map Some (flattenBinary n op)) (flattenBinary n op)) = true).
  { apply forallb_forall. intros [o m] Hin. apply list_elem_of_In, elem_of_lookup_zip_with in Hin
      as (i & x & y & [= -> ->] & Hx & Hy).
    rewrite list_lookup_fmap, Hy in Hx. injection Hx as <-. apply same_origin_self. }
  rewrite E. apply patchSource_restores; [done|].
  assert (Hsub : forall m, m ∈ flattenBinary n op -> m ∈ subnodes n) by apply flatten_sub.
  revert Hsub. generalize (flattenBinary n op) as parts. intros parts Hsub.
  induction parts as [|m parts IH]; simpl; [apply Forall_nil_2|].
  apply Forall_cons; [apply restores_intro; [apply Hsub; left|done]|].
  apply IH. intros k Hk. apply Hsub. by right.
Qed.


Section Platform.
Context {P : Platform}.

Lemma read_probe_back s e op l r probe zone written_probe issues id :
  read_probe l = Ok (Some (probe, zone)) ->
  probe_text source l probe zone written_probe = Ok (node_text source l) /\
  (one_of probe TIME_FUNCTIONS = true ->
   zone_issues id zone (Some (NBinary s e op l r)) issues = Ok issues).
Proof.
  intros H. destruct l as [| ? ? x| |? ? f args| | |]; try done; simpl in H.
  - destruct (one_of x _) eqn:Ex; [|done]. injection H as <- <-. split.
    + simpl. by rewrite str_eqb_refl.
    + apply one_of_In in Ex as (t & Ht & ->). intros Hx.
      repeat (destruct Ht as [<-|Ht]; [done|]). done.
  - destruct (one_of f TIME_FUNCTIONS) eqn:Ef; [|done].
    destruct args as [|a args]; [done|]. simpl in H.
    destruct a as [? ? [z| | |] ?| | | | | |]; try done. injection H as <- <-. split.
    + simpl. by rewrite !str_eqb_refl.
    + intros _. unfold zone_issues. simpl. by rewrite str_eqb_refl.
Qed.

Lemma comparison_back n c :
  fits n -> literals_print n -> read_comparison n = Ok (Some c) ->
  condition_origin c = Some n /\ writes_back (writeVisualCondition source c) n.
Proof.
  intros Hn Hl H. destruct n as [| | | | |s e op l r|]; try done.
  destruct r as [rs re [|v| |] ri| | | | | |]; try done. simpl in H.
  destruct (one_of op COMPARISONS); [|done].
  destruct (read_probe l) as [[[probe zone]|]|] eqn:Ep; [|done..]. injection H as <-.
  split; [done|]. intros issues text out Hw. simpl in Hw. unfold write_comparison in Hw.
  set (r := NLiteral rs re (LNumber v) ri) in *.
  set (issues1 := if comparison_valid probe op (parseNonNegativeNumber (num_to_string v))
                  then issues else _) in Hw.
  set (written_probe := if one_of probe TIME_FUNCTIONS then _ else probe) in Hw.
  set (id := node_id _ _) in *.
  destruct (read_probe_back s e op l r probe zone written_probe issues1 id Ep) as [Hpt Hz].
  assert (Hz' : (if one_of probe TIME_FUNCTIONS
                 then zone_issues id zone (Some (NBinary s e op l r)) issues1
                 else Ok issues1) = Ok issues1)
    by (destruct (one_of probe TIME_FUNCTIONS); auto).
  rewrite Hz', str_eqb_refl, Hpt in Hw. injection Hw as <- <-.
  exists (if comparison_valid probe op (parseNonNegativeNumber (num_to_string v)) then []
          else [Issue id MESSAGE_VALUE]).
  split; [subst issues1; destruct (comparison_valid _ _ _); by rewrite ?app_nil_r|].
  destruct (comparison_valid _ _ _) eqn:Ev; [|done]. intros _.
  apply patchSource_restores; [done|].
  assert (Hr : r ∈ subnodes (NBinary s e op l r))
    by (eapply subnodes_child; [|apply subnodes_self]; child).
  apply Forall_cons; [|apply Forall_cons; [|apply Forall_nil_2]].
  - apply restores_intro; [eapply subnodes_child; [|apply subnodes_self]; child|done].
  - apply restores_intro; [done|].
    rewrite (literals_print_value rs re v ri); [done|by eapply literals_print_sub|].
    intros E. by rewrite E in Ev.
Qed.

Lemma condition_back n : forall c,
  fits n -> literals_print n -> readVisualCondition n = Ok (Some c) ->
  condition_origin c = Some n /\ writes_back (writeVisualCondition source c) n.
Proof.
  induction n as [n IH] using node_sub_ind. intros c Hn Hl H.
  destruct n as [| | | |s e op a|s e op l r|]; try done.
  - simpl in H. destruct (op === "!"); [|done].
    destruct (readVisualCondition a) as [[k|]|] eqn:Ea; [|done..]. injection H as <-.
    split; [done|]. set (n := NUnary s e op a) in *.
    assert (Ha : a ∈ subnodes n) by (eapply subnodes_child; [|apply subnodes_self]; child).
    destruct (IH a a ltac:(child) (subnodes_self a) k (proj1 (fits_sub _ _ Hn Ha))
      (literals_print_sub _ _ Hl Ha) Ea) as [Ho Hw].
    intros issues text out H. simpl in H.
    destruct (writeVisualCondition source k issues) as [[t i1]|] eqn:Ek; [|done].
    rewrite Ho, same_origin_self in H. injection H as <- <-.
    destruct (Hw _ _ _ Ek) as (more & -> & Ht). exists more. split; [done|]. intros E.
    apply patchSource_restores; [done|].
    apply Forall_cons; [apply restores_intro; auto|apply Forall_nil_2].
  - destruct (one_of op ["&&"; "||"]%string) eqn:Eo.
    2: { simpl in H. rewrite Eo in H. by apply comparison_back. }
    rewrite readVisualCondition_group in H by done. cbv zeta in H.
    set (n := NBinary s e op l r) in *.
    destruct (sequence _) as [cs'|] eqn:Es; [|done].
    destruct (all_some cs') as [cs|] eqn:Ec; [|done]. injection H as <-.
    pose proof (read_parts _ _ _ Es Ec) as Hparts.
    assert (Hback : Forall2 writes_back (map (writeVisualCondition source) cs) (flattenBinary n op) /\
                    map condition_origin cs = map Some (flattenBinary n op)).
    { assert (Hsub : forall m, m ∈ flattenBinary n op -> m ∈ subnodes l \/ m ∈ subnodes r).
      { intros m. subst n. simpl. rewrite str_eqb_refl, elem_of_app.
        intros [Hm|Hm]; apply flatten_sub in Hm; auto. }
      revert Hsub Hparts. clear Es Ec. generalize (flattenBinary n op) as parts. intros parts Hsub Hp.
      induction Hp as [|m k parts cs Hm _ IHp]; [by split|].
      destruct IHp as [IHw IHo]; [intros x Hx; apply Hsub; by right|].
      assert (Hmk : condition_origin k = Some m /\ writes_back (writeVisualCondition source k) m).
      { destruct (Hsub m ltac:(left)) as [Hin|Hin];
          (eapply IH; [|exact Hin|eapply fits_sub|eapply literals_print_sub|exact Hm]; [child|..];
           [exact Hn|eapply subnodes_child; [|exact Hin]; child
           |exact Hl|eapply subnodes_child; [|exact Hin]; child]). }
      destruct Hmk as [Hk1 Hk2]. simpl. split; [by constructor|]. by rewrite Hk1, IHo. }
    destruct Hback as [Hws Hos].
    split; [by destruct (op === "&&")|].
    assert (Hg : writes_back (fun issues =>
      let! (texts, issues) := write_all (map (writeVisualCondition source) cs)
        (match cs with [] => issues ++ [Issue (node_id "condition-" n) MESSAGE_EMPTY_GROUP] | _ => issues end) in
      Ok (write_group source (Some n) op (map condition_origin cs) texts, issues)) n).
    { intros issues text out H. destruct (write_all _ _) as [[ts i1]|] eqn:Ew; [|done].
      injection H as <- <-. destruct (write_all_back _ _ Hws _ _ _ Ew) as (_ & more & -> & Hts).
      destruct cs as [|k cs].
      - eexists. rewrite <- app_assoc. split; [done|]. done.
      - exists more. split; [done|]. intros E. rewrite (Hts E). by apply write_group_back. }
    apply one_of_In in Eo as (o & Ho & ->). destruct Ho as [<-|[<-|[]]]; exact Hg.
Qed.

(** ** Tiers *)

(** A price read from a term. *)
Definition price_from (term : node) (p : visual_price) : Prop :=
  exists s e op l rs re v ri, term = NBinary s e op l (NLiteral rs re (LNumber v) ri) /\
    vp_value p = num_to_string v /\ vp_origin p = Some term.

Lemma read_prices_inv terms : forall ps qs, read_prices terms ps = Some qs ->
  exists new, qs = ps ++ new /\ Forall2 price_from terms new.
Proof.
  induction terms as [|t terms IH]; simpl; intros ps qs H.
  - injection H as <-. exists []. by rewrite app_nil_r.
  - destruct t as [| | | | |s e op l r|]; try done.
    destruct l as [|? ? x| | | | |]; try done. destruct r as [? ? [|v| |] ?| | | | | |]; try done.
    destruct (_ && _); [|done]. apply IH in H as (new & -> & Hnew).
    eexists (_ :: new). rewrite <- app_assoc. split; [done|]. constructor; [|done].
    by repeat eexists.
Qed.

(** The patch of an unchanged price restores its value. *)
Lemma write_price_back id n term p :
  fits n -> literals_print n -> term ∈ subnodes n -> price_from term p ->
  exists r t, (write_price source id p).1.2 = [Patch r t] /\
    ((write_price source id p).2 = [] -> restores n (Patch r t)).
Proof.
  intros Hn Hl Ht (s & e & op & l & rs & re & v & ri & -> & Hv & Ho).
  unfold write_price. rewrite Ho, Hv. do 2 eexists. split; [done|]. simpl. intros Hi.
  set (r := NLiteral rs re (LNumber v) ri).
  assert (Hr : r ∈ subnodes n).
  { eapply subnodes_trans; [exact Ht|]. eapply subnodes_child; [|apply subnodes_self]. child. }
  apply restores_intro; [done|].
  assert (E : value_is (parseNonNegativeNumber (num_to_string v)) (LNumber v) = true).
  { apply (literals_print_value rs re v ri); [by eapply literals_print_sub|].
    intros E. by rewrite E in Hi. }
  simpl in E. by rewrite E.
Qed.

Lemma prices_back id n terms prices :
  fits n -> literals_print n -> Forall2 price_from terms prices ->
  (forall m, m ∈ terms -> m ∈ subnodes n) ->
  concat (map snd (map (write_price source id) prices)) = [] ->
  Forall (restores n) (concat (map (fun w => w.1.2) (map (write_price source id) prices))).
Proof.
  intros Hn Hl H. induction H as [|t p terms prices Htp _ IH]; intros Hsub Hi; [apply Forall_nil_2|].
  cbn [map concat] in Hi |- *. apply app_eq_nil in Hi as [Hi1 Hi2].
  destruct (write_price_back id n t p Hn Hl (Hsub t ltac:(left)) Htp) as (r & x & E & Hr).
  rewrite E. apply Forall_app. split.
  - apply Forall_cons; [auto|apply Forall_nil_2].
  - apply IH; [intros m Hm; apply Hsub; by right|done].
Qed.

Lemma label_back n a label :
  a ∈ subnodes n -> string_literal a = Some label ->
  restores n (Patch a (label_text source a label)).
Proof.
  intros Ha H. apply restores_intro; [done|].
  destruct a as [? ? [z| | |] ?| | | | | |]; try done. injection H as ->.
  simpl. by rewrite str_eqb_refl.
Qed.

(** No string literal is an amount of [fixed], as type checking ensures. *)
Definition fixed_typed (n : node) : Prop :=
  forall s e b z rest, NCall s e (js "fixed") (b :: rest) ∈ subnodes n ->
  string_literal b <> Some z.

Lemma fixed_back n s e f args a v :
  fits n -> literals_print n -> fixed_typed n -> NCall s e f args ∈ subnodes n ->
  fixed_literal (NCall s e f args) = Ok (Some (a, v)) ->
  parseNonNegativeNumber (literal_string v) <> None ->
  value_is (parseNonNegativeNumber (literal_string v)) v = true /\ a ∈ subnodes (NCall s e f args).
Proof.
  intros Hn Hl Ht Hin H Hp. simpl in H.
  destruct (f === "fixed") eqn:Ef; [|done]. apply str_eqb_eq in Ef. subst f.
  destruct args as [|b args]; [done|]. simpl in H.
  destruct b as [bs be w bi| | | | | |]; try done. injection H as <- <-.
  assert (Hb : NLiteral bs be w bi ∈ subnodes (NCall s e (js "fixed") (NLiteral bs be w bi :: args)))
    by (eapply subnodes_child; [|apply subnodes_self]; left).
  split; [|done]. destruct w as [z|x|q|].
  - by destruct (Ht _ _ _ z _ Hin).
  - apply (literals_print_value bs be x bi); [|done].
    eapply literals_print_sub; [exact Hl|]. by eapply subnodes_trans.
  - by destruct q.
  - done.
Qed.

Lemma write_fixed_back s e args a body label x v id :
  let n := NCall s e (js "tier") args in
  fits n -> literals_print n -> fixed_typed n ->
  args !! 0 = Some a -> args !! 1 = Some body -> string_literal a = Some label ->
  fixed_literal body = Ok (Some (x, v)) ->
  writes_back (write_fixed source id (Some n) label (literal_string v)) n.
Proof.
  intros n Hn Hl Ht Ha Hb Hs Hf issues text out H. unfold write_fixed in H.
  assert (Hto : tier_origin (Some n) = Some (n, args)) by done.
  rewrite Hto in H. unfold need in H. rewrite Ha, Hb, Hf in H. injection H as <- <-.
  assert (Ha' : a ∈ subnodes n).
  { eapply subnodes_child; [|apply subnodes_self]. by eapply list_elem_of_lookup_2. }
  assert (Hb' : body ∈ subnodes n).
  { eapply subnodes_child; [|apply subnodes_self]. by eapply list_elem_of_lookup_2. }
  destruct (parseNonNegativeNumber (literal_string v)) as [y|] eqn:Ey;
    [|eexists; split; [done|done]].
  destruct (is_finite (num_mul y MILLION)); [|eexists; split; [done|done]].
  exists []. split; [by rewrite app_nil_r|]. intros _.
  destruct body as [| | |bs be f bargs| | |]; try done.
  destruct (fixed_back n bs be f bargs x v Hn Hl Ht Hb' Hf ltac:(by rewrite Ey)) as [Hv Hx].
  rewrite Ey in Hv. rewrite Hv. apply patchSource_restores; [done|].
  apply Forall_cons; [by apply label_back|]. apply Forall_cons; [|apply Forall_nil_2].
  apply restores_intro; [done|]. apply patchSource_restores; [by eapply fits_sub|].
  apply Forall_cons; [by apply restores_intro|apply Forall_nil_2].
Qed.

Lemma write_prices_back s e args a body label prices id :
  let n := NCall s e (js "tier") args in
  fits n -> literals_print n ->
  args !! 0 = Some a -> args !! 1 = Some body -> string_literal a = Some label ->
  read_prices (flattenBinary body (js "+")) [] = Some prices ->
  writes_back (write_prices source id (Some n) label prices) n.
Proof.
  intros n Hn Hl Ha Hb Hs Hp issues text out H. unfold write_prices in H.
  assert (Hto : tier_origin (Some n) = Some (n, args)) by done.
  rewrite Hto in H. unfold need in H. rewrite Ha, Hb in H.
  apply read_prices_inv in Hp as (new & -> & Hnew). simpl in H.
  assert (Hb' : body ∈ subnodes n).
  { eapply subnodes_child; [|apply subnodes_self]. by eapply list_elem_of_lookup_2. }
  assert (Hlen : (length (flattenBinary body (js "+")) =? length new) = true).
  { apply Nat.eqb_eq. by eapply Forall2_length. }
  assert (Hall : forallb (fun p : option node * node => same_origin p.1 p.2)
                   (zip (map vp_origin new) (flattenBinary body (js "+"))) = true).
  { clear - Hnew. induction Hnew as [|t p ts ps (? & ? & ? & ? & ? & ? & ? & ? & _ & _ & Ho) _ IH];
      [done|]. cbn [map zip zip_with forallb fst snd]. by rewrite Ho, same_origin_self, IH. }
  rewrite Hlen, Hall in H. injection H as <- <-.
  exists (match new with [] => [Issue id MESSAGE_NO_PRICE] | _ => [] end
          ++ concat (map snd (map (write_price source id) new))).
  split; [destruct new; [by rewrite <- app_assoc|done]|]. intros [_ Hi]%app_eq_nil.
  apply patchSource_restores; [done|]. apply Forall_cons.
  - apply label_back; [|done]. eapply subnodes_child; [|apply subnodes_self].
    by eapply list_elem_of_lookup_2.
  - eapply prices_back; [done|done|exact Hnew| |done].
    intros m Hm. eapply subnodes_trans; [exact Hb'|]. by eapply flatten_sub.
Qed.

(** ** Documents *)

Lemma fixed_typed_sub n m : fixed_typed n -> m ∈ subnodes n -> fixed_typed m.
Proof. intros H Hm s e b z rest Hin. eapply H. by eapply subnodes_trans. Qed.

Lemma pricing_back n : forall p,
  fits n -> literals_print n -> fixed_typed n -> readVisualPricing n = Ok (Some p) ->
  writes_back (writeVisualPricing source p) n.
Proof.
  induction n; intros p Hn Hl Ht H; try done.
  - simpl in H. destruct (name === "tier") eqn:Ef; [|done]. apply str_eqb_eq in Ef. subst name.
    unfold need in H. destruct (args !! 0) as [a|] eqn:Ea; [|done].
    destruct (string_literal a) as [label|] eqn:El; [|done].
    destruct (args !! 1) as [body|] eqn:Eb; [|done].
    destruct (fixed_literal body) as [[[x v]|]|] eqn:Ex; [| |done].
    + injection H as <-. by eapply write_fixed_back.
    + destruct (read_prices _ []) as [prices|] eqn:Ep; [|done]. injection H as <-.
      by eapply write_prices_back.
  - cbn [readVisualPricing] in H.
    destruct (readVisualCondition n1) as [c|] eqn:Ec; [|done].
    destruct (readVisualPricing n2) as [y|] eqn:Ey; [|done].
    destruct (readVisualPricing n3) as [no|] eqn:En; [|done].
    destruct c as [c|], y as [y|], no as [no|]; try done. injection H as <-.
    set (n := NConditional start stop n1 n2 n3) in *.
    assert (H1 : n1 ∈ subnodes n) by (eapply subnodes_child; [|apply subnodes_self]; child).
    assert (H2 : n2 ∈ subnodes n) by (eapply subnodes_child; [|apply subnodes_self]; child).
    assert (H3 : n3 ∈ subnodes n) by (eapply subnodes_child; [|apply subnodes_self]; child).
    assert (Hf : forall m, m ∈ subnodes n -> fits m /\ literals_print m /\ fixed_typed m).
    { intros m Hm. split_and!; [by eapply fits_sub|by eapply literals_print_sub|by eapply fixed_typed_sub]. }
    destruct (Hf n1 H1) as (F1 & L1 & _), (Hf n2 H2) as (F2 & L2 & T2), (Hf n3 H3) as (F3 & L3 & T3).
    destruct (condition_back n1 c F1 L1 Ec) as [_ B1].
    pose proof (IHn2 y F2 L2 T2 eq_refl) as B2. pose proof (IHn3 no F3 L3 T3 eq_refl) as B3.
    intros issues text out H. cbn [writeVisualPricing] in H.
    destruct (writeVisualCondition source c issues) as [[tc i1]|] eqn:W1; [|done].
    destruct (writeVisualPricing source y i1) as [[ty i2]|] eqn:W2; [|done].
    destruct (writeVisualPricing source no i2) as [[tn i3]|] eqn:W3; [|done].
    injection H as <- <-. destruct (B1 _ _ _ W1) as (m1 & -> & E1).
    destruct (B2 _ _ _ W2) as (m2 & -> & E2). destruct (B3 _ _ _ W3) as (m3 & -> & E3).
    exists (m1 ++ m2 ++ m3). rewrite !app_assoc. split; [done|]. rewrite <- app_assoc.
    intros [-> [-> ->]%app_eq_nil]%app_eq_nil. apply patchSource_restores; [done|].
    repeat (apply Forall_cons; [apply restores_intro; auto|]). apply Forall_nil_2.
Qed.

End Platform.
End Source.

(** ** What compilation gives *)

Lemma compiled_fits source comp : compile_try source = Ok comp -> fits source (c_ast comp).
Proof. intros (_ & Hp & _)%compile_try_inv. apply parse_fits in Hp as (_ & _ & ? & ?). by split. Qed.

Lemma compiled_fixed_typed source comp :
  compile_try source = Ok comp -> fixed_typed (c_ast comp).
Proof.
  intros Hc s e b z rest Hin Hz. pose proof (compiled_spans _ _ Hc) as Hd.
  apply compile_try_inv in Hc as (_ & _ & Ht & _).
  apply (checkExpressionTypes_infer _ Hd) in Ht as [_ [t Ht]].
  destruct (infer_subnode _ _ _ Hd Ht Hin) as [Hd' [u Hu]].
  destruct (infer_rule _ _ Hd' Hu) as (get & Hr & Hcs).
  apply list.Forall_cons in Hcs as [(w & Hw & Hg) _].
  destruct b as [bs be [q| | |] bi| | | | | |]; try done.
  assert (w = TString) as -> by (vm_compute in Hw; congruence).
  unfold type_rule, call_type in Hr. eval_tests_in Hr. cbn [requireAll] in Hr.
  destruct (requireType get _ TNumber) as [[]|] eqn:E; [|done].
  by destruct (requireType_inv _ _ _ _ E Hg).
Qed.

Lemma source_parts source n :
  fits source n ->
  slice source 0 (node_start n) ++ node_text source n ++ slice source (node_end n) (length source)
  = source.
Proof.
  intros [Hs He]. destruct Hs as [(Hlt & _) _]. unfold node_text.
  rewrite !slice_app by lia. apply slice_full.
Qed.

Section Lossless.
Context {P : Platform}.

(** Serializing a document whose root was read from its own source. *)
Lemma serialize_back source comp root c r c' :
  cache_ok c -> compile_try source = Ok comp -> literals_print (c_ast comp) ->
  readVisualPricing (c_ast comp) = Ok (Some root) ->
  serializeVisualBillingDocument (VisualDocument source root) c = (Ok r, c') ->
  cache_ok c' /\ (forall s, r = Serialized s -> s = source).
Proof.
  intros Hc Hcomp Hl Hr H. unfold serializeVisualBillingDocument in H. cbn [vd_source vd_root] in H.
  destruct (writeVisualPricing source root []) as [[body issues]|] eqn:Ew; [|done].
  destruct issues as [|i rest]; [|injection H as <- <-; by split].
  pose proof (compile_cached_result source c Hc) as H1.
  pose proof (compile_cached_ok source c Hc) as H2.
  destruct (compileBillingExpression source c) as [o c1]. simpl in H1, H2. subst o.
  unfold compile_fresh in H. rewrite Hcomp in H.
  destruct (pricing_back source _ _ (compiled_fits _ _ Hcomp) Hl (compiled_fixed_typed _ _ Hcomp) Hr
    _ _ _ Ew) as (more & Hm & Ht). simpl in Hm. rewrite (Ht (eq_sym Hm)) in H.
  rewrite (source_parts _ _ (compiled_fits _ _ Hcomp)) in H.
  pose proof (compile_cached_ok source c1 H2) as H3.
  destruct (compileBillingExpression source c1) as [o c2]. simpl in H3.
  destruct o; injection H as <- <-; split; try done; by intros s [= <-].
Qed.

(** The outcome does not depend on what is cached. *)
Lemma serialize_cached d c1 c2 :
  cache_ok c1 -> cache_ok c2 ->
  (serializeVisualBillingDocument d c1).1 = (serializeVisualBillingDocument d c2).1.
Proof.
  intros H1 H2. unfold serializeVisualBillingDocument.
  destruct (writeVisualPricing _ _ []) as [[body [|]]|]; [|done..].
  pose proof (compile_cached_result (vd_source d) c1 H1) as R1.
  pose proof (compile_cached_result (vd_source d) c2 H2) as R2.
  pose proof (compile_cached_ok (vd_source d) c1 H1) as K1.
  pose proof (compile_cached_ok (vd_source d) c2 H2) as K2.
  destruct (compileBillingExpression (vd_source d) c1) as [o1 d1].
  destruct (compileBillingExpression (vd_source d) c2) as [o2 d2]. simpl in *. subst o1 o2.
  destruct (compile_fresh (vd_source d)) as [comp|]; [|done].
  set (s := _ ++ _).
  pose proof (compile_cached_result s d1 K1) as R1. pose proof (compile_cached_result s d2 K2) as R2.
  destruct (compileBillingExpression s d1), (compileBillingExpression s d2). simpl in *. subst.
  by destruct (compile_fresh s).
Qed.

(** C13. The visual editor is lossless: opening an expression in it and saving the
    unchanged document gives the expression back, character by character, when the
    numbers of the expression are read back from their printed form. *)
Theorem visual_roundtrip source c c' d :
  cache_ok c ->
  (forall comp, compile_try source = Ok comp -> literals_print (c_ast comp)) ->
  parseVisualBillingDocument source c = (Ok (Some d), c') ->
  exists c'', serializeVisualBillingDocument d c' = (Ok (Serialized source), c'').
Proof.
  intros Hc Hl H. unfold parseVisualBillingDocument in H.
  pose proof (compile_cached_result source c Hc) as H1.
  pose proof (compile_cached_ok source c Hc) as H2.
  destruct (compileBillingExpression source c) as [o c1]. simpl in H1, H2. subst o.
  unfold compile_fresh in H. destruct (compile_try source) as [comp|] eqn:Hcomp; [|done].
  destruct (readVisualPricing (c_ast comp)) as [[root|]|] eqn:Hr; [|done..].
  destruct (serializeVisualBillingDocument (VisualDocument source root) c1) as [[r|] c2] eqn:Es; [|done].
  destruct (serialize_back _ _ _ _ _ _ H2 Hcomp (Hl _ eq_refl) Hr Es) as [Hc2 Hs].
  destruct r as [s|]; [|done]. injection H as <- <-. pose proof (Hs s eq_refl) as ->.
  pose proof (serialize_cached (VisualDocument source root) c1 c2 H2 Hc2) as E.
  rewrite Es in E. simpl in E.
  destruct (serializeVisualBillingDocument (VisualDocument source root) c2) as [r c3].
  simpl in E. subst r. by exists c3.
Qed.
End Lossless.

Definition visual_source : jsstr :=
  js " ( p <= 200 && hour('UTC') >= 8 )  ? tier('a', p * 1.50 + c * 2.0 ) : tier('b', fixed( 0.250 ))".

(** The test for [literals_print]. *)
Definition literal_printsb (m : node) : bool :=
  match m with
  | NLiteral _ _ (LNumber v) _ =>
      match parseNonNegativeNumber (num_to_string v) with
      | Some x => num_eqb x v
      | None => true
      end
  | _ => true
  end.

Lemma literals_printb n : forallb literal_printsb (subnodes n) = true -> literals_print n.
Proof.
  rewrite forallb_forall. intros E. apply Forall_elem. intros m Hm.
  apply list_elem_of_In in Hm. apply E in Hm. clear E.
  destruct m as [? ? [|v| |] ?| | | | | |]; try done. simpl in Hm |- *. unfold prints_back.
  by destruct (parseNonNegativeNumber (num_to_string v)).
Qed.

Lemma visual_source_prints comp :
  compile_try visual_source = Ok comp -> literals_print (c_ast comp).
Proof.
  intros H. apply literals_printb.
  assert (E : match compile_try visual_source with
              | Ok comp => forallb literal_printsb (subnodes (c_ast comp))
              | Err _ => true
              end = true) by (vm_compute; reflexivity).
  rewrite H in E. exact E.
Qed.

Lemma visual_roundtrip_witness :
  exists d c' c'',
    @parseVisualBillingDocument plain_platform visual_source [] = (Ok (Some d), c') /\
    @serializeVisualBillingDocument plain_platform d c' = (Ok (Serialized visual_source), c'').
Proof.
  destruct (@parseVisualBillingDocument plain_platform visual_source []) as [r c'] eqn:E.
  assert (Hr : match r with Ok (Some _) => True | _ => False end).
  { change r with (r, c').1. rewrite <- E. vm_compute. exact I. }
  destruct r as [[d|]|]; [|destruct Hr..].
  destruct (@visual_roundtrip plain_platform visual_source [] c' d cache_ok_empty
    visual_source_prints E) as [c'' H].
  exists d, c', c''. split; [reflexivity|exact H].
Defined.
