(* ===== verification/Structure.v ===== *)
(** [billing-expression/structure.ts]: splitting an expression at a top-level
    operator and removing the parentheses around it, on the text itself. *)
From Stdlib Require Import ZArith Lia Bool String.
From stdpp Require Import base list option.
From S2P Require Import Prelude JsString.

#[local] Open Scope Z_scope.

(** * Operations *)

Definition opens (c : Z) : bool := (c =? 40) || (c =? 91) || (c =? 123).
Definition closes (c : Z) : bool := (c =? 41) || (c =? 93) || (c =? 125).
Definition is_quote (c : Z) : bool := (c =? QUOTE) || (c =? APOS).
Definition QUESTION : Z := 63.
Definition LPAREN : Z := 40.
Definition RPAREN : Z := 41.

(** [depth] after a character outside of quotes. *)
Definition bracket_depth (c : Z) (depth : Z) : Z :=
  if opens c then depth + 1 else if closes c then depth - 1 else depth.
Definition paren_depth (c : Z) (depth : Z) : Z :=
  if c =? LPAREN then depth + 1 else if c =? RPAREN then depth - 1 else depth.

Section Split.
Context (source operator : jsstr).

(** The loop of [splitExpressionAtTopLevel]; [None] when the fuel runs out, which an
    empty operator causes in the code as well (the index does not move). *)
Fixpoint split_loop (fuel i start : nat) (depth : Z) (quote : option Z) (parts : list jsstr)
  : option (list jsstr) :=
  match fuel with
  | O => None
  | S f =>
      match source !! i with
      | None => Some (List.filter truthy (parts ++ [trim (slice source start (length source))]))
      | Some c =>
          match quote with
          | Some q =>
              if c =? BACKSLASH then split_loop f (i + 2) start depth quote parts
              else if c =? q then split_loop f (i + 1) start depth None parts
              else split_loop f (i + 1) start depth quote parts
          | None =>
              if is_quote c then split_loop f (i + 1) start depth (Some c) parts
              else
                let depth := bracket_depth c depth in
                if negb (depth =? 0) then split_loop f (i + 1) start depth None parts
                else if c =? QUESTION then Some [trim source]
                else if starts_with operator (drop i source) then
                  split_loop f (i + length operator) (i + length operator) depth None
                    (parts ++ [trim (slice source start i)])
                else split_loop f (i + 1) start depth None parts
          end
      end
  end.

Definition splitExpressionAtTopLevel : option (list jsstr) :=
  split_loop (S (length source)) 0 0 0 None [].

End Split.

(** The inner loop of [unwrapExpressionParens]: [closesAtEnd]. *)
Fixpoint closes_at_end (fuel : nat) (expression : jsstr) (i : nat) (depth : Z) (quote : option Z)
  : bool :=
  match fuel with
  | O => false
  | S f =>
      match expression !! i with
      | None => false
      | Some c =>
          match quote with
          | Some q =>
              if c =? BACKSLASH then closes_at_end f expression (i + 2) depth quote
              else if c =? q then closes_at_end f expression (i + 1) depth None
              else closes_at_end f expression (i + 1) depth quote
          | None =>
              if is_quote c then closes_at_end f expression (i + 1) depth (Some c)
              else
                let depth := paren_depth c depth in
                if depth =? 0 then (i =? length expression - 1)%nat
                else closes_at_end f expression (i + 1) depth None
          end
      end
  end.

(** [expression.startsWith('(') && expression.endsWith(')')] and the pair of them
    encloses the whole. *)
Definition wrapped (expression : jsstr) : bool :=
  starts_with [LPAREN] expression && starts_with [RPAREN] (rev expression)
  && closes_at_end (S (length expression)) expression 0 0 None.

Fixpoint unwrap_loop (fuel : nat) (expression : jsstr) : option jsstr :=
  match fuel with
  | O => None
  | S f =>
      if wrapped expression
      then unwrap_loop f (trim (slice expression 1 (length expression - 1)))
      else Some expression
  end.

Definition unwrapExpressionParens (source : jsstr) : option jsstr :=
  unwrap_loop (S (length source)) (trim source).

Example split_ex :
  splitExpressionAtTopLevel (js "a * (b * c) * tier('x*y', p)") (js "*")
  = Some [js "a"; js "(b * c)"; js "tier('x*y', p)"].
Proof. reflexivity. Qed.
Example split_ex2 : splitExpressionAtTopLevel (js "a * b ? c : d") (js "*") = Some [js "a * b ? c : d"].
Proof. reflexivity. Qed.
Example unwrap_ex : unwrapExpressionParens (js " ((a) * (b)) ") = Some (js "(a) * (b)").
Proof. reflexivity. Qed.

(** * Facts on strings *)

Lemma trim_start_split s : exists a, s = a ++ trim_start s /\ Forall (fun c => is_space c = true) a.
Proof.
  induction s as [|c s (a & E & Ha)]; simpl; [by exists []|].
  destruct (is_space c) eqn:Ec; [|by exists []].
  exists (c :: a). split; [simpl; congruence|by constructor].
Qed.

(** Trimming removes white space on both sides. *)
Lemma trim_split s : exists a b, s = a ++ trim s ++ b /\
  Forall (fun c => is_space c = true) a /\ Forall (fun c => is_space c = true) b.
Proof.
  destruct (trim_start_split s) as (a & Ea & Ha).
  destruct (trim_start_split (rev (trim_start s))) as (b & Eb & Hb).
  exists a, (rev b). split; [|split; [done|by apply List.Forall_rev]].
  rewrite Ea at 1. f_equal. unfold trim.
  apply (f_equal (@rev Z)) in Eb. rewrite rev_involutive, rev_app_distr in Eb. done.
Qed.

Lemma trim_start_fixed s : match s with c :: _ => is_space c = false | [] => True end ->
  trim_start s = s.
Proof. destruct s as [|c s]; simpl; [done|]. by intros ->. Qed.

Lemma trim_start_head s : match trim_start s with c :: _ => is_space c = false | [] => True end.
Proof. induction s as [|c s IH]; simpl; [done|]. by destruct (is_space c) eqn:E. Qed.

Lemma trim_start_trim s : trim_start (trim s) = trim s.
Proof.
  apply trim_start_fixed.
  destruct (trim_start_split (rev (trim_start s))) as (b & Eb & _).
  apply (f_equal (@rev Z)) in Eb. rewrite rev_involutive, rev_app_distr in Eb.
  pose proof (trim_start_head s) as Hh. rewrite Eb in Hh. unfold trim.
  by destruct (rev (trim_start (rev (trim_start s)))).
Qed.

Lemma trim_start_spaces a s : Forall (fun c => is_space c = true) a -> trim_start (a ++ s) = trim_start s.
Proof. induction 1 as [|c a Hc _ IH]; simpl; [done|]. by rewrite Hc. Qed.

(** White space around a trimmed text is removed. *)
Lemma trim_around a p b :
  Forall (fun c => is_space c = true) a -> Forall (fun c => is_space c = true) b ->
  trim p = p -> truthy p = true -> trim (a ++ p ++ b) = p.
Proof.
  intros Ha Hb Hp Ht. unfold trim. rewrite trim_start_spaces by done.
  assert (Hs : trim_start p = p) by (rewrite <- Hp; apply trim_start_trim).
  assert (E : trim_start (p ++ b) = p ++ b).
  { apply trim_start_fixed. pose proof (trim_start_head p) as Hh. rewrite Hs in Hh. by destruct p. }
  rewrite E, rev_app_distr, trim_start_spaces by (by apply List.Forall_rev).
  unfold trim in Hp. by rewrite Hs in Hp.
Qed.

Lemma trim_idem s : trim (trim s) = trim s.
Proof.
  unfold trim at 1. rewrite trim_start_trim. unfold trim at 1 2. by rewrite rev_involutive, trim_start_idem.
Qed.

Lemma trim_length s : (length (trim s) <= length s)%nat.
Proof.
  destruct (trim_split s) as (a & b & E & _). rewrite E at 2. rewrite !length_app. lia.
Qed.

Lemma slice_snoc (s : jsstr) i j c :
  (i <= j)%nat -> s !! j = Some c -> slice s i (j + 1) = slice s i j ++ [c].
Proof.
  intros Hij Hc. rewrite <- (slice_app s i j (j + 1)) by lia. f_equal.
  unfold slice. replace (j + 1 - j)%nat with 1%nat by lia.
  by rewrite (drop_S s c j Hc).
Qed.

Lemma slice_past (s : jsstr) i j : (length s <= j)%nat -> slice s i j = drop i s.
Proof. intros. unfold slice. apply take_ge. rewrite length_drop. lia. Qed.

(** [join] with the last piece set apart. *)
Lemma join_snoc sep l x : join sep (l ++ [x]) = concat (map (fun p => p ++ sep) l) ++ x.
Proof.
  induction l as [|y l IH]; simpl; [done|].
  destruct (l ++ [x]) as [|z l'] eqn:E; [by destruct l|].
  rewrite IH. by rewrite <- !app_assoc.
Qed.

(** * Splitting *)

Section SplitFacts.
Context (op : jsstr).

(** Scan of [s], followed by [t], from a depth, an open quote and a pending escape:
    the state at the end, or [None] when [?] or the operator is met at top level. *)
Fixpoint scan (s t : jsstr) (d : Z) (q : option Z) (esc : bool) : option (Z * option Z * bool) :=
  match s with
  | [] => Some (d, q, esc)
  | c :: s' =>
      if esc then scan s' t d q false
      else match q with
           | Some k => scan s' t d (if (c =? BACKSLASH) || negb (c =? k) then q else None)
                         (c =? BACKSLASH)
           | None =>
               if is_quote c then scan s' t d (Some c) false
               else let d := bracket_depth c d in
                    if negb (d =? 0) then scan s' t d None false
                    else if (c =? QUESTION) || starts_with op (c :: s' ++ t) then None
                    else scan s' t d None false
           end
  end.

Definition atomic (s : jsstr) : bool := match scan s [] 0 None false with Some _ => true | None => false end.

Lemma scan_app a b t d q esc :
  scan (a ++ b) t d q esc =
  match scan a (b ++ t) d q esc with Some (d', q', e') => scan b t d' q' e' | None => None end.
Proof.
  revert d q esc. induction a as [|c a IH]; intros d q esc; simpl; [done|].
  rewrite !IH, <- app_assoc. destruct esc; [done|]. destruct q as [k|]; [done|].
  destruct (is_quote c); [done|]. destruct (negb _); [done|]. by destruct (_ || _).
Qed.

Lemma scan_lookahead s t t' d q esc st :
  scan s (t ++ t') d q esc = Some st -> scan s t d q esc = Some st.
Proof.
  revert d q esc. induction s as [|c s IH]; intros d q esc; simpl; [done|].
  destruct esc; [apply IH|]. destruct q as [k|]; [apply IH|].
  destruct (is_quote c); [apply IH|]. destruct (negb _); [apply IH|].
  destruct (c =? QUESTION); simpl; [done|].
  destruct (starts_with op (c :: s ++ t)) eqn:E.
  - apply (starts_with_app _ _ t') in E. simpl in E. rewrite <- app_assoc in E. simpl. by rewrite E.
  - destruct (starts_with op (c :: s ++ t ++ t')); [done|apply IH].
Qed.

Lemma space_neutral c : is_space c = true -> is_quote c = false /\ bracket_depth c 0 = 0.
Proof.
  unfold is_space, is_quote, bracket_depth, opens, closes, QUOTE, APOS. intros H.
  repeat (apply orb_true_iff in H as [H|H]); bools; subst; try done;
  (assert (Hc : c <> 34 /\ c <> 39 /\ c <> 40 /\ c <> 41 /\ c <> 91 /\ c <> 93 /\ c <> 123 /\ c <> 125)
     by lia);
  destruct Hc as (? & ? & ? & ? & ? & ? & ? & ?);
  rewrite !(proj2 (Z.eqb_neq _ _)) by done; done.
Qed.

Lemma scan_spaces a s t st :
  Forall (fun c => is_space c = true) a ->
  scan (a ++ s) t 0 None false = Some st -> scan s t 0 None false = Some st.
Proof.
  induction 1 as [|c a Hc _ IH]; simpl; [done|]. intros H. apply IH. revert H.
  destruct (space_neutral c Hc) as [-> ->]. simpl. by destruct (_ || _).
Qed.

(** Trimming keeps a text free of the operator at top level. *)
Lemma atomic_trim s t st : scan s t 0 None false = Some st -> atomic (trim s) = true.
Proof.
  intros H. destruct (trim_split s) as (a & b & E & Ha & _). rewrite E in H.
  apply scan_spaces in H; [|done]. rewrite scan_app in H. unfold atomic.
  destruct (scan (trim s) (b ++ t) 0 None false) as [x|] eqn:Ex; [|done].
  by rewrite (scan_lookahead _ [] _ _ _ _ _ Ex).
Qed.

Definition clean (s : jsstr) : Prop := exists t st, scan s t 0 None false = Some st.

(** A text with a character that is not white space is not trimmed to nothing. *)
Lemma trim_nonempty s i c : s !! i = Some c -> is_space c = false -> truthy (trim s) = true.
Proof.
  intros Hc Hs. destruct (trim_split s) as (a & b & E & Ha & Hb).
  destruct (trim s) as [|x l] eqn:Et; [|done]. exfalso.
  assert (Hall : Forall (fun c => is_space c = true) s) by (rewrite E; by apply Forall_app).
  rewrite Forall_elem in Hall. apply list_elem_of_lookup_2, Hall in Hc. congruence.
Qed.

Lemma scan_next source start i d q c :
  (start <= i)%nat -> source !! i = Some c ->
  scan (slice source start i) (drop i source) 0 None false = Some (d, q, false) ->
  scan (slice source start (i + 1)) (drop (i + 1) source) 0 None false
  = scan [c] (drop (i + 1) source) d q false.
Proof.
  intros Hi Hc H. rewrite (slice_snoc source start i c) by done. rewrite scan_app. simpl app.
  rewrite (drop_S source c i Hc) in H. replace (i + 1)%nat with (S i) by lia. by rewrite H.
Qed.

Lemma scan_escape source start i d q c :
  (start <= i)%nat -> source !! i = Some c ->
  scan (slice source start (i + 1)) (drop (i + 1) source) 0 None false = Some (d, q, true) ->
  exists esc, scan (slice source start (i + 2)) (drop (i + 2) source) 0 None false = Some (d, q, esc) /\
    (esc = false \/ (length source <= i + 2)%nat).
Proof.
  intros Hi Hc H. destruct (source !! (i + 1)%nat) as [c'|] eqn:Ec'.
  - exists false. split; [|by left]. replace (i + 2)%nat with (i + 1 + 1)%nat by lia.
    rewrite (slice_snoc source start (i + 1) c') by (done || lia). rewrite scan_app. simpl app.
    rewrite (drop_S source c' (i + 1) Ec') in H.
    replace (i + 1 + 1)%nat with (S (i + 1)) by lia. by rewrite H.
  - apply lookup_ge_None in Ec'. exists true. split; [|right; lia].
    rewrite slice_past in H by lia. rewrite slice_past by lia.
    rewrite (drop_ge source (i + 1)) in H by lia. by rewrite (drop_ge source (i + 2)) by lia.
Qed.

(** The state of the loop: the pieces cut off so far and the scan of the current one. *)
Definition split_inv (source : jsstr) (i start : nat) (d : Z) (q : option Z) (parts : list jsstr)
  : Prop :=
  exists raws esc,
    (start <= i)%nat /\ parts = map trim raws /\
    source = concat (map (fun p => p ++ op) raws) ++ drop start source /\ Forall clean raws /\
    scan (slice source start i) (drop i source) 0 None false = Some (d, q, esc) /\
    (esc = false \/ (length source <= i)%nat).

Definition split_post (source : jsstr) (out : list jsstr) : Prop :=
  exists raws, source = join op raws /\ out = List.filter truthy (map trim raws) /\
    (out = [trim source] \/ Forall clean raws).

Lemma split_inv_step source i start d q parts c d' q' :
  split_inv source i start d q parts -> source !! i = Some c ->
  (forall t, (t = drop (i + 1) source) -> scan [c] t d q false = Some (d', q', false)) ->
  split_inv source (i + 1) start d' q' parts.
Proof.
  intros (raws & esc & Hi & Hp & Hs & Hr & Hscan & He) Hc Hstep.
  assert (i < length source)%nat by (by eapply lookup_lt_Some).
  destruct He as [->|?]; [|lia]. exists raws, false.
  rewrite (scan_next _ _ _ _ _ _ Hi Hc Hscan), Hstep by done. repeat split; auto; lia.
Qed.

Lemma split_inv_escape source i start d k parts :
  split_inv source i start d (Some k) parts -> source !! i = Some BACKSLASH ->
  split_inv source (i + 2) start d (Some k) parts.
Proof.
  intros (raws & esc & Hi & Hp & Hs & Hr & Hscan & He) Hc.
  assert (i < length source)%nat by (by eapply lookup_lt_Some).
  destruct He as [->|?]; [|lia].
  destruct (scan_escape source start i d (Some k) BACKSLASH) as (e & Ee & He); [done|done| |].
  { by rewrite (scan_next _ _ _ _ _ _ Hi Hc Hscan). }
  exists raws, e. repeat split; auto; lia.
Qed.

Lemma split_inv_cut source i start d q parts :
  split_inv source i start d q parts -> starts_with op (drop i source) = true ->
  (i < length source)%nat ->
  split_inv source (i + length op) (i + length op) 0 None (parts ++ [trim (slice source start i)]).
Proof.
  intros (raws & esc & Hi & Hp & Hs & Hr & Hscan & He) Hop Hlt.
  apply starts_with_spec in Hop as [r Hop].
  exists (raws ++ [slice source start i]), false. split; [lia|]. split.
  { rewrite map_app, Hp. done. }
  assert (Hd : drop (i + length op) source = r).
  { rewrite <- drop_drop, Hop. by rewrite drop_app_length. }
  split; [|split; [|split; [|by left]]].
  - rewrite map_app, concat_app, Hd. simpl. rewrite app_nil_r, <- !app_assoc.
    rewrite Hs at 1. f_equal. rewrite <- Hop. unfold slice.
    rewrite <- (take_drop (i - start) (drop start source)) at 1. f_equal.
    rewrite drop_drop. f_equal. lia.
  - apply Forall_app. split; [done|]. constructor; [|constructor]. by repeat eexists.
  - unfold slice. rewrite Nat.sub_diag. done.
Qed.

Lemma split_inv_end source i start d q parts :
  split_inv source i start d q parts -> (length source <= i)%nat ->
  split_post source
    (List.filter truthy (parts ++ [trim (slice source start (length source))])).
Proof.
  intros (raws & esc & Hi & Hp & Hs & Hr & Hscan & He) Hlt.
  exists (raws ++ [slice source start (length source)]).
  rewrite slice_past in Hscan |- * by lia. repeat split.
  - by rewrite join_snoc.
  - by rewrite map_app, Hp.
  - right. apply Forall_app. split; [done|]. constructor; [|constructor]. by repeat eexists.
Qed.

Lemma split_loop_post source f : op <> [] -> forall i start d q parts,
  split_inv source i start d q parts -> (0 < f)%nat -> (length source < f + i)%nat ->
  exists out, split_loop source op f i start d q parts = Some out /\ split_post source out.
Proof.
  intros Hop. induction f as [|f IH]; intros i start d q parts Hinv H0 Hf; [lia|]. simpl.
  destruct (source !! i) as [c|] eqn:Hc;
    [|apply lookup_ge_None in Hc; eexists; split; [done|by eapply split_inv_end]].
  assert (Hlt : (i < length source)%nat) by (by eapply lookup_lt_Some).
  assert (Hstep : forall d' q', (forall t, t = drop (i + 1) source ->
            scan [c] t d q false = Some (d', q', false)) ->
          exists out, split_loop source op f (i + 1) start d' q' parts = Some out /\
            split_post source out).
  { intros d' q' H. apply IH; [by eapply split_inv_step|lia|lia]. }
  destruct q as [k|].
  - destruct (c =? BACKSLASH) eqn:Eb.
    + bools; subst. apply IH; [by apply split_inv_escape|lia|lia].
    + destruct (c =? k) eqn:Ek; apply Hstep; intros t ->; simpl; by rewrite Eb, Ek.
  - destruct (is_quote c) eqn:Eq; [apply Hstep; intros t ->; simpl; by rewrite Eq|].
    destruct (negb (bracket_depth c d =? 0)) eqn:Ed;
      [apply Hstep; intros t ->; simpl; by rewrite Eq, Ed|].
    destruct (c =? QUESTION) eqn:Em.
    { bools; subst c. eexists. split; [done|]. exists [source]. repeat split; [|by left].
      simpl. by rewrite (trim_nonempty source i QUESTION Hc eq_refl). }
    assert (Hd : bracket_depth c d = 0) by (bools; done).
    destruct (starts_with op (drop i source)) eqn:Eo.
    + rewrite Hd. apply IH; [by eapply split_inv_cut|lia|]. destruct op; [done|simpl in *; lia].
    + apply Hstep. intros t ->. simpl. rewrite Eq, Ed, Em.
      replace (i + 1)%nat with (S i) by lia. rewrite <- (drop_S source c i Hc), Eo. done.
Qed.

(** A text without the operator at top level is one piece. *)
Lemma split_atomic source : op <> [] -> atomic source = true ->
  splitExpressionAtTopLevel source op = Some (List.filter truthy [trim source]).
Proof.
  unfold atomic, splitExpressionAtTopLevel. intros Hop H.
  assert (G : forall f i d q, (0 < f)%nat -> (length source < f + i)%nat ->
    match scan (drop i source) [] d q false with Some _ => true | None => false end = true ->
    split_loop source op f i 0 d q [] = Some (List.filter truthy [trim source])).
  { induction f as [|f IH]; intros i d q H0 Hf Hs; [lia|]. cbn [split_loop].
    destruct (source !! i) as [c|] eqn:Hc; [|by rewrite slice_full].
    assert (Hlt : (i < length source)%nat) by (by eapply lookup_lt_Some).
    rewrite (drop_S source c i Hc) in Hs |- *. replace (S i) with (i + 1)%nat in * by lia.
    simpl in Hs. rewrite app_nil_r in Hs. destruct q as [k|].
    - destruct (c =? BACKSLASH) eqn:Eb; [|destruct (c =? k); apply IH; try lia; exact Hs].
      apply IH; [lia|lia|]. replace (i + 2)%nat with (i + 1 + 1)%nat by lia. rewrite <- drop_drop.
      destruct (drop (i + 1) source) as [|x r]; [done|exact Hs].
    - destruct (is_quote c); [apply IH; try lia; exact Hs|].
      destruct (negb _); [apply IH; try lia; exact Hs|].
      destruct (c =? QUESTION); [done|]. cbn [orb] in Hs.
      destruct (starts_with _ _); [done|]. apply IH; try lia; exact Hs. }
  apply G; [lia|lia|]. by rewrite drop_0.
Qed.

(** ** Splitting a joined text *)

(** The loop ends with [out], for some fuel; the fuel does not matter. *)
Definition splits (source : jsstr) (i start : nat) (d : Z) (q : option Z) (parts out : list jsstr) : Prop :=
  exists f, split_loop source op f i start d q parts = Some out.

Lemma split_loop_mono source f : forall f' i start d q parts out,
  split_loop source op f i start d q parts = Some out -> (f <= f')%nat ->
  split_loop source op f' i start d q parts = Some out.
Proof.
  induction f as [|f IH]; intros f' i start d q parts out H Hf; [done|].
  destruct f' as [|f']; [lia|]. assert (Hf' : (f <= f')%nat) by lia. cbn [split_loop] in *.
  destruct (source !! i) as [c|]; [|done]. destruct q as [k|].
  - destruct (c =? BACKSLASH); [by apply IH|]. destruct (c =? k); by apply IH.
  - destruct (is_quote c); [by apply IH|]. destruct (negb _); [by apply IH|].
    destruct (c =? QUESTION); [done|]. destruct (starts_with _ _); by apply IH.
Qed.

Lemma splits_result source out :
  op <> [] -> splits source 0 0 0 None [] out -> splitExpressionAtTopLevel source op = Some out.
Proof.
  intros Hop [f Hf]. destruct (split_loop_post source (S (length source)) Hop 0 0 0 None [])
    as (out' & E & _); [|lia|lia|].
  { exists [], false. repeat split; [lia|constructor|by left]. }
  unfold splitExpressionAtTopLevel. rewrite E. f_equal.
  apply (split_loop_mono _ _ (Nat.max f (S (length source)))) in Hf; [|lia].
  apply (split_loop_mono _ _ (Nat.max f (S (length source)))) in E; [|lia]. congruence.
Qed.

Lemma drop_head (source : jsstr) i c r : drop i source = c :: r ->
  source !! i = Some c /\ drop (i + 1) source = r.
Proof.
  intros H. split.
  - replace i with (i + 0)%nat by lia. rewrite <- lookup_drop, H. done.
  - rewrite <- drop_drop, H. done.
Qed.

(** A stretch without a cut. *)
Lemma splits_scan source p : forall rest i start d q parts out d' q',
  drop i source = p ++ rest -> scan p rest d q false = Some (d', q', false) ->
  splits source (i + length p) start d' q' parts out -> splits source i start d q parts out.
Proof.
  induction p as [p IH] using list_length_ind. intros rest i start d q parts out d' q' Hd Hs Hout.
  destruct p as [|c p].
  { simpl in Hs, Hout. injection Hs as <- <-. by rewrite Nat.add_0_r in Hout. }
  simpl in Hd. destruct (drop_head _ _ _ _ Hd) as [Hc Hd'].
  assert (Hnext : forall d1 q1, scan p rest d1 q1 false = Some (d', q', false) ->
            splits source (i + 1) start d1 q1 parts out).
  { intros d1 q1 H1. eapply (IH p); [simpl; lia|exact Hd'|exact H1|].
    replace (i + 1 + length p)%nat with (i + length (c :: p))%nat by (simpl; lia). done. }
  cbn [scan] in Hs. destruct q as [k|].
  - destruct (c =? BACKSLASH) eqn:Eb.
    + destruct p as [|x p]; [simpl in Hs; congruence|]. cbn [orb] in Hs.
      destruct (drop_head _ _ _ _ Hd') as [_ Hd''].
      assert (H2 : splits source (i + 2) start d (Some k) parts out).
      { eapply (IH p); [simpl; lia| |exact Hs|].
        - replace (i + 2)%nat with (i + 1 + 1)%nat by lia. exact Hd''.
        - replace (i + 2 + length p)%nat with (i + length (c :: x :: p))%nat by (simpl; lia). done. }
      destruct H2 as [f Hf]. exists (S f). cbn [split_loop]. by rewrite Hc, Eb.
    + destruct (Hnext _ _ Hs) as [f Hf]. exists (S f). cbn [split_loop]. rewrite Hc, Eb.
      by destruct (c =? k).
  - destruct (is_quote c) eqn:Eq.
    { destruct (Hnext _ _ Hs) as [f Hf]. exists (S f). cbn [split_loop]. by rewrite Hc, Eq. }
    destruct (negb _) eqn:En.
    { destruct (Hnext _ _ Hs) as [f Hf]. exists (S f). cbn [split_loop]. by rewrite Hc, Eq, En. }
    destruct (c =? QUESTION) eqn:Em; [done|]. cbn [orb] in Hs.
    destruct (starts_with op (c :: p ++ rest)) eqn:Es; [done|].
    destruct (Hnext _ _ Hs) as [f Hf]. exists (S f). cbn [split_loop].
    by rewrite Hc, Eq, En, Em, Hd, Es.
Qed.

(** The first character of an operator: it starts no quote, bracket or condition. *)
Definition operator_head : bool :=
  match op with
  | o :: _ => negb (is_quote o) && negb (opens o) && negb (closes o) && negb (o =? QUESTION)
              && negb (is_space o)
  | [] => false
  end.

Lemma splits_cut source i start parts out rest :
  operator_head = true -> drop i source = op ++ rest ->
  splits source (i + length op) (i + length op) 0 None (parts ++ [trim (slice source start i)]) out ->
  splits source i start 0 None parts out.
Proof.
  intros Ho Hd [f Hf]. exists (S f). cbn [split_loop]. revert Ho. unfold operator_head.
  destruct op as [|o op'] eqn:Eop; [done|]. rewrite <- Eop in *. intros Ho. bools.
  rewrite Eop in Hd. destruct (drop_head _ _ _ _ Hd) as [Hc _]. rewrite Hc, H.
  unfold bracket_depth. rewrite H3, H2. cbn [negb Z.eqb].
  rewrite (proj2 (Z.eqb_neq _ _) H1), Hd, <- app_comm_cons.
  assert (Hs : starts_with op (o :: op' ++ rest) = true) by (rewrite starts_with_spec; exists rest; by rewrite Eop).
  by rewrite Hs.
Qed.

(** A piece that the scan passes over at depth [d], whatever follows. *)
Definition neutral (d : Z) (s : jsstr) : Prop :=
  forall t, scan s t d None false = Some (d, None, false).

Lemma neutral_app d a b : neutral d a -> neutral d b -> neutral d (a ++ b).
Proof. intros Ha Hb t. rewrite scan_app, Ha. apply Hb. Qed.

Lemma neutral_nil d : neutral d [].
Proof. done. Qed.

(** A character that changes nothing at depth [d]. *)
Definition calm (d : Z) (c : Z) : bool :=
  negb (is_quote c) && negb (opens c) && negb (closes c)
  && (negb (d =? 0) || (negb (c =? QUESTION) && match op with o :: _ => negb (o =? c) | [] => false end)).

Lemma neutral_calm d s : forallb (calm d) s = true -> neutral d s.
Proof.
  induction s as [|c s IH]; intros H t; [done|]. cbn [forallb] in H. apply andb_true_iff in H as [Hc H].
  cbn [scan]. unfold calm in Hc. apply andb_true_iff in Hc as [Hc Hd]. bools.
  rewrite H0. unfold bracket_depth. rewrite H2, H1.
  destruct (d =? 0) eqn:Ed; cbn [negb orb] in *; [|by apply IH].
  apply andb_true_iff in Hd as [Hq Ho]. apply negb_true_iff in Hq. rewrite Hq. cbn [orb].
  destruct op as [|o op']; [done|]. cbn [starts_with]. apply negb_true_iff in Ho. rewrite Ho. cbn [andb].
  by apply IH.
Qed.

Lemma neutral_paren d s : operator_head = true -> 0 <= d -> neutral (d + 1) s ->
  neutral d ([LPAREN] ++ s ++ [RPAREN]).
Proof.
  intros Ho Hd Hs t. cbn [app scan]. change (is_quote LPAREN) with false.
  change (bracket_depth LPAREN d) with (d + 1). cbv iota zeta.
  rewrite (proj2 (Z.eqb_neq (d + 1) 0)) by lia. cbn [negb]. rewrite scan_app, Hs.
  cbn [scan app]. change (is_quote RPAREN) with false.
  change (bracket_depth RPAREN (d + 1)) with (d + 1 - 1). cbv iota zeta.
  replace (d + 1 - 1) with d by lia. destruct (d =? 0); cbn [negb]; [|done].
  change (RPAREN =? QUESTION) with false. cbn [orb].
  revert Ho. unfold operator_head. destruct op as [|o op']; [done|]. intros Ho. cbn [starts_with].
  destruct (o =? RPAREN) eqn:E; [|done]. bools. subst o. done.
Qed.

Lemma neutral_quoted d w : Forall (fun c => c <> QUOTE /\ c <> BACKSLASH) w ->
  neutral d ([QUOTE] ++ w ++ [QUOTE]).
Proof.
  intros Hw t. cbn [app scan]. change (is_quote QUOTE) with true. cbv iota.
  induction Hw as [|c w [Hq Hb] _ IH]; [done|]. cbn [app scan].
  rewrite (proj2 (Z.eqb_neq _ _) Hq), (proj2 (Z.eqb_neq _ _) Hb). done.
Qed.

(** A joined text is split into the pieces it was joined from. *)
Lemma splits_join source : operator_head = true -> forall ps p start lead parts,
  Forall (neutral 0) (p :: ps) -> Forall (fun p => trim p = p /\ truthy p = true) (p :: ps) ->
  lead = [] \/ lead = [32] -> drop start source = lead ++ join ([32] ++ op ++ [32]) (p :: ps) ->
  splits source start start 0 None parts (List.filter truthy (parts ++ p :: ps)).
Proof.
  intros Ho. assert (Hspace : neutral 0 [32]).
  { apply neutral_calm. revert Ho. unfold operator_head, calm. cbn [forallb].
    destruct op as [|o op']; [done|]. intros Ho. apply andb_true_iff in Ho as [_ Ho].
    destruct (o =? 32) eqn:E; [bools; by subst|done]. }
  assert (Hlead : forall lead, lead = [] \/ lead = [32] -> neutral 0 lead /\ Forall (fun c => is_space c = true) lead).
  { intros lead [-> | ->]; split; try done; repeat constructor. }
  induction ps as [|p2 ps IH]; intros p start lead parts Hn Ht Hl Hd;
    apply list.Forall_cons in Hn as [Hp Hn]; apply list.Forall_cons in Ht as [[Hpt Htr] Ht];
    destruct (Hlead lead Hl) as [Hln Hls].
  - cbn [join] in Hd.
    eapply (splits_scan source (lead ++ p) []); [by rewrite app_nil_r|by apply neutral_app|].
    exists 1%nat. cbn [split_loop].
    assert (Hlen : source !! (start + length (lead ++ p))%nat = None).
    { apply lookup_ge_None. apply (f_equal length) in Hd. rewrite length_drop in Hd. lia. }
    rewrite Hlen, slice_past, Hd by lia. do 3 f_equal.
    rewrite <- (app_nil_r p) at 1. by rewrite trim_around by (done || constructor).
  - assert (Hj : join ([32] ++ op ++ [32]) (p :: p2 :: ps) =
                 p ++ [32] ++ op ++ [32] ++ join ([32] ++ op ++ [32]) (p2 :: ps)).
    { change (join ([32] ++ op ++ [32]) (p :: p2 :: ps))
        with (p ++ ([32] ++ op ++ [32]) ++ join ([32] ++ op ++ [32]) (p2 :: ps)).
      by rewrite <- !app_assoc. }
    rewrite Hj in Hd.
    set (rest := [32] ++ join ([32] ++ op ++ [32]) (p2 :: ps)) in *.
    assert (Hd1 : drop start source = (lead ++ p ++ [32]) ++ op ++ rest) by (rewrite Hd; by rewrite <- !app_assoc).
    assert (Hd2 : drop (start + length (lead ++ p ++ [32])) source = op ++ rest)
      by (rewrite <- drop_drop, Hd1; by rewrite drop_app_length).
    assert (Hd3 : drop (start + length (lead ++ p ++ [32]) + length op) source = rest)
      by (rewrite <- drop_drop, Hd2; by rewrite drop_app_length).
    eapply (splits_scan source (lead ++ p ++ [32]) (op ++ rest)); [exact Hd1|by repeat apply neutral_app|].
    apply (splits_cut source _ start parts _ rest Ho Hd2).
    set (raw := lead ++ p ++ [32]) in *.
    assert (Hsl : slice source start (start + length raw) = raw).
    { unfold slice. rewrite Hd1. replace (start + length raw - start)%nat with (length raw) by lia.
      by rewrite take_app_length. }
    rewrite Hsl. unfold raw at 3.
    rewrite trim_around by (done || (repeat constructor)).
    replace (parts ++ p :: p2 :: ps) with ((parts ++ [p]) ++ p2 :: ps) by (by rewrite <- app_assoc).
    apply (IH p2 _ [32]); [done|done|by right|exact Hd3].
Qed.

Lemma split_join_pieces p ps : operator_head = true ->
  Forall (neutral 0) (p :: ps) -> Forall (fun p => trim p = p /\ truthy p = true) (p :: ps) ->
  splitExpressionAtTopLevel (join ([32] ++ op ++ [32]) (p :: ps)) op = Some (p :: ps).
Proof.
  intros Ho Hn Ht. apply splits_result; [by intros E; unfold operator_head in Ho; rewrite E in Ho|].
  assert (E : List.filter truthy (p :: ps) = p :: ps).
  { clear Hn. induction Ht as [|x l [_ Hx] _ IH]; simpl; [done|]. by rewrite Hx, IH. }
  rewrite <- E at 2. apply (splits_join _ Ho ps p 0 [] []); [done|done|by left|by rewrite drop_0].
Qed.

End SplitFacts.

(** Splitting at an operator loses nothing and cuts only at top level: the pieces
    around the cuts, joined by the operator, are the source; the parts are these
    pieces trimmed, without the empty ones; and unless the text is returned whole
    each part has no further cut. *)
Theorem split_top_level source op :
  op <> [] ->
  exists parts pieces, splitExpressionAtTopLevel source op = Some parts /\
    source = join op pieces /\ parts = List.filter truthy (map trim pieces) /\
    (parts = [trim source] \/
     Forall (fun part => splitExpressionAtTopLevel part op = Some [part]) parts).
Proof.
  intros Hop. destruct (split_loop_post op source (S (length source)) Hop 0 0 0 None [])
    as (out & E & pieces & Hj & Ho & Ha); [|lia|lia|].
  { exists [], false. repeat split; [lia|constructor|by left]. }
  exists out, pieces. repeat split; [done|done|done|].
  destruct Ha as [Ha|Ha]; [by left|right]. subst out. apply List.Forall_forall. intros part Hin.
  apply List.filter_In in Hin as [Hin Ht]. apply in_map_iff in Hin as (raw & <- & Hin).
  rewrite List.Forall_forall in Ha. destruct (Ha raw Hin) as (t & st & Hs).
  rewrite split_atomic; [|done|by eapply atomic_trim].
  rewrite trim_idem. simpl. by rewrite Ht.
Qed.

(** * Parentheses *)

(** Scan of the parentheses of a text; [None] when the depth falls to zero. *)
Fixpoint pscan (s : jsstr) (d : Z) (q : option Z) (esc : bool) : option (Z * option Z * bool) :=
  match s with
  | [] => Some (d, q, esc)
  | c :: s' =>
      if esc then pscan s' d q false
      else match q with
           | Some k => pscan s' d (if (c =? BACKSLASH) || negb (c =? k) then q else None)
                         (c =? BACKSLASH)
           | None =>
               if is_quote c then pscan s' d (Some c) false
               else let d := paren_depth c d in
                    if d =? 0 then None else pscan s' d None false
           end
  end.

(** The first parenthesis of the text is closed by its last character. *)
Definition enclosing (s inner : jsstr) : Prop :=
  s = LPAREN :: inner ++ [RPAREN] /\ pscan inner 1 None false = Some (1, None, false).

Lemma closes_at_end_scan f : forall e i d q,
  closes_at_end f e i d q = true ->
  exists pre c d', drop i e = pre ++ [c] /\ pscan pre d q false = Some (d', None, false) /\
    is_quote c = false /\ paren_depth c d' = 0.
Proof.
  induction f as [|f IH]; intros e i d q H; [done|]. cbn [closes_at_end] in H.
  destruct (e !! i) as [c|] eqn:Hc; [|done]. rewrite (drop_S e c i Hc).
  assert (Hlt : (i < length e)%nat) by (by eapply lookup_lt_Some).
  replace (S i) with (i + 1)%nat by lia.
  assert (Hnext : forall d' q', closes_at_end f e (i + 1) d' q' = true ->
    (forall s, pscan (c :: s) d q false = pscan s d' q' false) ->
    exists pre x d'', c :: drop (i + 1) e = pre ++ [x] /\
      pscan pre d q false = Some (d'', None, false) /\ is_quote x = false /\ paren_depth x d'' = 0).
  { intros d' q' Hn Hs. destruct (IH _ _ _ _ Hn) as (pre & x & d'' & -> & Hp & Hx).
    exists (c :: pre), x, d''. rewrite Hs. done. }
  destruct q as [k|].
  - destruct (c =? BACKSLASH) eqn:Eb.
    + destruct (IH _ _ _ _ H) as (pre & x & d'' & Ed & Hp & Hx).
      replace (i + 2)%nat with (i + 1 + 1)%nat in Ed by lia. rewrite <- drop_drop in Ed.
      destruct (drop (i + 1) e) as [|y r]; [by destruct pre|]. simpl in Ed. rewrite drop_0 in Ed.
      exists (c :: y :: pre), x, d''. simpl. rewrite Eb, Ed. done.
    + destruct (c =? k) eqn:Ek; apply (Hnext _ _ H); intros s; simpl; by rewrite Eb, Ek.
  - destruct (is_quote c) eqn:Eq; [apply (Hnext _ _ H); intros s; simpl; by rewrite Eq|].
    destruct (paren_depth c d =? 0) eqn:Ed.
    + bools. exists [], c, d. rewrite (drop_ge e (i + 1)) by lia. done.
    + apply (Hnext _ _ H). intros s. simpl. by rewrite Eq, Ed.
Qed.

Lemma wrapped_enclosing e : wrapped e = true ->
  enclosing e (slice e 1 (length e - 1)).
Proof.
  unfold wrapped. intros H. bools.
  apply starts_with_spec in H as [r ->].
  destruct (closes_at_end_scan _ _ _ _ _ H0) as (pre & c & d' & Ed & Hp & _ & Hd).
  rewrite drop_0 in Ed. simpl in Ed.
  assert (c = RPAREN) as ->.
  { change ([LPAREN] ++ r) with (LPAREN :: r) in H1. rewrite Ed, rev_app_distr in H1.
    apply starts_with_spec in H1 as [r' H1]. simpl in H1. by injection H1 as ->. }
  destruct pre as [|x pre]; [discriminate Ed|]. injection Ed as <- ->.
  assert (Hs : slice (LPAREN :: pre ++ [RPAREN]) 1 (length (LPAREN :: pre ++ [RPAREN]) - 1) = pre).
  { unfold slice. simpl. rewrite length_app, drop_0. simpl.
    replace (length pre + 1 - 0 - 1)%nat with (length pre) by lia. by rewrite take_app_length. }
  simpl app. rewrite Hs. split; [done|]. simpl in Hp.
  unfold paren_depth in Hd. simpl in Hd. replace d' with 1 in Hp by lia. done.
Qed.

(** The text [e] is [s] without white space and matching parentheses around it. *)
Inductive unwraps (e : jsstr) : jsstr -> Prop :=
| unwraps_core s : trim s = e -> unwraps e s
| unwraps_pair s inner : enclosing (trim s) inner -> unwraps e inner -> unwraps e s.

Lemma unwrap_loop_spec f : forall s, (length (trim s) < f)%nat ->
  exists e, unwrap_loop f (trim s) = Some e /\ unwraps e s /\ wrapped e = false /\ trim e = e.
Proof.
  induction f as [|f IH]; intros s Hf; [lia|]. simpl. destruct (wrapped (trim s)) eqn:Ew.
  - pose proof (wrapped_enclosing _ Ew) as He. destruct He as [Es Hp].
    destruct (IH (slice (trim s) 1 (length (trim s) - 1))) as (e & E & Hu & Hw & Ht).
    { eapply Nat.le_lt_trans; [apply trim_length|]. rewrite slice_length by lia. rewrite Es in Hf |- *.
      simpl in *. rewrite length_app in *. simpl in *. lia. }
    exists e. repeat split; auto. by eapply unwraps_pair.
  - exists (trim s). repeat split; [by apply unwraps_core|done|apply trim_idem].
Qed.

(** Removing the parentheses around an expression always ends, removes white space
    and pairs of parentheses that enclose the whole text and nothing else, and is
    idempotent. *)
Theorem unwrap_parens source :
  exists e, unwrapExpressionParens source = Some e /\ unwraps e source /\
    unwrapExpressionParens e = Some e.
Proof.
  destruct (unwrap_loop_spec (S (length source)) source) as (e & E & Hu & Hw & Ht).
  { pose proof (trim_length source). lia. }
  exists e. repeat split; [done|done|]. unfold unwrapExpressionParens. simpl. by rewrite Ht, Hw.
Qed.

Lemma split_top_level_witness :
  exists parts pieces, splitExpressionAtTopLevel (js "a * f('*') * b") (js "*") = Some parts /\
    js "a * f('*') * b" = join (js "*") pieces /\ parts = List.filter truthy (map trim pieces) /\
    (parts = [trim (js "a * f('*') * b")] \/
     Forall (fun part => splitExpressionAtTopLevel part (js "*") = Some [part]) parts).
Proof. apply split_top_level. discriminate. Defined.
