(* ===== verification/Json.v ===== *)
(** [JSON.parse] of ECMAScript on the texts the frontend gives it, and what it
    shares with [JSON.stringify] of strings ([json_string] of [JsString]).

    Objects keep their properties in the order of the text (a repeated key keeps
    its first place and takes its last value); nothing modelled depends on the
    different place that JavaScript gives to keys that are array indices. *)
From Stdlib Require Import ZArith Lia Bool String.
From stdpp Require Import base list option.
From S2P Require Import Prelude JsString JsNumber Types JsValue.

#[local] Open Scope Z_scope.

(** What [JSON.parse] throws.  [OutOfFuel] is of the model only and never arises
    ([JSON_parse_total]). *)
Inductive json_error := SyntaxError | OutOfFuel.

(** * Lexical parts *)

Definition is_json_space (c : Z) : bool := (c =? 32) || (c =? 9) || (c =? LF) || (c =? CR).
Definition json_space (s : jsstr) : jsstr := (span is_json_space s).2.

(** The character of a two-character escape. *)
Definition json_unescape (e : Z) : option Z :=
  if (e =? QUOTE) || (e =? BACKSLASH) || (e =? 47) then Some e
  else if e =? 98 then Some 8
  else if e =? 102 then Some 12
  else if e =? 110 then Some LF
  else if e =? 114 then Some CR
  else if e =? 116 then Some 9 else None.

(** The characters of a string after its opening quote, and the rest. *)
Fixpoint json_chars (s : jsstr) : option (jsstr * jsstr) :=
  let prepend x (r : option (jsstr * jsstr)) :=
    match r with Some (w, rest) => Some (x :: w, rest) | None => None end in
  match s with
  | [] => None
  | c :: s1 =>
      if c =? QUOTE then Some ([], s1)
      else if c =? BACKSLASH then
        match s1 with
        | [] => None
        | e :: s2 =>
            if e =? 117 then
              match s2 with
              | a :: b :: x :: y :: s3 =>
                  if is_hex a && is_hex b && is_hex x && is_hex y
                  then prepend (parse_hex [a; b; x; y]) (json_chars s3) else None
              | _ => None
              end
            else match json_unescape e with
                 | Some x => prepend x (json_chars s2)
                 | None => None
                 end
        end
      else if c <? 32 then None
      else prepend c (json_chars s1)
  end.

(** The end of a run of digits; [None] without any. *)
Definition json_digits (s : jsstr) : option (jsstr * jsstr) :=
  match span is_digit s with ([], _) => None | p => Some p end.

(** The text of a number and the rest. *)
Definition json_number (s : jsstr) : option (jsstr * jsstr) :=
  let '(sign, s) := match s with c :: r => if c =? 45 then ([c], r) else ([], s) | [] => ([], s) end in
  match json_digits s with
  | None => None
  | Some (ds, s) =>
      if match ds with d :: _ :: _ => d =? 48 | _ => false end then None
      else
        let fraction :=
          match s with
          | c :: r => if c =? 46 then
                        match json_digits r with Some (f, r) => Some (c :: f, r) | None => None end
                      else Some ([], s)
          | [] => Some ([], s)
          end in
        match fraction with
        | None => None
        | Some (fs, s) =>
            let exponent :=
              match s with
              | c :: r =>
                  if (c =? 101) || (c =? 69) then
                    let '(g, r) := match r with
                                   | x :: r' => if (x =? 43) || (x =? 45) then ([x], r') else ([], r)
                                   | [] => ([], r)
                                   end in
                    match json_digits r with Some (x, r) => Some (c :: g ++ x, r) | None => None end
                  else Some ([], s)
              | [] => Some ([], s)
              end in
            match exponent with
            | None => None
            | Some (es, s) => Some (sign ++ ds ++ fs ++ es, s)
            end
        end
  end.

(** A property of an object that is being read. *)
Fixpoint json_put (k : jsstr) (v : jsvalue) (l : list (jsstr * jsvalue)) : list (jsstr * jsvalue) :=
  match l with
  | [] => [(k, v)]
  | (k', v') :: l' => if str_eqb k k' then (k, v) :: l' else (k', v') :: json_put k v l'
  end.

(** * Values *)

Definition json_keyword (s : jsstr) : option (jsvalue * jsstr) :=
  if starts_with (js "true") s then Some (JBool true, drop 4 s)
  else if starts_with (js "false") s then Some (JBool false, drop 5 s)
  else if starts_with (js "null") s then Some (JNull, drop 4 s) else None.

(** A value; the elements of an array; the members of an object. *)
Fixpoint json_value (fuel : nat) (s : jsstr) {struct fuel} : result json_error (jsvalue * jsstr) :=
  match fuel with
  | O => Err OutOfFuel
  | S f =>
      match json_space s with
      | [] => Err SyntaxError
      | c :: r =>
          if c =? QUOTE then
            match json_chars r with Some (w, r) => Ok (JStr w, r) | None => Err SyntaxError end
          else if c =? 91 then
            match json_space r with
            | x :: r' => if x =? 93 then Ok (JArr [], r') else json_elements f r []
            | [] => Err SyntaxError
            end
          else if c =? 123 then
            match json_space r with
            | x :: r' => if x =? 125 then Ok (JObj [], r') else json_members f r []
            | [] => Err SyntaxError
            end
          else match json_keyword (c :: r) with
               | Some p => Ok p
               | None =>
                   match json_number (c :: r) with
                   | Some (text, r) => Ok (JNum (js_Number text), r)
                   | None => Err SyntaxError
                   end
               end
      end
  end
with json_elements (fuel : nat) (s : jsstr) (acc : list jsvalue) {struct fuel}
  : result json_error (jsvalue * jsstr) :=
  match fuel with
  | O => Err OutOfFuel
  | S f =>
      let! (v, r) := json_value f s in
      match json_space r with
      | c :: r => if c =? 44 then json_elements f r (acc ++ [v])
                  else if c =? 93 then Ok (JArr (acc ++ [v]), r) else Err SyntaxError
      | [] => Err SyntaxError
      end
  end
with json_members (fuel : nat) (s : jsstr) (acc : list (jsstr * jsvalue)) {struct fuel}
  : result json_error (jsvalue * jsstr) :=
  match fuel with
  | O => Err OutOfFuel
  | S f =>
      match json_space s with
      | c :: r =>
          if c =? QUOTE then
            match json_chars r with
            | Some (k, r) =>
                match json_space r with
                | c :: r =>
                    if c =? 58 then
                      let! (v, r) := json_value f r in
                      match json_space r with
                      | c :: r => if c =? 44 then json_members f r (json_put k v acc)
                                  else if c =? 125 then Ok (JObj (json_put k v acc), r)
                                  else Err SyntaxError
                      | [] => Err SyntaxError
                      end
                    else Err SyntaxError
                | [] => Err SyntaxError
                end
            | None => Err SyntaxError
            end
          else Err SyntaxError
      | [] => Err SyntaxError
      end
  end.

(** Two calls for each character are enough: a call of [json_elements] and one of
    [json_value] may start at the same one. *)
Definition json_fuel (s : jsstr) : nat := S (S (2 * length s)).

Definition JSON_parse (text : jsstr) : result json_error jsvalue :=
  let! (v, r) := json_value (json_fuel text) text in
  match json_space r with [] => Ok v | _ => Err SyntaxError end.

Example json_ex :
  JSON_parse (js " {'a': [1, true, 'x'], 'b': null, 'a': -2.5e1} ") = Err SyntaxError.
Proof. vm_compute. reflexivity. Qed.
Definition quotes (s : string) : jsstr := map (fun c => if c =? APOS then QUOTE else c) (js s).
Example json_ex2 :
  JSON_parse (quotes " {'a': [1, true, 'x\u0041\n'], 'b': null, 'a': -2.5e1} ")
  = Ok (JObj [(js "a", JNum (num_of_Z (-25))); (js "b", JNull)]).
Proof. vm_compute. reflexivity. Qed.

(** * Facts *)

Lemma json_space_length s : (length (json_space s) <= length s)%nat.
Proof. unfold json_space. pose proof (span_length is_json_space s). lia. Qed.

Lemma json_chars_length s : forall w r, json_chars s = Some (w, r) -> (length r < length s)%nat.
Proof.
  induction s as [s IH] using list_length_ind. intros w r H. destruct s as [|c s1]; [done|].
  cbn [json_chars] in H.
  assert (G : forall x t, (length t < length (c :: s1))%nat ->
            match json_chars t with Some (w, r) => Some (x :: w, r) | None => None end = Some (w, r) ->
            (length r < length t)%nat).
  { intros x t Ht Hx. destruct (json_chars t) as [[w' r']|] eqn:E; [|done].
    injection Hx as <- <-. by eapply IH. }
  destruct (c =? QUOTE); [injection H as <- <-; simpl; lia|].
  destruct (c =? BACKSLASH); [|destruct (c <? 32); [done|apply G in H; simpl in *; lia]].
  destruct s1 as [|e s2]; [done|]. destruct (e =? 117).
  - destruct s2 as [|a [|b [|x [|y s3]]]]; try done.
    destruct (is_hex a && _ && _ && _); [|done]. apply G in H; simpl in *; lia.
  - destruct (json_unescape e); [|done]. apply G in H; simpl in *; lia.
Qed.

Lemma json_digits_length s w r : json_digits s = Some (w, r) -> (length r < length s)%nat.
Proof.
  unfold json_digits. pose proof (span_length is_digit s) as H.
  destruct (span is_digit s) as [[|d ds] t]; [done|]. intros [= <- <-]. simpl in *. lia.
Qed.

Lemma json_number_length s w r : json_number s = Some (w, r) -> (length r < length s)%nat.
Proof.
  unfold json_number. intros H.
  destruct (match s with c :: r0 => if c =? 45 then ([c], r0) else ([], s) | [] => ([], s) end)
    as [sign s1] eqn:E1.
  assert (H1 : (length s1 <= length s)%nat).
  { destruct s as [|c s']; [by injection E1 as <- <-|].
    destruct (c =? 45); injection E1 as <- <-; simpl; lia. }
  destruct (json_digits s1) as [[ds s2]|] eqn:E2; [|done]. apply json_digits_length in E2.
  destruct (match ds with d :: _ :: _ => d =? 48 | _ => false end); [done|].
  destruct (match s2 with c :: r0 => _ | [] => _ end) as [[fs s3]|] eqn:E3; [|done].
  assert (H3 : (length s3 <= length s2)%nat).
  { destruct s2 as [|c s']; [by injection E3 as <- <-|].
    destruct (c =? 46); [|injection E3 as <- <-; lia].
    destruct (json_digits s') as [[? ?]|] eqn:E; [|done]. apply json_digits_length in E.
    injection E3 as <- <-. simpl. lia. }
  destruct (match s3 with c :: r0 => _ | [] => _ end) as [[es s4]|] eqn:E4; [|done].
  assert (H4 : (length s4 <= length s3)%nat); [|injection H as <- <-; lia].
  destruct s3 as [|c s']; [by injection E4 as <- <-|].
  destruct ((c =? 101) || (c =? 69)); [|injection E4 as <- <-; lia].
  destruct (match s' with x :: r' => _ | [] => _ end) as [g s5] eqn:E5.
  assert (H5 : (length s5 <= length s')%nat).
  { destruct s' as [|x s'']; [by injection E5 as <- <-|].
    destruct ((x =? 43) || (x =? 45)); injection E5 as <- <-; simpl; lia. }
  destruct (json_digits s5) as [[? ?]|] eqn:E; [|done]. apply json_digits_length in E.
  injection E4 as <- <-. simpl. lia.
Qed.

Lemma json_keyword_length s v r : json_keyword s = Some (v, r) -> (length r < length s)%nat.
Proof.
  unfold json_keyword. intros H.
  assert (G : forall p n, starts_with p s = true -> length p = n -> (0 < n)%nat ->
            (length (drop n s) < length s)%nat).
  { intros p n Hp <- Hn. apply starts_with_spec in Hp as [t ->].
    rewrite drop_app_length, length_app. lia. }
  destruct (starts_with (js "true") s) eqn:E1.
  { injection H as <- <-. apply (G (js "true")); [done|done|lia]. }
  destruct (starts_with (js "false") s) eqn:E2.
  { injection H as <- <-. apply (G (js "false")); [done|done|lia]. }
  destruct (starts_with (js "null") s) eqn:E3; [|done].
  injection H as <- <-. apply (G (js "null")); [done|done|lia].
Qed.

(** What follows an opening bracket. *)
Ltac json_rest s :=
  let H := fresh "Hsp" in pose proof (json_space_length s) as H;
  let c := fresh "c" in let r := fresh "r" in
  destruct (json_space s) as [|c r]; [try done|simpl in H].

(** Every call consumes characters and has enough fuel. *)
Definition json_good (n : nat) (s : jsstr) (x : result json_error (jsvalue * jsstr)) : Prop :=
  match x with
  | Ok (_, r) => (length r < length s)%nat
  | Err SyntaxError => True
  | Err OutOfFuel => False
  end.

Lemma json_good_all f :
  (forall s, (2 * length s + 1 <= f)%nat -> json_good f s (json_value f s)) /\
  (forall s acc, (2 * length s + 2 <= f)%nat -> json_good f s (json_elements f s acc)) /\
  (forall s acc, (2 * length s + 2 <= f)%nat -> json_good f s (json_members f s acc)).
Proof.
  induction f as [|f (IHv & IHe & IHm)]; [repeat split; intros; lia|].
  repeat split; intros s; [intros Hf|intros acc Hf|intros acc Hf]; cbn [json_value json_elements json_members].
  - json_rest s.
    destruct (c =? QUOTE).
    { destruct (json_chars r) as [[w r']|] eqn:E; [|done]. apply json_chars_length in E. simpl. lia. }
    destruct (c =? 91).
    { json_rest r. destruct (c0 =? 93); [simpl; lia|].
      specialize (IHe r []). destruct (json_elements f r []) as [[? ?]|[]]; simpl in *; [|done|]; lia. }
    destruct (c =? 123).
    { json_rest r. destruct (c0 =? 125); [simpl; lia|].
      specialize (IHm r []). destruct (json_members f r []) as [[? ?]|[]]; simpl in *; [|done|]; lia. }
    destruct (json_keyword (c :: r)) as [[v r']|] eqn:E.
    { apply json_keyword_length in E. simpl in *. lia. }
    destruct (json_number (c :: r)) as [[v r']|] eqn:E'; [|done].
    apply json_number_length in E'. simpl in *. lia.
  - specialize (IHv s). destruct (json_value f s) as [[v r]|[]]; simpl in *; [|done|lia].
    json_rest r. destruct (c =? 44); [|destruct (c =? 93); simpl; lia].
    specialize (IHe r0 (acc ++ [v])). destruct (json_elements f r0 _) as [[? ?]|[]]; simpl in *; [|done|]; lia.
  - json_rest s. destruct (c =? QUOTE); [|done].
    destruct (json_chars r) as [[k r1]|] eqn:E; [|done]. apply json_chars_length in E.
    json_rest r1. destruct (c0 =? 58); [|done].
    specialize (IHv r0). destruct (json_value f r0) as [[v r2]|[]]; simpl in *; [|done|lia].
    json_rest r2. destruct (c1 =? 44); [|destruct (c1 =? 125); simpl; lia].
    specialize (IHm r3 (json_put k v acc)).
    destruct (json_members f r3 _) as [[? ?]|[]]; simpl in *; [|done|]; lia.
Qed.

(** The fuel of [JSON_parse] is enough for every text. *)
Lemma JSON_parse_total text : JSON_parse text <> Err OutOfFuel.
Proof.
  unfold JSON_parse. pose proof (proj1 (json_good_all (json_fuel text)) text) as H.
  destruct (json_value (json_fuel text) text) as [[v r]|[]]; simpl in *.
  - by destruct (json_space r).
  - done.
  - intros _. apply H. unfold json_fuel. lia.
Qed.

(** ** Strings round trip *)

Definition code_unit (c : Z) : Prop := 0 <= c < 65536.

Lemma hex_digit_ok h : 0 <= h < 16 -> is_hex (hex_digit h) = true /\ hex_value (hex_digit h) = h.
Proof.
  intros H. assert (Hh : In h (map Z.of_nat (seq 0 16))).
  { apply in_map_iff. exists (Z.to_nat h). split; [lia|]. apply in_seq. lia. }
  simpl in Hh. repeat (destruct Hh as [<-|Hh]; [done|]). done.
Qed.

Lemma unicode_escape_hex c : code_unit c ->
  exists a b x y, unicode_escape c = [BACKSLASH; 117; a; b; x; y] /\
    is_hex a && is_hex b && is_hex x && is_hex y = true /\ parse_hex [a; b; x; y] = c.
Proof.
  intros Hc. unfold code_unit in Hc. unfold unicode_escape.
  assert (H1 : 0 <= c / 4096 < 16) by (split; [apply Z.div_pos; lia|apply Z.div_lt_upper_bound; lia]).
  pose proof (Z.mod_pos_bound (c / 256) 16 eq_refl).
  pose proof (Z.mod_pos_bound (c / 16) 16 eq_refl).
  pose proof (Z.mod_pos_bound c 16 eq_refl).
  eexists _, _, _, _. split; [done|].
  destruct (hex_digit_ok (c / 4096)) as [A1 A2]; [lia|].
  destruct (hex_digit_ok (c / 256 mod 16)) as [B1 B2]; [lia|].
  destruct (hex_digit_ok (c / 16 mod 16)) as [C1 C2]; [lia|].
  destruct (hex_digit_ok (c mod 16)) as [D1 D2]; [lia|].
  split; [by rewrite A1, B1, C1, D1|]. unfold parse_hex. simpl. rewrite A2, B2, C2, D2.
  assert (E1 : c / 256 = 16 * (c / 4096) + c / 256 mod 16).
  { rewrite (Z.div_mod (c / 256) 16) at 1 by lia. by rewrite Z.div_div by lia. }
  assert (E2 : c / 16 = 16 * (c / 256) + c / 16 mod 16).
  { rewrite (Z.div_mod (c / 16) 16) at 1 by lia. by rewrite Z.div_div by lia. }
  pose proof (Z.div_mod c 16). lia.
Qed.

Lemma json_escape_ok c e : json_escape c = Some e ->
  e <> 117 /\ json_unescape e = Some c.
Proof.
  unfold json_escape, json_unescape. intros H.
  repeat match type of H with
  | (if ?c =? ?k then _ else _) = _ =>
      destruct (c =? k) eqn:?; [bools; subst; injection H as <-; split; [done|reflexivity]|]
  end. done.
Qed.

(** Reading what [JSON.stringify] wrote of the characters of a string. *)
Lemma json_body_read s : Forall code_unit s -> forall rest,
  json_chars (json_body s ++ QUOTE :: rest) = Some (s, rest).
Proof.
  induction s as [s IH] using list_length_ind. intros Hs rest.
  destruct s as [|c s]; [done|]. apply list.Forall_cons in Hs as [Hc Hs]. cbn [json_body].
  assert (Hu : forall t, json_chars t = Some (s, rest) ->
            json_chars (unicode_escape c ++ t) = Some (c :: s, rest)).
  { intros t Ht. destruct (unicode_escape_hex c Hc) as (a & b & x & y & -> & Hx & Hp).
    cbn [app json_chars]. cbn [Z.eqb QUOTE BACKSLASH]. simpl Z.eqb. cbv iota. by rewrite Hx, Hp, Ht. }
  assert (Hn : json_chars (json_body s ++ QUOTE :: rest) = Some (s, rest))
    by (apply IH; [simpl; lia|done]).
  destruct (json_escape c) as [e|] eqn:Ee.
  { destruct (json_escape_ok c e Ee) as [Hne Hun]. apply Z.eqb_neq in Hne.
    cbn [app json_chars]. simpl Z.eqb. cbv iota. by rewrite Hne, Hun, Hn. }
  assert (Hp : (c =? QUOTE) = false /\ (c =? BACKSLASH) = false).
  { revert Ee. unfold json_escape. destruct (c =? QUOTE); [done|]. by destruct (c =? BACKSLASH). }
  destruct Hp as [Hq Hb].
  destruct ((c <? 32) || is_low_surrogate c) eqn:El; [rewrite <- app_assoc; auto|].
  apply orb_false_iff in El as [El _].
  assert (Hplain : forall t, json_chars t = Some (s, rest) -> json_chars (c :: t) = Some (c :: s, rest)).
  { intros t Ht. cbn [json_chars]. by rewrite Hq, Hb, El, Ht. }
  destruct (is_high_surrogate c); [|by apply Hplain].
  destruct s as [|d s]; [apply Hu; apply Hn|].
  destruct (is_low_surrogate d) eqn:Ed; [|rewrite <- app_assoc; auto].
  apply list.Forall_cons in Hs as [Hd Hs]. apply Hplain.
  cbn [app json_chars]. assert (Hdd : 56320 <= d) by (unfold is_low_surrogate in Ed; bools; lia).
  rewrite !(proj2 (Z.eqb_neq _ _)) by (unfold QUOTE, BACKSLASH; lia).
  rewrite (proj2 (Z.ltb_ge _ _)) by lia. rewrite IH; [done|simpl; lia|done].
Qed.

Lemma json_string_parse s : Forall code_unit s -> JSON_parse (json_string s) = Ok (JStr s).
Proof.
  intros Hs. unfold JSON_parse, json_string, json_fuel.
  assert (E : json_value (S (S (2 * length (QUOTE :: json_body s ++ [QUOTE]))))
                (QUOTE :: json_body s ++ [QUOTE]) = Ok (JStr s, [])).
  { cbn [json_value]. change (json_space (QUOTE :: json_body s ++ [QUOTE]))
      with (QUOTE :: json_body s ++ [QUOTE]). cbv iota. rewrite Z.eqb_refl.
    by rewrite (json_body_read s Hs []). }
  by rewrite E.
Qed.

(** [JSON.stringify] writes a string unit by unit: a plain character, a
    two-character escape or a numeric escape. *)
Definition json_unit (u : jsstr) : Prop :=
  (exists c, u = [c] /\ c <> QUOTE /\ c <> BACKSLASH /\ 32 <= c) \/
  (exists e c, u = [BACKSLASH; e] /\ json_escape c = Some e) \/
  (exists a b x y, u = [BACKSLASH; 117; a; b; x; y] /\
     is_hex a && is_hex b && is_hex x && is_hex y = true).

Lemma json_body_units s : Forall code_unit s ->
  exists l, json_body s = concat l /\ Forall json_unit l /\
    forall c, c ∈ json_body s -> (c ∈ s /\ 32 <= c) \/ (32 <= c < 128).
Proof.
  assert (Hescape : forall c e, json_escape c = Some e -> 32 <= e < 128).
  { intros c e. unfold json_escape, QUOTE, BACKSLASH, LF, CR.
    repeat case_match; intros [= <-] || intros ?; try done; lia. }
  assert (Hhex : forall h, is_hex h = true -> 32 <= h < 128).
  { intros h. unfold is_hex, is_digit. intros H. repeat (apply orb_true_iff in H as [H|H]); bools; lia. }
  induction s as [s IH] using list_length_ind. intros Hs.
  destruct s as [|c s]; [exists []; split; [done|split; [constructor|by intros c Hc%not_elem_of_nil]]|].
  apply list.Forall_cons in Hs as [Hc Hs]. cbn [json_body].
  assert (Hcons : forall u, json_unit u -> Forall (fun x => (x = c /\ 32 <= c) \/ 32 <= x < 128) u ->
    exists l, u ++ json_body s = concat l /\ Forall json_unit l /\
      forall x, x ∈ u ++ json_body s -> (x ∈ c :: s /\ 32 <= x) \/ 32 <= x < 128).
  { intros u Hu Hx. destruct (IH s) as (l & E & Hl & Hin); [simpl; lia|done|].
    exists (u :: l). split; [simpl; congruence|]. split; [by constructor|]. intros x Hx'.
    apply elem_of_app in Hx' as [Hx'|Hx'].
    - rewrite Forall_elem in Hx. destruct (Hx x Hx') as [[-> ?]|?]; [left; rewrite elem_of_cons; auto|auto].
    - destruct (Hin x Hx') as [[? ?]|?]; [left; rewrite elem_of_cons; auto|auto]. }
  assert (Hu : json_unit (unicode_escape c) /\
               Forall (fun x => (x = c /\ 32 <= c) \/ 32 <= x < 128) (unicode_escape c)).
  { destruct (unicode_escape_hex c Hc) as (a & b & x & y & -> & Hx & _). split; [right; right; eauto 10|].
    bools. unfold BACKSLASH. repeat (constructor; [right; solve [lia|auto]|]). constructor. }
  assert (Hplain : json_escape c = None -> (c <? 32) = false ->
                   json_unit [c] /\ Forall (fun x => (x = c /\ 32 <= c) \/ 32 <= x < 128) [c]).
  { intros He Hc32. split; [|constructor; [left; bools; auto|constructor]]. left. exists c. bools. split; [done|].
    revert He. unfold json_escape. destruct (c =? QUOTE) eqn:?; [done|].
    destruct (c =? BACKSLASH) eqn:?; [done|]. bools. done. }
  destruct (json_escape c) as [e|] eqn:Ee.
  { apply (Hcons [BACKSLASH; e]); [right; left; eauto|].
    unfold BACKSLASH. apply Hescape in Ee. repeat (constructor; [right; lia|]). constructor. }
  destruct ((c <? 32) || is_low_surrogate c) eqn:El; [apply Hcons; apply Hu|].
  apply orb_false_iff in El as [El _]. specialize (Hplain eq_refl El).
  destruct (is_high_surrogate c); [|apply (Hcons [c]); apply Hplain].
  destruct s as [|d s]; [rewrite <- (app_nil_r (unicode_escape c)); apply Hcons; apply Hu|].
  destruct (is_low_surrogate d) eqn:Ed; [|apply Hcons; apply Hu].
  apply list.Forall_cons in Hs as [Hd Hs]. destruct (IH s) as (l & E & Hl & Hin); [simpl; lia|done|].
  exists ([c] :: [d] :: l). split; [simpl; congruence|]. split.
  - constructor; [apply Hplain|]. constructor; [|done]. left. exists d.
    unfold is_low_surrogate in Ed. bools. unfold QUOTE, BACKSLASH. split; [done|lia].
  - unfold is_low_surrogate in Ed. bools. intros x Hx. rewrite !elem_of_cons in Hx |- *.
    destruct Hx as [->|[->|Hx]]; [left; split; [auto|lia]..|]. destruct (Hin x Hx) as [[? ?]|?]; auto.
Qed.
