(* ===== verification/JsonText.v ===== *)
(** [JSON.stringify(value)] and [JSON.stringify(value, null, 2)] of ECMAScript and their
    round trips through [JSON.parse]. *)
From Stdlib Require Import ZArith Lia Bool String.
From stdpp Require Import base list option.
From S2P Require Import Prelude JsString JsNumber Types JsValue Json.

#[local] Open Scope Z_scope.

(** * Printing *)

Definition spaces (n : nat) : jsstr := repeat 32 n.

(** The layout: with [pretty], members stand on lines of their own, indented by two. *)
Section Layout.
Variable pretty : bool.

Definition line (n : nat) : jsstr := if pretty then LF :: spaces n else [].
Definition colon : jsstr := if pretty then js ": " else js ":".

(** The parts of an array or object, each on a line of its own. *)
Definition bracketed (opening closing : Z) (gap : nat) (parts : list jsstr) : jsstr :=
  match parts with
  | [] => [opening; closing]
  | _ => opening :: line (gap + 2) ++ join (44 :: line (gap + 2)) parts ++ line gap ++ [closing]
  end.

(** The members that are not [undefined]. *)
Fixpoint member_texts (l : list (jsstr * option jsstr)) : list jsstr :=
  match l with
  | [] => []
  | (k, Some t) :: l' => (json_string k ++ colon ++ t) :: member_texts l'
  | (_, None) :: l' => member_texts l'
  end.

(** The text of a value at an indentation; [None] is [undefined]. *)
Fixpoint json_text (gap : nat) (v : jsvalue) : option jsstr :=
  match v with
  | JUndefined => None
  | JNull => Some (js "null")
  | JBool b => Some (if b then js "true" else js "false")
  | JNum n => Some (if is_finite n then num_to_string n else js "null")
  | JStr s => Some (json_string s)
  | JArr l => Some (bracketed 91 93 gap
                      (map (fun x => match json_text (gap + 2) x with Some t => t | None => js "null" end) l))
  | JObj f => Some (bracketed 123 125 gap (member_texts (map (fun e => (fst e, json_text (gap + 2) (snd e))) f)))
  end.

End Layout.

Definition JSON_stringify (v : jsvalue) : option jsstr := json_text true 0 v.
Definition JSON_stringify_plain (v : jsvalue) : option jsstr := json_text false 0 v.

Example stringify_ex :
  JSON_stringify (JObj [(js "a", JArr [JStr (js "x"); JObj []; JArr []]); (js "b", JUndefined)])
  = Some (quotes "{" ++ [LF] ++ quotes "  'a': [" ++ [LF] ++ quotes "    'x'," ++ [LF] ++ quotes "    {}," ++ [LF]
          ++ quotes "    []" ++ [LF] ++ quotes "  ]" ++ [LF] ++ quotes "}").
Proof. vm_compute. reflexivity. Qed.
Example stringify_plain_ex :
  JSON_stringify_plain (JObj [(js "a", JArr [JStr (js "x"); JObj []; JNum (num_of_Z 12)]); (js "b", JUndefined)])
  = Some (quotes "{'a':['x',{},12]}").
Proof. vm_compute. reflexivity. Qed.

(** * More fuel does not change a result *)

Definition settled {A} (x : result json_error A) : Prop := x <> Err OutOfFuel.

Lemma json_fuel_step f :
  (forall s, settled (json_value f s) -> json_value (S f) s = json_value f s) /\
  (forall s acc, settled (json_elements f s acc) -> json_elements (S f) s acc = json_elements f s acc) /\
  (forall s acc, settled (json_members f s acc) -> json_members (S f) s acc = json_members f s acc).
Proof.
  unfold settled. induction f as [|f (IHv & IHe & IHm)]; [by repeat split; intros; cbn in *|].
  repeat split; intros s; [intros Hs|intros acc Hs|intros acc Hs].
  - cbn [json_value] in Hs |- *.
    destruct (json_space s) as [|c r]; [done|]. destruct (c =? QUOTE); [done|].
    destruct (c =? 91); [destruct (json_space r) as [|x r']; [done|]; destruct (x =? 93); [done|]; by apply IHe|].
    destruct (c =? 123); [|done].
    destruct (json_space r) as [|x r']; [done|]. destruct (x =? 125); [done|]. by apply IHm.
  - cbn [json_elements] in Hs |- *.
    assert (E : json_value (S f) s = json_value f s) by (apply IHv; intros E; by rewrite E in Hs).
    rewrite E. destruct (json_value f s) as [[v r]|e]; [|done].
    destruct (json_space r) as [|c r']; [done|]. destruct (c =? 44); [by apply IHe|done].
  - cbn [json_members] in Hs |- *.
    destruct (json_space s) as [|c r]; [done|]. destruct (c =? QUOTE); [|done].
    destruct (json_chars r) as [[k r1]|]; [|done]. destruct (json_space r1) as [|c1 r2]; [done|].
    destruct (c1 =? 58); [|done].
    assert (E : json_value (S f) r2 = json_value f r2) by (apply IHv; intros E; by rewrite E in Hs).
    rewrite E. destruct (json_value f r2) as [[v r3]|e]; [|done].
    destruct (json_space r3) as [|c2 r4]; [done|]. destruct (c2 =? 44); [by apply IHm|done].
Qed.

Lemma json_fuel_more f g s : (f <= g)%nat -> settled (json_value f s) -> json_value g s = json_value f s.
Proof.
  intros H Hs. induction H as [|g H IH]; [done|]. rewrite <- IH.
  apply (proj1 (json_fuel_step g)). by rewrite IH.
Qed.

(** * Reading what was printed *)

(** A number whose text is read back; [-0] is not, nor are [NaN] and the infinities. *)
Definition number_prints (n : number) : bool :=
  is_finite n && match json_number (num_to_string n) with
                 | Some (t, []) => bool_decide (js_Number t = n)
                 | _ => false
                 end.

(** A value whose text is read back: strings of code units, unique keys, no
    [undefined], numbers that are read back. *)
Inductive printable : jsvalue -> Prop :=
| printable_null : printable JNull
| printable_bool b : printable (JBool b)
| printable_num n : number_prints n = true -> printable (JNum n)
| printable_str s : Forall code_unit s -> printable (JStr s)
| printable_arr l : Forall printable l -> printable (JArr l)
| printable_obj f :
    NoDup (map fst f) -> Forall (fun e => Forall code_unit e.1 /\ printable e.2) f -> printable (JObj f).

(** What follows does not continue a number. *)
Definition delimited (rest : jsstr) : Prop :=
  match rest with c :: _ => is_digit c = false /\ c <> 46 /\ c <> 101 /\ c <> 69 | [] => True end.

(** The text is read as the value, whatever delimits it, with enough fuel. *)
Definition reads (t : jsstr) (v : jsvalue) : Prop :=
  exists n, forall f rest, (n <= f)%nat -> delimited rest -> json_value f (t ++ rest) = Ok (v, rest).

Lemma span_extend (p : Z -> bool) a rest x y : span p a = (x, y) ->
  y <> [] \/ match rest with c :: _ => p c = false | [] => True end -> span p (a ++ rest) = (x, y ++ rest).
Proof.
  revert x y. induction a as [|c a IH]; intros x y; cbn [span app].
  - intros [= <- <-] [?|H]; [done|]. destruct rest as [|c rest]; [done|]. cbn [span]. by rewrite H.
  - destruct (p c); [|by intros [= <- <-]]. destruct (span p a) as [x' y']. intros [= <- <-] H.
    by rewrite (IH x' y').
Qed.

Lemma json_digits_extend a rest x y : json_digits a = Some (x, y) -> y <> [] \/ delimited rest ->
  json_digits (a ++ rest) = Some (x, y ++ rest).
Proof.
  unfold json_digits. destruct (span is_digit a) as [x' y'] eqn:E. destruct x' as [|d x']; [done|].
  intros [= <- <-] H. rewrite (span_extend _ _ rest _ _ E); [done|].
  destruct H as [H|H]; [by left|]. right. destruct rest; [done|]. apply H.
Qed.

(** The text of a number ends where it is delimited. *)
Lemma json_number_end a rest w : json_number a = Some (w, []) -> delimited rest ->
  json_number (a ++ rest) = Some (w, rest).
Proof.
  intros H Hr. unfold json_number in *.
  destruct a as [|c0 a]; [done|]. cbn [app].
  assert (Hsign : exists sign s, (if c0 =? 45 then ([c0], a) else ([], c0 :: a)) = (sign, s) /\
            (if c0 =? 45 then ([c0], a ++ rest) else ([], c0 :: a ++ rest)) = (sign, s ++ rest)).
  { destruct (c0 =? 45); eauto. }
  destruct Hsign as (sign & s & E1 & E2). rewrite E1 in H. rewrite E2. clear E1 E2 a c0.
  destruct (json_digits s) as [[ds s1]|] eqn:Ed; [|done].
  rewrite (json_digits_extend _ rest _ _ Ed) by (destruct s1; [by right|by left]).
  destruct (match ds with d :: _ :: _ => d =? 48 | _ => false end); [done|].
  assert (Hexp : forall s2 fs, match (match s2 with
      | c :: r => if (c =? 101) || (c =? 69) then
          let '(g, r) := match r with x :: r' => if (x =? 43) || (x =? 45) then ([x], r') else ([], r) | [] => ([], r) end in
          match json_digits r with Some (x, r) => Some (c :: g ++ x, r) | None => None end else Some ([], s2)
      | [] => Some ([], s2) end) with None => None | Some (es, s) => Some (sign ++ ds ++ fs ++ es, s) end = Some (w, []) ->
    match (match s2 ++ rest with
      | c :: r => if (c =? 101) || (c =? 69) then
          let '(g, r) := match r with x :: r' => if (x =? 43) || (x =? 45) then ([x], r') else ([], r) | [] => ([], r) end in
          match json_digits r with Some (x, r) => Some (c :: g ++ x, r) | None => None end else Some ([], s2 ++ rest)
      | [] => Some ([], s2 ++ rest) end) with None => None | Some (es, s) => Some (sign ++ ds ++ fs ++ es, s) end = Some (w, rest)).
  { intros s2 fs Hs. destruct s2 as [|c r]; cbn [app].
    - injection Hs as <-. destruct rest as [|c r]; [done|]. destruct Hr as (_ & _ & H1 & H2).
      apply Z.eqb_neq in H1, H2. by rewrite H1, H2.
    - destruct ((c =? 101) || (c =? 69)) eqn:Ec; [|done].
      assert (Hg : exists g r', (match r with x :: r' => if (x =? 43) || (x =? 45) then ([x], r') else ([], r) | [] => ([], r) end) = (g, r') /\
        (r <> [] -> (match r ++ rest with x :: r' => if (x =? 43) || (x =? 45) then ([x], r') else ([], r ++ rest) | [] => ([], r ++ rest) end) = (g, r' ++ rest))).
      { destruct r as [|x r]; [by exists [], []|]. cbn [app]. destruct ((x =? 43) || (x =? 45)); eauto. }
      destruct Hg as (g & r' & E1 & E2). rewrite E1 in Hs.
      destruct (json_digits r') as [[x r2]|] eqn:Ex; [|done]. injection Hs as <- ->.
      rewrite E2 by (intros ->; injection E1 as <- <-; done).
      by rewrite (json_digits_extend _ rest _ _ Ex) by (by right). }
  destruct s1 as [|c r]; cbn [app].
  - specialize (Hexp [] [] H). cbn [app] in Hexp. destruct rest as [|c r]; [done|].
    destruct Hr as (_ & H0 & _). apply Z.eqb_neq in H0. cbn [app]. rewrite H0. exact Hexp.
  - destruct (c =? 46) eqn:Ec.
    + destruct (json_digits r) as [[f r1]|] eqn:Ef; [|done].
      rewrite (json_digits_extend _ rest _ _ Ef) by (destruct r1; [by right|by left]). by apply Hexp.
    + by apply (Hexp (c :: r)).
Qed.

Lemma json_number_head s w r : json_number s = Some (w, r) -> exists c s', s = c :: s' /\ (c = 45 \/ is_digit c = true).
Proof.
  unfold json_number. destruct s as [|c s]; [done|]. intros H. exists c, s. split; [done|].
  destruct (c =? 45) eqn:E; [left; by apply Z.eqb_eq|]. right.
  destruct (is_digit c) eqn:Ed; [done|]. unfold json_digits in H. cbn [span] in H. by rewrite Ed in H.
Qed.

Lemma number_text_reads n : number_prints n = true -> reads (num_to_string n) (JNum n).
Proof.
  unfold number_prints. intros H. bools. destruct (json_number (num_to_string n)) as [[t [|]]|] eqn:E; [|done|done].
  bools. exists 1%nat. intros [|f] rest Hf Hr; [lia|]. pose proof (json_number_end _ _ _ E Hr) as En.
  destruct (json_number_head _ _ _ E) as (c & s & Es & Hc). rewrite Es in En |- *. cbn [app] in En |- *.
  assert (Hx : c = 45 \/ 48 <= c <= 57) by (unfold is_digit in Hc; lia). clear Hc.
  cbn [json_value].
  assert (Hsp : json_space (c :: s ++ rest) = c :: s ++ rest).
  { unfold json_space. cbn [span]. replace (is_json_space c) with false; [done|]. unfold is_json_space, LF, CR. lia. }
  rewrite Hsp. unfold QUOTE. rewrite !(proj2 (Z.eqb_neq c _)) by lia.
  assert (Hk : json_keyword (c :: s ++ rest) = None).
  { assert (Hd : forall x p, x <> c -> starts_with (x :: p) (c :: s ++ rest) = false).
    { intros x p ?. cbn [starts_with]. by rewrite (proj2 (Z.eqb_neq x c)). }
    unfold json_keyword. change (js "true") with (116 :: js "rue"). change (js "false") with (102 :: js "alse").
    change (js "null") with (110 :: js "ull"). by rewrite !Hd by lia. }
  rewrite Hk, En. by subst.
Qed.

Lemma json_space_skip w s : Forall (fun c => is_json_space c = true) w -> json_space (w ++ s) = json_space s.
Proof.
  unfold json_space. induction w as [|c w IH]; intros H; [done|]. apply list.Forall_cons in H as [Hc H].
  cbn [app span]. rewrite Hc. specialize (IH H). by destruct (span is_json_space (w ++ s)).
Qed.

Section Reading.
Variable pretty : bool.

Lemma line_space n : Forall (fun c => is_json_space c = true) (line pretty n).
Proof.
  unfold line. destruct pretty; [|constructor]. constructor; [done|]. induction n; simpl; by constructor.
Qed.

Lemma line_delimited n c rest : c = 93 \/ c = 125 -> delimited (line pretty n ++ c :: rest).
Proof. unfold line. by destruct pretty; [|intros [->| ->]]. Qed.

Lemma json_value_skip w f s : Forall (fun c => is_json_space c = true) w ->
  json_value f (w ++ s) = json_value f s.
Proof. intros H. destruct f; [done|]. cbn [json_value]. by rewrite json_space_skip. Qed.

Lemma json_members_skip w f s acc : Forall (fun c => is_json_space c = true) w ->
  json_members f (w ++ s) acc = json_members f s acc.
Proof. intros H. destruct f; [done|]. cbn [json_members]. by rewrite json_space_skip. Qed.

Lemma json_elements_skip w f s acc : Forall (fun c => is_json_space c = true) w ->
  json_elements f (w ++ s) acc = json_elements f s acc.
Proof. intros H. destruct f; [done|]. cbn [json_elements]. by rewrite json_value_skip. Qed.

Lemma join_cons_app sep t ts rest : ts <> [] -> join sep (t :: ts) ++ rest = t ++ sep ++ join sep ts ++ rest.
Proof. destruct ts; [done|]. intros _. simpl. by rewrite <- !app_assoc. Qed.

(** What follows the elements of an array that is being read. *)
Lemma elements_read gap (ts : list jsstr) (vs : list jsvalue) : Forall2 reads ts vs -> vs <> [] ->
  exists n, forall f acc rest, (n <= f)%nat ->
    json_elements f (join (44 :: line pretty gap) ts ++ line pretty (gap - 2) ++ 93 :: rest) acc = Ok (JArr (acc ++ vs), rest).
Proof.
  induction 1 as [|t v ts vs [n Hn] H IH]; [done|]. intros _. destruct ts as [|t' ts].
  - inversion H; subst. exists (S n). intros f acc rest Hf. destruct f as [|f]; [lia|]. cbn [json_elements join].
    rewrite Hn by (lia || (apply line_delimited; tauto)). cbv iota beta. by rewrite json_space_skip by apply line_space.
  - destruct IH as [m Hm]; [by inversion H|]. exists (S (n + m)). intros f acc rest Hf. destruct f as [|f]; [lia|].
    cbn [json_elements]. rewrite join_cons_app by done. rewrite Hn by done || lia. cbv iota beta.
    change ((44 :: line pretty gap) ++ ?x) with (44 :: line pretty gap ++ x). cbn [json_space span is_json_space].
    change (json_space (44 :: ?x)) with (44 :: x). cbv iota beta. simpl Z.eqb. cbv iota.
    rewrite json_elements_skip by apply line_space. rewrite Hm by lia. by rewrite <- app_assoc.
Qed.

Lemma json_put_new k v l : k ∉ map fst l -> json_put k v l = l ++ [(k, v)].
Proof.
  induction l as [|[k' v'] l IH]; intros H; [done|]. cbn [json_put]. cbn [map fst] in H.
  apply not_elem_of_cons in H as [Hk H]. rewrite IH by done.
  destruct (str_eqb k k') eqn:E; [|done]. by apply str_eqb_eq in E.
Qed.

(** A member of an object up to the character after its value. *)
Lemma member_read k v t : Forall code_unit k -> reads t v -> exists n, forall f acc rest, (n <= f)%nat -> delimited rest ->
  json_members (S f) ((json_string k ++ colon pretty ++ t) ++ rest) acc
  = match json_space rest with
    | c :: r => if c =? 44 then json_members f r (json_put k v acc)
                else if c =? 125 then Ok (JObj (json_put k v acc), r) else Err SyntaxError
    | [] => Err SyntaxError
    end.
Proof.
  intros Hk [n Hn]. exists n. intros f acc rest Hf Hr. unfold json_string. rewrite <- !app_assoc.
  cbn [json_members app]. change (json_space (QUOTE :: ?x)) with (QUOTE :: x). cbv iota beta.
  rewrite Z.eqb_refl, <- app_assoc. cbn [app]. rewrite json_body_read by done. cbv iota beta.
  replace (colon pretty ++ t ++ rest) with (58 :: (if pretty then [32] else []) ++ t ++ rest)
    by (unfold colon; by destruct pretty).
  change (json_space (58 :: ?x)) with (58 :: x). cbv iota beta. simpl Z.eqb. cbv iota.
  rewrite json_value_skip by (by destruct pretty; repeat constructor). by rewrite Hn.
Qed.

Definition member_text (e : jsstr * jsvalue) (t : jsstr) : jsstr := json_string e.1 ++ colon pretty ++ t.

Lemma members_read gap (fs : list (jsstr * jsvalue)) (ts : list jsstr) :
  Forall2 (fun e t => Forall code_unit e.1 /\ reads t e.2) fs ts -> fs <> [] ->
  exists n, forall f acc rest, (n <= f)%nat -> NoDup (map fst (acc ++ fs)) ->
    json_members f (join (44 :: line pretty gap) (zip_with member_text fs ts) ++ line pretty (gap - 2) ++ 125 :: rest) acc
    = Ok (JObj (acc ++ fs), rest).
Proof.
  induction 1 as [|[k v] t fs ts [Hk Ht] H IH]; [done|]. intros _.
  destruct (member_read k v t Hk Ht) as [n Hn].
  assert (Hput : forall acc, NoDup (map fst (acc ++ (k, v) :: fs)) -> json_put k v acc = acc ++ [(k, v)]).
  { intros acc Hd. apply json_put_new. rewrite map_app in Hd. apply list.NoDup_app in Hd as (_ & Hd & _).
    intros Hin. by apply (Hd k Hin); left. }
  destruct fs as [|e fs].
  - inversion H; subst. exists (S n). intros f acc rest Hf Hd. destruct f as [|f]; [lia|].
    cbn [zip_with join]. unfold member_text at 1. cbn [fst].
    rewrite Hn by (lia || (apply line_delimited; tauto)).
    rewrite json_space_skip by apply line_space. rewrite Hput by done. done.
  - inversion H as [|? t' ? ts' He Hts]; subst. destruct IH as [m Hm]; [done|].
    exists (S (n + m)). intros f acc rest Hf Hd. destruct f as [|f]; [lia|].
    cbn [zip_with]. rewrite join_cons_app by done. unfold member_text at 1. cbn [fst]. rewrite Hn by done || lia.
    change ((44 :: line pretty gap) ++ ?x) with (44 :: line pretty gap ++ x).
    change (json_space (44 :: ?x)) with (44 :: x). cbv iota beta. simpl Z.eqb. cbv iota.
    rewrite json_members_skip by apply line_space. rewrite Hput by done.
    change (join (44 :: line pretty gap) (member_text e t' :: zip_with member_text fs ts'))
      with (join (44 :: line pretty gap) (zip_with member_text (e :: fs) (t' :: ts'))).
    rewrite Hm; [by rewrite <- app_assoc|lia|]. by rewrite <- app_assoc.
Qed.

(** An opening bracket, before what is not its closing one. *)
Lemma array_opens f s : (forall r, json_space s <> 93 :: r) -> json_space s <> [] ->
  json_value (S f) (91 :: s) = json_elements f s [].
Proof.
  intros H1 H2. cbn [json_value]. change (json_space (91 :: s)) with (91 :: s). cbv iota beta. simpl Z.eqb.
  cbv iota. destruct (json_space s) as [|x r]; [done|]. destruct (x =? 93) eqn:E; [|done].
  apply Z.eqb_eq in E as ->. by destruct (H1 r).
Qed.

Lemma object_opens f s : (forall r, json_space s <> 125 :: r) -> json_space s <> [] ->
  json_value (S f) (123 :: s) = json_members f s [].
Proof.
  intros H1 H2. cbn [json_value]. change (json_space (123 :: s)) with (123 :: s). cbv iota beta. simpl Z.eqb.
  cbv iota. destruct (json_space s) as [|x r]; [done|]. destruct (x =? 125) eqn:E; [|done].
  apply Z.eqb_eq in E as ->. by destruct (H1 r).
Qed.

(** A text that is read starts with neither a space nor a closing bracket. *)
Lemma reads_head t v : reads t v -> forall rest, delimited rest ->
  exists c r, json_space (t ++ rest) = c :: r /\ c <> 93 /\ c <> 125.
Proof.
  intros [n Hn] rest Hr. specialize (Hn (S n) rest). cbn [json_value] in Hn.
  destruct (json_space (t ++ rest)) as [|c r]; [by discriminate Hn; done || lia|]. exists c, r.
  split; [done|]. split; intros ->; specialize (Hn ltac:(lia) Hr); discriminate Hn.
Qed.

Lemma first_read gap t v ts gap' rest : reads t v ->
  exists c r, json_space (join (44 :: line pretty gap) (t :: ts) ++ line pretty gap' ++ [93] ++ rest) = c :: r /\
    c <> 93 /\ c <> 125.
Proof.
  intros Ht. destruct ts; cbn [join]; rewrite <- ?app_assoc; apply (reads_head t v Ht); [|done].
  apply line_delimited. tauto.
Qed.

Lemma array_reads gap ts vs : Forall2 reads ts vs -> reads (bracketed pretty 91 93 gap ts) (JArr vs).
Proof.
  intros H. destruct H as [|t v ts vs Ht H].
  { exists 1%nat. intros [|f] rest Hf Hr; [lia|]. done. }
  destruct (elements_read (gap + 2) (t :: ts) (v :: vs)) as [n Hn]; [by constructor|done|].
  exists (S n). intros [|f] rest Hf Hr; [lia|]. unfold bracketed. cbn [app].
  rewrite <- !app_assoc. rewrite array_opens.
  - rewrite json_elements_skip by apply line_space. replace gap with (gap + 2 - 2)%nat at 2 by lia.
    cbn [app]. apply Hn. lia.
  - rewrite json_space_skip by apply line_space. destruct (first_read (gap + 2) _ _ ts gap rest Ht) as (c & r' & -> & ? & _).
    by intros r [= ->].
  - rewrite json_space_skip by apply line_space. by destruct (first_read (gap + 2) _ _ ts gap rest Ht) as (c & r' & -> & _ & _).
Qed.

Lemma object_reads gap fs ts : NoDup (map fst fs) ->
  Forall2 (fun e t => Forall code_unit e.1 /\ reads t e.2) fs ts ->
  reads (bracketed pretty 123 125 gap (zip_with member_text fs ts)) (JObj fs).
Proof.
  intros Hd H. destruct H as [|[k v] t fs ts Ht H].
  { exists 1%nat. intros [|f] rest Hf Hr; [lia|]. done. }
  destruct (members_read (gap + 2) ((k, v) :: fs) (t :: ts)) as [n Hn]; [by constructor|done|].
  exists (S n). intros [|f] rest Hf Hr; [lia|]. unfold bracketed. cbn [zip_with app].
  rewrite <- !app_assoc. rewrite object_opens.
  - rewrite json_members_skip by apply line_space. replace gap with (gap + 2 - 2)%nat at 2 by lia.
    cbn [app]. by apply Hn; [lia|].
  - rewrite json_space_skip by apply line_space. intros r. by destruct (zip_with member_text fs ts).
  - rewrite json_space_skip by apply line_space. by destruct (zip_with member_text fs ts).
Qed.

Lemma member_texts_all (fs : list (jsstr * jsvalue)) (ts : list jsstr) g :
  Forall2 (fun e t => g e.2 = Some t) fs ts ->
  member_texts pretty (map (fun e => (fst e, g (snd e))) fs) = zip_with member_text fs ts.
Proof. induction 1 as [|[k v] t fs ts H _ IH]; [done|]. cbn in *. by rewrite H, IH. Qed.

Lemma Forall_exists2 {A B} (P : A -> B -> Prop) l : Forall (fun x => exists y, P x y) l -> exists ys, Forall2 P l ys.
Proof.
  induction 1 as [|x l [y Hy] _ [ys Hys]]; [by exists []|]. exists (y :: ys). by constructor.
Qed.

Lemma json_text_reads v : printable v -> forall gap, exists t, json_text pretty gap v = Some t /\ reads t v.
Proof.
  induction v as [| |b|n|s|l IH|fs IH] using jsvalue_nested_ind; intros Hv gap; inversion Hv; subst.
  - exists (js "null"). split; [done|]. by exists 1%nat; intros [|f] rest Hf Hr; [lia|].
  - exists (if b then js "true" else js "false"). split; [done|].
    by exists 1%nat; intros [|f] rest Hf Hr; [lia|]; destruct b.
  - exists (num_to_string n). cbn [json_text].
    assert (Hf : is_finite n = true) by (by unfold number_prints in *; bools).
    rewrite Hf. split; [done|]. by apply number_text_reads.
  - exists (json_string s). split; [done|]. exists 1%nat. intros [|f] rest Hf Hr; [lia|]. unfold json_string.
    cbn [app json_value]. rewrite <- app_assoc. change (json_space (QUOTE :: ?x)) with (QUOTE :: x). cbv iota beta.
    rewrite Z.eqb_refl. cbn [app]. by rewrite json_body_read.
  - assert (H : Forall (fun v => exists t, json_text pretty (gap + 2) v = Some t /\ reads t v) l).
    { apply Forall_elem. intros x Hx. rewrite Forall_elem in IH. apply IH; [done|].
      rewrite Forall_elem in H0. auto. }
    apply Forall_exists2 in H as [ts Hts]. exists (bracketed pretty 91 93 gap ts). split.
    + cbn [json_text]. do 2 f_equal. induction Hts as [|x t l' ts' [E _] _ IHt]; [done|].
      cbn [map]. rewrite E. f_equal. apply IHt.
      * by inversion IH.
      * by constructor; inversion H0.
      * by inversion H0.
    + apply array_reads. apply Forall2_flip. eapply Forall2_impl; [|exact Hts]. by intros x t [_ ?].
  - assert (H : Forall (fun e => exists t, json_text pretty (gap + 2) e.2 = Some t /\ (Forall code_unit e.1 /\ reads t e.2)) fs).
    { apply Forall_elem. intros x Hx. rewrite Forall_elem in IH. rewrite Forall_elem in H1.
      destruct (H1 x Hx) as [Hk Hp]. destruct (IH x Hx Hp (gap + 2)%nat) as (t & Ht & Hr). eauto. }
    apply Forall_exists2 in H as [ts Hts]. exists (bracketed pretty 123 125 gap (zip_with member_text fs ts)). split.
    + cbn [json_text]. do 2 f_equal. apply (member_texts_all fs ts (json_text pretty (gap + 2))).
      eapply Forall2_impl; [|exact Hts]. by intros x t [? _].
    + apply object_reads; [done|]. eapply Forall2_impl; [|exact Hts]. by intros x t [_ ?].
Qed.

(** [JSON.parse] of the text of [v] is [v]. *)
Lemma text_parse v : printable v -> exists t, json_text pretty 0 v = Some t /\ JSON_parse t = Ok v.
Proof.
  intros Hv. destruct (json_text_reads v Hv 0) as (t & Ht & n & Hn). exists t. split; [done|].
  assert (E : json_value (json_fuel t) t = Ok (v, [])).
  { pose proof (proj1 (json_good_all (json_fuel t)) t) as Hg. specialize (Hg ltac:(unfold json_fuel; lia)).
    pose proof (json_fuel_more (json_fuel t) (json_fuel t + n) t ltac:(lia)) as Hm. rewrite <- Hm.
    - rewrite <- (app_nil_r t) at 2. apply Hn; [lia|done].
    - intros E. by rewrite E in Hg. }
  unfold JSON_parse. by rewrite E.
Qed.

End Reading.

Lemma stringify_parse v : printable v -> exists t, JSON_stringify v = Some t /\ JSON_parse t = Ok v.
Proof. apply text_parse. Qed.
Lemma stringify_plain_parse v : printable v -> exists t, JSON_stringify_plain v = Some t /\ JSON_parse t = Ok v.
Proof. apply text_parse. Qed.

(** [printable] as a test. *)
Definition is_code_unit (c : Z) : bool := (0 <=? c) && (c <? 65536).
Fixpoint prints (v : jsvalue) : bool :=
  match v with
  | JUndefined => false
  | JNull | JBool _ => true
  | JNum n => number_prints n
  | JStr s => forallb is_code_unit s
  | JArr l => forallb prints l
  | JObj f => bool_decide (NoDup (map fst f)) && forallb (fun e => forallb is_code_unit (fst e) && prints (snd e)) f
  end.

Lemma code_units_ok s : forallb is_code_unit s = true -> Forall code_unit s.
Proof.
  intros H. apply Forall_elem. intros c Hc. rewrite forallb_forall in H.
  specialize (H c (proj1 (list_elem_of_In _ _) Hc)). unfold is_code_unit in H. unfold code_unit. bools. lia.
Qed.

Lemma prints_printable v : prints v = true -> printable v.
Proof.
  induction v as [| |b|n|s|l IH|f IH] using jsvalue_nested_ind; intros H; cbn [prints] in H; try done.
  - constructor.
  - constructor.
  - by constructor.
  - constructor. by apply code_units_ok.
  - constructor. rewrite forallb_forall in H. apply Forall_elem. intros x Hx. rewrite Forall_elem in IH.
    apply IH; [done|]. apply H. by apply list_elem_of_In.
  - bools. constructor; [done|]. rewrite forallb_forall in H0. apply Forall_elem. intros e He.
    rewrite Forall_elem in IH. specialize (H0 e (proj1 (list_elem_of_In _ _) He)). bools.
    split; [by apply code_units_ok|]. by apply IH.
Qed.
