(* ===== verification/Schema.v ===== *)
(** Schemas of the package [zod], as the playground uses them to check what it keeps in
    the browser.  The package is outside: its parser is the parameter [zod_parse] of class
    [Zod], what is relied on are the laws of [ZodLaws], and [reference_zod] shows that
    they can hold. *)
From Stdlib Require Import ZArith Lia Bool String.
From stdpp Require Import base list option.
From S2P Require Import Prelude JsString JsNumber JsValue.

(** The combinators: [z.string()], [z.number()], [z.boolean()], [z.enum], [z.array(s).min(n)],
    [z.object], [s.optional()], [s.nullable()]. *)
Inductive schema :=
| ZString
| ZNumber
| ZBoolean
| ZEnum (values : list string)
| ZArray (item : schema) (min : nat)
| ZObject (shape : list (string * schema))
| ZOptional (s : schema)
| ZNullable (s : schema).

Lemma schema_nested_ind (P : schema -> Prop) :
  P ZString -> P ZNumber -> P ZBoolean -> (forall values, P (ZEnum values)) ->
  (forall item min, P item -> P (ZArray item min)) ->
  (forall shape, Forall (fun e => P e.2) shape -> P (ZObject shape)) ->
  (forall s, P s -> P (ZOptional s)) -> (forall s, P s -> P (ZNullable s)) -> forall s, P s.
Proof.
  intros H1 H2 H3 H4 H5 H6 H7 H8. fix IH 1.
  intros [| | |values|item min|shape|s|s]; [exact H1|exact H2|exact H3|apply H4|apply H5, IH| |apply H7, IH|apply H8, IH].
  apply H6. induction shape as [|[k s] shape IHs]; constructor; [apply IH|apply IHs].
Qed.

Definition is_optional (s : schema) : bool := match s with ZOptional _ => true | _ => false end.
Definition is_undefined (v : jsvalue) : bool := match v with JUndefined => true | _ => false end.

(** The keys of an object schema are different. *)
Fixpoint unique_keys (l : list string) : bool :=
  match l with [] => true | k :: l' => negb (existsb (String.eqb k) l') && unique_keys l' end.
Fixpoint well_formed_schema (s : schema) : bool :=
  match s with
  | ZArray item _ => well_formed_schema item
  | ZObject shape => unique_keys (map fst shape) && forallb (fun e => well_formed_schema (snd e)) shape
  | ZOptional s | ZNullable s => well_formed_schema s
  | _ => true
  end.

(** The fields of an object that has exactly fields of the shape, in its order; fields
    that are optional may be missing. *)
Section Walk.
Variable check : schema -> jsvalue -> bool.
Fixpoint conforms_fields (shape : list (string * schema)) (fields : list (jsstr * jsvalue)) : bool :=
  match shape with
  | [] => match fields with [] => true | _ => false end
  | (k, s) :: shape' =>
      match fields with
      | (k', v) :: fields' =>
          if str_eqb k' (js k) then negb (is_undefined v) && check s v && conforms_fields shape' fields'
          else is_optional s && conforms_fields shape' fields
      | [] => is_optional s && conforms_fields shape' []
      end
  end.

(** The walk of a parser: the fields of the shape in its order. *)
Variable parse : schema -> jsvalue -> option jsvalue.
Variable fields : list (jsstr * jsvalue).
Fixpoint reference_fields (shape : list (string * schema)) : option (list (jsstr * jsvalue)) :=
  match shape with
  | [] => Some []
  | (k, s) :: shape' =>
      match own fields (js k) with
      | Some JUndefined | None => if is_optional s then reference_fields shape' else None
      | Some v =>
          w ← parse s v;
          if is_undefined w then None else rest ← reference_fields shape'; Some ((js k, w) :: rest)
      end
  end.
End Walk.

(** Values of a schema with nothing to remove. *)
Fixpoint conforms (s : schema) (v : jsvalue) {struct s} : bool :=
  match s with
  | ZString => match v with JStr _ => true | _ => false end
  | ZNumber => match v with JNum n => is_finite n | _ => false end
  | ZBoolean => match v with JBool _ => true | _ => false end
  | ZEnum values => match v with JStr t => one_of t values | _ => false end
  | ZArray item min =>
      match v with JArr l => (min <=? length l)%nat && forallb (conforms item) l | _ => false end
  | ZObject shape =>
      match v with
      | JObj fields => conforms_fields conforms shape fields
      | _ => false
      end
  | ZOptional s => match v with JUndefined => true | _ => conforms s v end
  | ZNullable s => match v with JNull => true | _ => conforms s v end
  end.

(** [schema.parse(value)]: [None] when it throws, which is also when [safeParse] reports
    no success. *)
Class Zod := { zod_parse : schema -> jsvalue -> option jsvalue }.

(** What the package documents: a value that fits its schema and has no unknown keys is
    returned as it is, what is returned fits the schema, and only arrays fit an array
    schema. *)
Class ZodLaws (Z : Zod) : Prop := {
  zod_keeps : forall s v, well_formed_schema s = true -> conforms s v = true -> zod_parse s v = Some v;
  zod_output : forall s v w, well_formed_schema s = true -> zod_parse s v = Some w -> conforms s w = true;
  zod_array_only : forall s n v w, zod_parse (ZArray s n) v = Some w -> exists l, v = JArr l;
}.

(** * A parser with these laws *)

Fixpoint reference_parse (s : schema) (v : jsvalue) {struct s} : option jsvalue :=
  match s with
  | ZArray item min =>
      match v with
      | JArr l => if (min <=? length l)%nat then JArr <$> mapM (reference_parse item) l else None
      | _ => None
      end
  | ZObject shape =>
      match v with
      | JObj fields => JObj <$> reference_fields reference_parse fields shape
      | _ => None
      end
  | ZOptional s => match v with JUndefined => Some v | _ => reference_parse s v end
  | ZNullable s => match v with JNull => Some v | _ => reference_parse s v end
  | _ => if conforms s v then Some v else None
  end.

Definition reference_zod : Zod := {| zod_parse := reference_parse |}.

Lemma js_inj a b : js a = js b -> a = b.
Proof.
  revert b. induction a as [|x a IH]; intros [|y b]; cbn [js]; [done|done|done|]. intros [= Hx Ha].
  f_equal; [|auto]. rewrite <- (Ascii.ascii_N_embedding x), <- (Ascii.ascii_N_embedding y). f_equal. lia.
Qed.

Lemma unique_keys_cons k l : unique_keys (k :: l) = true -> (k ∉ l) /\ unique_keys l = true.
Proof.
  cbn [unique_keys]. intros H. bools. split; [|done]. intros Hin. apply not_true_iff_false in H. apply H.
  apply existsb_exists. exists k. split; [by apply list_elem_of_In|by apply String.eqb_refl].
Qed.

(** The keys of fields that conform are keys of the shape. *)
Lemma conforms_keys c shape : forall fields, conforms_fields c shape fields = true ->
  forall k, k ∈ map fst fields -> exists k', k' ∈ map fst shape /\ k = js k'.
Proof.
  induction shape as [|[k s] shape IH]; intros [|[k' v] fields] H k0 Hk; cbn [conforms_fields] in H;
    [by apply not_elem_of_nil in Hk|done|by apply not_elem_of_nil in Hk|].
  destruct (str_eqb_reflect k' (js k)) as [->|Hne]; bools.
  - apply elem_of_cons in Hk as [->|Hk]; [exists k; split; [by left|done]|].
    destruct (IH fields H0 k0 Hk) as (x & ? & ?). exists x. split; [by right|done].
  - destruct (IH _ H0 k0 Hk) as (x & ? & ?). exists x. split; [by right|done].
Qed.

Lemma own_absent {A} (f : list (jsstr * A)) k : k ∉ map fst f -> own f k = None.
Proof.
  induction f as [|[k' v] f IH]; intros H; [done|]. cbn [own map fst] in *. apply not_elem_of_cons in H as [H1 H2].
  destruct (str_eqb_reflect k k'); [done|auto].
Qed.

(** Looking up the keys of the shape finds the fields again. *)
Lemma reference_fields_keep (shape : list (string * schema)) (all : list (jsstr * jsvalue)) :
  Forall (fun e => forall v, well_formed_schema e.2 = true -> conforms e.2 v = true -> reference_parse e.2 v = Some v) shape ->
  unique_keys (map fst shape) = true -> forallb (fun e => well_formed_schema (snd e)) shape = true ->
  forall fields, conforms_fields conforms shape fields = true ->
  (forall k, k ∈ map fst shape -> own all (js k) = own fields (js k)) ->
  reference_fields reference_parse all shape = Some fields.
Proof.
  induction 1 as [|[k s] shape Hs H IH]; intros Hu Hw fields Hc Hown; cbn [conforms_fields] in Hc.
  { by destruct fields. }
  apply unique_keys_cons in Hu as [Hk Hu]. cbn [forallb snd] in Hw. bools. cbn [reference_fields].
  rewrite (Hown k) by (by left).
  assert (Habsent : forall fs, conforms_fields conforms shape fs = true -> own fs (js k) = None).
  { intros fs Hf. apply own_absent. intros Hin. destruct (conforms_keys _ _ _ Hf _ Hin) as (k' & Hk' & E).
    by apply js_inj in E as ->. }
  destruct fields as [|[k' v] fields].
  - bools. cbn [own]. rewrite H2. apply IH; [done|done|done|]. intros k0 Hk0. apply Hown. by right.
  - destruct (str_eqb_reflect k' (js k)) as [->|Hne]; bools.
    + cbn [own]. rewrite str_eqb_refl. rewrite Hs by done. cbn [mbind option_bind]. rewrite H2.
      rewrite (IH Hu H1 fields H3); [by destruct v|].
      intros k0 Hk0. rewrite (Hown k0) by (by right). cbn [own].
      destruct (str_eqb_reflect (js k0) (js k)) as [E|E]; [|done]. by apply js_inj in E as ->.
    + rewrite (Habsent _ H3), H2. apply IH; [done|done|done|]. intros k0 Hk0. apply Hown. by right.
Qed.

Lemma reference_keeps s : forall v, well_formed_schema s = true -> conforms s v = true -> reference_parse s v = Some v.
Proof.
  induction s as [| | |values|item min IH|shape IH|s IH|s IH] using schema_nested_ind; intros v Hw Hc.
  1-4: cbn [reference_parse]; by rewrite Hc.
  - cbn [conforms reference_parse well_formed_schema] in *. destruct v as [| | | | |l|]; try done. bools.
    rewrite (proj2 (Nat.leb_le min (length l))) by done.
    rewrite (proj2 (mapM_Some (reference_parse item) l l)); [done|]. rewrite forallb_forall in H0.
    apply Forall_Forall2_diag, Forall_elem. intros x Hx. apply IH; [done|]. apply H0. by apply list_elem_of_In.
  - destruct v as [| | | | | |fields]; try done. cbn [conforms reference_parse] in *.
    cbn [well_formed_schema] in Hw. bools. by rewrite (reference_fields_keep shape fields IH H H0 fields Hc).
  - cbn [conforms reference_parse well_formed_schema] in *. destruct v; auto.
  - cbn [conforms reference_parse well_formed_schema] in *. destruct v; auto.
Qed.

Lemma reference_fields_output (shape : list (string * schema)) (all : list (jsstr * jsvalue)) :
  Forall (fun e => forall v w, reference_parse e.2 v = Some w -> conforms e.2 w = true) shape ->
  unique_keys (map fst shape) = true ->
  forall fields, reference_fields reference_parse all shape = Some fields ->
  conforms_fields conforms shape fields = true.
Proof.
  induction 1 as [|[k s] shape Hs H IH]; intros Hu fields Hf; cbn [reference_fields] in Hf.
  { by injection Hf as <-. }
  cbn [snd] in Hs.
  apply unique_keys_cons in Hu as [Hk Hu].
  assert (Hskip : forall fields', conforms_fields conforms shape fields' = true -> is_optional s = true ->
            conforms_fields conforms ((k, s) :: shape) fields' = true).
  { intros fs Hc Ho. cbn [conforms_fields]. destruct fs as [|[k' v] fs]; [by rewrite Ho, Hc|].
    destruct (str_eqb_reflect k' (js k)) as [->|Hne]; [|by rewrite Ho, Hc].
    destruct (conforms_keys _ _ _ Hc (js k)) as (k' & Hk' & E); [by left|]. by apply js_inj in E as ->. }
  assert (Hput : forall v, (w ← reference_parse s v; if is_undefined w then None else
            rest ← reference_fields reference_parse all shape; Some ((js k, w) :: rest)) = Some fields ->
            conforms_fields conforms ((k, s) :: shape) fields = true).
  { intros v Hv. apply bind_Some in Hv as (w & Hw & Hv). destruct (is_undefined w) eqn:Eu; [done|].
    apply bind_Some in Hv as (rest & Hr & [= <-]). cbn [conforms_fields]. rewrite str_eqb_refl, Eu.
    cbn [negb andb]. by rewrite (Hs _ _ Hw), (IH Hu rest Hr). }
  destruct (own all (js k)) as [v|]; [|by destruct (is_optional s) eqn:Eo; [apply Hskip; auto|]].
  destruct v; try by apply (Hput _ Hf). by destruct (is_optional s) eqn:Eo; [apply Hskip; auto|].
Qed.

Lemma reference_output s : well_formed_schema s = true ->
  forall v w, reference_parse s v = Some w -> conforms s w = true.
Proof.
  induction s as [| | |values|item min IH|shape IH|s IH|s IH] using schema_nested_ind; intros Hw v w H.
  1-4: cbn [reference_parse] in H; destruct (conforms _ v) eqn:E; [by injection H as <-|done].
  - cbn [reference_parse well_formed_schema] in *. destruct v as [| | | | |l|]; try done.
    destruct (min <=? length l)%nat eqn:E; [|done]. bools.
    apply fmap_Some in H as (l' & H & ->). apply mapM_Some in H. cbn [conforms].
    rewrite (proj2 (Nat.leb_le min (length l'))) by (by rewrite <- (Forall2_length H)). cbn [andb].
    apply forallb_forall. intros x Hx. apply list_elem_of_In in Hx.
    eapply Forall2_Forall_r in H; [|apply Forall_elem; intros y _ z Hz; by apply (IH Hw _ _ Hz)].
    rewrite Forall_elem in H. by apply H.
  - cbn [reference_parse well_formed_schema] in *. destruct v as [| | | | | |fields]; try done. bools.
    apply fmap_Some in H as (l' & H & ->). cbn [conforms]. eapply reference_fields_output; [|done|exact H].
    apply Forall_elem. intros e He. rewrite Forall_elem in IH. rewrite forallb_forall in H1.
    apply IH; [done|]. apply H1. by apply list_elem_of_In.
  - cbn [reference_parse well_formed_schema conforms] in *.
    destruct v; try (specialize (IH Hw _ _ H); by destruct w). by injection H as <-.
  - cbn [reference_parse well_formed_schema conforms] in *.
    destruct v; try (specialize (IH Hw _ _ H); by destruct w). by injection H as <-.
Qed.

#[export] Instance reference_laws : ZodLaws reference_zod.
Proof.
  split; cbn [zod_parse reference_zod].
  - intros s v. apply reference_keeps.
  - intros s v w Hw. by apply reference_output.
  - intros s n v w H. cbn [reference_parse] in H. destruct v; try done. eauto.
Qed.
