(* ===== verification/RequestRules.v ===== *)
(** The request rules of [pricing/lib/billing-expr.ts]: factors such as
    [(hour("UTC") >= 9 && hour("UTC") < 12 ? 2 : 1)] that multiply a price, read into
    the rows of the rule editor and written back.

    Every regular expression of the source is a function on the text.  None of them
    needs backtracking: each repeated class excludes the character that must follow
    it.  [JSON.parse] may throw; [result json_error] carries the exception. *)
From Stdlib Require Import ZArith Lia Bool String.
From stdpp Require Import base list option.
From S2P Require Import Prelude JsString JsNumber Types JsValue Json Structure.

#[local] Open Scope Z_scope.

(** * Data *)

Inductive time_func := Hour | Minute | Weekday | Month | Day.

Definition time_func_name (f : time_func) : string :=
  match f with
  | Hour => "hour" | Minute => "minute" | Weekday => "weekday" | Month => "month" | Day => "day"
  end.

(** [TIME_FUNCS]. *)
Definition TIME_FUNCS : list time_func := [Hour; Minute; Weekday; Month; Day].

Definition MATCH_EQ : string := "eq".
Definition MATCH_CONTAINS : string := "contains".
Definition MATCH_GT : string := "gt".
Definition MATCH_GTE : string := "gte".
Definition MATCH_LT : string := "lt".
Definition MATCH_LTE : string := "lte".
Definition MATCH_EXISTS : string := "exists".
Definition MATCH_RANGE : string := "range".

(** The two sources that are not the time. *)
Inductive rule_source := SParam | SHeader.

Definition source_name (s : rule_source) : string :=
  match s with SParam => "param" | SHeader => "header" end.

Inductive request_condition :=
| TimeCondition (timeFunc : time_func) (timezone mode value rangeStart rangeEnd : jsstr)
| ParamHeaderCondition (source : rule_source) (path mode value : jsstr).

Record rule_group := RuleGroup {
  conditions : list request_condition;
  multiplier : jsstr;
  conditionText : option jsstr;
  matched : option bool;
}.

(** [RequestRuleTrace]. *)
Record rule_trace_text := RuleTraceText {
  cond : jsstr;
  trace_multiplier : number;
  trace_matched : bool;
}.

(** * Lexical matters *)

(** [NUMERIC_LITERAL_REGEX]. *)
Definition numeric_exponent (s : jsstr) : bool :=
  match s with
  | [] => true
  | c :: r =>
      ((c =? 101) || (c =? 69)) &&
      let digits := match r with x :: r' => if (x =? 43) || (x =? 45) then r' else r | [] => r end in
      truthy digits && forallb is_digit digits
  end.

Definition NUMERIC_LITERAL_REGEX (s : jsstr) : bool :=
  let s := match s with c :: r => if c =? 45 then r else s | [] => s end in
  match span is_digit s with
  | ([], r) =>
      match r with
      | c :: r' => (c =? 46) && let '(fs, r') := span is_digit r' in truthy fs && numeric_exponent r'
      | [] => false
      end
  | (_, r) =>
      match r with
      | c :: r' => if c =? 46 then numeric_exponent (span is_digit r').2 else numeric_exponent r
      | [] => true
      end
  end.

(** The class [[\d.eE+-]]. *)
Definition is_number_char (c : Z) : bool :=
  is_digit c || (c =? 46) || (c =? 101) || (c =? 69) || (c =? 43) || (c =? 45).

(** A line terminator, which [.] does not match. *)
Definition is_line_end (c : Z) : bool := (c =? LF) || (c =? CR) || (c =? 8232) || (c =? 8233).

(** What follows the prefix [p] of a text. *)
Fixpoint strip (p s : jsstr) : option jsstr :=
  match p, s with
  | [], _ => Some s
  | x :: p', y :: s' => if x =? y then strip p' s' else None
  | _, [] => None
  end.

(** One or more characters other than a quote, followed by a quote. *)
Definition until_quote (s : jsstr) : option (jsstr * jsstr) :=
  match span (fun c => negb (c =? QUOTE)) s with
  | (w, _ :: r) => if truthy w then Some (w, r) else None
  | (_, []) => None
  end.

(** [[\d.eE+-]+], and [None] without a character of the class. *)
Definition number_chars (s : jsstr) : option (jsstr * jsstr) :=
  let '(w, r) := span is_number_char s in if truthy w then Some (w, r) else None.

(** A call [name("text")]: the text and what follows. *)
Definition match_call (name : string) (s : jsstr) : option (jsstr * jsstr) :=
  match strip (js name ++ [LPAREN; QUOTE]) s with
  | Some r => match until_quote r with
              | Some (w, r) => match strip [RPAREN] r with Some r => Some (w, r) | None => None end
              | None => None
              end
  | None => None
  end.

(** A literal in quotes, in which a backslash takes the next character of the line
    along: the literal with its quotes, and what follows. *)
Fixpoint quoted_body (s : jsstr) : option (jsstr * jsstr) :=
  match s with
  | [] => None
  | c :: s1 =>
      if c =? QUOTE then Some ([QUOTE], s1)
      else if c =? BACKSLASH then
        match s1 with
        | e :: s2 => if is_line_end e then None
                     else match quoted_body s2 with
                          | Some (w, r) => Some (c :: e :: w, r)
                          | None => None
                          end
        | [] => None
        end
      else match quoted_body s1 with Some (w, r) => Some (c :: w, r) | None => None end
  end.

Definition quoted (s : jsstr) : option (jsstr * jsstr) :=
  match s with
  | c :: r => if c =? QUOTE then
                match quoted_body r with Some (w, r) => Some (QUOTE :: w, r) | None => None end
              else None
  | [] => None
  end.

(** The first comparison of a list that starts the text. *)
Fixpoint match_operator {A} (ops : list (string * A)) (s : jsstr) : option (A * jsstr) :=
  match ops with
  | [] => None
  | (o, a) :: ops' => match strip (js o ++ [32]) s with
                      | Some r => Some (a, r)
                      | None => match_operator ops' s
                      end
  end.

(** * Reading *)

Definition TIME_FUNC_RANGES (f : time_func) : Z * Z :=
  match f with
  | Hour => (0, 23) | Minute => (0, 59) | Weekday => (0, 6) | Month => (1, 12) | Day => (1, 31)
  end.

Definition isTimeValueInRange (f : time_func) (text : jsstr) : bool :=
  NUMERIC_LITERAL_REGEX text &&
  let value := js_Number text in
  let '(min, max) := TIME_FUNC_RANGES f in
  is_integer value && num_leb (num_of_Z min) value && num_leb value (num_of_Z max).

(** [parseExprLiteral]: a value whose text is kept; [None] is [null]. *)
Definition parseExprLiteral (raw : jsstr) : option jsvalue :=
  let text := trim raw in
  if (text === "true") || (text === "false") then Some (JStr text)
  else if NUMERIC_LITERAL_REGEX text then Some (JStr text)
  else match JSON_parse text with
       | Ok v => if nullish v then None else Some v
       | Err _ => None
       end.

(** A call of one of the time functions: the function, the zone and what follows. *)
Fixpoint match_time_call (fs : list time_func) (s : jsstr) : option (time_func * jsstr * jsstr) :=
  match fs with
  | [] => None
  | f :: fs' => match match_call (time_func_name f) s with
                | Some (tz, r) => Some (f, tz, r)
                | None => match_time_call fs' s
                end
  end.

(** The text [fn("tz")]. *)
Definition call_text (name : string) (arg : jsstr) : jsstr :=
  js name ++ [LPAREN; QUOTE] ++ arg ++ [QUOTE; RPAREN].

(** [fn("tz") >= a && fn("tz") < b], with [||] as well, followed by [final]. *)
Definition match_time_range (final s : jsstr) : option (time_func * jsstr * jsstr * jsstr) :=
  match match_time_call TIME_FUNCS s with
  | Some (f, tz, r) =>
      match strip (js " >= ") r with
      | Some r =>
          match number_chars r with
          | Some (a, r) =>
              match match strip (js " && ") r with Some r => Some r | None => strip (js " || ") r end with
              | Some r =>
                  match strip (call_text (time_func_name f) tz ++ js " < ") r with
                  | Some r =>
                      match number_chars r with
                      | Some (b, r) => if str_eqb r final then Some (f, tz, a, b) else None
                      | None => None
                      end
                  | None => None
                  end
              | None => None
              end
          | None => None
          end
      | None => None
      end
  | None => None
  end.

(** [fn("tz") == v], with [>=] and [<]: the mode and the value. *)
Definition match_time_scalar (s : jsstr) : option (time_func * jsstr * string * jsstr) :=
  match match_time_call TIME_FUNCS s with
  | Some (f, tz, r) =>
      match strip [32] r with
      | Some r =>
          match match_operator [("==", MATCH_EQ); (">=", MATCH_GTE); ("<", MATCH_LT)]%string r with
          | Some (mode, r) =>
              match number_chars r with
              | Some (v, []) => Some (f, tz, mode, v)
              | _ => None
              end
          | None => None
          end
      | None => None
      end
  | None => None
  end.

Definition tryParseTimeCondition (expr : jsstr) : option request_condition :=
  let range := match match_time_range [] expr with
               | Some m => Some m
               | None => match strip [LPAREN] expr with
                         | Some r => match_time_range [RPAREN] r
                         | None => None
                         end
               end in
  match range with
  | Some (f, tz, a, b) =>
      if negb (isTimeValueInRange f a) || negb (isTimeValueInRange f b) then None
      else Some (TimeCondition f tz (js MATCH_RANGE) [] a b)
  | None =>
      match match_time_scalar expr with
      | Some (f, tz, mode, v) =>
          if negb (isTimeValueInRange f v) then None
          else Some (TimeCondition f tz (js mode) v [] [])
      | None => None
      end
  end.

(** [has(header("path"), "text")]: the path and the literal. *)
Definition match_header_contains (s : jsstr) : option (jsstr * jsstr) :=
  match strip (js "has(") s with
  | Some r =>
      match match_call "header" r with
      | Some (path, r) =>
          match strip (js ", ") r with
          | Some r => match quoted r with
                      | Some (lit, r) => if str_eqb r [RPAREN] then Some (path, lit) else None
                      | None => None
                      end
          | None => None
          end
      | None => None
      end
  | None => None
  end.

(** [param("a") != nil && ]: the path and what follows. *)
Definition match_param_guard (s : jsstr) : option (jsstr * jsstr) :=
  match match_call "param" s with
  | Some (path, r) => match strip (js " != nil && ") r with Some r => Some (path, r) | None => None end
  | None => None
  end.

(** [param("a") != nil && has(param("b"), "text")] with [a = b]. *)
Definition match_param_contains (s : jsstr) : option (jsstr * jsstr) :=
  match match_param_guard s with
  | Some (path, r) =>
      match strip (js "has(") r with
      | Some r =>
          match match_call "param" r with
          | Some (path2, r) =>
              match strip (js ", ") r with
              | Some r => match quoted r with
                          | Some (lit, r) =>
                              if str_eqb r [RPAREN] && str_eqb path path2 then Some (path, lit) else None
                          | None => None
                          end
              | None => None
              end
          | None => None
          end
      | None => None
      end
  | None => None
  end.

(** [param("a") != nil && param("b") > v] with [a = b]: the path, the mode, the value. *)
Definition match_param_compare (s : jsstr) : option (jsstr * string * jsstr) :=
  match match_param_guard s with
  | Some (path, r) =>
      match match_call "param" r with
      | Some (path2, r) =>
          match strip [32] r with
          | Some r =>
              match match_operator [(">", MATCH_GT); (">=", MATCH_GTE); ("<", MATCH_LT);
                                    ("<=", MATCH_LTE)]%string r with
              | Some (mode, r) =>
                  match number_chars r with
                  | Some (v, []) => if str_eqb path path2 then Some (path, mode, v) else None
                  | _ => None
                  end
              | None => None
              end
          | None => None
          end
      | None => None
      end
  | None => None
  end.

(** [source("path") == rest], the rest on one line. *)
Definition match_equals (s : jsstr) : option (rule_source * jsstr * jsstr) :=
  let call := match match_call "param" s with
              | Some (p, r) => Some (SParam, p, r)
              | None => match match_call "header" s with Some (p, r) => Some (SHeader, p, r) | None => None end
              end in
  match call with
  | Some (src, path, r) =>
      match strip (js " == ") r with
      | Some r => if truthy r && forallb (fun c => negb (is_line_end c)) r then Some (src, path, r) else None
      | None => None
      end
  | None => None
  end.

(** [name("path")] followed by exactly [final]. *)
Definition match_exists (name : string) (final s : jsstr) : option jsstr :=
  match match_call name s with
  | Some (path, r) => if str_eqb r final then Some path else None
  | None => None
  end.

(** [JSON.parse(literal) as string], the literal being a quoted text. *)
Definition parse_quoted (lit : jsstr) : result json_error jsstr :=
  let! v := JSON_parse lit in Ok (to_text v).

Definition tryParseRequestCondition (expr : jsstr) : result json_error (option request_condition) :=
  match tryParseTimeCondition expr with
  | Some tc => Ok (Some tc)
  | None =>
  match match_exists "header" (js " != " ++ [QUOTE; QUOTE]) expr with
  | Some path => Ok (Some (ParamHeaderCondition SHeader path (js MATCH_EXISTS) []))
  | None =>
  match match_exists "param" (js " != nil") expr with
  | Some path => Ok (Some (ParamHeaderCondition SParam path (js MATCH_EXISTS) []))
  | None =>
  match match_header_contains expr with
  | Some (path, lit) =>
      let! v := parse_quoted lit in
      Ok (Some (ParamHeaderCondition SHeader path (js MATCH_CONTAINS) v))
  | None =>
  match match_param_contains expr with
  | Some (path, lit) =>
      let! v := parse_quoted lit in
      Ok (Some (ParamHeaderCondition SParam path (js MATCH_CONTAINS) v))
  | None =>
  match match_param_compare expr with
  | Some (path, mode, v) => Ok (Some (ParamHeaderCondition SParam path (js mode) v))
  | None =>
  match match_equals expr with
  | Some (src, path, rest) =>
      match parseExprLiteral rest with
      | Some v => Ok (Some (ParamHeaderCondition src path (js MATCH_EQ) (to_text v)))
      | None => Ok None
      end
  | None => Ok None
  end end end end end end end.

Definition tryParseTimeRangePair (lower upper : jsstr) : option request_condition :=
  match tryParseTimeCondition lower, tryParseTimeCondition upper with
  | Some (TimeCondition f1 tz1 mode1 v1 _ _), Some (TimeCondition f2 tz2 mode2 v2 _ _) =>
      if negb (str_eqb (js (time_func_name f1)) (js (time_func_name f2))) || negb (str_eqb tz1 tz2)
      then None
      else if negb (mode1 === MATCH_GTE) || negb (mode2 === MATCH_LT) then None
      else Some (TimeCondition f1 tz1 (js MATCH_RANGE) [] v1 v2)
  | _, _ => None
  end.

Definition splitTopLevelMultiply (expr : jsstr) : list jsstr :=
  match splitExpressionAtTopLevel expr (js "*") with Some parts => parts | None => [] end.
Definition splitTopLevelAnd (expr : jsstr) : list jsstr :=
  match splitExpressionAtTopLevel expr (js "&&") with Some parts => parts | None => [] end.

(** The loop over the parts of a conjunction; adjacent bounds become one range. *)
Fixpoint parse_parts (parts : list jsstr) (acc : list request_condition)
  : result json_error (option (list request_condition)) :=
  let single part rest :=
    let! c := tryParseRequestCondition (trim part) in
    match c with
    | Some c => parse_parts rest (acc ++ [c])
    | None => Ok None
    end in
  match parts with
  | [] => Ok (match acc with [] => None | _ => Some acc end)
  | part :: rest =>
      match rest with
      | next :: rest' =>
          match (if truthy (trim next) then tryParseTimeRangePair (trim part) (trim next) else None) with
          | Some merged => parse_parts rest' (acc ++ [merged])
          | None => single part rest
          end
      | [] => single part rest
      end
  end.

Definition tryParseRequestConditions (conditionStr : jsstr)
  : result json_error (option (list request_condition)) :=
  match tryParseTimeCondition (trim conditionStr) with
  | Some c => Ok (Some [c])
  | None => parse_parts (splitTopLevelAnd conditionStr) []
  end.

(** [^\((.+) \? ([\d.eE+-]+) : 1\)$] with the [s] flag, read from the end: the
    condition and the multiplier. *)
Definition match_factor (part : jsstr) : option (jsstr * jsstr) :=
  match strip [LPAREN] part with
  | Some body =>
      match strip (rev (js " : 1)")) (rev body) with
      | Some r =>
          match number_chars r with
          | Some (m, r) =>
              match strip (rev (js " ? ")) r with
              | Some r => if truthy r then Some (rev r, rev m) else None
              | None => None
              end
          | None => None
          end
      | None => None
      end
  | None => None
  end.

Definition tryParseRuleGroupFactor (part : jsstr) : result json_error (option rule_group) :=
  match match_factor part with
  | None => Ok None
  | Some (c, m) =>
      let! cs := tryParseRequestConditions c in
      match cs with
      | Some cs => Ok (Some (RuleGroup cs m None None))
      | None => Ok None
      end
  end.

Definition requestRuleGroupsFromTrace (requestRules : list rule_trace_text)
  : result json_error (list rule_group) :=
  map_result (fun rule =>
    let text := trim (cond rule) in
    let! cs := tryParseRequestConditions text in
    Ok (RuleGroup (match cs with Some cs => cs | None => [] end)
          (num_to_string (trace_multiplier rule)) (Some text) (Some (trace_matched rule))))
    requestRules.

Fixpoint parse_factors (parts : list jsstr) (groups : list rule_group)
  : result json_error (option (list rule_group)) :=
  match parts with
  | [] => Ok (Some groups)
  | part :: parts' =>
      let! g := tryParseRuleGroupFactor part in
      match g with
      | Some g => parse_factors parts' (groups ++ [g])
      | None => Ok None
      end
  end.

Definition tryParseRequestRuleExpr (expr : jsstr) : result json_error (option (list rule_group)) :=
  let trimmed := trim expr in
  if truthy trimmed then parse_factors (splitTopLevelMultiply trimmed) [] else Ok (Some []).

(** * Combining and splitting *)

Definition unwrapOuterParens (expr : jsstr) : jsstr :=
  match unwrapExpressionParens expr with Some e => e | None => expr end.

(** The parts that are request rules, and the others. *)
Fixpoint partition_parts (parts ruleParts baseParts : list jsstr)
  : result json_error (list jsstr * list jsstr) :=
  match parts with
  | [] => Ok (ruleParts, baseParts)
  | part :: parts' =>
      let! parsed := tryParseRequestRuleExpr part in
      match parsed with
      | Some (_ :: _) => partition_parts parts' (ruleParts ++ [part]) baseParts
      | _ => partition_parts parts' ruleParts (baseParts ++ [part])
      end
  end.

(** The result: [billingExpr] and [requestRuleExpr]. *)
Definition splitBillingExprAndRequestRules (expr : jsstr) : result json_error (jsstr * jsstr) :=
  let trimmed := trim expr in
  if negb (truthy trimmed) then Ok ([], [])
  else
    let parts := splitTopLevelMultiply trimmed in
    if (length parts <=? 1)%nat then Ok (trimmed, [])
    else
      let! (ruleParts, baseParts) := partition_parts parts [] [] in
      match ruleParts, baseParts with
      | _ :: _, [base] => Ok (unwrapOuterParens base, join (js " * ") ruleParts)
      | _, _ => Ok (trimmed, [])
      end.

Definition combineBillingExpr (baseExpr requestRuleExpr : jsstr) : jsstr :=
  let base := trim baseExpr in
  let rules := trim requestRuleExpr in
  if negb (truthy base) then []
  else if negb (truthy rules) then base
  else [LPAREN] ++ base ++ js ") * " ++ rules.

(** * The editor *)

Definition createEmptyCondition : request_condition :=
  ParamHeaderCondition SParam [] (js MATCH_EQ) [].
Definition createEmptyTimeCondition : request_condition :=
  TimeCondition Hour (js "Asia/Shanghai") (js MATCH_GTE) [] [] [].
Definition createEmptyRuleGroup : rule_group := RuleGroup [createEmptyCondition] [] None None.
Definition createEmptyTimeRuleGroup : rule_group := RuleGroup [createEmptyTimeCondition] [] None None.

(** The values of the options; their labels are texts of the interface. *)
Definition getRequestRuleMatchOptions (source : jsstr) : list string :=
  if source === "time" then [MATCH_EQ; MATCH_GTE; MATCH_LT; MATCH_RANGE]
  else
    let base := [MATCH_EQ; MATCH_CONTAINS; MATCH_EXISTS] in
    if source === "header" then base
    else base ++ [MATCH_GT; MATCH_GTE; MATCH_LT; MATCH_LTE].

(** A condition of which any field may be missing. *)
Record partial_condition := PartialCondition {
  p_source : option jsstr;
  p_timeFunc : option jsstr;
  p_timezone : option jsstr;
  p_path : option jsstr;
  p_mode : option jsstr;
  p_value : jsvalue;
  p_rangeStart : jsvalue;
  p_rangeEnd : jsvalue;
}.

(** [isTimeFunc]: the function of that name. *)
Definition isTimeFunc (v : option jsstr) : option time_func :=
  match v with
  | Some s => List.find (fun f => str_eqb s (js (time_func_name f))) TIME_FUNCS
  | None => None
  end.

(** [s || d] on an optional string. *)
Definition or_text (s : option jsstr) (d : jsstr) : jsstr :=
  match s with Some s => if truthy s then s else d | None => d end.

(** The mode, when it is one of the options, and [d] otherwise. *)
Definition mode_or (options : list string) (mode : option jsstr) (d : string) : jsstr :=
  match mode with Some m => if one_of m options then m else js d | None => js d end.

Definition normalizeCondition (c : partial_condition) : request_condition :=
  let is_source s := match p_source c with Some x => x === s | None => false end in
  if is_source "time"%string then
    TimeCondition (match isTimeFunc (p_timeFunc c) with Some f => f | None => Hour end)
      (or_text (p_timezone c) (js "Asia/Shanghai"))
      (mode_or (getRequestRuleMatchOptions (js "time")) (p_mode c) MATCH_GTE)
      (to_text (p_value c)) (to_text (p_rangeStart c)) (to_text (p_rangeEnd c))
  else
    let source := if is_source "header"%string then SHeader else SParam in
    ParamHeaderCondition source (or_text (p_path c) [])
      (mode_or (getRequestRuleMatchOptions (js (source_name source))) (p_mode c) MATCH_EQ)
      (to_text (p_value c)).

(** A condition as an argument of [normalizeCondition]. *)
Definition partial_of (c : request_condition) : partial_condition :=
  match c with
  | TimeCondition f tz m v a b =>
      PartialCondition (Some (js "time")) (Some (js (time_func_name f))) (Some tz) None (Some m)
        (JStr v) (JStr a) (JStr b)
  | ParamHeaderCondition s p m v =>
      PartialCondition (Some (js (source_name s))) None None (Some p) (Some m)
        (JStr v) JUndefined JUndefined
  end.

(** * Writing *)

Definition buildExprLiteral (mode value : jsstr) : jsstr :=
  let text := trim value in
  if mode === MATCH_CONTAINS then json_string text
  else if (text === "true") || (text === "false") then text
  else if NUMERIC_LITERAL_REGEX text then text
  else json_string text.

(** [opMap] of [buildTimeConditionExpr]. *)
Definition time_operator (mode : jsstr) : string :=
  if mode === MATCH_GTE then ">=" else if mode === MATCH_LT then "<" else "==".

Definition buildTimeConditionExpr (c : partial_condition) : jsstr :=
  match normalizeCondition c with
  | TimeCondition timeFunc timezone mode value rangeStart rangeEnd =>
      let fn := js (time_func_name timeFunc) ++ [LPAREN] ++ json_string timezone ++ [RPAREN] in
      if mode === MATCH_RANGE then
        let s := trim rangeStart in
        let e := trim rangeEnd in
        if negb (isTimeValueInRange timeFunc s) || negb (isTimeValueInRange timeFunc e) then []
        else if num_ltb (js_Number e) (js_Number s)
        then fn ++ js " >= " ++ s ++ js " || " ++ fn ++ js " < " ++ e
        else fn ++ js " >= " ++ s ++ js " && " ++ fn ++ js " < " ++ e
      else
        let v := trim value in
        if negb (isTimeValueInRange timeFunc v) then []
        else fn ++ [32] ++ js (time_operator mode) ++ [32] ++ v
  | ParamHeaderCondition _ _ _ _ => []
  end.

(** [opMap] of [buildRequestConditionExpr]. *)
Definition compare_operator (mode : jsstr) : option string :=
  if mode === MATCH_GT then Some ">"%string
  else if mode === MATCH_GTE then Some ">="%string
  else if mode === MATCH_LT then Some "<"%string
  else if mode === MATCH_LTE then Some "<="%string else None.

Definition buildRequestConditionExpr (c : request_condition) : jsstr :=
  match normalizeCondition (partial_of c) with
  | TimeCondition _ _ _ _ _ _ => buildTimeConditionExpr (partial_of c)
  | ParamHeaderCondition source path0 mode value =>
      let path := trim path0 in
      if negb (truthy path) then []
      else
        let sourceExpr := js (source_name source) ++ [LPAREN] ++ json_string path ++ [RPAREN] in
        let literal := buildExprLiteral mode value in
        if mode === MATCH_EXISTS then
          match source with
          | SHeader => sourceExpr ++ js " != " ++ [QUOTE; QUOTE]
          | SParam => sourceExpr ++ js " != nil"
          end
        else if mode === MATCH_CONTAINS then
          match source with
          | SHeader => js "has(" ++ sourceExpr ++ js ", " ++ literal ++ [RPAREN]
          | SParam => sourceExpr ++ js " != nil && has(" ++ sourceExpr ++ js ", " ++ literal ++ [RPAREN]
          end
        else match compare_operator mode with
             | Some op =>
                 let numText := trim value in
                 if negb (NUMERIC_LITERAL_REGEX numText) then []
                 else sourceExpr ++ js " != nil && " ++ sourceExpr ++ [32] ++ js op ++ [32] ++ numText
             | None => sourceExpr ++ js " == " ++ literal
             end
  end.

Definition buildRuleGroupFactor (group : rule_group) : jsstr :=
  let m := trim (multiplier group) in
  if negb (NUMERIC_LITERAL_REGEX m) then []
  else
    let condExprs := List.filter truthy (map buildRequestConditionExpr (conditions group)) in
    match condExprs with
    | [] => []
    | _ =>
        let combined :=
          match condExprs with
          | [e] => e
          | _ => join (js " && ")
                   (map (fun e => if includes (js " || ") e then [LPAREN] ++ e ++ [RPAREN] else e)
                      condExprs)
          end in
        [LPAREN] ++ combined ++ js " ? " ++ m ++ js " : 1)"
    end.

Definition buildRequestRuleExpr (groups : list rule_group) : jsstr :=
  join (js " * ") (List.filter truthy (map buildRuleGroupFactor groups)).
