(* ===== verification/RequestFacts.v ===== *)
(** Theorems on the request rules: rules written by the editor are read back as they
    were, and what falls outside of that. *)
From Stdlib Require Import ZArith Lia Bool String.
From stdpp Require Import base list option.
From S2P Require Import Prelude JsString JsNumber Types JsValue Compile Json Structure RequestRules.

#[local] Open Scope Z_scope.

(** * Matching *)

Lemma strip_app p s : strip p (p ++ s) = Some s.
Proof. induction p as [|x p IH]; simpl; [by destruct s|]. by rewrite Z.eqb_refl. Qed.

Lemma strip_self p : strip p p = Some [].
Proof. rewrite <- (app_nil_r p) at 2. apply strip_app. Qed.

Lemma strip_app_l p q s : strip (p ++ q) (p ++ s) = strip q s.
Proof. induction p as [|x p IH]; simpl; [done|]. by rewrite Z.eqb_refl. Qed.

(** A run of a class up to a character outside of it. *)
Lemma span_stop {A} (p : A -> bool) w r :
  Forall (fun c => p c = true) w -> match r with c :: _ => p c = false | [] => True end ->
  span p (w ++ r) = (w, r).
Proof.
  intros Hw Hr. induction Hw as [|c w Hc _ IH]; simpl.
  - destruct r as [|c r]; simpl; [done|]. by rewrite Hr.
  - by rewrite Hc, IH.
Qed.

(** A text that [JSON.stringify] only puts in quotes. *)
Definition plain (w : jsstr) : bool :=
  truthy w && forallb (fun c => negb (c =? QUOTE) && negb (c =? BACKSLASH)) w && str_eqb (json_body w) w.

Lemma plain_spec w : plain w = true ->
  w <> [] /\ Forall (fun c => negb (c =? QUOTE) = true) w /\
  Forall (fun c => c <> QUOTE /\ c <> BACKSLASH) w /\ json_string w = [QUOTE] ++ w ++ [QUOTE].
Proof.
  unfold plain. intros H. bools. apply str_eqb_eq in H0.
  rewrite forallb_forall, <- List.Forall_forall in H1.
  repeat split.
  - by destruct w.
  - eapply Forall_impl; [|exact H1]. simpl. intros c Hc. by apply andb_true_iff in Hc as [-> _].
  - eapply Forall_impl; [|exact H1]. simpl. intros c Hc. bools. done.
  - unfold json_string. by rewrite H0.
Qed.

(** The text of a call on a string. *)
Definition call_of (name : string) (w : jsstr) : jsstr :=
  js name ++ [LPAREN] ++ json_string w ++ [RPAREN].

Lemma call_of_text name w : plain w = true -> call_of name w = call_text name w.
Proof.
  intros H. apply plain_spec in H as (_ & _ & _ & H). unfold call_of, call_text. by rewrite H, <- !app_assoc.
Qed.

Lemma until_quote_app w s : plain w = true -> until_quote (w ++ QUOTE :: s) = Some (w, s).
Proof.
  intros H. apply plain_spec in H as (Hne & Hq & _). unfold until_quote.
  rewrite span_stop by done. by destruct w.
Qed.

Lemma match_call_ok name w s : plain w = true ->
  match_call name (call_text name w ++ s) = Some (w, s).
Proof.
  intros H. unfold match_call, call_text.
  replace ((js name ++ [LPAREN; QUOTE] ++ w ++ [QUOTE; RPAREN]) ++ s)
    with ((js name ++ [LPAREN; QUOTE]) ++ w ++ QUOTE :: RPAREN :: s) by (by rewrite <- !app_assoc).
  by rewrite strip_app, until_quote_app.
Qed.

(** Two texts in quotes are told apart at their quotes. *)
Lemma strip_quoted a b x y :
  Forall (fun c => c <> QUOTE /\ c <> BACKSLASH) a -> Forall (fun c => c <> QUOTE /\ c <> BACKSLASH) b ->
  strip (a ++ QUOTE :: x) (b ++ QUOTE :: y) = if str_eqb a b then strip x y else None.
Proof.
  intros Ha. revert b. induction Ha as [|c a [Hc _] _ IH]; intros b Hb.
  - destruct Hb as [|d b [Hd _] _]; [done|]. cbn [app strip str_eqb].
    rewrite (proj2 (Z.eqb_neq _ _)); done.
  - destruct Hb as [|d b [Hd _] Hb]; cbn [app strip str_eqb].
    + by rewrite (proj2 (Z.eqb_neq _ _)).
    + destruct (c =? d); [by apply IH|done].
Qed.

(** ** Numbers *)

Lemma span_digits_rest s : forall ds r, span is_digit s = (ds, r) ->
  s = ds ++ r /\ Forall (fun c => is_number_char c = true) ds.
Proof.
  intros ds r E. pose proof (span_app is_digit s) as H. pose proof (span_forall is_digit s) as Hd.
  rewrite E in H, Hd. simpl in *. split; [done|]. eapply Forall_impl; [|exact Hd].
  intros c Hc. unfold is_number_char. by rewrite Hc.
Qed.

Lemma digits_number_chars s : forallb is_digit s = true -> Forall (fun c => is_number_char c = true) s.
Proof.
  rewrite forallb_forall, <- List.Forall_forall. apply Forall_impl. intros c Hc.
  unfold is_number_char. by rewrite Hc.
Qed.

Lemma number_char_eqb c k : (c =? k) = true -> is_number_char k = true -> is_number_char c = true.
Proof. intros H ?. bools. by subst. Qed.

Lemma numeric_exponent_chars s : numeric_exponent s = true -> Forall (fun c => is_number_char c = true) s.
Proof.
  destruct s as [|c r]; [constructor|]. cbn [numeric_exponent]. intros H. bools.
  constructor; [apply orb_true_iff in H as [H|H]; by eapply number_char_eqb|].
  destruct r as [|x r]; [done|].
  destruct ((x =? 43) || (x =? 45)) eqn:Ex; [|by apply digits_number_chars].
  constructor; [|by apply digits_number_chars].
  apply orb_true_iff in Ex as [Ex|Ex]; by eapply number_char_eqb.
Qed.

(** A numeric literal is not empty and has only characters of the class. *)
Lemma numeric_literal_chars s : NUMERIC_LITERAL_REGEX s = true ->
  s <> [] /\ Forall (fun c => is_number_char c = true) s.
Proof.
  intros H. split; [by intros ->|]. unfold NUMERIC_LITERAL_REGEX in H.
  set (s1 := match s with c :: r => if c =? 45 then r else s | [] => s end) in H.
  assert (Hs : Forall (fun c => is_number_char c = true) s1 -> Forall (fun c => is_number_char c = true) s).
  { unfold s1. destruct s as [|c r]; [done|]. destruct (c =? 45) eqn:E; [|done].
    intros Hr. constructor; [by eapply number_char_eqb|done]. }
  apply Hs. clear Hs. clearbody s1. destruct (span is_digit s1) as [ds r] eqn:E.
  apply span_digits_rest in E as [-> Hd]. apply Forall_app. split; [done|].
  assert (Hpoint : forall c r', c :: r' = r -> (c =? 46) = true ->
            numeric_exponent (span is_digit r').2 = true -> Forall (fun c => is_number_char c = true) r).
  { intros c r' <- Hc Hx. constructor; [by eapply number_char_eqb|].
    destruct (span is_digit r') as [fs r''] eqn:E. apply span_digits_rest in E as [-> Hf].
    apply Forall_app. split; [done|by apply numeric_exponent_chars]. }
  destruct ds as [|d ds]; destruct r as [|c r']; try done.
  - bools. destruct (span is_digit r') as [fs r''] eqn:E. bools. eapply Hpoint; [done|by apply Z.eqb_eq|by rewrite E].
  - destruct (c =? 46) eqn:Ec; [by eapply Hpoint|by apply numeric_exponent_chars].
Qed.

Lemma number_char_space c : is_number_char c = true -> is_space c = false.
Proof.
  unfold is_number_char, is_digit. intros H.
  assert (Hc : 43 <= c <= 101 /\ c <> 160) by
    (repeat (apply orb_true_iff in H as [H|H]); bools; lia).
  unfold is_space. repeat (apply orb_false_iff; split); try apply andb_false_iff;
    try (apply Z.eqb_neq; lia); first [left; apply Z.leb_gt; lia | right; apply Z.leb_gt; lia].
Qed.

Lemma number_chars_app v r :
  v <> [] -> Forall (fun c => is_number_char c = true) v ->
  match r with c :: _ => is_number_char c = false | [] => True end ->
  number_chars (v ++ r) = Some (v, r).
Proof. intros Hne Hv Hr. unfold number_chars. rewrite span_stop by done. by destruct v. Qed.

(** A value accepted for a time function. *)
Lemma time_value_spec f v : isTimeValueInRange f v = true ->
  v <> [] /\ Forall (fun c => is_number_char c = true) v /\ trim v = v.
Proof.
  unfold isTimeValueInRange. intros H. apply andb_true_iff in H as [H _].
  apply numeric_literal_chars in H as [Hne Hv]. repeat split; [done|done|].
  apply trim_plain. eapply Forall_impl; [|exact Hv]. apply number_char_space.
Qed.

(** * Texts of time conditions *)

Abbreviation time_call f tz := (call_text (time_func_name f) tz).

Lemma match_call_other f g tz s : f <> g ->
  match_call (time_func_name g) (time_call f tz ++ s) = None.
Proof. intros H. destruct f, g; done || reflexivity. Qed.

Lemma match_time_call_ok f tz s : plain tz = true ->
  match_time_call TIME_FUNCS (time_call f tz ++ s) = Some (f, tz, s).
Proof.
  intros H. unfold TIME_FUNCS. cbn [match_time_call].
  destruct f; do 5 first [rewrite match_call_ok by done; done | rewrite match_call_other by done].
Qed.

(** The rest of a text after a number: at its end or at a character outside numbers. *)
Definition number_ends (r : jsstr) : Prop :=
  match r with c :: _ => is_number_char c = false | [] => True end.

Definition range_text (f : time_func) (tz a joiner b : jsstr) : jsstr :=
  time_call f tz ++ js " >= " ++ a ++ joiner ++ time_call f tz ++ js " < " ++ b.

Definition scalar_text (f : time_func) (tz : jsstr) (op : string) (v : jsstr) : jsstr :=
  time_call f tz ++ [32] ++ js op ++ [32] ++ v.

(** What [match_time_range] makes of the text of a range and what follows it. *)
Lemma match_range_text f tz a joiner b r final :
  plain tz = true -> isTimeValueInRange f a = true -> isTimeValueInRange f b = true ->
  joiner = js " && " \/ joiner = js " || " -> number_ends r ->
  match_time_range final (range_text f tz a joiner b ++ r)
  = if str_eqb r final then Some (f, tz, a, b) else None.
Proof.
  intros Htz Ha Hb Hj Hr. apply time_value_spec in Ha as (Ha0 & Ha & _), Hb as (Hb0 & Hb & _).
  unfold match_time_range, range_text. rewrite <- !app_assoc, match_time_call_ok, strip_app by done.
  rewrite number_chars_app; [|done|done|by destruct Hj as [-> | ->]].
  assert (E : match strip (js " && ") (joiner ++ time_call f tz ++ js " < " ++ b ++ r) with
              | Some r => Some r
              | None => strip (js " || ") (joiner ++ time_call f tz ++ js " < " ++ b ++ r)
              end = Some (time_call f tz ++ js " < " ++ b ++ r)).
  { by destruct Hj as [-> | ->]. }
  rewrite E. replace (time_call f tz ++ js " < " ++ b ++ r)
    with ((time_call f tz ++ js " < ") ++ b ++ r) by (by rewrite <- !app_assoc).
  by rewrite strip_app, number_chars_app.
Qed.

(** The modes of a bound and how they are written. *)
Definition scalar_mode (op : string) : option string :=
  match op with
  | "==" => Some MATCH_EQ | ">=" => Some MATCH_GTE | "<" => Some MATCH_LT | _ => None
  end%string.

Lemma match_scalar_text f tz op mode v r :
  plain tz = true -> isTimeValueInRange f v = true -> number_ends r ->
  (op, mode) ∈ [("==", MATCH_EQ); (">=", MATCH_GTE); ("<", MATCH_LT)]%string ->
  match_time_scalar (scalar_text f tz op v ++ r)
  = match r with [] => Some (f, tz, mode, v) | _ => None end.
Proof.
  intros Htz Hv Hr Hop. apply time_value_spec in Hv as (Hv0 & Hv & _).
  unfold match_time_scalar, scalar_text. rewrite <- !app_assoc, match_time_call_ok by done.
  cbn [app]. change (strip [32] (32 :: js op ++ 32 :: v ++ r)) with (Some (js op ++ 32 :: v ++ r)).
  assert (E : match_operator [("==", MATCH_EQ); (">=", MATCH_GTE); ("<", MATCH_LT)]%string
                (js op ++ 32 :: v ++ r) = Some (mode, v ++ r)).
  { rewrite !elem_of_cons in Hop.
    destruct Hop as [[= -> ->]|[[= -> ->]|[[= -> ->]|Hop]]]; [..|by apply not_elem_of_nil in Hop];
      cbn [match_operator]; first [reflexivity|idtac]. }
  cbv beta iota. rewrite E, number_chars_app by done. by destruct r.
Qed.

(** Reading the text of a bound: the condition of one bound. *)
Lemma time_scalar_read f tz op mode v :
  plain tz = true -> isTimeValueInRange f v = true ->
  (op, mode) ∈ [("==", MATCH_EQ); (">=", MATCH_GTE); ("<", MATCH_LT)]%string ->
  tryParseTimeCondition (scalar_text f tz op v) = Some (TimeCondition f tz (js mode) v [] []).
Proof.
  intros Htz Hv Hop. pose proof (time_value_spec f v Hv) as (Hv0 & Hn & _).
  assert (E1 : match_time_range [] (scalar_text f tz op v) = None).
  { unfold match_time_range, scalar_text. rewrite match_time_call_ok by done.
    rewrite !elem_of_cons in Hop.
    destruct Hop as [[= -> ->]|[[= -> ->]|[[= -> ->]|Hop]]]; [done| |done|by apply not_elem_of_nil in Hop].
    change ([32] ++ js ">=" ++ [32] ++ v) with (js " >= " ++ v). rewrite strip_app.
    rewrite <- (app_nil_r v), number_chars_app by done. done. }
  assert (E2 : strip [LPAREN] (scalar_text f tz op v) = None) by (by destruct f).
  unfold tryParseTimeCondition. rewrite E1, E2.
  pose proof (match_scalar_text f tz op mode v [] Htz Hv I Hop) as E. rewrite app_nil_r in E.
  by rewrite E, Hv.
Qed.

(** Reading the text of a range, in parentheses or not. *)
Lemma time_range_read f tz a joiner b :
  plain tz = true -> isTimeValueInRange f a = true -> isTimeValueInRange f b = true ->
  joiner = js " && " \/ joiner = js " || " ->
  let c := TimeCondition f tz (js MATCH_RANGE) [] a b in
  tryParseTimeCondition (range_text f tz a joiner b) = Some c /\
  tryParseTimeCondition ([LPAREN] ++ range_text f tz a joiner b ++ [RPAREN]) = Some c.
Proof.
  intros Htz Ha Hb Hj. cbv zeta. unfold tryParseTimeCondition. split.
  - pose proof (match_range_text f tz a joiner b [] [] Htz Ha Hb Hj I) as E. rewrite app_nil_r in E.
    rewrite E. simpl. by rewrite Ha, Hb.
  - assert (E1 : match_time_range [] ([LPAREN] ++ range_text f tz a joiner b ++ [RPAREN]) = None)
      by reflexivity.
    assert (E2 : strip [LPAREN] ([LPAREN] ++ range_text f tz a joiner b ++ [RPAREN])
                 = Some (range_text f tz a joiner b ++ [RPAREN])) by (by rewrite strip_app).
    rewrite E1, E2, match_range_text by done. simpl. by rewrite Ha, Hb.
Qed.

(** The text of a time condition followed by another condition is not one. *)
Lemma time_scalar_more f tz op mode v r :
  plain tz = true -> isTimeValueInRange f v = true ->
  (op, mode) ∈ [("==", MATCH_EQ); (">=", MATCH_GTE); ("<", MATCH_LT)]%string ->
  (op = ">="%string -> strip (time_call f tz ++ js " < ") r = None) ->
  tryParseTimeCondition (scalar_text f tz op v ++ js " && " ++ r) = None.
Proof.
  intros Htz Hv Hop Hr. pose proof (time_value_spec f v Hv) as (Hv0 & Hn & _).
  assert (E1 : match_time_range [] (scalar_text f tz op v ++ js " && " ++ r) = None).
  { unfold match_time_range, scalar_text. rewrite <- !app_assoc, match_time_call_ok by done.
    rewrite !elem_of_cons in Hop.
    destruct Hop as [[= -> ->]|[[= -> ->]|[[= -> ->]|Hop]]]; [done| |done|by apply not_elem_of_nil in Hop].
    change ([32] ++ js ">=" ++ [32] ++ v ++ js " && " ++ r) with (js " >= " ++ v ++ js " && " ++ r).
    rewrite strip_app, number_chars_app by done. rewrite strip_app. by rewrite Hr. }
  assert (E2 : strip [LPAREN] (scalar_text f tz op v ++ js " && " ++ r) = None) by (by destruct f).
  unfold tryParseTimeCondition. rewrite E1, E2. by rewrite (match_scalar_text f tz op mode v).
Qed.

Lemma time_range_more f tz a joiner b r :
  plain tz = true -> isTimeValueInRange f a = true -> isTimeValueInRange f b = true ->
  joiner = js " && " \/ joiner = js " || " ->
  tryParseTimeCondition (range_text f tz a joiner b ++ js " && " ++ r) = None /\
  tryParseTimeCondition (([LPAREN] ++ range_text f tz a joiner b ++ [RPAREN]) ++ js " && " ++ r) = None.
Proof.
  intros Htz Ha Hb Hj. unfold tryParseTimeCondition. split.
  - rewrite match_range_text by done. change (str_eqb (js " && " ++ r) []) with false. cbv iota.
    assert (E2 : strip [LPAREN] (range_text f tz a joiner b ++ js " && " ++ r) = None) by (by destruct f).
    rewrite E2.
    assert (E : range_text f tz a joiner b ++ js " && " ++ r = scalar_text f tz ">=" a ++
              (joiner ++ time_call f tz ++ js " < " ++ b ++ js " && " ++ r)).
    { unfold range_text, scalar_text. rewrite <- !app_assoc. done. }
    rewrite E, (match_scalar_text f tz ">=" MATCH_GTE a);
      [by destruct Hj as [-> | ->]|done|done|by destruct Hj as [-> | ->]|].
    rewrite !elem_of_cons. auto.
  - rewrite <- !app_assoc. cbn [app].
    assert (E1 : forall t, match_time_range [] (LPAREN :: t) = None) by reflexivity.
    assert (E2 : forall t, strip [LPAREN] (LPAREN :: t) = Some t) by (intros t; apply (strip_app [LPAREN])).
    assert (E3 : forall t, match_time_scalar (LPAREN :: t) = None) by reflexivity.
    rewrite E1, E2, E3, match_range_text by done. done.
Qed.

(** * Conditions that are read back *)

(** Values that the editor can hold and that are written without loss: bounds in the
    domain of their function, texts without white space around them, names that need
    no escape; the modes of a parameter are [eq] and [exists]. *)
Definition is_unit (c : Z) : bool := (0 <=? c) && (c <? 65536).

Definition canonical_condition (c : request_condition) : bool :=
  match c with
  | TimeCondition f tz mode v a b =>
      plain tz &&
      (if mode === MATCH_RANGE
       then negb (truthy v) && isTimeValueInRange f a && isTimeValueInRange f b
       else one_of mode [MATCH_EQ; MATCH_GTE; MATCH_LT] && isTimeValueInRange f v
            && negb (truthy a) && negb (truthy b))
  | ParamHeaderCondition src path mode value =>
      plain path && str_eqb (trim path) path &&
      (if mode === MATCH_EXISTS then negb (truthy value)
       else str_eqb (trim value) value && forallb is_unit value &&
            (if mode === MATCH_CONTAINS then match src with SHeader => true | SParam => false end
             else (mode === MATCH_EQ) && forallb (fun c => negb ((c =? 8232) || (c =? 8233))) value))
  end.

Definition exists_suffix (src : rule_source) : jsstr :=
  match src with SHeader => js " != " ++ [QUOTE; QUOTE] | SParam => js " != nil" end.

Definition joiner_of (overnight : bool) : jsstr := if overnight then js " || " else js " && ".

Definition scalar_modes : list (string * string) :=
  [("==", MATCH_EQ); (">=", MATCH_GTE); ("<", MATCH_LT)]%string.

(** The text of a canonical condition. *)
Inductive condition_written : request_condition -> jsstr -> Prop :=
| ct_scalar f tz op mode v :
    plain tz = true -> isTimeValueInRange f v = true -> (op, mode) ∈ scalar_modes ->
    condition_written (TimeCondition f tz (js mode) v [] []) (scalar_text f tz op v)
| ct_range f tz a b :
    plain tz = true -> isTimeValueInRange f a = true -> isTimeValueInRange f b = true ->
    condition_written (TimeCondition f tz (js MATCH_RANGE) [] a b)
      (range_text f tz a (joiner_of (num_ltb (js_Number b) (js_Number a))) b)
| ct_exists src path :
    plain path = true ->
    condition_written (ParamHeaderCondition src path (js MATCH_EXISTS) [])
      (call_text (source_name src) path ++ exists_suffix src)
| ct_contains path v :
    plain path = true -> Forall code_unit v ->
    condition_written (ParamHeaderCondition SHeader path (js MATCH_CONTAINS) v)
      (js "has(" ++ call_text "header" path ++ js ", " ++ json_string v ++ [RPAREN])
| ct_equals src path v :
    plain path = true -> trim v = v -> Forall code_unit v -> Forall (fun c => c <> 8232 /\ c <> 8233) v ->
    condition_written (ParamHeaderCondition src path (js MATCH_EQ) v)
      (call_text (source_name src) path ++ js " == " ++ buildExprLiteral (js MATCH_EQ) v).

Lemma negb_truthy s : negb (truthy s) = true -> s = [].
Proof. by destruct s. Qed.

Lemma code_units s : forallb is_unit s = true -> Forall code_unit s.
Proof.
  rewrite forallb_forall, <- List.Forall_forall. apply Forall_impl. unfold is_unit, code_unit.
  intros c Hc. bools. lia.
Qed.

Lemma normalize_time f tz m v a b : plain tz = true -> one_of m [MATCH_EQ; MATCH_GTE; MATCH_LT; MATCH_RANGE] = true ->
  normalizeCondition (partial_of (TimeCondition f tz m v a b)) = TimeCondition f tz m v a b.
Proof.
  intros Htz Hm. apply plain_spec in Htz as (Htz & _). unfold normalizeCondition, partial_of.
  cbn [p_source p_timeFunc p_timezone p_mode p_value p_rangeStart p_rangeEnd to_text].
  change (js "time" === "time") with true. cbv iota.
  change (getRequestRuleMatchOptions (js "time")) with [MATCH_EQ; MATCH_GTE; MATCH_LT; MATCH_RANGE].
  unfold mode_or. rewrite Hm. unfold or_text. destruct tz; [done|]. simpl truthy. cbv iota.
  destruct f; reflexivity.
Qed.

Lemma canonical_text_time f tz m v a b :
  canonical_condition (TimeCondition f tz m v a b) = true ->
  condition_written (TimeCondition f tz m v a b) (buildRequestConditionExpr (TimeCondition f tz m v a b)).
Proof.
  intros H. cbn [canonical_condition] in H. apply andb_true_iff in H as [Htz H].
  assert (Hm : one_of m [MATCH_EQ; MATCH_GTE; MATCH_LT; MATCH_RANGE] = true /\
               if m === MATCH_RANGE then m = js MATCH_RANGE
               else exists op mode, m = js mode /\ (op, mode) ∈ scalar_modes /\ time_operator m = op).
  { destruct (m === MATCH_RANGE) eqn:E.
    - apply str_eqb_eq in E as ->. done.
    - bools. apply one_of_In in H as (t & Ht & ->). unfold scalar_modes.
      destruct Ht as [<-|[<-|[<-|[]]]]; (split; [done|]); eexists _, _; (split; [done|]);
        (split; [|reflexivity]); rewrite !elem_of_cons; auto. }
  destruct Hm as [Hm Hcase]. unfold buildRequestConditionExpr, buildTimeConditionExpr.
  rewrite normalize_time by done.
  rewrite (proj2 (proj2 (proj2 (plain_spec tz Htz)))).
  destruct (m === MATCH_RANGE) eqn:Er.
  - subst m. apply andb_true_iff in H as [H Hb]. apply andb_true_iff in H as [Hv Ha].
    apply negb_truthy in Hv as ->.
    pose proof (time_value_spec f a Ha) as (_ & _ & Ta). pose proof (time_value_spec f b Hb) as (_ & _ & Tb).
    rewrite Ta, Tb, Ha, Hb. cbn [negb orb].
    pose proof (ct_range f tz a b Htz Ha Hb) as C. unfold range_text, call_text, joiner_of in C.
    revert C. rewrite <- !app_assoc. by destruct (num_ltb (js_Number b) (js_Number a)).
  - destruct Hcase as (op & mode & -> & Hin & ->).
    apply andb_true_iff in H as [H Hb]. apply andb_true_iff in H as [H Ha].
    apply andb_true_iff in H as [_ Hv]. apply negb_truthy in Ha as ->, Hb as ->.
    pose proof (time_value_spec f v Hv) as (_ & _ & Tv). rewrite Tv, Hv. cbn [negb].
    pose proof (ct_scalar f tz op mode v Htz Hv Hin) as C. unfold scalar_text, call_text in C.
    revert C. rewrite <- !app_assoc. done.
Qed.

Lemma normalize_param_header src path m v :
  one_of m [MATCH_EQ; MATCH_CONTAINS; MATCH_EXISTS] = true ->
  normalizeCondition (partial_of (ParamHeaderCondition src path m v)) = ParamHeaderCondition src path m v.
Proof.
  intros Hm. apply one_of_In in Hm as (t & Ht & ->).
  assert (E : or_text (Some path) [] = path) by (by destruct path).
  unfold normalizeCondition, partial_of. cbn [p_source p_path p_mode p_value to_text]. rewrite E.
  destruct Ht as [<-|[<-|[<-|[]]]]; by destruct src.
Qed.

Lemma canonical_text_param_header src path m v :
  canonical_condition (ParamHeaderCondition src path m v) = true ->
  condition_written (ParamHeaderCondition src path m v)
    (buildRequestConditionExpr (ParamHeaderCondition src path m v)).
Proof.
  intros H. cbn [canonical_condition] in H. apply andb_true_iff in H as [Hp H].
  apply andb_true_iff in Hp as [Hp Ht]. apply str_eqb_eq in Ht.
  pose proof (plain_spec path Hp) as (Hne & _ & _ & Hj).
  assert (Hcall : js (source_name src) ++ [LPAREN] ++ json_string path ++ [RPAREN]
                  = call_text (source_name src) path).
  { unfold call_text. rewrite Hj. by rewrite <- !app_assoc. }
  assert (Htr : negb (truthy path) = false) by (by destruct path).
  unfold buildRequestConditionExpr.
  destruct (m === MATCH_EXISTS) eqn:E1.
  { apply str_eqb_eq in E1 as ->. apply negb_truthy in H as ->.
    rewrite normalize_param_header by done. cbv zeta. rewrite Ht, Htr, Hcall.
    pose proof (ct_exists src path Hp) as C. by destruct src. }
  apply andb_true_iff in H as [Hv H]. apply andb_true_iff in Hv as [Hv Hu]. apply str_eqb_eq in Hv.
  apply code_units in Hu.
  destruct (m === MATCH_CONTAINS) eqn:E2.
  { apply str_eqb_eq in E2 as ->. destruct src; [done|].
    rewrite normalize_param_header by done. cbv zeta. rewrite Ht, Htr, Hcall.
    pose proof (ct_contains path v Hp Hu) as C. unfold buildExprLiteral. by rewrite Hv. }
  apply andb_true_iff in H as [E3 Hl]. apply str_eqb_eq in E3 as ->.
  rewrite normalize_param_header by done. cbv zeta. rewrite Ht, Htr, Hcall.
  apply (ct_equals src path v); [done..|].
  rewrite forallb_forall, <- List.Forall_forall in Hl. eapply Forall_impl; [|exact Hl].
  simpl. intros c Hc. bools. done.
Qed.

Lemma canonical_text c : canonical_condition c = true -> condition_written c (buildRequestConditionExpr c).
Proof. destruct c; [apply canonical_text_time|apply canonical_text_param_header]. Qed.

(** ** Literals *)

Lemma quoted_body_units l r : Forall json_unit l ->
  quoted_body (concat l ++ QUOTE :: r) = Some (concat l ++ [QUOTE], r).
Proof.
  assert (Hhex : forall h, is_hex h = true -> (h =? QUOTE) = false /\ (h =? BACKSLASH) = false).
  { intros h. unfold is_hex, is_digit, QUOTE, BACKSLASH. intros H. rewrite !Z.eqb_neq.
    repeat (apply orb_true_iff in H as [H|H]); bools; lia. }
  induction 1 as [|u l Hu _ IH]; [done|]. simpl concat. rewrite <- !app_assoc.
  destruct Hu as [(c & -> & Hq & Hb & _)|[(e & c & -> & He)|(a & b & x & y & -> & Hx)]].
  - apply Z.eqb_neq in Hq, Hb. cbn [app quoted_body]. by rewrite Hq, Hb, IH.
  - assert (Hl : is_line_end e = false).
    { revert He. unfold json_escape. repeat case_match; intros [= <-] || intros ?; done. }
    cbn [app quoted_body]. change (BACKSLASH =? QUOTE) with false.
    change (BACKSLASH =? BACKSLASH) with true. cbv iota. by rewrite Hl, IH.
  - bools. destruct (Hhex a) as [A1 A2]; [done|]. destruct (Hhex b) as [B1 B2]; [done|].
    destruct (Hhex x) as [X1 X2]; [done|]. destruct (Hhex y) as [Y1 Y2]; [done|].
    cbn [app quoted_body]. change (BACKSLASH =? QUOTE) with false.
    change (BACKSLASH =? BACKSLASH) with true. change (is_line_end 117) with false. cbv iota.
    by rewrite A1, A2, B1, B2, X1, X2, Y1, Y2, IH.
Qed.

Lemma quoted_json v r : Forall code_unit v -> quoted (json_string v ++ r) = Some (json_string v, r).
Proof.
  intros Hv. destruct (json_body_units v Hv) as (l & E & Hl & _). unfold json_string.
  rewrite E. cbn [app quoted]. rewrite Z.eqb_refl, <- app_assoc. cbn [app].
  by rewrite (quoted_body_units l r Hl).
Qed.

Lemma json_string_ends v : truthy (json_string v) = true /\ trim (json_string v) = json_string v.
Proof.
  split; [done|]. unfold trim, json_string. cbn [trim_start]. change (is_space QUOTE) with false. cbv iota.
  change (QUOTE :: json_body v ++ [QUOTE]) with ([QUOTE] ++ json_body v ++ [QUOTE]).
  rewrite !rev_app_distr. cbn [rev app trim_start]. change (is_space QUOTE) with false. cbv iota.
  simpl. rewrite rev_app_distr, rev_involutive. done.
Qed.

(** What the literal of an equality is read as. *)
Lemma equals_literal v : trim v = v -> Forall code_unit v -> Forall (fun c => c <> 8232 /\ c <> 8233) v ->
  let lit := buildExprLiteral (js MATCH_EQ) v in
  truthy lit = true /\ forallb (fun c => negb (is_line_end c)) lit = true /\
  exists w, parseExprLiteral lit = Some w /\ to_text w = v.
Proof.
  intros Ht Hu Hl. cbv zeta. unfold buildExprLiteral. rewrite Ht.
  change (js MATCH_EQ === MATCH_CONTAINS) with false. cbv iota.
  destruct ((v === "true") || (v === "false")) eqn:Eb.
  { assert (Hv : v = js "true" \/ v = js "false").
    { apply orb_true_iff in Eb as [E|E]; apply str_eqb_eq in E; auto. }
    destruct Hv as [-> | ->]; (split; [done|split; [done|eexists; split; [reflexivity|done]]]). }
  destruct (NUMERIC_LITERAL_REGEX v) eqn:En.
  - pose proof (numeric_literal_chars v En) as [Hne Hn].
    split; [by destruct v|]. split.
    + apply forallb_forall. rewrite <- List.Forall_forall. eapply Forall_impl; [|exact Hn].
      intros c Hc. apply number_char_space in Hc. revert Hc. unfold is_line_end, is_space, LF, CR.
      intros Hc. repeat (apply orb_false_iff in Hc as [Hc ?]). bools.
      apply negb_true_iff, orb_false_iff. split; [apply orb_false_iff; split; [apply orb_false_iff; split|]|];
        apply Z.eqb_neq; try done; intros ->; done.
    + unfold parseExprLiteral. rewrite Ht, Eb, En. by eexists.
  - destruct (json_string_ends v) as [H1 H2]. split; [done|]. split.
    + apply forallb_forall. intros c Hc. apply negb_true_iff. unfold json_string in Hc.
      destruct (json_body_units v Hu) as (l & _ & _ & Hin).
      assert (Hc' : (c ∈ v /\ 32 <= c) \/ 32 <= c < 128).
      { destruct Hc as [<-|Hc]; [right; unfold QUOTE; lia|]. apply in_app_iff in Hc as [Hc|[<-|[]]];
          [apply Hin; by apply list_elem_of_In|right; unfold QUOTE; lia]. }
      assert (Hn : c <> 8232 /\ c <> 8233 /\ 32 <= c).
      { destruct Hc' as [[Hv ?]|?]; [|lia]. rewrite Forall_elem in Hl. by destruct (Hl c Hv). }
      unfold is_line_end, LF, CR. rewrite !orb_false_iff, !Z.eqb_neq. lia.
    + unfold parseExprLiteral. rewrite H2.
      assert (E1 : (json_string v === "true") || (json_string v === "false") = false) by reflexivity.
      assert (E2 : NUMERIC_LITERAL_REGEX (json_string v) = false) by reflexivity.
      rewrite E1, E2, json_string_parse by done. by eexists.
Qed.

(** * Reading a condition *)

Definition is_time (c : request_condition) : bool :=
  match c with TimeCondition _ _ _ _ _ _ => true | _ => false end.

(** No time condition starts like the others. *)
Lemma not_time_call src path r : tryParseTimeCondition (call_text (source_name src) path ++ r) = None.
Proof. by destruct src. Qed.
Lemma not_time_has r : tryParseTimeCondition (js "has(" ++ r) = None.
Proof. done. Qed.

Lemma joiner_cases o : joiner_of o = js " && " \/ joiner_of o = js " || ".
Proof. destruct o; auto. Qed.

Lemma time_condition_read c t : condition_written c t ->
  tryParseTimeCondition t = if is_time c then Some c else None.
Proof.
  destruct 1; cbn [is_time].
  - by apply time_scalar_read.
  - apply time_range_read; try done. apply joiner_cases.
  - apply not_time_call.
  - done.
  - apply not_time_call.
Qed.

Lemma match_exists_ok name w final : plain w = true ->
  match_exists name final (call_text name w ++ final) = Some w.
Proof. intros H. unfold match_exists. by rewrite match_call_ok, str_eqb_refl. Qed.

Lemma request_condition_read c t : condition_written c t -> tryParseRequestCondition t = Ok (Some c).
Proof.
  intros H. unfold tryParseRequestCondition. rewrite (time_condition_read c t H).
  destruct H as [| |src path Hp|path v Hp Hu|src path v Hp Ht Hu Hl]; [done|done|..]; cbn [is_time].
  - destruct src.
    + assert (E : match_exists "header" (js " != " ++ [QUOTE; QUOTE])
                    (call_text "param" path ++ js " != nil") = None) by reflexivity.
      unfold source_name, exists_suffix. by rewrite E, match_exists_ok.
    + unfold source_name, exists_suffix. by rewrite match_exists_ok.
  - set (t := js "has(" ++ call_text "header" path ++ js ", " ++ json_string v ++ [RPAREN]).
    assert (E1 : match_exists "header" (js " != " ++ [QUOTE; QUOTE]) t = None) by reflexivity.
    assert (E2 : match_exists "param" (js " != nil") t = None) by reflexivity.
    assert (E3 : match_header_contains t = Some (path, json_string v)).
    { unfold match_header_contains, t. by rewrite strip_app, match_call_ok, strip_app, quoted_json. }
    rewrite E1, E2, E3. unfold parse_quoted. by rewrite json_string_parse.
  - destruct (equals_literal v Ht Hu Hl) as (H1 & H2 & w & E & Hw). cbv zeta in *.
    set (lit := buildExprLiteral (js MATCH_EQ) v) in *.
    set (t := call_text (source_name src) path ++ js " == " ++ lit).
    assert (E1 : match_exists "header" (js " != " ++ [QUOTE; QUOTE]) t = None).
    { unfold t, match_exists. destruct src; [done|]. by rewrite match_call_ok. }
    assert (E2 : match_exists "param" (js " != nil") t = None).
    { unfold t, match_exists. destruct src; [|done]. by rewrite match_call_ok. }
    assert (E3 : match_header_contains t = None) by (by destruct src).
    assert (E4 : match_param_guard t = None).
    { unfold t, match_param_guard. destruct src; [|done]. by rewrite match_call_ok. }
    assert (E5 : match_equals t = Some (src, path, lit)).
    { unfold match_equals, t. destruct src.
      - unfold source_name. by rewrite match_call_ok, strip_app, H1, H2.
      - assert (En : forall r, match_call "param" (call_text "header" path ++ r) = None) by reflexivity.
        unfold source_name. by rewrite En, match_call_ok, strip_app, H1, H2. }
    unfold match_param_contains, match_param_compare. by rewrite E1, E2, E3, E4, E5, E, Hw.
Qed.

(** * Texts at top level and in parentheses *)

(** The operators a text of conditions is scanned for, at any depth. *)
Definition scanned (op : jsstr) (d : Z) : Prop := (op = js "&&" \/ op = js "*") /\ 0 <= d.

Lemma scanned_deeper op d : scanned op d -> scanned op (d + 1).
Proof. intros [H Hd]. split; [done|lia]. Qed.

(** Evaluate [calm] on fixed characters, at depth zero and deeper. *)
Ltac calm_cases H :=
  destruct H as [[-> | ->] _]; unfold calm;
  match goal with |- context [?d =? 0] => destruct (d =? 0) end; reflexivity.

(** Fixed texts are passed over. *)
Ltac calm_text H := apply neutral_calm; calm_cases H.

Lemma scanned_head op d : scanned op d -> operator_head op = true /\ 0 <= d.
Proof. by intros [[-> | ->] H]. Qed.

Lemma scan_units op l s t d : Forall json_unit l ->
  scan op (concat l ++ s) t d (Some QUOTE) false = scan op s t d (Some QUOTE) false.
Proof.
  assert (Hhex : forall h, is_hex h = true -> (h =? QUOTE) = false /\ (h =? BACKSLASH) = false).
  { intros h. unfold is_hex, is_digit, QUOTE, BACKSLASH. intros H. rewrite !Z.eqb_neq.
    repeat (apply orb_true_iff in H as [H|H]); bools; lia. }
  induction 1 as [|u l Hu _ IH]; [done|]. simpl concat. rewrite <- !app_assoc.
  destruct Hu as [(c & -> & Hq & Hb & _)|[(e & c & -> & He)|(a & b & x & y & -> & Hx)]].
  - apply Z.eqb_neq in Hq, Hb. cbn [app scan]. by rewrite Hq, Hb.
  - cbn [app scan]. change (BACKSLASH =? BACKSLASH) with true. done.
  - bools. destruct (Hhex a) as [A1 A2]; [done|]. destruct (Hhex b) as [B1 B2]; [done|].
    destruct (Hhex x) as [X1 X2]; [done|]. destruct (Hhex y) as [Y1 Y2]; [done|].
    cbn [app scan]. change (BACKSLASH =? BACKSLASH) with true. cbn [orb].
    rewrite A1, A2. cbn [orb negb]. rewrite B1, B2. cbn [orb negb]. rewrite X1, X2. cbn [orb negb].
    rewrite Y1, Y2. done.
Qed.

Lemma neutral_json op d v : Forall code_unit v -> neutral op d (json_string v).
Proof.
  intros Hv t. destruct (json_body_units v Hv) as (l & E & Hl & _). unfold json_string. rewrite E.
  cbn [scan]. change (is_quote QUOTE) with true. cbv iota. rewrite scan_units by done. done.
Qed.

Lemma neutral_number op d v : scanned op d -> Forall (fun c => is_number_char c = true) v ->
  neutral op d v.
Proof.
  intros H Hv. apply neutral_calm, forallb_forall. rewrite <- List.Forall_forall.
  eapply Forall_impl; [|exact Hv]. intros c Hc.
  assert (Hr : 43 <= c <= 57 \/ c = 69 \/ c = 101).
  { unfold is_number_char, is_digit in Hc. repeat (apply orb_true_iff in Hc as [Hc|Hc]); bools; lia. }
  assert (Hn : is_quote c = false /\ opens c = false /\ closes c = false /\ (c =? QUESTION) = false /\
               (38 =? c) = false /\ (42 =? c) = false).
  { unfold is_quote, opens, closes, QUOTE, APOS, QUESTION.
    rewrite !orb_false_iff, !Z.eqb_neq. lia. }
  destruct Hn as (N1 & N2 & N3 & N4 & N5 & N6). unfold calm. rewrite N1, N2, N3, N4. cbn [negb andb].
  destruct H as [[-> | ->] _]; [change (js "&&") with [38; 38]|change (js "*") with [42]]; cbv iota;
    rewrite ?N5, ?N6; by destruct (d =? 0).
Qed.

Lemma neutral_call op d name w : scanned op d -> forallb (calm op d) (js name) = true ->
  plain w = true -> neutral op d (call_text name w).
Proof.
  intros H Hn Hw. destruct (scanned_head op d H) as [Ho Hd].
  unfold call_text. apply neutral_app; [by apply neutral_calm|].
  change ([LPAREN; QUOTE] ++ w ++ [QUOTE; RPAREN]) with ([LPAREN] ++ [QUOTE] ++ w ++ [QUOTE; RPAREN]).
  replace ([LPAREN] ++ [QUOTE] ++ w ++ [QUOTE; RPAREN])
    with ([LPAREN] ++ ([QUOTE] ++ w ++ [QUOTE]) ++ [RPAREN]) by (by rewrite <- !app_assoc).
  apply neutral_paren; [done|done|]. apply neutral_quoted. by apply plain_spec in Hw as (_ & _ & Hw & _).
Qed.

Lemma calm_names op d : scanned op d ->
  (forall f, forallb (calm op d) (js (time_func_name f)) = true) /\
  (forall s, forallb (calm op d) (js (source_name s)) = true).
Proof.
  intros H. split; intros x; destruct x; calm_cases H.
Qed.

Lemma neutral_scalar op d f tz o m v : scanned op d -> plain tz = true ->
  isTimeValueInRange f v = true -> (o, m) ∈ scalar_modes -> neutral op d (scalar_text f tz o v).
Proof.
  intros H Htz Hv Ho. unfold scalar_text.
  apply neutral_app; [apply neutral_call; [done|by apply calm_names|done]|].
  rewrite !app_assoc. apply neutral_app.
  - unfold scalar_modes in Ho. rewrite !elem_of_cons in Ho.
    destruct Ho as [[= -> ->]|[[= -> ->]|[[= -> ->]|Ho]]]; [calm_text H..|by apply not_elem_of_nil in Ho].
  - apply neutral_number; [done|]. by apply time_value_spec in Hv as (_ & Hv & _).
Qed.

Lemma neutral_range op d f tz a b o : scanned op d -> 1 <= d -> plain tz = true ->
  isTimeValueInRange f a = true -> isTimeValueInRange f b = true ->
  neutral op d (range_text f tz a (joiner_of o) b).
Proof.
  intros H Hd Htz Ha Hb. apply time_value_spec in Ha as (_ & Ha & _), Hb as (_ & Hb & _).
  assert (Hc : neutral op d (time_call f tz)) by (apply neutral_call; [done|by apply (calm_names op d H)|done]).
  unfold range_text. apply neutral_app; [done|]. apply neutral_app; [calm_text H|].
  apply neutral_app; [by apply neutral_number|]. apply neutral_app.
  { apply neutral_calm. unfold calm. rewrite (proj2 (Z.eqb_neq d 0)) by lia. by destruct o. }
  apply neutral_app; [done|]. apply neutral_app; [calm_text H|by apply neutral_number].
Qed.

(** The literal of an equality. *)
Lemma neutral_literal op d v : scanned op d -> trim v = v -> Forall code_unit v ->
  neutral op d (buildExprLiteral (js MATCH_EQ) v).
Proof.
  intros H Ht Hu. unfold buildExprLiteral. rewrite Ht.
  change (js MATCH_EQ === MATCH_CONTAINS) with false. cbv iota.
  destruct ((v === "true") || (v === "false")) eqn:Eb.
  { apply orb_true_iff in Eb as [E|E]; apply str_eqb_eq in E as ->; calm_text H. }
  destruct (NUMERIC_LITERAL_REGEX v) eqn:En; [|by apply neutral_json].
  apply neutral_number; [done|]. by apply numeric_literal_chars.
Qed.

Lemma neutral_condition op d c t : scanned op d -> condition_written c t ->
  is_time c = false -> neutral op d t.
Proof.
  intros H Hc Hf. destruct (calm_names op d H) as [_ Hn].
  destruct Hc as [| |src path Hp|path v Hp Hu|src path v Hp Ht Hu Hl]; [done|done|..].
  - apply neutral_app; [by apply neutral_call|]. unfold exists_suffix. destruct src; [calm_text H|].
    apply neutral_app; [calm_text H|]. apply (neutral_quoted op d []). constructor.
  - destruct (scanned_head op d H) as [Ho Hd].
    replace (js "has(" ++ call_text "header" path ++ js ", " ++ json_string v ++ [RPAREN])
      with (js "has" ++ [LPAREN] ++ (call_text "header" path ++ js ", " ++ json_string v) ++ [RPAREN])
      by (by rewrite <- !app_assoc).
    apply neutral_app; [calm_text H|]. apply neutral_paren; [done|done|].
    apply scanned_deeper in H. apply neutral_app; [apply neutral_call; [done|apply (proj2 (calm_names _ _ H) SHeader)|done]|].
    apply neutral_app; [calm_text H|by apply neutral_json].
  - apply neutral_app; [by apply neutral_call|]. apply neutral_app; [calm_text H|by apply neutral_literal].
Qed.

(** * Several conditions *)

(** Texts that start and end with something other than white space. *)
Definition starts_tight (s : jsstr) : Prop := match s with c :: _ => is_space c = false | [] => False end.
Definition tight (s : jsstr) : Prop := starts_tight s /\ starts_tight (rev s).

Lemma starts_tight_app a b : starts_tight a -> starts_tight (a ++ b).
Proof. by destruct a. Qed.
Lemma tight_app a b c : starts_tight a -> starts_tight (rev c) -> tight (a ++ b ++ c).
Proof.
  intros Ha Hc. split; [by apply starts_tight_app|].
  rewrite !rev_app_distr, <- app_assoc. by apply starts_tight_app.
Qed.

Lemma tight_trim s : tight s -> trim s = s /\ truthy s = true.
Proof.
  intros [H1 H2]. split; [|by destruct s]. unfold trim.
  rewrite (trim_start_fixed s) by (by destruct s).
  rewrite trim_start_fixed by (by destruct (rev s)). apply rev_involutive.
Qed.

Lemma number_tight v : v <> [] -> Forall (fun c => is_number_char c = true) v -> starts_tight (rev v).
Proof.
  intros Hv Hn. apply List.Forall_rev in Hn. destruct (rev v) as [|c r] eqn:E.
  - apply (f_equal (@rev Z)) in E. rewrite rev_involutive in E. done.
  - apply list.Forall_cons in Hn as [Hc _]. by apply number_char_space.
Qed.

Lemma time_call_tight f tz : starts_tight (time_call f tz).
Proof. by destruct f. Qed.

Lemma scalar_tight f tz o v : isTimeValueInRange f v = true -> tight (scalar_text f tz o v).
Proof.
  intros Hv. apply time_value_spec in Hv as (Hv & Hn & _). unfold scalar_text.
  replace (time_call f tz ++ [32] ++ js o ++ [32] ++ v)
    with (time_call f tz ++ ([32] ++ js o ++ [32]) ++ v) by (by rewrite <- !app_assoc).
  apply tight_app; [apply time_call_tight|by apply number_tight].
Qed.

Lemma paren_tight s : tight ([LPAREN] ++ s ++ [RPAREN]).
Proof. by apply tight_app. Qed.

Lemma condition_tight c t : condition_written c t -> tight t.
Proof.
  destruct 1 as [f tz o m v Htz Hv _|f tz a b Htz Ha Hb|src path Hp|path v Hp Hu|src path v Hp Ht Hu Hl].
  - by apply scalar_tight.
  - apply time_value_spec in Hb as (Hb & Hn & _). unfold range_text. rewrite !app_assoc.
    rewrite <- (app_nil_l b), app_assoc, <- !app_assoc. rewrite !app_assoc.
    split; [|rewrite rev_app_distr; apply starts_tight_app; by apply number_tight].
    rewrite <- !app_assoc. apply starts_tight_app, time_call_tight.
  - split; [by destruct src|]. rewrite rev_app_distr. apply starts_tight_app. by destruct src.
  - change (js "has(" ++ ?x) with (js "has(" ++ x). rewrite !app_assoc, <- (app_nil_l [RPAREN]), app_assoc.
    split; [by rewrite <- !app_assoc|]. rewrite rev_app_distr. by apply starts_tight_app.
  - split; [by destruct src|]. rewrite !app_assoc, rev_app_distr. apply starts_tight_app.
    unfold buildExprLiteral. rewrite Ht. change (js MATCH_EQ === MATCH_CONTAINS) with false. cbv iota.
    destruct ((v === "true") || (v === "false")) eqn:Eb.
    { apply orb_true_iff in Eb as [E|E]; apply str_eqb_eq in E as ->; done. }
    destruct (NUMERIC_LITERAL_REGEX v) eqn:En.
    + apply numeric_literal_chars in En as [? ?]. by apply number_tight.
    + unfold json_string. change (QUOTE :: json_body v ++ [QUOTE]) with ((QUOTE :: json_body v) ++ [QUOTE]).
      rewrite rev_app_distr. done.
Qed.

(** The parts that the text of a condition has at top level, inside a group. *)
Inductive condition_pieces : request_condition -> list jsstr -> Prop :=
| cp_scalar f tz op mode v :
    plain tz = true -> isTimeValueInRange f v = true -> (op, mode) ∈ scalar_modes ->
    condition_pieces (TimeCondition f tz (js mode) v [] []) [scalar_text f tz op v]
| cp_day f tz a b :
    plain tz = true -> isTimeValueInRange f a = true -> isTimeValueInRange f b = true ->
    condition_pieces (TimeCondition f tz (js MATCH_RANGE) [] a b)
      [scalar_text f tz ">=" a; scalar_text f tz "<" b]
| cp_night f tz a b :
    plain tz = true -> isTimeValueInRange f a = true -> isTimeValueInRange f b = true ->
    condition_pieces (TimeCondition f tz (js MATCH_RANGE) [] a b)
      [[LPAREN] ++ range_text f tz a (js " || ") b ++ [RPAREN]]
| cp_other c t : condition_written c t -> is_time c = false -> condition_pieces c [t].

Lemma scalar_modes_in :
  (">=", MATCH_GTE)%string ∈ scalar_modes /\ ("<", MATCH_LT)%string ∈ scalar_modes.
Proof. unfold scalar_modes. rewrite !elem_of_cons. auto. Qed.

Lemma pieces_neutral c ps : condition_pieces c ps ->
  Forall (neutral (js "&&") 0) ps /\ Forall tight ps.
Proof.
  assert (H0 : scanned (js "&&") 0) by (split; [by left|done]).
  assert (H1 : scanned (js "&&") 1) by (split; [by left|done]).
  destruct scalar_modes_in as [M1 M2].
  destruct 1 as [f tz o m v Htz Hv Ho|f tz a b Htz Ha Hb|f tz a b Htz Ha Hb|c t Ht Hf].
  - split; (constructor; [|constructor]); [by eapply neutral_scalar|by apply scalar_tight].
  - split; (constructor; [|constructor; [|constructor]]);
      [by eapply neutral_scalar|by eapply neutral_scalar|by apply scalar_tight|by apply scalar_tight].
  - split; (constructor; [|constructor]); [|apply paren_tight].
    apply neutral_paren; [done|done|]. by apply (neutral_range _ _ f tz a b true).
  - split; (constructor; [|constructor]); [by eapply neutral_condition|by eapply condition_tight].
Qed.

(** A range that crosses midnight, the only one written with [||]. *)
Definition overnight (c : request_condition) : bool :=
  match c with
  | TimeCondition _ _ m _ a b => (m === MATCH_RANGE) && num_ltb (js_Number b) (js_Number a)
  | ParamHeaderCondition _ _ _ _ => false
  end.

(** The text of a condition among others. *)
Definition wrap (e : jsstr) : jsstr := if includes (js " || ") e then [LPAREN] ++ e ++ [RPAREN] else e.

Lemma includes_app p a b : includes p (a ++ p ++ b) = true.
Proof.
  assert (H : starts_with p (p ++ b) = true) by (rewrite starts_with_spec; eauto).
  induction a as [|c a IH]; simpl.
  - destruct (p ++ b) eqn:E; simpl; [by rewrite H|by rewrite H].
  - rewrite IH. by rewrite orb_true_r.
Qed.

Lemma wrapped_pieces c t : condition_written c t ->
  overnight c || negb (includes (js " || ") t) = true ->
  exists ps, condition_pieces c ps /\ wrap t = join (js " && ") ps.
Proof.
  intros H Ho. unfold wrap.
  destruct H as [f tz o m v Htz Hv Hm|f tz a b Htz Ha Hb|src path Hp|path v Hp Hu|src path v Hp Ht Hu Hl].
  - assert (E : overnight (TimeCondition f tz (js m) v [] []) = false).
    { unfold scalar_modes in Hm. rewrite !elem_of_cons in Hm.
      destruct Hm as [[= -> ->]|[[= -> ->]|[[= -> ->]|Hm]]]; [done..|by apply not_elem_of_nil in Hm]. }
    rewrite E in Ho. cbn [orb] in Ho. apply negb_true_iff in Ho. rewrite Ho.
    eexists. split; [by apply cp_scalar|done].
  - cbn [overnight] in Ho. change (js MATCH_RANGE === MATCH_RANGE) with true in Ho. cbn [andb] in Ho.
    destruct (num_ltb (js_Number b) (js_Number a)); cbn [orb joiner_of] in *.
    + assert (E : includes (js " || ") (range_text f tz a (js " || ") b) = true).
      { unfold range_text. rewrite !app_assoc, <- (app_assoc _ (js " || ")), <- !app_assoc.
        rewrite (app_assoc (js " >= ")), (app_assoc (time_call f tz)). apply includes_app. }
      rewrite E. eexists. split; [by apply cp_night|done].
    + apply negb_true_iff in Ho. rewrite Ho. eexists. split; [by apply cp_day|].
      unfold range_text, scalar_text. cbn [join]. rewrite <- !app_assoc. done.
  - cbn [overnight orb] in Ho. apply negb_true_iff in Ho. rewrite Ho.
    eexists. split; [apply cp_other; [by apply ct_exists|done]|done].
  - cbn [overnight orb] in Ho. apply negb_true_iff in Ho. rewrite Ho.
    eexists. split; [apply cp_other; [by apply ct_contains|done]|done].
  - cbn [overnight orb] in Ho. apply negb_true_iff in Ho. rewrite Ho.
    eexists. split; [apply cp_other; [by apply ct_equals|done]|done].
Qed.

(** Two bounds in a row that would be read as one range. *)
Definition mergeable (c1 c2 : request_condition) : bool :=
  match c1, c2 with
  | TimeCondition f1 tz1 m1 _ _ _, TimeCondition f2 tz2 m2 _ _ _ =>
      str_eqb (js (time_func_name f1)) (js (time_func_name f2)) && str_eqb tz1 tz2
      && (m1 === MATCH_GTE) && (m2 === MATCH_LT)
  | _, _ => false
  end.

Fixpoint unmerged (l : list request_condition) : bool :=
  match l with
  | c1 :: (c2 :: _) as l' => negb (mergeable c1 c2) && unmerged l'
  | _ => true
  end.

(** The first part of a condition starts no second half of a range. *)
Lemma strip_other_time f f2 tz r : f <> f2 ->
  forall tz2 x, strip (time_call f tz ++ x) (time_call f2 tz2 ++ r) = None.
Proof. intros H tz2 x. destruct f, f2; done || reflexivity. Qed.

Lemma strip_same_time f tz tz2 x y : plain tz = true -> plain tz2 = true ->
  strip (time_call f tz ++ x) (time_call f tz2 ++ y)
  = if str_eqb tz tz2 then strip ([RPAREN] ++ x) ([RPAREN] ++ y) else None.
Proof.
  intros H1 H2. apply plain_spec in H1 as (_ & _ & H1 & _), H2 as (_ & _ & H2 & _).
  unfold call_text. rewrite <- !app_assoc. rewrite strip_app_l, strip_app_l.
  change ([QUOTE; RPAREN] ++ x) with (QUOTE :: [RPAREN] ++ x).
  change ([QUOTE; RPAREN] ++ y) with (QUOTE :: [RPAREN] ++ y). by apply strip_quoted.
Qed.

Lemma strip_scalar f tz f2 tz2 o m v r :
  plain tz = true -> plain tz2 = true -> (o, m) ∈ scalar_modes ->
  negb (str_eqb (js (time_func_name f)) (js (time_func_name f2)) && str_eqb tz tz2 && (js m === MATCH_LT))
  = true ->
  strip (time_call f tz ++ js " < ") (scalar_text f2 tz2 o v ++ r) = None.
Proof.
  intros H1 H2 Hm Hn. unfold scalar_text. rewrite <- app_assoc.
  assert (Hf : f = f2 \/ f <> f2) by (destruct f, f2; (by left) || (by right)).
  destruct Hf as [<-|Hf]; [|by apply strip_other_time].
  rewrite strip_same_time by done. destruct (str_eqb tz tz2); [|done].
  rewrite str_eqb_refl in Hn. cbn [andb] in Hn.
  unfold scalar_modes in Hm. rewrite !elem_of_cons in Hm.
  destruct Hm as [[= -> ->]|[[= -> ->]|[[= -> ->]|Hm]]]; [done..|by apply not_elem_of_nil in Hm].
Qed.

Lemma strip_next f tz v c2 p ps r : plain tz = true -> condition_pieces c2 (p :: ps) ->
  mergeable (TimeCondition f tz (js MATCH_GTE) v [] []) c2 = false ->
  strip (time_call f tz ++ js " < ") (p ++ r) = None.
Proof.
  intros Htz Hc Hm. destruct scalar_modes_in as [M1 _].
  inversion Hc as [f2 tz2 o m v2 Htz2 Hv2 Ho|f2 tz2 a b Htz2 Ha Hb|f2 tz2 a b Htz2 Ha Hb|c t Ht Hf]; subst.
  - eapply strip_scalar; [done..|]. cbn [mergeable] in Hm.
    change (js MATCH_GTE === MATCH_GTE) with true in Hm. rewrite andb_true_r in Hm. by rewrite Hm.
  - eapply strip_scalar; [done..|exact M1|]. change (js MATCH_GTE === MATCH_LT) with false.
    by rewrite andb_false_r.
  - by destruct f.
  - destruct Ht as [| |src path Hp|path w Hp Hu|src path w Hp Ht Hu Hl]; [done|done|..].
    + destruct f, src; reflexivity.
    + destruct f; reflexivity.
    + destruct f, src; reflexivity.
Qed.

(** The joined text of several conditions is not one time condition. *)
Lemma other_more c t r : condition_written c t -> is_time c = false -> tryParseTimeCondition (t ++ r) = None.
Proof.
  intros Ht Hf. destruct Ht as [| |src path Hp|path w Hp Hu|src path w Hp Ht Hu Hl]; [done|done|..];
    rewrite <- ?app_assoc; [apply not_time_call|apply not_time_has|apply not_time_call].
Qed.

Lemma pieces_whole_none c1 ps1 c2 p2 ps2 r :
  condition_pieces c1 ps1 -> condition_pieces c2 (p2 :: ps2) -> mergeable c1 c2 = false ->
  tryParseTimeCondition (join (js " && ") ps1 ++ js " && " ++ p2 ++ r) = None.
Proof.
  intros H1 H2 Hm.
  destruct H1 as [f tz o m v Htz Hv Ho|f tz a b Htz Ha Hb|f tz a b Htz Ha Hb|c t Ht Hf]; cbn [join].
  - eapply time_scalar_more; [done..|]. intros ->.
    assert (m = MATCH_GTE) as ->.
    { unfold scalar_modes in Ho. rewrite !elem_of_cons in Ho.
      destruct Ho as [[=]|[[= ->]|[[=]|Ho]]]; [done|by apply not_elem_of_nil in Ho]. }
    by eapply strip_next.
  - assert (E : scalar_text f tz ">=" a ++ js " && " ++ scalar_text f tz "<" b
                = range_text f tz a (js " && ") b).
    { unfold range_text, scalar_text. rewrite <- !app_assoc. done. }
    rewrite E. apply time_range_more; auto.
  - apply time_range_more; auto.
  - by eapply other_more.
Qed.

(** What a part is read as, if it is the part of a time condition. *)
Lemma piece_pair c1 p1 c2 p2 ps2 :
  condition_pieces c1 [p1] -> condition_pieces c2 (p2 :: ps2) -> mergeable c1 c2 = false ->
  tryParseTimeRangePair p1 p2 = None.
Proof.
  intros H1 H2 Hm. destruct scalar_modes_in as [M1 _]. unfold tryParseTimeRangePair.
  inversion H1 as [f tz o m v Htz Hv Ho| |f tz a b Htz Ha Hb|c t Ht Hf]; subst.
  - rewrite (time_scalar_read f tz o m v) by done.
    inversion H2 as [f2 tz2 o2 m2 v2 Htz2 Hv2 Ho2|f2 tz2 a b Htz2 Ha Hb|f2 tz2 a b Htz2 Ha Hb|c t Ht Hf]; subst.
    + rewrite (time_scalar_read f2 tz2 o2 m2 v2) by done. cbn [mergeable] in Hm.
      destruct (str_eqb (js (time_func_name f)) _); [|done]. destruct (str_eqb tz tz2); [|done].
      cbn [negb orb andb] in *. destruct (js m === MATCH_GTE); [|done]. cbn [andb] in Hm. by rewrite Hm.
    + rewrite (time_scalar_read f2 tz2 ">=" MATCH_GTE a) by done.
      destruct (negb _ || negb _); [done|]. change (js MATCH_GTE === MATCH_LT) with false.
      cbn [negb]. by rewrite orb_true_r.
    + assert (Hj : js " || " = js " && " \/ js " || " = js " || ") by (by right).
      pose proof (proj2 (time_range_read f2 tz2 a (js " || ") b Htz2 Ha Hb Hj)) as E. cbn [app] in E |- *. rewrite E.
      destruct (negb _ || negb _); [done|]. change (js MATCH_RANGE === MATCH_LT) with false.
      cbn [negb]. by rewrite orb_true_r.
    + by rewrite (time_condition_read c2 p2), Hf by done.
  - assert (Hj : js " || " = js " && " \/ js " || " = js " || ") by (by right).
    pose proof (proj2 (time_range_read f tz a (js " || ") b Htz Ha Hb Hj)) as E. cbn [app] in E |- *. rewrite E.
    destruct (tryParseTimeCondition p2) as [[]|]; [|done|done]. by destruct (negb _ || negb _).
  - by rewrite (time_condition_read c1 p1), Hf by done.
Qed.

Lemma piece_read c p : condition_pieces c [p] -> tryParseRequestCondition p = Ok (Some c).
Proof.
  intros H. inversion H as [f tz o m v Htz Hv Ho| |f tz a b Htz Ha Hb|c' t Ht Hf]; subst.
  - by apply request_condition_read, ct_scalar.
  - unfold tryParseRequestCondition.
    assert (Hj : js " || " = js " && " \/ js " || " = js " || ") by (by right).
    pose proof (proj2 (time_range_read f tz a (js " || ") b Htz Ha Hb Hj)) as E. cbn [app] in E |- *. by rewrite E.
  - by apply request_condition_read.
Qed.

(** The two bounds of a range within a day are merged. *)
Lemma day_pair f tz a b : plain tz = true -> isTimeValueInRange f a = true -> isTimeValueInRange f b = true ->
  tryParseTimeRangePair (scalar_text f tz ">=" a) (scalar_text f tz "<" b)
  = Some (TimeCondition f tz (js MATCH_RANGE) [] a b).
Proof.
  intros Htz Ha Hb. destruct scalar_modes_in as [M1 M2]. unfold tryParseTimeRangePair.
  rewrite (time_scalar_read f tz ">=" MATCH_GTE a), (time_scalar_read f tz "<" MATCH_LT b) by done.
  by rewrite !str_eqb_refl.
Qed.

Lemma pieces_cons c ps : condition_pieces c ps ->
  (exists p, ps = [p]) \/
  exists f tz a b, plain tz = true /\ isTimeValueInRange f a = true /\ isTimeValueInRange f b = true /\
    c = TimeCondition f tz (js MATCH_RANGE) [] a b /\ ps = [scalar_text f tz ">=" a; scalar_text f tz "<" b].
Proof.
  destruct 1 as [f tz o m v Htz Hv Ho|f tz a b Htz Ha Hb|f tz a b Htz Ha Hb|c t Ht Hf];
    [left; by eexists|right; by exists f, tz, a, b|left; by eexists|left; by eexists].
Qed.

Lemma parse_parts_read cs pss : Forall2 condition_pieces cs pss -> unmerged cs = true -> forall acc,
  parse_parts (concat pss) acc = Ok (match acc ++ cs with [] => None | l => Some l end).
Proof.
  induction 1 as [|c ps cs pss Hc Hcs IH]; intros Hu acc; [rewrite app_nil_r; by destruct acc|].
  assert (Hu' : unmerged cs = true) by (destruct cs; [done|]; cbn [unmerged] in Hu; by bools).
  assert (Hacc : forall l, match (acc ++ [c]) ++ l with [] => None | x => Some x end
                           = match acc ++ c :: l with [] => None | x => Some x end)
    by (intros l; by rewrite <- app_assoc).
  pose proof (pieces_neutral c ps Hc) as [_ Ht].
  destruct (pieces_cons c ps Hc) as [(p & ->)|(f & tz & a & b & Htz & Ha & Hb & -> & ->)].
  - apply Forall_singleton, tight_trim in Ht as [Ht _]. cbn [concat app parse_parts].
    rewrite Ht, (piece_read c p Hc). destruct (concat pss) as [|q rest] eqn:Er.
    + specialize (IH Hu' (acc ++ [c])).  rewrite <- Hacc. exact IH.
    + assert (Hq : exists c2 cs' ps2, cs = c2 :: cs' /\ condition_pieces c2 (q :: ps2)).
      { inversion Hcs as [|c2 ps2 cs' pss' Hc2 Hcs']; subst; [done|]. exists c2, cs'.
        destruct (pieces_cons c2 ps2 Hc2) as [(p2 & ->)|(f & tz & a & b & _ & _ & _ & _ & ->)];
          injection Er as <- _; eauto. }
      destruct Hq as (c2 & cs' & ps2 & -> & Hc2).
      pose proof (pieces_neutral c2 _ Hc2) as [_ Ht2]. apply list.Forall_cons in Ht2 as [Ht2 _].
      apply tight_trim in Ht2 as [Et2 Et2']. cbn [unmerged] in Hu. apply andb_true_iff in Hu as [Hm _].
      apply negb_true_iff in Hm.
      rewrite Et2, Et2', (piece_pair c p c2 q ps2 Hc Hc2 Hm). rewrite <- Hacc.
      exact (IH Hu' (acc ++ [c])).
  - apply list.Forall_cons in Ht as [Ht1 Ht2]. apply list.Forall_cons in Ht2 as [Ht2 _].
    apply tight_trim in Ht1 as [E1 _], Ht2 as [E2 E2']. cbn [concat app parse_parts].
    rewrite E1, E2, E2', (day_pair f tz a b Htz Ha Hb), <- Hacc. exact (IH Hu' _).
Qed.

(** * Groups *)

(** The groups that are read back: a numeric multiplier, at least one condition, all
    of them canonical, no two bounds in a row that form one range, and no text
    in them that looks like an alternative when there are several conditions. *)
Definition canonical_group (g : rule_group) : bool :=
  NUMERIC_LITERAL_REGEX (multiplier g) &&
  match conditions g with [] => false | _ => true end &&
  forallb canonical_condition (conditions g) && unmerged (conditions g) &&
  ((length (conditions g) =? 1)%nat ||
   forallb (fun c => overnight c || negb (includes (js " || ") (buildRequestConditionExpr c))) (conditions g)) &&
  match conditionText g, matched g with None, None => true | _, _ => false end.

Lemma neutral_join op d sep ps : neutral op d sep -> Forall (neutral op d) ps -> neutral op d (join sep ps).
Proof.
  intros Hs. induction 1 as [|p ps Hp Hps IH]; [apply neutral_nil|].
  destruct ps as [|p2 ps]; [done|].
  change (join sep (p :: p2 :: ps)) with (p ++ sep ++ join sep (p2 :: ps)).
  apply neutral_app; [done|]. by apply neutral_app.
Qed.

Lemma join_concat sep pss : Forall (fun ps => ps <> []) pss ->
  join sep (map (join sep) pss) = join sep (concat pss).
Proof.
  induction 1 as [|ps pss Hps Hpss IH]; [done|]. cbn [map concat].
  destruct pss as [|ps2 pss]; [cbn [map concat join]; by rewrite app_nil_r|].
  change (join sep (join sep ps :: map (join sep) (ps2 :: pss)))
    with (join sep ps ++ sep ++ join sep (map (join sep) (ps2 :: pss))).
  rewrite IH.
  assert (Hne : concat (ps2 :: pss) <> []).
  { apply list.Forall_cons in Hpss as [H2 _]. cbn [concat]. by destruct ps2. }
  generalize (concat (ps2 :: pss)) Hne. intros q Hq. clear IH.
  induction ps as [|p ps IHp]; [done|]. destruct ps as [|p' ps].
  - destruct q as [|x q]; [done|]. done.
  - specialize (IHp ltac:(done)).
    change (join sep ((p :: p' :: ps) ++ q)) with (p ++ sep ++ join sep ((p' :: ps) ++ q)).
    rewrite <- IHp. change (join sep (p :: p' :: ps)) with (p ++ sep ++ join sep (p' :: ps)).
    by rewrite <- !app_assoc.
Qed.

(** Every condition is passed over inside parentheses. *)
Lemma condition_neutral_deep op d c t : scanned op d -> 1 <= d -> condition_written c t -> neutral op d t.
Proof.
  intros H Hd Hc. destruct (is_time c) eqn:Ht; [|by eapply neutral_condition].
  destruct Hc as [f tz o m v Htz Hv Ho|f tz a b Htz Ha Hb| | |]; [|by apply neutral_range|done..].
  by eapply neutral_scalar.
Qed.

Lemma wrap_neutral c t : condition_written c t -> neutral (js "*") 1 (wrap t).
Proof.
  intros H. unfold wrap. destruct (includes _ t).
  - apply neutral_paren; [done|done|]. eapply condition_neutral_deep; [|done|done]. by split; [right|].
  - eapply condition_neutral_deep; [|done|done]. by split; [right|].
Qed.

Lemma pieces_list cs : forallb canonical_condition cs = true ->
  forallb (fun c => overnight c || negb (includes (js " || ") (buildRequestConditionExpr c))) cs = true ->
  exists pss, Forall2 condition_pieces cs pss /\
    map wrap (map buildRequestConditionExpr cs) = map (join (js " && ")) pss.
Proof.
  induction cs as [|c cs IH]; intros Hc Ho; [by exists []|]. cbn [forallb] in Hc, Ho.
  apply andb_true_iff in Hc as [Hc Hcs], Ho as [Ho Hos].
  destruct (IH Hcs Hos) as (pss & H & E).
  destruct (wrapped_pieces c _ (canonical_text c Hc) Ho) as (ps & Hp & Ep).
  exists (ps :: pss). split; [by constructor|]. cbn [map]. congruence.
Qed.

Lemma pieces_nonempty cs pss : Forall2 condition_pieces cs pss -> Forall (fun ps => ps <> []) pss.
Proof. induction 1 as [|c ps cs pss H _ IH]; constructor; [by destruct H|done]. Qed.

Lemma pieces_all cs pss : Forall2 condition_pieces cs pss ->
  Forall (neutral (js "&&") 0) (concat pss) /\ Forall tight (concat pss).
Proof.
  induction 1 as [|c ps cs pss H _ [IH1 IH2]]; [by split; constructor|]. cbn [concat].
  apply pieces_neutral in H as [H1 H2]. split; by apply Forall_app.
Qed.

Lemma tight_join sep p ps : Forall tight (p :: ps) -> tight (join sep (p :: ps)).
Proof.
  revert p. induction ps as [|p2 ps IH]; intros p H; apply list.Forall_cons in H as [Hp H]; [done|].
  change (join sep (p :: p2 :: ps)) with (p ++ sep ++ join sep (p2 :: ps)).
  apply tight_app; [apply Hp|by apply IH].
Qed.

Lemma tight_all ps : Forall tight ps -> Forall (fun p => trim p = p /\ truthy p = true) ps.
Proof. apply Forall_impl. apply tight_trim. Qed.

Abbreviation AND_SEP := ([32] ++ js "&&" ++ [32]).
Abbreviation TIMES_SEP := ([32] ++ js "*" ++ [32]).

(** One condition, alone in its group. *)
Lemma single_read c t : condition_written c t -> tryParseRequestConditions t = Ok (Some [c]).
Proof.
  intros H. destruct (tight_trim t (condition_tight c t H)) as [Et Ett]. unfold tryParseRequestConditions.
  rewrite Et, (time_condition_read c t H). destruct (is_time c) eqn:Ec; [done|].
  assert (E : splitTopLevelAnd t = [t]).
  { unfold splitTopLevelAnd. change t with (join AND_SEP [t]) at 1.
    rewrite split_join_pieces; [done|done| |by constructor].
    constructor; [|constructor]. eapply neutral_condition; [|done|done]. by split; [left|]. }
  rewrite E. change [t] with (concat [[t]]).
  rewrite (parse_parts_read [c] [[t]]); [done| |done].
  constructor; [by apply cp_other|constructor].
Qed.

(** Several conditions. *)
Lemma several_read c1 c2 cs pss :
  Forall2 condition_pieces (c1 :: c2 :: cs) pss -> unmerged (c1 :: c2 :: cs) = true ->
  tryParseRequestConditions (join AND_SEP (concat pss)) = Ok (Some (c1 :: c2 :: cs)).
Proof.
  intros H Hu. destruct (pieces_all _ _ H) as [Hn Ht].
  assert (Hwhole : tryParseTimeCondition (join AND_SEP (concat pss)) = None).
  { cbn [unmerged] in Hu. apply andb_true_iff in Hu as [Hm _]. apply negb_true_iff in Hm.
    inversion H as [|? ps1 ? pss1 H1 Hr]; subst. inversion Hr as [|? ps2 ? pss2 H2 Hr2]; subst.
    rewrite <- join_concat by (by eapply pieces_nonempty).
    destruct ps2 as [|p2 ps2]; [by inversion H2|].
    assert (E : exists r, join AND_SEP (map (join AND_SEP) (ps1 :: (p2 :: ps2) :: pss2))
                          = join AND_SEP ps1 ++ AND_SEP ++ p2 ++ r).
    { cbn [map]. change (join AND_SEP (?a :: ?b :: ?l)) with (a ++ AND_SEP ++ join AND_SEP (b :: l)).
      destruct ps2 as [|p3 ps2]; destruct pss2 as [|ps3 pss2]; cbn [map join]; rewrite <- ?app_assoc;
        eexists; rewrite <- ?app_assoc; try done.
      by rewrite app_nil_r. }
    destruct E as [r ->]. by eapply pieces_whole_none. }
  destruct (concat pss) as [|p ps] eqn:Ep.
  { inversion H as [|? ps1 ? pss1 H1 Hr]; subst. by inversion H1; subst. }
  assert (Htr : trim (join AND_SEP (p :: ps)) = join AND_SEP (p :: ps)).
  { apply tight_trim. by apply tight_join. }
  apply tight_all in Ht. unfold tryParseRequestConditions. rewrite Htr, Hwhole. unfold splitTopLevelAnd.
  rewrite split_join_pieces by done. rewrite <- Ep. by rewrite (parse_parts_read _ _ H Hu).
Qed.

(** The text of a factor. *)
Definition factor_text (combined m : jsstr) : jsstr :=
  [LPAREN] ++ combined ++ js " ? " ++ m ++ js " : 1)".

Lemma filter_truthy l : Forall (fun p => truthy p = true) l -> List.filter truthy l = l.
Proof. induction 1 as [|p l Hp _ IH]; simpl; [done|]. by rewrite Hp, IH. Qed.

(** The conditions of a canonical group, as written. *)
Lemma canonical_combined g : canonical_group g = true ->
  exists combined, buildRuleGroupFactor g = factor_text combined (multiplier g) /\ combined <> [] /\
    neutral (js "*") 1 combined /\ tryParseRequestConditions combined = Ok (Some (conditions g)).
Proof.
  unfold canonical_group. intros H. apply andb_true_iff in H as [H _].
  apply andb_true_iff in H as [H Hor]. apply andb_true_iff in H as [H Hu].
  apply andb_true_iff in H as [H Hc]. apply andb_true_iff in H as [Hm Hne].
  unfold buildRuleGroupFactor. pose proof (numeric_literal_chars _ Hm) as [Hm0 Hmc].
  assert (Etm : trim (multiplier g) = multiplier g).
  { apply trim_plain. eapply Forall_impl; [|exact Hmc]. apply number_char_space. }
  rewrite Etm, Hm. cbn [negb].
  assert (Htexts : Forall (fun c => condition_written c (buildRequestConditionExpr c)) (conditions g)).
  { rewrite forallb_forall, <- List.Forall_forall in Hc. eapply Forall_impl; [|exact Hc].
    apply canonical_text. }
  rewrite (filter_truthy (map buildRequestConditionExpr (conditions g))).
  2:{ apply Forall_map. eapply Forall_impl; [|exact Htexts]. intros c Ht.
      by apply tight_trim, (condition_tight c). }
  destruct (conditions g) as [|c1 [|c2 cs]]; [done| |].
  - apply list.Forall_cons in Htexts as [Ht _]. cbn [map]. eexists. split; [done|]. split.
    { intros E. pose proof (condition_tight _ _ Ht) as [Htt _]. by rewrite E in Htt. }
    split; [eapply condition_neutral_deep; [|done|exact Ht]; by split; [right|]|by apply single_read].
  - cbn [length Nat.eqb orb] in Hor. destruct (pieces_list _ Hc Hor) as (pss & Hp & E).
    exists (join AND_SEP (concat pss)).
    assert (Ej : join (js " && ") (wrap (buildRequestConditionExpr c1) :: wrap (buildRequestConditionExpr c2)
                   :: map wrap (map buildRequestConditionExpr cs)) = join AND_SEP (concat pss)).
    { cbn [map] in E. rewrite E. change (js " && ") with AND_SEP. apply join_concat. by eapply pieces_nonempty. }
    split; [|split; [|split; [|by apply several_read]]].
    + rewrite <- Ej. done.
    + destruct (pieces_all _ _ Hp) as [_ Ht]. destruct (concat pss) as [|p ps] eqn:Ep.
      { inversion Hp as [|? ps1 ? pss1 H1 Hr]; subst. by inversion H1; subst. }
      pose proof (tight_join AND_SEP p ps Ht) as [Htt _]. intros E0. by rewrite E0 in Htt.
    + rewrite <- Ej. apply neutral_join.
      { by apply neutral_calm. }
      change (wrap (buildRequestConditionExpr c1) :: wrap (buildRequestConditionExpr c2)
                :: map wrap (map buildRequestConditionExpr cs))
        with (map wrap (map buildRequestConditionExpr (c1 :: c2 :: cs))).
      rewrite !Forall_map. eapply Forall_impl; [|exact Htexts]. intros c Ht. exact (wrap_neutral c _ Ht).
Qed.

Lemma match_factor_ok combined m : combined <> [] -> NUMERIC_LITERAL_REGEX m = true ->
  match_factor (factor_text combined m) = Some (combined, m).
Proof.
  intros Hc Hm. apply numeric_literal_chars in Hm as [Hm Hn]. unfold match_factor, factor_text.
  rewrite strip_app, !rev_app_distr, <- !app_assoc, strip_app.
  rewrite number_chars_app; [|intros E; apply Hm; by rewrite <- (rev_involutive m), E|by apply List.Forall_rev|done].
  rewrite strip_app, !rev_involutive.
  destruct (rev combined) eqn:E; [|done]. exfalso. apply Hc. by rewrite <- (rev_involutive combined), E.
Qed.

Lemma factor_read g : canonical_group g = true ->
  tryParseRuleGroupFactor (buildRuleGroupFactor g) = Ok (Some g) /\
  neutral (js "*") 0 (buildRuleGroupFactor g) /\ tight (buildRuleGroupFactor g).
Proof.
  intros H. destruct (canonical_combined g H) as (combined & E & Hne & Hn & Hr).
  unfold canonical_group in H. apply andb_true_iff in H as [H Hnone]. bools.
  rewrite E. split; [|split].
  - unfold tryParseRuleGroupFactor. rewrite match_factor_ok, Hr by done.
    destruct g as [cs m [t|] [b|]]; cbn [conditionText matched] in Hnone; done.
  - unfold factor_text.
    replace ([LPAREN] ++ combined ++ js " ? " ++ multiplier g ++ js " : 1)")
      with ([LPAREN] ++ (combined ++ js " ? " ++ multiplier g ++ js " : 1") ++ [RPAREN])
      by (by rewrite <- !app_assoc).
    apply neutral_paren; [done|done|]. assert (Hs : scanned (js "*") 1) by (by split; [right|]).
    apply neutral_app; [done|]. apply neutral_app; [by apply neutral_calm|].
    apply neutral_app; [by apply neutral_number; [|apply numeric_literal_chars]|by apply neutral_calm].
  - unfold factor_text. rewrite !app_assoc. rewrite <- (app_assoc _ (js " ? ")), <- !app_assoc.
    change (js " : 1)") with (js " : 1" ++ [RPAREN]). rewrite !app_assoc, <- (app_assoc [LPAREN]).
    split; [by rewrite <- !app_assoc|by rewrite rev_app_distr].
Qed.

Lemma parse_factors_read gs : forallb canonical_group gs = true -> forall acc,
  parse_factors (map buildRuleGroupFactor gs) acc = Ok (Some (acc ++ gs)).
Proof.
  induction gs as [|g gs IH]; intros H acc; [by rewrite app_nil_r|]. cbn [forallb map parse_factors] in *.
  apply andb_true_iff in H as [Hg H]. destruct (factor_read g Hg) as [-> _].
  rewrite IH by done. by rewrite <- app_assoc.
Qed.

Lemma factors_text gs : forallb canonical_group gs = true ->
  Forall (neutral (js "*") 0) (map buildRuleGroupFactor gs) /\ Forall tight (map buildRuleGroupFactor gs) /\
  buildRequestRuleExpr gs = join TIMES_SEP (map buildRuleGroupFactor gs).
Proof.
  intros H. rewrite forallb_forall, <- List.Forall_forall in H.
  assert (H1 : Forall (neutral (js "*") 0) (map buildRuleGroupFactor gs)).
  { apply Forall_map. eapply Forall_impl; [|exact H]. intros g Hg. by apply factor_read. }
  assert (H2 : Forall tight (map buildRuleGroupFactor gs)).
  { apply Forall_map. eapply Forall_impl; [|exact H]. intros g Hg. by apply factor_read. }
  split; [done|]. split; [done|]. unfold buildRequestRuleExpr. rewrite filter_truthy; [done|].
  eapply Forall_impl; [|exact H2]. intros p Hp. by apply tight_trim.
Qed.

(** Request rules survive the editor: canonical groups, written as an expression and
    read again, are the same groups with the same conditions and multipliers. *)
Theorem request_rules_roundtrip groups :
  forallb canonical_group groups = true ->
  tryParseRequestRuleExpr (buildRequestRuleExpr groups) = Ok (Some groups).
Proof.
  intros H. destruct (factors_text groups H) as (Hn & Ht & E). unfold tryParseRequestRuleExpr.
  rewrite E. destruct groups as [|g gs]; [done|]. cbn [map] in *.
  destruct (tight_trim _ (tight_join TIMES_SEP _ _ Ht)) as [-> ->]. unfold splitTopLevelMultiply.
  rewrite split_join_pieces by (done || by apply tight_all).
  apply (parse_factors_read (g :: gs) H []).
Qed.

(** * A price and its rules *)

(** With an operator of one character the text that follows does not matter. *)
Lemma scan_single o s t d q e : scan [o] s t d q e = scan [o] s [] d q e.
Proof.
  revert d q e. induction s as [|c s IH]; intros d q e; [done|]. cbn [scan].
  destruct e; [apply IH|]. destruct q; [apply IH|]. destruct (is_quote c); [apply IH|].
  destruct (negb _); [apply IH|]. by rewrite IH.
Qed.

(** A price that is kept as it is when it is put in parentheses: it has no white space
    or parentheses around it, its own brackets are balanced, and in parentheses it
    is not a rule itself. *)
Definition separable (base : jsstr) : bool :=
  let text := [LPAREN] ++ base ++ [RPAREN] in
  truthy base && str_eqb (trim base) base && negb (wrapped base) && wrapped text &&
  match scan (js "*") text [] 0 None false with Some (0, None, false) => true | _ => false end &&
  match tryParseRequestRuleExpr text with Ok None => true | _ => false end.

Lemma partition_factors gs : forallb canonical_group gs = true -> forall rules bases,
  partition_parts (map buildRuleGroupFactor gs) rules bases
  = Ok (rules ++ map buildRuleGroupFactor gs, bases).
Proof.
  induction gs as [|g gs IH]; intros H rules bases; [by rewrite app_nil_r|].
  cbn [forallb map partition_parts] in *. apply andb_true_iff in H as [Hg H].
  assert (E : tryParseRequestRuleExpr (buildRuleGroupFactor g) = Ok (Some [g])).
  { assert (Hg1 : forallb canonical_group [g] = true) by (cbn [forallb]; by rewrite Hg).
    destruct (factors_text [g] Hg1) as (Hn & Ht & E). cbn [map] in *. unfold tryParseRequestRuleExpr.
    pose proof (tight_all _ Ht) as Ht'. apply list.Forall_cons in Ht' as [[-> ->] _].
    unfold splitTopLevelMultiply.
    pose proof (split_join_pieces (js "*") (buildRuleGroupFactor g) [] eq_refl Hn (tight_all _ Ht)) as Es.
    cbn [join] in Es. rewrite Es.
    apply (parse_factors_read [g] Hg1 []). }
  rewrite E, IH by done. by rewrite <- app_assoc.
Qed.

Lemma unwrap_paren base : trim base = base -> wrapped base = false ->
  wrapped ([LPAREN] ++ base ++ [RPAREN]) = true ->
  unwrapOuterParens ([LPAREN] ++ base ++ [RPAREN]) = base.
Proof.
  intros Ht Hw Hp. unfold unwrapOuterParens, unwrapExpressionParens.
  destruct (tight_trim _ (paren_tight base)) as [-> _].
  assert (Hs : slice ([LPAREN] ++ base ++ [RPAREN]) 1 (length ([LPAREN] ++ base ++ [RPAREN]) - 1) = base).
  { unfold slice. cbn [app length drop]. rewrite length_app. cbn [length].
    replace (S (length base + 1) - 1 - 1)%nat with (length base) by lia. rewrite drop_0.
    by rewrite take_app_length. }
  replace (S (length ([LPAREN] ++ base ++ [RPAREN]))) with (S (S (S (length base))))
    by (rewrite !length_app; simpl; lia).
  cbn [unwrap_loop]. by rewrite Hp, Hs, Ht, Hw.
Qed.

(** A price and its rules are told apart again after they were combined: splitting the
    combined expression gives back the price and the rules. *)
Theorem combine_split_roundtrip base groups :
  separable base = true -> groups <> [] -> forallb canonical_group groups = true ->
  splitBillingExprAndRequestRules (combineBillingExpr base (buildRequestRuleExpr groups))
  = Ok (base, buildRequestRuleExpr groups).
Proof.
  unfold separable. cbv zeta. intros Hb Hne H.
  apply andb_true_iff in Hb as [Hb Hrule]. apply andb_true_iff in Hb as [Hb Hscan].
  apply andb_true_iff in Hb as [Hb Hwrap]. apply andb_true_iff in Hb as [Hb Hnw].
  apply andb_true_iff in Hb as [Htr Ht]. apply str_eqb_eq in Ht. apply negb_true_iff in Hnw.
  destruct (factors_text groups H) as (Hn & Hti & E).
  destruct groups as [|g gs]; [done|]. set (fs := map buildRuleGroupFactor (g :: gs)) in *.
  set (text := [LPAREN] ++ base ++ [RPAREN]) in *.
  assert (Hnt : neutral (js "*") 0 text).
  { intros t. change (js "*") with [42] in *. rewrite scan_single.
    destruct (scan [42] text [] 0 None false) as [[[[] []] []]|]; done. }
  assert (Htt : tight text) by apply paren_tight.
  assert (Hcomb : combineBillingExpr base (buildRequestRuleExpr (g :: gs)) = join TIMES_SEP (text :: fs)).
  { unfold combineBillingExpr. rewrite Ht, Htr, E. unfold fs. cbn [map negb] in *.
    destruct (tight_trim _ (tight_join TIMES_SEP _ _ Hti)) as [-> ->]. cbn [negb].
    change (join TIMES_SEP (text :: ?x :: ?l)) with (text ++ TIMES_SEP ++ join TIMES_SEP (x :: l)).
    unfold text. rewrite <- !app_assoc. done. }
  rewrite Hcomb. unfold splitBillingExprAndRequestRules.
  assert (Hall : Forall tight (text :: fs)) by (by constructor).
  destruct (tight_trim _ (tight_join TIMES_SEP _ _ Hall)) as [-> ->]. cbn [negb].
  unfold splitTopLevelMultiply.
  rewrite split_join_pieces; [|done|by constructor|by apply tight_all].
  unfold fs. cbn [map length Nat.leb]. fold buildRuleGroupFactor.
  cbn [partition_parts]. destruct (tryParseRequestRuleExpr text) as [[?|]|]; [done| |done].
  pose proof (partition_factors (g :: gs) H [] ([] ++ [text])) as Ep. cbn [map partition_parts app] in Ep |- *.
  rewrite Ep. unfold text. rewrite unwrap_paren by done. rewrite E. done.
Qed.

(** * Rules that are not read back *)

(** Not every rule of the editor can be opened in the editor again.  A comparison or a
    containment on a parameter is written with a guard, which the reader takes for a
    condition of its own, so the rule is not recognized; a path with a backslash
    comes back with the backslash doubled; and next to another condition a value
    with a double bar is put in parentheses that the reader does not expect. *)
Theorem rules_not_read_back :
  let rule cs := [RuleGroup cs (js "2") None None] in
  let reread cs := tryParseRequestRuleExpr (buildRequestRuleExpr (rule cs)) in
  let param path mode v := ParamHeaderCondition SParam path (js mode) v in
  reread [param (js "n") MATCH_GT (js "3")] = Ok None /\
  reread [param (js "n") MATCH_CONTAINS (js "x")] = Ok None /\
  reread [param (js "a" ++ [BACKSLASH] ++ js "b") MATCH_EXISTS []]
    = Ok (Some (rule [param (js "a" ++ [BACKSLASH; BACKSLASH] ++ js "b") MATCH_EXISTS []])) /\
  reread [param (js "n") MATCH_EQ (js "a || b"); param (js "m") MATCH_EXISTS []] = Ok None.
Proof. vm_compute. repeat split. Qed.

(** Reading the rules of an expression may throw: the text of a containment is given to
    [JSON.parse], which refuses escapes that billing expressions allow.  The
    expression below compiles, and splitting off its rules throws. *)
Theorem rule_reader_throws :
  let expr := quotes "(p * 2) * (has(header('x'), '\x41') ? 2 : 1)" in
  is_Ok (compile_try expr) = true /\ splitBillingExprAndRequestRules expr = Err SyntaxError.
Proof. split; vm_compute; reflexivity. Qed.

(** * Examples *)

Definition sample_groups : list rule_group :=
  [RuleGroup [TimeCondition Hour (js "Asia/Shanghai") (js MATCH_RANGE) [] (js "21") (js "6");
              ParamHeaderCondition SParam (js "service_tier") (js MATCH_EQ) (js "fast")] (js "3") None None;
   RuleGroup [TimeCondition Weekday (js "UTC") (js MATCH_RANGE) [] (js "1") (js "6");
              ParamHeaderCondition SHeader (js "x-plan") (js MATCH_CONTAINS) (js "pro")] (js "0.5") None None].

Lemma request_rules_roundtrip_witness :
  tryParseRequestRuleExpr (buildRequestRuleExpr sample_groups) = Ok (Some sample_groups).
Proof. apply (request_rules_roundtrip sample_groups). vm_compute. reflexivity. Defined.

Definition sample_base : jsstr := quotes "tier('base', p * 2 + c * 8)".

Lemma combine_split_roundtrip_witness :
  splitBillingExprAndRequestRules (combineBillingExpr sample_base (buildRequestRuleExpr sample_groups))
  = Ok (sample_base, buildRequestRuleExpr sample_groups).
Proof.
  apply (combine_split_roundtrip sample_base sample_groups); [vm_compute; reflexivity|discriminate|].
  vm_compute. reflexivity.
Defined.
