(* ===== verification/BillingVars.v ===== *)
(** The variable registry and the tier readers of [pricing/lib/billing-expr.ts],
    and the choice of the table row of a settled bill of
    [pricing/lib/breakdown-tier-match.ts]. *)
From Stdlib Require Import ZArith Lia Bool String.
From stdpp Require Import base list option.
From S2P Require Import Prelude JsString JsNumber Types JsValue Compile Runtime Display Json RequestRules.

(** * Variable registry *)

Inductive billing_side := SInput | SOutput | SCondition.

Record billing_var := BillingVar {
  bv_key : string;
  bv_field : option string;
  bv_tierField : option string;
  bv_label : string;
  bv_shortLabel : string;
  bv_side : billing_side;
  bv_isBase : bool;
  bv_isConditionOnly : bool;
  bv_group : option string;
}.

Definition BILLING_VARS : list billing_var :=
  [ BillingVar "p" (Some "inputPrice") (Some "input_unit_cost") "Input price" "Input"
      SInput true false None;
    BillingVar "c" (Some "outputPrice") (Some "output_unit_cost") "Completion price" "Output"
      SOutput true false None;
    BillingVar "len" None None "Input length" "Length" SCondition false true None;
    BillingVar "cr" (Some "cacheReadPrice") (Some "cache_read_unit_cost") "Cache read price"
      "Cache Read" SInput false false (Some "cache");
    BillingVar "cc" (Some "cacheCreatePrice") (Some "cache_create_unit_cost")
      "Cache create price" "Cache Write" SInput false false (Some "cache");
    BillingVar "cc1h" (Some "cacheCreate1hPrice") (Some "cache_create_1h_unit_cost")
      "Cache create (1h) price" "Cache Write (1h)" SInput false false (Some "cache");
    BillingVar "img" (Some "imagePrice") (Some "image_unit_cost") "Image input price"
      "Image In" SInput false false (Some "media");
    BillingVar "img_o" (Some "imageOutputPrice") (Some "image_output_unit_cost")
      "Image output price" "Image Out" SOutput false false (Some "media");
    BillingVar "ai" (Some "audioInputPrice") (Some "audio_input_unit_cost")
      "Audio input price" "Audio In" SInput false false (Some "media");
    BillingVar "ao" (Some "audioOutputPrice") (Some "audio_output_unit_cost")
      "Audio output price" "Audio Out" SOutput false false (Some "media") ]%string.

Definition BILLING_PRICING_VARS : list billing_var :=
  List.filter (fun v => negb (bv_isConditionOnly v)) BILLING_VARS.
Definition BILLING_CONDITION_VARS : list string :=
  map bv_key (List.filter (fun v => bv_isBase v || bv_isConditionOnly v) BILLING_VARS).

(** A missing field as an object key: [v.field as string]. *)
Definition field_key (f : option string) : string :=
  match f with Some s => s | None => "null" end.

Definition BILLING_VAR_KEY_TO_FIELD : list (string * string) :=
  map (fun v => (bv_key v, field_key (bv_field v))) BILLING_PRICING_VARS.
Definition BILLING_EXTRA_VARS : list billing_var :=
  List.filter (fun v => negb (bv_isBase v) && negb (bv_isConditionOnly v)) BILLING_VARS.
(** The field of a tier and the variable of an expression. *)
Definition BILLING_CACHE_VAR_MAP : list (string * string) :=
  map (fun v => (field_key (bv_tierField v), bv_key v)) BILLING_EXTRA_VARS.

(** * Tiers *)

(** [ParsedTier]; the index signature holds the unit prices by field name. *)
Record parsed_tier := ParsedTier {
  pt_billingUnit : option billing_unit;
  pt_fixedPrice : option number;
  pt_conditionText : option jsstr;
  pt_label : jsstr;
  pt_conditions : list token_condition;
  pt_fields : list (jsstr * number);
}.

#[export] Instance billing_unit_eq_dec : EqDecision billing_unit.
Proof. solve_decision. Defined.

(** [BILLING_VAR_KEY_TO_FIELD[key]]; an unknown key gives [undefined]. *)
Definition price_field (key : jsstr) : jsstr :=
  match table_get BILLING_VAR_KEY_TO_FIELD key with
  | Some f => js f
  | None => js "undefined"
  end.

Definition mapTokenTier (tier : token_tier) (conditionText : option jsstr) : parsed_tier :=
  let request := bool_decide (tt_unit tier = Some URequest) in
  ParsedTier
    (if request then tt_unit tier else None)
    (if request then tt_fixedPrice tier else None)
    (match conditionText with
     | Some text => if truthy text then Some text else None
     | None => None
     end)
    (tt_label tier) (tt_conditions tier)
    (map (fun e => (price_field e.1, e.2)) (tt_prices tier)).

Definition mapTimeTier (t : time_tier) : parsed_tier :=
  mapTokenTier (mt_tier t) (Some (mt_conditionText t)).
Definition mapPlainTier (t : token_tier) : parsed_tier := mapTokenTier t None.

Section Readers.
Context {P : Platform}.

Definition parseTiersFromExpr (exprStr : jsstr) (c : cache)
  : result exn (list parsed_tier) * cache :=
  if negb (truthy exprStr) then (Ok [], c)
  else
    match compileBillingExpression exprStr c with
    | (NotReady _, c) => (Ok [], c)
    | (Ready comp, c) =>
        match readTokenTierChain (c_ast comp) with
        | Err e => (Err e, c)
        | Ok (Some tiers) => (Ok (map mapPlainTier tiers), c)
        | Ok None =>
            let '(timed, c) := readTimeTokenPricing exprStr None c in
            (let! t := timed in
             Ok (match t with Some (tiers, _) => map mapTimeTier tiers | None => [] end), c)
        end
    end.

Definition getCurrentTimePricingTiers (exprStr : jsstr) (now : date) (c : cache)
  : result exn (option (list parsed_tier)) * cache :=
  let '(timed, c) := readTimeTokenPricing exprStr (Some now) c in
  (let! t := timed in
   Ok (match t with Some (_, current) => Some (map mapTimeTier current) | None => None end), c).

(** The exception is that of the rule reader, or of the task reader. *)
Inductive task_reader_error := FromRules (e : json_error) | FromTiers (e : exn).

Definition parseTaskTiersFromExpr (exprStr : jsstr) (schema : option usage_schema)
    (includeBooleanConditions : bool) (c : cache)
  : result task_reader_error (list task_tier) * cache :=
  match schema with
  | Some ((_ :: _) as schema) =>
      if negb (truthy exprStr) then (Ok [], c)
      else
        match splitBillingExprAndRequestRules exprStr with
        | Err e => (Err (FromRules e), c)
        | Ok (billingExpr, _) =>
            match compileBillingExpression billingExpr c with
            | (NotReady _, c) => (Ok [], c)
            | (Ready comp, c) =>
                (match readTaskTierChain (c_ast comp) schema includeBooleanConditions with
                 | Err e => Err (FromTiers e)
                 | Ok (Some tiers) => Ok tiers
                 | Ok None => Ok []
                 end, c)
            end
        end
  | _ => (Ok [], c)
  end.
End Readers.

(** * The row of a settled bill *)

(** [/<[=＝]?|≤|＜[=＝]?/g] replaced by the plain sign (and likewise for [>]): the
    ASCII or full-width sign with an optional equals sign, or the single character. *)
Definition is_equals (c : Z) : bool := ((c =? 61) || (c =? 65309))%Z.
Fixpoint fold_sign (ascii wide single : Z) (s : jsstr) : jsstr :=
  match s with
  | [] => []
  | c :: s' =>
      if ((c =? ascii) || (c =? wide))%Z then
        ascii :: match s' with
                 | d :: s'' => if is_equals d then fold_sign ascii wide single s''
                               else fold_sign ascii wide single s'
                 | [] => []
                 end
      else if (c =? single)%Z then ascii :: fold_sign ascii wide single s'
      else c :: fold_sign ascii wide single s'
  end.

Section Match.
Context {P : Platform}.

Definition normalizeTierLabel (label : option jsstr) : jsstr :=
  match label with
  | None | Some [] => []
  | Some l =>
      toLowerCase (List.filter (fun c => negb (is_space c))
        (fold_sign 62 65310 8805 (fold_sign 60 65308 8804 l)))
  end.

(** [BreakdownMatchTier]: a row of the token table or of the task table. *)
Inductive breakdown_tier := TokenRow (t : parsed_tier) | TaskRow (t : task_tier).

Definition row_label (t : breakdown_tier) : jsstr :=
  match t with TokenRow t => pt_label t | TaskRow t => kt_label t end.

Definition tierMatchesNormalizedLabel (tier : breakdown_tier) (normalized : jsstr) : bool :=
  truthy normalized && str_eqb (normalizeTierLabel (Some (row_label tier))) normalized.

(** A usage fact, a string or a number. *)
Definition fact_is (usageFacts : list (jsstr * jsvalue)) (condition : jsstr * jsstr) : bool :=
  match own usageFacts condition.1 with
  | Some fact => str_eqb (to_text fact) condition.2
  | None => false
  end.

Definition unit_differs (tier : breakdown_tier) (unit : option billing_unit)
    (fixed : option number) : bool :=
  match tier, unit with
  | TokenRow t, Some u =>
      let own_unit := match pt_billingUnit t with Some v => v | None => UToken end in
      negb (bool_decide (own_unit = u))
      || (bool_decide (u = URequest)
          && match fixed with
             | Some f => negb (match pt_fixedPrice t with Some g => num_eqb g f | None => false end)
             | None => false
             end)
  | _, _ => false
  end.

Definition isBreakdownTierMatched (tier : breakdown_tier) (tiers : list breakdown_tier)
    (matchedTierLabel : option jsstr) (usageFacts : option (list (jsstr * jsvalue)))
    (billingUnit : option billing_unit) (fixedPrice : option number) : bool :=
  if unit_differs tier billingUnit fixedPrice then false
  else
    let normalized := normalizeTierLabel matchedTierLabel in
    if tierMatchesNormalizedLabel tier normalized then true
    else if existsb (fun candidate => tierMatchesNormalizedLabel candidate normalized) tiers
    then false
    else
      match usageFacts, tier with
      | Some facts, TaskRow t =>
          match kt_conditions t with
          | [] => false
          | conditions => forallb (fact_is facts) conditions
          end
      | _, _ => false
      end.
End Match.
