(* ===== verification/TierExpr.v ===== *)
(** [pricing/lib/tier-expr.ts]: the configuration of the tier editor, the
    expression it generates, and the local price estimator. *)
From Stdlib Require Import ZArith Lia Bool String SpecFloat.
From stdpp Require Import base list option.
From S2P Require Import Prelude JsString JsNumber Types JsValue Compile Runtime Display Json RequestRules BillingVars.

(** * Configuration *)

Definition CACHE_MODE_TIMED : string := "timed".
Definition CACHE_MODE_GENERIC : string := "generic".

Record tier_condition_input := TierConditionInput {
  ci_var : jsstr;
  ci_op : jsstr;
  ci_value : jsvalue;
}.

(** [Partial<VisualTier>]: a missing property is [None]; the unit costs, and what
    else the index signature admits, are the entries of [vt_fields]. *)
Record visual_tier := VisualTier {
  vt_billing_unit : option jsstr;
  vt_fixed_price : option jsstr;
  vt_label : option jsstr;
  vt_conditions : option (list tier_condition_input);
  vt_cache_mode : option jsstr;
  vt_fields : list (jsstr * jsvalue);
}.

Abbreviation visual_config := (list visual_tier).

(** [tier[field]]. *)
Definition tier_field (tier : visual_tier) (field : string) : jsvalue :=
  match own (vt_fields tier) (js field) with Some v => v | None => JUndefined end.

(** [Number(tier[field]) || 0]. *)
Definition unit_cost (tier : visual_tier) (field : string) : number :=
  or_zero (to_Number (tier_field tier field)).

Definition getTierCacheMode (tier : visual_tier) : string :=
  let mode_is (m : string) := match vt_cache_mode tier with Some x => x === m | None => false end in
  if mode_is CACHE_MODE_TIMED then CACHE_MODE_TIMED
  else if mode_is CACHE_MODE_GENERIC then CACHE_MODE_GENERIC
  else if num_ltb num_zero (to_Number (tier_field tier "cache_create_1h_unit_cost"))
  then CACHE_MODE_TIMED else CACHE_MODE_GENERIC.

(** Assignment to a property of an object. *)
Fixpoint obj_set (key : jsstr) (v : jsvalue) (fields : list (jsstr * jsvalue))
  : list (jsstr * jsvalue) :=
  match fields with
  | [] => [(key, v)]
  | (k, w) :: f => if str_eqb key k then (k, v) :: f else (k, w) :: obj_set key v f
  end.
Definition obj_assign (fields more : list (jsstr * jsvalue)) : list (jsstr * jsvalue) :=
  fold_left (fun acc e => obj_set e.1 e.2 acc) more fields.

(** The fields that are normalized after the spread of the tier. *)
Definition NORMALIZED_FIELDS : list string :=
  ["cache_read_unit_cost"; "cache_create_unit_cost"; "cache_create_1h_unit_cost";
   "image_unit_cost"; "image_output_unit_cost"; "audio_input_unit_cost";
   "audio_output_unit_cost"]%string.

(** The spread [...tier] overrides the defaults before it with what the tier has. *)
Definition normalizeVisualTier (tier : visual_tier) : visual_tier :=
  let cost f := (js f, JNum (unit_cost tier f)) in
  VisualTier (vt_billing_unit tier) (vt_fixed_price tier)
    (Some (match vt_label tier with Some l => l | None => [] end))
    (Some (match vt_conditions tier with Some c => c | None => [] end))
    (Some (match vt_cache_mode tier with Some m => m | None => js (getTierCacheMode tier) end))
    (obj_assign
       (obj_assign (map cost ["input_unit_cost"; "output_unit_cost"]%string) (vt_fields tier))
       (map cost NORMALIZED_FIELDS)).

Definition createDefaultVisualConfig : visual_config :=
  [normalizeVisualTier
     (VisualTier None None (Some (js "base")) (Some []) (Some (js CACHE_MODE_GENERIC))
        [(js "input_unit_cost", JNum num_zero); (js "output_unit_cost", JNum num_zero)])].

Definition normalizeVisualConfig (config : option visual_config) : visual_config :=
  match config with
  | None | Some [] => createDefaultVisualConfig
  | Some tiers => map normalizeVisualTier tiers
  end.

(** * The generated expression *)

(** The filter on conditions: variable, operator and value are present. *)
Definition condition_present (c : tier_condition_input) : bool :=
  truthy (ci_var c) && truthy (ci_op c) && negb (nullish (ci_value c))
  && negb (match ci_value c with JStr [] => true | _ => false end).

Definition condition_str (c : tier_condition_input) : jsstr :=
  ci_var c ++ js " " ++ ci_op c ++ js " " ++ to_text (ci_value c).

Definition buildConditionStr (conditions : option (list tier_condition_input)) : jsstr :=
  match conditions with
  | None | Some [] => []
  | Some cs => join (js " && ") (map condition_str (List.filter condition_present cs))
  end.

(** [`${var} * ${cost}`]. *)
Definition cost_term (var : string) (v : number) : jsstr := js var ++ js " * " ++ num_to_string v.

(** The loop over [BILLING_CACHE_VAR_MAP]: terms with a cost other than zero. *)
Definition extra_terms (tier : visual_tier) : list jsstr :=
  concat (map (fun cv : string * string =>
    let v := unit_cost tier cv.1 in
    if num_eqb v num_zero then [] else [cost_term cv.2 v]) BILLING_CACHE_VAR_MAP).

Definition buildTierBodyExpr (tier : visual_tier) : jsstr :=
  if match vt_billing_unit tier with Some u => u === "request" | None => false end
  then js "fixed(" ++ (match vt_fixed_price tier with Some f => f | None => [] end) ++ js ")"
  else
    join (js " + ")
      ([cost_term "p" (unit_cost tier "input_unit_cost");
        cost_term "c" (unit_cost tier "output_unit_cost")] ++ extra_terms tier).

(** [tier.label || fallback]. *)
Definition label_or (tier : visual_tier) (fallback : jsstr) : jsstr :=
  match vt_label tier with Some ((_ :: _) as l) => l | _ => fallback end.

Definition tier_call (tier : visual_tier) (fallback : jsstr) : jsstr :=
  js "tier(" ++ [QUOTE] ++ label_or tier fallback ++ [QUOTE] ++ js ", "
  ++ buildTierBodyExpr tier ++ js ")".

(** The parts of the loop over several tiers, from index [i] on. *)
Fixpoint tier_parts (i : nat) (tiers : list visual_tier) : list jsstr :=
  match tiers with
  | [] => []
  | tier :: rest =>
      let body := tier_call tier (js "tier_" ++ string_of_Z (Z.of_nat (S i))) in
      let cond := buildConditionStr (vt_conditions tier) in
      (if negb (match rest with [] => true | _ => false end) && truthy cond
       then cond ++ js " ? " ++ body else body) :: tier_parts (S i) rest
  end.

Definition EMPTY_PRICE : string := "p * 0 + c * 0".

Definition generateExprFromVisualConfig (config : option visual_config) : jsstr :=
  match config with
  | None | Some [] => js EMPTY_PRICE
  | Some [tier] =>
      let body := tier_call tier (js "default") in
      let cond := buildConditionStr (vt_conditions tier) in
      if truthy cond then cond ++ js " ? " ++ body ++ js " : " ++ js EMPTY_PRICE else body
  | Some tiers => join (js " : ") (tier_parts 0 tiers)
  end.

(** * The estimator *)

Definition ESTIMATOR_VARS : list (string * string) :=
  [("cr", "cacheReadTokens"); ("cc", "cacheCreateTokens"); ("cc1h", "cacheCreate1hTokens");
   ("img", "imageTokens"); ("img_o", "imageOutputTokens"); ("ai", "audioInputTokens");
   ("ao", "audioOutputTokens")]%string.

(** [ExtraTokenValues]: a number for every state key. *)
Abbreviation extra_token_values := (string -> number).

Definition buildEstimatorTokens (promptTokens completionTokens : number)
    (extra : extra_token_values) : list (jsstr * jsvalue) :=
  obj_assign
    [(js "p", JNum promptTokens); (js "c", JNum completionTokens);
     (js "len", JNum (num_add (num_add (num_add promptTokens (extra "cacheReadTokens"%string))
                        (extra "cacheCreateTokens"%string)) (extra "cacheCreate1hTokens"%string)))]
    (map (fun f => (js f.1, JNum (extra f.2))) ESTIMATOR_VARS).

Record eval_result := EvalResult {
  er_cost : number;
  er_matchedTier : jsstr;
  er_error : option jsstr;
  er_billingUnit : option billing_unit;
}.

(** Whether [exprStr] names a variable of the estimator's extra fields. *)
Definition exprUsesExtraVars (exprStr : jsstr) (c : cache) : bool * cache :=
  if negb (truthy exprStr) then (false, c)
  else
    match compileBillingExpression exprStr c with
    | (NotReady _, c) => (false, c)
    | (Ready comp, c) => (existsb (fun f => set_has (c_variables comp) f.1) ESTIMATOR_VARS, c)
    end.

Section Estimator.
Context {P : Platform}.

Definition evalExprLocally (exprStr : jsstr) (promptTokens completionTokens : number)
    (extra : extra_token_values) (cx : option context) (new_Date : date) (c : cache)
  : eval_result * cache :=
  match trim exprStr with
  | [] => (EvalResult num_zero [] None None, c)
  | _ =>
      let base := match cx with Some cx => cx | None => Context None None None None None end in
      let toks := obj_assign (buildEstimatorTokens promptTokens completionTokens extra)
                    (match tokens base with Some t => t | None => [] end) in
      let '(result, c) :=
        evaluateBillingExpression exprStr
          (Context (Some toks) (ctx_request base) (usage base) (now base) (ctx base)) new_Date c in
      (match result with
       | Failed f => EvalResult num_zero [] (Some (detail (fail_diagnostic f))) None
       | Success cost unit _ tier _ =>
           EvalResult cost tier None (if bool_decide (unit = URequest) then Some unit else None)
       end, c)
  end.
End Estimator.
