(* ===== verification/TierFacts.v ===== *)
(** The expression generated by the tier editor: it compiles, the price table
    read off it is the configuration, and what it charges is the first tier of
    the configuration whose conditions hold. *)
From Stdlib Require Import ZArith Lia Bool String SpecFloat.
From stdpp Require Import base list option.
From S2P Require Import Prelude JsString JsNumber Types JsValue Lexer Parser Grammar ParserFacts Pieces TypeCheck Compile Runtime RuntimeFacts Display DisplayFacts TypeSound FixedPrice Written Json RequestRules BillingVars TierExpr.

(** * Chains of one operator *)

Lemma flatten_fold op es : forall e,
  flattenBinary (fold_left (NBinary 0 0 op) es e) op =
  flattenBinary e op ++ concat (map (fun x => flattenBinary x op) es).
Proof.
  induction es as [|x es IH]; intros e; simpl; [by rewrite app_nil_r|].
  rewrite IH. simpl. by rewrite str_eqb_refl, <- app_assoc.
Qed.

Lemma height_fold op es : forall e b, node_height e <= b -> Forall (fun x => node_height x <= b) es ->
  node_height (fold_left (NBinary 0 0 op) es e) <= b + length es.
Proof.
  induction es as [|x es IH]; intros e b He Hes; simpl; [lia|].
  apply list.Forall_cons in Hes as [Hx Hes].
  specialize (IH (NBinary 0 0 op e x) (S b)). rewrite <- Nat.add_succ_comm. apply IH.
  - rewrite node_height_unfold. simpl. lia.
  - eapply Forall_impl; [|exact Hes]. simpl. lia.
Qed.

Lemma typed_fold op t es : forall e,
  (forall a b, typed a t -> typed b t -> typed (NBinary 0 0 op a b) t) ->
  typed e t -> Forall (fun x => typed x t) es -> typed (fold_left (NBinary 0 0 op) es e) t.
Proof.
  induction es as [|x es IH]; intros e Hop He Hes; simpl; [done|].
  apply list.Forall_cons in Hes as [Hx Hes]. auto.
Qed.

Lemma left_sums_node n : left_sums n <-> left_sum n /\ Forall left_sums (children n).
Proof.
  unfold left_sums at 1. rewrite subnodes_unfold, list.Forall_cons. apply and_iff_compat_l.
  induction (children n) as [|c cs IH]; simpl; [split; constructor|].
  by rewrite Forall_app, list.Forall_cons, IH.
Qed.

Lemma left_sums_fold op es : forall e, left_sums e ->
  Forall (fun x => left_sums x /\ is_sum x = false) es -> left_sums (fold_left (NBinary 0 0 op) es e).
Proof.
  induction es as [|x es IH]; intros e He Hes; simpl; [done|].
  apply list.Forall_cons in Hes as [[Hx Hs] Hes]. apply IH; [|done].
  apply left_sums_node. split; [by intros _|]. by repeat constructor.
Qed.

Lemma left_sums_erase n : left_sums (erase n) -> left_sums n.
Proof.
  induction n as [n IH] using node_children_ind. rewrite !left_sums_node. intros [H1 H2]. split.
  - destruct n as [| | | | |? ? op l r|]; try done. simpl in *. intros Ho. specialize (H1 Ho).
    by destruct r.
  - rewrite children_erase, Forall_map in H2. rewrite Forall_elem in *. auto.
Qed.

(** * What a configuration says *)

(** A text that the scanner reads as a non-negative number. *)
Definition reads_number (t : jsstr) : option number :=
  match scan_number t with
  | Some (_, v) => if number_reads t v && num_leb num_zero v then Some v else None
  | None => None
  end.

(** Labels that are written between quotes as they are. *)
Definition plain_label (l : jsstr) : bool :=
  forallb (fun c => negb ((c =? QUOTE) || (c =? BACKSLASH) || (c =? LF) || (c =? CR))%Z) l.

Definition condition_of (c : tier_condition_input) : option token_condition :=
  if one_of (ci_var c) ["p"; "c"; "len"]%string && one_of (ci_op c) ["<"; "<="; ">"; ">="]%string
  then option_map (TokenCondition (ci_var c) (ci_op c)) (reads_number (to_text (ci_value c)))
  else None.

Definition conditions_of (cs : option (list tier_condition_input)) : option (list token_condition) :=
  match cs with
  | None => Some []
  | Some cs => map_option condition_of (List.filter condition_present cs)
  end.

(** The terms of a tier priced by tokens: input, output, and the extra variables
    with a cost. *)
Definition price_terms (tier : visual_tier) : list (string * number) :=
  ("p"%string, unit_cost tier "input_unit_cost") ::
  ("c"%string, unit_cost tier "output_unit_cost") ::
  map (fun cv => (cv.2, unit_cost tier cv.1))
    (List.filter (fun cv => negb (num_eqb (unit_cost tier cv.1) num_zero)) BILLING_CACHE_VAR_MAP).

Definition is_request (tier : visual_tier) : bool :=
  match vt_billing_unit tier with Some u => u === "request" | None => false end.
Definition fixed_text (tier : visual_tier) : jsstr :=
  match vt_fixed_price tier with Some f => f | None => [] end.

(** The row of the price table for a tier, when its label can be quoted and its
    prices are written as non-negative numbers. *)
Definition config_tier (conditions : list token_condition) (fallback : jsstr)
    (tier : visual_tier) : option token_tier :=
  let label := label_or tier fallback in
  if negb (plain_label label) then None
  else if is_request tier then
    match reads_number (fixed_text tier) with
    | Some v => if is_finite (num_mul v MILLION)
                then Some (TokenTier (Some URequest) (Some v) label conditions []) else None
    | None => None
    end
  else if forallb (fun t => number_reads (num_to_string t.2) t.2 && num_leb num_zero t.2)
            (price_terms tier)
  then Some (TokenTier None None label conditions
               (map (fun t => (js t.1, t.2)) (price_terms tier)))
  else None.

Fixpoint config_chain (i : nat) (tiers : list visual_tier) : option (list token_tier) :=
  match tiers with
  | [] => None
  | tier :: rest =>
      let fallback := js "tier_" ++ string_of_Z (Z.of_nat (S i)) in
      match rest with
      | [] => option_map (fun t => [t]) (config_tier [] fallback tier)
      | _ =>
          match conditions_of (vt_conditions tier) with
          | Some ((_ :: _) as cs) =>
              match config_tier cs fallback tier, config_chain (S i) rest with
              | Some t, Some ts => Some (t :: ts)
              | _, _ => None
              end
          | _ => None
          end
      end
  end.

(** The price table of a configuration: one unconditional tier, or tiers of which
    all but the last have a condition. *)
Definition configured (config : visual_config) : option (list token_tier) :=
  match config with
  | [tier] =>
      match conditions_of (vt_conditions tier) with
      | Some [] => option_map (fun t => [t]) (config_tier [] (js "default") tier)
      | _ => None
      end
  | _ => config_chain 0 config
  end.

(** * Pieces of the generated text *)

Lemma reads_number_inv t v :
  reads_number t = Some v -> number_reads t v = true /\ num_leb num_zero v = true.
Proof.
  unfold reads_number. destruct (scan_number t) as [[n w]|]; [|done].
  destruct (number_reads t w) eqn:E1; [|done]. destruct (num_leb num_zero w) eqn:E2; [|done].
  by intros [= <-].
Qed.

Lemma nonnegative_not_below v : num_leb num_zero v = true -> num_ltb v num_zero = false.
Proof. destruct v as [s|s| |s m e]; try (by destruct s); done. Qed.

Lemma lex_string_plain start l : plain_label l = true -> forall cur rest acc,
  lex_string start QUOTE (l ++ QUOTE :: rest) cur acc = Ok (acc ++ l, S (cur + length l)).
Proof.
  induction l as [|c l IH]; simpl; intros Hl cur rest acc.
  - by rewrite app_nil_r, Nat.add_0_r.
  - apply andb_true_iff in Hl as [Hc Hl]. apply negb_true_iff in Hc.
    apply orb_false_iff in Hc as [Hc H4]. apply orb_false_iff in Hc as [Hc H3].
    apply orb_false_iff in Hc as [H1 H2]. rewrite H1, H2, H3, H4. simpl. rewrite IH by done.
    rewrite <- app_assoc. simpl. do 2 f_equal. lia.
Qed.

Lemma plain_label_reads l : plain_label l = true -> string_reads l l.
Proof. intros H start cur rest acc. by apply lex_string_plain. Qed.

(** ** Conditions *)

Definition condition_node (c : tier_condition_input) (v : number) : node :=
  NBinary 0 0 (ci_op c) (NVariable 0 0 (ci_var c)) (num_node v (to_text (ci_value c))).

(** What the chain needs to know about a written condition. *)
Record condition_ok (e : node) (b : nat) (cs : list token_condition) : Prop := {
  co_conditions : tokenConditions e = Some cs;
  co_typed : typed e TBoolean;
  co_height : node_height e <= b;
  co_unmarked : unmarked e;
  co_guard : isContextGuard e = false;
  co_sums : left_sums e;
}.

Lemma condition_written c tc :
  condition_of c = Some tc ->
  exists v, written 2 4 (condition_str c) (condition_node c v) /\
    token_condition_of (condition_node c v) = Some tc /\
    typed (condition_node c v) TBoolean /\ (ci_op c === "&&") = false /\ (ci_op c === "+") = false /\
    one_of (ci_op c) ["=="; "!="; "==="; "!=="]%string = false.
Proof.
  unfold condition_of. destruct (one_of (ci_var c) _) eqn:Ev; [|done].
  destruct (one_of (ci_op c) _) eqn:Eo; [|done]. simpl.
  destruct (reads_number (to_text (ci_value c))) as [v|] eqn:En; [|done]. intros [= <-].
  apply reads_number_inv in En as [Hn Hv]. exists v.
  assert (Hvar : one_of (ci_var c) TOKEN_VARIABLES = true).
  { apply one_of_In in Ev as (x & Hx & ->). by destruct Hx as [<-|[<-|[<-|[]]]]. }
  assert (Hop : table_get PRECEDENCE (ci_op c) = Some 4 /\ (ci_op c === "&&") = false /\
    (ci_op c === "+") = false /\ one_of (ci_op c) ["=="; "!="; "==="; "!=="]%string = false /\
    one_of (ci_op c) ["=="; "<"; "<="; ">"; ">="]%string = true).
  { apply one_of_In in Eo as (x & Hx & ->). by destruct Hx as [<-|[<-|[<-|[<-|[]]]]]. }
  destruct Hop as (H4 & H5 & H6 & H7 & H8). split_and!; [| | |done|done|done].
  - apply written_binary; [done| |].
    + apply written_level with 7; [by apply written_variable|lia].
    + apply written_level with 7; [by apply written_number|lia].
  - simpl. rewrite Eo, Ev. by rewrite nonnegative_not_below.
  - eapply T_compare; [done|constructor|apply T_literal].
Qed.

Lemma unmarked_node n : (forall x, ~ is_call x n) -> Forall unmarked (children n) -> unmarked n.
Proof.
  intros Hn Hc m Hm. rewrite subnodes_unfold in Hm. apply elem_of_cons in Hm as [->|Hm]; [auto|].
  apply list_elem_of_In, in_concat in Hm as (l & Hl & Hin). apply in_map_iff in Hl as (c & <- & Hx).
  rewrite Forall_elem in Hc. apply (Hc c); by apply list_elem_of_In.
Qed.

Lemma unmarked_binary s e op l r : unmarked l -> unmarked r -> unmarked (NBinary s e op l r).
Proof. intros. apply unmarked_node; [by intros x (? & ? & ? & ?)|forall_solve]. Qed.
Lemma unmarked_leaf n : children n = [] -> (forall x, ~ is_call x n) -> unmarked n.
Proof. intros E H. apply unmarked_node; [done|]. by rewrite E. Qed.

Lemma unmarked_fold op es : forall e, unmarked e -> Forall unmarked es ->
  unmarked (fold_left (NBinary 0 0 op) es e).
Proof.
  induction es as [|x es IH]; intros e He Hes; simpl; [done|].
  apply list.Forall_cons in Hes as [Hx Hes]. apply IH; [|done]. by apply unmarked_binary.
Qed.

Lemma condition_unmarked c v : unmarked (condition_node c v).
Proof.
  apply unmarked_binary; apply unmarked_leaf; try done; intros x (? & ? & ? & ?); done.
Qed.

(** Parts that do not split further, read one by one. *)
Lemma flat_options {A} op (f : node -> option A) e es xs :
  Forall2 (fun e x => flattenBinary e op = [e] /\ f e = Some x) (e :: es) xs ->
  map_option f (flattenBinary e op ++ concat (map (fun y => flattenBinary y op) es)) = Some xs.
Proof.
  intros H. change (flattenBinary e op ++ _) with (concat (map (fun y => flattenBinary y op) (e :: es))).
  induction H as [|y x ys xs [Hy Hx] _ IH]; simpl; [done|]. rewrite Hy. simpl. by rewrite Hx, IH.
Qed.

Lemma conditions_written (cs : list tier_condition_input) tcs :
  map_option condition_of cs = Some tcs -> tcs <> [] ->
  exists e, written 3 2 (join (js " && ") (map condition_str cs)) e /\
    condition_ok e (2 + length cs) tcs.
Proof.
  intros H Hne.
  assert (Hall : exists es, Forall2 (written 2 4) (map condition_str cs) es /\
    Forall2 (fun e tc => flattenBinary e (js "&&") = [e] /\ token_condition_of e = Some tc) es tcs /\
    Forall (fun e => typed e TBoolean /\ node_height e <= 2 /\ unmarked e /\
      isContextGuard e = false /\ left_sums e /\ is_sum e = false) es).
  { clear Hne. revert tcs H. induction cs as [|c cs IH]; simpl; intros tcs H.
    - injection H as <-. exists []. by repeat constructor.
    - destruct (condition_of c) as [tc|] eqn:Ec; [|done].
      destruct (map_option condition_of cs) as [tcs'|] eqn:Em; [|done]. injection H as <-.
      destruct (IH _ eq_refl) as (es & H1 & H2 & H3).
      destruct (condition_written c tc Ec) as (v & W & T & Ty & O1 & O2 & O3).
      exists (condition_node c v :: es). split; [by constructor|]. split.
      + constructor; [|done]. split; [|done]. cbn [condition_node flattenBinary]. by rewrite O1.
      + constructor; [|done]. split_and!; [done| |apply condition_unmarked| | |done].
        * by rewrite node_height_unfold.
        * cbn [condition_node isContextGuard]. by rewrite O3.
        * apply left_sums_node. split; [intros E; by rewrite O2 in E|]. by repeat constructor. }
  destruct Hall as (es & H1 & H2 & H3).
  pose proof (Forall2_length H1) as Hlen. rewrite length_map in Hlen.
  destruct H1 as [|t e ts es Ht Hts]; [inversion H2; subst; done|].
  inversion H3 as [|? ? (K1 & K2 & K3 & K4 & K5 & K6) H3']; subst.
  exists (fold_left (NBinary 0 0 (js "&&")) es e). split.
  - apply (written_infix 2 2 (js "&&")); [done| |].
    + apply written_level with 4; [apply written_deeper with 2; [done|lia]|lia].
    + eapply Forall2_impl; [|exact Hts]. intros u eu Hu. apply written_level with 4; [done|lia].
  - constructor.
    + unfold tokenConditions. rewrite flatten_fold. by eapply flat_options.
    + apply typed_fold; [by constructor|done|]. eapply Forall_impl; [|exact H3']. by intros ? (? & _).
    + eapply Nat.le_trans; [apply (height_fold _ _ _ 2); [done|]|].
      * eapply Forall_impl; [|exact H3']. by intros ? (? & ? & _).
      * simpl in Hlen. lia.
    + apply unmarked_fold; [done|]. eapply Forall_impl; [|exact H3']. by intros ? (? & ? & ? & _).
    + destruct es as [|x es]; [done|]. simpl. clear. revert x e.
      induction es as [|y es IH]; intros x e; simpl; [done|]. apply IH.
    + apply left_sums_fold; [done|]. eapply Forall_impl; [|exact H3'].
      by intros ? (? & ? & ? & ? & ? & ?).
Qed.

(** ** The body of a tier *)

Definition term_node (t : string * number) : node :=
  NBinary 0 0 (js "*") (NVariable 0 0 (js t.1)) (num_node t.2 (num_to_string t.2)).

(** A price per token of a variable of the table. *)
Definition term_ok (t : string * number) : Prop :=
  one_of (js t.1) TOKEN_VARIABLES = true /\ (js t.1 === "len") = false /\
  number_reads (num_to_string t.2) t.2 = true /\ num_leb num_zero t.2 = true.

Lemma term_written t : term_ok t -> written 2 6 (cost_term t.1 t.2) (term_node t).
Proof.
  intros (Hx & _ & Hn & _). apply (written_binary 1 6 (js "*")); [done| |].
  - apply written_level with 7; [by apply written_variable|lia].
  - by apply written_number.
Qed.

Lemma has_price_none (ps : list (jsstr * number)) x : x ∉ map fst ps -> has_price ps x = false.
Proof.
  unfold has_price. intros H. apply not_true_iff_false. rewrite existsb_exists.
  intros ([y v] & Hin & E). apply str_eqb_eq in E. simpl in E. subst y. apply H.
  apply list_elem_of_In, in_map_iff. by exists (x, v).
Qed.

Lemma token_prices_terms ts : forall ps,
  Forall term_ok ts -> NoDup (map fst ps ++ map (fun t => js t.1) ts) ->
  token_prices (map term_node ts) ps = Some (ps ++ map (fun t => (js t.1, t.2)) ts).
Proof.
  induction ts as [|t ts IH]; intros ps Hok Hn; simpl; [by rewrite app_nil_r|].
  apply list.Forall_cons in Hok as [(_ & Hl & _ & Hv) Hok].
  rewrite Hv, Hl. simpl. rewrite has_price_none.
  - simpl. rewrite IH, <- app_assoc; [done|done|].
    rewrite map_app. simpl. by rewrite <- app_assoc.
  - simpl in Hn. apply list.NoDup_app in Hn as (_ & Hd & _). intros Hin. apply (Hd _ Hin). left.
Qed.

Lemma NoDup_map_filter {A B} (f : A -> B) (p : A -> bool) l :
  NoDup (map f l) -> NoDup (map f (List.filter p l)).
Proof.
  induction l as [|x l IH]; simpl; intros H; [done|].
  inversion H as [|? ? Hx Hl]; subst. destruct (p x); [|auto]. simpl. constructor; [|auto].
  intros Hin. apply Hx. apply list_elem_of_In, in_map_iff in Hin as (y & E & Hy).
  apply filter_In in Hy as [Hy _]. apply list_elem_of_In, in_map_iff. eauto.
Qed.

Lemma price_terms_ok tier :
  forallb (fun t => number_reads (num_to_string t.2) t.2 && num_leb num_zero t.2)
    (price_terms tier) = true -> Forall term_ok (price_terms tier).
Proof.
  intros H. rewrite forallb_forall in H.
  assert (Hn : Forall (fun t => one_of (js t.1) TOKEN_VARIABLES = true /\ (js t.1 === "len") = false)
    (price_terms tier)).
  { unfold price_terms. do 2 (constructor; [done|]). apply Forall_map, List.Forall_forall.
    intros cv Hcv. apply filter_In in Hcv as [Hcv _].
    repeat (destruct Hcv as [<-|Hcv]; [done|]). destruct Hcv. }
  rewrite List.Forall_forall in *. intros t Ht. destruct (Hn t Ht) as [? ?].
  specialize (H t Ht). apply andb_true_iff in H as [? ?]. by split_and!.
Qed.

(** A decidable fact about closed lists. *)
Ltac closed_fact := apply (bool_decide_unpack _); vm_compute; exact I.

Lemma price_terms_distinct tier : NoDup (map (fun t => js t.1) (price_terms tier)).
Proof.
  unfold price_terms. cbn [map fst]. rewrite map_map. cbn [fst].
  assert (Hk : forall x, x ∈ map (fun cv : string * string => js cv.2)
      (List.filter (fun cv => negb (num_eqb (unit_cost tier cv.1) num_zero)) BILLING_CACHE_VAR_MAP) ->
    x ∈ map (fun cv : string * string => js cv.2) BILLING_CACHE_VAR_MAP).
  { intros x Hx. apply list_elem_of_In, in_map_iff in Hx as (cv & <- & Hcv).
    apply filter_In in Hcv as [Hcv _]. apply list_elem_of_In, in_map_iff. eauto. }
  constructor; [|constructor].
  - rewrite not_elem_of_cons. split; [done|]. intros Hx%Hk. revert Hx. closed_fact.
  - intros Hx%Hk. revert Hx. closed_fact.
  - apply NoDup_map_filter. closed_fact.
Qed.

Lemma body_text tier : is_request tier = false ->
  buildTierBodyExpr tier = join (js " + ") (map (fun t => cost_term t.1 t.2) (price_terms tier)).
Proof.
  unfold is_request, buildTierBodyExpr, price_terms, extra_terms. intros ->. do 2 f_equal.
  cbn [map app fst snd]. do 2 f_equal. rewrite map_map. cbn [fst snd].
  induction BILLING_CACHE_VAR_MAP as [|cv l IH]; simpl; [done|].
  destruct (num_eqb _ _); simpl; by rewrite IH.
Qed.

(** The sum of the prices of a tier. *)
Definition sum_node (ts : list (string * number)) : node :=
  match ts with
  | [] => num_node num_zero []
  | t :: ts => fold_left (NBinary 0 0 (js "+")) (map term_node ts) (term_node t)
  end.

Lemma sum_written ts : Forall term_ok ts -> ts <> [] ->
  written 3 5 (join (js " + ") (map (fun t => cost_term t.1 t.2) ts)) (sum_node ts).
Proof.
  intros Hok Hne. destruct ts as [|t ts]; [done|]. apply list.Forall_cons in Hok as [Ht Hok].
  apply (written_infix 2 5 (js "+")); [done| |].
  - apply written_level with 6; [apply written_deeper with 2; [by apply term_written|lia]|lia].
  - clear Hne. induction Hok as [|u us Hu _ IH]; simpl; [constructor|].
    constructor; [by apply term_written|done].
Qed.

Lemma term_unmarked t : unmarked (term_node t).
Proof.
  apply unmarked_binary; apply unmarked_leaf; try done; intros x (? & ? & ? & ?); done.
Qed.

Lemma sum_facts ts : ts <> [] ->
  flattenBinary (sum_node ts) (js "+") = map term_node ts /\ typed (sum_node ts) TNumber /\ (node_height (sum_node ts) <= 1 + length ts)%nat /\ unmarked (sum_node ts) /\ left_sums (sum_node ts).
Proof.
  intros Hne. destruct ts as [|t ts]; [done|]. cbn [sum_node]. split_and!.
  - rewrite flatten_fold. simpl. f_equal. clear Hne.
    induction ts as [|u us IH]; simpl; [done|]. by rewrite IH.
  - apply typed_fold.
    + intros a b Ha Hb. eapply T_arithmetic; eauto.
    + eapply T_arithmetic; [done|constructor|apply T_literal|by left|by left].
    + apply Forall_map, List.Forall_forall. intros u _.
      eapply T_arithmetic; [done|constructor|apply T_literal|by left|by left].
  - eapply Nat.le_trans; [apply (height_fold _ _ _ 2)|rewrite length_map; simpl; lia].
    + done.
    + apply Forall_map, List.Forall_forall. by intros u _.
  - apply unmarked_fold; [apply term_unmarked|]. apply Forall_map, List.Forall_forall.
    intros u _. apply term_unmarked.
  - apply left_sums_fold.
    + apply left_sums_node. split; [done|]. repeat constructor.
    + apply Forall_map, List.Forall_forall. intros u _. split; [|done].
      apply left_sums_node. split; [done|]. repeat constructor.
Qed.

(** ** Tiers *)

Lemma unmarked_marker n : unmarked n -> node_height n <= 257 -> containsPricingMarker n = Ok false.
Proof.
  intros Hu Hh. unfold containsPricingMarker.
  destruct (expressionDependencies_total n Hh) as [d Hd]. rewrite Hd.
  apply expressionDependencies_spec in Hd as [_ Hf].
  assert (Hno : forall x, (forall m, m ∈ subnodes n -> ~ is_call (js x) m) ->
    set_has (functions d) x = false).
  { intros x Hx. apply not_true_iff_false. rewrite set_has_elem, Hf. intros (m & Hm & Hc).
    exact (Hx m Hm Hc). }
  rewrite !Hno; [done|..]; intros m Hm; apply (Hu m Hm).
Qed.

(** What the chain needs to know about a written tier. *)
Record tier_ok (e : node) (t : token_tier) : Prop := {
  to_tier : tokenTier e (tt_conditions t) = Ok (Some t);
  to_typed : typed e TNumber;
  to_height : node_height e <= 12;
  to_valid : check_tier e = Ok tt;
  to_sums : left_sums e;
  to_call : is_conditional e = false;
  to_prices : no_minus_zero (tt_prices t);
}.

Lemma str_unmarked l : unmarked (str_node l).
Proof. apply unmarked_leaf; [done|]. by intros x (? & ? & ? & ?). Qed.

Lemma fixed_tier_ok label v t cs :
  num_leb num_zero v = true -> is_finite (num_mul v MILLION) = true ->
  tier_ok (NCall 0 0 (js "tier") [str_node label; NCall 0 0 (js "fixed") [num_node v t]])
    (TokenTier (Some URequest) (Some v) label cs []).
Proof.
  intros Hv Hf. constructor; try done.
  - apply T_tier; [apply (T_literal 0 0 (LString label))|]. apply T_fixed, (T_literal 0 0 (LNumber v)).
  - rewrite !node_height_unfold. simpl. lia.
  - unfold check_tier. cbn [valid_tier]. change (js "tier" === "tier") with true. cbv iota.
    rewrite unmarked_marker; [|apply str_unmarked|rewrite node_height_unfold; simpl; lia].
    cbn [negb valid_price]. change (js "fixed" === "fixed") with true. cbv iota.
    unfold num_node. fold MILLION. by rewrite Hv, Hf.
  - apply left_sums_node. split; [done|]. constructor; [repeat constructor|]. repeat constructor.
  - constructor.
Qed.

Lemma unit_cost_sign tier f : is_negative_zero (unit_cost tier f) = false.
Proof.
  unfold unit_cost, or_zero. by destruct (to_Number (tier_field tier f)) as [|[]| |].
Qed.

Lemma sum_node_binary ts : ts <> [] -> exists op l r, sum_node ts = NBinary 0 0 op l r.
Proof.
  destruct ts as [|t ts]; [done|]. intros _. cbn [sum_node]. unfold term_node at 2.
  generalize (js "*"), (NVariable 0 0 (js t.1)), (num_node t.2 (num_to_string t.2)).
  induction (map term_node ts) as [|x l IH]; intros op a b; simpl; eauto.
Qed.

Lemma priced_tier_ok label cs tier :
  Forall term_ok (price_terms tier) ->
  tier_ok (NCall 0 0 (js "tier") [str_node label; sum_node (price_terms tier)])
    (TokenTier None None label cs (map (fun t => (js t.1, t.2)) (price_terms tier))).
Proof.
  intros Hok. destruct (sum_facts (price_terms tier)) as (F1 & F2 & F3 & F4 & F5); [done|].
  assert (Hlen : length (price_terms tier) <= 9).
  { unfold price_terms. cbn [length]. rewrite length_map.
    pose proof (filter_length_le (fun cv => negb (num_eqb (unit_cost tier cv.1) num_zero)) BILLING_CACHE_VAR_MAP).
    change (length BILLING_CACHE_VAR_MAP) with 7 in H. lia. }
  constructor; try done.
  - cbn [tokenTier]. change (js "tier" === "tier") with true. cbn [lookup list_lookup mbind option_bind string_literal str_node].
    cbn [need lookup list_lookup].
    assert (Hfb : fixed_body (sum_node (price_terms tier)) = Ok None)
      by (by destruct (sum_node_binary (price_terms tier) ltac:(done)) as (op & l & r & ->)).
    unfold need. simpl lookup. cbv iota beta. rewrite Hfb, F1, token_prices_terms; [|done|].
    + done.
    + apply price_terms_distinct.
  - apply T_tier; [apply (T_literal 0 0 (LString label))|done].
  - clear - F3 Hlen. remember (sum_node (price_terms tier)) as n. rewrite node_height_unfold. simpl.
    change (node_height (str_node label)) with 1. lia.
  - unfold check_tier. cbn [valid_tier]. change (js "tier" === "tier") with true. cbv iota.
    rewrite unmarked_marker; [|apply str_unmarked|rewrite node_height_unfold; simpl; lia].
    cbn [negb]. unfold valid_price.
    assert (Hm : containsPricingMarker (sum_node (price_terms tier)) = Ok false)
      by (apply unmarked_marker; [done|lia]).
    rewrite Hm. by destruct (sum_node_binary (price_terms tier) ltac:(done)) as (op & l & r & ->).
  - apply left_sums_node. split; [done|]. constructor; [repeat constructor|].
    constructor; [done|constructor].
  - apply Forall_map, List.Forall_forall. intros t Ht. simpl.
    assert (Hs : exists f, t.2 = unit_cost tier f) by
      (destruct Ht as [<-|[<-|Ht]]; [by eexists..|]; apply in_map_iff in Ht as (cv & <- & _); by eexists).
    destruct Hs as [f ->]. apply unit_cost_sign.
Qed.

Lemma config_tier_conditions cs fb tier t : config_tier cs fb tier = Some t -> tt_conditions t = cs.
Proof.
  unfold config_tier. destruct (negb _); [done|]. destruct (is_request tier).
  - destruct (reads_number _); [|done]. destruct (is_finite _); [|done]. by intros [= <-].
  - destruct (forallb _ _); [|done]. by intros [= <-].
Qed.

Lemma tier_written cs fb tier t :
  config_tier cs fb tier = Some t -> exists e, written 4 7 (tier_call tier fb) e /\ tier_ok e t.
Proof.
  unfold config_tier. destruct (plain_label (label_or tier fb)) eqn:El; [|done]. cbn [negb].
  set (label := label_or tier fb) in *.
  assert (Hcall : forall body eb, buildTierBodyExpr tier = body -> written 3 0 body eb ->
    written 4 7 (tier_call tier fb) (NCall 0 0 (js "tier") [str_node label; eb])).
  { intros body eb Eb Hb. unfold tier_call. fold label. rewrite Eb.
    replace (js "tier(" ++ _) with
      (js "tier" ++ js "(" ++ (([QUOTE] ++ label ++ [QUOTE]) ++ js ", " ++ body) ++ js ")")
      by (rewrite <- !app_assoc; reflexivity).
    apply written_call2; [done| |done].
    apply written_level with 7; [|lia]. by apply written_string, plain_label_reads. }
  destruct (is_request tier) eqn:Er.
  - destruct (reads_number (fixed_text tier)) as [v|] eqn:En; [|done].
    destruct (is_finite (num_mul v MILLION)) eqn:Ef; [|done]. intros [= <-].
    apply reads_number_inv in En as [Hn Hv]. eexists. split; [|by apply fixed_tier_ok].
    apply (Hcall (js "fixed" ++ js "(" ++ fixed_text tier ++ js ")")).
    + unfold buildTierBodyExpr. unfold is_request in Er. by rewrite Er.
    + apply written_level with 7; [|lia]. apply written_deeper with 2; [|lia].
      apply written_call1; [done|]. apply written_level with 7; [|lia]. by apply written_number.
  - destruct (forallb _ _) eqn:Ef; [|done]. intros [= <-]. apply price_terms_ok in Ef.
    eexists. split; [|by apply priced_tier_ok]. eapply Hcall; [by apply body_text|].
    apply written_level with 5; [|lia]. by apply sum_written.
Qed.

(** * Chains *)

Fixpoint chain_valid (e : node) : Prop :=
  match e with
  | NConditional _ _ c y no =>
      unmarked c /\ node_height c <= 257 /\ check_tier y = Ok tt /\ is_conditional y = false /\
      isContextGuard c = false /\ chain_valid no
  | NCall _ _ _ _ => check_tier e = Ok tt
  | _ => False
  end.

Lemma valid_tier_erase n : valid_tier (erase n) = valid_tier n.
Proof.
  destruct n as [| | |? ? f args| | |]; try done. destruct args as [|a [|b args]]; try done. simpl.
  destruct (f === "tier"); [|done]. rewrite containsPricingMarker_erase.
  destruct (containsPricingMarker a) as [[]|]; try done. simpl.
  assert (E : containsPricingMarker (erase b) = containsPricingMarker b) by apply containsPricingMarker_erase.
  destruct b as [| | |? ? g bs| | |]; simpl in *; rewrite ?E; try done.
  destruct (g === "fixed"); [|done]. destruct bs as [|x bs]; [done|]. simpl.
  by destruct x as [? ? [] ?| | | | | |].
Qed.

Lemma check_tier_erase n : check_tier (erase n) = Ok tt -> check_tier n = Ok tt.
Proof.
  unfold check_tier. rewrite valid_tier_erase. destruct (valid_tier n) as [[]|]; done.
Qed.

Lemma check_tier_call n : check_tier n = Ok tt -> is_conditional n = false ->
  forall rules, validateFixedPricingTree rules n = Ok tt.
Proof. destruct n; try done. Qed.

Lemma chain_validates rules n : chain_valid (erase n) -> validateFixedPricingTree rules n = Ok tt.
Proof.
  induction n as [| | |s e f args| | |s e c IHc y IHy no IHno]; try done.
  - intros H. by apply (check_tier_erase (NCall s e f args)).
  - cbn [erase chain_valid]. intros (Hu & Hh & Hy & Hyc & _ & Hno).
    cbn [validateFixedPricingTree]. rewrite <- containsPricingMarker_erase.
    rewrite unmarked_marker by done. cbn [negb].
    rewrite check_tier_call; [by apply IHno|by apply check_tier_erase|]. by destruct y.
Qed.

Lemma chain_unguarded n : chain_valid (erase n) ->
  guard_path n = [] /\ readTokenTierChain n = tier_chain n [].
Proof.
  destruct n as [| | |s e f args| | |s e c y no]; try done.
  cbn [erase chain_valid]. intros (_ & _ & _ & _ & Hg & _).
  rewrite isContextGuard_erase in Hg. cbn [guard_path readTokenTierChain]. by rewrite Hg.
Qed.

Record chain_ok (e : node) (b : nat) (ts : list token_tier) : Prop := {
  ch_tiers : forall acc, tier_chain e acc = Ok (Some (acc ++ ts));
  ch_typed : typed e TNumber;
  ch_height : node_height e <= b;
  ch_valid : chain_valid e;
  ch_sums : left_sums e;
  ch_prices : Forall (fun t => no_minus_zero (tt_prices t)) ts;
}.

Lemma chain_last e t : tier_ok e t -> tt_conditions t = [] -> chain_ok e 12 [t].
Proof.
  intros [H1 H2 H3 H4 H5 H6 H7] Hc. rewrite Hc in H1. constructor; try done; [| |by constructor].
  - intros acc. rewrite tier_chain_leaf by done. by rewrite H1.
  - destruct e; try done.
Qed.

Lemma chain_cons ec bc cs ey t en b ts :
  condition_ok ec bc cs -> tier_ok ey t -> tt_conditions t = cs -> chain_ok en b ts ->
  bc <= 257 -> 12 <= b -> bc <= b ->
  chain_ok (NConditional 0 0 ec ey en) (S b) (t :: ts).
Proof.
  intros [C1 C2 C3 C4 C5 C6] [H1 H2 H3 H4 H5 H6 H7] Hc [N1 N2 N3 N4 N5 N6] Hb Hb' Hb''.
  subst cs. constructor.
  - intros acc. cbn [tier_chain]. rewrite C1, H1, N1, <- app_assoc. done.
  - by apply T_conditional.
  - rewrite node_height_unfold. simpl. lia.
  - cbn [chain_valid]. split_and!; done || lia.
  - apply left_sums_node. split; [done|]. forall_solve.
  - by constructor.
Qed.

(** ** The generated text *)

Definition few_conditions (tier : visual_tier) : Prop :=
  length (match vt_conditions tier with Some cs => cs | None => [] end) <= 100.

Lemma conditions_text tier cs :
  few_conditions tier -> conditions_of (vt_conditions tier) = Some cs -> cs <> [] ->
  truthy (buildConditionStr (vt_conditions tier)) = true /\
  exists e, written 3 2 (buildConditionStr (vt_conditions tier)) e /\ condition_ok e 102 cs.
Proof.
  unfold few_conditions, conditions_of, buildConditionStr.
  destruct (vt_conditions tier) as [inputs|]; [|by intros _ [= <-]].
  intros Hf H Hne.
  destruct (conditions_written _ _ H Hne) as (e & He & [K1 K2 K3 K4 K5 K6]).
  destruct inputs as [|i0 inputs]; [simpl in H; by injection H as <-|]. split.
  - destruct (List.filter condition_present (i0 :: inputs)) as [|c l]; [simpl in H; by injection H as <-|].
    assert (Hc : truthy (condition_str c) = true) by (unfold condition_str; by destruct (ci_var c)).
    simpl. destruct (condition_str c); [done|]. by destruct (map condition_str l).
  - exists e. split; [done|]. constructor; try done.
    pose proof (filter_length_le condition_present (i0 :: inputs)). lia.
Qed.

Lemma no_conditions tier : conditions_of (vt_conditions tier) = Some [] ->
  buildConditionStr (vt_conditions tier) = [].
Proof.
  unfold conditions_of, buildConditionStr. destruct (vt_conditions tier) as [cs|]; [|done].
  destruct (List.filter condition_present cs) as [|c l] eqn:E.
  - intros _. by destruct cs.
  - simpl. destruct (condition_of c); [|done]. by destruct (map_option condition_of l).
Qed.

Lemma chain_written tiers : forall i ts,
  config_chain i tiers = Some ts -> Forall few_conditions tiers ->
  exists e, written (3 + length tiers) 0 (join (js " : ") (tier_parts i tiers)) e /\
    chain_ok e (110 + length tiers) ts.
Proof.
  induction tiers as [|tier rest IH]; intros i ts H Hf; [done|].
  apply list.Forall_cons in Hf as [Hft Hf]. cbn [config_chain] in H.
  set (fb := js "tier_" ++ string_of_Z (Z.of_nat (S i))) in *.
  destruct rest as [|tier' rest].
  - destruct (config_tier [] fb tier) as [t|] eqn:Et; [|done]. injection H as <-.
    pose proof (config_tier_conditions _ _ _ _ Et) as Hc.
    destruct (tier_written _ _ _ _ Et) as (e & He & Hok). exists e. split.
    + apply written_level with 7; [done|lia].
    + destruct (chain_last e t Hok Hc) as [? ? ? ? ? ?]. constructor; try done. simpl. lia.
  - destruct (conditions_of (vt_conditions tier)) as [[|c cs]|] eqn:Ec; try done.
    destruct (config_tier (c :: cs) fb tier) as [t|] eqn:Et; [|done].
    destruct (config_chain (S i) (tier' :: rest)) as [ts'|] eqn:Es; [|done]. injection H as <-.
    pose proof (config_tier_conditions _ _ _ _ Et) as Hc.
    destruct (tier_written _ _ _ _ Et) as (ey & Hy & Hyok).
    destruct (conditions_text tier _ Hft Ec) as (Htr & ec & Hec & Hcok); [done|].
    destruct (IH _ _ Es Hf) as (en & Hn & Hnok).
    exists (NConditional 0 0 ec ey en). split.
    + change (tier_parts i (tier :: tier' :: rest)) with
        ((if truthy (buildConditionStr (vt_conditions tier))
          then buildConditionStr (vt_conditions tier) ++ js " ? " ++ tier_call tier fb
          else tier_call tier fb) :: tier_parts (S i) (tier' :: rest)).
      rewrite Htr. remember (tier_parts (S i) (tier' :: rest)) as parts.
      destruct parts as [|p parts]; [done|]. cbn [join]. rewrite <- !app_assoc.
      apply (written_conditional (3 + length (tier' :: rest))); [| |done].
      * apply written_level with 2; [|lia]. apply written_deeper with 3; [done|lia].
      * apply written_level with 7; [|lia]. apply written_deeper with 4; [done|simpl; lia].
    + apply (chain_cons ec 102 (c :: cs) ey t en (110 + length (tier' :: rest))); done || (simpl; lia).
Qed.

(** The expression generated for a configuration, up to positions. *)
Lemma generated_written cfg ts :
  configured cfg = Some ts -> Forall few_conditions cfg -> length cfg <= 120 ->
  exists e, written 128 0 (generateExprFromVisualConfig (Some cfg)) e /\ chain_ok e 257 ts.
Proof.
  intros H Hf Hl.
  assert (Hchain : config_chain 0 cfg = Some ts ->
    exists e, written 128 0 (join (js " : ") (tier_parts 0 cfg)) e /\ chain_ok e 257 ts).
  { intros Hc. destruct (chain_written cfg 0 ts Hc Hf) as (e & He & [? ? ? ? ? ?]). exists e.
    split; [apply written_deeper with (3 + length cfg); [done|lia]|]. constructor; try done. lia. }
  destruct cfg as [|tier [|tier' rest]]; [done| |by apply Hchain]. clear Hchain.
  unfold configured in H.
  destruct (conditions_of (vt_conditions tier)) as [[|c cs]|] eqn:Ec; try done.
  destruct (config_tier [] (js "default") tier) as [t|] eqn:Et; [|done]. injection H as <-.
  destruct (tier_written _ _ _ _ Et) as (e & He & Hok). exists e.
  cbn [generateExprFromVisualConfig]. rewrite (no_conditions tier Ec). cbn [truthy]. split.
  - apply written_level with 7; [apply written_deeper with 4; [done|lia]|lia].
  - destruct (chain_last e t Hok (config_tier_conditions _ _ _ _ Et)) as [? ? ? ? ? ?].
    constructor; try done. lia.
Qed.

(** The text starts with a name other than a version prefix. *)
Definition plain_start (t : jsstr) : bool :=
  match t with c :: _ => negb (is_space c) && negb (c =? 118)%Z | [] => false end.

Lemma plain_start_app t u : plain_start t = true -> plain_start (t ++ u) = true.
Proof. by destruct t. Qed.

Lemma conditions_start tier cs :
  conditions_of (vt_conditions tier) = Some cs -> cs <> [] ->
  plain_start (buildConditionStr (vt_conditions tier)) = true.
Proof.
  unfold conditions_of, buildConditionStr. destruct (vt_conditions tier) as [inputs|]; [|by intros [= <-]].
  intros H Hne. destruct (List.filter condition_present inputs) as [|c l] eqn:El.
  { simpl in H. by injection H as <-. }
  destruct inputs as [|i0 inputs]; [done|].
  assert (Hc : plain_start (condition_str c) = true).
  { simpl in H. unfold condition_of in H. destruct (one_of (ci_var c) _) eqn:Ev; [|done].
    unfold condition_str. apply plain_start_app.
    apply one_of_In in Ev as (x & Hx & ->). by destruct Hx as [<-|[<-|[<-|[]]]]. }
  simpl. destruct (map condition_str l); [done|by apply plain_start_app].
Qed.

Lemma generated_start cfg ts :
  configured cfg = Some ts -> plain_start (generateExprFromVisualConfig (Some cfg)) = true.
Proof.
  intros H. destruct cfg as [|tier [|tier' rest]]; [done| |].
  - unfold configured in H. cbn [generateExprFromVisualConfig].
    destruct (conditions_of (vt_conditions tier)) as [[|c cs]|] eqn:Ec; try done.
    by rewrite (no_conditions tier Ec).
  - change (configured (tier :: tier' :: rest)) with (config_chain 0 (tier :: tier' :: rest)) in H.
    cbn [config_chain] in H.
    destruct (conditions_of (vt_conditions tier)) as [[|c cs]|] eqn:Ec; try done.
    pose proof (conditions_start tier _ Ec ltac:(done)) as Hs.
    cbn [generateExprFromVisualConfig tier_parts negb andb join].
    destruct (buildConditionStr (vt_conditions tier)) as [|z zs]; [done|]. cbn [truthy]. done.
Qed.

Lemma generated_compiles cfg ts :
  configured cfg = Some ts -> Forall few_conditions cfg -> length cfg <= 120 ->
  length (generateExprFromVisualConfig (Some cfg)) < MAX_TOKENS ->
  exists comp, compile_try (generateExprFromVisualConfig (Some cfg)) = Ok comp /\
    readTokenTierChain (c_ast comp) = Ok (Some ts) /\ guard_path (c_ast comp) = [] /\
    left_sums (c_ast comp) /\ Forall (fun t => no_minus_zero (tt_prices t)) ts.
Proof.
  intros H Hf Hl Hlen. destruct (generated_written cfg ts H Hf Hl) as (e & He & [K1 K2 K3 K4 K5 K6]).
  destruct (written_parse _ _ He Hlen) as (n & Hp & <-); [by eapply generated_start|].
  destruct (compile_typed _ n TNumber Hp) as (comp & Hc & Ea).
  - by apply typed_erase.
  - by rewrite <- node_height_erase.
  - intros rules _. by apply chain_validates.
  - exists comp. rewrite Ea. destruct (chain_unguarded n K4) as [Hg Hr].
    split_and!; [done| |done|by apply left_sums_erase|done].
    rewrite Hr, <- tier_chain_erase. apply K1.
Qed.

Lemma compile_ready source c comp :
  compile_try source = Ok comp -> cache_ok c -> (compileBillingExpression source c).1 = Ready comp.
Proof.
  intros Hcomp Hc. rewrite compile_cached_result by done. unfold compile_fresh. by rewrite Hcomp.
Qed.

(** * Theorems *)

(** C5. The price table shown for the expression of the tier editor is the configuration, for the
    configurations of [configured]: every tier but the last has a condition on the input, output or length
    with a bound that reads as a number, or there is a single tier, without condition; labels contain no
    quotes, backslashes or line breaks, costs are written as non-negative numbers and fixed prices
    stay finite in millionths.  With at most 120 tiers of at most 100 conditions and a text below the
    limit on tokens, the generated expression compiles and the rows read off it are the tiers in
    order, with their labels, conditions, unit prices and fixed prices.  The last tier is shown without
    its conditions.  What the other configurations do is in [generated_expression_limits]. *)
Theorem generated_tiers_displayed `{P : Platform} cfg ts c :
  configured cfg = Some ts -> Forall few_conditions cfg -> length cfg <= 120 ->
  length (generateExprFromVisualConfig (Some cfg)) < MAX_TOKENS -> cache_ok c ->
  (parseTiersFromExpr (generateExprFromVisualConfig (Some cfg)) c).1 = Ok (map mapPlainTier ts).
Proof.
  intros H Hf Hl Hlen Hc. destruct (generated_compiles cfg ts H Hf Hl Hlen) as (comp & Hcomp & Hr & _).
  pose proof (generated_start cfg ts H) as Hs. clear H Hf Hl Hlen. unfold parseTiersFromExpr.
  revert Hcomp Hs. generalize (generateExprFromVisualConfig (Some cfg)) as source. intros source Hcomp Hs.
  replace (truthy source) with true by (destruct source; [discriminate Hs|reflexivity]). cbn [negb].
  pose proof (compile_ready source c comp Hcomp Hc) as Hcc. clear Hcomp.
  destruct (compileBillingExpression source c) as [r c']. cbn [fst] in Hcc. subst r.
  rewrite Hr. reflexivity.
Qed.

(** The expression of the tier editor charges what the configuration says: a
    run of it in any context reports the first tier whose conditions hold for the
    token counts; a tier with a fixed price bills that price per request, and a
    tier of unit costs the sum of count times cost over its variables, in the
    order input, output, extra variables. *)
Theorem generated_tiers_charged `{P : Platform} cfg ts comp cx new_Date v st :
  configured cfg = Some ts -> Forall few_conditions cfg -> length cfg <= 120 ->
  length (generateExprFromVisualConfig (Some cfg)) < MAX_TOKENS ->
  compile_fresh (generateExprFromVisualConfig (Some cfg)) = Ready comp ->
  run comp cx new_Date (c_ast comp) = Ok (v, st) ->
  exists t, first_tier cx ts = Some t /\ matchedTier st = tt_label t /\
    match tt_fixedPrice t with
    | Some a => billingUnit st = URequest /\ rv v = JNum (num_mul a MILLION)
    | None => billingUnit st = UToken /\
        exists x, amount_of cx (tt_prices t) = Some x /\ rv v = JNum x
    end.
Proof.
  intros H Hf Hl Hlen Hready Hrun.
  destruct (generated_compiles cfg ts H Hf Hl Hlen) as (comp' & Hcomp & Hr & Hg & Hs & Hz).
  unfold compile_fresh in Hready. rewrite Hcomp in Hready. injection Hready as ->.
  unfold run in Hrun. destruct (construct cx new_Date) as [[hdrs clock]|]; [|done].
  destruct (readTokenTierChain_eval comp cx hdrs clock (c_ast comp) _ _ _ _ _ Hr
    ltac:(rewrite Hg; constructor) Hrun) as (t & m & Hft & Hm & Hlab & Hch).
  exists t. split_and!; [done|done|].
  destruct (tt_fixedPrice t); [by destruct Hch as (? & _ & ?)|].
  destruct Hch as (Hu & _ & Hx). split; [done|]. apply Hx.
  - apply Forall_elem. intros k Hk. apply (proj1 (Forall_elem _ _) Hs). by eapply subnodes_trans.
  - apply (proj1 (Forall_elem _ _) Hz). apply list_elem_of_In. by eapply find_some.
Qed.

(** A tier of one cost per input token. *)
Definition input_tier (label : jsstr) : visual_tier :=
  VisualTier None None (Some label) None None [(js "input_unit_cost", JNum num_one)].

(** Ten input tokens. *)
Definition ten_tokens : context :=
  Context (Some [(js "p", JNum (num_of_Z 10)); (js "c", JNum num_zero)]) None None None None.

(** The amount and the tier of a successful bill. *)
Definition billed (e : evaluation) : option (number * jsstr) :=
  match e with Success cost _ _ tier _ => Some (cost, tier) | Failed _ => None end.

(** What the conditions of the table theorem exclude: the label is written
    between quotes without escapes, so that a label may end the string and add
    a price of its own (a tier of cost 1 with the label below bills 10 tokens at
    100 under another name); a tier that is not the last and has no condition
    makes the expression unreadable; and a single tier with a condition compiles
    but has no price table. *)
Theorem generated_expression_limits :
  let label := quotes "a', p * 9) + tier('b" in
  billed (evaluateBillingExpression (P := plain_platform)
    (generateExprFromVisualConfig (Some [input_tier (js "a")])) ten_tokens None []).1 =
    Some (num_of_Z 10, js "a") /\
  billed (evaluateBillingExpression (P := plain_platform)
    (generateExprFromVisualConfig (Some [input_tier label])) ten_tokens None []).1 =
    Some (num_of_Z 100, js "b") /\
  (exists f, compile_fresh (generateExprFromVisualConfig
    (Some [input_tier (js "a"); input_tier (js "b")])) = NotReady f) /\
  (let conditional := VisualTier None None None
     (Some [TierConditionInput (js "p") (js "<") (JNum (num_of_Z 5))]) None [] in
   (exists comp, compile_fresh (generateExprFromVisualConfig (Some [conditional])) = Ready comp) /\
   (parseTiersFromExpr (P := plain_platform)
      (generateExprFromVisualConfig (Some [conditional])) []).1 = Ok []).
Proof.
  cbv zeta. split; [vm_compute; reflexivity|]. split; [vm_compute; reflexivity|].
  split; [eexists; vm_compute; reflexivity|]. split; [eexists; vm_compute; reflexivity|].
  vm_compute. reflexivity.
Qed.

(** ** Witnesses *)

(** Two tiers: input and cached input up to 200000 tokens, a price per request
    above. *)
Definition sample_config : visual_config :=
  [ VisualTier None None (Some (js "short"))
      (Some [TierConditionInput (js "p") (js "<=") (JNum (num_of_Z 200000));
             TierConditionInput (js "len") (js "<") (JStr (js "1e6"))])
      None [(js "input_unit_cost", JNum (num_of_decimal 15 (-1)));
            (js "output_unit_cost", JStr (js "6")); (js "cache_read_unit_cost", JNum (num_of_decimal 3 (-1)))];
    VisualTier (Some (js "request")) (Some (js "0.25")) None None None [] ].

Definition sample_tiers : list token_tier :=
  Eval vm_compute in match configured sample_config with Some ts => ts | None => [] end.

Lemma sample_few : Forall few_conditions sample_config.
Proof. repeat constructor. Qed.

Lemma sample_length : length (generateExprFromVisualConfig (Some sample_config)) < MAX_TOKENS.
Proof. apply Nat.ltb_lt. vm_compute. reflexivity. Qed.

Lemma generated_tiers_displayed_witness :
  (parseTiersFromExpr (P := plain_platform) (generateExprFromVisualConfig (Some sample_config)) []).1 =
  Ok (map mapPlainTier sample_tiers).
Proof.
  apply (generated_tiers_displayed (P := plain_platform) sample_config sample_tiers []).
  - vm_compute. reflexivity.
  - exact sample_few.
  - vm_compute. lia.
  - exact sample_length.
  - exact cache_ok_empty.
Defined.

Definition sample_compiled : compiled :=
  Eval vm_compute in compiled_or_empty (generateExprFromVisualConfig (Some sample_config)).
Definition sample_context : context :=
  Context (Some [(js "p", JNum (num_of_Z 1000)); (js "c", JNum (num_of_Z 500));
                 (js "len", JNum (num_of_Z 1000)); (js "cr", JNum (num_of_Z 100))]) None None None None.
Definition sample_run : rvalue * runtime :=
  Eval vm_compute in
    match run (P := plain_platform) sample_compiled sample_context None (c_ast sample_compiled) with
    | Ok r => r
    | Err _ => (RValue JNull false, Runtime [] [] UToken None [])
    end.

Lemma generated_tiers_charged_witness :
  exists t, first_tier sample_context sample_tiers = Some t /\ matchedTier sample_run.2 = tt_label t /\
    match tt_fixedPrice t with
    | Some a => billingUnit sample_run.2 = URequest /\ rv sample_run.1 = JNum (num_mul a MILLION)
    | None => billingUnit sample_run.2 = UToken /\
        exists x, amount_of sample_context (tt_prices t) = Some x /\ rv sample_run.1 = JNum x
    end.
Proof.
  apply (generated_tiers_charged (P := plain_platform) sample_config sample_tiers sample_compiled
           sample_context None sample_run.1 sample_run.2).
  - vm_compute. reflexivity.
  - exact sample_few.
  - vm_compute. lia.
  - exact sample_length.
  - vm_compute. reflexivity.
  - vm_compute. reflexivity.
Defined.
