(* ===== verification/TaskExpr.v ===== *)
(** [pricing/lib/task-expr.ts]: configurations of task prices as tiers and as a
    matrix over enumerated fields, the expressions generated for them, reading
    them back, and the price preview. *)
From Stdlib Require Import ZArith Lia Bool String SpecFloat.
From stdpp Require Import base list option.
From S2P Require Import Prelude JsString JsNumber Types JsValue Collections Compile Runtime Display Json RequestRules BillingVars TierExpr.

Definition TASK_TOKEN_PRICE_SCALE : Z := 1000000.

#[export] Instance usage_type_eq_dec : EqDecision usage_type.
Proof. solve_decision. Defined.

(** * Fields of a schema *)

Section Fields.
Context {C : Collation}.

(** The entries of an object, sorted by key. *)
Definition sorted_entries {A} (l : list (jsstr * A)) : list (jsstr * A) :=
  sort_by (fun x y => localeCompare x.1 y.1) l.

Definition is_number_field (f : usage_field) : bool :=
  bool_decide (uf_type f = Some UTNumber)
  && match uf_unit f with Some u => truthy u | None => false end.
Definition is_enum_field (f : usage_field) : bool :=
  match uf_enum f with Some (_ :: _) => true | _ => false end.

Definition getTaskNumberFields (schema : option usage_schema) : list (jsstr * usage_field) :=
  match schema with
  | None => []
  | Some s => sorted_entries (List.filter (fun e => is_number_field e.2) s)
  end.
Definition getTaskEnumFields (schema : option usage_schema) : list (jsstr * usage_field) :=
  match schema with
  | None => []
  | Some s => sorted_entries (List.filter (fun e => is_enum_field e.2) s)
  end.

(** The values of an enumerated field. *)
Definition enum_values (f : usage_field) : list jsstr :=
  match uf_enum f with Some l => l | None => [] end.

Abbreviation combination := (list (jsstr * jsstr)).

(** One round of the loop over the fields. *)
Definition extend_combinations (combinations : list combination)
    (entry : jsstr * usage_field) : list combination :=
  concat (map (fun c => map (fun value => assign entry.1 value c) (enum_values entry.2)) combinations).

Definition getTaskEnumCombinations (schema : option usage_schema) : list combination :=
  fold_left extend_combinations (getTaskEnumFields schema) [[]].

(** * Configurations *)

(** [TaskVisualConfig] is its list of tiers; [TaskVisualTier] is [task_tier]. *)
Abbreviation task_config := (list task_tier).

Record matrix_row := MatrixRow {
  mr_combination : combination;
  mr_constant : number;
  mr_unitPrices : list (jsstr * number);
}.

Definition zero_prices (schema : usage_schema) : list (jsstr * number) :=
  map (fun e => (e.1, num_zero)) (getTaskNumberFields (Some schema)).

Definition createDefaultTaskVisualConfig (schema : usage_schema) : task_config :=
  [TaskTier (js "base") [] num_zero (zero_prices schema)].

Definition createDefaultTaskMatrixConfig (schema : usage_schema) : list matrix_row :=
  map (fun c => MatrixRow c num_zero (zero_prices schema)) (getTaskEnumCombinations (Some schema)).

(** The middle dot of [values.join('·')]. *)
Definition MIDDLE_DOT : jsstr := [183]%Z.

Definition taskMatrixRowLabel (c : combination) : jsstr :=
  match map snd (sorted_entries c) with
  | [] => js "base"
  | values => join MIDDLE_DOT values
  end.

(** [prices[field] ?? 0]. *)
Definition price_or_zero (prices : list (jsstr * number)) (field : jsstr) : number :=
  match own prices field with Some p => p | None => num_zero end.

(** [a === b] on prices that may be missing. *)
Definition same_price_field (a b : list (jsstr * number)) (field : jsstr) : bool :=
  match own a field, own b field with
  | Some x, Some y => num_eqb x y
  | None, None => true
  | _, _ => false
  end.

Definition prices_of (fields : list (jsstr * usage_field)) (prices : list (jsstr * number))
  : list (jsstr * number) := map (fun e => (e.1, price_or_zero prices e.1)) fields.

Fixpoint matrix_tiers (rows : list matrix_row) (fields : list (jsstr * usage_field)) : task_config :=
  match rows with
  | [] => []
  | row :: rest =>
      TaskTier (taskMatrixRowLabel (mr_combination row))
        (match rest with [] => [] | _ => sorted_entries (mr_combination row) end)
        (mr_constant row) (prices_of fields (mr_unitPrices row))
      :: matrix_tiers rest fields
  end.

Definition taskMatrixToTiers (rows : list matrix_row) (schema : usage_schema) : task_config :=
  let fields := getTaskNumberFields (Some schema) in
  match fields, rows with
  | [], _ | _, [] => []
  | _, first :: _ =>
      let uniform :=
        forallb (fun row =>
          num_eqb (mr_constant row) (mr_constant first)
          && forallb (fun e => same_price_field (mr_unitPrices row) (mr_unitPrices first) e.1) fields)
          rows in
      if uniform
      then [TaskTier (js "base") [] (mr_constant first) (prices_of fields (mr_unitPrices first))]
      else matrix_tiers rows fields
  end.

(** * Normalization *)

Definition valid_price_number (v : number) : bool := is_finite v && num_leb num_zero v.
Definition price_or_default (v : number) : number := if valid_price_number v then v else num_zero.

(** [`tier_${index + 1}`]. *)
Definition default_task_label (index : nat) : jsstr :=
  match index with
  | O => js "base"
  | _ => js "tier_" ++ string_of_Z (Z.of_nat (S index))
  end.

Definition normalize_task_tier (schema : usage_schema) (index : nat) (tier : task_tier) : task_tier :=
  TaskTier
    (match kt_label tier with [] => default_task_label index | l => l end)
    (List.filter (fun c : jsstr * jsstr =>
       match own (getTaskEnumFields (Some schema)) c.1 with
       | Some f => existsb (str_eqb c.2) (enum_values f)
       | None => false
       end) (kt_conditions tier))
    (price_or_default (kt_constant tier))
    (map (fun e =>
            (e.1, price_or_default (match own (kt_unitPrices tier) e.1 with Some p => p | None => S754_nan end)))
       (getTaskNumberFields (Some schema))).

Fixpoint normalize_from (schema : usage_schema) (index : nat) (tiers : task_config) : task_config :=
  match tiers with
  | [] => []
  | t :: rest => normalize_task_tier schema index t :: normalize_from schema (S index) rest
  end.

Definition normalizeTaskVisualConfig (config : option task_config) (schema : usage_schema)
  : task_config :=
  match config with
  | None | Some [] => createDefaultTaskVisualConfig schema
  | Some tiers => normalize_from schema 0 tiers
  end.

(** * Generation *)

Definition usage_text (field : jsstr) : jsstr := js "u(" ++ json_string field ++ js ")".

Definition is_token_unit (f : usage_field) : bool :=
  match uf_unit f with Some u => u === "token" | None => false end.

Definition usage_term (entry : jsstr * usage_field) (price : number) : jsstr :=
  usage_text entry.1 ++ js " * " ++ num_to_string price
  ++ (if is_token_unit entry.2 then js " / " ++ string_of_Z TASK_TOKEN_PRICE_SCALE else []).

Definition generateTaskTierBody (tier : task_tier) (fields : list (jsstr * usage_field)) : jsstr :=
  join (js " + ")
    ((if num_ltb num_zero (kt_constant tier) then [num_to_string (kt_constant tier)] else [])
     ++ map (fun e => usage_term e (price_or_zero (kt_unitPrices tier) e.1)) fields).

Definition generateTaskTierCall (tier : task_tier) (fields : list (jsstr * usage_field)) : jsstr :=
  js "tier(" ++ json_string (kt_label tier) ++ js ", " ++ generateTaskTierBody tier fields ++ js ")".

Definition task_condition_text (c : jsstr * jsstr) : jsstr :=
  usage_text c.1 ++ js " == " ++ json_string c.2.

Definition generateTaskCondition (conditions : list (jsstr * jsstr)) : jsstr :=
  join (js " && ") (map task_condition_text conditions).

(** The loop over several tiers; [None] when a tier other than the last has no
    condition, for which the whole expression is the empty string. *)
Fixpoint task_parts (tiers : task_config) (fields : list (jsstr * usage_field)) : option (list jsstr) :=
  match tiers with
  | [] => Some []
  | [tier] => Some [generateTaskTierCall tier fields]
  | tier :: rest =>
      let condition := generateTaskCondition (kt_conditions tier) in
      if truthy condition then
        match task_parts rest fields with
        | Some parts => Some ((condition ++ js " ? " ++ generateTaskTierCall tier fields) :: parts)
        | None => None
        end
      else None
  end.

Definition generateTaskExprFromConfig (config : option task_config) (schema : usage_schema) : jsstr :=
  let fields := getTaskNumberFields (Some schema) in
  match fields with
  | [] => []
  | _ =>
      match normalizeTaskVisualConfig config schema with
      | [tier] => generateTaskTierCall tier fields
      | tiers => match task_parts tiers fields with Some parts => join (js " : ") parts | None => [] end
      end
  end.

(** * Reading back *)

Definition tryParseTaskVisualConfig (expression : option jsstr) (schema : usage_schema) (c : cache)
  : result task_reader_error (option task_config) * cache :=
  match expression with
  | None | Some [] => (Ok None, c)
  | Some e =>
      let '(r, c) := parseTaskTiersFromExpr e (Some schema) false c in
      (let! tiers := r in
       Ok (match tiers with
           | [] => None
           | _ => Some (normalizeTaskVisualConfig (Some tiers) schema)
           end), c)
  end.

(** [JSON.stringify] of the values of a combination, in the order of the fields. *)
Definition taskMatrixCombinationKey (c : combination) (enumFields : list (jsstr * usage_field)) : jsstr :=
  js "[" ++ join (js ",") (map (fun e => match own c e.1 with
                                         | Some v => json_string v
                                         | None => js "null"
                                         end) enumFields) ++ js "]".

(** The values of the conditions of a tier by field: no field twice, only values of
    the schema. *)
Fixpoint condition_values (schema : usage_schema) (conditions : list (jsstr * jsstr))
    (values : list (jsstr * jsstr)) : option (list (jsstr * jsstr)) :=
  match conditions with
  | [] => Some values
  | (field, value) :: rest =>
      let listed := match own schema field with
                    | Some f => existsb (str_eqb value) (enum_values f)
                    | None => false
                    end in
      if match own values field with Some _ => true | None => false end || negb listed then None
      else condition_values schema rest (values ++ [(field, value)])
  end.

(** The loop over the tiers but the last: [tiersByCombination]. *)
Fixpoint place_tiers (schema : usage_schema) (enumFields : list (jsstr * usage_field))
    (tiers : task_config) (placed : list (jsstr * task_tier)) : option (list (jsstr * task_tier)) :=
  match tiers with
  | [] => Some placed
  | tier :: rest =>
      if negb (length (kt_conditions tier) =? length enumFields)%nat then None
      else
        match condition_values schema (kt_conditions tier) [] with
        | None => None
        | Some values =>
            if negb (length values =? length enumFields)%nat then None
            else
              let c := map (fun e => (e.1, match own values e.1 with Some v => v | None => [] end))
                         enumFields in
              let key := taskMatrixCombinationKey c enumFields in
              match own placed key with
              | Some _ => None
              | None => place_tiers schema enumFields rest (placed ++ [(key, tier)])
              end
        end
  end.

(** The row of a combination, priced by a tier. *)
Definition row_of (fields : list (jsstr * usage_field)) (c : combination) (tier : task_tier) : matrix_row :=
  MatrixRow c (kt_constant tier) (prices_of fields (kt_unitPrices tier)).

(** The last loop: a row for every combination, in order. *)
Definition matrix_rows (fields enumFields : list (jsstr * usage_field))
    (placed : list (jsstr * task_tier)) (combinations : list combination) : option (list matrix_row) :=
  map_option (fun c => match own placed (taskMatrixCombinationKey c enumFields) with
                       | Some tier => Some (row_of fields c tier)
                       | None => None
                       end) combinations.

(** From the tiers of the expression. *)
Definition matrix_of_tiers (tiers : task_config) (schema : usage_schema) : option (list matrix_row) :=
  let enumFields := getTaskEnumFields (Some schema) in
  let fields := getTaskNumberFields (Some schema) in
  let combinations := getTaskEnumCombinations (Some schema) in
  match tiers with
  | [] => None
  | [TaskTier _ [] _ _ as tier] => Some (map (fun c => row_of fields c tier) combinations)
  | _ =>
      if negb (length tiers =? length combinations)%nat then None
      else
        match list.last tiers with
        | Some (TaskTier _ [] _ _ as fallback) =>
            match place_tiers schema enumFields (removelast tiers) [] with
            | None => None
            | Some placed =>
                match List.filter (fun c => match own placed (taskMatrixCombinationKey c enumFields) with
                                            | Some _ => false | None => true end) combinations with
                | [missing] =>
                    matrix_rows fields enumFields
                      (placed ++ [(taskMatrixCombinationKey missing enumFields, fallback)]) combinations
                | _ => None
                end
            end
        | _ => None
        end
  end.

Definition tryParseTaskMatrixConfig (expression : option jsstr) (schema : usage_schema) (c : cache)
  : result task_reader_error (option (list matrix_row)) * cache :=
  match expression with
  | None | Some [] => (Ok None, c)
  | Some e =>
      let '(r, c) := parseTaskTiersFromExpr e (Some schema) false c in
      (let! tiers := r in Ok (matrix_of_tiers tiers schema), c)
  end.

(** * The preview *)

Inductive preview_part :=
| PartConstant (amount : number)
| PartUsage (field : jsstr) (amount quantity unitPrice : number).

Record task_preview := TaskPreview {
  tp_tier : task_tier;
  tp_total : number;
  tp_parts : list preview_part;
}.

(** [sample[field] === value]. *)
Definition sample_is (sample : list (jsstr * jsvalue)) (c : jsstr * jsstr) : bool :=
  match own sample c.1 with Some (JStr s) => str_eqb s c.2 | _ => false end.

(** The first tier but the last whose conditions hold, or the last. *)
Definition matched_task_tier (tiers : task_config) (sample : list (jsstr * jsvalue)) : option task_tier :=
  match list.last tiers with
  | None => None
  | Some fallback =>
      Some (match find (fun t => forallb (sample_is sample) (kt_conditions t)) (removelast tiers) with
            | Some t => t
            | None => fallback
            end)
  end.

(** [schema?.[field]?.unit === 'token']. *)
Definition field_is_token (schema : option usage_schema) (field : jsstr) : bool :=
  match schema with
  | Some s => match own s field with Some f => is_token_unit f | None => false end
  | None => false
  end.

(** The loop over the unit prices. *)
Fixpoint usage_parts (schema : option usage_schema) (sample : list (jsstr * jsvalue))
    (prices : list (jsstr * number)) : option (list preview_part) :=
  match prices with
  | [] => Some []
  | (field, unitPrice) :: rest =>
      if negb (valid_price_number unitPrice) then None
      else if num_eqb unitPrice num_zero then usage_parts schema sample rest
      else
        let quantity := to_Number (match own sample field with Some v => v | None => JUndefined end) in
        if negb (valid_price_number quantity) then None
        else
          let amount := if field_is_token schema field
                        then num_div (num_mul quantity unitPrice) (num_of_Z TASK_TOKEN_PRICE_SCALE)
                        else num_mul quantity unitPrice in
          if negb (is_finite amount) then None
          else option_map (cons (PartUsage field amount quantity unitPrice))
                 (usage_parts schema sample rest)
  end.

(** The terms of the expression, and the usage with quantities as numbers. *)
Fixpoint preview_terms (schema : option usage_schema) (parts : list preview_part) : list jsstr :=
  match parts with
  | [] => []
  | PartUsage field _ _ unitPrice :: rest =>
      if truthy field then
        (usage_text field ++ js " * " ++ num_to_string unitPrice
         ++ (if field_is_token schema field then js " / 1000000" else [])) :: preview_terms schema rest
      else preview_terms schema rest
  | PartConstant _ :: rest => preview_terms schema rest
  end.
Fixpoint preview_usage (parts : list preview_part) (usage : list (jsstr * jsvalue))
  : list (jsstr * jsvalue) :=
  match parts with
  | [] => usage
  | PartUsage field _ quantity _ :: rest =>
      preview_usage rest (if truthy field then assign field (JNum quantity) usage else usage)
  | PartConstant _ :: rest => preview_usage rest usage
  end.

Section Preview.
Context {P : Platform}.

Definition evaluateTaskVisualConfig (tiers : task_config) (sample : list (jsstr * jsvalue))
    (schema : option usage_schema) (new_Date : date) (c : cache) : option task_preview * cache :=
  match matched_task_tier tiers sample with
  | None => (None, c)
  | Some tier =>
      let constant := kt_constant tier in
      if negb (valid_price_number constant) then (None, c)
      else
        match usage_parts schema sample (kt_unitPrices tier) with
        | None => (None, c)
        | Some usages =>
            let parts := (if num_ltb num_zero constant then [PartConstant constant] else []) ++ usages in
            let expression :=
              js "tier(" ++ json_string (kt_label tier) ++ js ", "
              ++ join (js " + ") (num_to_string constant :: preview_terms schema parts) ++ js ")" in
            let '(result, c) :=
              evaluateBillingExpression expression
                (Context None None (Some (preview_usage parts sample)) None None) new_Date c in
            (match result with
             | Success cost _ _ _ _ => Some (TaskPreview tier cost parts)
             | Failed _ => None
             end, c)
        end
  end.

(** The loop over the examples of a model. *)
Fixpoint example_rows (config : task_config) (schema : usage_schema)
    (examples : list (jsstr * list (jsstr * jsvalue))) (new_Date : date) (c : cache)
  : list (jsstr * number) * cache :=
  match examples with
  | [] => ([], c)
  | (label, facts) :: rest =>
      let '(result, c) := evaluateTaskVisualConfig config facts (Some schema) new_Date c in
      let '(rows, c) := example_rows config schema rest new_Date c in
      (match result with Some r => (label, tp_total r) :: rows | None => rows end, c)
  end.

Definition evaluateTaskUsageExamples (expression : option jsstr) (schema : option usage_schema)
    (examples : list (jsstr * list (jsstr * jsvalue))) (new_Date : date) (c : cache)
  : result task_reader_error (list (jsstr * number)) * cache :=
  match expression, schema, examples with
  | Some ((_ :: _) as e), Some schema, _ :: _ =>
      match splitBillingExprAndRequestRules e with
      | Err err => (Err (FromRules err), c)
      | Ok (billingExpr, _) =>
          match tryParseTaskVisualConfig (Some billingExpr) schema c with
          | (Err err, c) => (Err err, c)
          | (Ok None, c) => (Ok [], c)
          | (Ok (Some config), c) =>
              let '(rows, c) := example_rows config schema examples new_Date c in (Ok rows, c)
          end
      end
  | _, _, _ => (Ok [], c)
  end.
End Preview.
End Fields.
