(* ===== verification/TaskFacts.v ===== *)
(** The expressions generated for task prices: they compile, and reading them back
    gives the tiers they were generated from. *)
From Stdlib Require Import ZArith Lia Bool String SpecFloat Permutation.
From stdpp Require Import base list option.
From S2P Require Import Prelude JsString JsNumber Types JsValue Collections Lexer Parser Grammar ParserFacts Pieces TypeCheck Compile Runtime Display DisplayFacts TypeSound FixedPrice Written Structure Json RequestRules RequestFacts BillingVars TierExpr TierFacts TaskExpr.

#[local] Open Scope nat_scope.

(** * JSON strings in expressions *)

Lemma escape_value_json c e : json_escape c = Some e -> escape_value e = Some c.
Proof.
  unfold json_escape. intros H.
  repeat match type of H with
  | (if ?c =? ?k then _ else _)%Z = _ =>
      destruct (c =? k)%Z eqn:?; [bools; subst; injection H as <-; reflexivity|]
  end. done.
Qed.

(** The scanner reads what [JSON.stringify] wrote. *)
Lemma json_body_scanned s : Forall code_unit s -> string_reads (json_body s) s.
Proof.
  unfold string_reads. induction s as [s IH] using list_length_ind. intros Hs start cur rest acc.
  destruct s as [|c s]; [by rewrite app_nil_r, Nat.add_0_r|].
  apply list.Forall_cons in Hs as [Hc Hs]. cbn [json_body].
  assert (Hn : forall cur acc, lex_string start QUOTE (json_body s ++ QUOTE :: rest) cur acc =
    Ok (acc ++ s, S (cur + length (json_body s)))) by (intros; apply IH; [simpl; lia|done]).
  assert (Hu : lex_string start QUOTE ((unicode_escape c ++ json_body s) ++ QUOTE :: rest) cur acc =
    Ok (acc ++ c :: s, S (cur + length (unicode_escape c ++ json_body s)))).
  { destruct (unicode_escape_hex c Hc) as (a & b & x & y & -> & Hx & Hp).
    cbn [app lex_string]. change (BACKSLASH =? QUOTE)%Z with false.
    change ((BACKSLASH =? LF) || (BACKSLASH =? CR))%Z with false.
    change (negb (BACKSLASH =? BACKSLASH)%Z) with false. cbv iota.
    change (escape_value 117) with (@None Z). cbv iota. change (117 =? 117)%Z with true. cbv iota.
    rewrite <- andb_assoc, <- andb_assoc in Hx. cbn [forallb]. rewrite andb_true_r, Hx, Hp, Hn.
    rewrite <- app_assoc. do 2 f_equal. cbn [length]. lia. }
  destruct (json_escape c) as [e|] eqn:Ee.
  { cbn [app lex_string]. change (BACKSLASH =? QUOTE)%Z with false.
    change ((BACKSLASH =? LF) || (BACKSLASH =? CR))%Z with false.
    change (negb (BACKSLASH =? BACKSLASH)%Z) with false. cbv iota.
    rewrite (escape_value_json c e Ee), Hn, <- app_assoc. do 2 f_equal. cbn [length]. lia. }
  assert (Hp : ((c =? QUOTE) = false /\ (c =? BACKSLASH) = false /\ (c =? LF) = false /\ (c =? CR) = false)%Z).
  { revert Ee. unfold json_escape. destruct (c =? QUOTE)%Z; [done|]. destruct (c =? BACKSLASH)%Z; [done|].
    destruct (c =? 8)%Z; [done|]. destruct (c =? 12)%Z; [done|]. destruct (c =? LF)%Z; [done|].
    by destruct (c =? CR)%Z. }
  destruct Hp as (Hq & Hb & Hlf & Hcr).
  destruct ((c <? 32)%Z || is_low_surrogate c); [exact Hu|].
  assert (Hplain : lex_string start QUOTE ((c :: json_body s) ++ QUOTE :: rest) cur acc =
    Ok (acc ++ c :: s, S (cur + length (c :: json_body s)))).
  { cbn [app lex_string]. rewrite Hq, Hlf, Hcr, Hb. cbn [orb negb]. rewrite Hn, <- app_assoc.
    do 2 f_equal. cbn [length]. lia. }
  destruct (is_high_surrogate c); [|exact Hplain].
  destruct s as [|d s]; [rewrite app_nil_r in Hu; exact Hu|].
  destruct (is_low_surrogate d) eqn:Ed; [|exact Hu].
  apply list.Forall_cons in Hs as [Hd Hs].
  assert (56320 <= d)%Z by (unfold is_low_surrogate in Ed; bools; lia).
  assert (Hd1 : (d =? QUOTE)%Z = false) by (apply Z.eqb_neq; unfold QUOTE; lia).
  assert (Hd2 : (d =? LF)%Z = false) by (apply Z.eqb_neq; unfold LF; lia).
  assert (Hd3 : (d =? CR)%Z = false) by (apply Z.eqb_neq; unfold CR; lia).
  assert (Hd4 : (d =? BACKSLASH)%Z = false) by (apply Z.eqb_neq; unfold BACKSLASH; lia).
  cbn [app lex_string]. rewrite Hq, Hlf, Hcr, Hb. cbn [orb negb].
  rewrite Hd1, Hd2, Hd3, Hd4. cbn [orb negb]. rewrite IH; [|simpl; lia|done].
  rewrite <- !app_assoc. do 2 f_equal. cbn [length]. lia.
Qed.

(** * Written usage *)

Definition units (s : jsstr) : Prop := Forall code_unit s.

Definition usage_node (f : jsstr) : node := NCall 0 0 (js "u") [str_node f].

Lemma usage_written f : units f -> written 2 7 (usage_text f) (usage_node f).
Proof.
  intros Hf. apply (written_call1 1 (js "u")); [done|].
  apply written_level with 7; [|lia]. apply (written_string 0 (json_body f) f). by apply json_body_scanned.
Qed.

Lemma million_reads : number_reads (js "1000000") MILLION = true.
Proof. vm_compute. reflexivity. Qed.

Definition product_node (f : jsstr) (v : number) : node :=
  NBinary 0 0 (js "*") (usage_node f) (num_node v (num_to_string v)).
Definition usage_term_node (e : jsstr * usage_field) (v : number) : node :=
  if is_token_unit e.2
  then NBinary 0 0 (js "/") (product_node e.1 v) (num_node MILLION (js "1000000"))
  else product_node e.1 v.

Lemma usage_term_written e v :
  units e.1 -> number_reads (num_to_string v) v = true ->
  written 2 6 (usage_term e v) (usage_term_node e v).
Proof.
  intros Hf Hv. unfold usage_term, usage_term_node.
  assert (Hp : written 2 6 (usage_text e.1 ++ js " * " ++ num_to_string v) (product_node e.1 v)).
  { apply (written_binary 1 6 (js "*")); [done| |by apply written_number].
    apply written_level with 7; [by apply usage_written|lia]. }
  destruct (is_token_unit e.2); [|by rewrite app_nil_r].
  pose proof (written_binary 1 6 (js "/") _ _ _ _ eq_refl Hp (written_number 0 _ _ million_reads)) as H.
  rewrite <- !app_assoc in H. exact H.
Qed.

(** ** The body of a task tier *)

(** The constant is absent (and zero), or written as a positive number. *)
Definition constant_ok (v : number) : bool :=
  if num_ltb num_zero v then number_reads (num_to_string v) v else bool_decide (v = num_zero).

Definition price_ok (v : number) : bool := number_reads (num_to_string v) v && num_leb num_zero v.

Definition task_body_nodes (t : task_tier) (fields : list (jsstr * usage_field)) : list node :=
  (if num_ltb num_zero (kt_constant t)
   then [num_node (kt_constant t) (num_to_string (kt_constant t))] else [])
  ++ map (fun e => usage_term_node e (price_or_zero (kt_unitPrices t) e.1)) fields.

(** The tree of a non-empty list of summands. *)
Definition infix_node (op : jsstr) (es : list node) : node :=
  match es with
  | [] => num_node num_zero []
  | e :: es => fold_left (NBinary 0 0 op) es e
  end.

Lemma infix_written d k op ts es :
  table_get PRECEDENCE op = Some k -> ts <> [] -> Forall2 (written (S d) (S k)) ts es -> k <= 6 ->
  written (S (S d)) k (join ([SPACE] ++ op ++ [SPACE]) ts) (infix_node op es).
Proof.
  intros Hop Hne H Hk. destruct H as [|t e ts es Ht Hts]; [done|]. simpl infix_node.
  apply written_infix; [done| |done].
  apply written_level with (S k); [|lia]. apply written_deeper with (S d); [done|lia].
Qed.

Section Reading.
Variable schema : usage_schema.

(** A priced field as the reader expects it. *)
Definition field_ok (e : jsstr * usage_field) (v : number) : Prop :=
  own schema e.1 = Some e.2 /\ is_number_field e.2 = true /\ num_leb num_zero v = true.

Lemma usage_term_read e v c ps terms :
  field_ok e v -> has_price ps e.1 = false ->
  task_terms (usage_term_node e v :: terms) schema c ps = task_terms terms schema c (ps ++ [(e.1, v)]).
Proof.
  intros (Hown & Hnum & Hv) Hp. cbn [task_terms].
  assert (Hlit : nonnegativePriceLiteral (usage_term_node e v) = None)
    by (unfold usage_term_node; by destruct (is_token_unit e.2)).
  assert (Hun : unscale (usage_term_node e v) = Some (is_token_unit e.2, product_node e.1 v))
    by (unfold usage_term_node; by destruct (is_token_unit e.2)).
  assert (Ht : task_term (product_node e.1 v) = Ok (Some (e.1, v))).
  { cbn [task_term product_node]. change (js "*" === "*") with true. cbv iota.
    change (usage_call (usage_node e.1)) with (@Ok exn _ (Some e.1)). cbv iota beta.
    cbn [nonnegativePriceLiteral num_node]. by rewrite Hv. }
  rewrite Hlit, Hun, Ht. cbv iota beta. rewrite Hown, Hp.
  assert (Hu : task_unit_ok (Some e.2) (is_token_unit e.2) = true).
  { revert Hnum. unfold is_number_field, task_unit_ok, is_token_unit.
    destruct (e.2) as [[[]|] [u|] en]; simpl; try done. intros ->. by destruct (u === "token"). }
  rewrite Hu. done.
Qed.

Lemma usage_terms_read (price : jsstr -> number) fields : forall c ps,
  Forall (fun e => field_ok e (price e.1)) fields -> NoDup (map fst ps ++ map fst fields) ->
  task_terms (map (fun e => usage_term_node e (price e.1)) fields) schema c ps =
  Ok (Some (c, ps ++ map (fun e => (e.1, price e.1)) fields)).
Proof.
  induction fields as [|e fields IH]; intros c ps Hf Hn; simpl map.
  - by rewrite app_nil_r.
  - apply list.Forall_cons in Hf as [He Hf]. rewrite usage_term_read; [|done|].
    + rewrite IH, <- app_assoc; [done|done|]. rewrite map_app. simpl. by rewrite <- app_assoc.
    + apply has_price_none. simpl in Hn. apply list.NoDup_app in Hn as (_ & Hd & _).
      intros Hin. apply (Hd _ Hin). left.
Qed.

(** What a task tier must satisfy for its text to be read back. *)
Record task_tier_ok (fields : list (jsstr * usage_field)) (t : task_tier) : Prop := {
  tk_label : units (kt_label t);
  tk_constant : constant_ok (kt_constant t) = true;
  tk_names : Forall (fun e => units e.1) fields;
  tk_fields : Forall (fun e => field_ok e (price_or_zero (kt_unitPrices t) e.1)) fields;
  tk_prices : Forall (fun e => price_ok (price_or_zero (kt_unitPrices t) e.1) = true) fields;
}.

Definition body_node (t : task_tier) (fields : list (jsstr * usage_field)) : node :=
  infix_node (js "+") (task_body_nodes t fields).
Definition task_tier_node (t : task_tier) (fields : list (jsstr * usage_field)) : node :=
  NCall 0 0 (js "tier") [str_node (kt_label t); body_node t fields].

Lemma body_nodes_written t fields : task_tier_ok fields t ->
  Forall2 (written 2 6)
    ((if num_ltb num_zero (kt_constant t) then [num_to_string (kt_constant t)] else [])
     ++ map (fun e => usage_term e (price_or_zero (kt_unitPrices t) e.1)) fields)
    (task_body_nodes t fields).
Proof.
  intros [_ Hc Hn _ Hp]. apply Forall2_app.
  - unfold constant_ok in Hc. destruct (num_ltb num_zero (kt_constant t)); [|constructor].
    constructor; [|constructor]. apply written_level with 7; [by apply written_number|lia].
  - clear Hc. induction fields as [|e fields IH]; simpl; [constructor|].
    apply list.Forall_cons in Hn as [He Hn]. apply list.Forall_cons in Hp as [Hpe Hp].
    constructor; [|auto]. apply usage_term_written; [done|].
    by apply andb_true_iff in Hpe as [? _].
Qed.

Lemma body_nonempty t fields : fields <> [] -> task_body_nodes t fields <> [].
Proof. unfold task_body_nodes. destruct fields; [done|]. by destruct (num_ltb _ _). Qed.

(** A tier of a sum of summands. *)
Definition sum_tier_node (label : jsstr) (es : list node) : node :=
  NCall 0 0 (js "tier") [str_node label; infix_node (js "+") es].

Lemma tier_sum_written label ts es : units label -> es <> [] -> Forall2 (written 2 6) ts es ->
  written 4 7 (js "tier(" ++ json_string label ++ js ", " ++ join (js " + ") ts ++ js ")") (sum_tier_node label es).
Proof.
  intros Hl Hne Hb.
  replace (js "tier(" ++ _) with
    (js "tier" ++ js "(" ++ (([QUOTE] ++ json_body label ++ [QUOTE]) ++ js ", " ++ join (js " + ") ts) ++ js ")")
    by (unfold json_string; cbn [app]; rewrite <- !app_assoc; cbn [app]; rewrite <- ?app_assoc; reflexivity).
  apply written_call2; [done| |].
  - apply written_level with 7; [|lia]. by apply written_string, json_body_scanned.
  - apply written_level with 5; [|lia]. apply (infix_written 1 5 (js "+")); [done| |exact Hb|lia].
    apply Forall2_length in Hb. destruct ts; [|done]. by destruct es.
Qed.

Lemma task_call_written t fields : task_tier_ok fields t -> fields <> [] ->
  written 4 7 (generateTaskTierCall t fields) (task_tier_node t fields).
Proof.
  intros Hok Hne. apply tier_sum_written; [apply (tk_label _ _ Hok)|by apply body_nonempty|by apply body_nodes_written].
Qed.

(** ** Reading a task tier *)

Lemma infix_flatten op es : es <> [] -> Forall (fun e => flattenBinary e op = [e]) es ->
  flattenBinary (infix_node op es) op = es.
Proof.
  intros Hne H. destruct H as [|e es He Hes]; [done|]. simpl. rewrite flatten_fold, He. simpl. f_equal.
  clear Hne. induction Hes as [|x l Hx _ IH]; simpl; [done|]. by rewrite Hx, IH.
Qed.

Lemma task_tier_read t cs fields : task_tier_ok fields t -> fields <> [] -> NoDup (map fst fields) ->
  taskTier (task_tier_node t fields) cs schema =
  Ok (Some (TaskTier (kt_label t) cs (kt_constant t)
              (map (fun e => (e.1, price_or_zero (kt_unitPrices t) e.1)) fields))).
Proof.
  intros Hok Hne Hn. unfold task_tier_node, taskTier. change (js "tier" === "tier") with true. cbv iota.
  cbn [need lookup list_lookup]. unfold need. simpl lookup. cbv iota beta.
  cbn [string_literal str_node]. unfold body_node.
  rewrite infix_flatten; [|by apply body_nonempty|].
  - unfold task_body_nodes. pose proof (tk_constant _ _ Hok) as Hc. unfold constant_ok in Hc.
    pose proof (usage_terms_read (price_or_zero (kt_unitPrices t)) fields) as Hr.
    destruct (num_ltb num_zero (kt_constant t)) eqn:El; cbn [app].
    + cbn [task_terms nonnegativePriceLiteral num_node].
      assert (Hle : num_leb num_zero (kt_constant t) = true)
        by (revert El; unfold num_ltb, num_leb, SFltb, SFleb; by destruct (SFcompare _ _) as [[]|]).
      rewrite Hle, (Hr _ [] (tk_fields _ _ Hok) Hn). destruct fields as [|e fields]; done.
    + bools. rewrite (Hr _ [] (tk_fields _ _ Hok) Hn). rewrite Hc. destruct fields as [|e fields]; done.
  - unfold task_body_nodes. apply Forall_app_2.
    + destruct (num_ltb _ _); by repeat constructor.
    + apply Forall_map, List.Forall_forall. intros e _. unfold usage_term_node.
      by destruct (is_token_unit e.2).
Qed.

(** ** Types, depth and validity *)

Definition is_other_call (n : node) : Prop := forall x, x = js "tier" \/ x = js "fixed" -> ~ is_call x n.

Lemma unmarked_other n : is_other_call n -> Forall unmarked (children n) -> unmarked n.
Proof.
  intros Hn Hc m Hm. rewrite subnodes_unfold in Hm. apply elem_of_cons in Hm as [->|Hm].
  { split; apply Hn; auto. }
  apply list_elem_of_In, in_concat in Hm as (l & Hl & Hin). apply in_map_iff in Hl as (c & <- & Hx).
  rewrite Forall_elem in Hc. apply (Hc c); by apply list_elem_of_In.
Qed.

Lemma usage_unmarked f : unmarked (usage_node f).
Proof.
  apply unmarked_other; [|constructor; [apply str_unmarked|constructor]].
  intros x Hx (s & e & args & E). injection E as _ _ E _. destruct Hx as [-> | ->]; done.
Qed.

Lemma num_unmarked v t : unmarked (num_node v t).
Proof. apply unmarked_leaf; [done|]. by intros x (? & ? & ? & ?). Qed.

Lemma usage_typed f : typed (usage_node f) TDynamic.
Proof. apply T_usage, (T_literal 0 0 (LString f)). Qed.

(** What the sum needs to know about a summand. *)
Definition summand (e : node) : Prop := typed e TNumber /\ node_height e <= 4 /\ unmarked e.

Lemma usage_term_summand e v : summand (usage_term_node e v).
Proof.
  assert (Hp : typed (product_node e.1 v) TNumber).
  { eapply T_arithmetic; [done|apply usage_typed|apply (T_literal 0 0 (LNumber v))|by right|by left]. }
  assert (Hu : unmarked (product_node e.1 v)) by (apply unmarked_binary; [apply usage_unmarked|apply num_unmarked]).
  unfold summand, usage_term_node. destruct (is_token_unit e.2); (split; [|split]); try done.
  - eapply T_arithmetic; [done|exact Hp|apply (T_literal 0 0 (LNumber MILLION))|by left|by left].
  - apply unmarked_binary; [done|apply num_unmarked].
  - cbn. lia.
Qed.

Lemma summands t fields : Forall summand (task_body_nodes t fields).
Proof.
  unfold task_body_nodes. apply Forall_app_2.
  - destruct (num_ltb _ _); [|constructor]. constructor; [|constructor].
    split; [apply (T_literal 0 0 (LNumber _))|]. split; [rewrite node_height_unfold; simpl; lia|apply num_unmarked].
  - apply Forall_map, List.Forall_forall. intros e _. apply usage_term_summand.
Qed.

Lemma infix_summands op es (t : expression_type) b : es <> [] ->
  (forall x y, typed x t -> typed y t -> typed (NBinary 0 0 op x y) t) ->
  Forall (fun e => typed e t /\ node_height e <= b /\ unmarked e) es ->
  typed (infix_node op es) t /\ node_height (infix_node op es) <= b + length es /\ unmarked (infix_node op es).
Proof.
  intros Hne Hop H. destruct H as [|e es (H1 & H2 & H3) Hes]; [done|]. simpl. split_and!.
  - apply typed_fold; [done|done|]. eapply Forall_impl; [|exact Hes]. by intros ? (? & _).
  - eapply Nat.le_trans; [apply (height_fold _ _ _ b); [done|]|lia].
    eapply Forall_impl; [|exact Hes]. by intros ? (? & ? & _).
  - apply unmarked_fold; [done|]. eapply Forall_impl; [|exact Hes]. by intros ? (? & ? & ?).
Qed.

Lemma sum_tier_facts label es : es <> [] -> length es <= 51 -> Forall summand es ->
  typed (sum_tier_node label es) TNumber /\ node_height (sum_tier_node label es) <= 60 /\
  check_tier (sum_tier_node label es) = Ok tt.
Proof.
  intros Hne Hlen Hs. destruct (infix_summands (js "+") es TNumber 4) as (K1 & K2 & K3).
  - done.
  - intros x y Hx Hy. eapply T_arithmetic; eauto.
  - eapply Forall_impl; [|exact Hs]. by intros ? (? & ? & ?).
  - unfold sum_tier_node. generalize dependent (infix_node (js "+") es). intros b K1 K2 K3.
    split_and!.
    + apply T_tier; [apply (T_literal 0 0 (LString _))|done].
    + rewrite node_height_unfold. simpl. change (node_height (str_node label)) with 1. lia.
    + unfold check_tier. cbn [valid_tier]. change (js "tier" === "tier") with true. cbv iota.
      rewrite unmarked_marker; [|apply str_unmarked|rewrite node_height_unfold; simpl; lia].
      cbn [negb]. assert (Hm : containsPricingMarker b = Ok false) by (apply unmarked_marker; [done|lia]).
      unfold valid_price. rewrite Hm. destruct b as [| | |s e f args| | |]; try done.
      destruct (f === "fixed") eqn:Ef; [|done]. apply str_eqb_eq in Ef. subst f.
      destruct (K3 _ (subnodes_self _)) as [_ Hx]. destruct Hx. by do 3 eexists.
Qed.

Lemma task_tier_facts t fields : fields <> [] -> length fields <= 50 ->
  typed (task_tier_node t fields) TNumber /\ node_height (task_tier_node t fields) <= 60 /\
  check_tier (task_tier_node t fields) = Ok tt.
Proof.
  intros Hne Hl. apply (sum_tier_facts (kt_label t)); [by apply body_nonempty| |apply summands].
  unfold task_body_nodes. rewrite length_app, length_map. destruct (num_ltb _ _); simpl; lia.
Qed.

(** * Conditions *)

Definition task_condition_node (c : jsstr * jsstr) : node :=
  NBinary 0 0 (js "==") (usage_node c.1) (str_node c.2).

(** The condition names a value of an enumerated field. *)
Definition task_condition_ok (c : jsstr * jsstr) : Prop :=
  units c.1 /\ units c.2 /\
  match own schema c.1 with
  | Some f => uf_type f <> Some UTBoolean /\
      match uf_enum f with Some l => existsb (str_eqb c.2) l = true | None => False end
  | None => False
  end.

Lemma task_condition_written c : task_condition_ok c ->
  written 2 3 (task_condition_text c) (task_condition_node c).
Proof.
  intros (H1 & H2 & _). apply (written_binary 1 3 (js "==")); [done| |].
  - apply written_level with 7; [by apply usage_written|lia].
  - apply written_level with 7; [|lia]. by apply written_string, json_body_scanned.
Qed.

Lemma task_conditions_read cs : forall acc, Forall task_condition_ok cs ->
  task_condition_list (map task_condition_node cs) schema false acc = Ok (Some (acc ++ cs)).
Proof.
  induction cs as [|[f v] cs IH]; intros acc Hok; simpl map; [by rewrite app_nil_r|].
  apply list.Forall_cons in Hok as [(_ & _ & Ho) Hok]. cbn [task_condition_list task_condition_node fst snd].
  change (negb (js "==" === "==")) with false. cbv iota.
  change (usage_call (usage_node f)) with (@Ok exn _ (Some f)). cbv iota beta. cbn [str_node].
  simpl in Ho. destruct (own schema f) as [[ty un en]|]; [|done]. simpl in Ho.
  destruct Ho as [Ht He]. destruct en as [l|]; [|done].
  assert (E : task_condition_value (Some (UsageField ty un (Some l))) false (LString v) = Some v)
    by (simpl; destruct ty as [[]|]; try done; by rewrite He).
  rewrite E, IH by done. by rewrite <- app_assoc.
Qed.

(** The tree of the conditions of a tier. *)
Definition conditions_node (cs : list (jsstr * jsstr)) : node := infix_node (js "&&") (map task_condition_node cs).

Lemma task_conditions_written cs : Forall task_condition_ok cs -> cs <> [] -> length cs <= 100 ->
  let e := conditions_node cs in
  written 3 2 (generateTaskCondition cs) e /\
    taskConditions e schema false = Ok (Some cs) /\ typed e TBoolean /\ node_height e <= 103 /\
    unmarked e /\ isContextGuard e = false.
Proof.
  intros Hok Hne Hl. unfold conditions_node. set (es := map task_condition_node cs).
  assert (Hes : es <> []) by (unfold es; by destruct cs). cbv zeta.
  destruct (infix_summands (js "&&") es TBoolean 3) as (K1 & K2 & K3); [done|by constructor| |].
  { unfold es. apply Forall_map, List.Forall_forall. intros c _. split_and!.
    - eapply T_compare; [done|apply usage_typed|apply (T_literal 0 0 (LString _))].
    - rewrite !node_height_unfold. simpl. lia.
    - apply unmarked_binary; [apply usage_unmarked|apply str_unmarked]. }
  unfold es in K2 at 2. rewrite length_map in K2. split_and!; [| |done|lia|done|].
  - unfold generateTaskCondition. apply (infix_written 1 2 (js "&&")); [done|by destruct cs| |lia].
    unfold es. clear - Hok. induction Hok; simpl; [constructor|]. constructor; [|done].
    by apply task_condition_written.
  - unfold taskConditions. rewrite infix_flatten; [|done|].
    + unfold es. by rewrite task_conditions_read.
    + unfold es. apply Forall_map, List.Forall_forall. by intros c _.
  - unfold es. destruct cs as [|c1 [|c2 cs]]; [done|done|]. simpl.
    generalize (task_condition_node c1), (task_condition_node c2).
    induction (map task_condition_node cs) as [|x l IHl]; intros a b; simpl; [done|apply IHl].
Qed.

(** * Chains *)

(** The tier as it is read: unit prices for the given fields. *)
Definition read_tier (fields : list (jsstr * usage_field)) (cs : list (jsstr * jsstr)) (t : task_tier)
  : task_tier :=
  TaskTier (kt_label t) cs (kt_constant t)
    (map (fun e => (e.1, price_or_zero (kt_unitPrices t) e.1)) fields).

(** All tiers but the last with their conditions. *)
Fixpoint read_tiers (fields : list (jsstr * usage_field)) (tiers : list task_tier) : list task_tier :=
  match tiers with
  | [] => []
  | t :: rest => read_tier fields (match rest with [] => [] | _ => kt_conditions t end) t
                 :: read_tiers fields rest
  end.

Record task_chain_ok (e : node) (b : nat) (ts : list task_tier) : Prop := {
  tc_tiers : forall acc, task_chain e schema false acc = Ok (Some (acc ++ ts));
  tc_typed : typed e TNumber;
  tc_height : node_height e <= b;
  tc_valid : chain_valid e;
}.

(** The tiers of a configuration that is read back. *)
Fixpoint tiers_ok (fields : list (jsstr * usage_field)) (tiers : list task_tier) : Prop :=
  match tiers with
  | [] => False
  | t :: rest =>
      task_tier_ok fields t /\
      match rest with
      | [] => True
      | _ => Forall task_condition_ok (kt_conditions t) /\ kt_conditions t <> [] /\
             length (kt_conditions t) <= 100 /\ tiers_ok fields rest
      end
  end.

Lemma height_conditional s e c y n b : node_height c <= b -> node_height y <= b -> node_height n <= b ->
  node_height (NConditional s e c y n) <= S b.
Proof. intros. rewrite node_height_unfold. simpl. lia. Qed.

Lemma generateTaskCondition_truthy cs : cs <> [] -> truthy (generateTaskCondition cs) = true.
Proof.
  destruct cs as [|c cs]; [done|]. intros _. unfold generateTaskCondition. simpl.
  by destruct (map task_condition_text cs).
Qed.

(** The tree of the tiers of a configuration. *)
Fixpoint task_tree (fields : list (jsstr * usage_field)) (tiers : list task_tier) : node :=
  match tiers with
  | [] => num_node num_zero []
  | t :: rest =>
      match rest with
      | [] => task_tier_node t fields
      | _ => NConditional 0 0 (conditions_node (kt_conditions t)) (task_tier_node t fields) (task_tree fields rest)
      end
  end.

Lemma task_chain_written fields tiers : fields <> [] -> length fields <= 50 -> NoDup (map fst fields) ->
  tiers_ok fields tiers ->
  exists parts, task_parts tiers fields = Some parts /\ parts <> [] /\
    written (3 + length tiers) 0 (join (js " : ") parts) (task_tree fields tiers) /\
    task_chain_ok (task_tree fields tiers) (110 + length tiers) (read_tiers fields tiers).
Proof.
  intros Hne Hlen Hnd. induction tiers as [|t rest IH]; intros H; [done|].
  destruct H as [Ht H]. pose proof (task_call_written t fields Ht Hne) as Hw.
  destruct (task_tier_facts t fields Hne Hlen) as (F1 & F2 & F3).
  destruct rest as [|t' rest].
  - exists [generateTaskTierCall t fields]. split; [done|]. split; [done|]. cbn [task_tree].
    split; [apply written_level with 7; [done|lia]|]. constructor; [|done|simpl; lia|done].
    intros acc. rewrite task_chain_leaf by done. by rewrite task_tier_read.
  - destruct H as (Hc & Hcne & Hcl & Hrest).
    destruct (IH Hrest) as (parts & Ep & Hpne & Hwn & [N1 N2 N3 N4]).
    destruct (task_conditions_written _ Hc Hcne Hcl) as (Hwc & C1 & C2 & C3 & C4 & C5).
    eexists (_ :: parts). split.
    { cbn [task_parts] in *. rewrite generateTaskCondition_truthy by done. by rewrite Ep. }
    split; [done|].
    change (task_tree fields (t :: t' :: rest)) with
      (NConditional 0 0 (conditions_node (kt_conditions t)) (task_tier_node t fields) (task_tree fields (t' :: rest))).
    split.
    + destruct parts as [|p parts]; [done|]. cbn [join]. rewrite <- !app_assoc.
      apply (written_conditional (3 + length (t' :: rest))); [| |exact Hwn].
      * apply written_level with 2; [|lia]. apply written_deeper with 3; [done|lia].
      * apply written_level with 7; [|lia]. apply written_deeper with 4; [done|simpl; lia].
    + constructor.
      * intros acc. cbn [task_chain]. rewrite C1, task_tier_read, N1, <- app_assoc by done. done.
      * by apply T_conditional.
      * change (110 + length (t :: t' :: rest)) with (S (110 + length (t' :: rest))).
        apply height_conditional; [lia|lia|done].
      * cbn [chain_valid]. split_and!; done || lia.
Qed.

End Reading.

(** * The text at top level *)

#[local] Open Scope Z_scope.

Lemma scan_exponent_chars s n : (scan_exponent s).1.2 = n -> n = length s ->
  Forall (fun c => is_number_char c = true) s.
Proof.
  destruct s as [|c s1]; [constructor|]. cbn [scan_exponent]. destruct ((c =? 101) || (c =? 69)) eqn:Ec.
  2: { simpl. intros <-. done. }
  assert (Hc : is_number_char c = true) by (apply orb_true_iff in Ec as [E|E]; by eapply number_char_eqb).
  assert (Hd : forall k s2 (sg : Z), (let '(ds, s3) := span is_digit s2 in
      match ds with [] => (0, 0%nat, c :: s1) | _ => (sg * dec_value ds, (k + length ds)%nat, s3) end).1.2 = n ->
      n = S (length s1) -> (S (length s1) = k + length s2)%nat -> Forall (fun c => is_number_char c = true) s2).
  { intros k s2 sg. destruct (span is_digit s2) as [ds s3] eqn:E. apply span_digits_rest in E as [-> Hds].
    intros H -> Hl. rewrite length_app in Hl. destruct ds as [|d ds]; simpl in H; [done|].
    simpl in Hl. destruct s3; [by rewrite app_nil_r|simpl in Hl; lia]. }
  intros H Hn. constructor; [done|]. destruct s1 as [|d s']; [constructor|].
  destruct (d =? 45) eqn:E1; [|destruct (d =? 43) eqn:E2].
  - constructor; [by eapply number_char_eqb|]. by eapply (Hd 2%nat s' (-1)).
  - constructor; [by eapply number_char_eqb|]. by eapply (Hd 2%nat s' 1).
  - by eapply (Hd 1%nat (d :: s') 1).
Qed.

(** A numeric literal consists of the characters of numbers. *)
Lemma number_reads_chars t v : number_reads t v = true -> Forall (fun c => is_number_char c = true) t.
Proof.
  unfold number_reads. destruct (scan_number t) as [[n w]|] eqn:E; [|done]. intros H. bools.
  revert E. unfold scan_number. destruct (span is_digit t) as [ip s1] eqn:Es.
  apply span_digits_rest in Es as [-> Hip]. intros E. apply Forall_app_2; [done|].
  assert (Hex : forall fp (k : nat) s2,
    match ip, fp with
    | [], [] => None
    | _, _ => let '(ex, n, _) := scan_exponent s2 in
        Some ((length ip + k + length fp + n)%nat,
              num_of_decimal (dec_value (ip ++ fp)) (ex - Z.of_nat (length fp)))
    end = Some (n, w) -> (length s1 = k + length fp + length s2)%nat ->
    Forall (fun c => is_number_char c = true) s2).
  { intros fp k s2 Hm Hl. eapply scan_exponent_chars; [reflexivity|].
    destruct (scan_exponent s2) as [[ex m] r]. rewrite length_app in *. simpl.
    assert (Hk : (n = length ip + k + length fp + m)%nat) by (destruct ip, fp; congruence || (injection Hm as <- _; reflexivity)).
    lia. }
  destruct s1 as [|c s']; [constructor|]. destruct (c =? 46) eqn:Ec.
  - constructor; [by eapply number_char_eqb|]. destruct (span is_digit s') as [f r] eqn:Ef.
    apply span_digits_rest in Ef as [-> Hf]. apply Forall_app_2; [done|].
    apply (Hex f 1%nat r E). simpl. rewrite length_app. lia.
  - by apply (Hex [] 0%nat (c :: s') E).
Qed.

Lemma neutral_usage op d f : scanned op d -> units f -> neutral op d (usage_text f).
Proof.
  intros H Hf. destruct (scanned_head op d H) as [Ho Hd]. unfold usage_text.
  change (js "u(" ++ json_string f ++ js ")") with (js "u" ++ [LPAREN] ++ json_string f ++ [RPAREN]).
  apply neutral_app; [calm_text H|]. apply neutral_paren; [done|done|by apply neutral_json].
Qed.

Lemma neutral_term op d e v : scanned op d -> (d =? 0) = false -> units e.1 -> number_reads (num_to_string v) v = true ->
  neutral op d (usage_term e v).
Proof.
  intros H Hd He Hv. unfold usage_term. apply neutral_app; [by apply neutral_usage|].
  assert (Hs : forall x, forallb (calm op 1) x = true -> neutral op d x).
  { intros x Hx. apply neutral_calm. revert Hx. unfold calm. by rewrite Hd. }
  apply neutral_app; [apply Hs; destruct H as [[-> | ->] _]; reflexivity|].
  apply neutral_app; [apply neutral_number; [done|by eapply number_reads_chars]|].
  destruct (is_token_unit e.2); [|apply neutral_nil].
  apply Hs. destruct H as [[-> | ->] _]; vm_compute; reflexivity.
Qed.

Lemma neutral_tier_call t fields schema : task_tier_ok schema fields t -> fields <> [] ->
  neutral (js "*") 0 (generateTaskTierCall t fields).
Proof.
  intros Hok Hne. assert (H0 : scanned (js "*") 0) by (by split; [right|]).
  assert (H1 : scanned (js "*") 1) by (by split; [right|]).
  unfold generateTaskTierCall.
  replace (js "tier(" ++ _) with
    (js "tier" ++ [LPAREN] ++ (json_string (kt_label t) ++ js ", " ++ generateTaskTierBody t fields) ++ [RPAREN])
    by (rewrite <- !app_assoc; reflexivity).
  apply neutral_app; [by apply neutral_calm|]. apply neutral_paren; [done|done|].
  apply neutral_app; [apply neutral_json, (tk_label _ _ _ Hok)|]. apply neutral_app; [by apply neutral_calm|].
  unfold generateTaskTierBody. apply neutral_join; [by apply neutral_calm|]. apply Forall_app_2.
  - pose proof (tk_constant _ _ _ Hok) as Hc. unfold constant_ok in Hc.
    destruct (num_ltb num_zero (kt_constant t)); [|constructor]. constructor; [|constructor].
    apply neutral_number; [done|by eapply number_reads_chars].
  - apply Forall_map. pose proof (tk_names _ _ _ Hok) as Hn. pose proof (tk_prices _ _ _ Hok) as Hp.
    apply List.Forall_forall. intros e He. rewrite List.Forall_forall in Hn, Hp.
    apply neutral_term; [done|done|by apply Hn|]. specialize (Hp e He).
    by apply andb_true_iff in Hp as [? _].
Qed.

Lemma neutral_conditions schema cs : Forall (task_condition_ok schema) cs ->
  neutral (js "*") 0 (generateTaskCondition cs).
Proof.
  intros H. assert (H0 : scanned (js "*") 0) by (by split; [right|]).
  unfold generateTaskCondition. apply neutral_join; [by apply neutral_calm|]. apply Forall_map.
  eapply Forall_impl; [|exact H]. intros c (H1 & H2 & _). unfold task_condition_text.
  apply neutral_app; [by apply neutral_usage|]. apply neutral_app; [by apply neutral_calm|by apply neutral_json].
Qed.

(** A question mark at top level: the source is not split. *)
Lemma split_question op p rest : op <> [] -> neutral op 0 p ->
  splitExpressionAtTopLevel (p ++ QUESTION :: rest) op = Some [trim (p ++ QUESTION :: rest)].
Proof.
  intros Hop Hp. apply splits_result; [done|].
  eapply (splits_scan op _ p (QUESTION :: rest)); [by rewrite drop_0|apply Hp|].
  exists 1%nat. cbn [split_loop].
  assert (E : (p ++ QUESTION :: rest) !! (0 + length p)%nat = Some QUESTION)
    by (by rewrite list_lookup_middle).
  by rewrite E.
Qed.

(** What the rule reader does with a text that has no factor at top level. *)
Lemma no_rules t : tight t ->
  splitExpressionAtTopLevel t (js "*") = Some [t] -> splitBillingExprAndRequestRules t = Ok (t, []).
Proof.
  intros Ht Hs. destruct (tight_trim t Ht) as [Htrim Htruthy]. unfold splitBillingExprAndRequestRules.
  rewrite Htrim, Htruthy. cbn [negb]. unfold splitTopLevelMultiply. by rewrite Hs.
Qed.

Lemma tier_call_tight t fields : tight (generateTaskTierCall t fields).
Proof.
  unfold generateTaskTierCall. rewrite (app_assoc (json_string _)), (app_assoc (_ ++ _)).
  by apply (tight_app (js "tier(") _ (js ")")).
Qed.
Lemma usage_starts f : starts_tight (usage_text f).
Proof. done. Qed.
Lemma conditions_start_tight cs : cs <> [] -> starts_tight (generateTaskCondition cs).
Proof.
  destruct cs as [|c cs]; [done|]. intros _. unfold generateTaskCondition. simpl map.
  by destruct (map task_condition_text cs).
Qed.

Lemma task_parts_tight fields tiers : forall parts, tiers <> [] ->
  task_parts tiers fields = Some parts -> starts_tight (rev (join (js " : ") parts)) /\ parts <> [].
Proof.
  induction tiers as [|t rest IH]; [done|]. intros parts _ H.
  destruct rest as [|t' rest].
  - injection H as <-. split; [apply tier_call_tight|done].
  - cbn [task_parts] in H. destruct (truthy _); [|done].
    destruct (match rest with [] => _ | _ => _ end) as [ps|] eqn:E; [|done]. injection H as <-.
    destruct (IH ps ltac:(done) E) as [Hs Hne]. split; [|done]. destruct ps as [|p ps]; [done|].
    cbn [join]. rewrite !rev_app_distr. rewrite <- !app_assoc.
    by apply starts_tight_app.
Qed.

Lemma task_text_alone schema fields tiers parts : fields <> [] -> tiers_ok schema fields tiers ->
  task_parts tiers fields = Some parts ->
  splitBillingExprAndRequestRules (join (js " : ") parts) = Ok (join (js " : ") parts, []).
Proof.
  intros Hne Hok Hp. destruct tiers as [|t rest]; [done|].
  destruct (task_parts_tight fields (t :: rest) parts ltac:(done) Hp) as [Hend Hpn]. destruct Hok as [Ht Hok].
  destruct rest as [|t' rest].
  - injection Hp as <-. apply no_rules; [apply tier_call_tight|].
    apply (split_join_pieces (js "*") (generateTaskTierCall t fields) []); [done| |].
    + constructor; [by eapply neutral_tier_call|constructor].
    + constructor; [apply tight_trim, tier_call_tight|constructor].
  - destruct Hok as (Hc & Hcne & _). cbn [task_parts] in Hp. destruct (truthy _); [|done].
    destruct (match rest with [] => _ | _ => _ end) as [ps|] eqn:E; [|done]. injection Hp as <-.
    set (text := join _ _) in *.
    assert (Et : exists r, text = (generateTaskCondition (kt_conditions t) ++ [32]) ++ QUESTION :: r).
    { unfold text. destruct ps as [|p ps]; cbn [join]; eexists; rewrite <- !app_assoc; reflexivity. }
    assert (Htight : tight text).
    { split; [|done]. destruct Et as [r ->]. rewrite <- app_assoc.
      by apply starts_tight_app, conditions_start_tight. }
    apply no_rules; [done|]. destruct (tight_trim _ Htight) as [Htr _]. rewrite <- Htr at 2.
    destruct Et as [r ->]. apply split_question; [done|].
    apply neutral_app; [by eapply neutral_conditions|]. by apply neutral_calm.
Qed.

(** * Fields of a schema *)

Section Collated.
Context {C : Collation}.

Lemma filter_keys {A} (f : jsstr * A -> bool) (l : list (jsstr * A)) :
  NoDup (map fst l) -> NoDup (map fst (List.filter f l)).
Proof.
  induction l as [|x l IH]; intros H; [done|]. apply list.NoDup_cons in H as [Hx H]. simpl.
  destruct (f x); [|by apply IH]. simpl. constructor; [|by apply IH]. intros Hin. apply Hx.
  apply list_elem_of_In in Hin. apply in_map_iff in Hin as (y & <- & Hy). apply list_elem_of_In, in_map.
  by apply filter_In in Hy as [? _].
Qed.

Lemma sorted_keys {A} (l : list (jsstr * A)) : NoDup (map fst l) -> NoDup (map fst (sorted_entries l)).
Proof. intros H. unfold sorted_entries. by rewrite (sort_by_perm _ l). Qed.

(** The selected fields are those of the schema. *)
Lemma selected_fields (f : jsstr * usage_field -> bool) (s : usage_schema) : NoDup (map fst s) ->
  let l := sorted_entries (List.filter f s) in
  NoDup (map fst l) /\ forall k v, own l k = Some v <-> own s k = Some v /\ f (k, v) = true.
Proof.
  intros H l. assert (Hl : NoDup (map fst l)) by (by apply sorted_keys, filter_keys).
  assert (Hin : forall x, x ∈ l <-> x ∈ s /\ f x = true).
  { intros x. unfold l, sorted_entries. rewrite (sort_by_perm _ (List.filter f s)).
    by rewrite !list_elem_of_In, filter_In. }
  split; [done|]. intros k v. split.
  - intros Ho. apply own_In, Hin in Ho as [Ho Hf]. split; [by apply own_unique|done].
  - intros [Ho Hf]. apply own_unique; [done|]. apply Hin. split; [by apply own_In|done].
Qed.

(** * Normal tiers *)

Definition units_b (s : jsstr) : bool := forallb (fun c => (0 <=? c) && (c <? 65536)) s.

Lemma units_b_spec s : units_b s = true -> units s.
Proof.
  unfold units_b. rewrite forallb_forall, <- List.Forall_forall. apply Forall_impl.
  intros c Hc. unfold code_unit. lia.
Qed.

(** Keys of an object, names and values made of code units, no enumeration of
    truth values, and at most fifty numeric fields. *)
Definition schema_ok (schema : usage_schema) : bool :=
  bool_decide (NoDup (map fst schema))
  && forallb (fun e => units_b e.1 && forallb units_b (enum_values e.2)
                       && (negb (is_enum_field e.2) || negb (bool_decide (uf_type e.2 = Some UTBoolean))))
       schema
  && (1 <=? length (getTaskNumberFields (Some schema)))%nat
  && (length (getTaskNumberFields (Some schema)) <=? 50)%nat.

(** Tiers as normalization leaves them, with prices whose decimal text reads back,
    and conditions on all tiers but the last. *)
Fixpoint tiers_readable (fields : list (jsstr * usage_field)) (tiers : list task_tier) : bool :=
  match tiers with
  | [] => false
  | t :: rest =>
      units_b (kt_label t) && constant_ok (kt_constant t)
      && forallb (fun e => price_ok (price_or_zero (kt_unitPrices t) e.1)) fields
      && match rest with
         | [] => true
         | _ => (1 <=? length (kt_conditions t))%nat && (length (kt_conditions t) <=? 100)%nat
                && tiers_readable fields rest
         end
  end.

Section Schema.
Variable schema : usage_schema.
Hypothesis Hschema : schema_ok schema = true.
Abbreviation fields := (getTaskNumberFields (Some schema)).

Lemma schema_facts :
  NoDup (map fst schema) /\ fields <> [] /\ (length fields <= 50)%nat /\
  (forall k f, own schema k = Some f -> units k /\ Forall units (enum_values f) /\
     (is_enum_field f = true -> uf_type f <> Some UTBoolean)).
Proof.
  unfold schema_ok in Hschema. apply andb_true_iff in Hschema as [H H50].
  apply andb_true_iff in H as [H H1]. apply andb_true_iff in H as [H Hall].
  apply bool_decide_eq_true in H. apply Nat.leb_le in H1, H50. split_and!; [done| |done|].
  { intros E. rewrite E in H1. simpl in H1. lia. }
  intros k f Ho. apply own_In, list_elem_of_In in Ho. rewrite forallb_forall in Hall.
  specialize (Hall _ Ho). simpl in Hall. apply andb_true_iff in Hall as [Hu Hb].
  apply andb_true_iff in Hu as [Hu He]. split_and!; [by apply units_b_spec| |].
  - apply List.Forall_forall. intros v Hv. rewrite forallb_forall in He. by apply units_b_spec, He.
  - intros Hx. rewrite Hx in Hb. simpl in Hb. by apply negb_true_iff, bool_decide_eq_false in Hb.
Qed.

Lemma number_fields_spec : NoDup (map fst fields) /\
  forall k f, own fields k = Some f <-> own schema k = Some f /\ is_number_field f = true.
Proof. apply (selected_fields (fun e => is_number_field e.2)), schema_facts. Qed.
Lemma enum_fields_spec :
  forall k f, own (getTaskEnumFields (Some schema)) k = Some f <-> own schema k = Some f /\ is_enum_field f = true.
Proof. apply (selected_fields (fun e => is_enum_field e.2)), schema_facts. Qed.

(** Fixed by normalization, at any position. *)
Definition normal (t : task_tier) : Prop := forall i, normalize_task_tier schema i t = t.

Lemma price_or_default_twice v : price_or_default (price_or_default v) = price_or_default v.
Proof. unfold price_or_default. destruct (valid_price_number v) eqn:E; [by rewrite E|done]. Qed.

Lemma own_map_fields (f : jsstr * usage_field -> number) e : e ∈ fields ->
  own (map (fun e => (e.1, f e)) fields) e.1 = Some (f e).
Proof.
  intros He. apply own_unique.
  - rewrite map_map. apply number_fields_spec.
  - apply list_elem_of_In, in_map_iff. exists e. split; [done|by apply list_elem_of_In].
Qed.

Lemma filter_twice {A} (f : A -> bool) l : List.filter f (List.filter f l) = List.filter f l.
Proof. induction l as [|x l IH]; simpl; [done|]. destruct (f x) eqn:E; simpl; by rewrite ?E, IH. Qed.

Lemma normalize_normal i t : normal (normalize_task_tier schema i t).
Proof.
  intros j. destruct t as [label cs k ps]. unfold normalize_task_tier. cbn [kt_label kt_conditions kt_constant kt_unitPrices].
  f_equal.
  - destruct label; [|done]. by destruct i.
  - apply filter_twice.
  - apply price_or_default_twice.
  - apply map_ext_in. intros e He. apply list_elem_of_In in He.
    rewrite (own_map_fields (fun e => price_or_default
      (match own ps e.1 with Some p => p | None => S754_nan end)) e He).
    by rewrite price_or_default_twice.
Qed.

Lemma normalize_from_normal tiers : forall i, Forall normal (normalize_from schema i tiers).
Proof. induction tiers; intros i; simpl; constructor; [apply normalize_normal|done]. Qed.

Lemma normalize_from_fixed tiers : forall i, Forall normal tiers -> normalize_from schema i tiers = tiers.
Proof.
  induction tiers as [|t tiers IH]; intros i H; [done|]. apply list.Forall_cons in H as [Ht H].
  simpl. by rewrite Ht, IH.
Qed.

(** The tier without its conditions. *)
Definition tier_unconditional (t : task_tier) : task_tier :=
  TaskTier (kt_label t) [] (kt_constant t) (kt_unitPrices t).

Lemma unconditional_normal t : normal t -> normal (tier_unconditional t).
Proof.
  intros H i. specialize (H i). unfold tier_unconditional. unfold normalize_task_tier.
  cbn [kt_label kt_conditions kt_constant kt_unitPrices List.filter]. f_equal.
  - exact (f_equal kt_label H).
  - exact (f_equal kt_constant H).
  - exact (f_equal kt_unitPrices H).
Qed.

Lemma default_normal : Forall normal (createDefaultTaskVisualConfig schema).
Proof.
  constructor; [|constructor]. intros i. unfold normalize_task_tier, zero_prices. cbn [kt_label kt_conditions kt_constant kt_unitPrices].
  f_equal. apply map_ext_in. intros e He. apply list_elem_of_In in He.
  by rewrite (own_map_fields (fun _ => num_zero) e He).
Qed.

Lemma normalized_normal config : Forall normal (normalizeTaskVisualConfig config schema).
Proof. destruct config as [[|t ts]|]; [apply default_normal|apply normalize_from_normal|apply default_normal]. Qed.

(** ** Reading normal tiers *)

Lemma normal_read t cs : normal t -> read_tier fields cs t = TaskTier (kt_label t) cs (kt_constant t) (kt_unitPrices t).
Proof.
  intros H. specialize (H 0%nat). unfold read_tier. f_equal.
  apply (f_equal kt_unitPrices) in H. cbn [normalize_task_tier kt_unitPrices] in H.
  etransitivity; [|exact H]. apply map_ext_in. intros e He. apply list_elem_of_In in He. f_equal.
  unfold price_or_zero. pose proof (own_map_fields (fun e => price_or_default
    (match own (kt_unitPrices t) e.1 with Some p => p | None => S754_nan end)) e He) as Ho.
  cbv beta in Ho. rewrite H in Ho. by rewrite Ho at 1.
Qed.

(** All tiers, the last without conditions. *)
Fixpoint last_unconditional (tiers : list task_tier) : list task_tier :=
  match tiers with
  | [] => []
  | [t] => [tier_unconditional t]
  | t :: rest => t :: last_unconditional rest
  end.

Lemma normal_reads tiers : Forall normal tiers -> read_tiers fields tiers = last_unconditional tiers.
Proof.
  induction 1 as [|t tiers Ht Hts IH]; [done|]. cbn [read_tiers]. rewrite IH, normal_read by done.
  destruct tiers; [done|]. cbn [last_unconditional]. f_equal. by destruct t.
Qed.

Lemma last_normal tiers : Forall normal tiers -> Forall normal (last_unconditional tiers).
Proof.
  induction 1 as [|t tiers Ht Hts IH]; [constructor|]. destruct tiers as [|t' tiers].
  - constructor; [by apply unconditional_normal|constructor].
  - constructor; done.
Qed.

Lemma normal_conditions t : normal t -> Forall (task_condition_ok schema) (kt_conditions t).
Proof.
  intros H. specialize (H 0%nat). apply (f_equal kt_conditions) in H. cbn [normalize_task_tier kt_conditions] in H.
  apply List.Forall_forall. intros [k v] Hin. rewrite <- H in Hin. apply filter_In in Hin as [_ Hin].
  cbn [fst snd] in Hin. destruct (own (getTaskEnumFields (Some schema)) k) as [f|] eqn:Eo; [|done].
  apply enum_fields_spec in Eo as [Eo Hf]. destruct schema_facts as (_ & _ & _ & Hs).
  destruct (Hs k f Eo) as (Hk & Hvs & Hb). unfold task_condition_ok. cbn [fst snd]. rewrite Eo.
  split; [exact Hk|]. split.
  - apply existsb_exists in Hin as (w & Hw & E). apply str_eqb_eq in E as ->.
    by apply (proj1 (List.Forall_forall _ _) Hvs).
  - split; [by apply Hb|]. unfold is_enum_field, enum_values in *. by destruct (uf_enum f).
Qed.

Lemma readable_tier_ok t : units_b (kt_label t) = true -> constant_ok (kt_constant t) = true ->
  forallb (fun e => price_ok (price_or_zero (kt_unitPrices t) e.1)) fields = true ->
  task_tier_ok schema fields t.
Proof.
  intros Hl Hc Hp. destruct number_fields_spec as [Hn Hf]. destruct schema_facts as (_ & _ & _ & Hs).
  rewrite forallb_forall in Hp.
  assert (Ho : forall e, In e fields -> own schema e.1 = Some e.2 /\ is_number_field e.2 = true).
  { intros [k f] He. apply Hf, own_unique; [done|by apply list_elem_of_In]. }
  constructor; [by apply units_b_spec|done|..]; apply List.Forall_forall; intros e He.
  - by apply (Hs e.1 e.2), Ho.
  - destruct (Ho e He). specialize (Hp e He). apply andb_true_iff in Hp as [_ ?]. by split_and!.
  - by apply Hp.
Qed.

Lemma readable_tiers_ok tiers : Forall normal tiers -> tiers_readable fields tiers = true ->
  tiers_ok schema fields tiers.
Proof.
  induction 1 as [|t rest Ht Hrest IH]; intros H; [done|]. cbn [tiers_readable] in H. cbn [tiers_ok].
  apply andb_true_iff in H as [H Hr]. apply andb_true_iff in H as [H Hp]. apply andb_true_iff in H as [Hl Hc].
  split; [by apply readable_tier_ok|]. destruct rest as [|t' rest]; [done|].
  apply andb_true_iff in Hr as [H Hr]. apply andb_true_iff in H as [H1 H100].
  apply Nat.leb_le in H1, H100. split_and!; [by apply normal_conditions| |done|by apply IH].
  intros E. rewrite E in H1. simpl in H1. lia.
Qed.

(** The text of a configuration is that of its tiers. *)
Lemma generated_text config : let tiers := normalizeTaskVisualConfig config schema in
  tiers_readable fields tiers = true -> exists parts, task_parts tiers fields = Some parts /\
  generateTaskExprFromConfig config schema = join (js " : ") parts.
Proof.
  intros tiers Hr. assert (Hn : Forall normal tiers) by apply normalized_normal.
  destruct schema_facts as (_ & Hne & H50 & _). destruct number_fields_spec as [Hnd _].
  assert (Hok : tiers_ok schema fields tiers) by (by apply readable_tiers_ok).
  destruct (task_chain_written schema fields tiers Hne H50 Hnd Hok) as (parts & Hp & _).
  exists parts. split; [done|]. unfold generateTaskExprFromConfig. fold tiers. destruct fields as [|e0 fs]; [done|].
  destruct tiers as [|t [|t' rest]]; [done|by injection Hp as <-|by rewrite Hp].
Qed.

(** The expression of a configuration compiles, has no request rules, and its tiers
    are those of the configuration. *)
Lemma generated_task_reads config :
  let tiers := normalizeTaskVisualConfig config schema in
  let text := generateTaskExprFromConfig config schema in
  tiers_readable fields tiers = true -> (length tiers <= 120)%nat -> (length text < MAX_TOKENS)%nat ->
  splitBillingExprAndRequestRules text = Ok (text, []) /\ text <> [] /\
  exists comp, compile_try text = Ok comp /\ erase (c_ast comp) = task_tree fields tiers /\
    readTaskTierChain (c_ast comp) schema false = Ok (Some (last_unconditional tiers)).
Proof.
  intros tiers text Hr Hl Hlen.
  assert (Hn : Forall normal tiers) by apply normalized_normal.
  destruct schema_facts as (_ & Hne & H50 & _). destruct number_fields_spec as [Hnd _].
  assert (Hok : tiers_ok schema fields tiers) by (by apply readable_tiers_ok).
  destruct (task_chain_written schema fields tiers Hne H50 Hnd Hok) as (parts & Hp & _ & Hw & [K1 K2 K3 K4]).
  assert (Et : text = join (js " : ") parts).
  { destruct (generated_text config Hr) as (parts' & Hp' & E). fold tiers in Hp'. unfold text. congruence. }
  pose proof (task_text_alone schema fields tiers parts Hne Hok Hp) as Halone. rewrite <- Et in Halone, Hw.
  assert (Hw' : written 128 0 text (task_tree fields tiers)) by (apply written_deeper with (3 + length tiers)%nat; [done|lia]).
  assert (Hstart : (match text with c :: _ => negb (is_space c) && negb (c =? 118)%Z | [] => false end) = true).
  { rewrite Et. destruct tiers as [|t [|t' rest]]; [done|by injection Hp as <-|].
    destruct Hok as (_ & _ & Hcn & _). cbn [task_parts] in Hp. destruct (truthy _); [|done].
    destruct (match rest with [] => _ | _ => _ end) as [ps|]; [|done]. injection Hp as <-.
    destruct (kt_conditions t) as [|c cs]; [done|]. unfold generateTaskCondition. cbn [map].
    by destruct ps, (map task_condition_text cs). }
  split; [done|]. split; [by destruct text|].
  destruct (written_parse _ _ Hw' Hlen Hstart) as (n & Hparse & Hn'). rewrite <- Hn' in K1, K2, K3, K4.
  destruct (compile_typed _ n TNumber Hparse) as (comp & Hc & Ea).
  - by apply typed_erase.
  - rewrite <- node_height_erase. eapply Nat.le_trans; [exact K3|lia].
  - intros rules _. by apply chain_validates.
  - exists comp. split; [exact Hc|]. rewrite Ea. split; [exact Hn'|]. rewrite <- readTaskTierChain_erase. unfold readTaskTierChain.
    rewrite (K1 []). cbn [app]. by rewrite normal_reads.
Qed.
End Schema.

Lemma task_tiers_parsed schema text c comp tiers : schema <> [] -> text <> [] ->
  splitBillingExprAndRequestRules text = Ok (text, []) -> compile_try text = Ok comp ->
  readTaskTierChain (c_ast comp) schema false = Ok (Some tiers) -> cache_ok c ->
  (parseTaskTiersFromExpr text (Some schema) false c).1 = Ok tiers.
Proof.
  intros Hschema Htext Hsplit Hcomp Hread Hc. pose proof (compile_ready text c comp Hcomp Hc) as Hready. clear Hcomp.
  unfold parseTaskTiersFromExpr. destruct text as [|z text]; [done|].
  destruct schema as [|e0 schema]; [done|]. cbn [truthy negb]. rewrite Hsplit.
  destruct (compileBillingExpression (z :: text) c) as [r c']. cbn [fst] in Hready. subst r.
  by rewrite Hread.
Qed.

Lemma generated_config_read schema config c :
  schema_ok schema = true ->
  tiers_readable (getTaskNumberFields (Some schema)) (normalizeTaskVisualConfig config schema) = true ->
  (length (normalizeTaskVisualConfig config schema) <= 120)%nat ->
  (length (generateTaskExprFromConfig config schema) < MAX_TOKENS)%nat -> cache_ok c ->
  (tryParseTaskVisualConfig (Some (generateTaskExprFromConfig config schema)) schema c).1 =
  Ok (Some (last_unconditional (normalizeTaskVisualConfig config schema))).
Proof.
  intros Hs Hr Hl Hlen Hc.
  destruct (generated_task_reads schema Hs config Hr Hl Hlen) as (Hsplit & Hne & comp & Hcomp & _ & Hread).
  assert (Hnil : schema <> []) by (by intros ->).
  pose proof (last_normal schema _ (normalized_normal schema Hs config)) as Hn.
  assert (Hln : last_unconditional (normalizeTaskVisualConfig config schema) <> []).
  { revert Hr. generalize (normalizeTaskVisualConfig config schema). by intros [|t [|t' rest]]. }
  pose proof (task_tiers_parsed schema _ c comp _ Hnil Hne Hsplit Hcomp Hread Hc) as Hp. clear - Hp Hne Hn Hln.
  unfold tryParseTaskVisualConfig. destruct (generateTaskExprFromConfig config schema) as [|z text]; [done|].
  destruct (parseTaskTiersFromExpr _ _ _ _) as [r c']. cbn [fst] in *. subst r.
  destruct (last_unconditional _) as [|t ts]; [done|].
  cbn. f_equal. f_equal. by apply (normalize_from_fixed schema (t :: ts) 0%nat).
Qed.

(** * Theorems *)

(** The visual editor of task prices reads back the expression it generated: for
    every configuration of a schema with numeric fields, if all tiers but the last
    keep a condition after normalization and the prices are numbers whose decimal
    text reads back, the expression compiles and reading it gives the normalized
    configuration, without the conditions of the last tier (which is the default
    case of the expression). *)
Theorem task_config_roundtrip schema config c :
  schema_ok schema = true ->
  tiers_readable (getTaskNumberFields (Some schema)) (normalizeTaskVisualConfig config schema) = true ->
  (length (normalizeTaskVisualConfig config schema) <= 120)%nat ->
  (length (generateTaskExprFromConfig config schema) < MAX_TOKENS)%nat -> cache_ok c ->
  (tryParseTaskVisualConfig (Some (generateTaskExprFromConfig config schema)) schema c).1 =
  Ok (Some (last_unconditional (normalizeTaskVisualConfig config schema))).
Proof. apply generated_config_read. Qed.
End Collated.

(** ** Witnesses *)

(** A video: seconds, tokens, and a resolution. *)
Definition video_schema : usage_schema :=
  [ (js "tokens", UsageField (Some UTNumber) (Some (js "token")) None);
    (js "resolution", UsageField None None (Some [js "480p"; js "720p"]));
    (js "seconds", UsageField (Some UTNumber) (Some (js "second")) None) ].

Definition video_config : list task_tier :=
  [ TaskTier [] [(js "resolution", js "480p"); (js "color", js "red")] (num_of_decimal 5 (-2))
      [(js "seconds", num_of_decimal 125 (-3)); (js "tokens", num_of_Z (-1))];
    TaskTier (quotes "say 'hd'") [(js "resolution", js "720p")] num_zero
      [(js "seconds", num_of_decimal 3 (-1)); (js "tokens", num_of_Z 40)] ].

Lemma task_config_roundtrip_witness :
  (tryParseTaskVisualConfig (C := unit_collation)
     (Some (generateTaskExprFromConfig (C := unit_collation) (Some video_config) video_schema)) video_schema []).1 =
  Ok (Some (last_unconditional (normalizeTaskVisualConfig (C := unit_collation) (Some video_config) video_schema))).
Proof.
  apply (task_config_roundtrip (C := unit_collation) video_schema (Some video_config) []).
  - vm_compute. reflexivity.
  - vm_compute. reflexivity.
  - vm_compute. lia.
  - apply Nat.ltb_lt. vm_compute. reflexivity.
  - exact cache_ok_empty.
Defined.
