(* ===== verification/TaskMatrix.v ===== *)
(** The matrix of task prices over the enumerated fields: its combinations, and that
    the matrix is read back from the expression generated for it. *)
From Stdlib Require Import ZArith Lia Bool String SpecFloat Permutation.
From stdpp Require Import base list option.
From S2P Require Import Prelude JsString JsNumber Types JsValue Collections Lexer Parser Compile Pieces Display Json RequestRules BillingVars TierExpr TierFacts TaskExpr TaskFacts.

#[local] Open Scope nat_scope.

(** * Combinations *)

(** The combination has a value of each field, in the order of the fields. *)
Definition chooses (e : jsstr * usage_field) (kv : jsstr * jsstr) : Prop :=
  kv.1 = e.1 /\ In kv.2 (enum_values e.2).

Lemma chooses_keys es c : Forall2 chooses es c -> map fst c = map fst es.
Proof. induction 1 as [|e kv es c [H _] _ IH]; [done|]. simpl. by rewrite H, IH. Qed.

Lemma extend_append done_ cs e : NoDup (map fst (done_ ++ [e])) -> Forall (Forall2 chooses done_) cs ->
  extend_combinations cs e =
    concat (map (fun c => map (fun v => c ++ [(e.1, v)]) (enum_values e.2)) cs).
Proof.
  intros Hn Hcs. unfold extend_combinations. f_equal. apply map_ext_in. intros c Hc.
  apply map_ext. intros v. apply assign_new. rewrite List.Forall_forall in Hcs.
  rewrite (chooses_keys _ _ (Hcs c Hc)). rewrite map_app in Hn. apply list.NoDup_app in Hn as (_ & Hd & _).
  intros Hin. apply (Hd _ Hin). by left.
Qed.

Lemma append_values_nodup k vs cs : NoDup vs -> NoDup cs ->
  NoDup (concat (map (fun c : list (jsstr * jsstr) => map (fun v => c ++ [(k, v)]) vs) cs)).
Proof.
  intros Hv. induction 1 as [|c cs Hc Hcs IH]; simpl; [constructor|]. apply list.NoDup_app. split_and!.
  - apply NoDup_fmap; [|done]. intros x y E. apply app_inv_head in E. by injection E.
  - intros x Hx Hin. apply list_elem_of_fmap in Hx as (v & -> & _).
    apply list_elem_of_In, in_concat in Hin as (l & Hl & Hin). apply in_map_iff in Hl as (c' & <- & Hc').
    apply in_map_iff in Hin as (w & E & _). apply app_inj_tail in E as [-> _].
    apply Hc. by apply list_elem_of_In.
  - done.
Qed.

Lemma combinations_from es : forall done_ cs,
  NoDup (map fst (done_ ++ es)) -> Forall (fun e => NoDup (enum_values e.2)) es ->
  Forall (Forall2 chooses done_) cs -> NoDup cs ->
  Forall (Forall2 chooses (done_ ++ es)) (fold_left extend_combinations es cs) /\
  NoDup (fold_left extend_combinations es cs).
Proof.
  induction es as [|e es IH]; intros done_ cs Hn Hv Hcs Hnd; [by rewrite app_nil_r|].
  apply list.Forall_cons in Hv as [He Hv]. cbn [fold_left].
  assert (Hn' : NoDup (map fst ((done_ ++ [e]) ++ es))) by (by rewrite <- app_assoc).
  rewrite (extend_append done_).
  2: { rewrite map_app in Hn'. by apply list.NoDup_app in Hn' as [? _]. }
  2: done.
  replace (done_ ++ e :: es) with ((done_ ++ [e]) ++ es) by (by rewrite <- app_assoc).
  apply IH; [done|done| |by apply append_values_nodup].
  apply List.Forall_forall. intros c Hc. apply in_concat in Hc as (l & Hl & Hc).
  apply in_map_iff in Hl as (c0 & <- & Hc0). apply in_map_iff in Hc as (v & <- & Hin).
  rewrite List.Forall_forall in Hcs. apply Forall2_app; [by apply Hcs|]. by repeat constructor.
Qed.

(** * Keys *)

Lemma json_string_prefix a b r s : units a -> units b ->
  json_string a ++ r = json_string b ++ s -> a = b /\ r = s.
Proof.
  intros Ha Hb E. unfold json_string in E. cbn [app] in E. injection E as E. rewrite <- !app_assoc in E.
  pose proof (json_body_scanned a Ha 0 0 r []) as H1. pose proof (json_body_scanned b Hb 0 0 s []) as H2.
  change ([QUOTE] ++ r) with (QUOTE :: r) in E. change ([QUOTE] ++ s) with (QUOTE :: s) in E.
  rewrite E, H2 in H1. injection H1 as Hab _. subst b. split; [done|].
  apply app_inv_head in E. by injection E.
Qed.

Lemma join_json_injective sep ws : forall vs r s, Forall units vs -> Forall units ws -> length vs = length ws ->
  join sep (map json_string vs) ++ r = join sep (map json_string ws) ++ s -> vs = ws.
Proof.
  induction ws as [|w ws IH]; intros vs r s Hv Hw Hl E; (destruct vs as [|v vs]; [done || discriminate Hl|]).
  { discriminate Hl. }
  apply list.Forall_cons in Hv as [Hv Hvs]. apply list.Forall_cons in Hw as [Hw Hws].
  destruct vs as [|v' vs], ws as [|w' ws]; try discriminate Hl.
  - cbn [map join] in E. by apply json_string_prefix in E as [-> _].
  - change (join sep (map json_string (v :: v' :: vs)))
      with (json_string v ++ sep ++ join sep (map json_string (v' :: vs))) in E.
    change (join sep (map json_string (w :: w' :: ws)))
      with (json_string w ++ sep ++ join sep (map json_string (w' :: ws))) in E.
    rewrite <- !app_assoc in E. apply json_string_prefix in E as [-> E]; [|done..].
    apply app_inv_head in E. f_equal. eapply IH; [done|done|simpl in Hl |- *; lia|exact E].
Qed.

Lemma own_chosen es c : Forall2 chooses es c -> NoDup (map fst es) ->
  map (fun e => own c e.1) es = map (fun kv => Some kv.2) c.
Proof.
  intros H Hn. rewrite <- (chooses_keys _ _ H) in Hn.
  assert (Ho : Forall (fun kv => own c kv.1 = Some kv.2) c).
  { apply List.Forall_forall. intros [k v] Hin. apply own_unique; [done|by apply list_elem_of_In]. }
  revert Ho. generalize c at 1 3 as whole. clear Hn. induction H as [|e kv es c [E _] _ IH]; intros whole Ho; [done|].
  apply list.Forall_cons in Ho as [H1 Ho]. simpl. rewrite <- E, H1. f_equal. by apply IH.
Qed.

Lemma listed_chosen (look : jsstr -> option usage_field) es c :
  Forall2 chooses es c -> Forall (fun e => look e.1 = Some e.2) es ->
  Forall (fun kv : jsstr * jsstr => match look kv.1 with
            | Some f => existsb (str_eqb kv.2) (enum_values f) | None => false end = true) c.
Proof.
  induction 1 as [|e kv es c [E Hin] _ IH]; intros Ho; [constructor|].
  apply list.Forall_cons in Ho as [H1 Ho]. constructor; [|by apply IH].
  rewrite E, H1. apply existsb_exists. exists kv.2. split; [done|apply str_eqb_refl].
Qed.

(** The key of a combination lists its values. *)
Lemma combination_key es c : Forall2 chooses es c -> NoDup (map fst es) ->
  taskMatrixCombinationKey c es = js "[" ++ join (js ",") (map json_string (map snd c)) ++ js "]".
Proof.
  intros H Hn. unfold taskMatrixCombinationKey. do 3 f_equal.
  rewrite <- (map_map (fun e => own c e.1) (fun o => match o with Some v => json_string v | None => js "null" end)).
  by rewrite (own_chosen es c H Hn), !map_map.
Qed.

Lemma units_chosen es c : Forall (fun e => Forall units (enum_values e.2)) es -> Forall2 chooses es c ->
  Forall units (map snd c).
Proof.
  intros Hu H. induction H as [|e kv es c [_ Hin] _ IH]; simpl; [constructor|].
  apply list.Forall_cons in Hu as [He Hu]. constructor; [|by apply IH].
  by apply (proj1 (List.Forall_forall _ _) He).
Qed.

Lemma key_injective es c1 c2 : NoDup (map fst es) -> Forall (fun e => Forall units (enum_values e.2)) es ->
  Forall2 chooses es c1 -> Forall2 chooses es c2 ->
  taskMatrixCombinationKey c1 es = taskMatrixCombinationKey c2 es -> c1 = c2.
Proof.
  intros Hn Hu H1 H2 E. rewrite !combination_key in E by done. apply app_inv_head in E.
  apply join_json_injective in E; [|by apply (units_chosen es)|by apply (units_chosen es)|].
  - apply chooses_keys in H1, H2. clear - H1 H2 E. rewrite <- H2 in H1. clear H2. revert c2 H1 E.
    induction c1 as [|[k v] c1 IH]; intros [|[k2 v2] c2] H1 E; try done.
    simpl in *. injection H1 as -> H1. injection E as -> E. f_equal. by apply IH.
  - rewrite !length_map. by rewrite <- (Forall2_length H1), <- (Forall2_length H2).
Qed.

(** * Conditions of a row *)

Lemma condition_values_all schema c : forall acc, NoDup (map fst acc ++ map fst c) ->
  Forall (fun kv => exists f, own schema kv.1 = Some f /\ In kv.2 (enum_values f)) c ->
  condition_values schema c acc = Some (acc ++ c).
Proof.
  induction c as [|[k v] c IH]; intros acc Hn Hc; [by rewrite app_nil_r|].
  apply list.Forall_cons in Hc as [(f & Ho & Hin) Hc]. cbn [condition_values fst snd] in *. rewrite Ho.
  assert (Hnew : own acc k = None).
  { destruct (own acc k) as [w|] eqn:E; [|done]. apply own_In in E. apply list.NoDup_app in Hn as (_ & Hd & _).
    destruct (Hd k); [apply list_elem_of_fmap; by exists (k, w)|by left]. }
  assert (Hl : existsb (str_eqb v) (enum_values f) = true).
  { apply existsb_exists. exists v. split; [done|apply str_eqb_refl]. }
  rewrite Hnew, Hl. cbn [negb orb]. rewrite IH; [by rewrite <- app_assoc| |done].
  rewrite map_app, <- app_assoc. exact Hn.
Qed.

(** * The matrix *)

Section Matrix.
Context {C : Collation}.
Variable schema : usage_schema.
Hypothesis Hschema : schema_ok schema = true.
Abbreviation fields := (getTaskNumberFields (Some schema)).
Abbreviation enums := (getTaskEnumFields (Some schema)).
Hypothesis Hdistinct : Forall (fun e => NoDup (enum_values e.2)) enums.

Lemma enums_facts : NoDup (map fst enums) /\
  Forall (fun e => own schema e.1 = Some e.2 /\ is_enum_field e.2 = true /\ Forall units (enum_values e.2)) enums.
Proof.
  destruct (schema_facts schema Hschema) as (Hn & _ & _ & Hs).
  destruct (selected_fields (fun e => is_enum_field e.2) schema Hn) as [Hd Hsel].
  split; [done|]. apply List.Forall_forall. intros [k f] Hin.
  assert (Ho : own enums k = Some f) by (apply own_unique; [done|by apply list_elem_of_In]).
  apply Hsel in Ho as [Ho Hf]. split_and!; [done|done|]. by apply (Hs k f).
Qed.

Lemma combinations_facts :
  Forall (Forall2 chooses enums) (getTaskEnumCombinations (Some schema)) /\
  NoDup (getTaskEnumCombinations (Some schema)).
Proof.
  unfold getTaskEnumCombinations. apply (combinations_from enums []).
  - apply enums_facts.
  - exact Hdistinct.
  - repeat constructor.
  - repeat constructor. by intros H%elem_of_nil.
Qed.

Lemma keys_nodup cs : Forall (Forall2 chooses enums) cs -> NoDup cs ->
  NoDup (map (fun c => taskMatrixCombinationKey c enums) cs).
Proof.
  destruct enums_facts as [Hn He]. intros H. induction 1 as [|c cs Hc Hcs IH]; simpl; [constructor|].
  apply list.Forall_cons in H as [H1 H]. constructor; [|by apply IH].
  intros Hin. apply list_elem_of_fmap in Hin as (c' & E & Hc'). apply Hc.
  assert (H2 : Forall2 chooses enums c') by (by apply (proj1 (list.Forall_forall _ _) H)).
  apply key_injective in E; [by subst|done| |done|done].
  eapply Forall_impl; [|exact He]. by intros ? (_ & _ & ?).
Qed.

(** A combination is recovered from its sorted entries. *)
Lemma sorted_recovers c : Forall2 chooses enums c ->
  length (sorted_entries c) = length enums /\
  condition_values schema (sorted_entries c) [] = Some (sorted_entries c) /\
  map (fun e => (e.1, match own (sorted_entries c) e.1 with Some v => v | None => [] end)) enums = c.
Proof.
  intros H. destruct enums_facts as [Hn He].
  assert (Hp : Permutation c (sorted_entries c)) by (symmetry; apply sort_by_perm).
  assert (Hnc : NoDup (map fst c)) by (by rewrite (chooses_keys _ _ H)).
  split_and!.
  - rewrite <- (Permutation_length Hp). symmetry. by apply Forall2_length in H.
  - apply condition_values_all; [cbn [map app]; by apply sorted_keys|].
    rewrite <- Hp. clear - H He. induction H as [|e kv es c [E Hin] _ IH]; [constructor|].
    apply list.Forall_cons in He as [(Ho & _) He]. constructor; [|by apply IH].
    exists e.2. by rewrite E.
  - rewrite (map_ext _ (fun e => (e.1, match own c e.1 with Some v => v | None => [] end)))
      by (intros e; by rewrite (own_permuted c)).
    pose proof (own_chosen _ _ H Hn) as Ho. clear - H Ho. revert Ho. generalize (own c) as look.
    intros look. induction H as [|e [k v] es c [E _] _ IH]; intros Ho; [done|].
    cbn [map] in *. injection Ho as Ho1 Ho. simpl in E. subst k. rewrite Ho1. f_equal. by apply IH.
Qed.

(** The tier of a row. *)
Definition row_tier (final : bool) (row : matrix_row) (t : task_tier) : Prop :=
  kt_conditions t = (if final then [] else sorted_entries (mr_combination row)) /\
  kt_constant t = mr_constant row /\ kt_unitPrices t = mr_unitPrices row.

Definition placed_row (row : matrix_row) (t : task_tier) : jsstr * task_tier :=
  (taskMatrixCombinationKey (mr_combination row) enums, t).

Lemma place_rows rows ts : Forall2 (row_tier false) rows ts ->
  forall placed,
  Forall (fun row => Forall2 chooses enums (mr_combination row)) rows ->
  NoDup (map fst placed ++ map (fun row => taskMatrixCombinationKey (mr_combination row) enums) rows) ->
  place_tiers schema enums ts placed = Some (placed ++ zip_with placed_row rows ts).
Proof.
  induction 1 as [|row t rows ts (Hc & _) _ IH]; intros placed Hch Hn; [by rewrite app_nil_r|].
  apply list.Forall_cons in Hch as [H Hch]. cbn [place_tiers map zip_with] in *. rewrite Hc.
  destruct (sorted_recovers _ H) as (H1 & H2 & H3). rewrite H1, Nat.eqb_refl. cbn [negb].
  rewrite H2, H1, Nat.eqb_refl. cbn [negb]. rewrite H3.
  destruct (own placed _) as [t'|] eqn:E.
  { apply own_In in E. apply list.NoDup_app in Hn as (_ & Hd & _). exfalso.
    eapply Hd; [apply list_elem_of_fmap; eexists; split; [|exact E]; reflexivity|by left]. }
  rewrite IH; [by rewrite <- app_assoc|done|]. rewrite map_app, <- app_assoc. exact Hn.
Qed.

(** Rows whose prices are those of the numeric fields. *)
Definition priced_row (row : matrix_row) : Prop :=
  mr_unitPrices row = prices_of fields (mr_unitPrices row).

Lemma row_of_tier final row t : row_tier final row t -> priced_row row ->
  row_of fields (mr_combination row) t = row.
Proof.
  intros (_ & H2 & H3) Hp. unfold row_of. rewrite H2, H3, <- Hp. by destruct row.
Qed.

(** Looking the rows up in the table of their tiers. *)
Lemma rows_found rows : forall ts (table : list (jsstr * task_tier)),
  Forall2 (fun row t => own table (taskMatrixCombinationKey (mr_combination row) enums) = Some t /\
             row_of fields (mr_combination row) t = row) rows ts ->
  matrix_rows fields enums table (map mr_combination rows) = Some rows.
Proof.
  unfold matrix_rows. induction rows as [|row rows IH]; intros ts table H; [done|].
  apply Forall2_cons_inv_l in H as (t & ts' & [Ho Hr] & H & ->). cbn [map map_option]. rewrite Ho.
  rewrite (IH ts' table H). by rewrite Hr.
Qed.

Lemma zip_keys rows ts : length rows = length ts ->
  map fst (zip_with placed_row rows ts) =
  map (fun c => taskMatrixCombinationKey c enums) (map mr_combination rows).
Proof.
  revert ts. induction rows as [|row rows IH]; intros [|t ts] H; try discriminate H; [done|].
  cbn [zip_with map]. f_equal. apply IH. by injection H.
Qed.

Lemma zip_found rows ts (table : list (jsstr * task_tier)) : NoDup (map fst table) ->
  zip_with placed_row rows ts ⊆ table -> Forall2 (fun _ _ => True) rows ts ->
  Forall2 (fun row t => own table (taskMatrixCombinationKey (mr_combination row) enums) = Some t) rows ts.
Proof.
  intros Hn Hsub H. induction H as [|row t rows ts _ _ IH]; [constructor|]. cbn [zip_with] in Hsub.
  constructor; [|apply IH; intros x Hx; apply Hsub; by right]. apply own_unique; [done|]. apply Hsub. by left.
Qed.

Lemma filter_last {A} (f : A -> bool) l x : Forall (fun y => f y = false) l -> f x = true ->
  List.filter f (l ++ [x]) = [x].
Proof.
  intros H Hx. induction H as [|y l Hy _ IH]; simpl; [by rewrite Hx|]. by rewrite Hy.
Qed.

Lemma matrix_of_rows rows final ts t :
  Forall2 (row_tier false) rows ts -> row_tier true final t -> rows <> [] ->
  map mr_combination (rows ++ [final]) = getTaskEnumCombinations (Some schema) ->
  Forall priced_row (rows ++ [final]) ->
  matrix_of_tiers (ts ++ [t]) schema = Some (rows ++ [final]).
Proof.
  intros Hrows Hfinal Hne Hcomb Hpriced. destruct combinations_facts as [Hch Hnd]. rewrite <- Hcomb in Hch, Hnd.
  pose proof (keys_nodup _ Hch Hnd) as Hkeys.
  assert (Hlen := Forall2_length Hrows).
  assert (Hplace : place_tiers schema enums ts [] = Some (zip_with placed_row rows ts)).
  { rewrite (place_rows rows ts Hrows []); [done| |].
    - rewrite map_app in Hch. apply Forall_app in Hch as [Hch _]. rewrite List.Forall_map in Hch. exact Hch.
    - rewrite !map_app in Hkeys. apply list.NoDup_app in Hkeys as [Hkeys _]. rewrite map_map in Hkeys. exact Hkeys. }
  set (placed := zip_with placed_row rows ts) in *. set (key c := taskMatrixCombinationKey c enums).
  set (table := placed ++ [(key (mr_combination final), t)]).
  assert (Htable : NoDup (map fst table)).
  { unfold table, placed. rewrite map_app, zip_keys by done. by rewrite !map_app in Hkeys. }
  assert (Hfound : Forall2 (fun row t => own placed (key (mr_combination row)) = Some t) rows ts).
  { apply zip_found; [|done|eapply Forall2_impl; [|exact Hrows]; done].
    unfold table in Htable. rewrite map_app in Htable. by apply list.NoDup_app in Htable as [? _]. }
  assert (Hmissing : List.filter (fun c => match own placed (key c) with Some _ => false | None => true end)
                       (getTaskEnumCombinations (Some schema)) = [mr_combination final]).
  { rewrite <- Hcomb, map_app. apply filter_last.
    - apply Forall_map. clearbody placed. clear - Hfound. induction Hfound as [|row t rows ts Ho _ IH]; constructor; [by rewrite Ho|done].
    - destruct (own placed (key (mr_combination final))) as [t'|] eqn:E; [|done]. apply own_In in E.
      unfold table in Htable. rewrite map_app in Htable. apply list.NoDup_app in Htable as (_ & Hd & _).
      exfalso. eapply Hd; [apply list_elem_of_fmap; eexists; split; [|exact E]; reflexivity|by left]. }
  assert (Hresult : matrix_rows fields enums table (getTaskEnumCombinations (Some schema)) = Some (rows ++ [final])).
  { rewrite <- Hcomb. apply (rows_found _ (ts ++ [t])). apply Forall_app in Hpriced as [Hp Hpf].
    apply list.Forall_cons in Hpf as [Hpf _]. apply Forall2_app.
    - assert (Ht : Forall2 (fun row t => own table (key (mr_combination row)) = Some t) rows ts).
      { apply zip_found; [done|intros x Hx; apply elem_of_app; by left|eapply Forall2_impl; [|exact Hrows]; done]. }
      clearbody table. clear - Ht Hrows Hp. revert Ht Hp. induction Hrows as [|row t0 rows ts Hr _ IH]; intros Ht Hp; [constructor|].
      apply Forall2_cons_iff in Ht as [H1 Ht]. apply list.Forall_cons in Hp as [H2 Hp].
      constructor; [|by apply IH]. split; [done|by eapply row_of_tier].
    - constructor; [|constructor]. split; [|by eapply row_of_tier].
      apply own_unique; [done|]. apply elem_of_app. right. by left. }
  unfold matrix_of_tiers. destruct ts as [|t1 ts]; [by destruct rows|].
  assert (Hcount : length ((t1 :: ts) ++ [t]) = length (getTaskEnumCombinations (Some schema))).
  { rewrite <- Hcomb, length_map, !length_app, Hlen. reflexivity. }
  rewrite Hcount, Nat.eqb_refl, last_snoc, removelast_last, Hplace. cbn [negb].
  destruct Hfinal as (Hc & _). destruct t as [l cs k ps]. simpl in Hc. subst cs.
  unfold key in Hmissing. rewrite Hmissing. unfold table, key in Hresult. rewrite Hresult.
  destruct t1 as [l1 [|] k1 ps1]; by destruct ts.
Qed.

(** ** Rows that are written and read *)

Definition row_ok (row : matrix_row) : bool :=
  constant_ok (mr_constant row)
  && forallb (fun e => price_ok (price_or_zero (mr_unitPrices row) e.1)) fields.

Lemma price_ok_valid v : price_ok v = true -> price_or_default v = v.
Proof.
  unfold price_ok, price_or_default, valid_price_number, number_reads. intros H.
  apply andb_true_iff in H as [H Hle]. destruct (scan_number _) as [[n w]|]; [|done].
  apply andb_true_iff in H as [H _]. apply andb_true_iff in H as [_ ->]. by rewrite Hle.
Qed.
Lemma constant_ok_valid v : constant_ok v = true -> price_or_default v = v.
Proof.
  unfold constant_ok. destruct (num_ltb num_zero v) eqn:E.
  - intros H. apply price_ok_valid. unfold price_ok. rewrite H. simpl.
    revert E. unfold num_ltb, num_leb, SFltb, SFleb. by destruct (SFcompare _ _) as [[]|].
  - intros H. bools. by subst.
Qed.

(** Numbers that are equal and written the same are identical. *)
Lemma compare_identical x y : x <> S754_zero true -> y <> S754_zero true ->
  num_eqb x y = true -> x = y.
Proof.
  unfold num_eqb, SFeqb, SFcompare.
  destruct x as [[]|[]| |[] m e], y as [[]|[]| |[] m' e']; try done; intros _ _;
    destruct (Z.compare_spec e e') as [-> | |]; try done;
    destruct (Pos.compare_cont Eq m m') eqn:E; try done;
    apply Pos.compare_eq in E as ->; done.
Qed.

Lemma price_ok_positive v : price_ok v = true -> v <> S754_zero true.
Proof. intros H ->. vm_compute in H. done. Qed.
Lemma constant_ok_positive v : constant_ok v = true -> v <> S754_zero true.
Proof. intros H ->. vm_compute in H. done. Qed.

(** ** Normalized tiers of rows *)

Lemma prices_normal ps : ps = prices_of fields ps ->
  forallb (fun e => price_ok (price_or_zero ps e.1)) fields = true ->
  map (fun e => (e.1, price_or_default (match own ps e.1 with Some p => p | None => S754_nan end))) fields = ps.
Proof.
  intros Hp Hok. etransitivity; [|symmetry; exact Hp]. apply map_ext_in. intros e He. f_equal.
  rewrite forallb_forall in Hok. specialize (Hok e He). apply list_elem_of_In in He.
  pose proof (own_map_fields schema Hschema (fun e => price_or_zero ps e.1) e He) as Ho. cbv beta in Ho.
  change (map _ _) with (prices_of fields ps) in Ho. rewrite <- Hp in Ho. rewrite Ho. by apply price_ok_valid.
Qed.

Lemma conditions_normal c : Forall2 chooses enums c ->
  List.filter (fun kv : jsstr * jsstr => match own enums kv.1 with
                                         | Some f => existsb (str_eqb kv.2) (enum_values f)
                                         | None => false end) (sorted_entries c) = sorted_entries c.
Proof.
  intros H. destruct enums_facts as [Hn _].
  assert (Hall : Forall (fun kv : jsstr * jsstr => match own enums kv.1 with
                           | Some f => existsb (str_eqb kv.2) (enum_values f) | None => false end = true)
                   (sorted_entries c)).
  { unfold sorted_entries. rewrite (sort_by_perm _ c).
    assert (Ho : Forall (fun e => own enums e.1 = Some e.2) enums).
    { apply List.Forall_forall. intros [k f] Hin. apply own_unique; [done|by apply list_elem_of_In]. }
    by apply (listed_chosen (own enums) enums). }
  induction Hall as [|kv l Hkv _ IH]; [done|]. cbn [List.filter]. by rewrite Hkv, IH.
Qed.

Lemma tier_of_row final i row label :
  priced_row row -> row_ok row = true -> Forall2 chooses enums (mr_combination row) ->
  let t := normalize_task_tier schema i
    (TaskTier label (if final : bool then [] else sorted_entries (mr_combination row)) (mr_constant row)
       (prices_of fields (mr_unitPrices row))) in
  row_tier final row t /\ kt_label t = (match label with [] => default_task_label i | l => l end).
Proof.
  intros Hp Hok Hc. apply andb_true_iff in Hok as [Hk Hps]. unfold normalize_task_tier, row_tier.
  cbn [kt_label kt_conditions kt_constant kt_unitPrices]. rewrite <- Hp. cbv zeta. split; [split_and!|by destruct label].
  - destruct final; [done|by apply conditions_normal].
  - by apply constant_ok_valid.
  - by apply prices_normal.
Qed.

Lemma units_b_app a b : units_b (a ++ b) = units_b a && units_b b.
Proof. apply forallb_app. Qed.

Lemma units_b_join sep l : units_b sep = true -> Forall (fun s => units_b s = true) l -> units_b (join sep l) = true.
Proof.
  intros Hs. induction 1 as [|x l Hx Hl IH]; [done|]. destruct l as [|y l]; [done|].
  change (join sep (x :: y :: l)) with (x ++ sep ++ join sep (y :: l)). by rewrite !units_b_app, Hx, Hs, IH.
Qed.

Lemma units_units_b s : units s -> units_b s = true.
Proof.
  intros H. apply forallb_forall. rewrite <- List.Forall_forall. eapply Forall_impl; [|exact H].
  intros c Hc. unfold code_unit in Hc. lia.
Qed.

Lemma digits_units f : forall z acc, units_b acc = true -> units_b (digits_fuel f z acc) = true.
Proof.
  induction f as [|f IH]; intros z acc Ha; [done|]. cbn [digits_fuel].
  assert (H : units_b ((48 + z mod 10)%Z :: acc) = true).
  { unfold units_b in *. cbn [forallb]. rewrite Ha. pose proof (Z.mod_pos_bound z 10). lia. }
  destruct (z <? 10)%Z; [done|by apply IH].
Qed.

Lemma default_label_units i : units_b (default_task_label i) = true.
Proof.
  destruct i; [done|]. unfold default_task_label. rewrite units_b_app. cbn [andb]. unfold string_of_Z.
  replace (Z.of_nat (S (S i)) <? 0)%Z with false by (symmetry; apply Z.ltb_ge; lia). by apply digits_units.
Qed.

Lemma row_label_units c : Forall2 chooses enums c -> units_b (taskMatrixRowLabel c) = true.
Proof.
  intros H. destruct enums_facts as [_ He].
  assert (Hv : Forall (fun s => units_b s = true) (map snd (sorted_entries c))).
  { unfold sorted_entries. rewrite (sort_by_perm _ c). eapply Forall_impl; [apply units_units_b|].
    apply (units_chosen enums); [|done]. eapply Forall_impl; [|exact He]. by intros ? (_ & _ & ?). }
  unfold taskMatrixRowLabel. destruct (map snd (sorted_entries c)); [done|]. by apply units_b_join.
Qed.

(** Rows with a combination of their own, prices of the fields, and numbers that read back. *)
Definition row_facts (row : matrix_row) : Prop :=
  priced_row row /\ row_ok row = true /\ Forall2 chooses enums (mr_combination row).

Lemma row_readable final row t i label : row_facts row -> units_b label = true ->
  t = normalize_task_tier schema i
    (TaskTier label (if final : bool then [] else sorted_entries (mr_combination row)) (mr_constant row)
       (prices_of fields (mr_unitPrices row))) ->
  row_tier final row t /\
  units_b (kt_label t) && constant_ok (kt_constant t)
  && forallb (fun e => price_ok (price_or_zero (kt_unitPrices t) e.1)) fields = true.
Proof.
  intros (Hp & Hok & Hc) Hl ->. destruct (tier_of_row final i row label Hp Hok Hc) as [Ht El].
  split; [done|]. destruct Ht as (_ & Ek & Ep). rewrite El, Ek, Ep.
  apply andb_true_iff in Hok as [-> ->]. rewrite !andb_true_r.
  destruct label; [apply default_label_units|done].
Qed.

Lemma normalize_rows final rows : Forall row_facts (rows ++ [final]) ->
  (rows <> [] -> enums <> []) -> length enums <= 100 ->
  forall i, exists ts t, normalize_from schema i (matrix_tiers (rows ++ [final]) fields) = ts ++ [t] /\
    Forall2 (row_tier false) rows ts /\ row_tier true final t /\ tiers_readable fields (ts ++ [t]) = true.
Proof.
  intros H Hne Hle. induction rows as [|row rows IH]; intros i; cbn [app] in *;
    apply list.Forall_cons in H as [Hrow H].
  - destruct (row_readable true final _ i (taskMatrixRowLabel (mr_combination final)) Hrow
      (row_label_units _ (proj2 (proj2 Hrow))) eq_refl) as [Ht Hr].
    exists [], (normalize_task_tier schema i (TaskTier (taskMatrixRowLabel (mr_combination final)) [] (mr_constant final)
      (prices_of fields (mr_unitPrices final)))).
    split_and!; [done|constructor|exact Ht|]. cbn [app tiers_readable]. rewrite Hr. done.
  - destruct (IH H ltac:(intros _; by apply Hne) (S i)) as (ts & t & E & H1 & H2 & H3).
    destruct (row_readable false row _ i (taskMatrixRowLabel (mr_combination row)) Hrow
      (row_label_units _ (proj2 (proj2 Hrow))) eq_refl) as [Ht Hr].
    set (t0 := normalize_task_tier _ _ _) in *. exists (t0 :: ts), t. split_and!; [|by constructor|done|].
    + cbn [matrix_tiers]. destruct rows; cbn [app normalize_from]; cbn [app] in E; by rewrite E.
    + cbn [app tiers_readable]. rewrite Hr, H3. destruct Ht as (Hcs & _).
      destruct (sorted_recovers _ (proj2 (proj2 Hrow))) as (Hlen & _).
      assert (Hl : length (kt_conditions t0) = length enums) by (by rewrite Hcs).
      rewrite Hl. assert (1 <= length enums) by (destruct enums; [by destruct Hne|simpl; lia]).
      rewrite (proj2 (Nat.leb_le 1 _)), (proj2 (Nat.leb_le _ 100)) by done. by destruct ts.
Qed.

(** ** One price for all combinations *)

Definition same_prices (first row : matrix_row) : bool :=
  num_eqb (mr_constant row) (mr_constant first)
  && forallb (fun e => same_price_field (mr_unitPrices row) (mr_unitPrices first) e.1) fields.

Lemma own_priced row e : priced_row row -> e ∈ fields ->
  own (mr_unitPrices row) e.1 = Some (price_or_zero (mr_unitPrices row) e.1).
Proof.
  intros Hp He. pose proof (own_map_fields schema Hschema (fun e => price_or_zero (mr_unitPrices row) e.1) e He) as Ho.
  cbv beta in Ho. change (map _ _) with (prices_of fields (mr_unitPrices row)) in Ho. by rewrite <- Hp in Ho.
Qed.

Lemma same_row first row t : row_facts first -> row_facts row -> same_prices first row = true ->
  row_tier true first t -> row_of fields (mr_combination row) t = row.
Proof.
  intros (Hp1 & Hok1 & _) (Hp & Hok & _) Hs (_ & Hk & Hu). apply andb_true_iff in Hok as [Hc Hps], Hok1 as [Hc1 Hps1].
  apply andb_true_iff in Hs as [Hs1 Hs2]. rewrite forallb_forall in Hs2, Hps, Hps1.
  unfold row_of. rewrite Hk, Hu. destruct row as [c k ps]. cbn [mr_combination mr_constant mr_unitPrices] in *. f_equal.
  - symmetry. apply compare_identical; [by apply constant_ok_positive..|done].
  - etransitivity; [|symmetry; exact Hp]. apply map_ext_in. intros e He. f_equal.
    specialize (Hs2 e He). specialize (Hps e He). specialize (Hps1 e He). apply list_elem_of_In in He.
    unfold same_price_field in Hs2. pose proof (own_priced (MatrixRow c k ps) e Hp He) as Ho.
    cbn [mr_unitPrices] in Ho. rewrite Ho, (own_priced first e Hp1 He) in Hs2. symmetry.
    apply compare_identical; [by apply price_ok_positive..|done].
Qed.

Lemma same_self row : row_facts row -> same_prices row row = true.
Proof.
  intros (Hp & Hok & _). apply andb_true_iff in Hok as [Hc Hps].
  assert (Hself : forall v : number, price_or_default v = v -> num_eqb v v = true).
  { intros v. unfold price_or_default, valid_price_number, num_eqb, SFeqb, SFcompare.
    destruct v as [[]|[]| |[] m e]; try done; intros _; rewrite ?Z.compare_refl, ?Pos.compare_cont_refl; done. }
  unfold same_prices. rewrite Hself by (by apply constant_ok_valid). cbn [andb].
  apply forallb_forall. intros e He. rewrite forallb_forall in Hps.
  unfold same_price_field. rewrite (own_priced row e) by (done || by apply list_elem_of_In).
  by apply Hself, price_ok_valid, Hps.
Qed.

Lemma uniform_matrix first rows t : row_facts first -> Forall row_facts rows ->
  forallb (same_prices first) rows = true -> row_tier true first t ->
  map (fun c => row_of fields c t) (map mr_combination rows) = rows.
Proof.
  intros Hf Hrows Hs Ht. rewrite map_map. rewrite <- (map_id rows) at 2. apply map_ext_in. intros row Hr.
  rewrite List.Forall_forall in Hrows. rewrite forallb_forall in Hs. by apply (same_row first); auto.
Qed.

Lemma no_enums_one : enums = [] -> length (getTaskEnumCombinations (Some schema)) = 1.
Proof. unfold getTaskEnumCombinations. by intros ->. Qed.

Lemma last_unconditional_fixed ts t : kt_conditions t = [] ->
  last_unconditional (ts ++ [t]) = ts ++ [t].
Proof.
  intros H. induction ts as [|t' ts IH].
  - destruct t. simpl in *. by subst.
  - cbn [app]. destruct (ts ++ [t]) as [|x l] eqn:E; [by destruct ts|]. cbn [last_unconditional]. by f_equal.
Qed.

(** The tiers of the rows, as they are read, give the rows. *)
Lemma matrix_tiers_read rows : rows <> [] ->
  map mr_combination rows = getTaskEnumCombinations (Some schema) -> Forall row_facts rows ->
  length enums <= 100 ->
  let tiers := normalizeTaskVisualConfig (Some (taskMatrixToTiers rows schema)) schema in
  tiers_readable fields tiers = true /\ length tiers <= length rows /\
  matrix_of_tiers (last_unconditional tiers) schema = Some rows.
Proof.
  intros Hne Hcomb Hrows Hle tiers.
  destruct (schema_facts schema Hschema) as (_ & Hfields & _ & _).
  assert (Hpriced : Forall priced_row rows) by (eapply Forall_impl; [|exact Hrows]; by intros ? (? & _)).
  assert (Hcons : exists first rest, rows = first :: rest) by (destruct rows; [done|eauto]).
  destruct Hcons as (first & rest & Erows).
  assert (Hfirst : row_facts first) by (rewrite Erows in Hrows; by apply list.Forall_cons in Hrows as [? _]).
  assert (Et : taskMatrixToTiers rows schema =
    if forallb (same_prices first) rows
    then [TaskTier (js "base") [] (mr_constant first) (prices_of fields (mr_unitPrices first))]
    else matrix_tiers rows fields).
  { unfold taskMatrixToTiers. unfold same_prices. rewrite Erows. by destruct fields. }
  unfold tiers. rewrite Et. destruct (forallb (same_prices first) rows) eqn:Eu.
  - destruct (row_readable true first _ 0 (js "base") Hfirst eq_refl eq_refl) as [Ht Hr].
    cbn [normalizeTaskVisualConfig normalize_from]. set (t := normalize_task_tier _ _ _) in *.
    cbn [tiers_readable]. rewrite Hr. split_and!; [done|rewrite Erows; simpl; lia|].
    pose proof (last_unconditional_fixed [] t (proj1 Ht)) as Hl. cbn [app] in Hl. rewrite Hl. cbn [matrix_of_tiers].
    pose proof (uniform_matrix first rows t Hfirst Hrows Eu Ht) as Hu. rewrite Hcomb in Hu.
    destruct Ht as (Hc & _). destruct t as [l cs k ps]. simpl in Hc. subst cs. cbv iota beta. by rewrite Hu.
  - destruct (exists_last Hne) as (init & final & Ei).
    assert (Hinit : init <> []).
    { intros ->. cbn [app] in Ei. rewrite Ei in Erows. injection Erows as -> <-. rewrite Ei in Eu. cbn [forallb] in Eu.
      by rewrite same_self in Eu. }
    rewrite Ei in Hrows, Hpriced, Hcomb |- *.
    assert (Henums : init <> [] -> enums <> []).
    { intros _ E. apply no_enums_one in E. rewrite <- Hcomb, length_map, length_app in E. destruct init; [done|].
      simpl in E. lia. }
    destruct (normalize_rows final init Hrows Henums Hle 0) as (ts & t & E & H1 & H2 & H3).
    assert (En : normalizeTaskVisualConfig (Some (matrix_tiers (init ++ [final]) fields)) schema = ts ++ [t]).
    { rewrite <- E. unfold normalizeTaskVisualConfig. by destruct init. }
    rewrite En. split_and!; [done|rewrite !length_app, (Forall2_length H1); done|].
    rewrite last_unconditional_fixed by apply H2. by apply matrix_of_rows.
Qed.
End Matrix.

(** * Theorem *)

(** A schema whose enumerations list each value once. *)
Definition enums_distinct `{C : Collation} (schema : usage_schema) : bool :=
  forallb (fun e => bool_decide (NoDup (enum_values e.2))) (getTaskEnumFields (Some schema))
  && (length (getTaskEnumFields (Some schema)) <=? 100).

(** C12. The matrix editor of task prices reads back the expression it generated: for
    a matrix with one row for each combination of the enumerated values, whose
    prices are numbers whose decimal text reads back, the expression generated for
    its tiers (a single tier when all rows have the same prices) is read as the
    same matrix, row by row. *)
Theorem task_matrix_roundtrip `{C : Collation} schema rows c :
  schema_ok schema = true -> enums_distinct schema = true ->
  rows <> [] -> map mr_combination rows = getTaskEnumCombinations (Some schema) ->
  Forall (priced_row schema) rows -> forallb (row_ok schema) rows = true -> length rows <= 120 ->
  length (generateTaskExprFromConfig (Some (taskMatrixToTiers rows schema)) schema) < MAX_TOKENS -> cache_ok c ->
  (tryParseTaskMatrixConfig
     (Some (generateTaskExprFromConfig (Some (taskMatrixToTiers rows schema)) schema)) schema c).1 =
  Ok (Some rows).
Proof.
  intros Hs Hd Hne Hcomb Hp Hok Hl Hlen Hc. apply andb_true_iff in Hd as [Hd H100]. apply Nat.leb_le in H100.
  assert (Hdist : Forall (fun e => NoDup (enum_values e.2)) (getTaskEnumFields (Some schema))).
  { apply List.Forall_forall. intros e He. rewrite forallb_forall in Hd. by apply Hd, bool_decide_eq_true in He. }
  assert (Hrows : Forall (row_facts schema) rows).
  { destruct (combinations_facts schema Hs Hdist) as [Hch _]. rewrite <- Hcomb, List.Forall_map in Hch.
    rewrite forallb_forall in Hok. rewrite List.Forall_forall in Hp, Hch.
    apply List.Forall_forall. intros row Hr. split_and!; [by apply Hp|by apply Hok|by apply Hch]. }
  destruct (matrix_tiers_read schema Hs Hdist rows Hne Hcomb Hrows H100) as (Hr & Hle & Hm).
  destruct (generated_task_reads schema Hs _ Hr (Nat.le_trans _ _ _ Hle Hl) Hlen)
    as (Hsplit & Htext & comp & Hcomp & _ & Hread).
  assert (Hnil : schema <> []) by (by intros ->). rewrite <- Hm.
  pose proof (task_tiers_parsed schema _ c comp _ Hnil Htext Hsplit Hcomp Hread Hc) as Hparsed. clear - Hparsed Htext.
  unfold tryParseTaskMatrixConfig. destruct (generateTaskExprFromConfig _ schema) as [|z text]; [done|].
  destruct (parseTaskTiersFromExpr _ _ _ _) as [r c']. cbn [fst] in *. by subst r.
Qed.

(** ** Witness *)

(** The video schema with a second enumeration. *)
Definition matrix_schema : usage_schema :=
  video_schema ++ [(js "audio", UsageField None None (Some [js "on"; js "off"]))].

Definition video_rows : list matrix_row :=
  Eval vm_compute in
  zip_with (fun c k => MatrixRow c (num_of_decimal k (-2))
              [(js "seconds", num_of_decimal (3 * k) (-1)); (js "tokens", num_of_Z k)])
    (getTaskEnumCombinations (C := unit_collation) (Some matrix_schema)) [0; 5; 10; 25]%Z.

Lemma task_matrix_roundtrip_witness :
  (tryParseTaskMatrixConfig (C := unit_collation)
     (Some (generateTaskExprFromConfig (C := unit_collation)
              (Some (taskMatrixToTiers (C := unit_collation) video_rows matrix_schema)) matrix_schema))
     matrix_schema []).1 = Ok (Some video_rows).
Proof.
  apply (task_matrix_roundtrip (C := unit_collation) matrix_schema video_rows []).
  - vm_compute. reflexivity.
  - vm_compute. reflexivity.
  - discriminate.
  - vm_compute. reflexivity.
  - repeat (constructor; [vm_compute; reflexivity|]). constructor.
  - vm_compute. reflexivity.
  - vm_compute. lia.
  - apply Nat.ltb_lt. vm_compute. reflexivity.
  - exact cache_ok_empty.
Defined.
