(* ===== verification/TaskBill.v ===== *)
(** What an expression of task prices charges: a run of it takes the first tier whose
    conditions hold for the usage facts and bills the constant plus quantities times
    prices; the preview, which bills a text of its own, comes to the same amount. *)
From Stdlib Require Import ZArith Lia Bool String SpecFloat.
From stdpp Require Import base list option.
From S2P Require Import Prelude JsString JsNumber Types JsValue Collections JsInteger Lexer Parser Grammar ParserFacts Pieces TypeCheck Compile Runtime RuntimeFacts Display DisplayFacts TypeSound FixedPrice Written Structure Json RequestRules BillingVars TierExpr TierFacts TaskExpr TaskFacts.

#[local] Open Scope nat_scope.

(** * Numbers that are not below zero *)

(** A finite number other than -0 that is not negative. *)
Definition plain (x : number) : Prop :=
  match x with S754_zero s | S754_finite s _ _ => s = false | _ => False end.
(** Such a number, or infinity. *)
Definition rising (x : number) : Prop :=
  match x with S754_zero s | S754_finite s _ _ | S754_infinity s => s = false | S754_nan => False end.

Lemma plain_rising x : plain x -> rising x.
Proof. by destruct x. Qed.
Lemma rising_finite x : rising x -> is_finite x = true -> plain x.
Proof. by destruct x. Qed.
Lemma plain_finite x : plain x -> is_finite x = true.
Proof. by destruct x. Qed.
Lemma plain_nonnegative x : plain x -> num_ltb x num_zero = false.
Proof. destruct x as [s|s| |s m e]; try done. by intros ->. Qed.

Lemma round_aux_rising m e l : (0 <= m)%Z -> rising (binary_round_aux 53 1024 false m e l).
Proof.
  intros Hm. unfold binary_round_aux, shr_fexp, shr.
  set (r1 := shr_record_of_loc m l). assert (H1 : shr_m r1 = m) by apply shr_record_of_loc_m.
  assert (Hi : forall p r, (0 <= shr_m r)%Z -> (0 <= shr_m (SpecFloat.iter_pos shr_1 p r))%Z).
  { intros p r Hr. rewrite iter_shr_div by done. apply Z.div_pos; [done|]. by apply pow_positive. }
  assert (Hn : forall m l, (0 <= m)%Z -> (0 <= round_nearest_even m l)%Z).
  { intros m' l' Hm'. pose proof (round_nearest_even_le m' l'). lia. }
  assert (Hs : forall (k : Z) r e, (0 <= shr_m r)%Z ->
    (0 <= shr_m (match k with Zpos p => (SpecFloat.iter_pos shr_1 p r, e + k) | _ => (r, e) end).1)%Z).
  { intros k r e' Hr. destruct k; [done|by apply Hi|done]. }
  specialize (Hs (fexp 53 1024 (Zdigits2 m + e) - e)%Z r1 e ltac:(lia)) as H2.
  destruct (match (fexp 53 1024 (Zdigits2 m + e) - e)%Z with Zpos p => _ | _ => _ end) as [r2 e2]. cbn [fst] in H2.
  set (m2 := round_nearest_even (shr_m r2) (loc_of_shr_record r2)).
  assert (Hm2 : (0 <= m2)%Z) by (by apply Hn).
  specialize (Hs (fexp 53 1024 (Zdigits2 m2 + e2) - e2)%Z (shr_record_of_loc m2 loc_Exact) e2
    ltac:(by rewrite shr_record_of_loc_m)) as H3.
  destruct (match (fexp 53 1024 (Zdigits2 m2 + e2) - e2)%Z with Zpos p => _ | _ => _ end) as [r3 e3]. cbn [fst] in H3.
  destruct (shr_m r3); [done|by destruct (e3 <=? 1024 - 53)%Z|lia].
Qed.

Lemma round_rising m e : rising (binary_round 53 1024 false m e).
Proof. unfold binary_round. destruct (shl_align _ _ _). by apply round_aux_rising. Qed.

Lemma add_rising x y : rising x -> rising y -> rising (num_add x y).
Proof.
  destruct x as [sx|sx| |sx mx ex], y as [sy|sy| |sy my ey]; cbn [rising]; try done; intros -> ->; try done.
  unfold num_add. cbn [SFadd cond_Zopp]. set (z := (_ + _)%Z). destruct z eqn:E; cbn [binary_normalize]; [done| |lia].
  apply round_rising.
Qed.
Lemma mul_rising x y : plain x -> plain y -> rising (num_mul x y).
Proof.
  destruct x as [sx|sx| |sx mx ex], y as [sy|sy| |sy my ey]; cbn [plain]; try done; intros -> ->; try done.
  unfold num_mul. cbn [SFmul xorb]. by apply round_aux_rising.
Qed.
Lemma div_rising x m e : plain x -> rising (num_div x (S754_finite false m e)).
Proof.
  destruct x as [sx|sx| |sx mx ex]; cbn [plain]; try done; intros ->; [done|].
  unfold num_div. cbn [SFdiv xorb]. unfold SFdiv_core_binary.
  set (m' := match (ex - e - _)%Z with Z0 => _ | _ => _ end).
  assert (Hm : (0 <= m')%Z).
  { unfold m'. destruct (ex - e - _)%Z; [lia| |lia]. apply Z.shiftl_nonneg. lia. }
  pose proof (Z.div_pos m' (Zpos m) Hm ltac:(lia)) as Hq. unfold Z.div in Hq.
  destruct (Z.div_eucl m' (Zpos m)) as [q r]. by apply round_aux_rising.
Qed.
Lemma million_div x : plain x -> rising (num_div x MILLION).
Proof. apply div_rising. Qed.

Lemma add_zero_l x : plain x -> num_add num_zero x = x.
Proof. destruct x as [s|s| |s m e]; try done. by intros ->. Qed.
Lemma add_zero_r x : plain x -> num_add x num_zero = x.
Proof. destruct x as [s|s| |s m e]; try done. by intros ->. Qed.

(** The sum from left to right. *)
Definition total_from (x : number) (xs : list number) : number := fold_left num_add xs x.

Lemma total_rising xs : forall x, rising x -> Forall plain xs -> rising (total_from x xs).
Proof.
  induction xs as [|y xs IH]; intros x Hx Hxs; [done|]. apply list.Forall_cons in Hxs as [Hy Hxs].
  apply IH; [|done]. apply add_rising; [done|by apply plain_rising].
Qed.
Lemma total_infinite xs : Forall plain xs -> total_from (S754_infinity false) xs = S754_infinity false.
Proof.
  unfold total_from. induction 1 as [|y xs Hy _ IH]; [done|]. cbn [fold_left].
  by replace (num_add (S754_infinity false) y) with (S754_infinity false) by (destruct y as [s|s| |s m e]; done).
Qed.
(** A finite sum has finite prefixes. *)
Lemma total_prefix x y xs : plain x -> Forall plain (y :: xs) -> is_finite (total_from x (y :: xs)) = true ->
  plain (num_add x y).
Proof.
  intros Hx [Hy Hxs]%list.Forall_cons Hf. apply rising_finite; [by apply add_rising; apply plain_rising|].
  pose proof (add_rising x y (plain_rising _ Hx) (plain_rising _ Hy)) as Hr.
  change (total_from x (y :: xs)) with (total_from (num_add x y) xs) in Hf.
  destruct (num_add x y) as [s|s| |s m e]; cbn [rising] in Hr; try done. subst s. by rewrite total_infinite in Hf.
Qed.

(** Zeros do not count. *)
Lemma total_keep {A} (keep : A -> bool) (f : A -> number) l : forall x, plain x -> Forall (fun y => plain (f y)) l ->
  (forall y, y ∈ l -> keep y = false -> f y = num_zero) -> is_finite (total_from x (map f l)) = true ->
  total_from x (map f (List.filter keep l)) = total_from x (map f l).
Proof.
  induction l as [|y l IH]; intros x Hx Hl Hz Hf; [done|].
  pose proof (total_prefix x (f y) (map f l) Hx (proj2 (Forall_map f plain (y :: l)) Hl) Hf) as Hp.
  apply list.Forall_cons in Hl as [Hy Hl].
  assert (E : total_from (num_add x (f y)) (map f (List.filter keep l)) = total_from x (map f (y :: l))).
  { apply IH; [done|done| |exact Hf]. intros z Hz'. apply Hz. by right. }
  rewrite <- E. cbn [List.filter]. destruct (keep y) eqn:Ey; [done|].
  rewrite (Hz y ltac:(left) Ey). by rewrite add_zero_r.
Qed.

(** * Evaluation *)

(** The value of a usage fact. *)
Definition fact (u : list (jsstr * jsvalue)) (f : jsstr) : jsvalue :=
  match own u f with Some v => v | None => JNull end.

(** The amount of a field of the schema. *)
Definition term_amount (e : jsstr * usage_field) (quantity price : number) : number :=
  if is_token_unit e.2 then num_div (num_mul quantity price) MILLION else num_mul quantity price.

(** What a summand denotes. *)
Inductive denotes (u : list (jsstr * jsvalue)) : node -> number -> Prop :=
| denotes_literal c t : is_finite c = true -> (integer_text t = true -> is_safe_integer c = true) ->
    denotes u (num_node c t) c
| denotes_usage e p q : own u e.1 = Some (JNum q) -> is_finite q = true ->
    is_finite (num_mul q p) = true -> is_finite (term_amount e q p) = true ->
    denotes u (usage_term_node e p) (term_amount e q p).

Lemma erase_num n v t : erase n = num_node v t -> exists s e, n = NLiteral s e (LNumber v) (integer_text t).
Proof. destruct n; try done. cbn. unfold num_node. intros [= -> ->]. eauto. Qed.
Lemma erase_binary n op l r : erase n = NBinary 0 0 op l r ->
  exists s e l' r', n = NBinary s e op l' r' /\ erase l' = l /\ erase r' = r.
Proof. destruct n; try done. cbn. intros [= -> <- <-]. eauto 8. Qed.
Lemma erase_usage n f : erase n = usage_node f -> exists s e s' e', n = NCall s e (js "u") [NLiteral s' e' (LString f) false].
Proof.
  destruct n as [| | |s e g args| | |]; try done. cbn [erase]. unfold usage_node. intros [= -> Ha].
  destruct args as [|a [|? ?]]; try done. cbn [map] in Ha. injection Ha as Ha. destruct a; try done.
  unfold str_node in Ha. cbn [erase] in Ha. injection Ha as -> ->. eauto 6.
Qed.

Section Run.
Context {P : Platform}.
Variable comp : compiled.
Variable cx : context.
Variable hdrs : list (jsstr * jsstr).
Variable clock : date.
Variable u : list (jsstr * jsvalue).
Hypothesis Husage : usage cx = Some u.

Abbreviation eval := (evaluate comp cx hdrs clock).

Lemma call_usage s (a : operand) d st : call cx hdrs clock s (js "u") [a] d st =
  let! (field, st) := string_arg a d st in Ok (RValue (fact u field) false, st).
Proof. unfold call. cbn -[string_arg]. by rewrite Husage. Qed.

Lemma eval_usage n f d st v st' : erase n = usage_node f -> eval n d st = Ok (v, st') ->
  st' = st /\ v = RValue (fact u f) false.
Proof.
  intros (s & e & s' & e' & ->)%erase_usage (H & _)%evaluate_Ok. unfold evaluate_node in H. cbn [map] in H.
  rewrite call_usage in H. unfold string_arg in H. cbn [operand_of fst snd] in H.
  destruct (eval (NLiteral s' e' (LString f) false) (S d) st) as [[w st1]|] eqn:E; [|done].
  apply eval_literal in E as [-> E]. rewrite E in H. cbn in H. by injection H as <- <-.
Qed.

(** A number that is the value of a node is finite. *)
Lemma eval_finite n d st x b st' : eval n d st = Ok (RValue (JNum x) b, st') ->
  is_finite x = true /\ (b = true -> is_safe_integer x = true).
Proof.
  intros (_ & Hc & _)%evaluate_Ok. unfold check_value in Hc. cbn [rv rv_integer] in Hc.
  destruct (is_finite x); [|done]. split; [done|]. intros ->. by destruct (is_safe_integer x).
Qed.

Lemma eval_product n f p d st v st' : erase n = product_node f p -> eval n d st = Ok (v, st') ->
  st' = st /\ exists q, own u f = Some (JNum q) /\ is_finite q = true /\ v = RValue (JNum (num_mul q p)) false.
Proof.
  intros (s & e & l & r & -> & Hl & Hr)%erase_binary H.
  apply eval_binary in H as (a & b & st1 & Ha & Hb & Hv); [|done|done].
  pose proof Ha as Ha'. apply (eval_usage _ f) in Ha as [-> ->]; [|done].
  apply erase_num in Hr as (s' & e' & ->). apply eval_literal in Hb as [-> Hb]. split; [done|].
  unfold binary_values in Hv. cbn [rv rv_integer] in Hv. rewrite Hb in Hv. cbn [value_of_literal] in Hv. unfold fact in *.
  destruct (own u f) as [w|]; [|done]. destruct w as [| | |q| | |]; try done.
  apply eval_finite in Ha' as [Hq _]. exists q. cbn in Hv. by injection Hv as <-.
Qed.

Lemma eval_usage_term n e p d st v st' : erase n = usage_term_node e p -> eval n d st = Ok (v, st') ->
  st' = st /\ exists x, denotes u (usage_term_node e p) x /\ v = RValue (JNum x) false.
Proof.
  intros He H. assert (Hx : forall q, own u e.1 = Some (JNum q) -> is_finite q = true -> is_finite (num_mul q p) = true ->
    v = RValue (JNum (term_amount e q p)) false -> exists x, denotes u (usage_term_node e p) x /\ v = RValue (JNum x) false).
  { intros q Hq Hf Hm ->. exists (term_amount e q p). split; [|done]. constructor; try done.
    by apply eval_finite in H as [? _]. }
  unfold usage_term_node, term_amount in *. destruct (is_token_unit e.2).
  - apply erase_binary in He as (s & e' & l & r & -> & Hl & Hr). pose proof H as H'.
    apply eval_binary in H' as (a & b & st1 & Ha & Hb & Hv); [|done|done].
    pose proof Ha as Ha'. apply (eval_product _ _ _ _ _ _ _ Hl) in Ha as (-> & q & Hq & Hf & ->).
    apply eval_finite in Ha' as [Hm _].
    apply erase_num in Hr as (s' & e'' & ->). apply eval_literal in Hb as [-> Hb]. split; [done|].
    unfold binary_values in Hv. cbn [rv rv_integer] in Hv. rewrite Hb in Hv. cbn in Hv. injection Hv as <-. by apply (Hx q).
  - pose proof H as H'. apply (eval_product _ _ _ _ _ _ _ He) in H' as (-> & q & Hq & Hf & ->). split; [done|].
    apply (Hx q); try done. by apply eval_finite in H as [? _].
Qed.

(** The sum of a first summand and of usage terms. *)
Definition usage_terms (ts : list ((jsstr * usage_field) * number)) : list node :=
  map (fun t => usage_term_node t.1 t.2) ts.

Lemma eval_sum n0 (Hn0 : forall n d st v st', erase n = n0 -> eval n d st = Ok (v, st') ->
    st' = st /\ exists x, denotes u n0 x /\ rv v = JNum x) ts : forall n d st v st',
  erase n = fold_left (NBinary 0 0 (js "+")) (usage_terms ts) n0 -> eval n d st = Ok (v, st') ->
  st' = st /\ exists x xs, denotes u n0 x /\ Forall2 (denotes u) (usage_terms ts) xs /\ rv v = JNum (total_from x xs).
Proof.
  unfold usage_terms. induction ts as [|t ts IH] using rev_ind; intros n d st v st' He H.
  - destruct (Hn0 _ _ _ _ _ He H) as (-> & x & Hx & Hv). split; [done|]. exists x, []. by repeat split.
  - rewrite map_app, fold_left_app in He. cbn [map fold_left] in He.
    apply erase_binary in He as (s & e & l & r & -> & Hl & Hr).
    apply eval_binary in H as (a & b & st1 & Ha & Hb & Hv); [|done|done].
    destruct (IH _ _ _ _ _ Hl Ha) as (-> & x & xs & Hx & Hxs & Ea).
    destruct (eval_usage_term _ _ _ _ _ _ _ Hr Hb) as (-> & y & Hy & ->). split; [done|].
    exists x, (xs ++ [y]). split; [done|]. split.
    + rewrite map_app. apply Forall2_app; [done|]. by repeat constructor.
    + unfold binary_values in Hv. rewrite Ea in Hv. cbn in Hv. injection Hv as <-. cbn [rv].
      unfold total_from. by rewrite fold_left_app.
Qed.

Lemma eval_constant c t n d st v st' : erase n = num_node c t -> eval n d st = Ok (v, st') ->
  st' = st /\ exists x, denotes u (num_node c t) x /\ rv v = JNum x.
Proof.
  intros (s & e & ->)%erase_num H. pose proof H as (H1 & _)%evaluate_Ok. unfold evaluate_node in H1. cbn in H1.
  injection H1 as <- <-. apply eval_finite in H as [Hf Hi]. split; [done|]. exists c. by repeat constructor.
Qed.

(** ** Conditions and tiers *)

Definition holds (c : jsstr * jsstr) : bool := strict_eqb (fact u c.1) (JStr c.2).

Lemma eval_condition n c d st v st' : erase n = task_condition_node c -> eval n d st = Ok (v, st') ->
  st' = st /\ rv v = JBool (holds c).
Proof.
  intros (s & e & l & r & -> & Hl & Hr)%erase_binary H.
  apply eval_binary in H as (a & b & st1 & Ha & Hb & Hv); [|done|done].
  apply (eval_usage _ c.1) in Ha as [-> ->]; [|done].
  destruct r; try done. cbn [erase] in Hr. unfold str_node in Hr. injection Hr as -> ->.
  apply eval_literal in Hb as [-> Hb]. split; [done|]. unfold binary_values in Hv. cbn [rv] in Hv. rewrite Hb in Hv.
  cbn [value_of_literal] in Hv. change (one_of (js "==") ["=="; "!="]%string) with true in Hv. cbv iota in Hv.
  destruct (_ && _); [done|]. by injection Hv as <-.
Qed.

Lemma eval_and s e l r d st v st' : eval (NBinary s e (js "&&") l r) d st = Ok (v, st') ->
  exists b i st1, eval l (S d) st = Ok (RValue (JBool b) i, st1) /\
    if b then exists b' i', eval r (S d) st1 = Ok (RValue (JBool b') i', st') /\ rv v = JBool b'
    else st' = st1 /\ rv v = JBool false.
Proof.
  intros (H & _)%evaluate_Ok. unfold evaluate_node, binary, boolean in H. change (js "&&" === "&&") with true in H.
  cbn [operand_of fst snd] in H. cbv iota in H.
  destruct (eval l (S d) st) as [[[a i] st1]|]; [|done]. cbn [rv] in H. destruct a as [| |b| | | |]; try done.
  exists b, i, st1. split; [done|]. destruct b; [|by injection H as <- <-].
  destruct (eval r (S d) st1) as [[[a' i'] st2]|]; [|done]. cbn [rv] in H. destruct a' as [| |b'| | | |]; try done.
  injection H as <- <-. eauto.
Qed.

Lemma eval_conditions cs : forall n d st v st', cs <> [] -> erase n = conditions_node cs -> eval n d st = Ok (v, st') ->
  st' = st /\ rv v = JBool (forallb holds cs).
Proof.
  induction cs as [|c cs IH] using rev_ind; intros n d st v st' Hne He H; [done|]. clear Hne.
  destruct cs as [|c0 cs].
  - destruct (eval_condition n c d st v st' He H) as [-> ->]. split; [done|]. cbn. by rewrite andb_true_r.
  - assert (E : conditions_node ((c0 :: cs) ++ [c]) = NBinary 0 0 (js "&&") (conditions_node (c0 :: cs)) (task_condition_node c)).
    { unfold conditions_node. cbn [app map infix_node]. by rewrite map_app, fold_left_app. }
    rewrite E in He. apply erase_binary in He as (s & e & l & r & -> & Hl & Hr).
    apply eval_and in H as (b & i & st1 & Ha & Hb). destruct (IH _ _ _ _ _ ltac:(done) Hl Ha) as [-> Eb].
    assert (Eb' : b = forallb holds (c0 :: cs)) by (cbn [rv] in Eb; congruence). rewrite forallb_app, <- Eb'. destruct b.
    + destruct Hb as (b' & i' & Hb & ->). apply (eval_condition _ c) in Hb as [-> Hb]; [|done]. injection Hb as ->.
      cbn. by rewrite andb_true_r.
    + by destruct Hb as [-> ->].
Qed.

(** The quantity of a field. *)
Definition quantity (f : jsstr) : number := match own u f with Some (JNum q) => q | _ => S754_nan end.

Lemma product_injective f p g q : product_node f p = product_node g q -> f = g /\ p = q.
Proof. unfold product_node, usage_node, num_node, str_node. intros H. by injection H. Qed.

Lemma denotes_usage_inv e p x : denotes u (usage_term_node e p) x ->
  own u e.1 = Some (JNum (quantity e.1)) /\ is_finite (quantity e.1) = true /\
  is_finite (num_mul (quantity e.1) p) = true /\ is_finite x = true /\ x = term_amount e (quantity e.1) p.
Proof.
  intros H. remember (usage_term_node e p) as m eqn:Em. destruct H as [c t ? ?|e' p' q Hq H1 H2 H3].
  { unfold usage_term_node in Em. by destruct (is_token_unit e.2). }
  assert (E : e'.1 = e.1 /\ p' = p /\ is_token_unit e'.2 = is_token_unit e.2).
  { unfold usage_term_node in Em. destruct (is_token_unit e'.2), (is_token_unit e.2); try (by discriminate Em).
    - apply (f_equal (fun n => match n with NBinary _ _ _ l _ => l | _ => n end)) in Em.
      apply product_injective in Em as [-> ->]; done.
    - apply product_injective in Em as [-> ->]; done. }
  destruct E as (E1 & -> & E3). unfold quantity. rewrite <- E1, Hq. unfold term_amount in *. rewrite <- E3. done.
Qed.

Definition unit_price (t : task_tier) (e : jsstr * usage_field) : number := price_or_zero (kt_unitPrices t) e.1.
Definition usage_amount (t : task_tier) (e : jsstr * usage_field) : number :=
  term_amount e (quantity e.1) (unit_price t e).

(** The amount of a tier: the constant, when there is one, and the amounts of the fields, from left to right. *)
Definition task_amount (t : task_tier) (fields : list (jsstr * usage_field)) : number :=
  match (if num_ltb num_zero (kt_constant t) then [kt_constant t] else []) ++ map (usage_amount t) fields with
  | [] => num_zero
  | x :: xs => total_from x xs
  end.

(** The usage facts have a finite quantity for a field, and its amount is finite. *)
Definition measured (t : task_tier) (e : jsstr * usage_field) : Prop :=
  own u e.1 = Some (JNum (quantity e.1)) /\ is_finite (quantity e.1) = true /\
  is_finite (num_mul (quantity e.1) (unit_price t e)) = true /\ is_finite (usage_amount t e) = true.

Lemma denoted_amounts t fields xs :
  Forall2 (denotes u) (usage_terms (map (fun e => (e, unit_price t e)) fields)) xs ->
  xs = map (usage_amount t) fields /\ Forall (measured t) fields.
Proof.
  revert xs. unfold usage_terms. rewrite map_map. cbn [fst snd].
  induction fields as [|e fields IH]; intros xs H; inversion H as [|? x ? xs' Hx Hxs]; subst; [by repeat constructor|].
  destruct (IH _ Hxs) as [-> Hm]. apply denotes_usage_inv in Hx as (H1 & H2 & H3 & H4 & ->).
  split; [done|]. constructor; [|done]. by repeat split.
Qed.

Lemma body_terms t fields : task_body_nodes t fields =
  (if num_ltb num_zero (kt_constant t) then [num_node (kt_constant t) (num_to_string (kt_constant t))] else [])
  ++ usage_terms (map (fun e => (e, unit_price t e)) fields).
Proof. unfold task_body_nodes, usage_terms. by rewrite map_map. Qed.

Lemma eval_body t fields n d st v st' : fields <> [] -> erase n = body_node t fields -> eval n d st = Ok (v, st') ->
  st' = st /\ rv v = JNum (task_amount t fields) /\ Forall (measured t) fields.
Proof.
  intros Hne He H. unfold body_node in He. rewrite body_terms in He. unfold task_amount.
  destruct (num_ltb num_zero (kt_constant t)); cbn [app infix_node] in *.
  - destruct (eval_sum _ (eval_constant (kt_constant t) (num_to_string (kt_constant t))) _ _ _ _ _ _ He H)
      as (-> & x & xs & Hx & Hxs & ->). apply denoted_amounts in Hxs as [-> Hm]. split; [done|]. split; [|done].
    inversion Hx as [|e' p' q ? ? ? ? E]; [done|]. unfold usage_term_node in E. by destruct (is_token_unit e'.2).
  - destruct fields as [|e0 fields]; [done|].
    change (usage_terms (map (fun e => (e, unit_price t e)) (e0 :: fields))) with
      (usage_term_node e0 (unit_price t e0) :: usage_terms (map (fun e => (e, unit_price t e)) fields)) in He.
    cbn [infix_node] in He.
    assert (H0 : forall n d st v st', erase n = usage_term_node e0 (unit_price t e0) -> eval n d st = Ok (v, st') ->
      st' = st /\ exists x, denotes u (usage_term_node e0 (unit_price t e0)) x /\ rv v = JNum x).
    { intros n' d' st1 v' st1' He' H'. destruct (eval_usage_term _ _ _ _ _ _ _ He' H') as (-> & x & Hx & ->). eauto. }
    destruct (eval_sum _ H0 _ _ _ _ _ _ He H) as (-> & x & xs & Hx & Hxs & ->).
    apply denoted_amounts in Hxs as [-> Hm]. apply denotes_usage_inv in Hx as (H1 & H2 & H3 & H4 & ->).
    split; [done|]. split; [done|]. constructor; [by repeat split|done].
Qed.

Lemma eval_task_tier n t fields d st v st' : fields <> [] -> erase n = task_tier_node t fields ->
  eval n d st = Ok (v, st') ->
  matchedTier st' = kt_label t /\ rv v = JNum (task_amount t fields) /\ Forall (measured t) fields.
Proof.
  intros Hne He H. destruct n as [| | |s e f args| | |]; try done. cbn [erase] in He. unfold task_tier_node in He.
  injection He as -> Ha. destruct args as [|label [|body [|? ?]]]; try done. cbn [map] in Ha. injection Ha as Hl Hb.
  apply eval_tier in H as (l & st1 & x & i & st2 & El & (j & Eb) & Hv & ->).
  destruct label; try done. cbn [erase] in Hl. unfold str_node in Hl. injection Hl as -> ->.
  apply eval_literal in El as [-> El]. injection El as ->.
  destruct (eval_body t fields _ _ _ _ _ Hne Hb Eb) as (-> & Ev & Hm). cbn [rv] in Ev. rewrite Hv. by injection Ev as ->.
Qed.

(** The tier that applies: the first one whose conditions hold, or the last. *)
Fixpoint applies (tiers : list task_tier) : option task_tier :=
  match tiers with
  | [] => None
  | t :: rest =>
      match rest with
      | [] => Some t
      | _ => if forallb holds (kt_conditions t) then Some t else applies rest
      end
  end.

Lemma eval_task_tree fields tiers : fields <> [] -> tiers <> [] ->
  Forall (fun t => kt_conditions t <> []) (removelast tiers) -> forall n d st v st',
  erase n = task_tree fields tiers -> eval n d st = Ok (v, st') ->
  exists t, applies tiers = Some t /\ matchedTier st' = kt_label t /\
    rv v = JNum (task_amount t fields) /\ Forall (measured t) fields.
Proof.
  intros Hf. induction tiers as [|t rest IH]; [done|]. intros _ Hc n d st v st' He H. destruct rest as [|t' rest].
  - exists t. split; [done|]. by apply (eval_task_tier n t fields d st).
  - cbn [task_tree] in He. change (removelast (t :: t' :: rest)) with (t :: removelast (t' :: rest)) in Hc.
    apply list.Forall_cons in Hc as [Hct Hc].
    destruct n as [| | | | | |s e c y no]; try done. cbn [erase] in He. injection He as Ec Ey En.
    apply eval_conditional in H as (b & i & st1 & st2 & Eb & Hst & H).
    apply (eval_conditions (kt_conditions t)) in Eb as [-> Eb]; [|done|done]. cbn [rv] in Eb.
    assert (Hb : b = forallb holds (kt_conditions t)) by congruence. cbn [applies]. rewrite <- Hb. destruct b.
    + exists t. split; [done|]. by apply (eval_task_tier y t fields (S d) st2).
    + by apply (IH ltac:(done) Hc no (S d) st2).
Qed.

(** ** Runs that succeed *)

Lemma eval_ok n d st v st' : S d <= 256 -> evaluate_node comp cx hdrs clock n (S d) st = Ok (v, st') ->
  check_value (node_start n) v = Ok v -> eval n d st = Ok (v, st').
Proof.
  intros Hd H Hc. rewrite evaluate_unfold. replace (256 <? S d) with false by (symmetry; apply Nat.ltb_ge; lia).
  by rewrite H, Hc.
Qed.
Lemma number_checks s x b : is_finite x = true -> (b = true -> is_safe_integer x = true) ->
  check_value s (RValue (JNum x) b) = Ok (RValue (JNum x) b).
Proof. intros Hf Hb. unfold check_value. cbn [rv rv_integer]. rewrite Hf. destruct b; [|done]. by rewrite Hb. Qed.

Lemma number_ok n c t d st : erase n = num_node c t -> number_reads t c = true -> S d <= 256 ->
  eval n d st = Ok (RValue (JNum c) (integer_text t), st).
Proof.
  intros (s & e & ->)%erase_num Hr Hd. apply eval_ok; [done|done|]. unfold number_reads in Hr.
  destruct (scan_number t) as [[k w]|]; [|done]. bools. apply number_checks; [done|]. intros E. by rewrite E in *.
Qed.

Lemma usage_ok n f q d st : erase n = usage_node f -> own u f = Some (JNum q) -> is_finite q = true -> S (S d) <= 256 ->
  eval n d st = Ok (RValue (JNum q) false, st).
Proof.
  intros (s & e & s' & e' & ->)%erase_usage Ho Hf Hd. apply eval_ok; [lia| |by apply number_checks].
  unfold evaluate_node. cbn [map]. rewrite call_usage. unfold string_arg. cbn [operand_of fst snd].
  rewrite (eval_ok (NLiteral s' e' (LString f) false) (S d) st (RValue (JStr f) false) st) by done.
  cbn [rv]. unfold fact. by rewrite Ho.
Qed.

(** An arithmetic node of two numbers. *)
Lemma binary_ok s e op l r d st x i y j z k : one_of op ["+"; "*"; "/"]%string = true -> S d <= 256 ->
  eval l (S d) st = Ok (RValue (JNum x) i, st) -> eval r (S d) st = Ok (RValue (JNum y) j, st) ->
  arithmetic s op x y (i && j) = Ok (RValue (JNum z) k) -> is_finite z = true -> (k = true -> is_safe_integer z = true) ->
  eval (NBinary s e op l r) d st = Ok (RValue (JNum z) k, st).
Proof.
  intros Ho Hd Hl Hr Ha Hf Hk. apply eval_ok; [done| |by apply number_checks]. unfold evaluate_node, binary.
  cbn [operand_of fst snd]. rewrite Hl, Hr.
  assert (E : (op === "&&") = false /\ (op === "||") = false /\ one_of op ["=="; "!="]%string = false /\
    compare_values op (JNum x) (JNum y) = None).
  { apply one_of_In in Ho as (t & Ht & ->). repeat (destruct Ht as [<-|Ht]; [done|]). destruct Ht. }
  destruct E as (-> & -> & E3 & E4). unfold binary_values. cbn [rv rv_integer]. rewrite E3, E4, Ha. done.
Qed.

Lemma term_ok_value n e p q d st : erase n = usage_term_node e p -> number_reads (num_to_string p) p = true ->
  own u e.1 = Some (JNum q) -> is_finite q = true -> is_finite (num_mul q p) = true ->
  is_finite (term_amount e q p) = true -> d + 4 <= 256 ->
  eval n d st = Ok (RValue (JNum (term_amount e q p)) false, st).
Proof.
  intros He Hr Ho Hq Hm Ha Hd.
  assert (Hp : forall m k, erase m = product_node e.1 p -> k + 3 <= 256 -> eval m k st = Ok (RValue (JNum (num_mul q p)) false, st)).
  { intros m k (s & e' & l & r & -> & Hl & Hr')%erase_binary Hk.
    eapply (binary_ok _ _ _ _ _ _ _ q false p); [done|lia|apply (usage_ok _ e.1); try done; lia|
      apply (number_ok _ _ _ _ _ Hr' Hr); lia|done|done|done]. }
  unfold usage_term_node, term_amount in *. destruct (is_token_unit e.2); [|apply Hp; [done|lia]].
  apply erase_binary in He as (s & e' & l & r & -> & Hl & Hr').
  eapply (binary_ok _ _ _ _ _ _ _ (num_mul q p) false MILLION); [done|lia|apply Hp; [done|lia]|
    apply (number_ok _ _ _ _ _ Hr' million_reads); lia|done|done|done].
Qed.

(** A summand with its quantity: what makes its evaluation succeed. *)
Definition ready (t : (jsstr * usage_field) * number) : Prop :=
  number_reads (num_to_string t.2) t.2 = true /\ own u t.1.1 = Some (JNum (quantity t.1.1)) /\
  is_finite (quantity t.1.1) = true /\ is_finite (num_mul (quantity t.1.1) t.2) = true /\
  plain (term_amount t.1 (quantity t.1.1) t.2).
Definition summand_amount (t : (jsstr * usage_field) * number) : number := term_amount t.1 (quantity t.1.1) t.2.

Lemma sum_ok c t ts : number_reads t c = true -> plain c -> Forall ready ts ->
  forall n d st, d + length ts + 5 <= 256 ->
  is_finite (total_from c (map summand_amount ts)) = true ->
  erase n = fold_left (NBinary 0 0 (js "+")) (usage_terms ts) (num_node c t) ->
  eval n d st = Ok (RValue (JNum (total_from c (map summand_amount ts))) (match ts with [] => integer_text t | _ => false end), st).
Proof.
  intros Hr Hc Hts. induction ts as [|x ts IH] using rev_ind; intros n d st Hd Hf He.
  - cbn in He. apply (number_ok _ _ _ _ _ He Hr). cbn in Hd. lia.
  - apply Forall_app in Hts as [Hts Hx]. apply list.Forall_cons in Hx as [(X1 & X2 & X3 & X4 & X5) _].
    unfold usage_terms in He. rewrite map_app, fold_left_app in He. cbn [map fold_left] in He.
    rewrite map_app in *. unfold total_from in *. rewrite fold_left_app in *. cbn [map fold_left] in *.
    rewrite length_app in Hd. cbn [length] in Hd. apply erase_binary in He as (s & e & l & r & -> & Hl & Hr').
    set (y := summand_amount x) in *. set (tot := fold_left num_add (map summand_amount ts) c) in *.
    assert (Htot : is_finite tot = true).
    { assert (Hrise : rising tot).
      { apply total_rising; [by apply plain_rising|]. apply Forall_map. eapply Forall_impl; [|exact Hts]. by intros ? (_ & _ & _ & _ & ?). }
      destruct tot as [s0|s0| |s0 m0 e0]; try done. cbn [rising] in Hrise. subst s0. change (plain y) in X5. clearbody y. by destruct y. }
    pose proof (IH Hts l (S d) st ltac:(lia) Htot Hl) as Eb. set (b := match ts with [] => _ | _ => _ end) in Eb.
    replace (match ts ++ [x] with [] => integer_text t | _ => false end) with false by (by destruct ts).
    eapply (binary_ok _ _ _ _ _ _ _ tot b y false); [done|lia|exact Eb| | |done|done].
    + apply (term_ok_value _ _ _ _ _ _ Hr' X1 X2 X3 X4); [|lia]. by apply plain_finite.
    + cbn. by rewrite andb_false_r.
Qed.

Lemma tier_ok_value n label es d st x b : erase n = sum_tier_node label es -> S (S d) <= 256 ->
  (forall m st, erase m = infix_node (js "+") es -> eval m (S d) st = Ok (RValue (JNum x) b, st)) -> is_finite x = true ->
  eval n d st = Ok (RValue (JNum x) false, set_tier label st).
Proof.
  intros He Hd Hb Hf. destruct n as [| | |s e f args| | |]; try done. cbn [erase] in He. unfold sum_tier_node in He.
  injection He as -> Ha. destruct args as [|lab [|body [|? ?]]]; try done. cbn [map] in Ha. injection Ha as Hl Hbody.
  destruct lab as [s' e' w i| | | | | |]; try done. cbn [erase] in Hl. unfold str_node in Hl. injection Hl as -> ->.
  apply eval_ok; [lia| |by apply number_checks]. unfold evaluate_node, call.
  change (js "tier" === "fixed") with false. change (js "tier" === "tier") with true. cbv iota.
  unfold string_arg, numeric, arg. cbn [map lookup list_lookup operand_of fst snd].
  rewrite (eval_ok (NLiteral s' e' (LString label) false) (S d) st (RValue (JStr label) false) st) by done.
  cbn [rv]. by rewrite (Hb body st Hbody).
Qed.
End Run.

(** * The preview *)

Section Preview.
Context {P : Platform} {C : Collation}.
Variable schema : usage_schema.
Hypothesis Hschema : schema_ok schema = true.
Hypothesis Hnamed : Forall (fun e => e.1 <> []) schema.
Variable facts : list (jsstr * jsvalue).
Abbreviation fields := (getTaskNumberFields (Some schema)).

Lemma sample_holds c : sample_is facts c = holds facts c.
Proof. unfold sample_is, holds, fact. destruct (own facts c.1) as [v|]; [|done]. by destruct v. Qed.

(** What the preview needs to know of a tier. *)
Definition same_prices (t t' : task_tier) : Prop :=
  kt_label t' = kt_label t /\ kt_constant t' = kt_constant t /\ kt_unitPrices t' = kt_unitPrices t.

Lemma matched_applies tiers t : applies facts tiers = Some t ->
  exists t', matched_task_tier (last_unconditional tiers) facts = Some t' /\ same_prices t t'.
Proof.
  induction tiers as [|a rest IH]; [done|]. destruct rest as [|b rest].
  { intros [= <-]. exists (tier_unconditional a). done. }
  change (last_unconditional (a :: b :: rest)) with (a :: last_unconditional (b :: rest)).
  change (applies facts (a :: b :: rest)) with
    (if forallb (holds facts) (kt_conditions a) then Some a else applies facts (b :: rest)).
  set (l := last_unconditional (b :: rest)) in *.
  assert (Hl : l <> []) by (unfold l; by destruct rest). clearbody l. destruct l as [|x l]; [done|].
  assert (Hx : forall cs, forallb (sample_is facts) cs = forallb (holds facts) cs).
  { induction cs as [|c cs IHcs]; [done|]. cbn. by rewrite sample_holds, IHcs. }
  unfold matched_task_tier in *. change (list.last (a :: x :: l)) with (list.last (x :: l)).
  change (removelast (a :: x :: l)) with (a :: removelast (x :: l)). cbn [find]. rewrite Hx.
  destruct (list.last (x :: l)) as [y|] eqn:Ey; [|by apply last_None in Ey].
  destruct (forallb (holds facts) (kt_conditions a)); [intros [= <-]; by exists a|exact IH].
Qed.

(** The parts of the preview. *)
Definition part_of (t : task_tier) (e : jsstr * usage_field) : preview_part :=
  PartUsage e.1 (usage_amount facts t e) (quantity facts e.1) (unit_price t e).
Definition priced_field (t : task_tier) (e : jsstr * usage_field) : bool := negb (num_eqb (unit_price t e) num_zero).

(** A field of the schema whose quantity and price can be billed. *)
Record billable (t : task_tier) (e : jsstr * usage_field) : Prop := {
  bl_own : own schema e.1 = Some e.2;
  bl_name : truthy e.1 = true;
  bl_units : units e.1;
  bl_price : price_ok (unit_price t e) = true;
  bl_measured : measured facts t e;
  bl_plain : plain (quantity facts e.1);
}.

Lemma price_ok_plain p : price_ok p = true -> plain p /\ is_finite p = true /\ num_leb num_zero p = true.
Proof.
  unfold price_ok, number_reads. intros H. apply andb_true_iff in H as [H Hle].
  destruct (scan_number (num_to_string p)) as [[k w]|] eqn:E; [|done]. bools. split; [|done].
  destruct p as [s|s| |s m e]; try done; destruct s; try done. cbn in E. injection E as _ <-. done.
Qed.

Lemma usage_parts_of t l : Forall (billable t) l ->
  usage_parts (Some schema) facts (map (fun e => (e.1, unit_price t e)) l) = Some (map (part_of t) (List.filter (priced_field t) l)).
Proof.
  induction 1 as [|e l [H1 H2 _ H3 H4 H5] _ IH]; [done|]. cbn [map usage_parts List.filter].
  destruct (price_ok_plain _ H3) as (_ & Hf & Hle). destruct H4 as (Q1 & Q2 & Q3 & Q4).
  assert (Hv : valid_price_number (unit_price t e) = true) by (unfold valid_price_number; by rewrite Hf, Hle).
  rewrite Hv. cbn [negb]. unfold priced_field at 1. destruct (num_eqb (unit_price t e) num_zero); cbn [negb]; [done|].
  rewrite Q1. cbn [to_Number].
  assert (Hq : valid_price_number (quantity facts e.1) = true).
  { unfold valid_price_number. rewrite Q2. destruct (quantity facts e.1) as [s|s| |s m x]; try done. cbn in H5. by rewrite H5. }
  rewrite Hq. cbn [negb]. assert (Ht : field_is_token (Some schema) e.1 = is_token_unit e.2) by (unfold field_is_token; by rewrite H1).
  rewrite Ht. change (num_of_Z TASK_TOKEN_PRICE_SCALE) with MILLION.
  change (if is_token_unit e.2 then num_div (num_mul (quantity facts e.1) (unit_price t e)) MILLION
          else num_mul (quantity facts e.1) (unit_price t e)) with (usage_amount facts t e).
  rewrite Q4. cbn [negb]. rewrite IH. done.
Qed.

Lemma preview_terms_of t l : Forall (billable t) l ->
  preview_terms (Some schema) (map (part_of t) l) = map (fun e => usage_term e (unit_price t e)) l.
Proof.
  induction 1 as [|e l [H1 H2 _ _ _ _] _ IH]; [done|]. cbn [map preview_terms part_of]. rewrite H2, IH. f_equal.
  unfold usage_term. assert (Ht : field_is_token (Some schema) e.1 = is_token_unit e.2) by (unfold field_is_token; by rewrite H1).
  by rewrite Ht.
Qed.

Lemma preview_usage_own t l : Forall (billable t) l -> forall acc, (forall f, own acc f = own facts f) ->
  forall f, own (preview_usage (map (part_of t) l) acc) f = own facts f.
Proof.
  induction 1 as [|e l [H1 H2 _ _ H4 _] _ IH]; intros acc Ha f; [apply Ha|]. cbn [map preview_usage part_of]. rewrite H2.
  apply IH. intros g. rewrite own_assign. destruct (str_eqb_reflect g e.1) as [->|_]; [|apply Ha]. symmetry. apply H4.
Qed.

(** The expression of the preview. *)
Definition preview_text (t : task_tier) : jsstr :=
  js "tier(" ++ json_string (kt_label t) ++ js ", "
  ++ join (js " + ") (num_to_string (kt_constant t) ::
       map (fun e => usage_term e (unit_price t e)) (List.filter (priced_field t) fields)) ++ js ")".
Definition preview_total (t : task_tier) : number :=
  total_from (kt_constant t) (map (usage_amount facts t) (List.filter (priced_field t) fields)).

Lemma constant_reads k : constant_ok k = true -> number_reads (num_to_string k) k = true /\ plain k.
Proof.
  unfold constant_ok. destruct (num_ltb num_zero k) eqn:E.
  - intros H. split; [done|]. revert H. unfold number_reads. destruct (scan_number _) as [[n w]|]; [|done]. intros H. bools.
    destruct k as [s|s| |s m e]; try done; by destruct s.
  - intros H. bools. subst k. split; [vm_compute; reflexivity|done].
Qed.

Lemma filter_Forall {A} (Q : A -> Prop) p l : Forall Q l -> Forall Q (List.filter p l).
Proof. induction 1; cbn; [constructor|]. destruct (p _); [by constructor|done]. Qed.
Lemma filter_length_le' {A} (p : A -> bool) l : length (List.filter p l) <= length l.
Proof. induction l as [|x l IH]; cbn; [lia|]. destruct (p x); cbn; lia. Qed.

Lemma terms_written t l : Forall (billable t) l ->
  Forall2 (written 2 6) (map (fun e => usage_term e (unit_price t e)) l) (usage_terms (map (fun e => (e, unit_price t e)) l)).
Proof.
  unfold usage_terms. rewrite map_map. cbn [fst snd]. induction 1 as [|e l He _ IH]; cbn [map]; constructor; [|done].
  apply usage_term_written; [apply (bl_units _ _ He)|]. pose proof (bl_price _ _ He) as Hp. unfold price_ok in Hp. by bools.
Qed.

Lemma preview_compiles t : units (kt_label t) -> constant_ok (kt_constant t) = true ->
  Forall (billable t) fields -> length fields <= 50 -> length (preview_text t) < MAX_TOKENS ->
  exists comp, compile_try (preview_text t) = Ok comp /\ erase (c_ast comp) = sum_tier_node (kt_label t)
    (num_node (kt_constant t) (num_to_string (kt_constant t)) ::
     usage_terms (map (fun e => (e, unit_price t e)) (List.filter (priced_field t) fields))).
Proof.
  intros Hl Hc Hb H50 Hlen. destruct (constant_reads _ Hc) as [Hr _].
  pose proof (filter_Forall _ (priced_field t) _ Hb) as Hnz. pose proof (filter_length_le' (priced_field t) fields) as Hle.
  unfold preview_text in *. set (nz := List.filter (priced_field t) fields) in *. clearbody nz.
  set (es := num_node _ _ :: usage_terms _). assert (Hes : length es <= 51) by (unfold es, usage_terms; cbn; rewrite !length_map; lia).
  assert (Hw : Forall2 (written 2 6) (num_to_string (kt_constant t) :: map (fun e => usage_term e (unit_price t e)) nz) es).
  { constructor; [apply written_level with 7; [by apply written_number|lia]|by apply terms_written]. }
  assert (Hs : Forall summand es).
  { constructor.
    - split; [apply (T_literal 0 0 (LNumber _))|]. split; [rewrite node_height_unfold; simpl; lia|apply num_unmarked].
    - unfold usage_terms. apply Forall_map, List.Forall_forall. intros e _. apply usage_term_summand. }
  assert (Hne : es <> []) by done. clearbody es.
  destruct (sum_tier_facts (kt_label t) es Hne Hes Hs) as (F1 & F2 & F3).
  pose proof (tier_sum_written (kt_label t) _ es Hl Hne Hw) as Hwt.
  assert (Hw' := written_level _ _ 0 _ _ Hwt ltac:(lia)). assert (Hw'' := written_deeper _ 128 _ _ _ Hw' ltac:(lia)).
  destruct (written_parse _ _ Hw'' Hlen eq_refl) as (n & Hparse & Hn).
  destruct (compile_typed _ n TNumber Hparse) as (comp & Hcomp & Ea).
  - apply typed_erase. by rewrite Hn.
  - rewrite <- node_height_erase, Hn. lia.
  - intros rules _. apply chain_validates. rewrite Hn. exact F3.
  - exists comp. split; [exact Hcomp|]. by rewrite Ea.
Qed.

Lemma preview_runs t u new_Date c : units (kt_label t) -> constant_ok (kt_constant t) = true ->
  Forall (billable t) fields -> length fields <= 50 -> length (preview_text t) < MAX_TOKENS ->
  (forall f, own u f = own facts f) -> is_finite (preview_total t) = true -> cache_ok c ->
  exists bu fx rs, (evaluateBillingExpression (preview_text t) (Context None None (Some u) None None) new_Date c).1 =
    Success (preview_total t) bu fx (kt_label t) rs.
Proof.
  intros Hl Hc Hb H50 Hlen Hu Hf Hcache. destruct (preview_compiles t Hl Hc Hb H50 Hlen) as (comp & Hcomp & He).
  destruct (constant_reads _ Hc) as [Hr Hp].
  pose proof (compile_ready _ c comp Hcomp Hcache) as Hready. unfold evaluateBillingExpression.
  destruct (compileBillingExpression (preview_text t) c) as [r c']. cbn [fst] in *. subst r.
  pose proof (filter_Forall _ (priced_field t) _ Hb) as Hnz. pose proof (filter_length_le' (priced_field t) fields) as Hle.
  unfold preview_total in *. set (nz := List.filter (priced_field t) fields) in *. clearbody nz. clear Hb Hcomp Hlen.
  set (cx := Context None None (Some u) None None). set (ts := map (fun e => (e, unit_price t e)) nz) in *.
  assert (Hq : forall f, quantity u f = quantity facts f) by (intros f; unfold quantity; by rewrite Hu).
  assert (Hamount : map (summand_amount u) ts = map (usage_amount facts t) nz).
  { unfold ts. rewrite map_map. apply map_ext. intros e. unfold summand_amount, usage_amount. cbn [fst snd]. by rewrite Hq. }
  assert (Hts : Forall (ready u) ts).
  { unfold ts. apply Forall_map. eapply Forall_impl; [|exact Hnz]. intros e [B1 B2 B3 B4 (M1 & M2 & M3 & M4) B6].
    unfold ready. cbn [fst snd]. rewrite Hq, Hu. destruct (price_ok_plain _ B4) as (P1 & _).
    unfold price_ok in B4. bools. split_and!; try done. apply rising_finite; [|exact M4].
    unfold term_amount. destruct (is_token_unit e.2); [|by apply mul_rising].
    apply million_div, rising_finite; [by apply mul_rising|done]. }
  cbn [evaluate_compiled]. unfold evaluate_try. cbn [cx tokens check_tokens]. unfold run. cbn [construct].
  change (construct cx new_Date) with (@Ok exn _ (@nil (jsstr * jsstr), new_Date)). cbv iota beta.
  rewrite (tier_ok_value comp cx [] new_Date (c_ast comp) (kt_label t) _ 0 (init_runtime comp)
    (total_from (kt_constant t) (map (usage_amount facts t) nz)) (match ts with [] => integer_text (num_to_string (kt_constant t)) | _ => false end) He);
    [|lia| |done].
  - cbn [rv]. rewrite Hf.
    assert (Hn : num_ltb (total_from (kt_constant t) (map (usage_amount facts t) nz)) num_zero = false).
    { apply plain_nonnegative, rising_finite; [|done]. rewrite <- Hamount. apply total_rising; [by apply plain_rising|].
      apply Forall_map. eapply Forall_impl; [|exact Hts]. by intros ? (_ & _ & _ & _ & ?). }
    rewrite Hn. cbn [negb andb]. by do 3 eexists.
  - intros m st Hm. rewrite <- Hamount.
    apply (sum_ok comp cx [] new_Date u eq_refl (kt_constant t) (num_to_string (kt_constant t)) ts Hr Hp Hts); [| |exact Hm].
    + unfold ts. rewrite length_map. lia.
    + by rewrite Hamount.
Qed.

(** ** The same amount *)

Lemma zero_price_amount t e : billable t e -> priced_field t e = false -> usage_amount facts t e = num_zero.
Proof.
  intros [_ _ _ B4 _ B6] Hz. unfold priced_field in Hz. apply negb_false_iff in Hz.
  destruct (price_ok_plain _ B4) as (Hp & _). unfold usage_amount, term_amount.
  assert (Ep : unit_price t e = num_zero).
  { destruct (unit_price t e) as [s|s| |s m x]; try done; cbn in Hp; subst s; done. }
  rewrite Ep. assert (Em : num_mul (quantity facts e.1) num_zero = num_zero).
  { destruct (quantity facts e.1) as [s|s| |s m x]; try done; cbn in B6; subst s; done. }
  rewrite Em. by destruct (is_token_unit e.2).
Qed.

Lemma amount_plain t e : billable t e -> plain (usage_amount facts t e).
Proof.
  intros [_ _ _ B4 (_ & _ & M3 & M4) B6]. destruct (price_ok_plain _ B4) as (Hp & _). apply rising_finite; [|done].
  unfold usage_amount, term_amount. destruct (is_token_unit e.2); [|by apply mul_rising].
  apply million_div, rising_finite; [by apply mul_rising|done].
Qed.

Lemma amount_from_constant t : constant_ok (kt_constant t) = true -> fields <> [] -> Forall (billable t) fields ->
  task_amount facts t fields = total_from (kt_constant t) (map (usage_amount facts t) fields).
Proof.
  unfold constant_ok, task_amount. intros Hc Hne Hb. destruct (num_ltb num_zero (kt_constant t)); [done|].
  bools. rewrite Hc. destruct fields as [|e l]; [done|]. cbn [app map]. unfold total_from. cbn [fold_left].
  apply list.Forall_cons in Hb as [He _]. by rewrite add_zero_l by (by apply amount_plain).
Qed.

Lemma preview_total_amount t : constant_ok (kt_constant t) = true -> fields <> [] -> Forall (billable t) fields ->
  is_finite (task_amount facts t fields) = true -> preview_total t = task_amount facts t fields.
Proof.
  intros Hc Hne Hb Hf. rewrite amount_from_constant in * by done. destruct (constant_reads _ Hc) as [_ Hp].
  apply total_keep; [done| | |done].
  - eapply Forall_impl; [|exact Hb]. apply amount_plain.
  - intros e He. apply zero_price_amount. by apply (proj1 (Forall_elem _ _) Hb).
Qed.

(** ** Its length *)

Lemma join_length sep l : l <> [] -> length (join sep l) = sum_list_with length l + length sep * (length l - 1).
Proof.
  induction l as [|x l IH]; [done|]. intros _. destruct l as [|y l]; [cbn; lia|].
  change (join sep (x :: y :: l)) with (x ++ sep ++ join sep (y :: l)). rewrite !length_app, IH by done.
  cbn [sum_list_with length]. replace (S (S (length l)) - 1) with (S (S (length l) - 1)) by lia. lia.
Qed.

Lemma sum_filter {A} (f : A -> jsstr) p l :
  sum_list_with length (map f (List.filter p l)) <= sum_list_with length (map f l).
Proof. induction l as [|x l IH]; [done|]. cbn [List.filter map sum_list_with]. destruct (p x); cbn [map sum_list_with]; lia. Qed.

Lemma preview_length t : constant_ok (kt_constant t) = true -> fields <> [] -> length (preview_text t) <= length (generateTaskTierCall t fields) + 4.
Proof.
  intros Hc Hne. unfold preview_text, generateTaskTierCall, generateTaskTierBody. rewrite !length_app.
  fold (unit_price t). change (fun e => usage_term e (price_or_zero (kt_unitPrices t) e.1)) with (fun e => usage_term e (unit_price t e)).
  set (f := fun e => usage_term e (unit_price t e)).
  pose proof (sum_filter f (priced_field t) fields) as Hs.
  pose proof (filter_length_le' (priced_field t) fields) as Hl.
  enough (length (join (js " + ") (num_to_string (kt_constant t) :: map f (List.filter (priced_field t) fields))) <=
    length (join (js " + ") ((if num_ltb num_zero (kt_constant t) then [num_to_string (kt_constant t)] else []) ++ map f fields)) + 4) by lia.
  assert (H1 : length fields >= 1) by (destruct fields; [done|cbn; lia]).
  rewrite !join_length; [|destruct fields; [done|]; by destruct (num_ltb _ _)|done].
  rewrite length_app. change (length (js " + ")) with 3. destruct (num_ltb num_zero (kt_constant t)) eqn:E; cbn [app map sum_list_with length];
    rewrite ?length_map; [lia|].
  unfold constant_ok in Hc. rewrite E in Hc. bools. rewrite Hc. change (length (num_to_string num_zero)) with 1. lia.
Qed.

Lemma call_within tiers t : fields <> [] -> forall parts, task_parts tiers fields = Some parts -> t ∈ tiers ->
  length (generateTaskTierCall t fields) <= length (join (js " : ") parts).
Proof.
  intros Hne. induction tiers as [|a rest IH]; intros parts Hp Ht; [by apply not_elem_of_nil in Ht|].
  destruct rest as [|b rest].
  - injection Hp as <-. apply list_elem_of_singleton in Ht as ->. done.
  - cbn [task_parts] in Hp. destruct (truthy _); [|done].
    destruct (match rest with [] => _ | _ => _ end) as [ps|] eqn:E; [|done]. apply (inj Some) in Hp as <-.
    assert (Hps : task_parts (b :: rest) fields = Some ps) by exact E.
    apply elem_of_cons in Ht as [->|Ht].
    + destruct ps as [|p ps]; cbn [join]; rewrite !length_app; lia.
    + specialize (IH ps Hps Ht). destruct ps as [|p ps]; [|cbn [join] in *; rewrite !length_app; lia].
      cbn in IH. unfold generateTaskTierCall in IH. rewrite length_app in IH. cbn in IH. lia.
Qed.

Lemma applies_elem tiers t : applies facts tiers = Some t -> t ∈ tiers.
Proof.
  induction tiers as [|a rest IH]; [done|]. destruct rest as [|b rest]; [intros [= ->]; by left|].
  change (applies facts (a :: b :: rest)) with
    (if forallb (holds facts) (kt_conditions a) then Some a else applies facts (b :: rest)).
  destruct (forallb _ _); [intros [= ->]; by left|]. intros H. right. by apply IH.
Qed.

Lemma readable_elem tiers t : tiers_readable fields tiers = true -> t ∈ tiers ->
  units_b (kt_label t) = true /\ constant_ok (kt_constant t) = true /\
  forallb (fun e => price_ok (unit_price t e)) fields = true.
Proof.
  induction tiers as [|a rest IH]; intros Hr Ht; [by apply not_elem_of_nil in Ht|]. cbn [tiers_readable] in Hr.
  apply andb_true_iff in Hr as [H Hr]. apply andb_true_iff in H as [H Hp]. apply andb_true_iff in H as [Hl Hc].
  apply elem_of_cons in Ht as [->|Ht]; [by split_and!|]. destruct rest as [|b rest]; [by apply not_elem_of_nil in Ht|].
  apply andb_true_iff in Hr as [_ Hr]. by apply IH.
Qed.

Lemma readable_conditions tiers : tiers_readable fields tiers = true ->
  tiers <> [] /\ Forall (fun t => kt_conditions t <> []) (removelast tiers).
Proof.
  induction tiers as [|a rest IH]; [done|]. intros Hr. split; [done|]. cbn [tiers_readable] in Hr.
  destruct rest as [|b rest]; [constructor|]. change (removelast (a :: b :: rest)) with (a :: removelast (b :: rest)).
  apply andb_true_iff in Hr as [_ Hr]. apply andb_true_iff in Hr as [H Hr]. bools. constructor; [|by apply IH].
  intros E. rewrite E in *. cbn in *. lia.
Qed.

Lemma fields_billable t : forallb (fun e => price_ok (unit_price t e)) fields = true -> Forall (measured facts t) fields ->
  Forall (fun e => plain (quantity facts e.1)) fields -> Forall (billable t) fields.
Proof.
  intros Hp Hm Hq. apply Forall_elem. intros e He. rewrite Forall_elem in Hm, Hq. rewrite forallb_forall in Hp.
  destruct (number_fields_spec schema Hschema) as [Hnd Hn]. destruct (schema_facts schema Hschema) as (_ & _ & _ & Hs).
  assert (Ho : own schema e.1 = Some e.2) by (apply (Hn e.1 e.2); apply own_unique; [done|by destruct e]).
  constructor; [done| |by apply (Hs _ _ Ho)|by apply Hp, list_elem_of_In|by apply Hm|by apply Hq].
  apply own_In in Ho. rewrite Forall_elem in Hnamed. specialize (Hnamed _ Ho). cbn in Hnamed. by destruct e.1.
Qed.

(** A successful bill is the value of a run. *)
Lemma success_run source comp cx new_Date c cost bu fx label rs : compile_try source = Ok comp -> cache_ok c ->
  (evaluateBillingExpression source cx new_Date c).1 = Success cost bu fx label rs ->
  exists hdrs clock v st, evaluate comp cx hdrs clock (c_ast comp) 0 (init_runtime comp) = Ok (v, st) /\
    rv v = JNum cost /\ matchedTier st = label.
Proof.
  intros Hcomp Hc H. pose proof (compile_ready source c comp Hcomp Hc) as Hready. unfold evaluateBillingExpression in H.
  destruct (compileBillingExpression source c) as [r c']. cbn [fst] in *. subst r. cbn [evaluate_compiled] in H.
  destruct (evaluate_try comp cx new_Date) as [[n st]|] eqn:E; [|done]. injection H as -> _ _ <- _.
  unfold evaluate_try in E. destruct (check_tokens _); [|done]. unfold run in E.
  destruct (construct cx new_Date) as [[hdrs clock]|]; [|done].
  destruct (evaluate comp cx hdrs clock (c_ast comp) 0 (init_runtime comp)) as [[v st']|] eqn:Ev; [|done].
  destruct (rv v) as [| | |x| | |] eqn:Er; try done. destruct (_ && _); [|done]. injection E as -> ->. eauto 8.
Qed.

(** The preview of a tier that applies. *)
Lemma preview_of_tier tiers t t' new_Date c : matched_task_tier tiers facts = Some t' -> same_prices t t' ->
  normal schema t -> units (kt_label t) -> constant_ok (kt_constant t) = true -> Forall (billable t) fields ->
  length (preview_text t) < MAX_TOKENS -> is_finite (preview_total t) = true -> cache_ok c ->
  exists r, (evaluateTaskVisualConfig tiers facts (Some schema) new_Date c).1 = Some r /\
    tp_total r = preview_total t /\ tp_tier r = t'.
Proof.
  intros Hm (El & Ek & Ep) Hnorm Hl Hc Hb Hlen Hf Hcache. unfold evaluateTaskVisualConfig. rewrite Hm, El, Ek, Ep.
  destruct (schema_facts schema Hschema) as (_ & _ & H50 & _).
  assert (Hv : valid_price_number (kt_constant t) = true).
  { destruct (constant_reads _ Hc) as [_ Hp]. unfold valid_price_number. rewrite plain_finite by done.
    destruct (kt_constant t) as [s|s| |s m e]; try done; cbn in Hp; subst s; done. }
  rewrite Hv. cbn [negb].
  assert (Eu : kt_unitPrices t = map (fun e => (e.1, unit_price t e)) fields).
  { pose proof (f_equal kt_unitPrices (normal_read schema Hschema t [] Hnorm)) as E. cbn [read_tier kt_unitPrices] in E. by symmetry. }
  rewrite Eu, usage_parts_of by done. pose proof (filter_Forall _ (priced_field t) _ Hb) as Hnz.
  set (nz := List.filter (priced_field t) fields) in *.
  set (pre := if num_ltb num_zero (kt_constant t) then [PartConstant (kt_constant t)] else []).
  assert (Et : preview_terms (Some schema) (pre ++ map (part_of t) nz) = map (fun e => usage_term e (unit_price t e)) nz).
  { rewrite <- preview_terms_of by done. unfold pre. by destruct (num_ltb num_zero (kt_constant t)). }
  assert (Eus : forall f, own (preview_usage (pre ++ map (part_of t) nz) facts) f = own facts f).
  { intros f. transitivity (own (preview_usage (map (part_of t) nz) facts) f); [|by apply preview_usage_own].
    unfold pre. by destruct (num_ltb num_zero (kt_constant t)). }
  rewrite Et. change (js "tier(" ++ json_string (kt_label t) ++ js ", " ++ join (js " + ")
    (num_to_string (kt_constant t) :: map (fun e => usage_term e (unit_price t e)) nz) ++ js ")") with (preview_text t).
  destruct (preview_runs t _ new_Date c Hl Hc Hb H50 Hlen Eus Hf Hcache) as (bu & fx & rs & Hrun).
  destruct (evaluateBillingExpression (preview_text t) _ new_Date c) as [res c']. cbn [fst] in *. subst res. by eexists.
Qed.

(** The preview of an expression of task prices is what the expression bills. *)
Lemma preview_charged config cx now1 now2 c1 c2 cost bu fx label rs :
  let tiers := normalizeTaskVisualConfig config schema in
  let text := generateTaskExprFromConfig config schema in
  tiers_readable fields tiers = true -> length tiers <= 120 -> length text + 4 < MAX_TOKENS ->
  usage cx = Some facts -> Forall (fun e => plain (quantity facts e.1)) fields -> cache_ok c1 -> cache_ok c2 ->
  (evaluateBillingExpression text cx now1 c1).1 = Success cost bu fx label rs ->
  exists r, (evaluateTaskVisualConfig (last_unconditional tiers) facts (Some schema) now2 c2).1 = Some r /\
    tp_total r = cost /\ kt_label (tp_tier r) = label.
Proof.
  intros tiers text Hr Hl Hlen Hu Hq Hc1 Hc2 Hbill. destruct (schema_facts schema Hschema) as (_ & Hne & H50 & _).
  destruct (generated_task_reads schema Hschema config Hr Hl ltac:(fold text; lia)) as (_ & _ & comp & Hcomp & He & _).
  destruct (success_run _ _ _ _ _ _ _ _ _ _ Hcomp Hc1 Hbill) as (hdrs & clock & v & st & Hev & Hv & Hlab).
  destruct (readable_conditions tiers Hr) as [Htne Hcond].
  destruct (eval_task_tree comp cx hdrs clock facts Hu fields tiers Hne Htne Hcond _ _ _ _ _ He Hev)
    as (t & Ha & Hmt & Hamt & Hmeas).
  pose proof (applies_elem tiers t Ha) as Ht. destruct (readable_elem tiers t Hr Ht) as (Rl & Rc & Rp).
  assert (Hnorm : normal schema t) by (apply (proj1 (Forall_elem _ _) (normalized_normal schema Hschema config)); exact Ht).
  assert (Hb : Forall (billable t) fields) by (by apply fields_billable).
  assert (Hamount : cost = task_amount facts t fields) by congruence.
  assert (Hfin : is_finite (task_amount facts t fields) = true).
  { rewrite <- Hamount. destruct v as [w i]. cbn [rv] in Hv. subst w. by apply eval_finite in Hev as [? _]. }
  pose proof (preview_total_amount t Rc Hne Hb Hfin) as Htot.
  destruct (matched_applies tiers t Ha) as (t' & Hm & Hsame).
  assert (Hplen : length (preview_text t) < MAX_TOKENS).
  { destruct (generated_text schema Hschema config Hr) as (parts & Hp & Et). fold tiers in Hp. fold text in Et.
    pose proof (call_within tiers t Hne parts Hp Ht) as H1. pose proof (preview_length t Rc Hne) as H2. rewrite Et in Hlen. lia. }
  destruct (preview_of_tier (last_unconditional tiers) t t' now2 c2 Hm Hsame Hnorm (units_b_spec _ Rl) Rc Hb Hplen
    ltac:(by rewrite Htot) Hc2) as (r & Hres & Hrt & Hrt').
  exists r. split; [exact Hres|]. split; [by rewrite Hrt, Htot|]. rewrite Hrt'. destruct Hsame as (-> & _). congruence.
Qed.
End Preview.

(** C7. The expression of task prices charges what the configuration says: a bill for usage facts
    reports the first tier whose conditions the facts satisfy, or the last tier, and its amount is the
    constant of that tier plus, field by field, the quantity times the unit price, divided by a million
    for prices per token, summed from left to right; every numeric field has a finite quantity. *)
Theorem task_tiers_charged {P : Platform} {C : Collation} schema config cx facts new_Date c cost bu fx label rs :
  let tiers := normalizeTaskVisualConfig config schema in
  let fields := getTaskNumberFields (Some schema) in
  schema_ok schema = true -> tiers_readable fields tiers = true -> length tiers <= 120 ->
  length (generateTaskExprFromConfig config schema) < MAX_TOKENS -> usage cx = Some facts -> cache_ok c ->
  (evaluateBillingExpression (generateTaskExprFromConfig config schema) cx new_Date c).1 = Success cost bu fx label rs ->
  exists t, applies facts tiers = Some t /\ label = kt_label t /\ cost = task_amount facts t fields /\
    Forall (measured facts t) fields.
Proof.
  intros tiers fields Hs Hr Hl Hlen Hu Hc Hbill. destruct (schema_facts schema Hs) as (_ & Hne & _).
  destruct (generated_task_reads schema Hs config Hr Hl Hlen) as (_ & _ & comp & Hcomp & He & _).
  destruct (success_run _ _ _ _ _ _ _ _ _ _ Hcomp Hc Hbill) as (hdrs & clock & v & st & Hev & Hv & Hlab).
  destruct (readable_conditions schema tiers Hr) as [Htne Hcond].
  destruct (eval_task_tree comp cx hdrs clock facts Hu fields tiers Hne Htne Hcond _ _ _ _ _ He Hev)
    as (t & Ha & Hmt & Hamt & Hmeas).
  exists t. split; [done|]. split; [congruence|]. split; [congruence|done].
Qed.

(** ** Witness *)

(** Six seconds and 2000 tokens at 480p. *)
Definition video_facts : list (jsstr * jsvalue) :=
  [(js "seconds", JNum (num_of_Z 6)); (js "tokens", JNum (num_of_Z 2000)); (js "resolution", JStr (js "480p"))].
Definition video_context : context := Context None None (Some video_facts) None None.
Definition video_text : jsstr :=
  Eval vm_compute in generateTaskExprFromConfig (C := unit_collation) (Some video_config) video_schema.
Definition video_bill : evaluation :=
  Eval vm_compute in (evaluateBillingExpression (P := plain_platform) video_text video_context None []).1.

Lemma task_tiers_charged_witness :
  exists t, applies video_facts (normalizeTaskVisualConfig (C := unit_collation) (Some video_config) video_schema) = Some t /\
    kt_label t = js "base".
Proof.
  destruct video_bill as [cost bu fx label rs|f] eqn:E; [|discriminate E].
  destruct (task_tiers_charged (P := plain_platform) (C := unit_collation) video_schema (Some video_config)
    video_context video_facts None [] cost bu fx label rs) as (t & H1 & H2 & _).
  - vm_compute. reflexivity.
  - vm_compute. reflexivity.
  - vm_compute. lia.
  - apply Nat.ltb_lt. vm_compute. reflexivity.
  - reflexivity.
  - exact cache_ok_empty.
  - rewrite <- E. vm_compute. reflexivity.
  - exists t. split; [exact H1|]. rewrite <- H2. vm_compute in E. injection E as _ _ _ E _. symmetry. exact E.
Defined.
