(* ===== verification/Currency.v ===== *)
(** [lib/currency.ts] and the currency part of [stores/system-config-store.ts]:
    amounts in system dollars shown in the currency the administrator configured,
    or as tokens.  [Intl.NumberFormat] depends on the locale data of the browser:
    it is the class [Intl]. *)
From Stdlib Require Import ZArith Lia Bool String SpecFloat.
From stdpp Require Import base list option.
From S2P Require Import Prelude JsString JsNumber JsValue.

#[local] Open Scope Z_scope.

(** * Numbers as texts *)

(** [number.toFixed(digits)]: from [1e21] on it is [String(number)]. *)
Definition toFixed (digits : nat) (x : number) : jsstr :=
  if num_leb (num_of_decimal 1 21) (num_abs x) then num_to_string x else to_fixed digits x.

(** [Math.pow(10, -digits)], taken as the nearest double. *)
Definition pow10_negative (digits : nat) : number := num_of_decimal 1 (- Z.of_nat digits).

(** [new Intl.NumberFormat(locale, options).format(value)]: the options the program sets. *)
Record number_format := NumberFormat {
  nf_currency : option jsstr; (* [style: 'currency'] with [currencyDisplay: 'narrowSymbol'] *)
  nf_compact : bool;
  nf_minimumFractionDigits : option nat;
  nf_maximumFractionDigits : nat;
}.
Class Intl := { intl_format : option jsstr -> number_format -> number -> jsstr }.

(** * The configuration *)

(** [CurrencyConfig] with the fields that are present. *)
Record stored_currency := StoredCurrency {
  sc_displayInCurrency : option bool;
  sc_quotaDisplayType : option jsstr;
  sc_quotaPerUnit : option number;
  sc_usdExchangeRate : option number;
  sc_customCurrencySymbol : option jsstr;
  sc_customCurrencyExchangeRate : option number;
}.

Record currency_config := CurrencyConfig {
  cc_displayInCurrency : bool;
  cc_quotaDisplayType : jsstr;
  cc_quotaPerUnit : number;
  cc_usdExchangeRate : number;
  cc_customCurrencySymbol : jsstr;
  cc_customCurrencyExchangeRate : number;
}.

Definition YEN : jsstr := [165].
Definition GENERIC_SYMBOL : jsstr := [164].

Definition DEFAULT_CURRENCY_CONFIG : currency_config :=
  CurrencyConfig true (js "USD") (num_of_Z 500000) num_one GENERIC_SYMBOL num_one.

(** [{ ...currency, ...newConfig.currency }] of [setConfig]. *)
Definition merge_currency (old new : stored_currency) : stored_currency :=
  let pick {A} (f : stored_currency -> option A) :=
    match f new with Some v => Some v | None => f old end in
  StoredCurrency (pick sc_displayInCurrency) (pick sc_quotaDisplayType) (pick sc_quotaPerUnit)
    (pick sc_usdExchangeRate) (pick sc_customCurrencySymbol) (pick sc_customCurrencyExchangeRate).

Definition DISPLAY_TYPE_VALUES : list string := ["USD"; "CNY"; "TOKENS"; "CUSTOM"]%string.
Definition isCurrencyDisplayType (value : jsvalue) : bool :=
  match value with JStr s => one_of s DISPLAY_TYPE_VALUES | _ => false end.
Definition parseCurrencyDisplayType (value : jsvalue) (fallback : jsstr) : jsstr :=
  match value with
  | JStr s => if isCurrencyDisplayType value then s else fallback
  | _ => fallback
  end.

(** [x && x > 0 ? x : fallback]. *)
Definition positive_or (x : option number) (fallback : number) : number :=
  match x with
  | Some n => if num_truthy n && num_ltb num_zero n then n else fallback
  | None => fallback
  end.

(** [getConfig()]; the argument is [config?.currency] of the store. *)
Definition getConfig (currency : option stored_currency) : currency_config :=
  let d := DEFAULT_CURRENCY_CONFIG in
  match currency with
  | None => d
  | Some c =>
      CurrencyConfig
        (match sc_displayInCurrency c with Some b => b | None => cc_displayInCurrency d end)
        (match sc_quotaDisplayType c with Some t => t | None => cc_quotaDisplayType d end)
        (positive_or (sc_quotaPerUnit c) (cc_quotaPerUnit d))
        (positive_or (sc_usdExchangeRate c) (cc_usdExchangeRate d))
        (match sc_customCurrencySymbol c with
         | Some s => if truthy (trim s) then trim s else cc_customCurrencySymbol d
         | None => cc_customCurrencySymbol d
         end)
        (positive_or (sc_customCurrencyExchangeRate c) (cc_customCurrencyExchangeRate d))
  end.

Inductive display_meta :=
| MetaCurrency (symbol currencyCode : jsstr) (exchangeRate : number)
| MetaCustom (symbol : jsstr) (exchangeRate : number)
| MetaTokens (quotaPerUnit : number).

Definition DOLLARS : display_meta := MetaCurrency (js "$") (js "USD") num_one.

Definition getDisplayMeta (config : currency_config) : display_meta :=
  let t := cc_quotaDisplayType config in
  if t === "CNY" then MetaCurrency YEN (js "CNY") (cc_usdExchangeRate config)
  else if t === "CUSTOM"
  then MetaCustom (cc_customCurrencySymbol config) (cc_customCurrencyExchangeRate config)
  else if t === "TOKENS" then MetaTokens (cc_quotaPerUnit config)
  else DOLLARS.

Definition getBillingDisplayMeta (config : currency_config) : display_meta :=
  match getDisplayMeta config with MetaTokens _ => DOLLARS | meta => meta end.

(** * Options *)

(** [CurrencyFormatOptions]; counts of digits are naturals. *)
Record format_options := FormatOptions {
  fo_digitsLarge : option nat;
  fo_digitsSmall : option nat;
  fo_abbreviate : option bool;
  fo_minimumNonZero : option number;
  fo_compact : option bool;
  fo_showSymbol : option bool;
  fo_locale : option jsstr;
}.

Record resolved_options := ResolvedOptions {
  ro_digitsLarge : nat;
  ro_digitsSmall : nat;
  ro_abbreviate : bool;
  ro_minimumNonZero : number;
  ro_compact : bool;
  ro_showSymbol : bool;
  ro_locale : option jsstr;
}.

Definition DEFAULT_FORMAT_OPTIONS : resolved_options :=
  ResolvedOptions 2 4 true num_zero false true None.

(** [x ?? d]. *)
Definition given {A} (x : option A) (d : A) : A := match x with Some v => v | None => d end.

Definition mergeOptions (options : option format_options) : resolved_options :=
  let d := DEFAULT_FORMAT_OPTIONS in
  match options with
  | None => d
  | Some o =>
      ResolvedOptions (given (fo_digitsLarge o) (ro_digitsLarge d))
        (given (fo_digitsSmall o) (ro_digitsSmall d))
        (given (fo_abbreviate o) (ro_abbreviate d))
        (given (fo_minimumNonZero o) (ro_minimumNonZero d))
        (given (fo_compact o) (ro_compact d))
        (given (fo_showSymbol o) (ro_showSymbol d))
        (match fo_locale o with Some l => Some l | None => ro_locale d end)
  end.

(** * Formatting a value *)

Definition getFractionDigits (value : number) (digitsLarge digitsSmall : nat) : nat :=
  if num_leb num_one (num_abs value) then digitsLarge else digitsSmall.

Definition getCurrencyFractionDigits (value : number) (options : option format_options) : nat :=
  let merged := mergeOptions options in
  getFractionDigits value (ro_digitsLarge merged) (ro_digitsSmall merged).

(** Without the zeros at the end. *)
Definition drop_zeros (s : jsstr) : jsstr := rev (span (Z.eqb 48) (rev s)).2.

(** [str.replace(/(\.[0-9]*?)0+$/, '$1')]: the first point after which there are only
    digits, the last of them a zero. *)
Fixpoint replace_zeros (s : jsstr) : jsstr :=
  match s with
  | [] => []
  | c :: r =>
      if (c =? 46) && forallb is_digit r && bool_decide (list.last r = Some 48)
      then c :: drop_zeros r
      else c :: replace_zeros r
  end.
(** [str.replace(/\.$/, '')]. *)
Definition drop_point (s : jsstr) : jsstr :=
  if bool_decide (list.last s = Some 46) then removelast s else s.

Definition removeTrailingZeros (s : jsstr) : jsstr :=
  if negb (existsb (Z.eqb 46) s) then s else drop_point (replace_zeros s).

Definition formatNumberWithSuffix (value : number) (digitsLarge digitsSmall : nat)
    (abbreviate : bool) : jsstr :=
  if abbreviate && num_leb (num_of_Z 1000) (num_abs value)
  then removeTrailingZeros (toFixed 1 (num_div value (num_of_Z 1000))) ++ js "k"
  else removeTrailingZeros (toFixed (getFractionDigits value digitsLarge digitsSmall) value).

Definition adjustForMinimum (value : number) (digits : nat) (minimumNonZero : number) : number :=
  if num_eqb value num_zero then value
  else
    let threshold := if num_ltb num_zero minimumNonZero then minimumNonZero
                     else pow10_negative digits in
    let abs := num_abs value in
    if num_ltb num_zero abs && num_ltb abs threshold
    then if num_ltb num_zero value then threshold else num_opp threshold
    else value.

Section Format.
Context {I : Intl}.

(** The format of tokens in the compact notation. *)
Definition compact_tokens (locale : option jsstr) (value : number) : jsstr :=
  intl_format locale (NumberFormat None true None 1) value.

Definition formatCurrencyValue (value : number) (o : resolved_options) (meta : display_meta) : jsstr :=
  let digits := getFractionDigits value (ro_digitsLarge o) (ro_digitsSmall o) in
  let adjustedValue := adjustForMinimum value digits (ro_minimumNonZero o) in
  let fraction := if ro_compact o then 1%nat else digits in
  let decimal := intl_format (ro_locale o) (NumberFormat None (ro_compact o) (Some 0%nat) fraction) adjustedValue in
  match meta with
  | MetaTokens _ =>
      if ro_compact o then compact_tokens (ro_locale o) value
      else formatNumberWithSuffix value (ro_digitsLarge o) (ro_digitsSmall o) (ro_abbreviate o)
  | MetaCurrency _ code _ =>
      if negb (ro_showSymbol o) then decimal
      else intl_format (ro_locale o) (NumberFormat (Some code) (ro_compact o) (Some 0%nat) fraction) adjustedValue
  | MetaCustom symbol _ => if ro_showSymbol o then symbol ++ js " " ++ decimal else decimal
  end.

(** * Amounts *)

(** [getCurrencyDisplay()]; [store] is the currency of the store. *)
Definition getCurrencyDisplay (store : option stored_currency) : currency_config * display_meta :=
  let config := getConfig store in (config, getDisplayMeta config).

(** [amount == null || Number.isNaN(amount)]. *)
Definition shown_amount (amount : option number) : option number :=
  match amount with Some S754_nan | None => None | Some x => Some x end.

Definition formatCurrencyFromUSD (store : option stored_currency) (amountUSD : option number)
    (options : option format_options) : jsstr :=
  match shown_amount amountUSD with
  | None => js "-"
  | Some amount =>
      let '(config, meta) := getCurrencyDisplay store in
      let merged := mergeOptions options in
      match meta with
      | MetaTokens _ =>
          let tokens := num_mul amount (cc_quotaPerUnit config) in
          if ro_compact merged then compact_tokens (ro_locale merged) tokens
          else formatNumberWithSuffix tokens 0 (ro_digitsSmall merged) (ro_abbreviate merged)
      | MetaCurrency _ _ rate | MetaCustom _ rate =>
          formatCurrencyValue (num_mul amount rate) merged meta
      end
  end.

Definition formatBillingCurrencyFromUSD (store : option stored_currency) (amountUSD : option number)
    (options : option format_options) : jsstr :=
  match shown_amount amountUSD with
  | None => js "-"
  | Some amount =>
      let '(config, _) := getCurrencyDisplay store in
      let meta := getBillingDisplayMeta config in
      let merged := mergeOptions options in
      let value := match meta with
                   | MetaCurrency _ _ rate | MetaCustom _ rate => num_mul amount rate
                   | MetaTokens _ => amount
                   end in
      formatCurrencyValue value merged meta
  end.

Definition formatQuotaWithCurrency (store : option stored_currency) (quota : option number)
    (options : option format_options) : jsstr :=
  match shown_amount quota with
  | None => js "-"
  | Some quota =>
      let '(config, _) := getCurrencyDisplay store in
      formatCurrencyFromUSD store (Some (num_div quota (cc_quotaPerUnit config))) options
  end.

Definition formatLocalCurrencyAmount (store : option stored_currency) (amount : option number)
    (options : option format_options) : jsstr :=
  match shown_amount amount with
  | None => js "-"
  | Some amount =>
      let '(config, _) := getCurrencyDisplay store in
      formatCurrencyValue amount (mergeOptions options) (getBillingDisplayMeta config)
  end.
End Format.

Definition getCurrencyLabel (store : option stored_currency) : jsstr :=
  let '(config, meta) := getCurrencyDisplay store in
  match meta with
  | MetaTokens _ => js "Tokens"
  | _ =>
      let t := cc_quotaDisplayType config in
      if t === "CNY" then js "CNY"
      else if t === "CUSTOM"
      then match meta with MetaCustom symbol _ => symbol | _ => js "Custom" end
      else js "USD"
  end.

Definition isCurrencyDisplayEnabled (store : option stored_currency) : bool :=
  match (getCurrencyDisplay store).2 with MetaTokens _ => false | _ => true end.
