(* ===== verification/Catalogue.v ===== *)
(** The catalogue of models: [pricing/lib/model-helpers.ts], [pricing/lib/filters.ts]
    and the prices by ratio of [pricing/lib/price.ts]. *)
From Stdlib Require Import ZArith Lia Bool String SpecFloat.
From stdpp Require Import base list option.
From S2P Require Import Prelude JsString JsNumber Types JsValue Collections Runtime Display Currency.

#[local] Open Scope Z_scope.

(** * Models *)

(** [PricingModel]: the fields that are read.  A ratio that is [null] counts as missing. *)
Record pricing_model := PricingModel {
  pm_model_name : option jsstr;
  pm_description : option jsstr;
  pm_vendor_name : option jsstr;
  pm_quota_type : number;
  pm_model_ratio : number;
  pm_completion_ratio : number;
  pm_model_price : option number;
  pm_cache_ratio : option number;
  pm_create_cache_ratio : option number;
  pm_image_ratio : option number;
  pm_audio_ratio : option number;
  pm_audio_completion_ratio : option number;
  pm_enable_groups : option (list jsstr);
  pm_tags : option jsstr;
  pm_supported_endpoint_types : option (list jsstr);
  pm_group_ratio : option (list (jsstr * number));
  pm_billing_mode : option jsstr;
  pm_billing_expr : option jsstr;
  pm_billing_usage_schema : option usage_schema;
  pm_billing_usage_examples : option (list (jsstr * list (jsstr * jsvalue)));
}.

Definition FILTER_ALL : string := "all".
Definition EXCLUDED_GROUPS : list jsstr := [[]; js "auto"].
Definition QUOTA_TOKEN : number := num_zero.
Definition QUOTA_REQUEST : number := num_one.

Inductive token_unit := PerMillion | PerThousand.
Definition TOKEN_UNIT_DIVISORS (u : token_unit) : number :=
  match u with PerMillion => num_one | PerThousand => num_of_Z 1000 end.

(** [list.includes(text)]. *)
Definition has (l : list jsstr) (x : jsstr) : bool := existsb (str_eqb x) l.
Definition list_or_empty {A} (l : option (list A)) : list A := match l with Some l => l | None => [] end.

(** * Groups ([model-helpers.ts]) *)

(** The groups of [Object.keys(usableGroup)]. *)
Definition getAvailableGroups (model : pricing_model) (usableGroup : list jsstr) : list jsstr :=
  let modelEnableGroups := list_or_empty (pm_enable_groups model) in
  List.filter (fun g => has modelEnableGroups g)
    (List.filter (fun g => negb (has EXCLUDED_GROUPS g)) usableGroup).

(** [groupRatio[group]] when it is a finite number. *)
Definition finite_ratio (groupRatio : list (jsstr * number)) (group : jsstr) : option number :=
  match own groupRatio group with
  | Some r => if is_finite r then Some r else None
  | None => None
  end.

Definition getConfiguredGroupRatio (groupRatio : list (jsstr * number)) (group : jsstr) : number :=
  match finite_ratio groupRatio group with Some r => r | None => num_one end.

(** One round of the loop over the groups. *)
Definition least_ratio (groupRatio : list (jsstr * number)) (minRatio : number) (group : jsstr) : number :=
  match finite_ratio groupRatio group with
  | Some r => if num_ltb r minRatio then r else minRatio
  | None => minRatio
  end.

Definition getDisplayGroupRatio (model : pricing_model) (selectedGroup : option jsstr) : number :=
  let modelEnableGroups := list_or_empty (pm_enable_groups model) in
  let groupRatio := list_or_empty (pm_group_ratio model) in
  let best :=
    match modelEnableGroups with
    | [] => num_one
    | _ =>
        let minRatio := fold_left (least_ratio groupRatio) modelEnableGroups (S754_infinity false) in
        if num_eqb minRatio (S754_infinity false) then num_one else minRatio
    end in
  match selectedGroup with
  | Some g =>
      if truthy g && negb (g === FILTER_ALL) && has modelEnableGroups g
      then getConfiguredGroupRatio groupRatio g
      else best
  | None => best
  end.

(** The replacement text of [replaceAll] with a plain pattern: two dollar signs stand
    for one, a dollar sign with an ampersand, a grave accent or an apostrophe for the
    match, the text before it and the text after it. *)
Fixpoint substitution (before matched after replacement : jsstr) : jsstr :=
  match replacement with
  | 36 :: 36 :: r => 36 :: substitution before matched after r
  | 36 :: 38 :: r => matched ++ substitution before matched after r
  | 36 :: 96 :: r => before ++ substitution before matched after r
  | 36 :: 39 :: r => after ++ substitution before matched after r
  | c :: r => c :: substitution before matched after r
  | [] => []
  end.

(** [s.replaceAll(pattern, replacement)]; the fuel is the length of the text. *)
Fixpoint replace_all (fuel : nat) (pattern replacement before s : jsstr) : jsstr :=
  match fuel, s with
  | S f, c :: r =>
      if starts_with pattern s
      then let after := drop (length pattern) s in
           substitution before pattern after replacement
           ++ replace_all f pattern replacement (before ++ pattern) after
      else c :: replace_all f pattern replacement (before ++ [c]) r
  | _, _ => s
  end.
Definition replaceModelInPath (path modelName : jsstr) : jsstr :=
  replace_all (length path) (js "{model}") modelName [] path.

Definition isTokenBasedModel (model : pricing_model) : bool := num_eqb (pm_quota_type model) QUOTA_TOKEN.

(** * Filters ([filters.ts]) *)

(** [hasTaskUsageSchema] of [dynamic-price.ts]. *)
Definition hasTaskUsageSchema (model : pricing_model) : bool :=
  match pm_billing_usage_schema model with Some (_ :: _) => true | _ => false end.

(** [model.model_price || 0]. *)
Definition request_price (model : pricing_model) : number :=
  match pm_model_price model with Some p => or_zero p | None => num_zero end.

Definition getModelPrice (model : pricing_model) : number :=
  if num_eqb (pm_quota_type model) num_zero then pm_model_ratio model else request_price model.

(** [tagsString.split] at runs of commas, semicolons, bars and white space. *)
Definition is_tag_separator (c : Z) : bool := (c =? 44) || (c =? 59) || (c =? 124) || is_space c.
Fixpoint split_tags (word : jsstr) (in_gap : bool) (s : jsstr) : list jsstr :=
  match s with
  | [] => [word]
  | c :: r =>
      if is_tag_separator c
      then if in_gap then split_tags word true r else word :: split_tags [] true r
      else split_tags (word ++ [c]) false r
  end.

Definition parseTags (tagsString : option jsstr) : list jsstr :=
  match tagsString with
  | None | Some [] => []
  | Some s => List.filter truthy (map trim (split_tags [] false s))
  end.

Record catalogue_filters := CatalogueFilters {
  cf_search : jsstr;
  cf_vendor : jsstr;
  cf_group : jsstr;
  cf_quotaType : jsstr;
  cf_endpointType : jsstr;
  cf_tag : jsstr;
  cf_sortBy : jsstr;
}.

Section Filters.
Context {P : Platform} {C : Collation}.

(** [text?.toLowerCase().includes(lowerQuery)]. *)
Definition mentions (text : option jsstr) (lowerQuery : jsstr) : bool :=
  match text with Some t => includes lowerQuery (toLowerCase t) | None => false end.

Definition filterBySearch (models : list pricing_model) (query : jsstr) : list pricing_model :=
  if negb (truthy query) then models
  else
    let lowerQuery := toLowerCase query in
    List.filter (fun m =>
      mentions (pm_model_name m) lowerQuery || mentions (pm_description m) lowerQuery
      || mentions (pm_tags m) lowerQuery || mentions (pm_vendor_name m) lowerQuery) models.

Definition filterByVendor (models : list pricing_model) (vendor : jsstr) : list pricing_model :=
  if vendor === FILTER_ALL then models
  else List.filter (fun m => match pm_vendor_name m with Some v => str_eqb v vendor | None => false end) models.

Definition filterByGroup (models : list pricing_model) (group : jsstr) : list pricing_model :=
  if group === FILTER_ALL then models
  else List.filter (fun m => has (list_or_empty (pm_enable_groups m)) group) models.

Definition filterByQuotaType (models : list pricing_model) (quotaType : jsstr) : list pricing_model :=
  if quotaType === "all" then models
  else if quotaType === "task" then List.filter hasTaskUsageSchema models
  else
    let targetType := if quotaType === "token" then QUOTA_TOKEN else QUOTA_REQUEST in
    List.filter (fun m => num_eqb (pm_quota_type m) targetType && negb (hasTaskUsageSchema m)) models.

Definition filterByEndpointType (models : list pricing_model) (endpointType : jsstr) : list pricing_model :=
  if endpointType === "all" then models
  else List.filter (fun m => has (list_or_empty (pm_supported_endpoint_types m)) endpointType) models.

Definition filterByTag (models : list pricing_model) (tag : jsstr) : list pricing_model :=
  if tag === FILTER_ALL then models
  else
    let tagLower := toLowerCase tag in
    List.filter (fun m => has (map toLowerCase (parseTags (pm_tags m))) tagLower) models.

Definition name_or_empty (m : pricing_model) : jsstr :=
  match pm_model_name m with Some n => n | None => [] end.

Definition sortModels (models : list pricing_model) (sortBy : jsstr) : list pricing_model :=
  if sortBy === "name" then sort_by (fun a b => localeCompare (name_or_empty a) (name_or_empty b)) models
  else if sortBy === "price-low" then sort_by (fun a b => by_number (getModelPrice a) (getModelPrice b)) models
  else if sortBy === "price-high" then sort_by (fun a b => by_number (getModelPrice b) (getModelPrice a)) models
  else models.

Definition filterAndSortModels (models : list pricing_model) (filters : catalogue_filters)
  : list pricing_model :=
  let result := filterBySearch models (cf_search filters) in
  let result := filterByVendor result (cf_vendor filters) in
  let result := filterByGroup result (cf_group filters) in
  let result := filterByQuotaType result (cf_quotaType filters) in
  let result := filterByEndpointType result (cf_endpointType filters) in
  let result := filterByTag result (cf_tag filters) in
  sortModels result (cf_sortBy filters).

(** The tags of all models, added to a set in order. *)
Definition extractAllTags (models : list pricing_model) : list jsstr :=
  let tagSet := fold_left (fun tags m =>
      fold_left (fun tags tag => set_add (toLowerCase tag) tags) (parseTags (pm_tags m)) tags)
    models [] in
  sort_by localeCompare tagSet.
End Filters.

(** * Prices by ratio ([price.ts]) *)

(** [Number.parseFloat]. *)
Definition parseFloat (text : jsstr) : number :=
  let unsigned s :=
    if starts_with (js "Infinity") s then S754_infinity false
    else match scan_number s with Some (_, v) => v | None => S754_nan end in
  match trim_start text with
  | 43 :: s => unsigned s
  | 45 :: s => num_opp (unsigned s)
  | s => unsigned s
  end.

(** The pattern of [stripTrailingZeros]: a symbol without digits and minus, a number of
    digits, minus and commas with an optional point and fraction, an optional [k].  When the symbol takes the whole text, a way
    back leaves a number of commas and a point alone, which is not read as a number
    either: the text stays as it is. *)
Definition match_price (s : jsstr) : option (jsstr * jsstr * jsstr) :=
  let '(symbol, r1) := span (fun c => negb (is_digit c) && negb (c =? 45)) s in
  let '(whole, r2) := span (fun c => is_digit c || (c =? 45) || (c =? 44)) r1 in
  let '(point, r3) := match r2 with 46 :: r => ([46], r) | _ => ([], r2) end in
  let '(fraction, r4) := span is_digit r3 in
  match whole, r4 with
  | [], _ => None
  | _, [] => Some (symbol, whole ++ point ++ fraction, [])
  | _, [107] => Some (symbol, whole ++ point ++ fraction, [107])
  | _, _ => None
  end.

(** [text.replace(/\.?0+$/, '')]. *)
Definition drop_fraction_zeros (s : jsstr) : jsstr :=
  let z := drop_zeros s in
  if (length z <? length s)%nat && bool_decide (list.last z = Some 46) then removelast z else z.

Definition stripTrailingZeros (formatted : jsstr) : jsstr :=
  match match_price formatted with
  | None => formatted
  | Some (symbol, number, suffix) =>
      let cleanNumber := List.filter (fun c => negb (c =? 44)) number in
      match parseFloat cleanNumber with
      | S754_nan => formatted
      | parsed =>
          let result := num_to_string parsed in
          let result := if existsb (Z.eqb 101) result
                        then drop_fraction_zeros (toFixed 20 parsed) else result in
          symbol ++ result ++ suffix
      end
  end.

Inductive price_type :=
| PriceInput | PriceOutput | PriceCache | PriceCreateCache | PriceImage | PriceAudioInput | PriceAudioOutput.

(** [hasRatio(value)], with the value. *)
Definition hasRatio (value : option number) : option number :=
  match value with Some r => if is_finite r then Some r else None | None => None end.

Definition calculateTokenPrice (model : pricing_model) (type : price_type) (ratio : number) : number :=
  let base := num_mul (num_mul (pm_model_ratio model) (num_of_Z 2)) ratio in
  let by_ratio value :=
    match hasRatio value with Some r => num_mul base r | None => S754_nan end in
  match type with
  | PriceInput => base
  | PriceOutput => num_mul base (pm_completion_ratio model)
  | PriceCache => by_ratio (pm_cache_ratio model)
  | PriceCreateCache => by_ratio (pm_create_cache_ratio model)
  | PriceImage => by_ratio (pm_image_ratio model)
  | PriceAudioInput => by_ratio (pm_audio_ratio model)
  | PriceAudioOutput =>
      match hasRatio (pm_audio_ratio model), hasRatio (pm_audio_completion_ratio model) with
      | Some r, Some k => num_mul (num_mul base r) k
      | _, _ => S754_nan
      end
  end.

Definition applyRechargeRate (price : number) (showWithRecharge : bool) (priceRate usdExchangeRate : number)
  : number :=
  if negb showWithRecharge then price else num_div (num_mul price priceRate) usdExchangeRate.

(** The recharge options of a price: whether it is shown, the rate and the exchange rate. *)
Record recharge := Recharge { rc_show : bool; rc_priceRate : number; rc_usdExchangeRate : number }.
Definition recharged (price : number) (r : recharge) : number :=
  applyRechargeRate price (rc_show r) (rc_priceRate r) (rc_usdExchangeRate r).

Definition price_options (showSymbol : option bool) (digitsSmall : nat) : option format_options :=
  Some (FormatOptions (Some 4%nat) (Some digitsSmall) (Some false) None None showSymbol None).

Section Prices.
Context {I : Intl} (store : option stored_currency).

Definition formatPrice (model : pricing_model) (type : price_type) (tokenUnit : token_unit) (r : recharge)
    (selectedGroup : option jsstr) (showCurrencySymbol : bool) : jsstr :=
  if num_eqb (pm_quota_type model) QUOTA_REQUEST then js "-"
  else
    let displayGroupRatio := getDisplayGroupRatio model selectedGroup in
    let priceInUSD := recharged (calculateTokenPrice model type displayGroupRatio) r in
    let price := num_div priceInUSD (TOKEN_UNIT_DIVISORS tokenUnit) in
    formatBillingCurrencyFromUSD store (Some price) (price_options (Some showCurrencySymbol) 6).

Definition formatGroupPrice (model : pricing_model) (group : jsstr) (type : price_type)
    (tokenUnit : token_unit) (r : recharge) (groupRatio : list (jsstr * number)) : jsstr :=
  if num_eqb (pm_quota_type model) QUOTA_REQUEST then js "-"
  else
    let ratio := getConfiguredGroupRatio groupRatio group in
    let priceInUSD := recharged (calculateTokenPrice model type ratio) r in
    let price := num_div priceInUSD (TOKEN_UNIT_DIVISORS tokenUnit) in
    formatBillingCurrencyFromUSD store (Some price) (price_options None 6).

Definition formatFixedPrice (model : pricing_model) (group : jsstr) (r : recharge)
    (groupRatio : list (jsstr * number)) : jsstr :=
  if negb (num_eqb (pm_quota_type model) QUOTA_REQUEST) then js "-"
  else
    let ratio := getConfiguredGroupRatio groupRatio group in
    let priceInUSD := recharged (num_mul (request_price model) ratio) r in
    formatBillingCurrencyFromUSD store (Some priceInUSD) (price_options None 4).

Definition formatRequestPrice (model : pricing_model) (r : recharge) (selectedGroup : option jsstr)
    (showCurrencySymbol : bool) : jsstr :=
  if negb (num_eqb (pm_quota_type model) QUOTA_REQUEST) then js "-"
  else
    let displayGroupRatio := getDisplayGroupRatio model selectedGroup in
    let priceInUSD := recharged (num_mul (request_price model) displayGroupRatio) r in
    formatBillingCurrencyFromUSD store (Some priceInUSD) (price_options (Some showCurrencySymbol) 4).
End Prices.

Example strip_ex :
  stripTrailingZeros (js "$1,234.5000k") = js "$1234.5k" /\ stripTrailingZeros (js "0.00000010") = js "0.0000001" /\
  stripTrailingZeros (js "free") = js "free" /\ replaceModelInPath (js "/v1/{model}/x/{model}") (js "m") = js "/v1/m/x/m".
Proof. vm_compute. done. Qed.
