(* ===== verification/CatalogueFacts.v ===== *)
(** Facts about the catalogue: amounts of money, the ratio of a group, and the list of
    models under filters and sorting. *)
From Stdlib Require Import ZArith Lia Bool String SpecFloat Permutation Sorted.
From stdpp Require Import base list option.
From S2P Require Import Prelude JsString JsNumber Types JsValue Collections JsInteger Runtime Display Currency Catalogue.

#[local] Open Scope Z_scope.

(** * Amounts *)

Lemma positive_or_positive x d : num_ltb num_zero d = true -> num_ltb num_zero (positive_or x d) = true.
Proof.
  intros Hd. unfold positive_or. destruct x as [n|]; [|done].
  destruct (num_truthy n && num_ltb num_zero n) eqn:E; bools; done.
Qed.

(** The rates that are used are positive, whatever is stored. *)
Lemma getConfig_positive store : let c := getConfig store in
  num_ltb num_zero (cc_quotaPerUnit c) = true /\ num_ltb num_zero (cc_usdExchangeRate c) = true /\
  num_ltb num_zero (cc_customCurrencyExchangeRate c) = true /\ truthy (cc_customCurrencySymbol c) = true.
Proof.
  destruct store as [s|]; [|vm_compute; done]. cbn -[num_ltb num_of_Z].
  split_and!; try (by apply positive_or_positive).
  destruct (sc_customCurrencySymbol s) as [t|]; [|done]. by destruct (truthy (trim t)) eqn:E.
Qed.

(** The least amount that is not shown as zero. *)
Definition threshold (o : resolved_options) (digits : nat) : number :=
  if num_ltb num_zero (ro_minimumNonZero o) then ro_minimumNonZero o else pow10_negative digits.

Lemma num_abs_opp x : num_abs (num_opp x) = num_abs x.
Proof. by destruct x. Qed.
Lemma num_abs_positive x : num_ltb num_zero x = true -> num_abs x = x.
Proof. destruct x as [s|s| |s m e]; try done; by destruct s. Qed.
Lemma positive_leb_refl x : num_ltb num_zero x = true -> num_leb x x = true.
Proof.
  unfold num_leb, SFleb, SFcompare. destruct x as [s|s| |s m e]; try done; destruct s; try done.
  by rewrite Z.compare_refl, Pos.compare_cont_refl.
Qed.
Lemma num_compare_total x y : x <> S754_nan -> y <> S754_nan -> num_ltb x y = false -> num_leb y x = true.
Proof.
  intros Hx Hy. unfold num_ltb, num_leb, SFltb, SFleb. rewrite (num_compare_antisym x y).
  destruct (SFcompare x y) as [[]|] eqn:E; cbn; try done.
  unfold SFcompare in E. destruct x as [sx|sx| |sx mx ex], y as [sy|sy| |sy my ey]; try done;
    try (by destruct sx); try (by destruct sy); by destruct sx, sy.
Qed.
Lemma num_abs_nan x : num_ltb num_zero (num_abs x) = true -> num_abs x <> S754_nan.
Proof. by destruct x. Qed.
Lemma positive_not_nan x : num_ltb num_zero x = true -> x <> S754_nan.
Proof. by destruct x. Qed.

(** An amount other than zero is shown at least as large as the threshold, with its sign. *)
Lemma adjusted_shown v digits min : num_ltb num_zero (num_abs v) = true ->
  let t := if num_ltb num_zero min then min else pow10_negative digits in
  num_ltb num_zero t = true ->
  let a := adjustForMinimum v digits min in
  num_leb t (num_abs a) = true /\ num_ltb num_zero a = num_ltb num_zero v /\
  (num_leb t (num_abs v) = true -> a = v).
Proof.
  intros Hv t Ht. unfold adjustForMinimum. fold t.
  assert (num_eqb v num_zero = false) as -> by (destruct v as [s|s| |s m e]; try done; by destruct s).
  rewrite Hv. cbn [andb]. destruct (num_ltb (num_abs v) t) eqn:E.
  - assert (Hl : num_leb t (num_abs v) = false).
    { revert E. unfold num_ltb, num_leb, SFltb, SFleb. rewrite (num_compare_antisym (num_abs v) t).
      by destruct (SFcompare (num_abs v) t) as [[]|]. }
    destruct (num_ltb num_zero v) eqn:Ev; cbn.
    + rewrite num_abs_positive by done. by rewrite positive_leb_refl, Ht, Hl.
    + rewrite num_abs_opp, num_abs_positive by done. rewrite positive_leb_refl by done.
      split_and!; [done| |by rewrite Hl]. revert Ht. destruct t as [s|s| |s m e]; try done; by destruct s.
  - split_and!; [|done|done]. apply num_compare_total; [by apply num_abs_nan|by apply positive_not_nan|done].
Qed.

Section Shown.
Context {I : Intl}.

(** A text that shows a number: the format of the currency, or the plain format, with
    the symbol of a custom currency before it. *)
Definition shows (locale : option jsstr) (v : number) (text : jsstr) : Prop :=
  exists prefix format, text = prefix ++ intl_format locale format v.

Lemma formatted_shows v o meta : (forall q, meta <> MetaTokens q) ->
  let digits := getFractionDigits v (ro_digitsLarge o) (ro_digitsSmall o) in
  shows (ro_locale o) (adjustForMinimum v digits (ro_minimumNonZero o)) (formatCurrencyValue v o meta).
Proof.
  intros Hm digits. unfold formatCurrencyValue, shows. fold digits. destruct meta as [sy code r|sy r|q].
  - destruct (ro_showSymbol o); cbn [negb]; (exists []; eexists; reflexivity).
  - destruct (ro_showSymbol o); [exists (sy ++ js " ")|exists []]; eexists; rewrite <- ?app_assoc; reflexivity.
  - by destruct (Hm q).
Qed.

(** The exchange rate of a billing display. *)
Definition billing_rate (store : option stored_currency) : number :=
  match getBillingDisplayMeta (getConfig store) with
  | MetaCurrency _ _ r | MetaCustom _ r => r
  | MetaTokens _ => num_one
  end.

Lemma billing_meta_money store :
  num_ltb num_zero (billing_rate store) = true /\
  (forall q, getBillingDisplayMeta (getConfig store) <> MetaTokens q).
Proof.
  unfold billing_rate, getBillingDisplayMeta, getDisplayMeta.
  destruct (getConfig_positive store) as (_ & H1 & H2 & _). cbv zeta in *.
  destruct (cc_quotaDisplayType (getConfig store) === "CNY"); [done|].
  destruct (cc_quotaDisplayType (getConfig store) === "CUSTOM"); [done|].
  by destruct (cc_quotaDisplayType (getConfig store) === "TOKENS").
Qed.

(** The price shown is the price in dollars times a positive rate, and what is not zero is
    never shown as zero. *)
Theorem billing_amount_shown store amount options :
  let o := mergeOptions options in
  let v := num_mul amount (billing_rate store) in
  let digits := getFractionDigits v (ro_digitsLarge o) (ro_digitsSmall o) in
  amount <> S754_nan -> num_ltb num_zero (num_abs v) = true -> num_ltb num_zero (threshold o digits) = true ->
  exists shown, shows (ro_locale o) shown (formatBillingCurrencyFromUSD store (Some amount) options) /\
    num_leb (threshold o digits) (num_abs shown) = true /\ num_ltb num_zero shown = num_ltb num_zero v /\
    (num_leb (threshold o digits) (num_abs v) = true -> shown = v).
Proof.
  intros o v digits Hn Hv Ht. destruct (billing_meta_money store) as [_ Hm].
  exists (adjustForMinimum v digits (ro_minimumNonZero o)). split.
  - assert (E : formatBillingCurrencyFromUSD store (Some amount) options =
      formatCurrencyValue v o (getBillingDisplayMeta (getConfig store))).
    { unfold formatBillingCurrencyFromUSD. destruct amount; try done; cbn [shown_amount getCurrencyDisplay];
        unfold v, billing_rate; destruct (getBillingDisplayMeta _) eqn:Em; try done; by destruct (Hm quotaPerUnit). }
    rewrite E. by apply formatted_shows.
  - by apply adjusted_shown.
Qed.

(** Prices ignore the display in tokens: they are shown in dollars. *)
Lemma billing_ignores_tokens c amount options : sc_quotaDisplayType c = Some (js "TOKENS") ->
  formatBillingCurrencyFromUSD (Some c) amount options =
  formatBillingCurrencyFromUSD (Some (merge_currency c
    (StoredCurrency None (Some (js "USD")) None None None None))) amount options.
Proof. intros H. unfold formatBillingCurrencyFromUSD. destruct (shown_amount amount); [|done]. cbn. unfold getBillingDisplayMeta, getDisplayMeta. cbn. by rewrite H. Qed.

End Shown.

(** What the documentation of [formatCurrencyFromUSD] says of tokens and of a custom
    currency is not what it returns. *)
Definition plain_intl : Intl := {| intl_format _ _ v := num_to_string v |}.
Definition token_store : stored_currency := StoredCurrency None (Some (js "TOKENS")) (Some (num_of_Z 500000)) None None None.
Definition custom_store : stored_currency :=
  StoredCurrency None (Some (js "CUSTOM")) None None (Some (js "E")) (Some (num_of_decimal 9 (-1))).
Lemma documented_amounts_differ :
  formatCurrencyFromUSD (I := plain_intl) (Some token_store) (Some (num_of_Z 10)) None = js "5000k" /\
  formatCurrencyFromUSD (I := plain_intl) (Some custom_store) (Some (num_of_Z 10)) None = js "E 9".
Proof. vm_compute. done. Qed.

(** * The ratio of a group *)

(** The ratios of the groups of a model that are configured. *)
Definition configured_ratios (model : pricing_model) : list number :=
  omap (finite_ratio (list_or_empty (pm_group_ratio model))) (list_or_empty (pm_enable_groups model)).

Definition ratios_valid (model : pricing_model) : Prop :=
  Forall (fun e => num_valid e.2 = true) (list_or_empty (pm_group_ratio model)).

Definition is_selected (model : pricing_model) (g : option jsstr) : bool :=
  match g with
  | Some g => truthy g && negb (g === FILTER_ALL) && has (list_or_empty (pm_enable_groups model)) g
  | None => false
  end.

Lemma finite_ratio_proper ratios g r : Forall (fun e => num_valid e.2 = true) ratios ->
  finite_ratio ratios g = Some r -> proper r.
Proof.
  intros Hv. unfold finite_ratio. destruct (own ratios g) as [x|] eqn:E; [|done].
  destruct (is_finite x) eqn:Ef; [|done]. intros [= <-]. split; [done|].
  apply own_In in E. rewrite Forall_elem in Hv. apply (Hv _ E).
Qed.

Lemma least_ratio_fold ratios gs : Forall (fun e => num_valid e.2 = true) ratios -> forall m,
  m = S754_infinity false \/ proper m ->
  let rs := omap (finite_ratio ratios) gs in
  let r := fold_left (least_ratio ratios) gs m in
  (rs = [] -> r = m) /\
  (proper m \/ rs <> [] -> proper r /\ (r = m \/ r ∈ rs) /\ (proper m -> num_leb r m = true) /\
     forall r', r' ∈ rs -> num_leb r r' = true).
Proof.
  intros Hv. induction gs as [|g gs IH]; intros m Hm; cbn [fold_left omap list_omap].
  { split; [done|]. intros [Hp|?]; [|done]. split_and!; [done|by left| |by intros ? ?%not_elem_of_nil].
    intros _. rewrite num_leb_scaled by done. lia. }
  destruct (finite_ratio ratios g) as [x|] eqn:Ex.
  - assert (Em : least_ratio ratios m g = if num_ltb x m then x else m) by (unfold least_ratio; by rewrite Ex).
    rewrite Em. clear Em. pose proof (finite_ratio_proper _ _ _ Hv Ex) as Hx. cbv zeta. split; [done|]. intros _.
    set (m' := if num_ltb x m then x else m).
    assert (Hm' : proper m' /\ num_leb m' x = true /\ (proper m -> num_leb m' m = true) /\ (m' = m \/ m' = x)).
    { unfold m'. destruct (num_ltb x m) eqn:E.
      - split_and!; [done|rewrite num_leb_scaled by done; lia| |by right]. intros Hp.
        rewrite num_ltb_scaled in E by done. rewrite num_leb_scaled by done. bools. lia.
      - destruct Hm as [->|Hp].
        { destruct Hx as [Hf _]. by destruct x as [s|s| |s ? ?]; try done; destruct s. }
        rewrite num_ltb_scaled in E by done. bools.
        split_and!; [done|rewrite num_leb_scaled by done; lia|rewrite num_leb_scaled by done; lia|by left]. }
    destruct Hm' as (Hp' & Hle & Hlem & Hor). destruct (IH m' (or_intror Hp')) as [_ IH'].
    destruct (IH' (or_introl Hp')) as (Hr & Hin & Hrm & Hall). specialize (Hrm Hp').
    split_and!; [done| | |].
    + destruct Hin as [->|Hin]; [|right; by right]. destruct Hor as [->| ->]; [by left|right; by left].
    + intros Hp. specialize (Hlem Hp). rewrite num_leb_scaled in * by done. bools. apply Z.leb_le. lia.
    + intros r' [->|Hr']%elem_of_cons; [|by apply Hall]. rewrite num_leb_scaled in * by done. bools. apply Z.leb_le. lia.
  - assert (Em : least_ratio ratios m g = m) by (unfold least_ratio; by rewrite Ex). rewrite Em. by apply IH.
Qed.

(** C. Without a selected group the catalogue shows the least configured ratio of the
    groups a model is enabled for, or 1 when none is configured; with a selected group of
    the model it shows the ratio of that group, or 1. *)
Theorem display_ratio_best model g : ratios_valid model ->
  let r := getDisplayGroupRatio model g in
  if is_selected model g
  then r = match finite_ratio (list_or_empty (pm_group_ratio model)) (given g []) with Some x => x | None => num_one end
  else (configured_ratios model = [] /\ r = num_one) \/
       (r ∈ configured_ratios model /\ forall x, x ∈ configured_ratios model -> num_leb r x = true).
Proof.
  intros Hv. unfold getDisplayGroupRatio, is_selected, configured_ratios.
  set (gs := list_or_empty (pm_enable_groups model)). set (ratios := list_or_empty (pm_group_ratio model)).
  set (best := match gs with [] => num_one | _ => _ end).
  assert (Hb : (omap (finite_ratio ratios) gs = [] /\ best = num_one) \/
    (best ∈ omap (finite_ratio ratios) gs /\ forall x, x ∈ omap (finite_ratio ratios) gs -> num_leb best x = true)).
  { unfold best. destruct gs as [|g0 gs0]; [by left|].
    destruct (least_ratio_fold ratios (g0 :: gs0) Hv (S754_infinity false) (or_introl eq_refl)) as [H1 H2].
    destruct (omap (finite_ratio ratios) (g0 :: gs0)) as [|r0 rs] eqn:E.
    - left. rewrite H1 by done. done.
    - right. assert (Hne : r0 :: rs <> []) by done. destruct (H2 (or_intror Hne)) as ([Hf _] & Hin & _ & Hall).
      set (r := fold_left _ _ _) in *.
      assert (num_eqb r (S754_infinity false) = false) as -> by (destruct r as [s|s| |s ? ?]; try done; by destruct s).
      split; [|done]. destruct Hin as [Hr|Hin]; [|done]. by rewrite Hr in Hf. }
  destruct g as [g|]; [|done]. destruct (truthy g && negb (g === FILTER_ALL) && has gs g); done.
Qed.

(** A group without a ratio counts as 1 when it is selected, and not at all when none is:
    the price shown without a selection need not be the best. *)
Definition two_groups : pricing_model :=
  PricingModel (Some (js "m")) None None num_zero num_one num_one None None None None None None
    (Some [js "vip"; js "free"]) None None (Some [(js "vip", num_of_Z 2)]) None None None None.
Lemma unconfigured_group_cheaper :
  getDisplayGroupRatio two_groups None = num_of_Z 2 /\ getDisplayGroupRatio two_groups (Some (js "free")) = num_one.
Proof. vm_compute. done. Qed.

Lemma display_ratio_best_witness :
  getDisplayGroupRatio two_groups None ∈ configured_ratios two_groups /\
  forall x, x ∈ configured_ratios two_groups -> num_leb (getDisplayGroupRatio two_groups None) x = true.
Proof.
  assert (Hv : ratios_valid two_groups) by (constructor; [vm_compute; reflexivity|constructor]).
  destruct (display_ratio_best two_groups None Hv) as [[H _]|H]; [discriminate H|exact H].
Defined.

(** * The list of models *)

Lemma filter_and {A} (p q : A -> bool) l : List.filter q (List.filter p l) = List.filter (fun x => p x && q x) l.
Proof.
  induction l as [|x l IH]; [done|]. cbn [List.filter]. destruct (p x); cbn [andb List.filter]; [|done].
  destruct (q x); by rewrite IH.
Qed.
Lemma filter_everything {A} (l : list A) : List.filter (fun _ => true) l = l.
Proof. induction l as [|x l IH]; [done|]. cbn. by rewrite IH. Qed.
Lemma filter_same {A} (p q : A -> bool) l : (forall x, p x = q x) -> List.filter p l = List.filter q l.
Proof. intros H. induction l as [|x l IH]; [done|]. cbn. by rewrite H, IH. Qed.

Section Listed.
Context {P : Platform} {C : Collation}.

(** What every filter asks of a model. *)
Definition found (query : jsstr) (m : pricing_model) : bool :=
  negb (truthy query)
  || (let q := toLowerCase query in
      mentions (pm_model_name m) q || mentions (pm_description m) q
      || mentions (pm_tags m) q || mentions (pm_vendor_name m) q).
Definition of_vendor (vendor : jsstr) (m : pricing_model) : bool :=
  (vendor === FILTER_ALL) || match pm_vendor_name m with Some v => str_eqb v vendor | None => false end.
Definition of_group (group : jsstr) (m : pricing_model) : bool :=
  (group === FILTER_ALL) || has (list_or_empty (pm_enable_groups m)) group.
Definition of_quota (quota : jsstr) (m : pricing_model) : bool :=
  (quota === "all") ||
  if quota === "task" then hasTaskUsageSchema m
  else num_eqb (pm_quota_type m) (if quota === "token" then QUOTA_TOKEN else QUOTA_REQUEST)
       && negb (hasTaskUsageSchema m).
Definition of_endpoint (e : jsstr) (m : pricing_model) : bool :=
  (e === "all") || has (list_or_empty (pm_supported_endpoint_types m)) e.
Definition of_tag (tag : jsstr) (m : pricing_model) : bool :=
  (tag === FILTER_ALL) || has (map toLowerCase (parseTags (pm_tags m))) (toLowerCase tag).

Definition selected (f : catalogue_filters) (m : pricing_model) : bool :=
  found (cf_search f) m && of_vendor (cf_vendor f) m && of_group (cf_group f) m
  && of_quota (cf_quotaType f) m && of_endpoint (cf_endpointType f) m && of_tag (cf_tag f) m.

Lemma filtered_selected models f :
  filterAndSortModels models f = sortModels (List.filter (selected f) models) (cf_sortBy f).
Proof.
  assert (H : forall (b : bool) (p : pricing_model -> bool) l,
    (if b then l else List.filter p l) = List.filter (fun m => b || p m) l).
  { intros [] p l; cbn [orb]; [by rewrite filter_everything|done]. }
  unfold filterAndSortModels. f_equal.
  assert (E : forall l q, filterByQuotaType l q = List.filter (of_quota q) l).
  { intros l q. unfold filterByQuotaType, of_quota. destruct (q === "all"); cbn [orb]; [by rewrite filter_everything|].
    by destruct (q === "task"). }
  unfold filterByTag, filterByEndpointType, filterByGroup, filterByVendor, filterBySearch.
  rewrite !E, !H, !filter_and. apply filter_same. intros m. unfold selected.
  by rewrite <- !andb_assoc.
Qed.

(** The price of a model in units of the least positive number. *)
Definition price_key (m : pricing_model) : Z := num_scaled (getModelPrice m).
Definition cheaper (a b : pricing_model) : Prop := num_leb (getModelPrice a) (getModelPrice b) = true.

Lemma price_sorted (cmp : pricing_model -> pricing_model -> Z) (key : pricing_model -> Z) l : (forall x y, x ∈ l -> y ∈ l -> (cmp x y <? 0) = (key x <? key y)) ->
  StronglySorted (by_key key) (sort_by cmp l) /\ forall k, with_rank key k (sort_by cmp l) = with_rank key k l.
Proof. intros H. split; [by apply sort_by_sorted|]. intros k. by apply sort_by_stable. Qed.

Lemma sorted_weaken {A} (R S : A -> A -> Prop) l : (forall x y, x ∈ l -> y ∈ l -> R x y -> S x y) ->
  StronglySorted R l -> StronglySorted S l.
Proof.
  intros H Hs. induction Hs as [|x l Hl IH Hx]; [constructor|]. constructor.
  - apply IH. intros y z Hy Hz. apply H; by right.
  - apply Forall_elem. intros y Hy. rewrite Forall_elem in Hx. apply H; [left|by right|by apply Hx].
Qed.

Lemma sortModels_perm l sortBy : Permutation (sortModels l sortBy) l.
Proof. unfold sortModels. repeat case_goal; try apply sort_by_perm. done. Qed.

(** C14. The catalogue lists exactly the models that pass all filters; sorted by price, a model
    stands before one of a higher price (after it, for the other direction) and models of one price
    keep their order; a sort order that is not offered keeps the order of the server. *)
Theorem catalogue_exact models f :
  Forall (fun m => proper (getModelPrice m)) models ->
  let shown := filterAndSortModels models f in
  let kept := List.filter (selected f) models in
  Permutation shown kept /\
  (cf_sortBy f = js "price-low" -> StronglySorted cheaper shown) /\
  (cf_sortBy f = js "price-high" -> StronglySorted (fun a b => cheaper b a) shown) /\
  (cf_sortBy f <> js "name" -> forall k, with_rank price_key k shown = with_rank price_key k kept) /\
  (~ cf_sortBy f ∈ [js "name"; js "price-low"; js "price-high"] -> shown = kept).
Proof.
  intros Hp shown kept. unfold shown. rewrite filtered_selected. fold kept.
  assert (Hk : forall m, m ∈ kept -> proper (getModelPrice m)).
  { intros m Hm. apply list_elem_of_In, filter_In in Hm as [Hm _]. rewrite Forall_elem in Hp. by apply Hp, list_elem_of_In. }
  clearbody kept. clear shown Hp.
  assert (Hlow : forall x y, x ∈ kept -> y ∈ kept ->
    (by_number (getModelPrice x) (getModelPrice y) <? 0) = (price_key x <? price_key y)).
  { intros x y Hx Hy. apply by_number_lt; auto. }
  assert (Hhigh : forall x y, x ∈ kept -> y ∈ kept ->
    (by_number (getModelPrice y) (getModelPrice x) <? 0) = (- price_key x <? - price_key y)).
  { intros x y Hx Hy. rewrite by_number_lt by auto. unfold price_key. lia. }
  destruct (price_sorted _ _ _ Hlow) as [Sl Kl]. destruct (price_sorted _ (fun m => - price_key m) _ Hhigh) as [Sh Kh].
  assert (Hin : forall cmp m, m ∈ sort_by cmp kept -> m ∈ kept) by (intros cmp m; by rewrite sort_by_perm).
  assert (Hle : forall x y, x ∈ kept -> y ∈ kept -> price_key x <= price_key y -> cheaper x y).
  { intros x y Hx Hy H. unfold cheaper. rewrite num_leb_scaled by auto. by apply Z.leb_le. }
  split_and!.
  - apply sortModels_perm.
  - intros ->. eapply sorted_weaken; [|exact Sl]. intros x y Hx%Hin Hy%Hin H. by apply Hle.
  - intros ->. eapply sorted_weaken; [|exact Sh]. intros x y Hx%Hin Hy%Hin H. apply Hle; [done|done|].
    unfold by_key in H. lia.
  - intros Hn k. unfold sortModels. destruct (str_eqb_reflect (cf_sortBy f) (js "name")) as [|_]; [done|].
    destruct (cf_sortBy f === "price-low"); [apply Kl|].
    destruct (cf_sortBy f === "price-high"); [|done]. specialize (Kh (- k)). unfold with_rank in *.
    rewrite !(filter_same (fun m => price_key m =? k) (fun m => - price_key m =? - k)) by (intros; lia). exact Kh.
  - intros Hn. unfold sortModels. rewrite !not_elem_of_cons in Hn. destruct Hn as (N1 & N2 & N3 & _).
    apply str_eqb_neq in N1, N2, N3. by rewrite N1, N2, N3.
Qed.

(** The three kinds of billing share out the models of the two quota types. *)
Lemma quota_types_partition m : pm_quota_type m = QUOTA_TOKEN \/ pm_quota_type m = QUOTA_REQUEST ->
  Permutation (map (fun q => of_quota (js q) m) ["task"; "token"; "request"]%string) [true; false; false].
Proof.
  intros H. unfold of_quota. cbn [map].
  change (js "task" === "all") with false. change (js "token" === "all") with false. change (js "request" === "all") with false.
  change (js "task" === "task") with true. change (js "token" === "task") with false. change (js "request" === "task") with false.
  change (js "token" === "token") with true. change (js "request" === "token") with false. cbn [orb].
  destruct (hasTaskUsageSchema m); cbn [negb]; rewrite ?andb_false_r, ?andb_true_r; [done|].
  destruct H as [-> | ->]; vm_compute; [apply perm_swap|]. apply (Permutation_app_comm [false; false] [true]).
Qed.

(** * Tags *)

Lemma set_add_all (l acc : list jsstr) t :
  t ∈ fold_left (fun tags tag => set_add (toLowerCase tag) tags) l acc <-> t ∈ acc \/ t ∈ map toLowerCase l.
Proof.
  revert acc. induction l as [|x l IH]; intros acc; cbn [fold_left map].
  - split; [by left|]. by intros [?|?%not_elem_of_nil].
  - rewrite IH, set_add_elem, elem_of_cons. tauto.
Qed.

Lemma extracted_tags models t :
  t ∈ extractAllTags models <-> exists m, m ∈ models /\ t ∈ map toLowerCase (parseTags (pm_tags m)).
Proof.
  unfold extractAllTags. rewrite sort_by_perm.
  assert (H : forall acc, t ∈ fold_left (fun tags m =>
      fold_left (fun tags tag => set_add (toLowerCase tag) tags) (parseTags (pm_tags m)) tags) models acc
    <-> t ∈ acc \/ exists m, m ∈ models /\ t ∈ map toLowerCase (parseTags (pm_tags m))).
  { induction models as [|m models IH]; intros acc; cbn [fold_left].
    - split; [by left|]. intros [?|(? & ?%not_elem_of_nil & _)]; done.
    - rewrite IH, set_add_all. split.
      + intros [[?|?]|(n & Hn & ?)]; [by left|right; exists m; by split; [left|]|right; exists n; by split; [right|]].
      + intros [?|(n & [->|Hn]%elem_of_cons & ?)]; [by left; left|by left; right|right; eauto]. }
  rewrite H. split; [|by right]. by intros [?%not_elem_of_nil|?].
Qed.

Lemma has_elem l x : has l x = true <-> x ∈ l.
Proof.
  unfold has. rewrite existsb_exists. split.
  - intros (y & Hy & E). apply str_eqb_eq in E as ->. by apply list_elem_of_In.
  - intros H. exists x. split; [by apply list_elem_of_In|apply str_eqb_refl].
Qed.

(** The tags offered are those that select a model, [all] apart, which selects every model. *)
Theorem offered_tags_select models t : (forall s, toLowerCase (toLowerCase s) = toLowerCase s) ->
  (t ∈ extractAllTags models -> t <> js FILTER_ALL -> filterByTag models t <> []) /\
  (toLowerCase t ∉ extractAllTags models -> t <> js FILTER_ALL -> filterByTag models t = []).
Proof.
  intros Hl. unfold filterByTag. split; intros Ht Ha.
  - rewrite (proj2 (str_eqb_neq t (js FILTER_ALL)) Ha). apply extracted_tags in Ht as (m & Hm & Ht).
    assert (Hlow : toLowerCase t = t).
    { apply list_elem_of_In, in_map_iff in Ht as (s & <- & _). apply Hl. }
    intros E. apply (in_nil (a := m)). rewrite <- E. apply filter_In. split; [by apply list_elem_of_In|].
    by rewrite Hlow, has_elem.
  - rewrite (proj2 (str_eqb_neq t (js FILTER_ALL)) Ha).
    destruct (List.filter _ models) as [|m l] eqn:E; [done|]. destruct Ht.
    assert (Hm : In m (m :: l)) by (by left). rewrite <- E in Hm. apply filter_In in Hm as [Hm Ht].
    apply extracted_tags. exists m. split; [by apply list_elem_of_In|by apply has_elem].
Qed.
End Listed.

(** ** Witnesses *)

Definition cheap_model : pricing_model :=
  PricingModel (Some (js "a")) None None num_zero (num_of_decimal 5 (-1)) num_one None None None None None None
    (Some [js "free"]) (Some (js "chat, fast")) None None None None None None.
Definition any_model (sortBy : string) : catalogue_filters :=
  CatalogueFilters [] (js "all") (js "all") (js "all") (js "all") (js "all") (js sortBy).

Lemma catalogue_exact_witness :
  StronglySorted cheaper (filterAndSortModels (P := plain_platform) (C := unit_collation)
    [two_groups; cheap_model] (any_model "price-low")).
Proof.
  destruct (catalogue_exact (P := plain_platform) (C := unit_collation) [two_groups; cheap_model] (any_model "price-low"))
    as (_ & H & _).
  - repeat constructor.
  - apply H. reflexivity.
Defined.
