(* ===== verification/DynamicPrice.v ===== *)
(** [pricing/lib/dynamic-price.ts]: the prices the catalogue shows for a model that is
    billed by an expression, read off the expression with the readers of the price
    tables and of the request rules. *)
From Stdlib Require Import ZArith Lia Bool String SpecFloat.
From stdpp Require Import base list option.
From S2P Require Import Prelude JsString JsNumber Types JsValue Collections Compile Runtime Display Json RequestRules BillingVars TaskExpr Currency Catalogue.

(** * Reading prices: the compilation cache is shared and a reader may throw *)

Definition priced (A : Type) : Type := cache -> result task_reader_error A * cache.
#[export] Instance priced_ret : MRet priced := fun A x c => (Ok x, c).
#[export] Instance priced_bind : MBind priced := fun A B f m c =>
  match m c with
  | (Ok x, c) => f x c
  | (Err e, c) => (Err e, c)
  end.

Definition from_rules {A} (r : result json_error A) : priced A := fun c =>
  (match r with Ok x => Ok x | Err e => Err (FromRules e) end, c).
Definition from_tiers {A} (m : cache -> result exn A * cache) : priced A := fun c =>
  let '(r, c) := m c in (match r with Ok x => Ok x | Err e => Err (FromTiers e) end, c).

Definition from_cache {A} (m : cache -> result task_reader_error A * cache) : priced A := m.
Definition from_total {A} (m : cache -> A * cache) : priced A := fun c => let '(x, c) := m c in (Ok x, c).

(** * Options and entries *)

(** [DynamicPriceOptions]; [dpo_now] is [options.now]. *)
Record price_request := PriceRequest {
  dpo_tokenUnit : token_unit;
  dpo_showCurrencySymbol : option bool;
  dpo_showRechargePrice : option bool;
  dpo_priceRate : option number;
  dpo_usdExchangeRate : option number;
  dpo_groupRatioMultiplier : option number;
  dpo_usageSchema : option usage_schema;
  dpo_now : option date;
}.

(** [{ ...options, usageSchema }]. *)
Definition with_schema (o : price_request) (schema : option usage_schema) : price_request :=
  PriceRequest (dpo_tokenUnit o) (dpo_showCurrencySymbol o) (dpo_showRechargePrice o) (dpo_priceRate o)
    (dpo_usdExchangeRate o) (dpo_groupRatioMultiplier o) schema (dpo_now o).

Inductive label_kind := LabelI18n | LabelSchema.

(** [DynamicPriceEntry].  The description of a field of the schema, a text that is shown
    as it is, is not part of the model of schemas. *)
Record price_entry := PriceEntry {
  pe_key : jsstr;
  pe_field : jsstr;
  pe_label : jsstr;
  pe_shortLabel : jsstr;
  pe_labelKind : label_kind;
  pe_value : number;
  pe_formatted : jsstr;
  pe_formattedRange : option jsstr;
  pe_unit : jsstr;
  pe_variable : option billing_var;
}.

Record pricing_summary := PricingSummary {
  ps_tiers : list breakdown_tier;
  ps_tier : option breakdown_tier;
  ps_tierCount : nat;
  ps_hasRequestRules : bool;
  ps_isSpecialExpression : bool;
  ps_rawExpression : jsstr;
  ps_entries : list price_entry;
  ps_primaryEntries : list price_entry;
  ps_secondaryEntries : list price_entry;
  ps_isTaskUsage : bool;
  ps_isTimePricing : bool;
  ps_isMixedBilling : bool;
}.

(** * Labels of units *)

Definition unit_is (unit : option jsstr) (name : string) : bool :=
  match unit with Some u => u === name | None => false end.

Definition getTaskUsageQuantityUnitLabelKey (unit : option jsstr) : string :=
  if unit_is unit "second" then "s" else if unit_is unit "token" then "token (unit)"
  else if unit_is unit "credit" then "credit" else "unit".

Definition getTaskUsagePriceUnitLabelKey (unit : option jsstr) : string :=
  if unit_is unit "second" then "second" else if unit_is unit "token" then "1M token"
  else if unit_is unit "credit" then "credit" else "unit".

Definition getDynamicPriceUnitLabelKey (entry : price_entry) : option string :=
  let unit := pe_unit entry in
  if unit === "second" then Some "s"%string
  else if unit === "count" then Some "unit"%string
  else if unit === "credit" then Some "credit"%string
  else if (unit === "token") && negb (is_some (pe_variable entry)) then Some "1M token"%string
  else if unit === "request" then Some "request"%string
  else None.

Definition PRIMARY_DYNAMIC_FIELDS : list string := ["inputPrice"; "outputPrice"]%string.
Definition is_primary (field : jsstr) : bool := one_of field PRIMARY_DYNAMIC_FIELDS.

(** * Kinds of models *)

Definition is_tiered (model : pricing_model) : bool :=
  match pm_billing_mode model with Some m => m === "tiered_expr" | None => false end.
Definition expression_of (model : pricing_model) : jsstr :=
  match pm_billing_expr model with Some e => e | None => [] end.

Definition isDynamicPricingModel (model : pricing_model) : bool :=
  is_tiered model && truthy (expression_of model).
Definition isTaskUsagePricingModel (model : pricing_model) : bool :=
  is_tiered model && hasTaskUsageSchema model.
Definition isUnconfiguredTaskUsageModel (model : pricing_model) : bool :=
  negb (num_eqb (pm_quota_type model) num_one) && hasTaskUsageSchema model
  && negb (isDynamicPricingModel model).

Section Prices.
Context {P : Platform} {C : Collation} {I : Intl} (store : option stored_currency).

Definition getTaskPricingUnit (model : pricing_model) : option jsstr :=
  match getTaskNumberFields (pm_billing_usage_schema model) with
  | (_, f) :: _ => uf_unit f
  | [] => None
  end.

Definition getDynamicDisplayGroupRatio (model : pricing_model) (selectedGroup : option jsstr) : number :=
  getDisplayGroupRatio model selectedGroup.

(** * Formatting *)

(** What both formatters do with a price in dollars. *)
Definition format_recharged (priceUSD : number) (o : price_request) : jsstr :=
  let displayPrice := applyRechargeRate priceUSD (given (dpo_showRechargePrice o) false)
    (given (dpo_priceRate o) num_one) (given (dpo_usdExchangeRate o) num_one) in
  formatBillingCurrencyFromUSD store (Some displayPrice)
    (price_options (Some (given (dpo_showCurrencySymbol o) true)) 6).

Definition formatDynamicUnitPrice (valuePerMillionTokens : number) (o : price_request) : jsstr :=
  let groupRatio := given (dpo_groupRatioMultiplier o) num_one in
  format_recharged
    (num_div (num_mul valuePerMillionTokens groupRatio) (TOKEN_UNIT_DIVISORS (dpo_tokenUnit o))) o.

Definition formatTaskUsageUnitPrice (valuePerUnit : number) (o : price_request) : jsstr :=
  let groupRatio := given (dpo_groupRatioMultiplier o) num_one in
  format_recharged (num_mul valuePerUnit groupRatio) o.

(** * Tiers *)

Definition getDynamicPricingTiers (model : pricing_model) : priced (list breakdown_tier) :=
  if negb (isDynamicPricingModel model) then mret []
  else
    '(billingExpr, _) ← from_rules (splitBillingExprAndRequestRules (expression_of model));
    if isTaskUsagePricingModel model
    then tiers ← from_cache (parseTaskTiersFromExpr billingExpr (pm_billing_usage_schema model) true);
         mret (map TaskRow tiers)
    else tiers ← from_tiers (parseTiersFromExpr billingExpr);
         mret (map TokenRow tiers).

Definition hasDynamicRequestRules (model : pricing_model) : priced bool :=
  if negb (isDynamicPricingModel model) then mret false
  else
    '(_, requestRuleExpr) ← from_rules (splitBillingExprAndRequestRules (expression_of model));
    groups ← from_rules (tryParseRequestRuleExpr requestRuleExpr);
    mret (match groups with Some (_ :: _) => true | _ => false end).

(** [Number(unitPrices[field])] and [Number(tier[field])], when it is a price to show. *)
Definition shown_price (fields : list (jsstr * number)) (field : jsstr) : option number :=
  match own fields field with
  | Some v => if negb (is_finite v) || num_ltb v num_zero then None else Some v
  | None => None
  end.

Definition fixed_entry (price : number) (o : price_request) : price_entry :=
  PriceEntry (js "fixed") (js "fixedPrice") (js "Price per request") (js "Per-call") LabelI18n price
    (formatTaskUsageUnitPrice price o) None (js "request") None.

Definition usage_entry (unitPrices : list (jsstr * number)) (o : price_request)
    (e : jsstr * usage_field) : list price_entry :=
  match shown_price unitPrices e.1, uf_unit e.2 with
  | Some v, Some ((_ :: _) as unit) =>
      [PriceEntry e.1 e.1 e.1 e.1 LabelSchema v (formatTaskUsageUnitPrice v o) None unit None]
  | _, _ => []
  end.

Definition constant_entry (constant : number) (o : price_request) : price_entry :=
  PriceEntry (js "constant") (js "constant") (js "Additional charge") (js "Additional charge") LabelI18n
    constant (formatTaskUsageUnitPrice constant o) None (js "request") None.

Definition variable_entry (fields : list (jsstr * number)) (o : price_request) (v : billing_var)
  : list price_entry :=
  match bv_field v with
  | None => []
  | Some field =>
      match shown_price fields (js field) with
      | Some value =>
          [PriceEntry (js (bv_key v)) (js field) (js (bv_label v)) (js (bv_shortLabel v)) LabelI18n value
             (formatDynamicUnitPrice value o) None (js "token") (Some v)]
      | None => []
      end
  end.

(** Primary fields first. *)
Definition primary_first (a b : price_entry) : Z :=
  let aPrimary := is_primary (pe_field a) in
  let bPrimary := is_primary (pe_field b) in
  if negb (Bool.eqb aPrimary bPrimary) then (if aPrimary then -1 else 1)%Z else 0%Z.

Definition variable_entries (fields : list (jsstr * number)) (o : price_request) : list price_entry :=
  sort_by primary_first (flat_map (variable_entry fields o) BILLING_PRICING_VARS).

Definition getDynamicPriceEntries (tier : option breakdown_tier) (o : price_request) : list price_entry :=
  match tier with
  | None => []
  | Some (TokenRow t) =>
      match pt_billingUnit t, pt_fixedPrice t with
      | Some URequest, Some price => [fixed_entry price o]
      | _, _ => variable_entries (pt_fields t) o
      end
  | Some (TaskRow t) =>
      match dpo_usageSchema o with
      | Some schema =>
          flat_map (usage_entry (kt_unitPrices t) o) (getTaskNumberFields (Some schema))
          ++ (if num_ltb num_zero (kt_constant t) then [constant_entry (kt_constant t) o] else [])
      | None => variable_entries [] o
      end
  end.

(** * The summary of a model *)

Definition is_token_row (t : breakdown_tier) : bool :=
  match t with TokenRow t => negb (bool_decide (pt_billingUnit t = Some URequest)) | TaskRow _ => false end.
Definition is_request_row (t : breakdown_tier) : bool :=
  match t with TokenRow t => bool_decide (pt_billingUnit t = Some URequest) | TaskRow _ => false end.

(** One round of the loop over the tiers: the least and the greatest price of a field. *)
Definition widen (field : jsstr) (r : number * number) (t : breakdown_tier) : number * number :=
  match t with
  | TaskRow t =>
      match shown_price (kt_unitPrices t) field with
      | Some v => (num_min r.1 v, num_max r.2 v)
      | None => r
      end
  | TokenRow _ => r
  end.
Definition price_range (tiers : list breakdown_tier) (field : jsstr) : option (number * number) :=
  let r := fold_left (widen field) tiers (S754_infinity false, S754_infinity true) in
  if is_finite r.1 && is_finite r.2 then Some r else None.

(** [priceRanges]: a map with the fields of the schema as keys. *)
Definition price_ranges (tiers : list breakdown_tier) (schema : option usage_schema)
  : list (jsstr * (number * number)) :=
  fold_left (fun m e => match price_range tiers e.1 with Some r => mput e.1 r m | None => m end)
    (getTaskNumberFields schema) [].

(** An en dash between spaces. *)
Definition RANGE_DASH : jsstr := [32; 8211; 32]%Z.

Definition with_range (ranges : list (jsstr * (number * number))) (o : price_request) (e : price_entry)
  : price_entry :=
  match mget ranges (pe_field e) with
  | Some (lo, hi) =>
      if num_eqb lo hi then e
      else PriceEntry (pe_key e) (pe_field e) (pe_label e) (pe_shortLabel e) (pe_labelKind e) (pe_value e)
             (pe_formatted e)
             (Some (formatTaskUsageUnitPrice lo o ++ RANGE_DASH ++ formatTaskUsageUnitPrice hi o))
             (pe_unit e) (pe_variable e)
  | None => e
  end.

Definition is_request_entry (e : price_entry) : bool := pe_unit e === "request".

(** The entries of the summary before ranges, and whether both kinds of tiers are there. *)
Definition summary_entries (isTaskUsage : bool) (summaryTiers : list breakdown_tier)
    (tier : option breakdown_tier) (schema : option usage_schema) (o : price_request)
  : list price_entry * bool :=
  let entries := getDynamicPriceEntries tier (with_schema o schema) in
  if isTaskUsage then (entries, false)
  else
    match find is_token_row summaryTiers, find is_request_row summaryTiers with
    | Some tokenTier, Some requestTier =>
        (getDynamicPriceEntries (Some tokenTier) o ++ getDynamicPriceEntries (Some requestTier) o, true)
    | _, _ => (entries, false)
    end.

Definition getDynamicPricingSummary (model : pricing_model) (o : price_request) (new_Date : date)
  : priced (option pricing_summary) :=
  if negb (isDynamicPricingModel model) then mret None
  else
    tiers ← getDynamicPricingTiers model;
    let isTaskUsage := isTaskUsagePricingModel model in
    '(baseExpression, _) ← from_rules (splitBillingExprAndRequestRules (expression_of model));
    timeTiers ←
      (if isTaskUsage then mret None
       else from_tiers (getCurrentTimePricingTiers baseExpression (given (dpo_now o) new_Date)));
    let summaryTiers := match timeTiers with Some l => map TokenRow l | None => tiers end in
    let tier := if isTaskUsage then list.last summaryTiers else head summaryTiers in
    let schema := pm_billing_usage_schema model in
    let '(entries, isMixedBilling) := summary_entries isTaskUsage summaryTiers tier schema o in
    let entries := if isTaskUsage then map (with_range (price_ranges tiers schema) o) entries else entries in
    let rawExpression := expression_of model in
    hasRequestRules ← hasDynamicRequestRules model;
    let primary e :=
      if isTaskUsage then negb (is_request_entry e)
      else is_request_entry e || is_primary (pe_field e) in
    let secondary e :=
      if isTaskUsage then is_request_entry e
      else negb (is_request_entry e) && negb (is_primary (pe_field e)) in
    mret (Some (PricingSummary tiers tier (length tiers) hasRequestRules
      (truthy (trim rawExpression) && match tiers with [] => true | _ => false end)
      rawExpression entries (List.filter primary entries) (List.filter secondary entries)
      isTaskUsage (is_some timeTiers) isMixedBilling)).

Definition getCardExamplePrice (model : pricing_model) (o : price_request) (new_Date : date)
  : priced (option (jsstr * jsstr)) :=
  if negb (isTaskUsagePricingModel model) then mret None
  else
    match pm_billing_usage_schema model, pm_billing_usage_examples model with
    | Some schema, Some ((label, facts) :: _) =>
        '(billingExpr, _) ← from_rules (splitBillingExprAndRequestRules (expression_of model));
        config ← from_cache (tryParseTaskVisualConfig (Some billingExpr) schema);
        match config with
        | None => mret None
        | Some config =>
            result ← from_total (evaluateTaskVisualConfig config facts (Some schema) new_Date);
            mret (match result with
                  | Some r => Some (label, formatTaskUsageUnitPrice (tp_total r) o)
                  | None => None
                  end)
        end
    | _, _ => mret None
    end.
End Prices.
