(* ===== verification/DynamicFacts.v ===== *)
(** Facts about the prices of the catalogue: what it shows for an expression of the tier
    editor, and the shape of a summary. *)
From Stdlib Require Import ZArith Lia Bool String SpecFloat Permutation Sorted.
From stdpp Require Import base list option.
From S2P Require Import Prelude JsString JsNumber Types JsValue Collections JsInteger Parser ParserFacts Pieces TypeCheck Compile Runtime RuntimeFacts Display DisplayFacts TimeTiers Json Structure RequestRules RequestFacts BillingVars TierExpr TierFacts TaskExpr TaskFacts TaskBill Currency Catalogue CatalogueFacts DynamicPrice.

(** * A token table is not a time table *)

Lemma flatten_nonempty op n : flattenBinary n op <> [].
Proof.
  induction n as [| | | | |s e o l IHl r IHr|]; try done. cbn [flattenBinary].
  destruct (str_eqb o op); [|done]. by intros [E _]%app_eq_nil.
Qed.

(** Conditions on token counts read a variable, and guards call no function. *)
Lemma token_conditions_variable c cs : tokenConditions c = Some cs -> exists x m, m ∈ subnodes c /\ is_variable x m.
Proof.
  unfold tokenConditions. intros H. pose proof (flatten_nonempty (js "&&") c) as Hne.
  pose proof (flatten_sub c (js "&&")) as Hs.
  destruct (flattenBinary c (js "&&")) as [|part rest]; [done|]. specialize (Hs part ltac:(left)).
  cbn [map_option] in H. destruct (token_condition_of part) as [tc|] eqn:E; [|done].
  destruct part as [| | | | |s e o l r|]; try done. destruct l as [|s' e' x| | | | |]; try done.
  exists x, (NVariable s' e' x). split; [|by exists s', e'].
  eapply subnodes_trans; [exact Hs|]. eapply (subnodes_child _ (NVariable s' e' x)); [cbn; left|apply subnodes_self].
Qed.

Lemma guard_no_call c f m : isContextGuard c = true -> m ∈ subnodes c -> ~ is_call f m.
Proof.
  destruct c as [| | | | |s e o l r|]; try done. cbn [isContextGuard]. intros H. bools.
  rewrite subnodes_unfold. cbn [children map concat]. rewrite app_nil_r.
  intros [->|Hm]%elem_of_cons; [by intros (? & ? & ? & ?)|].
  assert (Hg : forall y, guard_side y = true -> m ∈ subnodes y -> ~ is_call f m).
  { intros y Hy Hin. destruct y; try done; rewrite subnodes_unfold in Hin; cbn in Hin;
      apply list_elem_of_singleton in Hin as ->; by intros (? & ? & ? & ?). }
  apply elem_of_app in Hm as [Hm|Hm]; [by apply (Hg l)|by apply (Hg r)].
Qed.

Lemma not_time_condition c : node_height c <= 257 ->
  (exists cs, tokenConditions c = Some cs) \/ isContextGuard c = true -> isTimeCondition c = Ok false.
Proof.
  intros Hh Hc. pose proof (isTimeCondition_total c Hh) as Ht. unfold isTimeCondition in *.
  destruct (expressionDependencies c) as [d|] eqn:E; [|done]. f_equal.
  apply expressionDependencies_spec in E as [Hv Hf]. destruct Hc as [[cs Hc]|Hc].
  - apply token_conditions_variable in Hc as (x & m & Hm). assert (Hx : x ∈ variables d) by (apply Hv; eauto).
    destruct (variables d); [by apply not_elem_of_nil in Hx|done].
  - assert (functions d = []) as ->; [|by rewrite andb_false_r].
    destruct (functions d) as [|f fs]; [done|]. destruct (proj1 (Hf f) ltac:(left)) as (m & Hm & Hcall).
    by destruct (guard_no_call c f m Hc Hm).
Qed.

Lemma token_table_not_timed comp n ts : node_height n <= 257 ->
  readTokenTierChain n = Ok (Some ts) -> timeTierBranches comp n [] = Ok None.
Proof.
  intros Hh Hr. assert (Hleaf : tier_leaf comp n [] = Ok None) by (unfold tier_leaf; by rewrite Hr).
  destruct n as [| | | | | |s e c y no]; try exact Hleaf. cbn [timeTierBranches].
  rewrite not_time_condition; [exact Hleaf| |].
  - assert (Hc : c ∈ children (NConditional s e c y no)) by (cbn; left). apply node_height_child in Hc. lia.
  - cbn [readTokenTierChain] in Hr. destruct (isContextGuard c) eqn:Eg; [by right|left].
    cbn [tier_chain] in Hr. destruct (tokenConditions c); [by eexists|done].
Qed.

(** * Reading a token table *)

Section Readers.
Context {P : Platform}.

Lemma table_read source c comp ts : truthy source = true -> compile_try source = Ok comp ->
  readTokenTierChain (c_ast comp) = Ok (Some ts) -> cache_ok c -> exists c',
  parseTiersFromExpr source c = (Ok (map mapPlainTier ts), c') /\ cache_ok c'.
Proof.
  intros Ht Hcomp Hr Hc. unfold parseTiersFromExpr. rewrite Ht. cbn [negb].
  pose proof (compile_ready source c comp Hcomp Hc) as H1. pose proof (compile_cached_ok source c Hc) as H2.
  destruct (compileBillingExpression source c) as [r c']. cbn [fst snd] in *. subst r. rewrite Hr. eauto.
Qed.

Lemma no_time_table source now c comp ts : compile_try source = Ok comp ->
  readTokenTierChain (c_ast comp) = Ok (Some ts) -> cache_ok c -> exists c',
  getCurrentTimePricingTiers source now c = (Ok None, c') /\ cache_ok c'.
Proof.
  intros Hcomp Hr Hc. unfold getCurrentTimePricingTiers, readTimeTokenPricing.
  pose proof (compile_ready source c comp Hcomp Hc) as H1. pose proof (compile_cached_ok source c Hc) as H2.
  destruct (compileBillingExpression source c) as [r c']. cbn [fst snd] in *. subst r.
  destruct (compiled_bounds _ _ Hcomp) as [_ Hh]. unfold time_pricing.
  rewrite (token_table_not_timed comp _ ts Hh Hr). eauto.
Qed.
End Readers.

(** * The entries of a tier *)

(** The key and the value of an entry. *)
Definition key_value (e : price_entry) : jsstr * number := (pe_key e, pe_value e).
Definition tier_prices (t : token_tier) : list (jsstr * number) :=
  match tt_fixedPrice t with Some a => [(js "fixed", a)] | None => tt_prices t end.

(** Prices by variable, in the order of the registry. *)
Definition listed (value : billing_var -> option number) (vars : list billing_var) : list (jsstr * number) :=
  flat_map (fun v => match value v with Some x => [(js (bv_key v), x)] | None => [] end) vars.

Lemma listed_none value vars k : k ∉ map (fun v => js (bv_key v)) vars -> own (listed value vars) k = None.
Proof.
  induction vars as [|v vars IH]; [done|]. cbn [map listed flat_map]. intros [Hk Hn]%not_elem_of_cons.
  unfold listed in IH. destruct (value v); cbn [app own]; [|by apply IH].
  rewrite (proj2 (str_eqb_neq k (js (bv_key v))) Hk). by apply IH.
Qed.
Lemma listed_own value vars v : NoDup (map (fun v => js (bv_key v)) vars) -> v ∈ vars ->
  own (listed value vars) (js (bv_key v)) = value v.
Proof.
  induction vars as [|w vars IH]; [by intros _ ?%not_elem_of_nil|]. cbn [map]. intros [Hw Hn]%list.NoDup_cons Hv.
  assert (Hrest : own (listed value (w :: vars)) (js (bv_key v)) =
    if str_eqb (js (bv_key v)) (js (bv_key w)) then match value w with Some x => Some x | None => own (listed value vars) (js (bv_key v)) end
    else own (listed value vars) (js (bv_key v))).
  { cbn [listed flat_map]. fold (listed value vars). destruct (value w); cbn [app own]; by case_match. }
  rewrite Hrest. apply elem_of_cons in Hv as [->|Hv].
  - rewrite str_eqb_refl. destruct (value w); [done|]. by apply listed_none.
  - rewrite (proj2 (str_eqb_neq _ _)); [by apply IH|]. intros E. apply Hw. rewrite <- E.
    apply list_elem_of_In, in_map_iff. exists v. split; [done|]. by apply list_elem_of_In.
Qed.

Lemma price_field_key v f k : v ∈ BILLING_PRICING_VARS -> bv_field v = Some f ->
  (price_field k = js f <-> k = js (bv_key v)).
Proof.
  intros Hv Hf. unfold price_field, BILLING_VAR_KEY_TO_FIELD. apply list_elem_of_In in Hv.
  unfold BILLING_PRICING_VARS, BILLING_VARS in *. cbn [List.filter negb bv_isConditionOnly In] in Hv.
  cbn [List.filter negb bv_isConditionOnly map bv_key bv_field field_key]. cbv [table_get].
  repeat match goal with
  | |- context [if str_eqb k (js ?t) then _ else _] =>
      destruct (str_eqb_reflect k (js t)) as [->|?]
  end;
  repeat (destruct Hv as [<-|Hv]; [cbn [bv_field bv_key] in *; injection Hf as <-;
    split; intros E; try done; try (by vm_compute in E)|]); destruct Hv.
Qed.

Lemma own_price_field (ps : list (jsstr * number)) v f : v ∈ BILLING_PRICING_VARS -> bv_field v = Some f ->
  own (map (fun e => (price_field e.1, e.2)) ps) (js f) = own ps (js (bv_key v)).
Proof.
  intros Hv Hf. induction ps as [|[k x] ps IH]; [done|]. cbn [map own fst snd].
  destruct (str_eqb_reflect (js f) (price_field k)) as [E|E].
  - symmetry in E. apply (price_field_key v f k Hv Hf) in E as ->. by rewrite str_eqb_refl.
  - rewrite (proj2 (str_eqb_neq _ _)); [done|]. intros E'. apply E. symmetry. by apply (price_field_key v f k Hv Hf).
Qed.

Lemma pricing_keys_distinct : NoDup (map (fun v => js (bv_key v)) BILLING_PRICING_VARS).
Proof. apply (bool_decide_unpack _). vm_compute. exact I. Qed.

(** Whether the field of a variable is one of the primary ones. *)
Definition primary_var (v : billing_var) : bool := is_primary (js (field_key (bv_field v))).
Definition vars_ordered (vars : list billing_var) : Prop :=
  StronglySorted (fun v w => primary_var w = true -> primary_var v = true) vars.
Lemma pricing_vars_ordered : vars_ordered BILLING_PRICING_VARS.
Proof. repeat constructor; vm_compute; done. Qed.

Section Entries.
Context {I : Intl} (store : option stored_currency).

Lemma variable_entry_field fields o v e : e ∈ variable_entry store fields o v ->
  is_primary (pe_field e) = primary_var v.
Proof.
  unfold variable_entry, primary_var. destruct (bv_field v) as [f|]; [|by intros ?%not_elem_of_nil].
  destruct (shown_price _ _); [|by intros ?%not_elem_of_nil]. by intros ->%list_elem_of_singleton.
Qed.

Lemma variable_entry_single fields o v : variable_entry store fields o v = [] \/ exists e, variable_entry store fields o v = [e].
Proof.
  unfold variable_entry. destruct (bv_field v); [|by left]. destruct (shown_price _ _); [right; by eexists|by left].
Qed.

(** The variables are registered with the primary ones first: nothing has to move. *)
Lemma entries_sorted fields o vars : vars_ordered vars ->
  sort_by primary_first (flat_map (variable_entry store fields o) vars) = flat_map (variable_entry store fields o) vars.
Proof.
  intros Hv. apply sort_by_id. induction Hv as [|v vars Hvars IH Hv]; cbn [flat_map]; [constructor|].
  destruct (variable_entry_single fields o v) as [E|[e E]]; rewrite E; [done|]. cbn [app]. constructor; [done|].
  apply Forall_elem. intros e' He'. apply list_elem_of_In, in_flat_map in He' as (w & Hw & He').
  apply list_elem_of_In, variable_entry_field in He'.
  assert (He : is_primary (pe_field e) = primary_var v) by (eapply variable_entry_field; rewrite E; left).
  rewrite Forall_elem in Hv. apply list_elem_of_In in Hw. specialize (Hv w Hw). unfold primary_first. rewrite He, He'.
  destruct (primary_var w), (primary_var v); try done. by specialize (Hv eq_refl).
Qed.

(** The prices of a tier, in the order of the registry, are its entries. *)
Lemma entries_listed ps o value : ps = listed value BILLING_PRICING_VARS ->
  Forall (fun e => is_finite e.2 = true /\ num_leb num_zero e.2 = true) ps ->
  map key_value (variable_entries store (map (fun e => (price_field e.1, e.2)) ps) o) = ps.
Proof.
  intros Eps Hok. unfold variable_entries. rewrite entries_sorted by apply pricing_vars_ordered.
  assert (H : forall vars, (forall v, v ∈ vars -> v ∈ BILLING_PRICING_VARS) ->
    map key_value (flat_map (variable_entry store (map (fun e => (price_field e.1, e.2)) ps) o) vars) = listed value vars).
  { induction vars as [|v vars IH]; intros Hin; [done|]. cbn [flat_map listed]. rewrite map_app, IH by (intros w Hw; apply Hin; by right).
    fold (listed value vars). f_equal. specialize (Hin v ltac:(left)). unfold variable_entry.
    assert (Hf : exists f, bv_field v = Some f).
    { apply list_elem_of_In in Hin. cbn in Hin. repeat (destruct Hin as [<-|Hin]; [by eexists|]). destruct Hin. }
    destruct Hf as [f Hf]. rewrite Hf. unfold shown_price. rewrite (own_price_field ps v f Hin Hf).
    assert (Ho : own ps (js (bv_key v)) = value v) by (rewrite Eps; by apply listed_own, Hin; apply pricing_keys_distinct).
    rewrite Ho. destruct (value v) as [x|] eqn:Ex; [|done].
    apply own_In in Ho. rewrite Forall_elem in Hok. destruct (Hok _ Ho) as [H1 H2]. cbn [snd] in *.
    by rewrite H1, (nonnegative_not_below _ H2). }
  rewrite H by done. by symmetry.
Qed.

Definition good_tier (t : token_tier) : Prop :=
  (tt_unit t = Some URequest /\ is_some (tt_fixedPrice t) = true) \/
  (tt_unit t = None /\ tt_fixedPrice t = None /\ exists value, tt_prices t = listed value BILLING_PRICING_VARS /\
     Forall (fun e => is_finite e.2 = true /\ num_leb num_zero e.2 = true) (tt_prices t)).

(** The row of a tier. *)
Definition row (t : token_tier) : breakdown_tier := TokenRow (mapPlainTier t).

Lemma row_entries t o : good_tier t ->
  map key_value (getDynamicPriceEntries (C := unit_collation) store (Some (row t)) o) = tier_prices t.
Proof.
  intros [[Hu Hf]|(Hu & Hf & value & Hp & Hok)]; unfold row, mapPlainTier, mapTokenTier, tier_prices;
    cbn [getDynamicPriceEntries pt_billingUnit pt_fixedPrice pt_fields]; rewrite Hu.
  - rewrite bool_decide_true by done. by destruct (tt_fixedPrice t).
  - rewrite bool_decide_false by done. rewrite Hf. by apply (entries_listed _ o value).
Qed.
End Entries.

(** * Tiers of the editor *)

Definition tier_value (tier : visual_tier) (v : billing_var) : option number :=
  let cost := unit_cost tier (field_key (bv_tierField v)) in
  if bv_isBase v then Some cost else if num_eqb cost num_zero then None else Some cost.

Lemma extra_listed tier vars : Forall (fun v => bv_isBase v = false) vars ->
  map (fun cv => (js cv.2, unit_cost tier cv.1))
    (List.filter (fun cv => negb (num_eqb (unit_cost tier cv.1) num_zero))
       (map (fun v => (field_key (bv_tierField v), bv_key v)) vars)) = listed (tier_value tier) vars.
Proof.
  induction 1 as [|v vars Hb _ IH]; [done|]. cbn [map List.filter listed flat_map fst snd]. fold (listed (tier_value tier) vars).
  unfold tier_value at 1. rewrite Hb. rewrite <- IH. by destruct (num_eqb _ num_zero).
Qed.

Lemma price_terms_listed tier :
  map (fun t => (js t.1, t.2)) (price_terms tier) = listed (tier_value tier) BILLING_PRICING_VARS.
Proof.
  unfold price_terms. cbn [map fst snd]. rewrite map_map. cbn [fst snd]. unfold BILLING_CACHE_VAR_MAP.
  rewrite extra_listed by (repeat constructor). done.
Qed.

Lemma config_tier_good cs fb tier t : config_tier cs fb tier = Some t -> good_tier t.
Proof.
  unfold config_tier. destruct (negb _); [done|]. destruct (is_request tier).
  - destruct (reads_number _) as [v|]; [|done]. destruct (is_finite _); [|done]. intros [= <-]. by left.
  - pose proof (price_terms_listed tier) as Hl. revert Hl. generalize (price_terms tier) as terms. intros terms Hl.
    destruct (forallb _ _) eqn:E; [|done]. intros [= <-]. right. cbn [tt_unit tt_fixedPrice tt_prices].
    split_and!; [done|done|]. exists (tier_value tier). split; [done|].
    apply Forall_map, List.Forall_forall. intros x Hx. rewrite forallb_forall in E. specialize (E x Hx). cbn [snd].
    apply andb_true_iff in E as [E ?]. split; [|done]. revert E. unfold number_reads.
    destruct (scan_number _) as [[n w]|]; [|done]. intros E. by bools.
Qed.

Lemma config_chain_good tiers : forall i ts, config_chain i tiers = Some ts -> Forall good_tier ts.
Proof.
  induction tiers as [|t tiers IH]; intros i ts H; [done|]. cbn [config_chain] in H. destruct tiers as [|t' rest].
  - destruct (config_tier _ _ _) as [x|] eqn:E; [|done]. injection H as <-. constructor; [by eapply config_tier_good|constructor].
  - destruct (conditions_of _) as [[|? ?]|]; [done| |done]. destruct (config_tier _ _ _) as [x|] eqn:E; [|done].
    destruct (config_chain (S i) (t' :: rest)) as [xs|] eqn:Ec; [|done]. injection H as <-.
    constructor; [by eapply config_tier_good|by eapply IH].
Qed.

Lemma configured_good cfg ts : configured cfg = Some ts -> Forall good_tier ts /\ ts <> [].
Proof.
  intros H. split.
  - unfold configured in H. destruct cfg as [|t [|t' rest]]; [done| |by eapply config_chain_good].
    destruct (conditions_of _) as [[|? ?]|]; try done. destruct (config_tier _ _ _) as [x|] eqn:E; [|done].
    injection H as <-. constructor; [by eapply config_tier_good|constructor].
  - intros ->. unfold configured in H. destruct cfg as [|t [|t' rest]]; [done| |].
    + destruct (conditions_of _) as [[|? ?]|]; try done. by destruct (config_tier _ _ _).
    + cbn [config_chain] in H. destruct (conditions_of _) as [[|? ?]|]; try done. destruct (config_tier _ _ _); [|done].
      by destruct (match rest with [] => _ | _ => _ end).
Qed.

(** * A generated price and its rules *)

(** Texts whose quotes and parentheses are closed within them. *)
Inductive balanced : jsstr -> Prop :=
| balanced_nil : balanced []
| balanced_quiet c : negb (is_quote c) && negb (opens c) && negb (closes c) = true -> balanced [c]
| balanced_quoted w : Forall (fun c => c <> QUOTE /\ c <> BACKSLASH) w -> balanced ([QUOTE] ++ w ++ [QUOTE])
| balanced_paren s : balanced s -> balanced ([LPAREN] ++ s ++ [RPAREN])
| balanced_app s t : balanced s -> balanced t -> balanced (s ++ t).

Lemma balanced_chars s :
  forallb (fun c => negb (is_quote c) && negb (opens c) && negb (closes c)) s = true -> balanced s.
Proof.
  induction s as [|c s IH]; [constructor|]. cbn [forallb]. intros [Hc Hs]%andb_true_iff.
  apply (balanced_app [c]); [by constructor|auto].
Qed.

Lemma balanced_join sep ps : balanced sep -> Forall balanced ps -> balanced (join sep ps).
Proof.
  intros Hs. induction 1 as [|p ps Hp Hps IH]; [constructor|]. destruct ps; [done|].
  cbn [join]. apply balanced_app; [done|]. by apply balanced_app.
Qed.

(** Within brackets nothing in them ends a part. *)
Lemma balanced_neutral op s : operator_head op = true -> balanced s -> forall d, (1 <= d)%Z -> neutral op d s.
Proof.
  intros Ho. induction 1 as [|c Hc|w Hw|s _ IH|s t _ IHs _ IHt]; intros d Hd.
  - apply neutral_nil.
  - apply neutral_calm. cbn [forallb]. unfold calm. rewrite Hc, (proj2 (Z.eqb_neq d 0)) by lia. done.
  - by apply neutral_quoted.
  - apply neutral_paren; [done|lia|]. apply IH. lia.
  - apply neutral_app; auto.
Qed.

(** The loop that looks for the closing parenthesis passes over it. *)
Lemma balanced_closes s : balanced s -> forall f e i d rest, (1 <= d)%Z -> drop i e = s ++ rest ->
  closes_at_end (length s + f) e i d None = closes_at_end f e (i + length s) d None.
Proof.
  induction 1 as [|c Hc|w Hw|s _ IH|s t _ IHs _ IHt]; intros f e i d rest Hd He.
  - by rewrite Nat.add_0_r.
  - apply drop_head in He as [He _]. apply andb_true_iff in Hc as [[Hq Ho]%andb_true_iff Hc].
    apply negb_true_iff in Hq, Ho, Hc. cbn [length Nat.add closes_at_end]. rewrite He, Hq.
    assert (Hp : paren_depth c d = d).
    { unfold paren_depth, LPAREN, RPAREN. unfold opens, closes in Ho, Hc.
      apply orb_false_iff in Ho as [[-> _]%orb_false_iff _]. by apply orb_false_iff in Hc as [[-> _]%orb_false_iff _]. }
    rewrite Hp, (proj2 (Z.eqb_neq d 0)) by lia. done.
  - destruct (drop_head _ _ _ _ He) as [E He']. cbn [app length Nat.add closes_at_end]. rewrite E.
    change (is_quote QUOTE) with true. cbv iota. replace (i + S (length (w ++ [QUOTE]))) with ((i + 1) + length (w ++ [QUOTE])) by lia.
    change (drop (i + 1) e = (w ++ [QUOTE]) ++ rest) in He'. revert He'. generalize (i + 1). clear E He i.
    induction Hw as [|c w [Hq Hb] _ IH]; intros i He; destruct (drop_head _ _ _ _ He) as [E He'];
      cbn [app length Nat.add closes_at_end]; rewrite E.
    + change (QUOTE =? BACKSLASH)%Z with false. change (QUOTE =? QUOTE)%Z with true. done.
    + rewrite (proj2 (Z.eqb_neq _ _) Hq), (proj2 (Z.eqb_neq _ _) Hb). rewrite IH by done.
      f_equal. lia.
  - destruct (drop_head _ _ _ _ He) as [E He'].
    change (drop (i + 1) e = (s ++ [RPAREN]) ++ rest) in He'. rewrite <- app_assoc in He'. cbn [app length Nat.add closes_at_end].
    rewrite E. change (is_quote LPAREN) with false. change (paren_depth LPAREN d) with (d + 1)%Z. cbv iota zeta.
    rewrite (proj2 (Z.eqb_neq (d + 1) 0)) by lia. rewrite length_app, <- Nat.add_assoc.
    rewrite (IH _ _ _ _ ([RPAREN] ++ rest)) by (done || lia). cbn [length Nat.add closes_at_end].
    assert (Er : drop (i + 1 + length s) e = RPAREN :: rest) by (etransitivity; [symmetry; apply drop_drop|]; rewrite He'; apply drop_app_length).
    apply drop_head in Er as [-> _]. change (is_quote RPAREN) with false.
    change (paren_depth RPAREN (d + 1)) with (d + 1 - 1)%Z. cbv iota zeta.
    rewrite (proj2 (Z.eqb_neq (d + 1 - 1) 0)) by lia. f_equal; lia.
  - rewrite <- app_assoc in He. rewrite length_app, <- Nat.add_assoc, (IHs _ _ _ _ (t ++ rest)) by done.
    rewrite (IHt _ _ _ _ rest); [f_equal; lia|done|]. etransitivity; [symmetry; apply drop_drop|]. rewrite He. apply drop_app_length.
Qed.

Lemma balanced_wrapped s : balanced s -> wrapped ([LPAREN] ++ s ++ [RPAREN]) = true.
Proof.
  intros Hs. unfold wrapped.
  replace (starts_with [RPAREN] (rev ([LPAREN] ++ s ++ [RPAREN]))) with true
    by (by rewrite !rev_app_distr).
  change (starts_with [LPAREN] ([LPAREN] ++ s ++ [RPAREN])) with true. cbn [andb].
  set (e := [LPAREN] ++ s ++ [RPAREN]).
  assert (Hl : length e = S (length s + 1)) by (unfold e; cbn; by rewrite length_app).
  replace (S (length e)) with (S (length s + 2)) by lia. cbn [closes_at_end]. change (e !! 0) with (Some LPAREN). change (is_quote LPAREN) with false.
  change (paren_depth LPAREN 0) with 1%Z. cbv iota zeta. change (1 =? 0)%Z with false. cbv iota.
  rewrite (balanced_closes s Hs _ e _ _ [RPAREN]) by (done || lia). cbn [Nat.add closes_at_end]. change (0 + 1 + length s) with (S (length s)).
  assert (E : e !! S (length s) = Some RPAREN) by (change (e !! S (length s)) with ((s ++ [RPAREN]) !! length s); by rewrite list_lookup_middle).
  rewrite E. change (is_quote RPAREN) with false. change (paren_depth RPAREN 1) with 0%Z. cbv iota zeta.
  change (0 =? 0)%Z with true. cbv iota. rewrite Hl. apply Nat.eqb_eq. lia.
Qed.

(** A price that starts with a name and ends with a call is told apart from the rules next to it. *)
Lemma balanced_separable s : balanced (s ++ [RPAREN]) ->
  plain_start (s ++ [RPAREN]) = true -> starts_with [LPAREN] (s ++ [RPAREN]) = false -> separable (s ++ [RPAREN]) = true.
Proof.
  intros Hb Hs Hp. set (base := s ++ [RPAREN]) in *.
  assert (Ht : tight base).
  { split; [|unfold base; by rewrite rev_app_distr]. destruct base as [|c l]; [done|]. cbn in Hs |- *.
    by destruct (is_space c). }
  destruct (tight_trim _ Ht) as [Htrim Htr]. unfold separable. cbv zeta. rewrite Htrim, Htr, str_eqb_refl.
  assert (Hw : wrapped base = false) by (unfold wrapped; by rewrite Hp).
  rewrite Hw, balanced_wrapped by done. cbn [andb negb].
  assert (Hn : neutral (js "*") 0 ([LPAREN] ++ base ++ [RPAREN])).
  { apply neutral_paren; [done|lia|]. by apply balanced_neutral. }
  rewrite (Hn []). unfold tryParseRequestRuleExpr. pose proof (paren_tight base) as Hpt.
  destruct (tight_trim _ Hpt) as [-> ->]. unfold splitTopLevelMultiply.
  pose proof (split_join_pieces (js "*") _ [] eq_refl (Forall_cons_2 _ _ _ Hn (Forall_nil_2 _))
    (Forall_cons_2 _ _ _ (tight_trim _ Hpt) (Forall_nil_2 _))) as Es.
  cbn [join] in Es. rewrite Es. cbn [parse_factors]. unfold tryParseRuleGroupFactor, match_factor.
  change ([LPAREN] ++ base ++ [RPAREN]) with (LPAREN :: base ++ [RPAREN]). cbn [strip].
  change (LPAREN =? LPAREN)%Z with true. cbv iota. unfold base. rewrite !rev_app_distr. done.
Qed.

Lemma number_balanced t v : number_reads t v = true -> balanced t.
Proof.
  intros H%number_reads_chars. apply balanced_chars, forallb_forall. rewrite <- List.Forall_forall.
  eapply Forall_impl; [|exact H]. intros c Hc. unfold is_number_char, is_digit in Hc.
  unfold is_quote, opens, closes, QUOTE, APOS. rewrite !andb_true_iff, !negb_true_iff, !orb_false_iff, !Z.eqb_neq.
  repeat (apply orb_true_iff in Hc as [Hc|Hc]); bools; lia.
Qed.

Lemma reads_balanced t v : reads_number t = Some v -> balanced t.
Proof. intros [H _]%reads_number_inv. by eapply number_balanced. Qed.

(** The call of a tier, up to its last parenthesis. *)
Lemma tier_call_balanced cs fb tier t : config_tier cs fb tier = Some t ->
  exists inner, tier_call tier fb = js "tier" ++ [LPAREN] ++ inner ++ [RPAREN] /\ balanced inner.
Proof.
  unfold config_tier. destruct (plain_label (label_or tier fb)) eqn:El; [|done]. cbn [negb].
  set (label := label_or tier fb) in *. intros H. exists (([QUOTE] ++ label ++ [QUOTE]) ++ js ", " ++ buildTierBodyExpr tier).
  split; [unfold tier_call; fold label; by rewrite <- !app_assoc|].
  apply balanced_app.
  { apply balanced_quoted. unfold plain_label in El. rewrite forallb_forall, <- List.Forall_forall in El.
    eapply Forall_impl; [|exact El]. intros c Hc. apply negb_true_iff in Hc. rewrite !orb_false_iff, !Z.eqb_neq in Hc. tauto. }
  apply balanced_app; [by apply balanced_chars|]. destruct (is_request tier) eqn:Er.
  - destruct (reads_number (fixed_text tier)) as [v|] eqn:Ev; [|done].
    assert (Eb : buildTierBodyExpr tier = js "fixed" ++ [LPAREN] ++ fixed_text tier ++ [RPAREN]).
    { unfold buildTierBodyExpr. unfold is_request in Er. by rewrite Er. }
    rewrite Eb. apply balanced_app; [by apply balanced_chars|]. apply balanced_paren. by eapply reads_balanced.
  - destruct (forallb _ (price_terms tier)) eqn:Ep; [|done]. rewrite body_text by done. rewrite forallb_forall in Ep.
    apply balanced_join; [by apply balanced_chars|]. apply Forall_map, List.Forall_forall.
    intros [x v] Hx. pose proof (Ep _ Hx) as Ev. apply andb_true_iff in Ev as [Ev _]. unfold cost_term. cbn [fst snd] in *.
    apply balanced_app; [|apply balanced_app; [by apply balanced_chars|by eapply number_balanced]].
    apply balanced_chars. destruct Hx as [[= <- _]|[[= <- _]|Hx]]; [done..|].
    apply in_map_iff in Hx as (cv & [= <- _] & Hcv). apply filter_In in Hcv as [Hcv _].
    repeat (destruct Hcv as [<-|Hcv]; [done|]). destruct Hcv.
Qed.

Lemma conditions_balanced inputs cs : conditions_of inputs = Some cs ->
  balanced (buildConditionStr inputs) /\ neutral (js "*") 0 (buildConditionStr inputs).
Proof.
  unfold conditions_of, buildConditionStr. destruct inputs as [l|]; [|intros _; split; [constructor|apply neutral_nil]].
  intros H. destruct l as [|c0 l0]; [split; [constructor|apply neutral_nil]|].
  assert (Hall : Forall (fun c => balanced (condition_str c) /\ neutral (js "*") 0 (condition_str c))
    (List.filter condition_present (c0 :: l0))).
  { revert cs H. induction (List.filter condition_present (c0 :: l0)) as [|c l IH]; intros cs H; [constructor|].
    cbn [map_option] in H. destruct (condition_of c) as [tc|] eqn:Ec; [|done].
    destruct (map_option condition_of l) as [tcs|]; [|done]. constructor; [|by eapply IH].
    unfold condition_of in Ec. destruct (one_of (ci_var c) _) eqn:Ev; [|done]. destruct (one_of (ci_op c) _) eqn:Eo; [|done].
    cbn [andb] in Ec. destruct (reads_number _) as [v|] eqn:En; [|done]. unfold condition_str.
    assert (Hh : forallb (calm (js "*") 0) (ci_var c ++ js " " ++ ci_op c ++ js " ") = true).
    { apply one_of_In in Ev as (x & Hx & ->). apply one_of_In in Eo as (o & Ho & ->).
      destruct Hx as [<-|[<-|[<-|[]]]], Ho as [<-|[<-|[<-|[<-|[]]]]]; done. }
    replace (ci_var c ++ js " " ++ ci_op c ++ js " " ++ to_text (ci_value c)) with
      ((ci_var c ++ js " " ++ ci_op c ++ js " ") ++ to_text (ci_value c)) by (by rewrite <- !app_assoc). split.
    - apply balanced_app; [|by eapply reads_balanced]. apply balanced_chars. apply forallb_forall. intros z Hz.
      rewrite forallb_forall in Hh. specialize (Hh z Hz). unfold calm in Hh. by apply andb_true_iff in Hh as [Hh _].
    - apply neutral_app; [by apply neutral_calm|]. apply reads_number_inv in En as [En _].
      apply neutral_number; [by split; [right|]|by eapply number_reads_chars]. }
  split.
  - apply balanced_join; [by apply balanced_chars|]. apply Forall_map. eapply Forall_impl; [|exact Hall]. by intros c [? _].
  - apply neutral_join; [by apply neutral_calm|]. apply Forall_map. eapply Forall_impl; [|exact Hall]. by intros c [_ ?].
Qed.

Lemma conditions_head inputs cs : conditions_of inputs = Some cs -> cs <> [] ->
  exists c s, buildConditionStr inputs = c :: s /\ (c =? LPAREN)%Z = false.
Proof.
  unfold conditions_of, buildConditionStr. destruct inputs as [l|]; [|by intros [= <-]].
  intros H Hne. destruct (List.filter condition_present l) as [|c l'] eqn:El; [simpl in H; by injection H as <-|].
  destruct l as [|c0 l]; [done|].
  assert (Hc : exists x s, condition_str c = x :: s /\ (x =? LPAREN)%Z = false).
  { simpl in H. unfold condition_of in H. destruct (one_of (ci_var c) _) eqn:Ev; [|done]. unfold condition_str.
    apply one_of_In in Ev as (x & Hx & ->). destruct Hx as [<-|[<-|[<-|[]]]]; by do 2 eexists. }
  destruct Hc as (x & s & Ex & Hx). cbn [map join]. rewrite Ex. destruct (map condition_str l'); by do 2 eexists.
Qed.

(** What a generated text is made of: it is balanced, ends with a call, and starts with that call or with
    conditions before a question mark. *)
Definition call_at_end (text : jsstr) : Prop := balanced text /\ exists s, text = s ++ [RPAREN].

Lemma tier_call_at_end cs fb tier t : config_tier cs fb tier = Some t -> call_at_end (tier_call tier fb).
Proof.
  intros (inner & -> & Hb)%tier_call_balanced. split.
  - apply balanced_app; [by apply balanced_chars|by apply balanced_paren].
  - exists (js "tier" ++ [LPAREN] ++ inner). by rewrite <- !app_assoc.
Qed.

Lemma chain_at_end tiers : forall i ts, config_chain i tiers = Some ts ->
  call_at_end (join (js " : ") (tier_parts i tiers)).
Proof.
  induction tiers as [|tier rest IH]; intros i ts H; [done|]. cbn [config_chain] in H.
  set (fb := js "tier_" ++ string_of_Z (Z.of_nat (S i))) in *. destruct rest as [|tier' rest].
  - destruct (config_tier [] fb tier) as [t|] eqn:Et; [|done]. by eapply tier_call_at_end.
  - destruct (conditions_of (vt_conditions tier)) as [[|c cs]|] eqn:Ec; try done.
    destruct (config_tier (c :: cs) fb tier) as [t|] eqn:Et; [|done].
    destruct (config_chain (S i) (tier' :: rest)) as [ts'|] eqn:Es; [|done].
    destruct (IH _ _ Es) as [Hb [s Hs]]. apply tier_call_at_end in Et as [Ht _].
    destruct (conditions_balanced _ _ Ec) as [Hcb _]. destruct (conditions_head _ _ Ec ltac:(done)) as (x & u & Ex & _).
    change (tier_parts i (tier :: tier' :: rest)) with
      ((if truthy (buildConditionStr (vt_conditions tier))
        then buildConditionStr (vt_conditions tier) ++ js " ? " ++ tier_call tier fb
        else tier_call tier fb) :: tier_parts (S i) (tier' :: rest)).
    rewrite Ex. cbn [truthy]. rewrite <- Ex. remember (tier_parts (S i) (tier' :: rest)) as parts.
    destruct parts as [|p parts]; [done|].
    change (join (js " : ") (?a :: p :: parts)) with (a ++ js " : " ++ join (js " : ") (p :: parts)). split.
    + apply balanced_app; [|apply balanced_app; [by apply balanced_chars|done]].
      apply balanced_app; [done|]. apply balanced_app; [by apply balanced_chars|done].
    + rewrite Hs. eexists. by rewrite !app_assoc.
Qed.

(** The generated text is one price without rules, and rules put next to it are told apart from it again. *)
Lemma generated_separable cfg ts : configured cfg = Some ts ->
  let base := generateExprFromVisualConfig (Some cfg) in
  separable base = true /\ splitBillingExprAndRequestRules base = Ok (base, []).
Proof.
  intros H base. pose proof (generated_start cfg ts H) as Hstart. fold base in Hstart.
  assert (Hshape : call_at_end base /\ starts_with [LPAREN] base = false /\
    (neutral (js "*") 0 base \/ exists p r, base = p ++ QUESTION :: r /\ neutral (js "*") 0 p)).
  { unfold base. clear base Hstart. destruct cfg as [|tier [|tier' rest]]; [done| |].
    - unfold configured in H. destruct (conditions_of (vt_conditions tier)) as [[|c cs]|] eqn:Ec; try done.
      destruct (config_tier [] (js "default") tier) as [t|] eqn:Et; [|done].
      cbn [generateExprFromVisualConfig]. rewrite (no_conditions tier Ec). cbn [truthy].
      split; [by eapply tier_call_at_end|]. split; [done|]. left.
      apply tier_call_balanced in Et as (inner & -> & Hb). apply neutral_app; [by apply neutral_calm|].
      apply neutral_paren; [done|lia|]. by apply balanced_neutral.
    - pose proof (chain_at_end _ _ _ H) as Hend. split; [exact Hend|]. unfold configured in H. cbn [config_chain] in H.
      destruct (conditions_of (vt_conditions tier)) as [[|c cs]|] eqn:Ec; try done.
      destruct (conditions_balanced _ _ Ec) as [_ Hn]. destruct (conditions_head _ _ Ec ltac:(done)) as (x & u & Ex & Hx).
      assert (Et : exists r, generateExprFromVisualConfig (Some (tier :: tier' :: rest)) =
        (buildConditionStr (vt_conditions tier) ++ [32%Z]) ++ QUESTION :: r).
      { cbn [generateExprFromVisualConfig tier_parts negb andb join]. rewrite Ex. cbn [truthy]. eexists.
        rewrite <- !app_assoc. reflexivity. }
      destruct Et as [r Et]. rewrite Et. split; [rewrite Ex; cbn [app starts_with]; by rewrite Z.eqb_sym, Hx|]. right.
      do 2 eexists. split; [reflexivity|]. apply neutral_app; [done|]. by apply neutral_calm. }
  clearbody base. destruct Hshape as ([Hb [s ->]] & Hp & Hn).
  pose proof (balanced_separable s Hb Hstart Hp) as Hsep. split; [done|]. clear Hp.
  assert (Ht : tight (s ++ [RPAREN])).
  { split; [|by rewrite rev_app_distr]. destruct (s ++ [RPAREN]) as [|c l]; [done|]. cbn in Hstart |- *.
    by destruct (is_space c). }
  apply no_rules; [done|]. destruct Hn as [Hn|(p & r & E & Hn)].
  - apply (split_join_pieces (js "*") (s ++ [RPAREN]) []); [done|by repeat constructor|].
    constructor; [by apply tight_trim|constructor].
  - destruct (tight_trim _ Ht) as [Htr _]. rewrite <- Htr at 2. rewrite E. by apply split_question.
Qed.

(** A price with its rules as the editor writes them is split into the two. *)
Lemma generated_split cfg ts groups : configured cfg = Some ts -> forallb canonical_group groups = true ->
  let base := generateExprFromVisualConfig (Some cfg) in
  splitBillingExprAndRequestRules (combineBillingExpr base (buildRequestRuleExpr groups)) =
  Ok (base, buildRequestRuleExpr groups).
Proof.
  intros H Hg base. destruct (generated_separable cfg ts H) as [Hsep Hsplit]. fold base in Hsep, Hsplit.
  destruct groups as [|g groups]; [|by apply combine_split_roundtrip].
  assert (Hc : combineBillingExpr base (buildRequestRuleExpr []) = base).
  { unfold separable in Hsep. cbv zeta in Hsep. do 4 (apply andb_true_iff in Hsep as [Hsep _]).
    apply andb_true_iff in Hsep as [Htr Ht]. apply str_eqb_eq in Ht. unfold combineBillingExpr. by rewrite Ht, Htr. }
  rewrite Hc. exact Hsplit.
Qed.

(** * The summary of a model *)

Definition token_billed (t : token_tier) : bool := negb (bool_decide (tt_unit t = Some URequest)).
Definition request_billed (t : token_tier) : bool := bool_decide (tt_unit t = Some URequest).

(** The tiers whose prices are shown: the first one, or the first of each kind when both
    kinds are there. *)
Definition shown_tiers (ts : list token_tier) : list token_tier * bool :=
  match find token_billed ts, find request_billed ts with
  | Some a, Some b => ([a; b], true)
  | _, _ => (take 1 ts, false)
  end.

Lemma find_row p q ts : (forall t, p (row t) = q t) -> find p (map row ts) = option_map row (find q ts).
Proof. intros H. induction ts as [|t ts IH]; [done|]. cbn [map find]. rewrite H. by destruct (q t). Qed.
Lemma row_token t : is_token_row (row t) = token_billed t.
Proof. unfold row, is_token_row, token_billed. cbn. by destruct (bool_decide (tt_unit t = Some URequest)) eqn:E; bools; [rewrite E|]. Qed.
Lemma row_request t : is_request_row (row t) = request_billed t.
Proof. unfold row, is_request_row, request_billed. cbn. by destruct (bool_decide (tt_unit t = Some URequest)) eqn:E; bools; [rewrite E|]. Qed.

Lemma find_good {A} (Q : A -> Prop) p l x : Forall Q l -> find p l = Some x -> Q x.
Proof. intros HF H. apply find_some in H as [H _]. rewrite List.Forall_forall in HF. by apply HF. Qed.

(** Two complementary filters share out a list. *)
Lemma filter_shared {A} (p q : A -> bool) l : (forall x, q x = negb (p x)) ->
  Permutation (List.filter p l ++ List.filter q l) l.
Proof.
  intros H. induction l as [|x l IH]; [done|]. cbn [List.filter]. rewrite H.
  destruct (p x); cbn [negb app]; [by rewrite IH|]. by rewrite <- Permutation_middle, IH.
Qed.

Section Summary.
Context {P : Platform} {C : Collation} {I : Intl} (store : option stored_currency).

Lemma entries_any_collation t o :
  getDynamicPriceEntries store (Some (row t)) o = getDynamicPriceEntries (C := unit_collation) store (Some (row t)) o.
Proof. done. Qed.

Lemma table_entries ts schema o : Forall good_tier ts ->
  let '(entries, mixed) := summary_entries store false (map row ts) (head (map row ts)) schema o in
  map key_value entries = concat (map tier_prices (shown_tiers ts).1) /\ mixed = (shown_tiers ts).2.
Proof.
  intros Hg. unfold summary_entries, shown_tiers.
  rewrite (find_row _ token_billed ts row_token), (find_row _ request_billed ts row_request).
  destruct (find token_billed ts) as [a|] eqn:Ea; [destruct (find request_billed ts) as [b|] eqn:Eb|];
    cbn [option_map fst snd map concat]; (split; [|done]).
  - rewrite map_app, !entries_any_collation, !row_entries by (by eapply find_good). by rewrite app_nil_r.
  - destruct Hg as [|t ts' Ht _]; [done|]. cbn [map head take concat]. rewrite app_nil_r, entries_any_collation.
    rewrite <- (row_entries store t (with_schema o schema)) by done. done.
  - destruct Hg as [|t ts' Ht _]; [done|]. cbn [map head take concat]. rewrite app_nil_r, entries_any_collation.
    rewrite <- (row_entries store t (with_schema o schema)) by done. done.
Qed.

(** C6. The catalogue shows the prices of the tier editor: for a model without a usage schema whose expression
    is the text generated for a configuration, combined with the text of any list of rules that the rule
    editor reads back (possibly none), the summary succeeds, lists the tiers in order, says whether there are
    rules, and its entries are the prices of the first tier, or of the first tier by tokens and of the first
    by request when there are both, in order; the primary and the secondary entries share them out.  The
    configurations are those of [configured]: a single tier without condition, or tiers of which all but the last
    have a condition on the input, output or length with a bound that reads as a number; labels without
    quotes, backslashes and line breaks; costs written as non-negative numbers and fixed prices that stay
    finite in millionths; at most 120 tiers with at most 100 conditions each, and a text below the limit on tokens. *)
Theorem catalogue_shows_editor_prices cfg ts model o new_Date c groups :
  let base := generateExprFromVisualConfig (Some cfg) in
  configured cfg = Some ts -> Forall few_conditions cfg -> length cfg <= 120 -> length base < MAX_TOKENS ->
  pm_billing_mode model = Some (js "tiered_expr") -> hasTaskUsageSchema model = false ->
  expression_of model = combineBillingExpr base (buildRequestRuleExpr groups) ->
  forallb canonical_group groups = true -> cache_ok c ->
  exists s, (getDynamicPricingSummary store model o new_Date c).1 = Ok (Some s) /\
    ps_tiers s = map row ts /\ ps_tierCount s = length ts /\
    ps_hasRequestRules s = match groups with _ :: _ => true | [] => false end /\
    ps_isSpecialExpression s = false /\ ps_isTimePricing s = false /\ ps_isTaskUsage s = false /\
    ps_isMixedBilling s = (shown_tiers ts).2 /\
    map key_value (ps_entries s) = concat (map tier_prices (shown_tiers ts).1) /\
    Permutation (ps_primaryEntries s ++ ps_secondaryEntries s) (ps_entries s).
Proof.
  intros base Hcfg Hfew Hlen Hsize Hmode Htask Hexp Hgroups Hc.
  pose proof (generated_split cfg ts groups Hcfg Hgroups) as Hsplit. cbv zeta in Hsplit. fold base in Hsplit.
  pose proof (request_rules_roundtrip groups Hgroups) as Hrules. rewrite <- Hexp in Hsplit. clear Hexp.
  generalize dependent (buildRequestRuleExpr groups). intros rules Hsplit Hrules.
  destruct (generated_compiles cfg ts Hcfg Hfew Hlen Hsize) as (comp & Hcomp & Hread & _).
  destruct (configured_good cfg ts Hcfg) as [Hgood Hne].
  pose proof (generated_start cfg ts Hcfg) as Hstart. fold base in Hstart, Hcomp. clearbody base.
  assert (Htruthy : truthy base = true) by (by destruct base).
  assert (Hexpr : truthy (expression_of model) = true).
  { destruct (expression_of model); [|done]. vm_compute in Hsplit. injection Hsplit as <- _. done. }
  destruct (table_read base c comp ts Htruthy Hcomp Hread Hc) as (c1 & Hp & Hc1).
  destruct (no_time_table base (given (dpo_now o) new_Date) c1 comp ts Hcomp Hread Hc1) as (c2 & Htime & _).
  pose proof (table_entries ts (pm_billing_usage_schema model) o Hgood) as He.
  unfold getDynamicPricingSummary, getDynamicPricingTiers, hasDynamicRequestRules, isDynamicPricingModel,
    isTaskUsagePricingModel, is_tiered.
  rewrite Hmode, Hexpr, Htask. change (js "tiered_expr" === "tiered_expr") with true. cbn [andb negb].
  unfold mbind, priced_bind, mret, priced_ret, from_rules, from_tiers. rewrite Hsplit, Hp, Htime, Hrules.
  rewrite (map_map mapPlainTier TokenRow). change (fun x => TokenRow (mapPlainTier x)) with row.
  destruct (summary_entries store false (map row ts) (head (map row ts)) (pm_billing_usage_schema model) o)
    as [entries mixed]. destruct He as [He1 He2].
  eexists. cbn [fst]. split; [reflexivity|]. cbn [ps_tiers ps_tierCount ps_hasRequestRules ps_isSpecialExpression
    ps_isTimePricing ps_isTaskUsage ps_isMixedBilling ps_entries ps_primaryEntries ps_secondaryEntries is_some].
  split_and!; try done.
  - by rewrite length_map.
  - destruct ts; [done|]. cbn [map]. apply andb_false_r.
  - apply filter_shared. intros e. by rewrite negb_orb.
Qed.

(** * The example on a card *)


End Summary.

(** ** Witnesses *)

Definition plain_request : price_request := PriceRequest PerMillion None None None None None None None.

(** A model with the configuration of two tiers and two rules. *)
Definition tiered_model : pricing_model :=
  PricingModel (Some (js "m")) None None num_zero num_one num_one None None None None None None None None None None
    (Some (js "tiered_expr"))
    (Some (combineBillingExpr (generateExprFromVisualConfig (Some sample_config)) (buildRequestRuleExpr sample_groups)))
    None None.

Lemma catalogue_shows_editor_prices_witness :
  exists s, (getDynamicPricingSummary (P := plain_platform) (C := unit_collation) (I := plain_intl) None
      tiered_model plain_request None []).1 = Ok (Some s) /\
    ps_tierCount s = 2 /\ ps_isMixedBilling s = true /\ length (ps_entries s) = 4.
Proof.
  destruct (catalogue_shows_editor_prices (P := plain_platform) (C := unit_collation) (I := plain_intl) None
    sample_config sample_tiers tiered_model plain_request None [] sample_groups)
    as (s & H1 & _ & H2 & _ & _ & _ & _ & H3 & H4 & _).
  - vm_compute. reflexivity.
  - exact sample_few.
  - vm_compute. lia.
  - exact sample_length.
  - reflexivity.
  - reflexivity.
  - vm_compute. reflexivity.
  - vm_compute. reflexivity.
  - exact cache_ok_empty.
  - exists s. split; [exact H1|]. split; [exact H2|]. split; [rewrite H3; vm_compute; reflexivity|].
    rewrite <- (length_map key_value), H4. vm_compute. reflexivity.
Defined.

(** A video of six seconds as the example of the card. *)
Definition video_model : pricing_model :=
  PricingModel (Some (js "video")) None None num_zero num_one num_one None None None None None None None None None None
    (Some (js "tiered_expr")) (Some (generateTaskExprFromConfig (C := unit_collation) (Some video_config) video_schema))
    (Some video_schema) (Some [(js "short video", video_facts)]).


(** * The least and the greatest of a list *)

Lemma num_min_spec x y : proper x -> proper y ->
  (num_min x y = x \/ num_min x y = y) /\ num_leb (num_min x y) x = true /\ num_leb (num_min x y) y = true.
Proof.
  intros Hx Hy.
  assert (H : (if num_ltb y x then y else x) = x \/ (if num_ltb y x then y else x) = y) by (destruct (num_ltb y x); auto).
  assert (Hl : num_leb (if num_ltb y x then y else x) x = true /\ num_leb (if num_ltb y x then y else x) y = true).
  { destruct (num_ltb y x) eqn:E; rewrite num_ltb_scaled in E by done; rewrite !num_leb_scaled by done; lia. }
  destruct Hx as [Fx Vx], Hy as [Fy Vy].
  destruct x as [sx|sx| |sx mx ex]; try done; destruct y as [sy|sy| |sy my ey]; try done.
  destruct sx, sy; cbn; auto.
Qed.
Lemma num_max_spec x y : proper x -> proper y ->
  (num_max x y = x \/ num_max x y = y) /\ num_leb x (num_max x y) = true /\ num_leb y (num_max x y) = true.
Proof.
  intros Hx Hy.
  assert (H : (if num_ltb x y then y else x) = x \/ (if num_ltb x y then y else x) = y) by (destruct (num_ltb x y); auto).
  assert (Hl : num_leb x (if num_ltb x y then y else x) = true /\ num_leb y (if num_ltb x y then y else x) = true).
  { destruct (num_ltb x y) eqn:E; rewrite num_ltb_scaled in E by done; rewrite !num_leb_scaled by done; lia. }
  destruct Hx as [Fx Vx], Hy as [Fy Vy].
  destruct x as [sx|sx| |sx mx ex]; try done; destruct y as [sy|sy| |sy my ey]; try done.
  destruct sx, sy; cbn; auto.
Qed.

Lemma leb_trans x y z : proper x -> proper y -> proper z -> num_leb x y = true -> num_leb y z = true -> num_leb x z = true.
Proof. intros Hx Hy Hz. rewrite !num_leb_scaled by done. lia. Qed.

Definition widen_number (r : number * number) (v : number) : number * number := (num_min r.1 v, num_max r.2 v).
Definition extremes (vs : list number) (r : number * number) : Prop :=
  r.1 ∈ vs /\ r.2 ∈ vs /\ forall v, v ∈ vs -> num_leb r.1 v = true /\ num_leb v r.2 = true.

Lemma widen_first v : proper v -> widen_number (S754_infinity false, S754_infinity true) v = (v, v).
Proof. intros [F _]. destruct v as [s|s| |s m e]; try done; by destruct s. Qed.

Lemma widen_extremes vs r v : Forall proper vs -> proper v -> extremes vs r -> extremes (vs ++ [v]) (widen_number r v).
Proof.
  intros Hvs Hv (H1 & H2 & H3). rewrite Forall_elem in Hvs. destruct r as [lo hi]. cbn [fst snd] in *.
  destruct (num_min_spec lo v (Hvs _ H1) Hv) as (Mi & Ml & Mv). destruct (num_max_spec hi v (Hvs _ H2) Hv) as (Xi & Xl & Xv).
  assert (Pm : proper (num_min lo v)) by (destruct Mi as [-> | ->]; auto).
  assert (Px : proper (num_max hi v)) by (destruct Xi as [-> | ->]; auto).
  unfold extremes, widen_number. cbn [fst snd]. rewrite !elem_of_app, !list_elem_of_singleton. split_and!.
  - destruct Mi as [-> | ->]; auto.
  - destruct Xi as [-> | ->]; auto.
  - intros w [Hw|Hw]%elem_of_app.
    + destruct (H3 w Hw) as [Hl Hh]. specialize (Hvs _ H1) as P1. specialize (Hvs _ H2) as P2. specialize (Hvs _ Hw) as Pw. split.
      * by apply (leb_trans _ lo).
      * by apply (leb_trans _ hi).
    + apply list_elem_of_singleton in Hw as ->. done.
Qed.

Lemma widen_all vs : Forall proper vs -> vs <> [] ->
  extremes vs (fold_left widen_number vs (S754_infinity false, S754_infinity true)).
Proof.
  induction vs as [|v vs IH] using rev_ind; [done|]. intros [Hvs Hv]%Forall_app _. apply list.Forall_cons in Hv as [Hv _].
  rewrite fold_left_app. cbn [fold_left]. destruct vs as [|w vs].
  - cbn [fold_left app]. rewrite widen_first by done. split; [left|]. split; [left|].
    intros x ->%list_elem_of_singleton. cbn. by rewrite !num_leb_scaled, !Z.leb_refl by done.
  - apply widen_extremes; [done|done|]. by apply IH.
Qed.

(** * Ranges *)

(** The prices of a field that are shown. *)
Definition field_prices (tiers : list breakdown_tier) (field : jsstr) : list number :=
  omap (fun t => match t with TaskRow t => shown_price (kt_unitPrices t) field | TokenRow _ => None end) tiers.

Lemma shown_finite fields f v : shown_price fields f = Some v -> is_finite v = true.
Proof.
  unfold shown_price. destruct (own fields f) as [w|]; [|done]. destruct (negb (is_finite w) || num_ltb w num_zero) eqn:E; [done|].
  intros [= <-]. by bools.
Qed.

Lemma widen_fold tiers field : forall r, fold_left (widen field) tiers r = fold_left widen_number (field_prices tiers field) r.
Proof.
  induction tiers as [|t tiers IH]; intros r; [done|]. cbn [fold_left]. rewrite IH. unfold field_prices. cbn [omap list_omap].
  destruct t as [t|t]; cbn [widen]; [done|]. by destruct (shown_price (kt_unitPrices t) field).
Qed.

(** Every price of the rows is a representable number. *)
Definition rows_valid (tiers : list breakdown_tier) : bool :=
  forallb (fun t => match t with TaskRow t => forallb (fun e => num_valid e.2) (kt_unitPrices t) | TokenRow _ => true end) tiers.

Lemma prices_proper tiers field : rows_valid tiers = true -> Forall proper (field_prices tiers field).
Proof.
  unfold rows_valid. rewrite forallb_forall, Forall_elem. intros H v Hv.
  unfold field_prices in Hv. apply list_elem_of_omap in Hv as (t & Hin & Ht). destruct t as [|t]; [done|].
  split; [by eapply shown_finite|]. apply list_elem_of_In, H in Hin. rewrite forallb_forall in Hin.
  unfold shown_price in Ht. destruct (own _ _) as [w|] eqn:Ho; [|done].
  destruct (_ || _); [done|]. injection Ht as <-. apply own_In in Ho. apply list_elem_of_In in Ho. by apply (Hin _ Ho).
Qed.

Lemma price_range_exact tiers field : rows_valid tiers = true -> field_prices tiers field <> [] ->
  exists r, price_range tiers field = Some r /\ extremes (field_prices tiers field) r.
Proof.
  intros Hv%(fun H => prices_proper tiers field H) Hne. unfold price_range. rewrite widen_fold.
  pose proof (widen_all _ Hv Hne) as He. rewrite Forall_elem in Hv. pose proof He as (H1 & H2 & _).
  rewrite (proj1 (Hv _ H1)), (proj1 (Hv _ H2)). by eexists.
Qed.

Section Ranges.
Context {P : Platform} {C : Collation} {I : Intl} (store : option stored_currency).

Lemma price_ranges_get tiers schema f : f ∈ map fst (getTaskNumberFields schema) ->
  mget (price_ranges tiers schema) f = price_range tiers f.
Proof.
  unfold price_ranges. assert (H : forall (l : list (jsstr * usage_field)) m,
    mget (fold_left (fun m e => match price_range tiers e.1 with Some r => mput e.1 r m | None => m end) l m) f =
    if bool_decide (f ∈ map fst l) then match price_range tiers f with Some r => Some r | None => mget m f end else mget m f).
  { induction l as [|e l IH]; intros m; [by rewrite bool_decide_false by apply not_elem_of_nil|]. cbn [fold_left map]. rewrite IH.
    destruct (decide (f = e.1)) as [->|Hf].
    - rewrite (bool_decide_true (e.1 ∈ e.1 :: map fst l)) by left.
      destruct (price_range tiers e.1) as [r|]; [|by destruct (bool_decide _)].
      rewrite mget_mput, (bool_decide_true (e.1 = e.1)) by done. by destruct (bool_decide _).
    - replace (bool_decide (f ∈ e.1 :: map fst l)) with (bool_decide (f ∈ map fst l))
        by (apply bool_decide_ext; rewrite elem_of_cons; tauto).
      assert (Hm : mget (match price_range tiers e.1 with Some r => mput e.1 r m | None => m end) f = mget m f).
      { destruct (price_range tiers e.1); [|done]. by rewrite mget_mput, bool_decide_false. }
      by rewrite Hm. }
  intros Hf. rewrite H, bool_decide_true by done. by destruct (price_range tiers f).
Qed.

(** What an entry of the schema shows: the price of a tier, and the range of the prices of all of them. *)
Definition ranged (o : price_request) (tiers : list breakdown_tier) (e : price_entry) : Prop :=
  let prices := field_prices tiers (pe_field e) in
  pe_value e ∈ prices /\ exists lo hi, extremes prices (lo, hi) /\
  pe_formattedRange e = if num_eqb lo hi then None
    else Some (formatTaskUsageUnitPrice store lo o ++ RANGE_DASH ++ formatTaskUsageUnitPrice store hi o).

Lemma last_entries tiers schema o e : pe_labelKind e = LabelSchema ->
  e ∈ getDynamicPriceEntries store (list.last tiers) (with_schema o schema) ->
  pe_value e ∈ field_prices tiers (pe_field e) /\ pe_field e ∈ map fst (getTaskNumberFields schema) /\
  pe_formattedRange e = None.
Proof.
  intros Hk. destruct (list.last tiers) as [[t|t]|] eqn:El; [| |by intros ?%not_elem_of_nil].
  - assert (Hv : forall l fields, e ∉ sort_by primary_first (flat_map (variable_entry store fields (with_schema o schema)) l)).
    { intros l fields He. rewrite sort_by_perm in He.
      apply list_elem_of_In, in_flat_map in He as (v & _ & He). revert He. unfold variable_entry.
      destruct (bv_field v); [|done]. destruct (shown_price _ _); [|done]. intros [<-|[]]. done. }
    cbn [getDynamicPriceEntries]. destruct (pt_billingUnit t) as [[]|]; try destruct (pt_fixedPrice t);
      try (intros He; by apply Hv in He). intros ->%list_elem_of_singleton. done.
  - cbn [getDynamicPriceEntries with_schema dpo_usageSchema]. destruct schema as [schema|].
    2: { intros He. by apply not_elem_of_nil in He. }
    intros [He|He]%elem_of_app; [|destruct (num_ltb _ _); [apply list_elem_of_singleton in He as ->; done|by apply not_elem_of_nil in He]].
    apply list_elem_of_In, in_flat_map in He as ([f uf] & Hf & He). unfold usage_entry in He. cbn [fst snd] in He.
    destruct (shown_price _ _) as [v|] eqn:Ev; [|done]. destruct (uf_unit uf) as [[|z u]|]; try done.
    destruct He as [<-|[]]. cbn [pe_value pe_field pe_formattedRange]. split_and!; [| |done].
    + unfold field_prices. apply list_elem_of_omap. exists (TaskRow t). split; [|done].
      apply last_Some in El as (l & ->). apply elem_of_app. right. left.
    + apply list_elem_of_In, in_map_iff. by exists (f, uf).
Qed.

(** The ranges of the catalogue are tight: in the summary of a model billed by the usage of a task, an
    entry of the schema shows a price of a tier, and the range beside it, shown exactly when the prices of
    the tiers differ, runs from the least to the greatest of them. *)
Theorem summary_ranges model o new_Date c s : isTaskUsagePricingModel model = true ->
  (getDynamicPricingSummary store model o new_Date c).1 = Ok (Some s) -> rows_valid (ps_tiers s) = true ->
  forall e, e ∈ ps_entries s -> pe_labelKind e = LabelSchema -> ranged o (ps_tiers s) e.
Proof.
  intros Ht Hs Hv e He Hk. unfold getDynamicPricingSummary in Hs. rewrite Ht in Hs.
  destruct (isDynamicPricingModel model); [|done]. cbn [negb] in Hs.
  unfold mbind, priced_bind, mret, priced_ret, from_rules in Hs.
  destruct (getDynamicPricingTiers model c) as [[tiers|] c1]; [|done].
  destruct (splitBillingExprAndRequestRules _) as [[base rules]|]; [|done]. cbn [summary_entries] in Hs.
  destruct (hasDynamicRequestRules model c1) as [[]?]; [|done]. injection Hs as <-.
  cbn [ps_entries ps_tiers] in *. apply list_elem_of_In, in_map_iff in He as (e0 & <- & He0).
  apply list_elem_of_In in He0.
  assert (Hk0 : pe_labelKind e0 = LabelSchema) by (revert Hk; unfold with_range; repeat case_match; done).
  destruct (last_entries _ _ _ _ Hk0 He0) as (Hin & Hf & Hn).
  destruct (price_range_exact tiers (pe_field e0) Hv) as ([lo hi] & Hr & Hx); [by destruct (field_prices _ _); [apply not_elem_of_nil in Hin|]|].
  unfold with_range. rewrite price_ranges_get, Hr by done. unfold ranged.
  destruct (num_eqb lo hi) eqn:E; cbn [pe_value pe_field pe_formattedRange]; split; try done; exists lo, hi; by rewrite E.
Qed.
End Ranges.

(** ** Witness *)

(** The seconds of a video cost less at 480p. *)
Definition video_summary : option pricing_summary :=
  match (getDynamicPricingSummary (P := plain_platform) (C := unit_collation) (I := plain_intl) None
           video_model plain_request None []).1 with
  | Ok s => s
  | Err _ => None
  end.

Lemma summary_ranges_witness : exists s, video_summary = Some s /\
  Forall (fun e => pe_labelKind e = LabelSchema -> ranged (I := plain_intl) None plain_request (ps_tiers s) e) (ps_entries s) /\
  map pe_formattedRange (ps_entries s) = [Some (js "0.125" ++ RANGE_DASH ++ js "0.3"); Some (js "0" ++ RANGE_DASH ++ js "40")].
Proof.
  destruct video_summary as [s|] eqn:E; [|vm_compute in E; discriminate E].
  exists s. split; [reflexivity|]. split.
  - apply List.Forall_forall. intros e He Hk.
    apply (summary_ranges (P := plain_platform) (C := unit_collation) (I := plain_intl) None video_model plain_request None [] s).
    + vm_compute. reflexivity.
    + unfold video_summary in E. destruct (getDynamicPricingSummary _ _ _ _ _) as [[r|] c]; [|discriminate E].
      cbn [fst] in *. by rewrite E.
    + vm_compute in E. injection E as <-. vm_compute. reflexivity.
    + by apply list_elem_of_In.
    + exact Hk.
  - vm_compute in E. injection E as <-. vm_compute. reflexivity.
Defined.
