(* ===== verification/ModelPricing.v ===== *)
(** The prices an administrator sets for models: [system-settings/models/pricing-format.ts],
    [model-pricing-core.ts] and [model-pricing-snapshots.ts], [safeJsonParse] of
    [system-settings/utils/json-parser.ts], and [currency.ts], [pricing.ts] and
    [buildPricingChanges] of [features/model-pricing].  The prices of all models are ten
    JSON texts, one for each kind of price, with a member for each model. *)
From Stdlib Require Import ZArith Lia Bool String SpecFloat.
From stdpp Require Import base list option.
From S2P Require Import Prelude JsString JsNumber Types JsValue Collections Display Json JsonText RequestRules Currency Catalogue.

(** * Numbers as prices ([pricing-format.ts]) *)

Definition DISPLAY_DECIMALS : nat := 12.
Definition SNAP_DECIMALS : nat := 8.
Definition SNAP_EPSILON : number := num_of_decimal 1 (-12).
(** [Number.EPSILON]. *)
Definition EPSILON : number := num_div num_one (num_of_Z (2 ^ 52)).

(** A value other than the empty text, [null], [undefined] and [false]. *)
Definition hasValue (value : jsvalue) : bool :=
  match value with
  | JStr [] | JNull | JUndefined | JBool false => false
  | _ => true
  end.

Definition toNumberOrNull (value : jsvalue) : option number :=
  if negb (hasValue value) then None
  else let num := to_Number value in if is_finite num then Some num else None.

Definition roundToDecimals (value : number) (decimals : nat) : number :=
  let factor := num_of_Z (10 ^ Z.of_nat decimals) in
  num_div (num_round (num_mul value factor)) factor.

(** The loop of [snapFloatDrift] over the numbers of decimals that are left. *)
Fixpoint snap_loop (value tolerance : number) (decimals : list nat) : number :=
  match decimals with
  | [] => value
  | d :: rest =>
      let rounded := roundToDecimals value d in
      if num_leb (num_abs (num_sub value rounded)) tolerance then rounded
      else snap_loop value tolerance rest
  end.
Definition snapFloatDrift (value : number) : number :=
  let tolerance := num_max SNAP_EPSILON (num_mul (num_mul (num_abs value) EPSILON) (num_of_Z 8)) in
  snap_loop value tolerance (seq 0 (S SNAP_DECIMALS)).

(** The text of a finite number. *)
Definition pricing_text (num : number) : jsstr :=
  num_to_string (parseFloat (toFixed DISPLAY_DECIMALS (snapFloatDrift num))).
Definition formatPricingNumber (value : jsvalue) : jsstr :=
  match toNumberOrNull value with
  | None => []
  | Some num => pricing_text num
  end.

(** * Currencies ([currency.ts]) *)

Record pricing_currency := PricingCurrency {
  pc_label : jsstr;
  pc_symbol : jsstr;
  pc_exchangeRate : number;
}.
Definition USD_PRICING_CURRENCY : pricing_currency := PricingCurrency (js "USD") (js "$") num_one.

Definition getSitePricingCurrency (config : currency_config) : option pricing_currency :=
  let t := cc_quotaDisplayType config in
  if t === "CNY" then Some (PricingCurrency (js "CNY") YEN (cc_usdExchangeRate config))
  else if t === "CUSTOM"
  then let trimmed := trim (cc_customCurrencySymbol config) in
       let symbol := if truthy trimmed then trimmed else GENERIC_SYMBOL in
       Some (PricingCurrency symbol symbol (cc_customCurrencyExchangeRate config))
  else None.

Definition isValidPricingCurrency (currency : option pricing_currency) : bool :=
  match currency with
  | Some c => is_finite (pc_exchangeRate c) && num_ltb num_zero (pc_exchangeRate c)
  | None => false
  end.

(** An em dash. *)
Definition EM_DASH : jsstr := [8212]%Z.
Definition formatPricingAmount (value : jsvalue) (currency : pricing_currency) : jsstr :=
  match value with
  | JStr [] => []
  | _ =>
      let amount := num_mul (to_Number value) (pc_exchangeRate currency) in
      if negb (is_finite amount) then EM_DASH
      else pc_symbol currency ++ formatPricingNumber (JNum amount)
  end.

(** * Fields and keys *)

(** The prices of a model that are numbers, in the order of [pricingFieldMap]. *)
Inductive pricing_field :=
| FPrice | FRatio | FCompletion | FCache | FCreateCache | FImage | FAudio | FAudioCompletion.
#[export] Instance pricing_field_eq_dec : EqDecision pricing_field.
Proof. solve_decision. Defined.
Definition PRICE_FIELDS : list pricing_field :=
  [FPrice; FRatio; FCompletion; FCache; FCreateCache; FImage; FAudio; FAudioCompletion].

(** [PricingKey]: the key of a field, the billing mode or the expression. *)
Inductive pricing_key := KField (f : pricing_field) | KMode | KExpr.
#[export] Instance pricing_key_eq_dec : EqDecision pricing_key.
Proof. solve_decision. Defined.
Definition PRICING_KEYS : list pricing_key := map KField PRICE_FIELDS ++ [KMode; KExpr].

Definition key_name (k : pricing_key) : string :=
  match k with
  | KField FPrice => "ModelPrice"
  | KField FRatio => "ModelRatio"
  | KField FCompletion => "CompletionRatio"
  | KField FCache => "CacheRatio"
  | KField FCreateCache => "CreateCacheRatio"
  | KField FImage => "ImageRatio"
  | KField FAudio => "AudioRatio"
  | KField FAudioCompletion => "AudioCompletionRatio"
  | KMode => "billing_setting.billing_mode"
  | KExpr => "billing_setting.billing_expr"
  end.

(** [PricingValues]: numbers and texts by key; a missing key is [undefined]. *)
Definition pricing_values : Type := list (pricing_key * jsvalue).
(** [PricingOptions]: the ten texts. *)
Definition pricing_options : Type := list (pricing_key * jsstr).
Definition option_text (options : pricing_options) (k : pricing_key) : jsstr :=
  match mget options k with Some t => t | None => [] end.

(** [delete map[key]]. *)
Definition mdelete {K V} `{EqDecision K} (k : K) (m : list (K * V)) : list (K * V) :=
  List.filter (fun e => negb (bool_decide (e.1 = k))) m.
(** [map[key] = value], where a value that is [undefined] does not count. *)
Definition mset {K V} `{EqDecision K} (k : K) (v : option V) (m : list (K * V)) : list (K * V) :=
  match v with Some v => mput k v m | None => mdelete k m end.

(** * Errors *)

Inductive pricing_error :=
| JsonError (e : json_error)
| NotAnObject (* a text that should hold an object holds something else *)
| NotAText (* a method of strings is called on another value *)
| PricingMustBeObject
| InvalidPricingValue
| PriceNotFinite.
Definition from_json {A} (r : result json_error A) : result pricing_error A :=
  match r with Ok x => Ok x | Err e => Err (JsonError e) end.

(** * Snapshots ([model-pricing-snapshots.ts]) *)

(** [safeJsonParse(value, { fallback })]. *)
Definition safeJsonParse (value : option jsstr) (fallback : option jsvalue) : jsvalue :=
  let fallback := match fallback with Some v => v | None => JNull end in
  match value with
  | None => fallback
  | Some value =>
      if negb (truthy (trim value)) then fallback
      else match JSON_parse (trim value) with Ok v => v | Err _ => fallback end
  end.

(** The members of a value that should be an object. *)
Definition record_of (v : jsvalue) : result pricing_error (list (jsstr * jsvalue)) :=
  match v with JObj fields => Ok fields | _ => Err NotAnObject end.
Definition parse_record (text : jsstr) : result pricing_error (list (jsstr * jsvalue)) :=
  record_of (safeJsonParse (Some text) (Some (JObj []))).

(** [ModelPricingSnapshot] and [ModelRatioData]. *)
Record model_prices := ModelPrices {
  mp_name : jsstr;
  mp_price : option jsstr;
  mp_ratio : option jsstr;
  mp_completionRatio : option jsstr;
  mp_cacheRatio : option jsstr;
  mp_createCacheRatio : option jsstr;
  mp_imageRatio : option jsstr;
  mp_audioRatio : option jsstr;
  mp_audioCompletionRatio : option jsstr;
  mp_billingMode : option jsstr;
  mp_billingExpr : option jsstr;
  mp_requestRuleExpr : option jsstr;
  mp_hasConflict : option bool;
}.
Definition field_text (d : model_prices) (f : pricing_field) : option jsstr :=
  match f with
  | FPrice => mp_price d
  | FRatio => mp_ratio d
  | FCompletion => mp_completionRatio d
  | FCache => mp_cacheRatio d
  | FCreateCache => mp_createCacheRatio d
  | FImage => mp_imageRatio d
  | FAudio => mp_audioRatio d
  | FAudioCompletion => mp_audioCompletionRatio d
  end.
Definition model_prices_of (name : jsstr) (text : pricing_field -> option jsstr) (mode expr rules : option jsstr)
    (conflict : option bool) : model_prices :=
  ModelPrices name (text FPrice) (text FRatio) (text FCompletion) (text FCache) (text FCreateCache)
    (text FImage) (text FAudio) (text FAudioCompletion) mode expr rules conflict.

(** [x || '']. *)
Definition text_or_empty (x : option jsstr) : jsstr := match x with Some s => s | None => [] end.
Definition mode_is (mode : option jsstr) (name : string) : bool :=
  match mode with Some m => m === name | None => false end.

Definition hasPricingValue (value : option jsstr) : bool :=
  match value with None | Some [] => false | _ => true end.

Definition isBasePricingUnset (snapshot : option model_prices) : bool :=
  match snapshot with
  | None => true
  | Some s => negb (mode_is (mp_billingMode s) "tiered_expr") && negb (hasPricingValue (mp_price s))
              && negb (hasPricingValue (mp_ratio s))
  end.

(** A plain object inherits members; their text, for instance that of a function, is up to
    the engine. *)
Class ObjectPrototype := { inherited_text : jsstr -> option jsstr }.

Section Snapshots.
Context {O : ObjectPrototype}.

(** [map[name]?.toString() || '']. *)
Definition member_text_of (m : list (jsstr * jsvalue)) (name : jsstr) : jsstr :=
  match own m name with
  | Some v => to_text v
  | None => text_or_empty (inherited_text name)
  end.

(** [billingExprMap[name] || ''], on which a method of strings is called next. *)
Definition expression_member (m : list (jsstr * jsvalue)) (name : jsstr) : result pricing_error jsstr :=
  match own m name with
  | Some (JStr s) => Ok s
  | Some v => if value_truthy v then Err NotAText else Ok []
  | None => if is_some (inherited_text name) then Err NotAText else Ok []
  end.

(** The ten parsed texts. *)
Definition pricing_records : Type := list (pricing_key * list (jsstr * jsvalue)).
Definition record_at (records : pricing_records) (k : pricing_key) : list (jsstr * jsvalue) :=
  match mget records k with Some m => m | None => [] end.

Definition snapshot_of (records : pricing_records) (name : jsstr) : result pricing_error model_prices :=
  let text f := member_text_of (record_at records (KField f)) name in
  let texts f := Some (text f) in
  if strict_eqb (match own (record_at records KMode) name with Some v => v | None => JUndefined end)
       (JStr (js "tiered_expr"))
  then
    let! fullExpr := expression_member (record_at records KExpr) name in
    let! parts := from_json (splitBillingExprAndRequestRules fullExpr) in
    let '(pureExpr, requestRuleExpr) := parts in
    Ok (model_prices_of name texts (Some (js "tiered_expr")) (Some pureExpr) (Some requestRuleExpr) (Some false))
  else
    Ok (model_prices_of name texts (Some (if truthy (text FPrice) then js "per-request" else js "per-token"))
          None None
          (Some (truthy (text FPrice) &&
            existsb (fun f => truthy (text f))
              [FRatio; FCompletion; FCache; FCreateCache; FImage; FAudio; FAudioCompletion]))).

(** The order in which the names of the texts are collected. *)
Definition SNAPSHOT_ORDER : list pricing_key :=
  [KField FPrice; KField FRatio; KField FCache; KField FCreateCache; KField FCompletion; KField FImage;
   KField FAudio; KField FAudioCompletion; KMode; KExpr].

Definition buildModelSnapshots (options : pricing_options) : result pricing_error (list model_prices) :=
  let! records := sequence (map (fun k => let! m := parse_record (option_text options k) in Ok (k, m)) SNAPSHOT_ORDER) in
  let modelNames := distinct (concat (map (fun e => map fst e.2) records)) in
  sequence (map (snapshot_of records) modelNames).

(** ** Texts of a row; [t] translates *)

Definition ratioToPrice (ratio : option jsstr) (denominator : option jsstr) : jsstr :=
  let number x := if hasPricingValue x then toNumberOrNull (JStr (text_or_empty x)) else None in
  let denominatorNumber :=
    match denominator with
    | None | Some [] => Some (num_of_Z 2)
    | Some d => number (Some d)
    end in
  match number ratio, denominatorNumber with
  | Some r, Some d => formatPricingNumber (JNum (num_mul r d))
  | _, _ => []
  end.

Definition getModeLabel (mode : option jsstr) : string :=
  if mode_is mode "per-request" then "Per-request"
  else if mode_is mode "tiered_expr" then "Expression" else "Per-token".

Inductive mode_variant := VWarning | VInfo | VSuccess.
Definition getModeVariant (mode : option jsstr) : mode_variant :=
  if mode_is mode "per-request" then VWarning else if mode_is mode "tiered_expr" then VInfo else VSuccess.

(** The number of matches of [/tier\(/g]. *)
Fixpoint count_tiers (s : jsstr) : nat :=
  match s with
  | [] => 0
  | _ :: r => (if starts_with (js "tier(") s then 1 else 0) + count_tiers r
  end.

(** A middle dot between spaces. *)
Definition MIDDLE_DOT : jsstr := [32; 183; 32]%Z.

Definition getExpressionSummary (row : model_prices) (t : string -> jsstr) : jsstr :=
  let tierCount := count_tiers (text_or_empty (mp_billingExpr row)) in
  if (0 <? tierCount)%nat
  then t "Tiered pricing"%string ++ MIDDLE_DOT ++ string_of_Z (Z.of_nat tierCount) ++ js " " ++ t "tiers"%string
  else t "Expression pricing"%string.

Definition getPriceSummary (row : model_prices) (t : string -> jsstr) : jsstr :=
  if mode_is (mp_billingMode row) "tiered_expr" then getExpressionSummary row t
  else if mode_is (mp_billingMode row) "per-request"
  then match text_or_empty (mp_price row) with
       | [] => t "Unset price"%string
       | price => js "$" ++ price ++ js " / " ++ t "request"%string
       end
  else match ratioToPrice (mp_ratio row) None with
       | [] => t "Unset price"%string
       | inputPrice => t "Input"%string ++ js " $" ++ inputPrice
       end.

Definition getPriceDetail (row : model_prices) (t : string -> jsstr) : jsstr :=
  if mode_is (mp_billingMode row) "tiered_expr"
  then if truthy (text_or_empty (mp_requestRuleExpr row)) then t "Includes request rules"%string
       else t "Expression based"%string
  else if mode_is (mp_billingMode row) "per-request" then t "Fixed request price"%string
  else
    match ratioToPrice (mp_ratio row) None with
    | [] => t "No base input price"%string
    | inputPrice =>
        let part label ratio :=
          if truthy (text_or_empty ratio)
          then [t label ++ js " $" ++ ratioToPrice ratio (Some inputPrice)] else [] in
        match take 2 (part "Output"%string (mp_completionRatio row) ++ part "Cache"%string (mp_cacheRatio row)
                      ++ part "Cache write"%string (mp_createCacheRatio row)) with
        | [] => t "Base input price only"%string
        | details => join MIDDLE_DOT details
        end
    end.

(** The object that is printed. *)
Definition signature_object (s : model_prices) : jsvalue :=
  let text x := JStr (text_or_empty x) in
  JObj [ (js "price", text (mp_price s)); (js "ratio", text (mp_ratio s));
         (js "cacheRatio", text (mp_cacheRatio s)); (js "createCacheRatio", text (mp_createCacheRatio s));
         (js "completionRatio", text (mp_completionRatio s)); (js "imageRatio", text (mp_imageRatio s));
         (js "audioRatio", text (mp_audioRatio s)); (js "audioCompletionRatio", text (mp_audioCompletionRatio s));
         (js "billingMode", JStr (match mp_billingMode s with Some ((_ :: _) as m) => m | _ => js "per-token" end));
         (js "billingExpr", text (mp_billingExpr s)); (js "requestRuleExpr", text (mp_requestRuleExpr s)) ].
Definition getSnapshotSignature (snapshot : option model_prices) : jsstr :=
  match snapshot with
  | None => []
  | Some s => text_or_empty (JSON_stringify_plain (signature_object s))
  end.

(** * Drafts ([pricing.ts]) *)

(** [pricingOptions(values)], of the settings by name. *)
Definition pricingOptions (values : list (jsstr * jsvalue)) : pricing_options :=
  let value name := match own values (js name) with Some v => v | None => JUndefined end in
  map (fun k =>
    let v := value (key_name k) in
    let v := match k with
             | KMode => or_default v (value "BillingMode"%string)
             | KExpr => or_default v (value "BillingExpr"%string)
             | KField _ => v
             end in
    (k, match v with JStr s => s | _ => js "{}" end)) PRICING_KEYS.

Definition pricingRows (options : pricing_options) : result pricing_error (list model_prices) :=
  buildModelSnapshots options.

(** [JSON.stringify(values[key] === undefined ? {} : { [name]: values[key] })]. *)
Definition row_text (name : jsstr) (value : option jsvalue) : jsstr :=
  text_or_empty (JSON_stringify_plain (JObj (match value with None => [] | Some v => [(name, v)] end))).

Definition pricingRow (name : jsstr) (values : pricing_values) : result pricing_error model_prices :=
  let options := map (fun k => (k, row_text name (mget values k))) PRICING_KEYS in
  let! rows := pricingRows options in
  let row := match rows with
             | r :: _ => r
             | [] => model_prices_of name (fun _ => None) None None None None
             end in
  let billingMode :=
    if mode_is (mp_billingMode row) "tiered_expr" then js "tiered_expr"
    else if truthy (text_or_empty (mp_price row)) then js "per-request" else js "per-token" in
  Ok (model_prices_of name (field_text row) (Some billingMode) (mp_billingExpr row) (mp_requestRuleExpr row)
        (mp_hasConflict row)).

(** Whether the mode of a draft stores a field. *)
Definition mode_stores (mode : option jsstr) (f : pricing_field) : bool :=
  mode_is mode "tiered_expr" ||
  (if mode_is mode "per-request" then bool_decide (f = FPrice) else negb (bool_decide (f = FPrice))).

(** The loop of [pricingFromDraft] over the fields. *)
Fixpoint draft_fields (data : model_prices) (fields : list pricing_field) (values : pricing_values)
  : result pricing_error pricing_values :=
  match fields with
  | [] => Ok values
  | f :: rest =>
      match field_text data f with
      | None | Some [] => draft_fields data rest values
      | Some value =>
          let number := js_Number value in
          if negb (is_finite number) || num_ltb number num_zero then Err PriceNotFinite
          else draft_fields data rest
                 (if mode_stores (mp_billingMode data) f then mput (KField f) (JNum number) values else values)
      end
  end.

Definition pricingFromDraft (data : model_prices) : result pricing_error pricing_values :=
  let tiered := mode_is (mp_billingMode data) "tiered_expr" in
  let! values := draft_fields data PRICE_FIELDS
                   [(KMode, JStr (if tiered then js "tiered_expr" else js "ratio"))] in
  Ok (if tiered
      then mput KExpr (JStr (combineBillingExpr (text_or_empty (mp_billingExpr data))
                               (text_or_empty (mp_requestRuleExpr data)))) values
      else values).

(** [delete map[name]] and [Object.defineProperty(map, name, ...)]. *)
Definition put_member (value : option jsvalue) (m : list (jsstr * jsvalue)) (name : jsstr)
  : list (jsstr * jsvalue) :=
  let m := List.filter (fun e => negb (str_eqb e.1 name)) m in
  match value with Some v => m ++ [(name, v)] | None => m end.

(** The new text of a key. *)
Definition apply_to_text (text : jsstr) (value : option jsvalue) (names : list jsstr) : result pricing_error jsstr :=
  let! map := from_json (JSON_parse text) in
  let! m := record_of map in
  Ok (text_or_empty (JSON_stringify_plain (JObj (fold_left (put_member value) names m)))).

Definition applyPricingValues (options : pricing_options) (values : pricing_values) (names : list jsstr)
  : result pricing_error pricing_options :=
  sequence (map (fun k => let! t := apply_to_text (option_text options k) (mget values k) names in Ok (k, t))
              PRICING_KEYS).

Definition applyPricingDraft (options : pricing_options) (data : model_prices) (names : list jsstr)
  : result pricing_error pricing_options :=
  let! values := pricingFromDraft data in applyPricingValues options values names.

(** ** The values of every model *)

Definition price_table : Type := list (jsstr * pricing_values).

(** The loop over the members of a text. *)
Fixpoint add_members (k : pricing_key) (members : list (jsstr * jsvalue)) (models : price_table)
  : result pricing_error price_table :=
  match members with
  | [] => Ok models
  | (name, value) :: rest =>
      match value with
      | JNum _ | JStr _ => add_members k rest (upsert name [] (mput k value) models)
      | _ => Err InvalidPricingValue
      end
  end.

(** The loop over the keys. *)
Fixpoint add_texts (options : pricing_options) (keys : list pricing_key) (models : price_table)
  : result pricing_error price_table :=
  match keys with
  | [] => Ok models
  | k :: rest =>
      let! v := from_json (JSON_parse (option_text options k)) in
      match v with
      | JObj members => let! models := add_members k members models in add_texts options rest models
      | _ => Err PricingMustBeObject
      end
  end.
Definition pricingValuesByModel (options : pricing_options) : result pricing_error price_table :=
  add_texts options PRICING_KEYS [].

(** ** Prices selected for synchronization *)

(** The capital of a code unit where it is an ASCII letter; no other capital occurs in a key. *)
Definition capital (c : Z) : Z :=
  if ((97 <=? c) && (c <=? 122))%Z then (c - 32)%Z
  else if (c =? 305)%Z then 73%Z else if (c =? 383)%Z then 83%Z else c.
Definition capitalize (part : jsstr) : jsstr :=
  match part with [] => [] | c :: r => capital c :: r end.
(** The key of a field such as [cache_ratio], if it is one. *)
Definition sync_key (field : jsstr) : option pricing_key :=
  let name := concat (map capitalize (split_char 95 field)) in
  find (fun k => name === (key_name k)) PRICING_KEYS.

(** The loop over the fields of a selection that are not an expression. *)
Definition sync_field (fixed : bool) (next : pricing_values) (e : jsstr * jsvalue) : pricing_values :=
  if (e.1 === "billing_mode") || (e.1 === "billing_expr") then next
  else if fixed && negb (e.1 === "model_price") then next
  else match sync_key e.1 with Some k => mput k e.2 next | None => next end.

(** The expression of a selection, when it is a text that is not blank. *)
Definition sync_expression (fields : list (jsstr * jsvalue)) : option jsstr :=
  match own fields (js "billing_expr") with
  | Some (JStr s) => if truthy (trim s) then Some s else None
  | _ => None
  end.

Definition sync_values (fields : list (jsstr * jsvalue)) : pricing_values :=
  match sync_expression fields with
  | Some expr => [(KMode, JStr (js "tiered_expr")); (KExpr, JStr expr)]
  | None =>
      let fixed := match own fields (js "model_price") with None | Some JUndefined => false | _ => true end in
      fold_left (sync_field fixed) fields [(KMode, JStr (js "ratio"))]
  end.

Fixpoint applyPriceSyncSelections (options : pricing_options)
    (selections : list (jsstr * list (jsstr * jsvalue))) : result pricing_error pricing_options :=
  match selections with
  | [] => Ok options
  | (name, fields) :: rest =>
      let! row := pricingRow name (sync_values fields) in
      let! validated := pricingFromDraft row in
      let validated := match sync_expression fields with
                       | Some expr => mput KExpr (JStr expr) validated
                       | None => validated
                       end in
      let! result := applyPricingValues options validated [name] in
      applyPriceSyncSelections result rest
  end.

(** ** The effective prices as a model of the catalogue *)

Definition modelPricingDisplay (model_name : jsstr) (effective : pricing_values) (schema : option usage_schema)
  : pricing_model :=
  let value f := mget effective (KField f) in
  let ratio f := option_map to_Number (value f) in
  let number f := match value f with None | Some JNull | Some JUndefined => S754_nan | Some v => to_Number v end in
  let text k := match mget effective k with Some (JStr s) => Some s | _ => None end in
  let tiered := match mget effective KMode with Some v => strict_eqb v (JStr (js "tiered_expr")) | None => false end in
  PricingModel (Some model_name) None None
    (if is_some (value FPrice) && negb tiered then num_one else num_zero)
    (number FRatio) (number FCompletion) (ratio FPrice) (ratio FCache) (ratio FCreateCache) (ratio FImage)
    (ratio FAudio) (ratio FAudioCompletion) (Some []) None None None (text KMode) (text KExpr) schema None.

(** * Changes ([buildPricingChanges] of [api.ts]) *)

Record pricing_entry := PricingEntry {
  en_model_name : jsstr;
  en_version : jsstr;
  en_configured : pricing_values;
}.
Record pricing_config := PricingConfig { cfg_entries : list pricing_entry; cfg_empty_version : jsstr }.
Record pricing_change := PricingChange {
  ch_model_name : jsstr;
  ch_expected_version : jsstr;
  ch_pricing : pricing_values;
}.

(** [oldValues[key] !== newValues[key]]. *)
Definition differs (a b : option jsvalue) : bool :=
  negb (strict_eqb (match a with Some v => v | None => JUndefined end) (match b with Some v => v | None => JUndefined end)).

(** The entry of a model: the last one of its name. *)
Definition entry_of (snapshot : pricing_config) (name : jsstr) : option pricing_entry :=
  find (fun e => str_eqb (en_model_name e) name) (rev (cfg_entries snapshot)).

Definition change_of (snapshot : pricing_config) (previous next : price_table) (name : jsstr)
  : list pricing_change :=
  let oldValues := match mget previous name with Some v => v | None => [] end in
  let newValues := match mget next name with Some v => v | None => [] end in
  match List.filter (fun k => differs (mget oldValues k) (mget newValues k)) PRICING_KEYS with
  | [] => []
  | dirty =>
      let entry := entry_of snapshot name in
      let pricing := match entry with Some e => en_configured e | None => [] end in
      let pricing := fold_left (fun p k => mset k (mget newValues k) (mdelete k p)) dirty pricing in
      let tiered := match mget newValues KMode with Some v => strict_eqb v (JStr (js "tiered_expr")) | None => false end in
      let pricing := if tiered
                     then mset KExpr (mget newValues KExpr) (mput KMode (JStr (js "tiered_expr")) pricing)
                     else pricing in
      [PricingChange name (match entry with Some e => en_version e | None => cfg_empty_version snapshot end) pricing]
  end.

Definition buildPricingChanges (snapshot : pricing_config) (before after : pricing_options)
  : result pricing_error (list pricing_change) :=
  let! previous := pricingValuesByModel before in
  let! next := pricingValuesByModel after in
  Ok (flat_map (change_of snapshot previous next) (distinct (map fst previous ++ map fst next))).
End Snapshots.

Example format_ex :
  formatPricingNumber (JNum (num_add (num_of_decimal 1 (-1)) (num_of_decimal 2 (-1)))) = js "0.3" /\
  formatPricingNumber (JStr []) = [] /\ formatPricingNumber (JStr (js "2.50")) = js "2.5".
Proof. vm_compute. done. Qed.
