(* ===== verification/PricingFacts.v ===== *)
(** Facts about the prices of models: what a draft changes in the ten texts, what is sent
    to the server for it, and that drafts survive storing and reading. *)
From Stdlib Require Import ZArith Lia Bool String SpecFloat.
From stdpp Require Import base list option.
From S2P Require Import Prelude JsString JsNumber Types JsValue Collections Display Json JsonText Schema RequestRules RequestFacts Currency Catalogue ModelPricing.

(** * Maps *)

Section Maps.
Context {K V : Type} {Keq : EqDecision K}.

Lemma mget_mdelete (k k' : K) (m : list (K * V)) :
  mget (mdelete k m) k' = if bool_decide (k' = k) then None else mget m k'.
Proof.
  unfold mdelete. induction m as [|[k0 v] m IH]; [by case_bool_decide|]. cbn [List.filter fst].
  destruct (decide (k0 = k)) as [->|Hk].
  - rewrite (bool_decide_true (k = k)) by done. cbn [negb]. rewrite IH. cbn [mget].
    by destruct (decide (k' = k)) as [->|?]; [rewrite !bool_decide_true|rewrite !bool_decide_false by done].
  - rewrite (bool_decide_false (k0 = k)) by done. cbn [negb mget]. rewrite IH.
    destruct (decide (k' = k0)) as [->|?]; [|by rewrite (bool_decide_false (k' = k0))].
    by rewrite (bool_decide_true (k0 = k0)), (bool_decide_false (k0 = k)).
Qed.

Lemma mget_mset (k k' : K) v (m : list (K * V)) :
  mget (mset k v m) k' = if bool_decide (k' = k) then v else mget m k'.
Proof. destruct v as [v|]; cbn [mset]; [apply mget_mput|apply mget_mdelete]. Qed.
End Maps.

Lemma all_keys k : k ∈ PRICING_KEYS.
Proof. apply (bool_decide_unpack _). destruct k as [[]| |]; vm_compute; exact I. Qed.
Lemma pricing_keys_nodup : NoDup PRICING_KEYS.
Proof. apply (bool_decide_unpack _). vm_compute. exact I. Qed.

(** The value of a key of a model in a table. *)
Definition value_at (t : price_table) (name : jsstr) (k : pricing_key) : option jsvalue :=
  match mget t name with Some v => mget v k | None => None end.

(** * Members of a text *)

Lemma own_filter_other (m : list (jsstr * jsvalue)) name x :
  own (List.filter (fun e => negb (str_eqb e.1 name)) m) x = if bool_decide (x = name) then None else own m x.
Proof. rewrite own_filter. destruct (str_eqb_reflect x name); [by rewrite bool_decide_true|by rewrite bool_decide_false]. Qed.

Lemma own_put_member value m name x :
  own (put_member value m name) x = if bool_decide (x = name) then value else own m x.
Proof.
  unfold put_member. destruct value as [v|]; rewrite ?own_app, own_filter_other; [|by case_bool_decide].
  destruct (decide (x = name)) as [->|?].
  - rewrite !bool_decide_true by done. cbn [own]. by rewrite str_eqb_refl.
  - rewrite !bool_decide_false by done. cbn [own]. rewrite (proj2 (str_eqb_neq x name)) by done. by destruct (own m x).
Qed.

Lemma own_put_members value names : forall m x,
  own (fold_left (put_member value) names m) x = if bool_decide (x ∈ names) then value else own m x.
Proof.
  induction names as [|n names IH]; intros m x; [by rewrite bool_decide_false by apply not_elem_of_nil|].
  cbn [fold_left]. rewrite IH, own_put_member. destruct (decide (x ∈ names)) as [Hx|Hx].
  - rewrite !bool_decide_true by (rewrite ?elem_of_cons; auto). done.
  - rewrite (bool_decide_false (x ∈ names)) by done.
    destruct (decide (x = n)) as [->|Hn]; [by rewrite !bool_decide_true by (rewrite ?elem_of_cons; auto)|].
    by rewrite !bool_decide_false by (rewrite ?elem_of_cons; tauto).
Qed.

(** A price is a number or a text that is printed and read back. *)
Definition is_price (v : jsvalue) : bool :=
  match v with JNum _ | JStr _ => prints v | _ => false end.
(** The members of a text of prices. *)
Record members_ok (m : list (jsstr * jsvalue)) : Prop := {
  mo_nodup : NoDup (map fst m);
  mo_prices : Forall (fun e => Forall code_unit e.1 /\ is_price e.2 = true) m;
}.

Lemma put_member_ok value m name : members_ok m -> Forall code_unit name -> (forall v, value = Some v -> is_price v = true) ->
  members_ok (put_member value m name).
Proof.
  intros [Hn Hp] Hname Hv. set (rest := List.filter (fun e => negb (str_eqb e.1 name)) m).
  assert (Hrest : members_ok rest /\ name ∉ map fst rest).
  { unfold rest. clear rest. induction Hp as [|[k v] m Hkv _ IH]; [by repeat constructor; apply not_elem_of_nil|].
    cbn [map fst] in Hn. apply list.NoDup_cons in Hn as [Hk Hn]. destruct (IH Hn) as [[Hn' Hp'] Hni]. cbn [List.filter fst].
    destruct (str_eqb_reflect k name) as [->|Hne]; cbn [negb]; [done|]. split.
    - constructor; cbn [map fst]; [|by constructor]. apply list.NoDup_cons. split; [|done]. intros Hin. apply Hk.
      apply list_elem_of_In, in_map_iff in Hin as ([k' v'] & <- & Hin). apply filter_In in Hin as [Hin _].
      apply list_elem_of_In, in_map_iff. by exists (k', v').
    - cbn [map fst]. by apply not_elem_of_cons. }
  destruct Hrest as [[Hrn Hrp] Hni]. unfold put_member. fold rest. destruct value as [v|]; [|by constructor].
  constructor.
  - rewrite map_app. cbn [map fst]. apply list.NoDup_app. split; [done|]. split; [|repeat constructor; apply not_elem_of_nil].
    intros x Hx ->%list_elem_of_singleton. done.
  - apply Forall_app. split; [done|]. constructor; [|constructor]. split; [done|]. by apply Hv.
Qed.

Lemma put_members_ok value names : forall m, members_ok m -> Forall (Forall code_unit) names ->
  (forall v, value = Some v -> is_price v = true) -> members_ok (fold_left (put_member value) names m).
Proof.
  induction names as [|n names IH]; intros m Hm Hn Hv; [done|]. apply list.Forall_cons in Hn as [H1 H2].
  cbn [fold_left]. apply IH; [|done|done]. by apply put_member_ok.
Qed.

Lemma price_printable v : is_price v = true -> printable v.
Proof. intros H. apply prints_printable. by destruct v. Qed.

Lemma members_printable m : members_ok m -> printable (JObj m).
Proof.
  intros [Hn Hp]. constructor; [done|]. eapply list.Forall_impl; [exact Hp|]. intros e [H1 H2]. split; [done|].
  by apply price_printable.
Qed.

(** The members of each of the ten texts. *)
Definition holds_members (options : pricing_options) (k : pricing_key) (m : list (jsstr * jsvalue)) : Prop :=
  JSON_parse (option_text options k) = Ok (JObj m) /\ members_ok m.
Definition options_hold (options : pricing_options) (records : pricing_key -> list (jsstr * jsvalue)) : Prop :=
  forall k, holds_members options k (records k).

Lemma text_applied options k m value names : holds_members options k m -> Forall (Forall code_unit) names ->
  (forall v, value = Some v -> is_price v = true) ->
  exists t, apply_to_text (option_text options k) value names = Ok t /\
    JSON_parse t = Ok (JObj (fold_left (put_member value) names m)).
Proof.
  intros [Hp Hm] Hn Hv. unfold apply_to_text. rewrite Hp. cbn [from_json record_of].
  pose proof (put_members_ok value names m Hm Hn Hv) as Hm'.
  destruct (stringify_plain_parse _ (members_printable _ Hm')) as (t & Ht & Hread).
  exists t. by rewrite Ht.
Qed.

Lemma options_applied options records values names : options_hold options records ->
  Forall (Forall code_unit) names -> (forall k v, mget values k = Some v -> is_price v = true) ->
  exists after, applyPricingValues options values names = Ok after /\
    options_hold after (fun k => fold_left (put_member (mget values k)) names (records k)).
Proof.
  intros Ho Hn Hv. unfold applyPricingValues.
  assert (H : forall keys, NoDup keys -> exists after,
    sequence (map (fun k => let! t := apply_to_text (option_text options k) (mget values k) names in Ok (k, t)) keys) = Ok after /\
    forall k, k ∈ keys -> JSON_parse (option_text after k) = Ok (JObj (fold_left (put_member (mget values k)) names (records k)))).
  { induction keys as [|k keys IH]; intros Hk; [exists []; split; [done|]; by intros k ?%not_elem_of_nil|].
    apply list.NoDup_cons in Hk as [Hk Hks]. destruct (IH Hks) as (after & Ha & Hread).
    destruct (text_applied options k (records k) (mget values k) names (Ho k) Hn (Hv k)) as (t & Ht & Htr).
    exists ((k, t) :: after). cbn [map sequence]. rewrite Ht, Ha. split; [done|].
    intros k' Hin. unfold option_text. cbn [mget]. destruct (decide (k' = k)) as [->|Hne].
    - by rewrite bool_decide_true.
    - rewrite bool_decide_false by done. apply Hread. by apply elem_of_cons in Hin as [?|?]. }
  destruct (H PRICING_KEYS pricing_keys_nodup) as (after & Ha & Hread). exists after. split; [done|].
  intros k. split; [apply Hread, all_keys|]. apply put_members_ok; [apply Ho|done|apply Hv].
Qed.

(** * The table of all models *)

Lemma value_at_upsert (t : price_table) n k v name k' : value_at (upsert n [] (mput k v) t) name k' =
  if bool_decide (name = n) then if bool_decide (k' = k) then Some v else value_at t n k' else value_at t name k'.
Proof.
  unfold value_at, upsert. rewrite mget_mput. case_bool_decide as Hn; [subst|done]. rewrite mget_mput.
  case_bool_decide; [done|]. unfold price_table, pricing_values in *. by destruct (mget t n).
Qed.

Lemma members_added k members : Forall (fun e => is_price e.2 = true) members -> NoDup (map fst members) -> forall t,
  NoDup (map fst t) -> exists t', add_members k members t = Ok t' /\ NoDup (map fst t') /\
    (forall name, name ∈ map fst t' <-> name ∈ map fst t \/ name ∈ map fst members) /\
    forall name k', value_at t' name k' =
      match (if bool_decide (k' = k) then own members name else None) with
      | Some v => Some v
      | None => value_at t name k'
      end.
Proof.
  induction 1 as [|[n v] members Hv _ IH]; intros Hn t Ht.
  - exists t. split; [done|]. split; [done|]. split.
    + intros name. split; [by left|by intros [?|?%not_elem_of_nil]].
    + intros name k'. by destruct (bool_decide (k' = k)).
  - cbn [map fst] in Hn. apply list.NoDup_cons in Hn as [Hnn Hn]. cbn [snd] in Hv.
    destruct (IH Hn (upsert n [] (mput k v) t) ltac:(by apply mput_nodup)) as (t' & Ha & Hd & Hk & Hg).
    exists t'. split; [cbn [add_members]; by destruct v|]. split; [done|]. split.
    + intros name. rewrite Hk. unfold upsert. rewrite mput_keys. cbn [map fst]. rewrite elem_of_cons.
      case_bool_decide; rewrite ?elem_of_app, ?list_elem_of_singleton; [|tauto].
      split; [tauto|]. intros [?|[->|?]]; auto.
    + intros name k'. rewrite Hg, value_at_upsert. cbn [own]. destruct (str_eqb_reflect name n) as [->|Hne].
      * rewrite (bool_decide_true (n = n)), (own_absent members n Hnn) by done. by destruct (bool_decide (k' = k)).
      * by rewrite (bool_decide_false (name = n)).
Qed.

Lemma texts_added options records keys : options_hold options records -> NoDup keys -> forall t, NoDup (map fst t) ->
  exists t', add_texts options keys t = Ok t' /\ NoDup (map fst t') /\
    (forall name, name ∈ map fst t' <-> name ∈ map fst t \/ exists k, k ∈ keys /\ name ∈ map fst (records k)) /\
    forall name k, value_at t' name k =
      match (if bool_decide (k ∈ keys) then own (records k) name else None) with
      | Some v => Some v
      | None => value_at t name k
      end.
Proof.
  intros Ho. induction keys as [|k keys IH]; intros Hn t Ht.
  - exists t. split; [done|]. split; [done|]. split.
    + intros name. split; [by left|]. intros [?|(? & ?%not_elem_of_nil & _)]; done.
    + intros name k. by rewrite bool_decide_false by apply not_elem_of_nil.
  - apply list.NoDup_cons in Hn as [Hk Hn]. destruct (Ho k) as [Hp [Hmn Hmp]].
    assert (Hprices : Forall (fun e => is_price e.2 = true) (records k)) by (eapply list.Forall_impl; [exact Hmp|]; by intros e []).
    destruct (members_added k (records k) Hprices Hmn t Ht) as (t1 & Ha1 & Hd1 & Hk1 & Hg1).
    destruct (IH Hn t1 Hd1) as (t2 & Ha2 & Hd2 & Hk2 & Hg2). exists t2.
    split; [cbn [add_texts]; by rewrite Hp; cbn [from_json]; rewrite Ha1|]. split; [done|]. split.
    + intros name. rewrite Hk2, Hk1. setoid_rewrite elem_of_cons. split.
      * intros [[?|?]|(k' & ? & ?)]; [by left|right; eauto|right; eauto].
      * intros [?|(k' & [->|?] & ?)]; [by left; left|by left; right|right; eauto].
    + intros name k'. rewrite Hg2, Hg1. destruct (decide (k' = k)) as [->|Hne].
      * rewrite (bool_decide_false (k ∈ keys)), (bool_decide_true (k ∈ k :: keys)), (bool_decide_true (k = k)) by (done || left). done.
      * rewrite (bool_decide_false (k' = k)) by done.
        replace (bool_decide (k' ∈ k :: keys)) with (bool_decide (k' ∈ keys)) by (apply bool_decide_ext; rewrite elem_of_cons; tauto).
        done.
Qed.

(** Reading the ten texts gives the table of their members. *)
Lemma options_read options records : options_hold options records -> exists t,
  pricingValuesByModel options = Ok t /\ NoDup (map fst t) /\
  (forall name, name ∈ map fst t <-> exists k, name ∈ map fst (records k)) /\
  forall name k, value_at t name k = own (records k) name.
Proof.
  intros Ho. destruct (texts_added options records PRICING_KEYS Ho pricing_keys_nodup [] ltac:(constructor)) as (t & Ha & Hd & Hk & Hg).
  exists t. split_and!; [done|done| |].
  - intros name. rewrite Hk. split; [intros [?%not_elem_of_nil|(k & _ & ?)]; [done|eauto]|].
    intros [k ?]. right. exists k. split; [apply all_keys|done].
  - intros name k. rewrite Hg, bool_decide_true by apply all_keys. by destruct (own (records k) name).
Qed.

(** The ten texts hold objects of prices, as a test. *)
Definition members_ok_b (m : list (jsstr * jsvalue)) : bool :=
  bool_decide (NoDup (map fst m)) && forallb (fun e => forallb is_code_unit e.1 && is_price e.2) m.
Definition records_of (options : pricing_options) (k : pricing_key) : list (jsstr * jsvalue) :=
  match JSON_parse (option_text options k) with Ok (JObj m) => m | _ => [] end.
Definition options_ok (options : pricing_options) : bool :=
  forallb (fun k => match JSON_parse (option_text options k) with Ok (JObj m) => members_ok_b m | _ => false end) PRICING_KEYS.

Lemma members_ok_spec m : members_ok_b m = true -> members_ok m.
Proof.
  unfold members_ok_b. intros H. bools. constructor; [done|]. rewrite forallb_forall in H0. apply List.Forall_forall.
  intros e He. specialize (H0 e He). bools. split; [by apply code_units_ok|done].
Qed.

Lemma options_ok_hold options : options_ok options = true -> options_hold options (records_of options).
Proof.
  unfold options_ok. rewrite forallb_forall. intros H k. specialize (H k (proj1 (list_elem_of_In _ _) (all_keys k))).
  unfold holds_members, records_of. destruct (JSON_parse _) as [[]|]; try done. split; [done|]. by apply members_ok_spec.
Qed.

(** * Changes *)

Definition configured_at (snapshot : pricing_config) (name : jsstr) (k : pricing_key) : option jsvalue :=
  match entry_of snapshot name with Some e => mget (en_configured e) k | None => None end.
Definition version_for (snapshot : pricing_config) (name : jsstr) : jsstr :=
  match entry_of snapshot name with Some e => en_version e | None => cfg_empty_version snapshot end.

(** Whether a model is billed by an expression. *)
Definition is_tiered_mode (mode : option jsvalue) : bool :=
  match mode with Some v => strict_eqb v (JStr (js "tiered_expr")) | None => false end.
(** The key whose value is sent: a changed one, and the mode and the expression of a model that is
    billed by an expression. *)
Definition is_sent (old new : pricing_key -> option jsvalue) (k : pricing_key) : bool :=
  differs (old k) (new k) || is_tiered_mode (new KMode) && bool_decide (k ∈ [KMode; KExpr]).
Definition sent (old new configured : pricing_key -> option jsvalue) (k : pricing_key) : option jsvalue :=
  if is_sent old new k then new k else configured k.

Lemma tiered_mode mode : is_tiered_mode mode = true -> mode = Some (JStr (js "tiered_expr")).
Proof.
  destruct mode as [[]|]; try done. cbn [is_tiered_mode strict_eqb]. intros H. apply str_eqb_eq in H as ->. done.
Qed.

Lemma dirty_set new dirty : forall p k,
  mget (fold_left (fun p k => mset k (new k) (mdelete k p)) dirty p) k =
  if bool_decide (k ∈ dirty) then new k else mget (p : pricing_values) k.
Proof.
  induction dirty as [|d dirty IH]; intros p k; [by rewrite bool_decide_false by apply not_elem_of_nil|].
  cbn [fold_left]. rewrite IH. destruct (decide (k ∈ dirty)) as [Hk|Hk].
  - rewrite !bool_decide_true by (rewrite ?elem_of_cons; auto). done.
  - rewrite (bool_decide_false (k ∈ dirty)) by done. rewrite mget_mset, mget_mdelete.
    destruct (decide (k = d)) as [->|Hd].
    + rewrite !bool_decide_true by (rewrite ?elem_of_cons; auto). done.
    + rewrite !bool_decide_false by (rewrite ?elem_of_cons; tauto). done.
Qed.

Lemma value_at_default (t : price_table) name k :
  value_at t name k = mget (match mget t name with Some v => v | None => [] end) k.
Proof. unfold value_at. unfold price_table, pricing_values in *. by destruct (mget t name). Qed.

Lemma change_spec snapshot previous next name :
  let old := value_at previous name in
  let new := value_at next name in
  (forall k, differs (old k) (new k) = false) /\ change_of snapshot previous next name = [] \/
  (exists k, differs (old k) (new k) = true) /\ exists pricing,
    change_of snapshot previous next name = [PricingChange name (version_for snapshot name) pricing] /\
    forall k, mget pricing k = sent old new (configured_at snapshot name) k.
Proof.
  intros old new. unfold change_of.
  set (new_values := match mget next name with Some v => v | None => [] end).
  assert (Hold : forall k, mget (match mget previous name with Some v => v | None => [] end) k = old k)
    by (intros k; symmetry; apply value_at_default).
  assert (Hnew : forall k, mget new_values k = new k) by (intros k; symmetry; apply value_at_default).
  clearbody new_values old new. set (dirty := List.filter _ _).
  assert (Hdirty : forall k, k ∈ dirty <-> differs (old k) (new k) = true).
  { intros k. unfold dirty. rewrite list_elem_of_In, filter_In, Hold, Hnew, <- list_elem_of_In. pose proof (all_keys k). tauto. }
  clearbody dirty. destruct dirty as [|d dirty].
  - left. split; [|done]. intros k. destruct (differs (old k) (new k)) eqn:E; [|done].
    by apply Hdirty, not_elem_of_nil in E.
  - right. split; [exists d; apply Hdirty; left|]. eexists. split; [reflexivity|]. intros k.
    unfold sent, is_sent, configured_at. rewrite Hnew. fold (is_tiered_mode (new KMode)).
    assert (Hbase : mget (fold_left (fun p k => mset k (mget new_values k) (mdelete k p)) (d :: dirty)
        match entry_of snapshot name with Some e => en_configured e | None => [] end) k =
      if differs (old k) (new k) then new k
      else match entry_of snapshot name with Some e => mget (en_configured e) k | None => None end).
    { rewrite dirty_set, Hnew. replace (bool_decide (k ∈ d :: dirty)) with (differs (old k) (new k)).
      2: { destruct (differs (old k) (new k)) eqn:E; symmetry; [by apply bool_decide_true, Hdirty|].
           apply bool_decide_false. rewrite Hdirty, E. done. }
      destruct (differs _ _); [done|]. by destruct (entry_of snapshot name). }
    destruct (is_tiered_mode (new KMode)) eqn:Em; cbn [andb orb]; [|by rewrite orb_false_r].
    rewrite mget_mset, mget_mput. destruct (decide (k = KExpr)) as [->|He].
    + rewrite !bool_decide_true by (done || right; left). by rewrite orb_true_r, Hnew.
    + rewrite (bool_decide_false (k = KExpr)) by done. destruct (decide (k = KMode)) as [->|Hm].
      * rewrite !bool_decide_true by (done || left). rewrite orb_true_r. by apply tiered_mode in Em.
      * rewrite (bool_decide_false (k = KMode)), (bool_decide_false (k ∈ [KMode; KExpr])), orb_false_r by
          (rewrite ?elem_of_cons, ?elem_of_nil; tauto). exact Hbase.
Qed.

(** The changes are those of the models with a value that differs, one for each. *)
Lemma changes_exact snapshot before after previous next :
  pricingValuesByModel before = Ok previous -> pricingValuesByModel after = Ok next -> exists changes,
  buildPricingChanges snapshot before after = Ok changes /\ NoDup (map ch_model_name changes) /\
  (forall name, (exists k, differs (value_at previous name k) (value_at next name k) = true) -> name ∈ map ch_model_name changes) /\
  forall c, c ∈ changes ->
    (exists k, differs (value_at previous (ch_model_name c) k) (value_at next (ch_model_name c) k) = true) /\
    ch_expected_version c = version_for snapshot (ch_model_name c) /\
    forall k, mget (ch_pricing c) k =
      sent (value_at previous (ch_model_name c)) (value_at next (ch_model_name c)) (configured_at snapshot (ch_model_name c)) k.
Proof.
  intros Hp Hn. unfold buildPricingChanges. rewrite Hp, Hn. eexists. split; [reflexivity|].
  destruct (distinct_spec (map fst previous ++ map fst next)) as [Hd Hin]. revert Hd Hin.
  generalize (distinct (map fst previous ++ map fst next)) as names. intros names Hd Hin. split_and!.
  - clear Hin. induction Hd as [|n names Hnn Hd IH]; [constructor|]. cbn [flat_map]. rewrite map_app.
    assert (Hsub : forall x, x ∈ map ch_model_name (flat_map (change_of snapshot previous next) names) -> x ∈ names).
    { intros x Hx. apply list_elem_of_In, in_map_iff in Hx as (c & <- & Hc). apply in_flat_map in Hc as (m & Hm & Hc).
      destruct (change_spec snapshot previous next m) as [[_ E]|(_ & p & E & _)]; rewrite E in Hc; [done|].
      destruct Hc as [<-|[]]. by apply list_elem_of_In. }
    destruct (change_spec snapshot previous next n) as [[_ ->]|(_ & p & -> & _)]; [done|].
    cbn [map app ch_model_name]. constructor; [|done]. intros Hx. by apply Hnn, Hsub.
  - intros name [k Hk]. apply list_elem_of_In, in_map_iff.
    destruct (change_spec snapshot previous next name) as [[Hnone _]|(_ & p & E & _)]; [by rewrite Hnone in Hk|].
    exists (PricingChange name (version_for snapshot name) p). split; [done|]. apply in_flat_map. exists name.
    split; [|rewrite E; by left]. apply list_elem_of_In, Hin, elem_of_app.
    destruct (decide (name ∈ map fst previous)) as [?|H1]; [by left|]. destruct (decide (name ∈ map fst next)) as [?|H2]; [by right|].
    apply mget_None in H1, H2. unfold value_at in Hk. rewrite H1, H2 in Hk. done.
  - intros c Hc. apply list_elem_of_In, in_flat_map in Hc as (m & Hm & Hc).
    destruct (change_spec snapshot previous next m) as [[_ E]|(Hk & p & E & Hg)]; rewrite E in Hc; [done|].
    destruct Hc as [<-|[]]. done.
Qed.

Lemma price_same v : is_price v = true -> strict_eqb v v = true.
Proof.
  destruct v as [| | |n|s| |]; try done; cbn [is_price prints strict_eqb]; [|by rewrite str_eqb_refl].
  unfold number_prints. intros H. bools. apply num_eqb_refl. by destruct n.
Qed.

Lemma members_price m name v : members_ok m -> own m name = Some v -> is_price v = true.
Proof. intros [_ Hp] Ho. apply own_In in Ho. rewrite Forall_elem in Hp. by destruct (Hp _ Ho). Qed.

(** The values of a draft, as a test that they survive printing. *)
Definition values_ok (values : pricing_values) : bool := forallb (fun e => is_price e.2) values.
Lemma values_price values k v : values_ok values = true -> mget values k = Some v -> is_price v = true.
Proof. unfold values_ok. rewrite forallb_forall. intros H Hk. apply mget_In, list_elem_of_In in Hk. by apply (H _ Hk). Qed.

(** C9. Saving a draft changes the chosen models and nothing else: the draft is applied to the ten texts,
    which then hold its values for these models and the old ones for all others, and the request that is
    built from the difference has at most one change for a model, names only chosen models, carries the
    version of their entry, and holds the value of the draft for every key that differs from what was
    shown (and for mode and expression of a model billed by an expression) and the stored value for every
    other key; a chosen model without a change had the values of the draft already. *)
Theorem pricing_draft_saved snapshot before data names values :
  options_ok before = true -> pricingFromDraft data = Ok values -> values_ok values = true ->
  Forall (Forall code_unit) names ->
  exists after shown saved changes,
    applyPricingDraft before data names = Ok after /\ buildPricingChanges snapshot before after = Ok changes /\
    pricingValuesByModel before = Ok shown /\ pricingValuesByModel after = Ok saved /\
    (forall name k, value_at saved name k = if bool_decide (name ∈ names) then mget values k else value_at shown name k) /\
    NoDup (map ch_model_name changes) /\
    (forall c, c ∈ changes -> ch_model_name c ∈ names /\ ch_expected_version c = version_for snapshot (ch_model_name c) /\
       forall k, mget (ch_pricing c) k =
         sent (value_at shown (ch_model_name c)) (mget values) (configured_at snapshot (ch_model_name c)) k) /\
    (forall name, name ∈ names -> name ∉ map ch_model_name changes -> forall k, differs (value_at shown name k) (mget values k) = false).
Proof.
  intros Hok Hdraft Hvalues Hnames. apply options_ok_hold in Hok.
  pose proof (fun k v => values_price values k v Hvalues) as Hprice.
  destruct (options_applied before _ values names Hok Hnames Hprice) as (after & Happ & Hhold).
  destruct (options_read before _ Hok) as (shown & Hs & _ & _ & Hsv). destruct (options_read after _ Hhold) as (saved & Ht & _ & _ & Htv).
  destruct (changes_exact snapshot before after shown saved Hs Ht) as (changes & Hc & Hn & Hall & Heach).
  assert (Hval : forall name k, value_at saved name k = if bool_decide (name ∈ names) then mget values k else value_at shown name k).
  { intros name k. by rewrite Htv, own_put_members, <- Hsv. }
  assert (Hkeep : forall name, name ∉ names -> forall k, differs (value_at shown name k) (value_at saved name k) = false).
  { intros name Hni k. rewrite Hval, bool_decide_false, Hsv by done. unfold differs.
    destruct (own (records_of before k) name) as [v|] eqn:E; [|done]. apply negb_false_iff, price_same.
    eapply members_price; [apply Hok|exact E]. }
  exists after, shown, saved, changes. unfold applyPricingDraft. rewrite Hdraft. split_and!; try done.
  - intros c Hin. destruct (Heach c Hin) as ((k & Hk) & Hver & Hg).
    assert (Hnm : ch_model_name c ∈ names).
    { destruct (decide (ch_model_name c ∈ names)) as [?|Hni]; [done|]. by rewrite (Hkeep _ Hni) in Hk. }
    split; [done|]. split; [done|]. intros k'. rewrite Hg. unfold sent, is_sent. rewrite !Hval, !bool_decide_true by done. done.
  - intros name Hin Hni k. destruct (differs (value_at shown name k) (mget values k)) eqn:E; [|done]. destruct Hni. apply Hall.
    exists k. by rewrite Hval, bool_decide_true.
Qed.

(** * Rows and drafts *)

Lemma json_digits_app s w r : json_digits s = Some (w, r) -> s = w ++ r.
Proof.
  unfold json_digits. pose proof (span_app is_digit s) as H. destruct (span is_digit s) as [[|c a] b]; [done|].
  cbn [fst snd] in H. intros [= <- <-]. by rewrite H.
Qed.

Lemma json_number_app s w r : json_number s = Some (w, r) -> s = w ++ r.
Proof.
  unfold json_number. intros H.
  set (sg := match s with c :: r => if (c =? 45)%Z then ([c], r) else ([], s) | [] => ([], s) end) in H.
  assert (Hs : s = sg.1 ++ sg.2) by (unfold sg; destruct s as [|c s]; [done|]; by destruct (c =? 45)%Z).
  clearbody sg. destruct sg as [sign s1]. cbn [fst snd] in Hs. subst s.
  destruct (json_digits s1) as [[ds s2]|] eqn:E1; [|done]. apply json_digits_app in E1 as ->.
  destruct (match ds with d :: _ :: _ => (d =? 48)%Z | _ => false end); [done|].
  set (fr := match s2 with c :: r => if (c =? 46)%Z then match json_digits r with Some (f, r) => Some (c :: f, r) | None => None end
                           else Some ([], s2) | [] => Some ([], s2) end) in H.
  assert (Hf : forall fs s3, fr = Some (fs, s3) -> s2 = fs ++ s3).
  { unfold fr. intros fs s3. destruct s2 as [|c s2]; [by intros [= <- <-]|]. destruct (c =? 46)%Z; [|by intros [= <- <-]].
    destruct (json_digits s2) as [[f r0]|] eqn:E2; [|done]. apply json_digits_app in E2 as ->. by intros [= <- <-]. }
  clearbody fr. destruct fr as [[fs s3]|]; [|done]. rewrite (Hf _ _ eq_refl). clear Hf s2.
  set (ex := match s3 with c :: r => _ | [] => _ end) in H.
  assert (He : forall es s4, ex = Some (es, s4) -> s3 = es ++ s4).
  { unfold ex. intros es s4. destruct s3 as [|c s3]; [by intros [= <- <-]|].
    destruct ((c =? 101)%Z || (c =? 69)%Z); [|by intros [= <- <-]].
    destruct s3 as [|x s3]; cbn; [done|]. destruct ((x =? 43)%Z || (x =? 45)%Z).
    - destruct (json_digits s3) as [[f r0]|] eqn:E2; [|done]. apply json_digits_app in E2 as ->. by intros [= <- <-].
    - destruct (json_digits (x :: s3)) as [[f r0]|] eqn:E2; [|done]. apply json_digits_app in E2. rewrite E2. by intros [= <- <-]. }
  clearbody ex. destruct ex as [[es s4]|]; [|done]. injection H as <- <-. rewrite (He _ _ eq_refl). by rewrite <- !app_assoc.
Qed.

(** A price that is a number survives being a text. *)
Lemma number_text n : number_prints n = true -> js_Number (num_to_string n) = n /\ num_to_string n <> [] /\ is_finite n = true.
Proof.
  unfold number_prints. intros H. bools. destruct (json_number (num_to_string n)) as [[t [|]]|] eqn:E; [|done|done].
  apply json_number_app in E as Et. rewrite app_nil_r in Et. bools. rewrite Et. split; [done|]. split; [|done].
  intros E0. rewrite Et, E0 in E. done.
Qed.

Lemma trim_object s : trim (123%Z :: s ++ [125%Z]) = 123%Z :: s ++ [125%Z].
Proof.
  unfold trim. cbn [trim_start]. replace (is_space 123) with false by (vm_compute; done).
  change (123%Z :: s ++ [125%Z]) with ((123%Z :: s) ++ [125%Z]). rewrite rev_app_distr. cbn [rev app].
  cbn [trim_start]. replace (is_space 125) with false by (vm_compute; done).
  cbn [rev]. by rewrite rev_app_distr, rev_involutive.
Qed.

Section Rows.
Context {O : ObjectPrototype}.
Variable name : jsstr.
Hypothesis Hunits : Forall code_unit name.
Hypothesis Hplain : inherited_text name = None.

Definition row_members (value : option jsvalue) : list (jsstr * jsvalue) :=
  match value with None => [] | Some v => [(name, v)] end.

Lemma row_text_parse value : (forall v, value = Some v -> is_price v = true) ->
  parse_record (row_text name value) = Ok (row_members value).
Proof.
  intros Hv. unfold row_text. fold (row_members value).
  assert (Hm : members_ok (row_members value)).
  { destruct value as [v|]; [|by repeat constructor]. constructor; [repeat constructor; apply not_elem_of_nil|].
    constructor; [|constructor]. split; [done|]. by apply Hv. }
  destruct (stringify_plain_parse _ (members_printable _ Hm)) as (t & Ht & Hread). rewrite Ht. cbn [text_or_empty].
  assert (Hshape : exists s, t = 123%Z :: s ++ [125%Z]).
  { unfold JSON_stringify_plain in Ht. cbn [json_text] in Ht. injection Ht as <-. unfold bracketed.
    destruct (member_texts _ _) as [|p ps]; [by exists []|]. eexists. cbn [line app]. reflexivity. }
  destruct Hshape as [s ->]. unfold parse_record, safeJsonParse. rewrite trim_object. cbn [truthy negb]. by rewrite Hread.
Qed.

(** The row of a model, from its values. *)
Definition value_text (values : pricing_values) (f : pricing_field) : jsstr :=
  match mget values (KField f) with Some v => to_text v | None => [] end.

Lemma distinct_same (l : list jsstr) a : l <> [] -> (forall x, x ∈ l -> x = a) -> distinct l = [a].
Proof.
  intros Hne Ha. destruct (distinct_spec l) as [Hn Hd].
  assert (Hall : forall x, x ∈ distinct l -> x = a) by (intros x Hx; apply Ha, Hd, Hx).
  assert (Hin : a ∈ distinct l).
  { apply Hd. destruct l as [|x l]; [done|]. rewrite (Ha x) by left. left. }
  destruct (distinct l) as [|x [|y m]]; [by apply not_elem_of_nil in Hin|by rewrite (Hall x) by left|].
  exfalso. apply list.NoDup_cons in Hn as [Hx _]. apply Hx. rewrite (Hall x), <- (Hall y) by (rewrite !elem_of_cons; auto). left.
Qed.

Definition value_records (values : pricing_values) : pricing_records :=
  map (fun k => (k, row_members (mget values k))) SNAPSHOT_ORDER.

Lemma record_at_values values k : record_at (value_records values) k = row_members (mget values k).
Proof. by destruct k as [[]| |]. Qed.

Lemma rows_of_values values : (forall k v, mget values k = Some v -> is_price v = true) -> is_some (mget values KMode) = true ->
  buildModelSnapshots (map (fun k => (k, row_text name (mget values k))) PRICING_KEYS) =
  let! row := snapshot_of (value_records values) name in Ok [row].
Proof.
  intros Hv Hm. unfold buildModelSnapshots.
  assert (Hseq : forall ks, sequence (map (fun k => let! m := parse_record (option_text
       (map (fun k => (k, row_text name (mget values k))) PRICING_KEYS) k) in Ok (k, m)) ks) =
     Ok (map (fun k => (k, row_members (mget values k))) ks)).
  { induction ks as [|k ks IH]; [done|]. cbn [map sequence].
    replace (option_text _ k) with (row_text name (mget values k)) by (by destruct k as [[]| |]).
    by rewrite row_text_parse, IH by (apply Hv). }
  rewrite Hseq. fold (value_records values).
  rewrite (distinct_same _ name).
  - cbn [map sequence]. by destruct (snapshot_of (value_records values) name).
  - intros E. destruct (mget values KMode) as [v|] eqn:Ev; [|done].
    assert (Hin : name ∈ concat (map (fun e => map fst e.2) (value_records values))).
    { apply list_elem_of_In, in_concat. exists [name]. split; [|by left]. apply in_map_iff. exists (KMode, row_members (mget values KMode)).
      split; [by rewrite Ev|]. unfold value_records. apply in_map_iff. exists KMode. split; [done|]. cbn. tauto. }
    rewrite E in Hin. by apply not_elem_of_nil in Hin.
  - intros x Hx. apply list_elem_of_In, in_concat in Hx as (l & Hl & Hx). apply in_map_iff in Hl as (e & <- & He).
    unfold value_records in He. apply in_map_iff in He as (k & <- & _). cbn [snd] in Hx.
    destruct (mget values k) as [v|]; cbn [row_members map fst] in Hx; [|done]. by destruct Hx as [<-|[]].
Qed.

Lemma member_text_value values f : member_text_of (record_at (value_records values) (KField f)) name = value_text values f.
Proof.
  rewrite record_at_values. unfold value_text, member_text_of. destruct (mget values (KField f)) as [v|]; cbn [row_members own].
  - by rewrite str_eqb_refl.
  - by rewrite Hplain.
Qed.
End Rows.

(** The number of a field of a draft. *)
Definition draft_number (data : model_prices) (f : pricing_field) : option number :=
  match field_text data f with Some ((_ :: _) as t) => Some (js_Number t) | _ => None end.

Lemma draft_fields_spec data fields : NoDup fields ->
  (forall f n, draft_number data f = Some n -> is_finite n = true /\ num_ltb n num_zero = false) ->
  forall values, exists vs, draft_fields data fields values = Ok vs /\
    forall k, mget vs k = match k with
      | KField f => match draft_number data f with
                    | Some n => if bool_decide (f ∈ fields) && mode_stores (mp_billingMode data) f then Some (JNum n) else mget values k
                    | None => mget values k
                    end
      | _ => mget values k
      end.
Proof.
  intros Hn Hok. induction Hn as [|f fields Hf Hn IH]; intros values.
  - exists values. split; [done|]. intros [f| |]; try done. destruct (draft_number data f); [|done].
    by rewrite bool_decide_false by apply not_elem_of_nil.
  - cbn [draft_fields].
    destruct (draft_number data f) as [n|] eqn:En.
    + destruct (Hok f n En) as [H1 H2].
      set (v1 := if mode_stores (mp_billingMode data) f then mput (KField f) (JNum n) values else values).
      assert (Hother : forall k, k <> KField f -> mget v1 k = mget values k).
      { intros k Hk. unfold v1. destruct (mode_stores _ f); [|done]. by rewrite mget_mput, bool_decide_false. }
      destruct (IH v1) as (vs & Hvs & Hg).
      exists vs. split.
      { unfold draft_number in En. destruct (field_text data f) as [[|c t]|]; try done. injection En as <-. by rewrite H1, H2. }
      intros k. rewrite Hg. destruct k as [g| |]; [|by apply Hother..].
      destruct (decide (g = f)) as [->|Hgf].
      * rewrite En, (bool_decide_false (f ∈ fields)), (bool_decide_true (f ∈ f :: fields)) by (done || left). cbn [andb].
        unfold v1. destruct (mode_stores _ f); [|done]. by rewrite mget_mput, bool_decide_true.
      * rewrite (Hother (KField g)) by congruence.
        replace (bool_decide (g ∈ f :: fields)) with (bool_decide (g ∈ fields)) by (apply bool_decide_ext; rewrite elem_of_cons; tauto).
        done.
    + destruct (IH values) as (vs & Hvs & Hg). exists vs. split.
      { unfold draft_number in En. destruct (field_text data f) as [[|c t]|]; done. }
      intros k. rewrite Hg. destruct k as [g| |]; [|done|done]. destruct (draft_number data g) as [n|] eqn:Eg; [|done].
      assert (g <> f) by congruence.
      replace (bool_decide (g ∈ f :: fields)) with (bool_decide (g ∈ fields)) by (apply bool_decide_ext; rewrite elem_of_cons; tauto).
      done.
Qed.

(** An expression that is put together again as it was. *)
Definition expression_kept (e : jsstr) : bool :=
  forallb is_code_unit e &&
  match splitBillingExprAndRequestRules e with Ok (b, r) => str_eqb (combineBillingExpr b r) e | Err _ => false end.

(** Values the server may hold: numbers that are prices, and an expression, or a price per request, or
    ratios. *)
Definition canonical_values (values : pricing_values) : bool :=
  forallb (fun f => match mget values (KField f) with
                    | None => true
                    | Some (JNum n) => number_prints n && negb (num_ltb n num_zero)
                    | _ => false
                    end) PRICE_FIELDS &&
  match mget values KMode with
  | Some (JStr m) =>
      if m === "tiered_expr" then match mget values KExpr with Some (JStr e) => expression_kept e | _ => false end
      else (m === "ratio") && negb (is_some (mget values KExpr)) &&
           (negb (is_some (mget values (KField FPrice))) ||
            forallb (fun f => negb (is_some (mget values (KField f)))) (tail PRICE_FIELDS))
  | _ => false
  end.

Lemma canonical_field values f v : canonical_values values = true -> mget values (KField f) = Some v ->
  exists n, v = JNum n /\ number_prints n = true /\ num_ltb n num_zero = false.
Proof.
  unfold canonical_values. intros H Hf. apply andb_true_iff in H as [H _]. rewrite forallb_forall in H.
  assert (Hin : In f PRICE_FIELDS) by (destruct f; cbn; tauto). specialize (H f Hin). rewrite Hf in H.
  destruct v as [| | |n| | |]; try done. apply andb_true_iff in H as [H1 H2]. exists n. split; [done|]. split; [done|].
  by apply negb_true_iff in H2.
Qed.

Lemma canonical_price values k v : canonical_values values = true -> mget values k = Some v -> is_price v = true.
Proof.
  intros H Hk. destruct k as [f| |].
  - destruct (canonical_field values f v H Hk) as (n & -> & Hn & _). done.
  - unfold canonical_values in H. rewrite Hk in H. apply andb_true_iff in H as [_ H]. destruct v as [| | | |m| |]; try done.
    cbn [is_price prints]. destruct (m === "tiered_expr") eqn:E; [by apply str_eqb_eq in E as ->|].
    destruct (m === "ratio") eqn:E'; [by apply str_eqb_eq in E' as ->|done].
  - unfold canonical_values in H. rewrite Hk in H. apply andb_true_iff in H as [_ H].
    destruct (mget values KMode) as [[| | | |m| |]|]; try done. destruct (m === "tiered_expr").
    + destruct v as [| | | |e| |]; try done. unfold expression_kept in H. by apply andb_true_iff in H as [H _].
    + cbn [is_some negb] in H. by rewrite andb_false_r in H.
Qed.

Lemma field_text_of name text mode expr rules conflict f :
  field_text (model_prices_of name text mode expr rules conflict) f = text f.
Proof. by destruct f. Qed.

Lemma value_number values f : canonical_values values = true ->
  match mget values (KField f) with
  | Some v => exists n, v = JNum n /\ value_text values f = num_to_string n /\ js_Number (value_text values f) = n /\
      value_text values f <> [] /\ is_finite n = true /\ num_ltb n num_zero = false
  | None => value_text values f = []
  end.
Proof.
  intros H. destruct (mget values (KField f)) as [v|] eqn:E; [|unfold value_text; by rewrite E].
  destruct (canonical_field values f v H E) as (n & -> & Hn & Hneg). destruct (number_text n Hn) as (H1 & H2 & H3).
  exists n. unfold value_text. rewrite E. cbn [to_text]. done.
Qed.

(** A draft whose texts are those of the values stores the values again. *)
Lemma values_stored name values mode expr rules conflict : canonical_values values = true ->
  (forall f v, mget values (KField f) = Some v -> mode_stores (Some mode) f = true) ->
  mget values KMode = Some (JStr (if mode === "tiered_expr" then js "tiered_expr" else js "ratio")) ->
  mget values KExpr = (if mode === "tiered_expr" then Some (JStr (combineBillingExpr (text_or_empty expr) (text_or_empty rules))) else None) ->
  exists back, pricingFromDraft (model_prices_of name (fun f => Some (value_text values f)) (Some mode) expr rules conflict) = Ok back /\
    forall k, mget back k = mget values k.
Proof.
  intros Hc Hst Hmode Hexpr. set (data := model_prices_of _ _ _ _ _ _).
  assert (Hnum : forall f, draft_number data f = match mget values (KField f) with Some (JNum n) => Some n | _ => None end).
  { intros f. unfold draft_number, data. rewrite field_text_of. pose proof (value_number values f Hc) as H.
    destruct (mget values (KField f)) as [v|]; [|by rewrite H]. destruct H as (n & -> & _ & H1 & H2 & _).
    destruct (value_text values f); [done|]. by rewrite H1. }
  destruct (draft_fields_spec data PRICE_FIELDS ltac:(apply (bool_decide_unpack _); vm_compute; exact I))
    with (values := [(KMode, JStr (if mode === "tiered_expr" then js "tiered_expr" else js "ratio"))]) as (vs & Hvs & Hg).
  { intros f n. rewrite Hnum. pose proof (value_number values f Hc) as H. destruct (mget values (KField f)) as [v|]; [|done].
    destruct H as (n' & -> & _ & _ & _ & H1 & H2). by intros [= <-]. }
  unfold pricingFromDraft. change (mp_billingMode data) with (Some mode) in *. cbn [mode_is].
  rewrite Hvs.
  assert (Hfields : forall f, mget vs (KField f) = mget values (KField f)).
  { intros f. rewrite Hg, Hnum. pose proof (value_number values f Hc) as H. destruct (mget values (KField f)) as [v|] eqn:E; [|done].
    destruct H as (n & -> & _). rewrite bool_decide_true by (apply list_elem_of_In; destruct f; cbn; tauto). by rewrite (Hst f _ E). }
  eexists. split; [reflexivity|]. intros k. destruct (mode === "tiered_expr") eqn:Et.
  - rewrite mget_mput. change (mp_billingExpr data) with expr. change (mp_requestRuleExpr data) with rules.
    destruct k as [f| |]; [by rewrite bool_decide_false|rewrite bool_decide_false by done; by rewrite Hg, Hmode|by rewrite bool_decide_true, Hexpr].
  - destruct k as [f| |]; [done|by rewrite Hg, Hmode|by rewrite Hg, Hexpr].
Qed.

Section Snapshot.
Context {O : ObjectPrototype} (name : jsstr) (values : pricing_values).
Hypothesis Hplain : inherited_text name = None.
Hypothesis Hvalues : canonical_values values = true.

(** The row of the values: billed by an expression, or by a price or ratios without a conflict. *)
Lemma snapshot_of_values : exists mode expr rules,
  snapshot_of (value_records name values) name =
    Ok (model_prices_of name (fun f => Some (value_text values f)) (Some mode) expr rules (Some false)) /\
  (mode = js "tiered_expr" \/ mode = if truthy (value_text values FPrice) then js "per-request" else js "per-token") /\
  (forall f v, mget values (KField f) = Some v -> mode_stores (Some mode) f = true) /\
  mget values KMode = Some (JStr (if mode === "tiered_expr" then js "tiered_expr" else js "ratio")) /\
  mget values KExpr = (if mode === "tiered_expr" then Some (JStr (combineBillingExpr (text_or_empty expr) (text_or_empty rules))) else None).
Proof.
  pose proof (fun f => member_text_value name Hplain values f) as Htext.
  pose proof Hvalues as Hc. unfold canonical_values in Hc. apply andb_true_iff in Hc as [_ Hm].
  unfold snapshot_of, model_prices_of. rewrite !Htext. rewrite !record_at_values.
  destruct (mget values KMode) as [[| | | |m| |]|] eqn:Ek; try done. cbn [row_members own]. rewrite str_eqb_refl. cbn [strict_eqb].
  change (str_eqb m (js "tiered_expr")) with (m === "tiered_expr"). destruct (m === "tiered_expr") eqn:Et.
  - destruct (mget values KExpr) as [[| | | |e| |]|] eqn:Ee; try done. unfold expression_kept in Hm.
    destruct (splitBillingExprAndRequestRules e) as [[b r]|] eqn:Es; [|by rewrite andb_false_r in Hm].
    apply andb_true_iff in Hm as [_ Hm]. apply str_eqb_eq in Hm. apply str_eqb_eq in Et as ->.
    unfold expression_member. cbn [row_members own]. rewrite str_eqb_refl, Es. cbn [from_json].
    exists (js "tiered_expr"), (Some b), (Some r). split; [done|]. split; [by left|]. split; [done|]. split; [done|].
    cbn [text_or_empty]. by rewrite Hm.
  - apply andb_true_iff in Hm as [Hm Hx]. apply andb_true_iff in Hm as [Hr He].
    destruct (m === "ratio") eqn:Em; [|done]. apply str_eqb_eq in Em as ->.
    destruct (mget values KExpr) eqn:Ee; [done|].
    assert (Hex : truthy (value_text values FPrice) = is_some (mget values (KField FPrice))).
    { pose proof (value_number values FPrice Hvalues) as H. destruct (mget values (KField FPrice)); [|by rewrite H].
      destruct H as (n & _ & _ & _ & H & _). by destruct (value_text values FPrice). }
    exists (if truthy (value_text values FPrice) then js "per-request" else js "per-token"), None, None.
    rewrite Hex. split_and!.
    + f_equal. f_equal. f_equal. destruct (is_some (mget values (KField FPrice))); [|done]. cbn [negb orb] in Hx.
      rewrite forallb_forall in Hx. cbn [existsb andb].
      assert (Hn : forall f, In f (tail PRICE_FIELDS) -> truthy (value_text values f) = false).
      { intros f Hf. specialize (Hx f Hf). pose proof (value_number values f Hvalues) as H. destruct (mget values (KField f)); [done|by rewrite H]. }
      by rewrite !Htext, !Hn by (cbn; tauto).
    + by right.
    + intros f v Hf. destruct (is_some (mget values (KField FPrice))) eqn:Ep.
      * cbn [negb orb] in Hx. rewrite forallb_forall in Hx. destruct (decide (f = FPrice)) as [->|Hne]; [done|].
        assert (Hin : In f (tail PRICE_FIELDS)) by (destruct f; cbn; tauto). specialize (Hx f Hin). by rewrite Hf in Hx.
      * destruct (decide (f = FPrice)) as [->|Hne]; [by rewrite Hf in Ep|]. by destruct f.
    + by destruct (is_some (mget values (KField FPrice))).
    + by destruct (is_some (mget values (KField FPrice))).
Qed.
End Snapshot.

Lemma pricing_row_of {O : ObjectPrototype} name values mode expr rules : Forall code_unit name -> canonical_values values = true ->
  is_some (mget values KMode) = true ->
  snapshot_of (value_records name values) name =
    Ok (model_prices_of name (fun f => Some (value_text values f)) (Some mode) expr rules (Some false)) ->
  (mode = js "tiered_expr" \/ mode = if truthy (value_text values FPrice) then js "per-request" else js "per-token") ->
  pricingRow name values = Ok (model_prices_of name (fun f => Some (value_text values f)) (Some mode) expr rules (Some false)).
Proof.
  intros Hu Hc Hm Hrow Hmode. unfold pricingRow, pricingRows.
  rewrite (rows_of_values name Hu values (fun k v => canonical_price values k v Hc) Hm), Hrow. unfold model_prices_of. cbn.
  destruct Hmode as [-> | ->]; [done|]. by destruct (truthy (value_text values FPrice)).
Qed.

(** What the editor shows of the stored prices of a model, it stores again: for values that bill by an
    expression, by a price per request or by ratios, the row built from them, taken as a draft, gives
    values that agree with them on every key, and the row reports no conflict. *)
Theorem pricing_row_roundtrip {O : ObjectPrototype} name values :
  Forall code_unit name -> inherited_text name = None -> canonical_values values = true ->
  exists row back, pricingRow name values = Ok row /\ mp_name row = name /\ mp_hasConflict row = Some false /\
    pricingFromDraft row = Ok back /\ forall k, mget back k = mget values k.
Proof.
  intros Hu Hp Hc. destruct (snapshot_of_values name values Hp Hc) as (mode & expr & rules & Hrow & Hmode & Hst & Hm & He).
  destruct (values_stored name values mode expr rules (Some false) Hc Hst Hm He) as (back & Hb & Hg).
  eexists _, back. split; [apply (pricing_row_of name values mode expr rules Hu Hc); [by rewrite Hm|done|done]|]. done.
Qed.

(** * Synchronization *)

(** The values of a draft without texts in its fields. *)
Lemma expression_draft data : mode_is (mp_billingMode data) "tiered_expr" = true -> (forall f, draft_number data f = None) ->
  pricingFromDraft data = Ok [(KMode, JStr (js "tiered_expr"));
    (KExpr, JStr (combineBillingExpr (text_or_empty (mp_billingExpr data)) (text_or_empty (mp_requestRuleExpr data))))].
Proof.
  intros Hm Hf. unfold pricingFromDraft. rewrite Hm.
  assert (H : forall fields values, draft_fields data fields values = Ok values).
  { induction fields as [|f fields IH]; intros values; [done|]. cbn [draft_fields]. specialize (Hf f). unfold draft_number in Hf.
    by destruct (field_text data f) as [[|c t]|]. }
  by rewrite H.
Qed.

(** A synchronized expression is stored as it came, in place of everything else. *)
Lemma sync_imports_literally {O : ObjectPrototype} options name fields e parts :
  options_ok options = true -> Forall code_unit name -> inherited_text name = None ->
  sync_expression fields = Some e -> forallb is_code_unit e = true -> splitBillingExprAndRequestRules e = Ok parts ->
  exists after t, applyPriceSyncSelections options [(name, fields)] = Ok after /\ pricingValuesByModel after = Ok t /\
    forall k, value_at t name k = match k with
                                  | KMode => Some (JStr (js "tiered_expr"))
                                  | KExpr => Some (JStr e)
                                  | KField _ => None
                                  end.
Proof.
  intros Hok Hu Hp He Hunits Hsplit. destruct parts as [b r].
  set (values := [(KMode, JStr (js "tiered_expr")); (KExpr, JStr e)] : pricing_values).
  assert (Hprice : forall k v, mget values k = Some v -> is_price v = true).
  { intros k v Hk. apply mget_In in Hk. apply elem_of_cons in Hk as [[= _ ->]|Hk]; [done|]. by apply list_elem_of_singleton in Hk as [= _ ->]. }
  assert (Hrow : exists data, pricingRow name values = Ok data /\ mode_is (mp_billingMode data) "tiered_expr" = true /\
    forall f, draft_number data f = None).
  { unfold pricingRow, pricingRows. rewrite (rows_of_values name Hu values Hprice eq_refl).
    assert (Hs : snapshot_of (value_records name values) name =
      Ok (model_prices_of name (fun _ => Some []) (Some (js "tiered_expr")) (Some b) (Some r) (Some false))).
    { pose proof (fun f => member_text_value name Hp values f) as Htext. unfold snapshot_of, model_prices_of. rewrite !Htext, !record_at_values.
      change (mget values KMode) with (Some (JStr (js "tiered_expr"))). change (mget values KExpr) with (Some (JStr e)).
      unfold expression_member. cbn [row_members own]. by rewrite !str_eqb_refl, Hsplit. }
    rewrite Hs. eexists. split; [reflexivity|]. split; [done|]. by intros []. }
  destruct Hrow as (data & Hrow & Hmode & Hf).
  destruct (options_applied options _ (mput KExpr (JStr e) [(KMode, JStr (js "tiered_expr"));
    (KExpr, JStr (combineBillingExpr (text_or_empty (mp_billingExpr data)) (text_or_empty (mp_requestRuleExpr data))))])
    [name] (options_ok_hold options Hok)) as (after & Ha & Hhold).
  { by repeat constructor. }
  { exact Hprice. }
  destruct (options_read after _ Hhold) as (t & Ht & _ & _ & Hg). exists after, t.
  split; [|split; [done|]].
  - cbn [applyPriceSyncSelections]. unfold sync_values. rewrite He. fold values. rewrite Hrow, (expression_draft data Hmode Hf). by rewrite Ha.
  - intros k. rewrite Hg, own_put_members, bool_decide_true by left. by destruct k as [[]| |].
Qed.

(** Rows with one signature have the same texts, mode and expressions. *)
Lemma signature_exact a b : prints (signature_object a) = true -> prints (signature_object b) = true ->
  getSnapshotSignature (Some a) = getSnapshotSignature (Some b) -> signature_object a = signature_object b.
Proof.
  intros Ha Hb. cbn [getSnapshotSignature].
  destruct (stringify_plain_parse _ (prints_printable _ Ha)) as (s & -> & Hs).
  destruct (stringify_plain_parse _ (prints_printable _ Hb)) as (t & -> & Ht).
  cbn [text_or_empty]. intros ->. congruence.
Qed.

(** * Witnesses *)

Definition no_members : ObjectPrototype := {| inherited_text _ := None |}.

(** Two priced models; the second is billed by an expression. *)
Definition sample_options : pricing_options :=
  pricingOptions [(js "ModelPrice", JStr (quotes "{'edited':1}")); (js "BillingMode", JStr (quotes "{'builtin':'tiered_expr'}"));
                  (js "BillingExpr", JStr (quotes "{'builtin':'tier(\'base\', p * 2)'}"))].
Definition sample_snapshot : pricing_config :=
  PricingConfig [PricingEntry (js "edited") (js "v1") [(KField FPrice, JNum num_one)]] (js "empty").
Definition sample_draft : model_prices :=
  model_prices_of (js "edited") (fun f => match f with FPrice => Some (js "2") | _ => None end) (Some (js "per-request")) None None None.
Definition sample_values : pricing_values := [(KMode, JStr (js "ratio")); (KField FPrice, JNum (num_of_Z 2))].

Lemma code_units_of s : forallb is_code_unit s = true -> Forall code_unit s.
Proof. apply code_units_ok. Qed.

Lemma pricing_draft_saved_witness : exists after changes,
  applyPricingDraft sample_options sample_draft [js "edited"] = Ok after /\
  buildPricingChanges sample_snapshot sample_options after = Ok changes /\
  forall c, c ∈ changes -> ch_model_name c = js "edited" /\ ch_expected_version c = js "v1" /\
    mget (ch_pricing c) (KField FPrice) = Some (JNum (num_of_Z 2)).
Proof.
  destruct (pricing_draft_saved sample_snapshot sample_options sample_draft [js "edited"] sample_values)
    as (after & shown & saved & changes & H1 & H2 & H3 & _ & _ & _ & H4 & _).
  - vm_compute. reflexivity.
  - vm_compute. reflexivity.
  - vm_compute. reflexivity.
  - constructor; [apply code_units_of; reflexivity|constructor].
  - exists after, changes. split; [exact H1|]. split; [exact H2|]. intros c Hc. destruct (H4 c Hc) as (Hn & Hv & Hg).
    apply list_elem_of_singleton in Hn. rewrite Hg, Hn. split; [reflexivity|]. split; [rewrite Hv, Hn; vm_compute; reflexivity|].
    vm_compute in H3. injection H3 as <-. vm_compute. reflexivity.
Defined.

Definition expression_values : pricing_values :=
  [(KMode, JStr (js "tiered_expr")); (KField FRatio, JNum num_one); (KExpr, JStr (quotes "tier('base', p * 2 + c * 8)"))].
Lemma pricing_row_roundtrip_witness : exists row back,
  pricingRow (O := no_members) (js "m") expression_values = Ok row /\ pricingFromDraft row = Ok back /\
  mget back KExpr = mget expression_values KExpr.
Proof.
  destruct (pricing_row_roundtrip (O := no_members) (js "m") expression_values) as (row & back & H1 & _ & _ & H2 & H3).
  - apply code_units_of. reflexivity.
  - reflexivity.
  - vm_compute. reflexivity.
  - exists row, back. split; [exact H1|]. split; [exact H2|]. apply H3.
Defined.

(** A model whose name is that of an inherited member cannot be edited: its row takes the text of the
    member for a price. *)
Definition with_constructor : ObjectPrototype :=
  {| inherited_text name := if name === "constructor" then Some (js "function Object() { [native code] }") else None |}.
Lemma inherited_name_refused :
  match pricingRow (O := with_constructor) (js "constructor") [(KMode, JStr (js "ratio")); (KField FPrice, JNum num_one)] with
  | Ok row => mp_hasConflict row = Some true /\ pricingFromDraft row = Err PriceNotFinite
  | Err _ => False
  end.
Proof. vm_compute. split; reflexivity. Qed.
