(* ===== verification/PricingPanel.v ===== *)
(** The editor of the prices of a model: the prices in dollars of
    [system-settings/models/model-pricing-core.ts] and the state and handlers of
    [model-pricing-sheet.tsx], which keep the stored ratios in step with the prices on
    the page. *)
From Stdlib Require Import ZArith Lia Bool String SpecFloat.
From stdpp Require Import base list option.
From S2P Require Import Prelude JsString JsNumber Types JsValue Collections Display Json JsonText RequestRules TaskExpr Currency Catalogue ModelPricing PricingFacts.

(** * Lanes *)

(** [LaneKey]: the prices that depend on the price of the input, in the order of [laneConfigs]. *)
Inductive lane_key := LCompletion | LCache | LCreateCache | LImage | LAudioInput | LAudioOutput.
#[export] Instance lane_key_eq_dec : EqDecision lane_key.
Proof. solve_decision. Defined.
Definition LANES : list lane_key := [LCompletion; LCache; LCreateCache; LImage; LAudioInput; LAudioOutput].

(** [Record<LaneKey, A>]. *)
Record lanes (A : Type) := Lanes {
  ln_completion : A; ln_cache : A; ln_createCache : A; ln_image : A; ln_audioInput : A; ln_audioOutput : A;
}.
Arguments Lanes {A} _ _ _ _ _ _.
Arguments ln_completion {A} _.
Arguments ln_cache {A} _.
Arguments ln_createCache {A} _.
Arguments ln_image {A} _.
Arguments ln_audioInput {A} _.
Arguments ln_audioOutput {A} _.

Definition lane_get {A} (l : lanes A) (k : lane_key) : A :=
  match k with
  | LCompletion => ln_completion l | LCache => ln_cache l | LCreateCache => ln_createCache l
  | LImage => ln_image l | LAudioInput => ln_audioInput l | LAudioOutput => ln_audioOutput l
  end.
Definition lane_set {A} (k : lane_key) (v : A) (l : lanes A) : lanes A :=
  let '(Lanes a b c d e f) := l in
  match k with
  | LCompletion => Lanes v b c d e f | LCache => Lanes a v c d e f | LCreateCache => Lanes a b v d e f
  | LImage => Lanes a b c v e f | LAudioInput => Lanes a b c d v f | LAudioOutput => Lanes a b c d e v
  end.
Definition lanes_of {A} (f : lane_key -> A) : lanes A :=
  Lanes (f LCompletion) (f LCache) (f LCreateCache) (f LImage) (f LAudioInput) (f LAudioOutput).

Definition EMPTY_LANE_PRICES : lanes jsstr := lanes_of (fun _ => []).
Definition EMPTY_LANE_ENABLED : lanes bool := lanes_of (fun _ => false).

Definition ratioFieldByLane (k : lane_key) : pricing_field :=
  match k with
  | LCompletion => FCompletion | LCache => FCache | LCreateCache => FCreateCache
  | LImage => FImage | LAudioInput => FAudio | LAudioOutput => FAudioCompletion
  end.

(** * Prices from ratios ([model-pricing-core.ts]) *)

(** A text that may be missing, as a value. *)
Definition text_value (x : option jsstr) : jsvalue := match x with Some s => JStr s | None => JUndefined end.

Definition ratioToBasePrice (ratio : jsvalue) : jsstr :=
  match toNumberOrNull ratio with
  | None => []
  | Some num => formatPricingNumber (JNum (num_mul num (num_of_Z 2)))
  end.

Definition deriveLanePrice (ratio denominator : jsvalue) : jsstr :=
  match toNumberOrNull ratio, toNumberOrNull denominator with
  | Some r, Some d => formatPricingNumber (JNum (num_mul r d))
  | _, _ => []
  end.

Definition createInitialLaneState (data : option model_prices) : jsstr * lanes jsstr * lanes bool :=
  match data with
  | None => ([], EMPTY_LANE_PRICES, EMPTY_LANE_ENABLED)
  | Some data =>
      let promptPrice := ratioToBasePrice (text_value (mp_ratio data)) in
      let lane ratio := deriveLanePrice (text_value ratio) (JStr promptPrice) in
      let audioInputPrice := lane (mp_audioRatio data) in
      (promptPrice,
       Lanes (lane (mp_completionRatio data)) (lane (mp_cacheRatio data)) (lane (mp_createCacheRatio data))
         (lane (mp_imageRatio data)) audioInputPrice
         (deriveLanePrice (text_value (mp_audioCompletionRatio data)) (JStr audioInputPrice)),
       lanes_of (fun k => hasValue (text_value (field_text data (ratioFieldByLane k)))))
  end.

Inductive pricing_mode := PerToken | PerRequest | TieredExpr.
#[export] Instance pricing_mode_eq_dec : EqDecision pricing_mode.
Proof. solve_decision. Defined.
Definition mode_name (m : pricing_mode) : string :=
  match m with PerToken => "per-token" | PerRequest => "per-request" | TieredExpr => "tiered_expr" end.

(** [ModelPricingFormValues]; a field that is not set is the empty text. *)
Record form_values := FormValues {
  fv_name : jsstr;
  fv_price : jsstr;
  fv_ratio : jsstr;
  fv_lanes : lanes jsstr; (* by [ratioFieldByLane] *)
}.

(** [PreviewRow]. *)
Record preview_row := PreviewRow { pr_key : string; pr_label : jsstr; pr_value : jsstr; pr_multiline : bool }.

Definition buildPreviewRows (values : form_values) (mode : pricing_mode) (billingExpr requestRuleExpr promptPrice : jsstr)
    (lanePrices : lanes jsstr) (laneEnabled : lanes bool) (t : string -> jsstr) (currency : pricing_currency)
  : list preview_row :=
  let amount enabled price :=
    if enabled && truthy price then formatPricingAmount (JStr price) currency else t "Empty"%string in
  let lane key label k :=
    PreviewRow key (t label) (amount (lane_get laneEnabled k) (lane_get lanePrices k)) false in
  match mode with
  | TieredExpr =>
      let effectiveExpr := combineBillingExpr billingExpr requestRuleExpr in
      [PreviewRow "mode" (t "Pricing"%string) (t "Expression"%string) false;
       PreviewRow "expr" (t "Expression"%string ++ js " (USD)")
         (if truthy effectiveExpr then effectiveExpr else t "Empty"%string) true]
  | PerRequest => [PreviewRow "price" (t "Fixed price"%string) (amount true (fv_price values)) false]
  | PerToken =>
      [PreviewRow "inputPrice" (t "Input price"%string) (amount true promptPrice) false;
       lane "completion" "Completion price" LCompletion;
       lane "cache" "Cache read price" LCache;
       lane "createCache" "Cache write price" LCreateCache;
       lane "image" "Image input price" LImage;
       lane "audio" "Audio input price" LAudioInput;
       lane "audioCompletion" "Audio output price" LAudioOutput]%string
  end.

(** * The panel ([model-pricing-sheet.tsx]) *)

Definition DEFAULT_TOKEN_BILLING_EXPR : jsstr := quotes "tier('base', p * 0 + c * 0)".

(** The states of the component, with the values of its form. *)
Record panel := Panel {
  pn_mode : pricing_mode;
  pn_promptPrice : jsstr;
  pn_prices : lanes jsstr;
  pn_enabled : lanes bool;
  pn_billingExpr : jsstr;
  pn_requestRuleExpr : jsstr;
  pn_form : form_values;
  pn_autoSwitchedFor : option jsstr;
}.

Definition set_mode (m : pricing_mode) (p : panel) : panel :=
  Panel m (pn_promptPrice p) (pn_prices p) (pn_enabled p) (pn_billingExpr p) (pn_requestRuleExpr p) (pn_form p) (pn_autoSwitchedFor p).
Definition set_prompt (v : jsstr) (p : panel) : panel :=
  Panel (pn_mode p) v (pn_prices p) (pn_enabled p) (pn_billingExpr p) (pn_requestRuleExpr p) (pn_form p) (pn_autoSwitchedFor p).
Definition set_prices (v : lanes jsstr) (p : panel) : panel :=
  Panel (pn_mode p) (pn_promptPrice p) v (pn_enabled p) (pn_billingExpr p) (pn_requestRuleExpr p) (pn_form p) (pn_autoSwitchedFor p).
Definition set_enabled (v : lanes bool) (p : panel) : panel :=
  Panel (pn_mode p) (pn_promptPrice p) (pn_prices p) v (pn_billingExpr p) (pn_requestRuleExpr p) (pn_form p) (pn_autoSwitchedFor p).
Definition set_exprs (e r : jsstr) (p : panel) : panel :=
  Panel (pn_mode p) (pn_promptPrice p) (pn_prices p) (pn_enabled p) e r (pn_form p) (pn_autoSwitchedFor p).
Definition set_form (v : form_values) (p : panel) : panel :=
  Panel (pn_mode p) (pn_promptPrice p) (pn_prices p) (pn_enabled p) (pn_billingExpr p) (pn_requestRuleExpr p) v (pn_autoSwitchedFor p).
Definition set_switched (v : option jsstr) (p : panel) : panel :=
  Panel (pn_mode p) (pn_promptPrice p) (pn_prices p) (pn_enabled p) (pn_billingExpr p) (pn_requestRuleExpr p) (pn_form p) v.

(** [setFormValue] of the ratio and of the ratio of a lane. *)
Definition set_ratio (v : jsstr) (p : panel) : panel :=
  let f := pn_form p in set_form (FormValues (fv_name f) (fv_price f) v (fv_lanes f)) p.
Definition set_lane_ratio (k : lane_key) (v : jsstr) (p : panel) : panel :=
  let f := pn_form p in set_form (FormValues (fv_name f) (fv_price f) (fv_ratio f) (lane_set k v (fv_lanes f))) p.

(** The mode of stored prices. *)
Definition stored_mode (editData : option model_prices) : pricing_mode :=
  match editData with
  | Some d => if mode_is (mp_billingMode d) "tiered_expr" then TieredExpr
              else if truthy (text_or_empty (mp_price d)) then PerRequest else PerToken
  | None => PerToken
  end.

(** The effect that runs when the edited model changes. *)
Definition reset_panel (editData : option model_prices) : panel :=
  let '(promptPrice, prices, enabled) := createInitialLaneState editData in
  let text f := match editData with Some d => text_or_empty (field_text d f) | None => [] end in
  Panel (stored_mode editData) promptPrice prices enabled
    (match editData with Some d => text_or_empty (mp_billingExpr d) | None => [] end)
    (match editData with Some d => text_or_empty (mp_requestRuleExpr d) | None => [] end)
    (FormValues (match editData with Some d => mp_name d | None => [] end) (text FPrice) (text FRatio)
       (lanes_of (fun k => text (ratioFieldByLane k))))
    None.

(** The effect that offers an expression for an unpriced model with a schema; [schema] is
    [usageSchema ?? usageSchemaByModel.get(editData.name)]. *)
Definition auto_switch (editData : option model_prices) (schema : option usage_schema) (p : panel) : panel :=
  match editData with
  | None => p
  | Some d =>
      if mode_is (mp_billingMode d) "tiered_expr" then p
      else if truthy (text_or_empty (mp_price d)) || truthy (text_or_empty (mp_ratio d)) then p
      else match schema with
           | Some (_ :: _) =>
               if bool_decide (pn_autoSwitchedFor p = Some (mp_name d)) then p
               else set_switched (Some (mp_name d)) (set_mode TieredExpr p)
           | _ => p
           end
  end.

Definition deriveLaneRatio (lane : lane_key) (price nextPromptPrice : jsstr) (nextLanePrices : lanes jsstr) : jsstr :=
  match toNumberOrNull (JStr price) with
  | None => []
  | Some priceNumber =>
      let base := match lane with
                  | LAudioOutput => toNumberOrNull (JStr (ln_audioInput nextLanePrices))
                  | _ => toNumberOrNull (JStr nextPromptPrice)
                  end in
      match base with
      | None => []
      | Some b => if num_eqb b num_zero then [] else formatPricingNumber (JNum (num_div priceNumber b))
      end
  end.

(** The ratio of the price of the input. *)
Definition prompt_ratio (promptPrice : jsstr) : jsstr :=
  match toNumberOrNull (JStr promptPrice) with
  | Some inputPrice => formatPricingNumber (JNum (num_div inputPrice (num_of_Z 2)))
  | None => []
  end.

Definition syncLaneRatios (nextPromptPrice : jsstr) (nextLanePrices : lanes jsstr) (nextLaneEnabled : lanes bool)
    (p : panel) : panel :=
  fold_left (fun p key =>
      set_lane_ratio key
        (if negb (lane_get nextLaneEnabled key) then []
         else deriveLaneRatio key (lane_get nextLanePrices key) nextPromptPrice nextLanePrices) p)
    LANES (set_ratio (prompt_ratio nextPromptPrice) p).

Definition handlePromptPriceChange (value : jsstr) (p : panel) : panel :=
  syncLaneRatios value (pn_prices p) (pn_enabled p) (set_prompt value p).

Definition handleLanePriceChange (lane : lane_key) (value : jsstr) (p : panel) : panel :=
  let nextLanePrices := lane_set lane value (pn_prices p) in
  let p1 := set_prices nextLanePrices p in
  let p2 := if lane_get (pn_enabled p) lane
            then set_lane_ratio lane (deriveLaneRatio lane value (pn_promptPrice p) nextLanePrices) p1 else p1 in
  if bool_decide (lane = LAudioInput) && ln_audioOutput (pn_enabled p)
  then set_lane_ratio LAudioOutput
         (deriveLaneRatio LAudioOutput (ln_audioOutput nextLanePrices) (pn_promptPrice p) nextLanePrices) p2
  else p2.

Definition handleLaneToggle (lane : lane_key) (checked : bool) (p : panel) : panel :=
  let nextEnabled := lane_set lane checked (pn_enabled p) in
  if checked
  then set_lane_ratio lane (deriveLaneRatio lane (lane_get (pn_prices p) lane) (pn_promptPrice p) (pn_prices p))
         (set_enabled nextEnabled p)
  else
    let nextPrices := lane_set lane [] (pn_prices p) in
    let p1 := set_lane_ratio lane [] p in
    if bool_decide (lane = LAudioInput)
    then set_prices (lane_set LAudioOutput [] nextPrices)
           (set_enabled (lane_set LAudioOutput false nextEnabled) (set_lane_ratio LAudioOutput [] p1))
    else set_prices nextPrices (set_enabled nextEnabled p1).

Section Expressions.
Context {C : Collation}.

(** [defaultTaskBillingExpr] for the schema of the task. *)
Definition default_task_expr (taskUsageSchema : option usage_schema) : jsstr :=
  match taskUsageSchema with
  | Some schema => generateTaskExprFromConfig (Some (createDefaultTaskVisualConfig schema)) schema
  | None => []
  end.

Definition resolvedBillingExpr (taskUsageSchema : option usage_schema) (billingExpr : jsstr) : jsstr :=
  if is_some taskUsageSchema && (negb (truthy billingExpr) || str_eqb billingExpr DEFAULT_TOKEN_BILLING_EXPR)
  then default_task_expr taskUsageSchema else billingExpr.

Definition handleModeChange (taskUsageSchema : option usage_schema) (nextMode : pricing_mode) (p : panel) : panel :=
  let p := set_mode nextMode p in
  if bool_decide (nextMode = TieredExpr) && negb (truthy (pn_billingExpr p))
  then let default := default_task_expr taskUsageSchema in
       set_exprs (if truthy default then default else DEFAULT_TOKEN_BILLING_EXPR) (pn_requestRuleExpr p) p
  else p.

(** * Saving *)

Inductive pricing_problem := BasePriceZero | InputPriceRequired | AudioInputRequired.

(** A price that is a number above zero. *)
Definition price_positive (price : jsstr) : bool :=
  match toNumberOrNull (JStr price) with Some x => num_ltb num_zero x | None => false end.
(** [toNumberOrNull(price) === 0]. *)
Definition price_zero (price : jsstr) : bool :=
  match toNumberOrNull (JStr price) with Some x => num_eqb x num_zero | None => false end.

Definition validatePricingValues (p : panel) : option pricing_problem :=
  let prices := pn_prices p in
  let enabled := pn_enabled p in
  if negb (bool_decide (pn_mode p = PerToken)) then None
  else if (price_zero (pn_promptPrice p) &&
           existsb (fun k => lane_get enabled k && price_positive (lane_get prices k)) LANES) ||
          (price_zero (ln_audioInput prices) && ln_audioOutput enabled && price_positive (ln_audioOutput prices))
  then Some BasePriceZero
  else if negb (is_some (toNumberOrNull (JStr (pn_promptPrice p)))) &&
          existsb (fun k => lane_get enabled k && hasValue (JStr (lane_get prices k))) LANES
  then Some InputPriceRequired
  else if ln_audioOutput enabled && negb (hasValue (JStr (ln_audioInput prices)))
  then Some AudioInputRequired
  else None.

Definition buildSubmitData (taskUsageSchema : option usage_schema) (p : panel) : model_prices :=
  let f := pn_form p in
  let text k := match k with
                | FPrice => fv_price f
                | FRatio => fv_ratio f
                | FCompletion => ln_completion (fv_lanes f)
                | FCache => ln_cache (fv_lanes f)
                | FCreateCache => ln_createCache (fv_lanes f)
                | FImage => ln_image (fv_lanes f)
                | FAudio => ln_audioInput (fv_lanes f)
                | FAudioCompletion => ln_audioOutput (fv_lanes f)
                end in
  let tiered := bool_decide (pn_mode p = TieredExpr) in
  model_prices_of (trim (fv_name f)) (fun k => Some (text k)) (Some (js (mode_name (pn_mode p))))
    (if tiered then Some (resolvedBillingExpr taskUsageSchema (pn_billingExpr p)) else None)
    (if tiered then Some (pn_requestRuleExpr p) else None) None.

(** [commitDraft()]; [valid] says that the inputs of the page and the form are valid. *)
Definition commitDraft (valid : bool) (taskUsageSchema : option usage_schema) (p : panel) : option model_prices :=
  if negb valid || is_some (validatePricingValues p) then None
  else Some (buildSubmitData taskUsageSchema p).
End Expressions.

(** The warnings above the form, from the stored prices and the state. *)
Definition panel_warnings (editData : option model_prices) (p : panel) : list string :=
  let hasConflict :=
    match editData with
    | Some d => truthy (text_or_empty (mp_price d)) &&
                existsb (fun f => hasValue (text_value (field_text d f)))
                  [FRatio; FCompletion; FCache; FCreateCache; FImage; FAudio; FAudioCompletion]
    | None => false
    end in
  let token := bool_decide (pn_mode p = PerToken) in
  (if hasConflict then ["This model has both fixed-price and token-price settings. Saving the current mode will rewrite the conflicting fields."%string] else [])
  ++ (if token && negb (is_some (toNumberOrNull (JStr (pn_promptPrice p)))) &&
         existsb (fun k => lane_get (pn_enabled p) k && hasValue (JStr (lane_get (pn_prices p) k))) LANES
      then ["Input price is required before saving dependent prices."%string] else [])
  ++ (if token && ln_audioOutput (pn_enabled p) && negb (hasValue (JStr (ln_audioInput (pn_prices p))))
      then ["Audio output price requires an audio input price."%string] else []).

(** * The panel of a model ([model-pricing-panel.tsx]) *)




(** * Events *)

(** What the user does. *)
Inductive panel_event :=
| EvPrompt (value : jsstr)
| EvLanePrice (lane : lane_key) (value : jsstr)
| EvLaneToggle (lane : lane_key) (checked : bool)
| EvMode (m : pricing_mode)
| EvName (value : jsstr)
| EvFixedPrice (value : jsstr)
| EvExpressions (billingExpr requestRuleExpr : jsstr).

Section Events.
Context {C : Collation} (taskUsageSchema : option usage_schema).

Definition panel_step (p : panel) (e : panel_event) : panel :=
  match e with
  | EvPrompt v => handlePromptPriceChange v p
  | EvLanePrice k v => handleLanePriceChange k v p
  | EvLaneToggle k b => handleLaneToggle k b p
  | EvMode m => handleModeChange taskUsageSchema m p
  | EvName v => let f := pn_form p in set_form (FormValues v (fv_price f) (fv_ratio f) (fv_lanes f)) p
  | EvFixedPrice v => let f := pn_form p in set_form (FormValues (fv_name f) v (fv_ratio f) (fv_lanes f)) p
  | EvExpressions e r => set_exprs e r p
  end.

(** ** The ratios are in step with the prices *)

Definition lane_ratio (p : panel) (k : lane_key) : jsstr :=
  if lane_get (pn_enabled p) k then deriveLaneRatio k (lane_get (pn_prices p) k) (pn_promptPrice p) (pn_prices p) else [].
Definition in_step (p : panel) : Prop :=
  fv_ratio (pn_form p) = prompt_ratio (pn_promptPrice p) /\
  forall k, lane_get (fv_lanes (pn_form p)) k = lane_ratio p k.

Lemma lane_get_set {A} k k' (v : A) l : lane_get (lane_set k v l) k' = if bool_decide (k' = k) then v else lane_get l k'.
Proof. destruct l; by destruct k, k'. Qed.

(** Splits a state into its fields. *)
Ltac split_panel p :=
  destruct p as [? ? [? ? ? ? ? ?] [? ? ? ? ? ?] ? ? [? ? ? [? ? ? ? ? ?]] ?];
  repeat match goal with b : bool |- _ => destruct b end.

Lemma prompt_in_step v p : in_step (handlePromptPriceChange v p).
Proof. split_panel p; (split; [done|]); by intros []. Qed.

Lemma lane_price_in_step k v p : in_step p -> in_step (handleLanePriceChange k v p).
Proof.
  intros [H0 H]. split; [unfold handleLanePriceChange; repeat case_match; exact H0|].
  intros k'. specialize (H k'). clear H0. revert H. split_panel p; by destruct k, k'.
Qed.

Lemma lane_toggle_in_step k b p : in_step p -> in_step (handleLaneToggle k b p).
Proof.
  intros [H0 H]. split; [unfold handleLaneToggle; repeat case_match; exact H0|].
  intros k'. specialize (H k'). clear H0. revert H. split_panel p; by destruct k, k'.
Qed.

Lemma panel_step_in_step p e : in_step p -> in_step (panel_step p e).
Proof.
  intros H. destruct e; cbn [panel_step]; try exact H; [apply prompt_in_step|by apply lane_price_in_step|by apply lane_toggle_in_step|].
  unfold handleModeChange. case_match; exact H.
Qed.

Lemma steps_in_step events : forall p, in_step p -> in_step (fold_left panel_step events p).
Proof. induction events as [|e events IH]; intros p H; [done|]. apply IH. by apply panel_step_in_step. Qed.

Lemma new_in_step : in_step (reset_panel None).
Proof. split; [done|]. by intros []. Qed.
End Events.

(** * What is saved *)

(** The price a ratio is relative to. *)
Definition base_price (p : panel) (k : lane_key) : option number :=
  match k with
  | LAudioOutput => toNumberOrNull (JStr (ln_audioInput (pn_prices p)))
  | _ => toNumberOrNull (JStr (pn_promptPrice p))
  end.

(** The inputs admit numbers only. *)
Definition prices_numeric (p : panel) : Prop :=
  forall k, hasValue (JStr (lane_get (pn_prices p) k)) = true -> is_some (toNumberOrNull (JStr (lane_get (pn_prices p) k))) = true.

Lemma number_has_value s x : toNumberOrNull (JStr s) = Some x -> hasValue (JStr s) = true.
Proof. unfold toNumberOrNull. by destruct (hasValue (JStr s)). Qed.

Lemma existsb_false {A} (f : A -> bool) l x : existsb f l = false -> In x l -> f x = false.
Proof.
  intros H Hx. destruct (f x) eqn:E; [|done]. assert (existsb f l = true) by (apply existsb_exists; eauto). congruence.
Qed.

(** A valid panel has a base for every positive price. *)
Lemma validated_base p k x : validatePricingValues p = None -> pn_mode p = PerToken -> prices_numeric p ->
  lane_get (pn_enabled p) k = true -> toNumberOrNull (JStr (lane_get (pn_prices p) k)) = Some x -> num_ltb num_zero x = true ->
  exists b, base_price p k = Some b /\ num_eqb b num_zero = false.
Proof.
  unfold validatePricingValues. intros Hv Hm Hnum Hen Hx Hpos. rewrite bool_decide_true in Hv by done. cbn [negb] in Hv.
  destruct ((price_zero _ && _) || _) eqn:E1; [done|]. apply orb_false_iff in E1 as [E1 E1'].
  destruct (negb (is_some _) && _) eqn:E2; [done|]. destruct (ln_audioOutput _ && negb _) eqn:E3; [done|].
  assert (Hin : In k LANES) by (destruct k; cbn; tauto).
  assert (Hp : price_positive (lane_get (pn_prices p) k) = true) by (unfold price_positive; by rewrite Hx).
  destruct (decide (k = LAudioOutput)) as [->|Hk].
  - cbn [lane_get base_price] in *. rewrite Hen in E3, E1'. rewrite Hp in E1'. rewrite andb_true_r, andb_true_r in E1'.
    cbn [andb] in E3. apply negb_false_iff in E3. specialize (Hnum LAudioInput E3). cbn [lane_get] in Hnum.
    unfold price_zero in E1'. destruct (toNumberOrNull (JStr (ln_audioInput (pn_prices p)))) as [b|]; [|done]. eauto.
  - replace (base_price p k) with (toNumberOrNull (JStr (pn_promptPrice p))) by (by destruct k).
    unfold price_zero in E1. destruct (toNumberOrNull (JStr (pn_promptPrice p))) as [b|].
    + exists b. split; [done|]. destruct (num_eqb b num_zero); [|done]. cbn [andb] in E1.
      pose proof (existsb_false _ _ _ E1 Hin) as H. cbn beta in H. by rewrite Hen, Hp in H.
    + cbn [is_some negb andb] in E2. pose proof (existsb_false _ _ _ E2 Hin) as H. cbn beta in H.
      by rewrite Hen, (number_has_value _ _ Hx) in H.
Qed.

Section Saved.
Context {C : Collation} (schema : option usage_schema).

(** C10. The ratios that are saved are those of the prices on the page, for a new model and for any model
    whose price of the input the user edited at some point: after any events with that edit among them, when
    the page ends in the mode by tokens and the prices are numbers, a save that the validation lets pass
    stores half of the price of the input as the ratio of the model, as the ratio of a lane what the page
    derives from the prices (the empty text for a lane that is switched off), and for a positive price of a lane that is switched on
    this is the price divided by the price of the input, or by that of the audio input for the audio output,
    which is there and is not zero.  (A model that is opened and saved without such an edit keeps its stored ratios.) *)
Theorem panel_saves_prices row events valid data :
  let p := fold_left (panel_step schema) events (reset_panel row) in
  row = None \/ (exists v, EvPrompt v ∈ events) -> pn_mode p = PerToken -> prices_numeric p -> commitDraft valid schema p = Some data ->
  mp_ratio data = Some (prompt_ratio (pn_promptPrice p)) /\
  forall k, field_text data (ratioFieldByLane k) = Some (lane_ratio p k) /\
    (lane_get (pn_enabled p) k = true -> forall x, toNumberOrNull (JStr (lane_get (pn_prices p) k)) = Some x ->
       num_ltb num_zero x = true -> exists b, base_price p k = Some b /\ num_eqb b num_zero = false /\
       lane_ratio p k = formatPricingNumber (JNum (num_div x b))).
Proof.
  intros p Hstart Hm Hnum Hc.
  assert (Hs : in_step p).
  { unfold p. destruct Hstart as [-> | [v Hv]]; [apply steps_in_step, new_in_step|].
    apply list_elem_of_split in Hv as (before & after & ->). rewrite fold_left_app.
    apply (steps_in_step schema after), prompt_in_step. }
  clearbody p. unfold commitDraft in Hc. destruct (validatePricingValues p) as [|] eqn:Ev; [by rewrite orb_true_r in Hc|].
  destruct valid; [|done]. injection Hc as <-. destruct Hs as [H0 H]. split; [by cbn; rewrite H0|].
  intros k. specialize (H k). split.
  - rewrite <- H. by destruct k.
  - intros Hen x Hx Hpos. destruct (validated_base p k x Ev Hm Hnum Hen Hx Hpos) as (b & Hb & Hz).
    exists b. split; [done|]. split; [done|]. unfold lane_ratio, deriveLaneRatio. rewrite Hen, Hx.
    destruct k; cbn [base_price] in Hb; rewrite Hb, Hz; done.
Qed.
End Saved.

(** * Opening and saving *)



(** ** Witness, and a price that does not come back *)

(** Three dollars for the input, ten for the output. *)
Definition three_and_ten : list panel_event :=
  [EvName (js "m"); EvPrompt (js "3"); EvLaneToggle LCompletion true; EvLanePrice LCompletion (js "10")].
Definition three_and_ten_panel : panel :=
  Eval vm_compute in fold_left (panel_step (C := unit_collation) None) three_and_ten (reset_panel None).

Lemma panel_saves_prices_witness :
  exists data, commitDraft (C := unit_collation) true None three_and_ten_panel = Some data /\ mp_ratio data = Some (js "1.5") /\
    mp_completionRatio data = Some (js "3.333333333333").
Proof.
  destruct (commitDraft (C := unit_collation) true None three_and_ten_panel) as [data|] eqn:E; [|vm_compute in E; discriminate E].
  destruct (panel_saves_prices (C := unit_collation) None None three_and_ten true data) as [H0 H].
  - by left.
  - vm_compute. reflexivity.
  - intros k. destruct k; vm_compute; done.
  - rewrite <- E. vm_compute. reflexivity.
  - exists data. split; [reflexivity|]. split; [rewrite H0; vm_compute; reflexivity|].
    destruct (H LCompletion) as [Hc _]. cbn [ratioFieldByLane field_text] in Hc. rewrite Hc. vm_compute. reflexivity.
Defined.

(** The price of ten dollars is shown as 9.999999999999 when the model is opened again: the ratio is
    stored with twelve decimals, and the product is off by more than the tolerance. *)
Lemma price_drifts :
  (createInitialLaneState (commitDraft (C := unit_collation) true None three_and_ten_panel)).1 =
  (js "3", Lanes (js "9.999999999999") [] [] [] [] []).
Proof. vm_compute. reflexivity. Qed.

