(* ===== verification/FlowGraph.v ===== *)
(** [dashboard/lib/flow.ts]: the flow of usage from users over tokens, groups and
    models to channels, as a graph: paths of rows, filters, the limit on the number
    of nodes, accumulation of nodes and links, masking and highlighting.  The colours of
    its links come from [lib/chart-palette.ts], the series colours of charts, mixed from the
    colours of the theme. *)
From Stdlib Require Import ZArith Lia Bool String SpecFloat.
From stdpp Require Import base list option.
From S2P Require Import Prelude JsString JsNumber JsValue Collections.

#[local] Open Scope Z_scope.

(** * The palette of charts ([lib/chart-palette.ts]) *)


Record rgb := Rgb { rgb_r : number; rgb_g : number; rgb_b : number }.

(** What the page reads from the browser: a colour of the theme, resolved by a canvas
    ([resolveCssColor(readToken(name) ?? '')]), and [Intl.NumberFormat]. *)
Class ChartEnv := {
  theme_color : string -> option rgb;
  format_number : number -> jsstr;
}.

Definition RAMP_WEIGHTS : list number :=
  map (fun z => num_of_decimal z (-2)) [95; 78; 62; 48; 36; 26].

Definition FALLBACK_SERIES : list string :=
  ["#2f6fd0"; "#5a8ddc"; "#86aae5"; "#a9c3ec"; "#c8d8f3"; "#e2ebf9"]%string.

(** [z.toString(16)] of an integer from 0 to 255. *)
Definition hex_byte (z : Z) : jsstr :=
  if z <? 16 then [hex_digit z] else [hex_digit (z / 16); hex_digit (z mod 16)].

Definition toHex (value : number) : jsstr :=
  let clamped := num_max num_zero (num_min (num_of_Z 255) (num_round value)) in
  match num_to_Z clamped with
  | Some z => pad_start 2 48 (hex_byte z)
  | None => num_to_string clamped
  end.

Definition mix (from to : rgb) (weight : number) : jsstr :=
  let w := num_max num_zero (num_min num_one weight) in
  let channel (a b : number) := toHex (num_add (num_mul a w) (num_mul b (num_sub num_one w))) in
  js "#" ++ channel (rgb_r from) (rgb_r to) ++ channel (rgb_g from) (rgb_g to)
  ++ channel (rgb_b from) (rgb_b to).

Section Ramp.
Context {E : ChartEnv}.

(** [count] is an integer at every call. *)
Definition buildChartRamp (count : Z) : list jsstr :=
  let total := Z.to_nat (Z.max 1 count) in
  let at_index {A} (l : list A) (d : A) (i : nat) :=
    match l !! (i mod length l)%nat with Some x => x | None => d end in
  match theme_color "--primary", theme_color "--background" with
  | Some primary, Some background =>
      map (fun i => mix primary background (at_index RAMP_WEIGHTS num_zero i)) (seq 0 total)
  | _, _ => map (fun i => js (at_index FALLBACK_SERIES EmptyString i)) (seq 0 total)
  end.

(** Every ramp has a colour for each series, and at least one. *)
Lemma buildChartRamp_length count : length (buildChartRamp count) = Z.to_nat (Z.max 1 count).
Proof.
  unfold buildChartRamp. destruct (theme_color "--primary"), (theme_color "--background"); by rewrite length_map, length_seq.
Qed.
End Ramp.

Example mix_ex :
  mix (Rgb (num_of_Z 47) (num_of_Z 111) (num_of_Z 208)) (Rgb (num_of_Z 255) (num_of_Z 255) (num_of_Z 255))
    (num_of_decimal 95 (-2)) = js "#3976d2".
Proof. vm_compute. reflexivity. Qed.

(** * Data *)

Inductive flow_kind := FUser | FNode | FToken | FGroup | FModel | FChannel.

#[export] Instance flow_kind_eq_dec : EqDecision flow_kind.
Proof. solve_decision. Defined.

Inductive flow_role := RoleUser | RoleAdmin | RoleRoot.
Inductive flow_metric := MQuota | MTokens | MRequests.
Inductive overflow_mode := Aggregate | Hide.

(** [FlowQuotaDataItem]; numbers may be missing. *)
Record flow_row := FlowRow {
  fr_user_id : jsvalue; fr_username : option jsstr;
  fr_node_name : option jsstr; fr_use_group : option jsstr;
  fr_token_id : jsvalue; fr_token_name : option jsstr;
  fr_channel_id : jsvalue; fr_channel_name : option jsstr;
  fr_model_name : option jsstr;
  fr_token_used : jsvalue; fr_count : jsvalue; fr_quota : jsvalue;
}.

Record flow_metrics := FlowMetrics { fm_quota : number; fm_tokens : number; fm_requests : number }.

Record path_node := PathNode { pn_id : jsstr; pn_label : jsstr; pn_kind : flow_kind }.

Record prepared_path := PreparedPath { pp_path : list path_node; pp_metrics : flow_metrics }.

Record node_filter := NodeFilter { nf_kind : flow_kind; nf_id : jsstr }.
Record link_selection := LinkSelection { ls_source : jsstr; ls_target : jsstr }.

Record flow_node := FlowNode {
  fn_id : jsstr; fn_label : jsstr; fn_kind : flow_kind;
  fn_value : number; fn_requests : number; fn_quota : number; fn_tokens : number;
  fn_color : jsstr; fn_colorKey : jsstr;
  fn_highlighted : option bool; fn_dimmed : option bool;
}.

Record flow_link := FlowLink {
  fl_source : jsstr; fl_target : jsstr;
  fl_value : number; fl_requests : number; fl_quota : number; fl_tokens : number;
  fl_sourceLabel : jsstr; fl_targetLabel : jsstr;
  fl_color : jsstr; fl_linkColor : jsstr; fl_linkAlpha : number; fl_hoverColor : jsstr;
  fl_colorKey : jsstr; fl_share : number;
  fl_highlighted : option bool; fl_dimmed : option bool;
}.

Record flow_graph := FlowGraph { fg_nodes : list flow_node; fg_links : list flow_link }.

(** The label of a token that no longer exists, from the caller. *)
Abbreviation path_context := (option (number -> jsstr)).

Record graph_options := GraphOptions {
  go_topNodeLimit : option number;
  go_overflowMode : option overflow_mode;
  go_otherNodeLabel : option (flow_kind -> jsstr);
  go_activeNode : option node_filter;
  go_activeLink : option link_selection;
  go_maskSensitive : bool;
}.

(** * Constants *)

Definition flow_kind_name (k : flow_kind) : string :=
  match k with
  | FUser => "user" | FNode => "node" | FToken => "token"
  | FGroup => "group" | FModel => "model" | FChannel => "channel"
  end.
Definition FLOW_NODE_KINDS : list flow_kind := [FUser; FNode; FToken; FGroup; FModel; FChannel].

Definition DEFAULT_FLOW_CHART_COLOR : string := "#1664FF".

Definition OTHER_FLOW_NODE_ID (k : flow_kind) : jsstr := js (flow_kind_name k) ++ js ":__other__".
Definition DEFAULT_OTHER_FLOW_NODE_LABEL (k : flow_kind) : jsstr :=
  js match k with
     | FUser => "Other users" | FNode => "Other nodes" | FToken => "Other tokens"
     | FGroup => "Other groups" | FModel => "Other models" | FChannel => "Other channels"
     end.
Definition SENSITIVE_FLOW_KIND (k : flow_kind) : bool :=
  match k with FModel => false | _ => true end.
Definition is_other_id (id : jsstr) : bool :=
  existsb (fun k => str_eqb id (OTHER_FLOW_NODE_ID k)) FLOW_NODE_KINDS.

(** * Rows and their paths *)

Definition numberValue (value : jsvalue) : number :=
  let n := to_Number value in if is_finite n then n else num_zero.

(** [isFlowNodeKind]: the kind a value names. *)
Definition isFlowNodeKind (value : jsvalue) : option flow_kind :=
  match value with
  | JStr s => find (fun k => str_eqb s (js (flow_kind_name k))) FLOW_NODE_KINDS
  | _ => None
  end.

Definition rowMetrics (row : flow_row) : flow_metrics :=
  FlowMetrics (numberValue (fr_quota row)) (numberValue (fr_token_used row)) (numberValue (fr_count row)).

Definition metricValue (metrics : flow_metrics) (metric : flow_metric) : number :=
  match metric with
  | MRequests => fm_requests metrics
  | MTokens => fm_tokens metrics
  | MQuota => fm_quota metrics
  end.

(** [text || fallback]. *)
Definition or_label (text : option jsstr) (fallback : jsstr) : jsstr :=
  match text with Some ((_ :: _) as s) => s | _ => fallback end.
Definition positive_number (n : number) : bool := num_ltb num_zero n.

Definition userNode (row : flow_row) : path_node :=
  let userID := numberValue (fr_user_id row) in
  PathNode
    (if positive_number userID then js "user:" ++ num_to_string userID
     else js "user:" ++ or_label (fr_username row) (js "unknown"))
    (or_label (fr_username row)
       (if positive_number userID then js "user-" ++ num_to_string userID else js "Unknown User"))
    FUser.

Definition nodeNameNode (row : flow_row) : path_node :=
  let nodeName := or_label (fr_node_name row) (js "default-node") in
  PathNode (js "node:" ++ nodeName) nodeName FNode.

Definition deletedTokenLabel (tokenID : number) (ctx : path_context) : jsstr :=
  if num_leb tokenID num_zero then js "Unknown Token"
  else match ctx with
       | Some label => label tokenID
       | None => js "token-" ++ num_to_string tokenID
       end.

Definition tokenNode (row : flow_row) (ctx : path_context) : path_node :=
  let tokenID := numberValue (fr_token_id row) in
  PathNode
    (if positive_number tokenID then js "token:" ++ num_to_string tokenID
     else js "token:" ++ or_label (fr_token_name row) (js "unknown"))
    (or_label (fr_token_name row) (deletedTokenLabel tokenID ctx))
    FToken.

Definition groupNode (row : flow_row) : path_node :=
  let useGroup := or_label (fr_use_group row) (js "unknown") in
  PathNode (js "group:" ++ useGroup) useGroup FGroup.

Definition modelNode (row : flow_row) : path_node :=
  let model := or_label (fr_model_name row) (js "unknown") in
  PathNode (js "model:" ++ model) (or_label (fr_model_name row) (js "Unknown Model")) FModel.

Definition channelNode (row : flow_row) : path_node :=
  let channelID := numberValue (fr_channel_id row) in
  PathNode
    (if positive_number channelID then js "channel:" ++ num_to_string channelID
     else js "channel:" ++ or_label (fr_channel_name row) (js "unknown"))
    (or_label (fr_channel_name row)
       (if positive_number channelID then js "channel-" ++ num_to_string channelID else js "Unknown"))
    FChannel.

Definition NODE_BUILDERS (kind : flow_kind) (row : flow_row) (ctx : path_context) : path_node :=
  match kind with
  | FUser => userNode row
  | FNode => nodeNameNode row
  | FToken => tokenNode row ctx
  | FGroup => groupNode row
  | FModel => modelNode row
  | FChannel => channelNode row
  end.

Definition getFlowStages (role : flow_role) : list flow_kind :=
  match role with
  | RoleRoot => [FUser; FNode; FToken; FGroup; FModel; FChannel]
  | RoleAdmin => [FUser; FGroup; FModel; FChannel]
  | RoleUser => [FToken; FGroup; FModel]
  end.

Definition MIN_FLOW_STAGES : nat := 2.

Definition resolveVisibleStages (role : flow_role) (visibleStages : option (list flow_kind)) : list flow_kind :=
  let stages := getFlowStages role in
  match visibleStages with
  | None => stages
  | Some visible =>
      let filtered := List.filter (fun s => bool_decide (s ∈ visible)) stages in
      if (MIN_FLOW_STAGES <=? length filtered)%nat then filtered else stages
  end.

Definition flowPathForStages (row : flow_row) (stages : list flow_kind) (ctx : path_context) : list path_node :=
  map (fun stage => NODE_BUILDERS stage row ctx) stages.

(** * Filters *)

(** [selectedUsers] as a set of identifiers. *)
Definition filterRows (rows : list flow_row) (selectedUsers : option (list jsstr)) : list flow_row :=
  match selectedUsers with
  | None | Some [] => rows
  | Some users => List.filter (fun row => bool_decide (pn_id (userNode row) ∈ users)) rows
  end.

(** The loop of [normalizeSelectedNodeFilters]: the selected identifiers by kind. *)
Definition normalizeSelectedNodeFilters (selectedNodes : option (list node_filter))
    (stages : list flow_kind) : list (flow_kind * list jsstr) :=
  fold_left (fun filters f =>
    if bool_decide (nf_kind f ∈ stages)
    then upsert (nf_kind f) [] (fun selected => selected ++ [nf_id f]) filters
    else filters) (match selectedNodes with Some l => l | None => [] end) [].

Definition pathMatchesNodeFilters (path : list path_node) (filters : list (flow_kind * list jsstr)) : bool :=
  match filters with
  | [] => true
  | _ =>
      let pathNodesByKind :=
        fold_left (fun m node => upsert (pn_kind node) [] (fun ids => ids ++ [pn_id node]) m) path [] in
      forallb (fun f : flow_kind * list jsstr =>
        match mget pathNodesByKind f.1 with
        | None => false
        | Some pathIds => existsb (fun id => bool_decide (id ∈ pathIds)) f.2
        end) filters
  end.

Definition filterRowsByNodes (rows : list flow_row) (selectedNodes : option (list node_filter))
    (stages : list flow_kind) (ctx : path_context) : list flow_row :=
  let filters := normalizeSelectedNodeFilters selectedNodes stages in
  match filters with
  | [] => rows
  | _ => List.filter (fun row => pathMatchesNodeFilters (flowPathForStages row stages ctx) filters) rows
  end.

Definition selectedNodeFiltersExceptKind (selectedNodes : option (list node_filter)) (kind : flow_kind)
  : option (list node_filter) :=
  match List.filter (fun f => negb (bool_decide (nf_kind f = kind)))
          (match selectedNodes with Some l => l | None => [] end) with
  | [] => None
  | filtered => Some filtered
  end.

(** * The limit on nodes *)

Definition normalizeTopNodeLimit (limit : option number) : option nat :=
  match limit with
  | None => None
  | Some l =>
      match num_to_Z (num_floor l) with
      | Some z => if 0 <? z then Some (Z.to_nat z) else None
      | None => None
      end
  end.

Definition otherFlowNode (kind : flow_kind) (labeler : option (flow_kind -> jsstr)) : path_node :=
  PathNode (OTHER_FLOW_NODE_ID kind)
    (match labeler with Some f => f kind | None => DEFAULT_OTHER_FLOW_NODE_LABEL kind end) kind.

(** [a || b] of comparisons. *)
Definition by_difference (x y : number) (rest : Z) : Z :=
  let d := num_sub x y in if num_truthy d then num_sign d else rest.
Definition or_compare (c rest : Z) : Z := if c =? 0 then rest else c.

Section Flow.
Context {C : Collation} {E : ChartEnv}.

Record node_rank := NodeRank { nr_node : path_node; nr_value : number }.

Definition by_rank (a b : node_rank) : Z :=
  by_difference (nr_value b) (nr_value a)
    (or_compare (localeCompare (pn_label (nr_node a)) (pn_label (nr_node b)))
       (localeCompare (pn_id (nr_node a)) (pn_id (nr_node b)))).

(** [current.value += value] on the totals of a stage. *)
Definition add_rank (node : path_node) (value : number) (stageTotals : list (jsstr * node_rank))
  : list (jsstr * node_rank) :=
  upsert (pn_id node) (NodeRank node num_zero)
    (fun r => NodeRank (nr_node r) (num_add (nr_value r) value)) stageTotals.

Definition buildTopNodeSets (rows : list flow_row) (metric : flow_metric) (stages : list flow_kind)
    (limit : option nat) (ctx : path_context) : option (list (flow_kind * list jsstr)) :=
  match limit with
  | None | Some O => None
  | Some limit =>
      let empty := fold_left (fun m stage => mput stage [] m) stages [] in
      let totals :=
        fold_left (fun totals row =>
          let value := metricValue (rowMetrics row) metric in
          fold_left (fun totals node =>
            match mget totals (pn_kind node) with
            | None => totals
            | Some stageTotals => mput (pn_kind node) (add_rank node value stageTotals) totals
            end) (flowPathForStages row stages ctx) totals) rows empty in
      Some (map (fun t : flow_kind * list (jsstr * node_rank) =>
              (t.1, map (fun r => pn_id (nr_node r)) (take limit (sort_by by_rank (map snd t.2))))) totals)
  end.

Definition isTopFlowNode (node : path_node) (topNodeSets : list (flow_kind * list jsstr)) : bool :=
  match mget topNodeSets (pn_kind node) with
  | None => true
  | Some ids => bool_decide (pn_id node ∈ ids)
  end.

Definition applyTopNodeLimit (path : list path_node) (topNodeSets : option (list (flow_kind * list jsstr)))
    (mode : overflow_mode) (labeler : option (flow_kind -> jsstr)) : option (list path_node) :=
  match topNodeSets with
  | None => Some path
  | Some sets =>
      if negb (existsb (fun node => negb (isTopFlowNode node sets)) path) then Some path
      else
        match mode with
        | Hide => None
        | Aggregate =>
            Some (map (fun node => if isTopFlowNode node sets then node
                                   else otherFlowNode (pn_kind node) labeler) path)
        end
  end.

(** The paths of the rows, without those the limit hides. *)
Fixpoint prepare_paths (rows : list flow_row) (stages : list flow_kind)
    (topNodeSets : option (list (flow_kind * list jsstr))) (mode : overflow_mode)
    (labeler : option (flow_kind -> jsstr)) (ctx : path_context) : list prepared_path :=
  match rows with
  | [] => []
  | row :: rest =>
      match applyTopNodeLimit (flowPathForStages row stages ctx) topNodeSets mode labeler with
      | None => prepare_paths rest stages topNodeSets mode labeler ctx
      | Some path => PreparedPath path (rowMetrics row)
                     :: prepare_paths rest stages topNodeSets mode labeler ctx
      end
  end.

(** * Colours *)

Definition getDashboardChartColors (domainLength : Z) : list jsstr := buildChartRamp (Z.max 1 domainLength).

Definition colorAt (index : nat) (palette : option (list jsstr)) : jsstr :=
  let colors := match palette with
                | Some ((_ :: _) as p) => p
                | _ => getDashboardChartColors (Z.of_nat index + 1)
                end in
  match colors !! (index mod length colors)%nat with
  | Some c => c
  | None => js DEFAULT_FLOW_CHART_COLOR
  end.

Definition colorPalette (colorCount : nat) (palette : option (list jsstr)) : list jsstr :=
  match palette with
  | Some ((_ :: _) as p) => p
  | _ => match getDashboardChartColors (Z.of_nat colorCount) with
         | [] => [js DEFAULT_FLOW_CHART_COLOR]
         | colors => colors
         end
  end.

Definition stableColorMap (keys : list jsstr) (palette : option (list jsstr)) : list (jsstr * jsstr) :=
  let uniqueKeys := distinct keys in
  let colors := colorPalette (length uniqueKeys) palette in
  imap (fun index key => (key, colorAt index (Some colors))) uniqueKeys.

(** [rgba(red, green, blue, alpha)] of a colour of six hexadecimal digits. *)
Definition alphaColor (color : jsstr) (alpha : number) : jsstr * number :=
  let normalized := trim color in
  let hex := if starts_with (js "#") normalized then tail normalized else normalized in
  if negb ((length hex =? 6)%nat && forallb is_hex hex) then (normalized, alpha)
  else
    let value := fold_left (fun v c => v * 16 + hex_value c) hex 0 in
    let red := Z.land (Z.shiftr value 16) 255 in
    let green := Z.land (Z.shiftr value 8) 255 in
    let blue := Z.land value 255 in
    (js "rgba(" ++ string_of_Z red ++ js ", " ++ string_of_Z green ++ js ", " ++ string_of_Z blue
     ++ js ", " ++ to_fixed 2 alpha ++ js ")", num_one).

(** * Nodes and links *)

Definition NUL : jsstr := [0].

Definition add_to_node (metrics : flow_metrics) (metric : flow_metric) (n : flow_node) : flow_node :=
  FlowNode (fn_id n) (fn_label n) (fn_kind n)
    (num_add (fn_value n) (metricValue metrics metric))
    (num_add (fn_requests n) (fm_requests metrics))
    (num_add (fn_quota n) (fm_quota metrics))
    (num_add (fn_tokens n) (fm_tokens metrics))
    (fn_color n) (fn_colorKey n) (fn_highlighted n) (fn_dimmed n).

Definition empty_node (pathNode : path_node) (color colorKey : jsstr) : flow_node :=
  FlowNode (pn_id pathNode) (pn_label pathNode) (pn_kind pathNode)
    num_zero num_zero num_zero num_zero color colorKey None None.

Definition addNode (nodes : list (jsstr * flow_node)) (pathNode : path_node) (metrics : flow_metrics)
    (metric : flow_metric) (color colorKey : jsstr) : list (jsstr * flow_node) :=
  upsert (pn_id pathNode) (empty_node pathNode color colorKey) (add_to_node metrics metric) nodes.

Definition pathLinkKey (source target : path_node) : jsstr := pn_id source ++ NUL ++ pn_id target.
Definition linkStableKey (link : flow_link) : jsstr := fl_source link ++ NUL ++ fl_target link.

Definition add_to_link (metrics : flow_metrics) (metric : flow_metric) (l : flow_link) : flow_link :=
  FlowLink (fl_source l) (fl_target l)
    (num_add (fl_value l) (metricValue metrics metric))
    (num_add (fl_requests l) (fm_requests metrics))
    (num_add (fl_quota l) (fm_quota metrics))
    (num_add (fl_tokens l) (fm_tokens metrics))
    (fl_sourceLabel l) (fl_targetLabel l) (fl_color l) (fl_linkColor l) (fl_linkAlpha l) (fl_hoverColor l)
    (fl_colorKey l) (fl_share l) (fl_highlighted l) (fl_dimmed l).

Definition empty_link (source target : path_node) (color colorKey : jsstr) : flow_link :=
  FlowLink (pn_id source) (pn_id target) num_zero num_zero num_zero num_zero
    (pn_label source) (pn_label target) color color num_one color colorKey num_zero None None.

Definition addLink (links : list (jsstr * flow_link)) (source target : path_node) (metrics : flow_metrics)
    (metric : flow_metric) (color colorKey : jsstr) : list (jsstr * flow_link) :=
  upsert (pathLinkKey source target) (empty_link source target color colorKey)
    (add_to_link metrics metric) links.

(** The pairs of neighbours of a path. *)
Definition path_steps (path : list path_node) : list (path_node * path_node) := zip path (tail path).

(** The loops over the prepared paths; every path starts at its root. *)
Definition path_color (colors : list (jsstr * jsstr)) (palette : option (list jsstr)) (root : path_node) : jsstr :=
  match mget colors (pn_id root) with Some c => c | None => colorAt 0 palette end.

Definition add_path_nodes (metric : flow_metric) (colors : list (jsstr * jsstr)) (palette : option (list jsstr))
    (nodes : list (jsstr * flow_node)) (prepared : prepared_path) : list (jsstr * flow_node) :=
  match pp_path prepared with
  | [] => nodes
  | root :: _ =>
      fold_left (fun m node => addNode m node (pp_metrics prepared) metric
                                 (path_color colors palette root) (pn_id root))
        (pp_path prepared) nodes
  end.
Definition add_path_links (metric : flow_metric) (colors : list (jsstr * jsstr)) (palette : option (list jsstr))
    (links : list (jsstr * flow_link)) (prepared : prepared_path) : list (jsstr * flow_link) :=
  match pp_path prepared with
  | [] => links
  | root :: _ =>
      fold_left (fun m step => addLink m step.1 step.2 (pp_metrics prepared) metric
                                 (path_color colors palette root) (pn_id root))
        (path_steps (pp_path prepared)) links
  end.

(** * Highlights *)

Definition pathContainsFlowNode (path : list path_node) (f : node_filter) : bool :=
  existsb (fun node => bool_decide (pn_kind node = nf_kind f) && str_eqb (pn_id node) (nf_id f)) path.
Definition pathContainsFlowLink (path : list path_node) (link : link_selection) : bool :=
  existsb (fun step => str_eqb (pn_id step.1) (ls_source link) && str_eqb (pn_id step.2) (ls_target link))
    (path_steps path).

(** [matchesPath]: a link selection comes first. *)
Definition matches_path (activeNode : option node_filter) (activeLink : option link_selection)
    (path : list path_node) : bool :=
  match activeLink, activeNode with
  | Some link, _ => pathContainsFlowLink path link
  | None, Some node => pathContainsFlowNode path node
  | None, None => false
  end.

(** The identifiers of nodes and the keys of links. *)
Definition buildFlowHighlightSets (preparedPaths : list prepared_path) (activeNode : option node_filter)
    (activeLink : option link_selection) (stages : list flow_kind) : option (list jsstr * list jsstr) :=
  let nodeActive := match activeNode with Some f => bool_decide (nf_kind f ∈ stages) | None => false end in
  if negb nodeActive && match activeLink with None => true | Some _ => false end then None
  else
    let matching := List.filter (fun p => matches_path activeNode activeLink (pp_path p)) preparedPaths in
    let nodes := concat (map (fun p => map pn_id (pp_path p)) matching) in
    let links := concat (map (fun p => map (fun step => pathLinkKey step.1 step.2) (path_steps (pp_path p)))
                           matching) in
    match nodes with
    | [] => None
    | _ => Some (nodes, links)
    end.

Definition set_node_flags (highlighted : bool) (n : flow_node) : flow_node :=
  FlowNode (fn_id n) (fn_label n) (fn_kind n) (fn_value n) (fn_requests n) (fn_quota n) (fn_tokens n)
    (fn_color n) (fn_colorKey n) (Some highlighted) (Some (negb highlighted)).
Definition set_link_flags (highlighted : bool) (l : flow_link) : flow_link :=
  FlowLink (fl_source l) (fl_target l) (fl_value l) (fl_requests l) (fl_quota l) (fl_tokens l)
    (fl_sourceLabel l) (fl_targetLabel l) (fl_color l) (fl_linkColor l) (fl_linkAlpha l) (fl_hoverColor l)
    (fl_colorKey l) (fl_share l) (Some highlighted) (Some (negb highlighted)).

Definition applyFlowHighlights (nodes : list flow_node) (links : list flow_link)
    (highlightSets : option (list jsstr * list jsstr)) : list flow_node * list flow_link :=
  match highlightSets with
  | None => (nodes, links)
  | Some (nodeIds, linkKeys) =>
      (map (fun n => set_node_flags (bool_decide (fn_id n ∈ nodeIds)) n) nodes,
       map (fun l => set_link_flags (bool_decide (linkStableKey l ∈ linkKeys)) l) links)
  end.

(** * Masking *)

Definition FLOW_MASK_TEXT : jsstr := [8226; 8226; 8226; 8226].
Definition maskFlowLabel (label : jsstr) : jsstr := match label with [] => [] | _ => FLOW_MASK_TEXT end.

Definition set_node_label (label : jsstr) (n : flow_node) : flow_node :=
  FlowNode (fn_id n) label (fn_kind n) (fn_value n) (fn_requests n) (fn_quota n) (fn_tokens n)
    (fn_color n) (fn_colorKey n) (fn_highlighted n) (fn_dimmed n).
Definition set_link_labels (source target : jsstr) (l : flow_link) : flow_link :=
  FlowLink (fl_source l) (fl_target l) (fl_value l) (fl_requests l) (fl_quota l) (fl_tokens l)
    source target (fl_color l) (fl_linkColor l) (fl_linkAlpha l) (fl_hoverColor l)
    (fl_colorKey l) (fl_share l) (fl_highlighted l) (fl_dimmed l).

Definition is_masked (n : flow_node) : bool :=
  SENSITIVE_FLOW_KIND (fn_kind n) && negb (is_other_id (fn_id n)).

Definition maskFlowGraphLabels (nodes : list flow_node) (links : list flow_link)
  : list flow_node * list flow_link :=
  let maskedById :=
    fold_left (fun m n => if is_masked n then mput (fn_id n) (maskFlowLabel (fn_label n)) m else m) nodes [] in
  let label_of id label := match mget maskedById id with Some masked => masked | None => label end in
  (map (fun n => if is_masked n then set_node_label (maskFlowLabel (fn_label n)) n else n) nodes,
   match maskedById with
   | [] => links
   | _ => map (fun l => set_link_labels (label_of (fl_source l) (fl_sourceLabel l))
                          (label_of (fl_target l) (fl_targetLabel l)) l) links
   end).

(** * The graph *)

Definition byValueThenLabel (a b : flow_node) : Z :=
  by_difference (fn_value b) (fn_value a) (localeCompare (fn_label a) (fn_label b)).
Definition by_source_target (a b : flow_link) : Z :=
  or_compare (localeCompare (fl_source a) (fl_source b)) (localeCompare (fl_target a) (fl_target b)).
Definition by_value_then_key (a b : flow_link) : Z :=
  by_difference (fl_value b) (fl_value a) (localeCompare (linkStableKey a) (linkStableKey b)).

Definition set_share (share : number) (l : flow_link) : flow_link :=
  FlowLink (fl_source l) (fl_target l) (fl_value l) (fl_requests l) (fl_quota l) (fl_tokens l)
    (fl_sourceLabel l) (fl_targetLabel l) (fl_color l) (fl_linkColor l) (fl_linkAlpha l) (fl_hoverColor l)
    (fl_colorKey l) share (fl_highlighted l) (fl_dimmed l).
Definition set_display_color (c : jsstr * number) (l : flow_link) : flow_link :=
  FlowLink (fl_source l) (fl_target l) (fl_value l) (fl_requests l) (fl_quota l) (fl_tokens l)
    (fl_sourceLabel l) (fl_targetLabel l) (fl_color l) c.1 c.2 (fl_color l)
    (fl_colorKey l) (fl_share l) (fl_highlighted l) (fl_dimmed l).

(** The opacity of the link at an index of the sorted links of its source. *)
Definition link_alpha (count index : nat) : number :=
  if (count =? 1)%nat then num_of_decimal 34 (-2)
  else num_add (num_of_decimal 24 (-2))
         (num_mul (num_div (num_of_Z (Z.of_nat index)) (num_of_Z (Z.max (Z.of_nat count - 1) 1)))
            (num_of_decimal 2 (-1))).

(** The links by source, sorted, give each link its colour; a link is identified by
    its key, as it is by its object in the code. *)
Definition assignLinkDisplayColors (links : list flow_link) : list flow_link :=
  let linksBySource := fold_left (fun m l => upsert (fl_source l) [] (fun g => g ++ [l]) m) links [] in
  let displayColors :=
    concat (map (fun g : jsstr * list flow_link =>
      let sortedLinks := sort_by by_value_then_key g.2 in
      imap (fun index l => (linkStableKey l, alphaColor (fl_color l) (link_alpha (length sortedLinks) index)))
        sortedLinks) linksBySource) in
  map (fun l => match mget displayColors (linkStableKey l) with
                | Some c => set_display_color c l
                | None => l
                end) links.

(** The identifier of the first node of each path; identifiers are not empty. *)
Definition first_ids (preparedPaths : list prepared_path) : list jsstr :=
  concat (map (fun p => match pp_path p with root :: _ => [pn_id root] | [] => [] end) preparedPaths).

Definition buildFlowGraph (rows : list flow_row) (metric : flow_metric) (role : flow_role)
    (palette : option (list jsstr)) (visibleStages : option (list flow_kind)) (ctx : path_context)
    (options : graph_options) : flow_graph :=
  let stages := resolveVisibleStages role visibleStages in
  let topNodeSets := buildTopNodeSets rows metric stages (normalizeTopNodeLimit (go_topNodeLimit options)) ctx in
  let overflowMode := match go_overflowMode options with Some m => m | None => Aggregate end in
  let preparedPaths := prepare_paths rows stages topNodeSets overflowMode (go_otherNodeLabel options) ctx in
  let colors := stableColorMap (sort_by localeCompare (first_ids preparedPaths)) palette in
  let nodes := map snd (fold_left (add_path_nodes metric colors palette) preparedPaths []) in
  let links := map snd (fold_left (add_path_links metric colors palette) preparedPaths []) in
  let '(nodes, links) :=
    if go_maskSensitive options then maskFlowGraphLabels nodes links else (nodes, links) in
  let '(nodes, links) :=
    applyFlowHighlights nodes links
      (buildFlowHighlightSets preparedPaths (go_activeNode options) (go_activeLink options) stages) in
  let flowLinks := sort_by by_source_target links in
  let firstStepSources := first_ids preparedPaths in
  let total :=
    fold_left (fun sum l => num_add sum (fl_value l))
      (List.filter (fun l => bool_decide (fl_source l ∈ firstStepSources)) flowLinks) num_zero in
  let shared :=
    map (fun l => set_share (if num_ltb num_zero total then num_div (fl_value l) total else num_zero) l)
      flowLinks in
  FlowGraph (sort_by byValueThenLabel nodes) (assignLinkDisplayColors shared).

(** * Summary and filter options *)

Definition buildSummary (rows : list flow_row) : flow_metrics :=
  fold_left (fun summary row =>
    let metrics := rowMetrics row in
    FlowMetrics (num_add (fm_quota summary) (fm_quota metrics))
      (num_add (fm_tokens summary) (fm_tokens metrics))
      (num_add (fm_requests summary) (fm_requests metrics))) rows (FlowMetrics num_zero num_zero num_zero).

Record filter_option := FilterOption {
  fo_kind : flow_kind; fo_value : jsstr; fo_label : jsstr; fo_valueLabel : jsstr;
  fo_valueRaw : number; fo_color : jsstr;
}.

(** [!row.user_id && !row.username]. *)
Definition anonymous_row (row : flow_row) : bool :=
  negb (value_truthy (fr_user_id row)) && match fr_username row with Some (_ :: _) => false | _ => true end.

Definition by_raw_then_label (a b : filter_option) : Z :=
  by_difference (fo_valueRaw b) (fo_valueRaw a) (localeCompare (fo_label a) (fo_label b)).

(** The options of users; their kind is always [user]. *)
Definition buildUserFilterOptions (rows : list flow_row) (metric : flow_metric) (palette : option (list jsstr))
  : list filter_option :=
  let colors := stableColorMap (sort_by localeCompare (map (fun row => pn_id (userNode row)) rows)) palette in
  let users :=
    fold_left (fun users row =>
      if anonymous_row row then users
      else
        let user := userNode row in
        upsert (pn_id user)
          (FilterOption FUser (pn_id user) (pn_label user) [] num_zero
             (match mget colors (pn_id user) with Some c => c | None => colorAt 0 palette end))
          (fun o => FilterOption (fo_kind o) (fo_value o) (fo_label o) []
                      (num_add (fo_valueRaw o) (metricValue (rowMetrics row) metric)) (fo_color o))
          users) rows [] in
  sort_by by_raw_then_label
    (map (fun u : jsstr * filter_option =>
            FilterOption (fo_kind u.2) u.1 (fo_label u.2) (format_number (fo_valueRaw u.2))
              (fo_valueRaw u.2) (fo_color u.2)) users).

Definition nodeFilterKey (f : node_filter) : jsstr := js (flow_kind_name (nf_kind f)) ++ NUL ++ nf_id f.

(** The position of a stage. *)
Fixpoint stage_order (stages : list flow_kind) (kind : flow_kind) : Z :=
  match stages with
  | [] => 0
  | s :: rest => if bool_decide (s = kind) then 0
                 else if bool_decide (kind ∈ rest) then 1 + stage_order rest kind else 0
  end.

Definition by_stage (stages : list flow_kind) (a b : filter_option) : Z :=
  or_compare (stage_order stages (fo_kind a) - stage_order stages (fo_kind b))
    (by_difference (fo_valueRaw b) (fo_valueRaw a)
       (or_compare (localeCompare (fo_label a) (fo_label b)) (localeCompare (fo_value a) (fo_value b)))).

(** The totals of the nodes of one stage. *)
Definition stage_totals (rows : list flow_row) (metric : flow_metric) (stage : flow_kind) (ctx : path_context)
  : list (jsstr * node_rank) :=
  fold_left (fun totals row =>
    let value := metricValue (rowMetrics row) metric in
    let node := NODE_BUILDERS stage row ctx in
    upsert (nodeFilterKey (NodeFilter (pn_kind node) (pn_id node))) (NodeRank node num_zero)
      (fun r => NodeRank (nr_node r) (num_add (nr_value r) value)) totals) rows [].

Definition buildNodeFilterOptions (rows : list flow_row) (metric : flow_metric) (role : flow_role)
    (visibleStages : option (list flow_kind)) (palette : option (list jsstr)) (ctx : path_context)
    (selectedNodes : option (list node_filter)) : list filter_option :=
  let stages := resolveVisibleStages role visibleStages in
  let colorIds := distinct (concat (map (fun row => map pn_id (flowPathForStages row stages ctx)) rows)) in
  let colors := stableColorMap (sort_by localeCompare colorIds) palette in
  let stage_options stage :=
    let candidateRows := filterRowsByNodes rows (selectedNodeFiltersExceptKind selectedNodes stage) stages ctx in
    map (fun t : jsstr * node_rank =>
           let node := nr_node t.2 in
           FilterOption (pn_kind node) (pn_id node) (pn_label node) (format_number (nr_value t.2))
             (nr_value t.2) (match mget colors (pn_id node) with Some c => c | None => colorAt 0 palette end))
      (stage_totals candidateRows metric stage ctx) in
  sort_by (by_stage stages) (concat (map stage_options stages)).

Definition buildFlowFilterOptions (rows : list flow_row) (metric : flow_metric) (palette : option (list jsstr))
    (role : flow_role) (visibleStages : option (list flow_kind)) (selectedNodes : option (list node_filter))
  : list filter_option * list filter_option :=
  (buildUserFilterOptions rows metric palette,
   buildNodeFilterOptions rows metric role visibleStages palette None selectedNodes).

Record build_options := BuildOptions {
  bo_role : option flow_role;
  bo_selectedUsers : option (list jsstr);
  bo_selectedNodes : option (list node_filter);
  bo_colorPalette : option (list jsstr);
  bo_visibleStages : option (list flow_kind);
  bo_deletedTokenLabel : path_context;
  bo_graph : graph_options;
}.

Record flow_data := FlowData {
  fd_summary : flow_metrics;
  fd_flow : flow_graph;
  fd_users : list filter_option;
  fd_nodes : list filter_option;
}.

Definition buildDashboardFlowData (rows : list flow_row) (metric : flow_metric) (options : build_options)
  : flow_data :=
  let role := match bo_role options with Some r => r | None => RoleUser end in
  let palette := bo_colorPalette options in
  let ctx := bo_deletedTokenLabel options in
  let stages := resolveVisibleStages role (bo_visibleStages options) in
  let userFilteredRows := filterRows rows (bo_selectedUsers options) in
  let filteredRows := filterRowsByNodes userFilteredRows (bo_selectedNodes options) stages ctx in
  FlowData (buildSummary filteredRows)
    (buildFlowGraph filteredRows metric role palette (bo_visibleStages options) ctx (bo_graph options))
    (buildUserFilterOptions rows metric palette)
    (buildNodeFilterOptions userFilteredRows metric role (bo_visibleStages options) palette ctx
       (bo_selectedNodes options)).
End Flow.

(** * Data of the chart *)

(** [recordValue]: an object, by its property reader; an array has none of the
    properties that are read. *)
Definition recordValue (value : jsvalue) : option (jsstr -> jsvalue) :=
  match value with
  | JObj fields => Some (fun key => match own fields key with Some v => v | None => JUndefined end)
  | JArr _ => Some (fun _ => JUndefined)
  | _ => None
  end.
Definition is_undefined (v : jsvalue) : bool := match v with JUndefined => true | _ => false end.

(** An element of an array by a number. *)
Definition array_at (l : list jsvalue) (index : number) : jsvalue :=
  match num_to_Z index with
  | Some z => if z <? 0 then JUndefined else match l !! Z.to_nat z with Some v => v | None => JUndefined end
  | None => JUndefined
  end.

Definition sankeyDatumSource (datum : jsstr -> jsvalue) : jsstr -> jsvalue :=
  match datum (js "datum") with
  | JArr nested =>
      match recordValue (array_at nested (numberValue (datum (js "depth")))) with
      | Some r => r
      | None => match recordValue (array_at nested num_zero) with Some r => r | None => datum end
      end
  | v => match recordValue v with Some r => r | None => datum end
  end.

Definition sankeyDatumValue (datum : jsstr -> jsvalue) (key : jsstr) : jsvalue :=
  if is_undefined (datum key) then sankeyDatumSource datum key else datum key.

Definition flowSankeyDatumValue (datum : jsvalue) (key : jsstr) : jsvalue :=
  match recordValue datum with Some record => sankeyDatumValue record key | None => JUndefined end.

Definition isSankeyLinkDatum (datum : jsstr -> jsvalue) : bool :=
  negb (is_undefined (sankeyDatumValue datum (js "source")))
  && negb (is_undefined (sankeyDatumValue datum (js "target"))).

Definition flowNodeFilterFromSankeyDatum (datum : jsvalue) : option node_filter :=
  match recordValue datum with
  | None => None
  | Some record =>
      if isSankeyLinkDatum record then None
      else
        match flowSankeyDatumValue datum (js "key"), isFlowNodeKind (flowSankeyDatumValue datum (js "kind")) with
        | (JStr _ | JNum _) as id, Some kind => Some (NodeFilter kind (to_text id))
        | _, _ => None
        end
  end.
