(* ===== verification/FlowFacts.v ===== *)
(** Facts on the flow of usage: what the nodes and links of the graph add up to, the
    bound on nodes, and what masking hides. *)
From Stdlib Require Import ZArith Lia Bool String SpecFloat Permutation.
From stdpp Require Import base list option.
From S2P Require Import Prelude JsString JsNumber JsInteger JsValue Collections FlowGraph.

#[local] Open Scope nat_scope.

(** * Identifiers *)

Definition COLON : Z := 58.

(** The identifier of a node starts with the name of its kind. *)
Definition named_node (n : path_node) : Prop :=
  exists rest, pn_id n = js (flow_kind_name (pn_kind n)) ++ COLON :: rest.

Lemma builder_named k row ctx : named_node (NODE_BUILDERS k row ctx) /\ pn_kind (NODE_BUILDERS k row ctx) = k.
Proof.
  split; [|by destruct k].
  destruct k; unfold named_node; cbn [NODE_BUILDERS userNode nodeNameNode tokenNode groupNode modelNode channelNode pn_id pn_kind flow_kind_name];
    try destruct (positive_number _); eexists; reflexivity.
Qed.

Lemma other_named k labeler : named_node (otherFlowNode k labeler).
Proof. exists (js "__other__"). by destruct k. Qed.

Lemma named_kind a b : named_node a -> named_node b -> pn_id a = pn_id b -> pn_kind a = pn_kind b.
Proof.
  intros [r Ha] [s Hb] E. rewrite Ha, Hb in E. destruct (pn_kind a), (pn_kind b); try done; discriminate E.
Qed.

(** * Prepared paths *)

(** A path has one node of every stage, in order. *)
Definition stage_path (stages : list flow_kind) (path : list path_node) : Prop :=
  map pn_kind path = stages /\ Forall named_node path.

Lemma stage_path_ids stages path : NoDup stages -> stage_path stages path -> NoDup (map pn_id path).
Proof.
  intros Hn [E Hp]. rewrite <- E in Hn. clear E. induction path as [|n path IH]; [constructor|].
  apply list.Forall_cons in Hp as [H1 Hp]. cbn [map] in *. apply list.NoDup_cons in Hn as [Hk Hn].
  constructor; [|by apply IH]. intros Hin. apply Hk. apply list_elem_of_fmap in Hin as (x & Ex & Hx).
  apply list_elem_of_fmap. exists x. split; [|done]. apply named_kind; [done| |done].
  by apply (proj1 (list.Forall_forall _ _) Hp).
Qed.

Lemma getFlowStages_nodup role : NoDup (getFlowStages role).
Proof. destruct role; apply (bool_decide_eq_true_1 (NoDup _)); vm_compute; reflexivity. Qed.

Lemma stages_nodup role visible : NoDup (resolveVisibleStages role visible).
Proof.
  unfold resolveVisibleStages. pose proof (getFlowStages_nodup role) as H. destruct visible as [v|]; [|done].
  destruct (_ <=? _); [|done]. apply NoDup_ListNoDup, List.NoDup_filter, NoDup_ListNoDup. exact H.
Qed.

(** * Filters *)

(** The selection of one kind. *)
Definition selection (sel : list node_filter) (stages : list flow_kind) : list node_filter :=
  List.filter (fun f => bool_decide (nf_kind f ∈ stages)) sel.

Lemma filters_accumulate sel stages : normalizeSelectedNodeFilters (Some sel) stages =
  accumulate nf_kind (fun _ => []) (fun f ids => ids ++ [nf_id f]) (selection sel stages) [].
Proof.
  unfold normalizeSelectedNodeFilters, selection, accumulate.
  generalize (@nil (flow_kind * list jsstr)) as m. induction sel as [|f sel IH]; intros m; [done|].
  cbn [fold_left List.filter]. rewrite IH. by destruct (bool_decide _).
Qed.

Lemma accumulated_ids {X} (id : X -> jsstr) (l : list X) : forall acc,
  accumulated (fun x ids => ids ++ [id x]) l acc = acc ++ map id l.
Proof.
  unfold accumulated. induction l as [|x l IH]; intros acc; [by rewrite app_nil_r|]. cbn [fold_left map].
  rewrite IH. by rewrite <- app_assoc.
Qed.

Lemma forallb_pointwise {A} (f g : A -> bool) l : (forall x, f x = g x) -> forallb f l = forallb g l.
Proof. intros H. induction l as [|x l IH]; [done|]. cbn [forallb]. by rewrite H, IH. Qed.

(** The path has, for the kind of the filter, a selected node. *)
Definition passes (sel : list node_filter) (path : list path_node) (kind : flow_kind) : Prop :=
  exists g n, g ∈ sel /\ nf_kind g = kind /\ n ∈ path /\ pn_kind n = kind /\ pn_id n = nf_id g.

Lemma with_key_In {K X} `{EqDecision K} (key : X -> K) k xs x : x ∈ with_key key k xs <-> x ∈ xs /\ key x = k.
Proof.
  unfold with_key. rewrite !list_elem_of_In, filter_In. by rewrite bool_decide_eq_true.
Qed.

Lemma filters_match sel stages path :
  pathMatchesNodeFilters path (normalizeSelectedNodeFilters (Some sel) stages) = true <->
  forall f, f ∈ sel -> nf_kind f ∈ stages -> passes sel path (nf_kind f).
Proof.
  rewrite filters_accumulate. set (fs := accumulate _ _ _ _ _).
  assert (Hk : forall k ids, (k, ids) ∈ fs <-> with_key nf_kind k (selection sel stages) <> [] /\
            ids = map nf_id (with_key nf_kind k (selection sel stages))).
  { intros k ids. unfold fs. rewrite accumulate_In. split.
    - intros (f & l & -> & ->). by rewrite accumulated_ids.
    - intros [Hne ->]. destruct (with_key _ _ _) as [|f l]; [done|]. exists f, l. by rewrite accumulated_ids. }
  assert (Hm : pathMatchesNodeFilters path fs = forallb (fun f : flow_kind * list jsstr =>
      existsb (fun id => bool_decide (id ∈ map pn_id (with_key pn_kind f.1 path))) f.2) fs).
  { unfold pathMatchesNodeFilters. destruct fs as [|f0 fs']; [done|]. apply forallb_pointwise. intros [k ids]. cbn [fst snd].
    change (fold_left _ path []) with (accumulate pn_kind (fun _ => []) (fun n ids => ids ++ [pn_id n]) path []).
    rewrite accumulate_get. cbn [mget]. destruct (with_key pn_kind k path) as [|n l] eqn:Ew.
    - symmetry. apply not_true_iff_false. intros (id & _ & H)%existsb_exists.
      apply bool_decide_eq_true_1 in H. by apply elem_of_nil in H.
    - by rewrite accumulated_ids. }
  rewrite Hm, forallb_forall. split.
  - intros H f Hf Hs. assert (Hin : f ∈ with_key nf_kind (nf_kind f) (selection sel stages)).
    { apply with_key_In. split; [|done]. apply list_elem_of_In, filter_In. split; [by apply list_elem_of_In|].
      by apply bool_decide_eq_true_2. }
    assert (He : (nf_kind f, map nf_id (with_key nf_kind (nf_kind f) (selection sel stages))) ∈ fs).
    { apply Hk. split; [|done]. intros E0. rewrite E0 in Hin. by apply elem_of_nil in Hin. }
    apply list_elem_of_In in He. specialize (H _ He). cbn [fst snd] in H. apply existsb_exists in H as (id & Hid & Hb).
    apply bool_decide_eq_true_1 in Hb. apply in_map_iff in Hid as (g & <- & Hg). apply list_elem_of_In, with_key_In in Hg as [Hg Ek].
    apply list_elem_of_fmap in Hb as (n & En & Hn). apply with_key_In in Hn as [Hn Ekn].
    exists g, n. split_and!; [|done|done|done|done]. apply list_elem_of_In, filter_In in Hg as [Hg _]. by apply list_elem_of_In.
  - intros H [k ids] Hin. apply list_elem_of_In, Hk in Hin as [Hne ->]. cbn [fst snd].
    destruct (with_key nf_kind k (selection sel stages)) as [|f l] eqn:Ew; [done|]. rewrite <- Ew.
    assert (Hf : f ∈ with_key nf_kind k (selection sel stages)) by (rewrite Ew; by left).
    apply with_key_In in Hf as [Hf Ek]. apply list_elem_of_In, filter_In in Hf as [Hf Hs]. apply bool_decide_eq_true_1 in Hs.
    destruct (H f ltac:(by apply list_elem_of_In) Hs) as (g & n & Hg & Egk & Hn & Enk & Eid). rewrite Ek in *.
    apply existsb_exists. exists (nf_id g). split.
    + apply in_map, list_elem_of_In, with_key_In. split; [|done]. apply list_elem_of_In, filter_In.
      split; [by apply list_elem_of_In|]. rewrite Egk. by apply bool_decide_eq_true_2.
    + apply bool_decide_eq_true_2. rewrite <- Eid. apply list_elem_of_fmap_2, with_key_In. by split.
Qed.

(** Node filters are a conjunction of disjunctions: a row is kept exactly when, for
    every kind of a visible stage for which nodes are selected, the node of the row of
    that kind is one of the selected ones; selections of hidden stages are ignored. *)
Theorem flow_filter_exact rows sel stages ctx row :
  row ∈ filterRowsByNodes rows (Some sel) stages ctx <->
  row ∈ rows /\ forall f, f ∈ sel -> nf_kind f ∈ stages ->
    passes sel (flowPathForStages row stages ctx) (nf_kind f).
Proof.
  rewrite <- filters_match. unfold filterRowsByNodes.
  destruct (normalizeSelectedNodeFilters (Some sel) stages) as [|f fs]; [by split; [|intros [? _]]|].
  by rewrite !list_elem_of_In, filter_In.
Qed.

Section Facts.
Context {C : Collation} {E : ChartEnv}.

Lemma flowPath_stages row stages ctx : stage_path stages (flowPathForStages row stages ctx).
Proof.
  unfold flowPathForStages. split.
  - rewrite map_map. rewrite <- (map_id stages) at 2. apply map_ext. intros k. apply builder_named.
  - apply Forall_map, List.Forall_forall. intros k _. apply builder_named.
Qed.

Lemma limited_stages path sets mode labeler stages path' : stage_path stages path ->
  applyTopNodeLimit path sets mode labeler = Some path' -> stage_path stages path'.
Proof.
  intros [Hk Hp] H. unfold applyTopNodeLimit in H. destruct sets as [sets|]; [|by injection H as <-].
  destruct (negb _); [by injection H as <-|]. destruct mode; [|done]. injection H as <-. split.
  - rewrite map_map, <- Hk. apply map_ext. intros n. by destruct (isTopFlowNode n sets).
  - apply Forall_map. eapply Forall_impl; [|exact Hp]. intros n Hn.
    destruct (isTopFlowNode n sets); [done|apply other_named].
Qed.

Lemma prepared_stages rows stages sets mode labeler ctx :
  Forall (fun p => stage_path stages (pp_path p)) (prepare_paths rows stages sets mode labeler ctx).
Proof.
  induction rows as [|row rows IH]; simpl; [constructor|].
  destruct (applyTopNodeLimit _ _ _ _) as [path|] eqn:Ep; [|done]. constructor; [|done].
  eapply limited_stages; [apply flowPath_stages|exact Ep].
Qed.

(** * Accumulated nodes and links *)

(** The path passes through a node; it crosses a link. *)
Definition through (id : jsstr) (p : prepared_path) : bool := bool_decide (id ∈ map pn_id (pp_path p)).
Definition step_keys (p : prepared_path) : list jsstr :=
  map (fun s => pathLinkKey s.1 s.2) (path_steps (pp_path p)).
Definition crosses (key : jsstr) (p : prepared_path) : bool := bool_decide (key ∈ step_keys p).

(** The sum of a metric over paths, in their order. *)
Definition path_sum (f : flow_metrics -> number) (ps : list prepared_path) : number :=
  fold_left (fun s p => num_add s (f (pp_metrics p))) ps num_zero.

(** What both loops do: every path adds its metrics under each of its keys. *)
Section Loop.
Context {S V : Type} (items : prepared_path -> list S) (ikey : S -> jsstr)
  (init : prepared_path -> S -> V) (add : flow_metrics -> V -> V).

Definition loop_items (ps : list prepared_path) : list (prepared_path * S) :=
  concat (map (fun p => map (fun s => (p, s)) (items p)) ps).

Definition loop_body (m : list (jsstr * V)) (p : prepared_path) : list (jsstr * V) :=
  fold_left (fun m s => upsert (ikey s) (init p s) (add (pp_metrics p)) m) (items p) m.

Lemma loop_accumulate ps : forall m,
  fold_left loop_body ps m =
  accumulate (fun x => ikey x.2) (fun x => init x.1 x.2) (fun x => add (pp_metrics x.1)) (loop_items ps) m.
Proof.
  induction ps as [|p ps IH]; intros m; [done|]. cbn [fold_left loop_items map concat]. rewrite IH.
  unfold accumulate at 2. rewrite fold_left_app. unfold loop_body, accumulate. f_equal.
  generalize (items p) as l. intros l. revert m. induction l as [|s l IHl]; intros m; [done|]. cbn [fold_left map]. apply IHl.
Qed.

(** The items of a key belong to the paths that have the key. *)
Lemma keyed_items k ps : Forall (fun p => NoDup (map ikey (items p))) ps ->
  map fst (with_key (fun x => ikey x.2) k (loop_items ps)) =
  List.filter (fun p => bool_decide (k ∈ map ikey (items p))) ps.
Proof.
  induction 1 as [|p ps Hp Hps IH]; [done|]. unfold loop_items, with_key in *. cbn [map concat].
  rewrite List.filter_app, map_app, IH. cbn [List.filter]. clear IH Hps.
  assert (Hl : map fst (List.filter (fun x : prepared_path * S => bool_decide (ikey x.2 = k)) (map (fun s => (p, s)) (items p))) =
    if bool_decide (k ∈ map ikey (items p)) then [p] else []).
  { induction (items p) as [|s l IHl]; [done|]. cbn [map] in Hp. apply list.NoDup_cons in Hp as [Hs Hp].
    cbn [map List.filter snd]. destruct (decide (ikey s = k)) as [<-|Hne].
    - rewrite bool_decide_true by done. cbn [map fst]. rewrite (bool_decide_true (_ ∈ _)) by (by left).
      f_equal. rewrite IHl by done. by rewrite bool_decide_false.
    - rewrite bool_decide_false by done. rewrite IHl by done.
      destruct (decide (k ∈ map ikey l)) as [Hin|Hin].
      + rewrite !bool_decide_true; [done|by right|done].
      + rewrite !bool_decide_false; [done| |done]. intros H%elem_of_cons. naive_solver. }
  rewrite Hl. by destruct (bool_decide _).
Qed.

(** The entries of the result. *)
Lemma loop_entry ps k v : Forall (fun p => NoDup (map ikey (items p))) ps ->
  (k, v) ∈ fold_left loop_body ps [] ->
  exists p s, p ∈ ps /\ s ∈ items p /\ ikey s = k /\
    v = fold_left (fun v q => add (pp_metrics q) v)
          (List.filter (fun q => bool_decide (k ∈ map ikey (items q))) ps) (init p s).
Proof.
  intros Hn. rewrite loop_accumulate, accumulate_In. intros ([p s] & l & Ek & ->).
  assert (Hin : In (p, s) (with_key (fun x => ikey x.2) k (loop_items ps))) by (rewrite Ek; by left).
  apply filter_In in Hin as [Hin Hk]. apply bool_decide_eq_true in Hk. simpl in Hk.
  apply in_concat in Hin as (l' & Hl & Hin). apply in_map_iff in Hl as (q & <- & Hq).
  apply in_map_iff in Hin as (s' & Es & Hs). injection Es as -> ->.
  exists p, s. split_and!; [by apply list_elem_of_In..|done|]. rewrite <- keyed_items, Ek by done. cbn [fst snd].
  generalize (init p s) as v. clear. generalize ((p, s) :: l) as xs.
  induction xs as [|x xs IH]; intros v; [done|]. apply (IH (add (pp_metrics x.1) v)).
Qed.

Lemma loop_keys ps k : k ∈ map fst (fold_left loop_body ps []) <-> exists p, p ∈ ps /\ k ∈ map ikey (items p).
Proof.
  rewrite loop_accumulate, accumulate_keys. simpl. split.
  - intros [H%elem_of_nil|([p s] & Hin & <-)]; [done|]. apply list_elem_of_In, in_concat in Hin as (l & Hl & Hin).
    apply in_map_iff in Hl as (q & <- & Hq). apply in_map_iff in Hin as (s' & [= -> ->] & Hs).
    exists p. split; [by apply list_elem_of_In|]. apply list_elem_of_In, in_map. exact Hs.
  - intros (p & Hp & Hk). right. apply list_elem_of_fmap in Hk as (s & -> & Hs). exists (p, s). split; [|done].
    apply list_elem_of_In, in_concat. exists (map (fun s => (p, s)) (items p)). split.
    + apply in_map_iff. exists p. split; [done|by apply list_elem_of_In].
    + apply in_map. by apply list_elem_of_In.
Qed.

Lemma loop_nodup ps : NoDup (map fst (fold_left loop_body ps [])).
Proof. rewrite loop_accumulate. apply accumulate_nodup. constructor. Qed.
End Loop.

(** ** Nodes *)

Definition node_init (colors : list (jsstr * jsstr)) (palette : option (list jsstr)) (p : prepared_path)
    (n : path_node) : flow_node :=
  match pp_path p with
  | root :: _ => empty_node n (path_color colors palette root) (pn_id root)
  | [] => empty_node n [] []
  end.
Definition link_init (colors : list (jsstr * jsstr)) (palette : option (list jsstr)) (p : prepared_path)
    (s : path_node * path_node) : flow_link :=
  match pp_path p with
  | root :: _ => empty_link s.1 s.2 (path_color colors palette root) (pn_id root)
  | [] => empty_link s.1 s.2 [] []
  end.

Abbreviation step_key := (fun s : path_node * path_node => pathLinkKey s.1 s.2).

Lemma nodes_loop metric colors palette ps m :
  fold_left (add_path_nodes metric colors palette) ps m =
  fold_left (loop_body pp_path pn_id (node_init colors palette) (fun ms => add_to_node ms metric)) ps m.
Proof.
  revert m. induction ps as [|p ps IH]; intros m; [done|]. cbn [fold_left]. rewrite IH. f_equal.
  unfold add_path_nodes, loop_body, node_init, addNode. by destruct (pp_path p).
Qed.
Lemma links_loop metric colors palette ps m :
  fold_left (add_path_links metric colors palette) ps m =
  fold_left (loop_body (fun p => path_steps (pp_path p)) step_key (link_init colors palette)
    (fun ms => add_to_link ms metric)) ps m.
Proof.
  revert m. induction ps as [|p ps IH]; intros m; [done|]. cbn [fold_left]. rewrite IH. f_equal.
  unfold add_path_links, loop_body, link_init, addLink. by destruct (pp_path p).
Qed.

(** What later passes over the graph keep. *)
Definition node_core (n : flow_node) : jsstr * flow_kind * (number * flow_metrics) :=
  (fn_id n, fn_kind n, (fn_value n, FlowMetrics (fn_quota n) (fn_tokens n) (fn_requests n))).
Definition link_core (l : flow_link) : jsstr * jsstr * (number * flow_metrics) :=
  (fl_source l, fl_target l, (fl_value l, FlowMetrics (fl_quota l) (fl_tokens l) (fl_requests l))).

(** The four sums over paths. *)
Definition path_totals (metric : flow_metric) (ps : list prepared_path) : number * flow_metrics :=
  (path_sum (fun m => metricValue m metric) ps,
   FlowMetrics (path_sum fm_quota ps) (path_sum fm_tokens ps) (path_sum fm_requests ps)).

Lemma node_folded metric ps : forall n,
  node_core (fold_left (fun v q => add_to_node (pp_metrics q) metric v) ps n) =
  (fn_id n, fn_kind n,
   (fold_left (fun s p => num_add s (metricValue (pp_metrics p) metric)) ps (fn_value n),
    FlowMetrics (fold_left (fun s p => num_add s (fm_quota (pp_metrics p))) ps (fn_quota n))
      (fold_left (fun s p => num_add s (fm_tokens (pp_metrics p))) ps (fn_tokens n))
      (fold_left (fun s p => num_add s (fm_requests (pp_metrics p))) ps (fn_requests n)))) /\
  fn_label (fold_left (fun v q => add_to_node (pp_metrics q) metric v) ps n) = fn_label n.
Proof. induction ps as [|p ps IH]; intros n; [done|]. exact (IH (add_to_node (pp_metrics p) metric n)). Qed.

Lemma link_folded metric ps : forall l,
  link_core (fold_left (fun v q => add_to_link (pp_metrics q) metric v) ps l) =
  (fl_source l, fl_target l,
   (fold_left (fun s p => num_add s (metricValue (pp_metrics p) metric)) ps (fl_value l),
    FlowMetrics (fold_left (fun s p => num_add s (fm_quota (pp_metrics p))) ps (fl_quota l))
      (fold_left (fun s p => num_add s (fm_tokens (pp_metrics p))) ps (fl_tokens l))
      (fold_left (fun s p => num_add s (fm_requests (pp_metrics p))) ps (fl_requests l)))).
Proof. induction ps as [|p ps IH]; intros l; [done|]. exact (IH (add_to_link (pp_metrics p) metric l)). Qed.

(** ** The result of the loops *)

Section Built.
Variable stages : list flow_kind.
Hypothesis Hstages : NoDup stages.
Variable ps : list prepared_path.
Hypothesis Hps : Forall (fun p => stage_path stages (pp_path p)) ps.
Variables (metric : flow_metric) (colors : list (jsstr * jsstr)) (palette : option (list jsstr)).

Definition built_nodes : list flow_node := map snd (fold_left (add_path_nodes metric colors palette) ps []).
Definition built_links : list flow_link := map snd (fold_left (add_path_links metric colors palette) ps []).

Lemma ids_nodup : Forall (fun p => NoDup (map pn_id (pp_path p))) ps.
Proof. eapply Forall_impl; [|exact Hps]. intros p. by apply stage_path_ids. Qed.

Lemma steps_In path a b : (a, b) ∈ path_steps path -> a ∈ path /\ b ∈ path.
Proof.
  unfold path_steps. destruct path as [|n path]; [by intros ?%elem_of_nil|]. cbn [tail]. revert n.
  induction path as [|m path IH]; intros n; [by intros ?%elem_of_nil|]. cbn [zip zip_with].
  intros [[= <- <-]|H]%elem_of_cons; [split; [by left|right; by left]|].
  destruct (IH m H) as [H1 H2]. split; by right.
Qed.

Lemma named_head a b : named_node a -> named_node b -> pn_kind a <> pn_kind b -> head (pn_id a) <> head (pn_id b).
Proof.
  intros [r ->] [s ->] Hne. by destruct (pn_kind a), (pn_kind b).
Qed.

(** Neighbours have different first kinds, so that their keys differ. *)
Lemma step_keys_path path : Forall named_node path -> NoDup (map pn_kind path) -> NoDup (map step_key (path_steps path)).
Proof.
  intros Hn Hk. unfold path_steps. destruct path as [|n path]; [constructor|]. cbn [tail].
  revert n Hn Hk. induction path as [|m path IH]; intros n Hn Hk; [constructor|]. cbn [zip zip_with map].
  apply list.Forall_cons in Hn as [Hnn Hn]. cbn [map] in Hk. apply list.NoDup_cons in Hk as [Hnk Hk].
  constructor; [|by apply IH]. intros Hin. apply list_elem_of_fmap in Hin as ([a b] & Ek & Hin). cbn [fst snd] in Ek.
  assert (Ha : a ∈ m :: path) by (by apply (steps_In (m :: path) a b)).
  assert (Hna : named_node a) by (by apply (proj1 (list.Forall_forall _ _) Hn)).
  apply (named_head n a Hnn Hna).
  - intros Ekind. apply Hnk. rewrite Ekind. change (pn_kind m :: map pn_kind path) with (map pn_kind (m :: path)).
    by apply list_elem_of_fmap_2.
  - apply (f_equal head) in Ek. unfold pathLinkKey in Ek. destruct Hnn as [r Er], Hna as [t Et].
    rewrite Er, Et in *. by destruct (pn_kind n), (pn_kind a).
Qed.

Lemma steps_nodup : Forall (fun p => NoDup (map step_key (path_steps (pp_path p)))) ps.
Proof.
  eapply Forall_impl; [|exact Hps]. intros p [Hk Hn]. apply step_keys_path; [done|by rewrite Hk].
Qed.

(** A node of the result comes from a path, with the sums over the paths through it. *)
Lemma built_node n : n ∈ built_nodes -> exists p pn, p ∈ ps /\ pn ∈ pp_path p /\
  fn_id n = pn_id pn /\ fn_kind n = pn_kind pn /\ fn_label n = pn_label pn /\
  node_core n = (pn_id pn, pn_kind pn, path_totals metric (List.filter (through (pn_id pn)) ps)).
Proof.
  unfold built_nodes. rewrite nodes_loop. intros Hin. apply list_elem_of_fmap in Hin as ([k v] & -> & Hin).
  destruct (loop_entry _ _ _ _ _ _ _ ids_nodup Hin) as (p & pn & Hp & Hpn & <- & ->). exists p, pn. cbn [snd].
  destruct (node_folded metric (List.filter (through (pn_id pn)) ps) (node_init colors palette p pn)) as [Hc Hl].
  assert (Hi : fn_id (node_init colors palette p pn) = pn_id pn /\ fn_kind (node_init colors palette p pn) = pn_kind pn /\
    fn_label (node_init colors palette p pn) = pn_label pn /\ fn_value (node_init colors palette p pn) = num_zero /\
    fn_quota (node_init colors palette p pn) = num_zero /\ fn_tokens (node_init colors palette p pn) = num_zero /\
    fn_requests (node_init colors palette p pn) = num_zero) by (unfold node_init; by destruct (pp_path p)).
  destruct Hi as (I1 & I2 & I3 & I4 & I5 & I6 & I7). rewrite I1, I2, I4, I5, I6, I7 in Hc.
  pose proof (f_equal (fun c => c.1.1) Hc) as H1. pose proof (f_equal (fun c => c.1.2) Hc) as H2.
  split_and!; [done|done|exact H1|exact H2|by rewrite <- I3|exact Hc].
Qed.

Lemma built_link l : l ∈ built_links -> exists p a b, p ∈ ps /\ (a, b) ∈ path_steps (pp_path p) /\
  fl_source l = pn_id a /\ fl_target l = pn_id b /\
  link_core l = (pn_id a, pn_id b, path_totals metric (List.filter (crosses (pathLinkKey a b)) ps)).
Proof.
  unfold built_links. rewrite links_loop. intros Hin. apply list_elem_of_fmap in Hin as ([k v] & -> & Hin).
  destruct (loop_entry _ _ _ _ _ _ _ steps_nodup Hin) as (p & [a b] & Hp & Hs & <- & ->). exists p, a, b. cbn [fst snd].
  pose proof (link_folded metric (List.filter (crosses (pathLinkKey a b)) ps) (link_init colors palette p (a, b))) as Hc.
  assert (Hi : fl_source (link_init colors palette p (a, b)) = pn_id a /\ fl_target (link_init colors palette p (a, b)) = pn_id b /\
    fl_value (link_init colors palette p (a, b)) = num_zero /\
    fl_quota (link_init colors palette p (a, b)) = num_zero /\ fl_tokens (link_init colors palette p (a, b)) = num_zero /\
    fl_requests (link_init colors palette p (a, b)) = num_zero) by (unfold link_init; by destruct (pp_path p)).
  destruct Hi as (I1 & I2 & I4 & I5 & I6 & I7). rewrite I1, I2, I4, I5, I6, I7 in Hc.
  pose proof (f_equal (fun c => c.1.1) Hc) as H1. pose proof (f_equal (fun c => c.1.2) Hc) as H2.
  split_and!; [done|done|exact H1|exact H2|exact Hc].
Qed.

Lemma snd_keys {V} (f : V -> jsstr) (m : list (jsstr * V)) : (forall k v, (k, v) ∈ m -> f v = k) ->
  map f (map snd m) = map fst m.
Proof.
  intros H. rewrite map_map. apply map_ext_in. intros [k v] Hin. apply H. by apply list_elem_of_In.
Qed.

Lemma built_ids : map fn_id built_nodes = map fst (fold_left (add_path_nodes metric colors palette) ps []).
Proof.
  apply snd_keys. intros k v Hin. rewrite nodes_loop in Hin.
  destruct (loop_entry _ _ _ _ _ _ _ ids_nodup Hin) as (p & pn & _ & _ & <- & ->).
  destruct (node_folded metric (List.filter (fun q => bool_decide (pn_id pn ∈ map pn_id (pp_path q))) ps)
              (node_init colors palette p pn)) as [Hc _].
  apply (f_equal (fun c => c.1.1)) in Hc. cbn [fst] in Hc. refine (eq_trans Hc _).
  unfold node_init. by destruct (pp_path p).
Qed.

Lemma built_link_keys : map linkStableKey built_links = map fst (fold_left (add_path_links metric colors palette) ps []).
Proof.
  apply snd_keys. intros k v Hin. rewrite links_loop in Hin.
  destruct (loop_entry _ _ _ _ _ _ _ steps_nodup Hin) as (p & [a b] & _ & _ & <- & ->).
  pose proof (link_folded metric (List.filter (fun q => bool_decide (pathLinkKey a b ∈ map step_key (path_steps (pp_path q)))) ps)
              (link_init colors palette p (a, b))) as Hc.
  pose proof (f_equal (fun c => c.1.1) Hc) as H1. pose proof (f_equal (fun c => c.1.2) Hc) as H2. cbn [fst snd] in H1, H2.
  unfold linkStableKey, link_core in *. cbn [fst snd] in *. rewrite H1, H2. unfold link_init. by destruct (pp_path p).
Qed.

Lemma built_ids_nodup : NoDup (map fn_id built_nodes).
Proof. rewrite built_ids, nodes_loop. apply loop_nodup. Qed.
Lemma built_keys_nodup : NoDup (map linkStableKey built_links).
Proof. rewrite built_link_keys, links_loop. apply loop_nodup. Qed.

Lemma built_ids_through id : id ∈ map fn_id built_nodes <-> exists p, p ∈ ps /\ through id p = true.
Proof.
  rewrite built_ids, nodes_loop, loop_keys. unfold through. split; intros (p & Hp & H); exists p; (split; [done|]);
    [by apply bool_decide_eq_true_2|by apply bool_decide_eq_true_1 in H].
Qed.
Lemma built_keys_cross key : key ∈ map linkStableKey built_links <-> exists p, p ∈ ps /\ crosses key p = true.
Proof.
  rewrite built_link_keys, links_loop, loop_keys. unfold crosses, step_keys.
  split; intros (p & Hp & H); exists p; (split; [done|]);
    [by apply bool_decide_eq_true_2|by apply bool_decide_eq_true_1 in H].
Qed.
End Built.

(** ** What the later passes keep *)

Lemma mask_cores nodes links :
  map node_core (maskFlowGraphLabels nodes links).1 = map node_core nodes /\
  map link_core (maskFlowGraphLabels nodes links).2 = map link_core links.
Proof.
  unfold maskFlowGraphLabels. cbn [fst snd]. split.
  - rewrite map_map. apply map_ext. intros n. by destruct (is_masked n).
  - destruct (fold_left _ nodes []); [done|]. rewrite map_map. by apply map_ext.
Qed.

(** ** The sets of top nodes *)

Lemma mget_map {K V W} `{EqDecision K} (f : V -> W) (m : list (K * V)) k :
  mget (map (fun t : K * V => (t.1, f t.2)) m) k = option_map f (mget m k).
Proof. induction m as [|[k' v] m IH]; simpl; [done|]. by case_bool_decide. Qed.

Lemma fold_keeps {A K V} `{EqDecision K} (step : list (K * V) -> A -> list (K * V)) k l :
  (forall m x, mget m k <> None -> mget (step m x) k <> None) ->
  forall m, mget m k <> None -> mget (fold_left step l m) k <> None.
Proof. intros Hs. induction l as [|x l IH]; intros m Hm; [done|]. apply IH. by apply Hs. Qed.

Lemma mput_keeps {K V} `{EqDecision K} (k k' : K) (v : V) m : mget m k <> None -> mget (mput k' v m) k <> None.
Proof. intros H. rewrite mget_mput. by case_bool_decide. Qed.

Lemma mput_all {K V} `{EqDecision K} (v : V) (ks : list K) k : k ∈ ks -> forall m,
  mget (fold_left (fun m x => mput x v m) ks m) k <> None.
Proof.
  intros Hin. induction ks as [|x ks IH]; intros m; [by apply elem_of_nil in Hin|]. cbn [fold_left].
  apply elem_of_cons in Hin as [->|Hin]; [|by apply IH]. apply fold_keeps.
  - intros m' y. apply mput_keeps.
  - rewrite mget_mput. by rewrite bool_decide_true.
Qed.

(** Every stage has a set of at most [limit] nodes. *)
Lemma top_sets rows metric stages limit ctx k : 0 < limit -> k ∈ stages ->
  exists sets ids, buildTopNodeSets rows metric stages (Some limit) ctx = Some sets /\
    mget sets k = Some ids /\ length ids <= limit.
Proof.
  intros Hl Hk. unfold buildTopNodeSets. destruct limit as [|limit]; [lia|].
  set (totals := fold_left _ rows _).
  assert (Ht : mget totals k <> None).
  { unfold totals. apply fold_keeps; [|by apply mput_all]. intros m row Hm. apply fold_keeps; [|done].
    intros m' n Hm'. destruct (mget m' (pn_kind n)); [by apply mput_keeps|done]. }
  destruct (mget totals k) as [st|] eqn:Est; [|done].
  eexists _, (map (fun r => pn_id (nr_node r)) (take (S limit) (sort_by by_rank (map snd st)))).
  split; [reflexivity|]. split.
  - rewrite (mget_map (fun st => map (fun r => pn_id (nr_node r)) (take (S limit) (sort_by by_rank (map snd st))))).
    by rewrite Est.
  - rewrite length_map, length_take. lia.
Qed.

(** A node of a prepared path is a top node or stands for the others. *)
Lemma prepared_top rows stages sets mode labeler ctx p pn :
  p ∈ prepare_paths rows stages (Some sets) mode labeler ctx -> pn ∈ pp_path p ->
  isTopFlowNode pn sets = true \/ (mode = Aggregate /\ pn_id pn = OTHER_FLOW_NODE_ID (pn_kind pn)).
Proof.
  induction rows as [|row rows IH]; [by intros ?%elem_of_nil|]. cbn [prepare_paths].
  destruct (applyTopNodeLimit _ _ _ _) as [path|] eqn:Ep; [|apply IH].
  intros [->|H]%elem_of_cons Hpn; [|by apply IH]. cbn [pp_path] in Hpn. unfold applyTopNodeLimit in Ep.
  destruct (negb (existsb _ _)) eqn:Ex.
  - injection Ep as <-. left. apply negb_true_iff in Ex.
    destruct (isTopFlowNode pn sets) eqn:Et; [done|]. exfalso.
    apply not_true_iff_false in Ex. apply Ex, existsb_exists. exists pn. split; [by apply list_elem_of_In|by rewrite Et].
  - destruct mode; [|done]. injection Ep as <-. apply list_elem_of_fmap in Hpn as (n & -> & _).
    destruct (isTopFlowNode n sets) eqn:Et; [by left|by right].
Qed.

(** * The graph *)

Section Graph.
Variables (rows : list flow_row) (metric : flow_metric) (role : flow_role) (palette : option (list jsstr))
  (visible : option (list flow_kind)) (ctx : path_context) (options : graph_options).

Definition graph_sets : option (list (flow_kind * list jsstr)) :=
  buildTopNodeSets rows metric (resolveVisibleStages role visible)
    (normalizeTopNodeLimit (go_topNodeLimit options)) ctx.
Definition graph_mode : overflow_mode :=
  match go_overflowMode options with Some m => m | None => Aggregate end.

(** The paths the graph is made of. *)
Definition graph_paths : list prepared_path :=
  prepare_paths rows (resolveVisibleStages role visible) graph_sets graph_mode (go_otherNodeLabel options) ctx.

Definition graph_colors : list (jsstr * jsstr) :=
  stableColorMap (sort_by localeCompare (first_ids graph_paths)) palette.

Abbreviation graph := (buildFlowGraph rows metric role palette visible ctx options).
Abbreviation nodes0 := (built_nodes graph_paths metric graph_colors palette).
Abbreviation links0 := (built_links graph_paths metric graph_colors palette).

Lemma graph_paths_stages : Forall (fun p => stage_path (resolveVisibleStages role visible) (pp_path p)) graph_paths.
Proof. apply prepared_stages. Qed.

(** The nodes and links after masking. *)
Definition shown : list flow_node * list flow_link :=
  if go_maskSensitive options then maskFlowGraphLabels nodes0 links0 else (nodes0, links0).

(** What neither flags nor shares nor colours change is that of the masked nodes and
    links, up to order. *)
Lemma graph_projected {A B} (f : flow_node -> A) (h : flow_link -> B) :
  (forall b n, f (set_node_flags b n) = f n) -> (forall b l, h (set_link_flags b l) = h l) ->
  (forall x l, h (set_share x l) = h l) -> (forall c l, h (set_display_color c l) = h l) ->
  Permutation (map f (fg_nodes graph)) (map f shown.1) /\ Permutation (map h (fg_links graph)) (map h shown.2).
Proof.
  intros Hf Hh Hsh Hc. unfold buildFlowGraph. fold graph_sets graph_mode. fold graph_paths. fold graph_colors.
  fold (built_nodes graph_paths metric graph_colors palette). fold (built_links graph_paths metric graph_colors palette).
  fold shown. destruct shown as [ns ls]. set (sets := buildFlowHighlightSets _ _ _ _).
  assert (Hhl : map f (applyFlowHighlights ns ls sets).1 = map f ns /\ map h (applyFlowHighlights ns ls sets).2 = map h ls).
  { unfold applyFlowHighlights. destruct sets as [[x y]|]; [|done]. cbn [fst snd]. rewrite !map_map. split; by apply map_ext. }
  destruct Hhl as [Hn2 Hl2]. destruct (applyFlowHighlights ns ls sets) as [ns2 ls2]. cbn [fst snd fg_nodes fg_links] in *.
  rewrite <- Hn2, <- Hl2. split; [by rewrite (sort_by_perm byValueThenLabel ns2)|].
  unfold assignLinkDisplayColors. rewrite !map_map.
  rewrite (map_ext _ h); [by rewrite (sort_by_perm by_source_target ls2)|].
  intros l. destruct (mget _ _); by rewrite ?Hc, Hsh.
Qed.

(** The sums of the nodes and links are those of the loops. *)
Lemma graph_cores :
  Permutation (map node_core (fg_nodes graph)) (map node_core nodes0) /\
  Permutation (map link_core (fg_links graph)) (map link_core links0).
Proof.
  destruct (graph_projected node_core link_core) as [H1 H2]; [done..|].
  assert (Hs : map node_core shown.1 = map node_core nodes0 /\ map link_core shown.2 = map link_core links0)
    by (unfold shown; destruct (go_maskSensitive options); [apply mask_cores|done]).
  destruct Hs as [<- <-]. done.
Qed.

Lemma core_node n : n ∈ fg_nodes graph -> exists n0, n0 ∈ nodes0 /\ node_core n0 = node_core n.
Proof.
  intros Hn. destruct graph_cores as [H _].
  assert (Hin : node_core n ∈ map node_core nodes0) by (rewrite <- H; by apply list_elem_of_fmap_2).
  apply list_elem_of_fmap in Hin as (n0 & E0 & Hn0). by exists n0.
Qed.
Lemma core_link l : l ∈ fg_links graph -> exists l0, l0 ∈ links0 /\ link_core l0 = link_core l.
Proof.
  intros Hl. destruct graph_cores as [_ H].
  assert (Hin : link_core l ∈ map link_core links0) by (rewrite <- H; by apply list_elem_of_fmap_2).
  apply list_elem_of_fmap in Hin as (l0 & E0 & Hl0). by exists l0.
Qed.

Definition core_key (c : jsstr * jsstr * (number * flow_metrics)) : jsstr := c.1.1 ++ NUL ++ c.1.2.

Lemma graph_ids : Permutation (map fn_id (fg_nodes graph)) (map fn_id nodes0) /\
  Permutation (map linkStableKey (fg_links graph)) (map linkStableKey links0).
Proof.
  destruct graph_cores as [H1 H2].
  apply (Permutation_map (fun c => c.1.1)) in H1. apply (Permutation_map core_key) in H2.
  rewrite !map_map in H1, H2. by split.
Qed.

(** A node of the graph, by a node of one of its paths. *)
Lemma graph_node n : n ∈ fg_nodes graph -> exists p pn, p ∈ graph_paths /\ pn ∈ pp_path p /\
  fn_id n = pn_id pn /\ fn_kind n = pn_kind pn /\
  node_core n = (fn_id n, fn_kind n, path_totals metric (List.filter (through (fn_id n)) graph_paths)).
Proof.
  intros Hn. destruct (core_node n Hn) as (n0 & Hn0 & Ec).
  destruct (built_node _ (stages_nodup role visible) _ graph_paths_stages _ _ _ _ Hn0) as (p & pn & Hp & Hpn & _ & _ & _ & Hc).
  rewrite Ec in Hc. pose proof (f_equal (fun c => c.1.1) Hc) as H1. pose proof (f_equal (fun c => c.1.2) Hc) as H2.
  cbn [fst snd node_core] in H1, H2. exists p, pn. rewrite H1, H2. by split_and!.
Qed.

Lemma graph_link l : l ∈ fg_links graph -> exists p a b, p ∈ graph_paths /\ (a, b) ∈ path_steps (pp_path p) /\
  fl_source l = pn_id a /\ fl_target l = pn_id b /\
  link_core l = (fl_source l, fl_target l, path_totals metric (List.filter (crosses (linkStableKey l)) graph_paths)).
Proof.
  intros Hl. destruct (core_link l Hl) as (l0 & Hl0 & Ec).
  destruct (built_link _ (stages_nodup role visible) _ graph_paths_stages _ _ _ _ Hl0) as (p & a & b & Hp & Hs & _ & _ & Hc).
  rewrite Ec in Hc. pose proof (f_equal (fun c => c.1.1) Hc) as H1. pose proof (f_equal (fun c => c.1.2) Hc) as H2.
  cbn [fst snd link_core] in H1, H2. exists p, a, b. unfold linkStableKey. rewrite H1, H2. by split_and!.
Qed.

(** The graph adds up the rows: its nodes are the nodes of the prepared paths, each
    once, its links the steps of the paths, each once, and the value, quota, tokens
    and requests of a node or link are the sums over the paths that pass through it,
    in the order of the rows; masking, highlighting, colours and sorting change none
    of this. *)
Theorem flow_totals :
  NoDup (map fn_id (fg_nodes graph)) /\ NoDup (map linkStableKey (fg_links graph)) /\
  (forall id, id ∈ map fn_id (fg_nodes graph) <-> exists p, p ∈ graph_paths /\ through id p = true) /\
  (forall key, key ∈ map linkStableKey (fg_links graph) <-> exists p, p ∈ graph_paths /\ crosses key p = true) /\
  (forall n, n ∈ fg_nodes graph -> exists p pn, p ∈ graph_paths /\ pn ∈ pp_path p /\
     node_core n = (pn_id pn, pn_kind pn, path_totals metric (List.filter (through (fn_id n)) graph_paths))) /\
  (forall l, l ∈ fg_links graph -> exists p a b, p ∈ graph_paths /\ (a, b) ∈ path_steps (pp_path p) /\
     link_core l = (pn_id a, pn_id b, path_totals metric (List.filter (crosses (linkStableKey l)) graph_paths))).
Proof.
  destruct graph_ids as [H1 H2].
  pose proof (stages_nodup role visible) as Hst. pose proof graph_paths_stages as Hps. split_and!.
  - rewrite H1. by apply (built_ids_nodup _ Hst _ Hps).
  - rewrite H2. by apply (built_keys_nodup _ Hst _ Hps).
  - intros id. rewrite H1. by apply (built_ids_through _ Hst _ Hps).
  - intros key. rewrite H2. by apply (built_keys_cross _ Hst _ Hps).
  - intros n Hn. destruct (graph_node n Hn) as (p & pn & Hp & Hpn & E1 & E2 & Hc). exists p, pn.
    rewrite <- E1, <- E2. by split_and!.
  - intros l Hl. destruct (graph_link l Hl) as (p & a & b & Hp & Hs & E1 & E2 & Hc). exists p, a, b.
    rewrite <- E1, <- E2. by split_and!.
Qed.

(** Nodes of a kind. *)
Definition kind_nodes (k : flow_kind) : list flow_node :=
  List.filter (fun n => bool_decide (fn_kind n = k)) (fg_nodes graph).

Lemma kind_nodes_nodup k : NoDup (map fn_id (kind_nodes k)).
Proof.
  assert (H : NoDup (map fn_id (fg_nodes graph))).
  { destruct graph_ids as [-> _]. by apply (built_ids_nodup _ (stages_nodup role visible) _ graph_paths_stages). }
  unfold kind_nodes. induction (fg_nodes graph) as [|n ns IH]; [constructor|]. cbn [map List.filter] in *.
  apply list.NoDup_cons in H as [Hn H]. destruct (bool_decide _); [|by apply IH]. cbn [map].
  constructor; [|by apply IH]. intros Hin. apply Hn. apply list_elem_of_fmap in Hin as (m & -> & Hm).
  apply list_elem_of_fmap_2. apply list_elem_of_In, filter_In in Hm as [Hm _]. by apply list_elem_of_In.
Qed.

Lemma kind_node k n : n ∈ kind_nodes k -> n ∈ fg_nodes graph /\ fn_kind n = k.
Proof.
  intros H. apply list_elem_of_In, filter_In in H as [H Hk]. apply bool_decide_eq_true_1 in Hk.
  split; [by apply list_elem_of_In|done].
Qed.

(** The limit on nodes is kept: with a limit of [k] every stage of the graph has at
    most [k] nodes, and one more that stands for the others when these are
    aggregated. *)
Theorem flow_node_limit limit kind :
  normalizeTopNodeLimit (go_topNodeLimit options) = Some limit ->
  length (kind_nodes kind) <= limit + match graph_mode with Aggregate => 1 | Hide => 0 end.
Proof.
  intros Hl. rewrite <- (length_map fn_id).
  assert (Hpos : 0 < limit).
  { revert Hl. unfold normalizeTopNodeLimit. destruct (go_topNodeLimit options); [|done].
    destruct (num_to_Z _) as [z|]; [|done]. destruct (0 <? z)%Z eqn:Ez; [|done]. intros [= <-].
    apply Z.ltb_lt in Ez. lia. }
  destruct (decide (kind ∈ resolveVisibleStages role visible)) as [Hk|Hk].
  - destruct (top_sets rows metric _ limit ctx kind Hpos Hk) as (sets & ids & Hs & Hids & Hlen).
    assert (Hsets : graph_sets = Some sets) by (unfold graph_sets; by rewrite Hl).
    set (others := match graph_mode with Aggregate => [OTHER_FLOW_NODE_ID kind] | Hide => [] end).
    assert (Hincl : incl (map fn_id (kind_nodes kind)) (ids ++ others)).
    { intros id Hid. apply in_map_iff in Hid as (n & <- & Hn). apply list_elem_of_In, kind_node in Hn as [Hn Ek].
      destruct (graph_node n Hn) as (p & pn & Hp & Hpn & E1 & E2 & _). unfold graph_paths in Hp. rewrite Hsets in Hp.
      rewrite E1. apply in_app_iff. destruct (prepared_top _ _ _ _ _ _ _ _ Hp Hpn) as [Ht|[Hm Ho]].
      - left. unfold isTopFlowNode in Ht. rewrite <- E2, Ek, Hids in Ht. apply list_elem_of_In.
        by apply bool_decide_eq_true_1 in Ht.
      - right. unfold others. rewrite Hm, Ho, <- E2, Ek. by left. }
    eapply Nat.le_trans; [apply (NoDup_incl_length (l' := ids ++ others)); [|exact Hincl]|].
    + apply NoDup_ListNoDup, kind_nodes_nodup.
    + rewrite length_app. unfold others. destruct graph_mode; simpl; lia.
  - destruct (kind_nodes kind) as [|n ns] eqn:En; [simpl; lia|]. exfalso. apply Hk.
    destruct (kind_node kind n) as [Hn <-]; [rewrite En; by left|].
    destruct (graph_node n Hn) as (p & pn & Hp & Hpn & _ & -> & _).
    destruct (proj1 (list.Forall_forall _ _) graph_paths_stages p Hp) as [<- _]. by apply list_elem_of_fmap_2.
Qed.

(** ** Masking *)

Definition hidden (label : jsstr) : Prop := label = [] \/ label = FLOW_MASK_TEXT.

Lemma mask_hidden label : hidden (maskFlowLabel label).
Proof. destruct label; [by left|by right]. Qed.

(** The map of masked labels. *)
Definition mask_map (nodes : list flow_node) : list (jsstr * jsstr) :=
  fold_left (fun m n => if is_masked n then mput (fn_id n) (maskFlowLabel (fn_label n)) m else m) nodes [].

Lemma mask_map_spec nodes : (forall id l, mget (mask_map nodes) id = Some l -> hidden l) /\
  (forall n, n ∈ nodes -> is_masked n = true -> mget (mask_map nodes) (fn_id n) <> None).
Proof.
  unfold mask_map.
  assert (H : forall m, (forall id l, mget m id = Some l -> hidden l) ->
    (forall id l, mget (fold_left (fun m n => if is_masked n then mput (fn_id n) (maskFlowLabel (fn_label n)) m else m) nodes m) id = Some l -> hidden l)).
  { induction nodes as [|n ns IH]; intros m Hm; [done|]. apply IH. intros id l. destruct (is_masked n); [|apply Hm].
    rewrite mget_mput. case_bool_decide; [|apply Hm]. intros [= <-]. apply mask_hidden. }
  split; [by apply H|]. clear H. generalize (@nil (jsstr * jsstr)) as m.
  induction nodes as [|n ns IH]; intros m x Hx Hmask; [by apply elem_of_nil in Hx|]. cbn [fold_left].
  apply elem_of_cons in Hx as [->|Hx]; [|by apply IH]. rewrite Hmask. apply fold_keeps.
  - intros m' y Hm'. destruct (is_masked y); [by apply mput_keeps|done].
  - rewrite mget_mput. by rewrite bool_decide_true.
Qed.

Lemma mask_links nodes links l : l ∈ (maskFlowGraphLabels nodes links).2 ->
  exists l0, l0 ∈ links /\ fl_source l = fl_source l0 /\ fl_target l = fl_target l0 /\
    fl_sourceLabel l = (match mget (mask_map nodes) (fl_source l) with Some x => x | None => fl_sourceLabel l0 end) /\
    fl_targetLabel l = (match mget (mask_map nodes) (fl_target l) with Some x => x | None => fl_targetLabel l0 end).
Proof.
  unfold maskFlowGraphLabels. fold (mask_map nodes). cbn [snd]. destruct (mask_map nodes) as [|e m] eqn:Em.
  - intros H. by exists l.
  - intros H. apply list_elem_of_fmap in H as (l0 & -> & H0). by exists l0.
Qed.

(** The label of a masked node is recorded for the links. *)
Lemma masked_end a : a ∈ fg_nodes graph -> is_masked a = true ->
  exists x, mget (mask_map nodes0) (fn_id a) = Some x /\ hidden x.
Proof.
  intros Ha Hma. destruct (mask_map_spec nodes0) as [Hh Hm]. destruct (core_node a Ha) as (a0 & Ha0 & Ec).
  assert (I1 : fn_id a0 = fn_id a) by exact (f_equal (fun c => c.1.1) Ec).
  assert (I2 : fn_kind a0 = fn_kind a) by exact (f_equal (fun c => c.1.2) Ec).
  assert (Hma0 : is_masked a0 = true) by (unfold is_masked in *; by rewrite I1, I2).
  specialize (Hm a0 Ha0 Hma0). rewrite I1 in Hm. destruct (mget (mask_map nodes0) (fn_id a)) as [x|] eqn:Eg; [|done].
  exists x. split; [done|]. by eapply Hh.
Qed.

(** Masking hides what it should: in a masked graph every node of a user, node,
    token, group or channel that does not stand for the others has the masking text as
    its label (or none), and both labels of every link are hidden when the nodes at
    its ends are; the ends of a link are nodes of the graph. *)
Theorem masked_labels_hidden :
  go_maskSensitive options = true ->
  (forall n, n ∈ fg_nodes graph -> is_masked n = true -> hidden (fn_label n)) /\
  (forall l, l ∈ fg_links graph -> exists a b, a ∈ fg_nodes graph /\ b ∈ fg_nodes graph /\
     fn_id a = fl_source l /\ fn_id b = fl_target l /\
     (is_masked a = true -> hidden (fl_sourceLabel l)) /\ (is_masked b = true -> hidden (fl_targetLabel l))).
Proof.
  intros Hmask.
  destruct (graph_projected (fun n => (fn_id n, fn_kind n, fn_label n))
    (fun l => (fl_source l, fl_target l, fl_sourceLabel l, fl_targetLabel l))) as [H1 H2]; [done..|].
  unfold shown in H1, H2. rewrite Hmask in H1, H2.
  pose proof (stages_nodup role visible) as Hst. pose proof graph_paths_stages as Hps.
  split.
  - intros n Hn Hm'.
    assert (Hin : (fn_id n, fn_kind n, fn_label n) ∈ map (fun n => (fn_id n, fn_kind n, fn_label n)) (maskFlowGraphLabels nodes0 links0).1)
      by (rewrite <- H1; by apply (list_elem_of_fmap_2 (fun n => (fn_id n, fn_kind n, fn_label n)))).
    apply list_elem_of_fmap in Hin as (x & [= E1 E2 E3] & Hx). rewrite E3.
    unfold maskFlowGraphLabels in Hx. cbn [fst] in Hx. apply list_elem_of_fmap in Hx as (n0 & -> & _).
    assert (Hm0 : is_masked n0 = true).
    { destruct (is_masked n0) eqn:E0; [done|]. unfold is_masked in *. rewrite E1, E2 in Hm'. congruence. }
    rewrite Hm0. apply mask_hidden.
  - intros l Hl.
    assert (Hends : fl_source l ∈ map fn_id (fg_nodes graph) /\ fl_target l ∈ map fn_id (fg_nodes graph)).
    { destruct (graph_link l Hl) as (p & a & b & Hp & Hs & -> & -> & _). destruct graph_ids as [Hi _]. rewrite Hi.
      apply steps_In in Hs as [Ha Hb].
      split; apply (built_ids_through _ Hst _ Hps); exists p; (split; [done|]); apply bool_decide_eq_true_2;
        by apply list_elem_of_fmap_2. }
    destruct Hends as [Hs Ht]. apply list_elem_of_fmap in Hs as (a & Ea & Ha), Ht as (b & Eb & Hb).
    exists a, b. split_and!; [done|done|done|done|..].
    all: assert (Hin : (fl_source l, fl_target l, fl_sourceLabel l, fl_targetLabel l) ∈
        map (fun l => (fl_source l, fl_target l, fl_sourceLabel l, fl_targetLabel l)) (maskFlowGraphLabels nodes0 links0).2)
        by (rewrite <- H2; by apply (list_elem_of_fmap_2 (fun l => (fl_source l, fl_target l, fl_sourceLabel l, fl_targetLabel l)))).
    all: apply list_elem_of_fmap in Hin as (l' & [= L1 L2 L3 L4] & Hl');
         apply mask_links in Hl' as (l0 & _ & _ & _ & S1 & S2).
    + intros Hma. rewrite L3, S1, <- L1, Ea. by destruct (masked_end a Ha Hma) as (x & -> & ?).
    + intros Hmb. rewrite L4, S2, <- L2, Eb. by destruct (masked_end b Hb Hmb) as (x & -> & ?).
Qed.

(** ** Highlights *)

Abbreviation highlight_sets :=
  (buildFlowHighlightSets graph_paths (go_activeNode options) (go_activeLink options) (resolveVisibleStages role visible)).

(** The path is one of the selection. *)
Definition selected_path (p : prepared_path) : bool :=
  matches_path (go_activeNode options) (go_activeLink options) (pp_path p).

Lemma highlight_member ns ls : highlight_sets = Some (ns, ls) ->
  (forall id, bool_decide (id ∈ ns) = existsb (fun p => selected_path p && through id p) graph_paths) /\
  (forall key, bool_decide (key ∈ ls) = existsb (fun p => selected_path p && crosses key p) graph_paths).
Proof.
  unfold buildFlowHighlightSets. destruct (negb _ && _); [done|]. set (matching := List.filter _ graph_paths).
  assert (Hmem : forall (f : prepared_path -> list jsstr) k,
    bool_decide (k ∈ concat (map f matching)) = existsb (fun p => selected_path p && bool_decide (k ∈ f p)) graph_paths).
  { intros f k. destruct (existsb _ _) eqn:Ex.
    - apply existsb_exists in Ex as (p & Hp & Hk). apply andb_true_iff in Hk as [Hsel Hk]. apply bool_decide_eq_true_1 in Hk.
      apply bool_decide_eq_true_2, list_elem_of_In, in_concat. exists (f p). split; [|by apply list_elem_of_In].
      apply in_map, filter_In. by split.
    - apply bool_decide_eq_false_2. intros Hin. apply list_elem_of_In, in_concat in Hin as (l & Hl & Hin).
      apply in_map_iff in Hl as (p & <- & Hp). apply filter_In in Hp as [Hp Hsel].
      apply not_true_iff_false in Ex. apply Ex, existsb_exists. exists p. split; [done|]. unfold selected_path. rewrite Hsel. cbn [andb].
      apply bool_decide_eq_true_2. by apply list_elem_of_In. }
  destruct (concat (map (fun p => map pn_id (pp_path p)) matching)) as [|x l] eqn:En; [done|]. rewrite <- En.
  intros [= <- <-]. split; intros k; [exact (Hmem (fun p => map pn_id (pp_path p)) k)|exact (Hmem step_keys k)].
Qed.

(** The flags of the nodes and links before highlighting are not set. *)
Lemma shown_flags : Forall (fun n => fn_highlighted n = None /\ fn_dimmed n = None) shown.1 /\
  Forall (fun l => fl_highlighted l = None /\ fl_dimmed l = None) shown.2.
Proof.
  assert (Hn : Forall (fun n => fn_highlighted n = None /\ fn_dimmed n = None) nodes0).
  { apply list.Forall_forall. intros n Hn. unfold built_nodes in Hn. rewrite nodes_loop in Hn.
    apply list_elem_of_fmap in Hn as ([k v] & -> & Hin).
    destruct (loop_entry _ _ _ _ _ _ _ (ids_nodup _ (stages_nodup role visible) _ graph_paths_stages) Hin) as (p & pn & _ & _ & _ & ->).
    cbn [snd]. generalize (List.filter (fun q => bool_decide (k ∈ map pn_id (pp_path q))) graph_paths) as l.
    assert (H0 : fn_highlighted (node_init graph_colors palette p pn) = None /\ fn_dimmed (node_init graph_colors palette p pn) = None)
      by (unfold node_init; by destruct (pp_path p)).
    revert H0. generalize (node_init graph_colors palette p pn) as n0. intros n0 H0 l. revert n0 H0.
    induction l as [|q l IH]; intros n0 H0; [done|]. apply (IH (add_to_node (pp_metrics q) metric n0) H0). }
  assert (Hl : Forall (fun l => fl_highlighted l = None /\ fl_dimmed l = None) links0).
  { apply list.Forall_forall. intros l Hl. unfold built_links in Hl. rewrite links_loop in Hl.
    apply list_elem_of_fmap in Hl as ([k v] & -> & Hin).
    destruct (loop_entry _ _ _ _ _ _ _ (steps_nodup _ (stages_nodup role visible) _ graph_paths_stages) Hin) as (p & st & _ & _ & _ & ->).
    cbn [snd]. generalize (List.filter (fun q => bool_decide (k ∈ map step_key (path_steps (pp_path q)))) graph_paths) as l.
    assert (H0 : fl_highlighted (link_init graph_colors palette p st) = None /\ fl_dimmed (link_init graph_colors palette p st) = None)
      by (unfold link_init; by destruct (pp_path p)).
    revert H0. generalize (link_init graph_colors palette p st) as n0. intros n0 H0 l. revert n0 H0.
    induction l as [|q l IH]; intros n0 H0; [done|]. apply (IH (add_to_link (pp_metrics q) metric n0) H0). }
  unfold shown. destruct (go_maskSensitive options); [|done]. unfold maskFlowGraphLabels. cbn [fst snd]. split.
  - apply Forall_map. eapply Forall_impl; [|exact Hn]. intros n Hx. by destruct (is_masked n).
  - destruct (fold_left _ nodes0 []); [done|]. apply Forall_map. eapply Forall_impl; [|exact Hl]. done.
Qed.

(** The flags a selection gives. *)
Definition flags_of (on : prepared_path -> bool) : option bool * option bool :=
  match highlight_sets with
  | None => (None, None)
  | Some _ => let b := existsb (fun p => selected_path p && on p) graph_paths in (Some b, Some (negb b))
  end.

(** C. Highlighting follows whole paths: when a node or a link is selected and some path
    belongs to the selection, a node or link is highlighted exactly when one of the
    selected paths passes through it, and dimmed otherwise; without such a path no
    flag is set. *)
Theorem flow_highlights :
  (forall n, n ∈ fg_nodes graph -> (fn_highlighted n, fn_dimmed n) = flags_of (through (fn_id n))) /\
  (forall l, l ∈ fg_links graph -> (fl_highlighted l, fl_dimmed l) = flags_of (crosses (linkStableKey l))).
Proof.
  destruct shown_flags as [Fn Fl].
  assert (Hn : forall n, n ∈ (applyFlowHighlights shown.1 shown.2 highlight_sets).1 ->
    (fn_highlighted n, fn_dimmed n) = flags_of (through (fn_id n))).
  { intros n Hin. unfold flags_of, applyFlowHighlights in *. destruct highlight_sets as [[x y]|] eqn:Eh; cbn [fst] in Hin.
    - apply list_elem_of_fmap in Hin as (n0 & -> & _). cbn [set_node_flags fn_highlighted fn_dimmed fn_id].
      destruct (highlight_member x y Eh) as [Hm _]. by rewrite Hm.
    - apply (proj1 (list.Forall_forall _ _) Fn) in Hin as [-> ->]. done. }
  assert (Hl : forall l, l ∈ (applyFlowHighlights shown.1 shown.2 highlight_sets).2 ->
    (fl_highlighted l, fl_dimmed l) = flags_of (crosses (linkStableKey l))).
  { intros l Hin. unfold flags_of, applyFlowHighlights in *. destruct highlight_sets as [[x y]|] eqn:Eh; cbn [snd] in Hin.
    - apply list_elem_of_fmap in Hin as (l0 & -> & _). cbn [set_link_flags fl_highlighted fl_dimmed].
      destruct (highlight_member x y Eh) as [_ Hm]. unfold linkStableKey in *. cbn [fl_source fl_target set_link_flags]. by rewrite Hm.
    - apply (proj1 (list.Forall_forall _ _) Fl) in Hin as [-> ->]. done. }
  unfold buildFlowGraph. fold graph_sets graph_mode. fold graph_paths. fold graph_colors.
  fold (built_nodes graph_paths metric graph_colors palette). fold (built_links graph_paths metric graph_colors palette).
  fold shown. destruct shown as [ns ls]. cbn [fst snd] in *.
  destruct (applyFlowHighlights ns ls highlight_sets) as [ns2 ls2]. cbn [fst snd fg_nodes fg_links] in *. split.
  - intros n Hin. rewrite (sort_by_perm byValueThenLabel ns2) in Hin. by apply Hn.
  - intros l Hin. unfold assignLinkDisplayColors in Hin. rewrite map_map in Hin.
    apply list_elem_of_fmap in Hin as (l0 & -> & Hin). rewrite (sort_by_perm by_source_target ls2) in Hin.
    specialize (Hl l0 Hin). by destruct (mget _ _).
Qed.
End Graph.
End Facts.

(** * Witnesses *)

Definition plain_chart : ChartEnv := {| theme_color _ := None; format_number := num_to_string |}.

(** A row of a user, a group, a model and a channel. *)
Definition usage_row (user : Z) (name group model channel : string) (requests : Z) : flow_row :=
  FlowRow (JNum (num_of_Z user)) (Some (js name)) None (Some (js group)) JUndefined None
    JUndefined (Some (js channel)) (Some (js model))
    (JNum (num_of_Z (100 * requests))) (JNum (num_of_Z requests)) (JNum (num_of_Z (7 * requests))).
Definition sample_rows : list flow_row :=
  [ usage_row 1 "ann" "vip" "m1" "east" 5; usage_row 2 "bob" "default" "m1" "west" 7;
    usage_row 1 "ann" "vip" "m2" "east" 2; usage_row 3 "eve" "default" "m2" "east" 1 ].

(** The two largest nodes of every stage, masked. *)
Definition masked_options : graph_options :=
  GraphOptions (Some (num_of_Z 2)) None None None None true.

Definition sample_graph : flow_graph :=
  buildFlowGraph (C := unit_collation) (E := plain_chart) sample_rows MRequests RoleAdmin None None None masked_options.

Example sample_graph_ex :
  map (fun n => (fn_id n, num_to_string (fn_value n))) (List.filter (fun n => bool_decide (fn_kind n = FUser)) (fg_nodes sample_graph)) =
  [(js "user:1", js "7"); (js "user:2", js "7"); (js "user:__other__", js "1")].
Proof. vm_compute. reflexivity. Qed.

Lemma flow_node_limit_witness :
  (length (List.filter (fun n => bool_decide (fn_kind n = FUser)) (fg_nodes sample_graph)) <= 2 + 1)%nat.
Proof.
  apply (flow_node_limit (C := unit_collation) (E := plain_chart) sample_rows MRequests RoleAdmin None None None
           masked_options 2 FUser).
  vm_compute. reflexivity.
Defined.

Lemma masked_labels_hidden_witness :
  (forall n, n ∈ fg_nodes sample_graph -> is_masked n = true -> hidden (fn_label n)) /\
  (forall l, l ∈ fg_links sample_graph -> exists a b, a ∈ fg_nodes sample_graph /\ b ∈ fg_nodes sample_graph /\
     fn_id a = fl_source l /\ fn_id b = fl_target l /\
     (is_masked a = true -> hidden (fl_sourceLabel l)) /\ (is_masked b = true -> hidden (fl_targetLabel l))).
Proof.
  apply (masked_labels_hidden (C := unit_collation) (E := plain_chart) sample_rows MRequests RoleAdmin None None None
           masked_options).
  reflexivity.
Defined.
