(* ===== verification/FlowConserve.v ===== *)
(** Conservation in the flow of usage: on counts, the nodes of every stage add up to
    the summary, and what enters or leaves a node over its links is its value. *)
From Stdlib Require Import ZArith Lia Bool String SpecFloat Permutation.
From stdpp Require Import base list option.
From S2P Require Import Prelude JsString JsNumber JsInteger JsValue Collections FlowGraph FlowFacts.

#[local] Open Scope Z_scope.

(** The sum of numbers from left to right. *)
Definition sum (l : list number) : number := fold_left num_add l num_zero.

Lemma sum_map {A} (f : A -> number) l : sum (map f l) = fold_left (fun s x => num_add s (f x)) l num_zero.
Proof.
  unfold sum. generalize num_zero as a. induction l as [|x l IH]; intros a; [done|]. apply IH.
Qed.

Definition whole (x : number) : Z := match num_to_Z x with Some z => z | None => 0 end.

Lemma filter_ext_in' {A} (f g : A -> bool) l : (forall x, x ∈ l -> f x = g x) -> List.filter f l = List.filter g l.
Proof. intros H. apply List.filter_ext_in. intros x Hx. apply H. by apply list_elem_of_In. Qed.

Lemma filter_all {A} (f : A -> bool) l : (forall x, x ∈ l -> f x = true) -> List.filter f l = l.
Proof.
  induction l as [|x l IH]; intros H; [done|]. cbn [List.filter]. rewrite H by (by left). f_equal.
  apply IH. intros y Hy. apply H. by right.
Qed.

(** * Neighbours *)

Lemma step_out path pn : pn ∈ path -> list.last path <> Some pn -> exists b, (pn, b) ∈ path_steps path.
Proof.
  unfold path_steps. destruct path as [|n path]; [by intros ?%elem_of_nil|]. cbn [tail]. revert n.
  induction path as [|m path IH]; intros n Hin Hl.
  - apply list_elem_of_singleton in Hin as ->. done.
  - apply elem_of_cons in Hin as [->|Hin]; [exists m; by left|].
    destruct (IH m Hin Hl) as [b Hb]. exists b. by right.
Qed.
Lemma step_in path pn : pn ∈ path -> head path <> Some pn -> exists a, (a, pn) ∈ path_steps path.
Proof.
  unfold path_steps. destruct path as [|n path]; [by intros ?%elem_of_nil|]. cbn [tail head].
  intros [->|Hin]%elem_of_cons Hh; [done|]. clear Hh. revert n Hin.
  induction path as [|m path IH]; intros n Hin; [by apply elem_of_nil in Hin|].
  apply elem_of_cons in Hin as [->|Hin]; [exists n; by left|]. destruct (IH m Hin) as [a Ha]. exists a. by right.
Qed.

(** In a path without repetition a node has one step out and one step in. *)
Lemma step_unique path : NoDup (map pn_id path) -> forall s t, s ∈ path_steps path -> t ∈ path_steps path ->
  (pn_id s.1 = pn_id t.1 -> s = t) /\ (pn_id s.2 = pn_id t.2 -> s = t).
Proof.
  unfold path_steps. destruct path as [|n path]; [by intros _ s t ?%elem_of_nil|]. cbn [tail]. revert n.
  induction path as [|m path IH]; intros n Hn s t Hs Ht; [by apply elem_of_nil in Hs|].
  cbn [map] in Hn. apply list.NoDup_cons in Hn as [Hnn Hn]. cbn [zip zip_with] in Hs, Ht.
  assert (Hfar : forall x, x ∈ zip_with pair (m :: path) path -> pn_id n <> pn_id x.1 /\ pn_id m <> pn_id x.2).
  { intros [a b] Hx. cbn [fst snd].
    assert (Hab : a ∈ m :: path /\ b ∈ path).
    { split; [by apply (steps_In (m :: path) a b)|]. clear - Hx. revert m Hx.
      induction path as [|y path IH]; intros m Hx; [by apply elem_of_nil in Hx|]. cbn [zip_with] in Hx.
      apply elem_of_cons in Hx as [[= -> ->]|Hx]; [by left|]. right. by eapply IH. }
    destruct Hab as [Ha Hb]. split; intros Ex.
    - apply Hnn. rewrite Ex. change (pn_id m :: map pn_id path) with (map pn_id (m :: path)). by apply list_elem_of_fmap_2.
    - apply list.NoDup_cons in Hn as [Hm _]. apply Hm. rewrite Ex. by apply list_elem_of_fmap_2. }
  apply elem_of_cons in Hs as [->|Hs]; apply elem_of_cons in Ht as [->|Ht].
  - done.
  - destruct (Hfar t Ht). by split.
  - destruct (Hfar s Hs). by split.
  - by apply (IH m Hn s t).
Qed.

(** * Classes of paths *)

(** The node of a kind. *)
Definition kind_id (k : flow_kind) (p : prepared_path) : option jsstr :=
  option_map pn_id (find (fun n => bool_decide (pn_kind n = k)) (pp_path p)).

(** Both directions: the links out of a node, and those into it. *)
Definition endpoint (out : bool) (s : path_node * path_node) : path_node := if out then s.1 else s.2.
Definition link_end (out : bool) (l : flow_link) : jsstr := if out then fl_source l else fl_target l.
Definition boundary {A} (out : bool) (l : list A) : option A := if out then list.last l else head l.

(** The key of the step out of or into a node. *)
Definition end_key (out : bool) (id : jsstr) (p : prepared_path) : option jsstr :=
  option_map (fun s => pathLinkKey s.1 s.2)
    (find (fun s => str_eqb (pn_id (endpoint out s)) id) (path_steps (pp_path p))).

Lemma step_end out path pn : pn ∈ path -> boundary out path <> Some pn ->
  exists s, s ∈ path_steps path /\ endpoint out s = pn.
Proof.
  intros Hin Hb. destruct out.
  - destruct (step_out path pn Hin Hb) as [b Hs]. by exists (pn, b).
  - destruct (step_in path pn Hin Hb) as [a Hs]. by exists (a, pn).
Qed.

Lemma boundary_map {A B} out (f : A -> B) l : boundary out (map f l) = option_map f (boundary out l).
Proof.
  destruct out; simpl; [|by destruct l]. induction l as [|x l IH]; [done|]. destruct l; [done|].
  change (list.last (map f (x :: a :: l))) with (list.last (map f (a :: l))). by rewrite IH.
Qed.

Lemma find_unique {A} (f : A -> bool) l x : x ∈ l -> f x = true -> (forall y, y ∈ l -> f y = true -> y = x) -> find f l = Some x.
Proof.
  intros Hin Hx Hu. destruct (find f l) as [y|] eqn:Ef.
  - apply find_some in Ef as [Hy Hfy]. f_equal. apply Hu; [by apply list_elem_of_In|done].
  - apply list_elem_of_In in Hin. by rewrite (find_none _ _ Ef x Hin) in Hx.
Qed.

Lemma kind_find stages path pn : NoDup stages -> stage_path stages path -> pn ∈ path ->
  find (fun n => bool_decide (pn_kind n = pn_kind pn)) path = Some pn.
Proof.
  intros Hn [Hk _] Hin. apply find_unique; [done|by apply bool_decide_eq_true_2|].
  intros y Hy E. apply bool_decide_eq_true_1 in E. rewrite <- Hk in Hn. clear Hk.
  induction path as [|n path IH]; [by apply elem_of_nil in Hin|]. cbn [map] in Hn. apply list.NoDup_cons in Hn as [Hnn Hn].
  apply elem_of_cons in Hin as [->|Hin]; apply elem_of_cons in Hy as [->|Hy]; [done| | |by apply IH].
  - destruct Hnn. rewrite <- E. by apply list_elem_of_fmap_2.
  - destruct Hnn. rewrite E. by apply list_elem_of_fmap_2.
Qed.

(** * Weights *)

Section Conserved.
Context {C : Collation} {E : ChartEnv}.
Variables (rows : list flow_row) (metric : flow_metric) (role : flow_role) (palette : option (list jsstr))
  (visible : option (list flow_kind)) (ctx : path_context) (options : graph_options).
Abbreviation graph := (buildFlowGraph rows metric role palette visible ctx options).
Abbreviation paths := (graph_paths rows metric role visible ctx options).
Abbreviation stages := (resolveVisibleStages role visible).

(** The metric of the rows is a list of counts whose sum is at most [2 ^ 53]. *)
Variable counts : list Z.
Hypothesis Hcounts : map (fun row => metricValue (rowMetrics row) metric) rows = map num_of_Z counts.
Hypothesis Hnonneg : Forall (fun z => 0 <= z) counts.
Hypothesis Hbound : total (fun z => z) counts <= 2 ^ 53.

Definition row_weight (row : flow_row) : Z := whole (metricValue (rowMetrics row) metric).
Definition weight (p : prepared_path) : Z := whole (metricValue (pp_metrics p) metric).

Definition is_count (z : Z) (x : number) : Prop := 0 <= z /\ x = num_of_Z z.

Lemma row_counts :
  (forall row, row ∈ rows -> is_count (row_weight row) (metricValue (rowMetrics row) metric)) /\
  total row_weight rows = total (fun z => z) counts.
Proof.
  unfold row_weight, is_count. revert rows Hcounts. induction counts as [|z zs IH]; intros [|row rs] Hc; try done.
  { split; [by intros row ?%elem_of_nil|done]. }
  cbn [map] in Hc. injection Hc as Hz Hc. apply list.Forall_cons in Hnonneg as [H0 Hn]. rewrite total_cons in Hbound.
  assert (Hzs : 0 <= total (fun z => z) zs)
    by (apply total_nonneg; intros x Hx; by apply (proj1 (list.Forall_forall _ _) Hn)).
  assert (Hw : whole (metricValue (rowMetrics row) metric) = z)
    by (unfold whole; rewrite Hz, num_to_Z_of_Z by lia; done).
  destruct (IH Hn ltac:(lia) rs Hc) as [H1 H2]. split.
  - intros r [->|Hr]%elem_of_cons; [by rewrite Hw|by apply H1].
  - rewrite !total_cons, H2, Hw. done.
Qed.

Lemma path_counts :
  (forall p, p ∈ paths -> is_count (weight p) (metricValue (pp_metrics p) metric)) /\
  total weight paths <= total row_weight rows /\
  (graph_mode options = Aggregate -> total weight paths = total row_weight rows).
Proof.
  destruct row_counts as [Hr _]. unfold graph_paths. generalize (graph_sets rows metric role visible ctx options) as sets.
  intros sets. revert Hr. clear. induction rows as [|row rs IH]; intros Hr; cbn [prepare_paths].
  { split; [by intros p ?%elem_of_nil|done]. }
  destruct (IH ltac:(intros r Hin; apply Hr; by right)) as (H1 & H2 & H3).
  destruct (Hr row ltac:(by left)) as [Hw Ew]. rewrite (total_cons row_weight).
  destruct (applyTopNodeLimit _ _ _ _) as [path|] eqn:Ea.
  - rewrite total_cons. change (weight (PreparedPath path (rowMetrics row))) with (row_weight row).
    split_and!; [|lia|intros Hm; rewrite H3 by done; done].
    intros p [->|Hp]%elem_of_cons; [by split|by apply H1].
  - split_and!; [done|lia|]. intros Hm. exfalso. revert Ea. unfold applyTopNodeLimit.
    destruct sets as [sets|]; [|done]. destruct (negb _); [done|]. by rewrite Hm.
Qed.

(** Sums over selected paths are exact. *)
Lemma selected_sum f : path_sum (fun m => metricValue m metric) (List.filter f paths) =
  num_of_Z (total weight (List.filter f paths)) /\ 0 <= total weight (List.filter f paths) <= total weight paths.
Proof.
  destruct path_counts as (Hp & Hle & _). destruct row_counts as [_ Ht].
  assert (H0 : forall p, p ∈ paths -> 0 <= weight p) by (intros p Hin; by apply Hp).
  assert (Hf : forall p, p ∈ List.filter f paths -> p ∈ paths)
    by (intros p Hin; apply list_elem_of_In, filter_In in Hin as [? _]; by apply list_elem_of_In).
  assert (H1 : 0 <= total weight (List.filter f paths)) by (apply total_nonneg; auto).
  assert (H2 : total weight (List.filter f paths) <= total weight paths) by (by apply total_filter).
  split; [|lia]. unfold path_sum. change num_zero with (num_of_Z 0).
  rewrite (fold_exact (fun p => metricValue (pp_metrics p) metric) weight); [by rewrite Z.add_0_l|done| |lia].
  intros p Hin. by apply Hp, Hf.
Qed.

Lemma node_value n : n ∈ fg_nodes graph ->
  fn_value n = num_of_Z (total weight (List.filter (through (fn_id n)) paths)).
Proof.
  intros Hn. destruct (graph_node _ _ _ _ _ _ _ n Hn) as (p & pn & _ & _ & _ & _ & Hc).
  apply (f_equal (fun c => c.2.1)) in Hc. cbn [fst snd node_core path_totals] in Hc. rewrite Hc. apply selected_sum.
Qed.
Lemma link_value l : l ∈ fg_links graph ->
  fl_value l = num_of_Z (total weight (List.filter (crosses (linkStableKey l)) paths)).
Proof.
  intros Hl. destruct (graph_link _ _ _ _ _ _ _ l Hl) as (p & a & b & _ & _ & _ & _ & Hc).
  apply (f_equal (fun c => c.2.1)) in Hc. cbn [fst snd link_core path_totals] in Hc. rewrite Hc. apply selected_sum.
Qed.

(** A sum over items that partition the paths. *)
Lemma classified_sum {A} (items : list A) (value : A -> number) (key : A -> jsstr)
    (sel : A -> prepared_path -> bool) (cls : prepared_path -> option jsstr) :
  NoDup (map key items) ->
  (forall x, x ∈ items -> value x = num_of_Z (total weight (List.filter (sel x) paths))) ->
  (forall x p, x ∈ items -> p ∈ paths -> sel x p = of_class cls (key x) p) ->
  (forall p k, p ∈ paths -> cls p = Some k -> k ∈ map key items) ->
  sum (map value items) = num_of_Z (total weight (List.filter (classified cls) paths)).
Proof.
  intros Hn Hv Hs Hk. rewrite sum_map. change num_zero with (num_of_Z 0).
  assert (Hpart : total (fun x => total weight (List.filter (sel x) paths)) items =
    total weight (List.filter (classified cls) paths)).
  { rewrite <- (partition_total cls weight (map key items)) by done. rewrite total_map.
    apply total_ext. intros x Hx. f_equal. apply filter_ext_in'. intros p Hp. by apply Hs. }
  destruct (selected_sum (classified cls)) as (_ & H1 & H2). destruct row_counts as [_ Ht].
  destruct path_counts as (_ & Hle & _).
  rewrite (fold_exact value (fun x => total weight (List.filter (sel x) paths))).
  - by rewrite Z.add_0_l, Hpart.
  - done.
  - intros x Hx. split; [apply (selected_sum (sel x))|by apply Hv].
  - rewrite Hpart. lia.
Qed.

(** ** Stages *)

Lemma path_kind p k : p ∈ paths -> k ∈ stages -> exists pn, pn ∈ pp_path p /\ pn_kind pn = k.
Proof.
  intros Hp Hk. destruct (proj1 (list.Forall_forall _ _) (graph_paths_stages rows metric role visible ctx options) p Hp) as [Hs _].
  rewrite <- Hs in Hk. apply list_elem_of_fmap in Hk as (pn & -> & Hpn). by exists pn.
Qed.

Lemma stage_sum k : k ∈ stages ->
  sum (map fn_value (kind_nodes rows metric role palette visible ctx options k)) = num_of_Z (total weight paths).
Proof.
  intros Hk. pose proof (stages_nodup role visible) as Hst.
  pose proof (graph_paths_stages rows metric role visible ctx options) as Hps. rewrite list.Forall_forall in Hps.
  rewrite (classified_sum _ fn_value fn_id (fun n => through (fn_id n)) (kind_id k)).
  - rewrite filter_all; [done|]. intros p Hp. destruct (path_kind p k Hp Hk) as (pn & Hpn & <-).
    unfold classified, kind_id. by rewrite (kind_find stages _ pn Hst (Hps p Hp) Hpn).
  - apply kind_nodes_nodup.
  - intros n Hn. apply kind_node in Hn as [Hn _]. by apply node_value.
  - intros n p Hn Hp. apply kind_node in Hn as [Hn Ek]. unfold through, of_class, kind_id.
    destruct (graph_node _ _ _ _ _ _ _ n Hn) as (q & qn & Hq & Hqn & E1 & E2 & _).
    destruct (path_kind p k Hp Hk) as (pn & Hpn & Ekp).
    rewrite <- Ekp, (kind_find stages _ pn Hst (Hps p Hp) Hpn). cbn [option_map].
    apply bool_decide_ext. split.
    + intros Hin. apply list_elem_of_fmap in Hin as (x & Ex & Hx). rewrite Ex. do 2 f_equal.
      assert (Hkx : pn_kind x = pn_kind pn).
      { rewrite Ekp, <- Ek, E2. apply named_kind; [| |congruence].
        - by apply (proj1 (list.Forall_forall _ _) (proj2 (Hps p Hp))).
        - by apply (proj1 (list.Forall_forall _ _) (proj2 (Hps q Hq))). }
      pose proof (kind_find stages _ x Hst (Hps p Hp) Hx) as F1. rewrite Hkx, (kind_find stages _ pn Hst (Hps p Hp) Hpn) in F1.
      congruence.
    + intros [= <-]. by apply list_elem_of_fmap_2.
  - intros p id Hp Hid. unfold kind_id in Hid. destruct (find _ (pp_path p)) as [pn|] eqn:Ef; [|done].
    injection Hid as <-. apply find_some in Ef as [Hpn Hkn]. apply list_elem_of_In in Hpn. apply bool_decide_eq_true_1 in Hkn.
    assert (Hin : pn_id pn ∈ map fn_id (fg_nodes graph)).
    { destruct (graph_ids rows metric role palette visible ctx options) as [-> _].
      apply (built_ids_through _ Hst _ (graph_paths_stages rows metric role visible ctx options)).
      exists p. split; [done|]. apply bool_decide_eq_true_2. by apply list_elem_of_fmap_2. }
    apply list_elem_of_fmap in Hin as (n & En & Hn). rewrite En. apply list_elem_of_fmap_2.
    apply list_elem_of_In, filter_In. split; [by apply list_elem_of_In|]. apply bool_decide_eq_true_2.
    destruct (graph_node _ _ _ _ _ _ _ n Hn) as (q & qn & Hq & Hqn & E1 & E2 & _). rewrite E2, <- Hkn.
    apply named_kind; [| |congruence].
    + by apply (proj1 (list.Forall_forall _ _) (proj2 (Hps q Hq))).
    + by apply (proj1 (list.Forall_forall _ _) (proj2 (Hps p Hp))).
Qed.

Lemma summary_sum : metricValue (buildSummary rows) metric = num_of_Z (total row_weight rows).
Proof.
  destruct row_counts as [Hr Ht]. unfold buildSummary.
  assert (Hf : forall l acc, metricValue (fold_left (fun summary row =>
      FlowMetrics (num_add (fm_quota summary) (fm_quota (rowMetrics row)))
        (num_add (fm_tokens summary) (fm_tokens (rowMetrics row)))
        (num_add (fm_requests summary) (fm_requests (rowMetrics row)))) l acc) metric =
    fold_left (fun s row => num_add s (metricValue (rowMetrics row) metric)) l (metricValue acc metric)).
  { clear. induction l as [|row l IH]; intros acc; [done|]. cbn [fold_left]. rewrite IH. by destruct metric. }
  cbv zeta. rewrite Hf. replace (metricValue _ metric) with (num_of_Z 0) by (by destruct metric).
  rewrite (fold_exact (fun row => metricValue (rowMetrics row) metric) row_weight); [by rewrite Z.add_0_l|done|done|lia].
Qed.

(** ** Links *)

(** No identifier has the character that separates the two of a link. *)
Definition nul_free (n : path_node) : bool := forallb (fun c => negb (c =? 0)) (pn_id n).

Hypothesis Hnul : forallb (fun row => forallb nul_free (flowPathForStages row stages ctx)) rows = true.

Lemma paths_nul_free p pn : p ∈ paths -> pn ∈ pp_path p -> nul_free pn = true.
Proof.
  clear Hcounts Hnonneg Hbound. unfold graph_paths. generalize (graph_sets rows metric role visible ctx options) as sets. intros sets.
  revert Hnul. induction rows as [|row rs IH]; [by intros _ ?%elem_of_nil|]. cbn [forallb prepare_paths]. intros Hn.
  apply andb_true_iff in Hn as [Hrow Hn]. rewrite forallb_forall in Hrow.
  destruct (applyTopNodeLimit _ _ _ _) as [path|] eqn:Ea; [|by apply IH].
  intros [->|Hp]%elem_of_cons Hpn; [|by apply IH]. cbn [pp_path] in Hpn. unfold applyTopNodeLimit in Ea.
  destruct sets as [sets|]; [|injection Ea as <-; by apply Hrow, list_elem_of_In].
  destruct (negb _); [injection Ea as <-; by apply Hrow, list_elem_of_In|].
  destruct (graph_mode options); [|done]. injection Ea as <-. apply list_elem_of_fmap in Hpn as (n & -> & Hin).
  destruct (isTopFlowNode n sets); [by apply Hrow, list_elem_of_In|]. by destruct (pn_kind n).
Qed.

Lemma key_split a b c d : forallb (fun c => negb (c =? 0)) a = true -> forallb (fun c => negb (c =? 0)) c = true ->
  a ++ NUL ++ b = c ++ NUL ++ d -> a = c /\ b = d.
Proof.
  revert c. induction a as [|x a IH]; intros [|y c] Ha Hc Heq; cbn [app] in Heq.
  - by injection Heq as ->.
  - injection Heq as <- _. by cbn in Hc.
  - injection Heq as -> _. by cbn in Ha.
  - injection Heq as -> Heq. cbn [forallb] in Ha, Hc. apply andb_true_iff in Ha as [_ Ha], Hc as [_ Hc].
    destruct (IH c Ha Hc Heq) as [-> ->]. done.
Qed.

(** A link of the graph and a step with its key have the same ends. *)
Lemma link_step l p s : l ∈ fg_links graph -> p ∈ paths -> s ∈ path_steps (pp_path p) ->
  linkStableKey l = pathLinkKey s.1 s.2 -> forall out, link_end out l = pn_id (endpoint out s).
Proof.
  intros Hl Hp Hs Hk. destruct (graph_link _ _ _ _ _ _ _ l Hl) as (q & a & b & Hq & Hab & E1 & E2 & _).
  destruct s as [x y]. cbn [fst snd] in *. apply steps_In in Hs as [Hx _], Hab as [Ha _].
  unfold linkStableKey, pathLinkKey in Hk. rewrite E1, E2 in Hk.
  apply key_split in Hk as [K1 K2]; [|exact (paths_nul_free q a Hq Ha)|exact (paths_nul_free p x Hp Hx)].
  intros []; simpl; congruence.
Qed.

Lemma end_find out p s : p ∈ paths -> s ∈ path_steps (pp_path p) ->
  end_key out (pn_id (endpoint out s)) p = Some (pathLinkKey s.1 s.2).
Proof.
  intros Hp Hs. unfold end_key. rewrite (find_unique _ _ s); [done|done|apply str_eqb_refl|].
  intros t Ht Ht'. apply str_eqb_eq in Ht'.
  pose proof (ids_nodup _ (stages_nodup role visible) _ (graph_paths_stages rows metric role visible ctx options)) as Hids.
  rewrite list.Forall_forall in Hids. destruct (step_unique _ (Hids p Hp) t s Ht Hs) as [U1 U2]. destruct out; auto.
Qed.

Definition end_links (out : bool) (n : flow_node) : list flow_link :=
  List.filter (fun l => str_eqb (link_end out l) (fn_id n)) (fg_links graph).

Lemma map_filter_nodup {A B} (f : A -> B) (g : A -> bool) l : NoDup (map f l) -> NoDup (map f (List.filter g l)).
Proof.
  induction l as [|x l IH]; intros H; [done|]. cbn [map List.filter] in *. apply list.NoDup_cons in H as [Hx H].
  destruct (g x); [|by apply IH]. cbn [map]. constructor; [|by apply IH]. intros Hin. apply Hx.
  apply list_elem_of_fmap in Hin as (y & -> & Hy). apply list_elem_of_fmap_2.
  apply list_elem_of_In, filter_In in Hy as [Hy _]. by apply list_elem_of_In.
Qed.

Lemma end_link out n l : l ∈ end_links out n -> l ∈ fg_links graph /\ link_end out l = fn_id n.
Proof.
  intros H. apply list_elem_of_In, filter_In in H as [H Hk]. apply str_eqb_eq in Hk.
  split; [by apply list_elem_of_In|done].
Qed.

(** The paths through a node that is not at the boundary have a step at the node. *)
Lemma end_classified out n p : n ∈ fg_nodes graph -> boundary out stages <> Some (fn_kind n) -> p ∈ paths ->
  classified (end_key out (fn_id n)) p = through (fn_id n) p.
Proof.
  intros Hn Hb Hp. pose proof (graph_paths_stages rows metric role visible ctx options) as Hps. rewrite list.Forall_forall in Hps.
  destruct (graph_node _ _ _ _ _ _ _ n Hn) as (q & qn & Hq & Hqn & E1 & E2 & _).
  unfold classified, through. destruct (decide (fn_id n ∈ map pn_id (pp_path p))) as [Hin|Hin].
  - rewrite bool_decide_true by done. apply list_elem_of_fmap in Hin as (pn & Ei & Hpn).
    destruct (step_end out (pp_path p) pn Hpn) as (s & Hs & Es).
    + intros Hbp. apply Hb. destruct (Hps p Hp) as [<- Hnamed]. rewrite boundary_map, Hbp. simpl. f_equal. rewrite E2.
      apply named_kind; [by apply (proj1 (list.Forall_forall _ _) Hnamed)| |congruence].
      by apply (proj1 (list.Forall_forall _ _) (proj2 (Hps q Hq))).
    + rewrite Ei, <- Es, (end_find out p s Hp Hs). done.
  - rewrite bool_decide_false by done. unfold end_key. destruct (find _ _) as [s|] eqn:Ef; [|done]. exfalso. apply Hin.
    apply find_some in Ef as [Hs Hid]. apply str_eqb_eq in Hid. rewrite <- Hid. apply list_elem_of_fmap_2.
    apply list_elem_of_In in Hs. destruct s as [a b]. apply steps_In in Hs as [Ha Hb']. by destruct out.
Qed.

Lemma end_sum out n : n ∈ fg_nodes graph -> boundary out stages <> Some (fn_kind n) ->
  sum (map fl_value (end_links out n)) = fn_value n.
Proof.
  intros Hn Hb. pose proof (stages_nodup role visible) as Hst.
  pose proof (graph_paths_stages rows metric role visible ctx options) as Hps.
  destruct (graph_ids rows metric role palette visible ctx options) as [_ Hkeys].
  rewrite (classified_sum (end_links out n) fl_value linkStableKey (fun l => crosses (linkStableKey l)) (end_key out (fn_id n))).
  - rewrite node_value by done. do 2 f_equal. apply filter_ext_in'. intros p Hp. by apply end_classified.
  - apply map_filter_nodup. rewrite Hkeys. by apply (built_keys_nodup _ Hst _ Hps).
  - intros l Hl. apply end_link in Hl as [Hl _]. by apply link_value.
  - intros l p Hl Hp. apply end_link in Hl as [Hl El]. unfold crosses, of_class. apply bool_decide_ext. split.
    + intros Hin. apply list_elem_of_fmap in Hin as (s & Es & Hs).
      rewrite <- El, (link_step l p s Hl Hp Hs Es out), (end_find out p s Hp Hs). by rewrite Es.
    + unfold end_key. destruct (find _ _) as [s|] eqn:Ef; [|done]. cbn [option_map]. intros [= <-].
      apply find_some in Ef as [Hs _]. apply list_elem_of_In in Hs. unfold step_keys.
      by apply (list_elem_of_fmap_2 (fun s => pathLinkKey s.1 s.2)).
  - intros p k Hp Hk. unfold end_key in Hk. destruct (find _ _) as [s|] eqn:Ef; [|done]. cbn [option_map] in Hk. injection Hk as <-.
    apply find_some in Ef as [Hs Hid]. apply str_eqb_eq in Hid. apply list_elem_of_In in Hs.
    assert (Hin : pathLinkKey s.1 s.2 ∈ map linkStableKey (fg_links graph)).
    { rewrite Hkeys. apply (built_keys_cross _ Hst _ Hps). exists p. split; [done|]. apply bool_decide_eq_true_2.
      by apply (list_elem_of_fmap_2 (fun s => pathLinkKey s.1 s.2)). }
    apply list_elem_of_fmap in Hin as (l & El & Hl). rewrite El. apply list_elem_of_fmap_2.
    apply list_elem_of_In, filter_In. split; [by apply list_elem_of_In|].
    rewrite (link_step l p s Hl Hp Hs (eq_sym El) out), Hid. apply str_eqb_refl.
Qed.
End Conserved.

(** * Theorem *)

(** C19. The flow is conserved: when the chosen metric of the rows is a list of counts with a sum of at most
    [2 ^ 53] (so that the additions are exact) and no name of a node has the character nul, all visible stages add up to
    one and the same total.  It is the summary of the rows when the nodes beyond the limit are aggregated;
    when they are hidden, whole paths drop out and it is at most the summary.  And for
    every node the links that leave it (unless it is in the last stage) and the links that enter it (unless it
    is in the first) add up to its value. *)
Theorem flow_conserved `{C : Collation} `{E : ChartEnv} rows metric role palette visible ctx options counts :
  map (fun row => metricValue (rowMetrics row) metric) rows = map num_of_Z counts ->
  Forall (fun z => 0 <= z) counts -> total (fun z => z) counts <= 2 ^ 53 ->
  forallb (fun row => forallb nul_free (flowPathForStages row (resolveVisibleStages role visible) ctx)) rows = true ->
  let graph := buildFlowGraph rows metric role palette visible ctx options in
  let stages := resolveVisibleStages role visible in
  (exists shown all, 0 <= shown <= all /\ metricValue (buildSummary rows) metric = num_of_Z all /\
     (graph_mode options = Aggregate -> shown = all) /\
     forall kind, kind ∈ stages ->
       sum (map fn_value (List.filter (fun n => bool_decide (fn_kind n = kind)) (fg_nodes graph))) = num_of_Z shown) /\
  (forall n, n ∈ fg_nodes graph ->
     (list.last stages <> Some (fn_kind n) ->
        sum (map fl_value (List.filter (fun l => str_eqb (fl_source l) (fn_id n)) (fg_links graph))) = fn_value n) /\
     (head stages <> Some (fn_kind n) ->
        sum (map fl_value (List.filter (fun l => str_eqb (fl_target l) (fn_id n)) (fg_links graph))) = fn_value n)).
Proof.
  intros Hc Hn Hb Hnul graph stages. split.
  - destruct (path_counts rows metric role visible ctx options counts Hc Hn Hb) as (Hp & Hle & Hall).
    exists (total (weight metric) (graph_paths rows metric role visible ctx options)), (total (row_weight metric) rows).
    split_and!; [|done|by apply (summary_sum rows metric counts Hc Hn Hb)|done|].
    + apply total_nonneg. intros p Hin. by apply Hp.
    + intros kind Hk. by apply (stage_sum rows metric role palette visible ctx options counts Hc Hn Hb).
  - intros n Hin. split; intros Hbd.
    + by apply (end_sum rows metric role palette visible ctx options counts Hc Hn Hb Hnul true n).
    + by apply (end_sum rows metric role palette visible ctx options counts Hc Hn Hb Hnul false n).
Qed.

(** ** Witness *)

Lemma flow_conserved_witness :
  (exists shown, metricValue (buildSummary sample_rows) MRequests = num_of_Z shown /\
     forall kind, kind ∈ resolveVisibleStages RoleAdmin None ->
     sum (map fn_value (List.filter (fun n => bool_decide (fn_kind n = kind)) (fg_nodes sample_graph))) = num_of_Z shown) /\
  (forall n, n ∈ fg_nodes sample_graph ->
     (list.last (resolveVisibleStages RoleAdmin None) <> Some (fn_kind n) ->
        sum (map fl_value (List.filter (fun l => str_eqb (fl_source l) (fn_id n)) (fg_links sample_graph))) = fn_value n) /\
     (head (resolveVisibleStages RoleAdmin None) <> Some (fn_kind n) ->
        sum (map fl_value (List.filter (fun l => str_eqb (fl_target l) (fn_id n)) (fg_links sample_graph))) = fn_value n)).
Proof.
  destruct (flow_conserved (C := unit_collation) (E := plain_chart) sample_rows MRequests RoleAdmin None None None
              masked_options [5; 7; 2; 1]) as [(shown & all & _ & Hs & Hm & Hk) Hl].
  - vm_compute. reflexivity.
  - repeat constructor; lia.
  - vm_compute. discriminate.
  - vm_compute. reflexivity.
  - split; [|exact Hl]. exists shown. rewrite Hs, <- Hm by reflexivity. split; [reflexivity|exact Hk].
Defined.
