(* ===== verification/AdvancedCustom.v ===== *)
(** [features/channels/lib/advanced-custom.ts]: the configuration of a custom channel,
    a list of routes from incoming paths to upstream paths, as it is edited,
    parsed, normalized and validated.

    A configuration comes from [JSON.parse] of a text that nobody has checked, so it is
    a JSON value; reading a property of [null] or calling [trim] on something that is
    not a string throws a [TypeError]. *)
From Stdlib Require Import ZArith Lia Bool String.
From stdpp Require Import base list option.
From S2P Require Import Prelude JsString JsNumber JsValue Collections Json JsonText.

#[local] Open Scope Z_scope.

(** [new URL(text)]: the host and the protocol, or nothing when it throws. *)
Class UrlParser := { parse_url : jsstr -> option (jsstr * jsstr) }.

(** * Literals *)

Definition str (s : string) : jsvalue := JStr (js s).
Definition obj (fields : list (string * jsvalue)) : jsvalue :=
  JObj (map (fun f => (js f.1, f.2)) fields).

Definition ADVANCED_CUSTOM_MODEL_LIST_PATH : string := "/v1/models".
Definition ADVANCED_CUSTOM_MODEL_LIST_LABEL : string := "OpenAI Models".
Definition ADVANCED_CUSTOM_BALANCE_PATH : string := "/v1/dashboard/billing/credit_grants".
Definition ADVANCED_CUSTOM_BALANCE_LABEL : string := "Balance Query".
Definition ADVANCED_CUSTOM_MODEL_REGEX_PREFIX : string := "re:".

Record converter_option := ConverterOption { co_value : string; co_label : string; co_triggerLabel : string }.

Definition ADVANCED_CUSTOM_CONVERTER_OPTIONS : list converter_option := [
  ConverterOption "none" "Native forwarding" "Native forwarding";
  ConverterOption "anthropic_messages_to_openai_chat_completions"
    "Anthropic Messages to OpenAI Chat" "To OpenAI Chat";
  ConverterOption "openai_chat_completions_to_anthropic_messages"
    "OpenAI Chat to Anthropic Messages" "To Anthropic Messages";
  ConverterOption "openai_chat_completions_to_openai_responses"
    "OpenAI Chat to OpenAI Responses" "To OpenAI Responses";
  ConverterOption "openai_responses_to_openai_chat_completions"
    "OpenAI Responses to OpenAI Chat" "To OpenAI Chat";
  ConverterOption "openai_responses_to_gemini_generate_content"
    "OpenAI Responses to Gemini Generate Content" "To Gemini Generate Content";
  ConverterOption "gemini_generate_content_to_openai_chat_completions"
    "Gemini Generate Content to OpenAI Chat" "To OpenAI Chat";
  ConverterOption "openai_chat_completions_to_gemini_generate_content"
    "OpenAI Chat to Gemini Generate Content" "To Gemini Generate Content"
].

(** The value and the label of an incoming path. *)
Definition ADVANCED_CUSTOM_INCOMING_PATH_OPTIONS : list (string * string) := [
  ("/v1/chat/completions", "OpenAI Chat");
  ("/v1/responses", "OpenAI Responses");
  ("/v1/responses/compact", "OpenAI Responses Compact");
  ("/v1/alpha/search", "Codex Alpha Search");
  ("/v1/embeddings", "OpenAI Embeddings");
  ("/v1/images/generations", "OpenAI Image Generations");
  ("/v1/images/edits", "OpenAI Image Edits");
  ("/v1/completions", "OpenAI Completions");
  ("/v1/audio/speech", "OpenAI Audio Speech");
  ("/v1/audio/transcriptions", "OpenAI Audio Transcriptions");
  ("/v1/audio/translations", "OpenAI Audio Translations");
  ("/v1/rerank", "Rerank");
  ("/v1/realtime", "OpenAI Realtime");
  ("/v1/messages", "Claude Messages");
  ("/v1beta/models/{model}:generateContent", "Gemini Generate Content");
  ("/v1beta/models/{model}:embedContent", "Gemini Embed Content");
  ("/v1beta/models/{model}:batchEmbedContents", "Gemini Batch Embed Contents")
]%string.

Definition ADVANCED_CUSTOM_ROUTE_SUMMARY_LABELS : list (string * string) := [
  ("/v1/chat/completions", "OpenAI Chat");
  (ADVANCED_CUSTOM_MODEL_LIST_PATH, ADVANCED_CUSTOM_MODEL_LIST_LABEL);
  (ADVANCED_CUSTOM_BALANCE_PATH, ADVANCED_CUSTOM_BALANCE_LABEL)
]%string.

Definition openAIChatPath : string := "/v1/chat/completions".
Definition openAIResponsesPath : string := "/v1/responses".
Definition claudeMessagesPath : string := "/v1/messages".
Definition geminiGenerateContentPath : string := "/v1beta/models/{model}:generateContent".

Definition bearerHeaderAuth : jsvalue :=
  obj [("type", str "header"); ("name", str "Authorization"); ("value", str "Bearer {api_key}")]%string.
Definition apiKeyHeaderAuth : jsvalue :=
  obj [("type", str "header"); ("name", str "x-api-key"); ("value", str "{api_key}")]%string.
Definition geminiQueryAuth : jsvalue :=
  obj [("type", str "query"); ("name", str "key"); ("value", str "{api_key}")]%string.

(** * Templates *)

Definition native_route (auth : jsvalue) (path : string) : jsvalue :=
  obj [("incoming_path", str path); ("upstream_path", str path); ("converter", str "none"); ("auth", auth)]%string.

Definition createOpenAINativeRoutes : list jsvalue :=
  map (native_route bearerHeaderAuth)
    ["/v1/chat/completions"; "/v1/completions"; "/v1/responses"; "/v1/responses/compact";
     "/v1/embeddings"; "/v1/images/generations"; "/v1/images/edits"; "/v1/audio/speech";
     "/v1/audio/transcriptions"; "/v1/audio/translations"; "/v1/realtime"]%string.
Definition createClaudeNativeRoutes : list jsvalue := [native_route apiKeyHeaderAuth "/v1/messages"].
Definition createGeminiNativeRoutes : list jsvalue :=
  map (native_route geminiQueryAuth)
    ["/v1beta/models/{model}:generateContent"; "/v1beta/models/{model}:embedContent";
     "/v1beta/models/{model}:batchEmbedContents"]%string.
Definition createGatewayNativeRoutes : list jsvalue :=
  map (native_route bearerHeaderAuth) ["/v1/alpha/search"; "/v1/rerank"]%string.

Definition config_of_routes (routes : list jsvalue) : jsvalue := obj [("advanced_routes"%string, JArr routes)].

Record template_option := TemplateOption { to_value : string; to_label : string; to_config : jsvalue }.

Definition all_protocols : template_option :=
  TemplateOption "all_protocols" "All routes"
    (config_of_routes (createOpenAINativeRoutes ++ createClaudeNativeRoutes
                       ++ createGeminiNativeRoutes ++ createGatewayNativeRoutes)).
Definition ADVANCED_CUSTOM_TEMPLATE_OPTIONS : list template_option := [
  all_protocols;
  TemplateOption "openai_only" "OpenAI only" (config_of_routes createOpenAINativeRoutes);
  TemplateOption "claude_only" "Claude only" (config_of_routes createClaudeNativeRoutes);
  TemplateOption "gemini_only" "Gemini only" (config_of_routes createGeminiNativeRoutes)
].

(** A clone is the same value. *)
Definition getAdvancedCustomTemplateConfig (templateKey : jsstr) : jsvalue :=
  match find (fun o => templateKey === (to_value o)) ADVANCED_CUSTOM_TEMPLATE_OPTIONS with
  | Some option => to_config option
  | None => to_config all_protocols
  end.

(** * Paths and converters *)

Definition isAdvancedCustomManagementPath (path : jsstr) : bool :=
  (path === ADVANCED_CUSTOM_MODEL_LIST_PATH) || (path === ADVANCED_CUSTOM_BALANCE_PATH).

Definition isConverterPathAllowed (incomingPath converter : jsstr) : bool :=
  if converter === "none" then true
  else if incomingPath === "/v1/alpha/search" then false
  else if converter === "anthropic_messages_to_openai_chat_completions" then incomingPath === "/v1/messages"
  else if (converter === "openai_chat_completions_to_anthropic_messages")
          || (converter === "openai_chat_completions_to_openai_responses")
          || (converter === "openai_chat_completions_to_gemini_generate_content")
  then incomingPath === "/v1/chat/completions"
  else if converter === "openai_responses_to_openai_chat_completions" then incomingPath === "/v1/responses"
  else if converter === "openai_responses_to_gemini_generate_content" then incomingPath === "/v1/responses"
  else includes (js ":generateContent") incomingPath || includes (js ":streamGenerateContent") incomingPath.

Definition isAdvancedCustomConverter (value : jsvalue) : bool :=
  existsb (fun o => strict_eqb (str (co_value o)) value) ADVANCED_CUSTOM_CONVERTER_OPTIONS.

Definition getAdvancedCustomIncomingPathOptions (converter : jsstr) : list (string * string) :=
  List.filter (fun o => isConverterPathAllowed (js o.1) converter) ADVANCED_CUSTOM_INCOMING_PATH_OPTIONS.

Definition getDefaultAdvancedCustomIncomingPath (converter : jsstr) : jsstr :=
  match getAdvancedCustomIncomingPathOptions converter with
  | (value, _) :: _ => js value
  | [] => js "/v1/chat/completions"
  end.

Definition isAdvancedCustomIncomingPathAllowed (incomingPath converter : jsstr) : bool :=
  isConverterPathAllowed incomingPath converter.

Definition getAdvancedCustomConverterOptions (incomingPath : jsstr) : list converter_option :=
  let normalizedIncomingPath := trim incomingPath in
  List.filter (fun o => (js (co_value o) === "none")
                        || isConverterPathAllowed normalizedIncomingPath (js (co_value o)))
    ADVANCED_CUSTOM_CONVERTER_OPTIONS.

Definition getAdvancedCustomIncomingPathLabel (value : jsstr) : jsstr :=
  match find (fun o => value === (o.1)) ADVANCED_CUSTOM_INCOMING_PATH_OPTIONS with
  | Some o => js o.2
  | None => value
  end.

Definition getAdvancedCustomNativeAuth (incomingPath : jsstr) : jsvalue :=
  if incomingPath === claudeMessagesPath then apiKeyHeaderAuth
  else if includes (js ":generateContent") incomingPath || includes (js ":streamGenerateContent") incomingPath
          || includes (js ":embedContent") incomingPath || includes (js ":batchEmbedContents") incomingPath
  then geminiQueryAuth
  else bearerHeaderAuth.

(** The upstream path and the authentication that a converter starts with. *)
Definition getAdvancedCustomConverterDefaults (converter incomingPath : jsstr) : jsstr * jsvalue :=
  let normalizedIncomingPath :=
    match trim incomingPath with [] => getDefaultAdvancedCustomIncomingPath converter | p => p end in
  if converter === "none" then (normalizedIncomingPath, getAdvancedCustomNativeAuth normalizedIncomingPath)
  else if (converter === "anthropic_messages_to_openai_chat_completions")
          || (converter === "gemini_generate_content_to_openai_chat_completions")
          || (converter === "openai_responses_to_openai_chat_completions")
  then (js openAIChatPath, bearerHeaderAuth)
  else if converter === "openai_chat_completions_to_openai_responses"
  then (js openAIResponsesPath, bearerHeaderAuth)
  else if converter === "openai_chat_completions_to_anthropic_messages"
  then (js claudeMessagesPath, apiKeyHeaderAuth)
  else if (converter === "openai_chat_completions_to_gemini_generate_content")
          || (converter === "openai_responses_to_gemini_generate_content")
  then (js geminiGenerateContentPath, geminiQueryAuth)
  else (match normalizedIncomingPath with [] => js openAIChatPath | p => p end,
        getAdvancedCustomNativeAuth normalizedIncomingPath).

Definition getAdvancedCustomUpstreamPathPlaceholder (converter : jsstr) (incomingPath : option jsstr) : jsstr :=
  (getAdvancedCustomConverterDefaults converter
     (match incomingPath with Some p => p | None => getDefaultAdvancedCustomIncomingPath converter end)).1.

(** * Normalization *)

(** A value that is not [null] or [undefined] after [|| '']. *)
Definition or_empty (v : jsvalue) : jsvalue := or_value v (JStr []).

(** [route.upstream_path] of a route, trimmed. *)
Definition getAdvancedCustomRouteUpstreamPath (route : jsvalue) : result property_error jsstr :=
  let! upstream_path := get_prop route "upstream_path" in
  call_trim (or_empty upstream_path).

Definition normalizeAdvancedCustomRouteModels (models : jsvalue) : result property_error (list jsstr) :=
  match models with
  | JArr l => let! trimmed := map_result call_trim l in Ok (List.filter truthy trimmed)
  | _ => Ok []
  end.

Definition normalized_auth (auth : jsvalue) : result property_error jsvalue :=
  let! type := get_prop auth "type" in
  let! name := get_prop auth "name" in
  let! value := get_prop auth "value" in
  Ok (obj [("type", type); ("name", or_empty name); ("value", or_empty value)]%string).

Definition normalizeAdvancedCustomRoute (route : jsvalue) : result property_error jsvalue :=
  let! incoming_path := get_prop route "incoming_path" in
  let! upstream_path := getAdvancedCustomRouteUpstreamPath route in
  let! converter := get_prop route "converter" in
  let! route_models := get_prop route "models" in
  let! models := normalizeAdvancedCustomRouteModels route_models in
  let! auth := get_prop route "auth" in
  let! auth_fields := (if value_truthy auth
                       then let! a := normalized_auth auth in Ok [("auth", a)]%string
                       else Ok []) in
  Ok (obj ([("incoming_path", or_empty incoming_path); ("upstream_path", JStr upstream_path);
            ("converter", or_value converter (str "none"))]%string
           ++ match models with [] => [] | _ => [("models", JArr (map JStr models))]%string end
           ++ auth_fields)).

(** The [advanced_routes] of a normalized configuration. *)
Definition normalized_routes (config : jsvalue) : result property_error (list jsvalue) :=
  let! routes := get_prop config "advanced_routes" in
  match routes with
  | JArr l => map_result normalizeAdvancedCustomRoute l
  | _ => Ok []
  end.

Definition normalizeAdvancedCustomConfig (config : jsvalue) : result property_error jsvalue :=
  let! routes := normalized_routes config in
  Ok (config_of_routes routes).

(** Nothing for an empty text, a text that is not JSON, not an object, or whose
    normalization throws. *)
Definition parseAdvancedCustomConfig (value : option jsstr) : option jsvalue :=
  match value with
  | None => None
  | Some text =>
      if negb (truthy (trim text)) then None
      else
        match JSON_parse text with
        | Ok (JObj fields) =>
            match normalizeAdvancedCustomConfig (JObj fields) with
            | Ok config => Some config
            | Err _ => None
            end
        | _ => None
        end
  end.

Definition stringifyAdvancedCustomConfig (config : jsvalue) : result property_error (option jsstr) :=
  let! normalized := normalizeAdvancedCustomConfig config in
  Ok (JSON_stringify normalized).

Definition parseAdvancedCustomRouteModels (value : jsstr) : list jsstr :=
  distinct (List.filter truthy (map trim (split_char 44 value))).

Inductive rule_kind := RuleExact | RuleRegex.
Definition getAdvancedCustomModelRuleKind (modelRule : jsstr) : rule_kind :=
  if starts_with (js ADVANCED_CUSTOM_MODEL_REGEX_PREFIX) modelRule then RuleRegex else RuleExact.
Definition getAdvancedCustomRegexModelPattern (modelRule : jsstr) : jsstr :=
  drop (String.length ADVANCED_CUSTOM_MODEL_REGEX_PREFIX) modelRule.

(** * Editing *)

(** [route.incoming_path?.trim()]. *)
Definition trimmed_path (route : jsvalue) : result property_error jsvalue :=
  let! incoming_path := get_prop route "incoming_path" in
  optional_trim incoming_path.

(** [route.incoming_path?.trim() || '']. *)
Definition incoming_path_text (route : jsvalue) : result property_error jsstr :=
  let! path := trimmed_path route in
  Ok (match path with JStr s => s | _ => [] end).

(** Searches whose test may throw. *)
Fixpoint find_index_result (p : jsvalue -> result property_error bool) (l : list jsvalue)
  : result property_error (option nat) :=
  match l with
  | [] => Ok None
  | x :: l' =>
      let! b := p x in
      if b then Ok (Some 0%nat)
      else let! i := find_index_result p l' in Ok (S <$> i)
  end.
Fixpoint filter_result (p : jsvalue -> result property_error bool) (l : list jsvalue)
  : result property_error (list jsvalue) :=
  match l with
  | [] => Ok []
  | x :: l' =>
      let! b := p x in
      let! r := filter_result p l' in
      Ok (if b then x :: r else r)
  end.

Definition has_path (path : jsstr) (route : jsvalue) : result property_error bool :=
  let! p := trimmed_path route in Ok (strict_eqb p (JStr path)).
Definition has_management_path (route : jsvalue) : result property_error bool :=
  let! p := incoming_path_text route in Ok (isAdvancedCustomManagementPath p).

Definition getAdvancedCustomManagementRoute (config : jsvalue) (path : jsstr)
  : result property_error (option jsvalue) :=
  let! routes := normalized_routes config in
  let! index := find_index_result (has_path path) routes in
  Ok (match index with Some i => routes !! i | None => None end).

Definition management_route (path : jsstr) (route : jsvalue) : result property_error jsvalue :=
  let! upstream_path := get_prop route "upstream_path" in
  let! auth := get_prop route "auth" in
  Ok (obj [("incoming_path", JStr path); ("upstream_path", or_empty upstream_path);
           ("converter", str "none"); ("models", JArr []); ("auth", auth)]%string).

(** A missing [route] removes the route of that path. *)
Definition replaceAdvancedCustomManagementRoute (config : jsvalue) (path : jsstr) (route : option jsvalue)
  : result property_error jsvalue :=
  let! routes := normalized_routes config in
  let! index := find_index_result (has_path path) routes in
  match route with
  | None =>
      Ok (config_of_routes (match index with Some i => take i routes ++ drop (S i) routes | None => routes end))
  | Some route =>
      let! managementRoute := management_route path route in
      Ok (config_of_routes (match index with
                            | Some i => <[i := managementRoute]> routes
                            | None => routes ++ [managementRoute]
                            end))
  end.

Definition replaceAdvancedCustomForwardingRoutes (config : jsvalue) (forwardingRoutes : list jsvalue)
  : result property_error jsvalue :=
  let! routes := normalized_routes config in
  let! firstForwardingIndex :=
    find_index_result (fun r => let! b := has_management_path r in Ok (negb b)) routes in
  let! managementRoutes := filter_result has_management_path routes in
  match firstForwardingIndex with
  | None => Ok (config_of_routes (managementRoutes ++ forwardingRoutes))
  | Some i =>
      let! before := filter_result has_management_path (take i routes) in
      let! after := filter_result has_management_path (drop i routes) in
      Ok (config_of_routes (before ++ forwardingRoutes ++ after))
  end.

Definition createAdvancedCustomRoute : jsvalue :=
  obj [("incoming_path", str openAIChatPath); ("upstream_path", str openAIChatPath);
       ("converter", str "none")]%string.
Definition createAdvancedCustomConfig : jsvalue := config_of_routes [createAdvancedCustomRoute].
Definition createAdvancedCustomManagementRoute (path : jsstr) : jsvalue :=
  obj [("incoming_path", JStr path); ("upstream_path", JStr path); ("converter", str "none");
       ("models", JArr [])]%string.

(** * Authentication *)

(** [route.auth?.type || 'default']. *)
Definition getAdvancedCustomAuthMode (route : jsvalue) : result property_error jsvalue :=
  let! auth := get_prop route "auth" in
  if nullish auth then Ok (str "default")
  else let! type := get_prop auth "type" in Ok (or_value type (str "default")).

Definition auth_field (previousAuth : jsvalue) (key fallback : string) : result property_error jsvalue :=
  if nullish previousAuth then Ok (str fallback)
  else let! v := get_prop previousAuth key in Ok (or_value v (str fallback)).

Inductive auth_mode := ModeDefault | ModeNone | ModeHeader | ModeQuery.

Definition buildAdvancedCustomAuth (mode : auth_mode) (previousAuth : jsvalue) : result property_error jsvalue :=
  let with_defaults type name value :=
    let! name := auth_field previousAuth "name" name in
    let! value := auth_field previousAuth "value" value in
    Ok (obj [("type", str type); ("name", name); ("value", value)]%string) in
  match mode with
  | ModeDefault => Ok JUndefined
  | ModeNone => Ok (obj [("type", str "none")]%string)
  | ModeHeader => with_defaults "header"%string "Authorization"%string "Bearer {api_key}"%string
  | ModeQuery => with_defaults "query"%string "api_key"%string "{api_key}"%string
  end.

(** The complaint about an authentication, if any. *)
Definition validateRouteAuth (auth : jsvalue) : result property_error (option string) :=
  if negb (value_truthy auth) then Ok None
  else
    let! type := get_prop auth "type" in
    if strict_eqb type (str "none") then Ok None
    else if negb (strict_eqb type (str "header") || strict_eqb type (str "query"))
    then Ok (Some "Auth type is invalid"%string)
    else
      let! name := get_prop auth "name" in
      let! name := optional_trim name in
      if negb (value_truthy name) then Ok (Some "Auth name is required"%string)
      else
        let! value := get_prop auth "value" in
        let! value := optional_trim value in
        if negb (value_truthy value) then Ok (Some "Auth value is required"%string)
        else Ok None.

(** * Validation *)

Record validation_error := ValidationError { ve_routeIndex : option nat; ve_message : jsstr }.

(** What ends the loop over the routes: a complaint that is returned, or an exception. *)
Inductive stop := Invalid (e : validation_error) | Thrown (e : property_error).

Definition try_js {A} (x : result property_error A) : result stop A :=
  match x with Ok a => Ok a | Err e => Err (Thrown e) end.
(** [if (b) {return {routeIndex, message}}]. *)
Definition refuse (b : bool) (index : nat) (message : jsstr) : result stop unit :=
  if b then Err (Invalid (ValidationError (Some index) message)) else Ok tt.

(** The routes seen so far of one incoming path. *)
Record path_state := PathState { ps_catchAllIndex : option nat; ps_models : list (jsstr * nat) }.

(** A rule that is a regular expression without a pattern. *)
Definition empty_regex (model : jsstr) : bool :=
  match getAdvancedCustomModelRuleKind model with
  | RuleRegex => str_eqb (getAdvancedCustomRegexModelPattern model) []
  | RuleExact => false
  end.

(** The loop over the models of a route. *)
Fixpoint check_models (routeIndex : nat) (models : list jsstr) (seenInRoute : list jsstr)
    (known : list (jsstr * nat)) : result stop (list (jsstr * nat)) :=
  match models with
  | [] => Ok known
  | model :: rest =>
      let! _ := refuse (empty_regex model) routeIndex (js "Model regex cannot be empty") in
      let! _ := refuse (bool_decide (model ∈ seenInRoute)) routeIndex (js "Duplicate model in route models") in
      let! _ := refuse (match mget known model with Some _ => true | None => false end) routeIndex
                  (js "Route models must be unique for the same incoming path") in
      check_models routeIndex rest (seenInRoute ++ [model]) (mput model routeIndex known)
  end.

Definition validateAdvancedCustomRouteModels (routeIndex : nat) (incomingPath : jsstr) (models : list jsstr)
    (routeModelsByPath : list (jsstr * path_state)) : result stop (list (jsstr * path_state)) :=
  let state := match mget routeModelsByPath incomingPath with
               | Some state => state
               | None => PathState None []
               end in
  match models with
  | [] =>
      let! _ := refuse (match ps_catchAllIndex state with Some _ => true | None => false end) routeIndex
                  (js "Only one catch-all route is allowed for the same incoming path") in
      Ok (mput incomingPath (PathState (Some routeIndex) (ps_models state)) routeModelsByPath)
  | _ =>
      let! _ := refuse (match ps_catchAllIndex state with Some _ => true | None => false end) routeIndex
                  (js "Catch-all route must be last for the same incoming path") in
      let! known := check_models routeIndex models [] (ps_models state) in
      Ok (mput incomingPath (PathState (ps_catchAllIndex state) known) routeModelsByPath)
  end.

Section Validation.
Context {U : UrlParser}.

Definition isFullHttpURLOrAbsolutePath (value : jsstr) : bool :=
  if starts_with (js "/") value then negb (starts_with (js "//") value)
  else match parse_url value with
       | Some (host, protocol) => truthy host && ((protocol === "http:") || (protocol === "https:"))
       | None => false
       end.

(** The variables of the loop of [validateAdvancedCustomConfig]. *)
Record validation_state := ValidationState {
  vs_paths : list (jsstr * path_state);
  vs_modelListRouteIndex : option nat;
  vs_balanceRouteIndex : option nat;
}.

(** The checks of a route of the model list or of the balance. *)
Definition check_management (index : nat) (incomingPath upstreamPath : jsstr) (converter : jsvalue)
    (routeModels : list jsstr) (st : validation_state) : result stop validation_state :=
  let isModelListRoute := incomingPath === ADVANCED_CUSTOM_MODEL_LIST_PATH in
  let existingIndex := if isModelListRoute then vs_modelListRouteIndex st else vs_balanceRouteIndex st in
  let routeLabel := if isModelListRoute then js "OpenAI Models" else js "Balance Query" in
  let! _ := refuse (match existingIndex with Some _ => true | None => false end) index
              (js "Only one " ++ routeLabel ++ js " route is allowed") in
  let st := if isModelListRoute then ValidationState (vs_paths st) (Some index) (vs_balanceRouteIndex st)
            else ValidationState (vs_paths st) (vs_modelListRouteIndex st) (Some index) in
  let! _ := refuse (match routeModels with [] => false | _ => true end) index
              (routeLabel ++ js " route does not support client model rules") in
  let! _ := refuse (negb (strict_eqb converter (str "none"))) index
              (routeLabel ++ js " route must use native forwarding") in
  let! _ := refuse (includes (js "{model}") upstreamPath) index
              (routeLabel ++ js " upstream path must not contain {model}") in
  Ok st.

(** One round of the loop. *)
Definition check_route (index : nat) (route : jsvalue) (st : validation_state) : result stop validation_state :=
  let! incomingPath := try_js (incoming_path_text route) in
  let! upstreamPath := try_js (getAdvancedCustomRouteUpstreamPath route) in
  let! converter := try_js (get_prop route "converter") in
  let converter := or_value converter (str "none") in
  let! models := try_js (get_prop route "models") in
  let! routeModels := try_js (normalizeAdvancedCustomRouteModels models) in
  let! _ := refuse (negb (truthy incomingPath)) index (js "Incoming path is required") in
  let! _ := refuse (negb (starts_with (js "/") incomingPath)) index (js "Incoming path must start with /") in
  let! _ := refuse (includes (js "?") incomingPath) index (js "Incoming path must not include query") in
  let! st := (if isAdvancedCustomManagementPath incomingPath
              then check_management index incomingPath upstreamPath converter routeModels st else Ok st) in
  let! paths := validateAdvancedCustomRouteModels index incomingPath routeModels (vs_paths st) in
  let st := ValidationState paths (vs_modelListRouteIndex st) (vs_balanceRouteIndex st) in
  let! _ := refuse (negb (truthy upstreamPath)) index (js "Upstream path is required") in
  let! _ := refuse (negb (isFullHttpURLOrAbsolutePath upstreamPath)) index
              (js "Upstream path must be a full URL or a path starting with /") in
  let! _ := refuse (negb (isAdvancedCustomConverter converter)) index (js "Converter is not registered") in
  let! _ := refuse (negb (isConverterPathAllowed incomingPath (to_text converter))) index
              (js "Converter does not match incoming path") in
  let! auth := try_js (get_prop route "auth") in
  let! authError := try_js (validateRouteAuth auth) in
  match authError with
  | Some message => Err (Invalid (ValidationError (Some index) (js message)))
  | None => Ok st
  end.

Fixpoint check_routes (index : nat) (routes : list jsvalue) (st : validation_state) : result stop validation_state :=
  match routes with
  | [] => Ok st
  | route :: rest => let! st := check_route index route st in check_routes (S index) rest st
  end.

(** [null] for a valid configuration. *)
Definition validateAdvancedCustomConfig (config : jsvalue) : result property_error (option validation_error) :=
  if negb (value_truthy config)
  then Ok (Some (ValidationError None (js "Advanced custom configuration is required")))
  else
    let! routes := normalized_routes config in
    match routes with
    | [] => Ok (Some (ValidationError None (js "Advanced custom configuration requires at least one route")))
    | _ =>
        match check_routes 0 routes (ValidationState [] None None) with
        | Ok _ => Ok None
        | Err (Invalid e) => Ok (Some e)
        | Err (Thrown e) => Err e
        end
    end.

Definition hasValidAdvancedCustomModelListRoute (config : jsvalue) : result property_error bool :=
  if negb (value_truthy config) then Ok false
  else
    let! error := validateAdvancedCustomConfig config in
    if is_some error then Ok false
    else
      let! routes := normalized_routes config in
      let! index := find_index_result (has_path (js ADVANCED_CUSTOM_MODEL_LIST_PATH)) routes in
      Ok (is_some index).

Definition advancedCustomConfigUsesRelativeUpstreamPath (config : jsvalue) : result property_error bool :=
  if negb (value_truthy config) then Ok false
  else
    let! routes := normalized_routes config in
    let! index := find_index_result (fun r => let! p := getAdvancedCustomRouteUpstreamPath r in
                                              Ok (starts_with (js "/") p)) routes in
    Ok (is_some index).

(** * Summary *)

(** A label of a route: a text, or the inherited member that the table of labels gives
    for a path of that name. *)
Inductive route_label := LabelText (s : jsstr) | LabelInherited (name : jsstr).

#[export] Instance route_label_eq_dec : EqDecision route_label.
Proof. solve_decision. Defined.

Definition getAdvancedCustomRouteSummaryLabel (route : jsvalue) : result property_error (option route_label) :=
  let! incomingPath := incoming_path_text route in
  match incomingPath with
  | [] => Ok None
  | _ =>
      Ok (Some (match find (fun o => incomingPath === (o.1)) ADVANCED_CUSTOM_ROUTE_SUMMARY_LABELS with
                | Some o => LabelText (js o.2)
                | None =>
                    if existsb (fun n => incomingPath === n) inherited_names then LabelInherited incomingPath
                    else LabelText (getAdvancedCustomIncomingPathLabel incomingPath)
                end))
  end.

Record stats := Stats { s_routeCount : nat; s_valid : bool; s_routeTypeLabels : list route_label }.

Definition getAdvancedCustomStats (value : option jsstr) : result property_error stats :=
  match parseAdvancedCustomConfig value with
  | None => Ok (Stats 0 false [])
  | Some config =>
      let! routes := normalized_routes config in
      let! labels := map_result getAdvancedCustomRouteSummaryLabel routes in
      let! normalized := normalizeAdvancedCustomConfig config in
      let! error := validateAdvancedCustomConfig normalized in
      Ok (Stats (length routes) (negb (is_some error)) (distinct (omap id labels)))
  end.
End Validation.

(** * Examples *)

(** A platform that knows no URL. *)
Definition no_urls : UrlParser := {| parse_url := fun _ => None |}.

Example templates_valid :
  map (fun o => validateAdvancedCustomConfig (U := no_urls) (to_config o)) ADVANCED_CUSTOM_TEMPLATE_OPTIONS
  = [Ok None; Ok None; Ok None; Ok None].
Proof. vm_compute. reflexivity. Qed.
Example stats_ex :
  getAdvancedCustomStats (U := no_urls) (Some (quotes "{'advanced_routes': [{'incoming_path': 'constructor'}]}"))
  = Ok (Stats 1 false [LabelInherited (js "constructor")]).
Proof. vm_compute. reflexivity. Qed.
