(* ===== verification/AdvancedFacts.v ===== *)
(** Facts on custom channels: what validation accepts, and the round trips of editing
    and of the text form, for configurations of the type the code declares. *)
From Stdlib Require Import ZArith Lia Bool String.
From stdpp Require Import base list option.
From S2P Require Import Prelude JsString JsNumber JsValue Collections Structure Json JsonText AdvancedCustom.

#[local] Open Scope Z_scope.

(** * Configurations of the declared type *)

Record auth_config := AuthConfig {
  ac_type : option jsstr; ac_name : option jsstr; ac_value : option jsstr;
}.
Record route_config := RouteConfig {
  rc_incoming_path : option jsstr; rc_upstream_path : option jsstr; rc_converter : option jsstr;
  rc_models : option (list jsstr); rc_auth : option auth_config;
}.
Record custom_config := CustomConfig { cc_advanced_routes : option (list route_config) }.

(** The values they are at run time. *)
Definition of_text (t : option jsstr) : jsvalue := match t with Some s => JStr s | None => JUndefined end.
Definition of_auth (a : auth_config) : jsvalue :=
  obj [("type", of_text (ac_type a)); ("name", of_text (ac_name a)); ("value", of_text (ac_value a))]%string.
Definition of_route (r : route_config) : jsvalue :=
  obj [("incoming_path", of_text (rc_incoming_path r)); ("upstream_path", of_text (rc_upstream_path r));
       ("converter", of_text (rc_converter r));
       ("models", match rc_models r with Some l => JArr (map JStr l) | None => JUndefined end);
       ("auth", match rc_auth r with Some a => of_auth a | None => JUndefined end)]%string.
Definition of_config (c : custom_config) : jsvalue :=
  obj [("advanced_routes"%string,
        match cc_advanced_routes c with Some l => JArr (map of_route l) | None => JUndefined end)].

Definition text_of (t : option jsstr) : jsstr := match t with Some s => s | None => [] end.
Definition routes_of (c : custom_config) : list route_config :=
  match cc_advanced_routes c with Some l => l | None => [] end.

(** What the code reads off a route. *)
Definition path (r : route_config) : jsstr := trim (text_of (rc_incoming_path r)).
Definition upstream (r : route_config) : jsstr := trim (text_of (rc_upstream_path r)).
Definition converter (r : route_config) : jsstr :=
  match text_of (rc_converter r) with [] => js "none" | c => c end.
Definition models (r : route_config) : list jsstr :=
  List.filter truthy (map trim (match rc_models r with Some l => l | None => [] end)).

(** * Normalization of declared configurations *)

Definition normal_auth (a : auth_config) : jsvalue :=
  obj [("type", of_text (ac_type a)); ("name", JStr (text_of (ac_name a))); ("value", JStr (text_of (ac_value a)))]%string.
Definition normal_route (r : route_config) : jsvalue :=
  obj ([("incoming_path", JStr (text_of (rc_incoming_path r))); ("upstream_path", JStr (upstream r));
        ("converter", JStr (converter r))]%string
       ++ match models r with [] => [] | l => [("models", JArr (map JStr l))]%string end
       ++ match rc_auth r with Some a => [("auth", normal_auth a)]%string | None => [] end).

Lemma or_empty_text t : or_empty (of_text t) = JStr (text_of t).
Proof. by destruct t as [[|c s]|]. Qed.

Lemma map_result_trim l : map_result call_trim (map JStr l) = Ok (map trim l).
Proof. induction l as [|x l IH]; [done|]. cbn [map map_result call_trim]. by rewrite IH. Qed.

Lemma route_props r :
  get_prop (of_route r) "incoming_path" = Ok (of_text (rc_incoming_path r)) /\
  get_prop (of_route r) "upstream_path" = Ok (of_text (rc_upstream_path r)) /\
  get_prop (of_route r) "converter" = Ok (of_text (rc_converter r)) /\
  get_prop (of_route r) "models"
  = Ok (match rc_models r with Some l => JArr (map JStr l) | None => JUndefined end) /\
  get_prop (of_route r) "auth" = Ok (match rc_auth r with Some a => of_auth a | None => JUndefined end).
Proof. done. Qed.

Lemma auth_props a :
  get_prop (of_auth a) "type" = Ok (of_text (ac_type a)) /\
  get_prop (of_auth a) "name" = Ok (of_text (ac_name a)) /\
  get_prop (of_auth a) "value" = Ok (of_text (ac_value a)).
Proof. done. Qed.

Lemma normalize_auth a : normalized_auth (of_auth a) = Ok (normal_auth a).
Proof.
  unfold normalized_auth. destruct (auth_props a) as (-> & -> & ->). by rewrite !or_empty_text.
Qed.

Lemma normalize_route r : normalizeAdvancedCustomRoute (of_route r) = Ok (normal_route r).
Proof.
  unfold normalizeAdvancedCustomRoute, getAdvancedCustomRouteUpstreamPath.
  destruct (route_props r) as (-> & -> & -> & -> & ->). rewrite !or_empty_text. cbn [call_trim].
  assert (Em : normalizeAdvancedCustomRouteModels
                 (match rc_models r with Some l => JArr (map JStr l) | None => JUndefined end) = Ok (models r)).
  { unfold normalizeAdvancedCustomRouteModels, models. destruct (rc_models r) as [l|]; [|done].
    by rewrite map_result_trim. }
  rewrite Em.
  assert (Ec : or_value (of_text (rc_converter r)) (str "none") = JStr (converter r))
    by (unfold converter, or_value; by destruct (rc_converter r) as [[|x s]|]).
  rewrite Ec. unfold normal_route. destruct (rc_auth r) as [a|]; [|by destruct (models r)].
  change (value_truthy (of_auth a)) with true. cbv iota. rewrite normalize_auth. by destruct (models r).
Qed.

Lemma map_result_map {A B D E} (f : B -> result E D) (g : A -> B) h l :
  (forall x, f (g x) = Ok (h x)) -> map_result f (map g l) = Ok (map h l).
Proof.
  intros H. induction l as [|x l IH]; [done|]. cbn [map_result map]. by rewrite H, IH.
Qed.

Lemma config_routes_read l : get_prop (config_of_routes l) "advanced_routes" = Ok (JArr l).
Proof. done. Qed.

Lemma normalized_config c : normalized_routes (of_config c) = Ok (map normal_route (routes_of c)).
Proof.
  unfold normalized_routes, routes_of.
  assert (E : get_prop (of_config c) "advanced_routes"
              = Ok (match cc_advanced_routes c with Some l => JArr (map of_route l) | None => JUndefined end)) by done.
  rewrite E. destruct (cc_advanced_routes c) as [l|]; [|done]. apply map_result_map, normalize_route.
Qed.

(** ** What is read off a normalized route *)

Section NormalRoute.
Variable r : route_config.

Lemma normal_props :
  get_prop (normal_route r) "incoming_path" = Ok (JStr (text_of (rc_incoming_path r))) /\
  get_prop (normal_route r) "upstream_path" = Ok (JStr (upstream r)) /\
  get_prop (normal_route r) "converter" = Ok (JStr (converter r)) /\
  get_prop (normal_route r) "models" = Ok (match models r with [] => JUndefined | l => JArr (map JStr l) end) /\
  get_prop (normal_route r) "auth" = Ok (match rc_auth r with Some a => normal_auth a | None => JUndefined end).
Proof. unfold normal_route. by destruct (models r), (rc_auth r). Qed.

Lemma normal_path : trimmed_path (normal_route r) = Ok (JStr (path r)).
Proof. unfold trimmed_path. destruct normal_props as [-> _]. done. Qed.
Lemma normal_path_text : incoming_path_text (normal_route r) = Ok (path r).
Proof. unfold incoming_path_text. by rewrite normal_path. Qed.
Lemma normal_upstream : getAdvancedCustomRouteUpstreamPath (normal_route r) = Ok (upstream r).
Proof.
  unfold getAdvancedCustomRouteUpstreamPath. destruct normal_props as (_ & -> & _).
  assert (E : or_empty (JStr (upstream r)) = JStr (upstream r)) by (by destruct (upstream r)).
  rewrite E. cbn [call_trim]. unfold upstream. by rewrite trim_idem.
Qed.
Lemma converter_truthy : truthy (converter r) = true.
Proof. unfold converter. by destruct (text_of (rc_converter r)). Qed.
Lemma models_trimmed : Forall (fun m => trim m = m /\ truthy m = true) (models r).
Proof.
  unfold models. apply Forall_elem. intros m Hm. apply list_elem_of_In, filter_In in Hm as [Hm Ht].
  apply in_map_iff in Hm as (x & <- & _). by rewrite trim_idem.
Qed.
Lemma normal_models m : get_prop (normal_route r) "models" = Ok m ->
  normalizeAdvancedCustomRouteModels m = Ok (models r).
Proof.
  destruct normal_props as (_ & _ & _ & -> & _). intros [= <-]. pose proof models_trimmed as H.
  destruct (models r) as [|x l]; [done|].
  change (normalizeAdvancedCustomRouteModels (JArr (map JStr (x :: l))) = Ok (x :: l)).
  unfold normalizeAdvancedCustomRouteModels. rewrite map_result_trim. f_equal. induction H as [|y l' [Ey Ht] _ IH]; [done|]. cbn [map List.filter]. by rewrite Ey, Ht, IH.
Qed.

Lemma normal_auth_props a :
  get_prop (normal_auth a) "type" = Ok (of_text (ac_type a)) /\
  get_prop (normal_auth a) "name" = Ok (JStr (text_of (ac_name a))) /\
  get_prop (normal_auth a) "value" = Ok (JStr (text_of (ac_value a))).
Proof. done. Qed.

Lemma normal_auth_stable a : normalized_auth (normal_auth a) = Ok (normal_auth a).
Proof.
  unfold normalized_auth. destruct (normal_auth_props a) as (-> & -> & ->).
  assert (En : forall t, or_empty (JStr (text_of t)) = JStr (text_of t)) by (intros t; by destruct (text_of t)).
  by rewrite !En.
Qed.

(** Normalization is idempotent. *)
Lemma normal_route_stable : normalizeAdvancedCustomRoute (normal_route r) = Ok (normal_route r).
Proof.
  unfold normalizeAdvancedCustomRoute. destruct normal_props as (E1 & E2 & E3 & E4 & E5).
  rewrite E1, normal_upstream, E3, E4, (normal_models _ E4), E5.
  assert (Eo : or_value (JStr (converter r)) (str "none") = JStr (converter r))
    by (unfold or_value; cbn [value_truthy]; by rewrite converter_truthy).
  rewrite Eo.
  assert (Ei : or_empty (JStr (text_of (rc_incoming_path r))) = JStr (text_of (rc_incoming_path r)))
    by (by destruct (text_of (rc_incoming_path r))).
  rewrite Ei. unfold normal_route. destruct (rc_auth r) as [a|]; [|by destruct (models r)].
  change (value_truthy (normal_auth a)) with true. cbv iota. rewrite normal_auth_stable. by destruct (models r).
Qed.
End NormalRoute.

(** * What validation accepts *)

Section Valid.
Context {U : UrlParser}.

Definition auth_ok (a : auth_config) : Prop :=
  ac_type a = Some (js "none") \/
  ((ac_type a = Some (js "header") \/ ac_type a = Some (js "query")) /\
   trim (text_of (ac_name a)) <> [] /\ trim (text_of (ac_value a)) <> []).

(** A route on its own. *)
Record route_ok (r : route_config) : Prop := {
  ok_absolute : starts_with (js "/") (path r) = true;
  ok_no_query : includes (js "?") (path r) = false;
  ok_management : isAdvancedCustomManagementPath (path r) = true ->
    models r = [] /\ converter r = js "none" /\ includes (js "{model}") (upstream r) = false;
  ok_rules : Forall (fun m => m <> js ADVANCED_CUSTOM_MODEL_REGEX_PREFIX) (models r);
  ok_models : NoDup (models r);
  ok_upstream_given : upstream r <> [];
  ok_upstream : isFullHttpURLOrAbsolutePath (upstream r) = true;
  ok_converter : converter r ∈ map (fun o => js (co_value o)) ADVANCED_CUSTOM_CONVERTER_OPTIONS;
  ok_converter_path : isConverterPathAllowed (path r) (converter r) = true;
  ok_auth : match rc_auth r with Some a => auth_ok a | None => True end;
}.

(** A route before another one: on the same path it is not a catch-all and lists none
    of the other's models. *)
Definition before_ok (r r' : route_config) : Prop :=
  path r = path r' -> models r <> [] /\ forall m, m ∈ models r -> m ∉ models r'.

(** A list of routes: each is fine on its own and after those before it. *)
Definition routes_ok (rs : list route_config) : Prop :=
  forall i r, rs !! i = Some r -> route_ok r /\ Forall (fun r0 => before_ok r0 r) (take i rs).

(** ** Models *)

Lemma regex_empty m : empty_regex m = true <-> m = js ADVANCED_CUSTOM_MODEL_REGEX_PREFIX.
Proof.
  unfold empty_regex, getAdvancedCustomModelRuleKind, getAdvancedCustomRegexModelPattern. split; [|by intros ->].
  destruct (starts_with _ m) eqn:E; [|done]. apply starts_with_spec in E as [t ->].
  intros H. apply str_eqb_eq in H. change (t = []) in H. by subst t.
Qed.

Definition models_fit (seen : list jsstr) (known : list (jsstr * nat)) (ms : list jsstr) : Prop :=
  Forall (fun m => m <> js ADVANCED_CUSTOM_MODEL_REGEX_PREFIX) ms /\ NoDup ms /\
  forall m, m ∈ ms -> (m ∉ seen) /\ mget known m = None.

Lemma check_models_spec i ms : forall seen known,
  match check_models i ms seen known with
  | Ok known' => models_fit seen known ms /\
                 forall m, is_Some (mget known' m) <-> is_Some (mget known m) \/ m ∈ ms
  | Err (Invalid e) => ve_routeIndex e = Some i /\ ~ models_fit seen known ms
  | Err (Thrown _) => False
  end.
Proof.
  induction ms as [|x ms IH]; intros seen known; cbn [check_models].
  { split; [split_and!; [constructor|constructor|by intros m Hm%not_elem_of_nil]|].
    intros m. rewrite elem_of_nil. tauto. }
  unfold refuse. destruct (empty_regex x) eqn:E1.
  { split; [done|]. intros (F & _). apply regex_empty in E1. inversion F; subst. done. }
  assert (N1 : x <> js ADVANCED_CUSTOM_MODEL_REGEX_PREFIX).
  { intros H. apply regex_empty in H. congruence. }
  destruct (bool_decide (x ∈ seen)) eqn:E2; bools.
  { split; [done|]. intros (_ & _ & F). destruct (F x) as [F' _]; [by left|]. done. }
  destruct (mget known x) as [n|] eqn:E3.
  { split; [done|]. intros (_ & _ & F). destruct (F x) as [_ F']; [by left|]. congruence. }
  specialize (IH (seen ++ [x]) (mput x i known)).
  assert (Hfit : models_fit (seen ++ [x]) (mput x i known) ms <-> models_fit seen known (x :: ms)).
  { split.
    - intros (F1 & F2 & F3). split_and!; [by constructor| |].
      + constructor; [|done]. intros Hx. destruct (F3 x Hx) as [F _]. apply F. apply elem_of_app. right. by left.
      + intros m Hm. apply elem_of_cons in Hm as [->|Hm]; [done|]. destruct (F3 m Hm) as [G1 G2].
        rewrite not_elem_of_app in G1. split; [apply G1|]. rewrite mget_mput in G2. by case_bool_decide.
    - intros (F1 & F2 & F3). inversion F1; subst. apply list.NoDup_cons in F2 as [F2 F2'].
      split_and!; [done|done|]. intros m Hm. destruct (F3 m) as [G1 G2]; [by right|].
      assert (m <> x) by (intros ->; done). split.
      + rewrite not_elem_of_app, list_elem_of_singleton. auto.
      + rewrite mget_mput. by rewrite bool_decide_false. }
  destruct (check_models i ms (seen ++ [x]) (mput x i known)) as [known'|[e|e]].
  - destruct IH as [F G]. split; [by apply Hfit|]. intros m. rewrite G, mget_mput, elem_of_cons.
    case_bool_decide as Em; [split; [auto|intros _; left; eauto]|tauto].
  - rewrite <- Hfit. done.
  - done.
Qed.

(** ** The state of the loop *)

Definition path_info (st : validation_state) (p : jsstr) : path_state :=
  match mget (vs_paths st) p with Some s => s | None => PathState None [] end.

(** The state after the routes [done]. *)
Record tracks (done : list route_config) (st : validation_state) : Prop := {
  tr_ok : Forall route_ok done;
  tr_catch_all p : is_Some (ps_catchAllIndex (path_info st p)) <->
    exists r, r ∈ done /\ path r = p /\ models r = [];
  tr_models p m : is_Some (mget (ps_models (path_info st p)) m) <->
    exists r, r ∈ done /\ path r = p /\ m ∈ models r;
  tr_model_list : is_Some (vs_modelListRouteIndex st) <->
    exists r, r ∈ done /\ path r = js ADVANCED_CUSTOM_MODEL_LIST_PATH;
  tr_balance : is_Some (vs_balanceRouteIndex st) <->
    exists r, r ∈ done /\ path r = js ADVANCED_CUSTOM_BALANCE_PATH;
}.

(** A route fits after the routes before it. *)
Definition fits (done : list route_config) (r : route_config) : Prop :=
  route_ok r /\ Forall (fun r0 => before_ok r0 r) done.

(** The models of a route fit those of its path. *)
Definition models_ok (done : list route_config) (r : route_config) : Prop :=
  Forall (fun m => m <> js ADVANCED_CUSTOM_MODEL_REGEX_PREFIX) (models r) /\ NoDup (models r) /\
  Forall (fun r0 => before_ok r0 r) done.

Lemma exists_snoc {A} (P : A -> Prop) l x : (exists y, y ∈ l ++ [x] /\ P y) <-> (exists y, y ∈ l /\ P y) \/ P x.
Proof.
  split.
  - intros (y & Hy & HP). apply elem_of_app in Hy as [Hy|Hy]; [eauto|].
    apply list_elem_of_singleton in Hy as ->. auto.
  - intros [(y & Hy & HP)|HP]; [exists y|exists x]; (split; [|done]); apply elem_of_app; [auto|right; by left].
Qed.

Lemma catch_all_none done st r : tracks done st -> ps_catchAllIndex (path_info st (path r)) = None ->
  forall r0, r0 ∈ done -> path r0 = path r -> models r0 <> [].
Proof.
  intros T H r0 Hin Hp Hm. destruct (proj2 (tr_catch_all _ _ T (path r))) as [n Hn]; [eauto|]. congruence.
Qed.

Lemma catch_all_some done st r n : tracks done st -> ps_catchAllIndex (path_info st (path r)) = Some n ->
  ~ Forall (fun r0 => before_ok r0 r) done.
Proof.
  intros T H F. destruct (proj1 (tr_catch_all _ _ T (path r))) as (r0 & Hin & Hp & Hm); [eauto|].
  rewrite Forall_elem in F. by destruct (F r0 Hin Hp).
Qed.

(** [validateAdvancedCustomRouteModels] keeps track of the models and the catch-alls. *)
Lemma route_models_spec i r done st : tracks done st ->
  match validateAdvancedCustomRouteModels i (path r) (models r) (vs_paths st) with
  | Ok paths =>
      models_ok done r /\
      (forall p, is_Some (ps_catchAllIndex (path_info (ValidationState paths None None) p)) <->
         exists r', r' ∈ done ++ [r] /\ path r' = p /\ models r' = []) /\
      (forall p m, is_Some (mget (ps_models (path_info (ValidationState paths None None) p)) m) <->
         exists r', r' ∈ done ++ [r] /\ path r' = p /\ m ∈ models r')
  | Err (Invalid e) => ve_routeIndex e = Some i /\ ~ models_ok done r
  | Err (Thrown _) => False
  end.
Proof.
  intros T. unfold validateAdvancedCustomRouteModels. fold (path_info st (path r)).
  pose proof (catch_all_none done st r T) as Hnone. pose proof (catch_all_some done st r) as Hsome.
  assert (Hinfo : forall s p, path_info (ValidationState (mput (path r) s (vs_paths st)) None None) p
                   = if bool_decide (p = path r) then s else path_info st p).
  { intros s p. unfold path_info. cbn [vs_paths]. rewrite mget_mput. by case_bool_decide. }
  assert (Hstep : forall (P : route_config -> Prop) p, p <> path r ->
            (exists r', r' ∈ done ++ [r] /\ path r' = p /\ P r') <-> exists r', r' ∈ done /\ path r' = p /\ P r').
  { intros P p Hp. rewrite exists_snoc. split; [intros [?|[? _]]; [done|congruence]|auto]. }
  destruct (ps_catchAllIndex (path_info st (path r))) as [n|] eqn:Ec.
  { assert (G : ~ models_ok done r) by (intros (_ & _ & F); by apply (Hsome n T eq_refl F)).
    destruct (models r); done. }
  destruct (models r) as [|m0 ms0] eqn:Em; cbn [refuse];
    [|assert (Hne : models r <> []) by (by rewrite Em); rewrite <- Em; clear m0 ms0 Em].
  - split.
    { unfold models_ok. rewrite Em. split_and!; [constructor|constructor|]. apply Forall_elem. intros r0 Hin Hp.
      split; [by apply (Hnone eq_refl)|]. intros m _. rewrite Em. apply not_elem_of_nil. }
    split; intros p; [|intros m]; rewrite Hinfo; case_bool_decide as Ep; subst; cbn [ps_catchAllIndex ps_models].
    + split; [|by eauto]. intros _. exists r. split; [apply elem_of_app; right; by left|done].
    + rewrite (Hstep (fun r' => models r' = [])) by done. apply (tr_catch_all _ _ T).
    + rewrite (tr_models _ _ T), exists_snoc. split; [auto|]. intros [?|[_ H]]; [done|].
      rewrite Em in H. by apply not_elem_of_nil in H.
    + rewrite (Hstep (fun r' => m ∈ models r')) by done. apply (tr_models _ _ T).
  - pose proof (check_models_spec i (models r) [] (ps_models (path_info st (path r)))) as H.
    assert (Hfit : models_fit [] (ps_models (path_info st (path r))) (models r) <-> models_ok done r).
    { unfold models_fit, models_ok. split; intros (F1 & F2 & F3); split_and!; try done.
      - apply Forall_elem. intros r0 Hin Hp. split; [by apply (Hnone eq_refl)|]. intros m Hm Hm'.
        destruct (F3 m Hm') as [_ G]. destruct (proj2 (tr_models _ _ T (path r) m)) as [? ?]; [eauto|congruence].
      - intros m Hm. split; [apply not_elem_of_nil|]. destruct (mget _ m) as [k|] eqn:E; [|done]. exfalso.
        destruct (proj1 (tr_models _ _ T (path r) m)) as (r0 & Hin & Hp & Hm'); [eauto|].
        rewrite Forall_elem in F3. by apply (proj2 (F3 r0 Hin Hp) m). }
    destruct (check_models i (models r) [] _) as [known|[e|e]]; [|by rewrite <- Hfit|done].
    destruct H as [F G]. split; [by apply Hfit|].
    split; intros p; [|intros m]; rewrite Hinfo; case_bool_decide as Ep; subst; cbn [ps_catchAllIndex ps_models].
    + split; [by intros [? ?]|]. intros (r' & Hin & Hp & Hm). apply elem_of_app in Hin as [Hin|Hin].
      * by destruct (Hnone eq_refl r' Hin Hp).
      * apply list_elem_of_singleton in Hin as ->. done.
    + rewrite (Hstep (fun r' => models r' = [])) by done. apply (tr_catch_all _ _ T).
    + rewrite G, (tr_models _ _ T), exists_snoc. tauto.
    + rewrite (Hstep (fun r' => m ∈ models r')) by done. apply (tr_models _ _ T).
Qed.

(** ** One round *)

Lemma auth_spec r :
  match validateRouteAuth (match rc_auth r with Some a => normal_auth a | None => JUndefined end) with
  | Ok None => match rc_auth r with Some a => auth_ok a | None => True end
  | Ok (Some _) => ~ match rc_auth r with Some a => auth_ok a | None => True end
  | Err _ => False
  end.
Proof.
  destruct (rc_auth r) as [a|]; [|done]. unfold validateRouteAuth.
  change (value_truthy (normal_auth a)) with true. cbn [negb].
  destruct (normal_auth_props a) as (-> & -> & ->).
  assert (Htype : forall s, strict_eqb (of_text (ac_type a)) (str s) = true <-> ac_type a = Some (js s)).
  { intros s. unfold str. destruct (ac_type a) as [t|]; cbn [of_text strict_eqb]; [|done].
    rewrite str_eqb_eq. split; [by intros ->|by intros [= ->]]. }
  unfold auth_ok. destruct (strict_eqb (of_text (ac_type a)) (str "none")) eqn:E0.
  { left. by apply Htype. }
  assert (N0 : ac_type a <> Some (js "none")) by (intros H; apply Htype in H; congruence).
  destruct (strict_eqb (of_text (ac_type a)) (str "header") || strict_eqb (of_text (ac_type a)) (str "query")) eqn:E1.
  - assert (Hk : ac_type a = Some (js "header") \/ ac_type a = Some (js "query")).
    { apply orb_true_iff in E1 as [H|H]; apply Htype in H; auto. }
    cbn [negb optional_trim nullish call_trim value_truthy].
    destruct (trim (text_of (ac_name a))) as [|x n]; [intros [?|(_ & ? & _)]; done|]. cbn [truthy negb].
    destruct (trim (text_of (ac_value a))) as [|y v]; [intros [?|(_ & _ & ?)]; done|]. cbn [truthy negb].
    right. done.
  - apply orb_false_iff in E1 as [H1 H2]. cbn [negb].
    intros [?|([H|H] & _)]; [done| |]; apply Htype in H; congruence.
Qed.

(** A management route has no models, no converter and no model in its upstream path. *)
Definition management_ok (r : route_config) : Prop :=
  models r = [] /\ converter r = js "none" /\ includes (js "{model}") (upstream r) = false.

Lemma management_checks i label r (st : validation_state) :
  match (let! _ := refuse (match models r with [] => false | _ => true end) i
                     (label ++ js " route does not support client model rules") in
         let! _ := refuse (negb (strict_eqb (JStr (converter r)) (str "none"))) i
                     (label ++ js " route must use native forwarding") in
         let! _ := refuse (includes (js "{model}") (upstream r)) i
                     (label ++ js " upstream path must not contain {model}") in
         Ok st) with
  | Ok st' => st' = st /\ management_ok r
  | Err (Invalid e) => ve_routeIndex e = Some i /\ ~ management_ok r
  | Err (Thrown _) => False
  end.
Proof.
  unfold management_ok. destruct (models r) as [|x l]; cbn [refuse]; [|split; [done|by intros [? _]]].
  unfold str. cbn [strict_eqb]. destruct (str_eqb_reflect (converter r) (js "none")) as [->|Hne]; cbn [negb refuse];
    [|split; [done|by intros (_ & ? & _)]].
  destruct (includes (js "{model}") (upstream r)); cbn [refuse]; [|done]. split; [done|by intros (_ & _ & ?)].
Qed.

(** The checks of management routes. *)
Lemma management_spec i r done st : tracks done st ->
  match (if isAdvancedCustomManagementPath (path r)
         then check_management i (path r) (upstream r) (JStr (converter r)) (models r) st else Ok st) with
  | Ok st' =>
      (isAdvancedCustomManagementPath (path r) = true -> management_ok r) /\
      vs_paths st' = vs_paths st /\
      (is_Some (vs_modelListRouteIndex st') <->
         exists r', r' ∈ done ++ [r] /\ path r' = js ADVANCED_CUSTOM_MODEL_LIST_PATH) /\
      (is_Some (vs_balanceRouteIndex st') <->
         exists r', r' ∈ done ++ [r] /\ path r' = js ADVANCED_CUSTOM_BALANCE_PATH)
  | Err (Invalid e) => ve_routeIndex e = Some i /\ ~ fits done r
  | Err (Thrown _) => False
  end.
Proof.
  intros T. unfold isAdvancedCustomManagementPath.
  destruct ((path r === ADVANCED_CUSTOM_MODEL_LIST_PATH) || (path r === ADVANCED_CUSTOM_BALANCE_PATH)) eqn:Em.
  2: { apply orb_false_iff in Em as [E1 E2]. split; [done|]. split; [done|].
       rewrite (tr_model_list _ _ T), (tr_balance _ _ T), !exists_snoc.
       split; (split; [auto|]; intros [?|H]; [done|]); rewrite H in *; done. }
  assert (Hm : isAdvancedCustomManagementPath (path r) = true) by exact Em.
  assert (Hdup : forall p, path r = js p -> (exists r', r' ∈ done /\ path r' = js p) -> ~ fits done r).
  { intros p Hp (r' & Hin & Hp') [_ F]. rewrite Forall_elem in F. destruct (F r' Hin) as [Hne _]; [congruence|].
    pose proof (tr_ok _ _ T) as Hok. rewrite Forall_elem in Hok.
    destruct (ok_management _ (Hok r' Hin)) as [? _]; [by rewrite Hp', <- Hp|done]. }
  assert (Hconds : ~ management_ok r -> ~ fits done r) by (intros H [Hok _]; by apply H, (ok_management _ Hok)).
  unfold check_management. destruct (path r === ADVANCED_CUSTOM_MODEL_LIST_PATH) eqn:E1; cbn [orb] in Em.
  - apply str_eqb_eq in E1. destruct (vs_modelListRouteIndex st) as [k|] eqn:Ek; cbn [refuse].
    { split; [done|]. apply (Hdup _ E1), (tr_model_list _ _ T). by rewrite Ek. }
    pose proof (management_checks i (js "OpenAI Models") r (ValidationState (vs_paths st) (Some i) (vs_balanceRouteIndex st))) as H.
    destruct (let! _ := refuse _ _ _ in _) as [st'|[e|e]]; [|by destruct H; auto|done].
    destruct H as [-> Hok]. split; [done|]. split; [done|]. cbn [vs_modelListRouteIndex vs_balanceRouteIndex].
    rewrite (tr_balance _ _ T), !exists_snoc. split; split; [by eauto|by eauto|auto|].
    intros [?|H]; [done|]. by rewrite E1 in H.
  - apply str_eqb_eq in Em. destruct (vs_balanceRouteIndex st) as [k|] eqn:Ek; cbn [refuse].
    { split; [done|]. apply (Hdup _ Em), (tr_balance _ _ T). by rewrite Ek. }
    pose proof (management_checks i (js "Balance Query") r (ValidationState (vs_paths st) (vs_modelListRouteIndex st) (Some i))) as H.
    destruct (let! _ := refuse _ _ _ in _) as [st'|[e|e]]; [|by destruct H; auto|done].
    destruct H as [-> Hok]. split; [done|]. split; [done|]. cbn [vs_modelListRouteIndex vs_balanceRouteIndex].
    rewrite (tr_model_list _ _ T), !exists_snoc. split; split; [auto| |by eauto|by eauto].
    intros [?|H]; [done|]. by rewrite Em in H.
Qed.

Lemma converter_registered r : isAdvancedCustomConverter (JStr (converter r)) = true <->
  converter r ∈ map (fun o => js (co_value o)) ADVANCED_CUSTOM_CONVERTER_OPTIONS.
Proof.
  unfold isAdvancedCustomConverter. rewrite existsb_exists, list_elem_of_fmap. unfold str. cbn [strict_eqb].
  split.
  - intros (o & Ho & E). apply str_eqb_eq in E. exists o. by rewrite list_elem_of_In.
  - intros (o & E & Ho). exists o. rewrite E, str_eqb_refl. by rewrite <- list_elem_of_In.
Qed.

(** One round accepts exactly the routes that fit and keeps track of them. *)
Lemma check_route_spec i r done st : tracks done st ->
  match check_route i (normal_route r) st with
  | Ok st' => fits done r /\ tracks (done ++ [r]) st'
  | Err (Invalid e) => ve_routeIndex e = Some i /\ ~ fits done r
  | Err (Thrown _) => False
  end.
Proof.
  intros T. unfold check_route. destruct (normal_props r) as (_ & _ & E3 & E4 & E5).
  rewrite normal_path_text, normal_upstream, E3, E4, E5. cbn [try_js].
  rewrite (normal_models r _ E4). cbn [try_js].
  assert (Ec : or_value (JStr (converter r)) (str "none") = JStr (converter r))
    by (unfold or_value; cbn [value_truthy]; by rewrite converter_truthy).
  rewrite Ec. cbv beta zeta.
  destruct (truthy (path r)) eqn:Et; cbn [negb refuse].
  2: { split; [done|]. intros [Hok _]. pose proof (ok_absolute _ Hok) as H. by destruct (path r). }
  destruct (starts_with (js "/") (path r)) eqn:E1; cbn [negb refuse].
  2: { split; [done|]. intros [Hok _]. pose proof (ok_absolute _ Hok). congruence. }
  destruct (includes (js "?") (path r)) eqn:E2; cbn [refuse].
  { split; [done|]. intros [Hok _]. pose proof (ok_no_query _ Hok). congruence. }
  pose proof (management_spec i r done st T) as HM.
  destruct (if isAdvancedCustomManagementPath (path r) then _ else _) as [st1|[e|e]]; [|done|done].
  destruct HM as (HM & Hp & HL & HB). rewrite Hp.
  pose proof (route_models_spec i r done st T) as HR.
  destruct (validateAdvancedCustomRouteModels i (path r) (models r) (vs_paths st)) as [paths|[e|e]]; [| |done].
  2: { destruct HR as [He HR]. split; [done|]. intros [Hok F]. apply HR.
       split_and!; [by apply ok_rules|by apply ok_models|done]. }
  destruct HR as ((R1 & R2 & R3) & R4 & R5).
  destruct (isFullHttpURLOrAbsolutePath (upstream r)) eqn:Eu; cbn [negb refuse].
  2: { destruct (truthy (upstream r)); cbn [negb refuse]; (split; [done|]; intros [Hok _]);
       pose proof (ok_upstream _ Hok); congruence. }
  destruct (truthy (upstream r)) eqn:Etu; cbn [negb refuse].
  2: { split; [done|]. intros [Hok _]. pose proof (ok_upstream_given _ Hok). by destruct (upstream r). }
  destruct (isAdvancedCustomConverter (JStr (converter r))) eqn:Er; cbn [negb refuse].
  2: { split; [done|]. intros [Hok _]. pose proof (ok_converter _ Hok) as H. apply converter_registered in H. congruence. }
  cbn [to_text]. destruct (isConverterPathAllowed (path r) (converter r)) eqn:Ea; cbn [negb refuse].
  2: { split; [done|]. intros [Hok _]. pose proof (ok_converter_path _ Hok). congruence. }
  pose proof (auth_spec r) as HA.
  destruct (validateRouteAuth _) as [[msg|]|e]; cbn [try_js]; [| |done].
  { split; [done|]. intros [Hok _]. by apply HA, ok_auth. }
  assert (Hok : route_ok r).
  { constructor; try done; [|by apply converter_registered]. by destruct (upstream r). }
  split; [by split|]. constructor; cbn [vs_modelListRouteIndex vs_balanceRouteIndex]; try done.
  apply list.Forall_app. split; [by apply (tr_ok _ _ T)|by constructor].
Qed.

Lemma check_routes_spec rs : forall done st, tracks done st -> routes_ok done ->
  match check_routes (length done) (map normal_route rs) st with
  | Ok _ => routes_ok (done ++ rs)
  | Err (Invalid e) => exists i, ve_routeIndex e = Some (length done + i)%nat /\ (i < length rs)%nat /\
      routes_ok (done ++ take i rs) /\ ~ routes_ok (done ++ take (S i) rs)
  | Err (Thrown _) => False
  end.
Proof.
  assert (Hsnoc : forall done r, routes_ok done -> fits done r <-> routes_ok (done ++ [r])).
  { intros done r Hd. split.
    - intros Hf i r' Hi. apply lookup_app_Some in Hi as [Hi|[Hl Hi]].
      + pose proof (lookup_lt_Some _ _ _ Hi). rewrite take_app_le by lia. by apply Hd.
      + apply list_lookup_singleton_Some in Hi as [Hi <-].
        replace i with (length done) by lia. by rewrite take_app_length.
    - intros H. specialize (H (length done) r). rewrite take_app_length in H. apply H.
      by rewrite list_lookup_middle. }
  induction rs as [|r rs IH]; intros done st T Hd; cbn [map check_routes]; [by rewrite app_nil_r|].
  pose proof (check_route_spec (length done) r done st T) as H.
  destruct (check_route (length done) (normal_route r) st) as [st'|[e|e]]; [| |done].
  - destruct H as [Hf T']. specialize (IH (done ++ [r]) st' T' (proj1 (Hsnoc done r Hd) Hf)).
    rewrite length_app in IH. cbn [length] in IH. replace (length done + 1)%nat with (S (length done)) in IH by lia.
    destruct (check_routes _ _ _) as [st''|[e|e]]; [by rewrite <- app_assoc in IH| |done].
    destruct IH as (i & He & Hi & H1 & H2). exists (S i). rewrite <- !app_assoc in H1, H2. cbn [app] in H1, H2.
    split_and!; [rewrite He; f_equal; lia|cbn [length]; lia|done|done].
  - destruct H as [He Hf]. exists 0%nat. cbn [take]. rewrite app_nil_r.
    split_and!; [rewrite He; f_equal; lia|cbn [length]; lia|done|]. by rewrite <- Hsnoc.
Qed.

(** C23. Validation of a custom channel accepts exactly the lists of routes in which every
    route is well formed, and a route is preceded on its own path by no catch-all and
    by no route with one of its models; a complaint about a route names the first
    route that does not fit after those before it.  On configurations of the
    declared type validation never throws. *)
Theorem custom_config_valid (c : custom_config) :
  exists answer, validateAdvancedCustomConfig (of_config c) = Ok answer /\
  match answer with
  | None => routes_of c <> [] /\ routes_ok (routes_of c)
  | Some (ValidationError None _) => routes_of c = []
  | Some (ValidationError (Some i) _) =>
      (i < length (routes_of c))%nat /\
      routes_ok (take i (routes_of c)) /\ ~ routes_ok (take (S i) (routes_of c))
  end.
Proof.
  unfold validateAdvancedCustomConfig. change (value_truthy (of_config c)) with true. cbn [negb].
  rewrite normalized_config. destruct (routes_of c) as [|r rs]; [by eexists|].
  assert (T : tracks [] (ValidationState [] None None)).
  { constructor; [constructor|..]; intros; (split; [by intros [? ?]|]); by intros (? & H%not_elem_of_nil & _). }
  pose proof (check_routes_spec (r :: rs) [] _ T) as H. cbn [length app Nat.add] in H.
  change (map normal_route (r :: rs)) with (normal_route r :: map normal_route rs) in H |- *.
  destruct (check_routes 0 _ _) as [st|[[i msg]|e]]; [| |by destruct H].
  - exists None. split; [done|]. split; [done|]. by apply H.
  - eexists. split; [done|]. destruct H as (k & Hi & Hk & H1 & H2); [done|]. cbn [ve_routeIndex] in Hi.
    by subst i.
Qed.
End Valid.

(** * The text form *)

Definition units (s : jsstr) : Prop := Forall code_unit s.
Definition text_units (t : option jsstr) : Prop := match t with Some s => units s | None => True end.

(** Texts are texts, and an authentication says its type. *)
Record route_printable (r : route_config) : Prop := {
  rp_incoming : text_units (rc_incoming_path r);
  rp_upstream : text_units (rc_upstream_path r);
  rp_converter : text_units (rc_converter r);
  rp_models : match rc_models r with Some l => Forall units l | None => True end;
  rp_auth : match rc_auth r with
            | Some a => is_Some (ac_type a) /\ text_units (ac_type a) /\ text_units (ac_name a) /\ text_units (ac_value a)
            | None => True
            end;
}.


Lemma text_of_units t : text_units t -> units (text_of t).
Proof. destruct t; [done|]. intros _. constructor. Qed.

Lemma trim_units s : units s -> units (trim s).
Proof.
  intros H. destruct (trim_split s) as (a & b & E & _). unfold units in *. rewrite E in H.
  apply list.Forall_app in H as [_ H]. by apply list.Forall_app in H as [H _].
Qed.

Ltac key_units := cbn [fst snd]; unfold code_unit; repeat constructor; lia.

Lemma printable_auth a : is_Some (ac_type a) -> text_units (ac_type a) -> text_units (ac_name a) ->
  text_units (ac_value a) -> printable (normal_auth a).
Proof.
  intros [t Ht] H1 H2 H3. unfold normal_auth, obj. rewrite Ht in *. cbn [map fst snd of_text].
  constructor; [apply (bool_decide_unpack _); vm_compute; done|].
  repeat (apply list.Forall_cons; split; [split; [key_units|constructor; try by apply text_of_units]|]); [|constructor].
  done.
Qed.

Lemma printable_route r : route_printable r -> printable (normal_route r).
Proof.
  intros H. unfold normal_route, obj. constructor.
  - destruct (models r), (rc_auth r); apply (bool_decide_unpack _); vm_compute; done.
  - rewrite !map_app, !list.Forall_app. split_and!.
    + repeat (apply list.Forall_cons; split; [split; [key_units|constructor]|]); [..|constructor].
      * apply text_of_units, (rp_incoming _ H).
      * apply trim_units, text_of_units, (rp_upstream _ H).
      * unfold converter. pose proof (text_of_units _ (rp_converter _ H)) as Hc.
        destruct (text_of (rc_converter r)); [|done]. unfold code_unit. cbn. repeat constructor; lia.
    + assert (Hm : Forall units (models r)).
      { apply Forall_elem. intros m Hm. unfold models in Hm. apply list_elem_of_In, filter_In in Hm as [Hm _].
        apply in_map_iff in Hm as (x & <- & Hx). apply trim_units. pose proof (rp_models _ H) as HH.
        destruct (rc_models r) as [l|]; [|done]. rewrite Forall_elem in HH. apply HH. by apply list_elem_of_In. }
      destruct (models r) as [|m l]; [constructor|]. constructor; [|constructor]. split; [key_units|].
      constructor. apply Forall_elem. intros v Hv. apply list_elem_of_fmap in Hv as (x & -> & Hx).
      constructor. rewrite Forall_elem in Hm. by apply Hm.
    + pose proof (rp_auth _ H) as HH. destruct (rc_auth r) as [a|]; [|constructor]. constructor; [|constructor].
      split; [key_units|]. destruct HH as (? & ? & ? & ?). by apply printable_auth.
Qed.

(** The text of a custom channel is read back: parsing what [stringify] printed for a
    configuration gives the normalized configuration. *)
Theorem custom_config_roundtrip (c : custom_config) :
  Forall route_printable (routes_of c) ->
  exists text normalized,
    stringifyAdvancedCustomConfig (of_config c) = Ok (Some text) /\
    normalizeAdvancedCustomConfig (of_config c) = Ok normalized /\
    parseAdvancedCustomConfig (Some text) = Some normalized.
Proof.
  intros H. unfold stringifyAdvancedCustomConfig, normalizeAdvancedCustomConfig. rewrite normalized_config.
  set (routes := map normal_route (routes_of c)).
  assert (Hp : printable (config_of_routes routes)).
  { unfold config_of_routes, obj. cbn [map fst snd]. constructor; [apply NoDup_singleton|].
    constructor; [|constructor]. split; [key_units|]. constructor. apply Forall_elem. intros v Hv.
    apply list_elem_of_fmap in Hv as (r & -> & Hr). apply printable_route. rewrite Forall_elem in H. by apply H. }
  destruct (stringify_parse _ Hp) as (text & Ht & Hparse). exists text, (config_of_routes routes).
  rewrite Ht. split; [done|]. split; [done|]. unfold parseAdvancedCustomConfig. rewrite Hparse.
  assert (Htr : truthy (trim text) = true).
  { unfold JSON_stringify, config_of_routes, obj in Ht. cbn [map fst snd json_text member_texts] in Ht.
    cbn -[json_text] in Ht. injection Ht as <-. apply (trim_nonempty _ 0 123); done. }
  rewrite Htr. cbn [negb]. change (config_of_routes routes) with (JObj [(js "advanced_routes", JArr routes)]) at 1.
  cbv iota. change (JObj [(js "advanced_routes", JArr routes)]) with (config_of_routes routes).
  unfold normalizeAdvancedCustomConfig, normalized_routes. rewrite config_routes_read.
  unfold routes. by rewrite (map_result_map _ _ normal_route) by apply normal_route_stable.
Qed.

(** * Editing *)

(** A value that normalizes to the normalized route. *)
Definition shows (v : jsvalue) (r : route_config) : Prop := normalizeAdvancedCustomRoute v = Ok (normal_route r).

Lemma shows_routes vs rs : Forall2 shows vs rs -> normalized_routes (config_of_routes vs) = Ok (map normal_route rs).
Proof.
  unfold normalized_routes. rewrite config_routes_read. induction 1 as [|v r vs rs H _ IH]; [done|].
  cbn [map_result map]. unfold shows in H. rewrite H. by rewrite IH.
Qed.

Lemma shows_normal rs : Forall2 shows (map normal_route rs) rs.
Proof. induction rs as [|r rs IH]; constructor; [apply normal_route_stable|done]. Qed.
Lemma shows_typed rs : Forall2 shows (map of_route rs) rs.
Proof. induction rs as [|r rs IH]; constructor; [apply normalize_route|done]. Qed.

Definition on_path (p : jsstr) (r : route_config) : bool := str_eqb (path r) p.
Definition managed (r : route_config) : bool := isAdvancedCustomManagementPath (path r).

Lemma find_index_routes (test : jsvalue -> result property_error bool) (b : route_config -> bool) rs :
  (forall r, test (normal_route r) = Ok (b r)) ->
  find_index_result test (map normal_route rs) = Ok (find_index b rs).
Proof.
  intros H. induction rs as [|r rs IH]; [done|]. cbn [map find_index_result find_index]. rewrite H.
  destruct (b r); [done|]. by rewrite IH.
Qed.

Lemma filter_routes (test : jsvalue -> result property_error bool) (b : route_config -> bool) rs :
  (forall r, test (normal_route r) = Ok (b r)) ->
  filter_result test (map normal_route rs) = Ok (map normal_route (List.filter b rs)).
Proof.
  intros H. induction rs as [|r rs IH]; [done|]. cbn [map filter_result List.filter]. rewrite H, IH. by destruct (b r).
Qed.

Lemma has_path_normal p r : has_path p (normal_route r) = Ok (on_path p r).
Proof. unfold has_path. by rewrite normal_path. Qed.
Lemma has_management_normal r : has_management_path (normal_route r) = Ok (managed r).
Proof. unfold has_management_path. by rewrite normal_path_text. Qed.

(** The route of a path that [getAdvancedCustomManagementRoute] finds. *)
Definition route_at (p : jsstr) (rs : list route_config) : option jsvalue :=
  normal_route <$> find (on_path p) rs.

Lemma find_by_index {A} (b : A -> bool) l :
  match find_index b l with Some i => l !! i | None => None end = find b l.
Proof.
  induction l as [|x l IH]; [done|]. cbn [find_index find]. destruct (b x); [done|].
  rewrite <- IH. by destruct (find_index b l).
Qed.

Lemma get_route v rs p : normalized_routes v = Ok (map normal_route rs) ->
  getAdvancedCustomManagementRoute v p = Ok (route_at p rs).
Proof.
  intros H. unfold getAdvancedCustomManagementRoute. rewrite H.
  rewrite (find_index_routes _ (on_path p)) by apply has_path_normal. unfold route_at. rewrite <- find_by_index.
  destruct (find_index (on_path p) rs); [|done]. by rewrite list_lookup_fmap.
Qed.

(** The route that the editor of a management path stores. *)
Definition managed_route (p : jsstr) (r : route_config) : route_config :=
  RouteConfig (Some p) (Some (text_of (rc_upstream_path r))) (Some (js "none")) (Some []) (rc_auth r).

Lemma management_route_typed p r : management_route p (of_route r) = Ok (of_route (managed_route p r)).
Proof.
  unfold management_route. destruct (route_props r) as (_ & -> & _ & _ & ->). by rewrite or_empty_text.
Qed.

Lemma find_insert {A} (b : A -> bool) i (x y : A) l : l !! i = Some x -> b x = false -> b y = false ->
  find b (<[i := y]> l) = find b l.
Proof.
  revert i. induction l as [|z l IH]; intros [|i] Hi Hx Hy; try done; cbn [find] in *.
  - injection Hi as ->. cbn. by rewrite Hx, Hy.
  - cbn. destruct (b z); [done|]. by apply IH.
Qed.

Lemma find_insert_first {A} (b : A -> bool) i (y : A) l : find_index b l = Some i -> b y = true ->
  find b (<[i := y]> l) = Some y.
Proof.
  revert i. induction l as [|z l IH]; intros i Hi Hy; [done|]. cbn [find_index] in Hi.
  destruct (b z) eqn:E; [injection Hi as <-; cbn; by rewrite Hy|].
  destruct (find_index b l) as [k|]; [|done]. injection Hi as <-. cbn. rewrite E. by apply IH.
Qed.

Lemma find_app {A} (b : A -> bool) l l' : find b (l ++ l') = match find b l with Some x => Some x | None => find b l' end.
Proof. induction l as [|x l IH]; [done|]. cbn. destruct (b x); [done|apply IH]. Qed.

Lemma on_path_other p q r : on_path p r = true -> q <> p -> on_path q r = false.
Proof.
  unfold on_path. intros H Hq. apply str_eqb_eq in H as ->. destruct (str_eqb_reflect p q); congruence.
Qed.

(** Storing a management route. *)
Lemma replace_route c p r : trim p = p ->
  exists config, replaceAdvancedCustomManagementRoute (of_config c) p (Some (of_route r)) = Ok config /\
  forall q, getAdvancedCustomManagementRoute config q
            = Ok (if str_eqb q p then Some (normal_route (managed_route p r)) else route_at q (routes_of c)).
Proof.
  intros Hp. unfold replaceAdvancedCustomManagementRoute. rewrite normalized_config.
  rewrite (find_index_routes _ (on_path p)) by apply has_path_normal. rewrite management_route_typed.
  set (rs := routes_of c). set (new := managed_route p r).
  assert (Hnew : on_path p new = true) by (change (str_eqb (trim p) p = true); by rewrite Hp, str_eqb_refl).
  eexists. split; [reflexivity|]. intros q.
  set (rs' := match find_index (on_path p) rs with Some i => <[i := new]> rs | None => rs ++ [new] end).
  rewrite (get_route _ rs').
  - f_equal. unfold route_at, rs'. destruct (find_index (on_path p) rs) as [i|] eqn:Ei.
    + destruct (find_index_Some _ _ _ Ei) as (x & Hx & Hbx). destruct (str_eqb_reflect q p) as [->|Hq].
      * by rewrite (find_insert_first _ _ _ _ Ei).
      * by rewrite (find_insert (on_path q) i x) by (try done; by apply (on_path_other p)).
    + rewrite find_app. destruct (str_eqb_reflect q p) as [->|Hq].
      * assert (E : find (on_path p) rs = None) by (rewrite <- find_by_index; by rewrite Ei).
        rewrite E. cbn [find]. by rewrite Hnew.
      * cbn [find]. rewrite (on_path_other p q new Hnew Hq). by destruct (find (on_path q) rs).
  - apply shows_routes. unfold rs'. destruct (find_index (on_path p) rs) as [i|].
    + apply Forall2_insert; [apply shows_normal|apply normalize_route].
    + apply Forall2_app; [apply shows_normal|]. constructor; [apply normalize_route|constructor].
Qed.

Lemma find_filter {A} (b b' : A -> bool) l : (forall x, b x = true -> b' x = true) ->
  find b (List.filter b' l) = find b l.
Proof.
  intros H. induction l as [|x l IH]; [done|]. cbn. destruct (b' x) eqn:E'.
  - cbn. by destruct (b x).
  - destruct (b x) eqn:E; [|done]. apply H in E. congruence.
Qed.

Lemma find_none_filter {A} (b : A -> bool) l : List.filter b l = [] -> find b l = None.
Proof. induction l as [|x l IH]; [done|]. cbn. destruct (b x); [done|apply IH]. Qed.

Lemma first_split {A} (b : A -> bool) l i : find_index b l = Some i ->
  exists x, l = take i l ++ x :: drop (S i) l /\ b x = true /\ List.filter b (take i l) = [].
Proof.
  revert i. induction l as [|y l IH]; intros i Hi; [done|]. cbn [find_index] in Hi. destruct (b y) eqn:E.
  - injection Hi as <-. by exists y.
  - destruct (find_index b l) as [k|]; [|done]. injection Hi as <-. destruct (IH k eq_refl) as (x & H1 & H2 & H3).
    exists x. cbn. rewrite E. split_and!; [by f_equal|done|done].
Qed.

(** Removing a management route. *)
Lemma remove_route c p :
  exists config, replaceAdvancedCustomManagementRoute (of_config c) p None = Ok config /\
  (forall q, q <> p -> getAdvancedCustomManagementRoute config q = Ok (route_at q (routes_of c))) /\
  ((length (List.filter (on_path p) (routes_of c)) <= 1)%nat ->
   getAdvancedCustomManagementRoute config p = Ok None).
Proof.
  unfold replaceAdvancedCustomManagementRoute. rewrite normalized_config.
  rewrite (find_index_routes _ (on_path p)) by apply has_path_normal.
  set (rs := routes_of c). eexists. split; [reflexivity|].
  set (rs' := match find_index (on_path p) rs with Some i => take i rs ++ drop (S i) rs | None => rs end).
  assert (Hget : forall q, getAdvancedCustomManagementRoute
      (config_of_routes match find_index (on_path p) rs with
        | Some i => take i (map normal_route rs) ++ drop (S i) (map normal_route rs)
        | None => map normal_route rs end) q = Ok (route_at q rs')).
  { intros q. apply get_route, shows_routes. unfold rs'. destruct (find_index (on_path p) rs) as [i|]; [|apply shows_normal].
    apply Forall2_app; [apply Forall2_take, shows_normal|apply Forall2_drop, shows_normal]. }
  unfold rs' in Hget. destruct (find_index (on_path p) rs) as [i|] eqn:Ei.
  - destruct (first_split _ _ _ Ei) as (x & Hs & Hx & Hf). split.
    + intros q Hq. rewrite Hget. unfold route_at. do 2 f_equal. rewrite Hs at 3. rewrite !find_app. cbn [find].
      by rewrite (on_path_other p q x Hx Hq).
    + intros Hl. rewrite Hget. unfold route_at. rewrite Hs, filter_app, Hf in Hl. cbn [List.filter app] in Hl.
      rewrite Hx in Hl. cbn [length] in Hl. rewrite find_app, (find_none_filter _ _ Hf).
      rewrite find_none_filter; [done|]. by destruct (List.filter (on_path p) (drop (S i) rs)); [|cbn in Hl; lia].
  - split; [intros q _; apply Hget|]. intros _. rewrite Hget. unfold route_at.
    assert (E : find (on_path p) rs = None) by (rewrite <- find_by_index; by rewrite Ei). by rewrite E.
Qed.

(** Storing forwarding routes. *)
Lemma forwarding_routes c fs : Forall (fun r => managed r = false) fs ->
  exists config rs', replaceAdvancedCustomForwardingRoutes (of_config c) (map of_route fs) = Ok config /\
  normalized_routes config = Ok (map normal_route rs') /\
  List.filter managed rs' = List.filter managed (routes_of c) /\
  List.filter (fun r => negb (managed r)) rs' = fs.
Proof.
  intros Hfs. unfold replaceAdvancedCustomForwardingRoutes. rewrite normalized_config.
  set (rs := routes_of c).
  rewrite (find_index_routes _ (fun r => negb (managed r))) by (intros r; by rewrite has_management_normal).
  rewrite (filter_routes _ managed) by apply has_management_normal.
  assert (F1 : List.filter managed fs = []).
  { induction Hfs as [|r fs H _ IH]; [done|]. cbn. by rewrite H. }
  assert (F2 : List.filter (fun r => negb (managed r)) fs = fs).
  { clear F1. induction Hfs as [|r fs H _ IH]; [done|]. cbn. rewrite H. cbn. by rewrite IH. }
  assert (F3 : forall l, List.filter managed (List.filter managed l) = List.filter managed l /\
                         List.filter (fun r => negb (managed r)) (List.filter managed l) = []).
  { intros l. induction l as [|r l [IH1 IH2]]; [done|]. cbn. destruct (managed r) eqn:E; [|done]. cbn. by rewrite E, IH1, IH2. }
  destruct (find_index _ rs) as [i|].
  - rewrite <- fmap_take, <- fmap_drop.
    change (fmap normal_route) with (map normal_route).
    rewrite !(filter_routes _ managed) by apply has_management_normal.
    eexists _, (List.filter managed (take i rs) ++ fs ++ List.filter managed (drop i rs)).
    split; [reflexivity|]. split_and!.
    + apply shows_routes. repeat apply Forall2_app; try apply shows_normal. apply shows_typed.
    + rewrite !filter_app, F1. cbn [app]. rewrite !(proj1 (F3 _)), <- filter_app. by rewrite take_drop.
    + rewrite !filter_app, F2. rewrite !(proj2 (F3 _)). by rewrite app_nil_r.
  - eexists _, (List.filter managed rs ++ fs). split; [reflexivity|]. split_and!.
    + apply shows_routes, Forall2_app; [apply shows_normal|apply shows_typed].
    + by rewrite filter_app, F1, app_nil_r, (proj1 (F3 _)).
    + by rewrite filter_app, F2, (proj2 (F3 _)).
Qed.

(** Editing one part of a custom channel keeps the others: a stored management route
    is found again on its path, a removed one is gone when it was the only one, and
    both leave the routes of other paths as they were; new forwarding routes replace
    the forwarding routes and leave the management routes. *)
Theorem custom_editing (c : custom_config) p r fs :
  trim p = p -> Forall (fun f => managed f = false) fs ->
  exists stored removed forwarded rs,
    replaceAdvancedCustomManagementRoute (of_config c) p (Some (of_route r)) = Ok stored /\
    replaceAdvancedCustomManagementRoute (of_config c) p None = Ok removed /\
    replaceAdvancedCustomForwardingRoutes (of_config c) (map of_route fs) = Ok forwarded /\
    getAdvancedCustomManagementRoute stored p = Ok (Some (normal_route (managed_route p r))) /\
    (forall q, q <> p -> getAdvancedCustomManagementRoute stored q = getAdvancedCustomManagementRoute (of_config c) q /\
                         getAdvancedCustomManagementRoute removed q = getAdvancedCustomManagementRoute (of_config c) q) /\
    ((length (List.filter (on_path p) (routes_of c)) <= 1)%nat ->
     getAdvancedCustomManagementRoute removed p = Ok None) /\
    (forall q, isAdvancedCustomManagementPath q = true ->
       getAdvancedCustomManagementRoute forwarded q = getAdvancedCustomManagementRoute (of_config c) q) /\
    normalized_routes forwarded = Ok (map normal_route rs) /\ List.filter (fun f => negb (managed f)) rs = fs.
Proof.
  intros Hp Hfs. destruct (replace_route c p r Hp) as (stored & E1 & H1).
  destruct (remove_route c p) as (removed & E2 & H2 & H3).
  destruct (forwarding_routes c fs Hfs) as (forwarded & rs & E3 & H4 & H5 & H6).
  exists stored, removed, forwarded, rs. split_and!; try done.
  - rewrite H1. by rewrite str_eqb_refl.
  - intros q Hq. rewrite H1, H2 by done. rewrite (get_route (of_config c) (routes_of c)) by apply normalized_config.
    by destruct (str_eqb_reflect q p).
  - intros q Hq. rewrite (get_route _ _ _ H4), (get_route (of_config c) (routes_of c)) by apply normalized_config.
    unfold route_at. do 2 f_equal.
    assert (Hm : forall x, on_path q x = true -> managed x = true).
    { unfold on_path, managed. intros x Hx. by apply str_eqb_eq in Hx as ->. }
    rewrite <- (find_filter _ managed rs Hm), H5. by apply find_filter.
Qed.

(** Every template, and every route with the defaults of a converter on a path that is
    offered for it, is valid. *)
Definition accepted {U : UrlParser} (config : jsvalue) : bool :=
  match validateAdvancedCustomConfig config with Ok None => true | _ => false end.
Definition default_route (converter path : string) : jsvalue :=
  let defaults := getAdvancedCustomConverterDefaults (js converter) (js path) in
  obj [("incoming_path", str path); ("upstream_path", JStr defaults.1); ("converter", str converter);
       ("auth", defaults.2)]%string.

Lemma templates_and_defaults_valid {U : UrlParser} :
  forallb (fun o => accepted (to_config o)) ADVANCED_CUSTOM_TEMPLATE_OPTIONS = true /\
  forallb (fun o => forallb (fun p => accepted (config_of_routes [default_route (co_value o) p.1]))
                      (getAdvancedCustomIncomingPathOptions (js (co_value o)))) ADVANCED_CUSTOM_CONVERTER_OPTIONS = true.
Proof. split; vm_compute; reflexivity. Qed.

(** C. A configuration whose incoming path is not a string passes the parser, and then
    validation and the summary of the form throw. *)
Theorem untyped_path_throws {U : UrlParser} :
  let text := quotes "{'advanced_routes': [{'incoming_path': 1, 'upstream_path': '/v1'}]}" in
  exists config, parseAdvancedCustomConfig (Some text) = Some config /\
    validateAdvancedCustomConfig config = Err TypeError /\
    getAdvancedCustomStats (Some text) = Err TypeError.
Proof. eexists. split; [vm_compute; reflexivity|]. split; vm_compute; reflexivity. Qed.

(** * Examples *)

Definition sample_route : route_config :=
  RouteConfig (Some (js " /v1/responses ")) (Some (js "/v1/chat/completions"))
    (Some (js "openai_responses_to_openai_chat_completions")) (Some [js "gpt-4 "; js ""; js "re:^o"])
    (Some (AuthConfig (Some (js "header")) (Some (js "Authorization")) (Some (js "Bearer {api_key}")))).
Definition sample_management : route_config :=
  RouteConfig (Some (js "/v1/models")) (Some (js "/models")) None None None.
Definition sample_config : custom_config := CustomConfig (Some [sample_route; sample_management]).

Lemma sample_printable : Forall route_printable (routes_of sample_config).
Proof.
  repeat constructor; cbn; unfold units, text_units, code_unit; try done; repeat constructor; eauto; cbn; lia.
Qed.

Lemma custom_config_roundtrip_witness :
  exists text normalized,
    stringifyAdvancedCustomConfig (of_config sample_config) = Ok (Some text) /\
    normalizeAdvancedCustomConfig (of_config sample_config) = Ok normalized /\
    parseAdvancedCustomConfig (Some text) = Some normalized.
Proof. exact (custom_config_roundtrip sample_config sample_printable). Defined.

Lemma custom_editing_witness :
  exists stored removed forwarded rs,
    replaceAdvancedCustomManagementRoute (of_config sample_config) (js "/v1/models") (Some (of_route sample_management))
      = Ok stored /\
    replaceAdvancedCustomManagementRoute (of_config sample_config) (js "/v1/models") None = Ok removed /\
    replaceAdvancedCustomForwardingRoutes (of_config sample_config) (map of_route [sample_route]) = Ok forwarded /\
    getAdvancedCustomManagementRoute stored (js "/v1/models")
      = Ok (Some (normal_route (managed_route (js "/v1/models") sample_management))) /\
    getAdvancedCustomManagementRoute removed (js "/v1/models") = Ok None /\
    normalized_routes forwarded = Ok (map normal_route rs).
Proof.
  destruct (custom_editing sample_config (js "/v1/models") sample_management [sample_route])
    as (stored & removed & forwarded & rs & H1 & H2 & H3 & H4 & _ & H5 & _ & H6 & _).
  - reflexivity.
  - repeat constructor.
  - exists stored, removed, forwarded, rs. split_and!; try assumption. apply H5. vm_compute. lia.
Defined.

Example sample_valid : validateAdvancedCustomConfig (U := no_urls) (of_config sample_config) = Ok None.
Proof. vm_compute. reflexivity. Qed.
