(* ===== verification/ModelMapping.v ===== *)
(** [features/channels/lib/model-mapping-validation.ts]: the list of models of a channel
    as a text, and the JSON object that maps names of models to upstream names.

    The order of the keys of an object is that of its text; names of models are not array
    indices, which JavaScript would put first. *)
From Stdlib Require Import ZArith Lia Bool String.
From stdpp Require Import base list option.
From S2P Require Import Prelude JsString JsNumber JsValue Collections Structure Json.

#[local] Open Scope Z_scope.

Definition COMMA : Z := 44.

Definition parseModelsString (modelsStr : jsstr) : list jsstr :=
  match modelsStr with
  | [] => []
  | _ => List.filter truthy (map trim (split_char COMMA modelsStr))
  end.

Definition formatModelsArray (models : list jsstr) : jsstr := join [COMMA] (distinct models).

Definition normalizeModelName (model : jsstr) : jsstr := trim model.

(** The entries of a mapping, or nothing when the text is not a JSON object. *)
Definition mapping_entries (text : jsstr) : option (list (jsstr * jsvalue)) :=
  match JSON_parse text with Ok (JObj fields) => Some fields | _ => None end.

Definition extractMappingSourceModels (modelMapping : jsstr) : list jsstr :=
  let trimmed := trim modelMapping in
  match trimmed with
  | [] => []
  | _ =>
      match mapping_entries trimmed with
      | None => []
      | Some fields => distinct (List.filter truthy (map (fun e => trim e.1) fields))
      end
  end.

(** The trimmed values that are strings. *)
Definition text_values (fields : list (jsstr * jsvalue)) : list jsstr :=
  omap (fun e => match e.2 with JStr s => Some (trim s) | _ => None end) fields.

Definition extractRedirectModels (modelMapping : jsstr) : list jsstr :=
  let trimmed := trim modelMapping in
  match trimmed with
  | [] => []
  | _ =>
      match mapping_entries trimmed with
      | None => []
      | Some fields => distinct (List.filter truthy (text_values fields))
      end
  end.

Definition hasModelConfigChanged (currentModels : list jsstr) (currentModelMapping : jsstr)
    (initialModels : list jsstr) (initialModelMapping : jsstr) : bool :=
  if match initialModels with [] => negb (truthy initialModelMapping) | _ => false end then true
  else if negb (length currentModels =? length initialModels)%nat then true
  else if existsb (fun m => negb (str_eqb m.1 m.2)) (zip currentModels initialModels) then true
  else negb (str_eqb (trim currentModelMapping) (trim initialModelMapping)).

Definition findMissingModelsInMapping (modelMapping : jsstr) (currentModels : list jsstr) : list jsstr :=
  if negb (truthy (trim modelMapping)) then []
  else
    match mapping_entries modelMapping with
    | None => []
    | Some fields =>
        let modelSet := map normalizeModelName currentModels in
        distinct (List.filter (fun key => truthy key && negb (bool_decide (key ∈ modelSet)))
                    (map (fun e => normalizeModelName e.1) fields))
    end.

Inductive mapping_check := MappingValid | MappingInvalid (error : string).

Definition validateModelMappingJson (modelMapping : jsstr) : mapping_check :=
  if negb (truthy (trim modelMapping)) then MappingValid
  else
    match JSON_parse modelMapping with
    | Err _ => MappingInvalid "Model mapping must be valid JSON format"
    | Ok (JObj fields) =>
        if existsb (fun e => match e.2 with JStr _ => false | _ => true end) fields
        then MappingInvalid "Model mapping values must be strings"
        else MappingValid
    | Ok _ => MappingInvalid "Model mapping must be a valid JSON object"
    end.

Definition findExposedTargetModels (modelMapping : jsstr) (currentModels : list jsstr) : list jsstr :=
  let redirectModels := extractRedirectModels modelMapping in
  let modelSet := map normalizeModelName currentModels in
  List.filter (fun model => bool_decide (normalizeModelName model ∈ modelSet)) redirectModels.

Record model_categories := ModelCategories {
  mc_current : list jsstr; mc_redirect : list jsstr;
  mc_classification : list jsstr; mc_redirectOnly : list jsstr;
}.

Definition categorizeModelsWithRedirect (currentModels redirectModels : list jsstr) : model_categories :=
  let current := distinct (List.filter truthy (map normalizeModelName currentModels)) in
  let redirect := distinct (List.filter truthy (map normalizeModelName redirectModels)) in
  ModelCategories current redirect (distinct (current ++ redirect))
    (List.filter (fun m => negb (bool_decide (m ∈ current))) redirect).

(** * Facts *)

(** A name that the text of a list of models keeps. *)
Definition model_name (m : jsstr) : Prop := trim m = m /\ m <> [] /\ COMMA ∉ m.

(** C. The text of a list of model names reads back as the list without repetitions. *)
Theorem models_text_roundtrip (ms : list jsstr) :
  Forall model_name ms -> parseModelsString (formatModelsArray ms) = distinct ms.
Proof.
  intros H. assert (Hd : Forall model_name (distinct ms)).
  { rewrite Forall_elem in H |- *. intros m Hm. by apply H, distinct_spec. }
  unfold formatModelsArray. destruct (distinct ms) as [|m l] eqn:E; [done|].
  assert (Hne : join [COMMA] (m :: l) <> []).
  { apply list.Forall_cons in Hd as [(_ & Hm & _) _]. by destruct m; [|destruct l]. }
  unfold parseModelsString. destruct (join [COMMA] (m :: l)) as [|x w] eqn:Ej; [done|]. rewrite <- Ej.
  rewrite split_join; [|done|].
  2: { eapply List.Forall_impl; [|exact Hd]. intros a (_ & _ & Ha). apply Forall_elem. by intros z Hz ->. }
  clear - Hd. induction Hd as [|y l' (Hy & Hn & _) _ IH]; [done|]. cbn [map List.filter]. rewrite Hy.
  destruct y; [done|]. cbn [truthy]. by rewrite IH.
Qed.

Lemma elem_of_filter_map {A B} (b : B -> bool) (f : A -> B) l y :
  y ∈ List.filter b (map f l) <-> b y = true /\ exists x, x ∈ l /\ f x = y.
Proof.
  rewrite list_elem_of_In, filter_In, in_map_iff. split.
  - intros [(x & Hx & Hin) Hb]. split; [done|]. exists x. by rewrite list_elem_of_In.
  - intros [Hb (x & Hin & Hx)]. split; [|done]. exists x. by rewrite <- list_elem_of_In.
Qed.

(** Membership in the lists of the code. *)
Lemma missing_spec text fields models m : mapping_entries text = Some fields -> truthy (trim text) = true ->
  m ∈ findMissingModelsInMapping text models <->
  m <> [] /\ (exists e, e ∈ fields /\ trim e.1 = m) /\ m ∉ map trim models.
Proof.
  intros Hf Ht. unfold findMissingModelsInMapping. rewrite Ht, Hf. cbn [negb].
  rewrite (proj2 (distinct_spec _)), elem_of_filter_map, andb_true_iff, negb_true_iff, bool_decide_eq_false.
  unfold normalizeModelName. destruct m; cbn [truthy]; [split; [by intros [[? _] _]|by intros [? _]]|].
  split; [intros [[_ ?] ?]; split_and!; done|intros (_ & ? & ?); done].
Qed.

Lemma exposed_spec text fields models m : mapping_entries text = Some fields -> trim text = text -> text <> [] ->
  m ∈ findExposedTargetModels text models <->
  m <> [] /\ (exists e s, e ∈ fields /\ e.2 = JStr s /\ trim s = m) /\ m ∈ map trim models.
Proof.
  intros Hf Ht Hne. unfold findExposedTargetModels, extractRedirectModels. rewrite Ht.
  destruct text as [|c t]; [done|]. rewrite Hf. unfold normalizeModelName.
  rewrite list_elem_of_In, filter_In, <- list_elem_of_In, bool_decide_eq_true.
  rewrite (proj2 (distinct_spec _)), list_elem_of_In, filter_In, <- list_elem_of_In.
  unfold text_values. rewrite list_elem_of_omap.
  split.
  - intros (((e & He & E) & Hm) & Hin). destruct (e.2) as [| | | |s| |] eqn:Es; try done. injection E as <-.
    rewrite trim_idem in Hin. split_and!; [by destruct (trim s)|by exists e, s|done].
  - intros (Hm & (e & s & He & Es & <-) & Hin). rewrite trim_idem. split_and!; [|by destruct (trim s)|done].
    exists e. by rewrite Es.
Qed.

Lemma accepted_entries text : truthy (trim text) = true -> validateModelMappingJson text = MappingValid ->
  exists fields, JSON_parse text = Ok (JObj fields) /\ mapping_entries text = Some fields /\
    Forall (fun e => exists s, e.2 = JStr s) fields.
Proof.
  intros Ht. unfold validateModelMappingJson, mapping_entries. rewrite Ht. cbn [negb].
  destruct (JSON_parse text) as [[| | | | | |fields]|]; try done.
  destruct (existsb _ fields) eqn:E; [done|]. intros _. exists fields. split_and!; [done|done|].
  apply Forall_elem. intros e He. destruct (e.2) as [| | | |s| |] eqn:Es; try (by exists s);
    exfalso; apply not_true_iff_false in E; apply E, existsb_exists; exists e; (split; [by apply list_elem_of_In|by rewrite Es]).
Qed.

Lemma empty_of_none {A} (l : list A) : (forall x, x ∉ l) -> l = [].
Proof. destruct l as [|x l]; [done|]. intros H. destruct (H x). by left. Qed.

(** For a mapping that the form accepts, the models reported as missing are exactly
    the names it maps from that are not in the list, and adding them leaves none
    missing; the models reported as exposed are exactly the names it maps to that are
    in the list, and removing them leaves none exposed. *)
Theorem mapping_models_exact text models :
  trim text = text -> text <> [] -> validateModelMappingJson text = MappingValid ->
  let missing := findMissingModelsInMapping text models in
  let exposed := findExposedTargetModels text models in
  exists fields,
    JSON_parse text = Ok (JObj fields) /\ Forall (fun e => exists s, e.2 = JStr s) fields /\
    (forall m, m ∈ missing <-> m <> [] /\ (exists e, e ∈ fields /\ trim e.1 = m) /\ m ∉ map trim models) /\
    findMissingModelsInMapping text (models ++ missing) = [] /\
    (forall m, m ∈ exposed <->
       m <> [] /\ (exists e s, e ∈ fields /\ e.2 = JStr s /\ trim s = m) /\ m ∈ map trim models) /\
    findExposedTargetModels text (List.filter (fun m => negb (bool_decide (trim m ∈ exposed))) models) = [].
Proof.
  intros Ht Hne Hv missing exposed. assert (Htr : truthy (trim text) = true) by (rewrite Ht; by destruct text).
  destruct (accepted_entries text Htr Hv) as (fields & Hp & Hf & Hs). exists fields.
  assert (Hm : forall ms m, m ∈ findMissingModelsInMapping text ms <-> _) by (intros; by apply missing_spec).
  assert (Hx : forall ms m, m ∈ findExposedTargetModels text ms <-> _) by (intros; by apply exposed_spec).
  split_and!; [done|done|apply Hm| |apply Hx|].
  - apply empty_of_none. intros m Hin. apply Hm in Hin as (Hn & He & Hnot). rewrite map_app in Hnot.
    apply not_elem_of_app in Hnot as [Hnot Hmiss]. apply Hmiss. apply list_elem_of_fmap. exists m.
    destruct He as (e & He & E). split; [rewrite <- E; by rewrite trim_idem|]. apply Hm. eauto.
  - apply empty_of_none. intros m Hin. apply Hx in Hin as (Hn & He & Hin). apply list_elem_of_fmap in Hin as (x & -> & Hin).
    apply list_elem_of_In, filter_In in Hin as [Hin Hb]. apply negb_true_iff, bool_decide_eq_false in Hb. apply Hb.
    apply Hx. split_and!; [done|done|]. apply list_elem_of_fmap. exists x. split; [done|by apply list_elem_of_In].
Qed.

(** * Witnesses *)

Lemma models_text_roundtrip_witness :
  parseModelsString (formatModelsArray [js "gpt-4"; js "o1"; js "gpt-4"]) = distinct [js "gpt-4"; js "o1"; js "gpt-4"].
Proof.
  apply (models_text_roundtrip [js "gpt-4"; js "o1"; js "gpt-4"]).
  repeat constructor; try done; vm_compute; intros H; repeat (apply elem_of_cons in H as [?|H]; [done|]);
    by apply not_elem_of_nil in H.
Defined.

Definition sample_mapping : jsstr := quotes "{'gpt-4': 'gpt-4-0613', 'o1 ': 'o3'}".

Lemma mapping_models_exact_witness :
  findMissingModelsInMapping sample_mapping [js "gpt-4"; js "o3"] = [js "o1"] /\
  findExposedTargetModels sample_mapping [js "gpt-4"; js "o3"] = [js "o3"] /\
  exists fields, JSON_parse sample_mapping = Ok (JObj fields).
Proof.
  split; [vm_compute; reflexivity|]. split; [vm_compute; reflexivity|].
  destruct (mapping_models_exact sample_mapping [js "gpt-4"; js "o3"]) as (fields & H & _);
    [vm_compute; reflexivity|done|vm_compute; reflexivity|]. exists fields. exact H.
Defined.
