(* ===== verification/ChatMessage.v ===== *)
(** The messages of the playground ([features/playground/lib/message]): versions,
    reasoning between think tags, chunks of a stream, timing, and what is done to the
    list of messages.  Times ([Date.now()]), random identifiers ([nanoid()]) and
    translated texts are arguments. *)
From Stdlib Require Import ZArith Lia Bool String SpecFloat.
From stdpp Require Import base list option.
From S2P Require Import Prelude JsString JsNumber JsValue.

#[local] Open Scope Z_scope.

(** * Data *)

Inductive message_role := MUser | MAssistant | MSystem.
Inductive message_status := MLoading | MStreaming | MComplete | MError.

#[export] Instance message_role_eq_dec : EqDecision message_role.
Proof. solve_decision. Defined.
#[export] Instance message_status_eq_dec : EqDecision message_status.
Proof. solve_decision. Defined.

Record message_version := MessageVersion {
  mv_id : jsstr; mv_content : jsstr; mv_images : option (list jsstr);
}.

Record message_reasoning := MessageReasoning {
  rs_content : jsstr; rs_duration : number;
  rs_startedAt : option number; rs_completedAt : option number; rs_durationMs : option number;
}.

Record message := Message {
  m_key : jsstr; m_from : message_role; m_versions : list message_version;
  m_createdAt : option number; m_startedAt : option number; m_completedAt : option number;
  m_durationMs : option number;
  m_sources : option (list (jsstr * jsstr));
  m_reasoning : option message_reasoning;
  m_isReasoningStreaming : option bool; m_isReasoningComplete : option bool; m_isContentComplete : option bool;
  m_status : option message_status;
  m_errorCode : option (option jsstr);
}.

(** [{ ...message, field: value }]. *)
Definition with_versions (v : list message_version) (m : message) : message :=
  Message (m_key m) (m_from m) v (m_createdAt m) (m_startedAt m) (m_completedAt m) (m_durationMs m)
    (m_sources m) (m_reasoning m) (m_isReasoningStreaming m) (m_isReasoningComplete m) (m_isContentComplete m)
    (m_status m) (m_errorCode m).
Definition with_createdAt (t : option number) (m : message) : message :=
  Message (m_key m) (m_from m) (m_versions m) t (m_startedAt m) (m_completedAt m) (m_durationMs m)
    (m_sources m) (m_reasoning m) (m_isReasoningStreaming m) (m_isReasoningComplete m) (m_isContentComplete m)
    (m_status m) (m_errorCode m).
Definition with_times (started completed duration : option number) (m : message) : message :=
  Message (m_key m) (m_from m) (m_versions m) (m_createdAt m) started completed duration
    (m_sources m) (m_reasoning m) (m_isReasoningStreaming m) (m_isReasoningComplete m) (m_isContentComplete m)
    (m_status m) (m_errorCode m).
Definition with_reasoning (r : option message_reasoning) (m : message) : message :=
  Message (m_key m) (m_from m) (m_versions m) (m_createdAt m) (m_startedAt m) (m_completedAt m) (m_durationMs m)
    (m_sources m) r (m_isReasoningStreaming m) (m_isReasoningComplete m) (m_isContentComplete m)
    (m_status m) (m_errorCode m).
Definition with_reasoning_streaming (b : bool) (m : message) : message :=
  Message (m_key m) (m_from m) (m_versions m) (m_createdAt m) (m_startedAt m) (m_completedAt m) (m_durationMs m)
    (m_sources m) (m_reasoning m) (Some b) (m_isReasoningComplete m) (m_isContentComplete m)
    (m_status m) (m_errorCode m).
Definition with_status (s : message_status) (m : message) : message :=
  Message (m_key m) (m_from m) (m_versions m) (m_createdAt m) (m_startedAt m) (m_completedAt m) (m_durationMs m)
    (m_sources m) (m_reasoning m) (m_isReasoningStreaming m) (m_isReasoningComplete m) (m_isContentComplete m)
    (Some s) (m_errorCode m).
Definition with_error_code (c : option jsstr) (m : message) : message :=
  Message (m_key m) (m_from m) (m_versions m) (m_createdAt m) (m_startedAt m) (m_completedAt m) (m_durationMs m)
    (m_sources m) (m_reasoning m) (m_isReasoningStreaming m) (m_isReasoningComplete m) (m_isContentComplete m)
    (m_status m) (Some c).

Definition has_status (s : message_status) (m : message) : bool := bool_decide (m_status m = Some s).
Definition from_role (r : message_role) (m : message) : bool := bool_decide (m_from m = r).

(** * [message-utils.ts] *)

Definition createMessageVersion (id content : jsstr) (images : option (list jsstr)) : message_version :=
  MessageVersion id content (match images with Some (_ :: _) => images | _ => None end).

Definition getCurrentVersion (m : message) : message_version :=
  match m_versions m with v :: _ => v | [] => MessageVersion (js "default") [] None end.

Definition getMessageContent (m : message) : jsstr := mv_content (getCurrentVersion m).

Definition hasMessageContent (m : message) : bool :=
  let version := getCurrentVersion m in
  truthy (trim (mv_content version))
  || match mv_images version with Some (_ :: _) => true | _ => false end.

Definition updateCurrentVersionContent (m : message) (content : jsstr) : message :=
  let v := getCurrentVersion m in
  with_versions [MessageVersion (mv_id v) content (mv_images v)] m.

Definition createUserMessage (key id content : jsstr) (createdAt : number) (images : option (list jsstr)) : message :=
  Message key MUser [createMessageVersion id content images] (Some createdAt) None None None None None
    None None None None None.

Definition createLoadingAssistantMessage (key id : jsstr) (startedAt : number) : message :=
  Message key MAssistant [createMessageVersion id [] None] (Some startedAt) (Some startedAt) None None None None
    (Some false) (Some false) (Some false) (Some MLoading) None.

Inductive content_part := TextPart (text : jsstr) | ImagePart (url : jsstr).
Inductive message_content := PlainContent (text : jsstr) | Parts (parts : list content_part).

Definition buildMessageContent (text : jsstr) (imageUrls : list jsstr) : message_content :=
  match List.filter (fun url => truthy (trim url)) imageUrls with
  | [] => PlainContent text
  | validImages => Parts (TextPart text :: map (fun url => ImagePart (trim url)) validImages)
  end.

Definition getTextContent (content : message_content) : jsstr :=
  match content with
  | PlainContent text => text
  | Parts parts =>
      match find (fun p => match p with TextPart _ => true | ImagePart _ => false end) parts with
      | Some (TextPart text) => text
      | _ => []
      end
  end.

Definition formatMessageForAPI (m : message) : message_role * message_content :=
  let v := getCurrentVersion m in
  (m_from m, buildMessageContent (mv_content v) (match mv_images v with Some l => l | None => [] end)).

Definition isValidMessage (m : message) : bool :=
  match m_versions m with
  | [] => false
  | _ => negb (from_role MAssistant m && negb (hasMessageContent m))
  end.

(** * [message-reasoning-utils.ts] *)

(** [text.indexOf(p)]. *)
Fixpoint index_of (p s : jsstr) : option nat :=
  if starts_with p s then Some 0%nat
  else match s with [] => None | _ :: s' => S <$> index_of p s' end.

Definition OPEN_TAG : jsstr := js "<think>".
Definition CLOSE_TAG : jsstr := js "</think>".

Record think_tags := ThinkTags { tt_visibleContent : jsstr; tt_reasoning : jsstr; tt_hasUnclosedTag : bool }.

(** The loop: what is left of the content from the current position, and the parts found so
    far.  Every round consumes both tags, so the length of the content is enough
    fuel: [think_tags_split] describes the answer for every content. *)
Fixpoint think_loop (fuel : nat) (rest : jsstr) (visibleParts reasoningParts : list jsstr)
  : list jsstr * list jsstr * bool :=
  match fuel with
  | O => (visibleParts, reasoningParts, false)
  | S fuel =>
      match index_of OPEN_TAG rest with
      | None =>
          (match rest with [] => visibleParts | _ => visibleParts ++ [rest] end, reasoningParts, false)
      | Some i =>
          let visibleParts := match i with O => visibleParts | _ => visibleParts ++ [take i rest] end in
          let inside := drop (i + 7) rest in
          match index_of CLOSE_TAG inside with
          | None => (visibleParts, reasoningParts ++ [inside], true)
          | Some j => think_loop fuel (drop (j + 8) inside) visibleParts (reasoningParts ++ [take j inside])
          end
      end
  end.

Definition parseThinkTags (content : jsstr) : think_tags :=
  if negb (includes OPEN_TAG content) then ThinkTags content [] false
  else
    let '(visibleParts, reasoningParts, hasUnclosedTag) := think_loop (S (length content)) content [] [] in
    ThinkTags (trim (join [] visibleParts)) (trim (join [LF; LF] reasoningParts)) hasUnclosedTag.

Example think_ex :
  parseThinkTags (js "a <think>r1</think> b<think>r2")
  = ThinkTags (js "a  b") (js "r1" ++ [LF; LF] ++ js "r2") true.
Proof. vm_compute. reflexivity. Qed.

(** * [message-timing-utils.ts] *)

Definition or_else {A} (x : option A) (y : A) : A := match x with Some a => a | None => y end.

Definition completeAssistantTiming (completedAt : number) (m : message) : message :=
  if negb (from_role MAssistant m) then m
  else
    let startedAt := or_else (m_startedAt m) (or_else (m_createdAt m) completedAt) in
    with_times (Some startedAt) (Some completedAt) (Some (num_max num_zero (num_sub completedAt startedAt))) m.

Definition startReasoningTiming (startedAt : number) (m : message) : message_reasoning :=
  match m_reasoning m with
  | Some r => MessageReasoning (rs_content r) (rs_duration r) (Some (or_else (rs_startedAt r) startedAt))
                (rs_completedAt r) (rs_durationMs r)
  | None => MessageReasoning [] num_zero (Some startedAt) None None
  end.

Definition set_reasoning_content (content : jsstr) (r : message_reasoning) : message_reasoning :=
  MessageReasoning content (rs_duration r) (rs_startedAt r) (rs_completedAt r) (rs_durationMs r).

Definition completeReasoningTiming (completedAt : number) (m : message) : message :=
  match m_reasoning m with
  | Some r =>
      match rs_durationMs r with
      | Some _ => m
      | None =>
          let startedAt := or_else (rs_startedAt r) (or_else (m_startedAt m) completedAt) in
          let durationMs := num_max num_zero (num_sub completedAt startedAt) in
          with_reasoning
            (Some (MessageReasoning (rs_content r) (num_ceil (num_div durationMs (num_of_Z 1000)))
                     (Some startedAt) (Some completedAt) (Some durationMs))) m
      end
  | None => m
  end.

(** * [message-streaming-utils.ts] *)

Definition processStreamingContent (now : number) (m : message) (contentChunk : jsstr) : message :=
  let fullContent := mv_content (getCurrentVersion m) ++ contentChunk in
  if match m_reasoning m with None => true | Some _ => false end && negb (includes OPEN_TAG fullContent)
  then with_reasoning_streaming false (updateCurrentVersionContent m fullContent)
  else
    let parsed := parseThinkTags fullContent in
    let finalReasoning :=
      match tt_reasoning parsed with
      | [] => m_reasoning m
      | reasoning => Some (set_reasoning_content reasoning (startReasoningTiming now m))
      end in
    with_reasoning_streaming (tt_hasUnclosedTag parsed)
      (with_reasoning finalReasoning (updateCurrentVersionContent m fullContent)).

Inductive chunk_type := ReasoningChunk | ContentChunk.

Definition getAppendableChunk (currentContent chunk : jsstr) : jsstr :=
  if negb (truthy currentContent) || negb (starts_with currentContent chunk) then chunk
  else drop (length currentContent) chunk.

(** [now] is the clock at the start of the reasoning, [now'] when it is completed. *)
Definition applyStreamingChunk (now now' : number) (m : message) (type : chunk_type) (chunk : jsstr) : message :=
  if has_status MError m then m
  else
    match type with
    | ReasoningChunk =>
        let reasoning := startReasoningTiming now m in
        let appendableChunk := getAppendableChunk (rs_content reasoning) chunk in
        with_status MStreaming
          (with_reasoning_streaming true
             (with_reasoning (Some (set_reasoning_content (rs_content reasoning ++ appendableChunk) reasoning)) m))
    | ContentChunk =>
        let appendableChunk := getAppendableChunk (mv_content (getCurrentVersion m)) chunk in
        let contentMessage := processStreamingContent now m appendableChunk in
        with_status MStreaming
          (match m_isReasoningStreaming contentMessage with
           | Some true => contentMessage
           | _ => completeReasoningTiming now' contentMessage
           end)
    end.

(** [a || b] of texts. *)
Definition first_text (texts : list jsstr) : jsstr :=
  match find truthy texts with Some t => t | None => [] end.

Definition finalizeMessage (now now' : number) (m : message) (apiReasoningContent : option jsstr) : message :=
  let content := mv_content (getCurrentVersion m) in
  let parsedThinkTags := if includes OPEN_TAG content then Some (parseThinkTags content) else None in
  let visibleContent := match parsedThinkTags with Some p => tt_visibleContent p | None => content end in
  let finalReasoning :=
    first_text [or_else apiReasoningContent [];
                match m_reasoning m with Some r => rs_content r | None => [] end;
                match parsedThinkTags with Some p => tt_reasoning p | None => [] end] in
  let finalized :=
    with_reasoning_streaming false
      (with_reasoning (match finalReasoning with
                       | [] => None
                       | _ => Some (set_reasoning_content finalReasoning (startReasoningTiming now m))
                       end) (updateCurrentVersionContent m visibleContent)) in
  completeReasoningTiming now' finalized.

Definition completeAssistantMessage (now now' now'' : number) (m : message) : message :=
  completeAssistantTiming now'' (with_status MComplete (finalizeMessage now now' m None)).

Definition isAssistantMessageFinal (m : message) : bool := has_status MComplete m || has_status MError m.
Definition isAssistantMessagePending (m : message) : bool := has_status MLoading m || has_status MStreaming m.
Definition isPendingAssistantMessage (m : message) : bool := from_role MAssistant m && isAssistantMessagePending m.

(** The choice of a response: its content and its reasoning. *)
Record chat_choice := ChatChoice { ch_content : option jsstr; ch_reasoning_content : option jsstr }.

Definition hasChatCompletionChoice (choices : list chat_choice) : bool :=
  match choices with [] => false | _ => true end.

Definition applyChatCompletionChoice (now now' now'' : number) (m : message) (choice : chat_choice) : message :=
  completeAssistantTiming now''
    (with_status MComplete
       (finalizeMessage now now' (updateCurrentVersionContent m (or_else (ch_content choice) []))
          (ch_reasoning_content choice))).

Definition applyChatCompletionResponse (now now' now'' : number) (m : message) (choices : list chat_choice)
  : option message :=
  match choices with
  | [] => None
  | choice :: _ => Some (applyChatCompletionChoice now now' now'' m choice)
  end.

(** The index of the last message with a property. *)
Fixpoint last_index (p : message -> bool) (l : list message) : option nat :=
  match l with
  | [] => None
  | x :: l' => match last_index p l' with
               | Some i => Some (S i)
               | None => if p x then Some 0%nat else None
               end
  end.

(** [interrupted] is the translated text of an interrupted generation. *)
Definition sanitize_message (now now' now'' : number) (interrupted : jsstr) (m : message) : message :=
  let finalized := finalizeMessage now now' m None in
  let hasReasoning := match m_reasoning finalized with Some r => truthy (trim (rs_content r)) | None => false end in
  if hasMessageContent finalized || hasReasoning
  then completeAssistantTiming now'' (with_reasoning_streaming false (with_status MComplete finalized))
  else completeAssistantTiming now''
         (with_reasoning_streaming false (with_status MError (updateCurrentVersionContent finalized interrupted))).

Definition sanitizeMessagesOnLoad (now now' now'' : number) (interrupted : jsstr) (messages : list message)
  : list message :=
  match last_index isPendingAssistantMessage messages with
  | None => messages
  | Some targetIndex =>
      match messages !! targetIndex with
      | Some m => <[targetIndex := sanitize_message now now' now'' interrupted m]> messages
      | None => messages
      end
  end.

(** * [message-update-utils.ts] *)

Definition updateLastAssistantMessage (messages : list message) (updater : message -> message) : list message :=
  match list.last messages with
  | Some m => if from_role MAssistant m then take (length messages - 1) messages ++ [updater m] else messages
  | None => messages
  end.

Definition updateAssistantMessageWithError (now : number) (messages : list message) (errorMessage : jsstr)
    (errorCode : option jsstr) (title : jsstr) : list message :=
  updateLastAssistantMessage messages (fun m =>
    completeAssistantTiming now
      (with_error_code (match errorCode with Some ((_ :: _) as c) => Some c | _ => None end)
         (with_reasoning_streaming false
            (with_status MError (updateCurrentVersionContent m (title ++ js ": " ++ errorMessage)))))).

(** * [conversation-message-utils.ts] *)

(** The keys and identifiers of the two new messages. *)
Definition appendUserMessagePair (submittedAt : number) (userKey userId key id : jsstr)
    (messages : list message) (content : jsstr) (images : option (list jsstr)) : list message :=
  messages ++ [createUserMessage userKey userId content submittedAt images;
               createLoadingAssistantMessage key id submittedAt].

Definition has_key (k : jsstr) (m : message) : bool := str_eqb (m_key m) k.

Definition createRegeneratedMessages (now : number) (key id : jsstr) (messages : list message) (messageKey : jsstr)
  : option (list message) :=
  match find_index (has_key messageKey) messages with
  | None => None
  | Some i =>
      match messages !! i with
      | Some m =>
          Some (take (if from_role MUser m then S i else i) messages ++ [createLoadingAssistantMessage key id now])
      | None => None
      end
  end.

Definition removeMessageByKey (messages : list message) (messageKey : jsstr) : list message :=
  List.filter (fun m => negb (has_key messageKey m)) messages.

(** [beforeIndex] is at most the number of messages. *)
Definition getPreviousUserMessage (messages : list message) (beforeIndex : nat) : option message :=
  find (from_role MUser) (rev (take beforeIndex messages)).

Definition edit_message (submittedAt : number) (messageKey content : jsstr) (shouldSubmit : bool) (m : message) : message :=
  if has_key messageKey m
  then with_createdAt (if shouldSubmit then Some submittedAt else m_createdAt m) (updateCurrentVersionContent m content)
  else m.

(** The new messages and whether to send them. *)
Definition applyMessageEdit (submittedAt : number) (key id : jsstr) (messages : list message)
    (messageKey content : jsstr) (shouldSubmit : bool) : option (list message * bool) :=
  match find_index (has_key messageKey) messages with
  | None => None
  | Some i =>
      let updatedMessages := map (edit_message submittedAt messageKey content shouldSubmit) messages in
      match updatedMessages !! i with
      | Some m =>
          if negb shouldSubmit || negb (from_role MUser m) then Some (updatedMessages, false)
          else Some (take (S i) updatedMessages ++ [createLoadingAssistantMessage key id submittedAt], true)
      | None => None
      end
  end.

Definition getEditingMessageContent (messages : list message) (editingKey : option jsstr) : jsstr :=
  match editingKey with
  | Some ((_ :: _) as k) => match find (has_key k) messages with Some m => getMessageContent m | None => [] end
  | _ => []
  end.

Record render_state := RenderState { rn_alwaysShowActions : bool; rn_content : jsstr; rn_isEditing : bool }.

Definition getChatMessageRenderState (messages : list message) (m : message) (messageIndex : nat)
    (editingKey : option jsstr) : render_state :=
  RenderState ((S messageIndex =? length messages)%nat && from_role MAssistant m)
    (getMessageContent m) (bool_decide (editingKey = Some (m_key m))).
