(* ===== verification/StreamControl.v ===== *)
(** The controller of streamed chat requests ([createStreamRequestController] of
    [features/playground/hooks/use-stream-request.ts]) and the texts of the events it
    reads ([features/playground/lib/streaming/stream-utils.ts]).

    The controller is a transition system.  Its [await] and its listeners are the points
    at which something else can happen; a callback into the application may itself call
    [send], [stop] or [dispose] before it returns, so a running callback is a frame of
    the state.  A request and its event source carry the generation that made them. *)
From Stdlib Require Import ZArith Lia Bool String SpecFloat.
From stdpp Require Import base list option.
From S2P Require Import Prelude JsString JsNumber JsValue Json ChatMessage.

(** * [stream-utils.ts] *)

Definition STREAM_DONE_MESSAGE : jsstr := js "[DONE]".
Definition STREAM_CLOSED_READY_STATE : Z := 2.
Definition API_REQUEST_ERROR : jsstr := js "Request error occurred".
Definition PARSE_ERROR : jsstr := js "Error parsing response data".
Definition STREAM_START_ERROR : jsstr := js "Error establishing connection".
Definition CONNECTION_CLOSED : jsstr := js "Connection closed".

Record stream_update := StreamUpdate { su_type : chunk_type; su_chunk : jsvalue }.

(** [v?.key]. *)
Definition optional_prop (v : jsvalue) (key : string) : jsvalue :=
  match get_prop v key with Ok x => x | Err _ => JUndefined end.
(** [v?.[0]]: the first element of an array, the first character of a string, the
    property of that name of an object. *)
Definition optional_first (v : jsvalue) : jsvalue :=
  match v with
  | JArr (x :: _) => x
  | JStr (c :: _) => JStr [c]
  | JObj fields => match own fields (js "0") with Some x => x | None => JUndefined end
  | _ => JUndefined
  end.

(** The updates of an event, or the exception of [JSON.parse] and of reading a property
    of [null]. *)
Definition parseStreamMessageUpdates (data : jsstr) : result unit (list stream_update) :=
  match JSON_parse data with
  | Err _ => Err tt
  | Ok chunk =>
      match get_prop chunk "choices" with
      | Err _ => Err tt
      | Ok choices =>
          let delta := optional_prop (optional_first choices) "delta" in
          if negb (value_truthy delta) then Ok []
          else
            let reasoning := optional_prop delta "reasoning_content" in
            let content := optional_prop delta "content" in
            Ok ((if value_truthy reasoning then [StreamUpdate ReasoningChunk reasoning] else [])
                ++ (if value_truthy content then [StreamUpdate ContentChunk content] else []))
      end
  end.

(** The code and the message of an error event. *)
Definition parseStreamErrorDetails (data : option jsstr) : jsvalue * jsvalue :=
  match data with
  | None | Some [] => (JUndefined, JStr API_REQUEST_ERROR)
  | Some text =>
      match JSON_parse text with
      | Err _ => (JUndefined, JStr text)
      | Ok parsed =>
          let error := optional_prop parsed "error" in
          if negb (value_truthy error) then (JUndefined, JStr text)
          else (or_value (optional_prop error "code") JUndefined,
                or_value (optional_prop error "message") (JStr text))
      end
  end.

Definition isStreamDoneMessage (data : jsstr) : bool := str_eqb data STREAM_DONE_MESSAGE.
Definition isStreamClosedReadyState (readyState : option Z) : bool :=
  match readyState with Some z => (z =? STREAM_CLOSED_READY_STATE)%Z | None => false end.
Definition getStreamReadyStateError (eventReadyState status : option Z) : option jsstr :=
  match eventReadyState, status with
  | Some state, Some status =>
      if (STREAM_CLOSED_READY_STATE <=? state)%Z && negb (status =? 200)%Z
      then Some (js "HTTP " ++ string_of_Z status ++ js ": " ++ CONNECTION_CLOSED)
      else None
  | _, _ => None
  end.

Example updates_ex :
  parseStreamMessageUpdates (quotes "{'choices': [{'delta': {'content': 'hi', 'reasoning_content': 'why'}}]}")
  = Ok [StreamUpdate ReasoningChunk (JStr (js "why")); StreamUpdate ContentChunk (JStr (js "hi"))].
Proof. vm_compute. reflexivity. Qed.

(** * The controller *)

(** What is left to do when the running callback returns. *)
Inductive frame :=
| FUpdates (k : nat) (rest : list stream_update)   (* [onUpdate] in the loop of a message *)
| FError (k : nat)                                 (* [onError] of [handleError] *)
| FLast.                                           (* a callback in last position *)

Record controller := Controller {
  c_source : option nat;
  c_generation : nat;
  c_streaming : bool;              (* the last [setStreaming] *)
  c_waiting : list nat;            (* requests at [await runtime.getHeaders()] *)
  c_created : list nat;            (* the event sources made so far *)
  c_closed : list nat;             (* those that were closed *)
  c_completed : list nat;          (* those whose [completed] is true *)
  c_frame : option frame;
}.

(** The calls of a request's callbacks. *)
Inductive callback :=
| OnUpdate (k : nat) (u : stream_update)
| OnComplete (k : nat)
| OnError (k : nat) (message : jsvalue) (code : jsvalue).

Definition initial_controller : controller := Controller None 0 false [] [] [] [] None.

Definition with_frame (f : option frame) (c : controller) : controller :=
  Controller (c_source c) (c_generation c) (c_streaming c) (c_waiting c) (c_created c) (c_closed c) (c_completed c) f.
Definition with_waiting (w : list nat) (c : controller) : controller :=
  Controller (c_source c) (c_generation c) (c_streaming c) w (c_created c) (c_closed c) (c_completed c) (c_frame c).

Definition close_all (targets : list nat) (c : controller) : controller :=
  Controller (c_source c) (c_generation c) (c_streaming c) (c_waiting c) (c_created c)
    (c_closed c ++ targets) (c_completed c) (c_frame c).
Definition opt_list {A} (x : option A) : list A := match x with Some a => [a] | None => [] end.

(** The events that closing a source may dispatch reach listeners that find the source
    completed or no longer current ([close_is_silent]). *)
Definition closeActiveSource (k : nat) (c : controller) : controller :=
  let c := close_all [k] c in
  if bool_decide (c_source c = Some k)
  then Controller None (c_generation c) false (c_waiting c) (c_created c) (c_closed c) (c_completed c) (c_frame c)
  else c.

Definition is_current (k : nat) (c : controller) : bool :=
  (c_generation c =? k)%nat && bool_decide (c_source c = Some k).
Definition is_completed (k : nat) (c : controller) : bool := bool_decide (k ∈ c_completed c).
Definition set_completed (k : nat) (c : controller) : controller :=
  Controller (c_source c) (c_generation c) (c_streaming c) (c_waiting c) (c_created c) (c_closed c)
    (k :: c_completed c) (c_frame c).

Definition handleError (k : nat) (message code : jsvalue) (c : controller) : controller * list callback :=
  if negb (is_current k c) || is_completed k c then (c, [])
  else (with_frame (Some (FError k)) (set_completed k c), [OnError k message code]).

(** [send] up to its [await]. *)
Definition send (c : controller) : controller :=
  let requestGeneration := S (c_generation c) in
  Controller None requestGeneration false (c_waiting c ++ [requestGeneration]) (c_created c)
    (c_closed c ++ opt_list (c_source c)) (c_completed c) (c_frame c).

(** [send] when the headers are there. *)
Definition send_with_headers (k : nat) (c : controller) : controller :=
  if negb (c_generation c =? k)%nat then c
  else Controller (Some k) (c_generation c) true (c_waiting c) (c_created c ++ [k]) (c_closed c) (c_completed c)
         (c_frame c).

(** [send] when [getHeaders] rejects. *)
Definition send_without_headers (k : nat) (message : jsvalue) (c : controller) : controller * list callback :=
  if negb (c_generation c =? k)%nat then (c, [])
  else (with_frame (Some FLast) c, [OnError k message JUndefined]).

(** The loop over the updates of a message. *)
Definition deliver_updates (k : nat) (updates : list stream_update) (c : controller) : controller * list callback :=
  match updates with
  | [] => (with_frame None c, [])
  | u :: rest => (with_frame (Some (FUpdates k rest)) c, [OnUpdate k u])
  end.

Definition on_message (k : nat) (data : option jsstr) (c : controller) : controller * list callback :=
  if negb (is_current k c) || is_completed k c then (c, [])
  else
    let data := match data with Some d => d | None => [] end in
    if isStreamDoneMessage data
    then (with_frame (Some FLast) (closeActiveSource k (set_completed k c)), [OnComplete k])
    else
      match parseStreamMessageUpdates data with
      | Ok updates => deliver_updates k updates c
      | Err _ => handleError k (JStr PARSE_ERROR) JUndefined c
      end.

Definition on_error (k : nat) (readyState : option Z) (data : option jsstr) (c : controller)
  : controller * list callback :=
  if negb (is_current k c) || is_completed k c then (c, [])
  else if negb (isStreamClosedReadyState readyState)
  then let '(code, message) := parseStreamErrorDetails data in handleError k message code c
  else (c, []).

Definition on_ready_state (k : nat) (readyState status : option Z) (c : controller) : controller * list callback :=
  if negb (is_current k c) || is_completed k c then (c, [])
  else match getStreamReadyStateError readyState status with
       | Some message => handleError k (JStr message) JUndefined c
       | None => (c, [])
       end.

(** [nextSource.stream()] throws. *)
Definition on_start_failure (k : nat) (c : controller) : controller * list callback :=
  if negb (is_current k c) || is_completed k c then (c, [])
  else handleError k (JStr STREAM_START_ERROR) JUndefined c.

Definition cancel (notify : bool) (c : controller) : controller :=
  Controller None (S (c_generation c)) (if notify then false else c_streaming c) (c_waiting c) (c_created c)
    (c_closed c ++ opt_list (c_source c)) (c_completed c) (c_frame c).
Definition stop_stream (c : controller) : controller := cancel true c.
Definition dispose (c : controller) : controller := cancel false c.

(** ** Steps *)

Inductive event :=
| ESend | EStop | EDispose
| EHeaders (k : nat) | EHeadersFail (k : nat) (message : jsvalue)
| EMessage (k : nat) (data : option jsstr)
| EError (k : nat) (readyState : option Z) (data : option jsstr)
| EReadyState (k : nat) (readyState status : option Z)
| EStartFailure (k : nat)
| EReturn | EThrow.

(** The running callback returns. *)
Definition resume (f : frame) (c : controller) : controller * list callback :=
  let c := with_frame None c in
  match f with
  | FUpdates k rest => deliver_updates k rest c
  | FError k => (closeActiveSource k c, [])
  | FLast => (c, [])
  end.

(** The running callback throws: the loop over updates is in a [try] block, the other
    callbacks are not. *)
Definition unwind (f : frame) (c : controller) : controller * list callback :=
  let c := with_frame None c in
  match f with
  | FUpdates k _ => handleError k (JStr PARSE_ERROR) JUndefined c
  | FError _ | FLast => (c, [])
  end.

Definition remove_waiting (k : nat) (c : controller) : controller :=
  with_waiting (List.filter (fun j => negb (j =? k)%nat) (c_waiting c)) c.

(** [None]: the event cannot happen.  While a callback runs only its own calls and its
    end can. *)
Definition control_step (c : controller) (e : event) : option (controller * list callback) :=
  match e, c_frame c with
  | ESend, _ => Some (send c, [])
  | EStop, _ => Some (stop_stream c, [])
  | EDispose, _ => Some (dispose c, [])
  | EReturn, Some f => Some (resume f c)
  | EThrow, Some f => Some (unwind f c)
  | _, Some _ => None
  | EHeaders k, None =>
      if bool_decide (k ∈ c_waiting c) then Some (send_with_headers k (remove_waiting k c), []) else None
  | EHeadersFail k message, None =>
      if bool_decide (k ∈ c_waiting c) then Some (send_without_headers k message (remove_waiting k c)) else None
  | EMessage k data, None => if bool_decide (k ∈ c_created c) then Some (on_message k data c) else None
  | EError k rs data, None => if bool_decide (k ∈ c_created c) then Some (on_error k rs data c) else None
  | EReadyState k rs status, None =>
      if bool_decide (k ∈ c_created c) then Some (on_ready_state k rs status c) else None
  | EStartFailure k, None => if bool_decide (k ∈ c_created c) then Some (on_start_failure k c) else None
  | EReturn, None | EThrow, None => None
  end.

(** The states that can be reached, with the calls made so far. *)
Inductive controlled : controller -> list callback -> Prop :=
| controlled_init : controlled initial_controller []
| controlled_step c outs e c' outs' :
    controlled c outs -> control_step c e = Some (c', outs') -> controlled c' (outs ++ outs').

(** * Facts *)

Definition about (o : callback) : nat :=
  match o with OnUpdate k _ | OnComplete k | OnError k _ _ => k end.
Definition is_final (o : callback) : bool :=
  match o with OnUpdate _ _ => false | OnComplete _ | OnError _ _ _ => true end.

(** The request has been answered. *)
Definition answered (k : nat) (outs : list callback) : Prop := exists o, o ∈ outs /\ about o = k /\ is_final o = true.

(** What holds in every state. *)
Record control_inv (c : controller) (outs : list callback) : Prop := {
  ci_source k : c_source c = Some k -> k = c_generation c /\ k ∈ c_created c /\ (k ∉ c_closed c) /\ c_streaming c = true;
  ci_open k : k ∈ c_created c -> k ∉ c_closed c -> c_source c = Some k;
  ci_closed k : k ∈ c_closed c -> k ∈ c_created c;
  ci_waiting k : k ∈ c_waiting c -> k <= c_generation c /\ k ∉ c_created c;
  ci_created k : k ∈ c_created c -> k <= c_generation c;
  ci_completed k : k ∈ c_completed c -> k ∈ c_created c;
  ci_about o : o ∈ outs -> about o <= c_generation c;
  ci_answered k : answered k outs -> (k ∉ c_waiting c) /\ (k ∈ c_created c -> k ∈ c_completed c);
  ci_updates k rest : c_frame c = Some (FUpdates k rest) ->
    k ∈ c_created c /\ (k ∉ c_completed c) /\ ~ answered k outs;
  ci_error k : c_frame c = Some (FError k) -> k ∈ c_created c /\ k ∈ c_completed c;
  ci_order pre o post : outs = pre ++ o :: post -> is_final o = true -> Forall (fun o' => about o' <> about o) post;
}.

Lemma answered_app k outs o : answered k (outs ++ [o]) <-> answered k outs \/ (about o = k /\ is_final o = true).
Proof.
  unfold answered. split.
  - intros (x & Hx & H1 & H2). apply elem_of_app in Hx as [Hx|Hx]; [left; eauto|].
    apply list_elem_of_singleton in Hx as ->. auto.
  - intros [(x & Hx & H)|[H1 H2]]; [exists x|exists o]; rewrite elem_of_app, list_elem_of_singleton; auto.
Qed.

(** One more call to a request that has not been answered keeps the order. *)
Lemma order_snoc (outs : list callback) o :
  (forall pre x post, outs = pre ++ x :: post -> is_final x = true -> Forall (fun o' => about o' <> about x) post) ->
  ~ answered (about o) outs ->
  forall pre x post, outs ++ [o] = pre ++ x :: post -> is_final x = true -> Forall (fun o' => about o' <> about x) post.
Proof.
  intros H Hn pre x post E Hx. destruct post as [|y post _] using rev_ind; [constructor|].
  change (x :: post ++ [y]) with ((x :: post) ++ [y]) in E. rewrite app_assoc in E.
  apply app_inj_tail in E as [E <-]. apply list.Forall_app. split; [by eapply H|].
  constructor; [|constructor]. intros Ho. apply Hn. exists x. rewrite E, elem_of_app, elem_of_cons. auto.
Qed.

Lemma inv_init : control_inv initial_controller [].
Proof.
  constructor; try (cbn; intros; by repeat match goal with H : _ ∈ [] |- _ => apply not_elem_of_nil in H end || done).
  - by intros k (o & Ho%not_elem_of_nil & _).
  - by intros [|? ?] o post.
Qed.

(** Clearing the frame. *)
Lemma inv_no_frame c outs : control_inv c outs -> control_inv (with_frame None c) outs.
Proof. intros I. destruct I. by constructor. Qed.

(** [send], [stop] and [dispose] start a new generation and close the active source. *)
Lemma inv_new_generation c outs waiting streaming :
  control_inv c outs ->
  (forall k, k ∈ waiting -> k ∈ c_waiting c \/ k = S (c_generation c)) ->
  control_inv (Controller None (S (c_generation c)) streaming waiting (c_created c)
                 (c_closed c ++ opt_list (c_source c)) (c_completed c) (c_frame c)) outs.
Proof.
  intros I Hw. constructor; cbn [c_source c_generation c_streaming c_waiting c_created c_closed c_completed c_frame].
  - done.
  - intros k Hk Hn. apply not_elem_of_app in Hn as [Hn Hs]. pose proof (ci_open _ _ I k Hk Hn) as E.
    rewrite E in Hs. by destruct Hs; left.
  - intros k Hk. apply elem_of_app in Hk as [Hk|Hk]; [by apply (ci_closed _ _ I)|].
    destruct (c_source c) as [j|] eqn:E; [|by apply not_elem_of_nil in Hk].
    apply list_elem_of_singleton in Hk as ->. by apply (ci_source _ _ I).
  - intros k Hk. destruct (Hw k Hk) as [H| ->]; [destruct (ci_waiting _ _ I k H); split; [lia|done]|].
    split; [lia|]. intros H. apply (ci_created _ _ I) in H. lia.
  - intros k Hk. apply (ci_created _ _ I) in Hk. lia.
  - apply (ci_completed _ _ I).
  - intros o Ho. apply (ci_about _ _ I) in Ho. lia.
  - intros k Hk. destruct (ci_answered _ _ I k Hk) as [H1 H2]. split; [|done]. intros H. destruct (Hw k H) as [?| ->]; [done|].
    destruct Hk as (o & Ho & Ha & _). apply (ci_about _ _ I) in Ho. lia.
  - apply (ci_updates _ _ I).
  - apply (ci_error _ _ I).
  - apply (ci_order _ _ I).
Qed.

Lemma inv_send c outs : control_inv c outs -> control_inv (send c) outs.
Proof.
  intros I. apply inv_new_generation; [done|]. intros k Hk. by rewrite elem_of_app, list_elem_of_singleton in Hk.
Qed.
Lemma inv_cancel c outs notify : control_inv c outs -> control_inv (cancel notify c) outs.
Proof. intros I. apply inv_new_generation; auto. Qed.

(** The end of the wait for headers. *)
Lemma inv_remove c outs k : control_inv c outs -> control_inv (remove_waiting k c) outs.
Proof.
  intros I. destruct I as [? ? ? Hw ? ? ? Ha ? ? ?]. constructor; try done; cbn [remove_waiting with_waiting c_waiting].
  - intros j Hj. apply list_elem_of_In, filter_In in Hj as [Hj _]. apply Hw. by apply list_elem_of_In.
  - intros j Hj. destruct (Ha j Hj) as [H1 H2]. split; [|done]. intros H. apply list_elem_of_In, filter_In in H as [H _].
    apply H1. by apply list_elem_of_In.
Qed.

Lemma not_waiting k c : k ∉ c_waiting (remove_waiting k c).
Proof.
  cbn. intros H. apply list_elem_of_In, filter_In in H as [_ H]. by rewrite Nat.eqb_refl in H.
Qed.

Lemma waiting_unanswered c outs k : control_inv c outs -> k ∈ c_waiting c -> ~ answered k outs.
Proof. intros I Hk Ha. by apply (ci_answered _ _ I k Ha). Qed.

Lemma inv_headers c outs k : control_inv c outs -> k ∈ c_waiting c -> c_frame c = None ->
  control_inv (send_with_headers k (remove_waiting k c)) outs.
Proof.
  intros I Hk Hf. pose proof (inv_remove c outs k I) as I'. unfold send_with_headers.
  destruct (negb (c_generation (remove_waiting k c) =? k)) eqn:E; [done|]. bools. cbn in E. subst k.
  destruct (ci_waiting _ _ I _ Hk) as [_ Hnew].
  assert (Hclosed : c_generation c ∉ c_closed c) by (intros H; by apply Hnew, (ci_closed _ _ I)).
  constructor; cbn [c_source c_generation c_streaming c_waiting c_created c_closed c_completed c_frame with_waiting remove_waiting].
  - intros k [= <-]. split_and!; [done|apply elem_of_app; right; by left|done|done].
  - intros k Hin Hn. apply elem_of_app in Hin as [Hin|Hin]; [|by apply list_elem_of_singleton in Hin as ->].
    apply (ci_open _ _ I) in Hin; [|done]. apply (ci_source _ _ I) in Hin as [-> _]. done.
  - intros k Hin. apply elem_of_app. left. by apply (ci_closed _ _ I).
  - intros k Hin. destruct (ci_waiting _ _ I' k Hin) as [H1 H2]. split; [done|]. rewrite not_elem_of_app, list_elem_of_singleton.
    split; [done|]. intros ->. by apply (not_waiting (c_generation c) c).
  - intros k Hin. apply elem_of_app in Hin as [Hin|Hin]; [by apply (ci_created _ _ I)|].
    apply list_elem_of_singleton in Hin as ->. done.
  - intros k Hin. apply elem_of_app. left. by apply (ci_completed _ _ I).
  - apply (ci_about _ _ I).
  - intros k Ha. destruct (ci_answered _ _ I' k Ha) as [H1 H2]. split; [done|]. intros Hin.
    apply elem_of_app in Hin as [Hin|Hin]; [by apply H2|]. apply list_elem_of_singleton in Hin as ->.
    by destruct (waiting_unanswered _ _ _ I Hk).
  - intros k rest H. congruence.
  - intros k H. congruence.
  - apply (ci_order _ _ I).
Qed.

(** One call of a callback of [k], which is not answered yet. *)
Lemma inv_emit c outs o f completed :
  control_inv c outs -> about o <= c_generation c -> ~ answered (about o) outs ->
  (forall k, k ∈ c_completed c -> k ∈ completed) ->
  (forall k, k ∈ completed -> k ∈ c_completed c \/ (k = about o /\ k ∈ c_created c)) ->
  (is_final o = true -> (about o ∉ c_waiting c) /\ (about o ∈ c_created c -> about o ∈ completed)) ->
  match f with
  | FUpdates k _ => k = about o /\ is_final o = false /\ k ∈ c_created c /\ k ∉ completed
  | FError k => k ∈ c_created c /\ k ∈ completed
  | FLast => True
  end ->
  control_inv (Controller (c_source c) (c_generation c) (c_streaming c) (c_waiting c) (c_created c) (c_closed c)
                 completed (Some f)) (outs ++ [o]).
Proof.
  intros I Hle Hn Hsub Hcompl Hfin Hf.
  constructor; cbn [c_source c_generation c_streaming c_waiting c_created c_closed c_completed c_frame].
  - apply (ci_source _ _ I).
  - apply (ci_open _ _ I).
  - apply (ci_closed _ _ I).
  - apply (ci_waiting _ _ I).
  - apply (ci_created _ _ I).
  - intros k Hk. destruct (Hcompl k Hk) as [?|[_ ?]]; [by apply (ci_completed _ _ I)|done].
  - intros x Hx. apply elem_of_app in Hx as [Hx|Hx]; [by apply (ci_about _ _ I)|].
    apply list_elem_of_singleton in Hx as ->. done.
  - intros k Hk. apply answered_app in Hk as [Hk|[<- Hk]]; [|by apply Hfin].
    destruct (ci_answered _ _ I k Hk) as [H1 H2]. split; [done|]. intros H. by apply Hsub, H2.
  - intros k rest [= ->]. destruct Hf as (-> & Hfo & Hc & Hnc). split_and!; [done|done|].
    intros Ha. apply answered_app in Ha as [Ha|[_ Ha]]; [done|congruence].
  - intros k [= ->]. done.
  - apply order_snoc; [apply (ci_order _ _ I)|done].
Qed.

(** A request that may still be answered. *)
Definition live (k : nat) (c : controller) (outs : list callback) : Prop :=
  k ∈ c_created c /\ (k ∉ c_completed c) /\ ~ answered k outs.

Lemma current_live c outs k : control_inv c outs -> negb (is_current k c) || is_completed k c = false ->
  live k c outs /\ k = c_generation c.
Proof.
  intros I E. unfold is_current, is_completed in E. bools. destruct (ci_source _ _ I k) as (Hg & Hc & _); [done|].
  split; [|done]. split_and!; [done|done|]. intros Ha. by apply (ci_answered _ _ I k Ha) in Hc.
Qed.

Lemma live_bounds c outs k : control_inv c outs -> live k c outs -> k <= c_generation c /\ k ∉ c_waiting c.
Proof.
  intros I (Hc & _ & _). split; [by apply (ci_created _ _ I)|]. intros H. by apply (ci_waiting _ _ I) in H as [_ ?].
Qed.

Lemma inv_deliver c outs k us : control_inv c outs -> live k c outs ->
  control_inv (deliver_updates k us c).1 (outs ++ (deliver_updates k us c).2).
Proof.
  intros I L. destruct us as [|u us]; cbn [deliver_updates fst snd]; [rewrite app_nil_r; by apply inv_no_frame|].
  destruct (live_bounds _ _ _ I L) as [Hle Hw]. destruct L as (Hc & Hn & Ha).
  apply (inv_emit c outs (OnUpdate k u) (FUpdates k us)); cbn [about is_final]; auto; done.
Qed.

Lemma inv_handleError c outs k message code : control_inv c outs -> c_frame c = None ->
  control_inv (handleError k message code c).1 (outs ++ (handleError k message code c).2).
Proof.
  intros I Hf. unfold handleError. destruct (negb (is_current k c) || is_completed k c) eqn:E; cbn [fst snd].
  { by rewrite app_nil_r. }
  destruct (current_live _ _ _ I E) as [L _]. destruct (live_bounds _ _ _ I L) as [Hle Hw]. destruct L as (Hc & Hn & Ha).
  apply (inv_emit c outs (OnError k message code) (FError k) (k :: c_completed c)); cbn [about is_final]; auto.
  - intros j Hj. by right.
  - intros j Hj. apply elem_of_cons in Hj as [->|Hj]; auto.
  - intros _. split; [done|]. intros _. by left.
  - split; [done|by left].
Qed.

Lemma inv_close c outs k : control_inv c outs -> k ∈ c_created c -> control_inv (closeActiveSource k c) outs.
Proof.
  intros I Hk. unfold closeActiveSource. cbn [close_all c_source]. case_bool_decide as E.
  - constructor; cbn [c_source c_generation c_streaming c_waiting c_created c_closed c_completed c_frame close_all];
      try apply I; try done.
    + intros j Hj Hn. apply not_elem_of_app in Hn as [Hn Hs]. apply (ci_open _ _ I) in Hj; [|done].
      rewrite E in Hj. injection Hj as ->. by destruct Hs; left.
    + intros j Hj. apply elem_of_app in Hj as [Hj|Hj]; [by apply (ci_closed _ _ I)|].
      by apply list_elem_of_singleton in Hj as ->.
  - constructor; cbn [c_source c_generation c_streaming c_waiting c_created c_closed c_completed c_frame close_all];
      try apply I.
    + intros j Hj. destruct (ci_source _ _ I j Hj) as (? & ? & Hn & ?). split_and!; try done.
      rewrite not_elem_of_app, list_elem_of_singleton. split; [done|]. congruence.
    + intros j Hj Hn. apply not_elem_of_app in Hn as [Hn _]. by apply (ci_open _ _ I).
    + intros j Hj. apply elem_of_app in Hj as [Hj|Hj]; [by apply (ci_closed _ _ I)|].
      by apply list_elem_of_singleton in Hj as ->.
Qed.

(** The event [DONE]. *)
Lemma inv_done c outs k : control_inv c outs -> live k c outs -> c_frame c = None ->
  control_inv (with_frame (Some FLast) (closeActiveSource k (set_completed k c))) (outs ++ [OnComplete k]).
Proof.
  intros I L Hf. destruct (live_bounds _ _ _ I L) as [Hle Hw]. destruct L as (Hc & Hn & Ha).
  assert (I' : control_inv (Controller (c_source c) (c_generation c) (c_streaming c) (c_waiting c) (c_created c)
                 (c_closed c) (k :: c_completed c) (Some FLast)) (outs ++ [OnComplete k])).
  { apply inv_emit; cbn [about is_final]; auto.
    - intros j Hj. by right.
    - intros j Hj. apply elem_of_cons in Hj as [->|Hj]; auto.
    - intros _. split; [done|]. intros _. by left. }
  apply (inv_close _ _ k) in I'; [|done]. revert I'. unfold closeActiveSource. cbn. by case_bool_decide.
Qed.

Lemma inv_message c outs k data : control_inv c outs -> c_frame c = None ->
  control_inv (on_message k data c).1 (outs ++ (on_message k data c).2).
Proof.
  intros I Hf. unfold on_message. destruct (negb (is_current k c) || is_completed k c) eqn:E; cbn [fst snd].
  { by rewrite app_nil_r. }
  destruct (current_live _ _ _ I E) as [L _]. destruct (isStreamDoneMessage _); [by apply inv_done|].
  destruct (parseStreamMessageUpdates _); [by apply inv_deliver|by apply inv_handleError].
Qed.

Lemma inv_error c outs k rs data : control_inv c outs -> c_frame c = None ->
  control_inv (on_error k rs data c).1 (outs ++ (on_error k rs data c).2).
Proof.
  intros I Hf. unfold on_error. destruct (negb (is_current k c) || is_completed k c); [by rewrite app_nil_r|].
  destruct (negb (isStreamClosedReadyState rs)); [|by rewrite app_nil_r].
  destruct (parseStreamErrorDetails data). by apply inv_handleError.
Qed.

Lemma inv_ready c outs k rs status : control_inv c outs -> c_frame c = None ->
  control_inv (on_ready_state k rs status c).1 (outs ++ (on_ready_state k rs status c).2).
Proof.
  intros I Hf. unfold on_ready_state. destruct (negb (is_current k c) || is_completed k c); [by rewrite app_nil_r|].
  destruct (getStreamReadyStateError rs status); [by apply inv_handleError|by rewrite app_nil_r].
Qed.

Lemma inv_start c outs k : control_inv c outs -> c_frame c = None ->
  control_inv (on_start_failure k c).1 (outs ++ (on_start_failure k c).2).
Proof.
  intros I Hf. unfold on_start_failure. destruct (negb (is_current k c) || is_completed k c); [by rewrite app_nil_r|].
  by apply inv_handleError.
Qed.

Lemma inv_headers_fail c outs k message : control_inv c outs -> k ∈ c_waiting c -> c_frame c = None ->
  control_inv (send_without_headers k message (remove_waiting k c)).1
    (outs ++ (send_without_headers k message (remove_waiting k c)).2).
Proof.
  intros I Hk Hf. pose proof (inv_remove c outs k I) as I'. unfold send_without_headers.
  destruct (negb _) eqn:E; cbn [fst snd]; [by rewrite app_nil_r|].
  apply (inv_emit (remove_waiting k c) outs (OnError k message JUndefined) FLast); cbn [about is_final]; auto.
  - by apply (ci_waiting _ _ I).
  - by apply (waiting_unanswered c).
  - intros _. split; [apply not_waiting|]. intros H. by apply (ci_waiting _ _ I) in Hk as [_ ?].
Qed.

Lemma inv_resume c outs f : control_inv c outs -> c_frame c = Some f ->
  control_inv (resume f c).1 (outs ++ (resume f c).2).
Proof.
  intros I Hf. pose proof (inv_no_frame _ _ I) as I'. unfold resume. destruct f as [k rest|k|]; cbn [fst snd].
  - apply inv_deliver; [done|]. by apply (ci_updates _ _ I k rest).
  - rewrite app_nil_r. apply inv_close; [done|]. by apply (ci_error _ _ I k).
  - by rewrite app_nil_r.
Qed.

Lemma inv_unwind c outs f : control_inv c outs -> c_frame c = Some f ->
  control_inv (unwind f c).1 (outs ++ (unwind f c).2).
Proof.
  intros I Hf. pose proof (inv_no_frame _ _ I) as I'. unfold unwind. destruct f as [k rest|k|]; cbn [fst snd].
  - by apply inv_handleError.
  - by rewrite app_nil_r.
  - by rewrite app_nil_r.
Qed.

Lemma inv_step c outs e c' outs' : control_inv c outs -> control_step c e = Some (c', outs') ->
  control_inv c' (outs ++ outs').
Proof.
  intros I H.
  assert (G : forall p : controller * list callback, Some p = Some (c', outs') -> control_inv p.1 (outs ++ p.2) ->
            control_inv c' (outs ++ outs')) by (by intros p [= ->]).
  unfold control_step in H. destruct e; destruct (c_frame c) as [f|] eqn:Hf; try discriminate H;
    try (match type of H with (if bool_decide ?P then _ else _) = _ => destruct (bool_decide_reflect P) end;
         [|discriminate H]); apply (G _ H); cbn [fst snd];
    try (rewrite app_nil_r); auto using inv_send, inv_cancel, inv_headers, inv_headers_fail, inv_message, inv_error,
      inv_ready, inv_start, inv_resume, inv_unwind; by apply inv_cancel.
Qed.

Lemma controlled_inv c outs : controlled c outs -> control_inv c outs.
Proof. induction 1; [apply inv_init|by eapply inv_step]. Qed.

(** Listeners do nothing for a source that is completed or not current, and it is one of
    the two when the code closes it: [completed] is set before [closeActiveSource], and
    [send] and [cancel] drop the source before they close it. *)
Lemma close_is_silent k c :
  (negb (is_current k c) || is_completed k c = true ->
   forall data rs status, on_message k data c = (c, []) /\ on_error k rs data c = (c, []) /\
     on_ready_state k rs status c = (c, [])) /\
  is_completed k (set_completed k c) = true /\ is_current k (send c) = false /\
  (forall notify, is_current k (cancel notify c) = false).
Proof.
  split_and!.
  - intros E data rs status. unfold on_message, on_error, on_ready_state. by rewrite E.
  - unfold is_completed. apply bool_decide_eq_true. by left.
  - unfold is_current. by rewrite andb_false_r.
  - intros notify. unfold is_current. by rewrite andb_false_r.
Qed.

(** Which request a call belongs to. *)
Lemma handleError_final k message code c o : o ∈ (handleError k message code c).2 -> about o = c_generation c.
Proof.
  unfold handleError, is_current. destruct (negb _ || _) eqn:E; [by intros ?%not_elem_of_nil|].
  bools. intros Ho. apply list_elem_of_singleton in Ho as ->. done.
Qed.

Lemma deliver_about k us c o : o ∈ (deliver_updates k us c).2 -> about o = k /\ is_final o = false.
Proof. destruct us; [by intros ?%not_elem_of_nil|]. intros Ho. by apply list_elem_of_singleton in Ho as ->. Qed.

Lemma step_about c outs e c' outs' o : control_inv c outs -> control_step c e = Some (c', outs') -> o ∈ outs' ->
  about o = c_generation c \/
  (is_final o = false /\ exists rest, c_frame c = Some (FUpdates (about o) rest)).
Proof.
  intros I H Ho.
  assert (G : forall (p : controller * list callback) P, Some p = Some (c', outs') -> (o ∈ p.2 -> P) -> P)
    by (intros p P [= ->]; auto).
  unfold control_step in H. destruct e; destruct (c_frame c) as [f|] eqn:Hf; try discriminate H;
    try (match type of H with (if bool_decide ?P then _ else _) = _ => destruct (bool_decide_reflect P) end;
         [|discriminate H]); apply (G _ _ H); cbn [fst snd]; try (by intros ?%not_elem_of_nil).
  - unfold send_without_headers. cbn. destruct (negb _) eqn:E; [by intros ?%not_elem_of_nil|]. bools.
    intros Hx. apply list_elem_of_singleton in Hx as ->. auto.
  - unfold on_message. destruct (negb _ || _) eqn:E; [by intros ?%not_elem_of_nil|].
    destruct (current_live _ _ _ I E) as [_ ->]. destruct (isStreamDoneMessage _).
    + intros Hx. apply list_elem_of_singleton in Hx as ->. auto.
    + destruct (parseStreamMessageUpdates _); [intros Hx; apply deliver_about in Hx as [-> _]; auto|].
      intros Hx. left. by eapply handleError_final.
  - unfold on_error. destruct (negb _ || _); [by intros ?%not_elem_of_nil|].
    destruct (negb _); [|by intros ?%not_elem_of_nil]. destruct (parseStreamErrorDetails data).
    intros Hx. left. by eapply handleError_final.
  - unfold on_ready_state. destruct (negb _ || _); [by intros ?%not_elem_of_nil|].
    destruct (getStreamReadyStateError readyState status); [|by intros ?%not_elem_of_nil].
    intros Hx. left. by eapply handleError_final.
  - unfold on_start_failure. destruct (negb _ || _); [by intros ?%not_elem_of_nil|].
    intros Hx. left. by eapply handleError_final.
  - unfold resume. destruct f as [k rest|k|]; [|by intros ?%not_elem_of_nil..].
    intros Hx. apply deliver_about in Hx as [-> ?]. right. eauto.
  - unfold unwind. destruct f as [k rest|k|]; [|by intros ?%not_elem_of_nil..].
    intros Hx. left. by apply handleError_final in Hx.
Qed.

(** C24. A streamed request is answered once and only while it is the newest: in every
    interleaving of requests, events, callbacks that call back into the controller
    and callbacks that throw, nothing is reported about a request after its completion
    or error, a completion or error is reported only for the newest request, and an
    update of another request only from the message that was being delivered. *)
Theorem stream_answers_once c outs e c' outs' :
  controlled c outs -> control_step c e = Some (c', outs') ->
  (forall pre o post, outs ++ outs' = pre ++ o :: post -> is_final o = true ->
     Forall (fun o' => about o' <> about o) post) /\
  (forall o, o ∈ outs' -> about o = c_generation c \/
     (is_final o = false /\ exists rest, c_frame c = Some (FUpdates (about o) rest))).
Proof.
  intros H Hs. pose proof (controlled_inv _ _ H) as I. split.
  - apply (ci_order _ _ (inv_step _ _ _ _ _ I Hs)).
  - intros o. by apply (step_about c outs e c' outs').
Qed.

(** C25. At most one event source is open: every source that was made and not closed is the
    active one, belongs to the newest request, and the page shows that it streams. *)
Theorem stream_sources_closed c outs k :
  controlled c outs -> k ∈ c_created c -> k ∉ c_closed c ->
  c_source c = Some k /\ k = c_generation c /\ c_streaming c = true.
Proof.
  intros H Hk Hn. pose proof (controlled_inv _ _ H) as I. pose proof (ci_open _ _ I k Hk Hn) as E.
  destruct (ci_source _ _ I k E) as (? & _ & _ & ?). done.
Qed.

(** * Runs *)

Fixpoint run_events (c : controller) (es : list event) : option (controller * list callback) :=
  match es with
  | [] => Some (c, [])
  | e :: es' =>
      match control_step c e with
      | Some (c', outs) =>
          match run_events c' es' with Some (c'', outs') => Some (c'', outs ++ outs') | None => None end
      | None => None
      end
  end.

Lemma run_controlled es : forall c outs c' outs', controlled c outs -> run_events c es = Some (c', outs') ->
  controlled c' (outs ++ outs').
Proof.
  induction es as [|e es IH]; intros c outs c' outs' H Hr; cbn [run_events] in Hr.
  { injection Hr as <- <-. by rewrite app_nil_r. }
  destruct (control_step c e) as [[c1 o1]|] eqn:E; [|done].
  destruct (run_events c1 es) as [[c2 o2]|] eqn:E2; [|done]. injection Hr as <- <-. rewrite app_assoc.
  eapply IH; [|done]. by eapply controlled_step.
Qed.

Definition sample_data : jsstr := quotes "{'choices': [{'delta': {'content': 'hi', 'reasoning_content': 'why'}}]}".
(** The first request is superseded by a second one while its first update is being
    delivered; its second update still arrives. *)
Definition sample_events : list event :=
  [ESend; EHeaders 1; EMessage 1 (Some sample_data); ESend; EReturn; EReturn; EHeaders 2;
   EMessage 1 (Some STREAM_DONE_MESSAGE)].
Definition sample_state : controller :=
  match run_events initial_controller sample_events with Some (c, _) => c | None => initial_controller end.
Definition sample_calls : list callback :=
  match run_events initial_controller sample_events with Some (_, outs) => outs | None => [] end.

Lemma sample_controlled : controlled sample_state sample_calls.
Proof. apply (run_controlled sample_events initial_controller [] _ _ controlled_init). vm_compute. reflexivity. Qed.

Lemma stream_answers_once_witness :
  sample_calls = [OnUpdate 1 (StreamUpdate ReasoningChunk (JStr (js "why")));
                  OnUpdate 1 (StreamUpdate ContentChunk (JStr (js "hi")))] /\
  exists c' outs', control_step sample_state (EMessage 2 (Some STREAM_DONE_MESSAGE)) = Some (c', outs') /\
    outs' = [OnComplete 2] /\
    forall o, o ∈ outs' -> about o = c_generation sample_state \/
      (is_final o = false /\ exists rest, c_frame sample_state = Some (FUpdates (about o) rest)).
Proof.
  split; [vm_compute; reflexivity|]. eexists _, _. split; [vm_compute; reflexivity|]. split; [reflexivity|].
  refine (proj2 (stream_answers_once sample_state sample_calls (EMessage 2 (Some STREAM_DONE_MESSAGE)) _ _
                   sample_controlled _)). vm_compute. reflexivity.
Defined.

Lemma stream_sources_closed_witness :
  c_source sample_state = Some 2 /\ 2 = c_generation sample_state /\ c_streaming sample_state = true.
Proof.
  apply (stream_sources_closed sample_state sample_calls 2 sample_controlled).
  - vm_compute. right. left.
  - vm_compute. intros H. repeat (apply elem_of_cons in H as [?|H]; [done|]). by apply not_elem_of_nil in H.
Defined.
