(* ===== verification/ChatHandler.v ===== *)
(** The handler of chat requests ([useChatHandler] of
    [features/playground/hooks/use-chat-handler.ts]): chunks of a stream are collected
    for fifty milliseconds and then applied to the last message.

    The references of the hook are the state.  [onMessageUpdate] is a functional update of
    React: its updater is queued and runs when React renders, except that React may run it
    at once when nothing is queued ([eager]); the updaters look at the generation at the
    time they run. *)
From Stdlib Require Import ZArith Lia Bool String SpecFloat.
From stdpp Require Import base list option.
From S2P Require Import Prelude JsString JsNumber JsValue ChatMessage StreamControl.

(** * State *)

Record pending_chunks := PendingChunks { pc_generation : nat; pc_content : jsstr; pc_reasoning : jsstr }.

(** The updaters that the hook queues; times are those of the clock when they run. *)
Inductive updater :=
| UChunks (generation : nat) (reasoning content : jsstr)
| UComplete (generation : nat)
| UError (generation : nat) (displayError : jsstr) (errorCode : option jsstr) (title : jsstr)
| UResponse (generation : nat) (choices : list chat_choice)
| UStopped (idleGeneration : nat).

Record handler := Handler {
  h_generation : nat;                (* [requestGenerationRef] *)
  h_pending : pending_chunks;        (* [pendingStreamChunksRef] *)
  h_timer : option nat;              (* [streamFlushTimerRef], with the generation it flushes *)
  h_requesting : bool;
  h_queue : list updater;
  h_messages : list message;
}.

(** The clock: a function of the number of the updater's reading. *)
Record clock := Clock { now0 : number; now1 : number; now2 : number; now3 : number }.

Definition mergePendingStreamChunk (currentChunk nextChunk : jsstr) : jsstr :=
  if negb (truthy currentChunk) || negb (starts_with currentChunk nextChunk) then currentChunk ++ nextChunk
  else nextChunk.

Definition with_pending (p : pending_chunks) (h : handler) : handler :=
  Handler (h_generation h) p (h_timer h) (h_requesting h) (h_queue h) (h_messages h).
Definition with_timer (t : option nat) (h : handler) : handler :=
  Handler (h_generation h) (h_pending h) t (h_requesting h) (h_queue h) (h_messages h).
Definition with_requesting (b : bool) (h : handler) : handler :=
  Handler (h_generation h) (h_pending h) (h_timer h) b (h_queue h) (h_messages h).
Definition with_queue (q : list updater) (h : handler) : handler :=
  Handler (h_generation h) (h_pending h) (h_timer h) (h_requesting h) q (h_messages h).
Definition with_messages (ms : list message) (h : handler) : handler :=
  Handler (h_generation h) (h_pending h) (h_timer h) (h_requesting h) (h_queue h) ms.
Definition with_generation (g : nat) (h : handler) : handler :=
  Handler g (h_pending h) (h_timer h) (h_requesting h) (h_queue h) (h_messages h).

(** * Updaters *)

Definition apply_chunks (t : clock) (reasoning content : jsstr) (m : message) : message :=
  let m := match reasoning with [] => m | _ => applyStreamingChunk (now0 t) (now1 t) m ReasoningChunk reasoning end in
  match content with [] => m | _ => applyStreamingChunk (now2 t) (now3 t) m ContentChunk content end.

Definition run_updater (t : clock) (current : nat) (u : updater) (prev : list message) : list message :=
  match u with
  | UChunks generation reasoning content =>
      if negb (generation =? current)%nat then prev
      else updateLastAssistantMessage prev (apply_chunks t reasoning content)
  | UComplete generation =>
      if negb (generation =? current)%nat then prev
      else updateLastAssistantMessage prev (fun m =>
             if isAssistantMessageFinal m then m else completeAssistantMessage (now0 t) (now1 t) (now2 t) m)
  | UError generation displayError errorCode title =>
      if negb (generation =? current)%nat then prev
      else updateAssistantMessageWithError (now0 t) prev displayError errorCode title
  | UResponse generation choices =>
      if negb (generation =? current)%nat then prev
      else updateLastAssistantMessage prev (fun m =>
             match applyChatCompletionResponse (now0 t) (now1 t) (now2 t) m choices with
             | Some updated => updated
             | None => m
             end)
  | UStopped idleGeneration =>
      if negb (idleGeneration =? current)%nat then prev
      else updateLastAssistantMessage prev (fun m =>
             if isAssistantMessagePending m then completeAssistantMessage (now0 t) (now1 t) (now2 t) m else m)
  end.

(** [onMessageUpdate(updater)]. *)
Definition onMessageUpdate (eager : option clock) (u : updater) (h : handler) : handler :=
  match h_queue h, eager with
  | [], Some t => with_messages (run_updater t (h_generation h) u (h_messages h)) h
  | _, _ => with_queue (h_queue h ++ [u]) h
  end.

(** React runs the oldest updater. *)
Definition render (t : clock) (h : handler) : handler :=
  match h_queue h with
  | [] => h
  | u :: rest => with_queue rest (with_messages (run_updater t (h_generation h) u (h_messages h)) h)
  end.

(** * Handlers *)

Definition discardPendingStreamUpdates (generation : nat) (h : handler) : handler :=
  with_pending (PendingChunks generation [] []) (with_timer None h).

Definition flushStreamUpdates (eager : option clock) (generation : nat) (h : handler) : handler :=
  if negb (generation =? h_generation h)%nat then h
  else
    let h := with_timer None h in
    let pendingChunks := h_pending h in
    if negb (pc_generation pendingChunks =? generation)%nat then h
    else if negb (truthy (pc_reasoning pendingChunks)) && negb (truthy (pc_content pendingChunks)) then h
    else onMessageUpdate eager (UChunks generation (pc_reasoning pendingChunks) (pc_content pendingChunks))
           (with_pending (PendingChunks generation [] []) h).

Definition scheduleStreamFlush (generation : nat) (h : handler) : handler :=
  if negb (generation =? h_generation h)%nat then h
  else match h_timer h with Some _ => h | None => with_timer (Some generation) h end.

(** The timer goes off. *)
Definition timer_fires (eager : option clock) (h : handler) : handler :=
  match h_timer h with Some generation => flushStreamUpdates eager generation h | None => h end.

Definition merge_pending (type : chunk_type) (chunk : jsstr) (p : pending_chunks) : pending_chunks :=
  match type with
  | ReasoningChunk => PendingChunks (pc_generation p) (pc_content p) (mergePendingStreamChunk (pc_reasoning p) chunk)
  | ContentChunk => PendingChunks (pc_generation p) (mergePendingStreamChunk (pc_content p) chunk) (pc_reasoning p)
  end.

Definition handleStreamUpdate (generation : nat) (type : chunk_type) (chunk : jsstr) (h : handler) : handler :=
  if negb (generation =? h_generation h)%nat then h
  else if negb (pc_generation (h_pending h) =? generation)%nat then h
  else scheduleStreamFlush generation (with_pending (merge_pending type chunk (h_pending h)) h).

Definition handleStreamComplete (eager eager' : option clock) (generation : nat) (h : handler) : handler :=
  if negb (generation =? h_generation h)%nat then h
  else onMessageUpdate eager' (UComplete generation)
         (with_requesting false (flushStreamUpdates eager generation h)).

Definition handleStreamError (eager eager' : option clock) (generation : nat) (displayError : jsstr)
    (errorCode : option jsstr) (title : jsstr) (h : handler) : handler :=
  if negb (generation =? h_generation h)%nat then h
  else onMessageUpdate eager' (UError generation displayError errorCode title)
         (with_requesting false (flushStreamUpdates eager generation h)).

(** The text that is shown for an error; [t] translates. *)
Definition KNOWN_ERROR_MESSAGES : list jsstr :=
  [API_REQUEST_ERROR; js "Network connection failed or server not responding"; PARSE_ERROR; STREAM_START_ERROR;
   CONNECTION_CLOSED; js "Generation was interrupted"].
Definition ends_with (suffix s : jsstr) : bool := starts_with (rev suffix) (rev s).
Definition getDisplayError (t : jsstr -> jsstr) (error : jsstr) : jsstr :=
  if bool_decide (error ∈ KNOWN_ERROR_MESSAGES) then t error
  else if ends_with (js ": " ++ CONNECTION_CLOSED) error
  then take (length error - length CONNECTION_CLOSED) error ++ t CONNECTION_CLOSED
  else error.

(** The part of a streamed request before the controller takes over. *)
Definition sendStreamingChat (h : handler) : handler :=
  let generation := S (h_generation h) in
  with_requesting true (discardPendingStreamUpdates generation (with_generation generation h)).

(** A request without streaming: its start, its response and its failure.  The signal is
    aborted exactly when a newer generation has begun. *)
Definition sendNonStreamingChat (h : handler) : handler := sendStreamingChat h.
Definition settle_request (generation : nat) (h : handler) : handler :=
  if (h_generation h =? generation)%nat then with_requesting false h else h.
Definition receive_response (eager eager' : option clock) (t : jsstr -> jsstr) (generation : nat)
    (choices : list chat_choice) (h : handler) : handler :=
  if negb (generation =? h_generation h)%nat then h
  else settle_request generation
         (if negb (hasChatCompletionChoice choices)
          then handleStreamError eager eager' generation (getDisplayError t API_REQUEST_ERROR) None
                 (t API_REQUEST_ERROR) h
          else onMessageUpdate eager (UResponse generation choices) h).
Definition receive_failure (eager eager' : option clock) (t : jsstr -> jsstr) (generation : nat)
    (message : jsstr) (code : option jsstr) (h : handler) : handler :=
  if negb (generation =? h_generation h)%nat then h
  else settle_request generation
         (handleStreamError eager eager' generation (getDisplayError t message) code (t API_REQUEST_ERROR) h).

Definition stopGeneration (eager eager' : option clock) (h : handler) : handler :=
  let stoppedGeneration := h_generation h in
  let h := flushStreamUpdates eager stoppedGeneration h in
  let idleGeneration := S stoppedGeneration in
  let h := discardPendingStreamUpdates idleGeneration (with_generation idleGeneration h) in
  onMessageUpdate eager' (UStopped idleGeneration) (with_requesting false h).

(** The cleanup of the hook: the timer does not go off any more. *)
Definition unmount_handler (h : handler) : handler :=
  with_timer None (with_generation (S (h_generation h)) h).

(** [isGenerating]. *)
Definition isGenerating (c : controller) (h : handler) : bool := c_streaming c || h_requesting h.
