(* ===== verification/ChatFacts.v ===== *)
(** Facts on the messages of the playground: the parts that think tags separate, what a
    streamed text becomes, and the status of messages. *)
From Stdlib Require Import ZArith Lia Bool String SpecFloat.
From stdpp Require Import base list option.
From S2P Require Import Prelude JsString JsNumber JsValue ChatMessage StreamControl ChatHandler.

(** * Think tags *)

Lemma index_of_some p s i : index_of p s = Some i ->
  s = take i s ++ p ++ drop (i + length p) s /\ i + length p <= length s /\
  (forall j, j < i -> starts_with p (drop j s) = false).
Proof.
  revert i. induction s as [|c s IH]; intros i H; cbn [index_of] in H; destruct (starts_with p _) eqn:E.
  - injection H as <-. apply starts_with_spec in E as [t E]. symmetry in E. apply app_nil in E as [-> ->].
    split_and!; [done|done|intros; lia].
  - done.
  - injection H as <-. apply starts_with_spec in E as [t E]. rewrite E. cbn [Nat.add take app].
    rewrite drop_app_length, length_app. split_and!; [done|lia|intros; lia].
  - destruct (index_of p s) as [k|] eqn:Ek; [|done]. injection H as <-. destruct (IH k eq_refl) as (H1 & H2 & H3).
    split_and!; [cbn; by f_equal|cbn; lia|]. intros [|j] Hj; [done|]. apply H3. lia.
Qed.

Lemma index_of_none p s : index_of p s = None <-> includes p s = false.
Proof.
  induction s as [|c s IH]; cbn [index_of includes]; destruct (starts_with p _); cbn [orb]; try done.
  rewrite <- IH. by destruct (index_of p s).
Qed.

(** What comes before the first occurrence does not contain it. *)
Lemma before_first p s i : index_of p s = Some i -> p <> [] -> includes p (take i s) = false.
Proof.
  intros H Hp. destruct (index_of_some p s i H) as (_ & Hi & Hfirst). apply index_of_none.
  destruct (index_of p (take i s)) as [j|] eqn:E; [|done]. exfalso.
  destruct (index_of_some _ _ _ E) as (Es & Hl & _). rewrite length_take in Hl.
  assert (0 < length p) by (destruct p; [done|cbn; lia]).
  specialize (Hfirst j ltac:(lia)). apply not_true_iff_false in Hfirst. apply Hfirst.
  rewrite <- (take_drop i s), drop_app_le by (rewrite length_take; lia). apply starts_with_app, starts_with_spec.
  exists (drop (j + length p) (take i s)). rewrite Es at 1. rewrite drop_app_length'; [done|].
  rewrite !length_take. lia.
Qed.

Lemma join_concat_empty l : join [] l = concat l.
Proof. induction l as [|x l IH]; [done|]. destruct l as [|y l]; [cbn; by rewrite app_nil_r|].
  change (join [] (x :: y :: l)) with (x ++ join [] (y :: l)). by rewrite IH.
Qed.

Record think_parts := ThinkParts { tp_blocks : list (jsstr * jsstr); tp_rest : jsstr; tp_open : option jsstr }.

(** The text that the parts make up. *)
Definition think_text (p : think_parts) : jsstr :=
  concat (map (fun b => b.1 ++ OPEN_TAG ++ b.2 ++ CLOSE_TAG) (tp_blocks p)) ++ tp_rest p
  ++ match tp_open p with Some r => OPEN_TAG ++ r | None => [] end.

(** No part contains the tag that ends it. *)
Definition parts_separate (p : think_parts) : Prop :=
  Forall (fun b => includes OPEN_TAG b.1 = false /\ includes CLOSE_TAG b.2 = false) (tp_blocks p) /\
  includes OPEN_TAG (tp_rest p) = false /\
  match tp_open p with Some r => includes CLOSE_TAG r = false | None => True end.

Definition reasonings (p : think_parts) : list jsstr := map snd (tp_blocks p) ++ opt_list (tp_open p).
Definition visible (p : think_parts) : jsstr := concat (map fst (tp_blocks p)) ++ tp_rest p.

Lemma think_loop_parts fuel : forall rest v r, length rest < fuel ->
  exists p v', rest = think_text p /\ parts_separate p /\
    think_loop fuel rest v r = (v', r ++ reasonings p, is_some (tp_open p)) /\ concat v' = concat v ++ visible p.
Proof.
  induction fuel as [|fuel IH]; intros rest v r Hf; [lia|]. cbn [think_loop].
  destruct (index_of OPEN_TAG rest) as [i|] eqn:Ei.
  2: { exists (ThinkParts [] rest None), (match rest with [] => v | _ => v ++ [rest] end).
       split_and!; [unfold think_text; cbn; by rewrite app_nil_r|by split; [constructor|]; split; [apply index_of_none|]
                   |unfold reasonings; cbn; by rewrite app_nil_r|].
       unfold visible. cbn. destruct rest; [by rewrite app_nil_r|]. by rewrite concat_app; cbn; rewrite app_nil_r. }
  destruct (index_of_some _ _ _ Ei) as (Es & _ & _). pose proof (before_first _ _ _ Ei ltac:(done)) as Hb.
  change (i + length OPEN_TAG)%nat with (i + 7) in Es. set (inside := drop (i + 7) rest) in *.
  set (v1 := match i with 0 => v | _ => v ++ [take i rest] end).
  assert (Hv1 : concat v1 = concat v ++ take i rest).
  { unfold v1. destruct i; [cbn; by rewrite app_nil_r|]. rewrite concat_app. cbn [concat]. by rewrite app_nil_r. }
  destruct (index_of CLOSE_TAG inside) as [j|] eqn:Ej.
  - destruct (index_of_some _ _ _ Ej) as (Es' & _ & _). pose proof (before_first _ _ _ Ej ltac:(done)) as Hb'.
    change (j + length CLOSE_TAG)%nat with (j + 8) in Es'.
    destruct (IH (drop (j + 8) inside) v1 (r ++ [take j inside])) as (p & v' & Hp & Hsep & Hl & Hc).
    { apply (f_equal length) in Es, Es'. rewrite !length_app in Es, Es'. cbn [length OPEN_TAG CLOSE_TAG] in Es, Es'.
      change (length OPEN_TAG) with 7 in Es. change (length CLOSE_TAG) with 8 in Es'. lia. }
    exists (ThinkParts ((take i rest, take j inside) :: tp_blocks p) (tp_rest p) (tp_open p)), v'.
    split_and!.
    + rewrite Es at 1. rewrite Es' at 1. rewrite Hp at 1. unfold think_text. cbn [tp_blocks tp_rest tp_open map concat fst snd].
      by rewrite <- !app_assoc.
    + destruct Hsep as (S1 & S2 & S3). split; [by constructor|done].
    + rewrite Hl. unfold reasonings. cbn [tp_blocks tp_open map snd]. by rewrite <- app_assoc.
    + rewrite Hc, Hv1. unfold visible. cbn [tp_blocks tp_rest map fst concat]. by rewrite <- !app_assoc.
  - exists (ThinkParts [] (take i rest) (Some inside)), v1. split_and!.
    + unfold think_text. cbn. exact Es.
    + split; [constructor|]. split; [done|]. by apply index_of_none.
    + done.
    + rewrite Hv1. unfold visible. done.
Qed.

(** Reasoning is told from visible text: every content is a sequence of visible texts
    and think blocks, the last of which may still be open, none containing the tag that
    ends it; [parseThinkTags] returns the visible texts put together, the reasoning
    of the blocks as paragraphs, and whether the last block is open.  The search ends
    for every content. *)
Theorem think_tags_split content :
  exists p, content = think_text p /\ parts_separate p /\
    parseThinkTags content
    = if includes OPEN_TAG content
      then ThinkTags (trim (visible p)) (trim (join [LF; LF] (reasonings p))) (is_some (tp_open p))
      else ThinkTags content [] false.
Proof.
  destruct (think_loop_parts (S (length content)) content [] []) as (p & v & Hp & Hs & Hl & Hv); [lia|].
  exists p. split; [done|]. split; [done|]. unfold parseThinkTags. destruct (includes OPEN_TAG content); [|done].
  cbn [negb]. rewrite Hl, join_concat_empty, Hv. done.
Qed.

(** * Streamed text *)

Lemma appended current chunk : current = [] \/ starts_with current chunk = false ->
  current ++ getAppendableChunk current chunk = current ++ chunk.
Proof. unfold getAppendableChunk. by intros [->| ->]; [|rewrite orb_true_r]. Qed.

Lemma merged current chunk : current = [] \/ starts_with current chunk = false ->
  mergePendingStreamChunk current chunk = current ++ chunk.
Proof. unfold mergePendingStreamChunk. by intros [->| ->]; [|rewrite orb_true_r]. Qed.

(** A message that chunks can still be added to. *)
Definition open_message (m : message) : Prop := m_from m = MAssistant /\ m_status m <> Some MError.

Lemma complete_reasoning_keeps t m :
  getMessageContent (completeReasoningTiming t m) = getMessageContent m /\ m_from (completeReasoningTiming t m) = m_from m /\
  m_status (completeReasoningTiming t m) = m_status m.
Proof. unfold completeReasoningTiming. destruct (m_reasoning m) as [r|]; [|done]. by destruct (rs_durationMs r). Qed.

Lemma process_content t m chunk :
  getMessageContent (processStreamingContent t m chunk) = getMessageContent m ++ chunk /\
  m_from (processStreamingContent t m chunk) = m_from m.
Proof. unfold processStreamingContent. by destruct (_ && _). Qed.

Lemma not_error m : m_status m <> Some MError -> has_status MError m = false.
Proof. intros H. unfold has_status. by apply bool_decide_eq_false. Qed.

Lemma chunk_reasoning t t' m chunk : open_message m ->
  open_message (applyStreamingChunk t t' m ReasoningChunk chunk) /\
  getMessageContent (applyStreamingChunk t t' m ReasoningChunk chunk) = getMessageContent m.
Proof. intros [Hf Hs]. unfold applyStreamingChunk. rewrite (not_error _ Hs). done. Qed.

Lemma chunk_content t t' m chunk : open_message m ->
  open_message (applyStreamingChunk t t' m ContentChunk chunk) /\
  getMessageContent (applyStreamingChunk t t' m ContentChunk chunk)
  = getMessageContent m ++ getAppendableChunk (getMessageContent m) chunk.
Proof.
  intros [Hf Hs]. unfold applyStreamingChunk. rewrite (not_error _ Hs). fold (getMessageContent m).
  set (p := processStreamingContent t m (getAppendableChunk (getMessageContent m) chunk)).
  destruct (process_content t m (getAppendableChunk (getMessageContent m) chunk)) as [Hc Hp]. fold p in Hc, Hp.
  destruct (complete_reasoning_keeps t' p) as (K1 & K2 & _).
  assert (Hws : forall x, getMessageContent (with_status MStreaming x) = getMessageContent x) by done.
  rewrite Hws. destruct (m_isReasoningStreaming p) as [[|]|];
    (split; [split; [cbn [with_status m_from]; congruence|done]|congruence]).
Qed.

Lemma chunks_applied t r c m : open_message m ->
  c = [] \/ getMessageContent m = [] \/ starts_with (getMessageContent m) c = false ->
  open_message (apply_chunks t r c m) /\ getMessageContent (apply_chunks t r c m) = getMessageContent m ++ c.
Proof.
  intros Hm Hc. unfold apply_chunks.
  set (m1 := match r with [] => m | _ => applyStreamingChunk (now0 t) (now1 t) m ReasoningChunk r end).
  assert (H1 : open_message m1 /\ getMessageContent m1 = getMessageContent m)
    by (unfold m1; destruct r; [done|by apply chunk_reasoning]).
  destruct H1 as [H1 E1]. destruct c as [|x c]; [rewrite app_nil_r; by rewrite E1|].
  destruct (chunk_content (now2 t) (now3 t) m1 (x :: c) H1) as [H2 E2]. split; [done|].
  rewrite E2, E1. apply appended. by destruct Hc as [?|?].
Qed.

(** ** Requests in progress *)

(** The last message is an open one with this content. *)
Definition shows_text (ms : list message) (text : jsstr) : Prop :=
  exists m, list.last ms = Some m /\ open_message m /\ getMessageContent m = text.

Lemma update_last ms (f : message -> message) m : list.last ms = Some m -> m_from m = MAssistant ->
  list.last (updateLastAssistantMessage ms f) = Some (f m).
Proof.
  intros Hl Hf. unfold updateLastAssistantMessage, from_role. rewrite Hl, bool_decide_true by done.
  by rewrite list.last_snoc.
Qed.

Lemma run_chunks t g r c ms text : shows_text ms text ->
  c = [] \/ text = [] \/ starts_with text c = false ->
  shows_text (run_updater t g (UChunks g r c) ms) (text ++ c).
Proof.
  intros (m & Hl & Hm & <-) Hc. cbn [run_updater]. rewrite Nat.eqb_refl. cbn [negb].
  destruct (chunks_applied t r c m Hm Hc) as [H1 H2]. exists (apply_chunks t r c m).
  split; [|done]. apply (update_last ms (apply_chunks t r c)); [done|apply Hm].
Qed.

(** The chunks never start with what came right before them: no chunk with the chunks
    before it, no run of chunks with the whole text before it. *)
Definition never_restarts (init : jsstr) (cs : list jsstr) : Prop :=
  (forall pre run x post, cs = pre ++ run ++ x :: post -> concat run <> [] -> starts_with (concat run) x = false) /\
  (forall pre run post, cs = pre ++ run ++ post -> concat run <> [] -> init ++ concat pre <> [] ->
     starts_with (init ++ concat pre) (concat run) = false).

(** What can happen while the chunks of a request arrive. *)
Inductive stream_event := SChunk (type : chunk_type) (chunk : jsstr) | STimer (eager : option clock) | SRender (t : clock).

Definition stream_step (g : nat) (h : handler) (e : stream_event) : handler :=
  match e with
  | SChunk type chunk => handleStreamUpdate g type chunk h
  | STimer eager => timer_fires eager h
  | SRender t => render t h
  end.

Definition content_chunks (es : list stream_event) : list jsstr :=
  omap (fun e => match e with SChunk ContentChunk c => Some c | _ => None end) es.

(** The text of the message, of the queued updates and of the pending chunks is the text
    of the chunks seen so far. *)
Record streams (g : nat) (init : jsstr) (seen : list jsstr) (h : handler) : Prop := {
  st_generation : h_generation h = g;
  st_pending : pc_generation (h_pending h) = g;
  st_timer : h_timer h = None \/ h_timer h = Some g;
  st_text : exists shown queued pending,
    seen = shown ++ concat queued ++ pending /\
    shows_text (h_messages h) (init ++ concat shown) /\
    Forall2 (fun u run => exists r, u = UChunks g r (concat run)) (h_queue h) queued /\
    pc_content (h_pending h) = concat pending;
}.

Lemma streams_chunk g init seen later h type chunk :
  never_restarts init (seen ++ content_chunks [SChunk type chunk] ++ later) -> streams g init seen h ->
  streams g init (seen ++ content_chunks [SChunk type chunk]) (handleStreamUpdate g type chunk h).
Proof.
  intros Hn [Hg Hp Ht (shown & queued & pending & Es & Hm & Hq & Hc)].
  unfold handleStreamUpdate. rewrite Hg, Hp, Nat.eqb_refl. cbn [negb].
  set (h' := with_pending (merge_pending type chunk (h_pending h)) h).
  assert (Hs : streams g init (seen ++ content_chunks [SChunk type chunk]) h').
  { constructor; [done|by destruct type|done|]. destruct type; cbn [content_chunks omap list_omap].
    - exists shown, queued, pending. rewrite app_nil_r. done.
    - exists shown, queued, (pending ++ [chunk]). split_and!; [rewrite Es; by rewrite <- !app_assoc|done|done|].
      cbn [h_pending h' with_pending merge_pending pc_content]. rewrite Hc, concat_app. cbn [concat]. rewrite app_nil_r.
      apply merged. destruct (concat pending) as [|x l] eqn:E; [by left|]. right. rewrite <- E.
      apply (proj1 Hn (shown ++ concat queued) pending chunk later); [|by rewrite E].
      rewrite Es. cbn. by rewrite <- !app_assoc. }
  unfold scheduleStreamFlush. change (h_generation h') with (h_generation h). rewrite Hg, Nat.eqb_refl. cbn [negb].
  destruct (h_timer h') eqn:E; [done|]. destruct Hs as [? ? _ ?]. constructor; auto.
Qed.

Lemma streams_render g init seen h t : never_restarts init seen -> streams g init seen h -> streams g init seen (render t h).
Proof.
  intros Hn [Hg Hp Ht (shown & queued & pending & Es & Hm & Hq & Hc)]. unfold render.
  destruct (h_queue h) as [|u rest] eqn:Eq.
  { constructor; try done. exists shown, queued, pending. by rewrite Eq. }
  inversion Hq as [|? run ? queued' [r ->] Hrest]; subst queued u.
  constructor; cbn [h_generation h_pending h_timer with_queue with_messages]; try done.
  exists (shown ++ run), queued', pending. cbn [h_messages h_queue with_queue with_messages]. split_and!.
  - rewrite Es. cbn [concat]. by rewrite <- !app_assoc.
  - rewrite concat_app, app_assoc, Hg. apply run_chunks; [done|].
    destruct (concat run) as [|x0 w0] eqn:E; [by left|]. right. rewrite <- E.
    destruct (init ++ concat shown) as [|y0 w1] eqn:E'; [by left|]. right. rewrite <- E'.
    apply (proj2 Hn shown run (concat queued' ++ pending)); [|by rewrite E|by rewrite E'].
    rewrite Es. cbn [concat]. by rewrite <- !app_assoc.
  - done.
  - done.
Qed.

(** Queueing the pending chunks. *)
Lemma streams_queued g init shown queued pending h r :
  h_generation h = g -> h_timer h = None -> shows_text (h_messages h) (init ++ concat shown) ->
  Forall2 (fun u run => exists r, u = UChunks g r (concat run)) (h_queue h) queued ->
  never_restarts init (shown ++ concat queued ++ pending) -> forall eager,
  streams g init (shown ++ concat queued ++ pending)
    (onMessageUpdate eager (UChunks g r (concat pending)) (with_pending (PendingChunks g [] []) h)).
Proof.
  intros Hg Ht Hm Hq Hn eager.
  assert (Hlater : streams g init (shown ++ concat queued ++ pending)
    (with_queue (h_queue h ++ [UChunks g r (concat pending)]) (with_pending (PendingChunks g [] []) h))).
  { constructor; cbn; auto. exists shown, (queued ++ [pending]), []. split_and!; [|done| |done].
    - rewrite concat_app. cbn [concat]. by rewrite !app_nil_r.
    - apply Forall2_app; [done|]. constructor; [by exists r|constructor]. }
  unfold onMessageUpdate. cbn [h_queue with_pending]. destruct (h_queue h) as [|u rest] eqn:Eq; [|done].
  destruct eager as [t|]; [|done]. inversion Hq; subst queued. cbn [concat app] in *.
  constructor; cbn [h_generation h_pending h_timer with_messages with_pending pc_generation]; auto.
  exists (shown ++ pending), [], []. cbn [h_messages h_queue with_messages with_pending h_pending pc_content concat app].
  rewrite app_nil_r. split_and!; [done| |by rewrite Eq|done].
  rewrite concat_app, app_assoc. cbn [h_generation with_pending]. rewrite Hg. apply run_chunks; [done|].
  destruct (concat pending) as [|x0 w0] eqn:E; [by left|]. right. rewrite <- E.
  destruct (init ++ concat shown) as [|y0 w1] eqn:E'; [by left|]. right. rewrite <- E'.
  apply (proj2 Hn shown pending []); [by rewrite app_nil_r|by rewrite E|by rewrite E'].
Qed.

Lemma streams_timer g init seen h eager : never_restarts init seen -> streams g init seen h ->
  streams g init seen (timer_fires eager h).
Proof.
  intros Hn S. pose proof S as [Hg Hp Ht (shown & queued & pending & Es & Hm & Hq & Hc)].
  unfold timer_fires. destruct Ht as [-> | ->]; [done|]. unfold flushStreamUpdates.
  rewrite Hg, Nat.eqb_refl. cbn [negb h_pending with_timer]. rewrite Hp, Nat.eqb_refl. cbn [negb].
  destruct (negb (truthy (pc_reasoning (h_pending h))) && negb (truthy (pc_content (h_pending h)))).
  - constructor; cbn; auto. exists shown, queued, pending. done.
  - rewrite Hc, Es. rewrite Es in Hn. by apply (streams_queued g init shown queued pending (with_timer None h)).
Qed.

Lemma never_restarts_prefix init cs later : never_restarts init (cs ++ later) -> never_restarts init cs.
Proof.
  intros [H1 H2]. split.
  - intros pre run x post ->. apply (H1 pre run x (post ++ later)). by rewrite <- !app_assoc.
  - intros pre run post ->. apply (H2 pre run (post ++ later)). by rewrite <- !app_assoc.
Qed.

Lemma streams_run g init es : forall seen h, never_restarts init (seen ++ content_chunks es) -> streams g init seen h ->
  streams g init (seen ++ content_chunks es) (fold_left (stream_step g) es h).
Proof.
  induction es as [|e es IH]; intros seen h Hn S; [by rewrite app_nil_r|]. cbn [fold_left].
  change (content_chunks (e :: es)) with (content_chunks ([e] ++ es)) in *.
  unfold content_chunks in *. rewrite omap_app, app_assoc in *. fold (content_chunks [e]) (content_chunks es) in *.
  apply IH; [done|]. pose proof (never_restarts_prefix _ _ _ Hn) as Hn'.
  destruct e as [type chunk|eager|t]; cbn [stream_step].
  - eapply streams_chunk; [|done]. by rewrite app_assoc.
  - cbn [content_chunks omap list_omap] in *. rewrite app_nil_r in *. by apply streams_timer.
  - cbn [content_chunks omap list_omap] in *. rewrite app_nil_r in *. by apply streams_render.
Qed.

(** C26. A streamed answer arrives whole: whatever the timing of the chunks, of the timer that flushes them and
    of React, once nothing is pending or queued the message holds the text it had before followed by all
    content chunks in order, provided that the chunks never restart ([never_restarts]): no chunk starts with the
    joined text, if there is any, of a run of chunks right before it, and no run of consecutive chunks, joined, starts with the
    whole text before it, if there is any.  (Any such run may be what one flush collects; without the condition text is lost,
    see [repeated_chunk_lost].) *)
Theorem streamed_text_exact g init es h m :
  h_generation h = g -> h_pending h = PendingChunks g [] [] -> h_timer h = None -> h_queue h = [] ->
  list.last (h_messages h) = Some m -> open_message m -> getMessageContent m = init ->
  never_restarts init (content_chunks es) ->
  let h' := fold_left (stream_step g) es h in
  h_queue h' = [] -> pc_content (h_pending h') = [] ->
  exists m', list.last (h_messages h') = Some m' /\ open_message m' /\
    getMessageContent m' = init ++ concat (content_chunks es).
Proof.
  intros Hg Hp Ht Hq Hl Hm Hi Hn h' Hq' Hp'.
  assert (S : streams g init [] h).
  { constructor; [done|by rewrite Hp|by left|]. exists [], [], []. rewrite Hq, Hp. split_and!; [done| |constructor|done].
    exists m. cbn [concat]. by rewrite app_nil_r. }
  destruct (streams_run g init es [] h Hn S) as [_ _ _ (shown & queued & pending & Es & (m' & H1 & H2 & H3) & H4 & H5)].
  fold h' in H1, H4, H5. rewrite Hq' in H4. inversion H4; subst queued. cbn [concat app] in Es.
  exists m'. split_and!; [done|done|]. cbn [app] in Es. rewrite Es, concat_app, <- H5, Hp', app_nil_r. done.
Qed.

(** ** Deciding the condition *)

Definition restart_at (init : jsstr) (cs : list jsstr) (i n : nat) : bool :=
  let before := init ++ concat (take i cs) in
  let run := concat (take n (drop i cs)) in
  truthy run &&
  (match drop n (drop i cs) with x :: _ => starts_with run x | [] => false end
   || truthy before && starts_with before run).

Definition restart_free (init : jsstr) (cs : list jsstr) : bool :=
  forallb (fun i => forallb (fun n => negb (restart_at init cs i n)) (seq 0 (S (length cs)))) (seq 0 (S (length cs))).

Lemma restart_free_sound init cs : restart_free init cs = true -> never_restarts init cs.
Proof.
  unfold restart_free. intros H.
  assert (G : forall pre run post, cs = pre ++ run ++ post -> restart_at init cs (length pre) (length run) = false).
  { intros pre run post E. apply negb_true_iff. rewrite forallb_forall in H.
    assert (Hl : length cs = length pre + (length run + length post)) by (rewrite E, !length_app; lia).
    specialize (H (length pre) ltac:(apply in_seq; lia)). rewrite forallb_forall in H. apply H. apply in_seq. lia. }
  assert (T : forall s : jsstr, s <> [] -> truthy s = true) by (by intros []).
  split; intros pre run.
  - intros x post E Hr. specialize (G pre run (x :: post) E). unfold restart_at in G. rewrite E in G.
    rewrite drop_app_length, take_app_length, drop_app_length, (T _ Hr) in G. cbn [andb] in G.
    by apply orb_false_iff in G as [G _].
  - intros post E Hr Hb. specialize (G pre run post E). unfold restart_at in G. rewrite E in G.
    rewrite drop_app_length, !take_app_length, (T _ Hr), (T _ Hb) in G. cbn [andb] in G.
    by apply orb_false_iff in G as [_ G].
Qed.

(** * What gets lost *)

Definition sample_clock : clock := Clock num_zero num_zero num_zero num_zero.
Definition sample_message : message := createLoadingAssistantMessage (js "k") (js "v") num_zero.
Definition sample_handler : handler :=
  Handler 1 (PendingChunks 1 [] []) None true [] [sample_message].

(** A chunk, the timer, a render. *)
Definition shown_chunk (text : string) : list stream_event :=
  [SChunk ContentChunk (js text); STimer None; SRender sample_clock].
(** Two chunks before the timer. *)
Definition merged_chunks (a b : string) : list stream_event := SChunk ContentChunk (js a) :: shown_chunk b.

Definition last_text (h : handler) : option jsstr := getMessageContent <$> list.last (h_messages h).
Definition text_after (es : list stream_event) : option jsstr :=
  last_text (fold_left (stream_step 1) es sample_handler).

(** A chunk that repeats the text before it is taken for that text sent again: of an
    answer that starts with two equal chunks one is lost, and later in an answer the text
    depends on whether the timer went off between the two. *)
Theorem repeated_chunk_lost :
  text_after (shown_chunk "ha" ++ shown_chunk "ha") = Some (js "ha") /\
  text_after (shown_chunk "x" ++ shown_chunk "ha" ++ shown_chunk "ha") = Some (js "xhaha") /\
  text_after (shown_chunk "x" ++ merged_chunks "ha" "ha") = Some (js "xha").
Proof. split_and!; vm_compute; reflexivity. Qed.

(** Stopping a generation flushes the pending chunks into an updater that still belongs
    to the stopped generation: unless React runs it at once, it finds the next
    generation and the chunks are dropped, and the message is completed without them. *)
Theorem stop_drops_pending h t t' :
  h_queue h = [] -> pc_generation (h_pending h) = h_generation h -> pc_content (h_pending h) <> [] ->
  let g := h_generation h in
  let finish := run_updater t' (S g) (UStopped (S g)) in
  h_messages (render t' (render t (stopGeneration None None h))) = finish (h_messages h) /\
  h_messages (render t' (stopGeneration (Some t) None h))
  = finish (run_updater t g (UChunks g (pc_reasoning (h_pending h)) (pc_content (h_pending h))) (h_messages h)).
Proof.
  intros Hq Hg Hc. destruct h as [g [pg pc pr] timer req queue ms]. cbn in Hq, Hg, Hc |- *. subst queue pg.
  destruct pc as [|c pc]; [done|].
  assert (E : forall e, flushStreamUpdates e g (Handler g (PendingChunks g (c :: pc) pr) timer req [] ms)
            = onMessageUpdate e (UChunks g pr (c :: pc)) (Handler g (PendingChunks g [] []) None req [] ms)).
  { intros e. unfold flushStreamUpdates. cbn [h_generation]. rewrite Nat.eqb_refl. cbn [negb h_pending with_timer pc_generation].
    rewrite Nat.eqb_refl. cbn [negb pc_reasoning pc_content truthy]. by rewrite andb_false_r. }
  unfold stopGeneration. cbn [h_generation]. rewrite !E. split; [|reflexivity].
  unfold render, onMessageUpdate. cbn. by destruct (g =? S g)%nat eqn:Eg; [apply Nat.eqb_eq in Eg; lia|].
Qed.

(** * Witnesses *)

Definition sample_stream : list stream_event :=
  [SChunk ReasoningChunk (js "why"); SChunk ContentChunk (js "Hel"); STimer None; SChunk ContentChunk (js "lo ");
   SChunk ContentChunk (js "you"); SRender sample_clock; STimer (Some sample_clock)].

Lemma streamed_text_exact_witness :
  exists m', list.last (h_messages (fold_left (stream_step 1) sample_stream sample_handler)) = Some m' /\
    open_message m' /\ getMessageContent m' = js "Hello you".
Proof.
  apply (streamed_text_exact 1 [] sample_stream sample_handler sample_message); try reflexivity.
  - by split.
  - apply restart_free_sound. vm_compute. reflexivity.
Defined.

Definition stopped_handler : handler := fold_left (stream_step 1) (shown_chunk "a" ++ [SChunk ContentChunk (js "b")]) sample_handler.

Lemma stop_drops_pending_witness :
  last_text (render sample_clock (render sample_clock (stopGeneration None None stopped_handler))) = Some (js "a") /\
  last_text (render sample_clock (stopGeneration (Some sample_clock) None stopped_handler)) = Some (js "ab").
Proof.
  destruct (stop_drops_pending stopped_handler sample_clock sample_clock) as [H1 H2]; [reflexivity|reflexivity|done|].
  unfold last_text. rewrite H1, H2. split; vm_compute; reflexivity.
Defined.
