(* ===== verification/Conversations.v ===== *)
(** The conversations that the playground keeps in the browser
    ([features/playground/lib/storage/storage-schema.ts] and [conversations.ts]): the
    schemas of messages, their objects, the list of conversations as a text of
    [localStorage], its loading, and the migration of the messages of older versions.
    Times and random identifiers are arguments. *)
From Stdlib Require Import ZArith Lia Bool String SpecFloat Permutation.
From stdpp Require Import base list option.
From S2P Require Import Prelude JsString JsNumber JsValue Collections JsInteger Json JsonText Schema ChatMessage.

#[local] Open Scope Z_scope.

(** * [localStorage] *)

(** The keys with their texts. *)
Definition storage := list (jsstr * jsstr).

(** The browser: whether [localStorage] may be used at all, and which contents fit the
    quota.  Without access every call throws. *)
Class LocalStorage := { storage_available : bool; storage_fits : storage -> bool }.

Section Browser.
Context {L : LocalStorage}.

Definition getItem (key : jsstr) (st : storage) : result property_error (option jsstr) :=
  if storage_available then Ok (mget st key) else Err TypeError.
Definition setItem (key value : jsstr) (st : storage) : result property_error storage :=
  if storage_available && storage_fits (mput key value st) then Ok (mput key value st) else Err TypeError.
Definition removeItem (key : jsstr) (st : storage) : result property_error storage :=
  if storage_available then Ok (List.filter (fun e => negb (str_eqb e.1 key)) st) else Err TypeError.

End Browser.

(** * [storage-schema.ts] *)

Definition STORAGE_VERSION : number := num_of_Z 1.
Definition MAX_STORED_MESSAGES : nat := 100.
Definition MAX_STORED_MESSAGES_BYTES : nat := Z.to_nat (1024 * 1024).
Definition MAX_LOADED_MESSAGES_CHARS : nat := Z.to_nat 120000.
Definition MAX_LOADED_MESSAGE_CHARS : nat := Z.to_nat 40000.

Definition messageRoleSchema : schema := ZEnum ["user"; "assistant"; "system"]%string.
Definition messageStatusSchema : schema := ZEnum ["loading"; "streaming"; "complete"; "error"]%string.
Definition messageVersionSchema : schema :=
  ZObject [("id", ZString); ("content", ZString); ("images", ZOptional (ZArray ZString 0))]%string.
Definition sourceSchema : schema := ZObject [("href", ZString); ("title", ZString)]%string.
Definition reasoningSchema : schema :=
  ZObject [("content", ZString); ("duration", ZNumber); ("startedAt", ZOptional ZNumber);
           ("completedAt", ZOptional ZNumber); ("durationMs", ZOptional ZNumber)]%string.
Definition messageSchema : schema :=
  ZObject [("key", ZString); ("from", messageRoleSchema); ("versions", ZArray messageVersionSchema 1);
           ("createdAt", ZOptional ZNumber); ("startedAt", ZOptional ZNumber); ("completedAt", ZOptional ZNumber);
           ("durationMs", ZOptional ZNumber); ("sources", ZOptional (ZArray sourceSchema 0));
           ("reasoning", ZOptional reasoningSchema); ("isReasoningStreaming", ZOptional ZBoolean);
           ("isReasoningComplete", ZOptional ZBoolean); ("isContentComplete", ZOptional ZBoolean);
           ("status", ZOptional messageStatusSchema); ("errorCode", ZOptional (ZNullable ZString))]%string.
Definition messagesSchema : schema := ZArray messageSchema 0.

(** * Messages as objects *)

Definition field (k : string) (v : option jsvalue) : list (jsstr * jsvalue) :=
  match v with Some x => [(js k, x)] | None => [] end.

Definition role_text (r : message_role) : jsstr :=
  match r with MUser => js "user" | MAssistant => js "assistant" | MSystem => js "system" end.
Definition status_text (s : message_status) : jsstr :=
  match s with MLoading => js "loading" | MStreaming => js "streaming" | MComplete => js "complete" | MError => js "error" end.
Definition nullable_text (s : option jsstr) : jsvalue := match s with Some t => JStr t | None => JNull end.

Definition version_object (v : message_version) : jsvalue :=
  JObj (field "id" (Some (JStr (mv_id v))) ++ field "content" (Some (JStr (mv_content v)))
        ++ field "images" ((fun l => JArr (map JStr l)) <$> mv_images v)).
Definition source_object (s : jsstr * jsstr) : jsvalue :=
  JObj (field "href" (Some (JStr s.1)) ++ field "title" (Some (JStr s.2))).
Definition reasoning_object (r : message_reasoning) : jsvalue :=
  JObj (field "content" (Some (JStr (rs_content r))) ++ field "duration" (Some (JNum (rs_duration r)))
        ++ field "startedAt" (JNum <$> rs_startedAt r) ++ field "completedAt" (JNum <$> rs_completedAt r)
        ++ field "durationMs" (JNum <$> rs_durationMs r)).
(** A message; fields that are [undefined] are left out. *)
Definition message_object (m : message) : jsvalue :=
  JObj (field "key" (Some (JStr (m_key m))) ++ field "from" (Some (JStr (role_text (m_from m))))
        ++ field "versions" (Some (JArr (map version_object (m_versions m))))
        ++ field "createdAt" (JNum <$> m_createdAt m) ++ field "startedAt" (JNum <$> m_startedAt m)
        ++ field "completedAt" (JNum <$> m_completedAt m) ++ field "durationMs" (JNum <$> m_durationMs m)
        ++ field "sources" ((fun l => JArr (map source_object l)) <$> m_sources m)
        ++ field "reasoning" (reasoning_object <$> m_reasoning m)
        ++ field "isReasoningStreaming" (JBool <$> m_isReasoningStreaming m)
        ++ field "isReasoningComplete" (JBool <$> m_isReasoningComplete m)
        ++ field "isContentComplete" (JBool <$> m_isContentComplete m)
        ++ field "status" ((fun s => JStr (status_text s)) <$> m_status m)
        ++ field "errorCode" (nullable_text <$> m_errorCode m)).

(** Reading an object as what its type says, as the code does with [as Message]. *)
Definition as_text (v : jsvalue) : option jsstr := match v with JStr s => Some s | _ => None end.
Definition as_number (v : jsvalue) : option number := match v with JNum n => Some n | _ => None end.
Definition as_boolean (v : jsvalue) : option bool := match v with JBool b => Some b | _ => None end.
Definition as_list {A} (read : jsvalue -> option A) (v : jsvalue) : option (list A) :=
  match v with JArr l => mapM read l | _ => None end.
Definition as_nullable {A} (read : jsvalue -> option A) (v : jsvalue) : option (option A) :=
  match v with JNull => Some None | _ => Some <$> read v end.
Definition required {A} (read : jsvalue -> option A) (f : list (jsstr * jsvalue)) (k : string) : option A :=
  own f (js k) ≫= read.
Definition optional {A} (read : jsvalue -> option A) (f : list (jsstr * jsvalue)) (k : string) : option (option A) :=
  match own f (js k) with None => Some None | Some v => Some <$> read v end.

Definition read_role (v : jsvalue) : option message_role :=
  t ← as_text v; find (fun r => str_eqb t (role_text r)) [MUser; MAssistant; MSystem].
Definition read_status (v : jsvalue) : option message_status :=
  t ← as_text v; find (fun s => str_eqb t (status_text s)) [MLoading; MStreaming; MComplete; MError].
Definition read_version (v : jsvalue) : option message_version :=
  match v with
  | JObj f =>
      id ← required as_text f "id"; content ← required as_text f "content";
      images ← optional (as_list as_text) f "images"; Some (MessageVersion id content images)
  | _ => None
  end.
Definition read_source (v : jsvalue) : option (jsstr * jsstr) :=
  match v with
  | JObj f => href ← required as_text f "href"; title ← required as_text f "title"; Some (href, title)
  | _ => None
  end.
Definition read_reasoning (v : jsvalue) : option message_reasoning :=
  match v with
  | JObj f =>
      content ← required as_text f "content"; duration ← required as_number f "duration";
      startedAt ← optional as_number f "startedAt"; completedAt ← optional as_number f "completedAt";
      durationMs ← optional as_number f "durationMs";
      Some (MessageReasoning content duration startedAt completedAt durationMs)
  | _ => None
  end.
Definition read_message (v : jsvalue) : option message :=
  match v with
  | JObj f =>
      key ← required as_text f "key"; from ← required read_role f "from";
      versions ← required (as_list read_version) f "versions";
      createdAt ← optional as_number f "createdAt"; startedAt ← optional as_number f "startedAt";
      completedAt ← optional as_number f "completedAt"; durationMs ← optional as_number f "durationMs";
      sources ← optional (as_list read_source) f "sources"; reasoning ← optional read_reasoning f "reasoning";
      streaming ← optional as_boolean f "isReasoningStreaming"; reasoned ← optional as_boolean f "isReasoningComplete";
      complete ← optional as_boolean f "isContentComplete"; status ← optional read_status f "status";
      errorCode ← optional (as_nullable as_text) f "errorCode";
      Some (Message key from versions createdAt startedAt completedAt durationMs sources reasoning
              streaming reasoned complete status errorCode)
  | _ => None
  end.

(** * [conversations.ts] *)

Definition MESSAGES_KEY : jsstr := js "playground_messages".
Definition CONVERSATIONS_KEY : jsstr := js "playground_conversations".
Definition ACTIVE_CONVERSATION_KEY : jsstr := js "playground_active_conversation".
Definition MAX_CONVERSATIONS : nat := 50.

Record conversation := Conversation {
  cv_id : jsstr; cv_title : jsstr; cv_createdAt : number; cv_updatedAt : number; cv_messages : list message;
}.

Definition conversationSchema : schema :=
  ZObject [("id", ZString); ("title", ZString); ("createdAt", ZNumber); ("updatedAt", ZNumber);
           ("messages", messagesSchema)]%string.
Definition conversationsSchema : schema := ZArray conversationSchema 0.

Definition messages_object (ms : list message) : jsvalue := JArr (map message_object ms).
Definition conversation_object (c : conversation) : jsvalue :=
  JObj (field "id" (Some (JStr (cv_id c))) ++ field "title" (Some (JStr (cv_title c)))
        ++ field "createdAt" (Some (JNum (cv_createdAt c))) ++ field "updatedAt" (Some (JNum (cv_updatedAt c)))
        ++ field "messages" (Some (messages_object (cv_messages c)))).
Definition read_conversation (v : jsvalue) : option conversation :=
  match v with
  | JObj f =>
      id ← required as_text f "id"; title ← required as_text f "title";
      createdAt ← required as_number f "createdAt"; updatedAt ← required as_number f "updatedAt";
      messages ← required (as_list read_message) f "messages";
      Some (Conversation id title createdAt updatedAt messages)
  | _ => None
  end.

(** [text.replace(/\s+/g, ' ')]; [after] tells whether the last character was a space. *)
Fixpoint collapse_spaces (after : bool) (s : jsstr) : jsstr :=
  match s with
  | [] => []
  | c :: s' =>
      if is_space c then (if after then collapse_spaces true s' else 32 :: collapse_spaces true s')
      else c :: collapse_spaces false s'
  end.

Definition deriveConversationTitle (messages : list message) : jsstr :=
  let text := match find (from_role MUser) messages with
              | Some m => match m_versions m with v :: _ => trim (mv_content v) | [] => [] end
              | None => []
              end in
  if negb (truthy text) then js "New chat"
  else
    let oneLine := collapse_spaces false text in
    if (40 <? length oneLine)%nat then take 40 oneLine ++ [8230] else oneLine.

Definition createConversation (id : jsstr) (now : number) (messages : list message) : conversation :=
  Conversation id (deriveConversationTitle messages) now now messages.

Section Store.
Context {L : LocalStorage} {ZD : Zod}.

Definition readRaw (key : jsstr) (st : storage) : option jsstr :=
  match getItem key st with Ok value => value | Err _ => None end.
Definition writeRaw (key value : jsstr) (st : storage) : storage * bool :=
  match setItem key value st with Ok st' => (st', true) | Err _ => (st, false) end.

(** [[...conversations].sort(...).slice(0, 50).sort(...)]. *)
Definition by_updated (a b : conversation) : Z := by_number (cv_updatedAt b) (cv_updatedAt a).
Definition by_created (a b : conversation) : Z := by_number (cv_createdAt a) (cv_createdAt b).
Definition order_conversations (cs : list conversation) : list conversation :=
  sort_by by_created (take MAX_CONVERSATIONS (sort_by by_updated cs)).

(** The text of a list; [None] when it is refused. *)
Definition serialize (cs : list conversation) : option jsstr :=
  zod_parse conversationsSchema (JArr (map conversation_object cs)) ≫= JSON_stringify_plain.

(** The loop over [drop]: [candidate] is [ordered.slice(drop)]. *)
Fixpoint save_loop (candidate : list conversation) (st : storage) : storage :=
  match candidate with
  | [] => st
  | _ :: older_dropped =>
      match serialize candidate with
      | None => save_loop older_dropped st
      | Some serialized =>
          let '(st', written) := writeRaw CONVERSATIONS_KEY serialized st in
          if written then st' else save_loop older_dropped st'
      end
  end.

Definition saveConversations (cs : list conversation) (st : storage) : storage :=
  save_loop (order_conversations cs) st.

Definition loadActiveConversationId (st : storage) : option jsstr := readRaw ACTIVE_CONVERSATION_KEY st.
Definition saveActiveConversationId (id : jsstr) (st : storage) : storage :=
  (writeRaw ACTIVE_CONVERSATION_KEY id st).1.

(** [readRaw(key)] when it is not empty. *)
Definition read_text (key : jsstr) (st : storage) : option jsstr :=
  match readRaw key st with Some ((_ :: _) as t) => Some t | _ => None end.

(** The migration of the messages of older versions; the result and the storage. *)
Definition migrateLegacyMessages (id : jsstr) (now : number) (st : storage) : option (list conversation) * storage :=
  match read_text CONVERSATIONS_KEY st with
  | Some _ => (None, st)
  | None =>
      match read_text MESSAGES_KEY st with
      | None => (None, st)
      | Some legacy =>
          match JSON_parse legacy with
          | Err _ => (None, st)
          | Ok decoded =>
              match zod_parse messagesSchema decoded ≫= as_list read_message with
              | None | Some [] => (None, st)
              | Some parsed =>
                  let conversation := createConversation id now parsed in
                  let st := saveConversations [conversation] st in
                  let st := saveActiveConversationId (cv_id conversation) st in
                  let st := match removeItem MESSAGES_KEY st with Ok st' => st' | Err _ => st end in
                  (Some [conversation], st)
              end
          end
      end
  end.

(** The conversations of a stored array that fit the schema. *)
Definition salvage (decoded : list jsvalue) : list conversation :=
  omap (fun item => zod_parse conversationSchema item ≫= read_conversation) decoded.

Definition stored_conversations (st : storage) : list conversation :=
  match read_text CONVERSATIONS_KEY st with
  | Some raw => match JSON_parse raw with Ok (JArr decoded) => salvage decoded | _ => [] end
  | None => []
  end.

Definition loadConversations (id : jsstr) (now : number) (st : storage) : list conversation * storage :=
  let '(migrated, st) := migrateLegacyMessages id now st in
  match stored_conversations st with
  | [] => (match migrated with Some cs => cs | None => [createConversation id now []] end, st)
  | salvaged => (salvaged, st)
  end.

End Store.
