(* ===== verification/ConversationFacts.v ===== *)
(** What the playground stores it reads back: objects of messages and conversations,
    saving under a quota, loading, and the migration of older messages. *)
From Stdlib Require Import ZArith Lia Bool String SpecFloat Permutation Sorted.
From stdpp Require Import base list option.
From S2P Require Import Prelude JsString JsNumber JsValue Collections JsInteger Json JsonText Schema ChatMessage Conversations.

#[local] Open Scope Z_scope.

(** * Objects *)

Lemma own_field k k' o (f : list (jsstr * jsvalue)) : own (field k' o ++ f) (js k) =
  match (if String.eqb k k' then o else None) with Some v => Some v | None => own f (js k) end.
Proof.
  destruct (String.eqb_spec k k') as [->|Hne]; destruct o as [v|]; cbn [field app own]; rewrite ?str_eqb_refl; try done.
  destruct (str_eqb_reflect (js k) (js k')) as [E|]; [|done]. by apply js_inj in E.
Qed.

Lemma own_last_field k k' o : own (field k' o) (js k) = if String.eqb k k' then o else None.
Proof. rewrite <- (app_nil_r (field k' o)), own_field. destruct (if String.eqb k k' then o else None); done. Qed.

(** Looking up a field of an object that is written field by field. *)
Ltac find_fields :=
  unfold required, optional; repeat (rewrite own_field; simpl String.eqb; cbv iota);
  rewrite ?own_last_field; simpl String.eqb; cbv iota.

Lemma mapM_objects {A} (write : A -> jsvalue) (read : jsvalue -> option A) l :
  (forall x, read (write x) = Some x) -> mapM read (map write l) = Some l.
Proof.
  intros H. apply mapM_Some. induction l as [|x l IH]; [constructor|]. cbn [map]. by constructor.
Qed.

Lemma read_version_object v : read_version (version_object v) = Some v.
Proof.
  destruct v as [id content images]. unfold read_version, version_object. find_fields. cbn.
  destruct images as [l|]; cbn; [|done]. by rewrite mapM_objects by done.
Qed.

Lemma read_source_object s : read_source (source_object s) = Some s.
Proof. destruct s. unfold read_source, source_object. find_fields. done. Qed.

Lemma option_match {A B} (o : option A) (d : option B) (f : A -> option B) :
  match (match o with Some v => Some v | None => None end) with Some v => f v | None => d end =
  match o with Some v => f v | None => d end.
Proof. by destruct o. Qed.

Lemma optional_written {A B} (write : A -> B) (read : B -> option A) (o : option A) :
  (forall x, read (write x) = Some x) ->
  match write <$> o with Some v => Some <$> read v | None => Some None end = Some o.
Proof. intros H. destruct o as [x|]; cbn; [by rewrite H|done]. Qed.

Lemma read_reasoning_object r : read_reasoning (reasoning_object r) = Some r.
Proof.
  destruct r as [content duration s c d]. unfold read_reasoning, reasoning_object. cbn [rs_content rs_duration rs_startedAt rs_completedAt rs_durationMs].
  find_fields. rewrite !option_match, !optional_written by done. done.
Qed.

Lemma read_role_text r : read_role (JStr (role_text r)) = Some r.
Proof. by destruct r. Qed.
Lemma read_status_text s : read_status (JStr (status_text s)) = Some s.
Proof. by destruct s. Qed.
Lemma read_nullable_text c : as_nullable as_text (nullable_text c) = Some c.
Proof. by destruct c. Qed.

Lemma read_message_object m : read_message (message_object m) = Some m.
Proof.
  destruct m as [key from versions createdAt startedAt completedAt durationMs sources reasoning b1 b2 b3 status code].
  unfold read_message, message_object.
  cbn [m_key m_from m_versions m_createdAt m_startedAt m_completedAt m_durationMs m_sources m_reasoning
       m_isReasoningStreaming m_isReasoningComplete m_isContentComplete m_status m_errorCode].
  find_fields. rewrite !option_match.
  rewrite !(optional_written JNum), !(optional_written JBool), (optional_written reasoning_object),
    (optional_written (fun s => JStr (status_text s))), (optional_written nullable_text),
    (optional_written (fun l => JArr (map source_object l)))
    by (done || apply read_reasoning_object || apply read_status_text || apply read_nullable_text ||
        (intros l; apply mapM_objects, read_source_object)).
  unfold mbind, option_bind, as_text at 1. rewrite read_role_text. cbn [as_list].
  by rewrite mapM_objects by apply read_version_object.
Qed.

Lemma read_messages_object ms : as_list read_message (messages_object ms) = Some ms.
Proof. apply mapM_objects, read_message_object. Qed.

Lemma read_conversation_object c : read_conversation (conversation_object c) = Some c.
Proof.
  destruct c as [id title created updated ms]. unfold read_conversation, conversation_object.
  cbn [cv_id cv_title cv_createdAt cv_updatedAt cv_messages]. find_fields.
  unfold mbind, option_bind, as_text, as_number. by rewrite read_messages_object.
Qed.

(** * Values of the schemas are such objects *)

Lemma conforms_next k s shape fields : conforms_fields conforms ((k, s) :: shape) fields = true ->
  exists o rest, fields = field k o ++ rest /\ conforms_fields conforms shape rest = true /\
    match o with Some v => conforms s v = true /\ is_undefined v = false | None => is_optional s = true end.
Proof.
  cbn [conforms_fields]. destruct fields as [|[k' v] fields].
  - intros H. bools. exists None, []. done.
  - destruct (str_eqb_reflect k' (js k)) as [->|Hne]; intros H; bools.
    + exists (Some v), fields. done.
    + exists None, ((k', v) :: fields). done.
Qed.

Lemma conforms_end fields : conforms_fields conforms [] fields = true -> fields = [].
Proof. by destruct fields. Qed.

(** Split an object along its shape. *)
Ltac split_fields H :=
  repeat (let o := fresh "o" in let rest := fresh "rest" in let Ho := fresh "Ho" in
          apply conforms_next in H as (o & rest & -> & H & Ho));
  apply conforms_end in H as ->.

(** A required field is there and an optional one, when it is there, has its schema. *)
Lemma required_there s o : is_optional s = false ->
  match o with Some v => conforms s v = true /\ is_undefined v = false | None => is_optional s = true end ->
  exists v, o = Some v /\ conforms s v = true.
Proof. destruct o as [v|]; [|congruence]. intros _ [? ?]. eauto. Qed.

Lemma optional_there {A} s o (write : A -> jsvalue) : (forall v, conforms s v = true -> exists x, v = write x) ->
  match o with Some v => conforms (ZOptional s) v = true /\ is_undefined v = false
             | None => is_optional (ZOptional s) = true end ->
  exists x, o = write <$> x.
Proof.
  intros H Ho. destruct o as [v|]; [|by exists None]. destruct Ho as [Hc Hu].
  assert (Hs : conforms s v = true) by (by destruct v). destruct (H v Hs) as [x ->]. by exists (Some x).
Qed.

Lemma conforms_string v : conforms ZString v = true -> exists s, v = JStr s.
Proof. destruct v; try done. eauto. Qed.
Lemma conforms_number v : conforms ZNumber v = true -> exists n, v = JNum n.
Proof. destruct v; try done. eauto. Qed.
Lemma conforms_boolean v : conforms ZBoolean v = true -> exists b, v = JBool b.
Proof. destruct v; try done. eauto. Qed.
Lemma conforms_nullable v : conforms (ZNullable ZString) v = true -> exists c, v = nullable_text c.
Proof. destruct v; try done; [by exists None|by exists (Some s)]. Qed.

Lemma conforms_array {A} item min (write : A -> jsvalue) v :
  (forall w, conforms item w = true -> exists x, w = write x) ->
  conforms (ZArray item min) v = true -> exists l, v = JArr (map write l).
Proof.
  intros H. cbn [conforms]. destruct v as [| | | | |l|]; try done. intros Hl. bools. rewrite forallb_forall in H1.
  assert (Hw : Forall (fun w => exists x, w = write x) l).
  { apply Forall_elem. intros w Hw. apply H, H1. by apply list_elem_of_In. }
  clear -Hw. induction Hw as [|w l [x ->] _ [xs E]]; [by exists []|]. injection E as ->. by exists (x :: xs).
Qed.

Lemma conforms_role v : conforms messageRoleSchema v = true -> exists r, v = JStr (role_text r).
Proof.
  cbn [messageRoleSchema conforms]. destruct v; try done. intros H. apply one_of_In in H as (t & Hin & ->).
  destruct Hin as [<-|[<-|[<-|[]]]]; [by exists MUser|by exists MAssistant|by exists MSystem].
Qed.
Lemma conforms_status v : conforms messageStatusSchema v = true -> exists s, v = JStr (status_text s).
Proof.
  cbn [messageStatusSchema conforms]. destruct v; try done. intros H. apply one_of_In in H as (t & Hin & ->).
  destruct Hin as [<-|[<-|[<-|[<-|[]]]]]; [by exists MLoading|by exists MStreaming|by exists MComplete|by exists MError].
Qed.

(** The value of a field from its schema. *)
Ltac required_field Ho lemma :=
  apply required_there in Ho as (? & -> & Ho); [|reflexivity]; apply lemma in Ho as [? ->].
Ltac optional_field Ho lemma := apply (optional_there _ _ _ lemma) in Ho as [? ->].

Lemma conforms_object shape v : conforms (ZObject shape) v = true ->
  exists f, v = JObj f /\ conforms_fields conforms shape f = true.
Proof. destruct v; try done. eauto. Qed.

Lemma conforms_version v : conforms messageVersionSchema v = true -> exists x, v = version_object x.
Proof.
  intros H. apply conforms_object in H as (f & -> & H). split_fields H.
  required_field Ho conforms_string. required_field Ho0 conforms_string.
  optional_field Ho1 (fun v => conforms_array _ 0 JStr v conforms_string).
  eexists (MessageVersion _ _ _). unfold version_object. cbn [mv_id mv_content mv_images]. by rewrite app_nil_r.
Qed.

Lemma conforms_source v : conforms sourceSchema v = true -> exists x, v = source_object x.
Proof.
  intros H. apply conforms_object in H as (f & -> & H). split_fields H.
  required_field Ho conforms_string. required_field Ho0 conforms_string. by eexists (_, _).
Qed.

Lemma conforms_reasoning v : conforms reasoningSchema v = true -> exists x, v = reasoning_object x.
Proof.
  intros H. apply conforms_object in H as (f & -> & H). split_fields H.
  required_field Ho conforms_string. required_field Ho0 conforms_number. optional_field Ho1 conforms_number.
  optional_field Ho2 conforms_number. optional_field Ho3 conforms_number.
  eexists (MessageReasoning _ _ _ _ _). unfold reasoning_object.
  cbn [rs_content rs_duration rs_startedAt rs_completedAt rs_durationMs]. by rewrite app_nil_r.
Qed.

Lemma conforms_message v : conforms messageSchema v = true -> exists m, v = message_object m.
Proof.
  intros H. apply conforms_object in H as (f & -> & H). split_fields H.
  required_field Ho conforms_string. required_field Ho0 conforms_role.
  required_field Ho1 (fun v => conforms_array _ 1 version_object v conforms_version).
  optional_field Ho2 conforms_number. optional_field Ho3 conforms_number. optional_field Ho4 conforms_number.
  optional_field Ho5 conforms_number. optional_field Ho6 (fun v => conforms_array _ 0 source_object v conforms_source).
  optional_field Ho7 conforms_reasoning. optional_field Ho8 conforms_boolean. optional_field Ho9 conforms_boolean.
  optional_field Ho10 conforms_boolean. optional_field Ho11 conforms_status. optional_field Ho12 conforms_nullable.
  eexists (Message _ _ _ _ _ _ _ _ _ _ _ _ _ _). unfold message_object.
  cbn [m_key m_from m_versions m_createdAt m_startedAt m_completedAt m_durationMs m_sources m_reasoning
       m_isReasoningStreaming m_isReasoningComplete m_isContentComplete m_status m_errorCode].
  rewrite app_nil_r. reflexivity.
Qed.

Lemma conforms_messages v : conforms messagesSchema v = true -> exists ms, v = messages_object ms.
Proof. apply conforms_array, conforms_message. Qed.

Lemma conforms_conversation v : conforms conversationSchema v = true -> exists c, v = conversation_object c.
Proof.
  intros H. apply conforms_object in H as (f & -> & H). split_fields H.
  required_field Ho conforms_string. required_field Ho0 conforms_string. required_field Ho1 conforms_number.
  required_field Ho2 conforms_number. required_field Ho3 conforms_messages.
  by eexists (Conversation _ _ _ _ _).
Qed.

(** * Which conversations are kept *)

(** A time in milliseconds. *)
Definition time_key (n : number) : Z := match num_to_Z n with Some z => z | None => 0 end.
Definition is_time (n : number) : bool :=
  (0 <=? time_key n) && (time_key n <? 2 ^ 53) && bool_decide (n = num_of_Z (time_key n)).

Lemma is_time_spec n : is_time n = true -> 0 <= time_key n < 2 ^ 53 /\ n = num_of_Z (time_key n).
Proof. unfold is_time. intros H. bools. done. Qed.

Lemma by_number_times x y : is_time x = true -> is_time y = true ->
  (by_number x y <? 0) = (time_key x <? time_key y).
Proof.
  intros [Hx Ex]%is_time_spec [Hy Ey]%is_time_spec.
  replace (by_number x y) with (Z.sgn (time_key x - time_key y)).
  - destruct (Z.ltb_spec (time_key x) (time_key y)); destruct (Z.ltb_spec (Z.sgn (time_key x - time_key y)) 0); lia.
  - rewrite <- by_number_exact by done. by rewrite <- Ex, <- Ey.
Qed.

Definition timed (c : conversation) : bool := is_time (cv_createdAt c) && is_time (cv_updatedAt c).
Definition updated_time (c : conversation) : Z := time_key (cv_updatedAt c).
Definition created_time (c : conversation) : Z := time_key (cv_createdAt c).

Lemma order_perm cs : Permutation (order_conversations cs ++ drop MAX_CONVERSATIONS (sort_by by_updated cs)) cs.
Proof.
  unfold order_conversations. rewrite sort_by_perm. rewrite take_drop. apply sort_by_perm.
Qed.

Lemma order_length cs : length (order_conversations cs) = Nat.min MAX_CONVERSATIONS (length cs).
Proof.
  unfold order_conversations. rewrite (Permutation_length (sort_by_perm _ _)), length_take.
  by rewrite (Permutation_length (sort_by_perm _ _)).
Qed.

Lemma order_small cs : (length cs <= MAX_CONVERSATIONS)%nat -> Permutation (order_conversations cs) cs.
Proof.
  intros H. unfold order_conversations. rewrite sort_by_perm, take_ge; [apply sort_by_perm|].
  by rewrite (Permutation_length (sort_by_perm _ _)).
Qed.

Lemma order_elem cs c : c ∈ order_conversations cs -> c ∈ cs.
Proof. intros H. rewrite <- (order_perm cs). apply elem_of_app. by left. Qed.

Lemma sort_by_updated_sorted cs : Forall (fun c => timed c = true) cs ->
  StronglySorted (by_key (fun c => - updated_time c)) (sort_by by_updated cs).
Proof.
  intros Ht. rewrite Forall_elem in Ht. apply sort_by_sorted. intros x y Hx%Ht Hy%Ht. unfold timed in *. bools.
  unfold by_updated. rewrite by_number_times by done. unfold updated_time.
  destruct (Z.ltb_spec (time_key (cv_updatedAt y)) (time_key (cv_updatedAt x)));
    destruct (Z.ltb_spec (- time_key (cv_updatedAt x)) (- time_key (cv_updatedAt y))); lia.
Qed.

(** The conversations kept are the fifty that were updated last, in the order of their
    creation. *)
Lemma order_spec cs : Forall (fun c => timed c = true) cs ->
  exists dropped, Permutation (order_conversations cs ++ dropped) cs /\
    (forall c d, c ∈ order_conversations cs -> d ∈ dropped -> updated_time d <= updated_time c) /\
    StronglySorted (by_key created_time) (order_conversations cs).
Proof.
  intros Ht. pose proof (sort_by_updated_sorted cs Ht) as Hs. rewrite Forall_elem in Ht.
  exists (drop MAX_CONVERSATIONS (sort_by by_updated cs)).
  split_and!; [apply order_perm| |].
  - intros c d Hc Hd. unfold order_conversations in Hc. rewrite sort_by_perm in Hc.
    pose proof (sorted_split _ _ _ _ _ Hs Hc Hd) as H. unfold by_key in H. lia.
  - apply sort_by_sorted. intros x y Hx Hy.
    assert (Hin : forall z, z ∈ take MAX_CONVERSATIONS (sort_by by_updated cs) -> timed z = true).
    { intros z Hz. apply Ht. rewrite <- (sort_by_perm by_updated cs), <- (take_drop MAX_CONVERSATIONS (sort_by _ _)).
      apply elem_of_app. by left. }
    apply Hin in Hx, Hy. unfold timed in *. bools. by apply by_number_times.
Qed.

(** * Saving and loading *)

(** A conversation that can be stored: strings of code units and numbers that are read back,
    and what the schema asks for. *)
Definition storable (c : conversation) : bool :=
  prints (conversation_object c) && conforms conversationSchema (conversation_object c).

Section Store.
Context {L : LocalStorage} {ZD : Zod} {ZL : ZodLaws ZD}.

Lemma salvage_cons item l : salvage (item :: l) =
  match zod_parse conversationSchema item ≫= read_conversation with Some c => c :: salvage l | None => salvage l end.
Proof. done. Qed.

Lemma salvage_objects cs : Forall (fun c => storable c = true) cs -> salvage (map conversation_object cs) = cs.
Proof.
  induction 1 as [|c cs Hc H IH]; [done|]. cbn [map]. unfold storable in Hc. bools.
  rewrite salvage_cons, (zod_keeps conversationSchema) by done. cbn [mbind option_bind].
  by rewrite read_conversation_object, IH.
Qed.

(** What the schema returns is always a conversation. *)
Lemma salvaged_read item data : zod_parse conversationSchema item = Some data -> is_Some (read_conversation data).
Proof.
  intros H. apply zod_output in H; [|done]. apply conforms_conversation in H as [c ->].
  by rewrite read_conversation_object.
Qed.

Lemma serialize_parse cs : Forall (fun c => storable c = true) cs ->
  exists t, serialize cs = Some t /\ t <> [] /\ JSON_parse t = Ok (JArr (map conversation_object cs)).
Proof.
  intros H. unfold serialize. rewrite (zod_keeps conversationsSchema); [|done|].
  - destruct (stringify_plain_parse (JArr (map conversation_object cs))) as (t & Ht & Hp).
    + apply prints_printable. cbn [prints]. apply forallb_forall. intros x Hx. apply in_map_iff in Hx as (c & <- & Hc).
      rewrite Forall_elem in H. specialize (H c (proj2 (list_elem_of_In _ _) Hc)). unfold storable in H. by bools.
    + exists t. split_and!; [done| |done]. intros ->. discriminate Hp.
  - cbn [conforms conversationsSchema]. apply forallb_forall. intros x Hx. apply in_map_iff in Hx as (c & <- & Hc).
    rewrite Forall_elem in H. specialize (H c (proj2 (list_elem_of_In _ _) Hc)). unfold storable in H. by bools.
Qed.

(** The quota has room for the text of a list in place of the stored one. *)
Definition has_room (cs : list conversation) (st : storage) : bool :=
  match serialize cs with Some t => storage_fits (mput CONVERSATIONS_KEY t st) | None => false end.

(** The storage holds this list and is otherwise as before. *)
Definition holds (cs : list conversation) (st st' : storage) : Prop :=
  exists t, serialize cs = Some t /\ st' = mput CONVERSATIONS_KEY t st.

Context (Hopen : storage_available = true).

Lemma readRaw_open key st : readRaw key st = mget st key.
Proof. unfold readRaw, getItem. by rewrite Hopen. Qed.

Lemma writeRaw_open key value st : writeRaw key value st =
  if storage_fits (mput key value st) then (mput key value st, true) else (st, false).
Proof. unfold writeRaw, setItem. rewrite Hopen. cbn [andb]. by destruct (storage_fits _). Qed.

Lemma read_text_put key key' value st : read_text key (mput key' value st) =
  if bool_decide (key = key') then match value with [] => None | _ => Some value end else read_text key st.
Proof.
  unfold read_text. rewrite !readRaw_open, mget_mput. destruct (bool_decide (key = key')); [by destruct value|done].
Qed.

Lemma mget_filter key key' (st : storage) : mget (List.filter (fun e => negb (str_eqb e.1 key')) st) key =
  if bool_decide (key = key') then None else mget st key.
Proof.
  induction st as [|[k v] st IH]; cbn [List.filter mget fst]; [by case_bool_decide|].
  destruct (str_eqb_reflect k key') as [->|Hne]; cbn [negb].
  - rewrite IH. destruct (bool_decide_reflect (key = key')) as [->|]; [done|]. done.
  - cbn [mget]. rewrite IH. destruct (bool_decide_reflect (key = k)) as [->|]; [|done].
    by rewrite bool_decide_false.
Qed.

Lemma read_text_remove key key' st st' : removeItem key' st = Ok st' ->
  read_text key st' = if bool_decide (key = key') then None else read_text key st.
Proof.
  unfold removeItem. rewrite Hopen. intros [= <-]. unfold read_text. rewrite !readRaw_open, mget_filter.
  by destruct (bool_decide (key = key')).
Qed.

Lemma save_loop_spec st cand : Forall (fun c => storable c = true) cand ->
  (exists k, (k < length cand)%nat /\ holds (drop k cand) st (save_loop cand st) /\
     forall j, (j < k)%nat -> has_room (drop j cand) st = false) \/
  (save_loop cand st = st /\ forall j, (j < length cand)%nat -> has_room (drop j cand) st = false).
Proof.
  induction 1 as [|c cand Hc H IH]; [right; split; [done|]; cbn; lia|].
  destruct (serialize_parse (c :: cand)) as (t & Ht & _ & _); [by constructor|].
  cbn [save_loop]. rewrite Ht, writeRaw_open.
  assert (Hroom : has_room (c :: cand) st = storage_fits (mput CONVERSATIONS_KEY t st)) by (unfold has_room; by rewrite Ht).
  destruct (storage_fits (mput CONVERSATIONS_KEY t st)) eqn:E.
  - left. exists 0%nat. split_and!; [cbn; lia|by exists t|lia].
  - destruct IH as [(k & Hk & Hh & Hj)|[Hs Hj]].
    + left. exists (S k). split_and!; [cbn; lia|done|]. intros [|j] Hlt; [done|]. apply Hj. lia.
    + right. split; [done|]. intros [|j] Hlt; [done|]. apply Hj. cbn in Hlt. lia.
Qed.

Lemma stored_holds cs st st' : Forall (fun c => storable c = true) cs -> holds cs st st' ->
  stored_conversations st' = cs.
Proof.
  intros H (t & Ht & ->). destruct (serialize_parse cs H) as (t' & Ht' & Hne & Hp).
  rewrite Ht in Ht'. injection Ht' as <-. unfold stored_conversations. rewrite read_text_put, bool_decide_true by done.
  destruct t as [|x t]; [done|]. rewrite Hp. by apply salvage_objects.
Qed.

(** With stored conversations there is nothing to migrate. *)
Lemma load_stored id now st : stored_conversations st <> [] ->
  loadConversations id now st = (stored_conversations st, st).
Proof.
  intros H. unfold loadConversations, migrateLegacyMessages.
  destruct (read_text CONVERSATIONS_KEY st) as [raw|] eqn:E; [by destruct (stored_conversations st)|].
  unfold stored_conversations in H. by rewrite E in H.
Qed.

Lemma load_holds id now cs st st' : cs <> [] -> Forall (fun c => storable c = true) cs -> holds cs st st' ->
  loadConversations id now st' = (cs, st').
Proof.
  intros Hne H Hh. pose proof (stored_holds _ _ _ H Hh) as E. rewrite load_stored; by rewrite E.
Qed.

(** C29. Saving keeps the fifty conversations that were updated last, in the order of their
    creation, or as many of them as the quota allows when those created first are left
    out; a reload of the page then shows exactly these.  When not even the last of them
    fits, what was stored before stays. *)
Theorem saved_conversations_reload cs st id now :
  Forall (fun c => storable c = true) cs -> Forall (fun c => timed c = true) cs ->
  (exists dropped, Permutation (order_conversations cs ++ dropped) cs /\
     length (order_conversations cs) = Nat.min MAX_CONVERSATIONS (length cs) /\
     (forall c d, c ∈ order_conversations cs -> d ∈ dropped -> updated_time d <= updated_time c) /\
     StronglySorted (by_key created_time) (order_conversations cs)) /\
  let st' := saveConversations cs st in
  ((exists k, (k < length (order_conversations cs))%nat /\
      loadConversations id now st' = (drop k (order_conversations cs), st') /\
      forall j, (j < k)%nat -> has_room (drop j (order_conversations cs)) st = false) \/
   (st' = st /\ forall j, (j < length (order_conversations cs))%nat -> has_room (drop j (order_conversations cs)) st = false)).
Proof.
  intros Hs Ht. split.
  - destruct (order_spec cs Ht) as (dropped & H1 & H2 & H3). exists dropped. split_and!; [done|apply order_length|done|done].
  - assert (Ho : Forall (fun c => storable c = true) (order_conversations cs)).
    { apply Forall_elem. intros c Hc%order_elem. rewrite Forall_elem in Hs. by apply Hs. }
    destruct (save_loop_spec st _ Ho) as [(k & Hk & Hh & Hj)|[Hk Hj]]; [left|by right].
    exists k. split_and!; [done| |done]. eapply load_holds; [|by apply Forall_drop|exact Hh].
    intros E. apply (f_equal length) in E. rewrite length_drop in E. change (length (@nil conversation)) with 0%nat in E. lia.
Qed.

Lemma conforms_conversation_object c : conforms conversationSchema (conversation_object c) =
  is_finite (cv_createdAt c) && (is_finite (cv_updatedAt c) && conforms messagesSchema (messages_object (cv_messages c))).
Proof.
  unfold conversationSchema, conversation_object. cbn [conforms field app]. cbn [conforms_fields].
  rewrite !str_eqb_refl. cbn [is_undefined negb andb conforms messages_object]. by rewrite andb_true_r.
Qed.

Lemma read_text_active key id st : key <> ACTIVE_CONVERSATION_KEY ->
  read_text key (saveActiveConversationId id st) = read_text key st.
Proof.
  intros H. unfold saveActiveConversationId. rewrite writeRaw_open.
  destruct (storage_fits _); [|done]. cbn [fst]. rewrite read_text_put. by rewrite bool_decide_false.
Qed.

Lemma stored_text st st' : read_text CONVERSATIONS_KEY st' = read_text CONVERSATIONS_KEY st ->
  stored_conversations st' = stored_conversations st.
Proof. unfold stored_conversations. by intros ->. Qed.

Lemma order_one c : order_conversations [c] = [c].
Proof. done. Qed.

Lemma save_one c st : storable c = true ->
  if has_room [c] st then holds [c] st (saveConversations [c] st) else saveConversations [c] st = st.
Proof.
  intros H. unfold saveConversations. rewrite order_one.
  destruct (save_loop_spec st [c]) as [(k & Hk & Hh & _)|[Hs Hj]]; [by repeat constructor| |].
  - cbn in Hk. assert (k = 0%nat) as -> by lia. destruct Hh as (t & Ht & E). cbn [drop] in Ht.
    destruct (has_room [c] st) eqn:Er; [by exists t|].
    rewrite E. unfold has_room in Er. rewrite Ht in Er. cbn [save_loop] in E. rewrite Ht, writeRaw_open, Er in E. congruence.
  - specialize (Hj 0%nat ltac:(cbn; lia)). cbn [drop] in Hj. by rewrite Hj.
Qed.

(** What a load makes of the messages of an older version: one conversation, whether or not it could be stored. *)
Lemma legacy_load st id now legacy ms :
  let c := createConversation id now ms in
  read_text CONVERSATIONS_KEY st = None -> read_text MESSAGES_KEY st = Some legacy ->
  JSON_parse legacy = Ok (messages_object ms) -> ms <> [] -> storable c = true ->
  exists st', loadConversations id now st = ([c], st') /\ read_text MESSAGES_KEY st' = None /\
    stored_conversations st' = if has_room [c] st then [c] else [].
Proof.
  intros c Hc Hm Hp Hne Hs. unfold loadConversations, migrateLegacyMessages. rewrite Hc, Hm, Hp.
  rewrite (zod_keeps messagesSchema); [|done|].
  2:{ unfold storable in Hs. bools. rewrite conforms_conversation_object in H0. by bools. }
  cbn [mbind option_bind]. rewrite read_messages_object. destruct ms as [|m ms']; [done|]. fold c.
  set (st1 := saveConversations [c] st). set (st2 := saveActiveConversationId (cv_id c) st1).
  destruct (removeItem MESSAGES_KEY st2) as [st3|] eqn:Er; [|by unfold removeItem in Er; rewrite Hopen in Er].
  assert (E : stored_conversations st3 = if has_room [c] st then [c] else []).
  { transitivity (stored_conversations st1).
    - apply stored_text. rewrite (read_text_remove _ _ _ _ Er), bool_decide_false by done.
      by apply read_text_active.
    - pose proof (save_one c st Hs) as H1. destruct (has_room [c] st).
      + eapply stored_holds; [by repeat constructor|exact H1].
      + unfold st1, stored_conversations. by rewrite H1, Hc. }
  exists st3. rewrite E. split_and!; [by destruct (has_room [c] st)| |done].
  by rewrite (read_text_remove _ _ _ _ Er), bool_decide_true.
Qed.

(** C40. The messages of an older version become the only conversation: when no conversations are stored,
    the old key holds a list of messages that can be stored and the quota has room for the conversation beside
    them, loading shows the one conversation of these messages, stores it, and removes the old key; every later load
    shows the same conversation and changes nothing, so that nothing is migrated twice. *)
Theorem legacy_messages_migrated st id now legacy ms :
  let c := createConversation id now ms in
  read_text CONVERSATIONS_KEY st = None -> read_text MESSAGES_KEY st = Some legacy ->
  JSON_parse legacy = Ok (messages_object ms) -> ms <> [] -> storable c = true -> has_room [c] st = true ->
  exists st', loadConversations id now st = ([c], st') /\ read_text MESSAGES_KEY st' = None /\
    stored_conversations st' = [c] /\ forall id' now', loadConversations id' now' st' = ([c], st').
Proof.
  intros c Hc Hm Hp Hne Hs Hr. destruct (legacy_load st id now legacy ms Hc Hm Hp Hne Hs) as (st' & Hl & Hk & Hst).
  fold c in Hl, Hst. rewrite Hr in Hst. exists st'. split_and!; [done..|]. intros id' now'.
  rewrite load_stored by (by rewrite Hst). by rewrite Hst.
Qed.

(** Without room for the conversation the old key is removed all the same, and the messages are stored nowhere any
    more. *)
Theorem legacy_messages_lost st id now legacy ms :
  let c := createConversation id now ms in
  read_text CONVERSATIONS_KEY st = None -> read_text MESSAGES_KEY st = Some legacy ->
  JSON_parse legacy = Ok (messages_object ms) -> ms <> [] -> storable c = true -> has_room [c] st = false ->
  exists st', loadConversations id now st = ([c], st') /\ read_text MESSAGES_KEY st' = None /\ stored_conversations st' = [].
Proof.
  intros c Hc Hm Hp Hne Hs Hr. destruct (legacy_load st id now legacy ms Hc Hm Hp Hne Hs) as (st' & Hl & Hk & Hst).
  fold c in Hl, Hst. rewrite Hr in Hst. by exists st'.
Qed.

End Store.

(** * Concrete runs *)

(** A browser with room, and one in which two keys are too many. *)
Definition roomy_browser : LocalStorage := {| storage_available := true; storage_fits _ := true |}.
Definition full_browser : LocalStorage :=
  {| storage_available := true; storage_fits st := (length st <=? 1)%nat |}.
Definition sample_message : message := createUserMessage (js "k") (js "v") (js "Hello   there") (num_of_Z 1000) None.
Definition sample_conversations : list conversation :=
  [createConversation (js "a") (num_of_Z 2000) [sample_message]; createConversation (js "b") (num_of_Z 1000) []].

Lemma saved_conversations_reload_witness :
  exists k, loadConversations (L := roomy_browser) (ZD := reference_zod) (js "c") (num_of_Z 3000)
              (saveConversations (L := roomy_browser) (ZD := reference_zod) sample_conversations [])
            = (drop k (rev sample_conversations),
               saveConversations (L := roomy_browser) (ZD := reference_zod) sample_conversations []).
Proof.
  destruct (saved_conversations_reload (L := roomy_browser) (ZL := reference_laws) eq_refl sample_conversations []
              (js "c") (num_of_Z 3000)) as [_ [(k & _ & H & _)|[H _]]].
  - repeat constructor.
  - repeat constructor.
  - exists k. exact H.
  - exfalso. vm_compute in H. discriminate H.
Defined.

(** The messages of an older version. *)
Definition legacy_text : jsstr :=
  match JSON_stringify_plain (messages_object [sample_message]) with Some t => t | None => [] end.

Lemma legacy_messages_migrated_witness :
  exists st', loadConversations (L := roomy_browser) (ZD := reference_zod) (js "c") (num_of_Z 3000) [(MESSAGES_KEY, legacy_text)]
      = ([createConversation (js "c") (num_of_Z 3000) [sample_message]], st') /\
    read_text (L := roomy_browser) MESSAGES_KEY st' = None /\
    loadConversations (L := roomy_browser) (ZD := reference_zod) (js "d") (num_of_Z 4000) st'
      = ([createConversation (js "c") (num_of_Z 3000) [sample_message]], st').
Proof.
  destruct (legacy_messages_migrated (L := roomy_browser) (ZL := reference_laws) eq_refl [(MESSAGES_KEY, legacy_text)]
           (js "c") (num_of_Z 3000) legacy_text [sample_message] ltac:(vm_compute; reflexivity) ltac:(vm_compute; reflexivity)
           ltac:(vm_compute; reflexivity) ltac:(discriminate) ltac:(vm_compute; reflexivity) ltac:(vm_compute; reflexivity))
    as (st' & H1 & H2 & _ & H3).
  exists st'. split; [exact H1|]. split; [exact H2|]. apply H3.
Defined.

(** In a browser without room for a second key they are lost. *)
Example legacy_messages_lost_full :
  exists st', loadConversations (L := full_browser) (ZD := reference_zod) (js "c") (num_of_Z 3000) [(MESSAGES_KEY, legacy_text)]
                = ([createConversation (js "c") (num_of_Z 3000) [sample_message]], st') /\
    read_text (L := full_browser) MESSAGES_KEY st' = None /\
    stored_conversations (L := full_browser) (ZD := reference_zod) st' = [].
Proof.
  exact (legacy_messages_lost (L := full_browser) (ZL := reference_laws) eq_refl [(MESSAGES_KEY, legacy_text)]
           (js "c") (num_of_Z 3000) legacy_text [sample_message] ltac:(vm_compute; reflexivity) ltac:(vm_compute; reflexivity)
           ltac:(vm_compute; reflexivity) ltac:(discriminate) ltac:(vm_compute; reflexivity) ltac:(vm_compute; reflexivity)).
Qed.
