(* ===== verification/ConversationGroups.v ===== *)
(** The sidebar of the playground ([features/playground/lib/conversations/conversation-grouping.ts]):
    conversations by the day of their last use, and their search by title.  The start of
    the local day is given by the time zone of the browser, the class [LocalDays]; the
    mapping to lower case is a parameter of class [Platform]. *)
From Stdlib Require Import ZArith Lia Bool String SpecFloat Permutation Sorted.
From stdpp Require Import base list option.
From S2P Require Import Prelude JsString JsNumber JsValue Collections JsInteger Runtime Conversations ConversationFacts.

#[local] Open Scope Z_scope.

Inductive date_bucket := Today | Yesterday | Last7Days | Last30Days | Older.

#[export] Instance date_bucket_eq_dec : EqDecision date_bucket.
Proof. solve_decision. Defined.

Definition CONVERSATION_BUCKET_ORDER : list date_bucket := [Today; Yesterday; Last7Days; Last30Days; Older].

Definition CONVERSATION_BUCKET_LABEL_KEY (b : date_bucket) : jsstr :=
  match b with
  | Today => js "Today" | Yesterday => js "Yesterday" | Last7Days => js "Previous 7 Days"
  | Last30Days => js "Previous 30 Days" | Older => js "Older"
  end.

Definition MS_PER_DAY : number := num_of_Z (24 * 60 * 60 * 1000).

Class LocalDays := { startOfLocalDay : number -> number }.

Section Grouping.
Context {D : LocalDays} {P : Platform}.

Definition getConversationBucket (timestamp now : number) : date_bucket :=
  if negb (is_finite timestamp) then Older
  else
    let today := startOfLocalDay now in
    if num_leb today timestamp then Today
    else
      let dayDiff := num_round (num_div (num_sub today (startOfLocalDay timestamp)) MS_PER_DAY) in
      if num_leb dayDiff num_one then Yesterday
      else if num_leb dayDiff (num_of_Z 7) then Last7Days
      else if num_leb dayDiff (num_of_Z 30) then Last30Days
      else Older.

Definition bucket_of (now : number) (c : conversation) : date_bucket := getConversationBucket (cv_updatedAt c) now.

(** The loop that fills the map of buckets. *)
Definition fill_buckets (now : number) (cs : list conversation) : list (date_bucket * list conversation) :=
  fold_left (fun buckets c =>
    let bucket := bucket_of now c in
    mput bucket (match mget buckets bucket with Some existing => existing ++ [c] | None => [c] end) buckets) cs [].

Definition groupConversationsByDate (now : number) (cs : list conversation) : list (date_bucket * list conversation) :=
  let buckets := fill_buckets now cs in
  flat_map (fun bucket =>
    match mget buckets bucket with
    | Some ((_ :: _) as items) => [(bucket, sort_by by_updated items)]
    | _ => []
    end) CONVERSATION_BUCKET_ORDER.

Definition filterConversationsByTitle (cs : list conversation) (query : jsstr) : list conversation :=
  match toLowerCase (trim query) with
  | [] => cs
  | trimmed => List.filter (fun c => includes trimmed (toLowerCase (cv_title c))) cs
  end.

(** * Every conversation is in the group of its day *)

Definition in_bucket (now : number) (b : date_bucket) (cs : list conversation) : list conversation :=
  List.filter (fun c => bool_decide (bucket_of now c = b)) cs.

Lemma fill_spec now cs b : mget (fill_buckets now cs) b =
  match in_bucket now b cs with [] => None | l => Some l end.
Proof.
  unfold fill_buckets.
  assert (H : forall rest acc done, mget acc b = match in_bucket now b done with [] => None | l => Some l end ->
    (forall x, mget acc x = match in_bucket now x done with [] => None | l => Some l end) ->
    mget (fold_left (fun buckets c => let bucket := bucket_of now c in
      mput bucket (match mget buckets bucket with Some existing => existing ++ [c] | None => [c] end) buckets) rest acc) b
    = match in_bucket now b (done ++ rest) with [] => None | l => Some l end).
  { induction rest as [|c rest IH]; intros acc done H0 H; [by rewrite app_nil_r|]. cbn [fold_left].
    rewrite (cons_middle c), app_assoc.
    assert (Hx : forall x, mget (mput (bucket_of now c) (match mget acc (bucket_of now c) with Some existing => existing ++ [c] | None => [c] end) acc) x
              = match in_bucket now x (done ++ [c]) with [] => None | l => Some l end).
    { intros x. rewrite mget_mput. unfold in_bucket. rewrite List.filter_app. cbn [List.filter].
      destruct (bool_decide_reflect (x = bucket_of now c)) as [->|Hne].
      - rewrite H, bool_decide_true by done. unfold in_bucket. by destruct (List.filter _ done).
      - rewrite bool_decide_false by done. rewrite app_nil_r. apply H. }
    by apply IH. }
  by apply (H cs [] []).
Qed.

Lemma group_found now cs b : flat_map (fun bucket =>
    match mget (fill_buckets now cs) bucket with
    | Some ((_ :: _) as items) => [(bucket, sort_by by_updated items)]
    | _ => []
    end) [b] = match in_bucket now b cs with [] => [] | l => [(b, sort_by by_updated l)] end.
Proof. cbn [flat_map]. rewrite fill_spec, app_nil_r. by destruct (in_bucket now b cs). Qed.

Lemma groups_in now cs b items : (b, items) ∈ groupConversationsByDate now cs ->
  items = sort_by by_updated (in_bucket now b cs) /\ in_bucket now b cs <> [].
Proof.
  unfold groupConversationsByDate. intros H. apply list_elem_of_In, in_flat_map in H as (x & _ & H).
  rewrite fill_spec in H. destruct (in_bucket now x cs) as [|c l] eqn:E; [done|].
  destruct H as [[= <- <-]|[]]. rewrite E. done.
Qed.

Lemma sort_elem {A} (cmp : A -> A -> Z) l x : x ∈ sort_by cmp l <-> x ∈ l.
Proof. by rewrite sort_by_perm. Qed.

(** The buckets of a list together are the list. *)
Lemma buckets_all now cs :
  Permutation (in_bucket now Today cs ++ in_bucket now Yesterday cs ++ in_bucket now Last7Days cs
               ++ in_bucket now Last30Days cs ++ in_bucket now Older cs) cs.
Proof.
  induction cs as [|c cs IH]; [done|]. rewrite <- IH at 6. clear IH. unfold in_bucket. cbn [List.filter].
  set (l b := List.filter (fun c => bool_decide (bucket_of now c = b)) cs).
  fold (l Today) (l Yesterday) (l Last7Days) (l Last30Days) (l Older).
  destruct (bucket_of now c); repeat (rewrite (bool_decide_true (_ = _)) by done || rewrite (bool_decide_false (_ = _)) by done);
    symmetry; [done|apply Permutation_middle|rewrite !(app_assoc (l Today)); apply Permutation_middle| |].
  - rewrite (app_assoc (l Yesterday)), (app_assoc (l Yesterday)), !(app_assoc (l Today)). apply Permutation_middle.
  - rewrite (app_assoc (l Last7Days)), (app_assoc (l Last7Days)), !(app_assoc (l Yesterday)), !(app_assoc (l Today)). apply Permutation_middle.
Qed.

(** The sidebar shows every conversation exactly once: the groups are those of the days
    in order without empty ones, each group has exactly the conversations of its day, the
    last used first, and together they are all conversations. *)
Theorem groups_partition now cs :
  map fst (groupConversationsByDate now cs)
    = List.filter (fun b => match in_bucket now b cs with [] => false | _ => true end) CONVERSATION_BUCKET_ORDER /\
  Permutation (flat_map snd (groupConversationsByDate now cs)) cs /\
  (forall b items, (b, items) ∈ groupConversationsByDate now cs ->
     Permutation items (in_bucket now b cs) /\ items <> [] /\
     (Forall (fun c => timed c = true) cs -> StronglySorted (fun x y => updated_time y <= updated_time x) items)).
Proof.
  split_and!.
  - unfold groupConversationsByDate. cbn [flat_map CONVERSATION_BUCKET_ORDER List.filter]. rewrite !fill_spec.
    destruct (in_bucket now Today cs), (in_bucket now Yesterday cs), (in_bucket now Last7Days cs),
      (in_bucket now Last30Days cs), (in_bucket now Older cs); reflexivity.
  - unfold groupConversationsByDate. cbn [flat_map CONVERSATION_BUCKET_ORDER]. rewrite !fill_spec, !flat_map_app. cbn [flat_map].
    assert (Hs : forall b, flat_map snd (match in_bucket now b cs with
        | [] => [] | c :: l => [(b, sort_by by_updated (c :: l))] end) = sort_by by_updated (in_bucket now b cs)).
    { intros b. destruct (in_bucket now b cs); [done|]. cbn [flat_map snd]. apply app_nil_r. }
    assert (Hm : forall b, (match (match in_bucket now b cs with [] => None | l => Some l end) with
        | Some ((_ :: _) as items) => [(b, sort_by by_updated items)] | _ => [] end)
        = match in_bucket now b cs with [] => [] | c :: l => [(b, sort_by by_updated (c :: l))] end).
    { intros b. by destruct (in_bucket now b cs). }
    rewrite !Hm, !Hs, !sort_by_perm, app_nil_r. apply buckets_all.
  - intros b items H. apply groups_in in H as [-> Hne]. split_and!; [apply sort_by_perm| |].
    + intros E. apply Hne. apply Permutation_nil. rewrite <- E. apply sort_by_perm.
    + intros Ht. rewrite Forall_elem in Ht.
      assert (Hs : StronglySorted (by_key (fun c => - updated_time c)) (sort_by by_updated (in_bucket now b cs))).
      { apply sort_by_updated_sorted. apply Forall_elem. intros c Hc. apply Ht. unfold in_bucket in Hc.
        apply list_elem_of_In, filter_In in Hc as [Hc _]. by apply list_elem_of_In. }
      induction Hs as [|x l Hl IH Hx]; constructor; [done|]. apply Forall_elem. intros y Hy. rewrite Forall_elem in Hx.
      specialize (Hx y Hy). unfold by_key in Hx. lia.
Qed.

End Grouping.
