(* ===== verification/PlaygroundState.v ===== *)
(** The state of the playground ([features/playground/hooks/use-playground-state.ts]): the
    list of conversations, the active one and its messages, kept in React states, in
    references and, after a delay, in [localStorage].  Timers, renderings and the
    handlers of the sidebar are the steps; times and identifiers are arguments. *)
From Stdlib Require Import ZArith Lia Bool String.
From stdpp Require Import base list option.
From S2P Require Import Prelude JsString JsNumber Collections Schema ChatMessage Conversations.

(** A call of [setMessages]: with a list, or with the function of [updateMessages]. *)
Inductive message_setter :=
| SetMessages (messages : list message)
| UpdateMessages (updater : list message -> list message).

Record playground := Playground {
  (* React states *)
  pg_conversations : list conversation;
  pg_activeConversationId : jsstr;
  pg_messages : list message;
  pg_isLoadingMessages : bool;
  (* calls of [setMessages] that React has not run *)
  pg_queue : list message_setter;
  (* references *)
  pg_timer : bool;
  pg_latestMessages : list message;
  pg_hasLoaded : bool;
  pg_conversationsRef : list conversation;
  pg_activeRef : jsstr;
  (* the browser *)
  pg_storage : storage;
}.

(** [useState] and [useRef] at the first rendering. *)
Definition initial_playground (st : storage) : playground :=
  Playground [] [] [] true [] false [] false [] [] st.

(** [messagesSaveTimerRef], [latestMessagesRef], [conversationsRef] with what is stored, the
    two copies of the list, and the queue. *)
Definition set_timer (b : bool) (s : playground) : playground :=
  Playground (pg_conversations s) (pg_activeConversationId s) (pg_messages s) (pg_isLoadingMessages s) (pg_queue s)
    b (pg_latestMessages s) (pg_hasLoaded s) (pg_conversationsRef s) (pg_activeRef s) (pg_storage s).
Definition set_latest (ms : list message) (s : playground) : playground :=
  Playground (pg_conversations s) (pg_activeConversationId s) (pg_messages s) (pg_isLoadingMessages s) (pg_queue s)
    (pg_timer s) ms (pg_hasLoaded s) (pg_conversationsRef s) (pg_activeRef s) (pg_storage s).
Definition set_conversations_ref (cs : list conversation) (s : playground) : playground :=
  Playground (pg_conversations s) (pg_activeConversationId s) (pg_messages s) (pg_isLoadingMessages s) (pg_queue s)
    (pg_timer s) (pg_latestMessages s) (pg_hasLoaded s) cs (pg_activeRef s) (pg_storage s).
Definition set_storage (st : storage) (s : playground) : playground :=
  Playground (pg_conversations s) (pg_activeConversationId s) (pg_messages s) (pg_isLoadingMessages s) (pg_queue s)
    (pg_timer s) (pg_latestMessages s) (pg_hasLoaded s) (pg_conversationsRef s) (pg_activeRef s) st.
Definition setConversations (cs : list conversation) (s : playground) : playground :=
  Playground cs (pg_activeConversationId s) (pg_messages s) (pg_isLoadingMessages s) (pg_queue s)
    (pg_timer s) (pg_latestMessages s) (pg_hasLoaded s) (pg_conversationsRef s) (pg_activeRef s) (pg_storage s).
Definition set_queue (q : list message_setter) (s : playground) : playground :=
  Playground (pg_conversations s) (pg_activeConversationId s) (pg_messages s) (pg_isLoadingMessages s) q
    (pg_timer s) (pg_latestMessages s) (pg_hasLoaded s) (pg_conversationsRef s) (pg_activeRef s) (pg_storage s).
Definition set_shown (ms : list message) (s : playground) : playground :=
  Playground (pg_conversations s) (pg_activeConversationId s) ms (pg_isLoadingMessages s) (pg_queue s)
    (pg_timer s) (pg_latestMessages s) (pg_hasLoaded s) (pg_conversationsRef s) (pg_activeRef s) (pg_storage s).
(** The active conversation, in the reference and in the React state. *)
Definition set_active (id : jsstr) (s : playground) : playground :=
  Playground (pg_conversations s) id (pg_messages s) (pg_isLoadingMessages s) (pg_queue s)
    (pg_timer s) (pg_latestMessages s) (pg_hasLoaded s) (pg_conversationsRef s) id (pg_storage s).
Definition set_loaded (s : playground) : playground :=
  Playground (pg_conversations s) (pg_activeConversationId s) (pg_messages s) false (pg_queue s)
    (pg_timer s) (pg_latestMessages s) true (pg_conversationsRef s) (pg_activeRef s) (pg_storage s).

Definition has_id (id : jsstr) (c : conversation) : bool := str_eqb (cv_id c) id.

(** [{ ...c, messages, updatedAt: Date.now() }] of the active conversation. *)
Definition write_active (active : jsstr) (messages : list message) (now : number) (c : conversation) : conversation :=
  if has_id active c then Conversation (cv_id c) (cv_title c) (cv_createdAt c) now messages else c.
(** The same with the title of the first user message. *)
Definition write_titled (active : jsstr) (messages : list message) (now : number) (c : conversation) : conversation :=
  if has_id active c
  then Conversation (cv_id c)
         (if existsb (from_role MUser) messages then deriveConversationTitle messages else cv_title c)
         (cv_createdAt c) now messages
  else c.

Section Hook.
Context {L : LocalStorage} {ZD : Zod}.

Definition persistConversations (next : list conversation) (s : playground) : playground :=
  set_storage (saveConversations next (pg_storage s)) (set_conversations_ref next s).

(** [persistMessages]: the list is noted and the timer set again. *)
Definition persistMessages (messagesToSave : list message) (s : playground) : playground :=
  let s := set_latest messagesToSave s in
  if negb (pg_hasLoaded s) then s else set_timer true s.

(** The callback of the timer. *)
Definition save_timer_fires (now : number) (s : playground) : playground :=
  if pg_timer s then
    let s := set_timer false s in
    let updated := map (write_titled (pg_activeRef s) (pg_latestMessages s) now) (pg_conversationsRef s) in
    setConversations updated (persistConversations updated s)
  else s.

(** [setMessages(list)]: run at once when nothing waits before it. *)
Definition setMessages (ms : list message) (s : playground) : playground :=
  match pg_queue s with
  | [] => set_shown ms s
  | q => set_queue (q ++ [SetMessages ms]) s
  end.

(** React runs a call of [setMessages] on the state. *)
Definition run_setter (u : message_setter) (s : playground) : playground :=
  match u with
  | SetMessages ms => set_shown ms s
  | UpdateMessages updater =>
      let newMessages := updater (pg_messages s) in
      set_shown newMessages (persistMessages newMessages s)
  end.

(** [updateMessages(updater)]: React may run the function at once when nothing waits. *)
Definition updateMessages (eager : bool) (updater : list message -> list message) (s : playground) : playground :=
  match pg_queue s, eager with
  | [], true => run_setter (UpdateMessages updater) s
  | q, _ => set_queue (q ++ [UpdateMessages updater]) s
  end.

(** React runs the oldest waiting call. *)
Definition render_messages (s : playground) : playground :=
  match pg_queue s with
  | [] => s
  | u :: rest => run_setter u (set_queue rest s)
  end.

Definition clearMessages (eager : bool) (s : playground) : playground := updateMessages eager (fun _ => []) s.

(** [active.id], its messages, and the id in the storage. *)
Definition activate (c : conversation) (s : playground) : playground :=
  let s := setMessages (cv_messages c) (set_latest (cv_messages c) (set_active (cv_id c) s)) in
  set_storage (saveActiveConversationId (cv_id c) (pg_storage s)) s.

(** The effect that loads the conversations; [cancelled] when the component is gone. *)
Definition load_effect (cancelled : bool) (id : jsstr) (now : number) (s : playground) : playground :=
  let '(loaded, st) := loadConversations id now (pg_storage s) in
  let s := set_storage st s in
  let savedActiveId := loadActiveConversationId st in
  let saved := match savedActiveId with Some a => find (has_id a) loaded | None => None end in
  match (match saved with Some c => Some c | None => head loaded end) with
  | None => s
  | Some active =>
      if cancelled then s
      else activate active (set_loaded (setConversations loaded (set_conversations_ref loaded s)))
  end.

(** The cleanup of the second effect. *)
Definition unmount_playground (s : playground) : playground :=
  if pg_timer s then persistConversations (pg_conversationsRef s) (set_timer false s) else s.

(** What [createNewConversation] and [switchConversation] do with a waiting save. *)
Definition flush_pending (now : number) (s : playground) : playground :=
  if pg_timer s then
    let s := set_timer false s in
    persistConversations (map (write_active (pg_activeRef s) (pg_latestMessages s) now) (pg_conversationsRef s)) s
  else s.

Definition createNewConversation (now id_now : number) (id : jsstr) (s : playground) : playground :=
  let s := flush_pending now s in
  let fresh := createConversation id id_now [] in
  let next := order_conversations (pg_conversationsRef s ++ [fresh]) in
  activate fresh (setConversations next (persistConversations next s)).

Definition switchConversation (now : number) (id : jsstr) (s : playground) : playground :=
  if str_eqb id (pg_activeRef s) then s
  else
    let s := flush_pending now s in
    match find (has_id id) (pg_conversationsRef s) with
    | None => s
    | Some target => activate target s
    end.

Definition deleteConversation (now : number) (fresh_id id : jsstr) (s : playground) : playground :=
  let next := List.filter (fun c => negb (has_id id c)) (pg_conversationsRef s) in
  let next := match next with [] => [createConversation fresh_id now []] | _ => next end in
  let s := setConversations next (persistConversations next s) in
  if str_eqb id (pg_activeRef s) then match next with target :: _ => activate target s | [] => s end else s.

End Hook.
