(* ===== verification/PlaygroundFacts.v ===== *)
(** The state of the playground implements a table of conversations: every step of the
    hook is a step of the table, and a reload of the page shows the same table once
    the waiting save is done. *)
From Stdlib Require Import ZArith Lia Bool String Permutation Sorted.
From stdpp Require Import base list option gmap.
From S2P Require Import Prelude JsString JsNumber Collections JsonText Schema ChatMessage Conversations ConversationFacts PlaygroundState.

(** * The specification *)

(** The messages of each conversation by its id. *)
Abbreviation contents := (gmap jsstr (list message)).

(** What a user sees happen. *)
Inductive chat_label :=
| LNone
| LEdit (f : list message -> list message)
| LCreate (id : jsstr)
| LSwitch (id : jsstr)
| LDelete (fresh id : jsstr).

(** Steps on the active conversation and the table: editing changes the messages of the
    active conversation only, a new conversation is empty and may push out others when
    there are fifty, switching changes nothing else, and the last conversation that is
    deleted makes place for an empty one. *)
Inductive chat_step : jsstr * contents -> chat_label -> jsstr * contents -> Prop :=
| chat_none a m : chat_step (a, m) LNone (a, m)
| chat_edit a m f ms : m !! a = Some ms -> chat_step (a, m) (LEdit f) (a, <[a := f ms]> m)
| chat_create a m id m' :
    m' !! id = Some [] -> m' ⊆ <[id := []]> m -> size m' = Nat.min MAX_CONVERSATIONS (S (size m)) ->
    chat_step (a, m) (LCreate id) (id, m')
| chat_switch a m id : is_Some (m !! id) -> chat_step (a, m) (LSwitch id) (id, m)
| chat_switch_unknown a m id : m !! id = None -> chat_step (a, m) (LSwitch id) (a, m)
| chat_delete a m fresh id : id <> a -> chat_step (a, m) (LDelete fresh id) (a, delete id m)
| chat_delete_active a m fresh b : is_Some (delete a m !! b) -> chat_step (a, m) (LDelete fresh a) (b, delete a m)
| chat_delete_last a m fresh : delete a m = ∅ -> chat_step (a, m) (LDelete fresh a) (fresh, {[fresh := []]}).

(** * Tables of lists of conversations *)

Definition chat_entry (c : conversation) : jsstr * list message := (cv_id c, cv_messages c).
Definition table (cs : list conversation) : contents := list_to_map (map chat_entry cs).
Definition ids (cs : list conversation) : list jsstr := map cv_id cs.

Lemma ids_entries cs : (map chat_entry cs).*1 = ids cs.
Proof. unfold ids. induction cs as [|c cs IH]; [done|]. cbn. by f_equal. Qed.

Lemma table_cons c cs : table (c :: cs) = <[cv_id c := cv_messages c]> (table cs).
Proof. done. Qed.

Lemma table_in cs c : NoDup (ids cs) -> c ∈ cs -> table cs !! cv_id c = Some (cv_messages c).
Proof.
  intros Hd Hc. apply elem_of_list_to_map; [by rewrite ids_entries|]. apply (list_elem_of_fmap_2 chat_entry), Hc.
Qed.

Lemma table_lookup cs id ms : table cs !! id = Some ms -> exists c, c ∈ cs /\ cv_id c = id /\ cv_messages c = ms.
Proof.
  intros H. apply elem_of_list_to_map_2 in H. apply (list_elem_of_fmap chat_entry) in H as (c & [= -> ->] & Hc). eauto.
Qed.

Lemma table_none cs id : table cs !! id = None <-> id ∉ ids cs.
Proof. rewrite <- ids_entries. symmetry. apply not_elem_of_list_to_map. Qed.

Lemma table_some cs id : is_Some (table cs !! id) <-> id ∈ ids cs.
Proof.
  rewrite <- not_eq_None_Some, table_none. destruct (decide (id ∈ ids cs)); tauto.
Qed.

Lemma ids_perm cs cs' : Permutation cs cs' -> Permutation (ids cs) (ids cs').
Proof. apply Permutation_map. Qed.

Lemma table_perm cs cs' : NoDup (ids cs) -> Permutation cs cs' -> table cs = table cs'.
Proof.
  intros Hd Hp. apply list_to_map_proper; [by rewrite ids_entries|]. by apply Permutation_map.
Qed.

Lemma table_size cs : NoDup (ids cs) -> size (table cs) = length cs.
Proof. intros Hd. unfold table. rewrite map_size_list_to_map by (by rewrite ids_entries). apply length_map. Qed.

Lemma ids_map (w : conversation -> conversation) cs : (forall c, cv_id (w c) = cv_id c) -> ids (map w cs) = ids cs.
Proof. intros H. unfold ids. rewrite map_map. by apply map_ext. Qed.

(** Writing the messages of one conversation. *)
Section Write.
Context (w : conversation -> conversation) (a : jsstr) (ms : list message).
Hypothesis Hid : forall c, cv_id (w c) = cv_id c.
Hypothesis Hm : forall c, cv_messages (w c) = if has_id a c then ms else cv_messages c.

Lemma table_unwritten cs : a ∉ ids cs -> table (map w cs) = table cs.
Proof.
  induction cs as [|d l IHl]; intros Hl; [done|]. cbn [ids map] in Hl. apply not_elem_of_cons in Hl as [Hd Hl].
  cbn [map]. rewrite !table_cons, Hid, Hm, IHl by done. unfold has_id.
  destruct (str_eqb_reflect (cv_id d) a); [congruence|done].
Qed.

Lemma table_write cs : a ∈ ids cs -> NoDup (ids cs) -> table (map w cs) = <[a := ms]> (table cs).
Proof.
  induction cs as [|c cs IH]; intros Ha Hd; [by apply not_elem_of_nil in Ha|].
  cbn [map]. rewrite !table_cons, Hid, Hm. unfold has_id. apply NoDup_cons in Hd as [Hc Hd].
  destruct (str_eqb_reflect (cv_id c) a) as [E|Hne].
  - rewrite E, insert_insert_eq. f_equal. apply table_unwritten. by rewrite <- E.
  - rewrite insert_insert_ne by done. rewrite IH; [done| |done].
    apply elem_of_cons in Ha as [->|Ha]; done.
Qed.
End Write.

Lemma table_remove id cs : table (List.filter (fun c => negb (has_id id c)) cs) = delete id (table cs).
Proof.
  induction cs as [|c cs IH]; cbn [List.filter]; [symmetry; apply delete_empty|]. unfold has_id at 1.
  destruct (str_eqb_reflect (cv_id c) id) as [<-|Hne]; cbn [negb]; rewrite !table_cons.
  - by rewrite IH, delete_insert_eq.
  - by rewrite IH, delete_insert_ne.
Qed.

Lemma ids_remove id cs x : x ∈ ids (List.filter (fun c => negb (has_id id c)) cs) <-> x ∈ ids cs /\ x <> id.
Proof.
  rewrite <- !table_some, table_remove. rewrite lookup_delete_is_Some. naive_solver.
Qed.

Lemma nodup_filter_ids (p : conversation -> bool) cs : NoDup (ids cs) -> NoDup (ids (List.filter p cs)).
Proof.
  induction cs as [|c cs IH]; [done|]. cbn [ids map List.filter]. intros [Hc Hd]%NoDup_cons.
  specialize (IH Hd). destruct (p c); [|done]. cbn [map]. apply NoDup_cons. split; [|done].
  intros Hin. apply Hc. apply (list_elem_of_fmap cv_id) in Hin as (d & -> & Hin).
  apply (list_elem_of_fmap_2 cv_id). apply list_elem_of_In, filter_In in Hin as [Hin _]. by apply list_elem_of_In.
Qed.

(** * The hook *)

(** A time that is stored and read back. *)
Definition good_time (n : number) : bool := is_time n && number_prints n && is_finite n.

Inductive playground_event :=
| EUpdate (eager : bool) (f : list message -> list message)
| ERender
| ETimer (now : number)
| ECreate (now id_now : number) (id : jsstr)
| ESwitch (now : number) (id : jsstr)
| EDelete (now : number) (fresh id : jsstr).

Section Hook.
Context {L : LocalStorage} {ZD : Zod}.

Definition playground_step (e : playground_event) (s : playground) : playground :=
  match e with
  | EUpdate eager f => updateMessages eager f s
  | ERender => render_messages s
  | ETimer now => save_timer_fires now s
  | ECreate now id_now id => createNewConversation now id_now id s
  | ESwitch now id => switchConversation now id s
  | EDelete now fresh id => deleteConversation now fresh id s
  end.

(** When a step can happen.  The sidebar is disabled while an answer is generated, and
    identifiers are new; a new conversation is younger than what the others were last
    used for. *)
Definition enabled (e : playground_event) (s : playground) : Prop :=
  match e with
  | EUpdate _ _ | ERender => True
  | ETimer now => good_time now = true
  | ECreate now id_now id =>
      pg_queue s = [] /\ (id ∉ ids (pg_conversationsRef s)) /\ good_time now = true /\ good_time id_now = true /\
      (forall c, c ∈ pg_conversationsRef s -> cv_id c <> pg_activeRef s -> (updated_time c < time_key id_now)%Z)
  | ESwitch now _ => pg_queue s = [] /\ good_time now = true
  | EDelete now fresh _ => pg_queue s = [] /\ (fresh ∉ ids (pg_conversationsRef s)) /\ good_time now = true
  end.

(** What the user sees of a step. *)
Definition label_of (e : playground_event) (s : playground) : chat_label :=
  match e with
  | EUpdate eager f => match pg_queue s, eager with [], true => LEdit f | _, _ => LNone end
  | ERender => match pg_queue s with UpdateMessages f :: _ => LEdit f | _ => LNone end
  | ETimer _ => LNone
  | ECreate _ _ id => LCreate id
  | ESwitch _ id => LSwitch id
  | EDelete _ fresh id => LDelete fresh id
  end.

(** The table that the state stands for: the messages of the active conversation are the
    latest ones. *)
Definition view (s : playground) : contents := <[pg_activeRef s := pg_latestMessages s]> (table (pg_conversationsRef s)).

Definition is_update (u : message_setter) : Prop := match u with UpdateMessages _ => True | SetMessages _ => False end.

Record playground_inv (s : playground) : Prop := {
  pi_ids : NoDup (ids (pg_conversationsRef s));
  pi_active : pg_activeRef s ∈ ids (pg_conversationsRef s);
  pi_saved : pg_timer s = false -> table (pg_conversationsRef s) !! pg_activeRef s = Some (pg_latestMessages s);
  pi_shown : pg_messages s = pg_latestMessages s;
  pi_id : pg_activeConversationId s = pg_activeRef s;
  pi_queue : Forall is_update (pg_queue s);
  pi_loaded : pg_hasLoaded s = true;
  pi_length : (length (pg_conversationsRef s) <= MAX_CONVERSATIONS)%nat;
  pi_timed : Forall (fun c => timed c = true) (pg_conversationsRef s);
}.

Lemma view_active s : view s !! pg_activeRef s = Some (pg_latestMessages s).
Proof. unfold view. apply lookup_insert_eq. Qed.

Lemma view_saved s : table (pg_conversationsRef s) !! pg_activeRef s = Some (pg_latestMessages s) ->
  view s = table (pg_conversationsRef s).
Proof. unfold view. apply insert_id. Qed.

Lemma good_time_is n : good_time n = true -> is_time n = true.
Proof. unfold good_time. intros H. by bools. Qed.

Lemma write_timed (w : conversation -> conversation) a now cs : is_time now = true ->
  (forall c, w c = c \/ (cv_createdAt (w c) = cv_createdAt c /\ cv_updatedAt (w c) = now /\ cv_id c = a)) ->
  Forall (fun c => timed c = true) cs -> Forall (fun c => timed c = true) (map w cs).
Proof.
  intros Hn Hw H. apply Forall_elem. intros d Hd. apply (list_elem_of_fmap w) in Hd as (c & -> & Hc).
  rewrite Forall_elem in H. specialize (H c Hc). destruct (Hw c) as [->|(H1 & H2 & _)]; [done|].
  unfold timed in *. rewrite H1, H2. bools. by rewrite H, Hn.
Qed.

Lemma write_active_shape a ms now c :
  cv_id (write_active a ms now c) = cv_id c /\
  cv_messages (write_active a ms now c) = (if has_id a c then ms else cv_messages c) /\
  (write_active a ms now c = c \/ (cv_createdAt (write_active a ms now c) = cv_createdAt c /\
     cv_updatedAt (write_active a ms now c) = now /\ cv_id c = a)).
Proof.
  unfold write_active, has_id. destruct (str_eqb_reflect (cv_id c) a); [|by auto]. split_and!; [done|done|]. by right.
Qed.

Lemma write_titled_shape a ms now c :
  cv_id (write_titled a ms now c) = cv_id c /\
  cv_messages (write_titled a ms now c) = (if has_id a c then ms else cv_messages c) /\
  (write_titled a ms now c = c \/ (cv_createdAt (write_titled a ms now c) = cv_createdAt c /\
     cv_updatedAt (write_titled a ms now c) = now /\ cv_id c = a)).
Proof.
  unfold write_titled, has_id. destruct (str_eqb_reflect (cv_id c) a); [|by auto]. split_and!; [done|done|]. by right.
Qed.

Lemma update_step f s : playground_inv s ->
  let s' := run_setter (UpdateMessages f) s in
  playground_inv s' /\ pg_activeRef s' = pg_activeRef s /\
  view s' = <[pg_activeRef s := f (pg_latestMessages s)]> (view s).
Proof.
  intros [Hid Ha Hs Hm Hi Hq Hl Hn Ht]. cbn. unfold persistMessages. cbn. rewrite Hl. cbn.
  split_and!; [by constructor; cbn|done|]. unfold view. cbn. rewrite insert_insert_eq. by rewrite Hm.
Qed.

(** A queue of updates is not looked at by the table. *)
Lemma queue_step q s : Forall is_update q -> playground_inv s ->
  playground_inv (set_queue q s) /\ view (set_queue q s) = view s.
Proof. intros Hq [Hid Ha Hs Hm Hi _ Hl Hn Ht]. split; [by constructor|done]. Qed.

(** Writing the latest messages into the list. *)
Lemma write_step (w : jsstr -> list message -> number -> conversation -> conversation) now s :
  (forall a ms now c, cv_id (w a ms now c) = cv_id c /\
     cv_messages (w a ms now c) = (if has_id a c then ms else cv_messages c) /\
     (w a ms now c = c \/ (cv_createdAt (w a ms now c) = cv_createdAt c /\
        cv_updatedAt (w a ms now c) = now /\ cv_id c = a))) ->
  playground_inv s -> is_time now = true ->
  let cs := map (w (pg_activeRef s) (pg_latestMessages s) now) (pg_conversationsRef s) in
  ids cs = ids (pg_conversationsRef s) /\ table cs = view s /\ Forall (fun c => timed c = true) cs /\
  (length cs <= MAX_CONVERSATIONS)%nat /\
  (forall c, c ∈ cs -> cv_id c <> pg_activeRef s -> c ∈ pg_conversationsRef s).
Proof.
  intros Hw [Hid Ha Hs Hm Hi Hq Hl Hn Ht] Hnow cs. split_and!.
  - apply ids_map. intros c. apply Hw.
  - apply table_write; [intros c; apply Hw|intros c; apply Hw|done|done].
  - eapply (write_timed _ (pg_activeRef s) now); [done|intros c; apply Hw|done].
  - unfold cs. by rewrite length_map.
  - intros d Hd Hne. apply (list_elem_of_fmap _ (pg_conversationsRef s)) in Hd as (c & -> & Hc).
    destruct (Hw (pg_activeRef s) (pg_latestMessages s) now c) as (E & _ & [->|(_ & _ & Ec)]); [done|congruence].
Qed.

Lemma timer_step now s : playground_inv s -> good_time now = true ->
  playground_inv (save_timer_fires now s) /\ pg_activeRef (save_timer_fires now s) = pg_activeRef s /\
  view (save_timer_fires now s) = view s.
Proof.
  intros H Hn. unfold save_timer_fires. destruct (pg_timer s); [|done].
  destruct (write_step write_titled now s write_titled_shape H (good_time_is _ Hn)) as (Hids & Ht & Hti & Hlen & _).
  destruct H as [Hid Ha Hs Hm Hi Hq Hl Hnn Htt]. unfold persistConversations, setConversations. cbn -[ids table].
  assert (Ev : forall cs, table cs = view s -> <[pg_activeRef s := pg_latestMessages s]> (table cs) = view s).
  { intros cs ->. unfold view. by rewrite insert_insert_eq. }
  split_and!; [|done|by apply Ev]. constructor; cbn -[ids table]; try done.
  - by rewrite Hids.
  - by rewrite Hids.
  - intros _. rewrite Ht. apply view_active.
Qed.

Lemma flush_step now s : playground_inv s -> good_time now = true ->
  let s' := flush_pending now s in
  playground_inv s' /\ pg_activeRef s' = pg_activeRef s /\ pg_queue s' = pg_queue s /\
  table (pg_conversationsRef s') = view s /\ ids (pg_conversationsRef s') = ids (pg_conversationsRef s) /\
  (forall c, c ∈ pg_conversationsRef s' -> cv_id c <> pg_activeRef s -> c ∈ pg_conversationsRef s).
Proof.
  intros H Hn. cbn. unfold flush_pending. destruct (pg_timer s) eqn:Et.
  - destruct (write_step write_active now s write_active_shape H (good_time_is _ Hn)) as (Hids & Ht & Hti & Hlen & Hin).
    destruct H as [Hid Ha Hs Hm Hi Hq Hl Hnn Htt]. unfold persistConversations. cbn -[ids table].
    split_and!; try done. constructor; cbn -[ids table]; try done; [by rewrite Hids|by rewrite Hids|].
    intros _. rewrite Ht. apply view_active.
  - split_and!; try done. symmetry. apply view_saved. by apply H.
Qed.

(** The parts of the invariant that do not speak of the active conversation. *)
Lemma activate_step c s : NoDup (ids (pg_conversationsRef s)) -> c ∈ pg_conversationsRef s -> pg_queue s = [] ->
  pg_hasLoaded s = true -> (length (pg_conversationsRef s) <= MAX_CONVERSATIONS)%nat ->
  Forall (fun c => timed c = true) (pg_conversationsRef s) ->
  playground_inv (activate c s) /\ pg_activeRef (activate c s) = cv_id c /\
  view (activate c s) = table (pg_conversationsRef s).
Proof.
  intros Hid Hc Hq Hl Hn Ht. unfold activate, setMessages. cbn -[ids table]. rewrite Hq. cbn -[ids table].
  pose proof (table_in _ c Hid Hc) as Hlk.
  split_and!; [|done|unfold view; cbn; by apply insert_id].
  constructor; cbn -[ids table]; try done; [by apply (list_elem_of_fmap_2 cv_id)|by rewrite Hq].
Qed.

Lemma activate_member c s : playground_inv s -> c ∈ pg_conversationsRef s -> pg_queue s = [] ->
  playground_inv (activate c s) /\ pg_activeRef (activate c s) = cv_id c /\
  view (activate c s) = table (pg_conversationsRef s).
Proof. intros [] Hc Hq. by apply activate_step. Qed.

(** A new conversation is among those that are kept. *)
Lemma fresh_kept cs fresh a : NoDup (ids (cs ++ [fresh])) -> Forall (fun c => timed c = true) (cs ++ [fresh]) ->
  (forall c, c ∈ cs -> cv_id c <> a -> (updated_time c < updated_time fresh)%Z) ->
  fresh ∈ order_conversations (cs ++ [fresh]).
Proof.
  intros Hd Ht Hlt. destruct (order_spec _ Ht) as (dropped & Hp & Hle & _).
  assert (Hin : fresh ∈ order_conversations (cs ++ [fresh]) ++ dropped) by (rewrite Hp; apply elem_of_app; right; by left).
  apply elem_of_app in Hin as [Hin|Hin]; [done|]. exfalso.
  assert (Hall : forall c, c ∈ order_conversations (cs ++ [fresh]) -> cv_id c = a).
  { intros c Hc. destruct (decide (cv_id c = a)) as [E|E]; [done|]. pose proof (Hle c fresh Hc Hin) as H1.
    pose proof (order_elem _ _ Hc) as Hc'. apply elem_of_app in Hc' as [Hc'|Hc'].
    - specialize (Hlt c Hc' E). lia.
    - apply list_elem_of_singleton in Hc' as ->. exfalso.
      assert (Hd2 : NoDup (ids (order_conversations (cs ++ [fresh]) ++ dropped))) by (by rewrite (ids_perm _ _ Hp)).
      unfold ids in Hd2. rewrite map_app in Hd2. apply NoDup_app in Hd2 as (_ & Hx & _).
      apply (Hx (cv_id fresh)); by apply (list_elem_of_fmap_2 cv_id). }
  assert (Hlen : (2 <= length (order_conversations (cs ++ [fresh])))%nat).
  { pose proof (order_length (cs ++ [fresh])) as H1. pose proof (Permutation_length Hp) as H2.
    rewrite length_app in H2. assert (1 <= length dropped)%nat by (destruct dropped; [by apply not_elem_of_nil in Hin|cbn; lia]).
    unfold MAX_CONVERSATIONS in H1. lia. }
  assert (Hd1 : NoDup (ids (order_conversations (cs ++ [fresh])))).
  { rewrite <- (ids_perm _ _ Hp) in Hd. unfold ids in *. rewrite map_app in Hd. by apply NoDup_app in Hd as (? & _). }
  destruct (order_conversations (cs ++ [fresh])) as [|x [|y l]]; [cbn in Hlen; lia|cbn in Hlen; lia|].
  apply NoDup_cons in Hd1 as [Hx _]. apply Hx.
  rewrite (Hall x), <- (Hall y); [by left|right; by left|by left].
Qed.

Lemma table_submap cs cs' : NoDup (ids cs') -> (forall c, c ∈ cs -> c ∈ cs') -> table cs ⊆ table cs'.
Proof.
  intros Hd Hin. apply map_subseteq_spec. intros id ms H. apply table_lookup in H as (c & Hc & <- & <-).
  apply table_in; auto.
Qed.

(** The list with a new conversation. *)
Lemma created_kept now id_now id s : playground_inv s -> enabled (ECreate now id_now id) s ->
  let cs := pg_conversationsRef (flush_pending now s) ++ [createConversation id id_now []] in
  NoDup (ids cs) /\ Forall (fun c => timed c = true) cs /\ createConversation id id_now [] ∈ order_conversations cs.
Proof.
  intros H (Hq & Hfresh & Hnow & Hnow' & Hold) cs.
  destruct (flush_step now s H Hnow) as (H1 & Ha & Hq1 & Htab & Hids & Hin).
  assert (Hd : NoDup (ids cs)).
  { unfold ids, cs. rewrite map_app. apply NoDup_app. split_and!; [apply H1| |apply NoDup_singleton].
    intros x Hx Hx'. apply list_elem_of_singleton in Hx' as ->. apply Hfresh. rewrite <- Hids. done. }
  assert (Htimed : Forall (fun c => timed c = true) cs).
  { apply Forall_app. split; [apply H1|]. constructor; [|constructor]. unfold timed. cbn.
    by rewrite (good_time_is _ Hnow'). }
  split_and!; [done|done|]. eapply (fresh_kept _ _ (pg_activeRef s)); [done|done|].
  intros c Hc Hne. by apply Hold; [apply Hin|].
Qed.

Lemma create_step now id_now id s : playground_inv s -> enabled (ECreate now id_now id) s ->
  let s' := createNewConversation now id_now id s in
  playground_inv s' /\ chat_step (pg_activeRef s, view s) (LCreate id) (pg_activeRef s', view s').
Proof.
  intros H He s'. unfold s', createNewConversation. clear s'.
  destruct (created_kept now id_now id s H He) as (Hd & Htimed & Hkept).
  destruct He as (Hq & Hfresh & Hnow & Hnow' & Hold).
  destruct (flush_step now s H Hnow) as (H1 & Ha & Hq1 & Htab & Hids & Hin).
  set (s1 := flush_pending now s) in *. set (fresh := createConversation id id_now []) in *.
  set (next := order_conversations (pg_conversationsRef s1 ++ [fresh])) in *.
  assert (Hsub : forall c, c ∈ next -> c ∈ pg_conversationsRef s1 ++ [fresh]) by (intros c; apply order_elem).
  assert (Hdn : NoDup (ids next)).
  { destruct (order_spec _ Htimed) as (dropped & Hp & _). rewrite <- (ids_perm _ _ Hp) in Hd.
    unfold ids in *. rewrite map_app in Hd. by apply NoDup_app in Hd as (? & _). }
  assert (Hl : length next = Nat.min MAX_CONVERSATIONS (S (length (pg_conversationsRef s1)))).
  { unfold next. rewrite order_length, length_app. cbn [length]. f_equal. lia. }
  destruct (activate_step fresh (setConversations next (persistConversations next s1))) as (Hi & Hact & Hv).
  - done.
  - done.
  - cbn. by rewrite Hq1.
  - apply H1.
  - cbn -[next]. rewrite Hl. lia.
  - apply Forall_elem. intros c Hc. rewrite Forall_elem in Htimed. apply Htimed, Hsub, Hc.
  - split; [done|]. rewrite Hact, Hv. cbn -[ids table next]. apply chat_create.
    + by apply (table_in next fresh).
    + etrans; [by apply (table_submap _ _ Hd Hsub)|].
      rewrite (table_perm _ (fresh :: pg_conversationsRef s1)); [|done|by rewrite Permutation_app_comm].
      by rewrite table_cons, Htab.
    + rewrite table_size by done. rewrite Hl. do 2 f_equal. rewrite <- Htab. symmetry. apply table_size, H1.
Qed.

Lemma find_id_some id cs c : find (has_id id) cs = Some c -> c ∈ cs /\ cv_id c = id.
Proof.
  intros H. apply find_some in H as [Hin H]. split; [by apply list_elem_of_In|]. by apply str_eqb_eq.
Qed.

Lemma find_id_none id cs : find (has_id id) cs = None -> id ∉ ids cs.
Proof.
  intros H Hin. apply (list_elem_of_fmap cv_id) in Hin as (c & -> & Hc). apply list_elem_of_In in Hc.
  apply (find_none _ _ H) in Hc. unfold has_id in Hc. by rewrite str_eqb_refl in Hc.
Qed.

Lemma switch_step now id s : playground_inv s -> enabled (ESwitch now id) s ->
  let s' := switchConversation now id s in
  playground_inv s' /\ chat_step (pg_activeRef s, view s) (LSwitch id) (pg_activeRef s', view s').
Proof.
  intros H [Hq Hnow] s'. unfold s', switchConversation. clear s'.
  destruct (str_eqb_reflect id (pg_activeRef s)) as [->|Hne].
  { split; [done|]. apply chat_switch. by rewrite view_active. }
  destruct (flush_step now s H Hnow) as (H1 & Ha & Hq1 & Htab & Hids & _). set (s1 := flush_pending now s) in *.
  destruct (find (has_id id) (pg_conversationsRef s1)) as [target|] eqn:Ef.
  - apply find_id_some in Ef as [Hc <-].
    destruct (activate_member target s1 H1 Hc) as (Hi & Hact & Hv); [by rewrite Hq1|].
    split; [done|]. rewrite Hact, Hv, Htab. apply chat_switch. rewrite <- Htab. by rewrite (table_in _ target); [|apply H1|].
  - apply find_id_none in Ef. split; [done|]. rewrite Ha.
    replace (view s1) with (view s).
    + apply chat_switch_unknown. rewrite <- Htab. by apply table_none.
    + unfold view at 2. rewrite Htab, Ha. symmetry. apply insert_id.
      replace (pg_latestMessages s1) with (pg_latestMessages s); [apply view_active|].
      unfold s1, flush_pending. by destruct (pg_timer s).
Qed.

Lemma view_delete_active s : delete (pg_activeRef s) (view s) = delete (pg_activeRef s) (table (pg_conversationsRef s)).
Proof. unfold view. apply delete_insert_eq. Qed.

Lemma filter_elem (p : conversation -> bool) cs c : c ∈ List.filter p cs -> c ∈ cs.
Proof. intros H. apply list_elem_of_In, filter_In in H as [H _]. by apply list_elem_of_In. Qed.

Lemma delete_step now fresh id s : playground_inv s -> enabled (EDelete now fresh id) s ->
  let s' := deleteConversation now fresh id s in
  playground_inv s' /\ chat_step (pg_activeRef s, view s) (LDelete fresh id) (pg_activeRef s', view s').
Proof.
  intros H (Hq & Hfresh & Hnow) s'. unfold s', deleteConversation. clear s'.
  set (rest := List.filter (fun c => negb (has_id id c)) (pg_conversationsRef s)).
  assert (Htab : table rest = delete id (table (pg_conversationsRef s))) by apply table_remove.
  assert (Hd : NoDup (ids rest)) by (apply nodup_filter_ids, H).
  assert (Hlen : (length rest <= MAX_CONVERSATIONS)%nat).
  { etrans; [apply filter_length_le|apply H]. }
  assert (Htimed : Forall (fun c => timed c = true) rest).
  { apply Forall_elem. intros c Hc%filter_elem. pose proof (pi_timed _ H) as Ht. rewrite Forall_elem in Ht. by apply Ht. }
  cbn [pg_activeRef setConversations persistConversations set_storage set_conversations_ref].
  destruct (str_eqb_reflect id (pg_activeRef s)) as [->|Hne].
  - destruct rest as [|target rest'] eqn:Er.
    + set (c := createConversation fresh now []).
      destruct (activate_step c (setConversations [c] (persistConversations [c] s))) as (Hi & Hact & Hv);
        [apply NoDup_singleton|by left|done|apply H|cbn; unfold MAX_CONVERSATIONS; lia| |].
      { constructor; [|constructor]. unfold timed. cbn. by rewrite (good_time_is _ Hnow). }
      split; [done|]. rewrite Hact, Hv. apply chat_delete_last. by rewrite view_delete_active, <- Htab.
    + destruct (activate_step target (setConversations (target :: rest') (persistConversations (target :: rest') s)))
        as (Hi & Hact & Hv); [done|by left|done|apply H|done|done|].
      split; [done|]. rewrite Hact, Hv. cbn -[table delete]. rewrite Htab, <- view_delete_active.
      apply chat_delete_active. rewrite view_delete_active, <- Htab. apply table_some. by left.
  - assert (Hin : pg_activeRef s ∈ ids rest) by (apply ids_remove; split; [apply H|done]).
    destruct rest as [|c0 rest'] eqn:Er; [by apply not_elem_of_nil in Hin|]. rewrite <- Er in *. clear Er c0 rest'.
    assert (Hv : <[pg_activeRef s := pg_latestMessages s]> (table rest) = delete id (view s)).
    { unfold view. by rewrite Htab, delete_insert_ne. }
    split; [|unfold view; cbn -[table]; rewrite Hv; by apply chat_delete].
    destruct H as [Hid Ha Hs Hm Hi Hqu Hl Hnn Htt]. constructor; cbn -[ids table]; try done.
    intros Et. rewrite Htab. rewrite lookup_delete_ne by done. by apply Hs.
Qed.

(** * Reachable states *)

(** A list of conversations as the program stores it. *)
Definition good_list (cs : list conversation) : Prop :=
  NoDup (ids cs) /\ (length cs <= MAX_CONVERSATIONS)%nat /\ Forall (fun c => timed c = true) cs.

Inductive playground_reachable : playground -> Prop :=
| reach_load st id now :
    good_list (loadConversations id now st).1 -> playground_reachable (load_effect false id now (initial_playground st))
| reach_step s e :
    playground_reachable s -> enabled e s -> playground_reachable (playground_step e s).

Lemma load_nonempty id now st : (loadConversations id now st).1 <> [].
Proof.
  unfold loadConversations. destruct (migrateLegacyMessages id now st) as [migrated st'] eqn:E.
  destruct (stored_conversations st'); [|done]. cbn. destruct migrated as [cs|]; [|done].
  unfold migrateLegacyMessages in E. res_inv E. all: try done.
  all: by injection E as <- <-.
Qed.

Lemma load_step id now st : good_list (loadConversations id now st).1 ->
  let s := load_effect false id now (initial_playground st) in
  playground_inv s /\ view s = table (loadConversations id now st).1 /\
  pg_conversationsRef s = (loadConversations id now st).1.
Proof.
  intros (Hd & Hlen & Ht) s. unfold s, load_effect. clear s. cbn [pg_storage initial_playground].
  pose proof (load_nonempty id now st) as Hne.
  destruct (loadConversations id now st) as [loaded st'] eqn:El. cbn [fst] in *.
  assert (Hc : exists c, c ∈ loaded /\
    match (match (match loadActiveConversationId st' with Some a => find (has_id a) loaded | None => None end) with
           | Some c => Some c | None => head loaded end) with None => None | Some active => Some active end = Some c).
  { destruct (match loadActiveConversationId st' with Some a => find (has_id a) loaded | None => None end) as [c|] eqn:E.
    - destruct (loadActiveConversationId st') as [a|]; [|done]. apply find_id_some in E as [? _]. eauto.
    - destruct loaded as [|c l]; [done|]. exists c. split; [by left|done]. }
  destruct Hc as (c & Hc & E).
  destruct (match (match loadActiveConversationId st' with Some a => find (has_id a) loaded | None => None end) with
            | Some c => Some c | None => head loaded end) as [active|]; [|done]. injection E as ->.
  destruct (activate_step c (set_loaded (setConversations loaded (set_conversations_ref loaded (set_storage st' (initial_playground st))))))
    as (Hi & Hact & Hv); [done|done|done|done|done|done|].
  split_and!; [done|done|done].
Qed.

Lemma step_ok e s : playground_inv s -> enabled e s ->
  playground_inv (playground_step e s) /\
  chat_step (pg_activeRef s, view s) (label_of e s) (pg_activeRef (playground_step e s), view (playground_step e s)).
Proof.
  intros H He. destruct e as [eager f| |now|now id_now id|now id|now fresh id]; cbn [playground_step label_of].
  - unfold updateMessages. destruct (pg_queue s) as [|u q] eqn:Eq; [destruct eager|].
    + destruct (update_step f s H) as (Hi & Ha & Hv). split; [done|]. rewrite Ha, Hv. apply chat_edit, view_active.
    + destruct (queue_step ([] ++ [UpdateMessages f]) s) as [Hi Hv]; [by repeat constructor|done|].
      split; [done|]. rewrite Hv. apply chat_none.
    + destruct (queue_step ((u :: q) ++ [UpdateMessages f]) s) as [Hi Hv]; [|done|].
      { apply Forall_app. split; [rewrite <- Eq; apply H|by repeat constructor]. }
      split; [done|]. rewrite Hv. apply chat_none.
  - unfold render_messages. destruct (pg_queue s) as [|u q] eqn:Eq; [split; [done|apply chat_none]|].
    pose proof (pi_queue _ H) as Hq. rewrite Eq in Hq. apply list.Forall_cons in Hq as [Hu Hq].
    destruct u as [ms|f]; [done|]. destruct (queue_step q s Hq H) as [Hi0 Hv0].
    destruct (update_step f _ Hi0) as (Hi & Ha & Hv). split; [done|]. rewrite Ha, Hv, Hv0.
    apply (chat_edit _ _ f (pg_latestMessages s)), (view_active s).
  - destruct (timer_step now s H He) as (Hi & Ha & Hv). split; [done|]. rewrite Ha, Hv. apply chat_none.
  - by apply create_step.
  - by apply switch_step.
  - by apply delete_step.
Qed.

Lemma reachable_inv s : playground_reachable s -> playground_inv s.
Proof.
  induction 1 as [st id now Hg|s e H IH He]; [by apply load_step|]. by apply step_ok.
Qed.

(** C27. The playground implements a table of conversations: in every reachable state each
    step of the hook, whatever the timing of React and of the delayed saves, is a step of the
    table, in which edits change the active conversation only, switching loses nothing,
    and a new conversation takes the place of others only beyond fifty; the messages
    shown are those of the active conversation. *)
Theorem playground_refines_table s e : playground_reachable s -> enabled e s ->
  chat_step (pg_activeRef s, view s) (label_of e s) (pg_activeRef (playground_step e s), view (playground_step e s)) /\
  view (playground_step e s) !! pg_activeConversationId (playground_step e s) = Some (pg_messages (playground_step e s)).
Proof.
  intros H He. pose proof (reachable_inv _ H) as Hi. destruct (step_ok e s Hi He) as [Hi' Hs].
  split; [done|]. rewrite (pi_id _ Hi'), (pi_shown _ Hi'). apply view_active.
Qed.

End Hook.
