(* ===== verification/PlaygroundSaved.v ===== *)
(** What the playground keeps in the browser: with room in [localStorage] a reload of the page
    shows the same conversations once no save is waiting; what is lost when a save is
    waiting while the page is left. *)
From Stdlib Require Import ZArith Lia Bool String Permutation Sorted.
From stdpp Require Import base list option gmap.
From S2P Require Import Prelude JsString JsNumber JsValue Collections Json JsonText Schema ChatMessage Conversations ConversationFacts PlaygroundState PlaygroundFacts.

(** * What can be stored *)

Definition text_ok (s : jsstr) : bool := forallb is_code_unit s.
Definition messages_ok (ms : list message) : bool :=
  prints (messages_object ms) && conforms messagesSchema (messages_object ms).

Lemma storable_parts c : storable c = true <->
  text_ok (cv_id c) = true /\ text_ok (cv_title c) = true /\
  (number_prints (cv_createdAt c) && is_finite (cv_createdAt c)) = true /\
  (number_prints (cv_updatedAt c) && is_finite (cv_updatedAt c)) = true /\ messages_ok (cv_messages c) = true.
Proof.
  unfold storable, messages_ok, text_ok. rewrite conforms_conversation_object.
  assert (E : prints (conversation_object c) =
    forallb is_code_unit (cv_id c) && (forallb is_code_unit (cv_title c) && (number_prints (cv_createdAt c) &&
      (number_prints (cv_updatedAt c) && (prints (messages_object (cv_messages c)) && true))))).
  { unfold conversation_object. cbn [field app prints]. rewrite bool_decide_true by (apply (bool_decide_unpack _); vm_compute; exact I).
    cbn [forallb fst snd]. replace (forallb is_code_unit (js _)) with true by reflexivity.
    replace (forallb is_code_unit (js "title")) with true by reflexivity.
    replace (forallb is_code_unit (js "createdAt")) with true by reflexivity.
    replace (forallb is_code_unit (js "updatedAt")) with true by reflexivity.
    replace (forallb is_code_unit (js "messages")) with true by reflexivity. done. }
  rewrite E, andb_true_r, !andb_true_iff. tauto.
Qed.

Lemma text_ok_elem s t : (forall c, c ∈ t -> c ∈ s) -> text_ok s = true -> text_ok t = true.
Proof.
  unfold text_ok. rewrite !forallb_forall. intros H Hs c Hc. apply Hs. apply list_elem_of_In, H. by apply list_elem_of_In.
Qed.

Lemma trim_start_elem s c : c ∈ trim_start s -> c ∈ s.
Proof.
  induction s as [|x s IH]; [done|]. cbn [trim_start]. destruct (is_space x); [|done]. intros H. right. auto.
Qed.

Lemma trim_elem s c : c ∈ trim s -> c ∈ s.
Proof.
  unfold trim. intros H.
  apply list_elem_of_In, in_rev, list_elem_of_In, trim_start_elem in H.
  apply list_elem_of_In, in_rev, list_elem_of_In, trim_start_elem in H. done.
Qed.

Lemma collapse_elem s : forall after c, c ∈ collapse_spaces after s -> c = 32%Z \/ c ∈ s.
Proof.
  induction s as [|x s IH]; intros after c; [by intros ?%not_elem_of_nil|]. cbn [collapse_spaces].
  assert (Hr : forall b, c ∈ collapse_spaces b s -> c = 32%Z \/ c ∈ x :: s).
  { intros b Hb. destruct (IH b c Hb); [by left|]. right. by right. }
  destruct (is_space x); [destruct after|].
  - apply Hr.
  - intros [->|H]%elem_of_cons; [by left|by apply (Hr true)].
  - intros [->|H]%elem_of_cons; [right; by left|by apply (Hr false)].
Qed.

Lemma prints_field k v f : (js k, v) ∈ f -> prints (JObj f) = true -> prints v = true.
Proof.
  cbn [prints]. intros Hin H. bools. rewrite forallb_forall in H0. apply list_elem_of_In in Hin.
  specialize (H0 _ Hin). cbn [fst snd] in H0. by bools.
Qed.

Lemma prints_item v l : v ∈ l -> prints (JArr l) = true -> prints v = true.
Proof. cbn [prints]. rewrite forallb_forall. intros Hin H. apply H. by apply list_elem_of_In. Qed.

(** The text of a message that can be stored. *)
Lemma message_text_ok ms m v : messages_ok ms = true -> m ∈ ms -> v ∈ m_versions m -> text_ok (mv_content v) = true.
Proof.
  unfold messages_ok. intros H Hm Hv. bools.
  apply (prints_item (message_object m)) in H; [|by apply (list_elem_of_fmap_2 message_object)].
  apply (prints_field "versions" (JArr (map version_object (m_versions m)))) in H.
  2:{ unfold message_object. cbn [field app]. do 2 right. left. }
  apply (prints_item (version_object v)) in H; [|by apply (list_elem_of_fmap_2 version_object)].
  apply (prints_field "content" (JStr (mv_content v))) in H; [done|]. unfold version_object. cbn [field app]. right. left.
Qed.

Lemma title_ok ms : messages_ok ms = true -> text_ok (deriveConversationTitle ms) = true.
Proof.
  intros H. unfold deriveConversationTitle.
  destruct (match find (from_role MUser) ms with Some m => match m_versions m with v :: _ => trim (mv_content v) | [] => [] end
            | None => [] end) as [|c t] eqn:E; [done|]. cbn [truthy negb].
  assert (Ht : text_ok (c :: t) = true).
  { rewrite <- E. destruct (find (from_role MUser) ms) as [m|] eqn:Ef; [|done]. apply find_some in Ef as [Hm _].
    destruct (m_versions m) as [|v vs] eqn:Ev; [done|]. eapply text_ok_elem; [intros x; apply trim_elem|].
    eapply message_text_ok; [exact H|by apply list_elem_of_In|rewrite Ev; by left]. }
  assert (Hc : text_ok (collapse_spaces false (c :: t)) = true).
  { unfold text_ok. apply forallb_forall. intros x Hx. apply list_elem_of_In, collapse_elem in Hx as [->|Hx]; [done|].
    unfold text_ok in Ht. rewrite forallb_forall in Ht. apply Ht. by apply list_elem_of_In. }
  destruct (40 <? _)%nat; [|done]. unfold text_ok. rewrite forallb_app. apply andb_true_iff. split; [|done].
  eapply text_ok_elem; [|exact Hc]. intros x Hx. rewrite <- (take_drop 40 (collapse_spaces _ _)). apply elem_of_app. by left.
Qed.

Lemma good_time_parts n : good_time n = true -> (number_prints n && is_finite n) = true.
Proof. unfold good_time. intros H. bools. by rewrite H0, H1. Qed.

(** A new conversation without messages can be stored. *)
Lemma fresh_storable id now : text_ok id = true -> good_time now = true -> storable (createConversation id now []) = true.
Proof.
  intros Hid Hn. apply storable_parts. cbn [createConversation cv_id cv_title cv_createdAt cv_updatedAt cv_messages].
  by rewrite (good_time_parts _ Hn).
Qed.

(** * Saving what the hook writes *)

Section Saved.
Context {L : LocalStorage} {ZD : Zod} {ZL : ZodLaws ZD}.
Hypothesis Hopen : storage_available = true.
Hypothesis Hroom : forall st, storage_fits st = true.

Lemma save_all cs st : Forall (fun c => storable c = true) cs -> cs <> [] ->
  holds (order_conversations cs) st (saveConversations cs st).
Proof.
  intros Hs Hne. unfold saveConversations.
  assert (Ho : Forall (fun c => storable c = true) (order_conversations cs)).
  { apply Forall_elem. intros c Hc%order_elem. rewrite Forall_elem in Hs. by apply Hs. }
  destruct (serialize_parse _ Ho) as (t & Ht & _ & _).
  assert (Hr : has_room (order_conversations cs) st = true) by (unfold has_room; by rewrite Ht).
  assert (Hlen : (0 < length (order_conversations cs))%nat).
  { rewrite order_length. destruct cs; [done|]. unfold MAX_CONVERSATIONS. cbn [length]. lia. }
  destruct (save_loop_spec Hopen st _ Ho) as [(k & Hk & Hh & Hj)|[_ Hj]].
  - destruct k as [|k]; [done|]. specialize (Hj 0%nat ltac:(lia)). rewrite drop_0 in Hj. congruence.
  - specialize (Hj 0%nat Hlen). rewrite drop_0 in Hj. congruence.
Qed.

(** What the storage holds of a list of conversations. *)
Definition keeps (cs : list conversation) (st : storage) : Prop :=
  Permutation (stored_conversations st) cs \/
  (stored_conversations st = [] /\ exists c, cs = [c] /\ cv_messages c = []).

Lemma save_keeps cs st : Forall (fun c => storable c = true) cs -> cs <> [] -> (length cs <= MAX_CONVERSATIONS)%nat ->
  keeps cs (saveConversations cs st).
Proof.
  intros Hs Hne Hlen. left. rewrite (stored_holds Hopen (order_conversations cs) st); [by apply order_small| |by apply save_all].
  apply Forall_elem. intros c Hc%order_elem. rewrite Forall_elem in Hs. by apply Hs.
Qed.

Lemma save_other key cs st : key <> CONVERSATIONS_KEY -> Forall (fun c => storable c = true) cs -> cs <> [] ->
  readRaw key (saveConversations cs st) = readRaw key st.
Proof.
  intros Hk Hs Hne. destruct (save_all cs st Hs Hne) as (t & _ & ->).
  rewrite !(readRaw_open Hopen), mget_mput. by rewrite bool_decide_false.
Qed.

Lemma active_other key id st : key <> ACTIVE_CONVERSATION_KEY ->
  readRaw key (saveActiveConversationId id st) = readRaw key st.
Proof.
  intros Hk. unfold saveActiveConversationId. rewrite (writeRaw_open Hopen), Hroom. cbn [fst].
  rewrite !(readRaw_open Hopen), mget_mput. by rewrite bool_decide_false.
Qed.

Lemma active_stored id st : loadActiveConversationId (saveActiveConversationId id st) = Some id.
Proof.
  unfold loadActiveConversationId, saveActiveConversationId. rewrite (writeRaw_open Hopen), Hroom. cbn [fst].
  rewrite (readRaw_open Hopen), mget_mput. by rewrite bool_decide_true.
Qed.

Lemma keeps_active cs id st : keeps cs st -> keeps cs (saveActiveConversationId id st).
Proof.
  unfold keeps. replace (stored_conversations (saveActiveConversationId id st)) with (stored_conversations st); [done|].
  symmetry. apply stored_text. unfold read_text. by rewrite active_other.
Qed.

(** Updaters that give messages that can be stored. *)
Definition setter_ok (u : message_setter) : Prop :=
  match u with
  | SetMessages ms => messages_ok ms = true
  | UpdateMessages f => forall ms, messages_ok ms = true -> messages_ok (f ms) = true
  end.

Definition event_ok (e : playground_event) : Prop :=
  match e with
  | EUpdate _ f => setter_ok (UpdateMessages f)
  | ERender | ETimer _ | ESwitch _ _ => True
  | ECreate _ _ id => text_ok id = true
  | EDelete _ fresh _ => text_ok fresh = true
  end.

Record saved_inv (s : playground) : Prop := {
  si_hook : playground_inv s;
  si_storable : Forall (fun c => storable c = true) (pg_conversationsRef s);
  si_latest : messages_ok (pg_latestMessages s) = true;
  si_queue : Forall setter_ok (pg_queue s);
  si_keeps : keeps (pg_conversationsRef s) (pg_storage s);
  si_active : loadActiveConversationId (pg_storage s) = Some (pg_activeRef s);
  si_legacy : read_text MESSAGES_KEY (pg_storage s) = None;
}.

Lemma write_storable (w : jsstr -> list message -> number -> conversation -> conversation) a ms now cs :
  (forall c, w a ms now c = c \/ (cv_id (w a ms now c) = cv_id c /\ cv_messages (w a ms now c) = ms /\
     cv_createdAt (w a ms now c) = cv_createdAt c /\ cv_updatedAt (w a ms now c) = now /\
     (cv_title (w a ms now c) = cv_title c \/ cv_title (w a ms now c) = deriveConversationTitle ms))) ->
  messages_ok ms = true -> good_time now = true ->
  Forall (fun c => storable c = true) cs -> Forall (fun c => storable c = true) (map (w a ms now) cs).
Proof.
  intros Hw Hm Hn H. apply Forall_elem. intros d Hd. apply (list_elem_of_fmap (w a ms now)) in Hd as (c & -> & Hc).
  rewrite Forall_elem in H. specialize (H c Hc). destruct (Hw c) as [->|(E1 & E2 & E3 & E4 & E5)]; [done|].
  apply storable_parts in H as (H1 & H2 & H3 & H4 & H5). apply storable_parts. rewrite E1, E2, E3, E4.
  split_and!; [done| |done|by apply good_time_parts|done].
  destruct E5 as [->| ->]; [done|by apply title_ok].
Qed.

(** The parts of the invariant that speak of a list and the storage. *)
Record saved_list (cs : list conversation) (st : storage) : Prop := {
  sl_storable : Forall (fun c => storable c = true) cs;
  sl_keeps : keeps cs st;
  sl_legacy : read_text MESSAGES_KEY st = None;
}.

Lemma saved_list_of s : saved_inv s -> saved_list (pg_conversationsRef s) (pg_storage s).
Proof. intros []. by constructor. Qed.

Lemma saved_of_list s : playground_inv s -> saved_list (pg_conversationsRef s) (pg_storage s) ->
  loadActiveConversationId (pg_storage s) = Some (pg_activeRef s) ->
  messages_ok (pg_latestMessages s) = true -> Forall setter_ok (pg_queue s) -> saved_inv s.
Proof. intros H [] Ha Hm Hq. by constructor. Qed.

(** Saving another list, and another active conversation. *)
Lemma saved_persist cs cs' st : saved_list cs st ->
  Forall (fun c => storable c = true) cs' -> cs' <> [] -> (length cs' <= MAX_CONVERSATIONS)%nat ->
  saved_list cs' (saveConversations cs' st) /\
  loadActiveConversationId (saveConversations cs' st) = loadActiveConversationId st.
Proof.
  intros [_ _ Hl] Hs Hne Hlen. unfold loadActiveConversationId. rewrite save_other by done. split; [|done].
  constructor; [done|by apply save_keeps|]. unfold read_text. by rewrite save_other.
Qed.

Lemma saved_activate cs st id : saved_list cs st -> saved_list cs (saveActiveConversationId id st).
Proof.
  intros [Hs Hk Hl]. constructor; [done|by apply keeps_active|]. unfold read_text. by rewrite active_other.
Qed.

Lemma nonempty_ids (id : jsstr) cs : id ∈ ids cs -> cs <> [].
Proof. intros H ->. by apply not_elem_of_nil in H. Qed.

Lemma write_active_fields a ms now c : write_active a ms now c = c \/
  (cv_id (write_active a ms now c) = cv_id c /\ cv_messages (write_active a ms now c) = ms /\
   cv_createdAt (write_active a ms now c) = cv_createdAt c /\ cv_updatedAt (write_active a ms now c) = now /\
   (cv_title (write_active a ms now c) = cv_title c \/ cv_title (write_active a ms now c) = deriveConversationTitle ms)).
Proof. unfold write_active. destruct (has_id a c); [right|by left]. cbn. split_and!; [done..|by left]. Qed.

Lemma write_titled_fields a ms now c : write_titled a ms now c = c \/
  (cv_id (write_titled a ms now c) = cv_id c /\ cv_messages (write_titled a ms now c) = ms /\
   cv_createdAt (write_titled a ms now c) = cv_createdAt c /\ cv_updatedAt (write_titled a ms now c) = now /\
   (cv_title (write_titled a ms now c) = cv_title c \/ cv_title (write_titled a ms now c) = deriveConversationTitle ms)).
Proof. unfold write_titled. destruct (has_id a c); [right|by left]. cbn. split_and!; [done..|].
  destruct (existsb _ ms); [by right|by left].
Qed.

(** Writing the latest messages and saving. *)
Lemma saved_write (w : jsstr -> list message -> number -> conversation -> conversation) now s :
  (forall a ms now c, w a ms now c = c \/ (cv_id (w a ms now c) = cv_id c /\ cv_messages (w a ms now c) = ms /\
     cv_createdAt (w a ms now c) = cv_createdAt c /\ cv_updatedAt (w a ms now c) = now /\
     (cv_title (w a ms now c) = cv_title c \/ cv_title (w a ms now c) = deriveConversationTitle ms))) ->
  saved_inv s -> good_time now = true ->
  let cs := map (w (pg_activeRef s) (pg_latestMessages s) now) (pg_conversationsRef s) in
  saved_list cs (saveConversations cs (pg_storage s)) /\
  loadActiveConversationId (saveConversations cs (pg_storage s)) = Some (pg_activeRef s).
Proof.
  intros Hw H Hn cs. rewrite <- (si_active _ H). eapply saved_persist; [by apply saved_list_of| | |].
  - apply write_storable; [intros c; apply Hw|apply H|done|apply H].
  - pose proof (nonempty_ids _ _ (pi_active _ (si_hook _ H))) as Hne. unfold cs. intros E. by apply map_eq_nil in E.
  - unfold cs. rewrite length_map. apply H.
Qed.

Lemma saved_flush now s : saved_inv s -> good_time now = true ->
  let s' := flush_pending now s in
  saved_inv s'.
Proof.
  intros H Hn. destruct (flush_step now s (si_hook _ H) Hn) as (Hi & _). cbn in *.
  unfold flush_pending in *. destruct (pg_timer s); [|done].
  destruct (saved_write write_active now s write_active_fields H Hn) as [Hl Ha].
  apply saved_of_list; [done|done|done|apply H|apply H].
Qed.

(** The active conversation after [activate]. *)
Lemma saved_activated c s : playground_inv (activate c s) -> c ∈ pg_conversationsRef s -> pg_queue s = [] ->
  saved_list (pg_conversationsRef s) (pg_storage s) -> saved_inv (activate c s).
Proof.
  intros Hi Hc Hq Hl. assert (Hs : storable c = true).
  { pose proof (sl_storable _ _ Hl) as Hs. rewrite Forall_elem in Hs. by apply Hs. }
  unfold activate, setMessages in *. cbn in *. rewrite Hq in *. cbn in *. apply saved_of_list; cbn.
  - done.
  - by apply saved_activate.
  - apply active_stored.
  - by apply storable_parts in Hs as (_ & _ & _ & _ & ?).
  - by rewrite Hq.
Qed.

Lemma saved_create now id_now id s : saved_inv s -> enabled (ECreate now id_now id) s -> text_ok id = true ->
  saved_inv (createNewConversation now id_now id s).
Proof.
  intros H He Hid. destruct (create_step now id_now id s (si_hook _ H) He) as [Hi _].
  pose proof (created_kept now id_now id s (si_hook _ H) He) as (_ & _ & Hf).
  destruct He as (Hq & Hfresh & Hnow & Hnow' & Hold).
  pose proof (saved_flush now s H Hnow) as H1. destruct (flush_step now s (si_hook _ H) Hnow) as (_ & _ & Hq1 & _).
  cbn [playground_step] in *. unfold createNewConversation in *. set (s1 := flush_pending now s) in *.
  set (fresh := createConversation id id_now []) in *.
  set (next := order_conversations (pg_conversationsRef s1 ++ [fresh])) in *.
  apply saved_activated; [done|done|cbn; by rewrite Hq1|].
  apply (saved_persist (pg_conversationsRef s1)); [by apply saved_list_of| | |].
  - apply Forall_elem. intros c Hc%order_elem. apply elem_of_app in Hc as [Hc|Hc].
    + pose proof (si_storable _ H1) as Hs. rewrite Forall_elem in Hs. by apply Hs.
    + apply list_elem_of_singleton in Hc as ->. by apply fresh_storable.
  - intros E. rewrite E in Hf. by apply not_elem_of_nil in Hf.
  - unfold next. rewrite order_length. lia.
Qed.

Lemma saved_switch now id s : saved_inv s -> enabled (ESwitch now id) s -> saved_inv (switchConversation now id s).
Proof.
  intros H He. destruct (switch_step now id s (si_hook _ H) He) as [Hi _]. destruct He as [Hq Hnow].
  unfold switchConversation in *. destruct (str_eqb id (pg_activeRef s)); [done|].
  pose proof (saved_flush now s H Hnow) as H1. destruct (flush_step now s (si_hook _ H) Hnow) as (_ & _ & Hq1 & _).
  set (s1 := flush_pending now s) in *. destruct (find (has_id id) (pg_conversationsRef s1)) as [target|] eqn:Ef; [|done].
  apply saved_activated; [done|by apply find_id_some in Ef as [? _]|by rewrite Hq1|by apply saved_list_of].
Qed.

Lemma saved_delete now fresh id s : saved_inv s -> enabled (EDelete now fresh id) s -> text_ok fresh = true ->
  saved_inv (deleteConversation now fresh id s).
Proof.
  intros H He Hf. destruct (delete_step now fresh id s (si_hook _ H) He) as [Hi _]. destruct He as (Hq & _ & Hnow).
  unfold deleteConversation in *. cbn [playground_step] in *.
  set (rest := List.filter (fun c => negb (has_id id c)) (pg_conversationsRef s)) in *.
  set (next := match rest with [] => [createConversation fresh now []] | _ => rest end) in *.
  assert (Hs : Forall (fun c => storable c = true) next).
  { unfold next. destruct rest as [|c0 r] eqn:Er; [constructor; [by apply fresh_storable|constructor]|]. rewrite <- Er.
    apply Forall_elem. intros c Hc%filter_elem. pose proof (si_storable _ H) as Hst. rewrite Forall_elem in Hst. by apply Hst. }
  assert (Hne : next <> []) by (unfold next; by destruct rest).
  assert (Hlen : (length next <= MAX_CONVERSATIONS)%nat).
  { unfold next. destruct rest as [|c0 r] eqn:Er; [cbn; unfold MAX_CONVERSATIONS; lia|]. rewrite <- Er.
    etrans; [apply filter_length_le|apply H]. }
  destruct (saved_persist _ next _ (saved_list_of _ H) Hs Hne Hlen) as [Hl Ha].
  cbn [pg_activeRef setConversations persistConversations set_storage set_conversations_ref] in *.
  destruct (str_eqb id (pg_activeRef s)).
  - destruct next as [|target next']; [done|]. apply saved_activated; [done|by left|done|done].
  - apply saved_of_list; [done|done|etrans; [exact Ha|apply H]|apply H|apply H].
Qed.

Lemma load_plain id now st : read_text MESSAGES_KEY st = None ->
  loadConversations id now st =
  (match stored_conversations st with [] => [createConversation id now []] | cs => cs end, st).
Proof.
  intros H. unfold loadConversations, migrateLegacyMessages. rewrite H.
  destruct (read_text CONVERSATIONS_KEY st); by destruct (stored_conversations st).
Qed.

Lemma saved_load id now st : read_text MESSAGES_KEY st = None -> good_list (loadConversations id now st).1 ->
  Forall (fun c => storable c = true) (loadConversations id now st).1 ->
  saved_inv (load_effect false id now (initial_playground st)).
Proof.
  intros Hl Hg Hs. destruct (load_step id now st Hg) as (Hi & _ & _).
  pose proof (load_nonempty id now st) as Hne. pose proof (load_plain id now st Hl) as Ep.
  unfold load_effect in *. cbn [pg_storage initial_playground] in *.
  destruct (loadConversations id now st) as [loaded st'] eqn:E. injection Ep as Eloaded ->. cbn [fst] in *.
  destruct (match (match loadActiveConversationId st with Some a => find (has_id a) loaded | None => None end) with
            | Some c => Some c | None => head loaded end) as [active|] eqn:Ea.
  2:{ by destruct loaded; [done|]; destruct (match loadActiveConversationId st with Some a => _ | None => None end). }
  apply saved_activated; [done| |done|].
  - cbn. destruct (match loadActiveConversationId st with Some a => find (has_id a) loaded | None => None end) as [c|] eqn:Ef.
    + injection Ea as ->. destruct (loadActiveConversationId st); [|done]. by apply find_id_some in Ef as [? _].
    + destruct loaded; [done|]. injection Ea as ->. by left.
  - constructor; [done| |done]. cbn. subst loaded. unfold keeps.
    destruct (stored_conversations st); [right|by left]. split; [done|]. by eexists.
Qed.

(** States of a playground whose messages and identifiers can be stored, from a page
    without messages of older versions. *)
Inductive saved_reachable : playground -> Prop :=
| saved_start st id now :
    read_text MESSAGES_KEY st = None -> good_list (loadConversations id now st).1 ->
    Forall (fun c => storable c = true) (loadConversations id now st).1 ->
    saved_reachable (load_effect false id now (initial_playground st))
| saved_next s e :
    saved_reachable s -> enabled e s -> event_ok e -> saved_reachable (playground_step e s).

Lemma saved_step_ok e s : saved_inv s -> enabled e s -> event_ok e -> saved_inv (playground_step e s).
Proof.
  intros H He Ho. pose proof (step_ok e s (si_hook _ H) He) as [Hi _].
  destruct e as [eager f| |now|now id_now id|now id|now fresh id]; cbn [playground_step event_ok] in *.
  - unfold updateMessages, run_setter, persistMessages in *. pose proof (pi_loaded _ (si_hook _ H)) as Hl.
    pose proof (pi_shown _ (si_hook _ H)) as Hm.
    destruct (pg_queue s) as [|u q] eqn:Eq; [destruct eager|]; cbn in *; rewrite ?Hl in *; cbn in *.
    + apply saved_of_list; cbn; [done|by apply saved_list_of|apply H| |by rewrite Eq]. rewrite Hm. apply Ho, H.
    + apply saved_of_list; cbn; [done|by apply saved_list_of|apply H|apply H|by repeat constructor].
    + apply saved_of_list; cbn; [done|by apply saved_list_of|apply H|apply H|].
      pose proof (si_queue _ H) as Hq. rewrite Eq in Hq. change (u :: q ++ [UpdateMessages f]) with ((u :: q) ++ [UpdateMessages f]).
      apply Forall_app. split; [done|by repeat constructor].
  - unfold render_messages in *. destruct (pg_queue s) as [|u q] eqn:Eq; [done|].
    pose proof (si_queue _ H) as Hq. pose proof (pi_queue _ (si_hook _ H)) as Hu. rewrite Eq in Hq, Hu.
    apply list.Forall_cons in Hq as [Ho1 Hq]. apply list.Forall_cons in Hu as [Hu _]. destruct u as [ms|f]; [done|].
    unfold run_setter, persistMessages in *. cbn in *. rewrite (pi_loaded _ (si_hook _ H)) in *. cbn in *.
    apply saved_of_list; cbn; [done|by apply saved_list_of|apply H| |done].
    rewrite (pi_shown _ (si_hook _ H)). apply Ho1, H.
  - unfold save_timer_fires in *. destruct (pg_timer s); [|done].
    destruct (saved_write write_titled now s write_titled_fields H He) as [Hl Ha].
    apply saved_of_list; [done|done|done|apply H|apply H].
  - by apply saved_create.
  - by apply saved_switch.
  - by apply saved_delete.
Qed.

Lemma saved_reachable_inv s : saved_reachable s -> saved_inv s.
Proof. induction 1 as [st id now H1 H2 H3|s e H IH He Ho]; [by apply saved_load|by apply saved_step_ok]. Qed.

(** C28. What is shown survives a reload: when [localStorage] has room and no save is
    waiting, a reload of the page opens the same conversation with the same messages, and
    every other conversation has its messages; a single empty conversation that was never
    saved is replaced by another empty one. *)
Theorem playground_reload s id now : saved_reachable s -> pg_timer s = false ->
  let s' := load_effect false id now (initial_playground (pg_storage s)) in
  (pg_activeRef s' = pg_activeRef s /\ view s' = view s /\ pg_messages s' = pg_messages s) \/
  (view s = {[pg_activeRef s := []]} /\ pg_activeRef s' = id /\ view s' = {[id := []]} /\ pg_messages s' = []).
Proof.
  intros Hr Ht s'. pose proof (saved_reachable_inv _ Hr) as H. pose proof (si_hook _ H) as Hi.
  pose proof (load_plain id now _ (si_legacy _ H)) as El.
  assert (Hv : view s = table (pg_conversationsRef s)) by (apply view_saved; by apply Hi).
  destruct (si_keeps _ H) as [Hp|(He & c & Ec & Hc)].
  - left. assert (Hne : stored_conversations (pg_storage s) <> []).
    { intros E. rewrite E in Hp. apply Permutation_nil in Hp. pose proof (pi_active _ Hi) as Ha. rewrite Hp in Ha. by apply not_elem_of_nil in Ha. }
    assert (El' : (loadConversations id now (pg_storage s)).1 = stored_conversations (pg_storage s))
      by (rewrite El; by destruct (stored_conversations (pg_storage s))).
    assert (Hd : NoDup (ids (stored_conversations (pg_storage s)))) by (rewrite (ids_perm _ _ Hp); apply Hi).
    assert (Hg : good_list (loadConversations id now (pg_storage s)).1).
    { rewrite El'. split_and!; [done|rewrite (Permutation_length Hp); apply Hi|].
      apply Forall_elem. intros x Hx. rewrite Hp in Hx. pose proof (pi_timed _ Hi) as Htd. rewrite Forall_elem in Htd. by apply Htd. }
    destruct (load_step id now (pg_storage s) Hg) as (Hi' & Hv' & Href). fold s' in Hi', Hv', Href.
    assert (Ha : pg_activeRef s' = pg_activeRef s).
    { unfold s', load_effect. cbn [pg_storage initial_playground]. rewrite El. rewrite (si_active _ H).
      set (loaded := match stored_conversations (pg_storage s) with [] => [createConversation id now []] | cs => cs end).
      assert (E : loaded = stored_conversations (pg_storage s)) by (unfold loaded; by destruct (stored_conversations (pg_storage s))).
      destruct (find (has_id (pg_activeRef s)) loaded) as [c|] eqn:Ef.
      - apply find_id_some in Ef as [_ <-]. unfold activate, setMessages. done.
      - apply find_id_none in Ef. exfalso. apply Ef. rewrite E, (ids_perm _ _ Hp). apply Hi. }
    assert (Hvv : view s' = view s) by (rewrite Hv', El', Hv; by apply table_perm).
    split_and!; [done|done|]. rewrite (pi_shown _ Hi'), (pi_shown _ Hi).
    pose proof (view_active s') as H1. rewrite Ha, Hvv, (view_active s) in H1. by injection H1 as ->.
  - right. rewrite He in El.
    assert (Hids : pg_activeRef s = cv_id c).
    { pose proof (pi_active _ Hi) as Ha. rewrite Ec in Ha. by apply list_elem_of_singleton in Ha. }
    split; [rewrite Hv, Ec, Hids; cbn; by rewrite Hc|].
    unfold s', load_effect. cbn [pg_storage initial_playground]. rewrite El, (si_active _ H). cbn [find has_id].
    destruct (has_id (pg_activeRef s) (createConversation id now [])); cbn; (split_and!; [done| |done]); unfold view; cbn; by rewrite insert_insert_eq.
Qed.

(** Leaving the playground within the delay of a save loses the last change: the
    clean-up of the component stores the list without the latest messages, although the
    handlers of the sidebar store them. *)
Theorem leaving_loses_messages s f : saved_reachable s -> pg_timer s = false -> pg_queue s = [] ->
  let s1 := updateMessages true f s in
  view s1 = <[pg_activeRef s := f (pg_latestMessages s)]> (view s) /\
  table (stored_conversations (pg_storage (unmount_playground s1))) = view s.
Proof.
  intros Hr Ht Hq s1. pose proof (saved_reachable_inv _ Hr) as H. pose proof (si_hook _ H) as Hi.
  assert (E : s1 = run_setter (UpdateMessages f) s) by (unfold s1, updateMessages; by rewrite Hq).
  destruct (update_step f s Hi) as (Hi1 & _ & Hv). rewrite <- E in Hv. split; [done|].
  assert (Es : pg_storage (unmount_playground s1) = saveConversations (pg_conversationsRef s) (pg_storage s)).
  { rewrite E. unfold run_setter, persistMessages. cbn. by rewrite (pi_loaded _ Hi). }
  pose proof (nonempty_ids _ _ (pi_active _ Hi)) as Hne.
  destruct (save_keeps (pg_conversationsRef s) (pg_storage s) (si_storable _ H) Hne (pi_length _ Hi)) as [Hp|(He & _)].
  - rewrite Es, (view_saved s) by (by apply Hi). apply table_perm; [|done].
    rewrite (ids_perm _ _ Hp). apply Hi.
  - pose proof (save_all (pg_conversationsRef s) (pg_storage s) (si_storable _ H) Hne) as Hh.
    apply (stored_holds Hopen) in Hh; [|apply Forall_elem; intros c Hc%order_elem; pose proof (si_storable _ H) as Hs; rewrite Forall_elem in Hs; by apply Hs].
    rewrite He in Hh. symmetry in Hh. apply (f_equal length) in Hh. rewrite order_length in Hh.
    destruct (pg_conversationsRef s); [done|]. unfold MAX_CONVERSATIONS in Hh. cbn in Hh. lia.
Qed.

End Saved.

(** * Concrete runs *)

Definition add_sample (ms : list message) : list message := ms ++ [sample_message].

Lemma prints_arr_app l l' : prints (JArr (l ++ l')) = prints (JArr l) && prints (JArr l').
Proof. cbn [prints]. apply forallb_app. Qed.

Lemma add_sample_ok : setter_ok (UpdateMessages add_sample).
Proof.
  intros ms H. unfold messages_ok, messages_object, add_sample in *. rewrite map_app. bools.
  rewrite prints_arr_app, H. cbn [conforms messagesSchema] in *. bools. rewrite forallb_app, H1.
  vm_compute. reflexivity.
Qed.

#[local] Existing Instance roomy_browser.
#[local] Existing Instance reference_zod.

(** A page that is opened for the first time, a message, its delayed save, and a second
    conversation. *)
Definition opened : playground := load_effect false (js "a") (num_of_Z 1000) (initial_playground []).
Definition written : playground := updateMessages true add_sample opened.
Definition timed_out : playground := save_timer_fires (num_of_Z 1500) written.
Definition second : playground := createNewConversation (num_of_Z 2000) (num_of_Z 2000) (js "b") timed_out.

Lemma opened_reachable : saved_reachable opened.
Proof.
  apply saved_start; [vm_compute; reflexivity| |].
  - split_and!; [apply (bool_decide_unpack _); vm_compute; exact I|vm_compute; lia|].
    repeat constructor.
  - repeat constructor.
Qed.

Lemma timed_out_reachable : saved_reachable timed_out.
Proof.
  apply (saved_next _ (ETimer (num_of_Z 1500))); [|vm_compute; reflexivity|done].
  apply (saved_next _ (EUpdate true add_sample)); [apply opened_reachable|done|apply add_sample_ok].
Qed.

Lemma second_enabled : enabled (ECreate (num_of_Z 2000) (num_of_Z 2000) (js "b")) timed_out.
Proof.
  split_and!; [vm_compute; reflexivity|apply (bool_decide_unpack _); vm_compute; exact I|vm_compute; reflexivity|vm_compute; reflexivity|].
  intros c Hc Hne. exfalso. apply Hne. apply list_elem_of_singleton in Hc as ->. vm_compute. reflexivity.
Qed.

Lemma second_reachable : saved_reachable second.
Proof.
  apply (saved_next _ (ECreate (num_of_Z 2000) (num_of_Z 2000) (js "b"))); [apply timed_out_reachable|apply second_enabled|].
  vm_compute. reflexivity.
Qed.

Example second_view : map cv_title (pg_conversationsRef second) = [js "Hello there"; js "New chat"].
Proof. vm_compute. reflexivity. Qed.

Lemma playground_reload_witness :
  let s' := load_effect false (js "c") (num_of_Z 3000) (initial_playground (pg_storage second)) in
  (pg_activeRef s' = pg_activeRef second /\ view s' = view second /\ pg_messages s' = pg_messages second) \/
  (view second = {[pg_activeRef second := []]} /\ pg_activeRef s' = js "c" /\ view s' = {[js "c" := []]} /\ pg_messages s' = []).
Proof.
  exact (playground_reload (ZL := reference_laws) eq_refl (fun _ => eq_refl) second (js "c") (num_of_Z 3000) second_reachable eq_refl).
Defined.

Lemma leaving_loses_messages_witness :
  let s1 := updateMessages true add_sample second in
  view s1 = <[pg_activeRef second := add_sample (pg_latestMessages second)]> (view second) /\
  table (stored_conversations (pg_storage (unmount_playground s1))) = view second.
Proof.
  exact (leaving_loses_messages (ZL := reference_laws) eq_refl (fun _ => eq_refl) second add_sample second_reachable eq_refl eq_refl).
Defined.

Lemma playground_refines_table_witness :
  chat_step (pg_activeRef timed_out, view timed_out) (LCreate (js "b")) (pg_activeRef second, view second) /\
  view second !! pg_activeConversationId second = Some (pg_messages second).
Proof.
  apply (playground_refines_table timed_out (ECreate (num_of_Z 2000) (num_of_Z 2000) (js "b"))); [|apply second_enabled].
  apply (reach_step _ (ETimer (num_of_Z 1500))); [|vm_compute; reflexivity].
  apply (reach_step _ (EUpdate true add_sample)); [|exact I]. apply reach_load.
  split_and!; [apply (bool_decide_unpack _); vm_compute; exact I|vm_compute; lia|repeat constructor].
Defined.
