(* ===== verification/PlaygroundStorage.v ===== *)
(** The settings and the messages of the playground in [localStorage]
    ([features/playground/lib/storage/storage.ts], [lib/state/playground-state-utils.ts] and the
    settings of [hooks/use-playground-state.ts]): envelopes with a version, schemas, and
    the limits that loaded messages are brought to. *)
From Stdlib Require Import ZArith Lia Bool String SpecFloat.
From stdpp Require Import base list option.
From S2P Require Import Prelude JsString JsNumber JsValue Collections Json JsonText Schema ChatMessage Conversations ConversationFacts.

#[local] Open Scope Z_scope.

(** * Schemas of the settings *)

Definition playgroundConfigSchema : schema :=
  ZObject [("model", ZOptional ZString); ("group", ZOptional ZString); ("temperature", ZOptional ZNumber);
           ("top_p", ZOptional ZNumber); ("max_tokens", ZOptional ZNumber); ("frequency_penalty", ZOptional ZNumber);
           ("presence_penalty", ZOptional ZNumber); ("seed", ZOptional (ZNullable ZNumber)); ("stream", ZOptional ZBoolean);
           ("size", ZOptional ZString); ("batch_count", ZOptional ZNumber); ("reasoning_effort", ZOptional ZString);
           ("system_prompt", ZOptional ZString)]%string.
Definition parameterEnabledSchema : schema :=
  ZObject (map (fun k => (k, ZOptional ZBoolean))
    ["temperature"; "top_p"; "max_tokens"; "frequency_penalty"; "presence_penalty"; "seed"; "size"; "batch_count";
     "reasoning_effort"]%string).

Definition CONFIG_KEY : jsstr := js "playground_config".
Definition PARAMETER_ENABLED_KEY : jsstr := js "playground_parameter_enabled".

(** Settings are objects given by their entries. *)
Definition settings := list (jsstr * jsvalue).

Definition DEFAULT_CONFIG : settings :=
  [(js "model", JStr []); (js "group", JStr (js "default")); (js "temperature", JNum (js_Number (js "0.7")));
   (js "top_p", JNum (num_of_Z 1)); (js "max_tokens", JNum (num_of_Z 4096)); (js "frequency_penalty", JNum num_zero);
   (js "presence_penalty", JNum num_zero); (js "seed", JNull); (js "stream", JBool true); (js "size", JStr []);
   (js "batch_count", JNum (num_of_Z 1)); (js "reasoning_effort", JStr []); (js "system_prompt", JStr [])].
Definition DEFAULT_PARAMETER_ENABLED : settings :=
  [(js "temperature", JBool true); (js "top_p", JBool true); (js "max_tokens", JBool false);
   (js "frequency_penalty", JBool true); (js "presence_penalty", JBool true); (js "seed", JBool false);
   (js "size", JBool false); (js "batch_count", JBool false); (js "reasoning_effort", JBool false)].

(** * Envelopes *)

(** [unwrapStoredValue]; of the values of JSON only objects have these keys. *)
Definition unwrapStoredValue (value : jsvalue) : jsvalue :=
  match value with
  | JObj fields =>
      match own fields (js "version"), own fields (js "data") with
      | Some _, Some data => data
      | _, _ => value
      end
  | _ => value
  end.

Section Storage.
Context {L : LocalStorage} {ZD : Zod}.

(** [None] stands for a thrown exception, which every caller catches. *)
Definition readStoredValue (key : jsstr) (st : storage) : option jsvalue :=
  match getItem key st with
  | Err _ => None
  | Ok None | Ok (Some []) => Some JNull
  | Ok (Some saved) => match JSON_parse saved with Ok v => Some v | Err _ => None end
  end.

Definition envelope (data : jsvalue) : jsvalue := JObj [(js "version", JNum STORAGE_VERSION); (js "data", data)].

(** The text is written, or an exception leaves the storage as it is. *)
Definition writeStoredValue (key : jsstr) (data : jsvalue) (st : storage) : storage :=
  match JSON_stringify_plain (envelope data) with
  | Some text => match setItem key text st with Ok st' => st' | Err _ => st end
  | None => st
  end.

(** [loadConfig] and [loadParameterEnabled]: an empty object when anything fails. *)
Definition load_settings (s : schema) (key : jsstr) (st : storage) : settings :=
  match readStoredValue key st with
  | Some saved =>
      if negb (value_truthy saved) then []
      else match zod_parse s (unwrapStoredValue saved) with Some (JObj fields) => fields | _ => [] end
  | None => []
  end.
Definition save_settings (s : schema) (key : jsstr) (config : settings) (st : storage) : storage :=
  match zod_parse s (JObj config) with Some parsed => writeStoredValue key parsed st | None => st end.

Definition loadConfig : storage -> settings := load_settings playgroundConfigSchema CONFIG_KEY.
Definition saveConfig : settings -> storage -> storage := save_settings playgroundConfigSchema CONFIG_KEY.
Definition loadParameterEnabled : storage -> settings := load_settings parameterEnabledSchema PARAMETER_ENABLED_KEY.
Definition saveParameterEnabled : settings -> storage -> storage := save_settings parameterEnabledSchema PARAMETER_ENABLED_KEY.

(** [{ ...a, ...b }]. *)
Definition spread (a b : settings) : settings := fold_left (fun acc e => assign e.1 e.2 acc) b a.

Definition getInitialPlaygroundConfig (st : storage) : settings := spread DEFAULT_CONFIG (loadConfig st).
Definition getInitialParameterEnabled (st : storage) : settings := spread DEFAULT_PARAMETER_ENABLED (loadParameterEnabled st).

(** The settings of the hook: the initial ones, an update with its save, the reset. *)
Definition initial_config (initialModel : option jsstr) (st : storage) : settings :=
  let base := getInitialPlaygroundConfig st in
  match initialModel with Some ((_ :: _) as m) => assign (js "model") (JStr m) base | _ => base end.
Definition updateConfig (key : jsstr) (value : jsvalue) (prev : settings) (st : storage) : settings * storage :=
  let updated := assign key value prev in (updated, saveConfig updated st).
Definition updateParameterEnabled (key : jsstr) (value : bool) (prev : settings) (st : storage) : settings * storage :=
  let updated := assign key (JBool value) prev in (updated, saveParameterEnabled updated st).
Definition resetConfig (st : storage) : settings * settings * storage :=
  (DEFAULT_CONFIG, DEFAULT_PARAMETER_ENABLED,
   saveParameterEnabled DEFAULT_PARAMETER_ENABLED (saveConfig DEFAULT_CONFIG st)).

End Storage.

(** * Messages that are loaded *)

Definition TRUNCATED_CONTENT_SUFFIX : jsstr := [LF; LF] ++ js "[...]".
Definition MIN_PREFIX_COLLAPSE_LENGTH : nat := Z.to_nat 2000.
Definition MIN_REPEATED_SECTION_COUNT : nat := 3.

Definition trimMessages (messages : list message) : list message :=
  if (length messages <=? MAX_STORED_MESSAGES)%nat then messages
  else drop (length messages - MAX_STORED_MESSAGES) messages.

Definition getMessageSize (m : message) : nat :=
  fold_left (fun total v => total + length (mv_content v))%nat (m_versions m) 0%nat
  + match m_reasoning m with Some r => length (rs_content r) | None => 0 end.

Definition truncateText (text : jsstr) (maxLength : nat) : jsstr :=
  if (length text <=? maxLength)%nat then text
  else if (maxLength <=? length TRUNCATED_CONTENT_SUFFIX)%nat then take maxLength text
  else take (maxLength - length TRUNCATED_CONTENT_SUFFIX) text ++ TRUNCATED_CONTENT_SUFFIX.

(** ** Headings: [/^#{2,6}\s+\d+\.\s+.+$/gm] *)

Definition is_line_end (c : Z) : bool := (c =? LF) || (c =? CR) || (c =? 8232) || (c =? 8233).

(** The last character of a run of white space that is no line end and not the first. *)
Fixpoint last_inner_space (i : nat) (w : jsstr) : option nat :=
  match w with
  | [] => None
  | c :: w' => match last_inner_space (S i) w' with
               | Some j => Some j
               | None => if (0 <? i)%nat && negb (is_line_end c) then Some i else None
               end
  end.

(** The length of the heading at the start of a line.  After the white space behind the dot
    stands the rest of the line; at the end of the text the white space gives way to one
    character of it. *)
Definition match_heading (s : jsstr) : option nat :=
  let '(hashes, s1) := span (Z.eqb 35) s in
  let n := length hashes in
  if negb ((2 <=? n) && (n <=? 6))%nat then None
  else
    let '(sp, s2) := span is_space s1 in
    let '(ds, s3) := span is_digit s2 in
    match sp, ds, s3 with
    | _ :: _, _ :: _, dot :: s4 =>
        if negb (dot =? 46) then None
        else
          let '(sp2, s5) := span is_space s4 in
          let before := (n + length sp + length ds + 1)%nat in
          match sp2, s5 with
          | [], _ => None
          | _, [] => match last_inner_space 0 sp2 with Some j => Some (before + j + 1)%nat | None => None end
          | _, _ => Some (before + length sp2 + length (span (fun c => negb (is_line_end c)) s5).1)%nat
          end
    | _, _, _ => None
    end.

Record section_occurrence := SectionOccurrence { so_heading : jsstr; so_index : nat }.

(** [text.matchAll(...)]: [skip] characters belong to the last match. *)
Fixpoint headings_from (index skip : nat) (line_start : bool) (s : jsstr) : list section_occurrence :=
  match s with
  | [] => []
  | c :: s' =>
      match skip with
      | S skip' => headings_from (S index) skip' (is_line_end c) s'
      | O =>
          match (if line_start then match_heading s else None) with
          | Some n => SectionOccurrence (take n s) index :: headings_from (S index) (n - 1) (is_line_end c) s'
          | None => headings_from (S index) 0 (is_line_end c) s'
          end
      end
  end.

Definition getSectionOccurrences (text : jsstr) : list section_occurrence := headings_from 0 0 true text.

Definition getHeadingCounts (occurrences : list section_occurrence) : list (jsstr * nat) :=
  fold_left (fun counts o =>
    mput (so_heading o) (S (match mget counts (so_heading o) with Some n => n | None => 0%nat end)) counts) occurrences [].

(** The loop from the last occurrence to the first. *)
Fixpoint last_repeated (counts : list (jsstr * nat)) (rest : list section_occurrence) (seen : list jsstr)
    (indexes : list nat) : list nat :=
  match rest with
  | [] => indexes
  | o :: rest' =>
      let count := match mget counts (so_heading o) with Some n => n | None => 0%nat end in
      if (count <? MIN_REPEATED_SECTION_COUNT)%nat || existsb (str_eqb (so_heading o)) seen
      then last_repeated counts rest' seen indexes
      else last_repeated counts rest' (so_heading o :: seen) (indexes ++ [so_index o])
  end.

Definition findLastRepeatedSectionRunStart (text : jsstr) : option nat :=
  let occurrences := getSectionOccurrences text in
  match last_repeated (getHeadingCounts occurrences) (rev occurrences) [] [] with
  | [] => None
  | i :: l => Some (fold_left Nat.min l i)
  end.

Definition collapseRepeatedSectionSnapshots (text : jsstr) : jsstr :=
  if (length text <? MIN_PREFIX_COLLAPSE_LENGTH)%nat then text
  else match findLastRepeatedSectionRunStart text with None => text | Some i => drop i text end.

(** ** Normalization *)

Definition normalize_version (v : message_version) : message_version * bool :=
  let collapsedContent := collapseRepeatedSectionSnapshots (mv_content v) in
  let content := truncateText collapsedContent MAX_LOADED_MESSAGE_CHARS in
  if str_eqb content (mv_content v) && str_eqb collapsedContent (mv_content v) then (v, false)
  else (MessageVersion (mv_id v) content (mv_images v), true).

(** The message with shortened texts. *)
Definition shorten_message (m : message) : message :=
  let versions := map normalize_version (m_versions m) in
  let reasoning := (fun r => set_reasoning_content (truncateText (rs_content r) MAX_LOADED_MESSAGE_CHARS) r) <$> m_reasoning m in
  let changed :=
    existsb snd versions
    || match reasoning, m_reasoning m with
       | Some r, Some r0 => negb (str_eqb (rs_content r) (rs_content r0))
       | _, _ => false
       end in
  if changed then with_reasoning reasoning (with_versions (map fst versions) m) else m.

(** The clock as [normalizeStoredMessageForLoad] reads it for one message. *)
Record load_times := LoadTimes { lt_reasoning : number; lt_finalized : number; lt_now : number }.

Definition normalizeStoredMessageForLoad (t : load_times) (m : message) : message :=
  let normalized := shorten_message m in
  if negb (isAssistantMessagePending normalized) then normalized
  else
    let hasReasoning := match m_reasoning normalized with Some r => truthy (trim (rs_content r)) | None => false end in
    if negb (hasMessageContent normalized) && negb hasReasoning then normalized
    else
      let completedAt :=
        or_else (m_completedAt normalized)
          (or_else (match m_reasoning normalized with Some r => rs_completedAt r | None => None end)
             (or_else (m_startedAt normalized) (or_else (m_createdAt normalized) (lt_now t)))) in
      completeAssistantTiming completedAt
        (with_reasoning_streaming false
           (with_status MComplete (finalizeMessage (lt_reasoning t) (lt_finalized t) normalized None))).

(** The loop from the last message to the first; [result] is the list in its final order. *)
Fixpoint size_loop (rest : list message) (totalSize : nat) (result : list message) : list message :=
  match rest with
  | [] => result
  | m :: rest' =>
      let messageSize := getMessageSize m in
      if (0 <? length result)%nat && (MAX_LOADED_MESSAGES_CHARS <? totalSize + messageSize)%nat then result
      else size_loop rest' (totalSize + messageSize) (m :: result)
  end.
Definition trimMessagesByContentSize (messages : list message) : list message := size_loop (rev messages) 0 [].

Section Messages.
Context {L : LocalStorage} {ZD : Zod}.

(** The value that is read with the storage, or an exception. *)
Definition readStoredMessagesValue (st : storage) : option jsvalue * storage :=
  match getItem MESSAGES_KEY st with
  | Err _ => (None, st)
  | Ok None | Ok (Some []) => (Some JNull, st)
  | Ok (Some saved) =>
      if (MAX_STORED_MESSAGES_BYTES <? length saved)%nat then
        match removeItem MESSAGES_KEY st with Ok st' => (Some JNull, st') | Err _ => (None, st) end
      else (match JSON_parse saved with Ok v => Some v | Err _ => None end, st)
  end.

Definition saveMessages (messages : list message) (st : storage) : storage :=
  match zod_parse messagesSchema (messages_object (trimMessages messages)) with
  | Some parsed => writeStoredValue MESSAGES_KEY parsed st
  | None => st
  end.

(** The list after the steps of loading; [times] are the clocks of the messages, the other
    times those of [sanitizeMessagesOnLoad]. *)
Definition prepare_messages (times : nat -> load_times) (now now' now'' : number) (interrupted : jsstr)
    (parsed : list message) : list message :=
  let normalized := imap (fun i m => normalizeStoredMessageForLoad (times i) m) parsed in
  let sizeTrimmed := trimMessagesByContentSize (trimMessages normalized) in
  sanitizeMessagesOnLoad now now' now'' interrupted sizeTrimmed.

(** [loadMessages].  The list of [trimMessagesByContentSize] is always a new array, so the
    comparison of identities that decides about saving is always true. *)
Definition loadMessages (times : nat -> load_times) (now now' now'' : number) (interrupted : jsstr) (st : storage)
  : option (list message) * storage :=
  let '(saved, st) := readStoredMessagesValue st in
  match saved with
  | None => (None, st)
  | Some saved =>
      if negb (value_truthy saved) then (None, st)
      else
        match zod_parse messagesSchema (unwrapStoredValue saved) ≫= as_list read_message with
        | None => (None, st)
        | Some parsed =>
            let sanitized := prepare_messages times now now' now'' interrupted parsed in
            (Some sanitized, saveMessages sanitized st)
        end
  end.

Definition getInitialMessages (times : nat -> load_times) (now now' now'' : number) (interrupted : jsstr) (st : storage)
  : list message * storage :=
  let '(loaded, st) := loadMessages times now now' now'' interrupted st in
  (match loaded with Some ms => ms | None => [] end, st).

(** [clearPlaygroundData]: the first exception ends it. *)
Definition clearPlaygroundData (st : storage) : storage :=
  match removeItem CONFIG_KEY st with
  | Err _ => st
  | Ok st => match removeItem PARAMETER_ENABLED_KEY st with
             | Err _ => st
             | Ok st => match removeItem MESSAGES_KEY st with Err _ => st | Ok st => st end
             end
  end.

End Messages.

(** Two spaces end a text: the last one belongs to the heading. *)
Example headings_ex :
  getSectionOccurrences (js "## 1. One" ++ [LF] ++ js "text" ++ [LF] ++ js "### 2. Two" ++ [LF] ++ js "####### 3. no" ++ [LF] ++ js "## 4.  ")
  = [SectionOccurrence (js "## 1. One") 0; SectionOccurrence (js "### 2. Two") 15; SectionOccurrence (js "## 4.  ") 40].
Proof. vm_compute. reflexivity. Qed.
