(* ===== verification/StorageFacts.v ===== *)
(** Properties of what the playground keeps: settings survive a reload, loaded messages are
    within their limits, and messages in an envelope are not migrated. *)
From Stdlib Require Import ZArith Lia Bool String SpecFloat.
From stdpp Require Import base list option.
From S2P Require Import Prelude JsString JsNumber JsValue Collections Json JsonText Schema ChatMessage Conversations ConversationFacts PlaygroundStorage.

(** * Limits of loaded messages *)

Definition total_size (ms : list message) : nat := fold_right (fun m n => getMessageSize m + n) 0 ms.

Lemma total_size_app a b : total_size (a ++ b) = total_size a + total_size b.
Proof. unfold total_size. rewrite foldr_app. induction a as [|m a IH]; [done|]. cbn [foldr]. rewrite IH. lia. Qed.

(** [rest] is what stands before [result], last message first. *)
Lemma size_loop_spec rest : forall result,
  (total_size result <= MAX_LOADED_MESSAGES_CHARS \/ length result <= 1) ->
  exists k, k <= length rest /\ size_loop rest (total_size result) result = drop k (rev rest ++ result) /\
    (total_size (drop k (rev rest ++ result)) <= MAX_LOADED_MESSAGES_CHARS \/ length (drop k (rev rest ++ result)) <= 1) /\
    (0 < k -> MAX_LOADED_MESSAGES_CHARS < total_size (drop (k - 1) (rev rest ++ result)) /\ result ++ rest <> []).
Proof.
  induction rest as [|m rest IH]; intros result Hr.
  - exists 0. cbn [size_loop rev app length]. rewrite drop_0. split_and!; [lia|done|done|lia].
  - cbn [size_loop rev length]. rewrite <- app_assoc. cbn [app].
    destruct ((0 <? length result) && (MAX_LOADED_MESSAGES_CHARS <? total_size result + getMessageSize m)) eqn:E; bools.
    + exists (S (length rest)). assert (Hl : length (rev rest) = length rest) by apply length_rev.
      assert (Hd : drop (S (length rest)) (rev rest ++ m :: result) = result).
      { rewrite (cons_middle m), app_assoc. apply drop_app_length'. rewrite length_app. cbn. lia. }
      assert (Hd1 : drop (S (length rest) - 1) (rev rest ++ m :: result) = m :: result) by (apply drop_app_length'; lia).
      rewrite Hd, Hd1. split_and!; [lia|done|done|]. intros _. split; [cbn [total_size fold_right] in *; unfold total_size in *; cbn; lia|by destruct result].
    + rewrite Nat.add_comm. change (getMessageSize m + total_size result) with (total_size (m :: result)).
      destruct (IH (m :: result)) as (k & Hk & He & Hs & Hm).
      { destruct result as [|m' result]; [right; cbn; lia|]. left. cbn [length Nat.ltb Nat.leb andb] in E.
        apply Nat.ltb_ge in E. cbn [total_size fold_right] in *. unfold total_size in *. cbn in *. lia. }
      exists k. split_and!; [lia|done|done|]. intros H0. destruct (Hm H0) as [H1 _]. split; [done|]. by destruct result.
Qed.

Lemma size_trimmed ms : exists k, trimMessagesByContentSize ms = drop k ms /\
  (total_size (drop k ms) <= MAX_LOADED_MESSAGES_CHARS \/ length (drop k ms) = 1) /\
  (0 < k -> MAX_LOADED_MESSAGES_CHARS < total_size (drop (k - 1) ms)) /\ (ms <> [] -> drop k ms <> []).
Proof.
  destruct (size_loop_spec (rev ms) []) as (k & Hk & He & Hs & Hm); [left; cbn; lia|].
  rewrite rev_involutive, app_nil_r in *. rewrite length_rev in Hk. exists k.
  assert (Hne : ms <> [] -> drop k ms <> []).
  { intros Hms E. destruct k as [|k]; [by rewrite drop_0 in E|].
    assert (Hlast : rev ms <> []) by (intros Hr; apply (f_equal (@rev _)) in Hr; rewrite rev_involutive in Hr; done).
    unfold trimMessagesByContentSize in He. destruct (rev ms) as [|m l] eqn:Er; [done|]. cbn [size_loop length Nat.ltb Nat.leb andb] in He.
    rewrite E in He. clear -He. change (total_size []) with 0 in He. cbn [Nat.add] in He.
    destruct (size_loop_spec l [m]) as (j & Hj & Hx & _ & _); [right; cbn; lia|].
    unfold total_size in Hx. cbn [fold_right] in Hx. rewrite Nat.add_0_r, He in Hx.
    apply (f_equal length) in Hx. rewrite length_drop, length_app, length_rev in Hx. cbn [length] in Hx. lia. }
  split_and!; [done| |by intros H0; apply Hm|done].
  destruct Hs as [Hs|Hs]; [by left|]. destruct (drop k ms) as [|m [|m' l]] eqn:E; [left; cbn; lia|by right|cbn in Hs; lia].
Qed.

Lemma trimmed_length ms : length (trimMessages ms) <= MAX_STORED_MESSAGES.
Proof.
  unfold trimMessages. destruct (length ms <=? MAX_STORED_MESSAGES) eqn:E; bools; [done|]. rewrite length_drop. lia.
Qed.

Lemma sanitized_length now now' now'' interrupted ms :
  length (sanitizeMessagesOnLoad now now' now'' interrupted ms) = length ms.
Proof.
  unfold sanitizeMessagesOnLoad. destruct (last_index isPendingAssistantMessage ms) as [i|]; [|done].
  destruct (ms !! i); [|done]. by rewrite length_insert.
Qed.

Lemma truncated_length text n : length (truncateText text n) <= n.
Proof.
  unfold truncateText. destruct (length text <=? n) eqn:E; bools; [done|].
  destruct (n <=? length TRUNCATED_CONTENT_SUFFIX) eqn:E2; bools; [rewrite length_take; lia|].
  rewrite length_app, length_take. lia.
Qed.

(** Every text of a shortened message is within the limit. *)
Lemma shortened_bounds m v : v ∈ m_versions (shorten_message m) -> length (mv_content v) <= MAX_LOADED_MESSAGE_CHARS.
Proof.
  assert (Hv : forall w, length (mv_content (normalize_version w).1) <= MAX_LOADED_MESSAGE_CHARS).
  { intros w. unfold normalize_version.
    pose proof (truncated_length (collapseRepeatedSectionSnapshots (mv_content w)) MAX_LOADED_MESSAGE_CHARS) as Ht.
    destruct (str_eqb_reflect (truncateText (collapseRepeatedSectionSnapshots (mv_content w)) MAX_LOADED_MESSAGE_CHARS) (mv_content w)) as [E|E];
      cbn [andb]; [|done].
    destruct (str_eqb _ _); cbn [fst]; [by rewrite <- E|done]. }
  unfold shorten_message. destruct (_ || _) eqn:E.
  - cbn [with_reasoning with_versions m_versions]. rewrite map_map. intros Hin.
    apply (list_elem_of_fmap (fun x => (normalize_version x).1)) in Hin as (w & -> & _). apply Hv.
  - bools. intros Hin. specialize (Hv v). destruct (normalize_version v) as [w b] eqn:En. cbn [fst] in Hv.
    assert (b = false).
    { destruct b; [|done]. apply not_true_iff_false in H. exfalso. apply H. apply existsb_exists.
      exists (w, true). split; [|done]. rewrite <- En. apply in_map. by apply list_elem_of_In. }
    subst b. unfold normalize_version in En. destruct (_ && _); [|done]. by injection En as <-.
Qed.

(** * Settings and messages in their envelopes *)

Section Stored.
Context {L : LocalStorage} {ZD : Zod} {ZL : ZodLaws ZD}.
Hypothesis Hopen : storage_available = true.

Lemma envelope_read data : prints data = true ->
  exists text, JSON_stringify_plain (envelope data) = Some text /\ text <> [] /\ JSON_parse text = Ok (envelope data).
Proof.
  intros H. destruct (stringify_plain_parse (envelope data)) as (text & Ht & Hp).
  { apply prints_printable. unfold envelope. cbn [prints map fst snd forallb]. rewrite H.
    vm_compute. reflexivity. }
  exists text. split_and!; [done| |done]. intros ->. discriminate Hp.
Qed.

(** The quota has room for a value under a key. *)
Definition fits_under (key : jsstr) (data : jsvalue) (st : storage) : Prop :=
  forall text, JSON_stringify_plain (envelope data) = Some text -> storage_fits (mput key text st) = true.

Lemma written_read key data st : prints data = true -> fits_under key data st ->
  readStoredValue key (writeStoredValue key data st) = Some (envelope data) /\
  exists text, writeStoredValue key data st = mput key text st /\ text <> [] /\ JSON_parse text = Ok (envelope data).
Proof.
  intros Hp Hf. destruct (envelope_read data Hp) as (text & Ht & Hne & Hj).
  assert (Ew : writeStoredValue key data st = mput key text st).
  { unfold writeStoredValue, setItem. by rewrite Ht, Hopen, (Hf text Ht). }
  split; [|by exists text]. rewrite Ew. unfold readStoredValue, getItem. rewrite Hopen, mget_mput, bool_decide_true by done.
  destruct text; [done|]. by rewrite Hj.
Qed.

Lemma unwrap_envelope data : unwrapStoredValue (envelope data) = data.
Proof. done. Qed.

Lemma settings_stored s key c st : well_formed_schema s = true -> conforms s (JObj c) = true -> prints (JObj c) = true ->
  fits_under key (JObj c) st -> load_settings s key (save_settings s key c st) = c.
Proof.
  intros Hw Hc Hp Hf. unfold load_settings, save_settings. rewrite (zod_keeps s (JObj c)) by done.
  destruct (written_read key (JObj c) st Hp Hf) as [E _]. rewrite E. cbn [value_truthy envelope negb].
  rewrite unwrap_envelope, (zod_keeps s (JObj c)) by done. done.
Qed.

Lemma spread_same c d : map fst d = map fst c -> NoDup (map fst d) -> spread d c = c.
Proof. intros Hk Hd. apply (assign_over [] c d Hk Hd). Qed.

(** C. The settings of the playground survive a reload: what was saved with all its keys is
    what the next page starts with, for the parameters as well as for their switches. *)
Theorem settings_reload c p st :
  map fst c = map fst DEFAULT_CONFIG -> conforms playgroundConfigSchema (JObj c) = true -> prints (JObj c) = true ->
  map fst p = map fst DEFAULT_PARAMETER_ENABLED -> conforms parameterEnabledSchema (JObj p) = true -> prints (JObj p) = true ->
  (forall st, storage_fits st = true) ->
  let st' := saveParameterEnabled p (saveConfig c st) in
  getInitialPlaygroundConfig st' = c /\ getInitialParameterEnabled st' = p.
Proof.
  intros Kc Cc Pc Kp Cp Pp Hf st'. split.
  - unfold getInitialPlaygroundConfig. replace (loadConfig st') with (loadConfig (saveConfig c st)).
    + unfold loadConfig, saveConfig. rewrite settings_stored; [|done|done|done|by intros ? ?]. apply spread_same; [done|].
      apply (bool_decide_unpack _). vm_compute. exact I.
    + unfold loadConfig, load_settings, st', saveParameterEnabled. unfold save_settings at 1.
      rewrite (zod_keeps parameterEnabledSchema (JObj p)) by done.
      destruct (written_read PARAMETER_ENABLED_KEY (JObj p) (saveConfig c st) Pp ltac:(by intros ? ?)) as (_ & text & -> & _).
      unfold readStoredValue, getItem. rewrite Hopen, mget_mput. by rewrite bool_decide_false.
  - unfold getInitialParameterEnabled, st', loadParameterEnabled, saveParameterEnabled.
    rewrite settings_stored; [|done|done|done|by intros ? ?]. apply spread_same; [done|].
    apply (bool_decide_unpack _). vm_compute. exact I.
Qed.

(** Messages that an older version stored in its envelope are not migrated: the page opens
    with one empty conversation although the messages are still there and their own
    reader reads them. *)
Theorem enveloped_messages_not_migrated ms st id now :
  prints (messages_object ms) = true -> conforms messagesSchema (messages_object ms) = true ->
  fits_under MESSAGES_KEY (messages_object ms) st -> read_text CONVERSATIONS_KEY st = None ->
  let st' := writeStoredValue MESSAGES_KEY (messages_object ms) st in
  loadConversations id now st' = ([createConversation id now []], st') /\
  exists saved, readStoredValue MESSAGES_KEY st' = Some saved /\
    zod_parse messagesSchema (unwrapStoredValue saved) ≫= as_list read_message = Some ms.
Proof.
  intros Hp Hc Hf Hn st'. destruct (written_read MESSAGES_KEY _ st Hp Hf) as (Hr & text & Ew & Hne & Hj). split.
  - assert (Ec : read_text CONVERSATIONS_KEY st' = None).
    { unfold st'. rewrite Ew, (read_text_put Hopen). by rewrite bool_decide_false. }
    assert (Em : read_text MESSAGES_KEY st' = Some text).
    { unfold st'. rewrite Ew, (read_text_put Hopen), bool_decide_true by done. by destruct text. }
    unfold loadConversations, migrateLegacyMessages. rewrite Ec, Em, Hj.
    destruct (zod_parse messagesSchema (envelope (messages_object ms))) as [w|] eqn:E.
    { apply zod_array_only in E as [l E]. discriminate E. }
    cbn [mbind option_bind]. unfold stored_conversations. by rewrite Ec.
  - exists (envelope (messages_object ms)). split; [done|].
    rewrite unwrap_envelope, (zod_keeps messagesSchema) by done. cbn [mbind option_bind]. apply read_messages_object.
Qed.

(** C. Loaded messages are within their limits: at most a hundred, each text at most forty
    thousand characters before think tags are taken out of it, and together at most a
    hundred and twenty thousand unless a single message is longer; the messages kept
    are the last ones, as many as the limits allow. *)
Theorem loaded_messages_bounded times now now' now'' interrupted parsed :
  length (prepare_messages times now now' now'' interrupted parsed) <= MAX_STORED_MESSAGES /\
  (forall m v, m ∈ parsed -> v ∈ m_versions (shorten_message m) -> length (mv_content v) <= MAX_LOADED_MESSAGE_CHARS) /\
  let trimmed := trimMessages (imap (fun i m => normalizeStoredMessageForLoad (times i) m) parsed) in
  exists k, prepare_messages times now now' now'' interrupted parsed
              = sanitizeMessagesOnLoad now now' now'' interrupted (drop k trimmed) /\
    (total_size (drop k trimmed) <= MAX_LOADED_MESSAGES_CHARS \/ length (drop k trimmed) = 1) /\
    (0 < k -> MAX_LOADED_MESSAGES_CHARS < total_size (drop (k - 1) trimmed)) /\ (trimmed <> [] -> drop k trimmed <> []).
Proof.
  unfold prepare_messages. set (trimmed := trimMessages _). cbv zeta.
  destruct (size_trimmed trimmed) as (k & E & H1 & H2 & H3). split_and!.
  - rewrite sanitized_length, E, length_drop. pose proof (trimmed_length (imap (fun i m => normalizeStoredMessageForLoad (times i) m) parsed)) as H.
    fold trimmed in H. lia.
  - intros m v _. apply shortened_bounds.
  - exists k. by rewrite E.
Qed.

End Stored.

(** * Concrete runs *)

Definition sample_config : settings := assign (js "temperature") (JNum (num_of_Z 2)) DEFAULT_CONFIG.

Lemma settings_reload_witness :
  let st' := saveParameterEnabled (L := roomy_browser) (ZD := reference_zod) DEFAULT_PARAMETER_ENABLED
               (saveConfig (L := roomy_browser) (ZD := reference_zod) sample_config []) in
  getInitialPlaygroundConfig (L := roomy_browser) (ZD := reference_zod) st' = sample_config /\
  getInitialParameterEnabled (L := roomy_browser) (ZD := reference_zod) st' = DEFAULT_PARAMETER_ENABLED.
Proof.
  apply (settings_reload (L := roomy_browser) (ZL := reference_laws) eq_refl); try (vm_compute; reflexivity).
Defined.

Lemma enveloped_messages_not_migrated_witness :
  let st' := writeStoredValue (L := roomy_browser) MESSAGES_KEY (messages_object [sample_message]) [] in
  loadConversations (L := roomy_browser) (ZD := reference_zod) (js "c") (num_of_Z 3000) st'
    = ([createConversation (js "c") (num_of_Z 3000) []], st') /\
  exists saved, readStoredValue (L := roomy_browser) MESSAGES_KEY st' = Some saved /\
    @zod_parse reference_zod messagesSchema (unwrapStoredValue saved) ≫= as_list read_message = Some [sample_message].
Proof.
  apply (enveloped_messages_not_migrated (L := roomy_browser) (ZL := reference_laws) eq_refl);
    [vm_compute; reflexivity|vm_compute; reflexivity|by intros ? ?|vm_compute; reflexivity].
Defined.
