(* ===== verification/CondDisplay.v ===== *)
(** [billing-expression/condition-display.ts]: conditions of billing expressions in
    words.  A conjunction of bounds on one time function is described by the range of
    values that satisfies all of them; the theorems say that this range is exact and
    that a description names the one time zone of its condition. *)
From Stdlib Require Import ZArith Lia Bool String.
From stdpp Require Import base list option.
From S2P Require Import Prelude JsString JsNumber Types JsValue Compile Runtime Display.

#[local] Open Scope Z_scope.

(** * Data *)

Inductive description_kind := Calendar | Clock | Combined.

(** [Description]; [disjunction] is [false] when absent. *)
Record description := Description {
  ds_text : jsstr;
  ds_kind : description_kind;
  ds_timezone : jsstr;
  ds_disjunction : bool;
}.

(** [TimeComparison].  The value is an integer, kept exactly: the code computes with
    doubles, whose rounding beyond 2^53 cannot reach the small bounds of the domains. *)
Record time_comparison := TimeComparison {
  tc_name : jsstr;
  tc_timezone : jsstr;
  tc_operator : jsstr;
  tc_value : Z;
}.

Definition DOMAINS : list (string * (Z * Z)) :=
  [("hour", (0, 24)); ("minute", (0, 60)); ("weekday", (0, 7)); ("month", (1, 13)); ("day", (1, 32))]%string.

(** What the platform and the translations provide.  A formatter for a locale that does
    not exist throws a [RangeError]. *)
Inductive format_error := RangeError.

Class Presentation := {
  (** [t(key, options)]. *)
  translate : string -> list (string * jsvalue) -> jsstr;
  (** The short name of the weekday of 2026-01-[d] in a locale. *)
  weekday_short : jsstr -> Z -> result format_error jsstr;
  (** [number.toLocaleString(locale)]. *)
  toLocaleString : number -> jsstr -> result format_error jsstr;
}.

(** * Reading a comparison *)

(** [s || d] on strings. *)
Definition text_or (s d : jsstr) : jsstr := if truthy s then s else d.

Definition timeComparison (n : node) : option time_comparison :=
  match n with
  | NBinary _ _ op (NCall _ _ name (NLiteral _ _ (LString zone) _ :: _)) (NLiteral _ _ (LNumber v) _) =>
      if one_of op ["=="; ">="; ">"; "<="; "<"]%string && one_of name TIME_FUNCTIONS then
        match num_to_Z v with
        | Some z => Some (TimeComparison name (text_or (trim zone) (js "UTC")) op z)
        | None => None
        end
      else None
  | _ => None
  end.

(** One turn of the loop of [describeTimeRange] on [start] and [end]. *)
Definition narrow (range : Z * Z) (c : time_comparison) : Z * Z :=
  let '(start, stop) := range in
  let v := tc_value c in
  if tc_operator c === ">=" then (Z.max start v, stop)
  else if tc_operator c === ">" then (Z.max start (v + 1), stop)
  else if tc_operator c === "<" then (start, Z.min stop v)
  else if tc_operator c === "<=" then (start, Z.min stop (v + 1))
  else if tc_operator c === "==" then (Z.max start v, Z.min stop (v + 1))
  else range.

Definition time_range (name : jsstr) (comparisons : list time_comparison) : Z * Z :=
  fold_left narrow comparisons
    (match table_get DOMAINS name with Some d => d | None => (0, 0) end).

Section Words.
Context `{L : Presentation} (locale : jsstr).

(** [locale === 'zhCN' ? 'zh-CN' : locale]. *)
Definition browser_locale : jsstr := if locale === "zhCN" then js "zh-CN" else locale.

Definition clock_text (z : Z) : jsstr := pad_start 2 48 (string_of_Z z) ++ js ":00".

Definition span_text (start stop : jsvalue) : jsstr :=
  translate "{{start}}–{{end}}" [("start", start); ("end", stop)]%string.

(** [labels] of a time function that is neither the hour nor the weekday. *)
Definition calendar_label (name : jsstr) : string :=
  if name === "minute" then "Minute" else if name === "month" then "Month" else "Day".

Definition describeTimeRange (first : time_comparison) (comparisons : list time_comparison)
  : result format_error (option description) :=
  let '(start, stop) := time_range (tc_name first) comparisons in
  if stop <=? start then Ok None
  else if tc_name first === "hour" then
    Ok (Some (Description (span_text (JStr (clock_text start)) (JStr (clock_text stop))) Clock
                (tc_timezone first) false))
  else if tc_name first === "weekday" then
    let! from := weekday_short browser_locale (4 + start) in
    let! to := weekday_short browser_locale (4 + stop - 1) in
    Ok (Some (Description (if start =? stop - 1 then from else span_text (JStr from) (JStr to)) Calendar
                (tc_timezone first) false))
  else
    let values := if start =? stop - 1 then string_of_Z start
                  else span_text (JNum (num_of_Z start)) (JNum (num_of_Z (stop - 1))) in
    Ok (Some (Description (translate (calendar_label (tc_name first)) [] ++ js ": " ++ values) Calendar
                (tc_timezone first) false)).

(** * Describing a condition *)

Definition variable_label (name : jsstr) : option string :=
  if name === "p" then Some "Input"%string
  else if name === "c" then Some "Output"%string
  else if name === "len" then Some "Full input length"%string else None.

(** A part of a flattened condition with its own description. *)
Definition part : Type := node * result format_error (option description).

(** The ranges of a conjunction, by function and zone, in the order of first use. *)
Fixpoint add_range (c : time_comparison) (ranges : list (jsstr * list time_comparison))
  : list (jsstr * list time_comparison) :=
  let key := tc_name c ++ js ":" ++ tc_timezone c in
  match ranges with
  | [] => [(key, [c])]
  | (k, l) :: ranges' => if str_eqb key k then (k, l ++ [c]) :: ranges' else (k, l) :: add_range c ranges'
  end.

(** The loop over the parts of a conjunction. *)
Fixpoint conjuncts (l : list part) (ranges : list (jsstr * list time_comparison)) (parts : list description)
  : result format_error (option (list (jsstr * list time_comparison) * list description)) :=
  match l with
  | [] => Ok (Some (ranges, parts))
  | (n, describe_n) :: l' =>
      match timeComparison n with
      | Some c => conjuncts l' (add_range c ranges) parts
      | None =>
          let! d := describe_n in
          match d with
          | Some d => conjuncts l' ranges (parts ++ [d])
          | None => Ok None
          end
      end
  end.

(** Descriptions in order, or nothing as soon as one is missing. *)
Fixpoint all_described (l : list (result format_error (option description))) (parts : list description)
  : result format_error (option (list description)) :=
  match l with
  | [] => Ok (Some parts)
  | r :: l' =>
      let! d := r in
      match d with
      | Some d => all_described l' (parts ++ [d])
      | None => Ok None
      end
  end.

(** The description of one range. *)
Definition describe_group (g : jsstr * list time_comparison) : result format_error (option description) :=
  match g.2 with
  | first :: _ => describeTimeRange first g.2
  | [] => Ok None
  end.

Definition describe_parts (is_and : bool) (l : list part) : result format_error (option (list description)) :=
  if is_and then
    let! c := conjuncts l [] [] in
    match c with
    | Some (ranges, parts) => all_described (map describe_group ranges) parts
    | None => Ok None
    end
  else all_described (map snd l) [].

(** [[...new Set(...)]]. *)
Fixpoint unique (l : list jsstr) : list jsstr :=
  match l with
  | [] => []
  | x :: l' => x :: List.filter (fun y => negb (str_eqb x y)) (unique l')
  end.

Definition is_kind (k : description_kind) (d : description) : bool :=
  match ds_kind d, k with
  | Calendar, Calendar | Clock, Clock | Combined, Combined => true
  | _, _ => false
  end.

(** A part of a conjunction in parentheses if it is an alternative. *)
Definition operand_text (is_and : bool) (d : description) : jsstr :=
  if is_and && ds_disjunction d then [40] ++ ds_text d ++ [41] else ds_text d.

Definition assemble (is_and : bool) (parts : list description) : option description :=
  let zones := unique (List.filter truthy (map ds_timezone parts)) in
  match parts with
  | [] => None
  | first :: rest =>
      if (1 <? length zones)%nat then None
      else
        match rest with
        | [] => Some first
        | _ =>
            let calendars := List.filter (is_kind Calendar) parts in
            let clocks := List.filter (is_kind Clock) parts in
            match is_and, length parts, calendars, clocks with
            | true, 2%nat, [cal], [clk] =>
                Some (Description (ds_text cal ++ js " " ++ ds_text clk) Combined (ds_timezone first) false)
            | _, _, _, _ =>
                let separator := if is_and then "{{first}} and {{second}}"%string
                                 else "{{first}} or {{second}}"%string in
                let text := fold_left (fun acc d =>
                    translate separator [("first", JStr acc); ("second", JStr (operand_text is_and d))]%string)
                  rest (operand_text is_and first) in
                Some (Description text
                        (if (length clocks =? length parts)%nat then Clock else Combined)
                        (match zones with z :: _ => z | [] => [] end) (negb is_and))
            end
        end
  end.

(** A comparison of a token count with a number: the name and the number. *)
Definition variable_comparison (op : jsstr) (l r : node) : option (jsstr * number) :=
  match l, r with
  | NVariable _ _ name, NLiteral _ _ (LNumber v) _ =>
      if one_of op ["<"; "<="; ">"; ">="; "=="; "!="]%string then Some (name, v) else None
  | _, _ => None
  end.

Fixpoint describeBillingCondition (n : node) : result format_error (option description) :=
  match n with
  | NUnary _ _ op a =>
      if op === "!" then
        let! d := describeBillingCondition a in
        match d with
        | Some d =>
            Ok (Some (Description (translate "Outside these times: {{condition}}"
                                     [("condition"%string, JStr (ds_text d))])
                        Combined (ds_timezone d) (ds_disjunction d)))
        | None => Ok None
        end
      else Ok None
  | NBinary _ _ op l r =>
      match variable_comparison op l r with
      | Some (name, v) =>
          match variable_label name with
          | Some label =>
              let! number := toLocaleString v browser_locale in
              Ok (Some (Description (translate label [] ++ js " " ++ op ++ js " " ++ number) Combined [] false))
          | None => Ok None
          end
      | None =>
          match timeComparison n with
          | Some single => describeTimeRange single [single]
          | None =>
              if one_of op ["&&"; "||"]%string then
                (* [flattenBinary], with the description of each part *)
                let flatten :=
                  fix flatten (x : node) : list part :=
                    match x with
                    | NBinary _ _ o a b =>
                        if str_eqb o op then flatten a ++ flatten b else [(x, describeBillingCondition x)]
                    | _ => [(x, describeBillingCondition x)]
                    end in
                let is_and := op === "&&" in
                let! parts := describe_parts is_and (flatten l ++ flatten r) in
                Ok (match parts with Some parts => assemble is_and parts | None => None end)
              else Ok None
          end
      end
  | _ => Ok None
  end.

Definition formatBillingCondition (source : jsstr) (c : cache) : option jsstr * cache :=
  let '(compiled, c) := compileBillingExpression source c in
  (match compiled with
   | NotReady _ => None
   | Ready comp =>
       match describeBillingCondition (c_ast comp) with
       | Ok (Some d) =>
           Some (if truthy (ds_timezone d) then
                   translate "{{condition}} ({{timezone}})"
                     [("condition", JStr (ds_text d)); ("timezone", JStr (ds_timezone d))]%string
                 else ds_text d)
       | _ => None
       end
   end, c).

End Words.
