(* ===== verification/CondFacts.v ===== *)
(** Theorems on the descriptions of billing conditions. *)
From Stdlib Require Import ZArith Lia Bool String SpecFloat.
From stdpp Require Import base list option.
From S2P Require Import Prelude JsString JsNumber Types JsValue Compile Runtime Display CondDisplay.

#[local] Open Scope Z_scope.

(** Evaluate the comparisons of fixed strings in the goal. *)
Ltac js_eqs :=
  repeat match goal with
  | |- context [str_eqb (js ?a) (js ?b)] =>
      let v := eval vm_compute in (str_eqb (js a) (js b)) in change (str_eqb (js a) (js b)) with v
  end; cbv iota.

(** * The range of a conjunction of bounds *)

(** What the runtime makes of a comparison when the time function gives [h]. *)
Definition part_holds (n : node) (h : Z) : bool :=
  match n with
  | NBinary s _ op _ (NLiteral _ _ (LNumber v) i) =>
      match binary_values s op (RValue (JNum (num_of_Z h)) true) (RValue (JNum v) i) with
      | Ok r => match rv r with JBool b => b | _ => false end
      | Err _ => false
      end
  | _ => false
  end.

(** The literals of a tree are JavaScript numbers. *)
Definition literal_valid (n : node) : bool :=
  match n with
  | NBinary _ _ _ _ (NLiteral _ _ (LNumber v) _) => num_valid v
  | _ => true
  end.

(** What a comparison asks of a value. *)
Definition satisfies (c : time_comparison) (h : Z) : bool :=
  if tc_operator c === ">=" then tc_value c <=? h
  else if tc_operator c === ">" then tc_value c <? h
  else if tc_operator c === "<" then h <? tc_value c
  else if tc_operator c === "<=" then h <=? tc_value c
  else h =? tc_value c.

Definition known_operator (c : time_comparison) : Prop :=
  one_of (tc_operator c) ["=="; ">="; ">"; "<="; "<"]%string = true.

Lemma small_numbers h : 0 <= h <= 60 -> num_valid (num_of_Z h) = true /\ num_to_Z (num_of_Z h) = Some h.
Proof.
  intros H.
  assert (Hall : forallb (fun k => num_valid (num_of_Z (Z.of_nat k)) &&
            match num_to_Z (num_of_Z (Z.of_nat k)) with Some z => z =? Z.of_nat k | None => false end)
            (seq 0 61) = true) by (vm_compute; reflexivity).
  rewrite forallb_forall in Hall. specialize (Hall (Z.to_nat h)).
  assert (Hin : In (Z.to_nat h) (seq 0 61)) by (apply in_seq; lia). apply Hall in Hin. clear Hall.
  rewrite Z2Nat.id in Hin by lia. apply andb_true_iff in Hin as [Hv Hz]. split; [done|].
  destruct (num_to_Z (num_of_Z h)) as [z|]; [|done]. bools. by subst.
Qed.

(** The runtime's comparison is the comparison of integers. *)
Lemma part_holds_satisfies n c h : timeComparison n = Some c -> literal_valid n = true -> 0 <= h <= 60 ->
  part_holds n h = satisfies c h.
Proof.
  intros Hc Hv Hh. destruct (small_numbers h Hh) as [Vh Eh].
  destruct n as [| | | | |s e op l r|]; try done. destruct l as [| | |? ? name args| | |]; try done.
  destruct args as [|[? ? [zone| | |] ?| | | | | |] args]; try done.
  destruct r as [? ? [|v| |] i| | | | | |]; try done. cbn [timeComparison literal_valid] in *.
  destruct (one_of op _) eqn:Eop; [|done]. cbn [andb] in Hc. destruct (one_of name _); [|done].
  destruct (num_to_Z v) as [z|] eqn:Ez; [|done]. injection Hc as <-.
  pose proof (num_compare_Z _ _ _ _ Vh Hv Eh Ez ltac:(lia)) as Ecmp.
  pose proof (num_compare_antisym (num_of_Z h) v) as Eanti. rewrite Ecmp in Eanti.
  assert (Hle : num_leb (num_of_Z h) v = (h <=? z) /\ num_ltb (num_of_Z h) v = (h <? z) /\
                num_eqb (num_of_Z h) v = (h =? z)).
  { unfold num_leb, num_ltb, num_eqb, SFleb, SFltb, SFeqb. rewrite Ecmp.
    unfold Z.leb, Z.ltb. rewrite Z.eqb_compare. by destruct (h ?= z). }
  assert (Hge : num_leb v (num_of_Z h) = (z <=? h) /\ num_ltb v (num_of_Z h) = (z <? h)).
  { unfold num_leb, num_ltb, SFleb, SFltb. rewrite Eanti, Z.compare_antisym.
    unfold Z.leb, Z.ltb. rewrite (Z.compare_antisym h z). by destruct (h ?= z). }
  destruct Hle as (H1 & H2 & H3), Hge as (H4 & H5).
  apply one_of_In in Eop as (t & Ht & ->). unfold satisfies. cbn [tc_operator tc_value part_holds].
  destruct Ht as [<-|[<-|[<-|[<-|[<-|[]]]]]].
  - js_eqs. rewrite <- H3. done.
  - js_eqs. rewrite <- H4. done.
  - js_eqs. rewrite <- H5. done.
  - js_eqs. rewrite <- H1. done.
  - js_eqs. rewrite <- H2. done.
Qed.

(** One bound narrows the range by exactly what it asks. *)
Lemma narrow_spec range c h : known_operator c ->
  (narrow range c).1 <= h < (narrow range c).2 <-> range.1 <= h < range.2 /\ satisfies c h = true.
Proof.
  destruct range as [a b]. intros Hk. apply one_of_In in Hk as (t & Ht & E).
  unfold narrow, satisfies. rewrite E. cbn [fst snd].
  destruct Ht as [<-|[<-|[<-|[<-|[<-|[]]]]]]; js_eqs; cbn [fst snd];
    rewrite ?Z.leb_le, ?Z.ltb_lt, ?Z.eqb_eq; lia.
Qed.

Lemma fold_narrow_spec cs : Forall known_operator cs -> forall range h,
  (fold_left narrow cs range).1 <= h < (fold_left narrow cs range).2 <->
  range.1 <= h < range.2 /\ Forall (fun c => satisfies c h = true) cs.
Proof.
  induction 1 as [|c cs Hc _ IH]; intros range h; cbn [fold_left].
  - split; [intros H; split; [done|constructor]|by intros [H _]].
  - rewrite IH, narrow_spec by done. rewrite list.Forall_cons. tauto.
Qed.

Lemma narrow_inside range c : range.1 <= (narrow range c).1 /\ (narrow range c).2 <= range.2.
Proof. destruct range as [a b]. unfold narrow. repeat case_goal; simpl; lia. Qed.

Lemma fold_narrow_inside cs : forall range,
  range.1 <= (fold_left narrow cs range).1 /\ (fold_left narrow cs range).2 <= range.2.
Proof.
  induction cs as [|c cs IH]; intros range; cbn [fold_left]; [lia|].
  pose proof (narrow_inside range c). specialize (IH (narrow range c)). lia.
Qed.

Lemma timeComparison_known n c : timeComparison n = Some c ->
  known_operator c /\ one_of (tc_name c) TIME_FUNCTIONS = true /\ tc_timezone c <> [].
Proof.
  intros Hc. destruct n as [| | | | |s e op l r|]; try done. destruct l as [| | |? ? name args| | |]; try done.
  destruct args as [|[? ? [zone| | |] ?| | | | | |] args]; try done.
  destruct r as [? ? [|v| |] i| | | | | |]; try done. cbn [timeComparison] in Hc.
  destruct (one_of op _) eqn:Eop; [|done]. cbn [andb] in Hc. destruct (one_of name _) eqn:En; [|done].
  destruct (num_to_Z v); [|done]. injection Hc as <-. split; [done|]. split; [done|]. cbn [tc_timezone].
  unfold text_or. by destruct (trim zone).
Qed.

Lemma domains_small name lo hi : table_get DOMAINS name = Some (lo, hi) -> 0 <= lo /\ hi <= 61.
Proof.
  unfold DOMAINS, table_get. simpl. repeat case_goal; intros H; injection H as <- <- || discriminate H; lia.
Qed.

(** A range is described unless no value satisfies it. *)
Lemma describeTimeRange_None `{L : Presentation} locale first cs :
  describeTimeRange locale first cs = Ok None <->
  (time_range (tc_name first) cs).2 <= (time_range (tc_name first) cs).1.
Proof.
  unfold describeTimeRange. destruct (time_range (tc_name first) cs) as [a b]. cbn [fst snd].
  destruct (b <=? a) eqn:E; bools; [done|]. split; [|lia]. repeat case_goal; done.
Qed.

(** The range in the description of a conjunction of bounds is exact: of the values
    that the time function can take, those in the range are the ones for which the
    runtime finds every bound true, and no description is given exactly when there
    is no such value. *)
Theorem described_range_exact `{L : Presentation} locale first parts cs lo hi :
  map timeComparison parts = map Some (first :: cs) -> Forall (fun n => literal_valid n = true) parts ->
  table_get DOMAINS (tc_name first) = Some (lo, hi) ->
  let '(start, stop) := time_range (tc_name first) (first :: cs) in
  lo <= start /\ stop <= hi /\
  (forall h, lo <= h < hi ->
     (Forall (fun n => part_holds n h = true) parts <-> start <= h < stop)) /\
  (describeTimeRange locale first (first :: cs) = Ok None <->
   forall h, lo <= h < hi -> ~ Forall (fun n => part_holds n h = true) parts).
Proof.
  intros Hparts Hvalid Hdom. pose proof (domains_small _ _ _ Hdom) as [Hlo Hhi].
  assert (Hk : Forall known_operator (first :: cs) /\
    forall h, lo <= h < hi ->
      (Forall (fun n => part_holds n h = true) parts <-> Forall (fun c => satisfies c h = true) (first :: cs))).
  { clear Hdom. revert Hparts Hvalid. generalize (first :: cs). intros l. revert l.
    induction parts as [|n parts IH]; intros [|c l] E Hv; try done.
    injection E as Ec E. apply list.Forall_cons in Hv as [Hn Hv]. destruct (IH l E Hv) as [IH1 IH2].
    split; [constructor; [by apply (timeComparison_known n)|done]|]. intros h Hh.
    rewrite !list.Forall_cons, (IH2 h Hh), (part_holds_satisfies n c h) by (done || lia). done. }
  destruct Hk as [Hk Hh]. pose proof (fold_narrow_spec _ Hk (lo, hi)) as Hspec.
  pose proof (fold_narrow_inside (first :: cs) (lo, hi)) as Hin.
  pose proof (describeTimeRange_None locale first (first :: cs)) as HNone.
  unfold time_range in *. rewrite Hdom in *.
  destruct (fold_left narrow (first :: cs) (lo, hi)) as [start stop]. cbn [fst snd] in *.
  assert (Hexact : forall h, lo <= h < hi ->
            (Forall (fun n => part_holds n h = true) parts <-> start <= h < stop)).
  { intros h Hd. rewrite (Hh h Hd), Hspec. tauto. }
  split; [lia|]. split; [lia|]. split; [done|]. rewrite HNone. split.
  - intros Hle h Hd Hall. apply Hexact in Hall; [lia|done].
  - intros Hno. destruct (Z_le_gt_dec stop start) as [|Hgt]; [done|]. exfalso.
    apply (Hno start); [lia|]. apply Hexact; lia.
Qed.

(** * The zone of a description *)

(** A call of a time function is on the zone [z]. *)
Definition zoned (z : jsstr) (m : node) : Prop :=
  match m with
  | NCall _ _ name args =>
      one_of name TIME_FUNCTIONS = true ->
      match args with
      | NLiteral _ _ (LString zone) _ :: _ => text_or (trim zone) (js "UTC") = z
      | _ => False
      end
  | _ => True
  end.
Definition zones_ok (z : jsstr) (n : node) : Prop := Forall (zoned z) (subnodes n).

(** Time functions have one argument, as the parser makes sure. *)
Definition one_argument (m : node) : Prop :=
  match m with
  | NCall _ _ name args => one_of name TIME_FUNCTIONS = true -> length args = 1%nat
  | _ => True
  end.

(** Nothing in a condition without a zone is a time function. *)
Lemma zones_ok_empty z n : zones_ok [] n -> zones_ok z n.
Proof.
  apply Forall_impl. intros m H. destruct m as [| | |? ? name args| | |]; try done. simpl in *.
  intros Ht. specialize (H Ht). destruct args as [|[? ? [zone| | |] ?| | | | | |] args]; try done.
  unfold text_or in H. destruct (truthy (trim zone)) eqn:E; [by rewrite H in E|done].
Qed.

Lemma zones_ok_children z n : zoned z n -> Forall (zones_ok z) (children n) -> zones_ok z n.
Proof.
  intros Hn Hc. unfold zones_ok. rewrite subnodes_unfold. constructor; [done|].
  induction Hc as [|c l Hc _ IH]; cbn [map concat]; [constructor|]. by apply Forall_app.
Qed.

Lemma comparison_zone n c : timeComparison n = Some c -> Forall one_argument (subnodes n) ->
  zones_ok (tc_timezone c) n.
Proof.
  intros Hc Ha. destruct n as [| | | | |s e op l r|]; try done.
  destruct l as [| | |s1 e1 name args| | |]; try done.
  destruct args as [|[s2 e2 [zone| | |] i2| | | | | |] args]; try done.
  destruct r as [s3 e3 [|v| |] i| | | | | |]; try done. cbn [timeComparison] in Hc.
  destruct (one_of op _); [|done]. cbn [andb] in Hc. destruct (one_of name _) eqn:En; [|done].
  destruct (num_to_Z v); [|done]. injection Hc as <-. cbn [tc_timezone].
  assert (args = []) as ->.
  { rewrite subnodes_unfold in Ha. apply list.Forall_cons in Ha as [_ Ha]. cbn [children map concat] in Ha.
    rewrite subnodes_unfold in Ha. apply list.Forall_cons in Ha as [Ha _]. simpl in Ha.
    specialize (Ha En). destruct args; [done|simpl in Ha; lia]. }
  unfold zones_ok. do 4 (rewrite subnodes_unfold; cbn [children map concat app]).
  repeat (constructor; [done|]). constructor.
Qed.

Section Zones.
Context `{L : Presentation} (locale : jsstr).

Abbreviation describe := (describeBillingCondition locale).

Lemma range_zone first cs d : describeTimeRange locale first cs = Ok (Some d) ->
  ds_timezone d = tc_timezone first.
Proof.
  unfold describeTimeRange. destruct (time_range _ _) as [a b]. intros H. res_inv H; done.
Qed.

(** Only a description with a zone is of a clock or a calendar. *)
Definition kind_ok (d : description) : Prop := ds_kind d = Combined \/ ds_timezone d <> [].

(** ** The description of a binary node, on its flattened parts *)

Lemma describe_binary s e op l r :
  describe (NBinary s e op l r) =
  match variable_comparison op l r with
  | Some (name, v) =>
      match variable_label name with
      | Some label =>
          let! number := toLocaleString v (browser_locale locale) in
          Ok (Some (Description (translate label [] ++ js " " ++ op ++ js " " ++ number) Combined [] false))
      | None => Ok None
      end
  | None =>
      match timeComparison (NBinary s e op l r) with
      | Some single => describeTimeRange locale single [single]
      | None =>
          if one_of op ["&&"; "||"]%string then
            let! parts := describe_parts locale (op === "&&")
                            (map (fun x => (x, describe x)) (flattenBinary l op ++ flattenBinary r op)) in
            Ok (match parts with Some parts => assemble (op === "&&") parts | None => None end)
          else Ok None
      end
  end.
Proof.
  cbn [describeBillingCondition]. destruct (variable_comparison op l r) as [[? ?]|]; [done|].
  destruct (timeComparison _); [done|]. destruct (one_of op _); [|done].
  set (flatten := fix flatten (x : node) : list part := _).
  assert (E : forall x, flatten x = map (fun x => (x, describe x)) (flattenBinary x op)).
  { induction x as [| | | | |? ? o a IHa b IHb|]; try done. cbn [flatten flattenBinary].
    change (flatten (NBinary start stop o a b)) with
      (if str_eqb o op then flatten a ++ flatten b
       else [(NBinary start stop o a b, describe (NBinary start stop o a b))]).
    destruct (str_eqb o op); [|done]. by rewrite map_app, IHa, IHb. }
  by rewrite !E, map_app.
Qed.

Lemma flatten_zones z x op : Forall (zones_ok z) (flattenBinary x op) -> zones_ok z x.
Proof.
  induction x as [| | | | |s e o a IHa b IHb|]; simpl; try (intros H; by apply list.Forall_cons in H as [H _]).
  destruct (str_eqb o op); [|intros H; by apply list.Forall_cons in H as [H _]].
  intros H. apply Forall_app in H as [Ha Hb]. apply zones_ok_children; [done|].
  constructor; [by apply IHa|]. constructor; [by apply IHb|constructor].
Qed.

(** ** Parts and ranges *)

Definition range_key (c : time_comparison) : jsstr := tc_name c ++ js ":" ++ tc_timezone c.

Lemma range_key_zone c1 c2 : one_of (tc_name c1) TIME_FUNCTIONS = true ->
  one_of (tc_name c2) TIME_FUNCTIONS = true -> range_key c1 = range_key c2 ->
  tc_timezone c1 = tc_timezone c2.
Proof.
  unfold range_key. intros H1 H2 E. apply one_of_In in H1 as (t1 & H1 & E1), H2 as (t2 & H2 & E2).
  rewrite E1, E2 in E.
  destruct H1 as [<-|[<-|[<-|[<-|[<-|[]]]]]]; destruct H2 as [<-|[<-|[<-|[<-|[<-|[]]]]]];
    solve [by apply app_inv_head, app_inv_head in E | discriminate E].
Qed.

Definition ranges_ok (rs : list (jsstr * list time_comparison)) : Prop :=
  Forall (fun g => g.2 <> [] /\
    Forall (fun c => range_key c = g.1 /\ one_of (tc_name c) TIME_FUNCTIONS = true /\
                     tc_timezone c <> []) g.2) rs.

(** [c] belongs to one of the ranges. *)
Definition in_ranges (c : time_comparison) (rs : list (jsstr * list time_comparison)) : Prop :=
  Exists (fun g => c ∈ g.2) rs.

Lemma add_range_ok c rs : ranges_ok rs -> one_of (tc_name c) TIME_FUNCTIONS = true ->
  tc_timezone c <> [] -> ranges_ok (add_range c rs).
Proof.
  intros H Hc Hz. induction H as [|[k l] rs [Hne Hl] Hrs IH]; cbn [add_range].
  - constructor; [|constructor]. split; [done|]. constructor; [done|constructor].
  - destruct (str_eqb _ k) eqn:E; [|by constructor]. apply str_eqb_eq in E. constructor; [|done].
    cbn [fst snd] in *. split; [by destruct l|]. apply Forall_app. split; [done|].
    constructor; [done|constructor].
Qed.

Lemma add_range_in c c' rs : in_ranges c' (add_range c rs) <-> c' = c \/ in_ranges c' rs.
Proof.
  unfold in_ranges. induction rs as [|[k l] rs IH]; cbn [add_range].
  - rewrite !Exists_cons, Exists_nil. cbn [snd]. rewrite elem_of_cons.
    pose proof (not_elem_of_nil c'). tauto.
  - destruct (str_eqb _ k); rewrite !Exists_cons; cbn [snd];
      rewrite ?elem_of_app, ?elem_of_cons, ?IH; pose proof (not_elem_of_nil c'); tauto.
Qed.

(** Where each part of a conjunction ends up. *)
Definition placed (rs : list (jsstr * list time_comparison)) (ds : list description) (p : part) : Prop :=
  match timeComparison p.1 with
  | Some c => in_ranges c rs
  | None => exists d, d ∈ ds /\ p.2 = Ok (Some d)
  end.

Lemma conjuncts_spec l : forall rs ds rs' ds', conjuncts l rs ds = Ok (Some (rs', ds')) -> ranges_ok rs ->
  ranges_ok rs' /\ (forall c, in_ranges c rs -> in_ranges c rs') /\
  (forall d, d ∈ ds' <-> d ∈ ds \/ exists p, p ∈ l /\ timeComparison p.1 = None /\ p.2 = Ok (Some d)) /\
  Forall (placed rs' ds') l.
Proof.
  induction l as [|[n r] l IH]; intros rs ds rs' ds' H Hok; cbn [conjuncts] in H.
  { injection H as <- <-. split; [done|]. split; [done|]. split; [|constructor]. intros d.
    split; [by left|]. intros [Hd|(p & Hp & _)]; [done|by apply not_elem_of_nil in Hp]. }
  destruct (timeComparison n) as [c|] eqn:Ec.
  - destruct (timeComparison_known n c Ec) as (_ & Hn & Hz).
    apply IH in H as (H1 & H2 & H3 & H4); [|by apply add_range_ok].
    split; [done|]. split; [intros x Hx; apply H2, add_range_in; by right|]. split.
    + intros d. rewrite H3. setoid_rewrite elem_of_cons. naive_solver.
    + constructor; [|done]. unfold placed. cbn [fst]. rewrite Ec. apply H2, add_range_in. by left.
  - destruct r as [[d|]|]; [|done|done]. apply IH in H as (H1 & H2 & H3 & H4); [|done].
    split; [done|]. split; [done|]. split.
    + intros x. rewrite H3, elem_of_app, list_elem_of_singleton. setoid_rewrite elem_of_cons. naive_solver.
    + constructor; [|done]. unfold placed. cbn [fst snd]. rewrite Ec. exists d. split; [|done].
      apply H3. left. apply elem_of_app. right. by apply list_elem_of_singleton.
Qed.

Lemma all_described_spec l : forall ds out, all_described l ds = Ok (Some out) ->
  (forall d, d ∈ out <-> d ∈ ds \/ Ok (Some d) ∈ l) /\
  Forall (fun r => exists d, d ∈ out /\ r = Ok (Some d)) l.
Proof.
  induction l as [|r l IH]; intros ds out H; cbn [all_described] in H.
  { injection H as <-. split; [|constructor]. intros d. split; [by left|].
    intros [Hd|Hd]; [done|by apply not_elem_of_nil in Hd]. }
  destruct r as [[d|]|]; [|done|done]. apply IH in H as [H1 H2]. split.
  - intros x. rewrite H1, elem_of_app, list_elem_of_singleton, elem_of_cons. naive_solver.
  - constructor; [|done]. exists d. split; [|done]. apply H1. left. apply elem_of_app. right.
    by apply list_elem_of_singleton.
Qed.

(** What holds of every description that is given. *)
Definition described_ok (x : node) : Prop :=
  forall d, describe x = Ok (Some d) -> zones_ok (ds_timezone d) x /\ kind_ok d.

Lemma group_described rs k g d : ranges_ok rs -> (k, g) ∈ rs ->
  describe_group locale (k, g) = Ok (Some d) ->
  kind_ok d /\ forall c, c ∈ g -> ds_timezone d = tc_timezone c.
Proof.
  intros Hok Hin Ed. unfold ranges_ok in Hok. rewrite Forall_elem in Hok.
  destruct (Hok _ Hin) as [Hne Hall]. unfold describe_group in Ed. cbn [fst snd] in *.
  destruct g as [|first g]; [done|]. apply range_zone in Ed. rewrite Forall_elem in Hall.
  destruct (Hall first ltac:(left)) as (K2 & N2 & Z2). split; [right; by rewrite Ed|].
  intros c Hc. destruct (Hall c Hc) as (K1 & N1 & _). rewrite Ed.
  apply range_key_zone; [done|done|congruence].
Qed.

(** Every part of a described condition is described by one of the descriptions. *)
Lemma describe_parts_zones is_and nodes ds :
  describe_parts locale is_and (map (fun x => (x, describe x)) nodes) = Ok (Some ds) ->
  Forall described_ok nodes -> Forall (fun x => Forall one_argument (subnodes x)) nodes ->
  Forall kind_ok ds /\ Forall (fun x => exists d, d ∈ ds /\ zones_ok (ds_timezone d) x) nodes.
Proof.
  intros H Hz Ha. rewrite Forall_elem in Hz, Ha. rewrite !Forall_elem. unfold describe_parts in H.
  destruct is_and.
  - destruct (conjuncts _ [] []) as [[[rs ps]|]|] eqn:Ec; [|done|done].
    apply conjuncts_spec in Ec as (Hok & _ & Hps & Hp); [|constructor].
    apply all_described_spec in H as [Hds Hg]. rewrite Forall_elem in Hp. rewrite Forall_elem in Hg. split.
    + intros d Hd. apply Hds in Hd as [Hd|Hd].
      * apply Hps in Hd as [Hd|(p & Hin & _ & Ep)]; [by apply not_elem_of_nil in Hd|].
        apply list_elem_of_In, in_map_iff in Hin as (x & <- & Hx). apply (Hz x); [by apply list_elem_of_In|done].
      * apply list_elem_of_In, in_map_iff in Hd as ([k g] & Ed & Hin). apply list_elem_of_In in Hin.
        by apply (group_described rs k g d Hok Hin Ed).
    + intros x Hx. assert (Hpx : placed rs ps (x, describe x)).
      { apply Hp. apply list_elem_of_In, in_map_iff. exists x. split; [done|by apply list_elem_of_In]. }
      unfold placed in Hpx. cbn [fst snd] in Hpx. destruct (timeComparison x) as [c|] eqn:Ex.
      * apply Exists_exists in Hpx as ([k g] & Hin & Hc). cbn [snd] in Hc. apply list_elem_of_In in Hin.
        destruct (Hg (describe_group locale (k, g))) as (d & Hd & Ed).
        { apply list_elem_of_In, in_map. by apply list_elem_of_In. }
        exists d. split; [done|]. destruct (group_described rs k g d Hok Hin Ed) as [_ Hzone].
        rewrite (Hzone c Hc). apply comparison_zone; [done|by apply Ha].
      * destruct Hpx as (d & Hd & Ed). exists d. split; [apply Hds; by left|by apply (Hz x Hx d)].
  - apply all_described_spec in H as [Hds Hg]. rewrite Forall_elem in Hg. rewrite map_map in Hds, Hg. split.
    + intros d Hd. apply Hds in Hd as [Hd|Hd]; [by apply not_elem_of_nil in Hd|].
      apply list_elem_of_In, in_map_iff in Hd as (x & Ex & Hx). apply (Hz x); [by apply list_elem_of_In|done].
    + intros x Hx. destruct (Hg (describe x)) as (d & Hd & Ed).
      { apply list_elem_of_In, in_map_iff. exists x. split; [done|by apply list_elem_of_In]. }
      exists d. split; [done|by apply (Hz x Hx d)].
Qed.

(** ** The zone of an assembled description *)

Lemma unique_elem l x : x ∈ unique l <-> x ∈ l.
Proof.
  induction l as [|y l IH]; cbn [unique]; [done|]. rewrite !elem_of_cons, list_elem_of_In, filter_In.
  rewrite <- list_elem_of_In, IH, negb_true_iff, str_eqb_neq.
  destruct (str_eqb_reflect x y); naive_solver.
Qed.

Lemma clocks_all ds : length (List.filter (is_kind Clock) ds) = length ds ->
  Forall (fun d => ds_kind d = Clock) ds.
Proof.
  induction ds as [|d ds IH]; [constructor|]. cbn [List.filter].
  pose proof (filter_length_le (is_kind Clock) ds) as Hle.
  destruct (is_kind Clock d) eqn:E; cbn [length]; intros H.
  - constructor; [|apply IH; lia]. unfold is_kind in E. by destruct (ds_kind d).
  - lia.
Qed.

Lemma assemble_zone is_and ds d : assemble is_and ds = Some d -> Forall kind_ok ds ->
  (forall x, x ∈ ds -> ds_timezone x = [] \/ ds_timezone x = ds_timezone d) /\ kind_ok d.
Proof.
  unfold assemble. destruct ds as [|first rest]; [done|]. cbv zeta.
  set (zones := unique (List.filter truthy (map ds_timezone (first :: rest)))).
  destruct (1 <? length zones)%nat eqn:El; [done|]. bools. intros H Hk. rewrite Forall_elem in Hk.
  assert (Hz : forall y, y ∈ first :: rest -> ds_timezone y = [] \/ ds_timezone y ∈ zones).
  { intros y Hy. destruct (truthy (ds_timezone y)) eqn:Et; [|left; by destruct (ds_timezone y)].
    right. apply unique_elem, list_elem_of_In, filter_In. split; [|done].
    apply in_map. by apply list_elem_of_In. }
  assert (Hsame : forall a b, a ∈ zones -> b ∈ zones -> a = b).
  { intros a b Ha Hb. destruct zones as [|z [|z' zs]]; [by apply not_elem_of_nil in Ha| |simpl in El; lia].
    apply list_elem_of_singleton in Ha, Hb. congruence. }
  destruct rest as [|second rest].
  { injection H as <-. split; [|apply Hk; left]. intros x Hx. apply list_elem_of_singleton in Hx as ->. by right. }
  set (parts := first :: second :: rest) in *.
  assert (Hpair : is_kind Combined first = false -> forall text,
      (forall x, x ∈ parts -> ds_timezone x = [] \/ ds_timezone x = ds_timezone first) /\
      kind_ok (Description text Combined (ds_timezone first) false)).
  { intros Hf text. split; [|by left]. intros x Hx.
    destruct (Hz x Hx) as [?|Hx']; [by left|right]. apply Hsame; [done|].
    destruct (Hz first ltac:(left)) as [E0|?]; [|done]. exfalso.
    destruct (Hk first ltac:(left)) as [Ek|Ek]; [|done]. unfold is_kind in Hf. by rewrite Ek in Hf. }
  set (zone := match zones with z :: _ => z | [] => [] end) in *.
  assert (Hzone : forall x, x ∈ parts -> ds_timezone x = [] \/ ds_timezone x = zone).
  { intros x Hx. destruct (Hz x Hx) as [?|Hx']; [by left|right]. unfold zone.
    destruct zones as [|z zs]; [by apply not_elem_of_nil in Hx'|]. apply Hsame; [done|left]. }
  assert (Hjoin : forall text kind dj,
      kind = Combined \/ length (List.filter (is_kind Clock) parts) = length parts ->
      kind_ok (Description text kind zone dj)).
  { intros text kind dj [->|Hc]; [by left|right]. cbn [ds_timezone].
    apply clocks_all, list.Forall_cons in Hc as [Hf _].
    destruct (Hk first ltac:(left)) as [Ek|Ek]; [congruence|].
    destruct (Hzone first ltac:(left)) as [?|E]; [done|]. by rewrite <- E. }
  destruct is_and; [|injection H as <-; split; [done|]; apply Hjoin; case_goal; bools; solve [by left|by right]].
  destruct rest as [|third rest];
    [|injection H as <-; split; [done|]; apply Hjoin; case_goal; bools; solve [by left|by right]].
  cbn [length] in H. destruct (is_kind Combined first) eqn:Ef.
  - assert (Hnot : is_kind Calendar first = false /\ is_kind Clock first = false).
    { unfold is_kind in *. by destruct (ds_kind first). }
    destruct Hnot as [N1 N2]. unfold parts in *. cbn [List.filter] in *. rewrite N1, N2 in *.
    destruct (is_kind Calendar second) eqn:E1, (is_kind Clock second) eqn:E2; cbn [length] in *;
      try (by unfold is_kind in E1, E2; destruct (ds_kind second));
      injection H as <-; (split; [done|by apply Hjoin; left]).
  - specialize (Hpair eq_refl).
    destruct (List.filter (is_kind Calendar) parts) as [|cal [|? ?]], 
      (List.filter (is_kind Clock) parts) as [|clk [|? ?]] eqn:Eclk; injection H as <-;
      first [exact (Hpair _) | split; [done|apply Hjoin; solve [by left|case_goal; bools; solve [by left|right; cbn [length parts]; lia]]]].
Qed.

(** Arguments below a node. *)
Lemma sub_arguments' n m : Forall one_argument (subnodes n) -> m ∈ subnodes n ->
  Forall one_argument (subnodes m).
Proof.
  rewrite !Forall_elem. intros H Hm x Hx. apply H. by eapply subnodes_trans.
Qed.
Lemma sub_arguments n c : Forall one_argument (subnodes n) -> c ∈ children n ->
  Forall one_argument (subnodes c).
Proof. intros H Hc. apply (sub_arguments' n); [done|]. eapply subnodes_child; [done|apply subnodes_self]. Qed.

Lemma variable_zone s e op l r name v : variable_comparison op l r = Some (name, v) ->
  zones_ok [] (NBinary s e op l r).
Proof.
  unfold variable_comparison. destruct l as [|s1 e1 x| | | | |]; try done.
  destruct r as [s2 e2 [|w| |] i| | | | | |]; try done. intros _.
  unfold zones_ok. do 3 (rewrite subnodes_unfold; cbn [children map concat app]).
  repeat (constructor; [done|]). constructor.
Qed.

(** The zone named in a description is the zone of the condition: when a condition is
    described, every time function in it reads the clock of the zone that the
    description names, and a description without a zone has no time function. *)
Theorem description_zone n d :
  describe n = Ok (Some d) -> Forall one_argument (subnodes n) -> zones_ok (ds_timezone d) n.
Proof.
  intros Hd Ha. enough (H : Forall one_argument (subnodes n) -> described_ok n) by (by apply H).
  clear d Hd Ha. induction n as [n IH] using node_sub_ind. intros Ha d Hd.
  destruct n as [| | | |s e op a|s e op l r|]; try done.
  - cbn [describeBillingCondition] in Hd. destruct (op === "!"); [|done].
    destruct (describe a) as [[d'|]|] eqn:Ea; [|done|done]. injection Hd as <-. cbn [ds_timezone].
    assert (Hin : a ∈ children (NUnary s e op a)) by left.
    destruct (IH a a Hin (subnodes_self a) (sub_arguments _ _ Ha Hin) d' Ea) as [Hz _].
    split; [|by left]. apply zones_ok_children; [done|]. constructor; [done|constructor].
  - rewrite describe_binary in Hd. destruct (variable_comparison op l r) as [[name v]|] eqn:Ev.
    + destruct (variable_label name); [|done]. destruct (toLocaleString _ _); [|done]. injection Hd as <-.
      split; [|by left]. exact (variable_zone s e op l r name v Ev).
    + destruct (timeComparison (NBinary s e op l r)) as [c|] eqn:Et.
      { pose proof (range_zone _ _ _ Hd) as Ez. rewrite Ez. split; [by apply comparison_zone|].
        right. rewrite Ez. by apply timeComparison_known in Et as (_ & _ & ?). }
      destruct (one_of op _); [|done].
      destruct (describe_parts _ _ _) as [[ds|]|] eqn:Ep; [|done|done]. injection Hd as Hd.
      assert (Hparts : Forall (fun x => exists c, c ∈ children (NBinary s e op l r) /\ x ∈ subnodes c)
                         (flattenBinary l op ++ flattenBinary r op)).
      { apply Forall_app. split; apply Forall_elem; intros x Hx; apply flatten_sub in Hx.
        - exists l. split; [left|done].
        - exists r. split; [right; left|done]. }
      apply describe_parts_zones in Ep as [Hk Hz].
      * apply assemble_zone in Hd as [Hzone Hkd]; [|done]. split; [|done].
        assert (Hall : Forall (zones_ok (ds_timezone d)) (flattenBinary l op ++ flattenBinary r op)).
        { eapply Forall_impl; [|exact Hz]. intros x (dx & Hdx & Hx).
          destruct (Hzone dx Hdx) as [E|E]; [rewrite E in Hx; by apply zones_ok_empty|by rewrite <- E]. }
        apply Forall_app in Hall as [Hl Hr]. apply zones_ok_children; [done|].
        constructor; [by eapply flatten_zones|]. constructor; [by eapply flatten_zones|constructor].
      * eapply Forall_impl; [|exact Hparts]. intros x (c & Hc & Hx). apply (IH c x Hc Hx).
        apply (sub_arguments' (NBinary s e op l r)); [done|by eapply subnodes_child].
      * eapply Forall_impl; [|exact Hparts]. intros x (c & Hc & Hx).
        apply (sub_arguments' (NBinary s e op l r)); [done|by eapply subnodes_child].
Qed.

End Zones.

(** * Examples *)

Definition sample_presentation : Presentation := {|
  translate key args := js key ++ concat (map (fun a => js " " ++ to_text a.2) args);
  weekday_short _ d := Ok (string_of_Z d);
  toLocaleString v _ := Ok (num_to_string v);
|}.

Definition sample_bound (op : string) (v : Z) : node :=
  NBinary 0 0 (js op) (NCall 0 0 (js "hour") [NLiteral 0 0 (LString (js " UTC ")) false])
    (NLiteral 0 0 (LNumber (num_of_Z v)) true).

Definition sample_comparison (op : string) (v : Z) : time_comparison :=
  TimeComparison (js "hour") (js "UTC") (js op) v.

(** From nine to twelve. *)
Lemma described_range_exact_witness :
  time_range (js "hour") [sample_comparison ">=" 9; sample_comparison "<" 12] = (9, 12) /\
  forall h, 0 <= h < 24 ->
    (Forall (fun n => part_holds n h = true) [sample_bound ">=" 9; sample_bound "<" 12] <-> 9 <= h < 12).
Proof.
  split; [vm_compute; reflexivity|].
  pose proof (described_range_exact (L := sample_presentation) (js "en") (sample_comparison ">=" 9)
    [sample_bound ">=" 9; sample_bound "<" 12] [sample_comparison "<" 12] 0 24
    ltac:(vm_compute; reflexivity) ltac:(repeat constructor) ltac:(vm_compute; reflexivity)) as H.
  exact (proj1 (proj2 (proj2 H))).
Defined.

Definition sample_condition : node :=
  NBinary 0 0 (js "&&") (sample_bound ">=" 9)
    (NBinary 0 0 (js "||") (sample_bound "<" 12) (NUnary 0 0 (js "!") (sample_bound "<=" 20))).

Definition sample_description : description :=
  Eval vm_compute in
    match describeBillingCondition (L := sample_presentation) (js "en") sample_condition with
    | Ok (Some d) => d
    | _ => Description [] Combined [] false
    end.

Lemma description_zone_witness : ds_timezone sample_description = js "UTC" /\ zones_ok (js "UTC") sample_condition.
Proof.
  split; [reflexivity|].
  apply (description_zone (L := sample_presentation) (js "en") sample_condition sample_description);
    [vm_compute; reflexivity|].
  vm_compute. repeat constructor.
Defined.
