(* ===== verification/StatusCodes.v ===== *)
(** [lib/http-status-code-rules.ts]: lists of HTTP status codes and ranges, as
    written by an administrator, parsed and normalized. *)
From Stdlib Require Import ZArith Lia Bool String.
From stdpp Require Import base list option.
From S2P Require Import Prelude JsString JsNumber Types JsValue.

#[local] Open Scope Z_scope.

(** * Data *)

Record code_range := CodeRange { cr_start : Z; cr_end : Z }.

Record parsed_rules := ParsedRules {
  pr_ok : bool;
  pr_ranges : list code_range;
  pr_tokens : list jsstr;
  pr_normalized : jsstr;
  pr_invalidTokens : list jsstr;
}.

(** * Operations *)

(** [(input ?? '').toString()]. *)
Definition input_text (input : jsvalue) : jsstr := to_text input.

Definition COMMA : Z := 44.
Definition DASH : Z := 45.
Definition FULLWIDTH_COMMA : Z := 65292.

Definition isNumber (s : jsstr) : bool := truthy s && forallb is_digit s.

Definition isValidCode (code : Z) : bool := (100 <=? code) && (code <=? 599).

Definition parseToken (token : jsstr) : option code_range :=
  let cleaned := List.filter (fun c => negb (is_space c)) (trim token) in
  match cleaned with
  | [] => None
  | _ =>
      if existsb (Z.eqb DASH) cleaned then
        match split_char DASH cleaned with
        | a :: b :: _ =>
            if negb (isNumber a) || negb (isNumber b) then None
            else
              let start := dec_value a in
              let stop := dec_value b in
              if negb (isValidCode start) || negb (isValidCode stop) || (stop <? start)
              then None else Some (CodeRange start stop)
        | _ => None
        end
      else if negb (isNumber cleaned) then None
      else
        let code := dec_value cleaned in
        if isValidCode code then Some (CodeRange code code) else None
  end.

Arguments parseToken : simpl never.

(** The comparison of the sort. *)
Definition range_leb (a b : code_range) : bool :=
  if cr_start a =? cr_start b then cr_end a <=? cr_end b else cr_start a <=? cr_start b.

Fixpoint insert_range (r : code_range) (l : list code_range) : list code_range :=
  match l with
  | [] => [r]
  | x :: l' => if range_leb x r then x :: insert_range r l' else r :: l
  end.
(** A stable sort: later elements go after equal ones. *)
Definition sort_ranges (l : list code_range) : list code_range :=
  fold_left (fun acc r => insert_range r acc) l [].

(** One step of the reduction; [merged] is kept last first. *)
Definition merge_step (merged : list code_range) (current : code_range) : list code_range :=
  match merged with
  | last :: rest =>
      if cr_end last + 1 <? cr_start current then current :: merged
      else CodeRange (cr_start last) (Z.max (cr_end last) (cr_end current)) :: rest
  | [] => [current]
  end.

Definition mergeRanges (ranges : list code_range) : list code_range :=
  rev (fold_left merge_step (sort_ranges ranges) []).

Definition range_token (r : code_range) : jsstr :=
  if cr_start r =? cr_end r then string_of_Z (cr_start r)
  else string_of_Z (cr_start r) ++ js "-" ++ string_of_Z (cr_end r).

(** The segments of the text. *)
Definition segments_of (raw : jsstr) : list jsstr :=
  let sanitized := map (fun c => if c =? FULLWIDTH_COMMA then COMMA else c) raw in
  List.filter truthy (map trim (split_char COMMA sanitized)).

(** The loop over the segments. *)
Fixpoint parse_segments (segments : list jsstr) (ranges : list code_range)
    (invalid : list jsstr) : list code_range * list jsstr :=
  match segments with
  | [] => (ranges, invalid)
  | s :: segments' =>
      match parseToken s with
      | None => parse_segments segments' ranges (invalid ++ [s])
      | Some r => parse_segments segments' (ranges ++ [r]) invalid
      end
  end.

Definition parseHttpStatusCodeRules (input : jsvalue) : parsed_rules :=
  let raw := trim (input_text input) in
  match raw with
  | [] => ParsedRules true [] [] [] []
  | _ =>
      match parse_segments (segments_of raw) [] [] with
      | (ranges, []) =>
          let merged := mergeRanges ranges in
          let tokens := map range_token merged in
          ParsedRules true merged tokens (join (js ",") tokens) []
      | (_, invalid) => ParsedRules false [] [] raw invalid
      end
  end.

(** * Facts *)

(** The range covers the code. *)
Definition covers (r : code_range) (z : Z) : Prop := cr_start r <= z <= cr_end r.
Definition covered (l : list code_range) (z : Z) : Prop := Exists (fun r => covers r z) l.

Definition range_ok (r : code_range) : Prop :=
  100 <= cr_start r /\ cr_start r <= cr_end r /\ cr_end r <= 599.

(** Normal form: increasing, with at least one code missing between ranges. *)
Fixpoint separated (l : list code_range) : Prop :=
  match l with
  | a :: ((b :: _) as l') => cr_end a + 1 < cr_start b /\ separated l'
  | _ => True
  end.

Lemma parseToken_ok s r : parseToken s = Some r -> range_ok r.
Proof.
  unfold parseToken, isValidCode. intros H. destruct (List.filter _ _) as [|c cs]; [done|].
  destruct (existsb _ _).
  - destruct (split_char DASH _) as [|a [|b rest]]; try done.
    destruct (_ || _); [done|]. destruct (_ || _) eqn:E; [done|]. injection H as <-. bools.
    unfold range_ok. simpl. lia.
  - destruct (negb _); [done|]. destruct (_ && _) eqn:E; [|done]. injection H as <-. bools.
    unfold range_ok. simpl. lia.
Qed.

Lemma parse_segments_spec segs : forall rs bs rs' bs',
  parse_segments segs rs bs = (rs', bs') ->
  exists new bad, rs' = rs ++ new /\ bs' = bs ++ bad /\
    Forall range_ok new /\ new = omap parseToken segs /\
    bad = List.filter (fun s => match parseToken s with None => true | _ => false end) segs.
Proof.
  induction segs as [|s segs IH]; simpl; intros rs bs rs' bs' H.
  - injection H as <- <-. exists [], []. rewrite !app_nil_r. split_and!; try done.
  - destruct (parseToken s) as [r|] eqn:E.
    + apply IH in H as (new & bad & -> & -> & Hok & -> & ->). eexists (r :: omap parseToken segs), _.
      rewrite <- app_assoc. split_and!; try done. constructor; [by eapply parseToken_ok|done].
    + apply IH in H as (new & bad & -> & -> & Hok & -> & ->). eexists _, (s :: _).
      rewrite <- app_assoc. split_and!; done.
Qed.

(** ** Sorting *)

Fixpoint sorted_ranges (l : list code_range) : Prop :=
  match l with
  | a :: ((b :: _) as l') => cr_start a <= cr_start b /\ sorted_ranges l'
  | _ => True
  end.

Lemma insert_range_elem r l x : x ∈ insert_range r l <-> x = r \/ x ∈ l.
Proof.
  induction l as [|y l IH]; simpl.
  - rewrite list_elem_of_singleton. pose proof (not_elem_of_nil x). tauto.
  - destruct (range_leb y r); rewrite ?elem_of_cons, ?IH, ?elem_of_cons; tauto.
Qed.

Lemma range_leb_start a b : range_leb a b = true -> cr_start a <= cr_start b.
Proof. unfold range_leb. destruct (_ =? _) eqn:E; intros; bools; lia. Qed.
Lemma range_leb_not a b : range_leb a b = false -> cr_start b <= cr_start a.
Proof. unfold range_leb. destruct (_ =? _) eqn:E; intros; bools; lia. Qed.

Lemma insert_range_sorted r l : sorted_ranges l -> sorted_ranges (insert_range r l).
Proof.
  induction l as [|y l IH]; intros H; [done|]. cbn [insert_range].
  destruct (range_leb y r) eqn:E.
  - apply range_leb_start in E. destruct l as [|z l]; [done|].
    destruct H as [H1 H2]. specialize (IH H2). cbn [insert_range] in *.
    destruct (range_leb z r) eqn:E2; split; try done.
  - apply range_leb_not in E. done.
Qed.

Lemma sort_ranges_spec l :
  sorted_ranges (sort_ranges l) /\ forall x, x ∈ sort_ranges l <-> x ∈ l.
Proof.
  unfold sort_ranges.
  assert (H : forall acc, sorted_ranges acc ->
    sorted_ranges (fold_left (fun acc r => insert_range r acc) l acc) /\
    forall x, x ∈ fold_left (fun acc r => insert_range r acc) l acc <-> x ∈ acc \/ x ∈ l).
  { induction l as [|r l IH]; intros acc Ha; simpl.
    - split; [done|]. intros x. pose proof (not_elem_of_nil x). tauto.
    - destruct (IH _ (insert_range_sorted r acc Ha)) as [H1 H2]. split; [done|].
      intros x. rewrite H2, insert_range_elem, elem_of_cons. tauto. }
  destruct (H [] I) as [H1 H2]. split; [done|]. intros x. rewrite H2.
  pose proof (not_elem_of_nil x). tauto.
Qed.

(** ** Merging *)

(** [separated], read from the last range. *)
Fixpoint separated_down (l : list code_range) : Prop :=
  match l with
  | a :: ((b :: _) as l') => cr_end b + 1 < cr_start a /\ separated_down l'
  | _ => True
  end.

Lemma separated_app l a b :
  separated (l ++ [a]) -> cr_end a + 1 < cr_start b -> separated (l ++ [a; b]).
Proof.
  induction l as [|x l IH]; intros H Hab; [done|].
  destruct l as [|y l]; simpl in *; [tauto|]. destruct H as [H1 H2]. split; [done|]. by apply IH.
Qed.

Lemma separated_rev l : separated_down l -> separated (rev l).
Proof.
  induction l as [|a l IH]; intros H; [done|]. destruct l as [|b l]; [done|].
  destruct H as [H1 H2]. specialize (IH H2). simpl in *. rewrite <- app_assoc. simpl.
  by apply separated_app.
Qed.

Definition starts_after (acc l : list code_range) : Prop :=
  match acc, l with
  | a :: _, x :: _ => cr_start a <= cr_start x
  | _, _ => True
  end.

Lemma merge_step_spec acc x :
  separated_down acc -> Forall range_ok acc -> range_ok x -> starts_after acc [x] ->
  separated_down (merge_step acc x) /\ Forall range_ok (merge_step acc x) /\
  (forall z, covered (merge_step acc x) z <-> covered acc z \/ covers x z) /\
  (forall l, sorted_ranges (x :: l) -> starts_after (merge_step acc x) l).
Proof.
  intros Hs Ha Hx Hst. unfold merge_step, covered, covers. destruct acc as [|a acc].
  - split_and!; [done|by apply Forall_singleton| |by intros [|y l]; [|intros [? _]]].
    intros z. rewrite Exists_cons, Exists_nil. tauto.
  - apply list.Forall_cons in Ha as [Ha Hacc]. unfold range_ok in Ha, Hx. simpl in Hst.
    destruct (cr_end a + 1 <? cr_start x) eqn:E; bools.
    + split_and!; [done|by repeat (apply Forall_cons; [done|])| |by intros [|y l]; [|intros [? _]]].
      intros z. rewrite Exists_cons. tauto.
    + split_and!.
      * destruct acc; [done|]. done.
      * constructor; [|done]. unfold range_ok. simpl. lia.
      * intros z. rewrite !Exists_cons. simpl.
        assert (cr_start a <= z <= Z.max (cr_end a) (cr_end x) <->
                cr_start a <= z <= cr_end a \/ cr_start x <= z <= cr_end x) by lia. tauto.
      * intros [|y l] Hl; [done|]. destruct Hl as [Hl _]. simpl. lia.
Qed.

Lemma merge_fold l : forall acc,
  sorted_ranges l -> starts_after acc l -> separated_down acc ->
  Forall range_ok acc -> Forall range_ok l ->
  separated_down (fold_left merge_step l acc) /\ Forall range_ok (fold_left merge_step l acc) /\
  forall z, covered (fold_left merge_step l acc) z <-> covered acc z \/ covered l z.
Proof.
  induction l as [|x l IH]; intros acc Hl Hst Hs Ha Hx; cbn [fold_left].
  - split_and!; [done|done|]. intros z. unfold covered at 3. rewrite Exists_nil. tauto.
  - apply list.Forall_cons in Hx as [Hx Hxs].
    destruct (merge_step_spec acc x Hs Ha Hx) as (H1 & H2 & H3 & H4); [by destruct acc|].
    destruct (IH (merge_step acc x)) as (I1 & I2 & I3); [|by apply H4|done..|].
    + destruct l; [done|]. by destruct Hl.
    + split_and!; [done|done|]. intros z. rewrite I3, H3. unfold covered. rewrite Exists_cons. tauto.
Qed.

Lemma mergeRanges_spec l :
  Forall range_ok l ->
  separated (mergeRanges l) /\ Forall range_ok (mergeRanges l) /\
  forall z, covered (mergeRanges l) z <-> covered l z.
Proof.
  intros Hl. destruct (sort_ranges_spec l) as [Hs Hin].
  assert (Hok : Forall range_ok (sort_ranges l)).
  { rewrite Forall_elem in *. intros x Hx. apply Hl. by apply Hin. }
  destruct (merge_fold (sort_ranges l) [] Hs I I ltac:(constructor) Hok) as (H1 & H2 & H3).
  unfold mergeRanges. split_and!.
  - by apply separated_rev.
  - by apply Forall_rev.
  - intros z. transitivity (covered (fold_left merge_step (sort_ranges l) []) z).
    { unfold covered. rewrite !Exists_exists. by setoid_rewrite <- in_rev. }
    rewrite H3. unfold covered. rewrite Exists_nil, !Exists_exists.
    setoid_rewrite <- list_elem_of_In. setoid_rewrite Hin. tauto.
Qed.

(** ** Round trip *)

(** What printing a code gives, checked on every code. *)
Definition code_text_ok (z : Z) : bool :=
  let t := string_of_Z z in isNumber t && (dec_value t =? z).

Lemma code_text z : 100 <= z <= 599 ->
  isNumber (string_of_Z z) = true /\ dec_value (string_of_Z z) = z.
Proof.
  intros Hz.
  assert (Hall : forallb code_text_ok (map (fun i => 100 + Z.of_nat i) (seq 0 500)) = true)
    by (vm_compute; reflexivity).
  rewrite forallb_forall in Hall.
  assert (H : code_text_ok z = true).
  { apply Hall, in_map_iff. exists (Z.to_nat (z - 100)). split; [lia|]. apply in_seq. lia. }
  unfold code_text_ok in H. bools. by split.
Qed.

(** A character of a token: a digit or the dash. *)
Definition token_char (c : Z) : bool := is_digit c || (c =? DASH).

Lemma token_char_plain c : token_char c = true ->
  is_space c = false /\ c <> COMMA /\ c <> FULLWIDTH_COMMA.
Proof.
  unfold token_char, is_digit, is_space, DASH, COMMA, FULLWIDTH_COMMA. intros H.
  apply orb_true_iff in H as [H|H]; bools; split_and!; try lia;
    rewrite !orb_false_iff, ?andb_false_iff, !Z.eqb_neq, !Z.leb_gt; lia.
Qed.

Lemma isNumber_inv s : isNumber s = true -> s <> [] /\ Forall (fun c => is_digit c = true) s.
Proof.
  unfold isNumber. intros H. bools. split; [by destruct s|].
  apply List.Forall_forall. by apply forallb_forall.
Qed.

Lemma range_token_chars r : range_ok r ->
  range_token r <> [] /\ Forall (fun c => token_char c = true) (range_token r).
Proof.
  intros (H1 & H2 & H3).
  destruct (code_text (cr_start r)) as [Ha _]; [lia|]. destruct (code_text (cr_end r)) as [Hb _]; [lia|].
  apply isNumber_inv in Ha as [Na Ha], Hb as [Nb Hb].
  assert (Hd : forall s, Forall (fun c => is_digit c = true) s -> Forall (fun c => token_char c = true) s).
  { intros s Hs. eapply Forall_impl; [|exact Hs]. intros c Hc. unfold token_char. by rewrite Hc. }
  unfold range_token. destruct (_ =? _); [by auto|]. split.
  - by destruct (string_of_Z (cr_start r)).
  - apply Forall_app. split; [auto|]. apply Forall_app. split; [|auto].
    by apply Forall_singleton.
Qed.

Lemma filter_plain s : Forall (fun c => is_space c = false) s ->
  List.filter (fun c => negb (is_space c)) s = s.
Proof. induction 1 as [|c s Hc _ IH]; simpl; [done|]. by rewrite Hc, IH. Qed.

Lemma parse_range_token r : range_ok r -> parseToken (range_token r) = Some r.
Proof.
  intros Hr. destruct (range_token_chars r Hr) as [Hne Hc].
  assert (Hsp : Forall (fun c => is_space c = false) (range_token r)).
  { eapply Forall_impl; [|exact Hc]. intros c Hx. by apply token_char_plain in Hx as [? _]. }
  destruct Hr as (H1 & H2 & H3).
  destruct (code_text (cr_start r)) as [Na Da]; [lia|]. destruct (code_text (cr_end r)) as [Nb Db]; [lia|].
  assert (Hdash : forall s, isNumber s = true -> Forall (fun c => c <> DASH) s).
  { intros s [_ Hs]%isNumber_inv. eapply Forall_impl; [|exact Hs].
    intros c Hx. unfold is_digit, DASH in *. bools. lia. }
  assert (Hno : forall s, isNumber s = true -> existsb (Z.eqb DASH) s = false).
  { intros s Hs%Hdash. induction Hs as [|c s Hc' _ IH]; cbn [existsb]; [done|].
    apply orb_false_iff. split; [apply Z.eqb_neq; congruence|done]. }
  assert (Hv : forall z, 100 <= z <= 599 -> isValidCode z = true).
  { intros z Hz. unfold isValidCode. lia. }
  unfold parseToken. rewrite trim_plain, filter_plain by done.
  destruct (range_token r) as [|c0 cs] eqn:Et; [done|]. rewrite <- Et. clear Hne Hc Hsp.
  unfold range_token in *. destruct (cr_start r =? cr_end r) eqn:E; bools.
  - rewrite Hno, Na, Da, Hv by (done || lia). destruct r; simpl in *. by subst.
  - rewrite existsb_app. simpl. rewrite orb_true_r.
    rewrite (split_char_app DASH), split_char_plain by auto.
    rewrite Na, Nb, Da, Db, !Hv by lia. simpl.
    destruct (cr_end r <? cr_start r) eqn:E2; bools; [lia|]. by destruct r.
Qed.

(** In a normal form every range ends before all the later ones start. *)
Lemma separated_tail a l : separated (a :: l) -> separated l.
Proof. destruct l; [done|]. by intros [_ H]. Qed.

Lemma separated_before a l : Forall range_ok l -> separated (a :: l) ->
  Forall (fun y => cr_end a + 1 < cr_start y) l.
Proof.
  intros Hok. revert a. induction Hok as [|b l Hb Hl IH]; intros a H; [constructor|].
  destruct H as [H1 H2]. constructor; [done|]. eapply Forall_impl; [|apply (IH b H2)].
  intros y Hy. cbv beta in Hy. destruct Hb as (? & ? & ?). lia.
Qed.

Lemma insert_last x acc : Forall (fun y => cr_start y < cr_start x) acc ->
  insert_range x acc = acc ++ [x].
Proof.
  induction 1 as [|y acc Hy _ IH]; simpl; [done|].
  assert (E : range_leb y x = true).
  { unfold range_leb. destruct (cr_start y =? cr_start x) eqn:E; bools; lia. }
  by rewrite E, IH.
Qed.

Lemma sort_separated l : forall acc, separated l -> Forall range_ok l ->
  Forall (fun y => Forall (fun x => cr_start y < cr_start x) l) acc ->
  fold_left (fun acc r => insert_range r acc) l acc = acc ++ l.
Proof.
  induction l as [|x l IH]; intros acc Hs Hok Ha; cbn [fold_left]; [by rewrite app_nil_r|].
  apply list.Forall_cons in Hok as [Hx Hok].
  rewrite insert_last.
  - rewrite IH; [by rewrite <- app_assoc|by eapply separated_tail|done|].
    apply Forall_app. split.
    + eapply Forall_impl; [|exact Ha]. intros y Hy. by apply list.Forall_cons in Hy as [_ Hy].
    + apply Forall_singleton. eapply Forall_impl; [|by apply separated_before].
      intros y Hy. cbv beta in Hy. destruct Hx as (? & ? & ?). lia.
  - eapply Forall_impl; [|exact Ha]. intros y Hy. by apply list.Forall_cons in Hy as [Hy _].
Qed.

Lemma merge_separated l : forall acc, separated (rev acc ++ l) ->
  fold_left merge_step l acc = rev l ++ acc.
Proof.
  induction l as [|x l IH]; intros acc Hs; cbn [fold_left]; [done|].
  assert (E : merge_step acc x = x :: acc).
  { destruct acc as [|a acc]; [done|]. simpl in *.
    assert (H : cr_end a + 1 < cr_start x).
    { clear IH. rewrite <- app_assoc in Hs. simpl in Hs. revert Hs. generalize (rev acc) as p.
      induction p as [|y p IHp]; intros Hs; [by destruct Hs|]. apply IHp.
      simpl in Hs. by apply separated_tail in Hs. }
    destruct (cr_end a + 1 <? cr_start x) eqn:E; bools; [done|lia]. }
  rewrite E, IH; [simpl; by rewrite <- app_assoc|]. simpl. by rewrite <- app_assoc.
Qed.

Lemma mergeRanges_normal l : separated l -> Forall range_ok l -> mergeRanges l = l.
Proof.
  intros Hs Hok. unfold mergeRanges, sort_ranges.
  rewrite sort_separated by (done || constructor). simpl.
  rewrite merge_separated by done. by rewrite app_nil_r, rev_involutive.
Qed.

(** ** The parser *)

(** The result of an accepted text. *)
Lemma parse_rules_ok input :
  pr_ok (parseHttpStatusCodeRules input) = true ->
  let p := parseHttpStatusCodeRules input in
  let segments := segments_of (trim (input_text input)) in
  pr_ranges p = mergeRanges (omap parseToken segments) /\
  Forall (fun s => is_Some (parseToken s)) segments /\
  pr_tokens p = map range_token (pr_ranges p) /\
  pr_normalized p = join (js ",") (pr_tokens p) /\ pr_invalidTokens p = [].
Proof.
  unfold parseHttpStatusCodeRules. cbv zeta.
  destruct (trim (input_text input)) as [|c raw]; [intros _; split_and!; done|].
  destruct (parse_segments (segments_of (c :: raw)) [] []) as [rs bs] eqn:E.
  destruct bs as [|b bs]; [|done]. intros _. simpl.
  apply parse_segments_spec in E as (new & bad & -> & Hbad & _ & -> & Hb). simpl in Hbad. subst bad.
  split_and!; try done.
  induction (segments_of (c :: raw)) as [|s segs IH]; [constructor|]. simpl in Hb.
  destruct (parseToken s) eqn:E; [|done]. constructor; [by eexists|auto].
Qed.

Lemma segments_join tokens :
  Forall (fun t => t <> [] /\ Forall (fun c => token_char c = true) t) tokens -> tokens <> [] ->
  trim (join (js ",") tokens) = join (js ",") tokens /\
  segments_of (join (js ",") tokens) = tokens.
Proof.
  intros Ht Hne.
  assert (Hc : Forall (fun c => token_char c = true \/ c = COMMA) (join (js ",") tokens)).
  { clear Hne. induction Ht as [|t ts [_ Hx] _ IH]; [constructor|].
    assert (Hx' : Forall (fun c => token_char c = true \/ c = COMMA) t)
      by (eapply Forall_impl; [|exact Hx]; auto).
    destruct ts as [|u ts]; [done|].
    change (join (js ",") (t :: u :: ts)) with (t ++ js "," ++ join (js ",") (u :: ts)).
    apply Forall_app. split; [done|]. apply Forall_app. split; [|done].
    apply Forall_singleton. by right. }
  split.
  - apply trim_plain. eapply Forall_impl; [|exact Hc]. intros c [H| ->]; [|done].
    by apply token_char_plain in H as [? _].
  - unfold segments_of.
    assert (E : map (fun c => if c =? FULLWIDTH_COMMA then COMMA else c) (join (js ",") tokens)
                = join (js ",") tokens).
    { clear - Hc. induction Hc as [|c s H _ IH]; [done|]. cbn [map]. rewrite IH. f_equal.
      destruct (c =? FULLWIDTH_COMMA) eqn:E; bools; [|done].
      destruct H as [H|H]; [|done]. by apply token_char_plain in H as (_ & _ & ?). }
    rewrite E. change (js ",") with [COMMA]. rewrite split_join; [|done|].
    + clear - Ht. induction Ht as [|t ts [Hn Hx] _ IH]; [done|]. cbn [map List.filter].
      rewrite trim_plain; [|eapply Forall_impl; [|exact Hx]; intros c H; by apply token_char_plain in H as [? _]].
      destruct t; [done|]. cbn [truthy]. by rewrite IH.
    + eapply Forall_impl; [|exact Ht]. intros t [_ Hx]. eapply Forall_impl; [|exact Hx].
      intros c H. by apply token_char_plain in H as (_ & ? & _).
Qed.

(** The ranges of an accepted text. *)
Lemma parse_rules_ranges input :
  pr_ok (parseHttpStatusCodeRules input) = true ->
  let p := parseHttpStatusCodeRules input in
  separated (pr_ranges p) /\ Forall range_ok (pr_ranges p) /\
  forall z, covered (pr_ranges p) z <->
    exists s r, s ∈ segments_of (trim (input_text input)) /\ parseToken s = Some r /\ covers r z.
Proof.
  intros H. destruct (parse_rules_ok input H) as (Hr & _ & _). cbv zeta in *. rewrite Hr.
  set (segs := segments_of _).
  assert (Hok : Forall range_ok (omap parseToken segs)).
  { apply Forall_elem. intros r Hr'. apply list_elem_of_omap in Hr' as (s & _ & Hs).
    by eapply parseToken_ok. }
  destruct (mergeRanges_spec _ Hok) as (H1 & H2 & H3). split_and!; [done|done|].
  intros z. rewrite H3. unfold covered. rewrite Exists_exists.
  setoid_rewrite <- list_elem_of_In. setoid_rewrite list_elem_of_omap. naive_solver.
Qed.

(** An accepted list of status codes is normalized to the same set of codes: the
    ranges are inside 100..599, increasing, never adjacent or overlapping, and
    cover exactly the codes that the written segments cover. *)
Theorem status_rules_normal input :
  pr_ok (parseHttpStatusCodeRules input) = true ->
  separated (pr_ranges (parseHttpStatusCodeRules input)) /\
  Forall range_ok (pr_ranges (parseHttpStatusCodeRules input)) /\
  forall z, covered (pr_ranges (parseHttpStatusCodeRules input)) z <->
    exists s r, s ∈ segments_of (trim (input_text input)) /\ parseToken s = Some r /\ covers r z.
Proof. apply parse_rules_ranges. Qed.

(** Normalization is idempotent: the normalized text of an accepted list parses to
    the same ranges, tokens and text. *)
Theorem status_rules_roundtrip input :
  pr_ok (parseHttpStatusCodeRules input) = true ->
  parseHttpStatusCodeRules (JStr (pr_normalized (parseHttpStatusCodeRules input))) =
  parseHttpStatusCodeRules input.
Proof.
  intros H. destruct (parse_rules_ok input H) as (_ & _ & Ht & Hn & Hi).
  destruct (parse_rules_ranges input H) as (Hs & Hok & _). cbv zeta in *.
  destruct (parseHttpStatusCodeRules input) as [ok ranges tokens normalized invalid]. simpl in *.
  subst. set (tokens := map range_token ranges).
  assert (Hchars : Forall (fun t => t <> [] /\ Forall (fun c => token_char c = true) t) tokens).
  { apply Forall_map. eapply Forall_impl; [|exact Hok]. intros r Hr. by apply range_token_chars. }
  unfold parseHttpStatusCodeRules. cbn [input_text to_text].
  destruct ranges as [|r ranges]; [done|].
  destruct (segments_join tokens Hchars) as [E1 E2]; [done|]. rewrite E1.
  destruct (join (js ",") tokens) as [|c cs] eqn:Ej.
  { exfalso. destruct (range_token_chars r) as [Hne _]; [by apply list.Forall_cons in Hok as [? _]|].
    subst tokens. cbn [map] in Ej. destruct (range_token r); [done|]. by destruct (map range_token ranges). }
  rewrite E2. destruct (parse_segments tokens [] []) as [rs bs] eqn:Ep.
  apply parse_segments_spec in Ep as (new & bad & -> & -> & _ & -> & ->).
  assert (Hback : forall l, Forall range_ok l ->
    omap parseToken (map range_token l) = l /\
    List.filter (fun s => match parseToken s with None => true | _ => false end) (map range_token l) = []).
  { induction 1 as [|x l Hx _ [IH1 IH2]]; [done|].
    simpl. rewrite (parse_range_token x Hx). split; [by f_equal|done]. }
  destruct (Hback _ Hok) as [Ho Hf]. subst tokens. rewrite Ho, Hf. simpl app.
  by rewrite (mergeRanges_normal (r :: ranges) Hs Hok), Ej.
Qed.

(** A list is refused exactly when one of its segments is not a code or a range
    of codes; the refusal names these segments in order and keeps the text. *)
Theorem status_rules_refused input :
  let p := parseHttpStatusCodeRules input in
  let segments := segments_of (trim (input_text input)) in
  let bad := List.filter (fun s => match parseToken s with None => true | _ => false end) segments in
  (pr_ok p = true <-> bad = []) /\ pr_invalidTokens p = bad /\
  (pr_ok p = false -> pr_ranges p = [] /\ pr_normalized p = trim (input_text input)).
Proof.
  cbv zeta. unfold parseHttpStatusCodeRules.
  destruct (trim (input_text input)) as [|c raw]; [done|].
  destruct (parse_segments (segments_of (c :: raw)) [] []) as [rs bs] eqn:E.
  apply parse_segments_spec in E as (new & bad & -> & -> & _ & _ & <-). simpl.
  destruct bad as [|b bad]; done.
Qed.

Definition sample_rules : jsvalue := JStr (js " 429, 500-503 ,504 , 401 ").

Lemma status_rules_normal_witness :
  pr_normalized (parseHttpStatusCodeRules sample_rules) = js "401,429,500-504" /\
  separated (pr_ranges (parseHttpStatusCodeRules sample_rules)).
Proof.
  split; [vm_compute; reflexivity|].
  exact (proj1 (status_rules_normal sample_rules ltac:(vm_compute; reflexivity))).
Defined.

Lemma status_rules_roundtrip_witness :
  parseHttpStatusCodeRules (JStr (pr_normalized (parseHttpStatusCodeRules sample_rules))) =
  parseHttpStatusCodeRules sample_rules.
Proof. apply (status_rules_roundtrip sample_rules). vm_compute. reflexivity. Defined.

(** A token with more than one dash is accepted for its first two parts: the parts
    after the second are dropped without a word. *)
Lemma extra_dash_parts_dropped :
  parseToken (js "500-503-599") = Some (CodeRange 500 503) /\
  pr_normalized (parseHttpStatusCodeRules (JStr (js "500-503-599"))) = js "500-503".
Proof. split; vm_compute; reflexivity. Qed.
