(* ===== verification/AuthSession.v ===== *)
(** The login session of the frontend: [stores/auth-store.ts],
    [lib/auth-session.ts], [lib/auth-session-sync.ts] and [lib/session-hint.ts].

    The state is the store, the counter [authEpoch] and the refresh in flight.
    A refresh is an asynchronous loop; the model cuts it at its suspension
    points ([await]) into phases, so that logins, logouts and rotations may come
    in between.  [step] is the executable transition function of the whole. *)
From Stdlib Require Import ZArith Lia Bool String.
From stdpp Require Import base list option.
From S2P Require Import Prelude JsString JsNumber Types JsValue.

(** * Data *)

(** [AuthUser]: the fields that are checked, and the object it is read from. *)
Record auth_user := AuthUser {
  u_id : number;
  u_username : jsstr;
  u_role : number;
  u_object : jsvalue;
}.

Record login_session := LoginSession {
  sid : jsstr;
  current_session : bool;
  login_method : jsstr;
  ip : jsstr;
  user_agent : jsstr;
  created_at : number;
  last_active_at : number;
  expires_at : number;
}.

Record auth_bundle := AuthBundle {
  access_token : jsstr;
  token_type : jsstr;
  access_expires_at : number;
  b_user : auth_user;
  b_session : login_session;
}.

Inductive bootstrap_state := BIdle | BChecking | BComplete.

(** The data of the store. *)
Record auth_store := AuthStore {
  s_user : option auth_user;
  s_accessToken : option jsstr;
  s_accessExpiresAt : option number;
  s_session : option login_session;
  s_pending : option jsvalue;
  s_bootstrapState : bootstrap_state;
}.

Definition initial_store : auth_store := AuthStore None None None None None BIdle.

(** ** The store's actions *)

Definition setBundle (b : auth_bundle) (s : auth_store) : auth_store :=
  AuthStore (Some (b_user b)) (Some (access_token b)) (Some (access_expires_at b))
    (Some (b_session b)) None BComplete.

(** [a?.id === b?.id]. *)
Definition same_user_id (a b : option auth_user) : bool :=
  match a, b with
  | Some x, Some y => num_eqb (u_id x) (u_id y)
  | None, None => true
  | _, _ => false
  end.

Definition setUser (user : option auth_user) (s : auth_store) : auth_store :=
  AuthStore user (s_accessToken s) (s_accessExpiresAt s) (s_session s)
    (if same_user_id (s_user s) user then s_pending s else None) (s_bootstrapState s).

Definition setPendingLoginVerification (p : option jsvalue) (s : auth_store) : auth_store :=
  AuthStore (s_user s) (s_accessToken s) (s_accessExpiresAt s) (s_session s) p
    (s_bootstrapState s).

Definition setBootstrapState (b : bootstrap_state) (s : auth_store) : auth_store :=
  AuthStore (s_user s) (s_accessToken s) (s_accessExpiresAt s) (s_session s) (s_pending s) b.

Definition reset (b : bootstrap_state) (s : auth_store) : auth_store :=
  AuthStore None None None None None b.

(** * Validation of server data *)

(** [value.key] on a record; arrays have none of the keys asked for. *)
Definition field (v : jsvalue) (key : string) : jsvalue :=
  match v with
  | JObj fields => match own fields (js key) with Some x => x | None => JUndefined end
  | _ => JUndefined
  end.

Definition isRecord (v : jsvalue) : bool :=
  match v with JArr _ | JObj _ => true | _ => false end.

Definition isAuthUser (v : jsvalue) : option auth_user :=
  if isRecord v then
    match field v "id", field v "username", field v "role" with
    | JNum i, JStr u, JNum r =>
        if is_integer i && num_ltb num_zero i then Some (AuthUser i u r v) else None
    | _, _, _ => None
    end
  else None.

Definition isLoginSession (v : jsvalue) : option login_session :=
  if isRecord v then
    match field v "sid", field v "current", field v "login_method", field v "ip",
          field v "user_agent", field v "created_at", field v "last_active_at",
          field v "expires_at" with
    | JStr s, JBool c, JStr l, JStr i, JStr u, JNum a, JNum b, JNum e =>
        if truthy s then Some (LoginSession s c l i u a b e) else None
    | _, _, _, _, _, _, _, _ => None
    end
  else None.

(** [hasValidTokenFields]: the token, its type and its expiry. *)
Definition hasValidTokenFields (v : jsvalue) : option (jsstr * jsstr * number) :=
  match field v "access_token", field v "token_type", field v "access_expires_at" with
  | JStr t, JStr k, JNum e =>
      if truthy t && truthy k && is_finite e && num_ltb num_zero e then Some (t, k, e) else None
  | _, _, _ => None
  end.

Definition isAuthBundle (v : jsvalue) : option auth_bundle :=
  if isRecord v then
    match hasValidTokenFields v, isAuthUser (field v "user"), isLoginSession (field v "session") with
    | Some (t, k, e), Some u, Some s => Some (AuthBundle t k e u s)
    | _, _, _ => None
    end
  else None.

Record token_rotation := TokenRotation {
  r_access_token : jsstr;
  r_token_type : jsstr;
  r_access_expires_at : number;
  r_session : login_session;
}.

Definition isAuthTokenRotation (v : jsvalue) : option token_rotation :=
  if isRecord v then
    match hasValidTokenFields v, isLoginSession (field v "session") with
    | Some (t, k, e), Some s =>
        if (k === "Bearer") && current_session s then Some (TokenRotation t k e s) else None
    | _, _ => None
    end
  else None.

(** * Synchronization of tabs *)

Inductive sync_kind := SAuthenticated | SSignedOut.

Record sync_event := SyncEvent {
  ev_kind : sync_kind;
  ev_sid : jsstr;
  ev_source : jsstr;
  ev_nonce : jsstr;
  ev_timestamp : number;
}.

Definition isAuthSessionSyncEvent (v : jsvalue) : option sync_event :=
  if isRecord v then
    let kind := match field v "kind" with
                | JStr k => if k === "authenticated" then Some SAuthenticated
                            else if k === "signed_out" then Some SSignedOut else None
                | _ => None
                end in
    match kind, field v "sid", field v "source", field v "nonce", field v "timestamp" with
    | Some k, JStr s, JStr src, JStr n, JNum t =>
        if truthy s then Some (SyncEvent k s src n t) else None
    | _, _, _, _, _ => None
    end
  else None.

(** [deliver]: the event that reaches the listener, if any. *)
Definition deliver (authSyncSource : jsstr) (now : number) (v : jsvalue) : option sync_event :=
  match isAuthSessionSyncEvent v with
  | Some e =>
      if negb (str_eqb (ev_source e) authSyncSource)
         && num_ltb (num_abs (num_sub now (ev_timestamp e))) (num_of_Z 60000)
      then Some e else None
  | None => None
  end.

(** * The module state *)

Inductive transient_cause := Superseded | FailedWith (detail : jsvalue).

Inductive refresh_outcome :=
| Authenticated (b : auth_bundle)
| Anonymous
| TransientError (c : transient_cause)
| OutOfSync (code : jsstr).

(** The suspension points of a refresh: before its next request, waiting for the
    response, waiting out a race, finished, or rejected by the browser lock. *)
Inductive phase :=
| PStart (raceAttempt : nat) (allowMismatchRetry : bool)
| PRequested (raceAttempt : nat) (allowMismatchRetry : bool) (expectedSID : option jsstr)
| PWaiting (raceAttempt : nat) (allowMismatchRetry : bool)
| PDone (o : refresh_outcome)
| PRejected.

Record refresh_run := RefreshRun { refreshEpoch : nat; r_phase : phase }.

(** The store, [authEpoch], the events published (kind and session) and
    [refreshPromise]. *)
Record auth_state := AuthState {
  a_store : auth_store;
  a_epoch : nat;
  a_events : list (sync_kind * jsstr);
  a_refresh : option refresh_run;
}.

Definition initial_state : auth_state := AuthState initial_store 0 [] None.

Definition with_store (s : auth_store) (w : auth_state) : auth_state :=
  AuthState s (a_epoch w) (a_events w) (a_refresh w).
Definition next_epoch (w : auth_state) : auth_state :=
  AuthState (a_store w) (S (a_epoch w)) (a_events w) (a_refresh w).
Definition with_phase (r : refresh_run) (p : phase) (w : auth_state) : auth_state :=
  AuthState (a_store w) (a_epoch w) (a_events w) (Some (RefreshRun (refreshEpoch r) p)).

(** [publishAuthSessionEvent]; an event without a session is not sent. *)
Definition publishAuthSessionEvent (k : sync_kind) (s : jsstr) (w : auth_state) : auth_state :=
  if truthy s
  then AuthState (a_store w) (a_epoch w) (a_events w ++ [(k, s)]) (a_refresh w)
  else w.

(** [useAuthStore.getState().auth.session?.sid]. *)
Definition current_sid (w : auth_state) : option jsstr :=
  match s_session (a_store w) with Some s => Some (sid s) | None => None end.

(** * Operations *)

Definition applyAuthBundle (b : auth_bundle) (synchronizeTabs : bool) (w : auth_state)
  : auth_state :=
  let previousSID := current_sid w in
  let w := next_epoch w in
  let w := with_store (setBundle b (a_store w)) w in
  let changed := match previousSID with
                 | Some p => negb (str_eqb p (sid (b_session b)))
                 | None => true
                 end in
  if synchronizeTabs && changed
  then publishAuthSessionEvent SAuthenticated (sid (b_session b)) w else w.

Inductive rotation_error := InvalidRotation | NoActiveSession | SessionMismatch.

Definition applyAuthRotation (v : jsvalue) (w : auth_state) : result rotation_error auth_state :=
  match isAuthTokenRotation v with
  | None => Err InvalidRotation
  | Some r =>
      match s_user (a_store w), s_session (a_store w) with
      | Some user, Some session =>
          if negb (str_eqb (sid (r_session r)) (sid session)) then Err SessionMismatch
          else Ok (applyAuthBundle
                     (AuthBundle (r_access_token r) (r_token_type r) (r_access_expires_at r) user
                        (r_session r)) false w)
      | _, _ => Err NoActiveSession
      end
  end.

Definition clearAuthentication (synchronizeTabs : bool) (b : bootstrap_state) (w : auth_state)
  : auth_state :=
  let s := current_sid w in
  let w := next_epoch w in
  let w := with_store (reset b (a_store w)) w in
  match s with
  | Some s => if synchronizeTabs && truthy s then publishAuthSessionEvent SSignedOut s w else w
  | None => w
  end.

(** ** One refresh *)

Definition refreshRaceDelays : list Z := [80; 200; 500]%Z.

Record http_response := HttpResponse {
  h_status : Z;
  h_data : jsvalue;
  h_error : jsvalue;
}.

(** [runtime.clear] of [runRefresh]; a default second argument is [complete]. *)
Definition runtime_clear (synchronizeTabs : bool) (b : option bootstrap_state) (w : auth_state)
  : auth_state :=
  match synchronizeTabs, b with
  | false, Some BIdle => with_store (reset BIdle (a_store w)) w
  | _, _ => clearAuthentication synchronizeTabs
              (match b with Some b => b | None => BComplete end) w
  end.

Definition isCurrent (r : refresh_run) (w : auth_state) : bool :=
  (a_epoch w =? refreshEpoch r)%nat.

(** [code]: a string code of the response. *)
Definition response_code (h : http_response) : option jsstr :=
  match field (h_data h) "code" with JStr c => Some c | _ => None end.

Definition code_is (c : option jsstr) (s : string) : bool :=
  match c with Some c => c === s | None => false end.

(** The bundle of a successful response. *)
Definition response_bundle (h : http_response) : option auth_bundle :=
  match field (h_data h) "success" with
  | JBool true => isAuthBundle (field (h_data h) "data")
  | _ => None
  end.

(** What follows the response of a current refresh: the new state and phase. *)
Definition handle_response (raceAttempt : nat) (allowMismatchRetry : bool) (h : http_response)
    (w : auth_state) : auth_state * phase :=
  let code := response_code h in
  match response_bundle h with
  | Some bundle => (applyAuthBundle bundle false w, PDone (Authenticated bundle))
  | None =>
      let code_or (d : string) := match code with Some c => c | None => js d end in
      if (h_status h =? 409)%Z && code_is code "AUTH_REFRESH_RACE" then
        match refreshRaceDelays !! raceAttempt with
        | Some _ => (w, PWaiting raceAttempt allowMismatchRetry)
        | None => (runtime_clear false None w, PDone (OutOfSync (code_or "AUTH_REFRESH_RACE"%string)))
        end
      else if (h_status h =? 409)%Z && code_is code "AUTH_SESSION_MISMATCH" then
        if allowMismatchRetry then (runtime_clear false (Some BIdle) w, PStart 0 false)
        else (runtime_clear false None w, PDone (OutOfSync (code_or "AUTH_SESSION_MISMATCH"%string)))
      else if (h_status h =? 401)%Z then (runtime_clear true None w, PDone Anonymous)
      else if (h_status h =? 0)%Z || (500 <=? h_status h)%Z || (h_status h =? 429)%Z then
        (with_store (setBootstrapState BIdle (a_store w)) w,
         PDone (TransientError (FailedWith (or_default (h_error h) (h_data h)))))
      else
        (runtime_clear false None w, PDone (OutOfSync (code_or "AUTH_INVALID_REFRESH_RESPONSE"%string)))
  end.

(** ** Resolving authentication *)

(** [!x] on an optional number. *)
Definition falsy_number (n : number) : bool :=
  match n with SpecFloat.S754_zero _ | SpecFloat.S754_nan => true | _ => false end.

(** [now] is [Math.floor(Date.now() / 1000)]. *)
Definition currentValidAuthBundle (now : number) (w : auth_state) : option auth_bundle :=
  let s := a_store w in
  match s_user s, s_accessToken s, s_accessExpiresAt s, s_session s with
  | Some user, Some token, Some expires, Some session =>
      if negb (truthy token) || falsy_number expires || num_leb expires now then None
      else Some (AuthBundle token (js "Bearer") expires user session)
  | _, _, _, _ => None
  end.

(** [refreshAuthentication]: join the refresh in flight, or start one. *)
Definition refreshAuthentication (w : auth_state) : auth_state :=
  match a_refresh w with
  | Some _ => w
  | None => AuthState (a_store w) (a_epoch w) (a_events w)
              (Some (RefreshRun (a_epoch w) (PStart 0 true)))
  end.

(** The outcome at once, or [None] when it is that of the refresh in flight. *)
Definition resolveAuthentication (now : number) (w : auth_state)
  : auth_state * option refresh_outcome :=
  match currentValidAuthBundle now w with
  | Some b => (with_store (setBootstrapState BComplete (a_store w)) w, Some (Authenticated b))
  | None =>
      let stale := match s_user (a_store w), s_session (a_store w) with
                   | Some _, Some _ => true
                   | _, _ => false
                   end in
      match s_bootstrapState (a_store w), stale with
      | BComplete, false => (w, Some Anonymous)
      | _, _ =>
          (refreshAuthentication (with_store (setBootstrapState BChecking (a_store w)) w), None)
      end
  end.

(** The pair read from one part of a cookie header. *)
Definition cookie_part (part : jsstr) : option (jsstr * jsstr) :=
  match find_index (Z.eqb 61) part with
  | Some i => Some (trim (slice part 0 i), trim (slice part (i + 1) (length part)))
  | None => None
  end.

Definition readCookie (cookieHeader name : jsstr) : option jsstr :=
  match find (fun p : option (jsstr * jsstr) =>
                match p with Some (k, _) => str_eqb k name | None => false end)
          (map cookie_part (split_char 59 cookieHeader)) with
  | Some (Some (_, v)) => Some v
  | _ => None
  end.

Definition SESSION_HINT_COOKIE_NAME : string := "new_api_has_session".

(** [cookie] is [document.cookie], absent without a document. *)
Definition hasSessionHint (cookie : option jsstr) : bool :=
  match cookie with
  | None => true
  | Some c => match readCookie c (js SESSION_HINT_COOKIE_NAME) with Some _ => true | None => false end
  end.

Definition bootstrapAuthentication (cookie : option jsstr) (now : number) (w : auth_state)
  : auth_state * option refresh_outcome :=
  let empty := match s_user (a_store w), s_session (a_store w) with
               | None, None => true
               | _, _ => false
               end in
  match currentValidAuthBundle now w with
  | None => if negb (hasSessionHint cookie) && empty then (w, Some Anonymous)
            else resolveAuthentication now w
  | Some _ => resolveAuthentication now w
  end.

(** [Authorization] of [getCommonHeaders]. *)
Definition getCommonHeaders (w : auth_state) : list (jsstr * jsstr) :=
  let content := (js "Content-Type", js "application/json") in
  match s_accessToken (a_store w) with
  | Some t => if truthy t then [content; (js "Authorization", js "Bearer " ++ t)] else [content]
  | None => [content]
  end.

(** [auth.accessToken && auth.accessExpiresAt && auth.accessExpiresAt > limit]. *)
Definition token_outlives (limit : number) (w : auth_state) : bool :=
  match s_accessToken (a_store w), s_accessExpiresAt (a_store w) with
  | Some t, Some e => truthy t && negb (falsy_number e) && num_ltb limit e
  | _, _ => false
  end.

Definition refresh_margin : number := num_of_Z 60.

(** [getFreshAuthHeaders] up to its [await]: the headers of a token that lives for
    another minute, or a refresh to wait for. *)
Definition getFreshAuthHeaders (now : number) (w : auth_state)
  : auth_state * option (list (jsstr * jsstr)) :=
  if token_outlives (num_add now refresh_margin) w then (w, Some (getCommonHeaders w))
  else (refreshAuthentication w, None).

(** The two errors thrown after the [await]. *)
Inductive headers_error := RequestFailed (c : transient_cause) | SessionExpired.

(** [getFreshAuthHeaders] after its [await] of the refresh. *)
Definition fresh_headers_after (o : refresh_outcome) (now : number) (w : auth_state)
  : result headers_error (list (jsstr * jsstr)) :=
  match o with
  | Authenticated _ => Ok (getCommonHeaders w)
  | _ =>
      if token_outlives now w then Ok (getCommonHeaders w)
      else match o with
           | TransientError c => Err (RequestFailed c)
           | _ => Err SessionExpired
           end
  end.

(** * The transition system *)

Inductive action :=
(* the refresh *)
| ARefresh                         (* a call of [refreshAuthentication] *)
| ABegin                           (* the loop reaches its request *)
| AResponse (h : http_response)    (* the response arrives *)
| AWaited                          (* the delay of a race is over *)
| ASettle                          (* the promise settles and is dropped *)
| ALockRejected                    (* the browser refuses the lock *)
(* the rest of the application *)
| ABundle (b : auth_bundle) (synchronizeTabs : bool)
| ARotation (v : jsvalue)
| AClear (synchronizeTabs : bool) (b : bootstrap_state)
| ASetUser (u : option auth_user)
| ASetPending (p : option jsvalue)
| ASetBootstrap (b : bootstrap_state).

(** The steps of the refresh loop. *)
Definition refresh_step (a : action) (r : refresh_run) (w : auth_state) : option auth_state :=
  match a, r_phase r with
  | ABegin, PStart n m =>
      Some (with_phase r
              (if isCurrent r w then PRequested n m (current_sid w)
               else PDone (TransientError Superseded)) w)
  | AResponse h, PRequested n m _ =>
      if isCurrent r w then
        let '(w', p) := handle_response n m h w in Some (with_phase r p w')
      else Some (with_phase r (PDone (TransientError Superseded)) w)
  | AWaited, PWaiting n m => Some (with_phase r (PStart (S n) m) w)
  | ALockRejected, PStart 0 true => Some (with_phase r PRejected w)
  | ASettle, (PDone _ | PRejected) =>
      Some (AuthState (a_store w) (a_epoch w) (a_events w) None)
  | _, _ => None
  end.

Definition step (a : action) (w : auth_state) : option auth_state :=
  match a with
  | ARefresh => Some (refreshAuthentication w)
  | ABegin | AResponse _ | AWaited | ASettle | ALockRejected =>
      match a_refresh w with Some r => refresh_step a r w | None => None end
  | ABundle b sync => Some (applyAuthBundle b sync w)
  | ARotation v => Some (match applyAuthRotation v w with Ok w' => w' | Err _ => w end)
  | AClear sync b => Some (clearAuthentication sync b w)
  | ASetUser u => Some (with_store (setUser u (a_store w)) w)
  | ASetPending p => Some (with_store (setPendingLoginVerification p (a_store w)) w)
  | ASetBootstrap b => Some (with_store (setBootstrapState b (a_store w)) w)
  end.

Inductive steps : auth_state -> list action -> auth_state -> Prop :=
| steps_nil w : steps w [] w
| steps_cons w a w1 l w' : step a w = Some w1 -> steps w1 l w' -> steps w (a :: l) w'.

Definition reachable (w : auth_state) : Prop := exists l, steps initial_state l w.
