(* ===== verification/AuthFacts.v ===== *)
(** Theorems about the login session: what the store keeps, what a refresh may do
    to it and when, and how often a refresh asks the server. *)
From Stdlib Require Import ZArith Lia Bool String.
From stdpp Require Import base list option.
From S2P Require Import Prelude JsString JsNumber Types JsValue AuthSession.

(** * Invariants *)

(** Token, expiry and session are present together. *)
Definition coherent (s : auth_store) : Prop :=
  (s_accessToken s = None <-> s_session s = None) /\
  (s_accessExpiresAt s = None <-> s_session s = None).

(** The race counter stays within the table of delays. *)
Definition phase_ok (p : phase) : Prop :=
  match p with
  | PStart n _ | PRequested n _ _ => n <= 3
  | PWaiting n _ => n < 3
  | PDone _ | PRejected => True
  end.

Record auth_ok (w : auth_state) : Prop := {
  ok_coherent : coherent (a_store w);
  ok_epoch : forall r, a_refresh w = Some r -> refreshEpoch r <= a_epoch w;
  ok_phase : forall r, a_refresh w = Some r -> phase_ok (r_phase r);
}.

Lemma publish_store k s w : a_store (publishAuthSessionEvent k s w) = a_store w.
Proof. unfold publishAuthSessionEvent. by destruct (truthy s). Qed.
Lemma publish_epoch k s w : a_epoch (publishAuthSessionEvent k s w) = a_epoch w.
Proof. unfold publishAuthSessionEvent. by destruct (truthy s). Qed.
Lemma publish_refresh k s w : a_refresh (publishAuthSessionEvent k s w) = a_refresh w.
Proof. unfold publishAuthSessionEvent. by destruct (truthy s). Qed.

(** The effect of the two operations that replace the session. *)
Lemma apply_effect b sync w :
  a_store (applyAuthBundle b sync w) = setBundle b (a_store w) /\
  a_epoch (applyAuthBundle b sync w) = S (a_epoch w) /\
  a_refresh (applyAuthBundle b sync w) = a_refresh w.
Proof.
  unfold applyAuthBundle. cbv zeta. destruct (sync && _);
    rewrite ?publish_store, ?publish_epoch, ?publish_refresh; done.
Qed.

Lemma clear_effect sync b w :
  a_store (clearAuthentication sync b w) = reset b (a_store w) /\
  a_epoch (clearAuthentication sync b w) = S (a_epoch w) /\
  a_refresh (clearAuthentication sync b w) = a_refresh w.
Proof.
  unfold clearAuthentication. cbv zeta. destruct (current_sid w) as [s|]; [|done].
  destruct (sync && truthy s); rewrite ?publish_store, ?publish_epoch, ?publish_refresh; done.
Qed.

Lemma rotation_effect v w w' :
  applyAuthRotation v w = Ok w' ->
  exists r user session, isAuthTokenRotation v = Some r /\
    s_user (a_store w) = Some user /\ s_session (a_store w) = Some session /\
    sid (r_session r) = sid session /\
    w' = applyAuthBundle (AuthBundle (r_access_token r) (r_token_type r) (r_access_expires_at r)
           user (r_session r)) false w.
Proof.
  unfold applyAuthRotation. destruct (isAuthTokenRotation v) as [r|]; [|done].
  destruct (s_user (a_store w)) as [u|]; [|done].
  destruct (s_session (a_store w)) as [s|]; [|done].
  destruct (str_eqb_reflect (sid (r_session r)) (sid s)) as [E|]; [|done].
  intros [= <-]. eauto 10.
Qed.

(** The effect of a response on the store and the epoch. *)
Inductive response_effect (w : auth_state) : auth_state -> phase -> Prop :=
| RE_accept b : response_effect w (applyAuthBundle b false w) (PDone (Authenticated b))
| RE_wait n m : n < 3 -> response_effect w w (PWaiting n m)
| RE_retry : response_effect w (with_store (reset BIdle (a_store w)) w) (PStart 0 false)
| RE_anonymous : response_effect w (clearAuthentication true BComplete w) (PDone Anonymous)
| RE_transient d :
    response_effect w (with_store (setBootstrapState BIdle (a_store w)) w)
      (PDone (TransientError (FailedWith d)))
| RE_out c : response_effect w (clearAuthentication false BComplete w) (PDone (OutOfSync c)).

Lemma handle_response_effect n m h w w' p :
  handle_response n m h w = (w', p) -> response_effect w w' p.
Proof.
  unfold handle_response. cbv zeta.
  destruct (response_bundle h) as [b|]; [intros [= <- <-]; constructor|].
  destruct (_ && code_is _ "AUTH_REFRESH_RACE").
  { destruct (refreshRaceDelays !! n) as [z|] eqn:E; intros [= <- <-]; constructor.
    apply lookup_lt_Some in E. done. }
  destruct (_ && code_is _ "AUTH_SESSION_MISMATCH").
  { destruct m; intros [= <- <-]; constructor. }
  destruct (_ =? 401)%Z; [intros [= <- <-]; constructor|].
  destruct (_ || _); intros [= <- <-]; constructor.
Qed.

Lemma coherent_bundle b s : coherent (setBundle b s).
Proof. done. Qed.
Lemma coherent_reset b s : coherent (reset b s).
Proof. done. Qed.

Lemma response_effect_ok w w' p : response_effect w w' p -> coherent (a_store w) ->
  coherent (a_store w') /\ a_epoch w <= a_epoch w' /\ phase_ok p.
Proof.
  intros H Hc. destruct H.
  - destruct (apply_effect b false w) as (-> & -> & _). split_and!; [done|lia|done].
  - done.
  - split_and!; [done|done|simpl; lia].
  - destruct (clear_effect true BComplete w) as (-> & -> & _). split_and!; [done|lia|done].
  - done.
  - destruct (clear_effect false BComplete w) as (-> & -> & _). split_and!; [done|lia|done].
Qed.

Lemma auth_ok_env w w' :
  auth_ok w -> coherent (a_store w') -> a_epoch w <= a_epoch w' -> a_refresh w' = a_refresh w ->
  auth_ok w'.
Proof.
  intros [_ He Hp] Hc Hle Hr. split; [done| |]; intros r; rewrite Hr; intros E.
  - specialize (He r E). lia.
  - auto.
Qed.

Lemma auth_ok_refresh_step a r w w' :
  auth_ok w -> a_refresh w = Some r -> refresh_step a r w = Some w' -> auth_ok w'.
Proof.
  intros [Hc He Hp] Hr H. specialize (He r Hr). specialize (Hp r Hr).
  unfold refresh_step in H. destruct a; try done.
  - destruct (r_phase r) as [n m| | | |] eqn:E; try done. injection H as <-.
    split; [done| |]; intros r' [= <-]; simpl; [lia|]. by destruct (isCurrent r w).
  - destruct (r_phase r) as [|n m x| | |] eqn:E; try done. destruct (isCurrent r w) eqn:Ec.
    + destruct (handle_response n m h w) as [w1 p] eqn:Eh. injection H as <-.
      apply handle_response_effect in Eh. destruct (response_effect_ok _ _ _ Eh Hc) as (H1 & H2 & H3).
      split; [done| |]; intros r' [= <-]; simpl; [lia|done].
    + injection H as <-. split; [done| |]; intros r' [= <-]; simpl; [lia|done].
  - destruct (r_phase r) as [| |n m| |] eqn:E; try done. injection H as <-.
    split; [done| |]; intros r' [= <-]; simpl in *; lia.
  - destruct (r_phase r); try done; injection H as <-; split; done.
  - destruct (r_phase r) as [[|n] []| | | |]; try done. injection H as <-.
    split; [done| |]; intros r' [= <-]; simpl; [lia|done].
Qed.

Lemma auth_ok_step a w w' : auth_ok w -> step a w = Some w' -> auth_ok w'.
Proof.
  intros Hok H. destruct a; cbn [step] in H;
    try (destruct (a_refresh w) as [r|] eqn:E; [|done]; by eapply auth_ok_refresh_step);
    injection H as <-.
  - unfold refreshAuthentication. destruct (a_refresh w) eqn:E; [done|].
    destruct Hok as [Hc _ _]. split; [done| |]; intros r' [= <-]; simpl; lia.
  - destruct (apply_effect b synchronizeTabs w) as (H1 & H2 & H3).
    eapply auth_ok_env; [done|by rewrite H1|rewrite H2; lia|done].
  - destruct (applyAuthRotation v w) as [w'|] eqn:E; [|done].
    apply rotation_effect in E as (r & u & s & _ & _ & _ & _ & ->).
    match goal with |- auth_ok (applyAuthBundle ?b ?x w) =>
      destruct (apply_effect b x w) as (H1 & H2 & H3) end.
    eapply auth_ok_env; [done|by rewrite H1|rewrite H2; lia|done].
  - destruct (clear_effect synchronizeTabs b w) as (H1 & H2 & H3).
    eapply auth_ok_env; [done|by rewrite H1|rewrite H2; lia|done].
  - eapply auth_ok_env; [done|apply Hok|done|done].
  - eapply auth_ok_env; [done|apply Hok|done|done].
  - eapply auth_ok_env; [done|apply Hok|done|done].
Qed.

Lemma auth_ok_steps w l w' : steps w l w' -> auth_ok w -> auth_ok w'.
Proof. induction 1; intros; [done|]. eauto using auth_ok_step. Qed.

Lemma auth_ok_reachable w : reachable w -> auth_ok w.
Proof. intros [l H]. eapply auth_ok_steps; [exact H|]. by split. Qed.

(** * Superseded refreshes *)

(** The actions of the refresh loop. *)
Definition refresh_action (a : action) : Prop :=
  match a with
  | ABegin | AResponse _ | AWaited | ASettle | ALockRejected => True
  | _ => False
  end.

(** What other parts of the application see. *)
Definition same_session (w w' : auth_state) : Prop :=
  a_store w' = a_store w /\ a_epoch w' = a_epoch w /\ a_events w' = a_events w.

(** The refresh in flight, if any, was overtaken. *)
Definition overtaken (w : auth_state) : Prop :=
  forall r, a_refresh w = Some r -> isCurrent r w = false.

Lemma overtaken_step a w w' :
  overtaken w -> refresh_action a -> step a w = Some w' ->
  same_session w w' /\ overtaken w'.
Proof.
  intros Ho Ha H.
  assert (Hr : exists r, a_refresh w = Some r /\ refresh_step a r w = Some w').
  { destruct a; try done; cbn [step] in H; (destruct (a_refresh w) as [r|]; [by eexists|done]). }
  destruct Hr as (r & Hr & Hs). specialize (Ho r Hr). unfold refresh_step in Hs.
  assert (Hph : forall p, overtaken (with_phase r p w)).
  { intros p r' [= <-]. exact Ho. }
  destruct a; try done; destruct (r_phase r) as [[|n] []| | | |]; try done;
    rewrite ?Ho in Hs; injection Hs as <-; (split; [done|]); try apply Hph; by intros r'.
Qed.

Lemma overtaken_steps w l w' :
  steps w l w' -> overtaken w -> Forall refresh_action l -> same_session w w'.
Proof.
  induction 1 as [|w a w1 l w' H _ IH]; intros Ho Hl; [done|].
  apply list.Forall_cons in Hl as [Ha Hl].
  destruct (overtaken_step _ _ _ Ho Ha H) as [(E1 & E2 & E3) Ho1].
  destruct (IH Ho1 Hl) as (F1 & F2 & F3). split_and!; congruence.
Qed.

Lemma overtaken_next w w' :
  auth_ok w -> a_epoch w' = S (a_epoch w) -> a_refresh w' = a_refresh w -> overtaken w'.
Proof.
  intros [_ He _] Hep Hr r Hr'. rewrite Hr in Hr'. specialize (He r Hr').
  unfold isCurrent. apply Nat.eqb_neq. lia.
Qed.

(** C37. A newer login wins over a refresh in flight: after [applyAuthBundle] or
    [clearAuthentication], the refresh that was already running, whatever the
    server answers it and however it ends, leaves the store, the epoch and the
    published events as the newer operation left them. *)
Theorem newer_session_wins w l w' :
  reachable w -> Forall refresh_action l ->
  (forall b sync, steps (applyAuthBundle b sync w) l w' ->
     same_session (applyAuthBundle b sync w) w' /\ a_store w' = setBundle b (a_store w)) /\
  (forall sync b, steps (clearAuthentication sync b w) l w' ->
     same_session (clearAuthentication sync b w) w' /\ a_store w' = reset b (a_store w)).
Proof.
  intros Hr Hl. apply auth_ok_reachable in Hr. split.
  - intros b sync H. destruct (apply_effect b sync w) as (E1 & E2 & E3).
    assert (Hs : same_session (applyAuthBundle b sync w) w').
    { eapply overtaken_steps; [exact H| |done]. by eapply overtaken_next. }
    split; [done|]. destruct Hs as (-> & _). done.
  - intros sync b H. destruct (clear_effect sync b w) as (E1 & E2 & E3).
    assert (Hs : same_session (clearAuthentication sync b w) w').
    { eapply overtaken_steps; [exact H| |done]. by eapply overtaken_next. }
    split; [done|]. destruct Hs as (-> & _). done.
Qed.

(** * Coherence *)

(** C38. In every reachable state the token, its expiry and the session are present
    together or absent together. *)
Theorem session_coherent w : reachable w -> coherent (a_store w).
Proof. intros H. apply auth_ok_reachable in H. apply H. Qed.

(** * The number of requests *)

(** How many requests a refresh in this phase may still send. *)
Definition budget (p : phase) : nat :=
  match p with
  | PStart n m => 4 - n + (if m then 4 else 0)
  | PRequested n m _ | PWaiting n m => 3 - n + (if m then 4 else 0)
  | PDone _ | PRejected => 0
  end.
Definition refresh_budget (w : auth_state) : nat :=
  match a_refresh w with Some r => budget (r_phase r) | None => 0 end.

(** Whether the action sends a request. *)
Definition sends_request (a : action) (w : auth_state) : nat :=
  match a, a_refresh w with
  | ABegin, Some r =>
      match r_phase r with PStart _ _ => if isCurrent r w then 1 else 0 | _ => 0 end
  | _, _ => 0
  end.

(** The requests sent along a sequence of actions. *)
Fixpoint requests (l : list action) (w : auth_state) : nat :=
  match l with
  | [] => 0
  | a :: l' => sends_request a w + match step a w with Some w' => requests l' w' | None => 0 end
  end.

Lemma budget_response w w1 n m s h p :
  handle_response n m h w = (w1, p) -> budget p <= budget (PRequested n m s).
Proof.
  unfold handle_response. cbv zeta.
  destruct (response_bundle h); [intros [= _ <-]; simpl; lia|].
  destruct (_ && code_is _ "AUTH_REFRESH_RACE").
  { destruct (refreshRaceDelays !! n); intros [= _ <-]; simpl; lia. }
  destruct (_ && code_is _ "AUTH_SESSION_MISMATCH").
  { destruct m; intros [= _ <-]; simpl; lia. }
  destruct (_ =? 401)%Z; [intros [= _ <-]; simpl; lia|].
  destruct (_ || _); intros [= _ <-]; simpl; lia.
Qed.

Lemma budget_step a w w' :
  auth_ok w -> a <> ARefresh -> step a w = Some w' ->
  sends_request a w + refresh_budget w' <= refresh_budget w.
Proof.
  intros Hok Hne H. unfold refresh_budget.
  assert (Henv : a_refresh w' = a_refresh w -> ~ refresh_action a ->
    sends_request a w + match a_refresh w' with Some r => budget (r_phase r) | None => 0 end <=
    match a_refresh w with Some r => budget (r_phase r) | None => 0 end).
  { intros -> Hn. unfold sends_request. destruct a; try lia. by destruct Hn. }
  destruct a as [| |h| | | |b sync|v|sync b|u|p|b]; try done; cbn [step] in H.
  6: { injection H as <-. apply Henv; [apply apply_effect|by intros []]. }
  6: { injection H as <-. apply Henv; [|by intros []]. destruct (applyAuthRotation v w) eqn:E; [|done].
       apply rotation_effect in E as (? & ? & ? & _ & _ & _ & _ & ->). apply apply_effect. }
  6: { injection H as <-. apply Henv; [apply clear_effect|by intros []]. }
  6-8: injection H as <-; apply Henv; [done|by intros []].
  all: destruct (a_refresh w) as [r|] eqn:Er; [|done]; destruct Hok as [_ _ Hp]; specialize (Hp r Er);
    unfold sends_request; rewrite ?Er; unfold refresh_step in H.
  - destruct (r_phase r) as [n m| | | |]; try done. injection H as <-.
    destruct (isCurrent r w); simpl in *; lia.
  - destruct (r_phase r) as [|n m s| | |]; try done. destruct (isCurrent r w).
    + destruct (handle_response n m h w) as [w1 p] eqn:Eh. injection H as <-.
      apply (budget_response _ _ _ _ s) in Eh. simpl in *. lia.
    + injection H as <-. simpl. lia.
  - destruct (r_phase r) as [| |n m| |]; try done. injection H as <-. simpl in *. lia.
  - destruct (r_phase r); try done; injection H as <-; simpl; lia.
  - destruct (r_phase r) as [[|n] []| | | |]; try done. injection H as <-. simpl. lia.
Qed.

Lemma requests_budget l : forall w, auth_ok w -> ARefresh ∉ l -> requests l w <= refresh_budget w.
Proof.
  induction l as [|a l IH]; intros w Hok Hn; simpl; [lia|].
  rewrite not_elem_of_cons in Hn. destruct Hn as [Ha Hl].
  destruct (step a w) as [w'|] eqn:E.
  - pose proof (budget_step a w w' Hok ltac:(congruence) E).
    pose proof (IH w' (auth_ok_step _ _ _ Hok E) Hl). lia.
  - unfold sends_request, refresh_budget. destruct a; try lia. cbn [step] in E.
    destruct (a_refresh w) as [r|]; [|lia]. unfold refresh_step in E.
    destruct (r_phase r); try lia. done.
Qed.

(** C39. One refresh sends at most eight requests: four for the races of the first
    attempt and four more after the one retry of a session mismatch, whatever the
    server answers and whatever else happens in between. *)
Theorem refresh_requests_bounded w l :
  reachable w -> a_refresh w = None -> ARefresh ∉ l ->
  requests l (refreshAuthentication w) <= 8.
Proof.
  intros Hr Hn Hl. apply auth_ok_reachable in Hr.
  assert (Hok : auth_ok (refreshAuthentication w)) by (by eapply (auth_ok_step ARefresh)).
  pose proof (requests_budget l _ Hok Hl) as H. unfold refresh_budget, refreshAuthentication in *.
  rewrite Hn in *. simpl in H. lia.
Qed.

(** * Outcomes *)

Lemma apply_local b w : a_events (applyAuthBundle b false w) = a_events w.
Proof. done. Qed.

Lemma clear_local b w : a_events (clearAuthentication false b w) = a_events w.
Proof. unfold clearAuthentication. cbv zeta. by destruct (current_sid w). Qed.

(** The credentials in the store. *)
Definition same_credentials (s s' : auth_store) : Prop :=
  s_user s' = s_user s /\ s_accessToken s' = s_accessToken s /\
  s_accessExpiresAt s' = s_accessExpiresAt s /\ s_session s' = s_session s.

(** What the end of a refresh says about the response and does to the session:
    credentials are replaced only by a validated bundle; they are dropped and the
    sign-out is announced to other tabs only on status 401; a failure that may
    pass (no status, 429, 5xx) keeps them and allows another try; anything else
    drops them in this tab only. *)
Theorem refresh_outcome_effect n m h w w' o :
  handle_response n m h w = (w', PDone o) ->
  match o with
  | Authenticated b =>
      response_bundle h = Some b /\ a_store w' = setBundle b (a_store w) /\ a_events w' = a_events w
  | Anonymous =>
      h_status h = 401%Z /\ a_store w' = reset BComplete (a_store w) /\
      a_events w' = a_events w ++ match current_sid w with
                                  | Some s => if truthy s then [(SSignedOut, s)] else []
                                  | None => []
                                  end
  | TransientError _ =>
      (h_status h = 0 \/ h_status h = 429 \/ 500 <= h_status h)%Z /\
      same_credentials (a_store w) (a_store w') /\ s_bootstrapState (a_store w') = BIdle /\
      a_events w' = a_events w
  | OutOfSync _ => a_store w' = reset BComplete (a_store w) /\ a_events w' = a_events w
  end.
Proof.
  unfold handle_response. cbv zeta.
  destruct (response_bundle h) as [b|]; [intros [= <- <-]; split_and!; [done|apply apply_effect|done]|].
  assert (Hout : a_store (runtime_clear false None w) = reset BComplete (a_store w) /\
                           a_events (runtime_clear false None w) = a_events w).
  { split; [apply (clear_effect false BComplete w)|apply clear_local]. }
  destruct (_ && code_is _ "AUTH_REFRESH_RACE").
  { destruct (refreshRaceDelays !! n); intros [= <- <-]. exact Hout. }
  destruct (_ && code_is _ "AUTH_SESSION_MISMATCH").
  { destruct m; intros [= <- <-]. exact Hout. }
  destruct (h_status h =? 401)%Z eqn:E401; bools.
  { intros [= <- <-]. split; [done|]. split; [apply (clear_effect true BComplete w)|].
    simpl. unfold clearAuthentication. cbv zeta. destruct (current_sid w) as [s|]; [|by rewrite app_nil_r].
    simpl. unfold publishAuthSessionEvent. destruct (truthy s); [done|by rewrite app_nil_r]. }
  destruct (_ || _) eqn:Et; intros [= <- <-]; [|exact Hout].
  split; [|done]. apply orb_true_iff in Et as [[Et|Et]%orb_true_iff|Et]; bools; lia.
Qed.

(** A rotation replaces the token of the session it belongs to and nothing else:
    it succeeds only for a valid rotation of the current session, and then the
    user and the session identifier are unchanged and no event is published. *)
Theorem rotation_keeps_session v w :
  match applyAuthRotation v w with
  | Ok w' =>
      exists r, isAuthTokenRotation v = Some r /\
        s_user (a_store w') = s_user (a_store w) /\ s_user (a_store w) <> None /\
        current_sid w' = current_sid w /\ s_accessToken (a_store w') = Some (r_access_token r) /\
        a_events w' = a_events w /\ a_epoch w' = S (a_epoch w)
  | Err InvalidRotation => isAuthTokenRotation v = None
  | Err NoActiveSession => s_user (a_store w) = None \/ s_session (a_store w) = None
  | Err SessionMismatch =>
      exists r, isAuthTokenRotation v = Some r /\ current_sid w <> Some (sid (r_session r))
  end.
Proof.
  destruct (applyAuthRotation v w) as [w'|e] eqn:E.
  - apply rotation_effect in E as (r & u & s & Hr & Hu & Hs & Hsid & ->). exists r.
    rewrite Hu. unfold current_sid. rewrite Hs. simpl. by rewrite Hsid.
  - unfold applyAuthRotation in E. destruct (isAuthTokenRotation v) as [r|]; [|by injection E as <-].
    unfold current_sid. destruct (s_user (a_store w)); [|injection E as <-; by left].
    destruct (s_session (a_store w)) as [s|]; [|injection E as <-; by right].
    destruct (str_eqb_reflect (sid (r_session r)) (sid s)) as [|Hne]; [done|].
    injection E as <-. exists r. split; [done|]. congruence.
Qed.

(** Resolving answers from memory only with unexpired credentials, answers
    anonymous only after a completed check without a stale session, and otherwise
    waits for a refresh. *)
Theorem resolve_answers now w :
  let '(w', answer) := resolveAuthentication now w in
  same_credentials (a_store w) (a_store w') /\
  match answer with
  | Some (Authenticated b) =>
      s_accessToken (a_store w) = Some (access_token b) /\
      s_user (a_store w) = Some (b_user b) /\ s_session (a_store w) = Some (b_session b) /\
      num_leb (access_expires_at b) now = false /\ a_refresh w' = a_refresh w
  | Some Anonymous =>
      w' = w /\ s_bootstrapState (a_store w) = BComplete /\
      (s_user (a_store w) = None \/ s_session (a_store w) = None)
  | Some _ => False
  | None => s_bootstrapState (a_store w') = BChecking /\ a_refresh w' <> None
  end.
Proof.
  unfold resolveAuthentication. destruct (currentValidAuthBundle now w) as [b|] eqn:E.
  - split; [done|]. unfold currentValidAuthBundle in E.
    destruct (s_user (a_store w)), (s_accessToken (a_store w)), (s_accessExpiresAt (a_store w)),
      (s_session (a_store w)); try done.
    destruct (negb _ || _ || _) eqn:Eb; [done|]. injection E as <-. bools. done.
  - assert (Href : forall s, a_refresh (refreshAuthentication (with_store s w)) <> None /\
                             a_store (refreshAuthentication (with_store s w)) = s).
    { intros s. unfold refreshAuthentication. simpl. destruct (a_refresh w) eqn:Er; simpl; rewrite ?Er; split; done. }
    destruct (Href (setBootstrapState BChecking (a_store w))) as [H1 H2].
    destruct (s_bootstrapState (a_store w)) eqn:Eb.
    1,2: rewrite H2; done.
    destruct (s_user (a_store w)) eqn:Eu, (s_session (a_store w)) eqn:Es; try (split_and!; auto; done).
    rewrite H2. split; [|done]. unfold same_credentials. simpl. by rewrite Eu, Es.
Qed.

(** A visitor without the session hint is not locked out: on the public boot path
    nothing is recorded and no request is made, and as soon as authentication
    matters a refresh is started. *)
Theorem hintless_visitor_recovers cookie now w :
  hasSessionHint cookie = false -> s_user (a_store w) = None -> s_session (a_store w) = None ->
  s_bootstrapState (a_store w) = BIdle ->
  bootstrapAuthentication cookie now w = (w, Some Anonymous) /\
  exists w', resolveAuthentication now w = (w', None) /\ a_refresh w' <> None.
Proof.
  intros Hh Hu Hs Hb.
  assert (Hc : currentValidAuthBundle now w = None)
    by (unfold currentValidAuthBundle; by rewrite Hu).
  split.
  - unfold bootstrapAuthentication. by rewrite Hc, Hh, Hu, Hs.
  - unfold resolveAuthentication. rewrite Hc, Hu, Hb. eexists. split; [done|].
    unfold refreshAuthentication. simpl. destruct (a_refresh w) eqn:Er; simpl; rewrite ?Er; done.
Qed.

(** When the browser refuses the lock of a refresh, the store is not told: it stays
    in the checking state, although the handler of that failure is meant to put it
    back to idle. *)
Theorem lock_rejection_keeps_checking w n :
  a_refresh w = None -> currentValidAuthBundle n w = None -> s_bootstrapState (a_store w) = BIdle ->
  exists w1 w2 w3, resolveAuthentication n w = (w1, None) /\
    step ALockRejected w1 = Some w2 /\ step ASettle w2 = Some w3 /\
    s_bootstrapState (a_store w3) = BChecking /\ a_refresh w3 = None.
Proof.
  intros Hr Hc Hb. unfold resolveAuthentication. rewrite Hc, Hb.
  unfold refreshAuthentication. simpl. rewrite Hr. by repeat eexists.
Qed.

(** A token in the store that outlives a limit is sent. *)
Lemma outliving_token limit w :
  token_outlives limit w = true ->
  exists t e, s_accessToken (a_store w) = Some t /\ s_accessExpiresAt (a_store w) = Some e /\
    num_ltb limit e = true /\ (js "Authorization", js "Bearer " ++ t) ∈ getCommonHeaders w.
Proof.
  unfold token_outlives, getCommonHeaders.
  destruct (s_accessToken (a_store w)) as [t|]; [|done].
  destruct (s_accessExpiresAt (a_store w)) as [e|]; [|done].
  intros H. bools. exists t, e. rewrite H. repeat split; [done|].
  rewrite !elem_of_cons. auto.
Qed.

(** The headers of a request made outside the shared client carry a usable token:
    without a wait they carry the token of the store and it has more than a minute
    to live; after a refresh that did not authenticate they are given only when
    the token of the store has not expired; otherwise an error that may pass is
    reported as such, and every other one as the end of the session. *)
Theorem fresh_headers_authorized now w :
  (let '(w', h) := getFreshAuthHeaders now w in
   match h with
   | Some h =>
       w' = w /\ exists t e, s_accessToken (a_store w) = Some t /\
         s_accessExpiresAt (a_store w) = Some e /\
         num_ltb (num_add now refresh_margin) e = true /\
         (js "Authorization", js "Bearer " ++ t) ∈ h
   | None => a_store w' = a_store w /\ a_refresh w' <> None
   end) /\
  forall o,
    match fresh_headers_after o now w with
    | Ok h =>
        (exists b, o = Authenticated b /\ h = getCommonHeaders w) \/
        (exists t e, s_accessToken (a_store w) = Some t /\ s_accessExpiresAt (a_store w) = Some e /\
           num_ltb now e = true /\ (js "Authorization", js "Bearer " ++ t) ∈ h)
    | Err (RequestFailed c) => o = TransientError c
    | Err SessionExpired => o = Anonymous \/ exists c, o = OutOfSync c
    end.
Proof.
  split.
  - unfold getFreshAuthHeaders. destruct (token_outlives _ w) eqn:E.
    + split; [done|]. by apply outliving_token.
    + unfold refreshAuthentication. by destruct (a_refresh w) eqn:Er; [rewrite Er|].
  - intros o. unfold fresh_headers_after.
    destruct o as [b| |c|c]; [by left; exists b| | |];
      (destruct (token_outlives now w) eqn:E; [right; by apply outliving_token|eauto]).
Qed.

(** * Examples *)

Definition sample_session : login_session :=
  LoginSession (js "s1") true (js "password") (js "ip") (js "ua") num_one num_one num_one.
Definition sample_user : auth_user := AuthUser num_one (js "root") num_one JNull.
Definition sample_bundle : auth_bundle :=
  AuthBundle (js "token") (js "Bearer") (num_of_Z 1000) sample_user sample_session.

Definition stale_response : http_response := HttpResponse 401 JNull JNull.

(** A login while a refresh waits for its response, which then is a 401. *)
Definition busy_state : auth_state :=
  AuthState initial_store 0 [] (Some (RefreshRun 0 (PRequested 0 true None))).

Lemma busy_reachable : reachable busy_state.
Proof.
  exists [ARefresh; ABegin]. eapply steps_cons; [reflexivity|].
  eapply steps_cons; [reflexivity|]. apply steps_nil.
Qed.

Lemma newer_session_wins_witness :
  exists w', steps (applyAuthBundle sample_bundle true busy_state) [AResponse stale_response; ASettle] w' /\
    a_store w' = setBundle sample_bundle initial_store.
Proof.
  eexists. split.
  - eapply steps_cons; [reflexivity|]. eapply steps_cons; [reflexivity|]. apply steps_nil.
  - eapply (proj1 (newer_session_wins busy_state [AResponse stale_response; ASettle] _
      busy_reachable ltac:(repeat constructor)) sample_bundle true).
    eapply steps_cons; [reflexivity|]. eapply steps_cons; [reflexivity|]. apply steps_nil.
Defined.

Lemma session_coherent_witness : coherent (a_store busy_state).
Proof. apply session_coherent. exact busy_reachable. Defined.

Definition race : http_response :=
  HttpResponse 409 (JObj [(js "code", JStr (js "AUTH_REFRESH_RACE"))]) JNull.

Lemma initial_reachable : reachable initial_state.
Proof. exists []. apply steps_nil. Qed.

Lemma refresh_requests_bounded_witness :
  requests [ABegin; AResponse race; AWaited; ABegin; AResponse race; AWaited; ABegin]
    (refreshAuthentication initial_state) = 3 /\
  requests [ABegin; AResponse race; AWaited; ABegin; AResponse race; AWaited; ABegin]
    (refreshAuthentication initial_state) <= 8.
Proof.
  split; [reflexivity|]. apply (refresh_requests_bounded initial_state);
    [exact initial_reachable|reflexivity|].
  intros H. repeat (apply elem_of_cons in H as [H|H]; [discriminate H|]).
  by apply not_elem_of_nil in H.
Defined.

Lemma refresh_outcome_effect_witness :
  exists w', handle_response 0 true stale_response busy_state = (w', PDone Anonymous) /\
    a_store w' = reset BComplete initial_store.
Proof.
  eexists. split; [reflexivity|].
  exact (proj1 (proj2 (refresh_outcome_effect 0 true stale_response busy_state _ Anonymous eq_refl))).
Defined.

Lemma hintless_visitor_recovers_witness :
  bootstrapAuthentication (Some (js "theme=dark; lang=en")) num_one initial_state
    = (initial_state, Some Anonymous).
Proof.
  apply (hintless_visitor_recovers (Some (js "theme=dark; lang=en")) num_one initial_state);
    vm_compute; reflexivity.
Defined.

Lemma lock_rejection_keeps_checking_witness :
  exists w1 w2 w3, resolveAuthentication num_one initial_state = (w1, None) /\
    step ALockRejected w1 = Some w2 /\ step ASettle w2 = Some w3 /\
    s_bootstrapState (a_store w3) = BChecking /\ a_refresh w3 = None.
Proof. apply lock_rejection_keeps_checking; reflexivity. Defined.
