(* ===== verification/NavModules.v ===== *)
(** The modules of the header of the site: [lib/nav-modules.ts] and [hooks/use-top-nav-links.ts],
    which read the setting [HeaderNavModules] for visitors, the guards of the routes of the
    catalogue and of the rankings, and the editor of the setting
    ([system-settings/maintenance/config.ts] and [header-navigation-section.tsx]), with the
    snapshot of the status in [localStorage] ([lib/status-query.ts]).  The setting is a JSON text
    that two parsers read, the one of the editor and the one of the site. *)
From Stdlib Require Import ZArith Lia Bool String.
From stdpp Require Import base list option.
From S2P Require Import Prelude JsString JsNumber Types JsValue Collections Runtime Json JsonText Conversations AuthSession.

(** * Values *)

(** The entries of an array or of a string: texts of their indices. *)
Definition indexed {A} (l : list A) : list (jsstr * A) :=
  imap (fun i x => (num_to_string (num_of_Z (Z.of_nat i)), x)) l.

(** The own enumerable properties of a value other than [null] and [undefined]. *)
Definition entries_of (v : jsvalue) : list (jsstr * jsvalue) :=
  match v with
  | JObj fields => fields
  | JArr l => indexed l
  | JStr s => indexed (map (fun c => JStr [c]) s)
  | _ => []
  end.

(** [v[key]] for a key that is no member of a prototype. *)
Definition member (v : jsvalue) (key : jsstr) : jsvalue :=
  match own (entries_of v) key with Some x => x | None => JUndefined end.
(** [v?.key]. *)
Definition optional_member (v : jsvalue) (key : jsstr) : jsvalue :=
  if nullish v then JUndefined else member v key.

(** [typeof v] is boolean, number or string. *)
Definition is_primitive (v : jsvalue) : bool :=
  match v with JBool _ | JNum _ | JStr _ => true | _ => false end.

(** [String(v)]: an object whose own member [toString] hides the inherited method has no text,
    because a member of a JSON object is no function. *)
Fixpoint js_String (v : jsvalue) : result property_error jsstr :=
  match v with
  | JUndefined => Ok (js "undefined")
  | JNull => Ok (js "null")
  | JBool _ | JNum _ | JStr _ => Ok (to_text v)
  | JArr l =>
      let! parts :=
        (fix texts (l : list jsvalue) : result property_error (list jsstr) :=
           match l with
           | [] => Ok []
           | x :: l' =>
               let! t := (if nullish x then Ok [] else js_String x) in
               let! ts := texts l' in
               Ok (t :: ts)
           end) l in
      Ok (join (js ",") parts)
  | JObj fields =>
      if is_some (own fields (js "toString")) then Err TypeError else Ok (js "[object Object]")
  end.

(** [object[key] = value] for a boolean: the setter [__proto__] ignores it. *)
Definition set_flag (key : jsstr) (b : bool) (flags : list (jsstr * bool)) : list (jsstr * bool) :=
  if key === "__proto__" then flags else assign key b flags.

(** * Modules *)

Record ModuleAccess := Access { ma_enabled : bool; ma_requireAuth : bool }.
Inductive HeaderNavModule := Rankings | Pricing.

(** [HeaderNavModules] and [HeaderNavModulesConfig]: the members that are booleans, in order, and
    the two others, which come after [home] and [console]. *)
Record HeaderNavModules := Modules {
  hm_flags : list (jsstr * bool);
  hm_pricing : ModuleAccess;
  hm_rankings : ModuleAccess;
}.
#[export] Instance ModuleAccess_eq_dec : EqDecision ModuleAccess.
Proof. solve_decision. Defined.
#[export] Instance HeaderNavModules_eq_dec : EqDecision HeaderNavModules.
Proof. solve_decision. Defined.

Definition DEFAULT_ACCESS : ModuleAccess := Access true false.
Definition FLAG_NAMES : list string := ["home"; "console"; "docs"; "about"; "modelTest"]%string.
Definition DEFAULT_FLAGS : list (jsstr * bool) := map (fun name => (js name, true)) FLAG_NAMES.
Definition DEFAULT_HEADER_NAV_MODULES : HeaderNavModules := Modules DEFAULT_FLAGS DEFAULT_ACCESS DEFAULT_ACCESS.

Definition with_flags (flags : list (jsstr * bool)) (m : HeaderNavModules) : HeaderNavModules :=
  Modules flags (hm_pricing m) (hm_rankings m).
Definition with_pricing (a : ModuleAccess) (m : HeaderNavModules) : HeaderNavModules :=
  Modules (hm_flags m) a (hm_rankings m).
Definition with_rankings (a : ModuleAccess) (m : HeaderNavModules) : HeaderNavModules :=
  Modules (hm_flags m) (hm_pricing m) a.

Definition module_access (m : HeaderNavModules) (module : HeaderNavModule) : ModuleAccess :=
  match module with Rankings => hm_rankings m | Pricing => hm_pricing m end.

Section Nav.
Context {P : Platform}.

(** * The parser of the site ([nav-modules.ts]) *)

Definition parseHeaderNavBoolean (raw : jsvalue) (fallback : bool) : bool :=
  match raw with
  | JBool b => b
  | JNum n => if num_eqb n num_one then true else if num_eqb n num_zero then false else fallback
  | JStr s =>
      let normalized := toLowerCase (trim s) in
      if (normalized === "true") || (normalized === "1") then true
      else if (normalized === "false") || (normalized === "0") then false
      else fallback
  | _ => fallback
  end.

Definition parseAccess (raw : jsvalue) (fallback : ModuleAccess) : ModuleAccess :=
  match raw with
  | JBool _ | JNum _ | JStr _ => Access (parseHeaderNavBoolean raw (ma_enabled fallback)) (ma_requireAuth fallback)
  | JArr _ | JObj _ =>
      Access (parseHeaderNavBoolean (member raw (js "enabled")) (ma_enabled fallback))
        (parseHeaderNavBoolean (member raw (js "requireAuth")) (ma_requireAuth fallback))
  | JUndefined | JNull => fallback
  end.

Definition parseHeaderNavRecord (raw : jsvalue) : result property_error (option jsvalue) :=
  if negb (value_truthy raw) then Ok None
  else
    let! text := js_String raw in
    if negb (truthy (trim text)) then Ok None
    else match raw with
         | JArr _ | JObj _ => Ok (Some raw)
         | _ => Ok (match JSON_parse text with Ok v => Some v | Err _ => None end)
         end.

(** One turn of the loop of [parseHeaderNavModules].  An inherited member is no boolean. *)
Definition header_entry (result : HeaderNavModules) (entry : jsstr * jsvalue) : HeaderNavModules :=
  let '(key, value) := entry in
  if key === "pricing" then with_pricing (parseAccess value (hm_pricing result)) result
  else if key === "rankings" then with_rankings (parseAccess value (hm_rankings result)) result
  else
    let fallback := own (hm_flags result) key in
    if is_some fallback || is_primitive value
    then with_flags (set_flag key (parseHeaderNavBoolean value (default true fallback)) (hm_flags result)) result
    else result.

Definition parseHeaderNavModules (raw : jsvalue) : result property_error HeaderNavModules :=
  let! parsed := parseHeaderNavRecord raw in
  Ok (match parsed with
      | Some v =>
          if value_truthy v then fold_left header_entry (entries_of v) DEFAULT_HEADER_NAV_MODULES
          else DEFAULT_HEADER_NAV_MODULES
      | None => DEFAULT_HEADER_NAV_MODULES
      end).

Definition parseHeaderNavModulesFromStatus (status : jsvalue) : result property_error HeaderNavModules :=
  parseHeaderNavModules (optional_member status (js "HeaderNavModules")).

Definition getModuleAccessFromStatus (status : jsvalue) (module : HeaderNavModule) : result property_error ModuleAccess :=
  let! modules := parseHeaderNavModulesFromStatus status in
  Ok (module_access modules module).

(** ** The status in the browser ([status-query.ts]) *)

Definition STATUS_STORAGE_KEY : jsstr := js "status".

Definition readCachedStatus {L : LocalStorage} (st : storage) : jsvalue :=
  match getItem STATUS_STORAGE_KEY st with
  | Ok (Some raw) =>
      if truthy raw then match JSON_parse raw with Ok v => v | Err _ => JNull end else JNull
  | _ => JNull
  end.

Definition writeCachedStatus {L : LocalStorage} (status : jsvalue) (st : storage) : storage :=
  if value_truthy status then
    match JSON_stringify_plain status with
    | Some text => match setItem STATUS_STORAGE_KEY text st with Ok st' => st' | Err _ => st end
    | None => st
    end
  else st.

Definition getModuleAccess {L : LocalStorage} (module : HeaderNavModule) (st : storage) : result property_error ModuleAccess :=
  getModuleAccessFromStatus (readCachedStatus st) module.

(** ** Guards *)

(** [fetched] is the outcome of the query. *)
Definition getModuleAccessForGuard {E} (fetched : result E jsvalue) (module : HeaderNavModule) : ModuleAccess :=
  match fetched with
  | Ok status => match getModuleAccessFromStatus status module with Ok access => access | Err _ => Access false true end
  | Err _ => Access false true
  end.

Inductive navigation := ShowPage | RedirectTo (to : string) | RedirectToSignIn (back : jsstr).

(** The common text of the functions [beforeLoad]. *)
Definition module_guard {E} (module : HeaderNavModule) (fetched : result E jsvalue) (user : option auth_user)
    (href : jsstr) : navigation :=
  let access := getModuleAccessForGuard fetched module in
  if negb (ma_enabled access) then RedirectTo "/"
  else if ma_requireAuth access && negb (is_some user) then RedirectToSignIn href
  else ShowPage.

Definition pricing_beforeLoad {E} : result E jsvalue -> option auth_user -> jsstr -> navigation := module_guard Pricing.
Definition plans_beforeLoad {E} : result E jsvalue -> option auth_user -> jsstr -> navigation := module_guard Pricing.
Definition details_beforeLoad {E} : result E jsvalue -> option auth_user -> jsstr -> navigation := module_guard Pricing.
Definition rankings_beforeLoad {E} : result E jsvalue -> option auth_user -> jsstr -> navigation := module_guard Rankings.

(** ** Links ([use-top-nav-links.ts]) *)

Record TopNavLink := Link {
  l_title : jsstr;
  l_href : jsstr;
  l_requiresAuth : option bool;
  l_external : option bool;
}.

(** [modules.key !== false]. *)
Definition flag_on (m : HeaderNavModules) (key : string) : bool :=
  match own (hm_flags m) (js key) with Some b => b | None => true end.

Definition plain_link (shown : bool) (title href : jsstr) : list TopNavLink :=
  if shown then [Link title href None None] else [].
Definition access_link (access : ModuleAccess) (isAuthed : bool) (title href : jsstr) : list TopNavLink :=
  if ma_enabled access then [Link title href (Some (ma_requireAuth access && negb isAuthed)) None] else [].
Definition docs_link (shown : bool) (docsLink : jsvalue) (title : jsstr) : list TopNavLink :=
  if shown then
    let external := match docsLink with
                    | JStr s => starts_with (js "http://") s || starts_with (js "https://") s
                    | _ => false
                    end in
    [Link title (match docsLink with JStr s => if external then s else js "/docs" | _ => js "/docs" end)
       None (Some external)]
  else [].

(** [t] is the translation of a title. *)
Definition useTopNavLinks (t : string -> jsstr) (status : jsvalue) (user : option auth_user)
  : result property_error (list TopNavLink) :=
  let! modules := parseHeaderNavModulesFromStatus status in
  let docsLink := optional_member status (js "docs_link") in
  let isAuthed := is_some user in
  Ok (plain_link (flag_on modules "home") (t "Home"%string) (js "/")
      ++ plain_link (flag_on modules "console") (t "Console"%string) (js "/dashboard")
      ++ access_link (hm_pricing modules) isAuthed (t "Model Square"%string) (js "/pricing")
      ++ access_link (hm_rankings modules) isAuthed (t "Rankings"%string) (js "/rankings")
      ++ docs_link (flag_on modules "docs") docsLink (t "Docs"%string)
      ++ plain_link (flag_on modules "about") (t "About"%string) (js "/about")).

(** * The editor of the setting ([config.ts] and [header-navigation-section.tsx]) *)

Definition toBoolean (value : jsvalue) (fallback : bool) : bool :=
  match value with
  | JBool b => b
  | JNum n => num_eqb n num_one
  | JStr s =>
      let normalized := toLowerCase (trim s) in
      if (normalized === "true") || (normalized === "1") then true
      else if (normalized === "false") || (normalized === "0") then false
      else fallback
  | _ => fallback
  end.

Definition parseAccessModule (raw : jsvalue) (fallback : ModuleAccess) : ModuleAccess :=
  match raw with
  | JBool _ | JNum _ | JStr _ => Access (toBoolean raw (ma_enabled fallback)) (ma_requireAuth fallback)
  | JArr _ | JObj _ =>
      Access (toBoolean (member raw (js "enabled")) (ma_enabled fallback))
        (toBoolean (member raw (js "requireAuth")) (ma_requireAuth fallback))
  | JUndefined | JNull => fallback
  end.

(** [Boolean(base[key])]: an inherited member is an object. *)
Definition base_flag (key : jsstr) : bool :=
  match own DEFAULT_FLAGS key with
  | Some b => b
  | None => existsb (fun name => key === name) inherited_names
  end.

Definition config_entry (result : HeaderNavModules) (entry : jsstr * jsvalue) : HeaderNavModules :=
  let '(key, raw) := entry in
  if key === "pricing" then with_pricing (parseAccessModule raw DEFAULT_ACCESS) result
  else if key === "rankings" then with_rankings (parseAccessModule raw DEFAULT_ACCESS) result
  else
    match raw with
    | JBool b => with_flags (set_flag key b (hm_flags result)) result
    | JStr _ | JNum _ => with_flags (set_flag key (toBoolean raw (base_flag key)) (hm_flags result)) result
    | _ => result
    end.

(** [value] is [None] when it is [null] or [undefined]; the entries of [null] throw, which is
    caught. *)
Definition config_parseHeaderNavModules (value : option jsstr) : HeaderNavModules :=
  match value with
  | None | Some [] => DEFAULT_HEADER_NAV_MODULES
  | Some text =>
      match JSON_parse text with
      | Ok parsed =>
          if nullish parsed then DEFAULT_HEADER_NAV_MODULES
          else fold_left config_entry (entries_of parsed) DEFAULT_HEADER_NAV_MODULES
      | Err _ => DEFAULT_HEADER_NAV_MODULES
      end
  end.

Definition access_object (a : ModuleAccess) : jsvalue :=
  JObj [(js "enabled", JBool (ma_enabled a)); (js "requireAuth", JBool (ma_requireAuth a))].
Definition flag_members (flags : list (jsstr * bool)) : list (jsstr * jsvalue) :=
  map (fun e => (e.1, JBool e.2)) flags.
(** The object, its members in order. *)
Definition header_object (m : HeaderNavModules) : jsvalue :=
  JObj (flag_members (take 2 (hm_flags m))
        ++ [(js "pricing", access_object (hm_pricing m)); (js "rankings", access_object (hm_rankings m))]
        ++ flag_members (drop 2 (hm_flags m))).
Definition serializeHeaderNavModules (config : HeaderNavModules) : jsstr :=
  match JSON_stringify_plain (header_object config) with Some text => text | None => [] end.

Record HeaderNavFormValues := HeaderForm {
  hf_home : bool;
  hf_console : bool;
  hf_pricing : ModuleAccess;
  hf_rankings : ModuleAccess;
  hf_docs : bool;
  hf_about : bool;
  hf_modelTest : bool;
}.

Definition toFormValues (config : HeaderNavModules) : HeaderNavFormValues :=
  HeaderForm (flag_on config "home") (flag_on config "console") (hm_pricing config) (hm_rankings config)
    (flag_on config "docs") (flag_on config "about") (flag_on config "modelTest").

Definition header_payload (config : HeaderNavModules) (values : HeaderNavFormValues) : HeaderNavModules :=
  Modules
    (assign (js "modelTest") (hf_modelTest values)
      (assign (js "about") (hf_about values)
        (assign (js "docs") (hf_docs values)
          (assign (js "console") (hf_console values)
            (assign (js "home") (hf_home values) (hm_flags config))))))
    (hf_pricing values) (hf_rankings values).

(** The value that is sent for the option [HeaderNavModules], if any. *)
Definition header_onSubmit (config : HeaderNavModules) (initialSerialized : jsstr) (values : HeaderNavFormValues)
  : option jsstr :=
  let serialized := serializeHeaderNavModules (header_payload config values) in
  if str_eqb serialized initialSerialized then None else Some serialized.

(** The section as it is built from the stored text. *)
Definition header_section_submit (stored : option jsstr) (values : HeaderNavFormValues) : option jsstr :=
  let config := config_parseHeaderNavModules stored in
  header_onSubmit config (serializeHeaderNavModules config) values.

End Nav.
