(* ===== verification/NavFacts.v ===== *)
(** What the header of the site shows after the editor saved it ([NavModules]). *)
From Stdlib Require Import ZArith Lia Bool String.
From stdpp Require Import base list option sets.
From S2P Require Import Prelude JsString JsNumber Types JsValue Collections Runtime Json JsonText Schema Structure Conversations AuthSession NavModules.

(** * Keys of parsed objects *)

Lemma json_put_keys k v l :
  map fst (json_put k v l) = if bool_decide (k ∈ map fst l) then map fst l else map fst l ++ [k].
Proof.
  induction l as [|[k' w] l IH]; [done|]. cbn [json_put]. destruct (str_eqb_reflect k k') as [->|Hk].
  - cbn [map fst]. rewrite bool_decide_true; [done|]. by left.
  - cbn [map fst]. rewrite IH. destruct (decide (k ∈ map fst l)) as [Hin|Hin].
    + rewrite !bool_decide_true; [done|by right|done].
    + rewrite !bool_decide_false; [done| |done]. by intros [?|?]%elem_of_cons.
Qed.
Lemma json_put_nodup k v l : NoDup (map fst l) -> NoDup (map fst (json_put k v l)).
Proof.
  intros Hd. rewrite json_put_keys. case_bool_decide as Hin; [done|]. apply list.NoDup_app. split; [done|].
  split; [|by apply NoDup_singleton]. by intros x Hx ->%list_elem_of_singleton.
Qed.

(** The members of an object that is read have different keys. *)
Definition unique_members (v : jsvalue) : Prop :=
  match v with JObj fields => NoDup (map fst fields) | _ => True end.

Lemma json_members_unique f : forall s acc v r, NoDup (map fst acc) ->
  json_members f s acc = Ok (v, r) -> unique_members v.
Proof.
  induction f as [|f IH]; intros s acc v r Hd H; [done|]. cbn [json_members] in H.
  destruct (json_space s) as [|c s1]; [done|]. destruct (c =? QUOTE)%Z; [|done].
  destruct (json_chars s1) as [[k s2]|]; [|done]. destruct (json_space s2) as [|c2 s3]; [done|].
  destruct (c2 =? 58)%Z; [|done]. destruct (json_value f s3) as [[w s4]|]; [|done].
  destruct (json_space s4) as [|c4 s5]; [done|]. pose proof (json_put_nodup k w acc Hd) as Hd'.
  destruct (c4 =? 44)%Z; [by apply (IH _ _ _ _ Hd' H)|]. destruct (c4 =? 125)%Z; [|done]. by injection H as <- <-.
Qed.
Lemma json_elements_array f : forall s acc v r, json_elements f s acc = Ok (v, r) -> unique_members v.
Proof.
  induction f as [|f IH]; intros s acc v r H; [done|]. cbn [json_elements] in H.
  destruct (json_value f s) as [[w s4]|]; [|done].
  destruct (json_space s4) as [|c4 s5]; [done|].
  destruct (c4 =? 44)%Z; [by apply (IH _ _ _ _ H)|]. destruct (c4 =? 93)%Z; [|done]. by injection H as <- <-.
Qed.
Lemma json_keyword_unique s v r : json_keyword s = Some (v, r) -> unique_members v.
Proof. unfold json_keyword. intros H. by repeat case_match; simplify_eq. Qed.

Lemma JSON_parse_unique t v : JSON_parse t = Ok v -> unique_members v.
Proof.
  unfold JSON_parse. generalize (json_fuel t). intros f. destruct (json_value f t) as [[w r]|] eqn:E; [|done].
  destruct (json_space r); [|done]. intros [= ->]. destruct f as [|f]; [done|]. cbn [json_value] in E.
  destruct (json_space t) as [|c s]; [done|].
  destruct (c =? QUOTE)%Z; [by destruct (json_chars s) as [[? ?]|]; simplify_eq|].
  destruct (c =? 91)%Z.
  { destruct (json_space s) as [|x s']; [done|]. destruct (x =? 93)%Z; [by simplify_eq|]. by apply json_elements_array in E. }
  destruct (c =? 123)%Z.
  { destruct (json_space s) as [|x s']; [done|]. destruct (x =? 125)%Z; [simplify_eq; apply NoDup_nil_2|].
    by apply json_members_unique in E; [|apply NoDup_nil_2]. }
  destruct (json_keyword (c :: s)) as [[u r']|] eqn:Ek; [simplify_eq; by apply json_keyword_unique in Ek|].
  destruct (json_number (c :: s)) as [[u r']|]; by simplify_eq.
Qed.

(** A text of spaces holds no value. *)
Lemma trim_blank t : trim t = [] -> Forall (fun c => is_space c = true) t.
Proof.
  assert (H : forall s, trim_start s = [] -> Forall (fun c => is_space c = true) s).
  { induction s as [|c s IH]; [constructor|]. cbn [trim_start]. destruct (is_space c) eqn:E; [|done]. constructor; auto. }
  intros Ht. unfold trim in Ht. apply (f_equal (@rev Z)) in Ht. rewrite rev_involutive in Ht. apply H in Ht.
  pose proof (trim_start_head t) as Hh. destruct (trim_start t) as [|c r] eqn:E; [by apply H|].
  rewrite Forall_forall in Ht. assert (Hc : is_space c = true); [|congruence].
  apply Ht. apply list_elem_of_In, in_rev. rewrite rev_involutive. by left.
Qed.
Lemma space_starts_nothing c r : is_space c = true ->
  (c =? QUOTE)%Z = false /\ (c =? 91)%Z = false /\ (c =? 123)%Z = false /\ json_keyword (c :: r) = None /\ json_number (c :: r) = None.
Proof.
  intros H. assert (Hn : c <> 45%Z /\ is_digit c = false /\ c <> QUOTE /\ c <> 91%Z /\ c <> 123%Z /\ c <> 116%Z /\ c <> 102%Z /\ c <> 110%Z).
  { destruct (is_digit c) eqn:Ed; [|repeat split; try done; by intros ->].
    exfalso. unfold is_space, is_digit in *. bools. repeat (apply orb_true_iff in H as [H|H]); bools; lia. }
  destruct Hn as (H1 & H2 & H3 & H4 & H5 & H6 & H7 & H8). repeat split; try by apply Z.eqb_neq.
  - assert (Hw : forall x p, x <> c -> starts_with (x :: p) (c :: r) = false).
    { intros x p Hx. cbn [starts_with]. by rewrite (proj2 (Z.eqb_neq x c) Hx). }
    unfold json_keyword. rewrite (Hw _ (js "rue") (not_eq_sym H6) : starts_with (js "true") _ = _).
    rewrite (Hw _ (js "alse") (not_eq_sym H7) : starts_with (js "false") _ = _).
    by rewrite (Hw _ (js "ull") (not_eq_sym H8) : starts_with (js "null") _ = _).
  - unfold json_number. rewrite (proj2 (Z.eqb_neq c 45)) by done. unfold json_digits. cbn [span]. by rewrite H2.
Qed.
Lemma blank_parse t : trim t = [] -> JSON_parse t = Err SyntaxError.
Proof.
  intros Ht%trim_blank. unfold JSON_parse, json_fuel. cbn [json_value].
  assert (Hs : Forall (fun c => is_space c = true) (json_space t)).
  { unfold json_space. rewrite <- (span_app is_json_space t) in Ht. by apply Forall_app in Ht as [_ ?]. }
  destruct (json_space t) as [|c r]; [done|]. apply list.Forall_cons in Hs as [Hc _].
  destruct (space_starts_nothing c r Hc) as (-> & -> & -> & -> & ->). done.
Qed.

(** * Well-formed modules *)

(** The flags start with those of the defaults, have different names, and none has the name of
    another member. *)
Definition reserved : list jsstr := [js "pricing"; js "rankings"; js "__proto__"].
Definition wf_flags (flags : list (jsstr * bool)) : Prop :=
  take 5 (map fst flags) = map js FLAG_NAMES /\ NoDup (map fst flags) /\
  Forall (fun k => k ∉ reserved) (map fst flags).
Definition wf_header (m : HeaderNavModules) : Prop := wf_flags (hm_flags m).

Lemma wf_default : wf_header DEFAULT_HEADER_NAV_MODULES.
Proof.
  split; [done|]. split; [apply (bool_decide_unpack _); by vm_compute|].
  apply (bool_decide_unpack _). by vm_compute.
Qed.

Lemma wf_assign k b flags : k ∉ reserved -> wf_flags flags -> wf_flags (assign k b flags).
Proof.
  intros Hk (H5 & Hd & Hr). unfold wf_flags. rewrite assign_keys. case_bool_decide as Hin; [done|].
  split; [|split].
  - rewrite take_app_le; [done|]. apply (f_equal length) in H5. rewrite length_take in H5.
    change (length (map js FLAG_NAMES)) with 5 in H5. lia.
  - pose proof (assign_nodup k b flags Hd) as H. rewrite assign_keys in H. by rewrite bool_decide_false in H.
  - apply Forall_app. split; [done|]. by apply Forall_singleton.
Qed.

Lemma wf_set_flag k b flags : ((k === "pricing") || (k === "rankings")) = false -> wf_flags flags -> wf_flags (set_flag k b flags).
Proof.
  unfold set_flag. intros H Hf. bools. destruct (str_eqb_reflect k (js "__proto__")) as [|Hp]; [done|].
  apply str_eqb_neq in H, H0. apply wf_assign; [|done]. unfold reserved. set_solver.
Qed.

Section Facts.
Context {P : Platform}.

Lemma wf_config_entry m e : wf_header m -> wf_header (config_entry m e).
Proof.
  destruct e as [k raw]. intros H. unfold config_entry. destruct (k === "pricing") eqn:E1; [done|].
  destruct (k === "rankings") eqn:E2; [done|].
  destruct raw; try done; unfold wf_header, with_flags; cbn [hm_flags]; apply wf_set_flag; try done; by rewrite E1, E2.
Qed.
Lemma wf_config_fold l : forall m, wf_header m -> wf_header (fold_left config_entry l m).
Proof. induction l as [|e l IH]; intros m H; [done|]. by apply IH, wf_config_entry. Qed.

(** What the editor reads is well formed, whatever is stored. *)
Lemma config_wf stored : wf_header (config_parseHeaderNavModules stored).
Proof.
  unfold config_parseHeaderNavModules. pose proof wf_default as Hd.
  destruct stored as [[|c t]|]; try done. destruct (JSON_parse (c :: t)) as [v|]; [|done].
  destruct (nullish v); [done|]. by apply wf_config_fold.
Qed.
Lemma payload_wf config values : wf_header config -> wf_header (header_payload config values).
Proof.
  intros H. unfold wf_header, header_payload. cbn [hm_flags].
  do 5 (apply wf_assign; [apply (bool_decide_unpack _); by vm_compute|]). done.
Qed.

(** * Reading what was written *)

(** What both parsers do with the members that the editor writes. *)
Definition reads_members (entry : HeaderNavModules -> jsstr * jsvalue -> HeaderNavModules) : Prop :=
  (forall m k b, k ∉ reserved -> entry m (k, JBool b) = with_flags (assign k b (hm_flags m)) m) /\
  (forall m a, entry m (js "pricing", access_object a) = with_pricing a m) /\
  (forall m a, entry m (js "rankings", access_object a) = with_rankings a m).

Lemma not_reserved k : k ∉ reserved -> (k === "pricing") = false /\ (k === "rankings") = false /\ (k === "__proto__") = false.
Proof. unfold reserved. intros H. rewrite !str_eqb_neq. set_solver. Qed.

Lemma header_entry_reads : reads_members header_entry.
Proof.
  split; [|by split; intros m [[] []]]. intros m k b (E1 & E2 & E3)%not_reserved. unfold header_entry, set_flag.
  rewrite E1, E2, E3. cbn [is_primitive]. by rewrite orb_true_r.
Qed.
Lemma config_entry_reads : reads_members config_entry.
Proof.
  split; [|by split; intros m [[] []]]. intros m k b (E1 & E2 & E3)%not_reserved. unfold config_entry, set_flag.
  by rewrite E1, E2, E3.
Qed.

Section Reading.
Context (entry : HeaderNavModules -> jsstr * jsvalue -> HeaderNavModules).
Hypothesis Hentry : reads_members entry.

Lemma fold_flags l : forall m, Forall (fun e => e.1 ∉ reserved) l ->
  fold_left entry (flag_members l) m = with_flags (fold_left (fun acc e => assign e.1 e.2 acc) l (hm_flags m)) m.
Proof.
  induction l as [|[k b] l IH]; intros m H; [by destruct m|]. apply list.Forall_cons in H as [Hk H].
  cbn [flag_members map fold_left fst snd]. rewrite (proj1 Hentry) by done. unfold flag_members in IH. rewrite IH by done. done.
Qed.

Lemma fold_object m : wf_header m ->
  fold_left entry (entries_of (header_object m)) DEFAULT_HEADER_NAV_MODULES = m.
Proof.
  intros (H5 & Hd & Hr). destruct m as [flags pricing rankings]. cbn [hm_flags] in *.
  unfold header_object. cbn [entries_of hm_flags hm_pricing hm_rankings].
  rewrite Forall_map in Hr. rewrite <- (take_drop 2 flags) in Hr. apply Forall_app in Hr as [Hr1 Hr2].
  rewrite fold_left_app, (fold_flags (take 2 flags)) by done. cbn [app fold_left].
  destruct Hentry as (_ & -> & ->). rewrite fold_flags by done. cbn [hm_flags with_flags with_pricing with_rankings].
  unfold with_flags. cbn [hm_flags hm_pricing hm_rankings with_pricing with_rankings]. f_equal.
  rewrite <- fold_left_app, take_drop.
  rewrite <- (take_drop 5 flags) at 1. rewrite fold_left_app.
  rewrite <- (take_drop 5 flags), map_app in Hd.
  assert (Ho : fold_left (fun acc e => assign e.1 e.2 acc) (take 5 flags) DEFAULT_FLAGS = take 5 flags).
  { apply (assign_over [] (take 5 flags) DEFAULT_FLAGS); [by rewrite <- firstn_map, H5|].
    apply (bool_decide_unpack _). by vm_compute. }
  cbn [hm_flags DEFAULT_HEADER_NAV_MODULES]. rewrite Ho, assign_fresh; [apply take_drop|by rewrite map_app].
Qed.
End Reading.

Definition names_ok (m : HeaderNavModules) : Prop := Forall (Forall code_unit) (map fst (hm_flags m)).

Lemma flag_members_keys l : map fst (flag_members l) = map fst l.
Proof. unfold flag_members. rewrite map_map. by apply map_ext. Qed.

Lemma header_printable m : wf_header m -> names_ok m -> printable (header_object m).
Proof.
  intros (H5 & Hd & Hr) Hn. unfold names_ok in Hn. destruct m as [flags pricing rankings]. unfold header_object.
  cbn [hm_flags hm_pricing hm_rankings] in *. rewrite <- (take_drop 2 flags), map_app in Hd, Hr, Hn.
  set (a := take 2 flags) in *. set (b := drop 2 flags) in *.
  assert (Hacc : forall x, printable (access_object x)).
  { intros x. apply prints_printable. by destruct x as [[] []]. }
  assert (Hfl : forall l, Forall (Forall code_unit) (map fst l) ->
    Forall (fun e => Forall code_unit e.1 /\ printable e.2) (flag_members l)).
  { intros l. rewrite Forall_map. unfold flag_members. rewrite Forall_map. intros H. apply (Forall_impl _ _ _ H). intros e He. split; [done|constructor]. }
  apply Forall_app in Hn as [Hn1 Hn2]. apply Forall_app in Hr as [Hr1 Hr2]. constructor.
  - rewrite !map_app, !flag_members_keys. cbn [map fst].
    apply list.NoDup_app in Hd as (Ha & Hab & Hb). rewrite Forall_forall in Hr1, Hr2.
    apply list.NoDup_app. split; [done|]. split.
    + intros k Hk [H|H]%elem_of_app; [|by apply (Hab k)]. apply (Hr1 k Hk). unfold reserved. set_solver.
    + apply list.NoDup_app. split; [apply (bool_decide_unpack _); by vm_compute|]. split; [|done].
      intros k Hk Hb'. apply (Hr2 k Hb'). unfold reserved. set_solver.
  - apply Forall_app. split; [by apply Hfl|]. apply Forall_app. split; [|by apply Hfl].
    repeat (constructor; [split; [apply code_units_ok; by vm_compute|apply Hacc]|]). constructor.
Qed.

Lemma trim_brace t : truthy (trim (123%Z :: t)) = true.
Proof.
  unfold trim. cbn [trim_start]. change (is_space 123) with false. cbn [rev].
  assert (H : forall l, trim_start (l ++ [123%Z]) <> []).
  { induction l as [|c l IH]; [done|]. cbn [app trim_start]. by destruct (is_space c). }
  specialize (H (rev t)). destruct (trim_start (rev t ++ [123%Z])) as [|c l]; [done|]. cbn [rev].
  by destruct (rev l).
Qed.

(** The text of modules is read back by both parsers. *)
Lemma serialized_reads m : wf_header m -> names_ok m ->
  JSON_parse (serializeHeaderNavModules m) = Ok (header_object m) /\
  exists t, serializeHeaderNavModules m = 123%Z :: t.
Proof.
  intros Hw Hn. destruct (stringify_plain_parse _ (header_printable m Hw Hn)) as (t & Ht & Hp).
  unfold serializeHeaderNavModules. rewrite Ht. split; [done|]. unfold JSON_stringify_plain, header_object in Ht.
  cbn [json_text] in Ht. injection Ht as <-. unfold bracketed.
  destruct (member_texts _ _); by eexists.
Qed.

Lemma site_reads m : wf_header m -> names_ok m -> parseHeaderNavModules (JStr (serializeHeaderNavModules m)) = Ok m.
Proof.
  intros Hw Hn. destruct (serialized_reads m Hw Hn) as [Hp [t Ht]]. unfold parseHeaderNavModules, parseHeaderNavRecord.
  cbn [js_String to_text]. rewrite Ht in *. cbn [value_truthy truthy negb]. rewrite trim_brace. cbn [negb]. rewrite Hp.
  change (value_truthy (header_object m)) with true. cbn beta match. f_equal. by apply (fold_object _ header_entry_reads).
Qed.
Lemma editor_reads m : wf_header m -> names_ok m -> config_parseHeaderNavModules (Some (serializeHeaderNavModules m)) = m.
Proof.
  intros Hw Hn. destruct (serialized_reads m Hw Hn) as [Hp [t Ht]]. unfold config_parseHeaderNavModules.
  rewrite Ht in *. rewrite Hp. change (nullish (header_object m)) with false. by apply (fold_object _ config_entry_reads).
Qed.

(** * What is saved *)

Lemma names_assign k (b : bool) flags : Forall code_unit k -> Forall (Forall code_unit) (map fst flags) ->
  Forall (Forall code_unit) (map fst (assign k b flags)).
Proof.
  intros Hk H. rewrite assign_keys. case_bool_decide; [done|]. apply Forall_app. split; [done|]. by apply Forall_singleton.
Qed.
Lemma payload_names config values : names_ok config -> names_ok (header_payload config values).
Proof.
  intros H. unfold names_ok, header_payload. cbn [hm_flags].
  do 5 (apply names_assign; [apply code_units_ok; by vm_compute|]). done.
Qed.

(** What the form shows after it was saved. *)
Lemma payload_form config values : toFormValues (header_payload config values) = values.
Proof.
  unfold toFormValues, flag_on, header_payload. cbn [hm_flags hm_pricing hm_rankings]. rewrite !own_assign.
  destruct values as [? ? [] [] ? ? ?]. reflexivity.
Qed.
Lemma payload_other config values k : k ∉ map js FLAG_NAMES ->
  own (hm_flags (header_payload config values)) k = own (hm_flags config) k.
Proof.
  intros H. unfold header_payload. cbn [hm_flags]. rewrite !own_assign. unfold FLAG_NAMES in H. cbn [map] in H.
  rewrite !(fun n => proj2 (str_eqb_neq k n)); [done|..]; set_solver.
Qed.

Lemma serialize_inj a b : wf_header a -> names_ok a -> wf_header b -> names_ok b ->
  serializeHeaderNavModules a = serializeHeaderNavModules b -> a = b.
Proof. intros Ha Hna Hb Hnb H. rewrite <- (editor_reads a), <- (editor_reads b), H by done. done. Qed.

(** What a visitor gets for a module with these flags. *)
Definition allowed (a : ModuleAccess) (user : option auth_user) (href : jsstr) : navigation :=
  if ma_enabled a then if ma_requireAuth a && negb (is_some user) then RedirectToSignIn href else ShowPage
  else RedirectTo "/".
Definition chosen_access (values : HeaderNavFormValues) (module : HeaderNavModule) : ModuleAccess :=
  match module with Rankings => hf_rankings values | Pricing => hf_pricing values end.

Lemma guard_allowed {E} module status m user href : parseHeaderNavModulesFromStatus status = Ok m ->
  module_guard (E := E) module (Ok status) user href = allowed (module_access m module) user href.
Proof.
  intros H. unfold module_guard, getModuleAccessForGuard, getModuleAccessFromStatus. rewrite H. unfold allowed.
  by destruct (ma_enabled _).
Qed.

(** What the editor keeps of a stored member that its form does not know: a boolean, a text or a number is
    kept as a flag, an object, an array or null is not. *)
Definition kept_member (k : jsstr) (v : jsvalue) : option bool :=
  match v with
  | JBool b => Some b
  | JStr _ | JNum _ => Some (toBoolean v (base_flag k))
  | _ => None
  end.
Definition KNOWN_NAMES : list string := FLAG_NAMES ++ ["pricing"; "rankings"; "__proto__"]%string.

(** A form that was not changed gives the modules that were read. *)
Lemma payload_unchanged config : wf_header config -> header_payload config (toFormValues config) = config.
Proof.
  destruct config as [flags pricing rankings]. unfold wf_header, wf_flags. cbn [hm_flags]. intros [H _].
  destruct flags as [|[k1 b1] [|[k2 b2] [|[k3 b3] [|[k4 b4] [|[k5 b5] flags]]]]]; try done.
  cbn [map fst take] in H. injection H as -> -> -> -> ->. reflexivity.
Qed.

Lemma config_fold_own k fields : (k === "pricing") = false -> (k === "rankings") = false -> (k === "__proto__") = false ->
  NoDup (map fst fields) -> forall m,
  own (hm_flags (fold_left config_entry fields m)) k =
  match own fields k ≫= kept_member k with Some b => Some b | None => own (hm_flags m) k end.
Proof.
  intros H1 H2 H3. induction fields as [|[k' v] fields IH]; intros Hd m; [done|].
  cbn [map fst] in Hd. apply list.NoDup_cons in Hd as [Hk Hd]. cbn [fold_left own]. rewrite (IH Hd). clear IH.
  assert (Hw : forall a x, hm_flags (with_pricing a x) = hm_flags x /\ hm_flags (with_rankings a x) = hm_flags x) by done.
  destruct (str_eqb_reflect k k') as [<-|Hne].
  - rewrite (own_absent _ k) by done. cbn [mbind option_bind]. unfold config_entry. rewrite H1, H2.
    unfold set_flag. rewrite H3. destruct v; cbn [kept_member hm_flags with_flags]; rewrite ?own_assign, ?str_eqb_refl; done.
  - destruct (own fields k ≫= kept_member k); [done|].
    assert (Hset : forall b, own (set_flag k' b (hm_flags m)) k = own (hm_flags m) k).
    { intros b. unfold set_flag. destruct (k' === "__proto__"); [done|]. by rewrite own_assign, (proj2 (str_eqb_neq k k')). }
    unfold config_entry. destruct (k' === "pricing"); [done|]. destruct (k' === "rankings"); [done|].
    destruct v; cbn [hm_flags with_flags]; rewrite ?Hset; done.
Qed.

Lemma stored_other t fields k : JSON_parse t = Ok (JObj fields) -> NoDup (map fst fields) -> k ∉ map js KNOWN_NAMES ->
  own (hm_flags (config_parseHeaderNavModules (Some t))) k = (own fields k ≫= kept_member k).
Proof.
  intros Hp Hd Hk. unfold config_parseHeaderNavModules. destruct t as [|c t]; [done|]. rewrite Hp. cbn [nullish entries_of].
  unfold KNOWN_NAMES, FLAG_NAMES in Hk. cbn [map app] in Hk.
  rewrite config_fold_own by (done || apply str_eqb_neq; set_solver).
  destruct (own fields k ≫= kept_member k); [done|]. apply own_absent. cbn. set_solver.
Qed.

(** C15. The editor of the header saves what it shows and the site obeys it: for any stored text, the text
    that is sent is read back by the editor as the form that was submitted; of the stored members that the form does
    not know, those that are booleans, texts or numbers are kept as flags, with the value the editor reads in
    them, and objects, arrays and null are dropped; once the status carries the text the guards of the routes
    decide by the switches of the form; and nothing is sent exactly when the form was not changed.  (The names
    of members are made of code units, as all texts are, and a parsed object has a member once.) *)
Theorem header_saved_enforced stored values :
  let config := config_parseHeaderNavModules stored in
  names_ok config ->
  match header_section_submit stored values with
  | None => toFormValues config = values
  | Some text =>
      toFormValues (config_parseHeaderNavModules (Some text)) = values /\
      (forall k, k ∉ map js FLAG_NAMES ->
         own (hm_flags (config_parseHeaderNavModules (Some text))) k = own (hm_flags config) k) /\
      (forall t fields k, stored = Some t -> JSON_parse t = Ok (JObj fields) -> NoDup (map fst fields) ->
         k ∉ map js KNOWN_NAMES ->
         own (hm_flags (config_parseHeaderNavModules (Some text))) k = (own fields k ≫= kept_member k)) /\
      toFormValues config <> values /\
      forall E status module user href,
        optional_member status (js "HeaderNavModules") = JStr text ->
        module_guard (E := E) module (Ok status) user href = allowed (chosen_access values module) user href
  end.
Proof.
  intros config Hn. pose proof (config_wf stored) as Hw. fold config in Hw.
  pose proof (payload_wf config values Hw) as Hpw. pose proof (payload_names config values Hn) as Hpn.
  unfold header_section_submit, header_onSubmit. fold config.
  destruct (str_eqb_reflect (serializeHeaderNavModules (header_payload config values)) (serializeHeaderNavModules config)) as [E|E].
  - apply serialize_inj in E; [|done..]. rewrite <- E. apply payload_form.
  - rewrite editor_reads by done. split; [apply payload_form|]. split; [intros k; apply payload_other|].
    split; [|split].
    + intros t fields k -> Hp Hd Hk. rewrite payload_other; [by apply stored_other|].
      intros Hin. apply Hk. unfold KNOWN_NAMES. rewrite map_app, elem_of_app. by left.
    + intros Hv. apply E. f_equal. rewrite <- Hv. by apply payload_unchanged.
    + intros X status module user href Hs.
      rewrite (guard_allowed module status (header_payload config values)); [by destruct module|].
      unfold parseHeaderNavModulesFromStatus. rewrite Hs. by apply site_reads.
Qed.

(** * Links and guards *)

Definition module_path (module : HeaderNavModule) : string := match module with Rankings => "/rankings" | Pricing => "/pricing" end.
Definition module_title (module : HeaderNavModule) : string := match module with Rankings => "Rankings" | Pricing => "Model Square" end.
Definition links_to (href : string) (links : list TopNavLink) : list TopNavLink := List.filter (fun l => l_href l === href) links.

Lemma links_to_app href a b : links_to href (a ++ b) = links_to href a ++ links_to href b.
Proof. apply List.filter_app. Qed.
Lemma plain_link_to href shown title path : (path === href) = false -> links_to href (plain_link shown title path) = [].
Proof. intros H. unfold plain_link, links_to. destruct shown; [|done]. cbn [List.filter l_href]. by rewrite H. Qed.
Lemma docs_link_to module shown docs title : links_to (module_path module) (docs_link shown docs title) = [].
Proof.
  unfold docs_link, links_to. destruct shown; [|done]. cbn [List.filter l_href].
  destruct docs as [| | | |s| |]; try by destruct module.
  destruct (starts_with (js "http://") s || starts_with (js "https://") s) eqn:E; [|by destruct module].
  destruct (str_eqb_reflect s (js (module_path module))) as [->|]; [by destruct module|done].
Qed.

(** C16. Links and guards agree, and both fail closed: for every status and visitor the header has a link to
    the catalogue, or to the rankings, exactly when the guard of the route does not turn the visitor away
    to the start page, and the link asks for a login exactly when the guard does; when the status cannot be
    fetched, or its setting cannot be read, the guard turns everyone away. *)
Theorem links_match_guards {E} t status user href module :
  match useTopNavLinks t status user with
  | Ok links =>
      links_to (module_path module) links =
      match module_guard (E := E) module (Ok status) user href with
      | RedirectTo _ => []
      | RedirectToSignIn _ => [Link (t (module_title module)) (js (module_path module)) (Some true) None]
      | ShowPage => [Link (t (module_title module)) (js (module_path module)) (Some false) None]
      end
  | Err _ => module_guard (E := E) module (Ok status) user href = RedirectTo "/"
  end /\
  forall e : E, module_guard module (Err e) user href = RedirectTo "/".
Proof.
  split; [|done]. unfold useTopNavLinks. destruct (parseHeaderNavModulesFromStatus status) as [m|] eqn:Em.
  - rewrite (guard_allowed module status m user href Em). unfold allowed. rewrite !links_to_app, docs_link_to.
    rewrite !plain_link_to by (by destruct module). cbn [app]. rewrite app_nil_r. unfold access_link, links_to.
    destruct module; cbn [module_access]; destruct (hm_pricing m) as [[] []], (hm_rankings m) as [[] []]; by destruct user.
  - unfold module_guard, getModuleAccessForGuard, getModuleAccessFromStatus. by rewrite Em.
Qed.

(** * The two parsers *)

(** A value that both parsers read alike: a number is 0 or 1. *)
Definition clear_value (v : jsvalue) : bool :=
  match v with JNum n => num_eqb n num_one || num_eqb n num_zero | _ => true end.
(** A text that means a boolean without its context. *)
Definition clear_text (v : jsvalue) : bool := Bool.eqb (toBoolean v true) (toBoolean v false) || negb (is_primitive v).
Definition clear_entry (e : jsstr * jsvalue) : bool :=
  clear_value e.2 && clear_value (member e.2 (js "enabled")) && clear_value (member e.2 (js "requireAuth")) &&
  (existsb (fun name => e.1 === name) (FLAG_NAMES ++ ["pricing"; "rankings"]%string) || clear_text e.2).
Definition clear_setting (v : jsvalue) : bool :=
  match v with JObj fields => forallb clear_entry fields | JArr _ | JStr _ => false | _ => true end.

Lemma parse_boolean_clear v fallback : clear_value v = true -> parseHeaderNavBoolean v fallback = toBoolean v fallback.
Proof.
  destruct v as [| | |n| | |]; try done. cbn [clear_value parseHeaderNavBoolean toBoolean].
  destruct (num_eqb n num_one); [done|]. cbn [orb]. by intros ->.
Qed.
Lemma clear_text_fallback v a b : clear_text v = true -> is_primitive v = true -> toBoolean v a = toBoolean v b.
Proof. unfold clear_text. intros H Hp. rewrite Hp, orb_false_r in H. apply eqb_prop in H. by destruct a, b. Qed.

Lemma assign_own {A} (l : list (jsstr * A)) k v : own l k = Some v -> assign k v l = l.
Proof.
  induction l as [|[k' w] l IH]; [done|]. cbn [own assign]. destruct (str_eqb k k') eqn:E; [by intros [= ->]|].
  intros H. by rewrite IH.
Qed.

Lemma parse_access_clear v fallback : clear_entry (js "pricing", v) = true -> parseAccess v fallback = parseAccessModule v fallback.
Proof.
  unfold clear_entry. cbn [fst snd]. intros H. bools. unfold parseAccess, parseAccessModule.
  destruct v; try done; by rewrite !parse_boolean_clear.
Qed.

(** The modules before an entry is read: what it writes has its default. *)
Definition untouched (m : HeaderNavModules) (k : jsstr) : Prop :=
  ((k === "pricing") = true -> hm_pricing m = DEFAULT_ACCESS) /\
  ((k === "rankings") = true -> hm_rankings m = DEFAULT_ACCESS) /\
  own (hm_flags m) k = own DEFAULT_FLAGS k.

Lemma default_flag k b : own DEFAULT_FLAGS k = Some b -> b = true.
Proof.
  intros H%own_In. unfold DEFAULT_FLAGS, FLAG_NAMES in H. cbn [map] in H.
  repeat (apply elem_of_cons in H as [[= _ ->]|H]; [done|]). by apply elem_of_nil in H.
Qed.
Lemma known_flag k : own DEFAULT_FLAGS k = None -> existsb (fun name => k === name) FLAG_NAMES = false.
Proof. unfold DEFAULT_FLAGS, FLAG_NAMES. cbn. by repeat case_match. Qed.

Lemma flag_value v fallback k : clear_entry (k, v) = true -> (k === "pricing") = false -> (k === "rankings") = false ->
  fallback = own DEFAULT_FLAGS k -> is_primitive v = true ->
  parseHeaderNavBoolean v (default true fallback) = toBoolean v (base_flag k).
Proof.
  unfold clear_entry. cbn [fst snd]. intros H H1 H2 -> Hp. bools. rewrite parse_boolean_clear by done. unfold base_flag.
  destruct (own DEFAULT_FLAGS k) as [b|] eqn:E; [done|]. apply clear_text_fallback; [|done].
  rewrite existsb_app, known_flag in H0 by done. cbn [existsb] in H0. by rewrite H1, H2 in H0.
Qed.

Lemma entries_agree m k v : untouched m k -> clear_entry (k, v) = true -> header_entry m (k, v) = config_entry m (k, v).
Proof.
  intros (Hp & Hr & Ho) Hc. unfold header_entry, config_entry. destruct (k === "pricing") eqn:E1.
  { apply str_eqb_eq in E1 as ->. rewrite Hp by done. by rewrite parse_access_clear. }
  destruct (k === "rankings") eqn:E2.
  { apply str_eqb_eq in E2 as ->. rewrite Hr by done. by rewrite parse_access_clear. }
  pose proof (flag_value v _ k Hc E1 E2 Ho) as Hv. destruct (is_primitive v) eqn:Ep.
  - rewrite orb_true_r, Hv by done. by destruct v.
  - rewrite orb_false_r. assert (Hm : forall b, own (hm_flags m) k = Some b -> with_flags (set_flag k b (hm_flags m)) m = m).
    { intros b Hb. unfold set_flag, with_flags. destruct m as [fl pr ra]. cbn [hm_flags hm_pricing hm_rankings] in *.
      destruct (k === "__proto__"); [done|]. by rewrite assign_own. }
    destruct v; try done; destruct (own (hm_flags m) k) as [b|] eqn:E; try done; cbn [is_some default parseHeaderNavBoolean];
      by rewrite Hm.
Qed.

Lemma entry_touches m k v k' : k <> k' -> untouched m k' -> untouched (config_entry m (k, v)) k'.
Proof.
  intros Hk (Hp & Hr & Ho). unfold config_entry. destruct (str_eqb_reflect k (js "pricing")) as [->|].
  { split; [|done]. cbn [with_pricing hm_pricing]. intros ->%str_eqb_eq. done. }
  destruct (str_eqb_reflect k (js "rankings")) as [->|].
  { split; [done|]. split; [|done]. cbn [with_rankings hm_rankings]. intros ->%str_eqb_eq. done. }
  assert (Hs : forall b, untouched (with_flags (set_flag k b (hm_flags m)) m) k').
  { intros b. split; [done|]. split; [done|]. unfold set_flag. cbn [with_flags hm_flags]. destruct (k === "__proto__"); [done|].
    rewrite own_assign. rewrite (proj2 (str_eqb_neq k' k)); [done|congruence]. }
  by destruct v; try apply Hs.
Qed.

Lemma folds_agree fields : forall m, NoDup (map fst fields) -> forallb clear_entry fields = true ->
  Forall (untouched m) (map fst fields) -> fold_left header_entry fields m = fold_left config_entry fields m.
Proof.
  induction fields as [|[k v] l IH]; intros m Hd Hc Hu; [done|]. cbn [map fst forallb fold_left] in *. bools.
  apply list.NoDup_cons in Hd as [Hk Hd]. apply list.Forall_cons in Hu as [Hu Hl].
  rewrite entries_agree by done. apply IH; [done|done|]. rewrite Forall_forall in Hl |- *. intros x Hx.
  apply entry_touches; [|by apply Hl]. by intros ->.
Qed.

(** The editor shows what the site does, for a setting whose numbers are 0 or 1 and whose texts mean a
    boolean: both parsers read the same modules. *)
Theorem editor_shows_site text v : JSON_parse text = Ok v -> clear_setting v = true ->
  parseHeaderNavModules (JStr text) = Ok (config_parseHeaderNavModules (Some text)).
Proof.
  intros Hp Hc. unfold parseHeaderNavModules, parseHeaderNavRecord, config_parseHeaderNavModules.
  cbn [js_String to_text value_truthy]. destruct text as [|c t]; [done|]. cbn [truthy negb].
  destruct (truthy (trim (c :: t))) eqn:Et; cbn [negb].
  - rewrite Hp. pose proof (JSON_parse_unique _ _ Hp) as Hu. f_equal.
    destruct v as [| |b|n| | |fields]; try done; cbn [value_truthy nullish entries_of fold_left]; [by destruct b|by destruct (num_truthy n)|].
    cbn [clear_setting unique_members] in *. apply folds_agree; [done|done|]. by apply Forall_forall.
  - assert (Hb : trim (c :: t) = []) by (by destruct (trim (c :: t))). apply blank_parse in Hb. congruence.
Qed.

End Facts.

(** * A setting that the two parsers read differently *)

Definition odd_setting : jsstr := quotes "{'home':2,'pricing':{'enabled':2}}".

(** A number other than 0 and 1 is off in the editor and keeps the default, which is on, for the site;
    submitting the form as it is shown sends nothing, so that the two stay apart. *)
Theorem odd_setting_differs {P : Platform} :
  let shown := toFormValues (config_parseHeaderNavModules (Some odd_setting)) in
  hf_home shown = false /\ ma_enabled (hf_pricing shown) = false /\
  header_section_submit (Some odd_setting) shown = None /\
  parseHeaderNavModules (JStr odd_setting) = Ok DEFAULT_HEADER_NAV_MODULES.
Proof. repeat split; by vm_compute. Qed.

(** * Witnesses *)

Definition private_form : HeaderNavFormValues :=
  HeaderForm true true (Access true true) (Access false false) true false true.
Definition custom_header : jsstr := quotes "{'home':true,'lab':0,'pricing':false}".
(** The same with a module of an object. *)
Definition nested_header : jsstr := quotes "{'home':true,'lab':0,'beta':{'enabled':true},'pricing':false}".
Definition nested_members : list (jsstr * jsvalue) :=
  [(js "home", JBool true); (js "lab", JNum num_zero); (js "beta", JObj [(js "enabled", JBool true)]); (js "pricing", JBool false)].

Lemma header_saved_enforced_witness :
  names_ok (config_parseHeaderNavModules (P := plain_platform) (Some nested_header)) /\
  match header_section_submit (P := plain_platform) (Some nested_header) private_form with
  | None => False
  | Some text =>
      own (hm_flags (config_parseHeaderNavModules (P := plain_platform) (Some text))) (js "lab") = Some false /\
      own (hm_flags (config_parseHeaderNavModules (P := plain_platform) (Some text))) (js "beta") = None /\
      module_guard (P := plain_platform) (E := unit) Pricing (Ok (JObj [(js "HeaderNavModules", JStr text)])) None (js "/pricing")
      = RedirectToSignIn (js "/pricing")
  end.
Proof.
  assert (Hn : names_ok (config_parseHeaderNavModules (P := plain_platform) (Some nested_header))).
  { apply (bool_decide_unpack _). by vm_compute. }
  split; [done|]. pose proof (header_saved_enforced (P := plain_platform) (Some nested_header) private_form Hn) as H.
  destruct (header_section_submit (P := plain_platform) (Some nested_header) private_form) as [text|].
  - destruct H as (_ & _ & Ho & _ & Hg).
    assert (Hp : JSON_parse nested_header = Ok (JObj nested_members)) by (by vm_compute).
    assert (Hd : NoDup (map fst nested_members)) by (apply (bool_decide_unpack _); by vm_compute). split; [|split].
    + rewrite (Ho _ _ _ eq_refl Hp Hd); [by vm_compute|]. apply (bool_decide_unpack _). by vm_compute.
    + rewrite (Ho _ _ _ eq_refl Hp Hd); [by vm_compute|]. apply (bool_decide_unpack _). by vm_compute.
    + by rewrite (Hg unit (JObj [(js "HeaderNavModules", JStr text)])).
  - apply (f_equal hf_about) in H. by vm_compute in H.
Defined.

Lemma editor_shows_site_witness :
  JSON_parse custom_header = Ok (JObj [(js "home", JBool true); (js "lab", JNum num_zero); (js "pricing", JBool false)]) /\
  parseHeaderNavModules (P := plain_platform) (JStr custom_header)
  = Ok (config_parseHeaderNavModules (P := plain_platform) (Some custom_header)).
Proof.
  assert (Hp : JSON_parse custom_header = Ok (JObj [(js "home", JBool true); (js "lab", JNum num_zero); (js "pricing", JBool false)])) by (by vm_compute).
  split; [done|]. apply (editor_shows_site (P := plain_platform) custom_header _ Hp). by vm_compute.
Defined.
