(* ===== verification/Sidebar.v ===== *)
(** The sidebar of the console: [hooks/use-sidebar-config.ts], [hooks/use-sidebar-data.ts] and
    [hooks/use-sidebar-view.ts], the guard [isSidebarModuleEnabled] of [lib/nav-modules.ts], and the
    editor of the setting [SidebarModulesAdmin] ([system-settings/maintenance/config.ts] and
    [sidebar-modules-section.tsx]).  Entries are hidden by the administrator for everyone and by a
    user for herself. *)
From Stdlib Require Import ZArith Lia Bool String.
From stdpp Require Import base list option.
From S2P Require Import Prelude JsString JsNumber Types JsValue Collections Runtime Json JsonText Conversations AuthSession NavModules.

(** * Defaults *)

(** [SidebarSectionConfig] and [SidebarModulesAdminConfig] as the editor holds them. *)
Definition section_config : Type := list (jsstr * bool).
Definition sidebar_config : Type := list (jsstr * section_config).

Definition section_names (section : string) (modules : list string) : jsstr * section_config :=
  (js section, map (fun name => (js name, true)) ("enabled"%string :: modules)).
(** [SIDEBAR_MODULES_DEFAULT] and [DEFAULT_SIDEBAR_MODULES]. *)
Definition SIDEBAR_MODULES_DEFAULT : sidebar_config :=
  [section_names "chat" ["playground"; "chat"]%string;
   section_names "console" ["detail"; "token"; "log"; "audit"; "midjourney"; "task"]%string;
   section_names "personal" ["topup"; "personal"; "security"]%string;
   section_names "admin" ["channel"; "models"; "redemption"; "user"; "setting"; "subscription"]%string].

(** * The editor of the setting *)

(** The characters that split or change the path of a field of the form. *)
Definition PATH_CHARS : list Z := [34; 39; 44; 46; 91; 93; 124]%Z.
(** The names of a setting that are not members of [Object.prototype], which the parser of the editor would
    find among the defaults, and that are one step of a path of the form; the editor is modelled for
    settings of such names. *)
Definition plain_name (name : jsstr) : bool :=
  truthy name && negb (existsb (fun n => name === n) inherited_names) &&
  forallb (fun c => negb (existsb (Z.eqb c) PATH_CHARS)) name.
Definition plain_names (v : jsvalue) : bool :=
  forallb (fun e => plain_name e.1 && forallb (fun f => plain_name f.1) (entries_of e.2)) (entries_of v).

Section Sidebar.
Context {P : Platform}.

(** [defaults[sectionKey] ?? { enabled: true }]. *)
Definition default_section (sectionKey : jsstr) : section_config :=
  match own SIDEBAR_MODULES_DEFAULT sectionKey with Some c => c | None => [(js "enabled", true)] end.
Definition module_default (section : section_config) (moduleKey : jsstr) : bool :=
  match own section moduleKey with Some b => b | None => true end.

Definition parse_section (sectionKey : jsstr) (raw : jsvalue) : section_config :=
  let defaults := default_section sectionKey in
  fold_left
    (fun config e =>
       if e.1 === "enabled" then config
       else assign e.1 (toBoolean e.2 (module_default defaults e.1)) config)
    (entries_of raw)
    [(js "enabled", toBoolean (member raw (js "enabled")) (module_default defaults (js "enabled")))].

(** A module of the defaults that a section does not have. *)
Definition fill (s : section_config) (m : jsstr * bool) : section_config :=
  if is_some (own s m.1) then s else assign m.1 m.2 s.
(** The merge of one section of the defaults. *)
Definition merge_section (result : sidebar_config) (e : jsstr * section_config) : sidebar_config :=
  match own result e.1 with
  | None => assign e.1 e.2 result
  | Some section => assign e.1 (fold_left fill e.2 section) result
  end.

Definition parseSidebarModulesAdmin (value : option jsstr) : sidebar_config :=
  match value with
  | None => SIDEBAR_MODULES_DEFAULT
  | Some text =>
      if negb (truthy text) || negb (truthy (trim text)) then SIDEBAR_MODULES_DEFAULT
      else
        match JSON_parse text with
        | Ok parsed =>
            if nullish parsed then SIDEBAR_MODULES_DEFAULT
            else
              let result :=
                fold_left
                  (fun result e =>
                     match e.2 with
                     | JArr _ | JObj _ => assign e.1 (parse_section e.1 e.2) result
                     | _ => result
                     end) (entries_of parsed) [] in
              fold_left merge_section SIDEBAR_MODULES_DEFAULT result
        | Err _ => SIDEBAR_MODULES_DEFAULT
        end
  end.

Definition section_object (c : section_config) : jsvalue := JObj (flag_members c).
Definition sidebar_object (c : sidebar_config) : jsvalue := JObj (map (fun e => (e.1, section_object e.2)) c).
Definition serializeSidebarModulesAdmin (config : sidebar_config) : jsstr :=
  match JSON_stringify_plain (sidebar_object config) with Some text => text | None => [] end.

(** A switch of the form: there is one for each module of each section, and the path of its field is the name
    of the section, a dot and the name of the module.  For plain names ([plain_name]) this path has two
    steps, and the switch sets the module of the section; other names are not modelled. *)
Definition toggle (section module : jsstr) (b : bool) (values : sidebar_config) : sidebar_config :=
  match own values section with
  | Some c => if is_some (own c module) then assign section (assign module b c) values else values
  | None => values
  end.

Definition sidebar_onSubmit (initialSerialized : jsstr) (values : sidebar_config) : option jsstr :=
  let serialized := serializeSidebarModulesAdmin values in
  if str_eqb serialized initialSerialized then None else Some serialized.

(** The section as it is built from the stored text, with the switches that are used. *)
Definition sidebar_section_submit (stored : option jsstr) (switches : list (jsstr * jsstr * bool)) : option jsstr :=
  let config := parseSidebarModulesAdmin stored in
  sidebar_onSubmit (serializeSidebarModulesAdmin config)
    (fold_left (fun values s => toggle s.1.1 s.1.2 s.2 values) switches config).

(** * The sidebar *)

(** [{ ...a, ...b }]. *)
Definition spread_members (a b : list (jsstr * jsvalue)) : list (jsstr * jsvalue) :=
  fold_left (fun acc e => assign e.1 e.2 acc) b a.

Definition is_undefined_value (v : jsvalue) : bool := match v with JUndefined => true | _ => false end.

(** One section of the loop of [mergeWithDefaultSidebarModules]. *)
Definition merge_default (merged : list (jsstr * jsvalue)) (e : jsstr * section_config) : list (jsstr * jsvalue) :=
  let existing := member (JObj merged) e.1 in
  if negb (value_truthy existing) then assign e.1 (section_object e.2) merged
  else
    let section := spread_members (flag_members e.2) (entries_of existing) in
    assign e.1
      (JObj (fold_left
               (fun s m => if is_undefined_value (member (JObj s) m.1) then assign m.1 (JBool m.2) s else s)
               e.2 section)) merged.

Definition mergeWithDefaultSidebarModules (config : jsvalue) : list (jsstr * jsvalue) :=
  fold_left merge_default SIDEBAR_MODULES_DEFAULT (spread_members [] (entries_of config)).

Definition DEFAULT_SIDEBAR_OBJECT : list (jsstr * jsvalue) :=
  map (fun e => (e.1, section_object e.2)) SIDEBAR_MODULES_DEFAULT.

(** [value] is the field of the status cast to a text: calling [trim] on another value that is
    truthy throws. *)
Definition parseSidebarConfig (value : jsvalue) : result property_error (list (jsstr * jsvalue)) :=
  if negb (value_truthy value) then Ok DEFAULT_SIDEBAR_OBJECT
  else
    let! text := call_trim value in
    if negb (truthy text) then Ok DEFAULT_SIDEBAR_OBJECT
    else match value with
         | JStr s => Ok (match JSON_parse s with
                         | Ok parsed => mergeWithDefaultSidebarModules parsed
                         | Err _ => DEFAULT_SIDEBAR_OBJECT
                         end)
         | _ => Err TypeError
         end.

(** [None] is [null]: the user hides nothing. *)
Definition parseUserSidebarConfig (value : jsvalue) : result property_error (option jsvalue) :=
  if negb (value_truthy value) then Ok None
  else
    let! text := call_trim value in
    if negb (truthy text) then Ok None
    else match value with
         | JStr s => Ok (match JSON_parse s with
                         | Ok ((JArr _ | JObj _) as parsed) => Some parsed
                         | _ => None
                         end)
         | _ => Err TypeError
         end.

Definition URL_TO_CONFIG_MAP : list (string * (string * string)) :=
  [("/playground", ("chat", "playground"));
   ("/dashboard", ("console", "detail"));
   ("/dashboard/overview", ("console", "detail"));
   ("/dashboard/models", ("console", "detail"));
   ("/dashboard/users", ("console", "detail"));
   ("/keys", ("console", "token"));
   ("/usage-logs", ("console", "log"));
   ("/usage-logs/common", ("console", "log"));
   ("/usage-logs/audit", ("console", "audit"));
   ("/usage-logs/drawing", ("console", "midjourney"));
   ("/usage-logs/task", ("console", "task"));
   ("/wallet", ("personal", "topup"));
   ("/profile", ("personal", "personal"));
   ("/security", ("personal", "security"));
   ("/channels", ("admin", "channel"));
   ("/models", ("admin", "models"));
   ("/models/metadata", ("admin", "models"));
   ("/models/deployments", ("admin", "models"));
   ("/users", ("admin", "user"));
   ("/redemption-codes", ("admin", "redemption"));
   ("/subscriptions", ("admin", "subscription"));
   ("/system-settings", ("admin", "setting"));
   ("/system-settings/site", ("admin", "setting"))]%string.

(** [URL_TO_CONFIG_MAP[url]]: an inherited member has neither section nor module, and
    [undefined] is the key of that name. *)
Definition url_mapping (url : jsstr) : option (string * string) :=
  match find (fun e => url === (e.1)) URL_TO_CONFIG_MAP with
  | Some e => Some e.2
  | None => if existsb (fun n => url === n) inherited_names then Some ("undefined", "undefined")%string else None
  end.

Definition is_true (v : jsvalue) : bool := strict_eqb v (JBool true).
Definition is_false (v : jsvalue) : bool := strict_eqb v (JBool false).

(** [Boolean(section && section.enabled && section[module] === true)]. *)
Definition admin_allows (section : jsvalue) (module : string) : bool :=
  value_truthy section && value_truthy (member section (js "enabled")) && is_true (member section (js module)).
(** What a user allows of a section. *)
Definition user_allows (section : jsvalue) (module : string) : bool :=
  if negb (value_truthy section) then true
  else if is_false (member section (js "enabled")) then false
  else negb (is_false (member section (js module))).

Definition isModuleEnabled (url : jsstr) (adminConfig : list (jsstr * jsvalue)) (userConfig : option jsvalue) : bool :=
  match url_mapping url with
  | None => true
  | Some (section, module) =>
      if negb (admin_allows (member (JObj adminConfig) (js section)) module) then false
      else match userConfig with
           | None => true
           | Some user => user_allows (member user (js section)) module
           end
  end.

(** ** Items ([components/layout/types.ts]) *)

Record nav_base := NavBase { n_title : jsstr; n_configUrls : option (list jsstr); n_requiredRole : option number }.
Inductive NavItem :=
| NavLink (base : nav_base) (url : jsstr)
| NavCollapsible (base : nav_base) (items : list (nav_base * jsstr))
| NavChatPresets (base : nav_base).
Record NavGroup := Group { g_id : option jsstr; g_title : jsstr; g_items : list NavItem }.

Definition item_base (item : NavItem) : nav_base :=
  match item with NavLink b _ | NavCollapsible b _ | NavChatPresets b => b end.

Definition isNavItemVisible (item : NavItem) (adminConfig : list (jsstr * jsvalue)) (userConfig : option jsvalue) : bool :=
  match item with
  | NavChatPresets _ =>
      if negb (admin_allows (member (JObj adminConfig) (js "chat")) "chat") then false
      else match userConfig with
           | None => true
           | Some user => user_allows (member user (js "chat")) "chat"
           end
  | NavLink base url =>
      if truthy url then
        existsb (fun u => isModuleEnabled u adminConfig userConfig)
          (match n_configUrls base with Some urls => urls | None => [url] end)
      else true
  | NavCollapsible _ items => existsb (fun sub => isModuleEnabled sub.2 adminConfig userConfig) items
  end.

Definition filter_item (adminConfig : list (jsstr * jsvalue)) (userConfig : option jsvalue) (item : NavItem) : NavItem :=
  match item with
  | NavCollapsible base items =>
      NavCollapsible base (List.filter (fun sub => isModuleEnabled sub.2 adminConfig userConfig) items)
  | _ => item
  end.
Definition filterNavItems (items : list NavItem) (adminConfig : list (jsstr * jsvalue)) (userConfig : option jsvalue)
  : list NavItem :=
  List.filter (fun item => isNavItemVisible item adminConfig userConfig) (map (filter_item adminConfig userConfig) items).

(** [auth?.user?.permissions?.sidebar_settings === false] and [auth?.user?.sidebar_modules]. *)
Definition user_object (user : option auth_user) : jsvalue :=
  match user with Some u => u_object u | None => JUndefined end.
Definition user_sidebar (user : option auth_user) : result property_error (option jsvalue) :=
  if is_false (optional_member (optional_member (user_object user) (js "permissions")) (js "sidebar_settings"))
  then Ok None
  else parseUserSidebarConfig (optional_member (user_object user) (js "sidebar_modules")).

Definition filter_groups (navGroups : list NavGroup) (adminConfig : list (jsstr * jsvalue)) (userConfig : option jsvalue)
  : list NavGroup :=
  List.filter (fun g => negb (Nat.eqb (length (g_items g)) 0))
    (map (fun g => Group (g_id g) (g_title g) (filterNavItems (g_items g) adminConfig userConfig)) navGroups).

Definition useSidebarConfig (status : jsvalue) (user : option auth_user) (navGroups : list NavGroup)
  : result property_error (list NavGroup) :=
  let! adminConfig := parseSidebarConfig (optional_member status (js "SidebarModulesAdmin")) in
  let! userConfig := user_sidebar user in
  Ok (filter_groups navGroups adminConfig userConfig).

Definition useIsSidebarModuleVisible (status : jsvalue) (user : option auth_user) (url : jsstr)
  : result property_error bool :=
  let! adminConfig := parseSidebarConfig (optional_member status (js "SidebarModulesAdmin")) in
  let! userConfig := user_sidebar user in
  Ok (isModuleEnabled url adminConfig userConfig).

(** ** The root view ([use-sidebar-view.ts]) *)

Definition ROLE_GUEST : number := num_zero.
Definition ROLE_ADMIN : number := num_of_Z 10.
Definition ROLE_SUPER_ADMIN : number := num_of_Z 100.

Definition role_filter (role : number) (groups : list NavGroup) : list NavGroup :=
  map (fun g => Group (g_id g) (g_title g)
                  (List.filter (fun item => match n_requiredRole (item_base item) with
                                            | None => true
                                            | Some r => num_leb r role
                                            end) (g_items g)))
    (List.filter (fun g => match g_id g with
                           | Some id => if id === "admin" then num_leb ROLE_ADMIN role else true
                           | None => true
                           end) groups).

Definition rootNavGroups (status : jsvalue) (user : option auth_user) (navGroups : list NavGroup)
  : result property_error (list NavGroup) :=
  let! configFilteredRoot := useSidebarConfig status user navGroups in
  let role := match user with Some u => u_role u | None => ROLE_GUEST end in
  Ok (role_filter role configFilteredRoot).

(** ** The entries ([use-sidebar-data.ts]) *)

Definition plain_item (title url : jsstr) : NavItem := NavLink (NavBase title None None) url.
Definition role_item (role : number) (title url : jsstr) : NavItem := NavLink (NavBase title None (Some role)) url.

(** [t] is the translation of a title. *)
Definition useSidebarData (t : string -> jsstr) : list NavGroup :=
  let item title url := plain_item (t title) (js url) in
  let root title url := role_item ROLE_SUPER_ADMIN (t title) (js url) in
  let admin title url := role_item ROLE_ADMIN (t title) (js url) in
  [Group (Some (js "chat")) (t "Chat") [item "Playground" "/playground"];
   Group (Some (js "general")) (t "General")
     [item "Overview" "/dashboard/overview"; item "Dashboard" "/dashboard/models"; item "API Keys" "/keys";
      item "Usage Logs" "/usage-logs/common"; item "Audit Logs" "/usage-logs/audit";
      NavLink (NavBase (t "Task Logs") (Some [js "/usage-logs/drawing"; js "/usage-logs/task"]) None) (js "/usage-logs/task")];
   Group (Some (js "personal")) (t "Personal")
     [item "Wallet" "/wallet"; item "Profile" "/profile"; item "Security & Access" "/security"];
   Group (Some (js "admin")) (t "Admin")
     [item "Channels" "/channels"; item "Models" "/models/metadata"; item "Users" "/users";
      item "Redemption Codes" "/redemption-codes"; item "Subscriptions" "/subscriptions";
      root "System Info" "/system-info"; root "Task Plugins" "/task-plugins"; root "Web Protection" "/web-protection";
      admin "Action Approvals" "/action-approvals"; admin "Ops Panel" "/ops-panel"; admin "Training Data" "/training-data";
      root "Webhook" "/webhook"; item "System Settings" "/system-settings/site"]]%string.

(** * The guard of a page *)

(** An exception in the [try] block counts as enabled; the text of [raw] is taken before it as
    well. *)
Definition isSidebarModuleEnabled {L : LocalStorage} (section module : jsstr) (st : storage) : result property_error bool :=
  let status := readCachedStatus st in
  if negb (value_truthy status) then Ok true
  else
    let raw := member status (js "SidebarModulesAdmin") in
    if negb (value_truthy raw) then Ok true
    else
      let! text := js_String raw in
      if negb (truthy (trim text)) then Ok true
      else
        match JSON_parse text with
        | Err _ => Ok true
        | Ok parsed =>
            if nullish parsed then Ok true
            else
              let sectionConfig := member parsed section in
              Ok (if negb (value_truthy sectionConfig) then true
                  else if is_false (member sectionConfig (js "enabled")) then false
                  else negb (is_false (member sectionConfig module)))
        end.

Definition playground_beforeLoad {L : LocalStorage} (st : storage) : result property_error navigation :=
  let! enabled := isSidebarModuleEnabled (js "chat") (js "playground") st in
  Ok (if enabled then ShowPage else RedirectTo "/dashboard").

End Sidebar.
