(* ===== verification/SidebarFacts.v ===== *)
(** What the sidebar shows and what its guard lets in ([Sidebar]). *)
From Stdlib Require Import ZArith Lia Bool String.
From stdpp Require Import base list option sets.
From S2P Require Import Prelude JsString JsNumber Types JsValue Collections Runtime Json JsonText Schema Conversations AuthSession NavModules NavFacts Sidebar.

(** * Entries of the sidebar *)

(** A link, a link below another item, or the list of chats. *)
Inductive sidebar_entry :=
| EntryLink (base : nav_base) (url : jsstr)
| EntrySub (parent base : nav_base) (url : jsstr)
| EntryChats (base : nav_base).

Definition item_entries (item : NavItem) : list sidebar_entry :=
  match item with
  | NavLink base url => [EntryLink base url]
  | NavCollapsible parent items => map (fun sub => EntrySub parent sub.1 sub.2) items
  | NavChatPresets base => [EntryChats base]
  end.
(** The entries with the groups they are in. *)
Definition group_entries (g : NavGroup) : list (option jsstr * sidebar_entry) :=
  map (pair (g_id g)) (flat_map item_entries (g_items g)).
Definition sidebar_entries (groups : list NavGroup) : list (option jsstr * sidebar_entry) := flat_map group_entries groups.

Definition entry_enabled (admin : list (jsstr * jsvalue)) (user : option jsvalue) (e : sidebar_entry) : bool :=
  match e with
  | EntryLink base url => isNavItemVisible (NavLink base url) admin user
  | EntrySub _ _ url => isModuleEnabled url admin user
  | EntryChats base => isNavItemVisible (NavChatPresets base) admin user
  end.
(** What the role of a user allows. *)
Definition entry_role (e : sidebar_entry) : option number :=
  match e with EntryLink b _ | EntrySub b _ _ | EntryChats b => n_requiredRole b end.
Definition role_allows (role : number) (e : option jsstr * sidebar_entry) : bool :=
  match e.1 with Some id => if id === "admin" then num_leb ROLE_ADMIN role else true | None => true end &&
  match entry_role e.2 with None => true | Some r => num_leb r role end.

Lemma flat_map_filter {A B} (f : A -> list B) (p : A -> bool) (q : B -> bool) l : (forall x, List.filter q (f x) = if p x then f x else []) ->
  flat_map f (List.filter p l) = List.filter q (flat_map f l).
Proof.
  intros H. induction l as [|x l IH]; [done|]. cbn [List.filter flat_map]. rewrite List.filter_app, H, <- IH.
  by destruct (p x).
Qed.
Lemma filter_all_false {A} (p : A -> bool) l : existsb p l = false -> List.filter p l = [].
Proof. induction l as [|x l IH]; [done|]. cbn. destruct (p x); [done|]. exact IH. Qed.
Lemma filter_map_comm {A B} (f : A -> B) (p : B -> bool) l : List.filter p (map f l) = map f (List.filter (fun x => p (f x)) l).
Proof. induction l as [|x l IH]; [done|]. cbn. rewrite IH. by destruct (p (f x)). Qed.
Lemma filter_idem {A} (p : A -> bool) l : List.filter p (List.filter p l) = List.filter p l.
Proof. induction l as [|x l IH]; [done|]. cbn. destruct (p x) eqn:E; [|done]. cbn. by rewrite E, IH. Qed.
Lemma filter_both {A} (p q : A -> bool) l : List.filter q (List.filter p l) = List.filter (fun x => p x && q x) l.
Proof. induction l as [|x l IH]; [done|]. cbn. destruct (p x); cbn; by rewrite IH. Qed.
Lemma filter_const {A} (b : bool) (l : list A) : List.filter (fun _ => b) l = if b then l else [].
Proof. induction l as [|x l IH]; [by destruct b|]. cbn. rewrite IH. by destruct b. Qed.

Lemma filtered_item_entries admin user item :
  (if isNavItemVisible (filter_item admin user item) admin user then item_entries (filter_item admin user item) else [])
  = List.filter (entry_enabled admin user) (item_entries item).
Proof.
  destruct item as [base url|parent items|base]; cbn [filter_item item_entries List.filter entry_enabled]; [done| |done].
  rewrite filter_map_comm. cbn [entry_enabled]. cbn [isNavItemVisible].
  destruct (existsb _ _) eqn:E; [done|]. apply filter_all_false in E. rewrite filter_idem in E. by rewrite E.
Qed.

Lemma filtered_items_entries admin user items :
  flat_map item_entries (filterNavItems items admin user) = List.filter (entry_enabled admin user) (flat_map item_entries items).
Proof.
  unfold filterNavItems. induction items as [|item items IH]; [done|]. cbn [map List.filter flat_map].
  rewrite List.filter_app, <- filtered_item_entries, <- IH. by destruct (isNavItemVisible _ _ _).
Qed.

Lemma group_entries_filter p g :
  List.filter p (group_entries g) = map (pair (g_id g)) (List.filter (fun e => p (g_id g, e)) (flat_map item_entries (g_items g))).
Proof. apply filter_map_comm. Qed.

Lemma filter_groups_entries admin user groups :
  sidebar_entries (filter_groups groups admin user) = List.filter (fun e => entry_enabled admin user e.2) (sidebar_entries groups).
Proof.
  unfold filter_groups, sidebar_entries. induction groups as [|g groups IH]; [done|]. cbn [map List.filter flat_map].
  rewrite List.filter_app, <- IH, group_entries_filter.
  change (List.filter _ (flat_map item_entries (g_items g)))
    with (List.filter (entry_enabled admin user) (flat_map item_entries (g_items g))).
  rewrite <- (filtered_items_entries admin user (g_items g)). cbn [g_items].
  destruct (filterNavItems (g_items g) admin user) eqn:E; cbn [length Nat.eqb negb]; [done|]. cbn [flat_map].
  unfold group_entries at 1. cbn [g_items g_id]. done.
Qed.

Lemma role_filter_entries role groups :
  sidebar_entries (role_filter role groups) = List.filter (role_allows role) (sidebar_entries groups).
Proof.
  unfold role_filter, sidebar_entries. induction groups as [|g groups IH]; [done|]. cbn [List.filter flat_map].
  rewrite List.filter_app, <- IH, group_entries_filter. unfold role_allows at 1. cbn [fst snd].
  destruct (match g_id g with Some id => _ | None => true end); cbn [andb map flat_map].
  - f_equal. unfold group_entries. cbn [g_id g_items]. f_equal. apply flat_map_filter.
    intros [b u|b subs|b]; cbn [item_entries item_base List.filter entry_role]; try done.
    rewrite filter_map_comm. cbn [entry_role]. rewrite filter_const. by destruct (match n_requiredRole b with Some _ => _ | None => _ end).
  - by rewrite filter_const.
Qed.

(** ** What is allowed, member by member *)

(** The administrator shows a module: its section is there and is not switched off, and the module is true. *)
Definition admin_shows (admin : list (jsstr * jsvalue)) (section module : string) : Prop :=
  let s := member (JObj admin) (js section) in
  value_truthy s = true /\ value_truthy (member s (js "enabled")) = true /\ member s (js module) = JBool true.
(** The user hides a module: in a section of her own setting, this is false or the module is. *)
Definition user_hides (user : option jsvalue) (section module : string) : Prop :=
  exists u, user = Some u /\ value_truthy (member u (js section)) = true /\
    (member (member u (js section)) (js "enabled") = JBool false \/ member (member u (js section)) (js module) = JBool false).
Definition module_shown admin user section module : Prop :=
  admin_shows admin section module /\ ~ user_hides user section module.
(** A page that belongs to no module is shown. *)
Definition url_shown admin user (url : jsstr) : Prop :=
  forall section module, url_mapping url = Some (section, module) -> module_shown admin user section module.
(** A link stands for the pages it lists, or for its own; a link without a page is shown. *)
Definition entry_shown admin user (e : sidebar_entry) : Prop :=
  match e with
  | EntryLink base url =>
      url <> [] -> exists page, page ∈ default [url] (n_configUrls base) /\ url_shown admin user page
  | EntrySub _ _ url => url_shown admin user url
  | EntryChats _ => module_shown admin user "chat" "chat"
  end.
(** The group of the administrators needs their role, and an entry the role it asks for. *)
Definition role_shown (role : number) (e : option jsstr * sidebar_entry) : Prop :=
  (e.1 = Some (js "admin") -> num_leb ROLE_ADMIN role = true) /\
  (forall r, entry_role e.2 = Some r -> num_leb r role = true).

Lemma strict_bool v b : strict_eqb v (JBool b) = true <-> v = JBool b.
Proof. destruct v as [| |c| | | |]; try done. cbn. rewrite eqb_true_iff. split; [by intros ->|by intros [= ->]]. Qed.

Lemma admin_allows_spec admin section module :
  admin_allows (member (JObj admin) (js section)) module = true <-> admin_shows admin section module.
Proof. unfold admin_allows, admin_shows, is_true. cbv zeta. rewrite !andb_true_iff, strict_bool. tauto. Qed.

Lemma user_allows_spec user section module :
  match user with None => true | Some u => user_allows (member u (js section)) module end = true <-> ~ user_hides user section module.
Proof.
  unfold user_hides. destruct user as [u|]; [|split; [by intros _ (? & ? & _)|done]]. unfold user_allows, is_false.
  pose proof (strict_bool (member (member u (js section)) (js "enabled")) false) as H1.
  pose proof (strict_bool (member (member u (js section)) (js module)) false) as H2.
  destruct (value_truthy (member u (js section))) eqn:Et; cbn [negb].
  - destruct (strict_eqb _ _) eqn:E1 in |- *.
    + split; [done|]. intros H. exfalso. apply H. exists u. split; [done|]. split; [done|]. left. by apply H1.
    + destruct (strict_eqb _ _) eqn:E2 in |- *; (split; [|done || intros H; exfalso]).
      * done.
      * apply H. exists u. split; [done|]. split; [done|]. right. by apply H2.
      * intros _ (? & [= <-] & _ & [H|H]); [apply H1 in H|apply H2 in H]; congruence.
  - split; [|done]. intros _ (? & [= <-] & H & _). congruence.
Qed.

Lemma module_shown_spec admin user section module :
  (if negb (admin_allows (member (JObj admin) (js section)) module) then false
   else match user with None => true | Some u => user_allows (member u (js section)) module end) = true <->
  module_shown admin user section module.
Proof.
  unfold module_shown. rewrite <- admin_allows_spec, <- user_allows_spec.
  destruct (admin_allows _ _); cbn [negb]; [|split; [done|by intros [? _]]]. split; [done|by intros [_ ?]].
Qed.

Lemma url_shown_spec admin user url : isModuleEnabled url admin user = true <-> url_shown admin user url.
Proof.
  unfold isModuleEnabled, url_shown. destruct (url_mapping url) as [[s m]|]; [|done]. rewrite module_shown_spec.
  split; [by intros H ? ? [= <- <-]|by intros H; apply H].
Qed.

Lemma entry_shown_spec admin user e : entry_enabled admin user e = true <-> entry_shown admin user e.
Proof.
  destruct e as [base url|parent base url|base]; cbn [entry_enabled entry_shown isNavItemVisible];
    [|apply url_shown_spec|apply module_shown_spec].
  destruct url as [|c url]; cbn [truthy]; [by split|]. rewrite existsb_exists.
  change (match n_configUrls base with Some urls => urls | None => [c :: url] end) with (default [c :: url] (n_configUrls base)).
  split.
  - intros (page & Hp & Hs) _. exists page. rewrite list_elem_of_In. split; [done|]. by apply url_shown_spec.
  - intros H. destruct (H ltac:(done)) as (page & Hp & Hs). exists page. rewrite <- list_elem_of_In. split; [done|].
    by apply url_shown_spec.
Qed.

Lemma role_shown_spec role e : role_allows role e = true <-> role_shown role e.
Proof.
  unfold role_allows, role_shown. rewrite andb_true_iff. apply ZifyClasses.and_morph.
  - destruct e.1 as [id|]; [|by split]. destruct (str_eqb_reflect id (js "admin")) as [->|Hn]; [by split; [|intros H; apply H]|].
    split; [|done]. intros _ [= ->]. done.
  - destruct (entry_role e.2) as [r|]; [|by split]. split; [by intros H ? [= <-]|intros H; by apply H].
Qed.

Lemma module_narrows admin user section module :
  module_shown admin user section module -> module_shown admin None section module.
Proof. intros [H _]. split; [done|]. by intros (? & ? & _). Qed.

Lemma entry_narrows admin user e : entry_shown admin user e -> entry_shown admin None e.
Proof.
  destruct e as [base url|parent base url|base]; cbn [entry_shown].
  - intros H Hu. destruct (H Hu) as (page & Hp & Hs). exists page. split; [done|]. intros s m Hm. by eapply module_narrows, Hs.
  - intros H s m Hm. by eapply module_narrows, H.
  - apply module_narrows.
Qed.

(** ** The groups that are shown *)

Definition no_roles (g : NavGroup) : Prop := Forall (fun item => n_requiredRole (item_base item) = None) (g_items g).

Lemma filtered_no_roles admin user g : no_roles g ->
  Forall (fun item => n_requiredRole (item_base item) = None) (filterNavItems (g_items g) admin user).
Proof.
  unfold no_roles, filterNavItems. rewrite !Forall_forall. intros H item Hi%list_elem_of_In%filter_In.
  destruct Hi as [Hi _]. apply in_map_iff in Hi as (x & <- & Hx). apply list_elem_of_In in Hx. specialize (H x Hx). by destruct x.
Qed.

Lemma role_filter_kept role items : Forall (fun item => n_requiredRole (item_base item) = None) items ->
  List.filter (fun item => match n_requiredRole (item_base item) with None => true | Some r => num_leb r role end) items = items.
Proof. induction 1 as [|x l Hx _ IH]; [done|]. cbn [List.filter]. by rewrite Hx, IH. Qed.

(** A group stays non-empty when no role is asked for in it, or when it has a link to a page that belongs to
    no module and that asks for no more than the role of its group. *)
Lemma shown_nonempty role admin user groups :
  Forall (fun g => no_roles g \/ (g_id g = Some (js "admin") /\
    exists base url, NavLink base url ∈ g_items g /\ n_requiredRole base = Some ROLE_ADMIN /\
      n_configUrls base = None /\ url_mapping url = None)) groups ->
  Forall (fun g => g_items g <> []) (role_filter role (filter_groups groups admin user)).
Proof.
  intros Hg. rewrite !Forall_forall in *. intros g H%list_elem_of_In. unfold role_filter in H.
  apply in_map_iff in H as (g1 & <- & H). apply filter_In in H as [H Hrole]. unfold filter_groups in H.
  apply filter_In in H as [H Hne]. apply in_map_iff in H as (g0 & <- & H). apply list_elem_of_In, Hg in H.
  cbn [g_id g_items] in *. destruct H as [H|(Hid & base & url & Hin & Hr & Hc & Hm)].
  - rewrite role_filter_kept by (by apply filtered_no_roles). by destruct (filterNavItems _ _ _).
  - rewrite Hid in Hrole. rewrite str_eqb_refl in Hrole. intros E.
    assert (Hx : NavLink base url ∈ filterNavItems (g_items g0) admin user).
    { apply list_elem_of_In, filter_In. split.
      - apply in_map_iff. exists (NavLink base url). split; [done|]. by apply list_elem_of_In.
      - cbn [isNavItemVisible]. rewrite Hc. destruct (truthy url); [|done]. cbn [existsb]. unfold isModuleEnabled. by rewrite Hm. }
    eapply (not_elem_of_nil (NavLink base url)). rewrite <- E. apply list_elem_of_In, filter_In.
    split; [by apply list_elem_of_In|]. cbn [item_base]. by rewrite Hr.
Qed.

Lemma sidebar_data_groups t :
  Forall (fun g => no_roles g \/ (g_id g = Some (js "admin") /\
    exists base url, NavLink base url ∈ g_items g /\ n_requiredRole base = Some ROLE_ADMIN /\
      n_configUrls base = None /\ url_mapping url = None)) (useSidebarData t).
Proof.
  do 3 (apply Forall_cons_2; [left; by repeat constructor|]). apply Forall_cons_2; [|apply Forall_nil_2]. right.
  split; [done|]. exists (NavBase (t "Action Approvals"%string) None (Some ROLE_ADMIN)), (js "/action-approvals").
  split; [|done]. cbn [g_items]. do 8 right. left.
Qed.

(** C18. The sidebar shows exactly the entries that are allowed, in their order.  An entry is allowed when its
    role and that of its group are met and the module of one of its pages is shown: the section of the
    administrator is there, is not switched off and has true for the module, and the user does not hide it, with a
    section of her own that is false or has false for the module; pages of no module are always shown.  A
    user can only hide entries.  Of the groups of the program none is shown empty, after the roles were looked
    at.  (The setting of the status and of the user are texts or missing, as the parsers need.) *)
Theorem sidebar_shows_allowed status user groups admin overlay :
  let role := match user with Some u => u_role u | None => ROLE_GUEST end in
  parseSidebarConfig (optional_member status (js "SidebarModulesAdmin")) = Ok admin -> user_sidebar user = Ok overlay ->
  exists shown, rootNavGroups status user groups = Ok shown /\
    (exists keep, sidebar_entries shown = List.filter keep (sidebar_entries groups) /\
       forall e, keep e = true <-> entry_shown admin overlay e.2 /\ role_shown role e) /\
    (forall e, entry_shown admin overlay e -> entry_shown admin None e) /\
    (forall t, groups = useSidebarData t -> Forall (fun g => g_items g <> []) shown).
Proof.
  intros role Ha Hu. unfold rootNavGroups, useSidebarConfig. rewrite Ha, Hu. eexists. split; [done|]. split; [|split].
  - exists (fun e => entry_enabled admin overlay e.2 && role_allows role e). split.
    + rewrite role_filter_entries, filter_groups_entries. apply filter_both.
    + intros e. by rewrite andb_true_iff, entry_shown_spec, role_shown_spec.
  - intros e. apply entry_narrows.
  - intros t ->. apply shown_nonempty, sidebar_data_groups.
Qed.

(** * Configurations of the editor *)

(** A section starts with its own switch; its names are different. *)
Definition wf_section (c : section_config) : Prop :=
  (exists b rest, c = (js "enabled", b) :: rest) /\ NoDup (map fst c).
(** A section of the defaults is there with its modules. *)
Definition complete (c : sidebar_config) (d : jsstr * section_config) : Prop :=
  exists s, own c d.1 = Some s /\ Forall (fun m => own s m.1 <> None) d.2.
Definition wf_sections (c : sidebar_config) : Prop := NoDup (map fst c) /\ Forall (fun e => wf_section e.2) c.
Definition wf_sidebar (c : sidebar_config) : Prop := wf_sections c /\ Forall (complete c) SIDEBAR_MODULES_DEFAULT.

Lemma Forall_assign {A} (Q : A -> Prop) k v l : Q v -> Forall (fun e => Q e.2) l -> Forall (fun e => Q e.2) (assign k v l).
Proof.
  intros Hv. induction 1 as [|[k' w] l Hw Hl IH]; cbn [assign]; [by repeat constructor|].
  destruct (str_eqb k k'); by constructor.
Qed.
Lemma own_Forall {A} (Q : A -> Prop) (l : list (jsstr * A)) k v : Forall (fun e => Q e.2) l -> own l k = Some v -> Q v.
Proof. intros H Ho%own_In. rewrite Forall_forall in H. by apply (H _ Ho). Qed.

Lemma wf_section_assign k v c : wf_section c -> wf_section (assign k v c).
Proof.
  intros [(b & rest & ->) Hd]. split; [|by apply assign_nodup]. cbn [assign]. destruct (str_eqb k _); by eexists _, _.
Qed.
Lemma wf_sections_assign k s c : wf_section s -> wf_sections c -> wf_sections (assign k s c).
Proof. intros Hs [Hd Hc]. split; [by apply assign_nodup|by apply (Forall_assign wf_section)]. Qed.

(** Filling in the modules of a section. *)
Lemma fill_wf l : forall s, wf_section s -> wf_section (fold_left fill l s).
Proof. induction l as [|m l IH]; intros s H; [done|]. apply IH. unfold fill. destruct (is_some _); [done|]. by apply wf_section_assign. Qed.
Lemma fill_keeps k l : forall s, own s k <> None -> own (fold_left fill l s) k <> None.
Proof.
  induction l as [|m l IH]; intros s H; [done|]. apply IH. unfold fill. destruct (is_some _); [done|]. rewrite own_assign.
  by destruct (str_eqb k m.1).
Qed.
Lemma fill_complete l : forall s, Forall (fun m => own (fold_left fill l s) m.1 <> None) l.
Proof.
  induction l as [|m l IH]; intros s; constructor; [|apply IH]. apply (fill_keeps m.1 l (fill s m)). unfold fill.
  destruct (own s m.1) eqn:E; cbn [is_some]; [congruence|]. by rewrite own_assign, str_eqb_refl.
Qed.
Lemma fill_id l s : Forall (fun m => own s m.1 <> None) l -> fold_left fill l s = s.
Proof.
  induction 1 as [|m l Hm _ IH]; [done|]. cbn [fold_left]. unfold fill at 2. destruct (own s m.1); done.
Qed.

Lemma merge_complete e c : complete (merge_section c e) e.
Proof.
  unfold complete, merge_section. destruct (own c e.1) as [s|]; eexists; rewrite own_assign, str_eqb_refl; (split; [done|]).
  - apply (fill_complete e.2 s).
  - rewrite Forall_forall. intros [k b] Hm Hn. induction e.2 as [|[k' b'] l IH]; [by apply elem_of_nil in Hm|].
    cbn [own fst] in Hn, IH. destruct (str_eqb_reflect k k') as [->|Hk]; [done|]. apply elem_of_cons in Hm as [[= -> ->]|Hm]; [done|]. by apply IH.
Qed.
Lemma merge_keeps e d c : e.1 <> d.1 -> complete c d -> complete (merge_section c e) d.
Proof.
  intros Hk (s & Hs & Hm). exists s. split; [|done]. unfold merge_section.
  by destruct (own c e.1); rewrite own_assign, (proj2 (str_eqb_neq d.1 e.1)) by congruence.
Qed.
Lemma merge_wf e c : wf_section e.2 -> wf_sections c -> wf_sections (merge_section c e).
Proof.
  intros He Hc. unfold merge_section. destruct (own c e.1) as [s|] eqn:E; apply wf_sections_assign; try done.
  apply (fill_wf e.2). by apply (own_Forall wf_section c e.1 s (proj2 Hc)).
Qed.
Lemma merge_id e c : complete c e -> merge_section c e = c.
Proof.
  intros (s & Hs & Hm). unfold merge_section. rewrite Hs. rewrite (fill_id e.2 s Hm). by apply assign_own.
Qed.

Lemma merge_all l : forall c, NoDup (map fst l) -> Forall (fun e => wf_section e.2) l -> wf_sections c ->
  wf_sections (fold_left merge_section l c) /\ Forall (complete (fold_left merge_section l c)) l /\
  forall d, d.1 ∉ map fst l -> complete c d -> complete (fold_left merge_section l c) d.
Proof.
  induction l as [|e l IH]; intros c Hd Hl Hc; [done|]. cbn [map fold_left] in *. apply list.NoDup_cons in Hd as [He Hd].
  apply list.Forall_cons in Hl as [Hwe Hl]. destruct (IH (merge_section c e) Hd Hl (merge_wf e c Hwe Hc)) as (H1 & H2 & H3).
  split; [done|]. split; [constructor; [|done]; apply H3; [done|apply merge_complete]|].
  intros d Hn Hcd. apply not_elem_of_cons in Hn as [Hn1 Hn2]. apply H3; [done|]. apply merge_keeps; [congruence|done].
Qed.

Lemma default_wf : wf_sidebar SIDEBAR_MODULES_DEFAULT.
Proof.
  split; [split|]; [apply (bool_decide_unpack _); by vm_compute| |].
  - repeat (constructor; [split; [by eexists _, _|apply (bool_decide_unpack _); by vm_compute]|]). constructor.
  - repeat (constructor; [eexists; split; [by vm_compute|]; by repeat constructor|]). constructor.
Qed.

Section Editor.
Context {P : Platform}.

Lemma parse_section_wf k raw : wf_section (parse_section k raw).
Proof.
  unfold parse_section. match goal with |- wf_section (fold_left _ _ ?s) => assert (H : wf_section s) end.
  { split; [by eexists _, _|]. cbn. apply NoDup_singleton. }
  revert H. generalize [(js "enabled", toBoolean (member raw (js "enabled")) (module_default (default_section k) (js "enabled")))].
  induction (entries_of raw) as [|e l IH]; intros s H; [done|]. cbn [fold_left]. apply IH.
  destruct (e.1 === "enabled"); [done|]. by apply wf_section_assign.
Qed.

(** What the editor shows is complete, whatever is stored. *)
Lemma editor_config_wf stored : wf_sidebar (parseSidebarModulesAdmin stored).
Proof.
  pose proof default_wf as Hd. unfold parseSidebarModulesAdmin. destruct stored as [text|]; [|done].
  destruct (_ || _); [done|]. destruct (JSON_parse text) as [v|]; [|done]. destruct (nullish v); [done|].
  destruct Hd as [[Hn Hs] _].
  match goal with |- wf_sidebar (fold_left merge_section _ ?c) => assert (Hc : wf_sections c) end.
  { assert (H0 : wf_sections []) by (split; [apply NoDup_nil_2|constructor]). revert H0. generalize (@nil (jsstr * section_config)).
    induction (entries_of v) as [|e l IH]; intros c H; [done|]. cbn [fold_left]. apply IH.
    destruct e.2; try done; apply wf_sections_assign; try done; apply parse_section_wf. }
  destruct (merge_all SIDEBAR_MODULES_DEFAULT _ Hn Hs Hc) as (H1 & H2 & _). by split.
Qed.

Lemma toggle_wf s m b c : wf_sidebar c -> wf_sidebar (toggle s m b c).
Proof.
  intros [Hw Hc]. unfold toggle. destruct (own c s) as [sec|] eqn:E; [|done].
  destruct (is_some (own sec m)); [|done]. split.
  - apply wf_sections_assign; [|done]. apply wf_section_assign. by apply (own_Forall wf_section c s sec (proj2 Hw)).
  - apply (Forall_impl _ _ _ Hc). intros d (t & Ht & Hm). unfold complete. rewrite own_assign.
    destruct (str_eqb_reflect d.1 s) as [<-|]; [|by exists t]. rewrite E in Ht. injection Ht as ->.
    eexists. split; [done|]. apply (Forall_impl _ _ _ Hm). intros x Hx. rewrite own_assign. by destruct (str_eqb x.1 m).
Qed.
Lemma toggles_wf l : forall c, wf_sidebar c -> wf_sidebar (fold_left (fun values s => toggle s.1.1 s.1.2 s.2 values) l c).
Proof. induction l as [|t l IH]; intros c H; [done|]. by apply IH, toggle_wf. Qed.

(** Names are texts of code units. *)
Definition sidebar_names_ok (c : sidebar_config) : Prop :=
  Forall (fun e => Forall code_unit e.1 /\ Forall (Forall code_unit) (map fst e.2)) c.

Lemma toggle_names s m b c : sidebar_names_ok c -> sidebar_names_ok (toggle s m b c).
Proof.
  intros H. unfold toggle. destruct (own c s) as [sec|] eqn:E; [|done]. destruct (own sec m) as [x|] eqn:Em; [|done]. cbn [is_some].
  assert (Hk : map fst (assign m b sec) = map fst sec).
  { rewrite assign_keys, bool_decide_true; [done|]. apply own_In in Em. apply list_elem_of_fmap. by exists (m, x). }
  revert E. induction H as [|[k v] c [Hk1 Hv] Hl IH]; [done|]. cbn [own assign]. destruct (str_eqb_reflect s k) as [->|Hn].
  - intros [= ->]. constructor; [|done]. cbn [fst snd]. split; [done|]. by rewrite Hk.
  - intros E. constructor; [by split|by apply IH].
Qed.
Lemma toggles_names l : forall c, sidebar_names_ok c -> sidebar_names_ok (fold_left (fun values s => toggle s.1.1 s.1.2 s.2 values) l c).
Proof. induction l as [|t l IH]; intros c H; [done|]. by apply IH, toggle_names. Qed.

(** ** Reading what was written *)

Lemma sidebar_printable c : wf_sections c -> sidebar_names_ok c -> printable (sidebar_object c).
Proof.
  intros [Hd Hw] Hn. unfold sidebar_names_ok in Hn. unfold sidebar_object. constructor.
  - by rewrite map_map.
  - rewrite Forall_map. rewrite Forall_forall in Hw, Hn |- *. intros e He. cbn [fst snd]. destruct (Hn e He) as [H1 H2].
    split; [done|]. destruct (Hw e He) as [_ Hde]. unfold section_object. constructor; [by rewrite flag_members_keys|].
    unfold flag_members. rewrite Forall_map in H2 |- *. apply (Forall_impl _ _ _ H2). intros m Hm. split; [done|constructor].
Qed.
Lemma sidebar_text c : wf_sections c -> sidebar_names_ok c ->
  JSON_parse (serializeSidebarModulesAdmin c) = Ok (sidebar_object c) /\ exists t, serializeSidebarModulesAdmin c = 123%Z :: t.
Proof.
  intros Hw Hn. destruct (stringify_plain_parse _ (sidebar_printable c Hw Hn)) as (t & Ht & Hp).
  unfold serializeSidebarModulesAdmin. rewrite Ht. split; [done|]. unfold JSON_stringify_plain, sidebar_object in Ht.
  cbn [json_text] in Ht. injection Ht as <-. unfold bracketed. destruct (member_texts _ _); by eexists.
Qed.

Lemma own_flag_members c k : own (flag_members c) k = JBool <$> own c k.
Proof. induction c as [|[k' b] c IH]; [done|]. cbn. by destruct (str_eqb k k'). Qed.

Lemma section_read k s : wf_section s -> parse_section k (section_object s) = s.
Proof.
  intros [(b & rest & ->) Hd]. unfold parse_section, section_object, member. cbn [entries_of]. rewrite own_flag_members.
  cbn [own]. rewrite str_eqb_refl. cbn [fmap option_fmap option_map toBoolean flag_members map fold_left fst snd].
  rewrite str_eqb_refl. cbn [map fst] in Hd.
  set (s0 := [(js "enabled", b)]). change ((js "enabled", b) :: rest) with (s0 ++ rest).
  rewrite <- (assign_fresh rest s0) by (by rewrite map_app).
  apply list.NoDup_cons in Hd as [Hk _]. generalize s0. clear s0.
  induction rest as [|[m v] rest IH]; intros s0; [done|]. cbn [map fst] in Hk. apply not_elem_of_cons in Hk as [Hm Hk].
  cbn [map fold_left fst snd]. rewrite (proj2 (str_eqb_neq m (js "enabled"))) by congruence. by apply IH.
Qed.

Lemma editor_reads_sidebar c : wf_sidebar c -> sidebar_names_ok c -> parseSidebarModulesAdmin (Some (serializeSidebarModulesAdmin c)) = c.
Proof.
  intros [Hw Hc] Hn. destruct (sidebar_text c Hw Hn) as [Hp [t Ht]]. unfold parseSidebarModulesAdmin. rewrite Ht in *.
  cbn [truthy negb orb]. rewrite trim_brace, Hp. cbn [negb nullish sidebar_object entries_of].
  match goal with |- fold_left merge_section _ ?r = _ => assert (Hr : r = c) end.
  { destruct Hw as [Hd Hw]. transitivity (fold_left (fun acc e => assign e.1 e.2 acc) c []); [|by rewrite assign_fresh].
    clear Hd Hn Hp Ht Hc. generalize (@nil (jsstr * section_config)). induction Hw as [|e c He _ IH]; intros acc; [done|].
    cbn [map fold_left fst snd section_object]. rewrite <- IH. f_equal. f_equal. by apply (section_read e.1 e.2). }
  rewrite Hr. clear Hr. induction Hc as [|d l Hd _ IH]; [done|]. cbn [fold_left]. by rewrite merge_id.
Qed.

Lemma sidebar_serialize_inj a b : wf_sidebar a -> sidebar_names_ok a -> wf_sidebar b -> sidebar_names_ok b ->
  serializeSidebarModulesAdmin a = serializeSidebarModulesAdmin b -> a = b.
Proof. intros Ha Hna Hb Hnb H. rewrite <- (editor_reads_sidebar a), <- (editor_reads_sidebar b), H by done. done. Qed.

End Editor.

(** * What the sidebar makes of a saved text *)

(** The switch of a module in a configuration. *)
Definition switched (c : sidebar_config) (section module : jsstr) : bool :=
  match own c section with
  | Some s => match own s module with Some b => b | None => false end
  | None => false
  end.

Definition sections_object (c : sidebar_config) : list (jsstr * jsvalue) := map (fun e => (e.1, section_object e.2)) c.
Lemma own_sections c k : own (sections_object c) k = section_object <$> own c k.
Proof. induction c as [|[k' s] c IH]; [done|]. cbn. by destruct (str_eqb k k'). Qed.

(** An object that has the sections of a configuration, with the same members. *)
Definition same_sections (f : list (jsstr * jsvalue)) (c : sidebar_config) : Prop :=
  forall section, match own f section, own c section with
                  | None, None => True
                  | Some (JObj a), Some s => NoDup (map fst a) /\ forall m, own a m = JBool <$> own s m
                  | _, _ => False
                  end.

Lemma own_spread l : forall acc k, NoDup (map fst l) ->
  own (spread_members acc l) k = match own l k with Some v => Some v | None => own acc k end.
Proof.
  unfold spread_members. induction l as [|[k' v] l IH]; intros acc k Hd; [done|]. cbn [map fst] in Hd. apply list.NoDup_cons in Hd as [Hk Hd].
  cbn [fold_left fst snd own]. rewrite IH, own_assign by done. destruct (str_eqb_reflect k k') as [->|]; [|done].
  by rewrite (own_absent l k').
Qed.
Lemma spread_nodup l : forall acc, NoDup (map fst acc) -> NoDup (map fst (spread_members acc l)).
Proof. unfold spread_members. induction l as [|e l IH]; intros acc H; [done|]. by apply IH, assign_nodup. Qed.

Lemma undefined_id l (s : list (jsstr * jsvalue)) : Forall (fun m => is_undefined_value (member (JObj s) m.1) = false) l ->
  fold_left (fun s m => if is_undefined_value (member (JObj s) m.1) then assign m.1 (JBool m.2) s else s) l s = s.
Proof. induction 1 as [|m l Hm _ IH]; [done|]. cbn [fold_left]. by rewrite Hm. Qed.

Lemma merge_default_same c d merged : complete c d -> NoDup (map fst d.2) -> same_sections merged c ->
  same_sections (merge_default merged d) c.
Proof.
  intros (s & Hs & Hm) Hdd H section. pose proof (H d.1) as Hd. rewrite Hs in Hd.
  destruct (own merged d.1) as [[| | | | | |a]|] eqn:Ea; try done. destruct Hd as [Hna Ha].
  assert (Hex : member (JObj merged) d.1 = JObj a) by (unfold member; cbn [entries_of]; by rewrite Ea).
  unfold merge_default. rewrite Hex. cbn [value_truthy negb entries_of].
  assert (Hsp : forall m, own s m <> None -> own (spread_members (flag_members d.2) a) m = JBool <$> own s m).
  { intros m Hn. rewrite own_spread, Ha by done. by destruct (own s m). }
  rewrite undefined_id.
  - rewrite own_assign. destruct (str_eqb_reflect section d.1) as [->|]; [|apply H]. rewrite Hs. split.
    + apply spread_nodup. by rewrite flag_members_keys.
    + intros m. rewrite own_spread, Ha by done. destruct (own s m) eqn:E; [done|]. cbn. rewrite own_flag_members.
      destruct (own d.2 m) as [b|] eqn:Eb; [|done]. apply own_In in Eb. rewrite Forall_forall in Hm. by apply Hm in Eb.
  - apply (Forall_impl _ _ _ Hm). intros m Hn. unfold member. cbn [entries_of]. rewrite Hsp by done. by destruct (own s m.1).
Qed.

Lemma sections_same c : wf_sections c -> same_sections (sections_object c) c.
Proof.
  intros [_ Hw] section. rewrite own_sections. destruct (own c section) as [s|] eqn:E; [|done]. cbn.
  rewrite flag_members_keys. split; [|intros m; apply own_flag_members]. by destruct (own_Forall wf_section c section s Hw E).
Qed.

Lemma default_modules : Forall (fun d => NoDup (map fst d.2)) SIDEBAR_MODULES_DEFAULT.
Proof. apply (bool_decide_unpack _). by vm_compute. Qed.

Lemma merged_same c : wf_sidebar c -> same_sections (mergeWithDefaultSidebarModules (sidebar_object c)) c.
Proof.
  intros [Hw Hc]. unfold mergeWithDefaultSidebarModules. cbn [sidebar_object entries_of].
  change (map (fun e => (e.1, section_object e.2)) c) with (sections_object c).
  unfold spread_members. rewrite assign_fresh.
  - cbn [app]. pose proof (sections_same c Hw) as H. revert H. generalize (sections_object c). pose proof default_modules as Hdm.
    induction Hc as [|d l Hd _ IH]; intros f H; [done|]. cbn [fold_left]. apply list.Forall_cons in Hdm as [Hd2 Hdm].
    apply IH; [done|]. by apply merge_default_same.
  - cbn [app]. unfold sections_object. rewrite map_map. by destruct Hw.
Qed.

Lemma admin_allows_switched f c section module : same_sections f c ->
  admin_allows (member (JObj f) (js section)) module = switched c (js section) (js "enabled") && switched c (js section) (js module).
Proof.
  intros H. specialize (H (js section)). unfold admin_allows, switched.
  change (member (JObj f) (js section)) with (match own f (js section) with Some x => x | None => JUndefined end).
  destruct (own f (js section)) as [[| | | | | |a]|], (own c (js section)) as [sec|]; try done. destruct H as [_ H].
  unfold member. cbn [value_truthy entries_of andb]. rewrite !H.
  destruct (own sec (js "enabled")) as [[]|]; cbn; [|done..]. by destruct (own sec (js module)) as [[]|].
Qed.

Lemma member_own fields k v : own fields k = Some v -> member (JObj fields) k = v.
Proof. intros H. unfold member. cbn [entries_of]. by rewrite H. Qed.

Section Saved.
Context {P : Platform}.

Lemma sidebar_parses c : wf_sidebar c -> sidebar_names_ok c ->
  parseSidebarConfig (JStr (serializeSidebarModulesAdmin c)) = Ok (mergeWithDefaultSidebarModules (sidebar_object c)).
Proof.
  intros [Hw _] Hn. destruct (sidebar_text c Hw Hn) as [Hp [t Ht]]. unfold parseSidebarConfig. rewrite Ht in *.
  cbn [value_truthy truthy negb call_trim]. by rewrite trim_brace, Hp.
Qed.

Lemma guard_switched {L : LocalStorage} c st fields section module s :
  wf_sidebar c -> sidebar_names_ok c -> readCachedStatus st = JObj fields ->
  own fields (js "SidebarModulesAdmin") = Some (JStr (serializeSidebarModulesAdmin c)) ->
  own c section = Some s -> own s module <> None ->
  isSidebarModuleEnabled section module st = Ok (switched c section (js "enabled") && switched c section module).
Proof.
  intros [Hw _] Hn Hst Hf Hs Hm. destruct (sidebar_text c Hw Hn) as [Hp [t Ht]]. unfold isSidebarModuleEnabled.
  rewrite Hst, (member_own _ _ _ Hf), Ht in *. cbn [value_truthy truthy negb js_String to_text].
  rewrite trim_brace, Hp. cbn [negb nullish sidebar_object].
  assert (Hsec : member (sidebar_object c) section = section_object s).
  { unfold member. cbn [entries_of sidebar_object]. pose proof (own_sections c section) as E. unfold sections_object in E. rewrite E, Hs. done. }
  rewrite Hsec. unfold switched. rewrite Hs. destruct (own_Forall wf_section c section s (proj2 Hw) Hs) as [(b & rest & ->) _].
  unfold member, section_object. cbn [value_truthy negb entries_of]. rewrite !own_flag_members.
  destruct (own ((js "enabled", b) :: rest) module) as [v|]; [|done]. cbn [own]. rewrite str_eqb_refl. cbn. by destruct b, v.
Qed.

(** A setting whose names are plain: none is empty, inherited, or has a character that splits the path of a field. *)
Definition plain_setting (stored : option jsstr) : bool :=
  match stored with
  | Some text => match JSON_parse text with Ok v => plain_names v | Err _ => true end
  | None => true
  end.

(** C17. The editor of the sidebar saves what it shows and the console obeys it.  For a stored setting whose
    names of sections and modules are plain (not empty, not members of [Object.prototype], without the dots,
    commas, brackets, quotes and bars at which the form splits the path of a field), or any text that is no JSON, the text that is sent after
    some switches were used is read back by the editor with the switches as they were set; the sidebar shows an
    entry exactly when the switches of its section and of its module are on and the user does not hide it,
    and the guard of the playground lets visitors in exactly when its switches are on, once the status carries
    the text; nothing is sent exactly when no switch was changed. *)
Theorem sidebar_saved_enforced stored switches :
  let config := parseSidebarModulesAdmin stored in
  let values := fold_left (fun values s => toggle s.1.1 s.1.2 s.2 values) switches config in
  plain_setting stored = true -> sidebar_names_ok config ->
  match sidebar_section_submit stored switches with
  | None => values = config
  | Some text =>
      values <> config /\ parseSidebarModulesAdmin (Some text) = values /\
      (forall status user overlay url section module,
         optional_member status (js "SidebarModulesAdmin") = JStr text -> user_sidebar user = Ok overlay ->
         url_mapping url = Some (section, module) ->
         useIsSidebarModuleVisible status user url =
         Ok (switched values (js section) (js "enabled") && switched values (js section) (js module) &&
             match overlay with None => true | Some u => user_allows (member u (js section)) module end)) /\
      (forall (L : LocalStorage) st fields,
         readCachedStatus st = JObj fields -> own fields (js "SidebarModulesAdmin") = Some (JStr text) ->
         playground_beforeLoad st =
         Ok (if switched values (js "chat") (js "enabled") && switched values (js "chat") (js "playground")
             then ShowPage else RedirectTo "/dashboard"))
  end.
Proof.
  intros config values _ Hn. pose proof (editor_config_wf stored) as Hw. fold config in Hw.
  pose proof (toggles_wf switches config Hw) as Hvw. pose proof (toggles_names switches config Hn) as Hvn. fold values in Hvw, Hvn.
  unfold sidebar_section_submit, sidebar_onSubmit. fold config. fold values.
  destruct (str_eqb_reflect (serializeSidebarModulesAdmin values) (serializeSidebarModulesAdmin config)) as [E|E].
  { by apply sidebar_serialize_inj in E. }
  split; [congruence|]. split; [by apply editor_reads_sidebar|]. split.
  - intros status user overlay url section module Hs Hu Hm. unfold useIsSidebarModuleVisible. rewrite Hs, Hu, sidebar_parses by done.
    unfold isModuleEnabled. rewrite Hm. rewrite (admin_allows_switched _ values section module) by (by apply merged_same).
    destruct (_ && _); cbn [negb]; by destruct overlay.
  - intros L st fields Hst Hf. unfold playground_beforeLoad. pose proof Hvw as [_ Hc]. apply list.Forall_cons in Hc as [Hc _].
    destruct Hc as (s & Hs & Hm). apply list.Forall_cons in Hm as [_ Hm]. apply list.Forall_cons in Hm as [Hm _].
    by rewrite (guard_switched values st fields (js "chat") (js "playground") s).
Qed.

(** * A page that is hidden but open *)

Definition text_switch : jsstr := quotes "{'chat':{'enabled':true,'playground':'false'}}".

(** A switch that is stored as a text is off in the editor and hides the entry, but the guard of the page
    lets everyone in, and submitting the form as it is shown sends nothing. *)
Theorem hidden_page_open {L : LocalStorage} st fields :
  (forall s, forallb is_alpha s = true -> toLowerCase s = ascii_lower s) ->
  readCachedStatus st = JObj fields -> own fields (js "SidebarModulesAdmin") = Some (JStr text_switch) ->
  switched (parseSidebarModulesAdmin (Some text_switch)) (js "chat") (js "playground") = false /\
  sidebar_section_submit (Some text_switch) [] = None /\
  useIsSidebarModuleVisible (JObj fields) None (js "/playground") = Ok false /\
  playground_beforeLoad st = Ok ShowPage.
Proof.
  intros Hlow Hst Hf. split; [|split; [|split]].
  - unfold parseSidebarModulesAdmin.
    assert (Hj : JSON_parse text_switch = Ok (JObj [(js "chat", JObj [(js "enabled", JBool true); (js "playground", JStr (js "false"))])])) by (by vm_compute).
    rewrite Hj. change (negb (truthy text_switch) || negb (truthy (trim text_switch))) with false. cbn -[js str_eqb SIDEBAR_MODULES_DEFAULT].
    assert (Hl : toLowerCase (trim (js "false")) = js "false") by (rewrite Hlow; by vm_compute).
    rewrite Hl. by vm_compute.
  - unfold sidebar_section_submit, sidebar_onSubmit. cbn [fold_left]. by rewrite str_eqb_refl.
  - unfold useIsSidebarModuleVisible, optional_member. cbn [nullish]. rewrite (member_own _ _ _ Hf). by vm_compute.
  - unfold playground_beforeLoad, isSidebarModuleEnabled. rewrite Hst, (member_own _ _ _ Hf).
    by vm_compute.
Qed.

End Saved.

(** * Witnesses *)

Definition old_setting : jsstr := quotes "{'console':{'enabled':true,'log':1},'lab':{'beta':true}}".
Definition playground_off : list (jsstr * jsstr * bool) := [(js "chat", js "playground", false)].

Lemma sidebar_saved_enforced_witness :
  plain_setting (Some old_setting) = true /\
  sidebar_names_ok (parseSidebarModulesAdmin (P := plain_platform) (Some old_setting)) /\
  match sidebar_section_submit (P := plain_platform) (Some old_setting) playground_off with
  | None => False
  | Some text =>
      switched (parseSidebarModulesAdmin (P := plain_platform) (Some text)) (js "lab") (js "beta") = true /\
      useIsSidebarModuleVisible (JObj [(js "SidebarModulesAdmin", JStr text)]) None (js "/playground") = Ok false /\
      useIsSidebarModuleVisible (JObj [(js "SidebarModulesAdmin", JStr text)]) None (js "/usage-logs/audit") = Ok true
  end.
Proof.
  assert (H1 : plain_setting (Some old_setting) = true) by (by vm_compute).
  assert (H2 : sidebar_names_ok (parseSidebarModulesAdmin (P := plain_platform) (Some old_setting))).
  { apply (bool_decide_unpack _). by vm_compute. }
  split; [done|]. split; [done|].
  pose proof (sidebar_saved_enforced (P := plain_platform) (Some old_setting) playground_off H1 H2) as H.
  destruct (sidebar_section_submit (P := plain_platform) (Some old_setting) playground_off) as [text|].
  - destruct H as (_ & Hr & Hv & _). split; [rewrite Hr; by vm_compute|].
    assert (M1 : url_mapping (js "/playground") = Some ("chat", "playground")%string) by (by vm_compute).
    assert (M2 : url_mapping (js "/usage-logs/audit") = Some ("console", "audit")%string) by (by vm_compute).
    set (status := JObj [(js "SidebarModulesAdmin", JStr text)]).
    rewrite (Hv status None None _ _ _ eq_refl eq_refl M1), (Hv status None None _ _ _ eq_refl eq_refl M2). by vm_compute.
  - apply (f_equal (fun c => switched c (js "chat") (js "playground"))) in H. by vm_compute in H.
Defined.

Lemma sidebar_shows_allowed_witness :
  exists shown, rootNavGroups (JObj []) None (useSidebarData js) = Ok shown /\ Forall (fun g => g_items g <> []) shown /\
    exists keep, sidebar_entries shown = List.filter keep (sidebar_entries (useSidebarData js)) /\
      keep (Some (js "chat"), EntryLink (NavBase (js "Playground") None None) (js "/playground")) = true /\
      keep (Some (js "admin"), EntryLink (NavBase (js "Users") None None) (js "/users")) = false.
Proof.
  assert (Ha : parseSidebarConfig (optional_member (JObj []) (js "SidebarModulesAdmin")) = Ok DEFAULT_SIDEBAR_OBJECT) by done.
  destruct (sidebar_shows_allowed (JObj []) None (useSidebarData js) DEFAULT_SIDEBAR_OBJECT None Ha eq_refl)
    as (shown & Hs & (keep & He & Hk) & _ & Hne).
  exists shown. split; [exact Hs|]. split; [exact (Hne js eq_refl)|]. exists keep. split; [exact He|]. split.
  - apply Hk. split; [|by split]. intros _. eexists. split; [left|]. intros s m [= <- <-]. split; [by vm_compute|]. by intros (? & ? & _).
  - apply not_true_is_false. rewrite Hk. intros [_ [H _]]. specialize (H eq_refl). by vm_compute in H.
Defined.
