(* ===== verification/ChannelForm.v ===== *)
(** The form of a channel: [features/channels/lib/channel-form.ts], what is sent for it
    ([hooks/use-channel-mutate-form.ts]) and the permissions that decide which members may be sent
    ([lib/admin-permissions.ts]).  Forms, channels and payloads are objects given by their members, as
    in the program, where values that were read from JSON keep whatever type they have.  The last part
    holds the validation: the helpers, the refinements of members and the [superRefine] of
    [channelFormSchema], and the default values; the package zod, which checks the types of the
    members and runs these functions, is outside. *)
From Stdlib Require Import ZArith Lia Bool String SpecFloat.
From stdpp Require Import base list option.
From S2P Require Import Prelude JsString JsNumber Types JsValue Collections Runtime Json JsonText AdvancedCustom ModelMapping ChatMessage AuthSession NavModules Sidebar.

(** * Objects *)

Definition members := list (jsstr * jsvalue).
(** [object.key]. *)
Definition fld (o : members) (key : string) : jsvalue := member (JObj o) (js key).
(** [object.key === number]. *)
Definition fld_is (o : members) (key : string) (n : Z) : bool := strict_eqb (fld o key) (JNum (num_of_Z n)).
Definition num (n : Z) : jsvalue := JNum (num_of_Z n).
(** [v || false] and [v === true]. *)
Definition or_false (v : jsvalue) : jsvalue := or_value v (JBool false).
Definition exactly_true (v : jsvalue) : jsvalue := JBool (is_true v).

(** [Number(v)], which compares a value with a number; it throws when [v] has no text. *)
Definition number_of (v : jsvalue) : result property_error number :=
  match v with
  | JArr _ | JObj _ => let! text := js_String v in Ok (js_Number text)
  | _ => Ok (to_Number v)
  end.

(** [JSON.stringify] of an object. *)
Definition object_text (o : members) : jsstr :=
  match JSON_stringify_plain (JObj o) with Some text => text | None => [] end.

(** * Channel types *)

Definition TYPE_AZURE : Z := 3.
Definition TYPE_ANTHROPIC : Z := 14.
Definition TYPE_OPENROUTER : Z := 20.
Definition TYPE_AWS : Z := 33.
Definition TYPE_VERTEX : Z := 41.
Definition TYPE_CODEX : Z := 57.
Definition CHANNEL_TYPE_ADVANCED_CUSTOM : Z := 58.
Definition CHANNEL_TYPE_NEW_API : Z := 60.
Definition CHANNEL_TYPE_TASK_PLUGIN : Z := 61.

Definition MODEL_FETCHABLE_TYPES : list Z :=
  [1; 4; 14; 17; 20; 23; 24; 25; 26; 27; 31; 34; 35; 40; 42; 43; 47; 48; 57; 58; 59; 60]%Z.
Definition FIELD_PASSTHROUGH_TYPES : list Z := [1; 14; 57; 58; 59; CHANNEL_TYPE_NEW_API]%Z.
Definition OPENAI_FIELD_PASSTHROUGH_TYPES : list Z := [1; 57; 58; 59; CHANNEL_TYPE_NEW_API]%Z.
Definition CLAUDE_FIELD_PASSTHROUGH_TYPES : list Z := [14; 58; 59; CHANNEL_TYPE_NEW_API]%Z.

Definition type_is (form : members) (n : Z) : bool := fld_is form "type" n.
Definition type_in (form : members) (types : list Z) : bool := existsb (type_is form) types.

(** * Groups and models *)

Definition parseGroups (groups : jsstr) : list jsstr := List.filter truthy (map trim (split_char COMMA groups)).
Definition parseModels (models : jsstr) : list jsstr := List.filter truthy (map trim (split_char COMMA models)).
Definition formatModels (models : list jsstr) : jsstr := join (js ",") models.
(** [groups.join(',')] of a value that should be an array. *)
Definition formatGroups (groups : jsvalue) : result property_error jsstr :=
  match groups with JArr _ => js_String groups | _ => Err TypeError end.

Section Form.
Context {P : Platform}.

(** * HTTP transport *)

Definition HTTP_PROTOCOL_AUTO : string := "auto".
Definition HTTP_PROTOCOL_HTTP1 : string := "http1".
Definition MAX_HTTP2_CONNECTION_SHARDS : Z := 8.

Definition normalizeHttpProtocol (value : jsvalue) : result property_error string :=
  let! text := js_String (or_empty value) in
  Ok (if toLowerCase (trim text) === HTTP_PROTOCOL_HTTP1 then HTTP_PROTOCOL_HTTP1 else HTTP_PROTOCOL_AUTO).

Definition is_nan_value (v : jsvalue) : bool := match v with JNum n => match n with S754_nan => true | _ => false end | _ => false end.
Definition normalizeHttp2ConnectionShards (value : jsvalue) : result property_error jsvalue :=
  if nullish value || is_nan_value value || strict_eqb value (num 0) then Ok (num 1)
  else
    let! n := number_of value in
    Ok (if num_ltb n (num_of_Z 1) then num 1
        else if num_ltb (num_of_Z MAX_HTTP2_CONNECTION_SHARDS) n then num MAX_HTTP2_CONNECTION_SHARDS
        else value).

(** * From a channel to the form *)

(** The members that come from [setting]. *)
Definition DEFAULT_EXTRA : members :=
  [(js "task_plugin_key", JStr []); (js "force_format", JBool false); (js "thinking_to_content", JBool false);
   (js "proxy", JStr []); (js "http_protocol", str HTTP_PROTOCOL_AUTO); (js "http2_connection_shards", num 1);
   (js "pass_through_body_enabled", JBool false); (js "request_compression", JBool true);
   (js "disable_stream_first_token_timeout", JBool false); (js "relay_timeout_seconds", JUndefined);
   (js "system_prompt", JStr []); (js "system_prompt_override", JBool false)].

Definition extra_settings (parsed : jsvalue) : result property_error members :=
  if nullish parsed then Err TypeError
  else
    let get key := member parsed (js key) in
    let! protocol := normalizeHttpProtocol (get "http_protocol"%string) in
    let! shards := normalizeHttp2ConnectionShards (get "http2_connection_shards"%string) in
    Ok [(js "task_plugin_key", or_empty (get "task_plugin_key"%string));
        (js "force_format", or_false (get "force_format"%string));
        (js "thinking_to_content", or_false (get "thinking_to_content"%string));
        (js "proxy", or_empty (get "proxy"%string));
        (js "http_protocol", str protocol);
        (js "http2_connection_shards", if String.eqb protocol HTTP_PROTOCOL_HTTP1 then num 1 else shards);
        (js "pass_through_body_enabled", or_false (get "pass_through_body_enabled"%string));
        (js "request_compression", or_default (get "request_compression"%string) (JBool true));
        (js "disable_stream_first_token_timeout", or_false (get "disable_stream_first_token_timeout"%string));
        (js "relay_timeout_seconds",
          match get "relay_timeout_seconds"%string with JNum n => JNum n | _ => JUndefined end);
        (js "system_prompt", or_empty (get "system_prompt"%string));
        (js "system_prompt_override", or_false (get "system_prompt_override"%string))].

(** [JSON.parse(v)] of a member that is truthy. *)
Definition parse_value (v : jsvalue) : option jsvalue :=
  match js_String v with
  | Ok text => match JSON_parse text with Ok x => Some x | Err _ => None end
  | Err _ => None
  end.

Definition read_setting (setting : jsvalue) : members :=
  if value_truthy setting then
    match parse_value setting with
    | Some parsed => match extra_settings parsed with Ok extra => extra | Err _ => DEFAULT_EXTRA end
    | None => DEFAULT_EXTRA
    end
  else DEFAULT_EXTRA.

(** The members that come from [settings], each with the name it has there. *)
Definition FLAG_MEMBERS : list (string * string) :=
  [("allow_service_tier", "allow_service_tier"); ("disable_store", "disable_store");
   ("allow_include_obfuscation", "allow_include_obfuscation"); ("allow_inference_geo", "allow_inference_geo");
   ("allow_speed", "allow_speed"); ("claude_beta_query", "claude_beta_query");
   ("disable_task_polling_sleep", "disable_task_polling_sleep");
   ("allow_safety_identifier", "allow_safety_identifier");
   ("upstream_model_update_check_enabled", "upstream_model_update_check_enabled");
   ("upstream_model_update_auto_sync_enabled", "upstream_model_update_auto_sync_enabled")]%string.

(** An exception leaves the variables that were assigned before it. *)
Definition type_settings (parsed : option jsvalue) : members :=
  let parsed := match parsed with Some v => if nullish v then JObj [] else v | None => JObj [] end in
  let get key := member parsed (js key) in
  let ignored :=
    match get "upstream_model_update_ignored_models"%string with
    | JArr l => js_String (JArr l)
    | _ => Ok []
    end in
  let advanced :=
    match ignored with
    | Err _ => []
    | Ok _ =>
        if value_truthy (get "advanced_custom"%string) then
          match stringifyAdvancedCustomConfig (get "advanced_custom"%string) with
          | Ok (Some text) => text
          | _ => []
          end
        else []
    end in
  [(js "is_enterprise_account", exactly_true (get "openrouter_enterprise"%string));
   (js "vertex_key_type", or_value (get "vertex_key_type"%string) (str "json"));
   (js "azure_responses_version", or_empty (get "azure_responses_version"%string));
   (js "aws_key_type", or_value (get "aws_key_type"%string) (str "ak_sk"))]
  ++ map (fun m => (js m.1, exactly_true (get m.2))) FLAG_MEMBERS
  ++ [(js "upstream_model_update_ignored_models", JStr (match ignored with Ok text => text | Err _ => [] end));
      (js "advanced_custom", JStr advanced)].

Definition read_settings (settings : jsvalue) : members :=
  type_settings (if value_truthy settings then parse_value settings else None).

Definition transformChannelToFormDefaults (channel : members) : result property_error members :=
  let text key := (js key, or_empty (fld channel key)) in
  let! groups :=
    match or_value (fld channel "group") (str "default") with
    | JStr s => Ok (parseGroups s)
    | _ => Err TypeError
    end in
  let! multi_key_mode := get_prop (fld channel "channel_info") "multi_key_mode" in
  Ok ([text "name"%string; (js "type", fld channel "type"); text "base_url"%string; (js "key", JStr []);
       text "openai_organization"%string; text "models"%string; (js "group", JArr (map JStr groups));
       text "model_mapping"%string;
       (js "priority", or_value (fld channel "priority") (num 0));
       (js "weight", or_value (fld channel "weight") (num 0));
       text "test_model"%string; (js "auto_ban", or_default (fld channel "auto_ban") (num 1));
       (js "status", fld channel "status"); text "status_code_mapping"%string; text "tag"%string;
       text "remark"%string; text "setting"%string; text "param_override"%string; text "header_override"%string;
       (js "settings", or_value (fld channel "settings") (str "{}")); text "other"%string;
       (js "multi_key_mode", str "single"); (js "multi_key_type", or_value multi_key_mode (str "random"));
       (js "batch_add_set_key_prefix_2_name", JBool false); (js "key_mode", str "append")]
      ++ read_setting (fld channel "setting")
      ++ read_settings (fld channel "settings")).

(** * From the form to a payload *)

Definition buildSettingJSON (form : members) : result property_error jsstr :=
  let! plugin := (if type_is form CHANNEL_TYPE_TASK_PLUGIN
                  then let! key := optional_trim (fld form "task_plugin_key") in Ok (or_empty key)
                  else Ok JUndefined) in
  let! proxy := optional_trim (fld form "proxy") in
  let! protocol := normalizeHttpProtocol (fld form "http_protocol") in
  let http1 := String.eqb protocol HTTP_PROTOCOL_HTTP1 in
  let! shards := (if http1 then Ok (num 1) else normalizeHttp2ConnectionShards (fld form "http2_connection_shards")) in
  let! count := number_of shards in
  Ok (object_text
        ([(js "task_plugin_key", plugin);
          (js "force_format", or_false (fld form "force_format"));
          (js "thinking_to_content", or_false (fld form "thinking_to_content"));
          (js "proxy", or_empty proxy);
          (js "pass_through_body_enabled", or_false (fld form "pass_through_body_enabled"));
          (js "request_compression", or_default (fld form "request_compression") (JBool true));
          (js "disable_stream_first_token_timeout", or_false (fld form "disable_stream_first_token_timeout"));
          (js "system_prompt", or_empty (fld form "system_prompt"));
          (js "system_prompt_override", or_false (fld form "system_prompt_override"))]
         ++ (if http1 then [(js "http_protocol", str HTTP_PROTOCOL_HTTP1)]
             else if num_ltb (num_of_Z 1) count then [(js "http2_connection_shards", shards)] else [])
         ++ (if is_undefined_value (fld form "relay_timeout_seconds") then []
             else [(js "relay_timeout_seconds", fld form "relay_timeout_seconds")]))).

(** A member of [settings] is set, or deleted when it is there. *)
Inductive edit := Put (key : string) (v : jsvalue) | Drop (key : string).
Definition apply_edit (o : members) (e : edit) : members :=
  match e with
  | Put key v => assign (js key) v o
  | Drop key => List.filter (fun m => negb (m.1 === key)) o
  end.
Definition put_or_drop (b : bool) (key : string) (v : jsvalue) : edit := if b then Put key v else Drop key.

(** The edits that depend on the type, in their order. *)
Definition type_edits (form : members) : list edit :=
  let flag key := exactly_true (fld form key) in
  let openai := type_in form OPENAI_FIELD_PASSTHROUGH_TYPES in
  let claude := type_in form CLAUDE_FIELD_PASSTHROUGH_TYPES in
  [put_or_drop (type_is form TYPE_VERTEX) "vertex_key_type" (or_value (fld form "vertex_key_type") (str "json"));
   put_or_drop (type_is form TYPE_AZURE && value_truthy (fld form "azure_responses_version"))
     "azure_responses_version" (fld form "azure_responses_version");
   put_or_drop (type_is form TYPE_OPENROUTER) "openrouter_enterprise" (flag "is_enterprise_account"%string);
   put_or_drop (type_is form TYPE_AWS) "aws_key_type" (or_value (fld form "aws_key_type") (str "ak_sk"));
   put_or_drop (type_in form FIELD_PASSTHROUGH_TYPES) "allow_service_tier" (flag "allow_service_tier"%string);
   put_or_drop openai "disable_store" (flag "disable_store"%string);
   put_or_drop openai "allow_safety_identifier" (flag "allow_safety_identifier"%string);
   put_or_drop openai "allow_include_obfuscation" (flag "allow_include_obfuscation"%string);
   put_or_drop (openai || claude) "allow_inference_geo" (flag "allow_inference_geo"%string);
   put_or_drop claude "allow_speed" (flag "allow_speed"%string);
   put_or_drop (type_is form TYPE_ANTHROPIC) "claude_beta_query" (flag "claude_beta_query"%string);
   Put "disable_task_polling_sleep" (flag "disable_task_polling_sleep"%string)].

(** The models that are ignored: trimmed, without repetitions. *)
Definition ignored_models (text : jsstr) : list jsstr :=
  distinct (List.filter truthy (map trim (split_char COMMA text))).

(** The edits for channels whose models can be fetched; the last two look at members of the stored
    object that no other edit changes. *)
Definition fetch_edits (form o : members) (ignored : jsstr) : list edit :=
  let check := is_true (fld form "upstream_model_update_check_enabled") in
  [Put "upstream_model_update_check_enabled" (JBool check);
   Put "upstream_model_update_auto_sync_enabled"
     (JBool (check && is_true (fld form "upstream_model_update_auto_sync_enabled")));
   Put "upstream_model_update_ignored_models" (JArr (map JStr (ignored_models ignored)))]
  ++ (if match fld o "upstream_model_update_last_detected_models" with JArr _ => negb check | _ => true end
      then [Put "upstream_model_update_last_detected_models" (JArr [])] else [])
  ++ (match fld o "upstream_model_update_last_check_time" with
      | JNum _ => []
      | _ => [Put "upstream_model_update_last_check_time" (num 0)]
      end).

(** [parseAdvancedCustomConfig(formData.advanced_custom)]. *)
Definition advanced_of_form (form : members) : result property_error (option jsvalue) :=
  match fld form "advanced_custom" with
  | JStr s => Ok (parseAdvancedCustomConfig (Some s))
  | JUndefined | JNull => Ok None
  | _ => Err TypeError
  end.
Definition advanced_edits (form : members) : result property_error (list edit) :=
  if type_is form CHANNEL_TYPE_ADVANCED_CUSTOM then
    let! config := advanced_of_form form in
    Ok (match config with Some c => [Put "advanced_custom" c] | None => [] end)
  else Ok [Drop "advanced_custom"].

Definition settings_edits (form o : members) : result property_error (list edit) :=
  let! fetch := (if type_in form MODEL_FETCHABLE_TYPES then
                   let! ignored := js_String (or_empty (fld form "upstream_model_update_ignored_models")) in
                   Ok (fetch_edits form o ignored)
                 else Ok []) in
  let! advanced := advanced_edits form in
  Ok (type_edits form ++ fetch ++ advanced).

(** What is stored already. *)
Definition existing_settings (form : members) : jsvalue :=
  let settings := fld form "settings" in
  if value_truthy settings && negb (strict_eqb settings (str "{}")) then
    match parse_value settings with Some v => v | None => JObj [] end
  else JObj [].

(** The object that is edited: members of an array are not printed, and a value that is no object
    makes the first edit throw. *)
Definition buildSettingsJSON (form : members) : result property_error jsstr :=
  match existing_settings form with
  | JObj o =>
      let! edits := settings_edits form o in
      Ok (object_text (fold_left apply_edit edits o))
  | JArr l =>
      let! _ := settings_edits form [] in
      Ok (match JSON_stringify_plain (JArr l) with Some text => text | None => [] end)
  | _ => Err TypeError
  end.

(** [String(value || '').trim().replace(/\/+$/, '')]. *)
Definition strip_slashes (s : jsstr) : jsstr := rev (span (fun c => c =? 47)%Z (rev s)).2.
Definition normalizeBaseUrl (value : jsvalue) : result property_error jsstr :=
  let! text := js_String (or_empty value) in
  Ok (strip_slashes (trim text)).

(** [v || null]. *)
Definition or_null (v : jsvalue) : jsvalue := or_value v JNull.
(** Empty texts become [null]. *)
Definition cleaned (v : jsvalue) : jsvalue := match v with JStr [] => JNull | _ => v end.
Definition clean_payload (payload : members) : members := map (fun m => (m.1, cleaned m.2)) payload.

Record create_payload := CreatePayload {
  cp_mode : jsvalue;
  cp_multi_key_mode : jsvalue;
  cp_batch_add_set_key_prefix_2_name : jsvalue;
  cp_channel : members;
}.

Definition transformFormDataToCreatePayload (form : members) : result property_error create_payload :=
  let mode := or_value (fld form "multi_key_mode") (str "single") in
  let! base_url := normalizeBaseUrl (fld form "base_url") in
  let! group := formatGroups (fld form "group") in
  let! setting := buildSettingJSON form in
  let! settings := buildSettingsJSON form in
  let opt key := (js key, or_null (fld form key)) in
  let same key := (js key, fld form key) in
  Ok (CreatePayload mode
        (if strict_eqb mode (str "multi_to_single") then fld form "multi_key_type" else JUndefined)
        (if strict_eqb mode (str "batch") then fld form "batch_add_set_key_prefix_2_name" else JUndefined)
        (clean_payload
           [same "name"%string; same "type"%string; (js "base_url", or_null (JStr base_url)); same "key"%string;
            opt "openai_organization"%string; same "models"%string; (js "group", JStr group);
            opt "model_mapping"%string; opt "priority"%string; opt "weight"%string; opt "test_model"%string;
            (js "auto_ban", or_default (fld form "auto_ban") (num 1)); same "status"%string;
            opt "status_code_mapping"%string; opt "tag"%string; (js "remark", or_empty (fld form "remark"));
            (js "setting", JStr setting); opt "param_override"%string; opt "header_override"%string;
            (js "settings", JStr settings); (js "other", or_empty (fld form "other"))])).

(** The members that are sent as empty texts rather than [null], the first one aside. *)
Definition CLEARED : list string :=
  ["openai_organization"; "test_model"; "tag"; "remark"; "model_mapping"; "status_code_mapping";
   "param_override"; "header_override"]%string.

Definition transformFormDataToUpdatePayload (form : members) (channelId : jsvalue) : result property_error members :=
  let! base_url := normalizeBaseUrl (fld form "base_url") in
  let! group := formatGroups (fld form "group") in
  let! setting := buildSettingJSON form in
  let! settings := buildSettingsJSON form in
  let opt key := (js key, or_null (fld form key)) in
  let same key := (js key, fld form key) in
  let! key := (if value_truthy (fld form "key") then call_trim (fld form "key") else Ok []) in
  let payload :=
    clean_payload
      ([(js "id", channelId); same "name"%string; same "type"%string; (js "base_url", or_null (JStr base_url));
        opt "openai_organization"%string; same "models"%string; (js "group", JStr group);
        opt "model_mapping"%string; (js "priority", or_default (fld form "priority") (num 0));
        (js "weight", or_default (fld form "weight") (num 0)); opt "test_model"%string;
        (js "auto_ban", or_default (fld form "auto_ban") (num 1)); opt "status_code_mapping"%string;
        opt "tag"%string; (js "remark", or_empty (fld form "remark")); (js "setting", JStr setting);
        opt "param_override"%string; opt "header_override"%string; (js "settings", JStr settings);
        (js "other", or_empty (fld form "other"))]
       ++ (if truthy key then [same "key"%string] else [])) in
  Ok (fold_left (fun p k => assign (js k) (or_empty (fld form k)) p) CLEARED
        (assign (js "base_url") (JStr base_url) payload)).

(** * What is sent ([use-channel-mutate-form.ts]) *)

Definition SENSITIVE_UPDATE_FIELDS : list string :=
  ["type"; "key"; "base_url"; "openai_organization"; "param_override"; "header_override"; "setting"; "settings";
   "other"]%string.

(** [hasPermission] of [lib/admin-permissions.ts]. *)
Definition hasPermission (user : option auth_user) (resource action : string) : bool :=
  match user with
  | None => false
  | Some u =>
      num_eqb (u_role u) ROLE_SUPER_ADMIN ||
      is_true (optional_member
                 (optional_member
                    (optional_member (optional_member (u_object u) (js "permissions")) (js "admin_permissions"))
                    (js resource)) (js action))
  end.

(** [!data.key?.trim()]. *)
Definition key_blank (form : members) : result property_error bool :=
  let! key := optional_trim (fld form "key") in
  Ok (negb (value_truthy key)).

(** The payload of an update. *)
Definition update_request (user : option auth_user) (isMultiKeyChannel : bool) (form : members) (channelId : jsvalue)
  : result property_error members :=
  let canEditSensitive := hasPermission user "channel" "sensitive_write" in
  let! payload := transformFormDataToUpdatePayload form channelId in
  let! blank := key_blank form in
  let payload := if blank then apply_edit payload (Drop "key") else payload in
  let payload :=
    if canEditSensitive then payload
    else fold_left (fun p field => apply_edit p (Drop field)) SENSITIVE_UPDATE_FIELDS payload in
  Ok (if canEditSensitive && isMultiKeyChannel && negb blank && value_truthy (fld form "key_mode")
      then assign (js "key_mode") (fld form "key_mode") payload
      else payload).

End Form.

(** * Validation *)

(** [new URL(text)] of a proxy: its protocol, host name and port, or nothing when it throws. *)
Class ProxyParser := { parse_proxy : jsstr -> option (jsstr * jsstr * jsstr) }.

Definition SUPPORTED_PROXY_PROTOCOLS : list string := ["http:"; "https:"; "socks5:"; "socks5h:"]%string.
(** [value?.trim() || ''] of a member of type text. *)
Definition trimmed (v : jsvalue) : jsstr := match v with JStr s => trim s | _ => [] end.
(** [!value?.trim()]. *)
Definition blank (v : jsvalue) : bool := negb (truthy (trimmed v)).

Section Proxy.
Context {U : ProxyParser}.
Definition isOptionalProxyURL (value : jsvalue) : bool :=
  let text := trimmed value in
  if negb (truthy text) then true
  else
    match index_of (js "://") text with
    | None | Some 0 => false
    | Some i =>
        let authority := drop (i + 3) text in
        let suffix := (span (fun c => negb (existsb (Z.eqb c) [47; 63; 35]%Z)) authority).2 in
        if truthy suffix && negb (suffix === "/") then false
        else
          match parse_proxy text with
          | Some (protocol, hostname, port) =>
              existsb (fun p => protocol === p) SUPPORTED_PROXY_PROTOCOLS && truthy hostname && negb (port === "0")
          | None => false
          end
    end.
End Proxy.

(** * Texts that hold JSON *)

(** Nothing for a blank text, the value of the text, or an exception. *)
Definition parseOptionalJson (value : jsvalue) : result unit (option jsvalue) :=
  if blank value then Ok None
  else match value with
       | JStr s => match JSON_parse s with Ok v => Ok (Some v) | Err _ => Err tt end
       | _ => Err tt
       end.
Definition isJsonObjectValue (v : jsvalue) : bool := match v with JObj _ => true | _ => false end.
(** The [try] block of the checks: a blank text passes, what does not parse fails. *)
Definition optional_json (check : jsvalue -> bool) (value : jsvalue) : bool :=
  match parseOptionalJson value with Ok None => true | Ok (Some v) => check v | Err _ => false end.

Definition isOptionalJsonObject : jsvalue -> bool := optional_json isJsonObjectValue.
Definition is_string_value (v : jsvalue) : bool := match v with JStr _ => true | _ => false end.
Definition isOptionalModelMapping : jsvalue -> bool :=
  optional_json (fun v => isJsonObjectValue v && forallb (fun m => is_string_value m.2) (entries_of v)).
Definition http_status (n : number) : bool := is_integer n && num_leb (num_of_Z 100) n && num_leb n (num_of_Z 599).
Definition isOptionalStatusCodeMapping : jsvalue -> bool :=
  optional_json (fun v =>
    isJsonObjectValue v &&
    forallb (fun m => http_status (js_Number m.1) && match number_of m.2 with Ok n => http_status n | Err _ => false end)
      (entries_of v)).
Definition text_member (v : jsvalue) (key : string) : bool :=
  match member v (js key) with JStr s => truthy (trim s) | _ => false end.
Definition isCodexCredential : jsvalue -> bool :=
  optional_json (fun v => isJsonObjectValue v && text_member v "access_token" && text_member v "account_id").
Definition isVertexJsonKey : jsvalue -> bool :=
  optional_json (fun v => match v with JArr l => forallb isJsonObjectValue l | _ => isJsonObjectValue v end).

(** [validateJSON] and [validateModelMapping]. *)
Definition validateJSON (value : jsstr) : bool :=
  if negb (truthy value) || negb (truthy (trim value)) then true
  else match JSON_parse value with Ok _ => true | Err _ => false end.
Definition validateModelMapping (value : jsstr) : bool :=
  if negb (truthy value) || negb (truthy (trim value)) then true else validateJSON value.

(** * The refinements of the schema *)

Section Check.
Context {P : Platform} {U : UrlParser} {V : ProxyParser}.

(** The refinements of single members all pass. *)
Definition refinements_ok (form : members) : bool :=
  isOptionalModelMapping (fld form "model_mapping") && isOptionalStatusCodeMapping (fld form "status_code_mapping") &&
  isOptionalJsonObject (fld form "setting") && isOptionalJsonObject (fld form "param_override") &&
  isOptionalJsonObject (fld form "header_override") && isOptionalJsonObject (fld form "settings") &&
  isOptionalProxyURL (fld form "proxy").

(** ** [superRefine] *)

Definition form_issue : Type := string * jsstr.
Definition addRequiredIssue (b : bool) (path : string) (message : jsstr) : list form_issue := if b then [(path, message)] else [].

Definition BASE_URL_TYPES : list Z := [3; 8; 36; 45; CHANNEL_TYPE_NEW_API; CHANNEL_TYPE_TASK_PLUGIN]%Z.
Definition OTHER_TYPES : list Z := [3; 18; 21; 39; 41; 49]%Z.

(** The issues of the configuration of a custom channel. *)
Definition advanced_issues (form : members) : result property_error (list form_issue) :=
  if type_is form CHANNEL_TYPE_ADVANCED_CUSTOM then
    let! parsed := advanced_of_form form in
    let config := match parsed with Some c => c | None => JNull end in
    let! error := validateAdvancedCustomConfig config in
    let! relative := advancedCustomConfigUsesRelativeUpstreamPath config in
    let! listed := (if is_true (fld form "upstream_model_update_check_enabled")
                    then let! b := hasValidAdvancedCustomModelListRoute config in Ok (negb b) else Ok false) in
    Ok (match error with Some e => [("advanced_custom"%string, ve_message e)] | None => [] end
        ++ addRequiredIssue (relative && blank (fld form "base_url")) "base_url"
             (js "Base URL is required when an advanced route uses an upstream path")
        ++ addRequiredIssue listed "upstream_model_update_check_enabled"
             (js "OpenAI Models route is required to enable upstream model checks"))
  else Ok [].

Definition batch_mode (form : members) : bool :=
  value_truthy (fld form "multi_key_mode") && negb (strict_eqb (fld form "multi_key_mode") (str "single")).
Definition key_issues (form : members) : list form_issue :=
  (if type_is form TYPE_CODEX then
     addRequiredIssue (batch_mode form) "multi_key_mode" (js "Codex channels do not support batch creation")
     ++ addRequiredIssue (negb (blank (fld form "key")) && negb (isCodexCredential (fld form "key"))) "key"
          (js "Codex credential must be a JSON object with access_token and account_id")
   else [])
  ++ addRequiredIssue (type_is form TYPE_VERTEX && strict_eqb (fld form "vertex_key_type") (str "json") &&
       negb (blank (fld form "key")) && negb (isVertexJsonKey (fld form "key"))) "key"
       (js "Vertex AI service account key must be valid JSON")
  ++ addRequiredIssue (type_is form TYPE_VERTEX && strict_eqb (fld form "vertex_key_type") (str "api_key") && batch_mode form)
       "multi_key_mode" (js "Vertex AI API Key mode does not support batch creation").

Definition transport_issues (form : members) : result property_error (list form_issue) :=
  let! protocol := normalizeHttpProtocol (fld form "http_protocol") in
  let! shards := number_of (or_default (fld form "http2_connection_shards") (num 1)) in
  Ok (addRequiredIssue (num_ltb shards (num_of_Z 1) || num_ltb (num_of_Z MAX_HTTP2_CONNECTION_SHARDS) shards)
        "http2_connection_shards" (js "HTTP/2 connection shards must be between 1 and 8")
      ++ addRequiredIssue (String.eqb protocol HTTP_PROTOCOL_HTTP1 && num_ltb (num_of_Z 1) shards)
        "http2_connection_shards" (js "HTTP/2 connection shards must be 1 when HTTP/1.1 is selected")).

Definition superRefine (form : members) : result property_error (list form_issue) :=
  let! advanced := advanced_issues form in
  let! transport := transport_issues form in
  Ok (addRequiredIssue (type_in form BASE_URL_TYPES && blank (fld form "base_url")) "base_url"
        (js "Base URL is required for this channel type")
      ++ addRequiredIssue (type_is form CHANNEL_TYPE_TASK_PLUGIN && blank (fld form "task_plugin_key")) "task_plugin_key"
           (js "Task plugin is required")
      ++ advanced
      ++ addRequiredIssue (type_in form OTHER_TYPES && blank (fld form "other")) "other"
           (js "This channel type requires additional configuration")
      ++ key_issues form ++ transport).

(** * Default values *)

Definition CHANNEL_FORM_DEFAULT_VALUES : members :=
  [(js "name", JStr []); (js "type", num 1); (js "base_url", JStr []); (js "task_plugin_key", JStr []); (js "key", JStr []);
   (js "openai_organization", JStr []); (js "models", JStr []); (js "group", JArr [str "default"]); (js "model_mapping", JStr []);
   (js "priority", num 0); (js "weight", num 0); (js "test_model", JStr []); (js "auto_ban", num 1); (js "status", num 1);
   (js "status_code_mapping", JStr []); (js "tag", JStr []); (js "remark", JStr []); (js "setting", JStr []);
   (js "param_override", JStr []); (js "header_override", JStr []); (js "settings", str "{}"); (js "other", JStr []);
   (js "multi_key_mode", str "single"); (js "multi_key_type", str "random"); (js "batch_add_set_key_prefix_2_name", JBool false);
   (js "key_mode", str "append"); (js "force_format", JBool false); (js "thinking_to_content", JBool false); (js "proxy", JStr []);
   (js "http_protocol", str HTTP_PROTOCOL_AUTO); (js "http2_connection_shards", num 1); (js "pass_through_body_enabled", JBool false);
   (js "request_compression", JBool true); (js "disable_stream_first_token_timeout", JBool false);
   (js "relay_timeout_seconds", JUndefined); (js "system_prompt", JStr []); (js "system_prompt_override", JBool false);
   (js "is_enterprise_account", JBool false); (js "vertex_key_type", str "json"); (js "aws_key_type", str "ak_sk");
   (js "azure_responses_version", JStr []); (js "allow_service_tier", JBool false); (js "disable_store", JBool false);
   (js "allow_safety_identifier", JBool false); (js "allow_include_obfuscation", JBool false); (js "allow_inference_geo", JBool false);
   (js "allow_speed", JBool false); (js "claude_beta_query", JBool false); (js "disable_task_polling_sleep", JBool false);
   (js "upstream_model_update_check_enabled", JBool false); (js "upstream_model_update_auto_sync_enabled", JBool false);
   (js "upstream_model_update_ignored_models", JStr []); (js "advanced_custom", JStr [])].
End Check.
