(* ===== verification/ChannelSettings.v ===== *)
(** Objects that are edited and printed, and the texts [setting] and [settings] of channels: what the form
    builds is read back as it was, and builds the same text again ([ChannelForm]). *)
From Stdlib Require Import ZArith Lia Bool String SpecFloat.
From stdpp Require Import base list option sets.
From S2P Require Import Prelude JsString JsNumber Types JsValue Collections Runtime Json JsonText Schema Structure AdvancedCustom ModelMapping AuthSession NavModules NavFacts Sidebar SidebarFacts ChannelForm.

(** * Lists of names *)

Lemma texts_join l : js_String (JArr (map JStr l)) = Ok (join (js ",") l).
Proof.
  cbn [js_String].
  enough (H : (fix texts (l0 : list jsvalue) : result property_error (list jsstr) :=
       match l0 with
       | [] => Ok []
       | x :: l' => let! t := (if nullish x then Ok [] else js_String x) in let! ts := texts l' in Ok (t :: ts)
       end) (map JStr l) = Ok l) by (by rewrite H).
  induction l as [|s l IH]; [done|]. cbn [map nullish js_String to_text]. by rewrite IH.
Qed.

Lemma split_plain c s : Forall (Forall (fun x => x <> c)) (split_char c s).
Proof.
  induction s as [|x s IH]; cbn [split_char]; [by repeat constructor|].
  destruct (x =? c)%Z eqn:E; [by repeat constructor|]. apply Z.eqb_neq in E.
  destruct (split_char c s) as [|p ps]; [by repeat constructor|]. apply list.Forall_cons in IH as [Hp Hps].
  by repeat constructor.
Qed.
Lemma trim_subset c s : c ∈ trim s -> c ∈ s.
Proof.
  assert (H : forall t, c ∈ trim_start t -> c ∈ t).
  { induction t as [|x t IH]; [done|]. cbn [trim_start]. destruct (is_space x); [|done]. intros Hc. right. by apply IH. }
  unfold trim. rewrite list_elem_of_In, <- in_rev, <- list_elem_of_In. intros Hc%H.
  rewrite list_elem_of_In, <- in_rev, <- list_elem_of_In in Hc. by apply H.
Qed.

(** The names that a text lists are names that a list of names keeps. *)
Lemma listed_names text : Forall model_name (List.filter truthy (map trim (split_char COMMA text))).
Proof.
  rewrite Forall_forall. intros m Hm%list_elem_of_In%filter_In. destruct Hm as [Hm Ht].
  apply in_map_iff in Hm as (s & <- & Hs). split; [apply trim_idem|]. split; [by intros E; rewrite E in Ht|].
  intros Hc%trim_subset. pose proof (split_plain COMMA text) as Hp. rewrite Forall_forall in Hp.
  apply list_elem_of_In, Hp in Hs. rewrite Forall_forall in Hs. by apply Hs in Hc.
Qed.
Lemma names_listed l : Forall model_name l -> List.filter truthy (map trim (split_char COMMA (join [COMMA] l))) = l.
Proof.
  intros H. destruct l as [|m l]; [done|]. rewrite split_join; [|done|].
  - clear -H. induction H as [|y l0 (Hy & Hn & _) _ IH]; [done|]. cbn [map List.filter]. rewrite Hy. destruct y; [done|]. cbn [truthy]. by rewrite IH.
  - apply (Forall_impl _ _ _ H). intros a (_ & _ & Ha). apply Forall_forall. by intros z Hz ->.
Qed.

Lemma models_kept l : Forall model_name l -> parseModels (formatModels l) = l.
Proof. apply names_listed. Qed.

(** * Edits of an object *)

Definition edit_key (e : edit) : jsstr := match e with Put k _ | Drop k => js k end.
Definition edit_value (e : edit) : option jsvalue := match e with Put _ v => Some v | Drop _ => None end.

Lemma apply_edit_own o e k : own (apply_edit o e) k = if str_eqb k (edit_key e) then edit_value e else own o k.
Proof. destruct e as [key v|key]; cbn [apply_edit edit_key edit_value]; [apply own_assign|apply own_filter]. Qed.

(** What the edits leave for a key. *)
Fixpoint edited (es : list edit) (k : jsstr) (d : option jsvalue) : option jsvalue :=
  match es with
  | [] => d
  | e :: es' => edited es' k (if str_eqb k (edit_key e) then edit_value e else d)
  end.
Lemma edits_own es : forall o k, own (fold_left apply_edit es o) k = edited es k (own o k).
Proof. induction es as [|e es IH]; intros o k; [done|]. cbn [fold_left edited]. by rewrite IH, apply_edit_own. Qed.

(** Edits that change nothing. *)
Definition holds (o : members) (e : edit) : Prop := own o (edit_key e) = edit_value e.
Lemma filter_absent {A} (o : list (jsstr * A)) key : own o (js key) = None -> List.filter (fun m => negb (m.1 === key)) o = o.
Proof.
  induction o as [|[k v] o IH]; [done|]. cbn [own List.filter fst]. destruct (str_eqb_reflect (js key) k) as [|Hk]; [done|].
  intros H. rewrite (proj2 (str_eqb_neq k (js key))) by congruence. cbn [negb]. by rewrite IH.
Qed.
Lemma edits_hold es o : Forall (holds o) es -> fold_left apply_edit es o = o.
Proof.
  induction 1 as [|e es He _ IH]; [done|]. cbn [fold_left]. replace (apply_edit o e) with o; [done|]. symmetry.
  destruct e as [key v|key]; cbn [apply_edit]; [by apply assign_own|by apply filter_absent].
Qed.

(** Keys stay different, and values printable. *)
Definition edit_ok (e : edit) : Prop := match e with Put k v => Forall code_unit (js k) /\ printable v | Drop _ => True end.
Lemma edits_printable es : forall o, Forall edit_ok es -> printable (JObj o) -> printable (JObj (fold_left apply_edit es o)).
Proof.
  induction es as [|e es IH]; intros o He Ho; [done|]. apply list.Forall_cons in He as [He Hes]. cbn [fold_left]. apply IH; [done|].
  inversion Ho as [| | | | |f Hd Hf]; subst. destruct e as [key v|key]; cbn [apply_edit]; constructor.
  - by apply assign_nodup.
  - destruct He as [Hk Hv]. clear Hd Ho. induction Hf as [|[k' w] o Hw Hl IH']; cbn [assign]; [by repeat constructor|].
    destruct (str_eqb_reflect (js key) k') as [<-|]; by constructor.
  - by apply filter_keys_nodup.
  - rewrite Forall_forall in Hf |- *. intros x Hx%list_elem_of_In%filter_In. apply Hf, list_elem_of_In, Hx.
Qed.

(** Members that are [undefined] are not printed. *)
Definition defined (o : members) : members := List.filter (fun m => negb (is_undefined_value m.2)) o.
Lemma defined_text o : object_text o = object_text (defined o).
Proof.
  unfold object_text, JSON_stringify_plain. cbn [json_text].
  enough (H : member_texts false (map (fun e => (fst e, json_text false (0 + 2) (snd e))) o)
              = member_texts false (map (fun e => (fst e, json_text false (0 + 2) (snd e))) (defined o))) by (by rewrite H).
  induction o as [|[k v] o IH]; [done|]. cbn [map fst snd member_texts defined List.filter].
  destruct v; cbn [is_undefined_value negb map fst snd member_texts json_text]; [exact IH|f_equal; exact IH..].
Qed.
Lemma object_text_parse o : printable (JObj (defined o)) -> JSON_parse (object_text o) = Ok (JObj (defined o)).
Proof.
  intros H. rewrite defined_text. destruct (stringify_plain_parse _ H) as (t & Ht & Hp). unfold object_text. by rewrite Ht.
Qed.
Lemma object_text_brace o : exists t, object_text o = 123%Z :: t.
Proof. unfold object_text, JSON_stringify_plain. cbn [json_text]. unfold bracketed. destruct (member_texts _ _); by eexists. Qed.
Lemma object_text_value o : printable (JObj (defined o)) -> parse_value (JStr (object_text o)) = Some (JObj (defined o)).
Proof. intros H. unfold parse_value. cbn [js_String to_text]. by rewrite object_text_parse. Qed.

Lemma member_defined o k : NoDup (map fst o) -> member (JObj (defined o)) k = member (JObj o) k.
Proof.
  unfold member. cbn [entries_of]. induction o as [|[k' v] o IH]; intros Hd; [done|]. cbn [map fst] in Hd.
  apply list.NoDup_cons in Hd as [Hk Hd]. specialize (IH Hd). cbn [defined List.filter snd own].
  destruct (str_eqb_reflect k k') as [->|Hn].
  - destruct v; cbn [is_undefined_value negb own]; rewrite ?str_eqb_refl; try done.
    enough (own (defined o) k' = None) as H by (unfold defined in H; by rewrite H). apply own_absent. intros Hin. apply Hk.
    apply list_elem_of_fmap in Hin as (x & -> & Hx). apply list_elem_of_In, filter_In in Hx as [Hx _].
    apply list_elem_of_fmap. exists x. split; [done|]. by apply list_elem_of_In.
  - destruct v; cbn [is_undefined_value negb own]; rewrite ?(proj2 (str_eqb_neq k k') Hn); exact IH.
Qed.

Lemma defined_nodup o : NoDup (map fst o) -> NoDup (map fst (defined o)).
Proof. apply filter_keys_nodup. Qed.
(** A member that is printed, or is not there. *)
Definition member_prints (e : jsstr * jsvalue) : Prop :=
  is_undefined_value e.2 = true \/ Forall code_unit e.1 /\ printable e.2.
Lemma defined_printable o : NoDup (map fst o) -> Forall member_prints o -> printable (JObj (defined o)).
Proof.
  intros Hd Ho. constructor; [by apply defined_nodup|]. rewrite Forall_forall in Ho |- *. intros e He%list_elem_of_In%filter_In.
  destruct He as [He Hn]. apply list_elem_of_In in He. destruct (Ho e He) as [Hx|]; [by rewrite Hx in Hn|done].
Qed.
(** A member whose name is written out. *)
Ltac named := right; split; [apply code_units_ok; vm_compute; reflexivity|constructor; try apply code_units_ok; auto].

(** * Forms *)

(** The values of the declared types of members. *)
Definition opt_flag (v : jsvalue) : bool := match v with JUndefined | JBool _ => true | _ => false end.
Definition opt_text (v : jsvalue) : bool := match v with JUndefined => true | JStr s => forallb is_code_unit s | _ => false end.
Definition opt_count (v : jsvalue) : bool := match v with JUndefined => true | JNum n => number_prints n | _ => false end.

Definition SETTING_TEXTS : list string := ["task_plugin_key"; "proxy"; "system_prompt"; "http_protocol"]%string.
Definition SETTING_FLAGS : list string :=
  ["force_format"; "thinking_to_content"; "pass_through_body_enabled"; "request_compression";
   "disable_stream_first_token_timeout"; "system_prompt_override"]%string.
Definition setting_ok (form : members) : bool :=
  forallb (fun k => opt_text (fld form k)) SETTING_TEXTS && forallb (fun k => opt_flag (fld form k)) SETTING_FLAGS &&
  opt_count (fld form "http2_connection_shards") && opt_count (fld form "relay_timeout_seconds").

(** How the requests of a channel are sent. *)
Inductive transport := ByHttp1 | ByShards (n : number).

Section Setting.
Context {P : Platform}.
(** Lower-case letters and digits are their own lower case. *)
Hypothesis Hlow : forall s, forallb (fun c => is_digit c || ((97 <=? c) && (c <=? 122)))%Z s = true -> toLowerCase s = s.

Lemma text_of_text s : js_String (or_empty (JStr s)) = Ok s.
Proof. by destruct s. Qed.
Lemma protocol_text s : normalizeHttpProtocol (JStr s)
  = Ok (if toLowerCase (trim s) === HTTP_PROTOCOL_HTTP1 then HTTP_PROTOCOL_HTTP1 else HTTP_PROTOCOL_AUTO).
Proof. unfold normalizeHttpProtocol. by rewrite text_of_text. Qed.
Lemma protocol_http1 : normalizeHttpProtocol (str HTTP_PROTOCOL_HTTP1) = Ok HTTP_PROTOCOL_HTTP1.
Proof. unfold str. by rewrite protocol_text, Hlow by (by vm_compute). Qed.
Lemma protocol_auto v : v = JUndefined \/ v = str HTTP_PROTOCOL_AUTO -> normalizeHttpProtocol v = Ok HTTP_PROTOCOL_AUTO.
Proof.
  intros [->| ->]; [change (normalizeHttpProtocol JUndefined) with (normalizeHttpProtocol (JStr []))|unfold str];
    by rewrite protocol_text, Hlow by (by vm_compute).
Qed.

(** A number of shards that is kept. *)
Definition shards_kept (n : number) : Prop := normalizeHttp2ConnectionShards (JNum n) = Ok (JNum n) /\ number_prints n = true.
Lemma shards_kept_Z z : existsb (Z.eqb z) [1; 8]%Z = true -> shards_kept (num_of_Z z).
Proof. intros H. cbn in H. destruct (z =? 1)%Z eqn:E1; [apply Z.eqb_eq in E1 as ->; by split; vm_compute|].
  destruct (z =? 8)%Z eqn:E2; [apply Z.eqb_eq in E2 as ->; by split; vm_compute|done]. Qed.
Lemma shards_normal v : opt_count v = true -> exists n, normalizeHttp2ConnectionShards v = Ok (JNum n) /\ shards_kept n.
Proof.
  destruct v as [| | |n| | |]; try done; cbn [opt_count]; intros Hp.
  - exists (num_of_Z 1). split; [done|]. by apply shards_kept_Z.
  - unfold normalizeHttp2ConnectionShards at 1. cbn [nullish orb]. destruct (is_nan_value (JNum n) || strict_eqb (JNum n) (num 0)) eqn:E1.
    { exists (num_of_Z 1). split; [done|]. by apply shards_kept_Z. }
    cbn [number_of to_Number]. destruct (num_ltb n (num_of_Z 1)) eqn:E2.
    { exists (num_of_Z 1). split; [done|]. by apply shards_kept_Z. }
    destruct (num_ltb (num_of_Z MAX_HTTP2_CONNECTION_SHARDS) n) eqn:E3.
    { exists (num_of_Z 8). split; [done|]. by apply shards_kept_Z. }
    exists n. split; [done|]. split; [|done]. unfold normalizeHttp2ConnectionShards. cbn [nullish orb]. rewrite E1.
    cbn [number_of to_Number]. by rewrite E2, E3.
Qed.

(** The object that is printed. *)
Definition transport_members (t : transport) : members :=
  match t with
  | ByHttp1 => [(js "http_protocol", str HTTP_PROTOCOL_HTTP1)]
  | ByShards n => if num_ltb (num_of_Z 1) n then [(js "http2_connection_shards", JNum n)] else []
  end.
Definition relay_members (r : option number) : members :=
  match r with Some n => [(js "relay_timeout_seconds", JNum n)] | None => [] end.
Definition setting_object (plugin : option jsstr) (ff tc pt rc ds so : bool) (px sp : jsstr) (t : transport) (r : option number)
  : members :=
  [(js "task_plugin_key", match plugin with Some k => JStr k | None => JUndefined end);
   (js "force_format", JBool ff); (js "thinking_to_content", JBool tc); (js "proxy", JStr px);
   (js "pass_through_body_enabled", JBool pt); (js "request_compression", JBool rc);
   (js "disable_stream_first_token_timeout", JBool ds); (js "system_prompt", JStr sp);
   (js "system_prompt_override", JBool so)] ++ transport_members t ++ relay_members r.

(** What the form shows of it. *)
Definition setting_shown (plugin : option jsstr) (ff tc pt rc ds so : bool) (px sp : jsstr) (t : transport) (r : option number)
  : members :=
  [(js "task_plugin_key", JStr (default [] plugin)); (js "force_format", JBool ff); (js "thinking_to_content", JBool tc);
   (js "proxy", JStr px);
   (js "http_protocol", match t with ByHttp1 => str HTTP_PROTOCOL_HTTP1 | ByShards _ => str HTTP_PROTOCOL_AUTO end);
   (js "http2_connection_shards",
     match t with ByHttp1 => num 1 | ByShards n => if num_ltb (num_of_Z 1) n then JNum n else num 1 end);
   (js "pass_through_body_enabled", JBool pt); (js "request_compression", JBool rc);
   (js "disable_stream_first_token_timeout", JBool ds);
   (js "relay_timeout_seconds", match r with Some n => JNum n | None => JUndefined end);
   (js "system_prompt", JStr sp); (js "system_prompt_override", JBool so)].

Definition transport_kept (t : transport) : Prop := match t with ByHttp1 => True | ByShards n => shards_kept n end.

Lemma shown_text s : or_empty (JStr s) = JStr s.
Proof. by destruct s. Qed.
Lemma or_false_bool b : or_false (JBool b) = JBool b.
Proof. by destruct b. Qed.

Lemma own_here {A} k (v : A) l : own ((k, v) :: l) k = Some v.
Proof. cbn [own]. by rewrite str_eqb_refl. Qed.
Lemma own_next {A} k k' (v : A) l : str_eqb k k' = false -> own ((k', v) :: l) k = own l k.
Proof. intros H. cbn [own]. by rewrite H. Qed.
Lemma member_here k v l : member (JObj ((k, v) :: l)) k = v.
Proof. unfold member. cbn [entries_of]. by rewrite own_here. Qed.
Lemma member_next k k' v l : str_eqb k k' = false -> member (JObj ((k', v) :: l)) k = member (JObj l) k.
Proof. intros H. unfold member. cbn [entries_of]. by rewrite own_next. Qed.

(** Look up the members of an object that is written out. *)
Ltac look_up := repeat first [rewrite member_here | rewrite member_next by (vm_compute; reflexivity)];
  change (member (JObj []) ?k) with JUndefined.

Lemma setting_object_keys plugin ff tc pt rc ds so px sp t r :
  NoDup (map fst (setting_object plugin ff tc pt rc ds so px sp t r)).
Proof.
  unfold setting_object. destruct t as [|n]; cbn [transport_members]; [|destruct (num_ltb (num_of_Z 1) n)];
    destruct r; apply (bool_decide_unpack _); by vm_compute.
Qed.

Lemma setting_object_read plugin ff tc pt rc ds so px sp t r : transport_kept t ->
  extra_settings (JObj (defined (setting_object plugin ff tc pt rc ds so px sp t r)))
  = Ok (setting_shown plugin ff tc pt rc ds so px sp t r).
Proof.
  intros Ht. unfold extra_settings. cbn [nullish]. rewrite !member_defined by apply setting_object_keys.
  assert (Hs : match t with ByShards n => normalizeHttp2ConnectionShards (JNum n) = Ok (JNum n) | _ => True end) by (destruct t; [done|apply Ht]).
  assert (Hu : normalizeHttp2ConnectionShards JUndefined = Ok (num 1)) by done.
  unfold setting_object, setting_shown. destruct t as [|n]; cbn [transport_members]; [|destruct (num_ltb (num_of_Z 1) n) eqn:En];
    destruct r as [x|]; cbn [app relay_members]; look_up;
    rewrite ?protocol_http1, ?(protocol_auto JUndefined (or_introl eq_refl)), ?Hu, ?Hs;
    cbn [String.eqb or_default nullish]; rewrite !shown_text, !or_false_bool; by destruct plugin as [[]|].
Qed.

(** ** Building *)

Definition flag_of (v : jsvalue) : bool := match v with JBool b => b | _ => false end.
Definition text_of (v : jsvalue) : jsstr := match v with JStr s => s | _ => [] end.
Definition compression_of (v : jsvalue) : bool := match v with JBool b => b | _ => true end.
Definition plugin_of (form : members) : option jsstr :=
  if type_is form CHANNEL_TYPE_TASK_PLUGIN then Some (trim (text_of (fld form "task_plugin_key"))) else None.
Definition transport_of (form : members) : transport :=
  match normalizeHttpProtocol (fld form "http_protocol"), normalizeHttp2ConnectionShards (fld form "http2_connection_shards") with
  | Ok p, Ok (JNum n) => if String.eqb p HTTP_PROTOCOL_HTTP1 then ByHttp1 else ByShards n
  | _, _ => ByHttp1
  end.
Definition relay_of (form : members) : option number := match fld form "relay_timeout_seconds" with JNum n => Some n | _ => None end.
Definition setting_of (form : members) : members :=
  setting_object (plugin_of form) (flag_of (fld form "force_format")) (flag_of (fld form "thinking_to_content"))
    (flag_of (fld form "pass_through_body_enabled")) (compression_of (fld form "request_compression"))
    (flag_of (fld form "disable_stream_first_token_timeout")) (flag_of (fld form "system_prompt_override"))
    (trim (text_of (fld form "proxy"))) (text_of (fld form "system_prompt")) (transport_of form) (relay_of form).

Lemma opt_flag_false v : opt_flag v = true -> or_false v = JBool (flag_of v).
Proof. by destruct v as [| |[]| | | |]. Qed.
Lemma opt_text_empty v : opt_text v = true -> or_empty v = JStr (text_of v).
Proof. by destruct v as [| | | |[]| |]. Qed.
Lemma opt_text_trim v : opt_text v = true -> exists w, optional_trim v = Ok w /\ or_empty w = JStr (trim (text_of v)).
Proof. destruct v as [| | | |t| |]; try done; intros _; eexists; (split; [done|]); [done|apply shown_text]. Qed.
Lemma opt_text_protocol v : opt_text v = true -> exists p, normalizeHttpProtocol v = Ok p.
Proof.
  destruct v as [| | | |t| |]; try done; intros _; [|rewrite protocol_text; by eexists].
  change (normalizeHttpProtocol JUndefined) with (normalizeHttpProtocol (JStr [])). rewrite protocol_text. by eexists.
Qed.

Lemma setting_built form : setting_ok form = true ->
  buildSettingJSON form = Ok (object_text (setting_of form)) /\ transport_kept (transport_of form).
Proof.
  unfold setting_ok, SETTING_TEXTS, SETTING_FLAGS. cbn [forallb]. intros H. bools.
  destruct (opt_text_trim _ H) as (k & Hk & Ek). destruct (opt_text_trim _ H9) as (x & Hx & Ex).
  destruct (opt_text_protocol _ H11) as (p & Hp). destruct (shards_normal _ H1) as (n & Hn & Hkept).
  unfold buildSettingJSON, setting_of, transport_of, plugin_of, relay_of. rewrite Hk, Hx, Hp, Hn.
  split; [|by destruct (String.eqb p _)].
  rewrite Ex, Ek, !opt_flag_false by done. rewrite (opt_text_empty (fld form "system_prompt")) by done. unfold setting_object.
  assert (Hrc : or_default (fld form "request_compression") (JBool true) = JBool (compression_of (fld form "request_compression")))
    by (by destruct (fld form "request_compression")).
  rewrite Hrc.
  assert (Hr : (if is_undefined_value (fld form "relay_timeout_seconds") then []
     else [(js "relay_timeout_seconds", fld form "relay_timeout_seconds")])
     = relay_members (match fld form "relay_timeout_seconds" with JNum n => Some n | _ => None end))
    by (by destruct (fld form "relay_timeout_seconds")).
  rewrite Hr. destruct (String.eqb p HTTP_PROTOCOL_HTTP1); destruct (type_is form CHANNEL_TYPE_TASK_PLUGIN);
    cbn [transport_members number_of num to_Number]; reflexivity.
Qed.

Lemma setting_printable form : setting_ok form = true -> printable (JObj (defined (setting_of form))).
Proof.
  intros H. destruct (setting_built form H) as [_ Hk]. unfold setting_ok, SETTING_TEXTS, SETTING_FLAGS in H. cbn [forallb] in H. bools.
  assert (Ht : forall v, opt_text v = true -> forallb is_code_unit (text_of v) = true) by (by intros []).
  assert (Htr : forall v, opt_text v = true -> forallb is_code_unit (trim (text_of v)) = true).
  { intros v Hv. apply forallb_forall. intros c Hc%list_elem_of_In%trim_subset. specialize (Ht v Hv). rewrite forallb_forall in Ht.
    by apply Ht, list_elem_of_In. }
  apply defined_printable; [apply setting_object_keys|]. unfold setting_of, setting_object.
  repeat apply Forall_app_2.
  - unfold plugin_of. repeat (apply list.Forall_cons; split); [|named..|constructor].
    cbn [fst snd]. destruct (type_is _ _); [named|by left].
  - destruct (transport_of form) as [|n]; cbn [transport_members].
    { apply list.Forall_cons. split; [|constructor]. named. }
    destruct (num_ltb _ n); [|constructor]. apply list.Forall_cons. split; [|constructor]. right. split; [by apply code_units_ok; vm_compute|].
    constructor. apply Hk.
  - unfold relay_of. destruct (fld form "relay_timeout_seconds") as [| | |n| | |] eqn:Er; try constructor; [|constructor].
    right. split; [by apply code_units_ok; vm_compute|]. by constructor.
Qed.

(** ** Reading back *)

Definition shown_of (form : members) : members :=
  setting_shown (plugin_of form) (flag_of (fld form "force_format")) (flag_of (fld form "thinking_to_content"))
    (flag_of (fld form "pass_through_body_enabled")) (compression_of (fld form "request_compression"))
    (flag_of (fld form "disable_stream_first_token_timeout")) (flag_of (fld form "system_prompt_override"))
    (trim (text_of (fld form "proxy"))) (text_of (fld form "system_prompt")) (transport_of form) (relay_of form).

Lemma setting_reread form : setting_ok form = true -> read_setting (JStr (object_text (setting_of form))) = shown_of form.
Proof.
  intros H. destruct (setting_built form H) as [_ Hk]. unfold read_setting. destruct (object_text_brace (setting_of form)) as [t Ht].
  rewrite object_text_value by (by apply setting_printable). rewrite Ht. cbn [value_truthy truthy].
  unfold setting_of, shown_of. by rewrite setting_object_read.
Qed.

Definition SETTING_NAMES : list string :=
  SETTING_TEXTS ++ SETTING_FLAGS ++ ["http2_connection_shards"; "relay_timeout_seconds"]%string.

Lemma opt_text_units v : opt_text v = true -> forallb is_code_unit (text_of v) = true.
Proof. by destruct v. Qed.
Lemma trim_code_units s : forallb is_code_unit s = true -> forallb is_code_unit (trim s) = true.
Proof. rewrite !forallb_forall. intros H c Hc%list_elem_of_In%trim_subset. by apply H, list_elem_of_In. Qed.

Lemma shown_members form : let f := shown_of form in
  fld f "task_plugin_key" = JStr (default [] (plugin_of form)) /\ fld f "force_format" = JBool (flag_of (fld form "force_format")) /\
  fld f "thinking_to_content" = JBool (flag_of (fld form "thinking_to_content")) /\
  fld f "proxy" = JStr (trim (text_of (fld form "proxy"))) /\
  fld f "http_protocol" = match transport_of form with ByHttp1 => str HTTP_PROTOCOL_HTTP1 | ByShards _ => str HTTP_PROTOCOL_AUTO end /\
  fld f "http2_connection_shards" =
    match transport_of form with ByHttp1 => num 1 | ByShards n => if num_ltb (num_of_Z 1) n then JNum n else num 1 end /\
  fld f "pass_through_body_enabled" = JBool (flag_of (fld form "pass_through_body_enabled")) /\
  fld f "request_compression" = JBool (compression_of (fld form "request_compression")) /\
  fld f "disable_stream_first_token_timeout" = JBool (flag_of (fld form "disable_stream_first_token_timeout")) /\
  fld f "relay_timeout_seconds" = match relay_of form with Some n => JNum n | None => JUndefined end /\
  fld f "system_prompt" = JStr (text_of (fld form "system_prompt")) /\
  fld f "system_prompt_override" = JBool (flag_of (fld form "system_prompt_override")).
Proof. repeat split. Qed.

(** The form that is read back builds the same text. *)
Lemma setting_again form again : setting_ok form = true ->
  type_is again CHANNEL_TYPE_TASK_PLUGIN = type_is form CHANNEL_TYPE_TASK_PLUGIN ->
  (forall k, k ∈ SETTING_NAMES -> fld again k = fld (shown_of form) k) ->
  buildSettingJSON again = Ok (object_text (setting_of form)).
Proof.
  intros H Ht Hf. destruct (setting_built form H) as [_ Hk]. unfold setting_ok, SETTING_TEXTS, SETTING_FLAGS in H. cbn [forallb] in H. bools.
  assert (Hin : forall k, bool_decide (k ∈ SETTING_NAMES) = true -> fld again k = fld (shown_of form) k)
    by (intros k Hb; apply Hf; by apply bool_decide_eq_true in Hb).
  destruct (shown_members form) as (S1 & S2 & S3 & S4 & S5 & S6 & S7 & S8 & S9 & S10 & S11 & S12).
  assert (Hok : setting_ok again = true).
  { unfold setting_ok, SETTING_TEXTS, SETTING_FLAGS. cbn [forallb]. rewrite !Hin by (vm_compute; reflexivity).
    rewrite S1, S2, S3, S4, S5, S6, S7, S8, S9, S10, S11, S12. cbn [opt_flag opt_text andb]. unfold plugin_of, relay_of.
    rewrite (trim_code_units _ (opt_text_units _ H9)), (opt_text_units _ H10).
    assert (Hpl : forallb is_code_unit (default [] (if type_is form CHANNEL_TYPE_TASK_PLUGIN then Some (trim (text_of (fld form "task_plugin_key"))) else None)) = true).
    { destruct (type_is form CHANNEL_TYPE_TASK_PLUGIN); [|reflexivity]. by apply trim_code_units, opt_text_units. }
    rewrite Hpl.
    assert (Hr : opt_count (match match fld form "relay_timeout_seconds" with JNum n => Some n | _ => None end with Some n => JNum n | None => JUndefined end) = true)
      by (by destruct (fld form "relay_timeout_seconds")).
    rewrite Hr. destruct (transport_of form) as [|n]; [by vm_compute|]. destruct Hk as [_ Hn]. cbn [andb].
    destruct (num_ltb (num_of_Z 1) n); [cbn [opt_count str]; rewrite Hn; by vm_compute|by vm_compute]. }
  destruct (setting_built again Hok) as [-> _]. do 2 f_equal.
  unfold setting_of at 1. unfold plugin_of at 1, relay_of at 1, transport_of at 1. rewrite !Hin by (vm_compute; reflexivity).
  rewrite S1, S2, S3, S4, S5, S6, S7, S8, S9, S10, S11, S12, Ht. cbn [flag_of compression_of text_of]. unfold setting_of. rewrite trim_idem.
  assert (Hpl : (if type_is form CHANNEL_TYPE_TASK_PLUGIN then Some (trim (default [] (plugin_of form))) else None) = plugin_of form).
  { unfold plugin_of. destruct (type_is form CHANNEL_TYPE_TASK_PLUGIN); [|reflexivity].
    change (default [] (Some (trim (text_of (fld form "task_plugin_key"))))) with (trim (text_of (fld form "task_plugin_key"))).
    by rewrite trim_idem. }
  rewrite Hpl. assert (Hr : match match relay_of form with Some n => JNum n | None => JUndefined end with JNum n => Some n | _ => None end = relay_of form)
    by (by destruct (relay_of form)).
  rewrite Hr. assert (H1n : normalizeHttp2ConnectionShards (num 1) = Ok (num 1)) by (by vm_compute).
  destruct (transport_of form) as [|n].
  - by rewrite protocol_http1, H1n.
  - rewrite protocol_auto by (by right). destruct Hk as [Hn _]. unfold setting_object. cbn [transport_members].
    destruct (num_ltb (num_of_Z 1) n) eqn:E; [rewrite Hn|]; rewrite ?H1n; change (String.eqb HTTP_PROTOCOL_AUTO HTTP_PROTOCOL_HTTP1) with false; cbn [transport_members num]; by rewrite ?E.
Qed.

End Setting.

(** * Edits that were made hold *)

Lemma edited_other es : forall k d, k ∉ map edit_key es -> edited es k d = d.
Proof.
  induction es as [|e es IH]; intros k d H; [done|]. cbn [map] in H. apply not_elem_of_cons in H as [Hk H]. cbn [edited].
  rewrite (proj2 (str_eqb_neq k (edit_key e)) Hk). by apply IH.
Qed.
Lemma edits_made es o : NoDup (map edit_key es) -> Forall (holds (fold_left apply_edit es o)) es.
Proof.
  intros Hd. rewrite Forall_forall. intros e He. unfold holds. rewrite edits_own. generalize (own o (edit_key e)).
  induction es as [|x es IH]; intros d; [by apply elem_of_nil in He|]. cbn [map] in Hd. apply list.NoDup_cons in Hd as [Hx Hd].
  cbn [edited]. apply elem_of_cons in He as [->|He]; [|by apply IH].
  rewrite str_eqb_refl. by apply edited_other.
Qed.
Lemma put_or_drop_key b k v : edit_key (put_or_drop b k v) = js k.
Proof. by destruct b. Qed.
Lemma put_or_drop_value b k v : edit_value (put_or_drop b k v) = if b then Some v else None.
Proof. by destruct b. Qed.
Lemma holds_put_or_drop o b k v : holds o (put_or_drop b k v) <-> own o (js k) = if b then Some v else None.
Proof. unfold holds. by rewrite put_or_drop_key, put_or_drop_value. Qed.

Lemma exactly_true_idem v : exactly_true (exactly_true v) = exactly_true v.
Proof. unfold exactly_true. by destruct (is_true v). Qed.

(** A switch that is written and read again. *)
Lemma flag_again (o : members) (b : bool) k x v : own o (js k) = (if b then Some (exactly_true x) else None) ->
  v = exactly_true (member (JObj o) (js k)) -> holds o (put_or_drop b k (exactly_true v)).
Proof.
  intros H ->. apply holds_put_or_drop. unfold member. cbn [entries_of]. rewrite H. destruct b; [|done]. by rewrite !exactly_true_idem.
Qed.

(** A choice with a default. *)
Lemma or_value_truthy x d : value_truthy d = true -> value_truthy (or_value x d) = true.
Proof. unfold or_value. by destruct (value_truthy x) eqn:E. Qed.
Lemma or_value_id x d : value_truthy x = true -> or_value x d = x.
Proof. unfold or_value. by intros ->. Qed.
Lemma choice_again (o : members) (b : bool) k x d v : own o (js k) = (if b then Some (or_value x d) else None) ->
  value_truthy d = true -> v = or_value (member (JObj o) (js k)) d -> holds o (put_or_drop b k (or_value v d)).
Proof.
  intros H Hd ->. apply holds_put_or_drop. unfold member. cbn [entries_of]. rewrite H. destruct b; [|done].
  pose proof (or_value_truthy x d Hd) as Hy. revert Hy. generalize (or_value x d). intros y Hy. by rewrite !(or_value_id y d Hy).
Qed.

Definition TYPE_NAMES : list string :=
  ["is_enterprise_account"; "vertex_key_type"; "azure_responses_version"; "aws_key_type"]%string ++ map fst FLAG_MEMBERS ++
  ["upstream_model_update_ignored_models"; "advanced_custom"]%string.

Section Settings.
Context {P : Platform}.
Context (form again o : members).
(** The object that was stored, and the form that shows it. *)
Hypothesis Htype : fld again "type" = fld form "type".
Hypothesis Hshown : forall k, k ∈ TYPE_NAMES -> fld again k = fld (type_settings (Some (JObj o))) k.

Lemma same_type n : type_is again n = type_is form n.
Proof. unfold type_is, fld_is. by rewrite Htype. Qed.
Lemma same_types l : type_in again l = type_in form l.
Proof. unfold type_in. induction l as [|n l IH]; [done|]. cbn [existsb]. by rewrite same_type, IH. Qed.

Lemma shown_member k v : bool_decide (k ∈ TYPE_NAMES) = true -> fld (type_settings (Some (JObj o))) k = v -> fld again k = v.
Proof. intros Hk <-. apply Hshown. by apply bool_decide_eq_true in Hk. Qed.

Lemma type_edits_again : Forall (holds o) (type_edits form) -> Forall (holds o) (type_edits again).
Proof.
  intros H. unfold type_edits in *. repeat (apply list.Forall_cons in H as [?Hh H]). clear H.
  rewrite !same_types, !same_type. rewrite holds_put_or_drop in Hh, Hh0, Hh1, Hh2, Hh3, Hh4, Hh5, Hh6, Hh7, Hh8, Hh9.
  repeat (apply list.Forall_cons; split).
  - apply (choice_again _ _ _ _ _ _ Hh eq_refl). by apply shown_member.
  - assert (Ha : fld again "azure_responses_version" = or_empty (member (JObj o) (js "azure_responses_version"))) by (by apply shown_member).
    rewrite Ha. apply holds_put_or_drop. unfold member. cbn [entries_of]. rewrite Hh0.
    destruct (type_is form TYPE_AZURE); [|done]. cbn [andb]. destruct (value_truthy (fld form "azure_responses_version")) eqn:E; [|done].
    unfold or_empty, or_value. by rewrite E, E.
  - apply holds_put_or_drop. rewrite Hh1. destruct (type_is form TYPE_OPENROUTER); [|done].
    assert (Ha : fld again "is_enterprise_account" = exactly_true (member (JObj o) (js "openrouter_enterprise"))) by (by apply shown_member).
    rewrite Ha. unfold member. cbn [entries_of]. by rewrite Hh1, !exactly_true_idem.
  - apply (choice_again _ _ _ _ _ _ Hh2 eq_refl). by apply shown_member.
  - apply (flag_again _ _ _ _ _ Hh3). by apply shown_member.
  - apply (flag_again _ _ _ _ _ Hh4). by apply shown_member.
  - apply (flag_again _ _ _ _ _ Hh5). by apply shown_member.
  - apply (flag_again _ _ _ _ _ Hh6). by apply shown_member.
  - apply (flag_again _ _ _ _ _ Hh7). by apply shown_member.
  - apply (flag_again _ _ _ _ _ Hh8). by apply shown_member.
  - apply (flag_again _ _ _ _ _ Hh9). by apply shown_member.
  - apply (flag_again _ true _ _ _ Hh10). by apply shown_member.
  - constructor.
Qed.

Lemma distinct_id {K} `{EqDecision K} (l : list K) : NoDup l -> distinct l = l.
Proof.
  unfold distinct. intros Hd.
  enough (H : forall m : list (K * unit), NoDup (map fst m ++ l) -> map fst (fold_left (fun m k => mput k tt m) l m) = map fst m ++ l) by (by apply (H [])).
  clear Hd. induction l as [|k l IH]; intros m Hd; cbn [fold_left]; [by rewrite app_nil_r|].
  assert (Hk : map fst (mput k tt m) = map fst m ++ [k]).
  { rewrite mput_keys, bool_decide_false; [done|]. apply list.NoDup_app in Hd as (_ & Hd & _). intros Hin. apply (Hd k Hin). by left. }
  rewrite IH, Hk, <- app_assoc; [done|]. by rewrite Hk, <- app_assoc.
Qed.

Lemma ignored_again text : ignored_models (join [COMMA] (ignored_models text)) = ignored_models text.
Proof.
  unfold ignored_models. set (l := List.filter truthy (map trim (split_char COMMA text))). assert (Hn : Forall model_name (distinct l)).
  { pose proof (listed_names text) as H. fold l in H. rewrite Forall_forall in H |- *. intros m Hm. apply H. by apply (proj2 (distinct_spec l) m) in Hm. }
  rewrite names_listed by done. apply distinct_id. apply distinct_spec.
Qed.

Lemma holds_put (obj : members) k v : holds obj (Put k v) <-> own obj (js k) = Some v.
Proof. done. Qed.
Lemma fld_own (obj : members) k v : own obj (js k) = Some v -> fld obj k = v.
Proof. apply member_own. Qed.

(** The edits for fetched models; [before] is what was stored before the first save. *)
Lemma fetch_edits_again before ignored : Forall (holds o) (fetch_edits form before ignored) ->
  (forall k, k ∈ ["upstream_model_update_last_detected_models"; "upstream_model_update_last_check_time"]%string ->
     js k ∉ map edit_key (fetch_edits form before ignored) -> fld o k = fld before k) ->
  exists ignored', js_String (or_empty (fld again "upstream_model_update_ignored_models")) = Ok ignored' /\
    Forall (holds o) (fetch_edits again o ignored').
Proof.
  unfold fetch_edits at 1. intros H Hother. apply Forall_app in H as [H Hl]. apply Forall_app in Hl as [Hd Ht].
  repeat (apply list.Forall_cons in H as [?Hh H]). rewrite holds_put in Hh, Hh0, Hh1.
  assert (Hi : fld again "upstream_model_update_ignored_models" = JStr (join [COMMA] (ignored_models ignored))).
  { apply shown_member; [done|].
    transitivity (JStr (match match member (JObj o) (js "upstream_model_update_ignored_models") with
                              | JArr l => js_String (JArr l) | _ => Ok [] end with Ok t => t | Err _ => [] end)); [reflexivity|].
    by rewrite (member_own _ _ _ Hh1), texts_join. }
  assert (Hc : is_true (fld again "upstream_model_update_check_enabled") = is_true (fld form "upstream_model_update_check_enabled")).
  { rewrite (shown_member "upstream_model_update_check_enabled" (exactly_true (fld o "upstream_model_update_check_enabled"))) by done.
    rewrite (fld_own _ _ _ Hh). by destruct (is_true _). }
  assert (Ha : is_true (fld again "upstream_model_update_auto_sync_enabled")
    = is_true (fld form "upstream_model_update_check_enabled") && is_true (fld form "upstream_model_update_auto_sync_enabled")).
  { rewrite (shown_member "upstream_model_update_auto_sync_enabled" (exactly_true (fld o "upstream_model_update_auto_sync_enabled"))) by done.
    rewrite (fld_own _ _ _ Hh0). by destruct (_ && _). }
  eexists. rewrite Hi, text_of_text. split; [done|]. unfold fetch_edits. rewrite Hc, Ha, ignored_again.
  set (check := is_true (fld form "upstream_model_update_check_enabled")) in *.
  apply Forall_app. split; [|apply Forall_app; split].
  - repeat (apply list.Forall_cons; split); [by apply holds_put| |by apply holds_put|constructor].
    apply holds_put. rewrite Hh0. by destruct check.
  - destruct (match fld before _ with JArr _ => negb check | _ => true end) eqn:E.
    + apply list.Forall_cons in Hd as [Hd _]. rewrite (fld_own _ _ _ Hd). destruct check; [constructor|]. by constructor.
    + rewrite Hother; [rewrite E; constructor|by left|].
      unfold fetch_edits. fold check. rewrite E. destruct (fld before "upstream_model_update_last_check_time"); by apply (bool_decide_unpack _); vm_compute.
  - destruct (fld before "upstream_model_update_last_check_time") as [| | |n| | |] eqn:E;
      try (apply list.Forall_cons in Ht as [Ht _]; rewrite (fld_own _ _ _ Ht); constructor).
    rewrite Hother, E; [constructor|by right; left|]. unfold fetch_edits. fold check. rewrite E.
    destruct (match fld before "upstream_model_update_last_detected_models" with JArr _ => _ | _ => _ end);
      by apply (bool_decide_unpack _); vm_compute.
Qed.

End Settings.

(** * The text [settings] *)

Definition TYPE_KEYS : list string :=
  ["vertex_key_type"; "azure_responses_version"; "openrouter_enterprise"; "aws_key_type"; "allow_service_tier"; "disable_store";
   "allow_safety_identifier"; "allow_include_obfuscation"; "allow_inference_geo"; "allow_speed"; "claude_beta_query";
   "disable_task_polling_sleep"]%string.
Lemma type_edit_keys form : map edit_key (type_edits form) = map js TYPE_KEYS.
Proof. unfold type_edits. cbn [map]. by rewrite !put_or_drop_key. Qed.

Lemma settings_edits_inv form o es : settings_edits form o = Ok es -> exists fetch advanced,
  es = type_edits form ++ fetch ++ advanced /\ advanced_edits form = Ok advanced /\
  if type_in form MODEL_FETCHABLE_TYPES
  then exists ignored, js_String (or_empty (fld form "upstream_model_update_ignored_models")) = Ok ignored /\
         fetch = fetch_edits form o ignored
  else fetch = [].
Proof.
  unfold settings_edits. intros H.
  destruct (if type_in form MODEL_FETCHABLE_TYPES then _ else Ok []) as [fetch|] eqn:E; [|done].
  destruct (advanced_edits form) as [advanced|] eqn:Ea; [|done].
  assert (Hes : es = type_edits form ++ fetch ++ advanced) by congruence. exists fetch, advanced. split; [done|]. split; [done|].
  destruct (type_in form MODEL_FETCHABLE_TYPES); [|congruence].
  destruct (js_String _) as [ignored|]; [|done]. exists ignored. split; [done|]. congruence.
Qed.

Lemma advanced_keys form advanced : advanced_edits form = Ok advanced ->
  map edit_key advanced = [] \/ map edit_key advanced = [js "advanced_custom"].
Proof.
  unfold advanced_edits. destruct (type_is _ _); [|intros [= <-]; by right].
  destruct (advanced_of_form form) as [[c|]|]; [intros [= <-]; by right|intros [= <-]; by left|done].
Qed.

Lemma edits_keys form o es : settings_edits form o = Ok es -> NoDup (map edit_key es).
Proof.
  intros (fetch & advanced & -> & Ha & Hf)%settings_edits_inv. rewrite !map_app, type_edit_keys.
  pose proof (advanced_keys form advanced Ha) as Hadv.
  assert (Hfe : fetch = [] \/ exists ignored, fetch = fetch_edits form o ignored).
  { destruct (type_in _ _); [|by left]. destruct Hf as (ignored & _ & ->). right. by exists ignored. }
  destruct Hfe as [->|[ignored ->]].
  - destruct Hadv as [-> | ->]; apply (bool_decide_unpack _); by vm_compute.
  - unfold fetch_edits. destruct (match fld o "upstream_model_update_last_detected_models" with JArr _ => _ | _ => _ end);
      destruct (fld o "upstream_model_update_last_check_time"); destruct Hadv as [-> | ->]; apply (bool_decide_unpack _); by vm_compute.
Qed.

Definition SETTINGS_TEXTS : list string :=
  ["azure_responses_version"; "vertex_key_type"; "aws_key_type"; "upstream_model_update_ignored_models"]%string.
Definition settings_texts_ok (form : members) : bool := forallb (fun k => opt_text (fld form k)) SETTINGS_TEXTS.

(** The configuration of a custom channel is one that is read back as it is. *)
Definition advanced_stable (form : members) : Prop :=
  type_is form CHANNEL_TYPE_ADVANCED_CUSTOM = true ->
  exists t c text, fld form "advanced_custom" = JStr t /\ parseAdvancedCustomConfig (Some t) = Some c /\
    value_truthy c = true /\ printable c /\
    stringifyAdvancedCustomConfig c = Ok (Some text) /\ parseAdvancedCustomConfig (Some text) = Some c.

Lemma split_units s : forallb is_code_unit s = true -> Forall (fun p => forallb is_code_unit p = true) (split_char COMMA s).
Proof.
  induction s as [|x s IH]; cbn [split_char forallb]; [by repeat constructor|]. intros H. bools. specialize (IH H0).
  destruct (x =? COMMA)%Z; [by constructor|]. destruct (split_char COMMA s) as [|p ps]; [by repeat constructor; cbn [forallb]; rewrite H|].
  apply list.Forall_cons in IH as [Hp Hps]. constructor; [|done]. cbn [forallb]. by rewrite H.
Qed.
Lemma ignored_units text : forallb is_code_unit text = true -> Forall (Forall code_unit) (ignored_models text).
Proof.
  intros H%split_units. rewrite Forall_forall in H |- *. intros m Hm. unfold ignored_models in Hm. apply (proj1 (proj2 (distinct_spec _) m)) in Hm.
  apply list_elem_of_In, filter_In in Hm as [Hm _]. apply in_map_iff in Hm as (p & <- & Hp). apply list_elem_of_In, H in Hp.
  by apply code_units_ok, trim_code_units.
Qed.

Lemma put_or_drop_ok b k v : Forall code_unit (js k) -> printable v -> edit_ok (put_or_drop b k v).
Proof. by destruct b. Qed.
Lemma choice_prints v d : opt_text v = true -> printable d -> printable (or_value v d).
Proof.
  intros Hv Hd. unfold or_value. destruct (value_truthy v) eqn:E; [|done]. destruct v; try done. constructor. by apply code_units_ok.
Qed.
Lemma text_prints s : printable (str s) <-> Forall code_unit (js s).
Proof. split; [by inversion 1|by constructor]. Qed.

Section Rebuild.
Context {P : Platform}.

Lemma type_edits_ok form : settings_texts_ok form = true -> Forall edit_ok (type_edits form).
Proof.
  unfold settings_texts_ok, SETTINGS_TEXTS. cbn [forallb]. intros H. bools. unfold type_edits.
  assert (Hj : forall s, forallb is_code_unit (js s) = true -> Forall code_unit (js s)) by (intros s; apply code_units_ok).
  assert (Hf : forall b k v, forallb is_code_unit (js k) = true -> edit_ok (put_or_drop b k (exactly_true v))).
  { intros b k v Hk. apply put_or_drop_ok; [by apply Hj|constructor]. }
  repeat (apply list.Forall_cons; split); try (apply Hf; by vm_compute).
  - apply put_or_drop_ok; [apply Hj; by vm_compute|]. apply choice_prints; [done|]. apply text_prints, Hj. by vm_compute.
  - destruct (type_is form TYPE_AZURE); [|done]. cbn [andb]. destruct (value_truthy (fld form "azure_responses_version")) eqn:E; [|done].
    split; [apply Hj; by vm_compute|]. destruct (fld form "azure_responses_version"); try done. constructor. by apply code_units_ok.
  - apply put_or_drop_ok; [apply Hj; by vm_compute|]. apply choice_prints; [done|]. apply text_prints, Hj. by vm_compute.
  - split; [apply Hj; by vm_compute|constructor].
  - constructor.
Qed.

Lemma fetch_edits_ok form o ignored : forallb is_code_unit ignored = true -> Forall edit_ok (fetch_edits form o ignored).
Proof.
  intros Hi. unfold fetch_edits.
  assert (Hj : forall s, forallb is_code_unit (js s) = true -> Forall code_unit (js s)) by (intros s; apply code_units_ok).
  repeat apply Forall_app_2.
  - repeat (apply list.Forall_cons; split); try constructor; try (apply Hj; by vm_compute); try constructor.
    rewrite Forall_map. apply (Forall_impl _ _ _ (ignored_units ignored Hi)). intros m Hm. by constructor.
  - destruct (match fld o _ with JArr _ => _ | _ => _ end); [|constructor].
    apply list.Forall_cons. split; [split; [apply Hj; by vm_compute|by constructor]|constructor].
  - destruct (fld o _); try (apply list.Forall_cons; split; [split; [apply Hj; by vm_compute|constructor; by vm_compute]|]); constructor.
Qed.

Lemma edits_ok form o es : settings_texts_ok form = true -> advanced_stable form -> settings_edits form o = Ok es -> Forall edit_ok es.
Proof.
  intros Ht Hs (fetch & advanced & -> & Ha & Hf)%settings_edits_inv. repeat apply Forall_app_2; [by apply type_edits_ok| |].
  - destruct (type_in _ _); [|by subst; constructor]. destruct Hf as (ignored & Hi & ->). apply fetch_edits_ok.
    unfold settings_texts_ok, SETTINGS_TEXTS in Ht. cbn [forallb] in Ht. bools.
    rewrite opt_text_empty in Hi by done. cbn [js_String to_text] in Hi. injection Hi as <-. by apply opt_text_units.
  - unfold advanced_edits in Ha. unfold advanced_stable in Hs. destruct (type_is form CHANNEL_TYPE_ADVANCED_CUSTOM); [|injection Ha as <-; by constructor].
    destruct (Hs eq_refl) as (t & c & text & Hc & Hp & _ & Hpc & _). unfold advanced_of_form in Ha. rewrite Hc, Hp in Ha. injection Ha as <-.
    apply list.Forall_cons. split; [|constructor]. split; [apply code_units_ok; by vm_compute|done].
Qed.

Lemma printable_defined o : printable (JObj o) -> defined o = o.
Proof.
  intros H. inversion H as [| | | | |f _ Hf]; subst. unfold defined. induction Hf as [|[k v] o [_ Hv] Hl IH]; [done|].
  cbn [List.filter snd]. destruct v; [by inversion Hv|..]; cbn [is_undefined_value negb]; rewrite IH; try done; constructor; inversion H; subst;
    by match goal with Hd : NoDup _, Hff : Forall _ (_ :: _) |- _ => apply list.NoDup_cons in Hd as [_ Hd]; apply list.Forall_cons in Hff as [_ Hff] end.
Qed.

(** What is stored is found again. *)
Lemma existing_again again o : printable (JObj o) -> fld again "settings" = JStr (object_text o) -> existing_settings again = JObj o.
Proof.
  intros Hp Hs. pose proof (object_text_parse o) as Hparse. rewrite printable_defined in Hparse by done. specialize (Hparse Hp).
  unfold existing_settings. rewrite Hs. destruct (object_text_brace o) as [t Ht]. unfold str. cbn [value_truthy strict_eqb].
  assert (Htr : truthy (object_text o) = true) by (by rewrite Ht). rewrite Htr. cbn [andb].
  destruct (str_eqb_reflect (object_text o) (js "{}")) as [E|E]; cbn [negb].
  - rewrite E in Hparse. vm_compute in Hparse. by injection Hparse as <-.
  - assert (Hv : parse_value (JStr (object_text o)) = Some (JObj o)) by (unfold parse_value; cbn [js_String to_text]; by rewrite Hparse).
    by rewrite Hv.
Qed.

Lemma settings_again form again o es : existing_settings form = JObj o -> printable (JObj o) ->
  settings_texts_ok form = true -> advanced_stable form -> settings_edits form o = Ok es ->
  let stored := fold_left apply_edit es o in
  fld again "settings" = JStr (object_text stored) -> fld again "type" = fld form "type" ->
  (forall k, k ∈ TYPE_NAMES -> fld again k = fld (type_settings (Some (JObj stored))) k) ->
  printable (JObj stored) /\ buildSettingsJSON form = Ok (object_text stored) /\ buildSettingsJSON again = Ok (object_text stored).
Proof.
  intros He Hp Ht Hadv Hes stored Hs Hty Hshown.
  assert (Hstored : printable (JObj stored)) by (apply edits_printable; [by apply (edits_ok form o es)|done]).
  split; [done|]. split; [unfold buildSettingsJSON; by rewrite He, Hes|].
  pose proof (edits_made es o (edits_keys form o es Hes)) as Hmade. fold stored in Hmade.
  destruct (settings_edits_inv form o es Hes) as (fetch & advanced & Ees & Ha & Hf).
  assert (Hother : forall k, js k ∉ map edit_key es -> fld stored k = fld o k).
  { intros k Hk. unfold fld, member. cbn [entries_of]. unfold stored. by rewrite edits_own, edited_other. }
  rewrite Ees in Hmade. apply Forall_app in Hmade as [Hm1 Hm]. apply Forall_app in Hm as [Hm2 Hm3].
  unfold buildSettingsJSON. rewrite (existing_again again stored) by done.
  assert (Hok : exists es', settings_edits again stored = Ok es' /\ Forall (holds stored) es').
  { pose proof (type_edits_again form again stored Hty Hshown Hm1) as H1.
    assert (H2 : exists fetch', (if type_in again MODEL_FETCHABLE_TYPES then
                   let! ignored := js_String (or_empty (fld again "upstream_model_update_ignored_models")) in
                   Ok (fetch_edits again stored ignored)
                 else Ok []) = Ok fetch' /\ Forall (holds stored) fetch').
    { rewrite (same_types form again Hty). destruct (type_in form MODEL_FETCHABLE_TYPES); [|by exists []].
      destruct Hf as (ignored & _ & ->). destruct (fetch_edits_again form again stored Hshown o ignored Hm2) as (ignored' & Hi & Hh).
      - intros k Hk Hn. apply Hother. rewrite Ees, !map_app, type_edit_keys. rewrite !elem_of_app. intros [Hin|[Hin|Hin]]; [|done|].
        + apply elem_of_cons in Hk as [->|Hk%list_elem_of_singleton]; [|subst k]; revert Hin; by apply (bool_decide_unpack _); vm_compute.
        + apply elem_of_cons in Hk as [->|Hk%list_elem_of_singleton]; [|subst k]; destruct (advanced_keys form advanced Ha) as [E|E]; rewrite E in Hin;
            revert Hin; by apply (bool_decide_unpack _); vm_compute.
      - rewrite Hi. by eexists. }
    destruct H2 as (fetch' & Hf' & H2).
    assert (H3 : exists advanced', advanced_edits again = Ok advanced' /\ Forall (holds stored) advanced').
    { unfold advanced_edits in Ha |- *. rewrite (same_type form again Hty).
      destruct (type_is form CHANNEL_TYPE_ADVANCED_CUSTOM) eqn:E58; [|injection Ha as <-; by eexists].
      destruct (Hadv E58) as (t & c & text & Hc & Hpc & Htc & _ & Hst & Hpt). unfold advanced_of_form in Ha. rewrite Hc, Hpc in Ha. injection Ha as <-.
      apply list.Forall_cons in Hm3 as [Hm3 _]. rewrite holds_put in Hm3.
      assert (Hfe : type_in form MODEL_FETCHABLE_TYPES = true).
      { unfold type_in. apply existsb_exists. exists 58%Z. split; [by repeat (first [by left|right])|done]. }
      rewrite Hfe in Hf. destruct Hf as (ignored & _ & ->). unfold fetch_edits in Hm2.
      apply Forall_app in Hm2 as [Hm2 _]. do 2 apply list.Forall_cons in Hm2 as [_ Hm2]. apply list.Forall_cons in Hm2 as [Hm2 _]. rewrite holds_put in Hm2.
      assert (Hta : fld again "advanced_custom" = JStr text).
      { apply (shown_member again stored Hshown); [done|].
        transitivity (JStr (match match member (JObj stored) (js "upstream_model_update_ignored_models") with
                                  | JArr l => js_String (JArr l) | _ => Ok [] end with
                            | Err _ => []
                            | Ok _ => if value_truthy (member (JObj stored) (js "advanced_custom")) then
                                        match stringifyAdvancedCustomConfig (member (JObj stored) (js "advanced_custom")) with
                                        | Ok (Some text) => text | _ => [] end
                                      else [] end)); [reflexivity|].
        by rewrite (member_own _ _ _ Hm2), texts_join, (member_own _ _ _ Hm3), Htc, Hst. }
      unfold advanced_of_form. rewrite Hta, Hpt. eexists. split; [done|]. by repeat constructor. }
    destruct H3 as (advanced' & Ha' & H3). exists (type_edits again ++ fetch' ++ advanced'). unfold settings_edits. rewrite Hf', Ha'.
    split; [done|]. by repeat apply Forall_app_2. }
  destruct Hok as (es' & -> & Hh). by rewrite edits_hold.
Qed.

End Rebuild.
