(* ===== verification/ChannelSave.v ===== *)
(** Saving a channel and opening it again, what an update may send, and what a form that passes its
    validation stores ([ChannelForm]). *)
From Stdlib Require Import ZArith Lia Bool String SpecFloat.
From stdpp Require Import base list option sets.
From S2P Require Import Prelude JsString JsNumber Types JsValue Collections Runtime Json JsonText Schema Structure AdvancedCustom ModelMapping AuthSession NavModules NavFacts Sidebar SidebarFacts ChannelForm ChannelSettings.

(** * The payload of an update *)

Section Payload.
Context {P : Platform}.

Definition payload_of (form : members) (id : jsvalue) (base group setting settings : jsstr) : members :=
  let text key := (js key, or_empty (fld form key)) in
  [(js "id", cleaned id); (js "name", cleaned (fld form "name")); (js "type", cleaned (fld form "type")); (js "base_url", JStr base);
   text "openai_organization"%string; (js "models", cleaned (fld form "models")); (js "group", cleaned (JStr group));
   text "model_mapping"%string; (js "priority", cleaned (or_default (fld form "priority") (num 0)));
   (js "weight", cleaned (or_default (fld form "weight") (num 0))); text "test_model"%string;
   (js "auto_ban", cleaned (or_default (fld form "auto_ban") (num 1))); text "status_code_mapping"%string; text "tag"%string;
   text "remark"%string; (js "setting", cleaned (JStr setting)); text "param_override"%string; text "header_override"%string;
   (js "settings", cleaned (JStr settings)); (js "other", cleaned (or_empty (fld form "other")))].

Lemma update_shape form id base group setting settings key :
  normalizeBaseUrl (fld form "base_url") = Ok base -> formatGroups (fld form "group") = Ok group ->
  buildSettingJSON form = Ok setting -> buildSettingsJSON form = Ok settings ->
  (if value_truthy (fld form "key") then call_trim (fld form "key") else Ok []) = Ok key ->
  transformFormDataToUpdatePayload form id =
  Ok (payload_of form id base group setting settings ++ (if truthy key then [(js "key", cleaned (fld form "key"))] else [])).
Proof.
  intros Hb Hg Hs Hss Hk. unfold transformFormDataToUpdatePayload. rewrite Hb, Hg, Hs, Hss, Hk. f_equal.
  destruct (truthy key); reflexivity.
Qed.
End Payload.

(** * Forms of the declared types *)

Definition text_value (v : jsvalue) : bool := match v with JStr _ => true | _ => false end.
Definition is_count (v : jsvalue) : bool := match v with JNum n => number_prints n | _ => false end.
Definition is_object (v : jsvalue) : bool := match v with JObj _ => true | _ => false end.
Definition plain_name (v : jsvalue) : bool :=
  match v with JStr s => str_eqb (trim s) s && truthy s && negb (existsb (Z.eqb COMMA) s) | _ => false end.
Definition groups_ok (v : jsvalue) : bool := match v with JArr (x :: l) => forallb plain_name (x :: l) | _ => false end.
Definition OPTIONAL_TEXTS : list string :=
  ["key"; "base_url"; "openai_organization"; "model_mapping"; "test_model"; "status_code_mapping"; "tag"; "remark";
   "param_override"; "header_override"; "other"]%string.

Section Reopen.
Context {P : Platform}.

(** A base URL whose normal form is normal: no blanks right before its last slashes. *)
Definition base_stable (form : members) : bool :=
  match normalizeBaseUrl (fld form "base_url") with Ok base => str_eqb (trim base) base | Err _ => false end.
(** A form whose members have the declared types, with numbers and settings that can be printed. *)
Definition form_ok (form : members) : bool :=
  setting_ok form && settings_texts_ok form && is_object (existing_settings form) && prints (existing_settings form) &&
  text_value (fld form "name") && text_value (fld form "models") && is_count (fld form "type") &&
  forallb (fun k => opt_text (fld form k)) OPTIONAL_TEXTS &&
  forallb (fun k => opt_count (fld form k)) ["priority"; "weight"; "auto_ban"]%string.

Lemma strip_slashes_idem s : strip_slashes (strip_slashes s) = strip_slashes s.
Proof.
  unfold strip_slashes. rewrite rev_involutive. f_equal. generalize (rev s). intros t.
  induction t as [|c t IH]; [done|]. cbn [span]. destruct (c =? 47)%Z eqn:E; cbn [snd].
  - by destruct (span _ t).
  - cbn [span]. by rewrite E.
Qed.
Lemma base_again form base : base_stable form = true -> normalizeBaseUrl (fld form "base_url") = Ok base ->
  normalizeBaseUrl (JStr base) = Ok base.
Proof.
  unfold base_stable. intros H Hb. rewrite Hb in H. apply str_eqb_eq in H. unfold normalizeBaseUrl in *. rewrite text_of_text, H.
  destruct (js_String _) as [t|]; [|done]. injection Hb as <-. by rewrite strip_slashes_idem.
Qed.

Lemma groups_ok_names v : groups_ok v = true -> exists x l, v = JArr (map JStr (x :: l)) /\ Forall model_name (x :: l).
Proof.
  destruct v as [| | | | |[|x l]|]; try done. cbn [groups_ok]. intros H.
  assert (Hn : exists names, x :: l = map JStr names /\ Forall model_name names).
  { induction (x :: l) as [|y m IH]; [by exists []|]. cbn [forallb] in H. bools. destruct (IH H0) as (names & -> & Hn).
    destruct y; try done. cbn [plain_name] in H. bools. apply str_eqb_eq in H. eexists (_ :: names). split; [done|]. constructor; [|done].
    split; [done|]. split; [by destruct s|]. intros Hc. enough (existsb (Z.eqb COMMA) s = true) as E by (by rewrite E in *).
    apply existsb_exists. exists COMMA. split; [by apply list_elem_of_In|apply Z.eqb_refl]. }
  destruct Hn as ([|y names] & E & Hn); [done|]. rewrite E. by exists y, names.
Qed.
Lemma group_text x l : Forall model_name (x :: l) -> truthy (join [COMMA] (x :: l)) = true /\ parseGroups (join [COMMA] (x :: l)) = x :: l.
Proof.
  intros H. split; [|by apply names_listed]. apply list.Forall_cons in H as [(_ & Hx & _) _]. destruct x as [|c x]; [done|].
  by destruct l.
Qed.

(** * The form that is opened *)

Definition plain_members (channel : members) (groups : list jsstr) (mode : jsvalue) : members :=
  let text key := (js key, or_empty (fld channel key)) in
  [text "name"%string; (js "type", fld channel "type"); text "base_url"%string; (js "key", JStr []);
   text "openai_organization"%string; text "models"%string; (js "group", JArr (map JStr groups));
   text "model_mapping"%string; (js "priority", or_value (fld channel "priority") (num 0));
   (js "weight", or_value (fld channel "weight") (num 0));
   text "test_model"%string; (js "auto_ban", or_default (fld channel "auto_ban") (num 1));
   (js "status", fld channel "status"); text "status_code_mapping"%string; text "tag"%string;
   text "remark"%string; text "setting"%string; text "param_override"%string; text "header_override"%string;
   (js "settings", or_value (fld channel "settings") (str "{}")); text "other"%string;
   (js "multi_key_mode", str "single"); (js "multi_key_type", or_value mode (str "random"));
   (js "batch_add_set_key_prefix_2_name", JBool false); (js "key_mode", str "append")].

Lemma defaults_shape channel groups info :
  fld channel "group" = JStr groups -> truthy groups = true -> fld channel "channel_info" = JObj info ->
  transformChannelToFormDefaults channel =
  Ok (plain_members channel (parseGroups groups) (fld info "multi_key_mode") ++ read_setting (fld channel "setting") ++
      read_settings (fld channel "settings")).
Proof.
  intros Hg Ht Hi. unfold transformChannelToFormDefaults. rewrite Hg, Hi. unfold or_value at 1. cbn [value_truthy]. by rewrite Ht.
Qed.

Lemma fld_app (a b : members) k : own a (js k) = None -> fld (a ++ b) k = fld b k.
Proof. intros H. unfold fld, member. cbn [entries_of]. by rewrite own_app, H. Qed.
Lemma fld_app_in (a b : members) k v : own a (js k) = Some v -> fld (a ++ b) k = v.
Proof. intros H. unfold fld, member. cbn [entries_of]. by rewrite own_app, H. Qed.
Lemma own_keys {A} (o : list (jsstr * A)) keys k : map fst o = keys -> bool_decide (k ∈ keys) = false -> own o k = None.
Proof. intros <- H. apply own_absent. by apply bool_decide_eq_false in H. Qed.

(** The members that come from [setting], and those that come from [settings]. *)
Lemma opened_setting channel groups mode form rest k :
  bool_decide (k ∈ SETTING_NAMES) = true ->
  fld (plain_members channel groups mode ++ shown_of form ++ rest) k = fld (shown_of form) k.
Proof.
  intros H%bool_decide_eq_true. unfold SETTING_NAMES, SETTING_TEXTS, SETTING_FLAGS in H.
  rewrite fld_app.
  - unfold fld, member. cbn [entries_of]. rewrite own_app.
    repeat (apply elem_of_cons in H as [->|H]; [reflexivity|]). by apply elem_of_nil in H.
  - repeat (apply elem_of_cons in H as [->|H]; [reflexivity|]). by apply elem_of_nil in H.
Qed.
Lemma opened_settings channel groups mode form rest k :
  k ∈ TYPE_NAMES -> fld (plain_members channel groups mode ++ shown_of form ++ rest) k = fld rest k.
Proof.
  intros H. unfold TYPE_NAMES in H. cbn [map app fst FLAG_MEMBERS] in H.
  rewrite !fld_app; [done|..]; repeat (apply elem_of_cons in H as [->|H]; [reflexivity|]); by apply elem_of_nil in H.
Qed.

(** A channel that stores what was sent, its key aside, which the server does not show. *)
Definition stores (channel payload : members) : Prop :=
  forall k v, own payload k = Some v -> k <> js "key" -> own channel k = Some v.

Lemma stored_member channel (payload extra : members) k v : stores channel (payload ++ extra) ->
  own payload (js k) = Some v -> str_eqb (js k) (js "key") = false -> fld channel k = v.
Proof. intros H Ho Hk. apply fld_own, H; [by rewrite own_app, Ho|by apply str_eqb_neq]. Qed.

Lemma cleaned_text v : text_value v = true -> or_empty (cleaned v) = v.
Proof. by destruct v as [| | | |[]| |]. Qed.
Lemma cleaned_or_empty v : opt_text v = true -> or_empty (cleaned (or_empty v)) = or_empty v.
Proof. by destruct v as [| | | |[]| |]. Qed.
Lemma or_empty_twice v : or_empty (or_empty v) = or_empty v.
Proof. unfold or_empty, or_value. destruct (value_truthy v) eqn:E; by rewrite ?E. Qed.
Lemma truthy_cleaned s : truthy s = true -> cleaned (JStr s) = JStr s.
Proof. by destruct s. Qed.
Lemma count_shown v : opt_count v = true -> or_value (cleaned (or_default v (num 0))) (num 0) = or_default v (num 0).
Proof.
  destruct v as [| | |n| | |]; try done. cbn [opt_count or_default nullish cleaned]. unfold or_value. cbn [value_truthy].
  destruct n as [[]|[]| |[]]; try done; by vm_compute.
Qed.
Lemma count_or_default v d : opt_count v = true -> or_default (cleaned (or_default v (num d))) (num d) = or_default v (num d).
Proof. by destruct v. Qed.
Lemma or_default_count v d : opt_count v = true -> or_default (or_default v (num d)) (num d) = or_default v (num d).
Proof. by destruct v. Qed.

Lemma no_key form id base group setting settings (b : bool) v :
  apply_edit (payload_of form id base group setting settings ++ (if b then [(js "key", v)] else [])) (Drop "key")
  = payload_of form id base group setting settings.
Proof. by destruct b. Qed.

(** What is sent depends on the members that are read. *)
Definition SENT_TEXTS : list string :=
  ["openai_organization"; "model_mapping"; "test_model"; "status_code_mapping"; "tag"; "remark"; "param_override";
   "header_override"; "other"]%string.
Definition SENT_COUNTS : list (string * Z) := [("priority", 0%Z); ("weight", 0%Z); ("auto_ban", 1%Z)]%string.
Lemma payload_same form again id base group setting settings :
  Forall (fun k => fld again k = fld form k) ["name"; "type"; "models"]%string ->
  Forall (fun k => or_empty (fld again k) = or_empty (fld form k)) SENT_TEXTS ->
  Forall (fun m => or_default (fld again m.1) (num m.2) = or_default (fld form m.1) (num m.2)) SENT_COUNTS ->
  payload_of again id base group setting settings = payload_of form id base group setting settings.
Proof.
  intros H1 H2 H3. repeat (apply list.Forall_cons in H1 as [?H1 H1]). repeat (apply list.Forall_cons in H2 as [?H2 H2]).
  repeat (apply list.Forall_cons in H3 as [?H3 H3]). cbn [fst snd] in *. unfold payload_of. congruence.
Qed.

(** * Saving and opening again *)

Lemma form_parts form : form_ok form = true -> setting_ok form = true /\ settings_texts_ok form = true /\
  (exists o, existing_settings form = JObj o /\ printable (JObj o)) /\
  text_value (fld form "name") = true /\ text_value (fld form "models") = true /\
  Forall (fun k => opt_text (fld form k) = true) OPTIONAL_TEXTS /\
  Forall (fun k => opt_count (fld form k) = true) ["priority"; "weight"; "auto_ban"]%string.
Proof.
  unfold form_ok. intros H. bools. repeat split; try done.
  - destruct (existing_settings form) as [| | | | | |o]; try done. exists o. split; [done|]. by apply prints_printable.
  - apply Forall_forall. intros k Hk%list_elem_of_In. rewrite forallb_forall in *. auto.
  - apply Forall_forall. intros k Hk%list_elem_of_In. rewrite forallb_forall in *. auto.
Qed.

Lemma edits_exist form o : settings_texts_ok form = true -> advanced_stable form -> exists es, settings_edits form o = Ok es.
Proof.
  intros Ht Ha. unfold settings_texts_ok, SETTINGS_TEXTS in Ht. cbn [forallb] in Ht. bools. unfold settings_edits, advanced_edits.
  rewrite opt_text_empty by done. cbn [js_String to_text].
  unfold advanced_stable in Ha. destruct (type_is form CHANNEL_TYPE_ADVANCED_CUSTOM).
  - destruct (Ha eq_refl) as (t & c & text & Hc & Hp & _). unfold advanced_of_form. rewrite Hc, Hp. destruct (type_in _ _); by eexists.
  - destruct (type_in _ _); by eexists.
Qed.
Lemma base_exists form : opt_text (fld form "base_url") = true -> exists base, normalizeBaseUrl (fld form "base_url") = Ok base.
Proof. intros H. unfold normalizeBaseUrl. rewrite opt_text_empty by done. by eexists. Qed.
Lemma key_exists form : opt_text (fld form "key") = true ->
  (if value_truthy (fld form "key") then call_trim (fld form "key") else Ok []) = Ok (trim (text_of (fld form "key"))).
Proof. by destruct (fld form "key") as [| | | |[]| |]. Qed.

Lemma read_settings_text o : printable (JObj o) -> read_settings (JStr (object_text o)) = type_settings (Some (JObj o)).
Proof.
  intros H. unfold read_settings. destruct (object_text_brace o) as [t Ht].
  assert (Hv : parse_value (JStr (object_text o)) = Some (JObj o)).
  { pose proof (object_text_value o) as Hv. rewrite printable_defined in Hv by done. by apply Hv. }
  rewrite Hv, Ht. reflexivity.
Qed.

(** What the form shows of a channel that stores a payload. *)
Lemma opened_plain form id base group setting settings channel extra groups mode rest : form_ok form = true ->
  truthy setting = true -> truthy settings = true -> truthy group = true ->
  stores channel (payload_of form id base group setting settings ++ extra) ->
  let again := plain_members channel groups mode ++ rest in
  Forall (fun k => fld again k = fld form k) ["name"; "type"; "models"]%string /\
  Forall (fun k => fld again k = or_empty (fld form k)) SENT_TEXTS /\
  Forall (fun m => fld again m.1 = or_default (fld form m.1) (num m.2)) SENT_COUNTS /\
  fld again "base_url" = JStr base /\ fld again "key" = JStr [] /\ fld again "settings" = JStr settings /\
  fld channel "setting" = JStr setting /\ fld channel "settings" = JStr settings /\ fld channel "group" = JStr group.
Proof.
  intros Hok Hts Htss Htg Hst again. destruct (form_parts form Hok) as (_ & _ & _ & Hn & Hm & Ht & Hc).
  repeat (apply list.Forall_cons in Ht as [?Ht Ht]). repeat (apply list.Forall_cons in Hc as [?Hc Hc]).
  assert (Hs : forall k v, own (payload_of form id base group setting settings) (js k) = Some v ->
    str_eqb (js k) (js "key") = false -> fld channel k = v) by (intros k v; by apply stored_member with (extra := extra)).
  assert (Htext : forall k, own (payload_of form id base group setting settings) (js k) = Some (or_empty (fld form k)) ->
    str_eqb (js k) (js "key") = false -> own (plain_members channel groups mode) (js k) = Some (or_empty (fld channel k)) ->
    fld again k = or_empty (fld form k)).
  { intros k Ho Hk Hp. unfold again. rewrite (fld_app_in _ _ _ _ Hp), (Hs k _ Ho Hk). apply or_empty_twice. }
  assert (Hin : forall k v, own (plain_members channel groups mode) (js k) = Some v -> fld again k = v)
    by (intros k v; apply fld_app_in).
  unfold SENT_TEXTS, SENT_COUNTS. repeat (split || apply list.Forall_cons); cbn [fst snd]; try apply Forall_nil; try done;
    try (by apply Htext).
  - erewrite Hin by reflexivity. erewrite (Hs "name"%string) by reflexivity. by apply cleaned_text.
  - erewrite Hin by reflexivity. erewrite (Hs "type"%string) by reflexivity. unfold form_ok in Hok. bools. by destruct (fld form "type").
  - erewrite Hin by reflexivity. erewrite (Hs "models"%string) by reflexivity. by apply cleaned_text.
  - erewrite Hin by reflexivity. erewrite (Hs "other"%string) by reflexivity. by apply cleaned_or_empty.
  - erewrite Hin by reflexivity. erewrite (Hs "priority"%string) by reflexivity. by apply count_shown.
  - erewrite Hin by reflexivity. erewrite (Hs "weight"%string) by reflexivity. by apply count_shown.
  - erewrite Hin by reflexivity. erewrite (Hs "auto_ban"%string) by reflexivity. by apply count_or_default.
  - erewrite Hin by reflexivity. erewrite (Hs "base_url"%string) by reflexivity. apply shown_text.
  - erewrite Hin by reflexivity. erewrite (Hs "settings"%string) by reflexivity. rewrite truthy_cleaned by done.
    unfold or_value. cbn [value_truthy]. by rewrite Htss.
  - erewrite (Hs "setting"%string) by reflexivity. by apply truthy_cleaned.
  - erewrite (Hs "settings"%string) by reflexivity. by apply truthy_cleaned.
  - erewrite (Hs "group"%string) by reflexivity. by apply truthy_cleaned.
Qed.

(** The texts that a form builds, and the payload that it sends. *)
Definition built (form : members) (base group setting settings : jsstr) : Prop :=
  normalizeBaseUrl (fld form "base_url") = Ok base /\ formatGroups (fld form "group") = Ok group /\
  buildSettingJSON form = Ok setting /\ buildSettingsJSON form = Ok settings.
Lemma update_built form id base group setting settings : opt_text (fld form "key") = true -> built form base group setting settings ->
  transformFormDataToUpdatePayload form id = Ok (payload_of form id base group setting settings ++
    (if truthy (trim (text_of (fld form "key"))) then [(js "key", cleaned (fld form "key"))] else [])).
Proof. intros Hk (Hb & Hg & Hs & Hss). apply update_shape; try done. by apply key_exists. Qed.

Hypothesis Hlow : forall s, forallb (fun c => is_digit c || ((97 <=? c) && (c <=? 122)))%Z s = true -> toLowerCase s = s.

(** The form of a channel that stores what was sent builds the texts that were sent. *)
Lemma opened_again form channel info id extra o es base x l : form_ok form = true -> base_stable form = true -> advanced_stable form ->
  existing_settings form = JObj o -> printable (JObj o) -> settings_edits form o = Ok es ->
  normalizeBaseUrl (fld form "base_url") = Ok base ->
  fld form "group" = JArr (map JStr (x :: l)) -> Forall model_name (x :: l) ->
  let group := join [COMMA] (x :: l) in let setting := object_text (setting_of form) in
  let settings := object_text (fold_left apply_edit es o) in
  built form base group setting settings /\
  (stores channel (payload_of form id base group setting settings ++ extra) -> fld channel "channel_info" = JObj info ->
   exists again, transformChannelToFormDefaults channel = Ok again /\ built again base group setting settings /\
     Forall (fun k => fld again k = fld form k) ["name"; "type"; "models"; "group"]%string /\
     Forall (fun k => fld again k = or_empty (fld form k)) SENT_TEXTS /\
     Forall (fun m => fld again m.1 = or_default (fld form m.1) (num m.2)) SENT_COUNTS /\
     fld again "base_url" = JStr base /\ fld again "key" = JStr []).
Proof.
  intros Hok Hbase Hadv Ho Hp Hes Hb Hg Hn group setting settings.
  destruct (form_parts form Hok) as (Hset & Htexts & _).
  destruct (group_text x l Hn) as [Htg Hpg]. fold group in Htg, Hpg. destruct (setting_built form Hset) as [Hs _].
  assert (Hprint : printable (JObj (fold_left apply_edit es o))) by (apply edits_printable; [by apply (edits_ok form o es)|done]).
  assert (Hss : buildSettingsJSON form = Ok settings) by (unfold buildSettingsJSON; by rewrite Ho, Hes).
  split; [repeat split; try done; rewrite Hg; apply texts_join|]. intros Hst Hi.
  set (rest := shown_of form ++ type_settings (Some (JObj (fold_left apply_edit es o)))).
  set (again := plain_members channel (x :: l) (fld info "multi_key_mode") ++ rest). exists again.
  assert (Hts : truthy setting = true) by (unfold setting; by destruct (object_text_brace (setting_of form)) as [t ->]).
  assert (Htss : truthy settings = true) by (unfold settings; by destruct (object_text_brace (fold_left apply_edit es o)) as [t ->]).
  destruct (opened_plain form id base group setting settings channel extra (x :: l) (fld info "multi_key_mode") rest Hok Hts Htss Htg Hst)
    as (H1 & H2 & H3 & H4 & H5 & H6 & H7 & H8 & H9). fold again in H1, H2, H3, H4, H5, H6.
  assert (Hty : fld again "type" = fld form "type") by (by apply list.Forall_cons in H1 as [_ [H1 _]%list.Forall_cons]).
  assert (Hgr : fld again "group" = fld form "group") by (rewrite Hg; by apply fld_app_in).
  split; [|split; [|split; [|done]]].
  - rewrite (defaults_shape channel group info H9 Htg Hi), Hpg, H7, H8. unfold settings. rewrite read_settings_text by done.
    unfold setting. by rewrite setting_reread.
  - split; [rewrite H4; by apply (base_again form)|]. split; [rewrite Hgr, Hg; apply texts_join|]. split.
    + apply (setting_again Hlow); [done|unfold type_is, fld_is; by rewrite Hty|]. intros k Hk. by apply opened_setting, bool_decide_eq_true.
    + apply (settings_again form again o es); try done. intros k Hk. by apply opened_settings.
  - repeat (apply list.Forall_cons in H1 as [?H1 H1]). by repeat constructor.
Qed.
End Reopen.

Section Saved.
Context {P : Platform}.
(** Lower-case letters and digits are their own lower case. *)
Hypothesis Hlow : forall s, forallb (fun c => is_digit c || ((97 <=? c) && (c <=? 122)))%Z s = true -> toLowerCase s = s.

(** C20. A channel that is saved and opened again.  For a form of the declared types whose groups are a
    non-empty list of trimmed, non-empty names without commas ([groups_ok]), whose base URL has no blank right before its last
    slashes ([base_stable]; [base_url_saved_twice] shows the others) and whose configuration of a custom channel, if
    it is one, reads back as it is ([advanced_stable]), the update is built without an exception, and when a
    channel stores what was sent, opening it shows the name, type, models, groups, texts and numbers as they
    were saved, the base URL in its normal form and no key; saving that form unchanged sends the same payload
    again, without the key. *)
Theorem channel_reopen form id :
  form_ok form = true -> groups_ok (fld form "group") = true -> base_stable form = true -> advanced_stable form ->
  exists payload, transformFormDataToUpdatePayload form id = Ok payload /\
  forall channel info, stores channel payload -> fld channel "channel_info" = JObj info ->
  exists again, transformChannelToFormDefaults channel = Ok again /\
    transformFormDataToUpdatePayload again id = Ok (apply_edit payload (Drop "key")) /\
    fld again "key" = JStr [] /\ (exists base, normalizeBaseUrl (fld form "base_url") = Ok base /\ fld again "base_url" = JStr base) /\
    Forall (fun k => fld again k = fld form k) ["name"; "type"; "models"; "group"]%string /\
    Forall (fun k => fld again k = or_empty (fld form k)) SENT_TEXTS /\
    Forall (fun m => fld again m.1 = or_default (fld form m.1) (num m.2)) SENT_COUNTS.
Proof.
  intros Hok Hgr Hst0 Hadv. destruct (form_parts form Hok) as (_ & Hts & (o & Ho & Hp) & _ & _ & Ht & Hc).
  destruct (groups_ok_names _ Hgr) as (x & l & Hg & Hn).
  apply list.Forall_cons in Ht as [Hk [Hb _]%list.Forall_cons]. destruct (edits_exist form o Hts Hadv) as [es Hes].
  destruct (base_exists form Hb) as [base Hbase].
  assert (H := fun channel info extra => opened_again Hlow form channel info id extra o es base x l Hok Hst0 Hadv Ho Hp Hes Hbase Hg Hn).
  destruct (H [] [] []) as [Hbuilt _]. rewrite (update_built form id _ _ _ _ Hk Hbuilt). eexists. split; [done|].
  intros channel info Hst Hi.
  destruct (proj2 (H channel info _) Hst Hi) as (again & Hopen & Hagain & H1 & H2 & H3 & H4 & H5). exists again. split; [done|].
  rewrite (update_built again id _ _ _ _ ltac:(by rewrite H5) Hagain), no_key, H5. cbn [text_of]. rewrite app_nil_r.
  split; [f_equal; apply payload_same|repeat split; try done; by exists base].
  - repeat (apply list.Forall_cons in H1 as [?H1 H1]). by repeat constructor.
  - apply (Forall_impl _ _ _ H2). intros k ->. apply or_empty_twice.
  - repeat (apply list.Forall_cons in Hc as [?Hc Hc]). repeat (apply list.Forall_cons in H3 as [?H3 H3]). cbn [fst snd] in *.
    repeat constructor; cbn [fst snd]; match goal with E : fld again ?k = _ |- context[fld again ?k] => rewrite E end; by apply or_default_count.
Qed.
End Saved.

(** * Permissions *)

Lemma drops_edited l : forall k d, edited (map Drop l) k d = if existsb (fun f => k === f) l then None else d.
Proof.
  induction l as [|f l IH]; intros k d; [done|]. cbn [map edited existsb edit_key edit_value]. rewrite IH.
  destruct (k === f); cbn [orb]; [|done]. by destruct (existsb _ l).
Qed.
Lemma fold_drops l : forall p, fold_left (fun p f => apply_edit p (Drop f)) l p = fold_left apply_edit (map Drop l) p.
Proof. induction l as [|f l IH]; intros p; [done|]. apply IH. Qed.

Section Send.
Context {P : Platform}.

Lemma update_inv form id payload : transformFormDataToUpdatePayload form id = Ok payload ->
  text_value (fld form "key") = true ->
  exists base group setting settings, payload = payload_of form id base group setting settings ++
    (if blank (fld form "key") then [] else [(js "key", fld form "key")]).
Proof.
  intros H Hk. assert (Hkey : exists t, fld form "key" = JStr t) by (destruct (fld form "key"); by eauto). destruct Hkey as [t Ht].
  pose proof H as H'. unfold transformFormDataToUpdatePayload in H'.
  destruct (normalizeBaseUrl _) as [base|] eqn:Hb; [|done]. destruct (formatGroups _) as [group|] eqn:Hg; [|done].
  destruct (buildSettingJSON form) as [setting|] eqn:Hs; [|done]. destruct (buildSettingsJSON form) as [settings|] eqn:Hss; [|done].
  clear H'. rewrite (update_shape form id base group setting settings (trim t) Hb Hg Hs Hss) in H.
  - exists base, group, setting, settings. injection H as <-. f_equal. unfold blank, trimmed. rewrite Ht.
    destruct t as [|c t]; [done|]. by destruct (truthy (trim (c :: t))).
  - rewrite Ht. by destruct t.
Qed.

(** C22. An update sends what the administrator may change: without the permission for sensitive members the type, the key, the
    addresses, the overrides and the settings are left out; with it everything is sent, the key only when a new one was typed,
    and the mode of the keys only along with a new key of a channel with several keys.  Nothing else of the payload changes. *)
Theorem update_sends_permitted user multi form id payload : text_value (fld form "key") = true ->
  transformFormDataToUpdatePayload form id = Ok payload ->
  let may := hasPermission user "channel" "sensitive_write" in
  let typed := negb (blank (fld form "key")) in
  own payload (js "key") = (if typed then Some (fld form "key") else None) /\
  exists sent, update_request user multi form id = Ok sent /\
  forall k, own sent k =
    if negb may && existsb (fun f => k === f) SENSITIVE_UPDATE_FIELDS then None
    else if k === "key_mode" then
      if may && multi && typed && value_truthy (fld form "key_mode") then Some (fld form "key_mode") else None
    else own payload k.
Proof.
  intros Hk Hp may typed. destruct (update_inv form id payload Hp Hk) as (base & group & setting & settings & E).
  assert (Hkey : own payload (js "key") = if typed then Some (fld form "key") else None)
    by (rewrite E; unfold typed; by destruct (blank (fld form "key"))).
  assert (Hmode : own payload (js "key_mode") = None) by (rewrite E; by destruct (blank (fld form "key"))).
  split; [done|]. unfold update_request. fold may. rewrite Hp.
  assert (Hb : key_blank form = Ok (negb typed)).
  { unfold key_blank, typed, blank, trimmed. destruct (fld form "key"); try done. cbn. by destruct (truthy (trim s)). }
  clearbody typed. rewrite Hb. set (p := if negb typed then _ else _). eexists. split; [done|]. intros k. rewrite negb_involutive, fold_drops.
  assert (Hsame : own p k = own payload k).
  { unfold p. destruct typed; [done|]. cbn [negb]. rewrite apply_edit_own. cbn [edit_key edit_value].
    by destruct (str_eqb_reflect k (js "key")) as [->|]. }
  clearbody p. destruct may; cbn [andb negb].
  - destruct (multi && typed && _); rewrite ?own_assign, Hsame; destruct (str_eqb_reflect k (js "key_mode")) as [->|]; done.
  - rewrite edits_own, drops_edited, Hsame. destruct (existsb _ _); [done|]. by destruct (str_eqb_reflect k (js "key_mode")) as [->|].
Qed.
End Send.

(** * Validated forms *)

Lemma no_issue b path message rest : addRequiredIssue b path message ++ rest = [] -> b = false /\ rest = [].
Proof. by destruct b. Qed.

Section Accepted.
Context {P : Platform} {U : UrlParser}.

(** What [superRefine] found when it found nothing. *)
Lemma accepted_parts form : superRefine form = Ok [] ->
  (type_is form CHANNEL_TYPE_TASK_PLUGIN && blank (fld form "task_plugin_key")) = false /\
  advanced_issues form = Ok [] /\ transport_issues form = Ok [].
Proof.
  unfold superRefine. intros H. destruct (advanced_issues form) as [advanced|]; [|done].
  destruct (transport_issues form) as [transport|]; [|done].
  match type of H with Ok ?l = _ => assert (E : l = []) by congruence end. clear H.
  apply no_issue in E as [_ E]. apply no_issue in E as [Ht E]. split; [done|]. apply app_eq_nil in E as [-> E].
  apply no_issue in E as [_ E]. apply app_eq_nil in E as [_ ->]. done.
Qed.

(** Shards that pass the validation are not changed. *)
Lemma accepted_shards form : opt_count (fld form "http2_connection_shards") = true -> transport_issues form = Ok [] ->
  exists p n, normalizeHttpProtocol (fld form "http_protocol") = Ok p /\
    or_default (fld form "http2_connection_shards") (num 1) = JNum n /\
    normalizeHttp2ConnectionShards (fld form "http2_connection_shards") = Ok (JNum n) /\
    num_ltb n (num_of_Z 1) = false /\ num_ltb (num_of_Z MAX_HTTP2_CONNECTION_SHARDS) n = false /\
    (String.eqb p HTTP_PROTOCOL_HTTP1 = true -> num_ltb (num_of_Z 1) n = false).
Proof.
  intros Hc H. unfold transport_issues in H. destruct (normalizeHttpProtocol _) as [p|]; [|done]. exists p.
  destruct (fld form "http2_connection_shards") as [| | |n| | |]; try done; cbn [or_default nullish number_of num to_Number] in *.
  - exists (num_of_Z 1). repeat split; by vm_compute.
  - exists n. match type of H with Ok ?l = _ => assert (H0 : l = []) by congruence end. clear H. rename H0 into H. apply no_issue in H as [H1 H]. rewrite <- (app_nil_r (addRequiredIssue _ _ _)) in H. apply no_issue in H as [H2 _].
    apply orb_false_iff in H1 as [H1 H1']. repeat split; try done; [|by destruct (String.eqb _ _)].
    unfold normalizeHttp2ConnectionShards. cbn [nullish orb number_of to_Number]. rewrite H1, H1'.
    destruct n as [[]|[]| |[]]; try done.
Qed.

Lemma setting_transport form p n : normalizeHttpProtocol (fld form "http_protocol") = Ok p ->
  normalizeHttp2ConnectionShards (fld form "http2_connection_shards") = Ok (JNum n) ->
  let http1 := String.eqb p HTTP_PROTOCOL_HTTP1 in
  fld (setting_of form) "http_protocol" = (if http1 then str HTTP_PROTOCOL_HTTP1 else JUndefined) /\
  fld (setting_of form) "http2_connection_shards" = (if negb http1 && num_ltb (num_of_Z 1) n then JNum n else JUndefined) /\
  fld (setting_of form) "task_plugin_key" = match plugin_of form with Some k => JStr k | None => JUndefined end.
Proof.
  intros Hp Hn http1. unfold setting_of, transport_of. rewrite Hp, Hn. fold http1. clearbody http1.
  destruct http1; cbn [transport_members]; [|unfold setting_object; cbn [transport_members]; destruct (num_ltb (num_of_Z 1) n)]; destruct (relay_of form);
    repeat split.
Qed.

Lemma stored_advanced form o es : settings_edits form o = Ok es -> advanced_stable form -> advanced_issues form = Ok [] ->
  if type_is form CHANNEL_TYPE_ADVANCED_CUSTOM
  then exists c, own (fold_left apply_edit es o) (js "advanced_custom") = Some c /\ validateAdvancedCustomConfig c = Ok None
  else own (fold_left apply_edit es o) (js "advanced_custom") = None.
Proof.
  intros Hes Hadv Hi. pose proof (edits_made es o (edits_keys form o es Hes)) as Hmade.
  destruct (settings_edits_inv form o es Hes) as (fetch & advanced & Ees & Ha & _). rewrite Ees in Hmade at 2.
  apply Forall_app in Hmade as [_ [_ Hmade]%Forall_app].
  unfold advanced_edits in Ha. unfold advanced_issues in Hi. unfold advanced_stable in Hadv.
  destruct (type_is form CHANNEL_TYPE_ADVANCED_CUSTOM).
  - destruct (Hadv eq_refl) as (t & c & text & Hc & Hp & _). unfold advanced_of_form in Ha, Hi. rewrite Hc, Hp in Ha, Hi.
    injection Ha as <-. exists c. split; [by apply list.Forall_cons in Hmade as [Hmade _]|].
    destruct (validateAdvancedCustomConfig c) as [[e|]|]; [|done|done].
    destruct (advancedCustomConfigUsesRelativeUpstreamPath c); [|done]. cbn [app] in Hi.
    by destruct (if is_true _ then _ else _).
  - injection Ha as <-. by apply list.Forall_cons in Hmade as [Hmade _].
Qed.

Lemma printed_object o : printable (JObj o) -> JSON_parse (object_text o) = Ok (JObj o).
Proof. intros H. pose proof (object_text_parse o) as E. rewrite printable_defined in E by done. by apply E. Qed.

(** C21. When the validation of the form of a channel finds no issue, what it checked is what is stored: the texts are read back as objects in which
    HTTP/1.1 is never combined with several connections, the number of connections is the one of the form, between 1 and 8, and
    is only written when it is above one, a plugin channel names its plugin, and a custom channel holds a configuration that
    passes its own validation; all other channels hold none. *)
Theorem accepted_form_saved form : form_ok form = true -> advanced_stable form -> superRefine form = Ok [] ->
  exists setting o settings s p n,
    buildSettingJSON form = Ok setting /\ JSON_parse setting = Ok (JObj o) /\
    buildSettingsJSON form = Ok settings /\ JSON_parse settings = Ok (JObj s) /\
    normalizeHttpProtocol (fld form "http_protocol") = Ok p /\
    or_default (fld form "http2_connection_shards") (num 1) = JNum n /\
    num_ltb n (num_of_Z 1) = false /\ num_ltb (num_of_Z 8) n = false /\
    fld o "http_protocol" = (if String.eqb p HTTP_PROTOCOL_HTTP1 then str HTTP_PROTOCOL_HTTP1 else JUndefined) /\
    fld o "http2_connection_shards" = (if num_ltb (num_of_Z 1) n then JNum n else JUndefined) /\
    (String.eqb p HTTP_PROTOCOL_HTTP1 = true -> fld o "http2_connection_shards" = JUndefined) /\
    (type_is form CHANNEL_TYPE_TASK_PLUGIN = true -> exists key, fld o "task_plugin_key" = JStr key /\ key <> []) /\
    if type_is form CHANNEL_TYPE_ADVANCED_CUSTOM
    then exists c, own s (js "advanced_custom") = Some c /\ validateAdvancedCustomConfig c = Ok None
    else own s (js "advanced_custom") = None.
Proof.
  intros Hok Hadv Hacc. destruct (accepted_parts form Hacc) as (Hplug & Ha & Ht).
  destruct (form_parts form Hok) as (Hset & Htexts & (o & Ho & Hp) & _).
  assert (Hshards : opt_count (fld form "http2_connection_shards") = true) by (unfold setting_ok in Hset; by bools).
  destruct (accepted_shards form Hshards Ht) as (p & n & Hpr & Hd & Hn & H1 & H8 & Hone).
  destruct (edits_exist form o Htexts Hadv) as [es Hes]. destruct (setting_transport form p n Hpr Hn) as (T1 & T2 & T3).
  destruct (setting_built form Hset) as [Hs _]. pose proof (setting_printable form Hset) as Hprint.
  exists (object_text (setting_of form)), (defined (setting_of form)), (object_text (fold_left apply_edit es o)), (fold_left apply_edit es o), p, n.
  assert (Hfld : forall k, fld (defined (setting_of form)) k = fld (setting_of form) k)
    by (intros k; apply member_defined, setting_object_keys).
  rewrite !Hfld, T1, T2, T3. split; [done|]. split; [by apply object_text_parse|].
  split; [unfold buildSettingsJSON; by rewrite Ho, Hes|].
  split; [apply printed_object, edits_printable; [by apply (edits_ok form o es)|done]|].
  split_and!; try done.
  - destruct (String.eqb p HTTP_PROTOCOL_HTTP1); [by rewrite Hone|done].
  - by intros ->.
  - unfold plugin_of. intros E. rewrite E in Hplug |- *. cbn [andb] in Hplug. eexists. split; [done|].
    unfold blank, trimmed in Hplug. intros Hnil. destruct (fld form "task_plugin_key"); cbn [text_of] in Hnil; try done. by rewrite Hnil in Hplug.
  - by apply (stored_advanced form o es).
Qed.
End Accepted.

(** * Examples *)

Definition no_proxies : ProxyParser := {| parse_proxy := fun _ => None |}.
(** The default form with some members changed. *)
Definition form_with (changes : list (string * jsvalue)) : members :=
  fold_left (fun o m => assign (js m.1) m.2 o) changes CHANNEL_FORM_DEFAULT_VALUES.
Definition custom_text : jsstr := quotes "{'advanced_routes':[{'incoming_path':'/v1/messages','upstream_path':'/messages'}]}".
Definition custom_object : jsvalue := default JNull (parseAdvancedCustomConfig (Some custom_text)).
Definition custom_printed : jsstr := match stringifyAdvancedCustomConfig custom_object with Ok (Some text) => text | _ => [] end.
Definition custom_form : members :=
  form_with [("name", str "custom"); ("type", num 58); ("base_url", str " https://example.com/v1// "); ("key", str "sk-1");
    ("models", str "gpt-4o,o3"); ("group", JArr [str "default"; str "vip"]); ("weight", num 5); ("remark", str "spare");
    ("http2_connection_shards", num 4); ("settings", JStr (quotes "{'note':'kept','vertex_key_type':'json'}"));
    ("upstream_model_update_ignored_models", str "a, b ,a");
    ("advanced_custom", JStr custom_text)]%string.

Lemma ascii_lower_fixed s : forallb (fun c => is_digit c || ((97 <=? c) && (c <=? 122)))%Z s = true -> ascii_lower s = s.
Proof.
  induction s as [|c s IH]; [done|]. cbn [forallb]. intros H. bools. cbn [ascii_lower map]. f_equal; [|by apply IH].
  unfold is_digit in H. destruct ((65 <=? c) && (c <=? 90))%Z eqn:E; [|done]. bools. lia.
Qed.
Lemma custom_form_ok : form_ok custom_form = true /\ advanced_stable custom_form /\
  @superRefine plain_platform no_urls custom_form = Ok [].
Proof.
  split; [by vm_compute|]. split; [|by vm_compute]. intros _. exists custom_text, custom_object, custom_printed.
  do 3 (split; [by vm_compute|]). split; [apply prints_printable; by vm_compute|]. by split; vm_compute.
Qed.

(** A base URL with a blank before its last slash loses one part at every save. *)
Lemma base_url_saved_twice :
  normalizeBaseUrl (str "https://host/v1 /") = Ok (js "https://host/v1 ") /\
  normalizeBaseUrl (str "https://host/v1 ") = Ok (js "https://host/v1").
Proof. by vm_compute. Qed.

(** The validation requires a base URL for some types, accepts one that consists of slashes, and the empty text is sent. *)
Definition slash_form : members :=
  form_with [("name", str "azure"); ("type", num 8); ("models", str "gpt-4o"); ("base_url", str "/")]%string.
Theorem slash_base_url_accepted : @superRefine plain_platform no_urls slash_form = Ok [] /\
  @superRefine plain_platform no_urls (assign (js "base_url") (JStr []) slash_form)
    = Ok [("base_url"%string, js "Base URL is required for this channel type")] /\
  @refinements_ok no_proxies slash_form = true /\
  match @transformFormDataToUpdatePayload plain_platform slash_form (num 7) with
  | Ok payload => fld payload "base_url" = JStr []
  | Err _ => False
  end.
Proof. by vm_compute. Qed.

(** * Witnesses *)

Lemma channel_reopen_witness :
  exists payload again, @transformFormDataToUpdatePayload plain_platform custom_form (num 7) = Ok payload /\
    @transformChannelToFormDefaults plain_platform (payload ++ [(js "channel_info", JObj [])]) = Ok again /\
    @transformFormDataToUpdatePayload plain_platform again (num 7) = Ok (apply_edit payload (Drop "key")) /\
    fld again "base_url" = str "https://example.com/v1" /\ fld again "group" = JArr [str "default"; str "vip"].
Proof.
  destruct custom_form_ok as (Hok & Hadv & _).
  destruct (@channel_reopen plain_platform ascii_lower_fixed custom_form (num 7) Hok ltac:(by vm_compute) ltac:(by vm_compute) Hadv) as (payload & Hp & H).
  destruct (H (payload ++ [(js "channel_info", JObj [])]) []) as (again & Ha & Hu & _ & (base & Hb & Hs) & Hm & _).
  - intros k v Hk _. by rewrite own_app, Hk.
  - apply fld_own. rewrite own_app. revert Hp. vm_compute. by intros [= <-].
  - exists payload, again. split; [done|]. split; [done|]. split; [done|]. split.
    + rewrite Hs. revert Hb. vm_compute. by intros [= <-].
    + do 3 apply list.Forall_cons in Hm as [_ Hm]. apply list.Forall_cons in Hm as [Hm _]. rewrite Hm. by vm_compute.
Defined.

Definition operator : auth_user := AuthUser (num_of_Z 2) (js "operator") (num_of_Z 10) (JObj []).
Definition custom_payload : members :=
  match @transformFormDataToUpdatePayload plain_platform custom_form (num 7) with Ok p => p | Err _ => [] end.
Lemma update_sends_permitted_witness :
  exists sent, @update_request plain_platform (Some operator) true custom_form (num 7) = Ok sent /\
    own sent (js "key") = None /\ own sent (js "settings") = None /\ own sent (js "name") = Some (str "custom").
Proof.
  destruct (@update_sends_permitted plain_platform (Some operator) true custom_form (num 7) custom_payload) as (_ & sent & Hs & H);
    [by vm_compute|by vm_compute|].
  exists sent. split; [done|]. rewrite !H. by vm_compute.
Defined.

Lemma accepted_form_saved_witness :
  exists setting o, @buildSettingJSON plain_platform custom_form = Ok setting /\ JSON_parse setting = Ok (JObj o) /\
    fld o "http2_connection_shards" = num 4.
Proof.
  destruct custom_form_ok as (Hok & Hadv & Hacc).
  destruct (@accepted_form_saved plain_platform no_urls custom_form Hok Hadv Hacc)
    as (setting & o & settings & s & p & n & Hs & Ho & _ & _ & _ & Hn & _ & _ & _ & Hsh & _).
  exists setting, o. split; [done|]. split; [done|]. rewrite Hsh. revert Hn. vm_compute. by intros [= <-].
Defined.
