(* ===== verification/HttpClient.v ===== *)
(** The HTTP client ([lib/http-client.ts]) on top of the login session, and the paths of languages it
    redirects to ([i18n/languages.ts]).

    A call of the client is cut at its suspension points into phases: before the request interceptor,
    waiting for a refresh that a single-use request needs, sent, waiting for the refresh after an
    answer 401, and settled.  The package axios, which runs the interceptors around a request, is
    outside: that it runs the request interceptor, sends the request and runs the response interceptor
    with the configuration it sent is what the events say.  [client_step] is the executable transition
    function of calls, the map of GET requests and the session. *)
From Stdlib Require Import ZArith Lia Bool String.
From stdpp Require Import base list option.
From S2P Require Import Prelude JsString JsNumber Types JsValue Collections Runtime Json JsonText AuthSession.

(** * Languages in paths *)

Inductive language := ZhCN | En | Fr | Ru | Ja | Vi | ZhTW.

Definition ROUTE_PREFIX_TO_CODE : list (jsstr * language) :=
  map (fun e => (js e.1, e.2)) [("en", En); ("fr", Fr); ("ru", Ru); ("ja", Ja); ("vi", Vi); ("zh-tw", ZhTW)]%string.
Definition CODE_TO_ROUTE_PREFIX (code : language) : string :=
  match code with
  | ZhCN => "" | En => "/en" | Fr => "/fr" | Ru => "/ru" | Ja => "/ja" | Vi => "/vi" | ZhTW => "/zh-TW"
  end.
Definition SLASH : Z := 47.

Section Paths.
Context {P : Platform}.

(** What a lookup in the table of prefixes finds: a language, or something that a plain object inherits. *)
Inductive prefix_code := Language (l : language) | Inherited.
Definition languageFromPathPrefix (pathname : jsstr) : option prefix_code :=
  match List.find truthy (split_char SLASH pathname) with
  | None => None
  | Some segment =>
      let first := toLowerCase segment in
      if negb (truthy first) then None
      else match own ROUTE_PREFIX_TO_CODE first with
           | Some l => Some (Language l)
           | None => if existsb (fun n => first === n) inherited_names then Some Inherited else None
           end
  end.

Definition routeLocaleBasepath (pathname : jsstr) : option jsstr :=
  match languageFromPathPrefix pathname with
  | Some (Language ZhCN) | None | Some Inherited => None
  | Some (Language l) => Some (js (CODE_TO_ROUTE_PREFIX l))
  end.

(** [rest.replace(/\/$/, '')]. *)
Definition drop_last_slash (s : jsstr) : jsstr :=
  match rev s with c :: t => if (c =? SLASH)%Z then rev t else s | [] => s end.
Definition stripRouteLocalePrefix (pathname : jsstr) : jsstr :=
  match languageFromPathPrefix pathname with
  | None => if truthy pathname then pathname else js "/"
  | Some _ =>
      let segments := List.filter truthy (split_char SLASH pathname) in
      let rest := js "/" ++ join (js "/") (tail segments) in
      if rest === "/" then js "/" else drop_last_slash rest
  end.

(** Without a prefix the path is only stripped; so it is for what is no language. *)
Definition pathWithLanguage (pathname : jsstr) (code : prefix_code) : jsstr :=
  let stripped := stripRouteLocalePrefix pathname in
  let prefix := match code with Language l => js (CODE_TO_ROUTE_PREFIX l) | Inherited => [] end in
  if negb (truthy prefix) then stripped
  else if stripped === "/" then prefix else prefix ++ stripped.

(** * [encodeURIComponent] *)

(** [A-Z a-z 0-9 - _ . ! ~ * ' ( )]. *)
Definition uri_unreserved (c : Z) : bool :=
  is_digit c || ((65 <=? c) && (c <=? 90))%Z || ((97 <=? c) && (c <=? 122))%Z ||
  existsb (Z.eqb c) [45; 95; 46; 33; 126; 42; 39; 40; 41]%Z.
(** [%XX], in capitals. *)
Definition upper_hex (d : Z) : Z := if (d <? 10)%Z then (48 + d)%Z else (55 + d)%Z.
Definition percent (byte : Z) : jsstr := [37%Z; upper_hex (byte / 16); upper_hex (byte mod 16)].
Definition utf8 (c : Z) : list Z :=
  if (c <? 128)%Z then [c]
  else if (c <? 2048)%Z then [192 + c / 64; 128 + c mod 64]%Z
  else if (c <? 65536)%Z then [224 + c / 4096; 128 + (c / 64) mod 64; 128 + c mod 64]%Z
  else [240 + c / 262144; 128 + (c / 4096) mod 64; 128 + (c / 64) mod 64; 128 + c mod 64]%Z.
Inductive uri_error := URIError.
(** A surrogate without its partner makes the function throw. *)
Fixpoint encodeURIComponent (s : jsstr) : result uri_error jsstr :=
  match s with
  | [] => Ok []
  | c :: s' =>
      if uri_unreserved c then let! rest := encodeURIComponent s' in Ok (c :: rest)
      else if is_low_surrogate c then Err URIError
      else if is_high_surrogate c then
        match s' with
        | d :: s'' =>
            if is_low_surrogate d then
              let! rest := encodeURIComponent s'' in
              Ok (concat (map percent (utf8 (65536 + (c - 55296) * 1024 + (d - 56320)))) ++ rest)
            else Err URIError
        | [] => Err URIError
        end
      else let! rest := encodeURIComponent s' in Ok (concat (map percent (utf8 c)) ++ rest)
  end.

(** The page to log in on, unless it is shown already. *)
Definition sign_in_path (pathname : jsstr) : jsstr :=
  pathWithLanguage (js "/sign-in") (match languageFromPathPrefix pathname with Some c => c | None => Language ZhCN end).
Definition signInRedirectTarget (pathname search hash : jsstr) : result uri_error (option jsstr) :=
  if str_eqb pathname (sign_in_path pathname) then Ok None
  else
    let! returnTo := encodeURIComponent (pathname ++ search ++ hash) in
    Ok (Some (sign_in_path pathname ++ js "?redirect=" ++ returnTo)).
End Paths.

(** * Calls *)

(** The options of a request that the client looks at; [q_proof] says that it has the header of a security
    proof, [q_authorization] is its header [Authorization]. *)
Record request_config := Config {
  q_url : jsstr;
  q_params : jsvalue;
  skipErrorHandler : bool;
  disableDuplicate : bool;
  skipAuthRefresh : bool;
  authRetry : bool;
  acceptAuthRotation : bool;
  singleUseAuthorization : bool;
  q_proof : bool;
  q_authorization : option jsstr;
}.
Definition set_flags (skip retry : bool) (c : request_config) : request_config :=
  Config (q_url c) (q_params c) (skipErrorHandler c) (disableDuplicate c) skip retry (acceptAuthRotation c)
    (singleUseAuthorization c) (q_proof c) (q_authorization c).
Definition set_authorization (a : option jsstr) (c : request_config) : request_config :=
  Config (q_url c) (q_params c) (skipErrorHandler c) (disableDuplicate c) (skipAuthRefresh c) (authRetry c)
    (acceptAuthRotation c) (singleUseAuthorization c) (q_proof c) (match a with Some _ => a | None => q_authorization c end).

Inductive call_error :=
| StatusError (status : Z) | NetworkError | HeadersError (e : headers_error) | RotationError (e : rotation_error)
| LockError | RedirectError.
Inductive call_result := Fulfilled (data : jsvalue) | Failed (e : call_error).

(** The outcome of a refresh that a call waited for; [None] when the browser refused its lock. *)
Inductive call_phase :=
| CQueued
| CFresh
| CFreshDone (o : option refresh_outcome)
| CSent
| CRefreshing
| CRefreshed (o : option refresh_outcome)
| CSettled (r : call_result).

(** What a call did. *)
Inductive call_entry := Sent (authorization : option jsstr) | Answered (status : Z) | Expired | Redirected (target : jsstr).

Record api_call := Call {
  c_initial : request_config;
  c_config : request_config;
  c_phase : call_phase;
  c_key : option jsstr;
  c_trace : list call_entry;
}.
Definition single_use (c : request_config) : bool := singleUseAuthorization c || q_proof c.

Section Client.
Context {P : Platform}.
(** [window.location]: path, search and hash, absent without a window. *)
Variable location : option (jsstr * jsstr * jsstr).

(** [Bearer] and the token of the store. *)
Definition bearer (w : auth_state) : option jsstr :=
  match s_accessToken (a_store w) with
  | Some t => if truthy t then Some (js "Bearer " ++ t) else None
  | None => None
  end.
Definition header_authorization (headers : list (jsstr * jsstr)) : option jsstr := own headers (js "Authorization").

Definition to_phase (p : call_phase) (log : list call_entry) (config : request_config) (c : api_call) : api_call :=
  Call (c_initial c) config p (c_key c) (c_trace c ++ log).
(** The request leaves with its headers. *)
Definition send_request (authorization : option jsstr) (config : request_config) (c : api_call) : api_call :=
  let config := set_authorization authorization config in
  to_phase CSent [Sent (q_authorization config)] config c.
Definition settle_call (r : call_result) (log : list call_entry) (c : api_call) : api_call := to_phase (CSettled r) log (c_config c) c.

(** ** The request interceptor *)

Definition request_interceptor (now : number) (w : auth_state) (c : api_call) : auth_state * api_call :=
  let config := c_config c in
  if single_use config then
    let config := set_flags true (authRetry config) config in
    match getFreshAuthHeaders now w with
    | (w', Some headers) => (w', send_request (header_authorization headers) config c)
    | (w', None) => (w', to_phase CFresh [] config c)
    end
  else (w, send_request (bearer w) config c).

(** After the refresh that a single-use request waited for. *)
Definition fresh_resumed (now : number) (o : option refresh_outcome) (w : auth_state) (c : api_call) : api_call :=
  match o with
  | None => settle_call (Failed LockError) [] c
  | Some o =>
      match fresh_headers_after o now w with
      | Ok headers => send_request (header_authorization headers) (c_config c) c
      | Err e => settle_call (Failed (HeadersError e)) [] c
      end
  end.

(** ** The response interceptor *)

(** The message that the session expired, and the redirect. *)
Definition expired_message (config : request_config) : list call_entry := if skipErrorHandler config then [] else [Expired].
Definition redirectToSignIn : result uri_error (list call_entry) :=
  match location with
  | None => Ok []
  | Some (pathname, search, hash) =>
      let! target := signInRedirectTarget pathname search hash in
      Ok (match target with Some t => [Redirected t] | None => [] end)
  end.
Definition expire (status : Z) (c : api_call) : api_call :=
  let log := expired_message (c_config c) in
  match redirectToSignIn with
  | Ok redirect => settle_call (Failed (StatusError status)) (log ++ redirect) c
  | Err _ => settle_call (Failed RedirectError) log c
  end.

Definition is_success (status : Z) : bool := ((200 <=? status) && (status <? 300))%Z.
Definition handle_answer (status : Z) (data : jsvalue) (w : auth_state) (c : api_call) : auth_state * api_call :=
  let config := c_config c in
  let c := to_phase (c_phase c) [Answered status] config c in
  if is_success status then
    if acceptAuthRotation config && match field data "success" with JBool b => b | _ => false end then
      match applyAuthRotation (field data "data") w with
      | Ok w' => (w', settle_call (Fulfilled data) [] c)
      | Err e => (w, settle_call (Failed (RotationError e)) [] c)
      end
    else (w, settle_call (Fulfilled data) [] c)
  else if (status =? 401)%Z then
    if negb (skipAuthRefresh config) && negb (authRetry config) then
      (refreshAuthentication w, to_phase CRefreshing [] (set_flags (skipAuthRefresh config) true config) c)
    else if authRetry config then (clearAuthentication false BComplete w, expire status c)
    else (w, settle_call (Failed (StatusError status)) (expired_message config) c)
  else (w, settle_call (Failed (StatusError status)) [] c).

(** After the refresh that followed an answer 401: the request is sent again with the new token. *)
Definition refresh_resumed (o : option refresh_outcome) (w : auth_state) (c : api_call) : api_call :=
  match o with
  | None => settle_call (Failed LockError) [] c
  | Some (Authenticated _) => to_phase CQueued [] (set_authorization (bearer w) (c_config c)) c
  | Some (Anonymous | OutOfSync _) => expire 401 c
  | Some (TransientError _) => settle_call (Failed (StatusError 401)) [] c
  end.

(** ** The client *)

Inductive call_event :=
| Intercept (now : number)
| Answer (status : Z) (data : jsvalue)
| NoAnswer
| Resume (now : number).

Definition call_step (e : call_event) (w : auth_state) (c : api_call) : option (auth_state * api_call) :=
  match e, c_phase c with
  | Intercept now, CQueued => Some (request_interceptor now w c)
  | Answer status data, CSent => Some (handle_answer status data w c)
  | NoAnswer, CSent => Some (w, settle_call (Failed NetworkError) [] c)
  | Resume now, CFreshDone o => Some (w, fresh_resumed now o w c)
  | Resume _, CRefreshed o => Some (w, refresh_resumed o w c)
  | _, _ => None
  end.

(** [inFlightGet]: keys and the calls they stand for. *)
Record client := Client {
  k_auth : auth_state;
  k_calls : list api_call;
  k_inflight : list (jsstr * nat);
}.
Definition initial_client : client := Client initial_state [] [].

Definition new_call (config : request_config) (key : option jsstr) : api_call := Call config config CQueued key [].

(** The key of a GET request. *)
Definition params_text (params : jsvalue) : jsstr :=
  if value_truthy params
  then match JSON_stringify_plain params with Some text => text | None => js "undefined" end
  else js "{}".
Definition session_sid (w : auth_state) : jsstr :=
  match current_sid w with Some s => if truthy s then s else js "anonymous" | None => js "anonymous" end.
Definition get_key (sid : jsstr) (config : request_config) : jsstr :=
  sid ++ js ":" ++ q_url config ++ js "?" ++ params_text (q_params config).

(** [api.get]: the client and the number of the call whose promise is returned. *)
Definition api_get (config : request_config) (k : client) : client * nat :=
  let fresh := length (k_calls k) in
  if disableDuplicate config then (Client (k_auth k) (k_calls k ++ [new_call config None]) (k_inflight k), fresh)
  else
    let key := get_key (session_sid (k_auth k)) config in
    match own (k_inflight k) key with
    | Some i => (k, i)
    | None => (Client (k_auth k) (k_calls k ++ [new_call config (Some key)]) (assign key fresh (k_inflight k)), fresh)
    end.

(** When the promise of a refresh settles, the calls that wait for it will go on with its outcome. *)
Definition wake (o : option refresh_outcome) (c : api_call) : api_call :=
  match c_phase c with
  | CFresh => to_phase (CFreshDone o) [] (c_config c) c
  | CRefreshing => to_phase (CRefreshed o) [] (c_config c) c
  | _ => c
  end.
Definition refresh_result (w : auth_state) : option refresh_outcome :=
  match a_refresh w with
  | Some r => match r_phase r with PDone o => Some o | _ => None end
  | None => None
  end.

Inductive client_event :=
| Session (a : action)
| Get (config : request_config)
| Request (config : request_config)
| OnCall (i : nat) (e : call_event)
| Cleanup (i : nat).

Definition client_step (e : client_event) (k : client) : option client :=
  match e with
  | Session a =>
      w ← step a (k_auth k);
      let calls := match a with ASettle => map (wake (refresh_result (k_auth k))) (k_calls k) | _ => k_calls k end in
      Some (Client w calls (k_inflight k))
  | Get config => Some (api_get config k).1
  | Request config => Some (Client (k_auth k) (k_calls k ++ [new_call config None]) (k_inflight k))
  | OnCall i e =>
      c ← k_calls k !! i;
      r ← call_step e (k_auth k) c;
      Some (Client r.1 (<[i := r.2]> (k_calls k)) (k_inflight k))
  | Cleanup i =>
      c ← k_calls k !! i;
      match c_phase c, c_key c with
      | CSettled _, Some key =>
          Some (Client (k_auth k)
                  (<[i := Call (c_initial c) (c_config c) (c_phase c) None (c_trace c)]> (k_calls k))
                  (List.filter (fun e => negb (str_eqb e.1 key)) (k_inflight k)))
      | _, _ => None
      end
  end.

Inductive client_steps : client -> list client_event -> client -> Prop :=
| client_nil k : client_steps k [] k
| client_cons k e k1 l k' : client_step e k = Some k1 -> client_steps k1 l k' -> client_steps k (e :: l) k'.
Definition client_reachable (k : client) : Prop := exists l, client_steps initial_client l k.

End Client.
