(* ===== verification/HttpFacts.v ===== *)
(** Properties of the HTTP client ([HttpClient]): what a call sends, that it ends, which GET requests share an
    answer, and where the client redirects to. *)
From Stdlib Require Import ZArith Lia Bool String.
From stdpp Require Import base list option.
From S2P Require Import Prelude JsString JsNumber Types JsValue Collections Runtime Json JsonText Schema AuthSession AuthFacts NavFacts HttpClient.

(** * Traces of calls *)

Inductive mark := MSent | MAnswer (status : Z).
Definition call_marks (trace : list call_entry) : list mark :=
  omap (fun e => match e with Sent _ => Some MSent | Answered s => Some (MAnswer s) | _ => None end) trace.

(** The call may be sent again after an answer 401. *)
Definition may_retry (c : request_config) : bool := negb (single_use c || skipAuthRefresh c || authRetry c).
Definition retried (c : api_call) : bool := authRetry (c_config c) && negb (authRetry (c_initial c)).
Definition before_retry (c : api_call) : list mark := if retried c then [MSent; MAnswer 401] else [].

(** What a call has done in each phase. *)
Definition trace_ok (c : api_call) : Prop :=
  let m := call_marks (c_trace c) in
  match c_phase c with
  | CQueued | CFresh | CFreshDone _ => m = before_retry c
  | CSent => m = before_retry c ++ [MSent]
  | CRefreshing | CRefreshed _ => retried c = true /\ m = before_retry c
  | CSettled (Fulfilled _) => exists s, is_success s = true /\ m = before_retry c ++ [MSent; MAnswer s]
  | CSettled (Failed _) => m = before_retry c \/ m = before_retry c ++ [MSent] \/ exists s, m = before_retry c ++ [MSent; MAnswer s]
  end.
Definition is_queued (p : call_phase) : bool := match p with CQueued => true | _ => false end.
Record call_ok (c : api_call) : Prop := {
  ok_trace : trace_ok c;
  ok_retry : retried c = true -> may_retry (c_initial c) = true;
  ok_single : single_use (c_config c) = single_use (c_initial c);
  ok_skip : skipAuthRefresh (c_initial c) || (single_use (c_initial c) && negb (is_queued (c_phase c))) = true ->
            skipAuthRefresh (c_config c) = true;
  ok_first : authRetry (c_initial c) = true -> authRetry (c_config c) = true;
}.

Lemma marks_app a b : call_marks (a ++ b) = call_marks a ++ call_marks b.
Proof. apply omap_app. Qed.
Lemma marks_redirect location {P : Platform} log : redirectToSignIn location = Ok log -> call_marks log = [].
Proof.
  unfold redirectToSignIn. destruct location as [[[p s] h]|]; [|by intros [= <-]].
  destruct (signInRedirectTarget p s h) as [[t|]|]; [|..]; by intros [= <-] || done.
Qed.
Lemma marks_expired config : call_marks (expired_message config) = [].
Proof. unfold expired_message. by destruct (skipErrorHandler config). Qed.

Section Calls.
Context {P : Platform}.
Variable location : option (jsstr * jsstr * jsstr).

(** Settling keeps the configuration and marks nothing. *)
Lemma expire_shape status c : exists e log, expire location status c = settle_call (Failed e) log c /\ call_marks log = [].
Proof.
  unfold expire. destruct (redirectToSignIn location) as [log|] eqn:E.
  - do 2 eexists. split; [done|]. by rewrite marks_app, marks_expired, (marks_redirect location log E).
  - do 2 eexists. split; [done|]. apply marks_expired.
Qed.
Lemma settle_failed c e log : call_ok c -> call_marks log = [] ->
  (call_marks (c_trace c) = before_retry c \/ call_marks (c_trace c) = before_retry c ++ [MSent] \/
   exists s, call_marks (c_trace c) = before_retry c ++ [MSent; MAnswer s]) ->
  is_queued (c_phase c) = false -> call_ok (settle_call (Failed e) log c).
Proof.
  intros [H1 H2 H3 H4 H5] Hlog Hm Hq. split; cbn; try done; [|by rewrite Hq in H4].
  unfold trace_ok. cbn. rewrite marks_app, Hlog, app_nil_r. exact Hm.
Qed.

Lemma send_request_ok authorization config c : call_ok c -> single_use config = single_use (c_config c) ->
  authRetry config = authRetry (c_config c) -> call_marks (c_trace c) = before_retry c ->
  (skipAuthRefresh (c_initial c) || single_use (c_initial c) = true -> skipAuthRefresh config = true) ->
  call_ok (send_request authorization config c).
Proof.
  intros [H1 H2 H3 H4 H5] Hs Hr Hm Hk. unfold send_request. split; cbn.
  - unfold trace_ok, before_retry, retried. cbn. rewrite Hr, marks_app, Hm. reflexivity.
  - unfold retried. cbn. by rewrite Hr.
  - rewrite <- H3, <- Hs. reflexivity.
  - by rewrite andb_true_r.
  - by rewrite Hr.
Qed.

Lemma request_ok now w c : call_ok c -> c_phase c = CQueued -> call_ok (request_interceptor now w c).2.
Proof.
  intros Hc Hp. assert (Hm : call_marks (c_trace c) = before_retry c) by (pose proof (ok_trace c Hc) as H; unfold trace_ok in H; by rewrite Hp in H).
  unfold request_interceptor. destruct (single_use (c_config c)) eqn:Hs.
  - destruct (getFreshAuthHeaders now w) as [w' [headers|]]; cbn [snd].
    + by apply send_request_ok.
    + destruct Hc as [H1 H2 H3 H4 H5]. split; cbn; try done. unfold trace_ok. cbn. by rewrite marks_app, app_nil_r, Hm.
  - cbn [snd]. apply send_request_ok; try done. intros H. apply (ok_skip c Hc). rewrite Hp. rewrite <- (ok_single c Hc), Hs in H. by rewrite andb_false_r.
Qed.

Lemma fresh_ok now o o' w c : call_ok c -> c_phase c = CFreshDone o' -> call_ok (fresh_resumed now o w c).
Proof.
  intros Hc Hp. assert (Hm : call_marks (c_trace c) = before_retry c) by (pose proof (ok_trace c Hc) as H; unfold trace_ok in H; by rewrite Hp in H).
  unfold fresh_resumed. destruct o as [o|]; [|apply settle_failed; try done; [by left|by rewrite Hp]].
  destruct (fresh_headers_after o now w); [|apply settle_failed; try done; [by left|by rewrite Hp]].
  apply send_request_ok; try done. intros H. apply (ok_skip c Hc). rewrite Hp. cbn [is_queued negb]. by rewrite andb_true_r.
Qed.

Lemma expire_ok status c : call_ok c -> is_queued (c_phase c) = false ->
  (call_marks (c_trace c) = before_retry c \/ call_marks (c_trace c) = before_retry c ++ [MSent] \/
   exists s, call_marks (c_trace c) = before_retry c ++ [MSent; MAnswer s]) -> call_ok (expire location status c).
Proof. intros Hc Hq Hm. destruct (expire_shape status c) as (e & log & -> & Hlog). by apply settle_failed. Qed.

Lemma refreshed_ok o o' w c : call_ok c -> c_phase c = CRefreshed o' -> call_ok (refresh_resumed location o w c).
Proof.
  intros Hc Hp. pose proof (ok_trace c Hc) as H. unfold trace_ok in H. rewrite Hp in H. destruct H as [Hr Hm].
  assert (Hq : is_queued (c_phase c) = false) by (by rewrite Hp).
  unfold refresh_resumed. destruct o as [[b| |d|code]|]; try (apply settle_failed; try done; by left); try (apply expire_ok; try done; by left).
  destruct Hc as [H1 H2 H3 H4 H5]. split; cbn; try done.
  - unfold trace_ok. cbn. by rewrite marks_app, app_nil_r, Hm.
  - intros Hs. apply H4. rewrite Hp. cbn [is_queued negb]. rewrite andb_true_r. rewrite andb_false_r, orb_false_r in Hs. by rewrite Hs.
Qed.

Lemma handle_answer_ok status data w c : call_ok c -> c_phase c = CSent -> call_ok (handle_answer location status data w c).2.
Proof.
  intros Hc Hp. assert (Hm : call_marks (c_trace c) = before_retry c ++ [MSent]) by (pose proof (ok_trace c Hc) as H; unfold trace_ok in H; by rewrite Hp in H).
  set (c1 := to_phase (c_phase c) [Answered status] (c_config c) c).
  assert (Hm1 : call_marks (c_trace c1) = before_retry c ++ [MSent; MAnswer status]) by (cbn; by rewrite marks_app, Hm, <- app_assoc).
  assert (Hfail : forall e log, call_marks log = [] -> call_ok (settle_call (Failed e) log c1)).
  { intros e log Hlog. destruct Hc as [H1 H2 H3 H4 H5]. split; cbn; try done; [|by rewrite Hp in H4].
    unfold trace_ok. cbn -[call_marks]. right. right. exists status. rewrite marks_app, Hlog, app_nil_r. exact Hm1. }
  assert (Hgood : is_success status = true -> call_ok (settle_call (Fulfilled data) [] c1)).
  { intros Hs. destruct Hc as [H1 H2 H3 H4 H5]. split; cbn; try done; [|by rewrite Hp in H4].
    unfold trace_ok. cbn -[call_marks]. exists status. split; [done|]. by rewrite marks_app, app_nil_r. }
  unfold handle_answer. fold c1. destruct (is_success status) eqn:Es.
  - destruct (acceptAuthRotation (c_config c) && _); [|by apply Hgood].
    destruct (applyAuthRotation _ w); [by apply Hgood|by apply Hfail].
  - destruct (status =? 401)%Z eqn:E4; [|by apply Hfail]. apply Z.eqb_eq in E4.
    destruct (negb (skipAuthRefresh (c_config c)) && negb (authRetry (c_config c))) eqn:Er.
    + apply andb_true_iff in Er as [Hk Hr]. apply negb_true_iff in Hk, Hr. cbn [snd].
      assert (Hfirst : authRetry (c_initial c) = false) by (destruct (authRetry (c_initial c)) eqn:E; [by rewrite (ok_first c Hc E) in Hr|done]).
      assert (Hskip : skipAuthRefresh (c_initial c) || single_use (c_initial c) = false).
      { destruct (_ || _) eqn:E; [|done]. rewrite (ok_skip c Hc) in Hk; [done|]. rewrite Hp. cbn [is_queued negb]. by rewrite andb_true_r. }
      assert (Hb : before_retry c = []) by (unfold before_retry, retried; by rewrite Hr).
      rewrite Hb in Hm1. destruct Hc as [H1 H2 H3 H4 H5]. split; cbn.
      * unfold trace_ok, before_retry, retried. cbn -[call_marks]. rewrite Hfirst. cbn [negb andb]. split; [done|].
        rewrite marks_app, app_nil_r. change (call_marks (c_trace c1) = [MSent; MAnswer 401]). by rewrite Hm1, E4.
      * intros _. unfold may_retry. rewrite Hfirst, orb_false_r, orb_comm, Hskip. done.
      * done.
      * rewrite andb_true_r, Hskip. done.
      * done.
    + destruct (authRetry (c_config c)); [|by apply Hfail, marks_expired]. cbn [snd].
      destruct (expire_shape status c1) as (e & log & -> & Hlog). by apply Hfail.
Qed.

Lemma call_step_ok e w c w' c' : call_step location e w c = Some (w', c') -> call_ok c -> call_ok c'.
Proof.
  intros H Hc. unfold call_step in H. destruct e as [now|status data| |now], (c_phase c) eqn:Hp; try done.
  - pose proof (request_ok now w c Hc Hp) as Hr. destruct (request_interceptor now w c). by injection H as <- <-.
  - pose proof (handle_answer_ok status data w c Hc Hp) as Hr. destruct (handle_answer location status data w c). by injection H as <- <-.
  - injection H as <- <-. apply settle_failed; try done; [|by rewrite Hp]. right. left.
    pose proof (ok_trace c Hc) as Ht. unfold trace_ok in Ht. by rewrite Hp in Ht.
  - injection H as <- <-. by apply (fresh_ok now o o).
  - injection H as <- <-. by apply (refreshed_ok o o).
Qed.

Lemma wake_ok o c : call_ok c -> call_ok (wake o c).
Proof.
  intros Hc. unfold wake. destruct (c_phase c) eqn:Hp; try done; destruct Hc as [H1 H2 H3 H4 H5];
    unfold trace_ok in H1; rewrite Hp in H1; rewrite Hp in H4; (split; [|done..]);
    unfold trace_ok; cbn -[call_marks]; rewrite app_nil_r; exact H1.
Qed.
Lemma new_call_ok config key : call_ok (new_call config key).
Proof.
  assert (Hr : retried (new_call config key) = false) by (unfold retried; cbn; by destruct (authRetry config)).
  split; cbn; try done; [unfold trace_ok, before_retry; cbn; by rewrite Hr|by rewrite Hr|].
  by rewrite andb_false_r, orb_false_r.
Qed.
End Calls.

(** * The whole client *)

Definition waits (c : api_call) : bool := match c_phase c with CFresh | CRefreshing => true | _ => false end.
Record client_ok (k : client) : Prop := {
  ok_calls : Forall call_ok (k_calls k);
  ok_waits : forall c, c ∈ k_calls k -> waits c = true -> is_Some (a_refresh (k_auth k));
  ok_keys : NoDup (map fst (k_inflight k));
  ok_inflight : forall key i, own (k_inflight k) key = Some i <-> exists c, k_calls k !! i = Some c /\ c_key c = Some key;
}.

(** Only the end of a refresh ends it. *)
Lemma refresh_step_keeps a r w w' : refresh_step a r w = Some w' -> a <> ASettle -> is_Some (a_refresh w').
Proof.
  unfold refresh_step. intros H Ha. destruct a; try done; destruct (r_phase r) as [[] []| | | |]; try done;
    try (injection H as <-; by eexists); destruct (isCurrent r w); try destruct (handle_response _ _ _ _);
    injection H as <-; by eexists.
Qed.
Lemma rotation_refresh v w w' : applyAuthRotation v w = Ok w' -> a_refresh w' = a_refresh w.
Proof. intros (r & u & s & _ & _ & _ & _ & ->)%rotation_effect. apply apply_effect. Qed.
Lemma step_keeps_refresh a w w' : step a w = Some w' -> a <> ASettle -> is_Some (a_refresh w) -> is_Some (a_refresh w').
Proof.
  intros H Ha Hr. assert (Hs : forall r, a_refresh w = Some r -> refresh_step a r w = Some w' -> is_Some (a_refresh w'))
    by (intros r _ Hs; by apply (refresh_step_keeps a r w)).
  destruct a as [| |h| | | |b s|v|s b|u|p|b]; cbn [step] in H; try done;
    try (destruct (a_refresh w) as [r|] eqn:E; [by apply (Hs r)|done]); injection H as <-; try exact Hr.
  - unfold refreshAuthentication. by destruct (a_refresh w) eqn:E; [rewrite E|eexists].
  - by rewrite (proj2 (proj2 (apply_effect b s w))).
  - destruct (applyAuthRotation v w) as [w'|] eqn:E; [by rewrite (rotation_refresh v w w' E)|done].
  - by rewrite (proj2 (proj2 (clear_effect s b w))).
Qed.
Lemma refreshing w : is_Some (a_refresh (refreshAuthentication w)).
Proof. unfold refreshAuthentication. destruct (a_refresh w) eqn:E; [by rewrite E; eexists|by eexists]. Qed.

Section Client.
Context {P : Platform}.
Variable location : option (jsstr * jsstr * jsstr).

(** A call that waits waits for a refresh, and no call ends a refresh; its key stays. *)
Lemma call_step_auth e w c w' c' : call_step location e w c = Some (w', c') ->
  (is_Some (a_refresh w) -> is_Some (a_refresh w')) /\ (waits c' = true -> is_Some (a_refresh w')) /\
  c_key c' = c_key c /\ c_initial c' = c_initial c.
Proof.
  intros H. unfold call_step in H. destruct e as [now|status data| |now], (c_phase c) eqn:Hp; try done.
  - unfold request_interceptor in H. destruct (single_use _); [|by injection H as <- <-].
    unfold getFreshAuthHeaders in H. destruct (token_outlives _ w); injection H as <- <-; [done|]. pose proof (refreshing w). done.
  - unfold handle_answer in H. destruct (is_success status).
    + destruct (_ && _); [|by injection H as <- <-]. destruct (applyAuthRotation _ w) as [w1|] eqn:E; injection H as <- <-; [|done].
      by rewrite (rotation_refresh _ _ _ E).
    + destruct (status =? 401)%Z; [|by injection H as <- <-]. destruct (_ && _); [injection H as <- <-; pose proof (refreshing w); done|].
      destruct (authRetry _); injection H as <- <-; [|done]. rewrite (proj2 (proj2 (clear_effect false BComplete w))). split; [done|].
      unfold expire. by destruct (redirectToSignIn location).
  - by injection H as <- <-.
  - injection H as <- <-. unfold fresh_resumed. destruct o as [o|]; [|done]. by destruct (fresh_headers_after o now w).
  - injection H as <- <-. unfold refresh_resumed, expire. destruct o as [[b| |d|code]|]; try done; by destruct (redirectToSignIn location).
Qed.

Lemma wake_waits o c : waits (wake o c) = false /\ c_key (wake o c) = c_key c.
Proof. unfold wake, waits. by destruct (c_phase c) eqn:E; cbn [c_phase c_key to_phase]; rewrite ?E. Qed.

(** A call that is added under no key, and under a fresh one. *)
Lemma add_call k config : client_ok k -> client_ok (Client (k_auth k) (k_calls k ++ [new_call config None]) (k_inflight k)).
Proof.
  intros [H1 H2 H3 H4]. split; cbn; try done.
  - apply Forall_app_2; [done|]. constructor; [apply new_call_ok|constructor].
  - intros c [Hc|Hc%list_elem_of_singleton]%elem_of_app Hw; [by apply (H2 c)|by subst c].
  - intros key i. rewrite H4. split; intros (c & Hc & Hk); exists c; (split; [|done]); [by apply lookup_app_l_Some|].
    apply lookup_app_Some in Hc as [Hc|[_ Hc]]; [done|]. by apply list_lookup_singleton_Some in Hc as [_ <-].
Qed.
Lemma add_get k config key : client_ok k -> own (k_inflight k) key = None ->
  client_ok (Client (k_auth k) (k_calls k ++ [new_call config (Some key)]) (assign key (length (k_calls k)) (k_inflight k))).
Proof.
  intros [H1 H2 H3 H4] Hn. split; cbn.
  - apply Forall_app_2; [done|]. constructor; [apply new_call_ok|constructor].
  - intros c [Hc|Hc%list_elem_of_singleton]%elem_of_app Hw; [by apply (H2 c)|by subst c].
  - by apply assign_nodup.
  - intros x i. rewrite own_assign. destruct (str_eqb_reflect x key) as [->|Hx].
    + split.
      * intros [= <-]. exists (new_call config (Some key)). split; [by apply list_lookup_middle|done].
      * intros (c & [Hc|[Hi Hc]]%lookup_app_Some & Hk).
        -- assert (own (k_inflight k) key = Some i) by (apply H4; by exists c). congruence.
        -- apply list_lookup_singleton_Some in Hc as [Hc _]. f_equal. lia.
    + rewrite H4. split; intros (c & Hc & Hk); exists c; (split; [|done]); [by apply lookup_app_l_Some|].
      apply lookup_app_Some in Hc as [Hc|[_ Hc]]; [done|]. apply list_lookup_singleton_Some in Hc as [_ <-]. by injection Hk as ->.
Qed.

(** One call changes, and keeps its key. *)
Lemma change_call k i c c' w : client_ok k -> k_calls k !! i = Some c -> call_ok c' -> c_key c' = c_key c ->
  (is_Some (a_refresh (k_auth k)) -> is_Some (a_refresh w)) -> (waits c' = true -> is_Some (a_refresh w)) ->
  client_ok (Client w (<[i := c']> (k_calls k)) (k_inflight k)).
Proof.
  intros [H1 H2 H3 H4] Hc Hok Hk Hr Hw. split; cbn; try done.
  - by apply Forall_insert.
  - intros x Hx. apply list_elem_of_lookup in Hx as [j Hj]. apply list_lookup_insert_Some in Hj as [(-> & <- & _)|[_ Hj]]; [done|].
    intros Hwx. apply Hr, (H2 x); [|done]. apply list_elem_of_lookup. by exists j.
  - intros key j. rewrite H4. split.
    + intros (x & Hx & Hkx). destruct (decide (j = i)) as [->|Hne].
      * exists c'. split; [apply list_lookup_insert_eq; by apply lookup_lt_Some in Hc|]. congruence.
      * exists x. by rewrite list_lookup_insert_ne.
    + intros (x & Hx & Hkx). apply list_lookup_insert_Some in Hx as [(-> & <- & _)|[_ Hx]]; [|by exists x]. exists c. by rewrite <- Hk.
Qed.

(** A settled call leaves the map. *)
Lemma cleanup_call k i c key r : client_ok k -> k_calls k !! i = Some c -> c_phase c = CSettled r -> c_key c = Some key ->
  client_ok (Client (k_auth k) (<[i := Call (c_initial c) (c_config c) (c_phase c) None (c_trace c)]> (k_calls k))
               (List.filter (fun e => negb (str_eqb e.1 key)) (k_inflight k))).
Proof.
  intros [H1 H2 H3 H4] Hc Hp Hk. split; cbn.
  - apply Forall_insert; [done|]. rewrite Forall_lookup in H1. destruct (H1 i c Hc) as [A1 A2 A3 A4 A5]. by split.
  - intros x Hx. apply list_elem_of_lookup in Hx as [j Hj]. apply list_lookup_insert_Some in Hj as [(-> & <- & _)|[_ Hj]].
    + unfold waits. cbn. by rewrite Hp.
    + intros Hwx. apply (H2 x); [|done]. apply list_elem_of_lookup. by exists j.
  - by apply filter_keys_nodup.
  - intros x j. rewrite own_filter. destruct (str_eqb_reflect x key) as [->|Hx].
    + split; [done|]. intros (y & Hy & Hky). apply list_lookup_insert_Some in Hy as [(-> & <- & _)|[Hne Hy]]; [done|].
      assert (own (k_inflight k) key = Some j) by (apply H4; by exists y).
      assert (own (k_inflight k) key = Some i) by (apply H4; by exists c). congruence.
    + rewrite H4. split; intros (y & Hy & Hky).
      * exists y. split; [|done]. rewrite list_lookup_insert_ne; [done|]. intros ->. congruence.
      * apply list_lookup_insert_Some in Hy as [(-> & <- & _)|[_ Hy]]; [done|by exists y].
Qed.

Lemma session_step k a w : client_ok k -> step a (k_auth k) = Some w ->
  client_ok (Client w (match a with ASettle => map (wake (refresh_result (k_auth k))) (k_calls k) | _ => k_calls k end) (k_inflight k)).
Proof.
  intros [H1 H2 H3 H4] Hs. assert (Ha : a = ASettle \/ a <> ASettle) by (destruct a; auto). destruct Ha as [->|Hne].
  - split; cbn; try done.
    + rewrite Forall_map. rewrite Forall_forall in H1 |- *. intros c Hc. by apply wake_ok, H1.
    + intros x (c & -> & _)%list_elem_of_fmap. by rewrite (proj1 (wake_waits _ c)).
    + intros key i. rewrite H4, list_lookup_fmap. split.
      * intros (c & -> & Hk). eexists. split; [done|]. by rewrite (proj2 (wake_waits _ c)).
      * intros (x & Hx & Hk). destruct (k_calls k !! i) as [c|] eqn:E; [|done]. injection Hx as <-.
        rewrite (proj2 (wake_waits _ c)) in Hk. by exists c.
  - assert (E : match a with ASettle => map (wake (refresh_result (k_auth k))) (k_calls k) | _ => k_calls k end = k_calls k) by (by destruct a).
    rewrite E. split; cbn; try done. intros c Hc Hw. apply (step_keeps_refresh a (k_auth k)); [done|done|]. by apply (H2 c).
Qed.

Lemma client_step_ok e k k' : client_ok k -> client_step location e k = Some k' -> client_ok k'.
Proof.
  intros Hk H. destruct e as [a|config|config|i e|i]; cbn [client_step] in H.
  - destruct (step a (k_auth k)) as [w|] eqn:E; [|done]. injection H as <-. by apply session_step.
  - injection H as <-. unfold api_get. destruct (disableDuplicate config); cbn [fst]; [by apply add_call|].
    destruct (own (k_inflight k) _) as [i|] eqn:E; cbn [fst]; [done|by apply add_get].
  - injection H as <-. by apply add_call.
  - destruct (k_calls k !! i) as [c|] eqn:Hc; [|done]. cbn [mbind option_bind] in H.
    destruct (call_step location e (k_auth k) c) as [[w' c']|] eqn:Hs; [|done]. injection H as <-.
    destruct (call_step_auth e _ _ _ _ Hs) as (Hr & Hw & Hkey & _). apply (change_call k i c c'); try done.
    apply (call_step_ok location e (k_auth k) c w'); [done|]. pose proof (ok_calls k Hk) as Hall. rewrite Forall_lookup in Hall. by apply (Hall i).
  - destruct (k_calls k !! i) as [c|] eqn:Hc; [|done]. cbn [mbind option_bind] in H. destruct (c_phase c) eqn:Hp; try done.
    destruct (c_key c) as [key|] eqn:Hkey; [|done]. injection H as <-. rewrite <- Hp. by apply (cleanup_call k i c key r).
Qed.
Lemma client_steps_ok k l k' : client_steps location k l k' -> client_ok k -> client_ok k'.
Proof. induction 1 as [|k e k1 l k' Hs _ IH]; [done|]. intros Hk. by apply IH, (client_step_ok e k). Qed.
Lemma initial_client_ok : client_ok initial_client.
Proof.
  split; cbn; [constructor|by intros c Hc%elem_of_nil|constructor|]. intros key i. split; [done|]. by intros (c & Hc & _).
Qed.
Lemma reachable_ok k : client_reachable location k -> client_ok k.
Proof. intros [l H]. apply (client_steps_ok _ _ _ H), initial_client_ok. Qed.

(** C35. In every interleaving with the session a call sends its request once, or a second time after the answer to the first was
    401; a call that spends a security proof or a single-use authorization, or that must not refresh, is never sent again,
    whatever the server answers.  A call is fulfilled only by a successful answer to the last request it sent. *)
Theorem call_replayed_once k i c : client_reachable location k -> k_calls k !! i = Some c ->
  let first := [MSent; MAnswer 401] in
  (exists before, (before = [] \/ before = first /\ may_retry (c_initial c) = true) /\
     (call_marks (c_trace c) = before \/ call_marks (c_trace c) = before ++ [MSent] \/
      exists s, call_marks (c_trace c) = before ++ [MSent; MAnswer s])) /\
  (forall data, c_phase c = CSettled (Fulfilled data) ->
     exists before s, call_marks (c_trace c) = before ++ [MSent; MAnswer s] /\ is_success s = true).
Proof.
  intros Hk Hc first. pose proof (ok_calls k (reachable_ok k Hk)) as Hall. rewrite Forall_lookup in Hall.
  destruct (Hall i c Hc) as [Ht Hr _ _ _]. split.
  - exists (before_retry c). split; [unfold before_retry; destruct (retried c); [right; by split; [|apply Hr]|by left]|].
    unfold trace_ok in Ht. destruct (c_phase c) as [| | | | | |[d|e]]; eauto.
    + destruct Ht as [_ Ht]. by left.
    + destruct Ht as [_ Ht]. by left.
    + destruct Ht as (s & _ & Ht). eauto.
  - intros data Hp. unfold trace_ok in Ht. rewrite Hp in Ht. destruct Ht as (s & Hs & Ht). by exists (before_retry c), s.
Qed.

(** * Calls end *)

(** How many steps a call has left. *)
Definition rank (c : api_call) : nat :=
  match c_phase c with
  | CSettled _ => 0
  | CRefreshing | CRefreshed _ => 4
  | CSent => if authRetry (c_config c) then 1 else 5
  | CFresh | CFreshDone _ => if authRetry (c_config c) then 2 else 6
  | CQueued => if authRetry (c_config c) then 3 else 7
  end.
Definition steps_of (i : nat) (l : list client_event) : nat :=
  length (List.filter (fun e => match e with OnCall j _ => Nat.eqb i j | _ => false end) l).

Lemma expire_rank status c : rank (expire location status c) = 0.
Proof. unfold expire. by destruct (redirectToSignIn location). Qed.
Lemma call_step_rank e w c w' c' : call_ok c -> call_step location e w c = Some (w', c') -> (rank c' < rank c)%nat.
Proof.
  intros Hok H. unfold call_step in H. destruct e as [now|status data| |now], (c_phase c) eqn:Hp; try done.
  - unfold request_interceptor in H. unfold rank at 2. rewrite Hp. destruct (single_use _); [|injection H as <- <-; cbn; destruct (authRetry _); lia].
    destruct (getFreshAuthHeaders now w) as [w1 [hs|]]; injection H as <- <-; cbn; destruct (authRetry _); lia.
  - unfold rank at 2. rewrite Hp. assert (Hpos : (0 < if authRetry (c_config c) then 1 else 5)%nat) by (destruct (authRetry _); lia).
    unfold handle_answer in H. destruct (is_success status).
    + destruct (_ && _); [|by injection H as <- <-]. destruct (applyAuthRotation _ w); by injection H as <- <-.
    + destruct (status =? 401)%Z; [|by injection H as <- <-]. destruct (negb (skipAuthRefresh (c_config c)) && negb (authRetry (c_config c))) eqn:E.
      * apply andb_true_iff in E as [_ E%negb_true_iff]. rewrite E. injection H as <- <-. cbn. lia.
      * destruct (authRetry (c_config c)); injection H as <- <-; [rewrite expire_rank; lia|cbn; lia].
  - injection H as <- <-. unfold rank. rewrite Hp. cbn. destruct (authRetry _); lia.
  - injection H as <- <-. unfold rank at 2. rewrite Hp. unfold fresh_resumed. destruct o as [o|]; [|cbn; destruct (authRetry _); lia].
    destruct (fresh_headers_after o now w); cbn; destruct (authRetry _); lia.
  - injection H as <- <-. unfold rank at 2. rewrite Hp. pose proof (ok_trace c Hok) as Ht. unfold trace_ok in Ht. rewrite Hp in Ht.
    destruct Ht as [Hr _]. unfold retried in Hr. apply andb_true_iff in Hr as [Hr _].
    unfold refresh_resumed. destruct o as [[b| |d|code]|]; rewrite ?expire_rank; cbn; rewrite ?Hr; lia.
Qed.
Lemma wake_rank o c : rank (wake o c) = rank c.
Proof. unfold wake, rank. destruct (c_phase c) eqn:E; cbn; by rewrite ?E. Qed.

(** A step of the client takes one from the steps of its call and none from the others; calls stay. *)
Lemma client_step_rank e k k' i c : client_ok k -> client_step location e k = Some k' -> k_calls k !! i = Some c ->
  exists c', k_calls k' !! i = Some c' /\ (steps_of i [e] + rank c' <= rank c)%nat.
Proof.
  intros Hk H Hc. destruct e as [a|config|config|j e|j]; cbn [client_step] in H.
  - destruct (step a (k_auth k)) as [w|]; [|done]. injection H as <-. cbn. assert (Ha : a = ASettle \/ a <> ASettle) by (destruct a; auto).
    destruct Ha as [->|Ha].
    + rewrite list_lookup_fmap, Hc. eexists. split; [done|]. by rewrite wake_rank.
    + exists c. split; [by destruct a|done].
  - injection H as <-. exists c. split; [|done]. unfold api_get. destruct (disableDuplicate config); [by apply lookup_app_l_Some|].
    destruct (own _ _); [done|]. by apply lookup_app_l_Some.
  - injection H as <-. exists c. split; [by apply lookup_app_l_Some|done].
  - destruct (k_calls k !! j) as [x|] eqn:Hx; [|done]. cbn [mbind option_bind] in H.
    destruct (call_step location e (k_auth k) x) as [[w' x']|] eqn:Hs; [|done]. injection H as <-. cbn.
    unfold steps_of. cbn [List.filter]. destruct (Nat.eqb_spec i j) as [<-|Hne].
    + rewrite Hc in Hx. injection Hx as <-. exists x'. split; [apply list_lookup_insert_eq; by apply lookup_lt_Some in Hc|].
      pose proof (ok_calls k Hk) as Hall. rewrite Forall_lookup in Hall. pose proof (call_step_rank e _ _ _ _ (Hall i c Hc) Hs). cbn. lia.
    + exists c. by rewrite list_lookup_insert_ne.
  - destruct (k_calls k !! j) as [x|] eqn:Hx; [|done]. cbn [mbind option_bind] in H. destruct (c_phase x) eqn:Hp; try done.
    destruct (c_key x); [|done]. injection H as <-. cbn. destruct (decide (i = j)) as [<-|Hne].
    + rewrite Hc in Hx. injection Hx as <-. eexists. split; [apply list_lookup_insert_eq; by apply lookup_lt_Some in Hc|].
      unfold rank. cbn. by rewrite Hp.
    + exists c. by rewrite list_lookup_insert_ne.
Qed.
Lemma steps_of_cons i e l : steps_of i (e :: l) = (steps_of i [e] + steps_of i l)%nat.
Proof. unfold steps_of. cbn [List.filter]. by destruct (match e with OnCall j _ => _ | _ => _ end). Qed.
Lemma client_steps_rank k l k' i c : client_steps location k l k' -> client_ok k -> k_calls k !! i = Some c ->
  exists c', k_calls k' !! i = Some c' /\ (steps_of i l + rank c' <= rank c)%nat.
Proof.
  intros H. revert c. induction H as [|k e k1 l k' Hs _ IH]; intros c Hk Hc; [exists c; split; [done|cbn; lia]|].
  destruct (client_step_rank e k k1 i c Hk Hs Hc) as (c1 & Hc1 & Hr1). destruct (IH c1 (client_step_ok e k k1 Hk Hs) Hc1) as (c' & Hc' & Hr').
  exists c'. split; [done|]. rewrite steps_of_cons. lia.
Qed.

(** The steps that can bring a call forward: its own, and those of the refresh it may wait for. *)
Definition moves (i : nat) (e : client_event) : bool :=
  match e with
  | OnCall j _ => Nat.eqb i j
  | Session (ABegin | AResponse _ | AWaited | ASettle) => true
  | _ => false
  end.
Lemma refresh_moves k : is_Some (a_refresh (k_auth k)) ->
  exists a, match a with ABegin | AResponse _ | AWaited | ASettle => true | _ => false end = true /\ is_Some (client_step location (Session a) k).
Proof.
  intros [r Hr]. destruct (r_phase r) as [n m|n m s|n m|o|] eqn:Hp; [exists ABegin|exists (AResponse (HttpResponse 0 JUndefined JUndefined))|exists AWaited|exists ASettle|exists ASettle];
    (split; [done|]); cbn [client_step step]; rewrite Hr; unfold refresh_step; rewrite Hp; try by eexists.
  destruct (isCurrent r (k_auth k)); [|by eexists]. destruct (handle_response _ _ _ _). by eexists.
Qed.

(** C36. No call is left hanging: in every run a call takes at most seven steps of its own, and until it is settled it can always
    go on, by a step of its own or, while it waits for a refresh, by a step of that refresh, which is still there. *)
Theorem calls_end k i c : client_reachable location k -> k_calls k !! i = Some c ->
  (forall l k', client_steps location k l k' -> (steps_of i l <= 7)%nat) /\
  ((exists r, c_phase c = CSettled r) \/ exists e, moves i e = true /\ is_Some (client_step location e k)).
Proof.
  intros Hk Hc. pose proof (reachable_ok k Hk) as Hok. split.
  - intros l k' Hl. destruct (client_steps_rank k l k' i c Hl Hok Hc) as (c' & _ & Hr).
    assert (rank c <= 7)%nat by (unfold rank; destruct (c_phase c); try destruct (authRetry _); lia). lia.
  - assert (Hown : forall e, is_Some (call_step location e (k_auth k) c) -> exists e, moves i e = true /\ is_Some (client_step location e k)).
    { intros e [[w' c'] He]. exists (OnCall i e). split; [apply Nat.eqb_refl|]. cbn [client_step]. rewrite Hc. cbn [mbind option_bind]. rewrite He. by eexists. }
    assert (Hwait : waits c = true -> exists e, moves i e = true /\ is_Some (client_step location e k)).
    { intros Hw. destruct (refresh_moves k) as (a & Ha & Hs); [apply (ok_waits k Hok c); [|done]; apply list_elem_of_lookup; by exists i|].
      exists (Session a). split; [|done]. by destruct a. }
    unfold waits in Hwait. destruct (c_phase c) as [| | | | | |r] eqn:Hp; [..|by left; exists r]; right; try (by apply Hwait).
    + apply (Hown (Intercept num_zero)). unfold call_step. rewrite Hp. by eexists.
    + apply (Hown (Resume num_zero)). unfold call_step. rewrite Hp. by eexists.
    + apply (Hown NoAnswer). unfold call_step. rewrite Hp. by eexists.
    + apply (Hown (Resume num_zero)). unfold call_step. rewrite Hp. by eexists.
Qed.

(** * GET requests that share an answer *)

Definition keyed (c : api_call) : Prop := forall key, c_key c = Some key -> exists sid, key = get_key sid (c_initial c).
Lemma keyed_same c c' : keyed c -> c_initial c' = c_initial c -> c_key c' = c_key c \/ c_key c' = None -> keyed c'.
Proof. intros H Hi [Hk|Hk] key Hkey; [rewrite Hi; apply H; congruence|congruence]. Qed.
Lemma client_step_keyed e k k' : Forall keyed (k_calls k) -> client_step location e k = Some k' -> Forall keyed (k_calls k').
Proof.
  intros Hk H. assert (Hnew : forall config, keyed (new_call config None)) by (by intros config key).
  destruct e as [a|config|config|i e|i]; cbn [client_step] in H.
  - destruct (step a (k_auth k)) as [w|]; [|done]. injection H as <-. cbn. destruct a; try done.
    rewrite Forall_map. rewrite Forall_forall in Hk |- *. intros c Hc. apply (keyed_same c); [by apply Hk| |left; apply wake_waits].
    unfold wake. by destruct (c_phase c).
  - injection H as <-. unfold api_get. destruct (disableDuplicate config); [by apply Forall_app_2; [|constructor; [apply Hnew|]]|].
    destruct (own _ _); [done|]. cbn. apply Forall_app_2; [done|]. constructor; [|constructor]. intros key [= <-]. by eexists.
  - injection H as <-. by apply Forall_app_2; [|constructor; [apply Hnew|]].
  - destruct (k_calls k !! i) as [c|] eqn:Hc; [|done]. cbn [mbind option_bind] in H.
    destruct (call_step location e (k_auth k) c) as [[w' c']|] eqn:Hs; [|done]. injection H as <-. apply Forall_insert; [done|].
    apply (keyed_same c); [rewrite Forall_lookup in Hk; by apply (Hk i)|apply (call_step_auth e _ _ _ _ Hs)|left; apply (call_step_auth e _ _ _ _ Hs)].
  - destruct (k_calls k !! i) as [c|] eqn:Hc; [|done]. cbn [mbind option_bind] in H. destruct (c_phase c); try done.
    destruct (c_key c); [|done]. injection H as <-. apply Forall_insert; [done|]. apply (keyed_same c); [rewrite Forall_lookup in Hk; by apply (Hk i)|done|by right].
Qed.
Lemma reachable_keyed k : client_reachable location k -> Forall keyed (k_calls k).
Proof.
  intros [l H]. assert (H0 : Forall keyed (k_calls initial_client)) by constructor. revert H0.
  induction H as [|k e k1 l k' Hs _ IH]; [done|]. intros H0. by apply IH, (client_step_keyed e k).
Qed.

(** A GET request that is not to be sent by itself gets the answer of a call for the same key, that is of the same session, URL
    and parameters; at any time there is one such call for each key. *)
Theorem get_shared config k : client_reachable location k -> disableDuplicate config = false ->
  let '(k', i) := api_get config k in
  let key := get_key (session_sid (k_auth k)) config in
  exists c sid, k_calls k' !! i = Some c /\ c_key c = Some key /\ key = get_key sid (c_initial c) /\
    forall j d, k_calls k' !! j = Some d -> c_key d = Some key -> j = i.
Proof.
  intros Hk Hd. pose proof (reachable_ok k Hk) as Hok. destruct (api_get config k) as [k' i] eqn:E. set (key := get_key _ config).
  assert (Hok' : client_ok k') by (apply (client_step_ok (Get config) k k' Hok); cbn; by rewrite E).
  assert (Hkeyed : Forall keyed (k_calls k')) by (apply (client_step_keyed (Get config) k k' (reachable_keyed k Hk)); cbn; by rewrite E).
  assert (Hown : own (k_inflight k') key = Some i).
  { unfold api_get in E. rewrite Hd in E. fold key in E. destruct (own (k_inflight k) key) as [j|] eqn:Ej; injection E as <- <-; [done|].
    cbn. rewrite own_assign, str_eqb_refl. done. }
  pose proof (proj1 (ok_inflight k' Hok' key i) Hown) as (c & Hc & Hkey). rewrite Forall_lookup in Hkeyed.
  destruct (Hkeyed i c Hc key Hkey) as [sid Hsid]. exists c, sid. repeat split; try done.
  intros j d Hj Hdk. assert (own (k_inflight k') key = Some j) by (apply (ok_inflight k' Hok'); by exists d). congruence.
Qed.
End Client.

(** * Redirects *)

Section Redirect.
Context {P : Platform}.
(** Lower case of Latin letters. *)
Hypothesis Hlow : forall s, forallb (fun c => (c <? 128)%Z) s = true -> toLowerCase s = ascii_lower s.

Definition path_language (pathname : jsstr) : option language :=
  match languageFromPathPrefix pathname with Some (Language l) => Some l | _ => None end.
Lemma prefix_language l : l <> ZhCN ->
  languageFromPathPrefix (js (CODE_TO_ROUTE_PREFIX l) ++ js "/sign-in") = Some (Language l).
Proof.
  intros H. unfold languageFromPathPrefix.
  assert (E : List.find truthy (split_char SLASH (js (CODE_TO_ROUTE_PREFIX l) ++ js "/sign-in")) = Some (tail (js (CODE_TO_ROUTE_PREFIX l))))
    by (by destruct l).
  rewrite E, Hlow by (by destruct l). by destruct l.
Qed.
Lemma plain_sign_in : languageFromPathPrefix (js "/sign-in") = None.
Proof.
  unfold languageFromPathPrefix. change (List.find truthy (split_char SLASH (js "/sign-in"))) with (Some (js "sign-in")).
  cbv iota beta. by rewrite Hlow by done.
Qed.
Lemma sign_in_paths pathname : sign_in_path pathname =
  match path_language pathname with Some l => js (CODE_TO_ROUTE_PREFIX l) ++ js "/sign-in" | None => js "/sign-in" end.
Proof.
  unfold sign_in_path, path_language, pathWithLanguage, stripRouteLocalePrefix. rewrite plain_sign_in.
  destruct (languageFromPathPrefix pathname) as [[[]|]|]; reflexivity.
Qed.
Lemma no_prefix_zhCN pathname : path_language pathname <> Some ZhCN.
Proof.
  unfold path_language, languageFromPathPrefix. destruct (List.find _ _) as [seg|]; [|done]. destruct (negb _); [done|].
  destruct (own ROUTE_PREFIX_TO_CODE (toLowerCase seg)) as [l|] eqn:E; [|by destruct (existsb _ _)].
  intros [= ->]. revert E. unfold ROUTE_PREFIX_TO_CODE. cbn [map fst snd own].
  repeat (match goal with |- context [str_eqb ?a ?b] => destruct (str_eqb a b) end; [done|]). done.
Qed.
Lemma sign_in_language pathname : path_language (sign_in_path pathname) = path_language pathname.
Proof.
  rewrite sign_in_paths. destruct (path_language pathname) as [l|] eqn:E.
  - unfold path_language. rewrite prefix_language; [done|]. intros ->. by apply (no_prefix_zhCN pathname).
  - unfold path_language. by rewrite plain_sign_in.
Qed.

(** A text that adds nothing to the structure of a URL. *)
Definition uri_safe (c : Z) : Prop := c = 37%Z \/ uri_unreserved c = true.
Lemma upper_hex_safe d : (0 <= d < 16)%Z -> uri_safe (upper_hex d).
Proof.
  intros H. right. assert (Hd : existsb (Z.eqb d) [0; 1; 2; 3; 4; 5; 6; 7; 8; 9; 10; 11; 12; 13; 14; 15]%Z = true) by (cbn; lia).
  cbn [existsb] in Hd. repeat (apply orb_true_iff in Hd as [Hd|Hd]; [apply Z.eqb_eq in Hd as ->; by vm_compute|]). done.
Qed.
Lemma percent_safe byte : (0 <= byte < 256)%Z -> Forall uri_safe (percent byte).
Proof.
  intros H. unfold percent. repeat (apply list.Forall_cons; split); [by left|apply upper_hex_safe..|constructor].
  - split; [apply Z.div_pos; lia|apply Z.div_lt_upper_bound; lia].
  - apply Z.mod_pos_bound. lia.
Qed.
Lemma utf8_bytes c : (0 <= c < 1114112)%Z -> Forall (fun b => 0 <= b < 256)%Z (utf8 c).
Proof.
  intros H. unfold utf8. destruct (c <? 128)%Z eqn:E1; [|destruct (c <? 2048)%Z eqn:E2; [|destruct (c <? 65536)%Z eqn:E3]];
    repeat (apply list.Forall_cons; split); try apply Forall_nil_2; try done; Z.div_mod_to_equations; lia.
Qed.
Lemma encoded_point c : (0 <= c < 1114112)%Z -> Forall uri_safe (concat (map percent (utf8 c))).
Proof.
  intros H%utf8_bytes. induction H as [|b l Hb _ IH]; [constructor|]. cbn [map concat]. apply Forall_app_2; [by apply percent_safe|done].
Qed.
Lemma encode_safe n : forall s enc, (length s <= n)%nat -> forallb is_code_unit s = true -> encodeURIComponent s = Ok enc -> Forall uri_safe enc.
Proof.
  induction n as [|n IH]; intros [|c s] enc Hn Hu H; cbn [length] in Hn; try lia; try (injection H as <-; constructor).
  cbn [encodeURIComponent] in H. cbn [forallb] in Hu. apply andb_true_iff in Hu as [Hc Hu].
  assert (Hrange : (0 <= c < 65536)%Z) by (unfold is_code_unit in Hc; lia).
  destruct (uri_unreserved c) eqn:Er.
  { destruct (encodeURIComponent s) as [rest|] eqn:E; [|done]. injection H as <-. constructor; [by right|]. apply (IH s); [lia|done|done]. }
  destruct (is_low_surrogate c); [done|]. destruct (is_high_surrogate c) eqn:Eh.
  - destruct s as [|d s]; [done|]. destruct (is_low_surrogate d) eqn:El; [|done]. destruct (encodeURIComponent s) as [rest|] eqn:E; [|done].
    injection H as <-. cbn [forallb] in Hu. apply andb_true_iff in Hu as [_ Hu]. apply Forall_app_2.
    + apply encoded_point. unfold is_high_surrogate in Eh. unfold is_low_surrogate in El. lia.
    + apply (IH s); [cbn [length] in Hn; lia|done|done].
  - destruct (encodeURIComponent s) as [rest|] eqn:E; [|done]. injection H as <-. apply Forall_app_2; [apply encoded_point; lia|apply (IH s); [lia|done|done]].
Qed.

(** The redirect of an expired session goes to the page of the same language to log in on, never from that page to itself, and
    the page to return to is one parameter: its text holds no character that ends or adds a part of the URL. *)
Theorem redirect_to_sign_in pathname search hash : forallb is_code_unit (pathname ++ search ++ hash) = true ->
  path_language (sign_in_path pathname) = path_language pathname /\
  signInRedirectTarget (sign_in_path pathname) search hash = Ok None /\
  forall target, signInRedirectTarget pathname search hash = Ok (Some target) ->
    exists returnTo, target = sign_in_path pathname ++ js "?redirect=" ++ returnTo /\ Forall uri_safe returnTo.
Proof.
  intros Hu. split; [apply sign_in_language|]. split.
  - unfold signInRedirectTarget. assert (E : sign_in_path (sign_in_path pathname) = sign_in_path pathname).
    { rewrite (sign_in_paths (sign_in_path pathname)), sign_in_language, <- sign_in_paths. done. }
    by rewrite E, str_eqb_refl.
  - intros target H. unfold signInRedirectTarget in H. destruct (str_eqb _ _); [done|].
    destruct (encodeURIComponent _) as [enc|] eqn:E; [|done]. injection H as <-. exists enc. split; [done|]. by apply (encode_safe _ _ _ (le_n _) Hu).
Qed.
End Redirect.

(** * Examples *)

Definition plain_config : request_config := Config (js "/api/user/self") JUndefined true false false false false false false None.
Definition bundle_object (token sid : string) : jsvalue :=
  let text k v := (js k, JStr (js v)) in
  JObj [text "access_token"%string token; text "token_type"%string "Bearer"%string; (js "access_expires_at", JNum (num_of_Z 1000));
        (js "user", JObj [(js "id", JNum num_one); text "username"%string "root"%string; (js "role", JNum num_one)]);
        (js "session", JObj [text "sid"%string sid; (js "current", JBool true); text "login_method"%string "password"%string;
           text "ip"%string "ip"%string; text "user_agent"%string "ua"%string; (js "created_at", JNum num_one);
           (js "last_active_at", JNum num_one); (js "expires_at", JNum num_one)])].
Definition refreshed_response : http_response :=
  HttpResponse 200 (JObj [(js "success", JBool true); (js "data", bundle_object "renewed" "s1")]) JUndefined.

(** Up to the second request of a call that was answered 401. *)
Definition retry_events : list client_event :=
  [Session (ABundle sample_bundle true); Get plain_config; OnCall 0 (Intercept num_zero); OnCall 0 (Answer 401 JNull);
   Session ABegin; Session (AResponse refreshed_response); Session ASettle; OnCall 0 (Resume num_zero); OnCall 0 (Intercept num_zero)].
Fixpoint run_client {P : Platform} (location : option (jsstr * jsstr * jsstr)) (l : list client_event) (k : client) : option client :=
  match l with [] => Some k | e :: l' => k1 ← client_step location e k; run_client location l' k1 end.
Lemma run_client_steps {P : Platform} location l : forall k k', run_client location l k = Some k' -> client_steps location k l k'.
Proof.
  induction l as [|e l IH]; intros k k' H; cbn [run_client] in H; [injection H as <-; constructor|].
  destruct (client_step location e k) as [k1|] eqn:E; [|done]. by apply (client_cons _ _ _ k1), IH.
Qed.
Definition retried_client : client :=
  match @run_client plain_platform None retry_events initial_client with Some k => k | None => initial_client end.
Lemma retried_reachable : @client_reachable plain_platform None retried_client.
Proof. exists retry_events. apply run_client_steps. by vm_compute. Qed.

(** A second answer 401 ends the session that is there when it arrives, although the request was sent for an older one: whoever
    logged in in between is logged out. *)
Definition other_bundle : auth_bundle :=
  AuthBundle (js "other") (js "Bearer") (num_of_Z 1000) sample_user
    (LoginSession (js "s2") true (js "password") (js "ip") (js "ua") num_one num_one num_one).
Theorem late_answer_logs_out : exists k, @run_client plain_platform None
    [Session (ABundle other_bundle true); OnCall 0 (Answer 401 JNull)] retried_client = Some k /\
  s_session (a_store (k_auth k)) = None /\
  exists c a, k_calls retried_client !! 0 = Some c /\ list.last (c_trace c) = Some (Sent a) /\ a = Some (js "Bearer renewed").
Proof. eexists. split; [vm_compute; reflexivity|]. split; [done|]. do 2 eexists. by split; [vm_compute; reflexivity|]. Qed.

(** * Witnesses *)

Definition retried_call : api_call := match k_calls retried_client !! 0 with Some c => c | None => new_call plain_config None end.
Lemma retried_lookup : k_calls retried_client !! 0 = Some retried_call.
Proof. by vm_compute. Qed.
Lemma retried_marks : call_marks (c_trace retried_call) = [MSent; MAnswer 401; MSent].
Proof. by vm_compute. Qed.
Lemma retried_sent : c_phase retried_call = CSent.
Proof. by vm_compute. Qed.

Lemma call_replayed_once_witness : k_calls retried_client !! 0 = Some retried_call /\
  call_marks (c_trace retried_call) = [MSent; MAnswer 401; MSent] /\ may_retry (c_initial retried_call) = true.
Proof.
  split; [exact retried_lookup|]. split; [exact retried_marks|].
  destruct (proj1 (@call_replayed_once plain_platform None retried_client 0 retried_call retried_reachable retried_lookup)) as (before & [->|[-> H]] & Hm);
    [|exact H].
  exfalso. rewrite retried_marks in Hm. destruct Hm as [Hm|[Hm|[s Hm]]]; discriminate Hm.
Defined.

Lemma calls_end_witness : exists e, moves 0 e = true /\ is_Some (@client_step plain_platform None e retried_client).
Proof.
  destruct (proj2 (@calls_end plain_platform None retried_client 0 retried_call retried_reachable retried_lookup)) as [[r H]|H]; [|exact H].
  rewrite retried_sent in H. discriminate H.
Defined.
